(* ===== verification/_CoqProject ===== *)
-Q . S2P
Prelude.v
RunBudgetLedger.v
LedgerSpec.v
LedgerTheory.v
LedgerProperties.v
Json.v
JsonTheory.v
RunStore.v
Rbac.v
Approvals.v
ApprovalsTheory.v
Reconciliation.v
ReconciliationTheory.v
ApprovalsProperties.v
ApprovalsLifecycle.v
ReconciliationProperties.v
Actions.v
ActionsProperties.v
SummaryState.v
ExecutionLease.v
LeaseProperties.v
TurnTranscript.v
TurnTranscriptTheory.v
TurnTranscriptProperties.v
RunUsage.v
RunLifecycle.v
RunLifecycleTheory.v
EventStore.v
RunLifecycleProperties.v
EventStoreProperties.v
StreamHub.v
StreamTheory.v
StreamProperties.v
ActionNode.v
ActionNodeProperties.v
ContextMetadata.v
ModelProfiles.v
ModelGateway.v
ModelGatewayProperties.v
ModelStreamProperties.v
ContextPolicy.v
ContextPolicyTheory.v
ContextPolicyProperties.v
Outcome.v
HistoryPlanner.v
HistoryPlannerTheory.v
HistoryPlannerProperties.v
JsonProjection.v
JsonProjectionTheory.v
JsonProjectionProperties.v
ContextBudget.v
ContextMemory.v
JsonParser.v
ContextAdmission.v
ContextAdmissionTheory.v
ContextSelection.v
ContextAdmissionProperties.v
UuidText.v
WorkLayer.v
WorkLayerProperties.v
HistoryRuntime.v
HistoryRuntimeTheory.v
HistoryRuntimeProperties.v
ToolObservation.v
RagEvidence.v
EvidenceRecords.v
EvidencePlan.v
EvidencePlanTheory.v
EvidencePlanProperties.v
EvidenceRegistry.v
SummaryPrompt.v
SummaryValidation.v
SummaryValidationTheory.v
SummaryValidationProperties.v
HistoryEvidence.v
AgentGraph.v
AgentGraphTheory.v
AgentGraphProperties.v
AgentPolicyProperties.v
AgentEvidenceProperties.v
