(* ===== verification/Prelude.v ===== *)
(** * AgentHub: the durable core of an agent runtime

    AgentHub runs language-model agents for many workspaces.  A run calls
    models and tools, may stop for a human approval of a risky action, is
    resumed later by another process, spends a budget, and is watched by any
    number of clients.  Processes crash, connections break and two workers may
    pick up the same run, so everything that matters is kept in PostgreSQL and
    changed in short transactions.  What a model is sent is assembled from
    untrusted parts (history, memory, tool results, retrieved evidence) under
    token budgets.  This library models that core (the packages
    [agent_runtime], [approvals], [tools], [control_plane], [model_gateway] and
    the evidence modules of [knowledge] and [wiki] under [src/packages]) and
    proves what it promises.  The theorems a reader should start from are
    numbered C1 to C40; the others are lemmas.

    ** How the code is modelled

    - Python values: a [str] is a list of code points, a [UUID] a number, an
      aware [datetime] microseconds since the epoch, a JSON value the type
      [Json.json], a [Decimal] amount an integer in a stated unit.
    - An operation is a program of the monad [Prelude.M]: state passing with
      exceptions.  A raised exception keeps the state; [session_scope] is the
      transaction that commits or rolls back.  Where the source talks to the
      database outside the caller's control, [ExecutionLease.transact] lets the
      transaction fail before or after its commit reached the database (this
      also covers rows the database refuses).  Code without state returns
      [outcome] ([Outcome]) or an option.
    - Row locks ([with_for_update]) make each transaction one step; concurrency
      is the interleaving of such steps ([step], [stream_step], [hub_life],
      [recorder_step], [service_call]), and [asyncio] timing is their order.
    - Code that is not in the repository is a parameter with named laws:
      SHA-256 and UUIDv5 ([Digests], [DigestText]), JSON Schema
      ([SchemaValidator], [JsonSchema]), Unicode tables ([Unicode],
      [UnicodeDecimal], [EastAsian]), [str] of a value ([PyStr]), text validators ([SafeTexts]),
      remote executors, the checkpoint probe and the resume dispatcher.

    ** Files

    - [Prelude]: Python texts, the effect monad and its triples, sums over
      maps, the tactics [run_inv_in], [mstep], [breflect] and the hint database
      [agenthub].  [Outcome]: sequencing of [outcome].
    - [RunBudgetLedger] ([run_budget_ledger.py], its tables in [models.py] and
      the triggers of migration 0045), [LedgerSpec] (the abstract budget),
      [LedgerTheory], [LedgerProperties] (C1, C13, C14): every method refines the
      abstract budget, stored totals are explained by the attempts, no
      constraint ever trips.
    - [Json], [JsonTheory]: canonical JSON ([core/canonical/json_hash.py]);
      [JsonParser] (C40): Python's [json.loads], which reads canonical text back.
    - [RunStore]: rows of [agent_runs], [run_steps], [agent_run_events],
      [approvals], [audit_logs], [customers], [tickets] and the session.
    - [Rbac] ([control_plane/rbac.py], execution contexts).
    - [Approvals] ([approvals/contracts.py], [service.py], [control_plane/audit.py],
      the withdrawal of [evaluation/interactive_lifecycle.py]),
      [ApprovalsTheory], [ApprovalsProperties] (identity of a proposed action,
      idempotent proposal), [ApprovalsLifecycle] (C17-C20: approvals only move
      forward, one claim, who may decide, and an unguarded transition).
    - [Reconciliation] ([approvals/reconciliation.py]), [ReconciliationTheory],
      [ReconciliationProperties] (C21: a reconciled run is settled; also
      idempotence and fairness of the batch).
    - [Actions] ([tools/actions.py], [policy.py], [contracts.py]),
      [ActionsProperties] (C22): an action takes effect at most once and its
      verdict is true.
    - [SummaryState] ([summary_state.py], C23): one dispatch per summary job.
    - [ExecutionLease] ([execution_lease.py]), [LeaseProperties] (C24): mutual
      exclusion of workers under crashes, clocks and database faults.
    - [TurnTranscript] ([history_transcript.py]), [TurnTranscriptTheory],
      [TurnTranscriptProperties] (C25, C26): exactly the complete turns are
      accepted; stored payloads read back.
    - [RunUsage] ([runtime_projection.py]): the cost guard fails closed.
    - [RunLifecycle] (every write of a run's row outside the lease, the
      approvals and reconciliation: the methods of [runtime_service.py] with the
      outcomes they report, the tasks of [apps/worker/tasks/agent_runs.py], the
      episodes of [evaluation/interactive_lifecycle.py]), [RunLifecycleTheory],
      [RunLifecycleProperties] (C27-C29): the writers respect the lease protocol
      (class [RunWriter] discharges [FencedWriter]), ended runs stay ended and
      are never claimed again, completion is truthful.
    - [EventStore] ([events.py], [event_store.py]), [EventStoreProperties]
      (C30, C31): recorded events are durable; the completeness mark is sound.
    - [StreamHub] ([stream_hub.py], [attach_stream], [_emit]), [StreamTheory],
      [StreamProperties] (C32, C33): a follower is in order and, of a run that
      was not resumed, misses nothing (of a resumed run it can, which
      [resumed_follower_can_miss_event] shows); a hub aborts its run exactly when
      its grace window ends without an audience.
    - [ActionNode] ([runtime_graph.py]: the node [action_execute]),
      [ActionNodeProperties] (C34): composed with approvals, leases of others
      and the action runtime, an approved action is executed at most once.  The
      state keeps a log of every call of the runtime with its arguments and
      answer ([sent], [calls]) and of the row each completion found ([found]).
      The program never reads the logs; the theorem ties them to what ran.
    - [ContextMetadata] ([model_gateway/context_metadata.py],
      [capabilities.py]): declared limits, which read back as written.
    - [ModelProfiles] ([profile_resolution.py], [errors.py], [contracts.py]):
      resolving a fallback chain terminates and finds exactly the usable chains.
    - [ModelGateway] ([gateway.py], [run_budget_adapter.py] and
      [agent_runtime/model_budget_adapter.py]), [ModelGatewayProperties] (C15):
      retries, fallbacks and streams composed with the ledger never call a
      provider without a reservation, twice, or beyond the limit;
      [ModelStreamProperties] (C16): a stream never mixes attempts.
    - [ContextPolicy] ([context_policy.py]), [ContextPolicyTheory],
      [ContextPolicyProperties] (C35): a validated policy fits every model of
      the chain.
    - [HistoryPlanner] ([history_planner.py]), [HistoryPlannerTheory],
      [HistoryPlannerProperties] (C11, C36): plans drop only optional groups, for
      the reason they name, decide on every group, and do not depend on the order
      of the groups.
    - [JsonProjection] (the projection of tool results in [context_budget.py]),
      [JsonProjectionTheory], [JsonProjectionProperties] (C37): what is shown of
      a result fits, is labelled, never invented, and marked if anything is missing.
    - [ContextBudget], [ContextMemory], [ContextAdmission] ([context_budget.py]:
      token estimates, recalled memory, admission of a request),
      [ContextAdmissionTheory], [ContextSelection],
      [ContextAdmissionProperties] (C9, C10, C38): an admitted request fits every
      model, is the conversation it was given, and reports memory exactly.
    - [UuidText] ([UUID(text)]), [WorkLayer] ([work_layer.py]),
      [WorkLayerProperties]: stored snapshots carry the hash of their content.
    - [HistoryRuntime] ([history_runtime.py]), [HistoryRuntimeTheory],
      [HistoryRuntimeProperties] (C12): a history view sends everything its
      frozen sources contribute, or nothing.
    - [ToolObservation] ([runtime_projection.py]: [_bounded_tool_result]).
    - [RagEvidence] ([rag_evidence.py]): search results are delivered as
      whole records with their own references.
    - [EvidenceRecords] ([knowledge/evidence_records.py],
      [wiki/evidence_envelope.py]): overlap filtering loses no text.
    - [EvidencePlan] ([knowledge/evidence_plan.py]), [EvidencePlanTheory],
      [EvidencePlanProperties] (C39): every item a model is shown can be traced
      to a record and its reference; reprojection only removes.
    - [EvidenceRegistry] ([evidence_registry.py]): what assembled plans show
      resolves.
    - [HistoryEvidence] ([history_evidence.py], C6): evidence of an earlier turn
      is restored only if it is authorized and both runs have frozen its source.
    - [SummaryPrompt] ([summary_prompt.py]), [SummaryValidation]
      ([summary_validation.py]), [SummaryValidationTheory],
      [SummaryValidationProperties] (C7, C8): a summary is accepted exactly when
      it is faithful, and the text that replaces its sources loses nothing that
      must be kept.
    - [AgentGraph] ([runtime_graph.py]: model, proposal, policy, read,
      observation and finish nodes, routers, the graph), [AgentGraphTheory]
      (with a concrete agent), [AgentGraphProperties] (C3, C4: the
      loop ends within its limits; every round with the model is answered in full),
      [AgentPolicyProperties] (C2: executed actions were proposed and approved),
      [AgentEvidenceProperties] (C5: observation, evidence plans and the check
      before every model call composed: evidence stays resolvable).

    ** Interfaces

    [LedgerSpec] states the abstract budget that [RunBudgetLedger] refines.
    [ExecutionLease.env_ok] and its class [FencedWriter] are what the lease
    needs of every other writer of a run; [RunLifecycleTheory.RunWriter] is
    proved of each service method and gives it.  [EventStoreProperties.grows]
    is what a recorder promises to readers, and [StreamTheory.published] what
    a publisher promises to followers.  [ModelGatewayProperties.fair] is what a
    gateway asks of everybody who shares the ledger, and what it gives them.
    [TokenEstimator] and [Reprojection] are what admission needs of an estimator
    and of evidence projections; [ApproxTokenEstimator] is the runtime's own.
    [JsonText] is what readers of JSON need, and [JsonParser.python_json]
    provides it ([FloatText], [repr(float(text))], is left).  [GraphEnv] is what
    the graph needs of its service: models, tools, approvals, the clock.

    ** Bounds and fuel

    Bounds of the source are kept as numbers ([MAX_*], [_QUEUE_MAXSIZE] 2048,
    subscriber queues 512, source queue 256, replay pages 500, lease 180 s).
    Recursion is structural, except for: [TurnTranscript.validate_groups] (fuel:
    the number of messages; each round consumes one),
    [ModelProfiles.resolve_from] (one more than the number of profiles; each
    round visits a new one, and [resolve_chain_terminates] proves it enough),
    the binary searches for a prefix of a text (its length, or its length plus
    one, since each step shortens the interval), [ContextAdmission.drop_oldest] (the
    number of exchanges, one being dropped per round), [AgentGraph.run_graph]
    (C3 proves 6 * max_steps + 16 enough) and [JsonParser.value] (twice the
    length of the text plus two; C40 shows it enough for canonical text).  The
    node and depth budgets of [walk] and of
    [SummaryValidation.bounded_tree] are the source's own counters.  The replay
    loop of a follower is a step per page, so it needs no fuel.

    ** Not modelled

    The nodes [prepare] and [summary] of the graph and the part of [model]
    between its guards and the response are fields of [GraphEnv]; LangGraph's
    own step limit and checkpoints are left out.  Provider adapters,
    credentials and egress policy, the summary service (the state
    machine, prompt and validation it composes are modelled),
    threads, ingestion, retrieval and compilation of knowledge and wikis,
    long-term memory, the evaluation harness (what its interactive episodes write
    into runs and approvals is modelled), the HTTP and worker processes (the
    transactions of the run tasks are modelled), MCP servers and the web client are provider, storage and presentation I/O around this
    core.  Python's limits on recursion and on the digits of an integer, trace
    spans and log lines are left out. *)

From stdpp Require Import base gmap list strings sorting.
From Stdlib Require Import ZArith NArith Lia.

(** ** Python values *)

(** A Python [str] is the sequence of its Unicode code points. *)
Abbreviation pystr := (list N) (only parsing).
(** A [uuid.UUID] is a 128-bit number; only its identity matters here. *)
Abbreviation uuid := N (only parsing).
(** An aware [datetime] is its distance from the epoch in microseconds. *)
Abbreviation datetime := Z (only parsing).

(** ASCII literals of the source. *)
Fixpoint lit (s : string) : list N :=
  match s with
  | EmptyString => []
  | String a r => Ascii.N_of_ascii a :: lit r
  end.

(** The characters [str.strip()] and [str.isspace()] treat as white space. *)
Definition py_isspace (c : N) : bool :=
  ((9 <=? c) && (c <=? 13) || (28 <=? c) && (c <=? 32) || (c =? 133) || (c =? 160)
   || (c =? 5760) || (8192 <=? c) && (c <=? 8202) || (c =? 8232) || (c =? 8233)
   || (c =? 8239) || (c =? 8287) || (c =? 12288))%N.

Fixpoint drop_while {A} (p : A → bool) (l : list A) : list A :=
  match l with
  | [] => []
  | x :: r => if p x then drop_while p r else l
  end.

Definition strip_with (p : N → bool) (s : list N) : list N :=
  reverse (drop_while p (reverse (drop_while p s))).
(** [s.strip()] *)
Definition py_strip (s : list N) : list N := strip_with py_isspace s.
(** PostgreSQL [btrim(s)]: blanks only. *)
Definition pg_btrim (s : list N) : list N := strip_with (N.eqb 32) s.

Lemma drop_while_length {A} (p : A → bool) l : length (drop_while p l) ≤ length l.
Proof. induction l as [|x l IH]; cbn; [done|]. destruct (p x); cbn; lia. Qed.

Lemma drop_while_id {A} (p : A → bool) l :
  length (drop_while p l) = length l → ∀ q : A → bool,
  (∀ x, q x = true → p x = true) → drop_while q l = l.
Proof.
  destruct l as [|x l]; cbn; [done|]. intros Hlen q Hq.
  destruct (q x) eqn:E; [|done]. rewrite (Hq _ E) in Hlen.
  pose proof (drop_while_length p l). lia.
Qed.

(** A text left unchanged by stripping is left unchanged by any stripping of
    fewer characters. *)
Lemma strip_with_mono (p q : N → bool) s :
  (∀ c, q c = true → p c = true) → strip_with p s = s → strip_with q s = s.
Proof.
  intros Hqp Hs. unfold strip_with in *.
  assert (length (drop_while p s) = length s) as Hl.
  { pose proof (drop_while_length p s).
    pose proof (drop_while_length p (reverse (drop_while p s))) as Hr.
    apply (f_equal length) in Hs. rewrite length_reverse in Hs, Hr. lia. }
  rewrite (drop_while_id p s Hl p) in Hs by done.
  rewrite (drop_while_id p s Hl q Hqp).
  apply (f_equal length) in Hs. rewrite length_reverse in Hs.
  rewrite (drop_while_id p (reverse s)); [apply reverse_involutive | | done].
  by rewrite length_reverse.
Qed.

(** ** Effects: state passing with exceptions

    A raised exception keeps the state reached so far: the writes of an
    aborted operation stay in the open transaction until somebody rolls it
    back ([atomically]). *)
Inductive outcome (E A : Type) : Type :=
| Return (a : A)
| Raise (e : E).
Arguments Return {_ _} _.
Arguments Raise {_ _} _.

Definition M (S E A : Type) : Type := S → outcome E A * S.

Section Monad.
Context {S E : Type}.

#[global] Instance M_ret : MRet (M S E) := λ A a s, (Return a, s).
#[global] Instance M_bind : MBind (M S E) := λ A B f m s,
  match m s with
  | (Return a, s') => f a s'
  | (Raise e, s') => (Raise e, s')
  end.

Definition get : M S E S := λ s, (Return s, s).
Definition put (s' : S) : M S E unit := λ _, (Return tt, s').
Definition modify (f : S → S) : M S E unit := λ s, (Return tt, f s).
Definition raise {A} (e : E) : M S E A := λ s, (Raise e, s).
(** [if cond: raise e] *)
Definition raise_if (b : bool) (e : E) : M S E unit :=
  if b then raise e else mret tt.

(** [async with session.begin():] -- commit on success, roll back on an
    exception. *)
Definition atomically {A} (m : M S E A) : M S E A := λ s,
  match m s with
  | (Return a, s') => (Return a, s')
  | (Raise e, _) => (Raise e, s)
  end.

(** [try: m except e: h e] *)
Definition catch {A} (m : M S E A) (h : E → M S E A) : M S E A := λ s,
  match m s with
  | (Return a, s') => (Return a, s')
  | (Raise e, s') => h e s'
  end.

Lemma bind_run {A B} (m : M S E A) (f : A → M S E B) s :
  (m ≫= f) s = match m s with
               | (Return a, s') => f a s'
               | (Raise e, s') => (Raise e, s')
               end.
Proof. reflexivity. Qed.

Lemma bind_return {A B} (m : M S E A) (f : A → M S E B) s a s' :
  m s = (Return a, s') → (m ≫= f) s = f a s'.
Proof. intros H. by rewrite bind_run, H. Qed.

Lemma bind_raise {A B} (m : M S E A) (f : A → M S E B) s e s' :
  m s = (Raise e, s') → (m ≫= f) s = (Raise e, s').
Proof. intros H. by rewrite bind_run, H. Qed.

Lemma bind_inv {A B} (m : M S E A) (f : A → M S E B) s b s' :
  (m ≫= f) s = (Return b, s') →
  ∃ a s1, m s = (Return a, s1) ∧ f a s1 = (Return b, s').
Proof. rewrite bind_run. destruct (m s) as [[a|e] s1]; naive_solver. Qed.

Lemma raise_if_false (e : E) s : raise_if false e s = (Return tt, s).
Proof. reflexivity. Qed.

Lemma raise_if_inv b (e : E) s u s' :
  raise_if b e s = (Return u, s') → b = false ∧ s' = s.
Proof. destruct b; cbn; [discriminate | intros [= _ <-]; auto]. Qed.

Lemma raise_if_cases b (e : E) s :
  raise_if b e s = (if b then Raise e else Return tt, s).
Proof. by destruct b. Qed.
End Monad.

(** ** Programs that do not touch the state *)

Section Pure.
Context {S E : Type}.

(** [m] neither reads nor writes the state: an argument check. *)
Class Pure {A} (m : M S E A) : Prop := pure_run : ∃ r, ∀ s, m s = (r, s).

#[global] Instance pure_ret {A} (a : A) : Pure (mret a : M S E A).
Proof. by exists (Return a). Qed.
#[global] Instance pure_raise {A} (e : E) : Pure (raise e : M S E A).
Proof. by exists (Raise e). Qed.
#[global] Instance pure_raise_if b (e : E) : Pure (raise_if b e : M S E unit).
Proof. destruct b; apply _. Qed.
#[global] Instance pure_bind {A B} (m : M S E A) (f : A → M S E B) :
  Pure m → (∀ a, Pure (f a)) → Pure (m ≫= f).
Proof.
  intros [[a|e] Hm] Hf.
  - destruct (Hf a) as [r Hr]. exists r. intros s. by rewrite bind_run, Hm, Hr.
  - exists (Raise e). intros s. by rewrite bind_run, Hm.
Qed.

(** Its outcome can be computed in any state. *)
Lemma pure_at {A} (m : M S E A) `{!Pure m} s0 s : m s = (fst (m s0), s).
Proof. destruct (pure_run (m := m)) as [r Hr]. by rewrite !Hr. Qed.

Lemma pure_state {A} (m : M S E A) `{!Pure m} s r s' : m s = (r, s') → s' = s.
Proof. destruct (pure_run (m := m)) as [r0 Hr]. rewrite Hr. congruence. Qed.

Lemma pure_transfer {A} (m : M S E A) `{!Pure m} s r s' t : m s = (r, s') → m t = (r, t).
Proof. destruct (pure_run (m := m)) as [r0 Hr]. rewrite !Hr. congruence. Qed.

(** A pure first command returns the same value wherever it is run. *)
Lemma pure_bind_inv {A B} (m : M S E A) `{!Pure m} (f : A → M S E B) s b s' :
  (m ≫= f) s = (Return b, s') →
  ∃ a, f a s = (Return b, s') ∧ ∀ t, m t = (Return a, t).
Proof.
  intros (a & s1 & Hm & Hf)%bind_inv. exists a. pose proof (pure_state m _ _ _ Hm) as ->.
  split; [done|]. intros t. by eapply pure_transfer.
Qed.
End Pure.

(** ** Proof automation *)

(** Split a successful run of a monadic program into the runs of its parts. *)
Ltac run_inv_in H :=
  lazymatch type of H with
  | mbind _ _ _ = (Return _, _) =>
      let a := fresh "a" in let s := fresh "s" in
      let H1 := fresh "H" in let H2 := fresh "H" in
      apply bind_inv in H as (a & s & H1 & H2); cbn beta in H2;
      run_inv_in H1; run_inv_in H2
  | raise_if _ _ _ = (Return _, _) =>
      let Hb := fresh "Hb" in let Hs := fresh "Hs" in
      apply raise_if_inv in H as [Hb Hs]; subst
  | mret _ _ = (Return _, _) =>
      let H1 := fresh in let H2 := fresh in
      injection H as H1 H2; subst
  | raise _ _ = (Return _, _) => discriminate H
  | get _ = (Return _, _) => injection H as <- <-
  | put _ _ = (Return _, _) => injection H as _ <-
  | modify _ _ = (Return _, _) => injection H as _ <-
  | _ => idtac
  end.

(** Run the first command of a monadic program. *)
Ltac msimpl := cbn [get put modify raise_if raise mret M_ret andb orb negb].
Ltac mstep := rewrite bind_run; msimpl.

(** Turn boolean tests of the source into propositions. *)
Ltac breflect :=
  repeat match goal with
  | H : _ && _ = true |- _ => apply andb_true_iff in H as [? ?]
  | H : _ || _ = false |- _ => apply orb_false_iff in H as [? ?]
  | H : negb _ = true |- _ => apply negb_true_iff in H
  | H : negb _ = false |- _ => apply negb_false_iff in H
  | H : bool_decide _ = true |- _ => apply bool_decide_eq_true_1 in H
  | H : bool_decide _ = false |- _ => apply bool_decide_eq_false_1 in H
  | H : (_ <=? _)%Z = true |- _ => apply Z.leb_le in H
  | H : (_ <=? _)%Z = false |- _ => apply Z.leb_gt in H
  | H : (_ <? _)%Z = true |- _ => apply Z.ltb_lt in H
  | H : (_ <? _)%Z = false |- _ => apply Z.ltb_ge in H
  | H : (_ =? _)%Z = true |- _ => apply Z.eqb_eq in H
  | H : (_ =? _)%Z = false |- _ => apply Z.eqb_neq in H
  end.

Create HintDb agenthub.

Lemma elem_of_two {A} (x a b : A) : x ∈ [a; b] ↔ x = a ∨ x = b.
Proof. rewrite list_elem_of_In. cbn. intuition congruence. Qed.

(** ** Sums over finite maps (SQL [SUM ... WHERE]) *)

Section SumMap.
Context `{Countable K} {A : Type}.
Implicit Types (f : K → A → Z) (m : gmap K A).

Definition sum_map f m : Z := map_fold (λ k a acc, f k a + acc)%Z 0%Z m.

Lemma sum_map_empty f : sum_map f ∅ = 0%Z.
Proof. apply map_fold_empty. Qed.

Lemma sum_map_insert f m k a :
  m !! k = None → sum_map f (<[k:=a]> m) = (f k a + sum_map f m)%Z.
Proof. intros Hk. unfold sum_map. rewrite map_fold_insert_L; [done | lia | done]. Qed.

Lemma sum_map_delete f m k a :
  m !! k = Some a → sum_map f m = (f k a + sum_map f (delete k m))%Z.
Proof.
  intros Hk. rewrite <- (insert_delete_id m k a Hk) at 1.
  apply sum_map_insert, lookup_delete_eq.
Qed.

Lemma sum_map_update f m k a b :
  m !! k = Some a → sum_map f (<[k:=b]> m) = (sum_map f m - f k a + f k b)%Z.
Proof.
  intros Hk. rewrite <- insert_delete_eq, sum_map_insert by apply lookup_delete_eq.
  rewrite (sum_map_delete f m k a Hk). lia.
Qed.

Lemma sum_map_nonneg f m :
  (∀ k a, m !! k = Some a → 0 <= f k a)%Z → (0 <= sum_map f m)%Z.
Proof.
  induction m as [|k a m Hk IH] using map_ind; intros Hf.
  - by rewrite sum_map_empty.
  - rewrite sum_map_insert by done.
    pose proof (Hf k a (lookup_insert_eq _ _ _)).
    assert (0 <= sum_map f m)%Z; [|lia].
    apply IH. intros k' a' Hk'. apply Hf.
    rewrite lookup_insert_ne; [done | congruence].
Qed.

Lemma sum_map_lookup_le f m k a :
  (∀ k a, m !! k = Some a → 0 <= f k a)%Z →
  m !! k = Some a → (f k a <= sum_map f m)%Z.
Proof.
  intros Hf Hk. rewrite (sum_map_delete f m k a Hk).
  assert (0 <= sum_map f (delete k m))%Z; [|lia].
  apply sum_map_nonneg. intros k' a' [_ Hk']%lookup_delete_Some. eauto.
Qed.

Lemma sum_map_ext f g m :
  (∀ k a, m !! k = Some a → f k a = g k a) → sum_map f m = sum_map g m.
Proof.
  induction m as [|k a m Hk IH] using map_ind; intros Hfg.
  - by rewrite !sum_map_empty.
  - rewrite !sum_map_insert, (Hfg k a (lookup_insert_eq _ _ _)) by done.
    f_equal. apply IH. intros k' a' Hk'. apply Hfg.
    rewrite lookup_insert_ne; [done | congruence].
Qed.

Lemma sum_map_add f g m :
  sum_map (λ k a, f k a + g k a)%Z m = (sum_map f m + sum_map g m)%Z.
Proof.
  induction m as [|k a m Hk IH] using map_ind; [by rewrite !sum_map_empty|].
  rewrite !sum_map_insert by done. lia.
Qed.
End SumMap.

Lemma sum_map_fmap `{Countable K} {A B} (g : A → B) (f : K → B → Z) (m : gmap K A) :
  sum_map f (g <$> m) = sum_map (λ k a, f k (g a)) m.
Proof.
  induction m as [|k a m Hk IH] using map_ind; [by rewrite fmap_empty, !sum_map_empty|].
  rewrite fmap_insert, !sum_map_insert by (rewrite ?lookup_fmap, ?Hk; done). lia.
Qed.

(** ** Triples for programs of the effect monad

    [hoare P m Q R]: started in a state that satisfies [P], the program [m]
    either returns [a] in a state that satisfies [Q a] or raises [e] in a state
    that satisfies [R e].  The rules follow the structure of the programs. *)

Section Hoare.
Context {S E : Type}.

Definition hoare {A} (P : S → Prop) (m : M S E A) (Q : A → S → Prop) (R : E → S → Prop) : Prop :=
  ∀ s r s', P s → m s = (r, s') → match r with Return a => Q a s' | Raise e => R e s' end.

Lemma hoare_run {A} P (m : M S E A) Q R s :
  hoare P m Q R → P s → match m s with (Return a, s') => Q a s' | (Raise e, s') => R e s' end.
Proof. intros Hm HP. destruct (m s) as [[a|e] s'] eqn:E0; exact (Hm s _ _ HP E0). Qed.

Lemma hoare_ret {A} (P : S → Prop) (a : A) (Q : A → S → Prop) R :
  (∀ s, P s → Q a s) → hoare P (mret a) Q R.
Proof. intros H s r s' HP [= <- <-]. exact (H s HP). Qed.

Lemma hoare_raise {A} (P : S → Prop) (e : E) (Q : A → S → Prop) (R : E → S → Prop) :
  (∀ s, P s → R e s) → hoare P (raise e) Q R.
Proof. intros H s r s' HP [= <- <-]. exact (H s HP). Qed.

Lemma hoare_bind {A B} P (m : M S E A) (f : A → M S E B) Q Q' R :
  hoare P m Q R → (∀ a, hoare (Q a) (f a) Q' R) → hoare P (m ≫= f) Q' R.
Proof.
  intros Hm Hf s r s' HP. rewrite bind_run. pose proof (hoare_run P m Q R s Hm HP) as H.
  destruct (m s) as [[a|e] s1]; [intros E1; exact (Hf a s1 r s' H E1)|].
  intros [= <- <-]. exact H.
Qed.

Lemma hoare_catch {A} P (m : M S E A) h Q R R' :
  hoare P m Q R → (∀ e, hoare (R e) (h e) Q R') → hoare P (catch m h) Q R'.
Proof.
  intros Hm Hh s r s' HP. unfold catch. pose proof (hoare_run P m Q R s Hm HP) as H.
  destruct (m s) as [[a|e] s1]; [intros [= <- <-]; exact H|].
  intros E1. exact (Hh e s1 r s' H E1).
Qed.

Lemma hoare_get {A} (f : S → M S E A) P Q R :
  (∀ s0, hoare (λ s, s = s0 ∧ P s) (f s0) Q R) → hoare P (get ≫= f) Q R.
Proof. intros Hf s r s' HP E0. exact (Hf s s r s' (conj eq_refl HP) E0). Qed.

Lemma hoare_modify (P : S → Prop) (f : S → S) (Q : unit → S → Prop) R :
  (∀ s, P s → Q tt (f s)) → hoare P (modify f) Q R.
Proof. intros H s r s' HP [= <- <-]. exact (H s HP). Qed.

Lemma hoare_raise_if b (e : E) P (Q : unit → S → Prop) (R : E → S → Prop) :
  (∀ s, P s → b = true → R e s) → (∀ s, P s → b = false → Q tt s) → hoare P (raise_if b e) Q R.
Proof. intros HR HQ s r s' HP. destruct b; intros [= <- <-]; auto. Qed.

Lemma hoare_conseq {A} (P P' : S → Prop) (m : M S E A) (Q Q' : A → S → Prop)
    (R R' : E → S → Prop) :
  hoare P m Q R → (∀ s, P' s → P s) → (∀ a s, Q a s → Q' a s) → (∀ e s, R e s → R' e s) →
  hoare P' m Q' R'.
Proof.
  intros Hm HP HQ HR s r s' Hs E0. specialize (Hm s r s' (HP s Hs) E0). destruct r; auto.
Qed.

Lemma hoare_pre {A} (P P' : S → Prop) (m : M S E A) Q R :
  hoare P m Q R → (∀ s, P' s → P s) → hoare P' m Q R.
Proof. intros Hm HP. by eapply hoare_conseq. Qed.

(** A fact about the precondition may be used to prove the triple. *)
Lemma hoare_fact {A} (F : Prop) (P : S → Prop) (m : M S E A) Q R :
  (∀ s, P s → F) → (F → hoare P m Q R) → hoare P m Q R.
Proof. intros HF Hm s r s' HP. exact (Hm (HF s HP) s r s' HP). Qed.

(** Two descriptions of one run. *)
Lemma hoare_and {A} P P' (m : M S E A) Q Q' R R' :
  hoare P m Q R → hoare P' m Q' R' →
  hoare (λ s, P s ∧ P' s) m (λ a s, Q a s ∧ Q' a s) (λ e s, R e s ∧ R' e s).
Proof.
  intros H1 H2 s r s' [HP HP'] E0. specialize (H1 s r s' HP E0). specialize (H2 s r s' HP' E0).
  destruct r; done.
Qed.
End Hoare.
