(* ===== verification/RunBudgetLedger.v ===== *)
(** * The Run budget ledger

    Model of [packages/agent_runtime/run_budget_ledger.py] and of the guards
    migration 0045 installs on its two tables.  The state is the pair of
    tables; every method of [RunBudgetLedger] is a program of the exception
    monad over that state, so an exception leaves the writes made before it in
    the open transaction, as the source does.

    Amounts are [Numeric(20, 8)] values, written as integers in units of
    [10^-8].  [isinstance] tests are discharged by the types of the arguments;
    [uuid4()] and [datetime.now()] are arguments of the operations. *)

From stdpp Require Import base gmap list strings sorting.
From Stdlib Require Import ZArith NArith Lia.
From S2P Require Import Prelude.

Local Open Scope Z_scope.

(** ** Decimals *)

(** A Python [Decimal]: [as_tuple()] of a finite one is its sign, coefficient
    and exponent. *)
Inductive decimal :=
| DFinite (signed : bool) (coefficient : N) (exponent : Z)
| DInfinity (signed : bool)
| DNaN (signed : bool).

Definition AMOUNT_PRECISION : Z := 20.
Definition AMOUNT_SCALE : Z := 8.
(** [Decimal("999999999999.99999999")] in units. *)
Definition MAX_AMOUNT : Z := 99999999999999999999.
Definition MAX_ATTEMPT_IDENTITY_LENGTH : nat := 128.
Definition MAX_EVIDENCE_IDENTITY_LENGTH : nat := 256.

(** [len(digits)] of the coefficient ([0] has one digit). *)
Fixpoint count_digits (fuel : nat) (n : N) : nat :=
  match fuel with
  | O => 1%nat
  | S fuel' => if (n <? 10)%N then 1%nat else S (count_digits fuel' (n / 10)%N)
  end.
Definition len_digits (n : N) : nat := count_digits (N.size_nat n) n.

(** [value > MAX_AMOUNT] for a non-negative finite value, an exact comparison. *)
Definition exceeds_max (coefficient : N) (exponent : Z) : bool :=
  if 0 <=? exponent + 8
  then MAX_AMOUNT <? Z.of_N coefficient * 10 ^ (exponent + 8)
  else MAX_AMOUNT * 10 ^ (- (exponent + 8)) <? Z.of_N coefficient.

(** The value in units, for an exponent of at least [-8]. *)
Definition to_units (coefficient : N) (exponent : Z) : Z :=
  Z.of_N coefficient * 10 ^ (exponent + 8).

(** ** Errors *)

Inductive LedgerExn :=
| RunBudgetLedgerError (code : string)
| ValueError (message : string)
| IntegrityError (constraint_name : string).

#[global] Instance LedgerExn_eq_dec : EqDecision LedgerExn.
Proof. solve_decision. Defined.

(** ** Enumerations and their column values *)

Inductive RunBudgetAttemptKind := MAIN_MODEL | RETRY | FALLBACK | SUMMARY | AUXILIARY.
Inductive RunBudgetReservationBasis := ESTIMATE | CONSERVATIVE_MAXIMUM.
Inductive RunBudgetAttemptStatus := RESERVED | UNKNOWN_OUTCOME | SETTLED.
Inductive RunBudgetSettlementEvidence :=
| RESPONSE_ESTIMATE | CONSERVATIVE_CHARGE | PROVIDER_BILL.

#[global] Instance kind_eq_dec : EqDecision RunBudgetAttemptKind.
Proof. solve_decision. Defined.
#[global] Instance basis_eq_dec : EqDecision RunBudgetReservationBasis.
Proof. solve_decision. Defined.
#[global] Instance status_eq_dec : EqDecision RunBudgetAttemptStatus.
Proof. solve_decision. Defined.
#[global] Instance evidence_eq_dec : EqDecision RunBudgetSettlementEvidence.
Proof. solve_decision. Defined.

Definition kind_value (k : RunBudgetAttemptKind) : string :=
  match k with
  | MAIN_MODEL => "MAIN_MODEL" | RETRY => "RETRY" | FALLBACK => "FALLBACK"
  | SUMMARY => "SUMMARY" | AUXILIARY => "AUXILIARY"
  end.
Definition basis_value (b : RunBudgetReservationBasis) : string :=
  match b with ESTIMATE => "ESTIMATE" | CONSERVATIVE_MAXIMUM => "CONSERVATIVE_MAXIMUM" end.
Definition status_value (s : RunBudgetAttemptStatus) : string :=
  match s with
  | RESERVED => "RESERVED" | UNKNOWN_OUTCOME => "UNKNOWN_OUTCOME" | SETTLED => "SETTLED"
  end.
Definition evidence_value (e : RunBudgetSettlementEvidence) : string :=
  match e with
  | RESPONSE_ESTIMATE => "RESPONSE_ESTIMATE" | CONSERVATIVE_CHARGE => "CONSERVATIVE_CHARGE"
  | PROVIDER_BILL => "PROVIDER_BILL"
  end.

(** [Enum(value)]: [None] stands for the [ValueError]. *)
Definition parse_enum {A} (value : A → string) (members : list A) (s : string) : option A :=
  List.find (λ a, bool_decide (value a = s)) members.
Definition kind_members := [MAIN_MODEL; RETRY; FALLBACK; SUMMARY; AUXILIARY].
Definition basis_members := [ESTIMATE; CONSERVATIVE_MAXIMUM].
Definition status_members := [RESERVED; UNKNOWN_OUTCOME; SETTLED].
Definition evidence_members := [RESPONSE_ESTIMATE; CONSERVATIVE_CHARGE; PROVIDER_BILL].

(** ** Rows and tables *)

Record RunBudgetAccount := mkAccount {
  acc_currency : list N;
  limit_amount : Z;
  acc_reserved_amount : Z;
  settled_amount : Z;
}.

Record RunBudgetAttempt := mkAttempt {
  att_id : N;
  attempt_kind : string;
  reserved_amount : Z;
  att_currency : list N;
  reservation_basis : string;
  status : string;
  settlement_amount : option Z;
  settlement_currency : option (list N);
  settlement_evidence_kind : option string;
  settlement_evidence_identity : option (list N);
  settlement_is_estimate : option bool;
  settled_at : option Z;
  created_at : Z;
}.

#[global] Instance account_eq_dec : EqDecision RunBudgetAccount.
Proof. solve_decision. Defined.
#[global] Instance attempt_eq_dec : EqDecision RunBudgetAttempt.
Proof. solve_decision. Defined.

(** [(workspace_id, run_id)], the primary key of an account. *)
Abbreviation scope := (N * N)%type (only parsing).

(** The tables the ledger reads and writes.  [runs] holds the keys of the rows
    of [agent_runs]; the attempts are keyed by [uq_run_budget_attempts_identity]. *)
Record Db := mkDb {
  runs : gset (N * N);
  accounts : gmap (N * N) RunBudgetAccount;
  attempts : gmap ((N * N) * list N) RunBudgetAttempt;
}.

Definition with_accounts (f : gmap (N * N) RunBudgetAccount → gmap (N * N) RunBudgetAccount)
    (db : Db) : Db :=
  mkDb (runs db) (f (accounts db)) (attempts db).
Definition with_attempts
    (f : gmap ((N * N) * list N) RunBudgetAttempt → gmap ((N * N) * list N) RunBudgetAttempt)
    (db : Db) : Db :=
  mkDb (runs db) (accounts db) (f (attempts db)).

Abbreviation L := (M Db LedgerExn).

(** ** What the database enforces *)

(** [currency ~ '^[A-Z]{3}$'] *)
Definition currency_shape (c : list N) : bool :=
  bool_decide (length c = 3%nat) && forallb (λ ch, (65 <=? ch)%N && (ch <=? 90)%N) c.
(** A value a [NUMERIC(20, 8)] column can hold. *)
Definition numeric_20_8 (z : Z) : bool := Z.abs z <=? MAX_AMOUNT.
Definition is_null {A} (o : option A) : bool := match o with None => true | Some _ => false end.
(** [o IS NULL OR p(o)] *)
Definition null_or {A} (p : A → bool) (o : option A) : bool :=
  match o with None => true | Some a => p a end.

(** The name of the first constraint a row violates. *)
Definition first_violation (checks : list (string * bool)) : option string :=
  fst <$> List.find (λ c, negb (snd c)) checks.

Definition account_checks (a : RunBudgetAccount) : list (string * bool) := [
  ("ck_run_budget_accounts_currency", currency_shape (acc_currency a));
  ("ck_run_budget_accounts_limit_positive_finite", 0 <? limit_amount a);
  ("ck_run_budget_accounts_reserved_bounds",
    (0 <=? acc_reserved_amount a) && (acc_reserved_amount a <=? limit_amount a));
  ("ck_run_budget_accounts_settled_bounds", 0 <=? settled_amount a);
  ("numeric_field_overflow",
    numeric_20_8 (limit_amount a) && numeric_20_8 (acc_reserved_amount a)
    && numeric_20_8 (settled_amount a))
].

Definition trimmed_between (maximum : nat) (s : list N) : bool :=
  bool_decide (s = pg_btrim s) && (1 <=? length s)%nat && (length s <=? maximum)%nat.

Definition attempt_checks (identity : list N) (a : RunBudgetAttempt) : list (string * bool) := [
  ("ck_run_budget_attempts_identity",
    trimmed_between MAX_ATTEMPT_IDENTITY_LENGTH identity);
  ("ck_run_budget_attempts_kind",
    bool_decide (attempt_kind a ∈ ["MAIN_MODEL"; "RETRY"; "FALLBACK"; "SUMMARY"; "AUXILIARY"]));
  ("ck_run_budget_attempts_reserved_positive_finite", 0 <? reserved_amount a);
  ("ck_run_budget_attempts_currency", currency_shape (att_currency a));
  ("ck_run_budget_attempts_reservation_basis",
    bool_decide (reservation_basis a = "CONSERVATIVE_MAXIMUM"));
  ("ck_run_budget_attempts_status",
    bool_decide (status a ∈ ["RESERVED"; "UNKNOWN_OUTCOME"; "SETTLED"]));
  ("ck_run_budget_attempts_settlement_currency",
    null_or currency_shape (settlement_currency a));
  ("ck_run_budget_attempts_settlement_currency_matches",
    null_or (λ c, bool_decide (c = att_currency a)) (settlement_currency a));
  ("ck_run_budget_attempts_settlement_evidence_kind",
    null_or (λ k, bool_decide (k ∈ ["RESPONSE_ESTIMATE"; "CONSERVATIVE_CHARGE"; "PROVIDER_BILL"]))
      (settlement_evidence_kind a));
  ("ck_run_budget_attempts_settlement_amount",
    null_or (λ z, 0 <=? z) (settlement_amount a));
  ("ck_run_budget_attempts_settlement_identity",
    null_or (trimmed_between MAX_EVIDENCE_IDENTITY_LENGTH) (settlement_evidence_identity a));
  ("ck_run_budget_attempts_settlement_shape",
    (bool_decide (status a = "SETTLED")
       && negb (is_null (settlement_amount a)) && negb (is_null (settlement_currency a))
       && negb (is_null (settlement_evidence_kind a))
       && negb (is_null (settlement_evidence_identity a))
       && negb (is_null (settlement_is_estimate a)) && negb (is_null (settled_at a)))
    || (bool_decide (status a ∈ ["RESERVED"; "UNKNOWN_OUTCOME"])
       && is_null (settlement_amount a) && is_null (settlement_currency a)
       && is_null (settlement_evidence_kind a) && is_null (settlement_evidence_identity a)
       && is_null (settlement_is_estimate a) && is_null (settled_at a)));
  ("ck_run_budget_attempts_settlement_estimate_flag",
    null_or (λ k, bool_decide (settlement_is_estimate a
                               = Some (negb (bool_decide (k = "PROVIDER_BILL")))))
      (settlement_evidence_kind a));
  ("ck_run_budget_attempts_final_settlement_provider_bill",
    negb (bool_decide (status a = "SETTLED"))
    || bool_decide (settlement_evidence_kind a = Some "PROVIDER_BILL"));
  ("numeric_field_overflow",
    numeric_20_8 (reserved_amount a) && null_or numeric_20_8 (settlement_amount a))
].

(** *** Evidence totals of one account, as both the service and the triggers
    compute them. *)
Definition open_amount (a : RunBudgetAttempt) : Z :=
  if bool_decide (status a ∈ ["RESERVED"; "UNKNOWN_OUTCOME"]) then reserved_amount a else 0.
Definition billed_amount (a : RunBudgetAttempt) : Z :=
  if bool_decide (status a = "SETTLED") then default 0 (settlement_amount a) else 0.
Definition in_scope (sc : N * N) (f : RunBudgetAttempt → Z)
    (k : (N * N) * list N) (a : RunBudgetAttempt) : Z :=
  if bool_decide (k.1 = sc) then f a else 0.
Definition expected_reserved (db : Db) (sc : N * N) : Z :=
  sum_map (in_scope sc open_amount) (attempts db).
Definition expected_settled (db : Db) (sc : N * N) : Z :=
  sum_map (in_scope sc billed_amount) (attempts db).

(** *** Triggers of migration 0045, [None] when the row is let through. *)
Definition run_budget_guard_account_identity (db : Db) (sc : N * N)
    (old : option RunBudgetAccount) (new : RunBudgetAccount) : option string :=
  match old with
  | None =>
      if negb (acc_reserved_amount new =? 0) || negb (settled_amount new =? 0)
      then Some "Run budget accounts must start with zero totals" else None
  | Some old =>
      if negb (bool_decide (acc_currency new = acc_currency old)
               && (limit_amount new =? limit_amount old))
      then Some "Run budget account identity is immutable"
      else if (acc_reserved_amount old <? acc_reserved_amount new)
              && (limit_amount new <? acc_reserved_amount new + settled_amount new)
      then Some "Run budget cannot add an over-limit reservation"
      else if negb ((acc_reserved_amount new =? acc_reserved_amount old)
                    && (settled_amount new =? settled_amount old))
              && negb ((acc_reserved_amount new =? expected_reserved db sc)
                       && (settled_amount new =? expected_settled db sc))
      then Some "Run budget account totals do not match retained attempts"
      else None
  end.

Definition settlement_evidence_of (a : RunBudgetAttempt) :=
  (settlement_amount a, settlement_currency a, settlement_evidence_kind a,
   settlement_evidence_identity a, settlement_is_estimate a, settled_at a).
Definition reservation_of (a : RunBudgetAttempt) :=
  (att_id a, attempt_kind a, reserved_amount a, att_currency a, reservation_basis a, created_at a).

Definition run_budget_guard_attempt_evidence (db : Db) (sc : N * N)
    (old : option RunBudgetAttempt) (new : RunBudgetAttempt) : option string :=
  if negb (bool_decide (acc_currency <$> accounts db !! sc = Some (att_currency new)))
  then Some "Run budget attempt currency must match its account currency"
  else match old with
  | None =>
      if negb (bool_decide (status new = "RESERVED")
               && bool_decide (settlement_evidence_of new = (None, None, None, None, None, None)))
      then Some "Run budget attempts must start reserved" else None
  | Some old =>
      if negb (bool_decide (reservation_of new = reservation_of old))
      then Some "Run budget attempt identity is immutable"
      else if negb (null_or (λ c, bool_decide (c = att_currency new)) (settlement_currency new))
      then Some "Run budget settlement currency must match the attempt currency"
      else if bool_decide (status old = "SETTLED") && negb (bool_decide (status new = "SETTLED"))
      then Some "Settled Run budget attempts are terminal"
      else if negb (bool_decide (status old = status new)
                    || (bool_decide (status old = "RESERVED")
                        && bool_decide (status new ∈ ["UNKNOWN_OUTCOME"; "SETTLED"]))
                    || (bool_decide (status old = "UNKNOWN_OUTCOME")
                        && bool_decide (status new = "SETTLED")))
      then Some "Run budget attempt transition is invalid"
      else if negb (is_null (settlement_amount old))
              && negb (bool_decide (settlement_evidence_of new = settlement_evidence_of old))
      then Some "Run budget settlement evidence is immutable"
      else None
  end.

(** The deferred constraint trigger of [run_budget_attempts], run at COMMIT. *)
Definition run_budget_verify_account_totals (db : Db) (sc : N * N) : bool :=
  bool_decide (((λ a, (acc_reserved_amount a, settled_amount a)) <$> accounts db !! sc)
               = Some (expected_reserved db sc, expected_settled db sc)).

(** *** Writes *)

Definition enforce (violation : option string) : L unit :=
  match violation with Some name => raise (IntegrityError name) | None => mret tt end.

(** [INSERT INTO run_budget_accounts] of a key that is absent. *)
Definition insert_account (sc : N * N) (a : RunBudgetAccount) : L unit :=
  db ← get;
  enforce (run_budget_guard_account_identity db sc None a);;
  enforce (first_violation (account_checks a));;
  raise_if (negb (bool_decide (sc ∈ runs db)))
    (IntegrityError "fk_run_budget_accounts_run_workspace");;
  put (with_accounts (insert sc a) db).

(** [await session.flush([account])]: UPDATE of the account row. *)
Definition flush_account (sc : N * N) (a : RunBudgetAccount) : L unit :=
  db ← get;
  enforce (run_budget_guard_account_identity db sc (accounts db !! sc) a);;
  enforce (first_violation (account_checks a));;
  put (with_accounts (insert sc a) db).

(** [await session.flush([attempt])] of a new row. *)
Definition insert_attempt (sc : N * N) (identity : list N) (a : RunBudgetAttempt) : L unit :=
  db ← get;
  enforce (run_budget_guard_attempt_evidence db sc None a);;
  enforce (first_violation (attempt_checks identity a));;
  raise_if (bool_decide (is_Some (attempts db !! (sc, identity))))
    (IntegrityError "uq_run_budget_attempts_identity");;
  raise_if (negb (bool_decide (map_Forall (λ _ b, att_id b ≠ att_id a) (attempts db))))
    (IntegrityError "pk_run_budget_attempts");;
  raise_if (negb (bool_decide (is_Some (accounts db !! sc))))
    (IntegrityError "fk_run_budget_attempts_account_scope");;
  raise_if (negb (bool_decide (sc ∈ runs db)))
    (IntegrityError "fk_run_budget_attempts_run_workspace");;
  put (with_attempts (insert (sc, identity) a) db).

(** [await session.flush([attempt])] of a loaded row. *)
Definition flush_attempt (sc : N * N) (identity : list N) (a : RunBudgetAttempt) : L unit :=
  db ← get;
  enforce (run_budget_guard_attempt_evidence db sc (attempts db !! (sc, identity)) a);;
  enforce (first_violation (attempt_checks identity a));;
  put (with_attempts (insert (sc, identity) a) db).

(** ** Snapshots *)

Record RunBudgetAccountSnapshot := mkAccountSnapshot {
  snap_scope : N * N;
  snap_currency : list N;
  snap_limit_amount : Z;
  snap_reserved_amount : Z;
  snap_settled_amount : Z;
}.

Definition available_amount (s : RunBudgetAccountSnapshot) : Z :=
  Z.max (snap_limit_amount s - snap_reserved_amount s - snap_settled_amount s) 0.
Definition committed_amount (s : RunBudgetAccountSnapshot) : Z :=
  snap_reserved_amount s + snap_settled_amount s.
Definition overage_amount (s : RunBudgetAccountSnapshot) : Z :=
  Z.max (committed_amount s - snap_limit_amount s) 0.
Definition is_over_limit (s : RunBudgetAccountSnapshot) : bool := 0 <? overage_amount s.

Record RunBudgetAttemptSnapshot := mkAttemptSnapshot {
  asnap_id : N;
  asnap_scope : N * N;
  asnap_identity : list N;
  asnap_kind : RunBudgetAttemptKind;
  asnap_reserved_amount : Z;
  asnap_currency : list N;
  asnap_basis : RunBudgetReservationBasis;
  asnap_status : RunBudgetAttemptStatus;
  asnap_settlement_amount : option Z;
  asnap_settlement_currency : option (list N);
  asnap_settlement_evidence : option RunBudgetSettlementEvidence;
  asnap_settlement_evidence_identity : option (list N);
  asnap_settlement_is_estimate : option bool;
  asnap_settled_at : option Z;
  asnap_created_at : Z;
}.

(** [RunBudgetReservation] and [RunBudgetSettlement] have the same fields. *)
Record RunBudgetReservation := mkReservation {
  res_account : RunBudgetAccountSnapshot;
  res_attempt : RunBudgetAttemptSnapshot;
  created : bool;
}.

Definition _account_snapshot (sc : N * N) (a : RunBudgetAccount) : RunBudgetAccountSnapshot :=
  mkAccountSnapshot sc (acc_currency a) (limit_amount a) (acc_reserved_amount a)
    (settled_amount a).

Definition _attempt_snapshot (sc : N * N) (identity : list N) (a : RunBudgetAttempt)
    : L RunBudgetAttemptSnapshot :=
  let parsed :=
    k ← parse_enum kind_value kind_members (attempt_kind a);
    b ← parse_enum basis_value basis_members (reservation_basis a);
    st ← parse_enum status_value status_members (status a);
    ev ← match settlement_evidence_kind a with
         | None => Some None
         | Some v => Some <$> parse_enum evidence_value evidence_members v
         end;
    Some (k, b, st, ev) in
  match parsed with
  | None => raise (RunBudgetLedgerError "RUN_BUDGET_ATTEMPT_INVARIANT")
  | Some (k, b, st, ev) =>
      mret (mkAttemptSnapshot (att_id a) sc identity k (reserved_amount a) (att_currency a)
              b st (settlement_amount a) (settlement_currency a) ev
              (settlement_evidence_identity a) (settlement_is_estimate a) (settled_at a)
              (created_at a))
  end.

(** ** Argument validation *)

Definition _validate_currency (value : list N) : L unit :=
  raise_if (negb (bool_decide (length value = 3%nat))
            || existsb (λ ch, negb ((65 <=? ch)%N && (ch <=? 90)%N)) value)
    (ValueError "currency must be exactly three uppercase ASCII letters").

Definition _validate_amount (value : decimal) (allow_zero : bool) : L Z :=
  match value with
  | DInfinity _ | DNaN _ => raise (ValueError "must be finite")
  | DFinite signed coefficient exponent =>
      raise_if (signed || ((coefficient =? 0)%N && negb allow_zero))
        (ValueError (if allow_zero then "must be non-negative" else "must be positive"));;
      raise_if (exceeds_max coefficient exponent) (ValueError "exceeds NUMERIC(20, 8)");;
      raise_if (exponent <? - AMOUNT_SCALE) (ValueError "too many decimal places");;
      (if (coefficient =? 0)%N then mret tt
       else
         let integer_digits :=
           if 0 <=? exponent then Z.of_nat (len_digits coefficient) + exponent
           else Z.max (Z.of_nat (len_digits coefficient) + exponent) 0 in
         raise_if (AMOUNT_PRECISION - AMOUNT_SCALE <? integer_digits)
           (ValueError "exceeds NUMERIC(20, 8)"));;
      mret (to_units coefficient exponent)
  end.

Definition _validate_bounded_text (value : list N) (maximum : nat) : L unit :=
  raise_if (bool_decide (value = []) || negb (bool_decide (value = py_strip value)))
    (ValueError "must be non-empty without surrounding whitespace");;
  raise_if (maximum <? length value)%nat (ValueError "too long");;
  raise_if (bool_decide (0%N ∈ value)) (ValueError "cannot contain NUL").

Definition _validate_attempt_identity (value : list N) : L unit :=
  _validate_bounded_text value MAX_ATTEMPT_IDENTITY_LENGTH.
Definition _validate_evidence_identity (value : list N) : L unit :=
  _validate_bounded_text value MAX_EVIDENCE_IDENTITY_LENGTH.

Definition _assert_matching_reservation (a : RunBudgetAttempt) (amount : Z) (currency : list N)
    (kind : RunBudgetAttemptKind) (basis : RunBudgetReservationBasis) : L unit :=
  raise_if (negb (reserved_amount a =? amount)
            || negb (bool_decide (att_currency a = currency))
            || negb (bool_decide (attempt_kind a = kind_value kind))
            || negb (bool_decide (reservation_basis a = basis_value basis)))
    (RunBudgetLedgerError "RUN_BUDGET_ATTEMPT_CONFLICT").

Definition _assert_matching_settlement (a : RunBudgetAttempt) (amount : Z) (currency : list N)
    (evidence : RunBudgetSettlementEvidence) (evidence_identity : list N) : L unit :=
  raise_if (negb (bool_decide (settlement_amount a = Some amount))
            || negb (bool_decide (settlement_currency a = Some currency))
            || negb (bool_decide (settlement_evidence_kind a = Some (evidence_value evidence)))
            || negb (bool_decide (settlement_evidence_identity a = Some evidence_identity))
            || negb (bool_decide (settlement_is_estimate a
                       = Some (negb (bool_decide (evidence = PROVIDER_BILL))))))
    (RunBudgetLedgerError "RUN_BUDGET_SETTLEMENT_CONFLICT").

(** ** Row access under lock *)

Definition _lock_account (sc : N * N) : L RunBudgetAccount :=
  db ← get;
  match accounts db !! sc with
  | None => raise (RunBudgetLedgerError "RUN_BUDGET_ACCOUNT_NOT_FOUND")
  | Some account =>
      raise_if (negb ((acc_reserved_amount account =? expected_reserved db sc)
                      && (settled_amount account =? expected_settled db sc)))
        (RunBudgetLedgerError "RUN_BUDGET_ACCOUNT_INVARIANT");;
      mret account
  end.

Definition _lock_attempt (sc : N * N) (identity : list N) : L RunBudgetAttempt :=
  db ← get;
  match attempts db !! (sc, identity) with
  | None => raise (RunBudgetLedgerError "RUN_BUDGET_ATTEMPT_NOT_FOUND")
  | Some attempt => mret attempt
  end.

(** ** The operations of [RunBudgetLedger] *)

Definition create_account (sc : N * N) (currency : list N) (limit : decimal)
    : L (RunBudgetAccountSnapshot * bool) :=
  _validate_currency currency;;
  normalized_limit ← _validate_amount limit false;
  db ← get;
  raise_if (negb (bool_decide (sc ∈ runs db))) (RunBudgetLedgerError "RUN_BUDGET_RUN_NOT_FOUND");;
  (* INSERT ... ON CONFLICT DO NOTHING RETURNING run_id *)
  inserted ← match accounts db !! sc with
             | Some _ => mret false
             | None => insert_account sc (mkAccount currency normalized_limit 0 0);; mret true
             end;
  db' ← get;
  match accounts db' !! sc with
  | None => raise (RunBudgetLedgerError "RUN_BUDGET_ACCOUNT_UNAVAILABLE")
  | Some account =>
      raise_if (negb (bool_decide (acc_currency account = currency))
                || negb (limit_amount account =? normalized_limit))
        (RunBudgetLedgerError "RUN_BUDGET_ACCOUNT_CONFLICT");;
      mret (_account_snapshot sc account, inserted)
  end.

Definition set_reserved (z : Z) (a : RunBudgetAccount) : RunBudgetAccount :=
  mkAccount (acc_currency a) (limit_amount a) z (settled_amount a).
Definition set_totals (r z : Z) (a : RunBudgetAccount) : RunBudgetAccount :=
  mkAccount (acc_currency a) (limit_amount a) r z.
Definition set_status (st : string) (a : RunBudgetAttempt) : RunBudgetAttempt :=
  mkAttempt (att_id a) (attempt_kind a) (reserved_amount a) (att_currency a)
    (reservation_basis a) st (settlement_amount a) (settlement_currency a)
    (settlement_evidence_kind a) (settlement_evidence_identity a) (settlement_is_estimate a)
    (settled_at a) (created_at a).
(** The row [settle] writes. *)
Definition set_settlement (amount : Z) (currency : list N) (evidence : RunBudgetSettlementEvidence)
    (evidence_identity : list N) (is_estimate : bool) (now : Z) (a : RunBudgetAttempt)
    : RunBudgetAttempt :=
  mkAttempt (att_id a) (attempt_kind a) (reserved_amount a) (att_currency a)
    (reservation_basis a) (status_value SETTLED) (Some amount) (Some currency)
    (Some (evidence_value evidence)) (Some evidence_identity) (Some is_estimate)
    (Some now) (created_at a).
(** The row [reserve] adds. *)
Definition new_attempt (new_id : N) (kind : RunBudgetAttemptKind) (amount : Z)
    (currency : list N) (basis : RunBudgetReservationBasis) (now : Z) : RunBudgetAttempt :=
  mkAttempt new_id (kind_value kind) amount currency (basis_value basis) (status_value RESERVED)
    None None None None None None now.

(** [new_id] is the [uuid4()] of the row, [now] the transaction's [now()]. *)
Definition reserve (new_id : N) (now : Z) (sc : N * N) (identity : list N)
    (kind : RunBudgetAttemptKind) (amount : decimal) (currency : list N)
    (basis : RunBudgetReservationBasis) : L RunBudgetReservation :=
  _validate_attempt_identity identity;;
  normalized_amount ← _validate_amount amount false;
  _validate_currency currency;;
  raise_if (negb (bool_decide (basis = CONSERVATIVE_MAXIMUM)))
    (RunBudgetLedgerError "RUN_BUDGET_CONSERVATIVE_MAXIMUM_REQUIRED");;
  account ← _lock_account sc;
  raise_if (negb (bool_decide (acc_currency account = currency)))
    (RunBudgetLedgerError "RUN_BUDGET_CURRENCY_MISMATCH");;
  db ← get;
  match attempts db !! (sc, identity) with
  | Some existing =>
      _assert_matching_reservation existing normalized_amount currency kind basis;;
      snapshot ← _attempt_snapshot sc identity existing;
      mret (mkReservation (_account_snapshot sc account) snapshot false)
  | None =>
      let new_reserved := acc_reserved_amount account + normalized_amount in
      raise_if (limit_amount account <? new_reserved + settled_amount account)
        (RunBudgetLedgerError "RUN_BUDGET_INSUFFICIENT_FUNDS");;
      let attempt := new_attempt new_id kind normalized_amount currency basis now in
      let account := set_reserved new_reserved account in
      insert_attempt sc identity attempt;;
      flush_account sc account;;
      snapshot ← _attempt_snapshot sc identity attempt;
      mret (mkReservation (_account_snapshot sc account) snapshot true)
  end.

Definition mark_unknown_outcome (sc : N * N) (identity : list N) : L RunBudgetAttemptSnapshot :=
  _validate_attempt_identity identity;;
  account ← _lock_account sc;
  attempt ← _lock_attempt sc identity;
  raise_if (bool_decide (status attempt = status_value SETTLED))
    (RunBudgetLedgerError "RUN_BUDGET_ATTEMPT_STATE_CONFLICT");;
  attempt' ← (if bool_decide (status attempt = status_value RESERVED) then
                let changed := set_status (status_value UNKNOWN_OUTCOME) attempt in
                flush_attempt sc identity changed;; mret changed
              else
                raise_if (negb (bool_decide (status attempt = status_value UNKNOWN_OUTCOME)))
                  (RunBudgetLedgerError "RUN_BUDGET_ATTEMPT_STATE_CONFLICT");;
                mret attempt);
  raise_if (acc_reserved_amount account <? reserved_amount attempt')
    (RunBudgetLedgerError "RUN_BUDGET_ACCOUNT_INVARIANT");;
  _attempt_snapshot sc identity attempt'.

Definition settle (now : Z) (sc : N * N) (identity : list N) (amount : decimal)
    (currency : list N) (evidence : RunBudgetSettlementEvidence) (evidence_identity : list N)
    : L RunBudgetReservation :=
  _validate_attempt_identity identity;;
  normalized_amount ← _validate_amount amount true;
  _validate_currency currency;;
  raise_if (negb (bool_decide (evidence = PROVIDER_BILL)))
    (RunBudgetLedgerError "RUN_BUDGET_FINAL_SETTLEMENT_REQUIRES_PROVIDER_BILL");;
  _validate_evidence_identity evidence_identity;;
  let is_estimate := false in
  account ← _lock_account sc;
  attempt ← _lock_attempt sc identity;
  raise_if (negb (bool_decide (acc_currency account = currency))
            || negb (bool_decide (att_currency attempt = currency)))
    (RunBudgetLedgerError "RUN_BUDGET_CURRENCY_MISMATCH");;
  if bool_decide (status attempt = status_value SETTLED) then
    _assert_matching_settlement attempt normalized_amount currency evidence evidence_identity;;
    snapshot ← _attempt_snapshot sc identity attempt;
    mret (mkReservation (_account_snapshot sc account) snapshot false)
  else
    raise_if (negb (bool_decide (status attempt ∈ [status_value RESERVED;
                                                    status_value UNKNOWN_OUTCOME])))
      (RunBudgetLedgerError "RUN_BUDGET_ATTEMPT_STATE_CONFLICT");;
    raise_if (acc_reserved_amount account <? reserved_amount attempt)
      (RunBudgetLedgerError "RUN_BUDGET_ACCOUNT_INVARIANT");;
    let new_reserved := acc_reserved_amount account - reserved_amount attempt in
    let new_settled := settled_amount account + normalized_amount in
    raise_if ((MAX_AMOUNT <? new_reserved) || (MAX_AMOUNT <? new_settled))
      (RunBudgetLedgerError "RUN_BUDGET_AMOUNT_PRECISION_EXCEEDED");;
    let account' := set_totals new_reserved new_settled account in
    let attempt' := set_settlement normalized_amount currency evidence evidence_identity
                      is_estimate now attempt in
    flush_attempt sc identity attempt';;
    flush_account sc account';;
    snapshot ← _attempt_snapshot sc identity attempt';
    mret (mkReservation (_account_snapshot sc account') snapshot true).

Definition get_account (sc : N * N) : L RunBudgetAccountSnapshot :=
  db ← get;
  match accounts db !! sc with
  | None => raise (RunBudgetLedgerError "RUN_BUDGET_ACCOUNT_NOT_FOUND")
  | Some account => mret (_account_snapshot sc account)
  end.

Definition get_attempt (sc : N * N) (identity : list N) : L RunBudgetAttemptSnapshot :=
  _validate_attempt_identity identity;;
  attempt ← _lock_attempt sc identity;
  _attempt_snapshot sc identity attempt.
