(* ===== verification/LedgerSpec.v ===== *)
(** * What the Run budget ledger promises

    An abstract ledger that stores no totals: a limit per account and the holds
    granted against it.  Whether a reservation is funded is decided by summing
    the holds.  [abs] forgets the cached totals, row identifiers and time
    stamps of the tables; the refinement of this specification by the tables'
    operations is proved in [LedgerTheory]. *)

From stdpp Require Import base gmap list strings.
From Stdlib Require Import ZArith NArith.
From S2P Require Import Prelude.
From S2P Require Import RunBudgetLedger.

Local Open Scope Z_scope.

(** ** Abstract state *)

Inductive Phase :=
| Held (outcome_unknown : bool)
| Billed (amount : Z) (bill : list N).

Record Hold := mkHold {
  h_amount : Z;
  h_currency : list N;
  h_kind : string;
  h_phase : Phase;
}.

#[global] Instance Phase_eq_dec : EqDecision Phase.
Proof. solve_decision. Defined.
#[global] Instance Hold_eq_dec : EqDecision Hold.
Proof. solve_decision. Defined.

Record AbsLedger := mkAbs {
  al_runs : gset (N * N);
  al_limits : gmap (N * N) (list N * Z);
  al_holds : gmap ((N * N) * list N) Hold;
}.

(** What a hold takes out of the limit: the whole reservation while it is open,
    the billed amount afterwards. *)
Definition charge (h : Hold) : Z :=
  match h_phase h with Held _ => h_amount h | Billed z _ => z end.
Definition charge_in (sc : N * N) (k : (N * N) * list N) (h : Hold) : Z :=
  if bool_decide (k.1 = sc) then charge h else 0.
Definition committed (al : AbsLedger) (sc : N * N) : Z :=
  sum_map (charge_in sc) (al_holds al).
(** The billed part, which has to stay representable as [NUMERIC(20, 8)]. *)
Definition billed_in (sc : N * N) (k : (N * N) * list N) (h : Hold) : Z :=
  match h_phase h with
  | Held _ => 0
  | Billed z _ => if bool_decide (k.1 = sc) then z else 0
  end.
Definition billed (al : AbsLedger) (sc : N * N) : Z := sum_map (billed_in sc) (al_holds al).

Inductive Verdict :=
| Granted
| Replayed
| Refused (code : string)
| Broken.

#[global] Instance Verdict_eq_dec : EqDecision Verdict.
Proof. solve_decision. Defined.

(** ** Abstract operations, on validated arguments *)

Definition put_hold (k : (N * N) * list N) (h : Hold) (al : AbsLedger) : AbsLedger :=
  mkAbs (al_runs al) (al_limits al) (<[k := h]> (al_holds al)).

Definition spec_create (sc : N * N) (cur : list N) (limit : Z) (al : AbsLedger)
    : Verdict * AbsLedger :=
  if negb (bool_decide (sc ∈ al_runs al)) then (Refused "RUN_BUDGET_RUN_NOT_FOUND", al)
  else match al_limits al !! sc with
  | None => (Granted, mkAbs (al_runs al) (<[sc := (cur, limit)]> (al_limits al)) (al_holds al))
  | Some acc => if bool_decide (acc = (cur, limit)) then (Replayed, al)
                else (Refused "RUN_BUDGET_ACCOUNT_CONFLICT", al)
  end.

Definition spec_reserve (sc : N * N) (i : list N) (kind : RunBudgetAttemptKind) (amount : Z)
    (cur : list N) (al : AbsLedger) : Verdict * AbsLedger :=
  match al_limits al !! sc with
  | None => (Refused "RUN_BUDGET_ACCOUNT_NOT_FOUND", al)
  | Some (c, limit) =>
      if negb (bool_decide (c = cur)) then (Refused "RUN_BUDGET_CURRENCY_MISMATCH", al)
      else match al_holds al !! (sc, i) with
      | Some h =>
          if bool_decide ((h_amount h, h_currency h, h_kind h) = (amount, cur, kind_value kind))
          then (Replayed, al) else (Refused "RUN_BUDGET_ATTEMPT_CONFLICT", al)
      | None =>
          if limit <? committed al sc + amount
          then (Refused "RUN_BUDGET_INSUFFICIENT_FUNDS", al)
          else (Granted, put_hold (sc, i) (mkHold amount cur (kind_value kind) (Held false)) al)
      end
  end.

Definition spec_mark (sc : N * N) (i : list N) (al : AbsLedger) : Verdict * AbsLedger :=
  match al_limits al !! sc, al_holds al !! (sc, i) with
  | None, _ => (Refused "RUN_BUDGET_ACCOUNT_NOT_FOUND", al)
  | Some _, None => (Refused "RUN_BUDGET_ATTEMPT_NOT_FOUND", al)
  | Some _, Some h =>
      match h_phase h with
      | Billed _ _ => (Refused "RUN_BUDGET_ATTEMPT_STATE_CONFLICT", al)
      | Held _ => (Granted, put_hold (sc, i)
                              (mkHold (h_amount h) (h_currency h) (h_kind h) (Held true)) al)
      end
  end.

Definition spec_settle (sc : N * N) (i : list N) (amount : Z) (cur bill : list N)
    (al : AbsLedger) : Verdict * AbsLedger :=
  match al_limits al !! sc, al_holds al !! (sc, i) with
  | None, _ => (Refused "RUN_BUDGET_ACCOUNT_NOT_FOUND", al)
  | Some _, None => (Refused "RUN_BUDGET_ATTEMPT_NOT_FOUND", al)
  | Some (c, _), Some h =>
      if negb (bool_decide (c = cur)) then (Refused "RUN_BUDGET_CURRENCY_MISMATCH", al)
      else match h_phase h with
      | Billed z b => if bool_decide ((z, b) = (amount, bill)) then (Replayed, al)
                      else (Refused "RUN_BUDGET_SETTLEMENT_CONFLICT", al)
      | Held _ =>
          if MAX_AMOUNT <? billed al sc + amount
          then (Refused "RUN_BUDGET_AMOUNT_PRECISION_EXCEEDED", al)
          else (Granted, put_hold (sc, i)
                           (mkHold (h_amount h) (h_currency h) (h_kind h) (Billed amount bill)) al)
      end
  end.

(** ** From tables to the abstract ledger *)

Definition hold_of (a : RunBudgetAttempt) : Hold :=
  mkHold (reserved_amount a) (att_currency a) (attempt_kind a)
    (if bool_decide (status a = "SETTLED")
     then Billed (default 0 (settlement_amount a)) (default [] (settlement_evidence_identity a))
     else Held (bool_decide (status a = "UNKNOWN_OUTCOME"))).

Definition abs (db : Db) : AbsLedger :=
  mkAbs (runs db) ((λ a, (acc_currency a, limit_amount a)) <$> accounts db)
    (hold_of <$> attempts db).

(** ** Transactions

    A caller owns the transaction: it commits when the operation returns and
    rolls back when it raises.  The deferred trigger runs at COMMIT when an
    attempt row was written. *)
Definition transaction {A} (sc : N * N) (m : L A) : L A :=
  atomically (before ← get; a ← m; after ← get;
    raise_if (negb (bool_decide (attempts before = attempts after))
              && negb (run_budget_verify_account_totals after sc))
      (IntegrityError "run_budget_attempt_totals_guard");;
    mret a).

Inductive LedgerOp :=
| OpCreate (currency : list N) (limit : decimal)
| OpReserve (new_id : N) (now : Z) (identity : list N) (kind : RunBudgetAttemptKind)
    (amount : decimal) (currency : list N) (basis : RunBudgetReservationBasis)
| OpMark (identity : list N)
| OpSettle (now : Z) (identity : list N) (amount : decimal) (currency : list N)
    (evidence : RunBudgetSettlementEvidence) (evidence_identity : list N).

Definition run_op (sc : N * N) (op : LedgerOp) : L bool :=
  transaction sc
    match op with
    | OpCreate c l => r ← create_account sc c l; mret (snd r)
    | OpReserve id now i k a c b => r ← reserve id now sc i k a c b; mret (created r)
    | OpMark i => mark_unknown_outcome sc i;; mret true
    | OpSettle now i a c e ei => r ← settle now sc i a c e ei; mret (created r)
    end.

Definition verdict_of (r : outcome LedgerExn bool) : Verdict :=
  match r with
  | Return true => Granted
  | Return false => Replayed
  | Raise (RunBudgetLedgerError code) => Refused code
  | Raise (ValueError _) => Refused "ValueError"
  | Raise (IntegrityError _) => Broken
  end.

(** Argument checks that do not read the tables: the first failing one decides. *)
Definition pure_error {A} (m : L A) : option LedgerExn :=
  match m (mkDb ∅ ∅ ∅) with (Raise e, _) => Some e | _ => None end.
Definition pure_value (m : L Z) : Z :=
  match m (mkDb ∅ ∅ ∅) with (Return z, _) => z | _ => 0 end.

Definition spec_op (sc : N * N) (op : LedgerOp) (al : AbsLedger) : Verdict * AbsLedger :=
  let guarded (checks : L unit) (k : Verdict * AbsLedger) :=
    match pure_error checks with Some e => (verdict_of (Raise e), al) | None => k end in
  match op with
  | OpCreate c l =>
      guarded (_validate_currency c;; _validate_amount l false;; mret tt)
        (spec_create sc c (pure_value (_validate_amount l false)) al)
  | OpReserve _ _ i k a c b =>
      guarded (_validate_attempt_identity i;; _validate_amount a false;; _validate_currency c)
        (if bool_decide (b = CONSERVATIVE_MAXIMUM)
         then spec_reserve sc i k (pure_value (_validate_amount a false)) c al
         else (Refused "RUN_BUDGET_CONSERVATIVE_MAXIMUM_REQUIRED", al))
  | OpMark i => guarded (_validate_attempt_identity i) (spec_mark sc i al)
  | OpSettle _ i a c e ei =>
      guarded (_validate_attempt_identity i;; _validate_amount a true;; _validate_currency c)
        (if bool_decide (e = PROVIDER_BILL)
         then guarded (_validate_evidence_identity ei)
                (spec_settle sc i (pure_value (_validate_amount a true)) c ei al)
         else (Refused "RUN_BUDGET_FINAL_SETTLEMENT_REQUIRES_PROVIDER_BILL", al))
  end.
