(* ===== verification/LedgerTheory.v ===== *)
(** * Correctness of the Run budget ledger

    The invariant of the two tables, the exact effect of every ledger operation
    from a state that satisfies it, and what follows: no operation trips a
    database guard, totals always equal the retained evidence, an open account
    is never over-committed by a reservation, and settled evidence is final. *)

From stdpp Require Import base gmap list strings sorting relations.
From Stdlib Require Import ZArith NArith Lia.
From S2P Require Import Prelude.
From S2P Require Import RunBudgetLedger.
From S2P Require Import LedgerSpec.

Local Open Scope Z_scope.

#[local] Arguments first_violation : simpl never.
#[local] Arguments account_checks : simpl never.
#[local] Arguments attempt_checks : simpl never.
#[local] Arguments expected_reserved : simpl never.
#[local] Arguments expected_settled : simpl never.

(** ** Constraint lists *)

Fixpoint all_true (checks : list (string * bool)) : Prop :=
  match checks with
  | [] => True
  | (_, b) :: r => b = true ∧ all_true r
  end.

Lemma first_violation_None checks : first_violation checks = None ↔ all_true checks.
Proof.
  induction checks as [|[n b] cs IH]; [by split|].
  unfold first_violation in *. cbn [List.find snd all_true]. rewrite <- IH.
  destruct b; cbn; split; intros; destruct_and?; done.
Qed.

Definition account_ok (a : RunBudgetAccount) : Prop :=
  first_violation (account_checks a) = None.
Definition attempt_ok (i : list N) (a : RunBudgetAttempt) : Prop :=
  first_violation (attempt_checks i a) = None.

Lemma account_ok_iff a :
  account_ok a ↔
  currency_shape (acc_currency a) = true ∧ 0 < limit_amount a ≤ MAX_AMOUNT ∧
  0 ≤ acc_reserved_amount a ≤ limit_amount a ∧ 0 ≤ settled_amount a ≤ MAX_AMOUNT.
Proof.
  unfold account_ok. rewrite first_violation_None. unfold account_checks, numeric_20_8.
  cbn [all_true].
  rewrite !andb_true_iff, !Z.leb_le, Z.ltb_lt. intuition lia.
Qed.

(** An attempt row that satisfies every CHECK is in one of two shapes. *)
Definition unsettled_shape (a : RunBudgetAttempt) : Prop :=
  (status a = "RESERVED" ∨ status a = "UNKNOWN_OUTCOME") ∧
  settlement_evidence_of a = (None, None, None, None, None, None).
Definition settled_shape (a : RunBudgetAttempt) : Prop :=
  status a = "SETTLED" ∧ ∃ z i t, 0 ≤ z ≤ MAX_AMOUNT ∧
    trimmed_between MAX_EVIDENCE_IDENTITY_LENGTH i = true ∧
    settlement_evidence_of a
    = (Some z, Some (att_currency a), Some "PROVIDER_BILL", Some i, Some false, Some t).

Lemma attempt_ok_iff i a :
  attempt_ok i a ↔
  trimmed_between MAX_ATTEMPT_IDENTITY_LENGTH i = true ∧
  (∃ k, attempt_kind a = kind_value k) ∧ 0 < reserved_amount a ≤ MAX_AMOUNT ∧
  currency_shape (att_currency a) = true ∧
  reservation_basis a = "CONSERVATIVE_MAXIMUM" ∧
  (unsettled_shape a ∨ settled_shape a).
Proof.
  unfold attempt_ok. rewrite first_violation_None.
  unfold attempt_checks, unsettled_shape, settled_shape, settlement_evidence_of.
  cbn [all_true].
  destruct a as [id k r c b st sa sc sk si se sat cr];
    cbn [attempt_kind reserved_amount att_currency reservation_basis status settlement_amount
         settlement_currency settlement_evidence_kind settlement_evidence_identity
         settlement_is_estimate settled_at].
  assert (bool_decide (k ∈ ["MAIN_MODEL"; "RETRY"; "FALLBACK"; "SUMMARY"; "AUXILIARY"]) = true
          ↔ ∃ k', k = kind_value k') as Hk.
  { rewrite bool_decide_eq_true. split.
    - rewrite list_elem_of_In. cbn. intros H; destruct_or!; subst; [exists MAIN_MODEL | exists RETRY | exists FALLBACK
        | exists SUMMARY | exists AUXILIARY]; done.
    - intros [k' ->]. rewrite list_elem_of_In. destruct k'; cbn; tauto. }
  rewrite Hk. unfold numeric_20_8. split.
  - intros (Hi & Hkk & Hr & Hc & Hb & Hst & Hsc & Hscm & Hsk & Hsa & Hsi & Hshape & Hfl & Hpb & Hnum & _).
    breflect. subst. split_and!; try done; try lia.
    apply orb_true_iff in Hshape as [Hs|Hs]; breflect.
    + right. destruct sa as [z|], sc as [c'|], sk as [k'|], si as [i'|], se as [e'|], sat as [t'|];
        try discriminate. cbn in *. breflect. subst. split; [done|].
      apply orb_true_iff in Hpb as [Hpb|Hpb]; breflect; [done|]. simplify_eq.
      exists z, i', t'. rewrite bool_decide_true by done. split_and!; try lia; done.
    + left. split; [by apply elem_of_two|].
      destruct sa, sc, sk, si, se, sat; done.
  - intros (Hi & Hkk & Hr & Hc & -> & Hs).
    destruct Hs as [[Hst [= -> -> -> -> -> ->]] | (-> & z & i' & t & Hz & Hi' & [= -> -> -> -> -> ->])].
    + destruct Hst as [-> | ->]; cbn [null_or is_null]; split_and!; try done;
        rewrite ?andb_true_iff, ?Z.leb_le, ?Z.ltb_lt; split_and?; try done; lia.
    + cbn [null_or is_null]. rewrite !(bool_decide_true (c = c)) by done.
      split_and!; try done; rewrite ?andb_true_iff, ?Z.leb_le, ?Z.ltb_lt; split_and?; try done; lia.
Qed.

Lemma amounts_unsettled a :
  status a = "RESERVED" ∨ status a = "UNKNOWN_OUTCOME" →
  open_amount a = reserved_amount a ∧ billed_amount a = 0.
Proof. intros [Hs|Hs]; unfold open_amount, billed_amount; by rewrite Hs. Qed.

Lemma amounts_settled a :
  status a = "SETTLED" → open_amount a = 0 ∧ billed_amount a = default 0 (settlement_amount a).
Proof. intros Hs; unfold open_amount, billed_amount; by rewrite Hs. Qed.

(** ** The invariant *)

Record ledger_inv (db : Db) : Prop := {
  inv_account_ok : ∀ sc a, accounts db !! sc = Some a → account_ok a;
  inv_attempt_ok : ∀ sc i a, attempts db !! (sc, i) = Some a → attempt_ok i a;
  inv_totals : ∀ sc a, accounts db !! sc = Some a →
    acc_reserved_amount a = expected_reserved db sc ∧ settled_amount a = expected_settled db sc;
  inv_account_of : ∀ sc i a, attempts db !! (sc, i) = Some a →
    acc_currency <$> accounts db !! sc = Some (att_currency a);
  inv_run_of : ∀ sc a, accounts db !! sc = Some a → sc ∈ runs db;
}.

(** Every amount an attempt contributes to a total is non-negative. *)
Lemma open_amount_nonneg i a : attempt_ok i a → 0 ≤ open_amount a.
Proof.
  intros (_ & _ & Hr & _)%attempt_ok_iff. unfold open_amount. case_bool_decide; lia.
Qed.

Lemma open_amount_le_expected db sc i a :
  ledger_inv db → attempts db !! (sc, i) = Some a → open_amount a ≤ expected_reserved db sc.
Proof.
  intros Hinv Ha. unfold expected_reserved.
  pose proof (sum_map_lookup_le (in_scope sc open_amount) (attempts db) (sc, i) a) as Hle.
  unfold in_scope in Hle at 2. rewrite bool_decide_true in Hle by done. apply Hle; [|done].
  intros [sc' i'] a' Ha'. unfold in_scope. case_bool_decide; [|lia].
  eapply open_amount_nonneg, inv_attempt_ok; eauto.
Qed.

(** An open attempt is covered by its account. *)
Lemma inv_open_attempt db sc i a acc :
  ledger_inv db → accounts db !! sc = Some acc → attempts db !! (sc, i) = Some a →
  unsettled_shape a →
  acc_currency acc = att_currency a ∧ 0 < reserved_amount a ≤ acc_reserved_amount acc.
Proof.
  intros Hinv Hacc Ha [Hs _].
  pose proof (inv_account_of db Hinv _ _ _ Ha) as Hc. rewrite Hacc in Hc. injection Hc as Hc.
  pose proof (open_amount_le_expected db sc i a Hinv Ha).
  pose proof (inv_totals db Hinv sc acc Hacc). pose proof (amounts_unsettled a Hs).
  pose proof (proj1 (attempt_ok_iff i a) (inv_attempt_ok db Hinv _ _ _ Ha)).
  split; [done|]. lia.
Qed.

(** Effect of writing one attempt row on the evidence totals. *)
Definition previous (f : RunBudgetAttempt → Z) (old : option RunBudgetAttempt) : Z :=
  match old with Some a => f a | None => 0 end.

Lemma expected_write (f : RunBudgetAttempt → Z) (m : gmap ((N * N) * list N) RunBudgetAttempt)
    sc i b sc' :
  sum_map (in_scope sc' f) (<[(sc, i) := b]> m)
  = sum_map (in_scope sc' f) m
    + (if bool_decide (sc = sc') then f b - previous f (m !! (sc, i)) else 0).
Proof.
  destruct (m !! (sc, i)) as [a|] eqn:Hm.
  - rewrite (sum_map_update _ _ _ a) by done. unfold in_scope at 2 3. cbn.
    case_bool_decide; lia.
  - rewrite sum_map_insert by done. unfold in_scope at 1. cbn. case_bool_decide; lia.
Qed.

(** Writing one attempt and its account together keeps the invariant when the
    account moves by what the attempt moves. *)
Lemma inv_write db sc i b acc acc' :
  ledger_inv db → accounts db !! sc = Some acc → acc_currency acc' = acc_currency acc →
  account_ok acc' → attempt_ok i b → att_currency b = acc_currency acc →
  acc_reserved_amount acc' = acc_reserved_amount acc
    + (open_amount b - previous open_amount (attempts db !! (sc, i))) →
  settled_amount acc' = settled_amount acc
    + (billed_amount b - previous billed_amount (attempts db !! (sc, i))) →
  ledger_inv (mkDb (runs db) (<[sc := acc']> (accounts db)) (<[(sc, i) := b]> (attempts db))).
Proof.
  intros Hinv Hacc Hcur Haok Hbok Hbcur Hr Hs. split; cbn.
  - intros sc' a [[<- <-]|[_ Ha]]%lookup_insert_Some; [done | by eapply inv_account_ok].
  - intros sc' i' a [[[= <- <-] <-]|[_ Ha]]%lookup_insert_Some; [done | by eapply inv_attempt_ok].
  - intros sc' a Ha. unfold expected_reserved, expected_settled; cbn.
    rewrite !expected_write. fold (expected_reserved db sc') (expected_settled db sc').
    apply lookup_insert_Some in Ha as [[<- <-]|[Hne Ha]].
    + destruct (inv_totals db Hinv sc acc Hacc). rewrite !bool_decide_true by done. lia.
    + destruct (inv_totals db Hinv sc' a Ha). rewrite !bool_decide_false by done. lia.
  - intros sc' i' a Ha. rewrite lookup_insert. case_decide as Hsc; cbn.
    + subst sc'. apply lookup_insert_Some in Ha as [[_ <-]|[_ Ha]]; [congruence|].
      pose proof (inv_account_of db Hinv _ _ _ Ha) as Hc. rewrite Hacc in Hc. cbn in Hc. congruence.
    + apply lookup_insert_Some in Ha as [[[= <- <-] _]|[_ Ha]]; [done|].
      by eapply inv_account_of.
  - intros sc' a Ha. apply lookup_insert_Some in Ha as [[<- _]|[_ Ha]];
      by eapply inv_run_of.
Qed.

(** ** Writes that the guards let through *)

Ltac lstep := rewrite bind_run; cbn [enforce get put raise_if raise mret M_ret].

Lemma attempt_guard_insert sc a db acc :
  accounts db !! sc = Some acc → acc_currency acc = att_currency a →
  status a = "RESERVED" → unsettled_shape a →
  run_budget_guard_attempt_evidence db sc None a = None.
Proof.
  intros Hacc Hcur Hst [_ Hev]. unfold run_budget_guard_attempt_evidence.
  rewrite Hacc. cbn. by rewrite Hcur, bool_decide_true, Hev, Hst by done.
Qed.

Lemma insert_attempt_ok sc i a db acc :
  accounts db !! sc = Some acc → acc_currency acc = att_currency a → sc ∈ runs db →
  attempts db !! (sc, i) = None → map_Forall (λ _ b, att_id b ≠ att_id a) (attempts db) →
  attempt_ok i a → status a = "RESERVED" → unsettled_shape a →
  insert_attempt sc i a db = (Return tt, with_attempts (insert (sc, i) a) db).
Proof.
  intros Hacc Hcur Hrun Hnew Hfresh Hok Hst Hsh. unfold insert_attempt.
  lstep. rewrite (attempt_guard_insert sc a db acc) by done.
  lstep. rewrite Hok. lstep. rewrite Hnew, Hacc.
  rewrite (bool_decide_false (is_Some None)) by (by intros [??]).
  by rewrite !bool_decide_true by done.
Qed.

Lemma attempt_guard_update sc i a b db acc :
  accounts db !! sc = Some acc → acc_currency acc = att_currency b →
  attempt_ok i b → reservation_of b = reservation_of a → unsettled_shape a →
  (status a = status b ∨ status a = "RESERVED" ∨ status b = "SETTLED") →
  run_budget_guard_attempt_evidence db sc (Some a) b = None.
Proof.
  intros Hacc Hcur Hok Hres [Hsta Hev] Hst. unfold run_budget_guard_attempt_evidence.
  rewrite Hacc; cbn. rewrite Hcur, !bool_decide_true by done; cbn.
  assert (null_or (λ c, bool_decide (c = att_currency b)) (settlement_currency b) = true) as ->.
  { pose proof (proj1 (first_violation_None _) Hok) as HF. unfold attempt_checks in HF.
    cbn [all_true] in HF. tauto. }
  assert (settlement_amount a = None) as -> by (unfold settlement_evidence_of in Hev; congruence).
  apply attempt_ok_iff in Hok as (_ & _ & _ & _ & _ & Hb).
  destruct Hsta as [Hsa|Hsa], Hb as [[[Hb|Hb] _]|[Hb _]]; rewrite Hsa, Hb in *;
    try reflexivity; destruct_or?; done.
Qed.

Lemma flush_attempt_ok sc i a b db acc :
  accounts db !! sc = Some acc → acc_currency acc = att_currency b →
  attempts db !! (sc, i) = Some a → attempt_ok i b → reservation_of b = reservation_of a →
  unsettled_shape a → (status a = status b ∨ status a = "RESERVED" ∨ status b = "SETTLED") →
  flush_attempt sc i b db = (Return tt, with_attempts (insert (sc, i) b) db).
Proof.
  intros Hacc Hcur Ha Hok Hres Hsh Hst. unfold flush_attempt. lstep.
  rewrite Ha, (attempt_guard_update sc i a b db acc) by done. lstep. by rewrite Hok.
Qed.

Lemma flush_account_ok sc a b db :
  accounts db !! sc = Some a → acc_currency b = acc_currency a → limit_amount b = limit_amount a →
  account_ok b → acc_reserved_amount b = expected_reserved db sc →
  settled_amount b = expected_settled db sc →
  (acc_reserved_amount a < acc_reserved_amount b →
   acc_reserved_amount b + settled_amount b ≤ limit_amount b) →
  flush_account sc b db = (Return tt, with_accounts (insert sc b) db).
Proof.
  intros Ha Hc Hl Hok Hr Hs Hguard. unfold flush_account, run_budget_guard_account_identity.
  lstep. rewrite Ha, Hc, bool_decide_true, Hl, Z.eqb_refl by done; cbn [andb negb].
  assert ((acc_reserved_amount a <? acc_reserved_amount b)
          && (limit_amount a <? acc_reserved_amount b + settled_amount b) = false) as ->.
  { apply andb_false_iff. rewrite !Z.ltb_ge. rewrite Hl in Hguard. lia. }
  rewrite <- Hr, <- Hs, !Z.eqb_refl, andb_false_r. lstep. by rewrite Hok.
Qed.

(** ** Argument checks *)

#[global] Instance validate_currency_pure c : Pure (_validate_currency c).
Proof. apply _. Qed.
#[global] Instance validate_text_pure v n : Pure (_validate_bounded_text v n).
Proof. apply _. Qed.
#[global] Instance validate_attempt_identity_pure v : Pure (_validate_attempt_identity v).
Proof. apply _. Qed.
#[global] Instance validate_evidence_identity_pure v : Pure (_validate_evidence_identity v).
Proof. apply _. Qed.
#[global] Instance validate_amount_pure v az : Pure (_validate_amount v az).
Proof. destruct v; cbn [_validate_amount]; try apply _. destruct (_ =? _)%N; apply _. Qed.

Lemma validate_currency_shape c db :
  _validate_currency c db = (Return tt, db) → currency_shape c = true.
Proof.
  unfold _validate_currency, currency_shape. intros H. run_inv_in H. breflect.
  rewrite bool_decide_true by done. apply forallb_forall. intros ch Hch.
  destruct (_ && _) eqn:E; [done|]. exfalso.
  enough (existsb (λ ch, negb ((65 <=? ch)%N && (ch <=? 90)%N)) c = true) by congruence.
  apply existsb_exists. exists ch. by rewrite E.
Qed.

Lemma validate_text_trimmed v n db :
  _validate_bounded_text v n db = (Return tt, db) → trimmed_between n v = true.
Proof.
  unfold _validate_bounded_text, trimmed_between. intros H. run_inv_in H. breflect.
  rewrite bool_decide_true.
  - destruct v; [done|]. apply andb_true_iff.
    apply Nat.ltb_ge in Hb0. split; [done | by apply Nat.leb_le].
  - symmetry. apply (strip_with_mono py_isspace); [|done].
    intros ch <-%N.eqb_eq. reflexivity.
Qed.

Lemma count_digits_lower fuel n :
  n ≠ 0%N → (10 ^ N.of_nat (count_digits fuel n - 1) <= n)%N.
Proof.
  revert n. induction fuel as [|fuel IH]; intros n Hn; cbn [count_digits].
  - cbn. lia.
  - destruct (n <? 10)%N eqn:E; [cbn; lia|]. apply N.ltb_ge in E.
    assert (n / 10 ≠ 0)%N as Hq by (apply N.neq_0_lt_0, N.div_str_pos; lia).
    specialize (IH _ Hq). cbn [Nat.sub]. rewrite Nat.sub_0_r.
    destruct (count_digits fuel (n / 10)) as [|k] eqn:Ek; [cbn; lia|].
    cbn [Nat.sub] in IH. rewrite Nat.sub_0_r in IH.
    rewrite Nat2N.inj_succ, N.pow_succ_r' .
    pose proof (N.Div0.mul_div_le n 10). lia.
Qed.

(** [len_digits] has fuel enough: the coefficient has no more digits. *)
Lemma count_digits_upper fuel n :
  (n < 2 ^ N.of_nat fuel)%N → (n < 10 ^ N.of_nat (count_digits fuel n))%N.
Proof.
  revert n. induction fuel as [|fuel IH]; intros n Hn; cbn [count_digits].
  - cbn in *. lia.
  - destruct (n <? 10)%N eqn:E; [apply N.ltb_lt in E; cbn; lia|]. apply N.ltb_ge in E.
    rewrite Nat2N.inj_succ, N.pow_succ_r' in *.
    assert (n / 10 < 2 ^ N.of_nat fuel)%N as Hq by (apply N.Div0.div_lt_upper_bound; lia).
    specialize (IH _ Hq). pose proof (N.mod_lt n 10 ltac:(lia)).
    pose proof (N.div_mod n 10 ltac:(lia)). lia.
Qed.

(** A non-zero amount that fits has at most twelve integer digits: the source's
    last check of [_validate_amount] never fires. *)
Lemma integer_digits_fit c e :
  c ≠ 0%N → -8 ≤ e → to_units c e ≤ MAX_AMOUNT → Z.of_nat (len_digits c) + e ≤ 12.
Proof.
  intros Hc He Hfit. pose proof (count_digits_lower (N.size_nat c) c Hc) as Hlow.
  fold (len_digits c) in Hlow. apply Z.le_ngt. intros Hbig.
  assert (1 ≤ len_digits c)%nat as Hpos.
  { unfold len_digits. destruct (N.size_nat c); cbn; [|destruct (_ <? _)%N]; lia. }
  set (d := len_digits c) in *. unfold to_units in Hfit.
  assert (10 ^ 20 ≤ Z.of_N c * 10 ^ (e + 8)); [|unfold MAX_AMOUNT in Hfit; lia].
  assert (10 ^ (Z.of_nat d - 1) ≤ Z.of_N c) as Hl.
  { destruct d as [|d]; [cbn; lia|]. apply N2Z.inj_le in Hlow.
    rewrite N2Z.inj_pow, nat_N_Z in Hlow. cbn [Nat.sub] in Hlow.
    by replace (Z.of_nat (S d) - 1) with (Z.of_nat (d - 0)) by lia. }
  transitivity (10 ^ (Z.of_nat d - 1) * 10 ^ (e + 8)).
  - rewrite <- Z.pow_add_r by lia. apply Z.pow_le_mono_r; lia.
  - apply Z.mul_le_mono_nonneg_r; [apply Z.pow_nonneg; lia | done].
Qed.

Lemma exceeds_max_false c e :
  -8 ≤ e → exceeds_max c e = false ↔ to_units c e ≤ MAX_AMOUNT.
Proof.
  intros He. unfold exceeds_max, to_units.
  rewrite (proj2 (Z.leb_le 0 (e + 8))) by lia. apply Z.ltb_ge.
Qed.

(** Exactly which decimals a budget amount may be, and the stored value. *)
Lemma validate_amount_spec v az db z :
  _validate_amount v az db = (Return z, db) ↔
  ∃ c e, v = DFinite false c e ∧ -8 ≤ e ∧ z = to_units c e ∧ z ≤ MAX_AMOUNT ∧
         (az = false → c ≠ 0%N).
Proof.
  split.
  - destruct v as [s c e| |]; cbn [_validate_amount]; intros H; try discriminate H.
    run_inv_in H. breflect. subst. exists c, e.
    assert (-8 ≤ e) by (unfold AMOUNT_SCALE in *; lia).
    split_and!; [done.. | by apply exceeds_max_false |].
    intros ->. destruct (c =? 0)%N eqn:E; [done|]. by apply N.eqb_neq.
  - intros (c & e & -> & He & -> & Hmax & Hz). cbn [_validate_amount].
    assert ((c =? 0)%N && negb az = false) as Hc.
    { destruct az; [apply andb_false_r|]. rewrite (proj2 (N.eqb_neq _ _)) by auto. done. }
    rewrite (proj2 (exceeds_max_false c e He)) by done.
    rewrite (proj2 (Z.ltb_ge e _)) by (unfold AMOUNT_SCALE; lia).
    mstep. rewrite Hc. msimpl. do 3 mstep.
    destruct (c =? 0)%N eqn:E; [done|]. apply N.eqb_neq in E.
    pose proof (integer_digits_fit c e E He Hmax).
    rewrite (proj2 (Z.ltb_ge _ _)); [done|].
    unfold AMOUNT_PRECISION, AMOUNT_SCALE. destruct (0 <=? e); lia.
Qed.

Lemma validate_amount_range v az db z :
  _validate_amount v az db = (Return z, db) → 0 ≤ z ≤ MAX_AMOUNT ∧ (az = false → 0 < z).
Proof.
  intros (c & e & -> & He & -> & Hmax & Hz)%validate_amount_spec. unfold to_units in *.
  assert (0 < 10 ^ (e + 8)) by (apply Z.pow_pos_nonneg; lia).
  split; [nia|]. intros ?%Hz. nia.
Qed.

(** ** Snapshots of rows that satisfy their constraints *)

Lemma attempt_snapshot_ok sc i a db :
  attempt_ok i a →
  ∃ k st ev, kind_value k = attempt_kind a ∧ status_value st = status a ∧
    evidence_value <$> ev = settlement_evidence_kind a ∧
    _attempt_snapshot sc i a db
    = (Return (mkAttemptSnapshot (att_id a) sc i k (reserved_amount a) (att_currency a)
         CONSERVATIVE_MAXIMUM st (settlement_amount a) (settlement_currency a) ev
         (settlement_evidence_identity a) (settlement_is_estimate a) (settled_at a)
         (created_at a)), db).
Proof.
  intros (_ & [k Hk] & _ & _ & Hb & Hs)%attempt_ok_iff.
  assert (∃ st ev, status_value st = status a ∧ evidence_value <$> ev = settlement_evidence_kind a
          ∧ parse_enum status_value status_members (status a) = Some st
          ∧ match settlement_evidence_kind a with
            | None => Some None
            | Some v => Some <$> parse_enum evidence_value evidence_members v
            end = Some ev) as (st & ev & Hst & Hev & Hpst & Hpev).
  { unfold unsettled_shape, settled_shape, settlement_evidence_of in Hs.
    destruct Hs as [[Hst Hsh] | (Hst & z & bi & t & _ & _ & Hsh)].
    - assert (settlement_evidence_kind a = None) as -> by congruence. destruct Hst as [-> | ->]; [exists RESERVED, None | exists UNKNOWN_OUTCOME, None];
        by split_and!.
    - assert (settlement_evidence_kind a = Some "PROVIDER_BILL") as -> by congruence.
      rewrite Hst. by exists SETTLED, (Some PROVIDER_BILL). }
  exists k, st, ev. split_and!; [done..|]. unfold _attempt_snapshot.
  rewrite Hk, Hb, Hpst, Hpev. by destruct k.
Qed.

(** ** Refinement *)

Lemma charge_split sc k i a :
  attempt_ok i a →
  charge_in sc k (hold_of a) = in_scope sc open_amount k a + in_scope sc billed_amount k a.
Proof.
  intros (_ & _ & _ & _ & _ & Hs)%attempt_ok_iff.
  unfold charge_in, in_scope. case_bool_decide; [|done]. unfold charge, hold_of; cbn.
  destruct Hs as [[Hs _]|[Hs _]].
  - destruct (amounts_unsettled a Hs) as [-> ->].
    rewrite bool_decide_false by (destruct Hs as [-> | ->]; done). lia.
  - destruct (amounts_settled a Hs) as [-> ->]. by rewrite bool_decide_true by done.
Qed.

Lemma abs_committed db sc :
  ledger_inv db → committed (abs db) sc = expected_reserved db sc + expected_settled db sc.
Proof.
  intros Hinv. unfold committed, expected_reserved, expected_settled, abs; cbn.
  rewrite sum_map_fmap, <- sum_map_add. apply sum_map_ext. intros [sc' i] a Ha.
  eapply charge_split, inv_attempt_ok; eauto.
Qed.

Lemma abs_billed db sc : billed (abs db) sc = expected_settled db sc.
Proof.
  unfold billed, expected_settled, abs; cbn. rewrite sum_map_fmap. apply sum_map_ext.
  intros [sc' i] a _. unfold billed_in, in_scope, billed_amount; cbn.
  destruct (bool_decide (status a = _)); cbn; by destruct (bool_decide _).
Qed.

Lemma abs_write db sc i b acc acc' :
  accounts db !! sc = Some acc → acc_currency acc' = acc_currency acc →
  limit_amount acc' = limit_amount acc →
  abs (mkDb (runs db) (<[sc := acc']> (accounts db)) (<[(sc, i) := b]> (attempts db)))
  = put_hold (sc, i) (hold_of b) (abs db).
Proof.
  intros Hacc Hc Hl. unfold abs, put_hold; cbn. f_equal.
  - rewrite fmap_insert. apply insert_id. by rewrite lookup_fmap, Hacc, Hc, Hl.
  - by rewrite fmap_insert.
Qed.

Tactic Notation "run" constr(H) := rewrite (bind_return _ _ _ _ _ H).
Tactic Notation "run" constr(H) "in" hyp(G) := rewrite (bind_return _ _ _ _ _ H) in G.
Tactic Notation "abort" constr(H) "in" hyp(G) := rewrite (bind_raise _ _ _ _ _ H) in G.
Tactic Notation "abort" constr(H) := rewrite (bind_raise _ _ _ _ _ H).

(** [m] does on [db] what the specification does on its abstraction: the same
    verdict, the same holds, the invariant kept; an error and a replay write
    nothing. *)
Definition sim (db : Db) (m : L bool) (spec : Verdict * AbsLedger) : Prop :=
  ∃ r db', m db = (r, db') ∧ verdict_of r = fst spec ∧ abs db' = snd spec ∧ ledger_inv db' ∧
    match r with Return true => True | _ => db' = db end.

Lemma sim_raise db (m : L bool) e v :
  ledger_inv db → m db = (Raise e, db) → verdict_of (Raise e) = v → sim db m (v, abs db).
Proof. intros ? Hm Hv. by exists (Raise e), db. Qed.

Lemma sim_return db (m : L bool) b db' v al :
  ledger_inv db' → m db = (Return b, db') → (b = false → db' = db) →
  verdict_of (Return b) = v → abs db' = al → sim db m (v, al).
Proof. intros ? Hm Hb Hv Ha. exists (Return b), db'. split_and!; try done. destruct b; auto. Qed.

(** Close a branch in which the program is known to raise / to return. *)
Ltac sim_err H := eapply sim_raise; [done | rewrite bind_run, H; reflexivity | reflexivity].
Ltac sim_ok H :=
  eapply sim_return; [done | rewrite bind_run, H; reflexivity | cbn; congruence | ..].

Lemma lock_account_ok sc db acc :
  ledger_inv db → accounts db !! sc = Some acc → _lock_account sc db = (Return acc, db).
Proof.
  intros Hinv Hacc. destruct (inv_totals db Hinv sc acc Hacc) as [Hr Hs].
  unfold _lock_account. mstep. by rewrite Hacc, <- Hr, <- Hs, !Z.eqb_refl.
Qed.

Lemma lock_account_missing sc db :
  accounts db !! sc = None →
  _lock_account sc db = (Raise (RunBudgetLedgerError "RUN_BUDGET_ACCOUNT_NOT_FOUND"), db).
Proof. intros Hacc. unfold _lock_account. mstep. by rewrite Hacc. Qed.

Lemma lock_attempt_run sc i db :
  _lock_attempt sc i db
  = (match attempts db !! (sc, i) with
     | None => Raise (RunBudgetLedgerError "RUN_BUDGET_ATTEMPT_NOT_FOUND")
     | Some a => Return a
     end, db).
Proof. unfold _lock_attempt. mstep. by destruct (attempts db !! (sc, i)). Qed.

(** Reading the abstraction back. *)
Lemma abs_limit db sc :
  al_limits (abs db) !! sc = (λ a, (acc_currency a, limit_amount a)) <$> accounts db !! sc.
Proof. apply lookup_fmap. Qed.
Lemma abs_hold db sc i : al_holds (abs db) !! (sc, i) = hold_of <$> attempts db !! (sc, i).
Proof. apply lookup_fmap. Qed.

Lemma new_attempt_ok id now k u c i :
  trimmed_between MAX_ATTEMPT_IDENTITY_LENGTH i = true → 0 < u ≤ MAX_AMOUNT →
  currency_shape c = true →
  attempt_ok i (new_attempt id k u c CONSERVATIVE_MAXIMUM now) ∧
  unsettled_shape (new_attempt id k u c CONSERVATIVE_MAXIMUM now).
Proof.
  intros Hi Hu Hc. rewrite attempt_ok_iff. unfold unsettled_shape; cbn.
  split_and!; eauto; lia.
Qed.

Definition reserve_bool id now sc i k a c b : L bool :=
  r ← reserve id now sc i k a c b; mret (created r).

(** A granted reservation: the two rows written. *)
Lemma reserve_grants id now sc i k a c u db acc :
  ledger_inv db → accounts db !! sc = Some acc → acc_currency acc = c →
  attempts db !! (sc, i) = None → map_Forall (λ _ b, att_id b ≠ id) (attempts db) →
  _validate_attempt_identity i db = (Return tt, db) →
  _validate_amount a false db = (Return u, db) → _validate_currency c db = (Return tt, db) →
  acc_reserved_amount acc + u + settled_amount acc ≤ limit_amount acc →
  let row := new_attempt id k u c CONSERVATIVE_MAXIMUM now in
  let acc' := set_reserved (acc_reserved_amount acc + u) acc in
  let db' := mkDb (runs db) (<[sc := acc']> (accounts db)) (<[(sc, i) := row]> (attempts db)) in
  ledger_inv db' ∧
  ∃ r, reserve id now sc i k a c CONSERVATIVE_MAXIMUM db = (Return r, db') ∧ created r = true
       ∧ res_account r = _account_snapshot sc acc'.
Proof.
  intros Hinv Hacc Hcur Hnew Hfresh Hi Hu Hc Hfunds row acc' db'.
  destruct (validate_amount_range _ _ _ _ Hu) as [Hrange Hpos]. specialize (Hpos eq_refl).
  destruct (new_attempt_ok id now k u c i (validate_text_trimmed _ _ _ Hi) ltac:(lia)
              (validate_currency_shape _ _ Hc)) as [Hrow Hsh]. fold row in Hrow, Hsh.
  pose proof (inv_account_ok db Hinv sc acc Hacc) as Hok. apply account_ok_iff in Hok.
  assert (account_ok acc') as Hok' by (apply account_ok_iff; cbn; split_and!; try lia; tauto).
  destruct (amounts_unsettled row (or_introl eq_refl)) as [Hop Hbi].
  assert (ledger_inv db') as Hinv'.
  { apply (inv_write db sc i row acc acc'); rewrite ?Hnew; try done; cbn [previous];
      rewrite ?Hop, ?Hbi; cbn; lia. }
  split; [done|].
  destruct (inv_totals db' Hinv' sc acc' (lookup_insert_eq _ _ _)) as [Hr' Hs'].
  destruct (attempt_snapshot_ok sc i row db' Hrow) as (k' & st & ev & _ & _ & _ & Hsnap).
  exists (mkReservation (_account_snapshot sc acc')
            (mkAttemptSnapshot id sc i k' u c CONSERVATIVE_MAXIMUM st None None ev None None None
               now) true).
  split; [|done]. unfold reserve. rewrite (bind_return _ _ _ _ _ Hi), (bind_return _ _ _ _ _ Hu),
    (bind_return _ _ _ _ _ Hc), bool_decide_true by done. mstep.
  rewrite (bind_return _ _ _ _ _ (lock_account_ok sc db acc Hinv Hacc)).
  rewrite Hcur, bool_decide_true by done. mstep. mstep. rewrite Hnew.
  rewrite (proj2 (Z.ltb_ge _ _)) by lia. mstep. fold row acc'.
  rewrite (bind_return _ _ _ _ _ (insert_attempt_ok sc i row db acc Hacc Hcur
             (inv_run_of db Hinv sc acc Hacc) Hnew Hfresh Hrow eq_refl Hsh)).
  rewrite (bind_return _ _ _ _ _ (flush_account_ok sc acc acc'
             (with_attempts (insert (sc, i) row) db) Hacc eq_refl eq_refl Hok' Hr' Hs'
             ltac:(intros _; cbn; lia))).
  by rewrite (bind_return _ _ _ _ _ Hsnap).
Qed.

Lemma reserve_prefix id now sc i k a c u db :
  _validate_attempt_identity i db = (Return tt, db) →
  _validate_amount a false db = (Return u, db) → _validate_currency c db = (Return tt, db) →
  reserve id now sc i k a c CONSERVATIVE_MAXIMUM db =
  (account ← _lock_account sc;
   raise_if (negb (bool_decide (acc_currency account = c)))
     (RunBudgetLedgerError "RUN_BUDGET_CURRENCY_MISMATCH");;
   db ← get;
   match attempts db !! (sc, i) with
   | Some existing =>
       _assert_matching_reservation existing u c k CONSERVATIVE_MAXIMUM;;
       snapshot ← _attempt_snapshot sc i existing;
       mret (mkReservation (_account_snapshot sc account) snapshot false)
   | None =>
       raise_if (limit_amount account <? acc_reserved_amount account + u + settled_amount account)
         (RunBudgetLedgerError "RUN_BUDGET_INSUFFICIENT_FUNDS");;
       insert_attempt sc i (new_attempt id k u c CONSERVATIVE_MAXIMUM now);;
       flush_account sc (set_reserved (acc_reserved_amount account + u) account);;
       snapshot ← _attempt_snapshot sc i (new_attempt id k u c CONSERVATIVE_MAXIMUM now);
       mret (mkReservation
               (_account_snapshot sc (set_reserved (acc_reserved_amount account + u) account))
               snapshot true)
   end) db.
Proof.
  intros Hi Hu Hc. unfold reserve. run Hi. run Hu. run Hc.
  rewrite bool_decide_true by done. by mstep.
Qed.

Lemma matching_reservation_run a u c k i db :
  attempt_ok i a →
  _assert_matching_reservation a u c k CONSERVATIVE_MAXIMUM db
  = (if bool_decide ((h_amount (hold_of a), h_currency (hold_of a), h_kind (hold_of a))
                     = (u, c, kind_value k))
     then Return tt else Raise (RunBudgetLedgerError "RUN_BUDGET_ATTEMPT_CONFLICT"), db).
Proof.
  intros (_ & _ & _ & _ & Hb & _)%attempt_ok_iff. unfold _assert_matching_reservation; cbn.
  rewrite Hb, raise_if_cases.
  change (bool_decide ("CONSERVATIVE_MAXIMUM" = basis_value CONSERVATIVE_MAXIMUM)) with true.
  destruct (decide (reserved_amount a = u ∧ att_currency a = c ∧ attempt_kind a = kind_value k))
    as [(-> & -> & ->)|Hn].
  - by rewrite Z.eqb_refl, !bool_decide_true by done.
  - rewrite (bool_decide_false (_ = (u, c, kind_value k))) by (intros [= ???]; tauto).
    destruct (reserved_amount a =? u) eqn:E1; [|done]. apply Z.eqb_eq in E1.
    repeat case_bool_decide; cbn; try done. tauto.
Qed.

Lemma reserve_sim id now sc i k a c u db :
  ledger_inv db → _validate_attempt_identity i db = (Return tt, db) →
  _validate_amount a false db = (Return u, db) → _validate_currency c db = (Return tt, db) →
  map_Forall (λ _ b, att_id b ≠ id) (attempts db) →
  sim db (reserve_bool id now sc i k a c CONSERVATIVE_MAXIMUM) (spec_reserve sc i k u c (abs db)).
Proof.
  intros Hinv Hi Hu Hc Hfresh. unfold spec_reserve, reserve_bool. rewrite abs_limit, abs_hold.
  pose proof (reserve_prefix id now sc i k a c u db Hi Hu Hc) as Hpre.
  destruct (accounts db !! sc) as [acc|] eqn:Hacc; cbn [fmap option_fmap option_map].
  2: { abort (lock_account_missing sc db Hacc) in Hpre.
       sim_err Hpre. }
  run (lock_account_ok sc db acc Hinv Hacc) in Hpre.
  rewrite bind_run, raise_if_cases in Hpre.
  destruct (bool_decide (acc_currency acc = c)) eqn:Hcur; breflect; cbn [negb] in *;
    [|sim_err Hpre].
  rewrite bind_run in Hpre. cbn [get] in Hpre.
  destruct (attempts db !! (sc, i)) as [a0|] eqn:Ha; cbn [fmap option_fmap option_map].
  - pose proof (inv_attempt_ok db Hinv _ _ _ Ha) as Hok.
    destruct (attempt_snapshot_ok sc i a0 db Hok) as (k' & st & ev & _ & _ & _ & Hsnap).
    rewrite bind_run, (matching_reservation_run a0 u c k i db Hok) in Hpre.
    destruct (bool_decide _); [|sim_err Hpre].
    run Hsnap in Hpre. by sim_ok Hpre.
  - destruct (inv_totals db Hinv sc acc Hacc) as [Hr Hs].
    rewrite abs_committed, <- Hr, <- Hs by done.
    replace (acc_reserved_amount acc + settled_amount acc + u)
      with (acc_reserved_amount acc + u + settled_amount acc) by lia.
    destruct (limit_amount acc <? _) eqn:Hf; breflect.
    + sim_err Hpre.
    + destruct (reserve_grants id now sc i k a c u db acc) as (Hinv' & r & Hrun & Hcr & _);
        try done.
      sim_ok Hrun; [by rewrite Hcr | by rewrite (abs_write db sc i _ acc)].
Qed.

(** *** Unknown outcomes *)

Definition mark_bool sc i : L bool := mark_unknown_outcome sc i;; mret true.

Lemma hold_of_unsettled a :
  unsettled_shape a →
  hold_of a = mkHold (reserved_amount a) (att_currency a) (attempt_kind a)
                (Held (bool_decide (status a = "UNKNOWN_OUTCOME"))).
Proof.
  intros [Hs _]. unfold hold_of. rewrite (bool_decide_false (status a = "SETTLED")); [done|].
  destruct Hs as [-> | ->]; done.
Qed.

Lemma hold_of_settled a :
  settled_shape a →
  ∃ z bill, settlement_amount a = Some z ∧ settlement_currency a = Some (att_currency a) ∧
    settlement_evidence_kind a = Some "PROVIDER_BILL" ∧
    settlement_evidence_identity a = Some bill ∧ settlement_is_estimate a = Some false ∧
    hold_of a = mkHold (reserved_amount a) (att_currency a) (attempt_kind a) (Billed z bill).
Proof.
  intros (Hs & z & bill & t & _ & _ & Hev). unfold settlement_evidence_of in Hev.
  exists z, bill. unfold hold_of. rewrite Hs, bool_decide_true by done.
  injection Hev as -> -> -> -> -> _. by split_and!.
Qed.

Lemma set_status_ok i a :
  attempt_ok i a → unsettled_shape a →
  attempt_ok i (set_status "UNKNOWN_OUTCOME" a) ∧ unsettled_shape (set_status "UNKNOWN_OUTCOME" a).
Proof.
  intros Hok [_ Hev]. assert (unsettled_shape (set_status "UNKNOWN_OUTCOME" a)) as Hsh.
  { split; [by right | exact Hev]. }
  split; [|done]. apply attempt_ok_iff in Hok as (? & ? & ? & ? & ? & _).
  apply attempt_ok_iff; cbn. tauto.
Qed.

(** The row of an open attempt after [mark_unknown_outcome]. *)
Lemma mark_row sc i a acc db :
  ledger_inv db → accounts db !! sc = Some acc → attempts db !! (sc, i) = Some a →
  unsettled_shape a → _validate_attempt_identity i db = (Return tt, db) →
  let a' := set_status "UNKNOWN_OUTCOME" a in
  let db' := mkDb (runs db) (<[sc := acc]> (accounts db)) (<[(sc, i) := a']> (attempts db)) in
  ledger_inv db' ∧ ∃ s, mark_unknown_outcome sc i db = (Return s, db').
Proof.
  intros Hinv Hacc Ha Hsh Hi a' db'.
  pose proof (inv_attempt_ok db Hinv _ _ _ Ha) as Hok.
  destruct (set_status_ok i a Hok Hsh) as [Hok' Hsh'].
  destruct (amounts_unsettled a (proj1 Hsh)) as [Hop Hbi].
  destruct (amounts_unsettled a' (or_intror eq_refl)) as [Hop' Hbi'].
  destruct (inv_open_attempt db sc i a acc Hinv Hacc Ha Hsh) as [Hcur Hle].
  assert (ledger_inv db') as Hinv'.
  { apply (inv_write db sc i a' acc acc); rewrite ?Ha; cbn [previous]; try done.
    - by eapply inv_account_ok.
    - rewrite Hop, Hop'. cbn. lia.
    - rewrite Hbi, Hbi'. lia. }
  split; [done|].
  destruct (attempt_snapshot_ok sc i a' db' Hok') as (k' & st & ev & _ & _ & _ & Hsnap).
  eexists. unfold mark_unknown_outcome. run Hi. run (lock_account_ok sc db acc Hinv Hacc).
  rewrite bind_run, lock_attempt_run, Ha.
  rewrite (bool_decide_false (status a = status_value SETTLED))
    by (destruct Hsh as [[-> | ->] _]; done). mstep.
  assert (∀ m, m db = (Return a', db') → (m ≫= λ attempt',
    raise_if (acc_reserved_amount acc <? reserved_amount attempt')
      (RunBudgetLedgerError "RUN_BUDGET_ACCOUNT_INVARIANT");;
    _attempt_snapshot sc i attempt') db = _attempt_snapshot sc i a' db') as Hrest.
  { intros m Hm. run Hm. rewrite (proj2 (Z.ltb_ge _ _)) by (cbn; lia). reflexivity. }
  rewrite Hrest; [exact Hsnap|].
  assert (with_attempts (insert (sc, i) a') db = db') as Hdb.
  { unfold with_attempts, db'. by rewrite (insert_id (accounts db)) by done. }
  destruct Hsh as [[Hs|Hs] Hev].
  - rewrite bool_decide_true by done.
    rewrite (bind_return _ _ _ _ _ (flush_attempt_ok sc i a a' db acc Hacc Hcur Ha Hok' eq_refl
               (conj (or_introl Hs) Hev) (or_intror (or_introl Hs)))). by rewrite Hdb.
  - rewrite (bool_decide_false (status a = status_value RESERVED)) by (rewrite Hs; done).
    rewrite bool_decide_true by done. mstep.
    assert (a' = a) as ->. { unfold a'. rewrite <- Hs. by destruct a. }
    rewrite <- Hdb. unfold with_attempts. rewrite insert_id by done. by destruct db.
Qed.

Lemma mark_sim sc i db :
  ledger_inv db → _validate_attempt_identity i db = (Return tt, db) →
  sim db (mark_bool sc i) (spec_mark sc i (abs db)).
Proof.
  intros Hinv Hi. unfold spec_mark, mark_bool. rewrite abs_limit, abs_hold.
  destruct (accounts db !! sc) as [acc|] eqn:Hacc; cbn [fmap option_fmap option_map].
  2: { assert (mark_unknown_outcome sc i db = (Raise _, db)) as Hrun
         by (unfold mark_unknown_outcome; run Hi; by abort (lock_account_missing sc db Hacc)).
       sim_err Hrun. }
  destruct (attempts db !! (sc, i)) as [a|] eqn:Ha; cbn [fmap option_fmap option_map].
  2: { assert (mark_unknown_outcome sc i db = (Raise _, db)) as Hrun
         by (unfold mark_unknown_outcome; run Hi; run (lock_account_ok sc db acc Hinv Hacc);
             by rewrite bind_run, lock_attempt_run, Ha).
       sim_err Hrun. }
  pose proof (inv_attempt_ok db Hinv _ _ _ Ha) as Hok.
  destruct (proj1 (attempt_ok_iff i a) Hok) as (_ & _ & _ & _ & _ & [Hsh|Hsh]).
  - destruct (mark_row sc i a acc db Hinv Hacc Ha Hsh Hi) as (Hinv' & s & Hrun).
    rewrite (hold_of_unsettled a Hsh). cbn [h_phase].
    sim_ok Hrun; [done|]. by rewrite (abs_write db sc i _ acc).
  - destruct (hold_of_settled a Hsh) as (z & bill & _ & _ & _ & _ & _ & ->). cbn [h_phase].
    assert (mark_unknown_outcome sc i db = (Raise _, db)) as Hrun
      by (unfold mark_unknown_outcome; run Hi; run (lock_account_ok sc db acc Hinv Hacc);
          rewrite bind_run, lock_attempt_run, Ha, (bool_decide_true (status a = status_value SETTLED))
            by apply Hsh; reflexivity).
    sim_err Hrun.
Qed.

(** *** Settlement *)

Definition settle_bool now sc i a c e ei : L bool :=
  r ← settle now sc i a c e ei; mret (created r).

Lemma set_settlement_ok i a z c bill now :
  attempt_ok i a → 0 ≤ z ≤ MAX_AMOUNT → att_currency a = c →
  trimmed_between MAX_EVIDENCE_IDENTITY_LENGTH bill = true →
  attempt_ok i (set_settlement z c PROVIDER_BILL bill false now a) ∧
  hold_of (set_settlement z c PROVIDER_BILL bill false now a)
  = mkHold (reserved_amount a) (att_currency a) (attempt_kind a) (Billed z bill).
Proof.
  intros Hok Hz Hc Hb. split; [|done].
  apply attempt_ok_iff in Hok as (? & ? & ? & ? & ? & _).
  apply attempt_ok_iff; cbn. do 5 (split; [done|]). right. split; [done|].
  exists z, bill, now. unfold settlement_evidence_of; cbn. by rewrite Hc.
Qed.

(** A settlement that is posted: the two rows written. *)
Lemma settle_posts now sc i a c bill u db acc att :
  ledger_inv db → accounts db !! sc = Some acc → attempts db !! (sc, i) = Some att →
  unsettled_shape att → acc_currency acc = c →
  _validate_attempt_identity i db = (Return tt, db) →
  _validate_amount a true db = (Return u, db) → _validate_currency c db = (Return tt, db) →
  _validate_evidence_identity bill db = (Return tt, db) →
  settled_amount acc + u ≤ MAX_AMOUNT →
  let att' := set_settlement u c PROVIDER_BILL bill false now att in
  let acc' := set_totals (acc_reserved_amount acc - reserved_amount att)
                (settled_amount acc + u) acc in
  let db' := mkDb (runs db) (<[sc := acc']> (accounts db)) (<[(sc, i) := att']> (attempts db)) in
  ledger_inv db' ∧
  ∃ r, settle now sc i a c PROVIDER_BILL bill db = (Return r, db') ∧ created r = true
       ∧ res_account r = _account_snapshot sc acc'.
Proof.
  intros Hinv Hacc Ha Hsh Hcur Hi Hu Hc Hb Hfit att' acc' db'.
  destruct (validate_amount_range _ _ _ _ Hu) as [Hrange _].
  pose proof (inv_attempt_ok db Hinv _ _ _ Ha) as Hok.
  destruct (inv_open_attempt db sc i att acc Hinv Hacc Ha Hsh) as [Hac Hle].
  destruct (set_settlement_ok i att u c bill now Hok Hrange ltac:(congruence)
              (validate_text_trimmed _ _ _ Hb)) as [Hok' _]. fold att' in Hok'.
  destruct (amounts_unsettled att (proj1 Hsh)) as [Hop Hbi].
  destruct (amounts_settled att' eq_refl) as [Hop' Hbi'].
  pose proof (proj1 (account_ok_iff acc) (inv_account_ok db Hinv sc acc Hacc)) as Hacok.
  assert (account_ok acc') as Hacok' by (apply account_ok_iff; cbn; split_and!; try lia; tauto).
  assert (ledger_inv db') as Hinv'.
  { apply (inv_write db sc i att' acc acc'); rewrite ?Ha; cbn [previous]; try done.
    - rewrite Hop, Hop'. cbn. lia.
    - rewrite Hbi, Hbi'. cbn. lia. }
  split; [done|].
  destruct (inv_totals db' Hinv' sc acc' (lookup_insert_eq _ _ _)) as [Hr' Hs'].
  destruct (attempt_snapshot_ok sc i att' db' Hok') as (k' & st & ev & _ & _ & _ & Hsnap).
  eexists (mkReservation _ _ _). split; [|by split].
  unfold settle. run Hi. run Hu. run Hc. rewrite bool_decide_true by done. mstep. run Hb.
  run (lock_account_ok sc db acc Hinv Hacc). rewrite bind_run, lock_attempt_run, Ha.
  rewrite Hcur, <- Hac, Hcur, (bool_decide_true (c = c)) by done. mstep.
  rewrite (bool_decide_false (status att = status_value SETTLED))
    by (destruct Hsh as [[-> | ->] _]; done).
  rewrite bool_decide_true by (apply elem_of_two, Hsh). mstep.
  rewrite (proj2 (Z.ltb_ge (acc_reserved_amount acc) _)) by lia. mstep.
  rewrite !(proj2 (Z.ltb_ge MAX_AMOUNT _)) by lia. mstep. fold att' acc'.
  run (flush_attempt_ok sc i att att' db acc Hacc Hac Ha Hok' eq_refl Hsh (or_intror (or_intror eq_refl))).
  run (flush_account_ok sc acc acc' (with_attempts (insert (sc, i) att') db) Hacc eq_refl eq_refl
         Hacok' Hr' Hs' ltac:(cbn; lia)).
  by run Hsnap.
Qed.

Lemma settle_prefix now sc i a c bill u db acc :
  ledger_inv db → accounts db !! sc = Some acc →
  _validate_attempt_identity i db = (Return tt, db) →
  _validate_amount a true db = (Return u, db) → _validate_currency c db = (Return tt, db) →
  _validate_evidence_identity bill db = (Return tt, db) →
  match attempts db !! (sc, i) with
  | None => settle now sc i a c PROVIDER_BILL bill db
            = (Raise (RunBudgetLedgerError "RUN_BUDGET_ATTEMPT_NOT_FOUND"), db)
  | Some att =>
      acc_currency acc = att_currency att →
      (acc_currency acc ≠ c →
       settle now sc i a c PROVIDER_BILL bill db
       = (Raise (RunBudgetLedgerError "RUN_BUDGET_CURRENCY_MISMATCH"), db)) ∧
      (acc_currency acc = c → status att = "SETTLED" →
       settle now sc i a c PROVIDER_BILL bill db
       = (_assert_matching_settlement att u c PROVIDER_BILL bill;;
          snapshot ← _attempt_snapshot sc i att;
          mret (mkReservation (_account_snapshot sc acc) snapshot false)) db) ∧
      (acc_currency acc = c → unsettled_shape att → MAX_AMOUNT < settled_amount acc + u →
       settle now sc i a c PROVIDER_BILL bill db
       = (Raise (RunBudgetLedgerError "RUN_BUDGET_AMOUNT_PRECISION_EXCEEDED"), db))
  end.
Proof.
  intros Hinv Hacc Hi Hu Hc Hb. unfold settle. run Hi. run Hu. run Hc.
  rewrite bool_decide_true by done. mstep. run Hb. run (lock_account_ok sc db acc Hinv Hacc).
  rewrite bind_run, lock_attempt_run.
  destruct (attempts db !! (sc, i)) as [att|] eqn:Ha; [|done]. intros Hac. rewrite <- Hac.
  split_and!; intros Hcur.
  - by rewrite (bool_decide_false (acc_currency acc = c)).
  - intros Hs. rewrite Hcur, (bool_decide_true (c = c)) by done. mstep. by rewrite Hs.
  - intros Hsh Hbig. rewrite Hcur, (bool_decide_true (c = c)) by done. mstep.
    rewrite (bool_decide_false (status att = status_value SETTLED))
      by (destruct Hsh as [[-> | ->] _]; done).
    rewrite bool_decide_true by (apply elem_of_two, Hsh). mstep.
    pose proof (inv_open_attempt db sc i att acc Hinv Hacc Ha Hsh).
    rewrite (proj2 (Z.ltb_ge (acc_reserved_amount acc) _)) by lia. mstep.
    by rewrite (proj2 (Z.ltb_lt MAX_AMOUNT (settled_amount acc + u))), orb_true_r by lia.
Qed.

Lemma matching_settlement_run a z b u bill db :
  settlement_amount a = Some z → settlement_currency a = Some (att_currency a) →
  settlement_evidence_kind a = Some "PROVIDER_BILL" → settlement_evidence_identity a = Some b →
  settlement_is_estimate a = Some false →
  _assert_matching_settlement a u (att_currency a) PROVIDER_BILL bill db
  = (if bool_decide ((z, b) = (u, bill)) then Return tt
     else Raise (RunBudgetLedgerError "RUN_BUDGET_SETTLEMENT_CONFLICT"), db).
Proof.
  intros Hz Hc Hk Hb He. unfold _assert_matching_settlement.
  rewrite Hz, Hc, Hk, Hb, He, raise_if_cases. cbn [evidence_value].
  rewrite (bool_decide_true (Some (att_currency a) = _)) by done.
  change (bool_decide (Some "PROVIDER_BILL" = Some "PROVIDER_BILL")) with true.
  change (bool_decide (Some false = Some (negb (bool_decide (PROVIDER_BILL = PROVIDER_BILL)))))
    with true. cbn [negb]. rewrite !orb_false_r.
  destruct (decide (z = u)) as [->|Hn], (decide (b = bill)) as [->|Hn'].
  - by rewrite !bool_decide_true.
  - rewrite (bool_decide_false (Some b = _)), orb_true_r by congruence.
    by rewrite (bool_decide_false ((_, _) = _)) by congruence.
  - rewrite (bool_decide_false (Some z = _)) by congruence.
    by rewrite (bool_decide_false ((_, _) = _)) by congruence.
  - rewrite (bool_decide_false (Some z = _)) by congruence.
    by rewrite (bool_decide_false ((_, _) = _)) by congruence.
Qed.

Lemma settle_sim now sc i a c bill u db :
  ledger_inv db → _validate_attempt_identity i db = (Return tt, db) →
  _validate_amount a true db = (Return u, db) → _validate_currency c db = (Return tt, db) →
  _validate_evidence_identity bill db = (Return tt, db) →
  sim db (settle_bool now sc i a c PROVIDER_BILL bill) (spec_settle sc i u c bill (abs db)).
Proof.
  intros Hinv Hi Hu Hc Hb. unfold spec_settle, settle_bool. rewrite abs_limit, abs_hold.
  destruct (accounts db !! sc) as [acc|] eqn:Hacc; cbn [fmap option_fmap option_map].
  2: { assert (settle now sc i a c PROVIDER_BILL bill db = (Raise _, db)) as Hrun
         by (unfold settle; run Hi; run Hu; run Hc; rewrite bool_decide_true by done;
             mstep; run Hb; by abort (lock_account_missing sc db Hacc)).
       sim_err Hrun. }
  pose proof (settle_prefix now sc i a c bill u db acc Hinv Hacc Hi Hu Hc Hb) as Hpre.
  destruct (attempts db !! (sc, i)) as [att|] eqn:Ha; cbn [fmap option_fmap option_map];
    [|sim_err Hpre].
  pose proof (inv_attempt_ok db Hinv _ _ _ Ha) as Hok.
  pose proof (inv_account_of db Hinv _ _ _ Ha) as Hac. rewrite Hacc in Hac. injection Hac as Hac.
  destruct (Hpre Hac) as (Hmis & Hset & Hbig). clear Hpre.
  destruct (bool_decide (acc_currency acc = c)) eqn:Hcur; breflect; cbn [negb];
    [|specialize (Hmis Hcur); sim_err Hmis].
  destruct (inv_totals db Hinv sc acc Hacc) as [_ Hs].
  destruct (proj1 (attempt_ok_iff i att) Hok) as (_ & _ & _ & _ & _ & [Hsh|Hsh]).
  - rewrite (hold_of_unsettled att Hsh), abs_billed, <- Hs. cbn [h_phase h_amount h_currency h_kind].
    destruct (MAX_AMOUNT <? _) eqn:Hf; breflect.
    + specialize (Hbig Hcur Hsh Hf). sim_err Hbig.
    + destruct (settle_posts now sc i a c bill u db acc att) as (Hinv' & r & Hrun & Hcr & _);
        try done.
      sim_ok Hrun; [by rewrite Hcr | by rewrite (abs_write db sc i _ acc)].
  - specialize (Hset Hcur (proj1 Hsh)).
    destruct (hold_of_settled att Hsh) as (z & b & Hz & Hsc & Hk & Hbi & He & ->). cbn [h_phase].
    replace c with (att_currency att) in Hset at 2 by congruence.
    rewrite bind_run, (matching_settlement_run att z b u bill db Hz Hsc Hk Hbi He) in Hset.
    destruct (bool_decide _); [|sim_err Hset].
    destruct (attempt_snapshot_ok sc i att db Hok) as (k' & st & ev & _ & _ & _ & Hsnap).
    run Hsnap in Hset. by sim_ok Hset.
Qed.

(** *** Account creation *)

Definition create_bool sc c l : L bool := r ← create_account sc c l; mret (snd r).

Lemma inv_create db sc acc :
  ledger_inv db → accounts db !! sc = None → sc ∈ runs db → account_ok acc →
  acc_reserved_amount acc = 0 → settled_amount acc = 0 →
  ledger_inv (with_accounts (insert sc acc) db).
Proof.
  intros Hinv Hnone Hrun Hok Hr Hs.
  assert (∀ (f : RunBudgetAttempt → Z), sum_map (in_scope sc f) (attempts db) = 0) as Hzero.
  { intros f. rewrite (sum_map_ext _ (λ _ _, 0)).
    - induction (attempts db) as [|k x m Hk IH] using map_ind; [done|].
      rewrite sum_map_insert by done. lia.
    - intros [sc' i] a Ha. unfold in_scope. case_bool_decide as Hsc; [|done]. cbn in Hsc. subst.
      pose proof (inv_account_of db Hinv _ _ _ Ha) as Hc. by rewrite Hnone in Hc. }
  split; cbn.
  - intros sc' a [[<- <-]|[_ Ha]]%lookup_insert_Some; [done | by eapply inv_account_ok].
  - intros sc' i a Ha. by eapply inv_attempt_ok.
  - intros sc' a [[<- <-]|[_ Ha]]%lookup_insert_Some.
    + unfold expected_reserved, expected_settled. cbn. by rewrite !Hzero.
    + by apply (inv_totals db Hinv).
  - intros sc' i a Ha. pose proof (inv_account_of db Hinv _ _ _ Ha) as Hc.
    rewrite lookup_insert_ne; [done|]. intros <-. by rewrite Hnone in Hc.
  - intros sc' a [[<- _]|[_ Ha]]%lookup_insert_Some; [done | by eapply inv_run_of].
Qed.

Lemma insert_account_ok sc acc db :
  account_ok acc → acc_reserved_amount acc = 0 → settled_amount acc = 0 → sc ∈ runs db →
  insert_account sc acc db = (Return tt, with_accounts (insert sc acc) db).
Proof.
  intros Hok Hr Hs Hrun. unfold insert_account. lstep.
  assert (run_budget_guard_account_identity db sc None acc = None) as ->
    by (cbn; by rewrite Hr, Hs).
  lstep. rewrite Hok. lstep. by rewrite bool_decide_true by done.
Qed.

Lemma create_sim sc c l u db :
  ledger_inv db → _validate_currency c db = (Return tt, db) →
  _validate_amount l false db = (Return u, db) →
  sim db (create_bool sc c l) (spec_create sc c u (abs db)).
Proof.
  intros Hinv Hc Hu. unfold spec_create, create_bool. rewrite abs_limit.
  destruct (validate_amount_range _ _ _ _ Hu) as [Hrange Hpos]. specialize (Hpos eq_refl).
  assert (account_ok (mkAccount c u 0 0)) as Hok
    by (apply account_ok_iff; cbn; pose proof (validate_currency_shape _ _ Hc);
        unfold MAX_AMOUNT in *; split_and!; first [done | lia]).
  assert (∀ x, create_account sc c l db = x → create_account sc c l db = x) as Hpre by done.
  unfold create_account in Hpre at 1. run Hc in Hpre. run Hu in Hpre.
  rewrite bind_run in Hpre. cbn [get] in Hpre. rewrite bind_run, raise_if_cases in Hpre.
  change (al_runs (abs db)) with (runs db).
  destruct (bool_decide (sc ∈ runs db)) eqn:Hrun; breflect; cbn [negb] in *;
    [|specialize (Hpre _ eq_refl); sim_err Hpre].
  rewrite bind_run in Hpre.
  destruct (accounts db !! sc) as [acc|] eqn:Hacc; cbn [fmap option_fmap option_map].
  - cbn [mret M_ret] in Hpre. rewrite bind_run in Hpre. cbn [get] in Hpre.
    rewrite Hacc, bind_run, raise_if_cases in Hpre.
    destruct (decide ((acc_currency acc, limit_amount acc) = (c, u))) as [[= Hc' Hl']|Hne].
    + rewrite (bool_decide_true ((_, _) = _)) by congruence.
      rewrite Hc', Hl', bool_decide_true, Z.eqb_refl in Hpre by done.
      specialize (Hpre _ eq_refl). by sim_ok Hpre.
    + rewrite (bool_decide_false ((_, _) = _)) by done.
      assert (negb (bool_decide (acc_currency acc = c)) || negb (limit_amount acc =? u) = true) as Hb.
      { case_bool_decide; [|done]. destruct (Z.eqb_spec (limit_amount acc) u); [congruence|done]. }
      rewrite Hb in Hpre. specialize (Hpre _ eq_refl). sim_err Hpre.
  - rewrite bind_run, (insert_account_ok sc _ db Hok eq_refl eq_refl Hrun) in Hpre.
    cbn [mret M_ret] in Hpre. rewrite bind_run in Hpre. cbn [get with_accounts accounts] in Hpre.
    rewrite lookup_insert_eq, bind_run, raise_if_cases in Hpre. cbn [acc_currency limit_amount] in Hpre.
    rewrite bool_decide_true, Z.eqb_refl in Hpre by done. specialize (Hpre _ eq_refl).
    pose proof (inv_create db sc _ Hinv Hacc Hrun Hok eq_refl eq_refl) as Hinv'.
    sim_ok Hpre; [done|]. unfold abs, with_accounts; cbn. by rewrite fmap_insert.
Qed.

(** *** All operations, as committed transactions *)

Lemma totals_verified db sc acc :
  ledger_inv db → accounts db !! sc = Some acc → run_budget_verify_account_totals db sc = true.
Proof.
  intros Hinv Hacc. destruct (inv_totals db Hinv sc acc Hacc) as [Hr Hs].
  unfold run_budget_verify_account_totals. rewrite Hacc. cbn.
  by rewrite Hr, Hs, bool_decide_true.
Qed.

Lemma sim_transaction sc db (m : L bool) spec :
  sim db m spec →
  (fst spec = Granted ∨ fst spec = Replayed → is_Some (al_limits (snd spec) !! sc)) →
  sim db (transaction sc m) spec.
Proof.
  intros (r & db' & Hm & Hv & Ha & Hinv & Hr) Hacc. exists r, db'. split; [|by split_and!].
  unfold transaction, atomically. rewrite bind_run. cbn [get]. rewrite bind_run, Hm.
  destruct r as [b|e]; [|by rewrite Hr].
  rewrite <- Ha, abs_limit in Hacc. destruct (accounts db' !! sc) as [acc|] eqn:Hsc.
  - rewrite bind_run. cbn [get]. by rewrite (totals_verified db' sc acc), andb_false_r.
  - destruct Hacc as [x Hx]; [|discriminate Hx]. rewrite <- Hv. destruct b; cbn; auto.
Qed.

Lemma spec_op_account sc op al :
  fst (spec_op sc op al) = Granted ∨ fst (spec_op sc op al) = Replayed →
  is_Some (al_limits (snd (spec_op sc op al)) !! sc).
Proof.
  assert (∀ e, verdict_of (Raise e) ≠ Granted ∧ verdict_of (Raise e) ≠ Replayed) as He
    by (intros []; done).
  assert (∀ (chk : L unit) k, (fst k = Granted ∨ fst k = Replayed → is_Some (al_limits (snd k) !! sc)) →
    let r := match pure_error chk with Some e => (verdict_of (Raise e), al) | None => k end in
    fst r = Granted ∨ fst r = Replayed → is_Some (al_limits (snd r) !! sc)) as Hg.
  { intros chk k Hk. destruct (pure_error chk) as [e|]; [|exact Hk]. cbn.
    destruct (He e). tauto. }
  destruct op; cbn [spec_op]; apply Hg.
  - unfold spec_create. destruct (bool_decide _); cbn [negb]; [|cbn; by intros []].
    destruct (al_limits al !! sc) eqn:E; cbn.
    + destruct (bool_decide _); cbn; rewrite E; [eauto | by intros []].
    + rewrite lookup_insert_eq. eauto.
  - destruct (bool_decide _); [|cbn; by intros []]. unfold spec_reserve.
    destruct (al_limits al !! sc) as [[c l]|] eqn:E; cbn; [|by intros []].
    repeat case_match; cbn; rewrite E; eauto.
  - unfold spec_mark. destruct (al_limits al !! sc) eqn:E; cbn; [|by intros []].
    repeat case_match; cbn; rewrite E; eauto.
  - destruct (bool_decide _); [|cbn; by intros []]. apply Hg. unfold spec_settle.
    destruct (al_limits al !! sc) as [[c l]|] eqn:E; cbn; [|by intros []].
    repeat case_match; cbn; rewrite E; eauto.
Qed.

Lemma pure_error_None (m : L unit) `{!Pure m} db :
  pure_error m = None → m db = (Return tt, db).
Proof.
  unfold pure_error. rewrite (pure_at m (mkDb ∅ ∅ ∅) db).
  destruct (m (mkDb ∅ ∅ ∅)) as [[[]|e] s]; done.
Qed.

Lemma pure_error_Some {A} (m : L A) `{!Pure m} e db :
  pure_error m = Some e → m db = (Raise e, db).
Proof.
  unfold pure_error. rewrite (pure_at m (mkDb ∅ ∅ ∅) db).
  destruct (m (mkDb ∅ ∅ ∅)) as [[a|e'] s]; intros [=]; by subst.
Qed.

Lemma pure_value_run (m : L Z) `{!Pure m} z db : m db = (Return z, db) → pure_value m = z.
Proof.
  unfold pure_value. rewrite (pure_at m (mkDb ∅ ∅ ∅) db).
  destruct (m (mkDb ∅ ∅ ∅)) as [[a|e'] s]; cbn; congruence.
Qed.

(** [new_id] of a reservation is a [uuid4()] no row has yet. *)
Definition op_fresh (op : LedgerOp) (db : Db) : Prop :=
  match op with
  | OpReserve new_id _ _ _ _ _ _ => map_Forall (λ _ b, att_id b ≠ new_id) (attempts db)
  | _ => True
  end.

(** A program that starts with argument checks fails with the first of them. *)
Lemma sim_guarded db (checks : L unit) `{!Pure checks} (m : L bool) k :
  ledger_inv db →
  (∀ e, checks db = (Raise e, db) → m db = (Raise e, db)) →
  (checks db = (Return tt, db) → sim db m k) →
  sim db m (match pure_error checks with
            | Some e => (verdict_of (Raise e), abs db) | None => k end).
Proof.
  intros Hinv Herr Hok. destruct (pure_error checks) as [e|] eqn:E.
  - apply (sim_raise db m e); [done | | done]. by apply Herr, pure_error_Some.
  - by apply Hok, pure_error_None.
Qed.

(** Two programs with the same leading commands raise the same error there. *)
Lemma bind_raise_shared {A B C} (p : L A) (f : A → L B) (g : A → L C) db e db' :
  (p ≫= f) db = (Raise e, db') →
  (∀ a db1, p db = (Return a, db1) → f a db1 = (Raise e, db') → g a db1 = (Raise e, db')) →
  (p ≫= g) db = (Raise e, db').
Proof. rewrite !bind_run. destruct (p db) as [[a|e'] s]; [eauto | congruence]. Qed.

Ltac shared He :=
  let db1 := fresh "db" in let He' := fresh "He" in
  eapply bind_raise_shared; [exact He|]; clear He; intros ? db1 _ He;
  first [discriminate He | apply bind_raise, He | idtac].

Lemma run_op_sim sc op db :
  ledger_inv db → op_fresh op db → sim db (run_op sc op) (spec_op sc op (abs db)).
Proof.
  intros Hinv Hfresh. apply sim_transaction; [|apply spec_op_account].
  destruct op as [c l|id now i k a c b|i|now i a c e ei]; cbn [spec_op];
    (apply sim_guarded; [apply _ | done | |]).
  - intros e He. apply bind_raise. unfold create_account. shared He. shared He.
  - intros H. apply bind_inv in H as ([] & s1 & Hc & H).
    pose proof (pure_state _ _ _ _ Hc). subst s1.
    apply bind_inv in H as (u & s1 & Hu & _). pose proof (pure_state _ _ _ _ Hu). subst s1.
    rewrite (pure_value_run _ _ _ Hu). by apply create_sim.
  - intros e He. apply bind_raise. unfold reserve. shared He. shared He.
  - intros H. apply bind_inv in H as ([] & s1 & Hi & H).
    pose proof (pure_state _ _ _ _ Hi). subst s1.
    apply bind_inv in H as (u & s1 & Hu & Hc). pose proof (pure_state _ _ _ _ Hu). subst s1.
    destruct (decide (b = CONSERVATIVE_MAXIMUM)) as [->|Hb].
    + rewrite bool_decide_true, (pure_value_run _ _ _ Hu) by done. by apply reserve_sim.
    + rewrite bool_decide_false by done.
      assert (reserve id now sc i k a c b db = (Raise _, db)) as Hrun
        by (unfold reserve; run Hi; run Hu; run Hc; by rewrite bool_decide_false by done).
      sim_err Hrun.
  - intros e He. apply bind_raise. unfold mark_unknown_outcome. by apply bind_raise.
  - intros Hi. by apply mark_sim.
  - intros e' He. apply bind_raise. unfold settle. shared He. shared He.
  - intros H. apply bind_inv in H as ([] & s1 & Hi & H).
    pose proof (pure_state _ _ _ _ Hi). subst s1.
    apply bind_inv in H as (u & s1 & Hu & Hc). pose proof (pure_state _ _ _ _ Hu). subst s1.
    destruct (decide (e = PROVIDER_BILL)) as [->|He].
    + rewrite bool_decide_true, (pure_value_run _ _ _ Hu) by done.
      apply sim_guarded; [apply _ | done | | intros Hb; by apply settle_sim].
      intros e He. apply bind_raise. unfold settle. run Hi. run Hu. run Hc.
      rewrite bool_decide_true by done. mstep. by apply bind_raise.
    + rewrite bool_decide_false by done.
      assert (settle now sc i a c e ei db = (Raise _, db)) as Hrun
        by (unfold settle; run Hi; run Hu; run Hc; by rewrite bool_decide_false by done).
      sim_err Hrun.
Qed.
