(* ===== verification/LedgerProperties.v ===== *)
(** * Properties of the Run budget ledger

    The statements about [packages/agent_runtime/run_budget_ledger.py] that the
    lemmas of [LedgerTheory] give: refinement of the abstract ledger, the
    invariant of every reachable database, and the guarantees of single
    operations. *)

From stdpp Require Import base gmap list strings relations.
From Stdlib Require Import ZArith NArith Lia.
From S2P Require Import Prelude.
From S2P Require Import RunBudgetLedger.
From S2P Require Import LedgerSpec.
From S2P Require Import LedgerTheory.

Local Open Scope Z_scope.

(** ** Reachable databases *)

(** One committed (or rolled back) transaction of some caller. *)
Inductive ledger_step : Db → Db → Prop :=
| ledger_step_op sc op db r db' :
    op_fresh op db → run_op sc op db = (r, db') → ledger_step db db'.

Definition fresh_db (rs : gset (N * N)) : Db := mkDb rs ∅ ∅.

Lemma fresh_db_inv rs : ledger_inv (fresh_db rs).
Proof. split; cbn; intros *; rewrite lookup_empty; discriminate. Qed.

Lemma ledger_step_inv db db' : ledger_step db db' → ledger_inv db → ledger_inv db'.
Proof.
  intros [sc op db0 r db0' Hf Hrun] Hinv.
  destruct (run_op_sim sc op db0 Hinv Hf) as (r' & d & Hr & _ & _ & Hd & _). congruence.
Qed.

Lemma ledger_steps_inv db db' : rtc ledger_step db db' → ledger_inv db → ledger_inv db'.
Proof. induction 1; eauto using ledger_step_inv. Qed.

(** ** A scenario used by the witnesses *)

Definition demo_scope : N * N := (1%N, 2%N).
Definition usd : list N := lit "USD".
Definition demo_db0 : Db := fresh_db {[ demo_scope ]}.
Definition demo_create := OpCreate usd (DFinite false 5 0).
Definition demo_reserve := OpReserve 7 100 (lit "call:0") MAIN_MODEL (DFinite false 25 (-1)) usd
                             CONSERVATIVE_MAXIMUM.
Definition demo_db1 : Db := snd (run_op demo_scope demo_create demo_db0).
Definition demo_db2 : Db := snd (run_op demo_scope demo_reserve demo_db1).

Lemma demo_db1_reachable : rtc ledger_step demo_db0 demo_db1.
Proof.
  apply rtc_once, (ledger_step_op demo_scope demo_create demo_db0
    (fst (run_op demo_scope demo_create demo_db0))); [exact I | reflexivity].
Defined.

Lemma demo_db1_inv : ledger_inv demo_db1.
Proof. eapply ledger_steps_inv; [apply demo_db1_reachable | apply fresh_db_inv]. Defined.

Lemma demo_reserve_fresh : op_fresh demo_reserve demo_db1.
Proof. apply (bool_decide_eq_true_1 _). vm_compute. reflexivity. Defined.

Lemma demo_db2_reachable : rtc ledger_step demo_db0 demo_db2.
Proof.
  eapply rtc_r; [apply demo_db1_reachable|].
  apply (ledger_step_op demo_scope demo_reserve demo_db1
    (fst (run_op demo_scope demo_reserve demo_db1))); [apply demo_reserve_fresh | reflexivity].
Defined.

Lemma demo_db2_inv : ledger_inv demo_db2.
Proof. eapply ledger_steps_inv; [apply demo_db2_reachable | apply fresh_db_inv]. Defined.

(** ** Claims *)

(** C1. Every ledger operation, run as a transaction on tables that satisfy the
    invariant, refines the abstract ledger that stores no totals: it answers
    what the specification answers (granted, replayed, or refused with the same
    error code), its effect on limits and holds is the specification's, the
    invariant holds again, and an error or a replay writes nothing. *)
Theorem ledger_refines_spec sc op db r db' :
  ledger_inv db → op_fresh op db → run_op sc op db = (r, db') →
  verdict_of r = fst (spec_op sc op (abs db)) ∧ abs db' = snd (spec_op sc op (abs db)) ∧
  ledger_inv db' ∧ (r ≠ Return true → db' = db).
Proof.
  intros Hinv Hf Hrun. destruct (run_op_sim sc op db Hinv Hf) as (r0 & d & Hr & Hv & Ha & Hi & Hm).
  rewrite Hrun in Hr. injection Hr as <- <-. split_and!; try done.
  destruct r as [[]|]; [done | done | done].
Qed.

Lemma ledger_refines_spec_witness :
  abs demo_db2 = snd (spec_op demo_scope demo_reserve (abs demo_db1)).
Proof.
  apply (ledger_refines_spec demo_scope demo_reserve demo_db1
           (fst (run_op demo_scope demo_reserve demo_db1)) demo_db2);
    [apply demo_db1_inv | apply demo_reserve_fresh | reflexivity].
Defined.

(** C13. In every database reachable from empty tables by any sequence of ledger
    transactions, each account's stored totals equal the sums over its retained
    attempts (open holds, provider bills), and the totals stay inside their
    bounds: open holds never exceed the limit and no total leaves NUMERIC(20, 8). *)
Theorem ledger_totals_explained rs db sc acc :
  rtc ledger_step (fresh_db rs) db → accounts db !! sc = Some acc →
  acc_reserved_amount acc = expected_reserved db sc ∧
  settled_amount acc = expected_settled db sc ∧
  0 ≤ acc_reserved_amount acc ≤ limit_amount acc ∧ 0 ≤ settled_amount acc ≤ MAX_AMOUNT.
Proof.
  intros Hr Hacc. pose proof (ledger_steps_inv _ _ Hr (fresh_db_inv rs)) as Hinv.
  destruct (inv_totals db Hinv sc acc Hacc).
  pose proof (proj1 (account_ok_iff acc) (inv_account_ok db Hinv sc acc Hacc)). tauto.
Qed.

Lemma ledger_totals_explained_witness :
  expected_reserved demo_db2 demo_scope = 250000000.
Proof.
  symmetry.
  apply (ledger_totals_explained {[ demo_scope ]} demo_db2 demo_scope
           (mkAccount usd 500000000 250000000 0)); [apply demo_db2_reachable | reflexivity].
Defined.

(** The verdicts the specification can give: the argument checks raise
    [ValueError], everything else is one of the documented refusals. *)
Definition documented_refusals : list string := [
  "ValueError"; "RUN_BUDGET_RUN_NOT_FOUND"; "RUN_BUDGET_ACCOUNT_CONFLICT";
  "RUN_BUDGET_CONSERVATIVE_MAXIMUM_REQUIRED"; "RUN_BUDGET_ACCOUNT_NOT_FOUND";
  "RUN_BUDGET_CURRENCY_MISMATCH"; "RUN_BUDGET_ATTEMPT_CONFLICT";
  "RUN_BUDGET_INSUFFICIENT_FUNDS"; "RUN_BUDGET_ATTEMPT_NOT_FOUND";
  "RUN_BUDGET_ATTEMPT_STATE_CONFLICT"; "RUN_BUDGET_FINAL_SETTLEMENT_REQUIRES_PROVIDER_BILL";
  "RUN_BUDGET_SETTLEMENT_CONFLICT"; "RUN_BUDGET_AMOUNT_PRECISION_EXCEEDED" ].

Definition documented (v : Verdict) : bool :=
  match v with
  | Granted | Replayed => true
  | Refused code => bool_decide (code ∈ documented_refusals)
  | Broken => false
  end.

(** Argument checks raise [ValueError] only. *)
Class Checks {A} (m : L A) : Prop :=
  checks_raise : ∀ db e db', m db = (Raise e, db') → ∃ msg, e = ValueError msg.

#[local] Instance checks_ret {A} (a : A) : Checks (mret a : L A).
Proof. by intros db e db' [=]. Qed.
#[local] Instance checks_raise_if b msg : Checks (raise_if b (ValueError msg)).
Proof. intros db e db'. rewrite raise_if_cases. destruct b; intros [=]; eauto. Qed.
#[local] Instance checks_bind {A B} (m : L A) (f : A → L B) :
  Checks m → (∀ a, Checks (f a)) → Checks (m ≫= f).
Proof.
  intros Hm Hf db e db'. rewrite bind_run. destruct (m db) as [[a|e'] d] eqn:E.
  - apply Hf.
  - intros [= <- <-]. eapply Hm, E.
Qed.
#[local] Instance checks_currency c : Checks (_validate_currency c).
Proof. apply _. Qed.
#[local] Instance checks_text v n : Checks (_validate_bounded_text v n).
Proof. apply _. Qed.
#[local] Instance checks_attempt_identity v : Checks (_validate_attempt_identity v).
Proof. apply _. Qed.
#[local] Instance checks_evidence_identity v : Checks (_validate_evidence_identity v).
Proof. apply _. Qed.
#[local] Instance checks_amount v az : Checks (_validate_amount v az).
Proof.
  destruct v; cbn [_validate_amount].
  - destruct (_ =? _)%N; apply _.
  - intros db e db' [=]; eauto.
  - intros db e db' [=]; eauto.
Qed.

Lemma pure_error_documented (m : L unit) `{!Checks m} e :
  pure_error m = Some e → documented (verdict_of (Raise e)) = true.
Proof.
  unfold pure_error. destruct (m _) as [[?|e'] d] eqn:E; intros [= <-].
  destruct (checks_raise _ _ _ E) as [msg ->]. reflexivity.
Qed.

Lemma spec_op_documented sc op al : documented (fst (spec_op sc op al)) = true.
Proof.
  assert (∀ (chk : L unit) `{!Checks chk} k, documented (fst k) = true →
    documented (fst match pure_error chk with
      | Some e => (verdict_of (Raise e), al) | None => k end) = true) as Hg.
  { intros chk Hc k Hk. destruct (pure_error chk) eqn:E; [|done]. by eapply pure_error_documented. }
  destruct op; cbn [spec_op]; apply Hg; try apply _.
  - unfold spec_create. repeat case_match; reflexivity.
  - unfold spec_reserve. repeat case_match; reflexivity.
  - unfold spec_mark. repeat case_match; reflexivity.
  - case_match; [|reflexivity]. apply Hg; [apply _|].
    unfold spec_settle. repeat case_match; reflexivity.
Qed.

(** C14. On a reachable database no ledger operation ends in a database error or
    in one of the defensive errors: CHECK constraints, unique keys, foreign
    keys and the three triggers never fire, and neither do
    RUN_BUDGET_ACCOUNT_INVARIANT, RUN_BUDGET_ATTEMPT_INVARIANT and
    RUN_BUDGET_ACCOUNT_UNAVAILABLE.  Every failure is one of the documented
    refusals. *)
Theorem ledger_guards_never_trip rs db sc op e db' :
  rtc ledger_step (fresh_db rs) db → op_fresh op db → run_op sc op db = (Raise e, db') →
  match e with
  | RunBudgetLedgerError code => code ∈ documented_refusals
  | ValueError _ => True
  | IntegrityError _ => False
  end.
Proof.
  intros Hr Hf Hrun. pose proof (ledger_steps_inv _ _ Hr (fresh_db_inv rs)) as Hinv.
  destruct (run_op_sim sc op db Hinv Hf) as (r & d & Hr' & Hv & _).
  rewrite Hrun in Hr'. injection Hr' as <- <-.
  pose proof (spec_op_documented sc op (abs db)) as Hd. rewrite <- Hv in Hd.
  destruct e; cbn in Hd; [by apply bool_decide_eq_true_1 in Hd | done | done].
Qed.

Definition demo_second := OpReserve 8 110 (lit "call:1") RETRY (DFinite false 3 0) usd
                            CONSERVATIVE_MAXIMUM.

Lemma ledger_guards_never_trip_witness :
  run_op demo_scope demo_second demo_db2
    = (Raise (RunBudgetLedgerError "RUN_BUDGET_INSUFFICIENT_FUNDS"), demo_db2) ∧
  "RUN_BUDGET_INSUFFICIENT_FUNDS" ∈ documented_refusals.
Proof.
  split; [vm_compute; reflexivity|].
  apply (ledger_guards_never_trip {[ demo_scope ]} demo_db2 demo_scope demo_second
           (RunBudgetLedgerError "RUN_BUDGET_INSUFFICIENT_FUNDS") demo_db2).
  - apply demo_db2_reachable.
  - apply (bool_decide_eq_true_1 _). vm_compute. reflexivity.
  - vm_compute. reflexivity.
Defined.

(** What a successful [reserve] call has gone through. *)
Lemma reserve_return_inv id now sc i k a c b db r db' :
  ledger_inv db → map_Forall (λ _ x, att_id x ≠ id) (attempts db) →
  reserve id now sc i k a c b db = (Return r, db') → created r = true →
  ∃ acc u, accounts db !! sc = Some acc ∧ acc_currency acc = c ∧
    attempts db !! (sc, i) = None ∧ _validate_amount a false db = (Return u, db) ∧
    acc_reserved_amount acc + u + settled_amount acc ≤ limit_amount acc ∧
    res_account r = _account_snapshot sc (set_reserved (acc_reserved_amount acc + u) acc) ∧
    db' = mkDb (runs db)
            (<[sc := set_reserved (acc_reserved_amount acc + u) acc]> (accounts db))
            (<[(sc, i) := new_attempt id k u c CONSERVATIVE_MAXIMUM now]> (attempts db)).
Proof.
  intros Hinv Hfresh Hrun Hcr. pose proof Hrun as H. unfold reserve in H.
  apply bind_inv in H as ([] & s & Hi & H). pose proof (pure_state _ _ _ _ Hi). subst s.
  apply bind_inv in H as (u & s & Hu & H). pose proof (pure_state _ _ _ _ Hu). subst s.
  apply bind_inv in H as ([] & s & Hc & H). pose proof (pure_state _ _ _ _ Hc). subst s.
  apply bind_inv in H as ([] & s & [Hb ->]%raise_if_inv & H). breflect. subst b.
  destruct (accounts db !! sc) as [acc|] eqn:Hacc;
    [|by rewrite (bind_raise _ _ _ _ _ (lock_account_missing sc db Hacc)) in H].
  rewrite (bind_return _ _ _ _ _ (lock_account_ok sc db acc Hinv Hacc)) in H.
  apply bind_inv in H as ([] & s & [Hcur ->]%raise_if_inv & H). breflect.
  rewrite bind_run in H. cbn [get] in H.
  destruct (attempts db !! (sc, i)) as [x|] eqn:Hx.
  { run_inv_in H. discriminate Hcr. }
  apply bind_inv in H as ([] & s & [Hf ->]%raise_if_inv & _). breflect.
  destruct (reserve_grants id now sc i k a c u db acc) as (_ & r0 & Hrun0 & _ & Hres); try done.
  rewrite Hrun in Hrun0. injection Hrun0 as <- ->. exists acc, u. by split_and!.
Qed.

(** A reservation that is created is fully funded: the account it returns
    holds exactly the requested amount more than before, holds and bills
    together stay within the limit, no other account changes, and the
    hold is recorded under the attempt identity as RESERVED. *)
Lemma reserve_fully_funded id now sc i k a c b db r db' :
  ledger_inv db → map_Forall (λ _ x, att_id x ≠ id) (attempts db) →
  reserve id now sc i k a c b db = (Return r, db') → created r = true →
  ∃ u, _validate_amount a false db = (Return u, db) ∧ 0 < u ∧
    committed_amount (res_account r) = committed (abs db) sc + u ∧
    committed_amount (res_account r) ≤ snap_limit_amount (res_account r) ∧
    is_over_limit (res_account r) = false ∧
    (∀ sc', sc' ≠ sc → accounts db' !! sc' = accounts db !! sc') ∧
    attempts db' !! (sc, i) = Some (new_attempt id k u c CONSERVATIVE_MAXIMUM now).
Proof.
  intros Hinv Hfresh Hrun Hcr.
  destruct (reserve_return_inv id now sc i k a c b db r db' Hinv Hfresh Hrun Hcr)
    as (acc & u & Hacc & _ & Hnone & Hu & Hf & -> & ->).
  destruct (inv_totals db Hinv sc acc Hacc) as [Hr Hs].
  destruct (validate_amount_range _ _ _ _ Hu) as [_ Hpos]. specialize (Hpos eq_refl).
  exists u. rewrite abs_committed, <- Hr, <- Hs by done.
  unfold is_over_limit, overage_amount, committed_amount; cbn.
  split_and!; try done; try lia.
  - intros sc' Hne. by rewrite lookup_insert_ne.
  - apply lookup_insert_eq.
Qed.

Definition demo_reserve_result :=
  reserve 7 100 demo_scope (lit "call:0") MAIN_MODEL (DFinite false 25 (-1)) usd
    CONSERVATIVE_MAXIMUM demo_db1.

Lemma reserve_fully_funded_witness :
  ∃ u, _validate_amount (DFinite false 25 (-1)) false demo_db1 = (Return u, demo_db1) ∧ 0 < u.
Proof.
  destruct demo_reserve_result as [[r|e] db'] eqn:E; [|vm_compute in E; discriminate E].
  destruct (reserve_fully_funded 7 100 demo_scope (lit "call:0") MAIN_MODEL (DFinite false 25 (-1))
              usd CONSERVATIVE_MAXIMUM demo_db1 r db') as (u & Hu & Hpos & _).
  - apply demo_db1_inv.
  - apply demo_reserve_fresh.
  - exact E.
  - vm_compute in E. injection E as <- _. reflexivity.
  - exists u. split; [exact Hu | exact Hpos].
Defined.

(** A provider bill larger than the account can cover is recorded, not
    dropped: [settle] posts it, the returned account reports the overage and
    nothing available, and from then on every new reservation on that account
    is refused with RUN_BUDGET_INSUFFICIENT_FUNDS and changes nothing. *)
Lemma overrun_recorded_and_blocks now sc i a c bill u db acc att :
  ledger_inv db → accounts db !! sc = Some acc → attempts db !! (sc, i) = Some att →
  unsettled_shape att → acc_currency acc = c →
  _validate_attempt_identity i db = (Return tt, db) →
  _validate_amount a true db = (Return u, db) → _validate_currency c db = (Return tt, db) →
  _validate_evidence_identity bill db = (Return tt, db) →
  settled_amount acc + u ≤ MAX_AMOUNT →
  limit_amount acc < acc_reserved_amount acc - reserved_amount att + settled_amount acc + u →
  ∃ r db', settle now sc i a c PROVIDER_BILL bill db = (Return r, db') ∧
    is_over_limit (res_account r) = true ∧ available_amount (res_account r) = 0 ∧
    ∀ id now' j k' a' v, attempts db' !! (sc, j) = None →
      _validate_attempt_identity j db' = (Return tt, db') →
      _validate_amount a' false db' = (Return v, db') →
      reserve id now' sc j k' a' c CONSERVATIVE_MAXIMUM db'
      = (Raise (RunBudgetLedgerError "RUN_BUDGET_INSUFFICIENT_FUNDS"), db').
Proof.
  intros Hinv Hacc Ha Hsh Hcur Hi Hu Hc Hb Hfit Hover.
  destruct (settle_posts now sc i a c bill u db acc att) as (Hinv' & r & Hrun & _ & Hres); try done.
  exists r. eexists. split; [exact Hrun|]. rewrite Hres.
  unfold is_over_limit, overage_amount, available_amount, committed_amount; cbn.
  split; [apply Z.ltb_lt; lia|]. split; [lia|].
  intros id now' j k' a' v Hnone Hj Hv.
  set (db' := mkDb _ _ _) in *. change (attempts db' !! (sc, j) = None) in Hnone.
  rewrite (reserve_prefix id now' sc j k' a' c v db' Hj Hv).
  2: { rewrite (pure_at _ db db'), Hc. reflexivity. }
  rewrite (bind_return _ _ _ _ _ (lock_account_ok sc db' _ Hinv' (lookup_insert_eq _ _ _))).
  cbn [acc_currency set_totals]. rewrite Hcur, bool_decide_true by done. mstep. mstep.
  rewrite Hnone. cbn [limit_amount acc_reserved_amount settled_amount set_totals].
  destruct (validate_amount_range _ _ _ _ Hv) as [_ Hpos]. specialize (Hpos eq_refl).
  by rewrite (proj2 (Z.ltb_lt _ _)) by lia.
Qed.

Definition demo_att : RunBudgetAttempt :=
  new_attempt 7 MAIN_MODEL 250000000 usd CONSERVATIVE_MAXIMUM 100.

Lemma overrun_recorded_and_blocks_witness :
  ∃ r db', settle 200 demo_scope (lit "call:0") (DFinite false 6 0) usd PROVIDER_BILL (lit "bill-1")
             demo_db2 = (Return r, db') ∧ is_over_limit (res_account r) = true.
Proof.
  destruct (overrun_recorded_and_blocks 200 demo_scope (lit "call:0") (DFinite false 6 0) usd
              (lit "bill-1") 600000000 demo_db2 (mkAccount usd 500000000 250000000 0) demo_att)
    as (r & db' & Hrun & Hover & _).
  - apply demo_db2_inv.
  - vm_compute. reflexivity.
  - vm_compute. reflexivity.
  - split; [left; reflexivity | reflexivity].
  - reflexivity.
  - vm_compute. reflexivity.
  - vm_compute. reflexivity.
  - vm_compute. reflexivity.
  - vm_compute. reflexivity.
  - vm_compute. discriminate.
  - vm_compute. reflexivity.
  - exists r, db'. split; [exact Hrun | exact Hover].
Defined.

(** One transaction keeps billed evidence. *)
Lemma billed_hold_step sc op al k h z b :
  al_holds al !! k = Some h → h_phase h = Billed z b →
  al_holds (snd (spec_op sc op al)) !! k = Some h.
Proof.
  intros Hk Hp.
  assert (∀ (chk : L unit) x, al_holds (snd x) !! k = Some h →
    al_holds (snd match pure_error chk with
      | Some e => (verdict_of (Raise e), al) | None => x end) !! k = Some h) as Hg
    by (intros chk x Hx; by destruct (pure_error chk)).
  assert (∀ k' h' h'', al_holds al !! k' = h'' → (∀ x, h'' = Some x → ∀ z' b', h_phase x ≠ Billed z' b') →
    <[k' := h']> (al_holds al) !! k = Some h) as Hput.
  { intros k' h' h'' Hk' Hn. rewrite lookup_insert_ne; [done|]. intros ->.
    rewrite Hk in Hk'. by eapply Hn. }
  destruct op; cbn [spec_op]; apply Hg.
  - unfold spec_create. repeat case_match; cbn; done.
  - unfold spec_reserve. repeat case_match; cbn; try done. eapply Hput; [eassumption|]; congruence.
  - unfold spec_mark. repeat case_match; cbn; try done. eapply Hput; [eassumption|]; congruence.
  - case_match; [|done]. apply Hg. unfold spec_settle. repeat case_match; cbn; try done.
    eapply Hput; [eassumption|]; congruence.
Qed.

(** Settlement evidence is final: once an attempt carries a provider bill,
    no sequence of later ledger transactions changes its reservation, its
    billed amount or its bill reference. *)
Lemma settled_evidence_is_final db db' sc i h z bill :
  ledger_inv db → rtc ledger_step db db' →
  al_holds (abs db) !! (sc, i) = Some h → h_phase h = Billed z bill →
  al_holds (abs db') !! (sc, i) = Some h.
Proof.
  intros Hinv Hr Hh Hp. induction Hr as [|db db1 db2 Hstep _ IH]; [done|].
  apply IH; [by eapply ledger_step_inv|].
  destruct Hstep as [sc' op db r db1 Hf Hrun].
  destruct (run_op_sim sc' op db Hinv Hf) as (r' & d & Hrun' & _ & Ha & _).
  rewrite Hrun in Hrun'. injection Hrun' as <- <-. rewrite Ha. by eapply billed_hold_step.
Qed.

Definition demo_settle := OpSettle 200 (lit "call:0") (DFinite false 6 0) usd PROVIDER_BILL
                            (lit "bill-1").
Definition demo_db3 : Db := snd (run_op demo_scope demo_settle demo_db2).
Definition demo_db4 : Db := snd (run_op demo_scope (OpMark (lit "call:0")) demo_db3).

Lemma settled_evidence_is_final_witness :
  al_holds (abs demo_db4) !! (demo_scope, lit "call:0")
  = Some (mkHold 250000000 usd "MAIN_MODEL" (Billed 600000000 (lit "bill-1"))).
Proof.
  apply (settled_evidence_is_final demo_db3 demo_db4 demo_scope (lit "call:0")
           (mkHold 250000000 usd "MAIN_MODEL" (Billed 600000000 (lit "bill-1")))
           600000000 (lit "bill-1")).
  - eapply ledger_step_inv; [|apply demo_db2_inv].
    apply (ledger_step_op demo_scope demo_settle demo_db2
             (fst (run_op demo_scope demo_settle demo_db2))); [exact I | reflexivity].
  - apply rtc_once, (ledger_step_op demo_scope (OpMark (lit "call:0")) demo_db3
             (fst (run_op demo_scope (OpMark (lit "call:0")) demo_db3))); [exact I | reflexivity].
  - vm_compute. reflexivity.
  - reflexivity.
Defined.

(** The specification's answer to a repeated identity. *)
Lemma spec_reserve_again sc i k u c al al' u2 :
  spec_reserve sc i k u c al = (Granted, al') →
  spec_reserve sc i k u2 c al'
  = (if bool_decide (u = u2) then Replayed else Refused "RUN_BUDGET_ATTEMPT_CONFLICT", al').
Proof.
  unfold spec_reserve. destruct (al_limits al !! sc) as [[c0 l]|] eqn:E; [|done].
  destruct (bool_decide (c0 = c)) eqn:Ec; [|done]. cbn [negb].
  destruct (al_holds al !! (sc, i)) as [h|] eqn:Eh; [case_match; discriminate|].
  destruct (l <? _); [done|]. intros [= <-]. cbn. rewrite E, Ec, lookup_insert_eq. cbn.
  destruct (decide (u = u2)) as [->|Hne].
  - by rewrite !bool_decide_true.
  - by rewrite !bool_decide_false by congruence.
Qed.

Lemma verdict_replayed r : verdict_of r = Replayed → r = Return false.
Proof. by destruct r as [[]|[]]. Qed.
Lemma verdict_refused r code :
  verdict_of r = Refused code → code ≠ "ValueError" → r = Raise (RunBudgetLedgerError code).
Proof. destruct r as [[]|[]]; cbn; congruence. Qed.

(** The argument checks of a reservation, at any state. *)
Lemma reserve_checks i a c (db : Db) :
  pure_error (_validate_attempt_identity i;; _validate_amount a false;; _validate_currency c)
    = None →
  ∃ u, ∀ db, _validate_attempt_identity i db = (Return tt, db) ∧
    _validate_amount a false db = (Return u, db) ∧ _validate_currency c db = (Return tt, db).
Proof.
  intros H. eapply (pure_error_None _ db) in H.
  apply bind_inv in H as ([] & s1 & Hi & H). apply bind_inv in H as (u & s2 & Hu & Hc).
  exists u. intros d.
  rewrite (pure_at (_validate_attempt_identity i) db d), Hi.
  rewrite (pure_at (_validate_amount a false) s1 d), Hu.
  by rewrite (pure_at (_validate_currency c) s2 d), Hc.
Qed.

Lemma run_reserve_checked sc id now i k a c u db :
  ledger_inv db → op_fresh (OpReserve id now i k a c CONSERVATIVE_MAXIMUM) db →
  (∀ d, _validate_attempt_identity i d = (Return tt, d) ∧
    _validate_amount a false d = (Return u, d) ∧ _validate_currency c d = (Return tt, d)) →
  ∃ r db', run_op sc (OpReserve id now i k a c CONSERVATIVE_MAXIMUM) db = (r, db') ∧
    (verdict_of r, abs db') = spec_reserve sc i k u c (abs db) ∧ ledger_inv db' ∧
    (r ≠ Return true → db' = db).
Proof.
  intros Hinv Hf Hchk. destruct (run_op_sim sc _ db Hinv Hf) as (r & db' & Hr & Hv & Ha & Hi & Hm).
  exists r, db'. split; [done|]. cbn [spec_op] in Hv, Ha.
  assert (pure_error (_validate_attempt_identity i;; _validate_amount a false;;
            _validate_currency c) = None) as Hnone.
  { destruct (Hchk (mkDb ∅ ∅ ∅)) as (H1 & H2 & H3). unfold pure_error.
    by rewrite (bind_return _ _ _ _ _ H1), (bind_return _ _ _ _ _ H2), H3. }
  rewrite Hnone, bool_decide_true in Hv, Ha by done.
  rewrite (pure_value_run _ u db) in Hv, Ha by apply Hchk.
  rewrite Hv, Ha. split; [by destruct (spec_reserve _ _ _ _ _ _)|]. split; [done|].
  destruct r as [[]|]; done.
Qed.

(** Retrying a reservation is safe: after a granted reservation the same
    request, with whatever row id and clock the retry draws, is answered as a
    replay and leaves the database exactly as it was; the same identity with
    another amount is refused as a conflict, also without any change. *)
Lemma reserve_retry_idempotent sc id now i k a c db db' id' now' :
  ledger_inv db → op_fresh (OpReserve id now i k a c CONSERVATIVE_MAXIMUM) db →
  run_op sc (OpReserve id now i k a c CONSERVATIVE_MAXIMUM) db = (Return true, db') →
  op_fresh (OpReserve id' now' i k a c CONSERVATIVE_MAXIMUM) db' →
  run_op sc (OpReserve id' now' i k a c CONSERVATIVE_MAXIMUM) db' = (Return false, db') ∧
  ∀ a2 u2, _validate_amount a2 false db' = (Return u2, db') →
    (∀ u, _validate_amount a false db = (Return u, db) → u ≠ u2) →
    run_op sc (OpReserve id' now' i k a2 c CONSERVATIVE_MAXIMUM) db'
    = (Raise (RunBudgetLedgerError "RUN_BUDGET_ATTEMPT_CONFLICT"), db').
Proof.
  intros Hinv Hf Hrun Hf'.
  destruct (run_op_sim sc _ db Hinv Hf) as (r & d & Hr & Hv & _ & Hinv' & _).
  rewrite Hrun in Hr. injection Hr as <- <-. cbn [spec_op] in Hv.
  destruct (pure_error _) as [e|] eqn:Hchk; [destruct e; discriminate Hv|].
  apply (reserve_checks i a c db) in Hchk as [u Hchk].
  destruct (run_reserve_checked sc id now i k a c u db Hinv Hf Hchk) as (r & d & Hr & Hs & _).
  rewrite Hrun in Hr. injection Hr as <- <-. symmetry in Hs. split.
  - destruct (run_reserve_checked sc id' now' i k a c u db' Hinv' Hf' Hchk) as (r & d & Hr & Hs' & _ & Hm).
    rewrite (spec_reserve_again _ _ _ _ _ _ _ u Hs), bool_decide_true in Hs' by done.
    injection Hs' as Hv' _. apply verdict_replayed in Hv' as ->. by rewrite Hr, Hm.
  - intros a2 u2 Hu2 Hne.
    assert (u ≠ u2) as Hdiff by (apply Hne, Hchk).
    destruct (run_reserve_checked sc id' now' i k a2 c u2 db' Hinv') as (r & d & Hr & Hs' & _ & Hm);
      [exact Hf' | |].
    { intros d. split; [apply Hchk|]. split; [|apply Hchk].
      by rewrite (pure_at _ db' d), Hu2. }
    rewrite (spec_reserve_again _ _ _ _ _ _ _ u2 Hs), bool_decide_false in Hs' by done.
    injection Hs' as Hv' _. apply verdict_refused in Hv' as ->; [|done]. by rewrite Hr, Hm.
Qed.

(** A budget amount is accepted exactly when it is a finite, unsigned
    decimal with at most eight decimal places whose value fits NUMERIC(20, 8)
    (and is not zero where zero is not allowed); it is then stored without
    rounding.  In particular the check on the number of integer digits never
    rejects anything the comparison with MAX_AMOUNT lets through. *)
Lemma amount_accepted_iff v allow_zero db z :
  _validate_amount v allow_zero db = (Return z, db) ↔
  ∃ c e, v = DFinite false c e ∧ - AMOUNT_SCALE ≤ e ∧
    z = Z.of_N c * 10 ^ (e + AMOUNT_SCALE) ∧ z ≤ MAX_AMOUNT ∧ (allow_zero = false → c ≠ 0%N).
Proof. apply validate_amount_spec. Qed.

(** Marking an outcome unknown releases nothing: what the account has
    committed, for this account and every other, is unchanged, and the
    attempt is held as unknown from then on. *)
Lemma mark_unknown_keeps_funds sc i db s db' :
  ledger_inv db → mark_unknown_outcome sc i db = (Return s, db') →
  accounts db' = accounts db ∧ (∀ sc', committed (abs db') sc' = committed (abs db) sc') ∧
  (∃ a, attempts db !! (sc, i) = Some a ∧
        attempts db' = <[(sc, i) := set_status "UNKNOWN_OUTCOME" a]> (attempts db)).
Proof.
  intros Hinv Hrun. pose proof Hrun as H. unfold mark_unknown_outcome in H.
  apply bind_inv in H as ([] & s1 & Hi & H). pose proof (pure_state _ _ _ _ Hi). subst s1.
  destruct (accounts db !! sc) as [acc|] eqn:Hacc;
    [|by rewrite (bind_raise _ _ _ _ _ (lock_account_missing sc db Hacc)) in H].
  rewrite (bind_return _ _ _ _ _ (lock_account_ok sc db acc Hinv Hacc)) in H.
  rewrite bind_run, lock_attempt_run in H.
  destruct (attempts db !! (sc, i)) as [a|] eqn:Ha; [|done].
  apply bind_inv in H as ([] & s1 & [Hns ->]%raise_if_inv & _). breflect.
  assert (unsettled_shape a) as Hsh.
  { pose proof (proj1 (attempt_ok_iff i a) (inv_attempt_ok db Hinv _ _ _ Ha)) as Hok.
    destruct Hok as (_ & _ & _ & _ & _ & [Hsh|Hsh]); [done | by destruct (Hns (proj1 Hsh))]. }
  destruct (mark_row sc i a acc db Hinv Hacc Ha Hsh Hi) as (Hinv' & s0 & Hrun').
  rewrite Hrun in Hrun'. injection Hrun' as _ ->. cbn.
  split; [by apply insert_id|]. split; [|by exists a].
  intros sc'. unfold committed. rewrite (abs_write db sc i _ acc) by done. cbn.
  rewrite (sum_map_update _ _ _ (hold_of a)) by (by rewrite lookup_fmap, Ha).
  destruct (set_status_ok i a (inv_attempt_ok db Hinv _ _ _ Ha) Hsh) as [_ Hsh'].
  rewrite (hold_of_unsettled a Hsh), (hold_of_unsettled _ Hsh').
  unfold charge_in, charge; cbn. lia.
Qed.
