(* ===== verification/Json.v ===== *)
(** * JSON values and their canonical text

    Model of [packages/core/canonical/json_hash.py] (the canonical text every
    content hash is computed from), of the recursive key scans of
    [packages/approvals/contracts.py] and [packages/control_plane/audit.py],
    and of what they use of Python's [json] module.

    A [dict] is the list of its items in insertion order; a finite [float] is
    identified by its [repr], which Python's [json.dumps] writes verbatim. *)

From stdpp Require Import base gmap list strings sorting.
From Stdlib Require Import ZArith NArith Lia.
From S2P Require Import Prelude.

#[warnings="-register-all"]
Inductive json :=
| JNull
| JBool (b : bool)
| JInt (z : Z)
| JFloat (repr : list N)
| JStr (s : list N)
| JArr (l : list json)
| JObj (l : list (list N * json)).

(** Induction through the nested lists. *)
Fixpoint json_ind' (P : json → Prop)
  (Hnull : P JNull) (Hbool : ∀ b, P (JBool b)) (Hint : ∀ z, P (JInt z))
  (Hfloat : ∀ r, P (JFloat r)) (Hstr : ∀ s, P (JStr s))
  (Harr : ∀ l, Forall P l → P (JArr l))
  (Hobj : ∀ l, Forall (λ kv, P (snd kv)) l → P (JObj l)) (v : json) : P v :=
  let rec := json_ind' P Hnull Hbool Hint Hfloat Hstr Harr Hobj in
  match v with
  | JNull => Hnull
  | JBool b => Hbool b
  | JInt z => Hint z
  | JFloat r => Hfloat r
  | JStr s => Hstr s
  | JArr l => Harr l ((fix go l : Forall P l := match l with
                       | [] => Forall_nil_2 _
                       | x :: r => Forall_cons_2 _ _ _ (rec x) (go r)
                       end) l)
  | JObj l => Hobj l ((fix go l : Forall (λ kv, P (snd kv)) l := match l with
                       | [] => Forall_nil_2 _
                       | kv :: r => Forall_cons_2 _ _ _ (rec (snd kv)) (go r)
                       end) l)
  end.

(** ** Text order *)

(** Python compares [str] by code points. *)
Fixpoint pystr_leb (a b : list N) : bool :=
  match a, b with
  | [], _ => true
  | _ :: _, [] => false
  | x :: a', y :: b' => (x <? y)%N || (x =? y)%N && pystr_leb a' b'
  end.

Definition key_le {A} (p q : list N * A) : Prop := pystr_leb p.1 q.1 = true.
#[global] Instance key_le_dec {A} : RelDecision (@key_le A) :=
  λ p q, decide (pystr_leb p.1 q.1 = true).

Lemma pystr_leb_refl a : pystr_leb a a = true.
Proof. induction a as [|x a IH]; cbn; [done|]. by rewrite N.eqb_refl, IH, orb_true_r. Qed.

Lemma pystr_leb_trans a b c :
  pystr_leb a b = true → pystr_leb b c = true → pystr_leb a c = true.
Proof.
  revert b c. induction a as [|x a IH]; intros [|y b] [|z c]; cbn; try done.
  rewrite !orb_true_iff, !andb_true_iff, !N.ltb_lt, !N.eqb_eq.
  intros [|[-> ?]] [|[-> ?]]; eauto; left; lia.
Qed.

Lemma pystr_leb_antisym a b :
  pystr_leb a b = true → pystr_leb b a = true → a = b.
Proof.
  revert b. induction a as [|x a IH]; intros [|y b]; cbn; try done.
  rewrite !orb_true_iff, !andb_true_iff, !N.ltb_lt, !N.eqb_eq.
  intros [|[-> ?]] [|[? ?]]; try lia. f_equal. auto.
Qed.

Lemma pystr_leb_total a b : pystr_leb a b = true ∨ pystr_leb b a = true.
Proof.
  revert b. induction a as [|x a IH]; intros [|y b]; cbn; auto.
  rewrite !orb_true_iff, !andb_true_iff, !N.ltb_lt, !N.eqb_eq.
  destruct (N.lt_trichotomy x y) as [|[->|]]; auto. destruct (IH b); auto.
Qed.

#[global] Instance key_le_trans {A} : Transitive (@key_le A).
Proof. intros p q r. apply pystr_leb_trans. Qed.
#[global] Instance key_le_total {A} : Total (@key_le A).
Proof. intros p q. apply pystr_leb_total. Qed.

(** ** [json.dumps(value, ensure_ascii=False, sort_keys=True, separators=(",", ":"))] *)

Definition hex_digit (n : N) : N := if (n <? 10)%N then (48 + n)%N else (87 + n)%N.

(** The escapes of [json.encoder] when [ensure_ascii] is off. *)
Definition escape_char (c : N) : list N :=
  if (c =? 34)%N then [92; 34]%N
  else if (c =? 92)%N then [92; 92]%N
  else if (c =? 8)%N then [92; 98]%N
  else if (c =? 12)%N then [92; 102]%N
  else if (c =? 10)%N then [92; 110]%N
  else if (c =? 13)%N then [92; 114]%N
  else if (c =? 9)%N then [92; 116]%N
  else if (c <? 32)%N then [92; 117; 48; 48; hex_digit (c / 16); hex_digit (c mod 16)]%N
  else [c].

Definition dump_str (s : list N) : list N := [34%N] ++ (s ≫= escape_char) ++ [34%N].

Fixpoint digits (fuel : nat) (n : N) (acc : list N) : list N :=
  match fuel with
  | O => acc
  | S fuel' => let acc := (48 + n mod 10)%N :: acc in
               if (n <? 10)%N then acc else digits fuel' (n / 10)%N acc
  end.
Definition dump_nat (n : N) : list N := digits (S (N.size_nat n)) n [].
Definition dump_int (z : Z) : list N :=
  if (z <? 0)%Z then 45%N :: dump_nat (Z.to_N (- z)) else dump_nat (Z.to_N z).

(** [allow_nan=False]: the spellings of non-finite floats are refused. *)
Definition non_finite (r : list N) : bool :=
  bool_decide (r ∈ [lit "NaN"; lit "Infinity"; lit "-Infinity"; lit "nan"; lit "inf"; lit "-inf"]).

Fixpoint join (sep : N) (l : list (list N)) : list N :=
  match l with
  | [] => []
  | [x] => x
  | x :: r => x ++ sep :: join sep r
  end.

Definition dump_item (kt : list N * list N) : list N := dump_str kt.1 ++ 58%N :: kt.2.

(** [canonical_json]; [None] is the [ValueError] of a non-finite number. *)
Fixpoint canonical_json (v : json) : option (list N) :=
  match v with
  | JNull => Some (lit "null")
  | JBool true => Some (lit "true")
  | JBool false => Some (lit "false")
  | JInt z => Some (dump_int z)
  | JFloat r => if non_finite r then None else Some r
  | JStr s => Some (dump_str s)
  | JArr l => ts ← (fix go l := match l with
                    | [] => Some []
                    | x :: r => t ← canonical_json x; ts ← go r; Some (t :: ts)
                    end) l;
              Some ([91%N] ++ join 44 ts ++ [93%N])
  | JObj l => ts ← (fix go l := match l with
                    | [] => Some []
                    | (k, x) :: r => t ← canonical_json x; ts ← go r; Some ((k, t) :: ts)
                    end) l;
              Some ([123%N] ++ join 44 (dump_item <$> merge_sort key_le ts) ++ [125%N])
  end.

Definition is_surrogate (c : N) : bool := (55296 <=? c)%N && (c <=? 57343)%N.

(** Digests: [sha256_hexdigest t] is
    [hashlib.sha256(t.encode("utf-8")).hexdigest()] and [uuid5 ns name] is
    [uuid.uuid5(ns, name)], a 128-bit number. *)
Class Digests := {
  sha256_hexdigest : list N → list N;
  uuid5 : N → list N → N;
  uuid5_range : ∀ ns name, (uuid5 ns name < 2 ^ 128)%N
}.

(** [canonical_json_hash]; [None] is a [ValueError] (a non-finite number, or a
    lone surrogate that UTF-8 cannot encode). *)
Definition canonical_json_hash `{Digests} (v : json) : option (list N) :=
  t ← canonical_json v;
  if existsb is_surrogate t then None else Some (sha256_hexdigest t).

(** [str(uuid)]: 32 lower-case hexadecimal digits in groups of 8-4-4-4-12. *)
Fixpoint hex_fixed (k : nat) (n : N) : list N :=
  match k with
  | O => []
  | S k' => hex_fixed k' (n / 16)%N ++ [hex_digit (n mod 16)]
  end.
Definition uuid_str (u : N) : list N :=
  let h := hex_fixed 32 u in
  join 45 [take 8 h; take 4 (drop 8 h); take 4 (drop 12 h); take 4 (drop 16 h); drop 20 h].

(** ** Key scans *)

Definition _RESERVED_ARGUMENT_KEYS : list (list N) :=
  lit <$> ["workspace_id"; "organization_id"; "user_id"; "requested_by"; "decided_by";
           "approver"; "logical_action_id"; "idempotency_key"; "execution_status";
           "decision_status"]%string.

(** Does the recursive scan raise?  Mappings check their own keys before
    their values; lists check their elements. *)
Fixpoint _reject_reserved_keys (v : json) : bool :=
  match v with
  | JObj l => existsb (λ kv, bool_decide (kv.1 ∈ _RESERVED_ARGUMENT_KEYS)) l
              || existsb (λ kv, _reject_reserved_keys kv.2) l
  | JArr l => existsb _reject_reserved_keys l
  | _ => false
  end.

(** [re.IGNORECASE] on one character: lower case, and the case variants Python
    adds for [i], [k] and [s]. *)
Definition re_lower (c : N) : N :=
  if ((65 <=? c) && (c <=? 90))%N then (c + 32)%N
  else if (c =? 304)%N || (c =? 305)%N then 105%N
  else if (c =? 8490)%N then 107%N
  else if (c =? 383)%N then 115%N
  else c.

Fixpoint prefixb (p s : list N) : bool :=
  match p, s with
  | [], _ => true
  | x :: p', y :: s' => (x =? y)%N && prefixb p' s'
  | _ :: _, [] => false
  end.
Fixpoint substringb (p s : list N) : bool :=
  prefixb p s || match s with [] => false | _ :: s' => substringb p s' end.

Definition _FORBIDDEN_METADATA_KEY (k : list N) : bool :=
  existsb (λ w, substringb (lit w) (re_lower <$> k))
    ["password"; "token"; "secret"; "credential"]%string.

(** Does [visit] raise [UnsafeAuditMetadata]?  Key by key, each before its
    value. *)
Fixpoint assert_safe_metadata (v : json) : bool :=
  match v with
  | JObj l => existsb (λ kv, _FORBIDDEN_METADATA_KEY kv.1 || assert_safe_metadata kv.2) l
  | JArr l => existsb assert_safe_metadata l
  | _ => false
  end.

(** ** Reachable keys *)

(** [k] is a key of some mapping inside [v]. *)
Inductive key_of (k : list N) : json → Prop :=
| key_here l x : (k, x) ∈ l → key_of k (JObj l)
| key_obj l k' x : (k', x) ∈ l → key_of k x → key_of k (JObj l)
| key_arr l x : x ∈ l → key_of k x → key_of k (JArr l).

(** A scan of all keys finds exactly the values with such a key at some
    depth. *)
Section Scan.
Context (p : list N → bool) (scan : json → bool).
Hypothesis scan_atom : ∀ v, scan v = true → (∃ l, v = JArr l) ∨ (∃ l, v = JObj l).
Hypothesis scan_arr : ∀ l, scan (JArr l) = existsb scan l.
Hypothesis scan_obj : ∀ l, scan (JObj l) = existsb (λ kv, p kv.1 || scan kv.2) l.

Lemma scan_iff v : scan v = true ↔ ∃ k, key_of k v ∧ p k = true.
Proof using Type*.
  induction v as [| | | | |l IH|l IH] using json_ind';
    try (split; [intros [[? ?]|[? ?]]%scan_atom; done | intros (k & Hk & _); inversion Hk]).
  - rewrite scan_arr, existsb_exists. rewrite Forall_forall in IH. split.
    + intros (x & Hx & Hr). apply list_elem_of_In in Hx.
      apply (IH x Hx) in Hr as (k & Hk & ?). exists k. eauto using key_arr.
    + intros (k & Hk & Hr). inversion Hk as [| |l' x Hx Hkx]; subst.
      exists x. rewrite <- list_elem_of_In, (IH x Hx). eauto.
  - rewrite scan_obj, existsb_exists. rewrite Forall_forall in IH. split.
    + intros ([k x] & Hx & Hr). apply list_elem_of_In in Hx.
      apply orb_true_iff in Hr as [Hr|Hr].
      * exists k. eauto using key_here.
      * apply (IH _ Hx) in Hr as (k' & Hk & ?). exists k'. eauto using key_obj.
    + intros (k & Hk & Hr). inversion Hk as [l' x Hx|l' k' x Hx Hkx|]; subst.
      * exists (k, x). rewrite <- list_elem_of_In, orb_true_iff. auto.
      * exists (k', x). rewrite <- list_elem_of_In, orb_true_iff, (IH _ Hx). eauto.
Qed.
End Scan.

Lemma reject_reserved_keys_iff v :
  _reject_reserved_keys v = true ↔ ∃ k, key_of k v ∧ k ∈ _RESERVED_ARGUMENT_KEYS.
Proof.
  rewrite (scan_iff (λ k, bool_decide (k ∈ _RESERVED_ARGUMENT_KEYS))).
  - by setoid_rewrite bool_decide_eq_true.
  - intros []; naive_solver.
  - done.
  - intros l. cbn [_reject_reserved_keys]. induction l as [|kv l IH]; [done|].
    cbn [existsb]. rewrite <- IH, <- !orb_assoc. f_equal.
    rewrite !orb_assoc. f_equal. apply orb_comm.
Qed.

Lemma assert_safe_metadata_iff v :
  assert_safe_metadata v = true ↔ ∃ k, key_of k v ∧ _FORBIDDEN_METADATA_KEY k = true.
Proof. apply scan_iff; [intros []; naive_solver | done | done]. Qed.
