(* ===== verification/JsonTheory.v ===== *)
(** * The canonical text determines the value

    [canonical_json] is read back uniquely: two values with the same canonical
    text are the same value up to the order in which their keys were inserted,
    and the order never matters.  [sort_json] is the value that
    [json.loads(json.dumps(value, sort_keys=True))] gives back. *)

From stdpp Require Import base gmap list strings sorting.
From Stdlib Require Import ZArith NArith Lia.
From S2P Require Import Prelude.
From S2P Require Import Json.

(** [json.loads(json.dumps(v, sort_keys=True, ...))]: the same value with the
    keys of every mapping in order. *)
Fixpoint sort_json (v : json) : json :=
  match v with
  | JArr l => JArr (sort_json <$> l)
  | JObj l => JObj (merge_sort key_le ((λ kv, (kv.1, sort_json kv.2)) <$> l))
  | _ => v
  end.

(** ** Python values: keys of a [dict] are distinct, floats have a [repr] *)

Definition num_char (c : N) : bool :=
  ((48 <=? c) && (c <=? 57) || (c =? 45) || (c =? 46) || (c =? 101) || (c =? 43))%N.
Definition float_char (c : N) : bool := ((c =? 46) || (c =? 101))%N.
Definition float_repr (r : list N) : bool := forallb num_char r && existsb float_char r.

(** Every mapping of the value has distinct keys and every float is written
    with digits, sign, point and exponent. *)
Fixpoint json_wf (v : json) : Prop :=
  match v with
  | JFloat r => float_repr r = true
  | JArr l => (fix go l := match l with [] => True | x :: r => json_wf x ∧ go r end) l
  | JObj l => NoDup l.*1 ∧
      (fix go l := match l with [] => True | (_, x) :: r => json_wf x ∧ go r end) l
  | _ => True
  end.

Lemma json_wf_arr l : json_wf (JArr l) ↔ Forall json_wf l.
Proof. cbn. induction l as [|x l IH]; [by rewrite Forall_nil|]. by rewrite Forall_cons, IH. Qed.
Lemma json_wf_obj l : json_wf (JObj l) ↔ NoDup l.*1 ∧ Forall (λ kv, json_wf kv.2) l.
Proof.
  cbn [json_wf]. apply and_iff_compat_l.
  induction l as [|[k x] l IH]; [by rewrite Forall_nil|]. by rewrite Forall_cons, IH.
Qed.

(** ** Lists sorted by distinct keys *)

Section Sorting.
Context {A : Type}.
Implicit Types l m : list (list N * A).

Lemma sorted_cons_keys kv l :
  StronglySorted key_le (kv :: l) → NoDup (kv :: l).*1 →
  ∀ q, q ∈ l → pystr_leb q.1 kv.1 = false.
Proof.
  intros [Hf _]%StronglySorted_cons Hnd q Hq. rewrite Forall_forall in Hf.
  apply not_true_is_false. intros Hle. pose proof (Hf q Hq) as Hle'.
  pose proof (pystr_leb_antisym _ _ Hle' Hle) as He.
  rewrite fmap_cons, NoDup_cons in Hnd. destruct Hnd as [Hni _].
  apply Hni. rewrite He. apply list_elem_of_fmap. eauto.
Qed.

Lemma sorted_perm_eq l m :
  StronglySorted key_le l → StronglySorted key_le m → NoDup l.*1 → l ≡ₚ m → l = m.
Proof.
  revert m. induction l as [|kv l IH]; intros m Hl Hm Hnd Hp.
  - by apply Permutation_nil_l in Hp.
  - destruct m as [|kv' m]; [by apply Permutation_nil_r in Hp as <-|].
    assert (NoDup (kv' :: m).*1) as Hnd' by (by rewrite <- Hp).
    assert (kv = kv') as ->.
    { assert (kv ∈ kv' :: m) as H1 by (rewrite <- Hp; by left).
      assert (kv' ∈ kv :: l) as H2 by (rewrite Hp; by left).
      apply elem_of_cons in H1 as [|H1]; [done|].
      apply elem_of_cons in H2 as [|H2]; [done|].
      pose proof (sorted_cons_keys _ _ Hl Hnd _ H2) as Ha.
      pose proof (sorted_cons_keys _ _ Hm Hnd' _ H1) as Hb.
      destruct (pystr_leb_total kv.1 kv'.1); congruence. }
    f_equal. apply IH.
    + by apply StronglySorted_cons in Hl as [? ?].
    + by apply StronglySorted_cons in Hm as [? ?].
    + by apply NoDup_cons in Hnd as [_ ?].
    + by apply Permutation_cons_inv in Hp.
Qed.

Lemma merge_sort_unique l m :
  NoDup l.*1 → l ≡ₚ m → merge_sort key_le l = merge_sort key_le m.
Proof.
  intros Hnd Hp. apply sorted_perm_eq; try apply StronglySorted_merge_sort; try apply _.
  - by rewrite merge_sort_Permutation.
  - by rewrite !merge_sort_Permutation.
Qed.

Lemma merge_sort_id l : NoDup l.*1 → StronglySorted key_le l → merge_sort key_le l = l.
Proof.
  intros Hnd Hs. apply sorted_perm_eq; [|done| |].
  - apply StronglySorted_merge_sort; apply _.
  - by rewrite merge_sort_Permutation.
  - apply merge_sort_Permutation.
Qed.

End Sorting.

Lemma Forall_merge_sort {A} (P : list N * A → Prop) l :
  Forall P (merge_sort key_le l) ↔ Forall P l.
Proof. by apply Forall_Permutation; [|apply merge_sort_Permutation]. Qed.

(** Sorting commutes with a map of the values. *)
Lemma merge_sort_fmap {A B} (f : list N * A → B) (l : list (list N * A)) :
  NoDup l.*1 →
  merge_sort key_le ((λ kv, (kv.1, f kv)) <$> l)
  = (λ kv, (kv.1, f kv)) <$> merge_sort key_le l.
Proof.
  intros Hnd.
  assert (∀ m : list (list N * A), ((λ kv, (kv.1, f kv)) <$> m).*1 = m.*1) as Hfst.
  { intros m. rewrite <- list_fmap_compose. by apply list_fmap_ext. }
  apply sorted_perm_eq.
  - apply StronglySorted_merge_sort; apply _.
  - assert (StronglySorted key_le (merge_sort key_le l)) as Hs.
    { apply StronglySorted_merge_sort; apply _. }
    induction Hs as [|kv m Hs IH Hf]; cbn; constructor; [done|].
    rewrite Forall_fmap. eapply Forall_impl; [exact Hf|]. intros q Hq. exact Hq.
  - by rewrite merge_sort_Permutation, Hfst.
  - by rewrite !merge_sort_Permutation.
Qed.

(** ** The text of a value, without the non-finite check *)

Fixpoint dump (v : json) : list N :=
  match v with
  | JNull => lit "null"
  | JBool true => lit "true"
  | JBool false => lit "false"
  | JInt z => dump_int z
  | JFloat r => r
  | JStr s => dump_str s
  | JArr l => [91%N] ++ join 44 (dump <$> l) ++ [93%N]
  | JObj l => [123%N] ++
      join 44 (dump_item <$> merge_sort key_le ((λ kv, (kv.1, dump kv.2)) <$> l)) ++ [125%N]
  end.

Fixpoint all_finite (v : json) : bool :=
  match v with
  | JFloat r => negb (non_finite r)
  | JArr l => forallb all_finite l
  | JObj l => forallb (λ kv, all_finite kv.2) l
  | _ => true
  end.

Lemma canonical_json_dump v :
  canonical_json v = if all_finite v then Some (dump v) else None.
Proof.
  induction v as [|[]| |r| |l IH|l IH] using json_ind'; try done.
  - cbn. by destruct (non_finite r).
  - cbn [canonical_json all_finite dump]. match goal with |- (?g _ ≫= _) = _ => set (go := g) end.
    assert (go l = if forallb all_finite l then Some (dump <$> l) else None) as ->.
    { induction IH as [|x l Hx _ IHl]; [done|]. cbn. rewrite Hx.
      destruct (all_finite x); [|done]. cbn. fold go. rewrite IHl. by destruct (forallb _ l). }
    by destruct (forallb _ l).
  - cbn [canonical_json all_finite dump]. match goal with |- (?g _ ≫= _) = _ => set (go := g) end.
    assert (go l = if forallb (λ kv, all_finite kv.2) l
                   then Some ((λ kv, (kv.1, dump kv.2)) <$> l) else None) as ->.
    { induction IH as [|[k x] l Hx _ IHl]; [done|]. cbn in *. rewrite Hx.
      destruct (all_finite x); [|done]. cbn. fold go. rewrite IHl. by destruct (forallb _ l). }
    by destruct (forallb _ l).
Qed.

(** ** Reading strings *)

Definition hex_val (c : N) : N := if (c <? 58)%N then (c - 48)%N else (c - 87)%N.

(** The inverse of [escape_char], on a text that starts with an escape. *)
Definition unescape (t : list N) : option (N * list N) :=
  match t with
  | [] => None
  | c :: t1 =>
    if (c =? 92)%N then
      match t1 with
      | d :: t2 =>
        if (d =? 117)%N then
          match t2 with
          | _ :: _ :: h1 :: h2 :: t3 => Some (16 * hex_val h1 + hex_val h2, t3)%N
          | _ => None
          end
        else Some (if (d =? 98)%N then 8 else if (d =? 102)%N then 12
                   else if (d =? 110)%N then 10 else if (d =? 114)%N then 13
                   else if (d =? 116)%N then 9 else d, t2)%N
      | [] => None
      end
    else Some (c, t1)
  end.

Lemma unescape_escape c t : unescape (escape_char c ++ t) = Some (c, t).
Proof.
  destruct (N.ltb_spec c 32) as [Hlt|Hge].
  - assert (c ∈ N.of_nat <$> seq 0 32) as Hin.
    { apply list_elem_of_fmap. exists (N.to_nat c). rewrite elem_of_seq. lia. }
    cbn in Hin. rewrite !elem_of_cons, elem_of_nil in Hin.
    repeat (destruct Hin as [->|Hin]; [reflexivity|]). done.
  - unfold escape_char.
    destruct (N.eqb_spec c 34) as [->|]; [done|].
    destruct (N.eqb_spec c 92) as [->|]; [done|].
    repeat match goal with |- context [(c =? ?k)%N] => destruct (N.eqb_spec c k); [lia|] end.
    destruct (N.ltb_spec c 32); [lia|].
    cbn. by destruct (N.eqb_spec c 92).
Qed.

Lemma escape_not_quote c t t' : escape_char c ++ t ≠ 34%N :: t'.
Proof.
  intros Heq. pose proof (unescape_escape c t) as Hu. rewrite Heq in Hu.
  cbn in Hu. injection Hu as <- <-. cbn in Heq. discriminate.
Qed.

Lemma dump_str_inj s s' r r' :
  dump_str s ++ r = dump_str s' ++ r' → s = s' ∧ r = r'.
Proof.
  unfold dump_str. rewrite <- !app_assoc. intros [= Heq]. revert s' Heq.
  induction s as [|c s IH]; intros [|c' s'] Heq; cbn in Heq.
  - by injection Heq as ->.
  - rewrite <- app_assoc in Heq. symmetry in Heq. by apply escape_not_quote in Heq.
  - rewrite <- app_assoc in Heq. by apply escape_not_quote in Heq.
  - rewrite <- !app_assoc in Heq. apply (f_equal unescape) in Heq.
    rewrite !unescape_escape in Heq. injection Heq as -> Heq.
    by destruct (IH _ Heq) as [-> ->].
Qed.

(** ** Reading numbers *)

(** What can follow a value: the end, a comma or a closing bracket. *)
Definition delim (r : list N) : Prop :=
  match r with [] => True | c :: _ => c = 44%N ∨ c = 93%N ∨ c = 125%N end.

Lemma delim_not_num c r : delim (c :: r) → num_char c = false.
Proof. by intros [-> | [-> | ->]]. Qed.

Lemma num_span a b r r' :
  forallb num_char a = true → forallb num_char b = true → delim r → delim r' →
  a ++ r = b ++ r' → a = b ∧ r = r'.
Proof.
  revert b. induction a as [|x a IH]; intros [|y b] Ha Hb Hr Hr' Heq; cbn in *; [done|..].
  - subst r. apply delim_not_num in Hr. breflect. congruence.
  - subst r'. apply delim_not_num in Hr'. breflect. congruence.
  - breflect. injection Heq as -> Heq. by destruct (IH b) as [-> ->].
Qed.

Definition read_digit (a d : N) : N := (10 * a + (d - 48))%N.

Lemma digits_read fuel n acc :
  (n < 2 ^ N.of_nat fuel)%N →
  fold_left read_digit (digits fuel n acc) 0%N = fold_left read_digit acc n.
Proof.
  revert n acc. induction fuel as [|fuel IH]; intros n acc Hn.
  - cbn in *. by replace n with 0%N by lia.
  - cbn [digits]. pose proof (N.div_mod n 10 ltac:(done)) as Hdm.
    pose proof (N.mod_lt n 10 ltac:(done)) as Hm. destruct (N.ltb_spec n 10) as [Hlt|Hge].
    + cbn [fold_left]. f_equal. unfold read_digit. rewrite N.mod_small by done. lia.
    + rewrite IH.
      * cbn [fold_left]. f_equal. unfold read_digit.
        by rewrite (N.add_comm 48), N.add_sub, <- Hdm.
      * rewrite Nat2N.inj_succ, N.pow_succ_r' in Hn. apply N.Div0.div_lt_upper_bound. lia.
Qed.

Lemma size_nat_bound n : (n < 2 ^ N.of_nat (N.size_nat n))%N.
Proof.
  destruct n as [|p]; [done|]. cbn [N.size_nat].
  induction p as [p IH|p IH|]; cbn [Pos.size_nat]; [| |done];
    rewrite Nat2N.inj_succ, N.pow_succ_r'; lia.
Qed.

Lemma dump_nat_read n : fold_left read_digit (dump_nat n) 0%N = n.
Proof.
  unfold dump_nat. rewrite digits_read; [done|].
  rewrite Nat2N.inj_succ, N.pow_succ_r'. pose proof (size_nat_bound n). lia.
Qed.

Definition digit_char (c : N) : bool := ((48 <=? c) && (c <=? 57))%N.

Lemma digits_chars fuel n acc :
  forallb digit_char acc = true → forallb digit_char (digits fuel n acc) = true.
Proof.
  revert n acc. induction fuel as [|fuel IH]; intros n acc Hacc; [done|]. cbn [digits].
  assert (forallb digit_char ((48 + n mod 10)%N :: acc) = true) as Hc.
  { cbn [forallb]. rewrite Hacc, andb_true_r. unfold digit_char.
    pose proof (N.mod_lt n 10 ltac:(done)) as Hm. revert Hm.
    generalize (n mod 10)%N as d. intros d Hd.
    apply andb_true_iff. rewrite !N.leb_le. lia. }
  destruct (n <? 10)%N; auto.
Qed.

Lemma dump_nat_chars n : forallb digit_char (dump_nat n) = true.
Proof. by apply digits_chars. Qed.

Lemma digits_nonempty fuel n acc : acc ≠ [] → digits fuel n acc ≠ [].
Proof. revert n acc. induction fuel; intros n acc H; cbn; [done|]. destruct (_ <? _)%N; auto. Qed.

Lemma dump_nat_cons n : ∃ c t, dump_nat n = c :: t ∧ digit_char c = true.
Proof.
  pose proof (dump_nat_chars n) as Hc. destruct (dump_nat n) as [|c t] eqn:E.
  - exfalso. revert E. unfold dump_nat. cbn [digits].
    destruct (n <? 10)%N; [done|]. by apply digits_nonempty.
  - exists c, t. cbn in Hc. breflect. done.
Qed.

Lemma digit_num c : digit_char c = true → num_char c = true.
Proof. unfold digit_char, num_char. by intros ->. Qed.
Lemma digit_not_float c : digit_char c = true → float_char c = false.
Proof.
  unfold digit_char, float_char. rewrite andb_true_iff, !N.leb_le, orb_false_iff, !N.eqb_neq. lia.
Qed.

Lemma dump_int_num z : forallb num_char (dump_int z) = true.
Proof.
  unfold dump_int. destruct (z <? 0)%Z; cbn; apply forallb_forall; intros c Hc;
    apply digit_num; by eapply (proj1 (forallb_forall _ _) (dump_nat_chars _)).
Qed.

Lemma dump_int_not_float z : existsb float_char (dump_int z) = false.
Proof.
  assert (∀ n, existsb float_char (dump_nat n) = false) as Hn.
  { intros n. apply not_true_is_false. rewrite existsb_exists. intros (c & Hc & Hf).
    rewrite digit_not_float in Hf; [done|].
    by eapply (proj1 (forallb_forall _ _) (dump_nat_chars n)). }
  unfold dump_int. destruct (z <? 0)%Z; cbn; apply Hn.
Qed.

Lemma dump_int_inj z z' : dump_int z = dump_int z' → z = z'.
Proof.
  assert (∀ n m, dump_nat n = dump_nat m → n = m) as Hinj.
  { intros n m H. by rewrite <- (dump_nat_read n), H, dump_nat_read. }
  assert (∀ n t, dump_nat n ≠ 45%N :: t) as Hsign.
  { intros n t H. destruct (dump_nat_cons n) as (c & t' & H' & Hc).
    rewrite H' in H. injection H as -> _. done. }
  unfold dump_int. destruct (Z.ltb_spec z 0), (Z.ltb_spec z' 0); intros H1.
  - injection H1 as H1%Hinj. lia.
  - symmetry in H1. by apply Hsign in H1.
  - by apply Hsign in H1.
  - apply Hinj in H1. lia.
Qed.

(** ** Reading bracketed sequences *)

Lemma join_cons sep x l tail :
  join sep (x :: l) ++ tail
  = x ++ match l with [] => tail | _ => sep :: join sep l ++ tail end.
Proof. destruct l; cbn [join]; [done|]. by rewrite <- app_assoc. Qed.

Section Sequences.
Context {X Y : Type} (pr : X → list N) (val : X → Y) (close : N).
Hypothesis close_delim : close = 93%N ∨ close = 125%N.

Definition reads (x y : X) : Prop :=
  ∀ r r', delim r → delim r' → pr x ++ r = pr y ++ r' → val x = val y ∧ r = r'.
Definition opens (x : X) : Prop := ∀ t t', pr x ++ t ≠ close :: t'.

Lemma join_inj l l' r r' :
  Forall (λ x, Forall (reads x) l') l → Forall opens l → Forall opens l' →
  join 44 (pr <$> l) ++ close :: r = join 44 (pr <$> l') ++ close :: r' →
  val <$> l = val <$> l' ∧ r = r'.
Proof using Type*.
  revert l'. induction l as [|x l IH]; intros [|y l'] Hr Ho Ho' Heq.
  - by injection Heq as ->.
  - rewrite fmap_cons, join_cons in Heq. symmetry in Heq.
    apply Forall_cons in Ho' as [Hy _]. by apply Hy in Heq.
  - rewrite fmap_cons, join_cons in Heq.
    apply Forall_cons in Ho as [Hx _]. by apply Hx in Heq.
  - rewrite !fmap_cons, !join_cons in Heq.
    apply Forall_cons in Hr as [Hxs Hr]. apply Forall_cons in Hxs as [Hxy _].
    apply Forall_cons in Ho as [_ Ho]. apply Forall_cons in Ho' as [_ Ho'].
    apply Hxy in Heq as [Hv Heq].
    2,3: match goal with |- delim (match ?m with _ => _ end) => destruct m end;
         cbn; intuition.
    rewrite !fmap_cons, Hv.
    assert (close ≠ 44%N) by (intros ->; destruct close_delim; done).
    destruct l as [|x2 l], l' as [|y2 l']; cbn [fmap list_fmap] in Heq.
    + by injection Heq as ->.
    + injection Heq; congruence.
    + injection Heq; congruence.
    + injection Heq as Heq. destruct (IH (y2 :: l')) as [-> ->]; try done.
      eapply Forall_impl; [exact Hr|]. by intros z [_ ?]%Forall_cons.
Qed.
End Sequences.

(** ** Reading a value *)

(** The first character of a text tells the constructor. *)
Definition tag (c : N) : nat :=
  if (c =? 110)%N then 0 else if (c =? 116)%N then 1 else if (c =? 102)%N then 2
  else if (c =? 34)%N then 3 else if (c =? 91)%N then 4 else if (c =? 123)%N then 5
  else if num_char c then 6 else 7.
Definition tag_of (v : json) : nat :=
  match v with
  | JNull => 0 | JBool true => 1 | JBool false => 2 | JStr _ => 3
  | JArr _ => 4 | JObj _ => 5 | JInt _ | JFloat _ => 6
  end.

Lemma num_tag c : num_char c = true → tag c = 6.
Proof.
  intros Hc. unfold tag.
  repeat match goal with |- context [(c =? ?k)%N] =>
    destruct (N.eqb_spec c k) as [->|]; [done|] end.
  by rewrite Hc.
Qed.

Lemma dump_tag v : json_wf v → ∃ c t, dump v = c :: t ∧ tag c = tag_of v.
Proof.
  destruct v as [|[]|z|r|s|l|l]; cbn; intros Hwf; try (eexists _, _; split; [done|done]).
  - pose proof (dump_int_num z) as Hn. unfold dump_int in *.
    destruct (z <? 0)%Z; [by eexists _, _|].
    destruct (dump_nat_cons (Z.to_N z)) as (c & t & Heq & Hc). exists c, t.
    split; [done|]. by apply num_tag, digit_num.
  - apply andb_true_iff in Hwf as [Hn Hf]. destruct r as [|c r]; [done|].
    exists c, r. split; [done|]. apply num_tag. cbn in Hn. by breflect.
Qed.

Lemma dump_opens close v : tag close = 7 → json_wf v → opens dump close v.
Proof.
  intros Hc Hwf t t' Heq. destruct (dump_tag v Hwf) as (c & u & Hd & Ht).
  rewrite Hd in Heq. injection Heq as -> _. rewrite Hc in Ht. by destruct v as [|[]| | | | |].
Qed.

(** Object items in the order they are written. *)
Definition obj_items (l : list (list N * json)) := merge_sort key_le l.
Definition dump_member (kv : list N * json) : list N := dump_item (kv.1, dump kv.2).

Lemma dump_obj l :
  NoDup l.*1 →
  dump (JObj l) = [123%N] ++ join 44 (dump_member <$> obj_items l) ++ [125%N].
Proof.
  intros Hnd. cbn [dump]. rewrite (merge_sort_fmap (λ kv, dump kv.2)) by done.
  unfold obj_items. by rewrite <- list_fmap_compose.
Qed.

Lemma sort_json_obj l :
  NoDup l.*1 →
  sort_json (JObj l) = JObj ((λ kv, (kv.1, sort_json kv.2)) <$> obj_items l).
Proof.
  intros Hnd. cbn [sort_json]. by rewrite (merge_sort_fmap (λ kv, sort_json kv.2)).
Qed.

Definition reads_as (v : json) : Prop := ∀ w, json_wf w → reads dump sort_json v w.

Lemma reads_num v w r r' :
  tag_of v = 6 → tag_of w = 6 → json_wf v → json_wf w → delim r → delim r' →
  dump v ++ r = dump w ++ r' → sort_json v = sort_json w ∧ r = r'.
Proof.
  intros Hv Hw Hwv Hww Hr Hr' Heq.
  destruct v as [|[]|z|f| | |]; try done; destruct w as [|[]|z'|f'| | |]; try done;
    cbn [dump json_wf sort_json] in *; unfold float_repr in *; breflect;
    (apply num_span in Heq as [Heq ->]; auto using dump_int_num).
  - by apply dump_int_inj in Heq as ->.
  - subst. by rewrite dump_int_not_float in *.
  - subst. by rewrite dump_int_not_float in *.
  - by subst.
Qed.

Lemma dump_same_tag v w r r' :
  json_wf v → json_wf w → dump v ++ r = dump w ++ r' → tag_of v = tag_of w.
Proof.
  intros (c & t & Hd & <-)%dump_tag (c' & t' & Hd' & <-)%dump_tag Heq.
  rewrite Hd, Hd' in Heq. by injection Heq as -> _.
Qed.

Lemma reads_arr l : Forall reads_as l → json_wf (JArr l) → reads_as (JArr l).
Proof.
  intros IH Hwf w Hw r r' Hr Hr' Heq.
  pose proof (dump_same_tag _ _ _ _ Hwf Hw Heq) as Ht.
  destruct w as [|[]| | | |l'|]; try done.
  cbn [dump] in Heq. rewrite <- !app_assoc in Heq. injection Heq as Heq.
  rewrite json_wf_arr in Hwf, Hw.
  apply (join_inj dump sort_json) in Heq as [Hs ->]; [| auto | |  |].
  - cbn. by rewrite Hs.
  - eapply Forall_impl; [exact IH|]. intros x Hx.
    eapply Forall_impl; [exact Hw|]. intros y Hy. by apply Hx.
  - eapply Forall_impl; [exact Hwf|]. intros x. by apply dump_opens.
  - eapply Forall_impl; [exact Hw|]. intros x. by apply dump_opens.
Qed.

Lemma member_opens kv : opens dump_member 125 kv.
Proof. intros t t'. unfold dump_member, dump_item, dump_str. discriminate. Qed.

Lemma reads_obj l :
  Forall (λ kv, reads_as kv.2) l → json_wf (JObj l) → reads_as (JObj l).
Proof.
  intros IH Hwf w Hw r r' Hr Hr' Heq.
  pose proof (dump_same_tag _ _ _ _ Hwf Hw Heq) as Ht.
  destruct w as [|[]| | | | |l']; try done.
  rewrite json_wf_obj in Hwf, Hw. destruct Hwf as [Hnd _], Hw as [Hnd' Hwf'].
  rewrite !dump_obj, <- !app_assoc in Heq by done. injection Heq as Heq.
  rewrite !sort_json_obj by done.
  apply (join_inj dump_member (λ kv, (kv.1, sort_json kv.2))) in Heq as [Hs ->];
    [| auto | | |].
  - by rewrite Hs.
  - apply Forall_merge_sort. eapply Forall_impl; [exact IH|].
    intros [k x] Hx. apply Forall_merge_sort. eapply Forall_impl; [exact Hwf'|].
    intros [k' y] Hy s s' Hs Hs' He. unfold dump_member, dump_item in He. cbn [fst snd] in He, Hx, Hy.
    rewrite <- !app_assoc in He. apply dump_str_inj in He as [-> He].
    injection He as He. apply Hx in He as [He ->]; [|done..]. cbn. by rewrite He.
  - apply Forall_forall. intros kv _. apply member_opens.
  - apply Forall_forall. intros kv _. apply member_opens.
Qed.

Lemma dump_reads v : json_wf v → reads_as v.
Proof.
  induction v as [|b|z|f|s|l IH|l IH] using json_ind'; intros Hwf.
  1,2,5: intros w Hw r r' Hr Hr' Heq;
         pose proof (dump_same_tag _ _ _ _ Hwf Hw Heq) as Ht.
  - destruct w as [|[]| | | | |]; try done. by injection Heq.
  - destruct b, w as [|[]| | | | |]; try done; by injection Heq.
  - destruct w as [|[]| | |s'| |]; try done. by apply dump_str_inj in Heq as [-> ->].
  - intros w Hw r r' Hr Hr' Heq.
    pose proof (dump_same_tag _ _ _ _ Hwf Hw Heq) as Ht. by eapply reads_num.
  - intros w Hw r r' Hr Hr' Heq.
    pose proof (dump_same_tag _ _ _ _ Hwf Hw Heq) as Ht. by eapply reads_num.
  - apply reads_arr; [|done]. rewrite json_wf_arr in Hwf.
    rewrite Forall_forall in IH, Hwf |- *. auto.
  - apply reads_obj; [|done]. rewrite json_wf_obj in Hwf. destruct Hwf as [_ Hwf].
    rewrite Forall_forall in IH, Hwf |- *. auto.
Qed.

(** ** Sorting the keys does not change the text *)

Lemma sort_json_wf v : json_wf v → json_wf (sort_json v).
Proof.
  induction v as [| | | | |l IH|l IH] using json_ind'; intros Hwf; try done.
  - cbn [sort_json]. rewrite json_wf_arr in *. rewrite Forall_fmap.
    rewrite Forall_forall in *. cbn. auto.
  - assert (NoDup l.*1) as Hnd by (by rewrite json_wf_obj in Hwf; destruct Hwf).
    rewrite sort_json_obj, json_wf_obj by done. rewrite json_wf_obj in Hwf.
    unfold obj_items. split.
    + rewrite <- list_fmap_compose, merge_sort_Permutation.
      erewrite list_fmap_ext; [exact Hnd|]. done.
    + rewrite Forall_fmap. apply Forall_merge_sort. destruct Hwf as [_ Hwf].
      rewrite Forall_forall in *. cbn. auto.
Qed.

Lemma dump_sort_json v : json_wf v → dump (sort_json v) = dump v.
Proof.
  induction v as [| | | | |l IH|l IH] using json_ind'; intros Hwf; try done.
  - cbn [sort_json dump]. rewrite json_wf_arr in Hwf.
    rewrite <- list_fmap_compose. do 3 f_equal. apply list_fmap_ext. intros i x Hx.
    apply list_elem_of_lookup_2 in Hx. rewrite Forall_forall in *. cbn. auto.
  - pose proof (sort_json_wf _ Hwf) as Hwf'. rewrite json_wf_obj in Hwf.
    destruct Hwf as [Hnd Hwf]. rewrite sort_json_obj in * by done.
    rewrite json_wf_obj in Hwf'. destruct Hwf' as [Hnd' _].
    rewrite !dump_obj by done. do 3 f_equal.
    unfold obj_items. rewrite <- (merge_sort_fmap (λ kv, sort_json kv.2)) by done.
    rewrite (merge_sort_id (merge_sort _ _)).
    + rewrite (merge_sort_fmap (λ kv, sort_json kv.2)), <- list_fmap_compose by done.
      apply list_fmap_ext. intros i [k x] Hx%list_elem_of_lookup_2.
      rewrite merge_sort_Permutation in Hx. unfold dump_member. cbn.
      rewrite Forall_forall in IH, Hwf. pose proof (IH _ Hx (Hwf _ Hx)) as He. cbn in He. by rewrite He.
    + rewrite merge_sort_Permutation, <- list_fmap_compose.
      erewrite list_fmap_ext; [exact Hnd|]. done.
    + apply StronglySorted_merge_sort; apply _.
Qed.

(** The canonical text is a complete invariant of the value up to key order. *)
Lemma dump_eq_iff v w :
  json_wf v → json_wf w → dump v = dump w ↔ sort_json v = sort_json w.
Proof.
  intros Hv Hw. split; intros Heq.
  - destruct (dump_reads v Hv w Hw [] []) as [? _]; try done. by rewrite !app_nil_r.
  - by rewrite <- (dump_sort_json v), Heq, dump_sort_json.
Qed.

(** Items inserted in another order sort to the same value. *)
Lemma sort_json_perm l l' :
  NoDup l.*1 → l ≡ₚ l' → sort_json (JObj l) = sort_json (JObj l').
Proof.
  intros Hnd Hp. cbn. f_equal. apply merge_sort_unique; [|by rewrite Hp].
  rewrite <- list_fmap_compose. erewrite list_fmap_ext; [exact Hnd|]. done.
Qed.

(** ** [str(uuid)] is injective *)

Lemma hex_fixed_length k n : length (hex_fixed k n) = k.
Proof. revert n. induction k as [|k IH]; intros n; cbn; [done|]. rewrite length_app, IH. cbn. lia. Qed.

Lemma hex_digit_inj a b : (a < 16)%N → (b < 16)%N → hex_digit a = hex_digit b → a = b.
Proof. unfold hex_digit. destruct (N.ltb_spec a 10), (N.ltb_spec b 10); lia. Qed.

Lemma hex_fixed_inj k n m :
  (n < 16 ^ N.of_nat k)%N → (m < 16 ^ N.of_nat k)%N → hex_fixed k n = hex_fixed k m → n = m.
Proof.
  revert n m. induction k as [|k IH]; intros n m Hn Hm; cbn [hex_fixed].
  - cbn in *. lia.
  - intros [H1 H2]%app_inj_tail. rewrite Nat2N.inj_succ, N.pow_succ_r' in Hn, Hm.
    rewrite (N.div_mod n 16), (N.div_mod m 16) by done.
    rewrite (IH (n / 16)%N (m / 16)%N) by
      (done || (apply N.Div0.div_lt_upper_bound; done)).
    f_equal. apply hex_digit_inj; [by apply N.mod_lt..|done].
Qed.

Lemma take_drop_split {A} k (l l' : list A) x r r' :
  length l = length l' → k ≤ length l →
  take k l ++ x :: r = take k l' ++ x :: r' → take k l = take k l' ∧ r = r'.
Proof.
  intros Hl Hk H. apply app_inj_1 in H as [? H]; [by injection H|].
  rewrite !length_take. lia.
Qed.

Lemma uuid_str_inj u v :
  (u < 2 ^ 128)%N → (v < 2 ^ 128)%N → uuid_str u = uuid_str v → u = v.
Proof.
  intros Hu Hv H. apply (hex_fixed_inj 32); [exact Hu|exact Hv|]. revert H. unfold uuid_str.
  set (h := hex_fixed 32 u). set (h' := hex_fixed 32 v).
  assert (length h = 32) as Hh by apply hex_fixed_length.
  assert (length h' = 32) as Hh' by apply hex_fixed_length.
  clearbody h h'. cbn [join]. intros H.
  apply take_drop_split in H as [H1 H]; [|lia..].
  apply take_drop_split in H as [H2 H]; [|rewrite !length_drop; lia..].
  apply take_drop_split in H as [H3 H]; [|rewrite !length_drop; lia..].
  apply take_drop_split in H as [H4 H5]; [|rewrite !length_drop; lia..].
  rewrite <- (take_drop 8 h), <- (take_drop 8 h'), H1. f_equal.
  rewrite <- (take_drop 4 (drop 8 h)), <- (take_drop 4 (drop 8 h')), H2, !drop_drop. f_equal.
  rewrite <- (take_drop 4 (drop (8 + 4) h)), <- (take_drop 4 (drop (8 + 4) h')).
  rewrite !drop_drop. cbn in *. rewrite H3. f_equal.
  rewrite <- (take_drop 4 (drop 16 h)), <- (take_drop 4 (drop 16 h')), H4, !drop_drop.
  f_equal. exact H5.
Qed.

(** The canonical text of a value and of its sorted copy are the same. *)
Lemma all_finite_sort v : all_finite (sort_json v) = all_finite v.
Proof.
  induction v as [| | | | |l IH|l IH] using json_ind'; try done.
  - cbn. induction IH as [|x l Hx _ IHl]; [done|]. cbn. by rewrite Hx, IHl.
  - cbn. apply eq_true_iff_eq. rewrite !forallb_forall. setoid_rewrite <- list_elem_of_In.
    setoid_rewrite merge_sort_Permutation. rewrite Forall_forall in IH. split.
    + intros H x Hx. rewrite <- (IH x Hx). apply (H (x.1, sort_json x.2)).
      apply list_elem_of_fmap. eauto.
    + intros H x (y & -> & Hy)%list_elem_of_fmap. cbn. rewrite (IH y Hy). auto.
Qed.

Lemma canonical_json_sort v : json_wf v → canonical_json (sort_json v) = canonical_json v.
Proof. intros Hv. by rewrite !canonical_json_dump, all_finite_sort, dump_sort_json. Qed.

(** Equal sorted mappings have the same value under each key. *)
Lemma sort_json_member l l' k x :
  sort_json (JObj l) = sort_json (JObj l') → (k, x) ∈ l →
  ∃ x', (k, x') ∈ l' ∧ sort_json x = sort_json x'.
Proof.
  cbn [sort_json]. intros [= Hs] Hin.
  assert ((k, sort_json x) ∈ (λ kv : list N * json, (kv.1, sort_json kv.2)) <$> l') as Hin'.
  { assert ((k, sort_json x) ∈ merge_sort key_le
              ((λ kv : list N * json, (kv.1, sort_json kv.2)) <$> l)) as Hm.
    { rewrite merge_sort_Permutation. apply list_elem_of_fmap. by exists (k, x). }
    rewrite Hs in Hm. by rewrite merge_sort_Permutation in Hm. }
  apply list_elem_of_fmap in Hin' as ([k' x'] & [= -> Hx] & Hin'). eauto.
Qed.
