(* ===== verification/RunStore.v ===== *)
(** * The run tables

    The rows the run lifecycle shares: [AgentRun], [RunStep] and
    [AgentRunEvent] of [packages/agent_runtime/models.py], [Approval] of
    [packages/approvals/models.py], [AuditLog] of
    [packages/control_plane/models.py], [Customer] and [Ticket] of
    [packages/tools/models.py], with the columns the modelled operations read
    or write.  A database session is a program of the exception monad over
    [Db]; [session_scope] is one transaction.

    Tables whose rows are addressed by primary key are finite maps; tables that
    are only appended to and searched are lists in insertion order.
    Timestamps come from [timestamptz] columns and are aware. *)

From stdpp Require Import base gmap list strings.
From Stdlib Require Import ZArith NArith Lia.
From S2P Require Import Prelude.
From S2P Require Import Json.

(** ** Errors *)

Inductive Exn :=
| AgentHubError (code message : string) (status_code : Z)
| ValueError (message : string)
| KeyError
| IntegrityError (constraint_name : string)
| EventSequenceConflict
| TimeoutError
| CancelledError
| ProviderFailure (detail : string).

(** ** Enumerations *)

Module RunStatus.
Inductive t := RUNNING | WAITING_APPROVAL | SUCCEEDED | FAILED | NEEDS_ATTENTION
             | CANCEL_REQUESTED | CANCELLED.
#[global] Instance t_eq_dec : EqDecision t.
Proof. solve_decision. Defined.
Definition eqb (a b : t) : bool :=
  match a, b with
  | RUNNING, RUNNING | WAITING_APPROVAL, WAITING_APPROVAL | SUCCEEDED, SUCCEEDED
  | FAILED, FAILED | NEEDS_ATTENTION, NEEDS_ATTENTION
  | CANCEL_REQUESTED, CANCEL_REQUESTED | CANCELLED, CANCELLED => true
  | _, _ => false
  end.
Lemma eqb_eq a b : eqb a b = true ↔ a = b.
Proof. by destruct a, b. Qed.
Definition value (s : t) : string :=
  match s with
  | RUNNING => "RUNNING" | WAITING_APPROVAL => "WAITING_APPROVAL" | SUCCEEDED => "SUCCEEDED"
  | FAILED => "FAILED" | NEEDS_ATTENTION => "NEEDS_ATTENTION"
  | CANCEL_REQUESTED => "CANCEL_REQUESTED" | CANCELLED => "CANCELLED"
  end.
End RunStatus.

Module ApprovalDecisionStatus.
Inductive t := PENDING | APPROVED | DENIED | EXPIRED | CANCELLED.
#[global] Instance t_eq_dec : EqDecision t.
Proof. solve_decision. Defined.
Definition value (s : t) : string :=
  match s with
  | PENDING => "PENDING" | APPROVED => "APPROVED" | DENIED => "DENIED"
  | EXPIRED => "EXPIRED" | CANCELLED => "CANCELLED"
  end.
End ApprovalDecisionStatus.

Module ApprovalExecutionStatus.
Inductive t := NOT_STARTED | CLAIMED | SUCCEEDED | FAILED | UNKNOWN_OUTCOME.
#[global] Instance t_eq_dec : EqDecision t.
Proof. solve_decision. Defined.
End ApprovalExecutionStatus.

(** ** Rows *)

(** The usage columns of a run, written together. *)
Record UsageTotals := {
  total_input_tokens : option Z;
  total_output_tokens : option Z;
  total_tokens : option Z;
  total_cached_tokens : option Z;
  total_cost_amount : option Z;
  cost_currency : option pystr;
  cost_is_estimate : option bool
}.

(** [agent_runs]: one execution of a published agent version. *)
Record AgentRun := {
  run_id : uuid;
  run_workspace_id : uuid;
  run_agent_version_id : uuid;
  run_created_by : uuid;
  run_execution_owner : option pystr;
  run_execution_lease_expires_at : option datetime;
  run_waiting_approval_id : option uuid;
  run_resume_pending : bool;
  run_reconciled_at : option datetime;
  run_event_log_complete : bool;
  run_event_log_failed : bool;
  run_status : RunStatus.t;
  run_thread_id : option uuid;
  run_thread_turn_id : option uuid;
  run_input_text : pystr;
  run_final_output : option pystr;
  run_thread_history_transcript : option json;
  run_thread_history_evidence_registry : option json;
  run_model_step_count : Z;
  run_tool_call_count : Z;
  run_totals : UsageTotals;
  run_failure_code : option string;
  run_started_at : option datetime;
  run_completed_at : option datetime
}.

Definition set_run_execution_owner (v : option pystr) (r : AgentRun) : AgentRun :=
  {| run_id := run_id r; run_workspace_id := run_workspace_id r;
     run_agent_version_id := run_agent_version_id r; run_created_by := run_created_by r;
     run_execution_owner := v;
     run_execution_lease_expires_at := run_execution_lease_expires_at r;
     run_waiting_approval_id := run_waiting_approval_id r;
     run_resume_pending := run_resume_pending r; run_reconciled_at := run_reconciled_at r;
     run_event_log_complete := run_event_log_complete r;
     run_event_log_failed := run_event_log_failed r; run_status := run_status r;
     run_thread_id := run_thread_id r; run_thread_turn_id := run_thread_turn_id r;
     run_input_text := run_input_text r; run_final_output := run_final_output r;
     run_thread_history_transcript := run_thread_history_transcript r;
     run_thread_history_evidence_registry := run_thread_history_evidence_registry r;
     run_model_step_count := run_model_step_count r;
     run_tool_call_count := run_tool_call_count r; run_totals := run_totals r;
     run_failure_code := run_failure_code r; run_started_at := run_started_at r;
     run_completed_at := run_completed_at r |}.
Definition set_run_execution_lease_expires_at (v : option datetime) (r : AgentRun) : AgentRun :=
  {| run_id := run_id r; run_workspace_id := run_workspace_id r;
     run_agent_version_id := run_agent_version_id r; run_created_by := run_created_by r;
     run_execution_owner := run_execution_owner r; run_execution_lease_expires_at := v;
     run_waiting_approval_id := run_waiting_approval_id r;
     run_resume_pending := run_resume_pending r; run_reconciled_at := run_reconciled_at r;
     run_event_log_complete := run_event_log_complete r;
     run_event_log_failed := run_event_log_failed r; run_status := run_status r;
     run_thread_id := run_thread_id r; run_thread_turn_id := run_thread_turn_id r;
     run_input_text := run_input_text r; run_final_output := run_final_output r;
     run_thread_history_transcript := run_thread_history_transcript r;
     run_thread_history_evidence_registry := run_thread_history_evidence_registry r;
     run_model_step_count := run_model_step_count r;
     run_tool_call_count := run_tool_call_count r; run_totals := run_totals r;
     run_failure_code := run_failure_code r; run_started_at := run_started_at r;
     run_completed_at := run_completed_at r |}.
Definition set_run_resume_pending (v : bool) (r : AgentRun) : AgentRun :=
  {| run_id := run_id r; run_workspace_id := run_workspace_id r;
     run_agent_version_id := run_agent_version_id r; run_created_by := run_created_by r;
     run_execution_owner := run_execution_owner r;
     run_execution_lease_expires_at := run_execution_lease_expires_at r;
     run_waiting_approval_id := run_waiting_approval_id r; run_resume_pending := v;
     run_reconciled_at := run_reconciled_at r;
     run_event_log_complete := run_event_log_complete r;
     run_event_log_failed := run_event_log_failed r; run_status := run_status r;
     run_thread_id := run_thread_id r; run_thread_turn_id := run_thread_turn_id r;
     run_input_text := run_input_text r; run_final_output := run_final_output r;
     run_thread_history_transcript := run_thread_history_transcript r;
     run_thread_history_evidence_registry := run_thread_history_evidence_registry r;
     run_model_step_count := run_model_step_count r;
     run_tool_call_count := run_tool_call_count r; run_totals := run_totals r;
     run_failure_code := run_failure_code r; run_started_at := run_started_at r;
     run_completed_at := run_completed_at r |}.
Definition set_run_reconciled_at (v : option datetime) (r : AgentRun) : AgentRun :=
  {| run_id := run_id r; run_workspace_id := run_workspace_id r;
     run_agent_version_id := run_agent_version_id r; run_created_by := run_created_by r;
     run_execution_owner := run_execution_owner r;
     run_execution_lease_expires_at := run_execution_lease_expires_at r;
     run_waiting_approval_id := run_waiting_approval_id r;
     run_resume_pending := run_resume_pending r; run_reconciled_at := v;
     run_event_log_complete := run_event_log_complete r;
     run_event_log_failed := run_event_log_failed r; run_status := run_status r;
     run_thread_id := run_thread_id r; run_thread_turn_id := run_thread_turn_id r;
     run_input_text := run_input_text r; run_final_output := run_final_output r;
     run_thread_history_transcript := run_thread_history_transcript r;
     run_thread_history_evidence_registry := run_thread_history_evidence_registry r;
     run_model_step_count := run_model_step_count r;
     run_tool_call_count := run_tool_call_count r; run_totals := run_totals r;
     run_failure_code := run_failure_code r; run_started_at := run_started_at r;
     run_completed_at := run_completed_at r |}.
Definition set_run_event_log_complete (v : bool) (r : AgentRun) : AgentRun :=
  {| run_id := run_id r; run_workspace_id := run_workspace_id r;
     run_agent_version_id := run_agent_version_id r; run_created_by := run_created_by r;
     run_execution_owner := run_execution_owner r;
     run_execution_lease_expires_at := run_execution_lease_expires_at r;
     run_waiting_approval_id := run_waiting_approval_id r;
     run_resume_pending := run_resume_pending r; run_reconciled_at := run_reconciled_at r;
     run_event_log_complete := v; run_event_log_failed := run_event_log_failed r;
     run_status := run_status r; run_thread_id := run_thread_id r;
     run_thread_turn_id := run_thread_turn_id r; run_input_text := run_input_text r;
     run_final_output := run_final_output r;
     run_thread_history_transcript := run_thread_history_transcript r;
     run_thread_history_evidence_registry := run_thread_history_evidence_registry r;
     run_model_step_count := run_model_step_count r;
     run_tool_call_count := run_tool_call_count r; run_totals := run_totals r;
     run_failure_code := run_failure_code r; run_started_at := run_started_at r;
     run_completed_at := run_completed_at r |}.
Definition set_run_event_log_failed (v : bool) (r : AgentRun) : AgentRun :=
  {| run_id := run_id r; run_workspace_id := run_workspace_id r;
     run_agent_version_id := run_agent_version_id r; run_created_by := run_created_by r;
     run_execution_owner := run_execution_owner r;
     run_execution_lease_expires_at := run_execution_lease_expires_at r;
     run_waiting_approval_id := run_waiting_approval_id r;
     run_resume_pending := run_resume_pending r; run_reconciled_at := run_reconciled_at r;
     run_event_log_complete := run_event_log_complete r; run_event_log_failed := v;
     run_status := run_status r; run_thread_id := run_thread_id r;
     run_thread_turn_id := run_thread_turn_id r; run_input_text := run_input_text r;
     run_final_output := run_final_output r;
     run_thread_history_transcript := run_thread_history_transcript r;
     run_thread_history_evidence_registry := run_thread_history_evidence_registry r;
     run_model_step_count := run_model_step_count r;
     run_tool_call_count := run_tool_call_count r; run_totals := run_totals r;
     run_failure_code := run_failure_code r; run_started_at := run_started_at r;
     run_completed_at := run_completed_at r |}.
Definition set_run_status (v : RunStatus.t) (r : AgentRun) : AgentRun :=
  {| run_id := run_id r; run_workspace_id := run_workspace_id r;
     run_agent_version_id := run_agent_version_id r; run_created_by := run_created_by r;
     run_execution_owner := run_execution_owner r;
     run_execution_lease_expires_at := run_execution_lease_expires_at r;
     run_waiting_approval_id := run_waiting_approval_id r;
     run_resume_pending := run_resume_pending r; run_reconciled_at := run_reconciled_at r;
     run_event_log_complete := run_event_log_complete r;
     run_event_log_failed := run_event_log_failed r; run_status := v;
     run_thread_id := run_thread_id r; run_thread_turn_id := run_thread_turn_id r;
     run_input_text := run_input_text r; run_final_output := run_final_output r;
     run_thread_history_transcript := run_thread_history_transcript r;
     run_thread_history_evidence_registry := run_thread_history_evidence_registry r;
     run_model_step_count := run_model_step_count r;
     run_tool_call_count := run_tool_call_count r; run_totals := run_totals r;
     run_failure_code := run_failure_code r; run_started_at := run_started_at r;
     run_completed_at := run_completed_at r |}.
Definition set_run_failure_code (v : option string) (r : AgentRun) : AgentRun :=
  {| run_id := run_id r; run_workspace_id := run_workspace_id r;
     run_agent_version_id := run_agent_version_id r; run_created_by := run_created_by r;
     run_execution_owner := run_execution_owner r;
     run_execution_lease_expires_at := run_execution_lease_expires_at r;
     run_waiting_approval_id := run_waiting_approval_id r;
     run_resume_pending := run_resume_pending r; run_reconciled_at := run_reconciled_at r;
     run_event_log_complete := run_event_log_complete r;
     run_event_log_failed := run_event_log_failed r; run_status := run_status r;
     run_thread_id := run_thread_id r; run_thread_turn_id := run_thread_turn_id r;
     run_input_text := run_input_text r; run_final_output := run_final_output r;
     run_thread_history_transcript := run_thread_history_transcript r;
     run_thread_history_evidence_registry := run_thread_history_evidence_registry r;
     run_model_step_count := run_model_step_count r;
     run_tool_call_count := run_tool_call_count r; run_totals := run_totals r;
     run_failure_code := v; run_started_at := run_started_at r;
     run_completed_at := run_completed_at r |}.
Definition set_run_completed_at (v : option datetime) (r : AgentRun) : AgentRun :=
  {| run_id := run_id r; run_workspace_id := run_workspace_id r;
     run_agent_version_id := run_agent_version_id r; run_created_by := run_created_by r;
     run_execution_owner := run_execution_owner r;
     run_execution_lease_expires_at := run_execution_lease_expires_at r;
     run_waiting_approval_id := run_waiting_approval_id r;
     run_resume_pending := run_resume_pending r; run_reconciled_at := run_reconciled_at r;
     run_event_log_complete := run_event_log_complete r;
     run_event_log_failed := run_event_log_failed r; run_status := run_status r;
     run_thread_id := run_thread_id r; run_thread_turn_id := run_thread_turn_id r;
     run_input_text := run_input_text r; run_final_output := run_final_output r;
     run_thread_history_transcript := run_thread_history_transcript r;
     run_thread_history_evidence_registry := run_thread_history_evidence_registry r;
     run_model_step_count := run_model_step_count r;
     run_tool_call_count := run_tool_call_count r; run_totals := run_totals r;
     run_failure_code := run_failure_code r; run_started_at := run_started_at r;
     run_completed_at := v |}.
Definition set_run_waiting_approval_id (v : option uuid) (r : AgentRun) : AgentRun :=
  {| run_id := run_id r; run_workspace_id := run_workspace_id r;
     run_agent_version_id := run_agent_version_id r; run_created_by := run_created_by r;
     run_execution_owner := run_execution_owner r;
     run_execution_lease_expires_at := run_execution_lease_expires_at r;
     run_waiting_approval_id := v; run_resume_pending := run_resume_pending r;
     run_reconciled_at := run_reconciled_at r;
     run_event_log_complete := run_event_log_complete r;
     run_event_log_failed := run_event_log_failed r; run_status := run_status r;
     run_thread_id := run_thread_id r; run_thread_turn_id := run_thread_turn_id r;
     run_input_text := run_input_text r; run_final_output := run_final_output r;
     run_thread_history_transcript := run_thread_history_transcript r;
     run_thread_history_evidence_registry := run_thread_history_evidence_registry r;
     run_model_step_count := run_model_step_count r;
     run_tool_call_count := run_tool_call_count r; run_totals := run_totals r;
     run_failure_code := run_failure_code r; run_started_at := run_started_at r;
     run_completed_at := run_completed_at r |}.
Definition set_run_final_output (v : option pystr) (r : AgentRun) : AgentRun :=
  {| run_id := run_id r; run_workspace_id := run_workspace_id r;
     run_agent_version_id := run_agent_version_id r; run_created_by := run_created_by r;
     run_execution_owner := run_execution_owner r;
     run_execution_lease_expires_at := run_execution_lease_expires_at r;
     run_waiting_approval_id := run_waiting_approval_id r;
     run_resume_pending := run_resume_pending r; run_reconciled_at := run_reconciled_at r;
     run_event_log_complete := run_event_log_complete r;
     run_event_log_failed := run_event_log_failed r; run_status := run_status r;
     run_thread_id := run_thread_id r; run_thread_turn_id := run_thread_turn_id r;
     run_input_text := run_input_text r; run_final_output := v;
     run_thread_history_transcript := run_thread_history_transcript r;
     run_thread_history_evidence_registry := run_thread_history_evidence_registry r;
     run_model_step_count := run_model_step_count r;
     run_tool_call_count := run_tool_call_count r; run_totals := run_totals r;
     run_failure_code := run_failure_code r; run_started_at := run_started_at r;
     run_completed_at := run_completed_at r |}.
Definition set_run_thread_history_transcript (v : option json) (r : AgentRun) : AgentRun :=
  {| run_id := run_id r; run_workspace_id := run_workspace_id r;
     run_agent_version_id := run_agent_version_id r; run_created_by := run_created_by r;
     run_execution_owner := run_execution_owner r;
     run_execution_lease_expires_at := run_execution_lease_expires_at r;
     run_waiting_approval_id := run_waiting_approval_id r;
     run_resume_pending := run_resume_pending r; run_reconciled_at := run_reconciled_at r;
     run_event_log_complete := run_event_log_complete r;
     run_event_log_failed := run_event_log_failed r; run_status := run_status r;
     run_thread_id := run_thread_id r; run_thread_turn_id := run_thread_turn_id r;
     run_input_text := run_input_text r; run_final_output := run_final_output r;
     run_thread_history_transcript := v;
     run_thread_history_evidence_registry := run_thread_history_evidence_registry r;
     run_model_step_count := run_model_step_count r;
     run_tool_call_count := run_tool_call_count r; run_totals := run_totals r;
     run_failure_code := run_failure_code r; run_started_at := run_started_at r;
     run_completed_at := run_completed_at r |}.
Definition set_run_thread_history_evidence_registry (v : option json) (r : AgentRun) : AgentRun :=
  {| run_id := run_id r; run_workspace_id := run_workspace_id r;
     run_agent_version_id := run_agent_version_id r; run_created_by := run_created_by r;
     run_execution_owner := run_execution_owner r;
     run_execution_lease_expires_at := run_execution_lease_expires_at r;
     run_waiting_approval_id := run_waiting_approval_id r;
     run_resume_pending := run_resume_pending r; run_reconciled_at := run_reconciled_at r;
     run_event_log_complete := run_event_log_complete r;
     run_event_log_failed := run_event_log_failed r; run_status := run_status r;
     run_thread_id := run_thread_id r; run_thread_turn_id := run_thread_turn_id r;
     run_input_text := run_input_text r; run_final_output := run_final_output r;
     run_thread_history_transcript := run_thread_history_transcript r;
     run_thread_history_evidence_registry := v;
     run_model_step_count := run_model_step_count r;
     run_tool_call_count := run_tool_call_count r; run_totals := run_totals r;
     run_failure_code := run_failure_code r; run_started_at := run_started_at r;
     run_completed_at := run_completed_at r |}.
Definition set_run_model_step_count (v : Z) (r : AgentRun) : AgentRun :=
  {| run_id := run_id r; run_workspace_id := run_workspace_id r;
     run_agent_version_id := run_agent_version_id r; run_created_by := run_created_by r;
     run_execution_owner := run_execution_owner r;
     run_execution_lease_expires_at := run_execution_lease_expires_at r;
     run_waiting_approval_id := run_waiting_approval_id r;
     run_resume_pending := run_resume_pending r; run_reconciled_at := run_reconciled_at r;
     run_event_log_complete := run_event_log_complete r;
     run_event_log_failed := run_event_log_failed r; run_status := run_status r;
     run_thread_id := run_thread_id r; run_thread_turn_id := run_thread_turn_id r;
     run_input_text := run_input_text r; run_final_output := run_final_output r;
     run_thread_history_transcript := run_thread_history_transcript r;
     run_thread_history_evidence_registry := run_thread_history_evidence_registry r;
     run_model_step_count := v; run_tool_call_count := run_tool_call_count r;
     run_totals := run_totals r; run_failure_code := run_failure_code r;
     run_started_at := run_started_at r; run_completed_at := run_completed_at r |}.
Definition set_run_tool_call_count (v : Z) (r : AgentRun) : AgentRun :=
  {| run_id := run_id r; run_workspace_id := run_workspace_id r;
     run_agent_version_id := run_agent_version_id r; run_created_by := run_created_by r;
     run_execution_owner := run_execution_owner r;
     run_execution_lease_expires_at := run_execution_lease_expires_at r;
     run_waiting_approval_id := run_waiting_approval_id r;
     run_resume_pending := run_resume_pending r; run_reconciled_at := run_reconciled_at r;
     run_event_log_complete := run_event_log_complete r;
     run_event_log_failed := run_event_log_failed r; run_status := run_status r;
     run_thread_id := run_thread_id r; run_thread_turn_id := run_thread_turn_id r;
     run_input_text := run_input_text r; run_final_output := run_final_output r;
     run_thread_history_transcript := run_thread_history_transcript r;
     run_thread_history_evidence_registry := run_thread_history_evidence_registry r;
     run_model_step_count := run_model_step_count r; run_tool_call_count := v;
     run_totals := run_totals r; run_failure_code := run_failure_code r;
     run_started_at := run_started_at r; run_completed_at := run_completed_at r |}.
Definition set_run_totals (v : UsageTotals) (r : AgentRun) : AgentRun :=
  {| run_id := run_id r; run_workspace_id := run_workspace_id r;
     run_agent_version_id := run_agent_version_id r; run_created_by := run_created_by r;
     run_execution_owner := run_execution_owner r;
     run_execution_lease_expires_at := run_execution_lease_expires_at r;
     run_waiting_approval_id := run_waiting_approval_id r;
     run_resume_pending := run_resume_pending r; run_reconciled_at := run_reconciled_at r;
     run_event_log_complete := run_event_log_complete r;
     run_event_log_failed := run_event_log_failed r; run_status := run_status r;
     run_thread_id := run_thread_id r; run_thread_turn_id := run_thread_turn_id r;
     run_input_text := run_input_text r; run_final_output := run_final_output r;
     run_thread_history_transcript := run_thread_history_transcript r;
     run_thread_history_evidence_registry := run_thread_history_evidence_registry r;
     run_model_step_count := run_model_step_count r;
     run_tool_call_count := run_tool_call_count r; run_totals := v;
     run_failure_code := run_failure_code r; run_started_at := run_started_at r;
     run_completed_at := run_completed_at r |}.

Definition no_totals : UsageTotals :=
  {| total_input_tokens := None; total_output_tokens := None; total_tokens := None;
     total_cached_tokens := None; total_cost_amount := None; cost_currency := None;
     cost_is_estimate := None |}.
(** A run as it is first inserted. *)
Definition fresh_run (id workspace_id agent_version_id created_by : uuid) : AgentRun :=
  {| run_id := id; run_workspace_id := workspace_id; run_agent_version_id := agent_version_id;
     run_created_by := created_by; run_execution_owner := None;
     run_execution_lease_expires_at := None; run_waiting_approval_id := None;
     run_resume_pending := false; run_reconciled_at := None; run_event_log_complete := false;
     run_event_log_failed := false; run_status := RunStatus.RUNNING; run_thread_id := None;
     run_thread_turn_id := None; run_input_text := []; run_final_output := None;
     run_thread_history_transcript := None; run_thread_history_evidence_registry := None;
     run_model_step_count := 0%Z; run_tool_call_count := 0%Z; run_totals := no_totals;
     run_failure_code := None; run_started_at := Some 0%Z; run_completed_at := None |}.

(** [approvals]: one governed action waiting for, or given, a human decision. *)
Record Approval := {
  ap_id : uuid;
  ap_workspace_id : uuid;
  ap_run_id : uuid;
  ap_agent_version_id : uuid;
  ap_logical_action_id : pystr;
  ap_tool_revision_id : option uuid;
  ap_tool_identity : pystr;
  ap_canonical_arguments : json;
  ap_canonical_args_hash : pystr;
  ap_decision_status : ApprovalDecisionStatus.t;
  ap_execution_status : ApprovalExecutionStatus.t;
  ap_requested_by : uuid;
  ap_decided_by : option uuid;
  ap_decided_at : option datetime;
  ap_claimed_at : option datetime;
  ap_executed_at : option datetime;
  ap_expires_at : option datetime;
  ap_failure_code : option string;
  ap_safe_failure_message : option string;
  ap_safe_result : option json;
  ap_execution_attempt_count : Z;
  ap_idempotency_key : pystr;
  ap_created_at : datetime
}.

Definition set_ap_decision_status (v : ApprovalDecisionStatus.t) (r : Approval) : Approval :=
  {| ap_id := ap_id r; ap_workspace_id := ap_workspace_id r; ap_run_id := ap_run_id r;
     ap_agent_version_id := ap_agent_version_id r;
     ap_logical_action_id := ap_logical_action_id r;
     ap_tool_revision_id := ap_tool_revision_id r; ap_tool_identity := ap_tool_identity r;
     ap_canonical_arguments := ap_canonical_arguments r;
     ap_canonical_args_hash := ap_canonical_args_hash r; ap_decision_status := v;
     ap_execution_status := ap_execution_status r; ap_requested_by := ap_requested_by r;
     ap_decided_by := ap_decided_by r; ap_decided_at := ap_decided_at r;
     ap_claimed_at := ap_claimed_at r; ap_executed_at := ap_executed_at r;
     ap_expires_at := ap_expires_at r; ap_failure_code := ap_failure_code r;
     ap_safe_failure_message := ap_safe_failure_message r; ap_safe_result := ap_safe_result r;
     ap_execution_attempt_count := ap_execution_attempt_count r;
     ap_idempotency_key := ap_idempotency_key r; ap_created_at := ap_created_at r |}.
Definition set_ap_execution_status (v : ApprovalExecutionStatus.t) (r : Approval) : Approval :=
  {| ap_id := ap_id r; ap_workspace_id := ap_workspace_id r; ap_run_id := ap_run_id r;
     ap_agent_version_id := ap_agent_version_id r;
     ap_logical_action_id := ap_logical_action_id r;
     ap_tool_revision_id := ap_tool_revision_id r; ap_tool_identity := ap_tool_identity r;
     ap_canonical_arguments := ap_canonical_arguments r;
     ap_canonical_args_hash := ap_canonical_args_hash r;
     ap_decision_status := ap_decision_status r; ap_execution_status := v;
     ap_requested_by := ap_requested_by r; ap_decided_by := ap_decided_by r;
     ap_decided_at := ap_decided_at r; ap_claimed_at := ap_claimed_at r;
     ap_executed_at := ap_executed_at r; ap_expires_at := ap_expires_at r;
     ap_failure_code := ap_failure_code r;
     ap_safe_failure_message := ap_safe_failure_message r; ap_safe_result := ap_safe_result r;
     ap_execution_attempt_count := ap_execution_attempt_count r;
     ap_idempotency_key := ap_idempotency_key r; ap_created_at := ap_created_at r |}.
Definition set_ap_decided_by (v : option uuid) (r : Approval) : Approval :=
  {| ap_id := ap_id r; ap_workspace_id := ap_workspace_id r; ap_run_id := ap_run_id r;
     ap_agent_version_id := ap_agent_version_id r;
     ap_logical_action_id := ap_logical_action_id r;
     ap_tool_revision_id := ap_tool_revision_id r; ap_tool_identity := ap_tool_identity r;
     ap_canonical_arguments := ap_canonical_arguments r;
     ap_canonical_args_hash := ap_canonical_args_hash r;
     ap_decision_status := ap_decision_status r; ap_execution_status := ap_execution_status r;
     ap_requested_by := ap_requested_by r; ap_decided_by := v;
     ap_decided_at := ap_decided_at r; ap_claimed_at := ap_claimed_at r;
     ap_executed_at := ap_executed_at r; ap_expires_at := ap_expires_at r;
     ap_failure_code := ap_failure_code r;
     ap_safe_failure_message := ap_safe_failure_message r; ap_safe_result := ap_safe_result r;
     ap_execution_attempt_count := ap_execution_attempt_count r;
     ap_idempotency_key := ap_idempotency_key r; ap_created_at := ap_created_at r |}.
Definition set_ap_decided_at (v : option datetime) (r : Approval) : Approval :=
  {| ap_id := ap_id r; ap_workspace_id := ap_workspace_id r; ap_run_id := ap_run_id r;
     ap_agent_version_id := ap_agent_version_id r;
     ap_logical_action_id := ap_logical_action_id r;
     ap_tool_revision_id := ap_tool_revision_id r; ap_tool_identity := ap_tool_identity r;
     ap_canonical_arguments := ap_canonical_arguments r;
     ap_canonical_args_hash := ap_canonical_args_hash r;
     ap_decision_status := ap_decision_status r; ap_execution_status := ap_execution_status r;
     ap_requested_by := ap_requested_by r; ap_decided_by := ap_decided_by r;
     ap_decided_at := v; ap_claimed_at := ap_claimed_at r; ap_executed_at := ap_executed_at r;
     ap_expires_at := ap_expires_at r; ap_failure_code := ap_failure_code r;
     ap_safe_failure_message := ap_safe_failure_message r; ap_safe_result := ap_safe_result r;
     ap_execution_attempt_count := ap_execution_attempt_count r;
     ap_idempotency_key := ap_idempotency_key r; ap_created_at := ap_created_at r |}.
Definition set_ap_claimed_at (v : option datetime) (r : Approval) : Approval :=
  {| ap_id := ap_id r; ap_workspace_id := ap_workspace_id r; ap_run_id := ap_run_id r;
     ap_agent_version_id := ap_agent_version_id r;
     ap_logical_action_id := ap_logical_action_id r;
     ap_tool_revision_id := ap_tool_revision_id r; ap_tool_identity := ap_tool_identity r;
     ap_canonical_arguments := ap_canonical_arguments r;
     ap_canonical_args_hash := ap_canonical_args_hash r;
     ap_decision_status := ap_decision_status r; ap_execution_status := ap_execution_status r;
     ap_requested_by := ap_requested_by r; ap_decided_by := ap_decided_by r;
     ap_decided_at := ap_decided_at r; ap_claimed_at := v; ap_executed_at := ap_executed_at r;
     ap_expires_at := ap_expires_at r; ap_failure_code := ap_failure_code r;
     ap_safe_failure_message := ap_safe_failure_message r; ap_safe_result := ap_safe_result r;
     ap_execution_attempt_count := ap_execution_attempt_count r;
     ap_idempotency_key := ap_idempotency_key r; ap_created_at := ap_created_at r |}.
Definition set_ap_executed_at (v : option datetime) (r : Approval) : Approval :=
  {| ap_id := ap_id r; ap_workspace_id := ap_workspace_id r; ap_run_id := ap_run_id r;
     ap_agent_version_id := ap_agent_version_id r;
     ap_logical_action_id := ap_logical_action_id r;
     ap_tool_revision_id := ap_tool_revision_id r; ap_tool_identity := ap_tool_identity r;
     ap_canonical_arguments := ap_canonical_arguments r;
     ap_canonical_args_hash := ap_canonical_args_hash r;
     ap_decision_status := ap_decision_status r; ap_execution_status := ap_execution_status r;
     ap_requested_by := ap_requested_by r; ap_decided_by := ap_decided_by r;
     ap_decided_at := ap_decided_at r; ap_claimed_at := ap_claimed_at r; ap_executed_at := v;
     ap_expires_at := ap_expires_at r; ap_failure_code := ap_failure_code r;
     ap_safe_failure_message := ap_safe_failure_message r; ap_safe_result := ap_safe_result r;
     ap_execution_attempt_count := ap_execution_attempt_count r;
     ap_idempotency_key := ap_idempotency_key r; ap_created_at := ap_created_at r |}.
Definition set_ap_failure_code (v : option string) (r : Approval) : Approval :=
  {| ap_id := ap_id r; ap_workspace_id := ap_workspace_id r; ap_run_id := ap_run_id r;
     ap_agent_version_id := ap_agent_version_id r;
     ap_logical_action_id := ap_logical_action_id r;
     ap_tool_revision_id := ap_tool_revision_id r; ap_tool_identity := ap_tool_identity r;
     ap_canonical_arguments := ap_canonical_arguments r;
     ap_canonical_args_hash := ap_canonical_args_hash r;
     ap_decision_status := ap_decision_status r; ap_execution_status := ap_execution_status r;
     ap_requested_by := ap_requested_by r; ap_decided_by := ap_decided_by r;
     ap_decided_at := ap_decided_at r; ap_claimed_at := ap_claimed_at r;
     ap_executed_at := ap_executed_at r; ap_expires_at := ap_expires_at r;
     ap_failure_code := v; ap_safe_failure_message := ap_safe_failure_message r;
     ap_safe_result := ap_safe_result r;
     ap_execution_attempt_count := ap_execution_attempt_count r;
     ap_idempotency_key := ap_idempotency_key r; ap_created_at := ap_created_at r |}.
Definition set_ap_safe_failure_message (v : option string) (r : Approval) : Approval :=
  {| ap_id := ap_id r; ap_workspace_id := ap_workspace_id r; ap_run_id := ap_run_id r;
     ap_agent_version_id := ap_agent_version_id r;
     ap_logical_action_id := ap_logical_action_id r;
     ap_tool_revision_id := ap_tool_revision_id r; ap_tool_identity := ap_tool_identity r;
     ap_canonical_arguments := ap_canonical_arguments r;
     ap_canonical_args_hash := ap_canonical_args_hash r;
     ap_decision_status := ap_decision_status r; ap_execution_status := ap_execution_status r;
     ap_requested_by := ap_requested_by r; ap_decided_by := ap_decided_by r;
     ap_decided_at := ap_decided_at r; ap_claimed_at := ap_claimed_at r;
     ap_executed_at := ap_executed_at r; ap_expires_at := ap_expires_at r;
     ap_failure_code := ap_failure_code r; ap_safe_failure_message := v;
     ap_safe_result := ap_safe_result r;
     ap_execution_attempt_count := ap_execution_attempt_count r;
     ap_idempotency_key := ap_idempotency_key r; ap_created_at := ap_created_at r |}.
Definition set_ap_safe_result (v : option json) (r : Approval) : Approval :=
  {| ap_id := ap_id r; ap_workspace_id := ap_workspace_id r; ap_run_id := ap_run_id r;
     ap_agent_version_id := ap_agent_version_id r;
     ap_logical_action_id := ap_logical_action_id r;
     ap_tool_revision_id := ap_tool_revision_id r; ap_tool_identity := ap_tool_identity r;
     ap_canonical_arguments := ap_canonical_arguments r;
     ap_canonical_args_hash := ap_canonical_args_hash r;
     ap_decision_status := ap_decision_status r; ap_execution_status := ap_execution_status r;
     ap_requested_by := ap_requested_by r; ap_decided_by := ap_decided_by r;
     ap_decided_at := ap_decided_at r; ap_claimed_at := ap_claimed_at r;
     ap_executed_at := ap_executed_at r; ap_expires_at := ap_expires_at r;
     ap_failure_code := ap_failure_code r;
     ap_safe_failure_message := ap_safe_failure_message r; ap_safe_result := v;
     ap_execution_attempt_count := ap_execution_attempt_count r;
     ap_idempotency_key := ap_idempotency_key r; ap_created_at := ap_created_at r |}.
Definition set_ap_execution_attempt_count (v : Z) (r : Approval) : Approval :=
  {| ap_id := ap_id r; ap_workspace_id := ap_workspace_id r; ap_run_id := ap_run_id r;
     ap_agent_version_id := ap_agent_version_id r;
     ap_logical_action_id := ap_logical_action_id r;
     ap_tool_revision_id := ap_tool_revision_id r; ap_tool_identity := ap_tool_identity r;
     ap_canonical_arguments := ap_canonical_arguments r;
     ap_canonical_args_hash := ap_canonical_args_hash r;
     ap_decision_status := ap_decision_status r; ap_execution_status := ap_execution_status r;
     ap_requested_by := ap_requested_by r; ap_decided_by := ap_decided_by r;
     ap_decided_at := ap_decided_at r; ap_claimed_at := ap_claimed_at r;
     ap_executed_at := ap_executed_at r; ap_expires_at := ap_expires_at r;
     ap_failure_code := ap_failure_code r;
     ap_safe_failure_message := ap_safe_failure_message r; ap_safe_result := ap_safe_result r;
     ap_execution_attempt_count := v; ap_idempotency_key := ap_idempotency_key r;
     ap_created_at := ap_created_at r |}.

(** [run_steps]: the readable timeline of a run. *)
Record RunStep := {
  step_workspace_id : uuid;
  step_agent_run_id : uuid;
  step_sequence_number : Z;
  step_kind : string;
  step_status : string;
  step_safe_metadata : json
}.

(** [audit_logs] *)
Record AuditLog := {
  audit_actor_user_id : option uuid;
  audit_organization_id : option uuid;
  audit_workspace_id : option uuid;
  audit_action : string;
  audit_resource_type : string;
  audit_resource_id : option pystr;
  audit_request_id : option pystr;
  audit_safe_metadata : json
}.

(** [agent_run_events]: the stored stream. *)
Record AgentRunEvent := {
  ev_id : uuid;
  ev_workspace_id : uuid;
  ev_agent_run_id : uuid;
  ev_sequence : Z;
  ev_event_id : pystr;
  ev_event_type : string;
  ev_request_id : pystr;
  ev_step_id : option pystr;
  ev_payload : json;
  ev_occurred_at : datetime
}.

(** [customers] and [tickets]: the built-in action's business tables. *)
Record Customer := {
  customer_id : uuid;
  customer_workspace_id : uuid;
  customer_ref : pystr
}.

Record Ticket := {
  ticket_id : uuid;
  ticket_workspace_id : uuid;
  ticket_customer_id : uuid;
  ticket_ref : pystr;
  ticket_subject : pystr;
  ticket_status : string;
  ticket_idempotency_key : option pystr;
  ticket_metadata_json : json
}.

(** The tables. *)
Record Db := {
  agent_runs : gmap uuid AgentRun;
  approvals : gmap uuid Approval;
  run_steps : list RunStep;
  audit_logs : list AuditLog;
  agent_run_events : list AgentRunEvent;
  customers : list Customer;
  tickets : list Ticket;
  memory_jobs : list (uuid * uuid)
}.

Definition set_agent_runs (v : gmap uuid AgentRun) (d : Db) : Db :=
  {| agent_runs := v; approvals := approvals d; run_steps := run_steps d;
     audit_logs := audit_logs d; agent_run_events := agent_run_events d;
     customers := customers d; tickets := tickets d; memory_jobs := memory_jobs d |}.
Definition set_approvals (v : gmap uuid Approval) (d : Db) : Db :=
  {| agent_runs := agent_runs d; approvals := v; run_steps := run_steps d;
     audit_logs := audit_logs d; agent_run_events := agent_run_events d;
     customers := customers d; tickets := tickets d; memory_jobs := memory_jobs d |}.
Definition set_run_steps (v : list RunStep) (d : Db) : Db :=
  {| agent_runs := agent_runs d; approvals := approvals d; run_steps := v;
     audit_logs := audit_logs d; agent_run_events := agent_run_events d;
     customers := customers d; tickets := tickets d; memory_jobs := memory_jobs d |}.
Definition set_audit_logs (v : list AuditLog) (d : Db) : Db :=
  {| agent_runs := agent_runs d; approvals := approvals d; run_steps := run_steps d;
     audit_logs := v; agent_run_events := agent_run_events d; customers := customers d;
     tickets := tickets d; memory_jobs := memory_jobs d |}.
Definition set_agent_run_events (v : list AgentRunEvent) (d : Db) : Db :=
  {| agent_runs := agent_runs d; approvals := approvals d; run_steps := run_steps d;
     audit_logs := audit_logs d; agent_run_events := v; customers := customers d;
     tickets := tickets d; memory_jobs := memory_jobs d |}.
Definition set_tickets (v : list Ticket) (d : Db) : Db :=
  {| agent_runs := agent_runs d; approvals := approvals d; run_steps := run_steps d;
     audit_logs := audit_logs d; agent_run_events := agent_run_events d;
     customers := customers d; tickets := v; memory_jobs := memory_jobs d |}.
Definition set_memory_jobs (v : list (uuid * uuid)) (d : Db) : Db :=
  {| agent_runs := agent_runs d; approvals := approvals d; run_steps := run_steps d;
     audit_logs := audit_logs d; agent_run_events := agent_run_events d;
     customers := customers d; tickets := tickets d; memory_jobs := v |}.
Definition no_tables : Db :=
  {| agent_runs := ∅; approvals := ∅; run_steps := []; audit_logs := [];
     agent_run_events := []; customers := []; tickets := []; memory_jobs := [] |}.

(** ** Sessions *)

Abbreviation DB := (M Db Exn) (only parsing).

(** [async with session_factory() as session: ... await session.commit()]: an
    exception leaves nothing behind. *)
Definition session_scope {A} (m : M Db Exn A) : M Db Exn A := atomically m.

(** [run.field = value; ... flush]: write a row back under its primary key. *)
Definition save_run (r : AgentRun) : M Db Exn unit :=
  modify (λ d, set_agent_runs (<[run_id r := r]> (agent_runs d)) d).
Definition save_approval (a : Approval) : M Db Exn unit :=
  modify (λ d, set_approvals (<[ap_id a := a]> (approvals d)) d).

(** [select(AgentRun).where(workspace_id == w, id == i)] *)
Definition find_run (w i : uuid) (d : Db) : option AgentRun :=
  r ← agent_runs d !! i; if (run_workspace_id r =? w)%N then Some r else None.
(** [select(Approval).where(workspace_id == w, id == i)] *)
Definition find_approval (w i : uuid) (d : Db) : option Approval :=
  a ← approvals d !! i; if (ap_workspace_id a =? w)%N then Some a else None.
(** [select(Approval).where(workspace_id == w, run_id == r)], in no
    particular order. *)
Definition approvals_of_run (w r : uuid) (d : Db) : list Approval :=
  filter (λ a, ap_workspace_id a = w ∧ ap_run_id a = r) (map_to_list (approvals d)).*2.

(** [update(AgentRun).where(workspace_id == w, id == i, p).values(f)]: the
    number of rows changed is 0 or 1. *)
Definition update_run (w i : uuid) (p : AgentRun → bool) (f : AgentRun → AgentRun) :
  M Db Exn Z :=
  d ← get;
  match find_run w i d with
  | Some r => if p r then save_run (f r);; mret 1%Z else mret 0%Z
  | None => mret 0%Z
  end.

(** ** The tables agree with their keys *)

Definition keys_ok (d : Db) : Prop :=
  (∀ i r, agent_runs d !! i = Some r → run_id r = i) ∧
  (∀ i a, approvals d !! i = Some a → ap_id a = i).

Lemma find_run_Some w i d r :
  find_run w i d = Some r ↔ agent_runs d !! i = Some r ∧ run_workspace_id r = w.
Proof.
  unfold find_run. destruct (agent_runs d !! i) as [r'|]; cbn; [|naive_solver].
  destruct (N.eqb_spec (run_workspace_id r') w); naive_solver.
Qed.

Lemma find_approval_Some w i d a :
  find_approval w i d = Some a ↔ approvals d !! i = Some a ∧ ap_workspace_id a = w.
Proof.
  unfold find_approval. destruct (approvals d !! i) as [a'|]; cbn; [|naive_solver].
  destruct (N.eqb_spec (ap_workspace_id a') w); naive_solver.
Qed.

Lemma elem_of_approvals_of_run w r d a :
  keys_ok d →
  a ∈ approvals_of_run w r d ↔
  approvals d !! ap_id a = Some a ∧ ap_workspace_id a = w ∧ ap_run_id a = r.
Proof.
  intros [_ Hk]. unfold approvals_of_run. rewrite list_elem_of_filter, list_elem_of_fmap.
  split.
  - intros [[? ?] ([i a'] & -> & Hin)]. apply elem_of_map_to_list in Hin. cbn in *.
    by rewrite (Hk _ _ Hin).
  - intros (Hl & ? & ?). split; [done|]. exists (ap_id a, a).
    by rewrite elem_of_map_to_list.
Qed.
