(* ===== verification/Rbac.v ===== *)
(** * Roles, permissions and the execution context

    Model of [packages/control_plane/rbac.py] and of the context record of
    [packages/core/execution_context/models.py] that every service call
    receives.  Permission names are the source's strings. *)

From stdpp Require Import base gmap list strings.
From Stdlib Require Import ZArith NArith Lia.
From S2P Require Import Prelude.
From S2P Require Import Json.
From S2P Require Import RunStore.

Local Open Scope string_scope.

(** [OrganizationRole] and [WorkspaceRole] are [StrEnum]s compared with the
    membership columns, so a role is its text. *)
Definition ORGANIZATION_MANAGE := "organization_management".
Definition WORKSPACE_ADMIN := "workspace_administration".
Definition WORKSPACE_READ := "workspace_read".
Definition APPROVE_ACTION := "approve_action".
Definition RUN_ACTION := "run_action".
Definition EVALUATION_READ := "evaluation_read".
Definition EVALUATION_MANAGE := "evaluation_manage".
Definition EVALUATION_RUN := "evaluation_run".
Definition HANDOFF_HANDLE := "handoff_handle".

Definition WORKSPACE_OPERATIONAL_PERMISSIONS : gset string :=
  list_to_set ["agent_create"; "agent_edit"; "agent_run"; "knowledge_create";
    "knowledge_edit"; "knowledge_run"; "tool_create"; "tool_edit"; "tool_run";
    RUN_ACTION; EVALUATION_READ; EVALUATION_MANAGE; EVALUATION_RUN; HANDOFF_HANDLE].
Definition WORKSPACE_ADMIN_PERMISSIONS : gset string :=
  {[WORKSPACE_ADMIN]} ∪ WORKSPACE_OPERATIONAL_PERMISSIONS.
Definition ORGANIZATION_ADMIN_PERMISSIONS : gset string :=
  list_to_set [ORGANIZATION_MANAGE; WORKSPACE_READ; APPROVE_ACTION]
  ∪ WORKSPACE_ADMIN_PERMISSIONS.
Definition DEVELOPER_PERMISSIONS : gset string :=
  {[WORKSPACE_READ]} ∪ WORKSPACE_OPERATIONAL_PERMISSIONS.
Definition VIEWER_PERMISSIONS : gset string := list_to_set [WORKSPACE_READ; EVALUATION_READ].

Definition resolve_permissions (organization_role : string) (workspace_role : option string) :
  gset string :=
  if bool_decide (organization_role ∈ ["OWNER"; "ADMIN"]) then ORGANIZATION_ADMIN_PERMISSIONS
  else if bool_decide (organization_role ≠ "MEMBER") || bool_decide (workspace_role = None)
  then ∅
  else if bool_decide (workspace_role = Some "DEVELOPER") then DEVELOPER_PERMISSIONS
  else if bool_decide (workspace_role = Some "VIEWER") then VIEWER_PERMISSIONS
  else ∅.

Definition has_permission (permissions : gset string) (permission : string) : bool :=
  bool_decide (permission ∈ permissions).

Definition ensure_not_last_owner {S} (owner_count : Z) (current_role : string)
    (new_role : option string) : M S Exn unit :=
  raise_if (bool_decide (current_role = "OWNER") && bool_decide (new_role ≠ Some "OWNER")
            && (owner_count <=? 1)%Z)
    (AgentHubError "LAST_OWNER_PROTECTION"
       "The last organization owner cannot be removed or downgraded." 409).

(** [WorkspaceExecutionContext].  An identifier field holds the [UUID] its text
    denotes, or [None] when [UUID(text)] raises. *)
Record WorkspaceExecutionContext := {
  ctx_request_id : list N;
  ctx_user_id : option N;
  ctx_organization_id : option N;
  ctx_org_role : string;
  ctx_workspace_id : option N;
  ctx_permissions : gset string
}.

Definition AUTHENTICATION_REQUIRED : Exn :=
  AgentHubError "AUTHENTICATION_REQUIRED" "Authentication is required." 401.
Definition FORBIDDEN : Exn := AgentHubError "FORBIDDEN" "You do not have permission." 403.

Definition uuid_or_401 {S} (u : option N) : M S Exn N :=
  match u with Some u => mret u | None => raise AUTHENTICATION_REQUIRED end.

Definition _workspace_uuid {S} (context : WorkspaceExecutionContext) : M S Exn N :=
  uuid_or_401 (ctx_workspace_id context).
Definition _user_uuid {S} (context : WorkspaceExecutionContext) : M S Exn N :=
  uuid_or_401 (ctx_user_id context).
Definition _organization_uuid {S} (context : WorkspaceExecutionContext) : M S Exn N :=
  uuid_or_401 (ctx_organization_id context).

Definition require_permission {S} (context : WorkspaceExecutionContext) (p : string) :
  M S Exn unit :=
  raise_if (negb (has_permission (ctx_permissions context) p)) FORBIDDEN.

#[global] Instance pure_uuid_or_401 {S} u : Pure (uuid_or_401 u : M S Exn N).
Proof. destruct u; apply _. Qed.
#[global] Instance pure_workspace_uuid {S} c : Pure (_workspace_uuid c : M S Exn N).
Proof. apply _. Qed.
#[global] Instance pure_user_uuid {S} c : Pure (_user_uuid c : M S Exn N).
Proof. apply _. Qed.
#[global] Instance pure_organization_uuid {S} c : Pure (_organization_uuid c : M S Exn N).
Proof. apply _. Qed.
#[global] Instance pure_require_permission {S} c p : Pure (require_permission c p : M S Exn unit).
Proof. apply _. Qed.
