(* ===== verification/Approvals.v ===== *)
(** * Approvals: the contract and the service

    Model of [packages/approvals/contracts.py] (argument canonicalisation,
    action identity, the two declared state machines), of [append_audit] of
    [packages/control_plane/audit.py] and of every method of [ApprovalService]
    of [packages/approvals/service.py].

    One [session_scope] is one transaction.  [create_or_get] reads and then
    inserts in the same session without a lock, so other transactions may
    commit in between: [other] is what they did.  Clock readings and [uuid4()]
    values are arguments. *)

From stdpp Require Import base gmap list strings sorting.
From Stdlib Require Import ZArith NArith Lia.
From S2P Require Import Prelude.
From S2P Require Import Json.
From S2P Require Import JsonTheory.
From S2P Require Import RunStore.
From S2P Require Import Rbac.

Abbreviation PENDING := ApprovalDecisionStatus.PENDING.
Abbreviation APPROVED := ApprovalDecisionStatus.APPROVED.
Abbreviation NOT_STARTED := ApprovalExecutionStatus.NOT_STARTED.
Abbreviation CLAIMED := ApprovalExecutionStatus.CLAIMED.
Abbreviation UNKNOWN_OUTCOME := ApprovalExecutionStatus.UNKNOWN_OUTCOME.

(** ** contracts.py *)

(** [jsonschema]: does [check_schema(schema)] and [validate(arguments)] pass? *)
Class SchemaValidator := schema_accepts : json → json → bool.

(** ApprovalTransitionError is [None]. *)
Definition transition_decision (current target : ApprovalDecisionStatus.t) :
  option ApprovalDecisionStatus.t :=
  let allowed :=
    match current with
    | ApprovalDecisionStatus.PENDING =>
        [ApprovalDecisionStatus.APPROVED; ApprovalDecisionStatus.DENIED;
         ApprovalDecisionStatus.EXPIRED; ApprovalDecisionStatus.CANCELLED]
    | _ => []
    end in
  if bool_decide (target ∉ allowed) then None else Some target.

Definition transition_execution (current target : ApprovalExecutionStatus.t) :
  option ApprovalExecutionStatus.t :=
  let allowed :=
    match current with
    | ApprovalExecutionStatus.NOT_STARTED =>
        [ApprovalExecutionStatus.CLAIMED; ApprovalExecutionStatus.FAILED;
         ApprovalExecutionStatus.UNKNOWN_OUTCOME]
    | ApprovalExecutionStatus.CLAIMED =>
        [ApprovalExecutionStatus.SUCCEEDED; ApprovalExecutionStatus.FAILED;
         ApprovalExecutionStatus.UNKNOWN_OUTCOME]
    | _ => []
    end in
  if bool_decide (target ∉ allowed) then None else Some target.

Section Contracts.
Context `{Digests} `{SchemaValidator}.

Definition canonicalize_arguments (arguments input_schema : json) : M Db Exn (json * list N) :=
  match arguments with
  | JObj _ =>
      raise_if (_reject_reserved_keys arguments)
        (ValueError "tool arguments contain reserved internal fields");;
      raise_if (negb (schema_accepts input_schema arguments))
        (ValueError "tool arguments do not match the published input schema");;
      let normalized := sort_json arguments in
      match canonical_json_hash normalized with
      | Some h => mret (normalized, h)
      | None => raise (ValueError "Out of range float values are not JSON compliant")
      end
  | _ => raise (ValueError "tool arguments must be an object")
  end.

Definition ACTION_NAMESPACE : uuid := 0x7f2e2f1e0f1b5df39d8f5a3bbf1b3c31.

Definition action_identity (workspace_id run_id : uuid) (tool_revision_id : option uuid)
    (canonical_args_hash : list N) (proposal_ordinal : Z) : json :=
  JObj [(lit "workspace_id", JStr (uuid_str workspace_id));
        (lit "run_id", JStr (uuid_str run_id));
        (lit "tool_revision_id",
           match tool_revision_id with Some t => JStr (uuid_str t) | None => JNull end);
        (lit "canonical_args_hash", JStr canonical_args_hash);
        (lit "proposal_ordinal", JInt proposal_ordinal)].

Definition compute_logical_action_id (workspace_id run_id : uuid)
    (tool_revision_id : option uuid) (canonical_args_hash : list N) (proposal_ordinal : Z) :
  M Db Exn (list N) :=
  raise_if (proposal_ordinal <? 0)%Z (ValueError "proposal ordinal must be non-negative");;
  match canonical_json_hash
          (action_identity workspace_id run_id tool_revision_id canonical_args_hash
             proposal_ordinal) with
  | Some h => mret (uuid_str (uuid5 ACTION_NAMESPACE h))
  | None => raise (ValueError "surrogates not allowed")
  end.
End Contracts.

(** ** audit.py *)

Definition append_audit (entry : AuditLog) : M Db Exn unit :=
  raise_if (assert_safe_metadata (audit_safe_metadata entry))
    (ValueError "forbidden audit metadata key");;
  modify (λ d, set_audit_logs (audit_logs d ++ [entry]) d).

(** ** service.py *)

Definition APPROVAL_NOT_FOUND : Exn :=
  AgentHubError "APPROVAL_NOT_FOUND" "The approval was not found." 404.
Definition AGENT_RUN_NOT_FOUND : Exn :=
  AgentHubError "AGENT_RUN_NOT_FOUND" "The agent run was not found." 404.

(** [select(Approval).where(workspace_id == w, logical_action_id == l)] *)
Definition find_action (w : uuid) (l : list N) (d : Db) : option Approval :=
  head (filter (λ a, ap_workspace_id a = w ∧ ap_logical_action_id a = l)
          (map_to_list (approvals d)).*2).

(** [INSERT] of an approval: the primary key, the foreign keys ([fks_ok] for
    the tables that are not modelled) and the two unique constraints. *)
Definition insert_approval (fks_ok : bool) (a : Approval) : M Db Exn unit :=
  d ← get;
  let rows := (map_to_list (approvals d)).*2 in
  raise_if (bool_decide (is_Some (approvals d !! ap_id a))) (IntegrityError "approvals_pkey");;
  raise_if (bool_decide (find_run (ap_workspace_id a) (ap_run_id a) d = None))
    (IntegrityError "fk_approvals_run_workspace");;
  raise_if (negb fks_ok) (IntegrityError "fk_approvals");;
  raise_if (bool_decide (Exists (λ b, ap_workspace_id b = ap_workspace_id a ∧
                                      ap_logical_action_id b = ap_logical_action_id a) rows))
    (IntegrityError "uq_approvals_workspace_logical_action");;
  raise_if (bool_decide (Exists (λ b, ap_workspace_id b = ap_workspace_id a ∧
                                      ap_idempotency_key b = ap_idempotency_key a) rows))
    (IntegrityError "uq_approvals_workspace_idempotency");;
  save_approval a.

Definition on_integrity_error {A} (m : M Db Exn A) (h : Exn → M Db Exn A) : M Db Exn A :=
  catch m (λ e, match e with IntegrityError _ => h e | _ => raise e end).

Definition reraise_unless {A} (e : Exn) (o : option A) : M Db Exn A :=
  match o with Some a => mret a | None => raise e end.

Section Service.
Context `{Digests} `{SchemaValidator} (ttl_seconds : Z).

Definition new_approval (new_id workspace_id run_id agent_version_id : uuid)
    (logical_action_id : list N) (tool_revision_id : option uuid) (tool_identity : list N)
    (canonical_arguments : json) (args_hash : list N) (requested_by : uuid)
    (expires_at created_at : datetime) : Approval :=
  {| ap_id := new_id; ap_workspace_id := workspace_id; ap_run_id := run_id;
     ap_agent_version_id := agent_version_id; ap_logical_action_id := logical_action_id;
     ap_tool_revision_id := tool_revision_id; ap_tool_identity := tool_identity;
     ap_canonical_arguments := canonical_arguments; ap_canonical_args_hash := args_hash;
     ap_decision_status := PENDING; ap_execution_status := NOT_STARTED;
     ap_requested_by := requested_by; ap_decided_by := None; ap_decided_at := None;
     ap_claimed_at := None; ap_executed_at := None; ap_expires_at := Some expires_at;
     ap_failure_code := None; ap_safe_failure_message := None; ap_safe_result := None;
     ap_execution_attempt_count := 0; ap_idempotency_key := logical_action_id;
     ap_created_at := created_at |}.

Definition create_or_get (context : WorkspaceExecutionContext)
    (run_id agent_version_id : uuid) (tool_revision_id : option uuid)
    (tool_identity : list N) (arguments input_schema : json) (proposal_ordinal : Z)
    (expires_at : option datetime)
    (new_id : uuid) (now created_at : datetime) (fks_ok : bool) (other : Db → Db) :
  M Db Exn Approval :=
  workspace_id ← _workspace_uuid context;
  requested_by ← _user_uuid context;
  args ← canonicalize_arguments arguments input_schema;
  logical_action_id ←
    compute_logical_action_id workspace_id run_id tool_revision_id args.2 proposal_ordinal;
  let expires_at := default (now + ttl_seconds * 1000000)%Z expires_at in
  d ← get;
  match find_action workspace_id logical_action_id d with
  | Some existing => mret existing
  | None =>
      let approval := new_approval new_id workspace_id run_id agent_version_id
        logical_action_id tool_revision_id tool_identity args.1 args.2 requested_by
        expires_at created_at in
      modify other;;
      on_integrity_error
        (session_scope (insert_approval fks_ok approval);; mret approval)
        (λ e, d ← get;
              reraise_unless e (find_action workspace_id logical_action_id d))
  end.

Definition get_approval (context : WorkspaceExecutionContext) (approval_id : uuid) :
  M Db Exn Approval :=
  require_permission context WORKSPACE_READ;;
  w ← _workspace_uuid context;
  d ← get;
  reraise_unless APPROVAL_NOT_FOUND (find_approval w approval_id d).

(** [order_by(created_at, id)] and its descending version. *)
Definition row_le (a b : Approval) : Prop :=
  (ap_created_at a < ap_created_at b)%Z ∨
  ap_created_at a = ap_created_at b ∧ (ap_id a <= ap_id b)%N.
#[global] Instance row_le_dec : RelDecision row_le.
Proof. intros a b. unfold row_le. apply _. Defined.
Definition row_ge (a b : Approval) : Prop := row_le b a.
#[global] Instance row_ge_dec : RelDecision row_ge := λ a b, decide (row_le b a).

Definition list_approvals (context : WorkspaceExecutionContext) : M Db Exn (list Approval) :=
  require_permission context WORKSPACE_READ;;
  w ← _workspace_uuid context;
  d ← get;
  mret (merge_sort row_le
          (filter (λ a, ap_workspace_id a = w) (map_to_list (approvals d)).*2)).

(** [filters] of the inbox listing. *)
Definition page_filter (w : uuid) (decision_filter : option string) (a : Approval) : bool :=
  (ap_workspace_id a =? w)%N &&
  (if bool_decide (decision_filter = Some "PENDING"%string)
   then bool_decide (ap_decision_status a = PENDING)
   else if bool_decide (decision_filter = Some "DECIDED"%string)
   then bool_decide (ap_decision_status a ∈
          [ApprovalDecisionStatus.APPROVED; ApprovalDecisionStatus.DENIED;
           ApprovalDecisionStatus.EXPIRED; ApprovalDecisionStatus.CANCELLED])
   else true).

Definition list_page (context : WorkspaceExecutionContext) (decision_filter : option string)
    (limit offset : nat) : M Db Exn (list Approval * Z) :=
  require_permission context WORKSPACE_READ;;
  w ← _workspace_uuid context;
  d ← get;
  let rows := filter (λ a, page_filter w decision_filter a = true)
                (map_to_list (approvals d)).*2 in
  mret (take limit (drop offset (merge_sort row_ge rows)), Z.of_nat (length rows)).

Definition list_for_run (context : WorkspaceExecutionContext) (run_id : uuid) :
  M Db Exn (list Approval) :=
  require_permission context WORKSPACE_READ;;
  w ← _workspace_uuid context;
  d ← get;
  raise_if (bool_decide (find_run w run_id d = None)) AGENT_RUN_NOT_FOUND;;
  mret (merge_sort row_le (approvals_of_run w run_id d)).

Definition set_resume_pending (w run_id : uuid) : M Db Exn Z :=
  update_run w run_id (λ _, true) (set_run_resume_pending true).

Definition decision_metadata (a : Approval) (decision : ApprovalDecisionStatus.t)
    (reason : option (list N)) : json :=
  let trimmed_reason := py_strip (default [] reason) in
  JObj ([(lit "approval_id", JStr (uuid_str (ap_id a)));
         (lit "logical_action_id", JStr (ap_logical_action_id a));
         (lit "tool_identity", JStr (ap_tool_identity a));
         (lit "decision", JStr (lit (ApprovalDecisionStatus.value decision)))]
        ++ if bool_decide (trimmed_reason = []) then []
           else [(lit "reason", JStr (take 500 trimmed_reason))]).

Definition decide_approval (context : WorkspaceExecutionContext) (approval_id : uuid)
    (decision : ApprovalDecisionStatus.t) (reason : option (list N)) (now : datetime) :
  M Db Exn Approval :=
  raise_if (negb (has_permission (ctx_permissions context) APPROVE_ACTION))
    (AgentHubError "FORBIDDEN" "You do not have permission to decide approvals." 403);;
  raise_if (bool_decide (decision ∉ [ApprovalDecisionStatus.APPROVED;
                                     ApprovalDecisionStatus.DENIED]))
    (AgentHubError "INVALID_APPROVAL_DECISION" "The approval decision is invalid." 422);;
  workspace_id ← _workspace_uuid context;
  user_id ← _user_uuid context;
  session_scope (
    d ← get;
    approval ← reraise_unless APPROVAL_NOT_FOUND (find_approval workspace_id approval_id d);
    if bool_decide (ap_decision_status approval ≠ PENDING) then mret approval
    else if match ap_expires_at approval with Some e => (e <=? now)%Z | None => false end then
      let approval := set_ap_decided_at (Some now)
        (set_ap_decision_status ApprovalDecisionStatus.EXPIRED approval) in
      save_approval approval;;
      set_resume_pending workspace_id (ap_run_id approval);;
      mret approval
    else
      raise_if (bool_decide (decision = APPROVED) && (ap_requested_by approval =? user_id)%N
                && bool_decide (ctx_org_role context ∉ ["OWNER"; "ADMIN"]%string))
        (AgentHubError "SELF_APPROVAL_FORBIDDEN" "You cannot approve your own action." 403);;
      let approval := set_ap_decided_at (Some now) (set_ap_decided_by (Some user_id)
        (set_ap_decision_status decision approval)) in
      save_approval approval;;
      set_resume_pending workspace_id (ap_run_id approval);;
      organization_id ← _organization_uuid context;
      append_audit
        {| audit_actor_user_id := Some user_id; audit_organization_id := Some organization_id;
           audit_workspace_id := Some workspace_id; audit_action := "approval.decide";
           audit_resource_type := "approval";
           audit_resource_id := Some (uuid_str (ap_id approval));
           audit_request_id := Some (ctx_request_id context);
           audit_safe_metadata := decision_metadata approval decision reason |};;
      mret approval).

Definition claim_execution (context : WorkspaceExecutionContext) (approval_id : uuid)
    (now : datetime) : M Db Exn (option Approval) :=
  workspace_id ← _workspace_uuid context;
  session_scope (
    d ← get;
    match find_approval workspace_id approval_id d with
    | Some a =>
        if bool_decide (ap_decision_status a = APPROVED)
           && bool_decide (ap_execution_status a = NOT_STARTED) then
          let a := set_ap_execution_attempt_count (ap_execution_attempt_count a + 1)
            (set_ap_claimed_at (Some now) (set_ap_execution_status CLAIMED a)) in
          save_approval a;; mret (Some a)
        else mret None
    | None => mret None
    end).

Definition terminal_execution (s : ApprovalExecutionStatus.t) : bool :=
  bool_decide (s ∈ [ApprovalExecutionStatus.SUCCEEDED; ApprovalExecutionStatus.FAILED;
                    ApprovalExecutionStatus.UNKNOWN_OUTCOME]).

Definition complete_execution (context : WorkspaceExecutionContext) (approval_id : uuid)
    (status : ApprovalExecutionStatus.t) (safe_result : option json)
    (failure_code safe_failure_message : option string) (now : datetime) : M Db Exn Approval :=
  raise_if (negb (terminal_execution status))
    (AgentHubError "INVALID_EXECUTION_STATUS" "The execution result is invalid." 422);;
  w ← _workspace_uuid context;
  session_scope (
    d ← get;
    approval ← reraise_unless APPROVAL_NOT_FOUND (find_approval w approval_id d);
    if terminal_execution (ap_execution_status approval) then mret approval
    else
      let approval := set_ap_executed_at (Some now)
        (set_ap_safe_failure_message safe_failure_message
        (set_ap_failure_code failure_code
        (set_ap_safe_result safe_result (set_ap_execution_status status approval)))) in
      save_approval approval;; mret approval).

Definition cancelled_by (w run_id user_id : uuid) (now : datetime) (a : Approval) : Approval :=
  if (ap_workspace_id a =? w)%N && (ap_run_id a =? run_id)%N
     && bool_decide (ap_decision_status a = PENDING)
  then set_ap_decided_at (Some now) (set_ap_decided_by (Some user_id)
         (set_ap_decision_status ApprovalDecisionStatus.CANCELLED a))
  else a.

Definition cancel_pending_for_run (context : WorkspaceExecutionContext) (run_id : uuid)
    (now : datetime) : M Db Exn Z :=
  user_id ← _user_uuid context;
  w ← _workspace_uuid context;
  session_scope (
    d ← get;
    let hit := filter (λ a, ap_decision_status a = PENDING) (approvals_of_run w run_id d) in
    put (set_approvals (cancelled_by w run_id user_id now <$> approvals d) d);;
    mret (Z.of_nat (length hit))).
End Service.

(** ** Cancellation by the interactive evaluations

    [_cancel_pending_approvals] of [packages/evaluation/interactive_lifecycle.py]:
    one [UPDATE] of the approvals of a set of runs, inside the transaction of
    its caller. *)

Definition withdrawn_by (w : uuid) (run_ids : list uuid) (now : datetime) (a : Approval) :
  Approval :=
  if (ap_workspace_id a =? w)%N && bool_decide (ap_run_id a ∈ run_ids)
     && bool_decide (ap_decision_status a = PENDING)
     && bool_decide (ap_execution_status a = NOT_STARTED)
  then set_ap_decided_at (Some now) (set_ap_decision_status ApprovalDecisionStatus.CANCELLED a)
  else a.

Definition _cancel_pending_approvals (w : uuid) (run_ids : list uuid) (now : datetime) :
  M Db Exn unit :=
  match run_ids with
  | [] => mret tt
  | _ => modify (λ d, set_approvals (withdrawn_by w run_ids now <$> approvals d) d)
  end.
