(* ===== verification/ApprovalsTheory.v ===== *)
(** * How approvals evolve

    [ap_le] is the order every transaction moves an approval along: identity
    and arguments never change, a decision is final, an outcome is final, and a
    row leaves [NOT_STARTED] for [CLAIMED] only once, approved.  [evolves]
    lifts it to the tables; each service operation is shown to respect it. *)

From stdpp Require Import base gmap list strings sorting.
From Stdlib Require Import ZArith NArith Lia.
From S2P Require Import Prelude.
From S2P Require Import Json.
From S2P Require Import JsonTheory.
From S2P Require Import RunStore.
From S2P Require Import Rbac.
From S2P Require Import Approvals.

Local Open Scope Z_scope.

(** ** The order on one approval *)

(** The columns no operation writes after the insert. *)
Definition ap_static (a : Approval) :=
  (ap_id a, ap_workspace_id a, ap_run_id a, ap_agent_version_id a,
   (ap_logical_action_id a, ap_tool_revision_id a, ap_tool_identity a,
    ap_canonical_arguments a, ap_canonical_args_hash a),
   (ap_requested_by a, ap_expires_at a, ap_idempotency_key a, ap_created_at a)).
Definition ap_decision (a : Approval) := (ap_decision_status a, ap_decided_by a, ap_decided_at a).
Definition ap_outcome (a : Approval) :=
  (ap_execution_status a, ap_failure_code a, ap_safe_failure_message a,
   (ap_safe_result a, ap_executed_at a, ap_claimed_at a)).

Record ap_le (a a' : Approval) : Prop := {
  le_static : ap_static a' = ap_static a;
  le_decision : ap_decision_status a ≠ PENDING → ap_decision a' = ap_decision a;
  le_outcome : terminal_execution (ap_execution_status a) = true → ap_outcome a' = ap_outcome a;
  le_claim : ap_execution_status a' = CLAIMED →
    ap_execution_status a = CLAIMED ∨ ap_decision_status a' = APPROVED;
  le_started : ap_execution_status a' = NOT_STARTED → ap_execution_status a = NOT_STARTED;
  le_count : ap_execution_attempt_count a' = ap_execution_attempt_count a ∨
    (ap_execution_status a = NOT_STARTED ∧ ap_execution_status a' ≠ NOT_STARTED ∧
     ap_execution_attempt_count a' = ap_execution_attempt_count a + 1);
  le_count_claim : ap_execution_status a = NOT_STARTED → ap_execution_status a' = CLAIMED →
    ap_execution_attempt_count a' = ap_execution_attempt_count a + 1
}.

Lemma terminal_cases s :
  terminal_execution s = true ∨ s = NOT_STARTED ∨ s = CLAIMED.
Proof. destruct s; auto; by left. Qed.

#[global] Instance ap_le_refl : Reflexive ap_le.
Proof. intros a. split; auto. intros H1 H2. congruence. Qed.

#[global] Instance ap_le_trans : Transitive ap_le.
Proof.
  intros a b c [S1 D1 O1 C1 T1 N1 K1] [S2 D2 O2 C2 T2 N2 K2]. split.
  - congruence.
  - intros H. rewrite D2; [auto|]. intros E. specialize (D1 H).
    injection D1. congruence.
  - intros H. rewrite O2; [auto|]. specialize (O1 H). injection O1 as E _. by rewrite E.
  - intros H. destruct (C2 H) as [H'|H']; [|auto]. destruct (C1 H') as [|Hd]; [auto|].
    right. assert (ap_decision c = ap_decision b) as Hdd by (apply D2; by rewrite Hd).
    injection Hdd. congruence.
  - auto.
  - destruct N1 as [N1|(E1 & E1' & N1)], N2 as [N2|(E2 & E2' & N2)].
    + left. congruence.
    + right. split_and!; auto. congruence.
    + right. split_and!; auto. congruence.
    + congruence.
  - intros Ha Hc. destruct (terminal_cases (ap_execution_status b)) as [H|[H|H]].
    + specialize (O2 H). injection O2 as E _. rewrite <- E, Hc in H. done.
    + rewrite (K2 H Hc). destruct N1 as [->|(_ & ? & _)]; congruence.
    + rewrite <- (K1 Ha H). destruct N2 as [|(? & _)]; congruence.
Qed.

(** A row as [create_or_get] inserts it. *)
Record ap_fresh (a : Approval) : Prop := {
  fresh_decision : ap_decision a = (PENDING, None, None);
  fresh_execution : ap_execution_status a = NOT_STARTED;
  fresh_count : ap_execution_attempt_count a = 0;
  fresh_key : ap_idempotency_key a = ap_logical_action_id a
}.

(** The invariant of every row. *)
Record ap_inv (a : Approval) : Prop := {
  inv_not_started : ap_execution_status a = NOT_STARTED → ap_execution_attempt_count a = 0;
  inv_attempts : 0 <= ap_execution_attempt_count a <= 1;
  inv_claimed : ap_execution_status a = CLAIMED →
    ap_decision_status a = APPROVED ∧ ap_execution_attempt_count a = 1;
  inv_key : ap_idempotency_key a = ap_logical_action_id a
}.

Lemma fresh_inv a : ap_fresh a → ap_inv a.
Proof. intros [D E C K]. split; [auto | lia | congruence | done]. Qed.

Lemma ap_le_inv a b : ap_le a b → ap_inv a → ap_inv b.
Proof.
  intros [S D O C T N K] [I1 I2 I3 I4]. split.
  - intros H. rewrite <- (I1 (T H)). destruct N as [|(_ & ? & _)]; [done | congruence].
  - destruct N as [->|(H & _ & ->)]; [done|]. rewrite (I1 H). lia.
  - intros H. destruct (terminal_cases (ap_execution_status a)) as [Ha|[Ha|Ha]].
    + specialize (O Ha). injection O as E _. rewrite <- E, H in Ha. done.
    + destruct (C H) as [?|?]; [congruence|]. split; [done|]. by rewrite (K Ha H), (I1 Ha).
    + destruct (I3 Ha) as [HD HN]. split.
      * assert (ap_decision b = ap_decision a) as Hdd by (apply D; by rewrite HD).
        injection Hdd. congruence.
      * destruct N as [->|(? & _)]; congruence.
  - unfold ap_static in S. congruence.
Qed.

Lemma ap_le_id a b : ap_le a b → ap_id b = ap_id a.
Proof. intros [Hs _ _ _ _ _ _]. by injection Hs. Qed.

(** The three ways an approval moves. *)
Lemma ap_le_decide a dec by_ at_ :
  ap_decision_status a = PENDING →
  ap_le a (set_ap_decided_at at_ (set_ap_decided_by by_ (set_ap_decision_status dec a))).
Proof. intros H. split; cbn; auto; congruence. Qed.

Lemma ap_le_expire a at_ :
  ap_decision_status a = PENDING →
  ap_le a (set_ap_decided_at at_ (set_ap_decision_status ApprovalDecisionStatus.EXPIRED a)).
Proof. exact (ap_le_decide a ApprovalDecisionStatus.EXPIRED (ap_decided_by a) at_). Qed.

Lemma ap_le_claim a now :
  ap_decision_status a = APPROVED → ap_execution_status a = NOT_STARTED →
  ap_le a (set_ap_execution_attempt_count (ap_execution_attempt_count a + 1)
             (set_ap_claimed_at (Some now) (set_ap_execution_status CLAIMED a))).
Proof. intros D E. split; cbn; auto; try congruence. by rewrite E. Qed.

Lemma ap_le_complete a s r f m t :
  terminal_execution (ap_execution_status a) = false → terminal_execution s = true →
  ap_le a (set_ap_executed_at t (set_ap_safe_failure_message m (set_ap_failure_code f
             (set_ap_safe_result r (set_ap_execution_status s a))))).
Proof. intros E T. split; cbn; auto; try congruence; destruct s; try done. Qed.

(** [quiet] moves do not approve anything: only a decision may. *)
Definition quiet (a a' : Approval) : Prop :=
  ap_le a a' ∧ (ap_decision_status a' = APPROVED → ap_decision_status a = APPROVED).

(** An order on rows finer than [ap_le]. *)
Class ApOrder (R : relation Approval) : Prop := {
  order_pre :: PreOrder R;
  order_le a b : R a b → ap_le a b
}.
#[global] Instance ap_le_order : ApOrder ap_le.
Proof. split; [split; apply _ | done]. Qed.
#[global] Instance quiet_order : ApOrder quiet.
Proof.
  split; [split|by intros a b []].
  - intros a. by split.
  - intros a b c [H1 H2] [H3 H4]. split; [by etrans | auto].
Qed.

Lemma order_id R `{!ApOrder R} a b : R a b → ap_id b = ap_id a.
Proof. intros H. by apply ap_le_id, order_le. Qed.

(** ** The order on the tables *)

Definition evolves (R : relation Approval) (d d' : Db) : Prop :=
  (∀ i a, approvals d !! i = Some a → ∃ a', approvals d' !! i = Some a' ∧ R a a') ∧
  (∀ i a', approvals d' !! i = Some a' → approvals d !! i = None →
     ∃ a, ap_fresh a ∧ R a a').

(** [m], started in [d], keeps the keys and only moves approvals along [R]. *)
Definition ev_at (R : relation Approval) {A} (d : Db) (m : M Db Exn A) : Prop :=
  keys_ok d → ∀ r d', m d = (r, d') → evolves R d d' ∧ keys_ok d'.

(** In any state: the contract of a transaction. *)
Class Evolving (R : relation Approval) {A} (m : M Db Exn A) : Prop :=
  evolving d : ev_at R d m.

Definition store_ok (d : Db) : Prop :=
  keys_ok d ∧ ∀ i a, approvals d !! i = Some a → ap_inv a.

Section Order.
Context (R : relation Approval) `{!ApOrder R}.

#[global] Instance evolves_refl : Reflexive (evolves R).
Proof using Type*. intros d. split; [intros i a Ha; by exists a | congruence]. Qed.

#[global] Instance evolves_trans : Transitive (evolves R).
Proof using Type*.
  intros d1 d2 d3 [A1 B1] [A2 B2]. split.
  - intros i a H. destruct (A1 _ _ H) as (b & Hb & L1). destruct (A2 _ _ Hb) as (c & Hc & L2).
    exists c. split; [done|]. by etrans.
  - intros i c Hc H. destruct (approvals d2 !! i) as [b|] eqn:Hb; [|eauto].
    destruct (B1 _ _ Hb H) as (a & Fa & La). destruct (A2 _ _ Hb) as (c' & Hc' & L2).
    rewrite Hc in Hc'. injection Hc' as <-. exists a. split; [done|]. by etrans.
Qed.

Lemma evolves_inv d d' : evolves R d d' → store_ok d → keys_ok d' → store_ok d'.
Proof using Type*.
  intros [A B] [_ HI] Hk. split; [done|]. intros i a' H.
  destruct (approvals d !! i) as [a|] eqn:E.
  - destruct (A _ _ E) as (b & Hb & L). rewrite H in Hb. injection Hb as <-.
    eauto using ap_le_inv, order_le.
  - destruct (B _ _ H E) as (a & F & L). eauto using ap_le_inv, fresh_inv, order_le.
Qed.

(** A database change that leaves the approvals alone. *)
Lemma evolves_same d d' : approvals d' = approvals d → evolves R d d'.
Proof using Type*. intros E. split; rewrite E; [intros i a Ha; by exists a | congruence]. Qed.

(** Writing one approval back. *)
Lemma evolves_save d i a a' d' :
  approvals d !! i = Some a → R a a' → approvals d' = <[i := a']> (approvals d) →
  evolves R d d'.
Proof using Type*.
  intros Ha L E. split; rewrite E.
  - intros j b Hb. destruct (decide (i = j)) as [<-|Hne].
    + exists a'. rewrite lookup_insert_eq. split; [done|]. congruence.
    + exists b. by rewrite lookup_insert_ne.
  - intros j b Hb Hn. rewrite lookup_insert_ne in Hb; congruence.
Qed.

Lemma evolves_insert d i a d' :
  approvals d !! i = None → ap_fresh a → approvals d' = <[i := a]> (approvals d) →
  evolves R d d'.
Proof using Type*.
  intros Ha F E. split; rewrite E.
  - intros j b Hb. exists b. by rewrite lookup_insert_ne by congruence.
  - intros j b Hb Hn. destruct (decide (i = j)) as [<-|Hne].
    + rewrite lookup_insert_eq in Hb. injection Hb as <-. by exists a.
    + rewrite lookup_insert_ne in Hb; congruence.
Qed.

(** Rewriting every approval. *)
Lemma evolves_fmap d f d' :
  (∀ i a, approvals d !! i = Some a → R a (f a)) → approvals d' = f <$> approvals d →
  evolves R d d'.
Proof using Type*.
  intros Hf E. split; rewrite E.
  - intros i a Ha. exists (f a). rewrite lookup_fmap, Ha. eauto.
  - intros i a' Ha Hn. by rewrite lookup_fmap, Hn in Ha.
Qed.

(** ** Programs that respect the order *)

Section Rules.
Context {A B : Type}.

Lemma ev_pure d (m : M Db Exn A) : Pure m → ev_at R d m.
Proof using Type*. intros Hp Hk r d' H. apply (pure_state m) in H as ->. split; [done|exact Hk]. Qed.

Lemma ev_bind d (m : M Db Exn A) (f : A → M Db Exn B) :
  ev_at R d m → (∀ a d1, m d = (Return a, d1) → ev_at R d1 (f a)) → ev_at R d (m ≫= f).
Proof using Type*.
  intros Hm Hf Hk r d' H. rewrite bind_run in H.
  destruct (m d) as [[a|e] d1] eqn:E.
  - destruct (Hm Hk _ _ E) as [E1 K1]. destruct (Hf _ _ eq_refl K1 _ _ H) as [E2 K2].
    split; [by etrans | done].
  - injection H as <- <-. exact (Hm Hk _ _ E).
Qed.

Lemma ev_get d (f : Db → M Db Exn B) : ev_at R d (f d) → ev_at R d (get ≫= f).
Proof using Type*. intros Hf Hk r d' H. exact (Hf Hk _ _ H). Qed.

Lemma ev_scope d (m : M Db Exn A) : ev_at R d m → ev_at R d (session_scope m).
Proof using Type*.
  intros Hm Hk r d' H. unfold session_scope, atomically in H.
  destruct (m d) as [[a|e] d1] eqn:E; injection H as <- <-; [exact (Hm Hk _ _ E)|].
  split; [done | exact Hk].
Qed.

Lemma ev_catch d (m : M Db Exn A) h :
  ev_at R d m → (∀ e d1, m d = (Raise e, d1) → ev_at R d1 (h e)) → ev_at R d (catch m h).
Proof using Type*.
  intros Hm Hh Hk r d' H. unfold catch in H.
  destruct (m d) as [[a|e] d1] eqn:E.
  - injection H as <- <-. exact (Hm Hk _ _ E).
  - destruct (Hm Hk _ _ E) as [E1 K1]. destruct (Hh _ _ eq_refl K1 _ _ H) as [E2 K2].
    split; [by etrans | done].
Qed.
End Rules.

Lemma ev_save_run d r : ev_at R d (save_run r).
Proof using Type*.
  intros [K1 K2] res d' [= <- <-]. split; [by apply evolves_same|]. split; [|done].
  intros i r'. cbn. rewrite lookup_insert_Some. intros [[<- <-]|[_ H]]; [done|eauto].
Qed.

Lemma ev_save_approval d a a' :
  approvals d !! ap_id a' = Some a → R a a' → ev_at R d (save_approval a').
Proof using Type*.
  intros Ha L [K1 K2] res d' [= <- <-]. split; [by eapply evolves_save|].
  split; [done|]. intros i b. cbn. rewrite lookup_insert_Some.
  intros [[<- <-]|[_ H]]; [done|eauto].
Qed.

Lemma ev_insert d a :
  approvals d !! ap_id a = None → ap_fresh a → ev_at R d (save_approval a).
Proof using Type*.
  intros Ha F [K1 K2] res d' [= <- <-]. split; [by eapply evolves_insert|].
  split; [done|]. intros i b. cbn. rewrite lookup_insert_Some.
  intros [[<- <-]|[_ H]]; [done|eauto].
Qed.

Lemma ev_modify d f :
  approvals (f d) = approvals d → agent_runs (f d) = agent_runs d →
  ev_at R d (modify f : M Db Exn unit).
Proof using Type*.
  intros E E' [K1 K2] res d' [= <- <-]. split; [by apply evolves_same|].
  split; by rewrite ?E, ?E'.
Qed.

(** Writing back a row that was just read. *)
Lemma ev_save_found d w i a a' :
  find_approval w i d = Some a → R a a' → ev_at R d (save_approval a').
Proof using Type*.
  intros [Ha _]%find_approval_Some L Hk. eapply ev_save_approval; [|done|exact Hk].
  by rewrite (order_id R _ _ L), (proj2 Hk _ _ Ha).
Qed.
End Order.

Lemma evolving_run R {A} (m : M Db Exn A) d r d' :
  m d = (r, d') → keys_ok d → Evolving R m → evolves R d d' ∧ keys_ok d'.
Proof. intros Hr Hk Hm. exact (Hm d Hk r d' Hr). Qed.

(** What respects the finer order respects the coarser one. *)
Lemma evolving_quiet {A} (m : M Db Exn A) : Evolving quiet m → Evolving ap_le m.
Proof.
  intros Hm d Hk r d' H. destruct (Hm d Hk r d' H) as [[H1 H2] Hk']. split; [|done]. split.
  - intros i a Ha. destruct (H1 i a Ha) as (a' & ? & [? _]). eauto.
  - intros i a' Ha Hn. destruct (H2 i a' Ha Hn) as (a & ? & [? _]). eauto.
Qed.

Lemma reraise_inv {A} e (o : option A) d a d' :
  reraise_unless e o d = (Return a, d') → o = Some a ∧ d' = d.
Proof. destruct o; cbn; [intros [= -> ->]; auto | discriminate]. Qed.

#[global] Instance pure_reraise_unless {A} e (o : option A) : Pure (reraise_unless e o).
Proof. destruct o; apply _. Qed.

(** Read off what a guard or a lookup that returned has established. *)
Ltac ev_clean H :=
  lazymatch type of H with
  | raise_if _ _ _ = (Return _, _) => apply raise_if_inv in H as [H ->]
  | reraise_unless _ _ _ = (Return _, _) => apply reraise_inv in H as [H ->]
  | ?m ?d = (_, ?d1) => try (let E := fresh in
      assert (Pure m) as E by apply _; apply (pure_state m) in H; subst d1; clear E)
  end.

(** Walk through a program; what is left are its writes of approvals. *)
Ltac ev_step :=
  lazymatch goal with
  | |- Evolving _ _ => intros ?
  | |- ApOrder _ => apply _
  | |- ev_at _ _ (get ≫= _) => apply ev_get; cbv beta
  | |- ev_at _ _ (_ ≫= _) =>
      let H := fresh "H" in apply ev_bind;
      lazymatch goal with
      | |- ∀ _, _ => intros ? ? H; ev_clean H; cbv beta
      | |- _ => idtac
      end
  | |- ev_at _ _ (session_scope _) => apply ev_scope
  | |- ev_at _ _ (save_run _) => apply ev_save_run
  | |- ev_at _ _ (on_integrity_error _ _) => unfold on_integrity_error
  | |- ev_at _ _ (catch _ _) => apply ev_catch;
      lazymatch goal with |- ∀ _, _ => intros [] ? ? | |- _ => idtac end
  | |- ev_at _ _ (if ?b then _ else _) => destruct b eqn:?
  | |- ev_at _ _ (match ?o with _ => _ end) => destruct o eqn:?
  | |- ev_at _ _ _ => first [apply ev_pure; apply _ | apply evolving]
  end.

Ltac ev_found :=
  lazymatch goal with
  | H : find_approval ?w ?i ?d = Some ?a |- ev_at ?R ?d (save_approval _) =>
      apply (ev_save_found R d w i a _ H)
  end.

#[global] Instance ev_update_run R `{!ApOrder R} w i p f : Evolving R (update_run w i p f).
Proof. unfold update_run. repeat ev_step. Qed.

#[global] Instance ev_append_audit R `{!ApOrder R} e : Evolving R (append_audit e).
Proof. unfold append_audit. repeat ev_step. by apply ev_modify. Qed.

#[global] Instance pure_canonicalize_arguments `{Digests, SchemaValidator} a s :
  Pure (canonicalize_arguments a s).
Proof.
  unfold canonicalize_arguments. destruct a as [| | | | | |l]; try apply _.
  cbv zeta. destruct (canonical_json_hash (sort_json (JObj l))); apply _.
Qed.

#[global] Instance pure_logical_action_id `{Digests} w r t h o :
  Pure (compute_logical_action_id w r t h o).
Proof.
  unfold compute_logical_action_id.
  destruct (canonical_json_hash (action_identity w r t h o)); apply _.
Qed.

(** ** The service operations *)

Lemma ev_insert_approval R `{!ApOrder R} d fks a :
  ap_fresh a → ev_at R d (insert_approval fks a).
Proof.
  intros F. unfold insert_approval. repeat ev_step. apply ev_insert; [apply _| |done].
  breflect. by apply eq_None_not_Some.
Qed.

Lemma new_approval_fresh i w r v l t ti ca h u e c :
  ap_fresh (new_approval i w r v l t ti ca h u e c).
Proof. by split. Qed.

(** Another transaction between the read and the insert. *)
Definition others_ok (R : relation Approval) (other : Db → Db) : Prop :=
  ∀ d, keys_ok d → evolves R d (other d) ∧ keys_ok (other d).

Lemma ev_others R d other : others_ok R other → ev_at R d (modify other : M Db Exn unit).
Proof. intros Ho Hk r d' [= <- <-]. by apply Ho. Qed.

Section Ops.
Context `{Digests, SchemaValidator} (ttl_seconds : Z).

Lemma ev_create_or_get R `{!ApOrder R} ctx run ver rev ident args schema ord exp i now created fks other :
  others_ok R other →
  Evolving R (create_or_get ttl_seconds ctx run ver rev ident args schema ord exp i now created
              fks other).
Proof.
  intros Ho d. unfold create_or_get.
  repeat (ev_step || (apply ev_others; done) || (apply ev_insert_approval, new_approval_fresh)).
Qed.

#[global] Instance ev_decide ctx i dec reason now :
  Evolving ap_le (decide_approval ctx i dec reason now).
Proof.
  unfold decide_approval. repeat ev_step; ev_found; breflect;
    (apply ap_le_expire || apply ap_le_decide); by apply dec_stable.
Qed.

#[global] Instance ev_claim ctx i now : Evolving quiet (claim_execution ctx i now).
Proof.
  unfold claim_execution. repeat ev_step; ev_found; breflect.
  split; [by apply ap_le_claim | done].
Qed.

#[global] Instance ev_complete ctx i s r f m now :
  Evolving quiet (complete_execution ctx i s r f m now).
Proof.
  unfold complete_execution. repeat ev_step; ev_found; breflect.
  split; [by apply ap_le_complete | done].
Qed.

#[global] Instance ev_cancel ctx run now : Evolving quiet (cancel_pending_for_run ctx run now).
Proof.
  unfold cancel_pending_for_run. repeat ev_step. intros Hk res d' [= <- <-].
  assert (∀ w u a, quiet a (cancelled_by w run u now a)) as L.
  { intros w' u a'. unfold cancelled_by. destruct (_ && _) eqn:E; [|done].
    breflect. split; [by apply ap_le_decide | done]. }
  split; [eapply evolves_fmap; [apply _|intros; apply L|done]|]. destruct Hk as [K1 K2]. split; [done|].
  intros j b. cbn. rewrite lookup_fmap_Some. intros (b' & <- & Hb).
  erewrite (order_id quiet) by apply L. eauto.
Qed.

#[global] Instance ev_withdraw w runs now : Evolving quiet (_cancel_pending_approvals w runs now).
Proof.
  unfold _cancel_pending_approvals. destruct runs as [|x l]; [repeat ev_step|].
  intros d Hk res d' [= <- <-].
  assert (∀ a, quiet a (withdrawn_by w (x :: l) now a)) as L.
  { intros a'. unfold withdrawn_by. destruct (_ && _) eqn:E; [|done].
    breflect. split; [by apply (ap_le_decide a' _ (ap_decided_by a')) | done]. }
  split; [eapply evolves_fmap; [apply _|intros; apply L|done]|]. destruct Hk as [K1 K2]. split; [done|].
  intros j b. cbn. rewrite lookup_fmap_Some. intros (b' & <- & Hb).
  erewrite (order_id quiet) by apply L. eauto.
Qed.
End Ops.
