(* ===== verification/Reconciliation.v ===== *)
(** * Reconciliation of durable approval state

    Model of [packages/approvals/reconciliation.py].  The transition of a
    locked run, the expiry of its pending approvals, the timeline entry, the
    single-run entry point and the beat task's bounded batch.

    [_apply_reconciliation_transition] mutates the run and the approvals it is
    given and reads the clock itself: here it returns the new rows and takes
    that second reading as an argument. *)

From stdpp Require Import base gmap list strings sorting.
From Stdlib Require Import ZArith NArith Lia.
From S2P Require Import Prelude.
From S2P Require Import Json.
From S2P Require Import JsonTheory.
From S2P Require Import RunStore.
From S2P Require Import Rbac.
From S2P Require Import Approvals.

Local Open Scope Z_scope.

Definition RUN_CHECKPOINT_MISSING_AFTER_SECONDS : Z := 900.
Definition seconds (n : Z) : Z := n * 1000000.

(** Python truth of an optional text. *)
Definition truthy (s : option (list N)) : bool :=
  match s with Some (_ :: _) => true | _ => false end.

Definition is_status (s : RunStatus.t) (r : AgentRun) : bool :=
  RunStatus.eqb (run_status r) s.
Definition is_pending (a : Approval) : bool := bool_decide (ap_decision_status a = PENDING).
Definition is_claimed (a : Approval) : bool := bool_decide (ap_execution_status a = CLAIMED).
Definition in_flight (a : Approval) : bool :=
  bool_decide (ap_execution_status a ∈ [CLAIMED; UNKNOWN_OUTCOME]).

Definition live_owner (r : AgentRun) (now : datetime) : bool :=
  truthy (run_execution_owner r) &&
  match run_execution_lease_expires_at r with Some e => now <? e | None => false end.

Definition fail_with (code : string) (r : AgentRun) : AgentRun :=
  set_run_failure_code (Some code) (set_run_status RunStatus.NEEDS_ATTENTION r).

(** The approval this run is parked on has a decision. *)
Definition decided_for (active : option uuid) (a : Approval) : bool :=
  negb (is_pending a) &&
  match active with Some i => (ap_id a =? i)%N | None => true end.

Definition forget_claim (a : Approval) : Approval :=
  if is_claimed a
  then set_ap_failure_code (Some "ACTION_OUTCOME_UNKNOWN"%string)
         (set_ap_execution_status UNKNOWN_OUTCOME a)
  else a.

(** The statements of the transition, in order. *)

(** An owner whose lease ran out is fenced. *)
Definition fence_expired_owner (run : AgentRun) : AgentRun :=
  if truthy (run_execution_owner run) then
    set_run_execution_lease_expires_at None (set_run_execution_owner None
      (set_run_event_log_complete false (fail_with "RUN_EXECUTION_LEASE_EXPIRED" run)))
  else run.

(** A claimed action nobody can still be running needs a human. *)
Definition fence_claimed_action (run : AgentRun) : AgentRun :=
  set_run_event_log_complete false (set_run_resume_pending false
    (fail_with "ACTION_RECONCILIATION_REQUIRED" run)).

Definition park_running (pending : list Approval) (checkpoint_exists : bool) (run : AgentRun) :
  AgentRun :=
  if is_status RunStatus.RUNNING run && negb (bool_decide (pending = [])) then
    if negb checkpoint_exists then fail_with "APPROVAL_CHECKPOINT_MISSING" run
    else set_run_status RunStatus.WAITING_APPROVAL run
  else run.

Definition flag_zombie (stale checkpoint_exists : bool) (run : AgentRun) : AgentRun :=
  if is_status RunStatus.RUNNING run && stale && negb checkpoint_exists
  then fail_with "RUN_CHECKPOINT_MISSING" run else run.

Definition flag_unparked (checkpoint_exists : bool) (run : AgentRun) : AgentRun :=
  if is_status RunStatus.WAITING_APPROVAL run && negb checkpoint_exists
  then fail_with "APPROVAL_CHECKPOINT_MISSING" run else run.

Definition finish_cancel (all_approvals : list Approval) (run : AgentRun) : AgentRun :=
  if is_status RunStatus.CANCEL_REQUESTED run && existsb in_flight all_approvals
  then fail_with "ACTION_RECONCILIATION_REQUIRED" run
  else if is_status RunStatus.CANCEL_REQUESTED run
  then set_run_failure_code None (set_run_status RunStatus.CANCELLED run)
  else run.

Definition mark_resume (pending : list Approval) (checkpoint_exists : bool)
    (all_approvals : list Approval) (run : AgentRun) : AgentRun :=
  if is_status RunStatus.WAITING_APPROVAL run && checkpoint_exists
     && bool_decide (pending = [])
     && existsb (decided_for (run_waiting_approval_id run)) all_approvals
  then set_run_resume_pending true run else run.

Definition mark_log (before_status : RunStatus.t) (run : AgentRun) : AgentRun :=
  if negb (RunStatus.eqb (run_status run) before_status)
  then set_run_event_log_complete false run else run.

Definition _apply_reconciliation_transition (run : AgentRun) (pending : list Approval)
    (checkpoint_exists : bool) (approvals : list Approval) (stale : bool) (now : datetime) :
  AgentRun * list Approval :=
  let all_approvals := match approvals with [] => pending | _ => approvals end in
  let before_status := run_status run in
  if live_owner run now then (run, approvals) else
  let expired_owner := truthy (run_execution_owner run) in
  let run := fence_expired_owner run in
  if (stale || expired_owner) && existsb is_claimed all_approvals then
    (fence_claimed_action run, forget_claim <$> approvals)
  else
    (mark_log before_status
      (mark_resume pending checkpoint_exists all_approvals
        (finish_cancel all_approvals
          (flag_unparked checkpoint_exists
            (flag_zombie stale checkpoint_exists
              (park_running pending checkpoint_exists run))))),
     approvals).

Definition _run_is_stale (run : AgentRun) (now : datetime) : bool :=
  match run_started_at run with
  | None => false
  | Some started_at => started_at <=? now - seconds RUN_CHECKPOINT_MISSING_AFTER_SECONDS
  end.

Definition opt_str (s : option string) : json :=
  match s with Some s => JStr (lit s) | None => JNull end.

(** [select max sequence_number ... order by desc limit 1], [0] when empty. *)
Definition last_sequence (run : AgentRun) (d : Db) : Z :=
  foldr Z.max 0
    (step_sequence_number <$>
     filter (λ s, step_workspace_id s = run_workspace_id run ∧
                  step_agent_run_id s = run_id run) (run_steps d)).

Definition _append_reconciliation_step (run : AgentRun) (old_status : RunStatus.t)
    (reason : string) : M Db Exn unit :=
  d ← get;
  put (set_run_steps (run_steps d ++
    [{| step_workspace_id := run_workspace_id run; step_agent_run_id := run_id run;
        step_sequence_number := last_sequence run d + 1;
        step_kind := "RECONCILIATION"; step_status := RunStatus.value (run_status run);
        step_safe_metadata := JObj
          [(lit "reason", JStr (lit reason));
           (lit "old_status", JStr (lit (RunStatus.value old_status)));
           (lit "new_status", JStr (lit (RunStatus.value (run_status run))));
           (lit "failure_code", opt_str (run_failure_code run))] |}]) d).

Definition _reconciliation_reason (run : AgentRun) (expired_count : Z) : string :=
  if negb (expired_count =? 0) then "approval_expired"
  else if bool_decide (run_failure_code run = Some "APPROVAL_CHECKPOINT_MISSING"%string)
  then "checkpoint_missing"
  else if bool_decide (run_failure_code run = Some "RUN_CHECKPOINT_MISSING"%string)
  then "orphan_running_reconciliation"
  else if bool_decide (run_failure_code run = Some "ACTION_RECONCILIATION_REQUIRED"%string)
  then "claimed_action_reconciliation"
  else if is_status RunStatus.WAITING_APPROVAL run then "checkpoint_recovered"
  else "terminal_reconciliation".

(** The pending approvals past their deadline. *)
Definition is_expired (now : datetime) (a : Approval) : bool :=
  is_pending a && match ap_expires_at a with Some e => e <=? now | None => false end.
Definition expire (now : datetime) (a : Approval) : Approval :=
  if is_expired now a
  then set_ap_decided_at (Some now) (set_ap_decision_status ApprovalDecisionStatus.EXPIRED a)
  else a.

Definition complete_terminal (now : datetime) (run : AgentRun) : AgentRun :=
  if bool_decide (run_status run ∈ [RunStatus.NEEDS_ATTENTION; RunStatus.CANCELLED])
     && bool_decide (run_completed_at run = None)
  then set_run_completed_at (Some now) run else run.

(** The part of a reconciliation that both entry points spell out: the new run,
    the new approvals and the number of approvals that expired. *)
Definition reconcile_rows (run : AgentRun) (approvals : list Approval)
    (checkpoint_exists : bool) (now now' : datetime) : AgentRun * list Approval * Z :=
  let expired_count := Z.of_nat (length (filter (λ a, is_expired now a = true) approvals)) in
  let approvals := expire now <$> approvals in
  let pending := filter (λ a, is_pending a = true) approvals in
  let out := _apply_reconciliation_transition run pending checkpoint_exists approvals
    (_run_is_stale run now) now' in
  (complete_terminal now out.1, out.2, expired_count).

Definition rows_changed (before run : AgentRun) (expired_count : Z) : bool :=
  bool_decide ((run_status before, run_failure_code before)
               ≠ (run_status run, run_failure_code run))
  || bool_decide (run_completed_at before ≠ run_completed_at run)
  || negb (expired_count =? 0).

Definition save_approvals (l : list Approval) : M Db Exn unit :=
  modify (λ d, set_approvals
    (foldr (λ a m, <[ap_id a := a]> m) (approvals d) l) d).

(** The transaction on one locked run. *)
Definition reconcile_locked (before run : AgentRun) (checkpoint_exists : bool)
    (now now' : datetime) : M Db Exn (AgentRun * list Approval * bool) :=
  d ← get;
  let out := reconcile_rows run (approvals_of_run (run_workspace_id run) (run_id run) d)
    checkpoint_exists now now' in
  let run' := out.1.1 in
  let changed := rows_changed before run' out.2 in
  save_run run';;
  save_approvals out.1.2;;
  (if changed
   then _append_reconciliation_step run' (run_status before)
          (_reconciliation_reason run' out.2)
   else mret tt);;
  mret (run', out.1.2, changed).

Section Probes.
(** [checkpoint_probe.has_checkpoint], absent when not configured; an exception
    it raises is a value. *)
Context (checkpoint_probe : option (uuid → uuid → outcome Exn bool)).

Definition CHECKPOINT_PROBE_NOT_CONFIGURED : Exn :=
  AgentHubError "CHECKPOINT_PROBE_NOT_CONFIGURED"
    "Checkpoint reconciliation is not configured." 503.

Definition probe {S} (p : uuid → uuid → outcome Exn bool) (w i : uuid) : M S Exn bool :=
  match p w i with Return b => mret b | Raise e => raise e end.

(** [UUID(context.workspace_id)] *)
Definition parse_workspace {S} (context : WorkspaceExecutionContext) : M S Exn uuid :=
  match ctx_workspace_id context with
  | Some w => mret w
  | None => raise (ValueError "badly formed hexadecimal UUID string")
  end.

Definition reconcile_run (context : WorkspaceExecutionContext) (run_id : uuid)
    (checkpoint_exists : option bool) (now now' : datetime) : M Db Exn AgentRun :=
  require_permission context "agent_run";;
  exists_ ←
    match checkpoint_exists with
    | Some b => mret b
    | None => match checkpoint_probe with
              | None => raise CHECKPOINT_PROBE_NOT_CONFIGURED
              | Some p => w ← parse_workspace context; probe p w run_id
              end
    end;
  session_scope (
    w ← parse_workspace context;
    d ← get;
    run ← reraise_unless AGENT_RUN_NOT_FOUND (find_run w run_id d);
    out ← reconcile_locked run run exists_ now now';
    mret out.1.1).

(** *** The batch *)

Definition is_candidate (cutoff : datetime) (r : AgentRun) : bool :=
  bool_decide (run_status r ∈ [RunStatus.RUNNING; RunStatus.WAITING_APPROVAL;
                               RunStatus.CANCEL_REQUESTED; RunStatus.NEEDS_ATTENTION])
  && match run_started_at r with Some s => s <=? cutoff | None => false end.

(** [order_by(reconciled_at.asc().nullsfirst(), started_at, id)] *)
Definition nulls_first (a b : option datetime) : comparison :=
  match a, b with
  | None, None => Eq | None, Some _ => Lt | Some _, None => Gt | Some x, Some y => x ?= y
  end.
Definition candidate_leb (a b : AgentRun) : bool :=
  match nulls_first (run_reconciled_at a) (run_reconciled_at b) with
  | Lt => true | Gt => false
  | Eq => match nulls_first (run_started_at a) (run_started_at b) with
          | Lt => true | Gt => false
          | Eq => (run_id a <=? run_id b)%N
          end
  end.
Definition candidate_le (a b : AgentRun) : Prop := candidate_leb a b = true.
#[global] Instance candidate_le_dec : RelDecision candidate_le :=
  λ a b, decide (candidate_leb a b = true).

(** Rows another transaction has locked are skipped. *)
Definition select_candidates (batch_size : nat) (cutoff : datetime) (locked : gset uuid)
    (d : Db) : list AgentRun :=
  take batch_size
    (filter (λ r, run_id r ∉ locked)
       (merge_sort candidate_le
          (filter (λ r, is_candidate cutoff r = true) (map_to_list (agent_runs d)).*2))).

Definition touch (clock0 : uuid → datetime) (l : list AgentRun) : M Db Exn unit :=
  modify (λ d, set_agent_runs
    (foldr (λ r m, <[run_id r := set_run_reconciled_at (Some (clock0 (run_id r))) r]> m)
       (agent_runs d) l) d).

(** [resume_dispatch], when configured: does the call return or raise? *)
Context (resume_dispatch : option (AgentRun → Approval → bool)).

Record BatchResult := {
  scanned : Z;
  changed : Z;
  errors : Z;
  dispatched : list (uuid * uuid)
}.
Definition count_changed (r : BatchResult) : BatchResult :=
  {| scanned := scanned r; changed := changed r + 1; errors := errors r;
     dispatched := dispatched r |}.
Definition count_error (r : BatchResult) : BatchResult :=
  {| scanned := scanned r; changed := changed r; errors := errors r + 1;
     dispatched := dispatched r |}.
Definition log_dispatch (run : AgentRun) (a : Approval) (r : BatchResult) : BatchResult :=
  {| scanned := scanned r; changed := changed r; errors := errors r;
     dispatched := dispatched r ++ [(run_id run, ap_id a)] |}.

(** What follows the commit: hand a decided approval to the resume outbox. *)
Definition dispatch_decided (run : AgentRun) (approvals : list Approval) (r : BatchResult) :
  BatchResult :=
  match resume_dispatch with
  | Some send =>
      if is_status RunStatus.WAITING_APPROVAL run && run_resume_pending run then
        match find (decided_for (run_waiting_approval_id run)) approvals with
        | Some a => let r := log_dispatch run a r in
                    if send run a then r else count_error r
        | None => r
        end
      else r
  | None => r
  end.

Definition after_commit (out : AgentRun * list Approval * bool) (r : BatchResult) :
  BatchResult :=
  dispatch_decided out.1.1 out.1.2 (if out.2 then count_changed r else r).

Definition reconcile_candidate (p : uuid → uuid → outcome Exn bool)
    (clock : uuid → datetime * datetime) (candidate : AgentRun) (r : BatchResult) :
  M Db Exn BatchResult :=
  match p (run_workspace_id candidate) (run_id candidate) with
  | Raise _ => mret (count_error r)
  | Return exists_ =>
      d ← get;
      match find_run (run_workspace_id candidate) (run_id candidate) d with
      | None => mret r
      | Some before =>
          let now := (clock (run_id candidate)).1 in
          let run := set_run_reconciled_at (Some now) before in
          out ← session_scope
                  (reconcile_locked before run exists_ now (clock (run_id candidate)).2);
          mret (after_commit out r)
      end
  end.

Fixpoint reconcile_each (p : uuid → uuid → outcome Exn bool)
    (clock : uuid → datetime * datetime) (l : list AgentRun) (r : BatchResult) :
  M Db Exn BatchResult :=
  match l with
  | [] => mret r
  | c :: l => r ← reconcile_candidate p clock c r; reconcile_each p clock l r
  end.

Definition reconcile_candidates (batch_size : nat) (stale_after_seconds : Z)
    (now : datetime) (clock0 : uuid → datetime) (clock : uuid → datetime * datetime)
    (locked : gset uuid) : M Db Exn BatchResult :=
  match checkpoint_probe with
  | None => raise CHECKPOINT_PROBE_NOT_CONFIGURED
  | Some p =>
      let cutoff := now - seconds stale_after_seconds in
      d ← get;
      let candidates := select_candidates batch_size cutoff locked d in
      touch clock0 candidates;;
      reconcile_each p clock candidates
        {| scanned := Z.of_nat (length candidates); changed := 0; errors := 0;
           dispatched := [] |}
  end.
End Probes.
