(* ===== verification/ReconciliationTheory.v ===== *)
(** * Reconciliation: where it leads

    [settled] says that a run needs nothing from the reconciler; the transition
    reaches it in one application and then changes nothing.  The approvals only
    move forward in the order of [ApprovalsTheory]. *)

From stdpp Require Import base gmap list strings sorting.
From Stdlib Require Import ZArith NArith Lia.
From S2P Require Import Prelude.
From S2P Require Import Json.
From S2P Require Import JsonTheory.
From S2P Require Import RunStore.
From S2P Require Import Rbac.
From S2P Require Import Approvals.
From S2P Require Import ApprovalsTheory.
From S2P Require Import Reconciliation.

Local Open Scope Z_scope.

(** ** The transition on one run *)

(** Nothing left to do for [run], given its approvals. *)
Definition settled (run : AgentRun) (pending : list Approval) (checkpoint_exists : bool)
    (approvals : list Approval) (stale : bool) (now : datetime) : Prop :=
  live_owner run now = true ∨
  (truthy (run_execution_owner run) = false ∧
   stale && existsb is_claimed approvals = false ∧
   (run_status run = RunStatus.RUNNING →
      pending = [] ∧ (stale = true → checkpoint_exists = true)) ∧
   (run_status run = RunStatus.WAITING_APPROVAL →
      checkpoint_exists = true ∧
      (pending = [] → existsb (decided_for (run_waiting_approval_id run)) approvals = true →
       run_resume_pending run = true)) ∧
   run_status run ≠ RunStatus.CANCEL_REQUESTED).

Lemma is_status_spec s r : is_status s r = true ↔ run_status r = s.
Proof. apply RunStatus.eqb_eq. Qed.

Lemma existsb_fmap {A B} (f : A → B) (p : B → bool) l :
  existsb p (f <$> l) = existsb (λ a, p (f a)) l.
Proof. induction l as [|x l IH]; [done|]. cbn. by rewrite <- IH. Qed.

Lemma existsb_ext {A} (p q : A → bool) l : (∀ x, p x = q x) → existsb p l = existsb q l.
Proof. intros H. induction l as [|x l IH]; [done|]. cbn. by rewrite H, IH. Qed.

Lemma forget_not_claimed a : is_claimed (forget_claim a) = false.
Proof.
  unfold forget_claim. destruct (is_claimed a) eqn:E; [done|exact E].
Qed.

Lemma none_claimed l : existsb is_claimed (forget_claim <$> l) = false.
Proof.
  rewrite existsb_fmap. induction l as [|a l IH]; [done|]. cbn. by rewrite forget_not_claimed.
Qed.

Lemma all_approvals_eq (pending l : list Approval) :
  (l = [] → pending = []) → match l with [] => pending | _ => l end = l.
Proof. destruct l; auto. Qed.

(** Evaluate the transition on a run whose fields are known. *)
Ltac eval_run :=
  cbv [is_status park_running flag_zombie flag_unparked finish_cancel mark_resume mark_log
       fence_expired_owner fence_claimed_action fail_with RunStatus.eqb andb orb negb fst snd
       run_status run_execution_owner run_waiting_approval_id run_resume_pending
       set_run_status set_run_failure_code set_run_event_log_complete
       set_run_execution_owner set_run_execution_lease_expires_at set_run_resume_pending].

Lemma settled_fixpoint run pending ck l stale now :
  (l = [] → pending = []) →
  settled run pending ck l stale now →
  _apply_reconciliation_transition run pending ck l stale now = (run, l).
Proof.
  intros Hl Hs. unfold _apply_reconciliation_transition, settled in *.
  rewrite all_approvals_eq by done.
  destruct (live_owner run now); [done|].
  destruct Hs as [?|(Ho & Hc & Hr & Hw & Hq)]; [done|].
  assert (fence_expired_owner run = run) as -> by (unfold fence_expired_owner; by rewrite Ho).
  rewrite Ho, orb_false_r, Hc. f_equal.
  destruct run as [rid rws rver rby own exp wait res recon elc elf st fc start comp].
  cbn [run_status run_waiting_approval_id run_resume_pending] in *.
  destruct st; [| |by eval_run..|done|by eval_run].
  - destruct (Hr eq_refl) as [-> Hck]. unfold park_running. rewrite bool_decide_true by done.
    destruct stale; [rewrite Hck by done|]; by eval_run.
  - destruct (Hw eq_refl) as [-> Hck]. unfold mark_resume, park_running.
    destruct (bool_decide (pending = [])) eqn:Ep; [|by eval_run].
    breflect. eval_run.
    destruct (existsb (decided_for wait) l) eqn:Ed; [|done]. by rewrite (Hck Ep eq_refl).
Qed.

(** What the straight-line part does to the status alone. *)
Definition park_status (pe ck : bool) (s : RunStatus.t) : RunStatus.t :=
  match s with
  | RunStatus.RUNNING =>
      if pe then s else if ck then RunStatus.WAITING_APPROVAL else RunStatus.NEEDS_ATTENTION
  | _ => s
  end.
Definition zombie_status (stale ck : bool) (s : RunStatus.t) : RunStatus.t :=
  match s with
  | RunStatus.RUNNING => if stale && negb ck then RunStatus.NEEDS_ATTENTION else s
  | _ => s
  end.
Definition unparked_status (ck : bool) (s : RunStatus.t) : RunStatus.t :=
  match s with
  | RunStatus.WAITING_APPROVAL => if ck then s else RunStatus.NEEDS_ATTENTION
  | _ => s
  end.
Definition cancel_status (fl : bool) (s : RunStatus.t) : RunStatus.t :=
  match s with
  | RunStatus.CANCEL_REQUESTED =>
      if fl then RunStatus.NEEDS_ATTENTION else RunStatus.CANCELLED
  | _ => s
  end.
Definition final_status (pe stale ck fl : bool) (s : RunStatus.t) : RunStatus.t :=
  cancel_status fl (unparked_status ck (zombie_status stale ck (park_status pe ck s))).

Definition straight_line (pending : list Approval) (ck : bool) (l : list Approval)
    (stale : bool) (st0 : RunStatus.t) (run : AgentRun) : AgentRun :=
  mark_log st0 (mark_resume pending ck l (finish_cancel l (flag_unparked ck
    (flag_zombie stale ck (park_running pending ck run))))).

(** The columns no statement of the straight-line part writes. *)
Definition run_untouched (r : AgentRun) :=
  (run_id r, run_workspace_id r, run_execution_owner r, run_waiting_approval_id r,
   run_started_at r, run_completed_at r, run_reconciled_at r).

Ltac by_cases_on_run run :=
  unfold park_running, flag_zombie, flag_unparked, finish_cancel, mark_resume, mark_log,
    is_status, fail_with;
  repeat match goal with |- context [if ?b then _ else _] => destruct b end;
  reflexivity.

Lemma park_untouched pe ck r : run_untouched (park_running pe ck r) = run_untouched r.
Proof. by_cases_on_run r. Qed.
Lemma zombie_untouched st ck r : run_untouched (flag_zombie st ck r) = run_untouched r.
Proof. by_cases_on_run r. Qed.
Lemma unparked_untouched ck r : run_untouched (flag_unparked ck r) = run_untouched r.
Proof. by_cases_on_run r. Qed.
Lemma cancel_untouched l r : run_untouched (finish_cancel l r) = run_untouched r.
Proof. by_cases_on_run r. Qed.
Lemma resume_untouched p ck l r : run_untouched (mark_resume p ck l r) = run_untouched r.
Proof. by_cases_on_run r. Qed.
Lemma log_untouched s r : run_untouched (mark_log s r) = run_untouched r.
Proof. by_cases_on_run r. Qed.

Lemma straight_line_untouched p ck l st s0 r :
  run_untouched (straight_line p ck l st s0 r) = run_untouched r.
Proof.
  unfold straight_line.
  by rewrite log_untouched, resume_untouched, cancel_untouched, unparked_untouched,
    zombie_untouched, park_untouched.
Qed.

Ltac by_status run :=
  unfold park_running, flag_zombie, flag_unparked, finish_cancel, mark_resume, mark_log,
    is_status, fail_with, park_status, zombie_status, unparked_status, cancel_status;
  destruct (run_status run) eqn:E; cbn [RunStatus.eqb andb];
  repeat match goal with |- context [negb ?b] => destruct b; cbn [negb andb] end;
  repeat match goal with
  | |- context [if ?b then _ else _] => destruct b; cbn [negb andb]
  end; cbn; congruence.

Lemma straight_line_status p ck l st s0 r :
  run_status (straight_line p ck l st s0 r)
  = final_status (bool_decide (p = [])) st ck (existsb in_flight l) (run_status r).
Proof.
  unfold straight_line, final_status.
  assert (∀ r, run_status (mark_log s0 r) = run_status r) as ->.
  { intros r'. unfold mark_log. by destruct (negb _). }
  assert (∀ r, run_status (mark_resume p ck l r) = run_status r) as ->.
  { intros r'. unfold mark_resume. by destruct (_ && _). }
  assert (∀ r, run_status (finish_cancel l r) = cancel_status (existsb in_flight l) (run_status r))
    as -> by (intros r'; by_status r').
  assert (∀ r, run_status (flag_unparked ck r) = unparked_status ck (run_status r))
    as -> by (intros r'; by_status r').
  assert (∀ r, run_status (flag_zombie st ck r) = zombie_status st ck (run_status r))
    as -> by (intros r'; by_status r').
  assert (∀ r, run_status (park_running p ck r)
               = park_status (bool_decide (p = [])) ck (run_status r))
    as -> by (intros r'; by_status r').
  done.
Qed.

Lemma straight_line_resume p ck l st s0 r :
  let r' := straight_line p ck l st s0 r in
  run_status r' = RunStatus.WAITING_APPROVAL → ck = true → p = [] →
  existsb (decided_for (run_waiting_approval_id r')) l = true → run_resume_pending r' = true.
Proof.
  cbn zeta. unfold straight_line. set (r1 := finish_cancel _ _).
  assert (∀ r, run_resume_pending (mark_log s0 r) = run_resume_pending r) as ->.
  { intros r'. unfold mark_log. by destruct (negb _). }
  assert (∀ r, run_status (mark_log s0 r) = run_status r) as ->.
  { intros r'. unfold mark_log. by destruct (negb _). }
  assert (∀ r, run_waiting_approval_id (mark_log s0 r) = run_waiting_approval_id r) as ->.
  { intros r'. unfold mark_log. by destruct (negb _). }
  unfold mark_resume. destruct (_ && _) eqn:E; [done|]. intros Hs -> Hp Hd.
  rewrite Hd in E. unfold is_status in E. rewrite Hs, Hp in E.
  by rewrite bool_decide_true in E.
Qed.

Lemma final_status_spec pe stale ck fl s :
  (final_status pe stale ck fl s = RunStatus.RUNNING → pe = true ∧ (stale = true → ck = true)) ∧
  (final_status pe stale ck fl s = RunStatus.WAITING_APPROVAL → ck = true) ∧
  final_status pe stale ck fl s ≠ RunStatus.CANCEL_REQUESTED.
Proof. by destruct s, pe, stale, ck, fl. Qed.

Lemma straight_line_settled p ck l stale st0 run :
  truthy (run_execution_owner run) = false →
  let run' := straight_line p ck l stale st0 run in
  truthy (run_execution_owner run') = false ∧
  (run_status run' = RunStatus.RUNNING → p = [] ∧ (stale = true → ck = true)) ∧
  (run_status run' = RunStatus.WAITING_APPROVAL →
      ck = true ∧
      (p = [] → existsb (decided_for (run_waiting_approval_id run')) l = true →
       run_resume_pending run' = true)) ∧
  run_status run' ≠ RunStatus.CANCEL_REQUESTED.
Proof.
  intros Ho. cbn zeta. pose proof (straight_line_untouched p ck l stale st0 run) as Hu.
  apply (f_equal (λ t, t.1.1.1.1.2)) in Hu as Hown. cbn [fst snd run_untouched] in Hown.
  unfold run_untouched in Hown. cbn [fst snd] in Hown. rewrite Hown. split; [done|].
  pose proof (straight_line_status p ck l stale st0 run) as Hs.
  pose proof (straight_line_resume p ck l stale st0 run) as Hr. cbn zeta in Hr.
  destruct (final_status_spec (bool_decide (p = [])) stale ck (existsb in_flight l)
              (run_status run)) as (F1 & F2 & F3).
  rewrite <- Hs in F1, F2, F3. split_and!; [|auto|done].
  intros H. destruct (F1 H) as [Hp ?]. by apply bool_decide_eq_true_1 in Hp.
Qed.

Lemma settled_after run pending ck l stale now :
  (l = [] → pending = []) →
  let out := _apply_reconciliation_transition run pending ck l stale now in
  settled out.1 pending ck out.2 stale now.
Proof.
  intros Hl. cbn zeta. unfold _apply_reconciliation_transition.
  rewrite all_approvals_eq by done.
  destruct (live_owner run now) eqn:El; [by left|]. right.
  destruct ((stale || truthy (run_execution_owner run)) && existsb is_claimed l) eqn:Ec.
  - cbn [fst snd]. rewrite none_claimed, andb_false_r. unfold fence_expired_owner.
    destruct (truthy (run_execution_owner run)) eqn:Eo; cbn; by rewrite ?Eo.
  - cbn [fst snd].
    assert (truthy (run_execution_owner (fence_expired_owner run)) = false) as Ho.
    { unfold fence_expired_owner. by destruct (truthy (run_execution_owner run)) eqn:?. }
    edestruct (straight_line_settled pending ck l stale (run_status run) _ Ho)
      as (H1 & H2 & H3 & H4). split; [exact H1|]. split; [|done].
    apply andb_false_iff in Ec as [Ec|Ec]; [|by rewrite Ec, andb_false_r].
    by apply orb_false_iff in Ec as [-> _].
Qed.

(** ** Approvals under reconciliation *)

Lemma filter_nil_iff (p : Approval → bool) l :
  filter (λ a, p a = true) l = [] ↔ existsb p l = false.
Proof.
  induction l as [|a l IH]; [done|]. rewrite filter_cons. cbn [existsb].
  case_decide as E; [rewrite E; done|]. apply not_true_is_false in E. by rewrite E.
Qed.

Lemma expire_idem now a : expire now (expire now a) = expire now a.
Proof. unfold expire at 2 3. destruct (is_expired now a) eqn:E; [done|]. unfold expire. by rewrite E. Qed.

Lemma expire_not_expired now a : is_expired now (expire now a) = false.
Proof. unfold expire. destruct (is_expired now a) eqn:E; [done|exact E]. Qed.

Lemma forget_pending a : is_pending (forget_claim a) = is_pending a.
Proof. unfold forget_claim. by destruct (is_claimed a). Qed.

Lemma forget_expired now a : is_expired now (forget_claim a) = is_expired now a.
Proof. unfold forget_claim. by destruct (is_claimed a). Qed.

Lemma is_expired_fixed now a : is_expired now a = false → expire now a = a.
Proof. unfold expire. by intros ->. Qed.

(** How the transition rewrites the approvals it is given. *)
Lemma transition_approvals run p ck l stale now :
  let out := _apply_reconciliation_transition run p ck l stale now in
  out.2 = l ∨ out.2 = forget_claim <$> l.
Proof.
  cbn zeta. unfold _apply_reconciliation_transition.
  destruct (live_owner run now); [by left|]. destruct (_ && _); [by right | by left].
Qed.

Lemma transition_started run p ck l stale now :
  run_started_at (_apply_reconciliation_transition run p ck l stale now).1
  = run_started_at run.
Proof.
  unfold _apply_reconciliation_transition. destruct (live_owner run now); [done|].
  assert (run_started_at (fence_expired_owner run) = run_started_at run) as Hf.
  { unfold fence_expired_owner. by destruct (truthy _). }
  destruct (_ && _); [done|]. cbn [fst]. rewrite <- Hf.
  exact (f_equal (λ t, t.1.1.2)
    (straight_line_untouched p ck _ stale (run_status run) (fence_expired_owner run))).
Qed.

Lemma settled_pending run p p' ck l stale now :
  (p = [] ↔ p' = []) → settled run p ck l stale now → settled run p' ck l stale now.
Proof.
  intros Hp [|(H1 & H2 & H3 & H4 & H5)]; [by left|]. right.
  split; [done|]. split; [done|]. split; [|split; [|done]].
  - intros Hs. destruct (H3 Hs). by rewrite <- Hp.
  - intros Hs. destruct (H4 Hs) as [? Hr]. split; [done|]. intros. by apply Hr; [apply Hp|].
Qed.

Lemma complete_terminal_settled t run p ck l stale now :
  settled run p ck l stale now → settled (complete_terminal t run) p ck l stale now.
Proof. unfold complete_terminal. by destruct (_ && _). Qed.

Lemma complete_terminal_idem t run :
  complete_terminal t (complete_terminal t run) = complete_terminal t run.
Proof.
  unfold complete_terminal at 2 3.
  destruct (bool_decide (run_status run ∈ _)) eqn:E1, (bool_decide (run_completed_at run = None)) eqn:E2;
    cbn [andb]; unfold complete_terminal; cbn; rewrite ?E1, ?E2; try done.
Qed.

(** ** One reconciliation is enough *)

Section Rows.
Context (run : AgentRun) (l : list Approval) (ck : bool) (now now' : datetime).

Definition rows_run := (reconcile_rows run l ck now now').1.1.
Definition rows_approvals := (reconcile_rows run l ck now now').1.2.
Definition rows_pending := filter (λ a, is_pending a = true) rows_approvals.

Lemma rows_approvals_cases :
  rows_approvals = expire now <$> l ∨ rows_approvals = forget_claim <$> (expire now <$> l).
Proof. apply transition_approvals. Qed.

Lemma rows_started : run_started_at rows_run = run_started_at run.
Proof.
  unfold rows_run, reconcile_rows. cbn [fst snd]. etrans; [|apply transition_started].
  unfold complete_terminal. by destruct (_ && _).
Qed.

Lemma rows_none_expired a : a ∈ rows_approvals → is_expired now a = false.
Proof.
  intros Ha. destruct rows_approvals_cases as [E|E]; rewrite E in Ha.
  - apply list_elem_of_fmap in Ha as (b & -> & _). apply expire_not_expired.
  - apply list_elem_of_fmap in Ha as (b & -> & Hb).
    apply list_elem_of_fmap in Hb as (c & -> & _).
    rewrite forget_expired. apply expire_not_expired.
Qed.

Lemma rows_settled :
  settled rows_run rows_pending ck rows_approvals (_run_is_stale rows_run now) now'.
Proof.
  assert (_run_is_stale rows_run now = _run_is_stale run now) as ->.
  { unfold _run_is_stale. by rewrite rows_started. }
  apply complete_terminal_settled.
  eapply settled_pending; [|apply settled_after].
  - unfold rows_pending. rewrite !filter_nil_iff.
    destruct rows_approvals_cases as [->| ->]; [done|].
    rewrite (existsb_fmap forget_claim). by setoid_rewrite (existsb_ext _ _ _ forget_pending).
  - by intros ->.
Qed.

Lemma rows_idempotent :
  reconcile_rows rows_run rows_approvals ck now now' = (rows_run, rows_approvals, 0).
Proof.
  assert (expire now <$> rows_approvals = rows_approvals) as Hexp.
  { rewrite <- (list_fmap_id rows_approvals) at 2. apply list_fmap_ext.
    intros i a Ha%list_elem_of_lookup_2. apply is_expired_fixed. by apply rows_none_expired. }
  unfold reconcile_rows at 1. rewrite Hexp.
  rewrite settled_fixpoint; [| by intros -> | exact rows_settled].
  cbn [fst snd]. repeat f_equal.
  - unfold rows_run, reconcile_rows. cbn [fst snd]. apply complete_terminal_idem.
  - rewrite (proj2 (filter_nil_iff (is_expired now) _)); [done|].
    apply not_true_is_false. rewrite existsb_exists. intros (a & Ha & E).
    apply list_elem_of_In in Ha. by rewrite rows_none_expired in E.
Qed.
End Rows.

(** ** Writing the rows back *)

Lemma quiet_expire now a : quiet a (expire now a).
Proof.
  unfold expire. destruct (is_expired now a) eqn:E; [|done].
  unfold is_expired, is_pending in E. breflect. split; [by apply ap_le_expire | done].
Qed.

Lemma quiet_forget a : quiet a (forget_claim a).
Proof.
  unfold forget_claim. destruct (is_claimed a) eqn:E; [|done].
  unfold is_claimed in E. breflect. split; [|done].
  split; cbn; auto; try congruence. by rewrite E.
Qed.

Lemma rows_approvals_fmap run l ck now now' :
  ∃ g, rows_approvals run l ck now now' = g <$> l ∧ ∀ a, quiet a (g a).
Proof.
  destruct (rows_approvals_cases run l ck now now') as [->| ->].
  - exists (expire now). split; [done|]. intros a. apply quiet_expire.
  - exists (λ a, forget_claim (expire now a)). rewrite <- list_fmap_compose. split; [done|].
    intros a. etrans; [apply quiet_expire|apply quiet_forget].
Qed.

Definition put_all (l : list Approval) (m : gmap uuid Approval) : gmap uuid Approval :=
  foldr (λ a m, <[ap_id a := a]> m) m l.

Lemma put_all_lookup l m j :
  put_all l m !! j
  = match find (λ a, (ap_id a =? j)%N) l with Some a => Some a | None => m !! j end.
Proof.
  induction l as [|a l IH]; [done|]. cbn. destruct (N.eqb_spec (ap_id a) j) as [->|Hne].
  - by rewrite lookup_insert_eq.
  - by rewrite lookup_insert_ne.
Qed.

Section PutAll.
(** Rows read from the table, each rewritten by [g]. *)
Context (m : gmap uuid Approval) (l : list Approval) (g : Approval → Approval).
Hypothesis rows_read : ∀ a, a ∈ l → m !! ap_id a = Some a.
Hypothesis same_id : ∀ a, ap_id (g a) = ap_id a.

Lemma put_all_found a : a ∈ l → put_all (g <$> l) m !! ap_id a = Some (g a).
Proof using Type*.
  intros Ha. rewrite put_all_lookup. destruct (find _ _) as [b|] eqn:E.
  - apply find_some in E as [Hb Hi]. apply list_elem_of_In, list_elem_of_fmap in Hb as (c & -> & Hc).
    apply N.eqb_eq in Hi. rewrite same_id in Hi.
    pose proof (rows_read _ Hc) as H1. rewrite Hi, (rows_read _ Ha) in H1. congruence.
  - exfalso. assert (In (g a) (g <$> l)) as Hin.
    { apply list_elem_of_In, list_elem_of_fmap. eauto. }
    pose proof (find_none _ _ E _ Hin) as Hn. cbn in Hn. by rewrite same_id, N.eqb_refl in Hn.
Qed.

Lemma put_all_other j : (∀ a, a ∈ l → ap_id a ≠ j) → put_all (g <$> l) m !! j = m !! j.
Proof using same_id.
  intros Hj. rewrite put_all_lookup. destruct (find _ _) as [b|] eqn:E; [|done].
  apply find_some in E as [Hb Hi]. apply list_elem_of_In, list_elem_of_fmap in Hb as (c & -> & Hc).
  apply N.eqb_eq in Hi. rewrite same_id in Hi. by apply Hj in Hc.
Qed.

(** Every entry of the result is an old one, rewritten if it was in [l]. *)
Lemma put_all_cases j b :
  put_all (g <$> l) m !! j = Some b →
  ∃ a, m !! j = Some a ∧ ((a ∈ l ∧ b = g a) ∨ (b = a ∧ ∀ x, x ∈ l → ap_id x ≠ j)).
Proof using Type*.
  intros Hb. destruct (decide (Exists (λ x, ap_id x = j) l)) as [Hin|Hnin].
  - apply Exists_exists in Hin as (x & Hx & <-). exists x.
    rewrite put_all_found in Hb by done. injection Hb as <-. auto.
  - assert (∀ x, x ∈ l → ap_id x ≠ j) as Hj.
    { intros x Hx <-. apply Hnin, Exists_exists. eauto. }
    rewrite put_all_other in Hb by done. exists b. auto.
Qed.
End PutAll.

Section Locked.
Context (w i : uuid) (d : Db) (before run : AgentRun) (ck : bool) (now now' : datetime).
Hypothesis keys : keys_ok d.
Hypothesis same_run : run_workspace_id run = w ∧ run_id run = i.

Let l := approvals_of_run w i d.

Lemma run_rows_read a : a ∈ l → approvals d !! ap_id a = Some a.
Proof using keys. intros Ha. by apply elem_of_approvals_of_run in Ha as (? & _). Qed.

(** The approvals table after the transaction. *)
Definition locked_approvals : gmap uuid Approval :=
  put_all (rows_approvals run l ck now now') (approvals d).

Lemma locked_evolves d' :
  approvals d' = locked_approvals → (∀ j r, agent_runs d' !! j = Some r → run_id r = j) →
  evolves quiet d d' ∧ keys_ok d'.
Proof using keys.
  intros Hd Hr. unfold locked_approvals in Hd.
  destruct (rows_approvals_fmap run l ck now now') as (g & Hg & L). rewrite Hg in Hd.
  assert (∀ a, ap_id (g a) = ap_id a) as Hid by (intros a; apply (order_id quiet), L).
  split; [split; rewrite Hd|split; [done|rewrite Hd]].
  - intros j a Ha. destruct (decide (Exists (λ x, ap_id x = j) l)) as [Hin|Hnin].
    + apply Exists_exists in Hin as (x & Hx & <-).
      rewrite (run_rows_read _ Hx) in Ha. injection Ha as <-. exists (g x).
      rewrite put_all_found by auto using run_rows_read. auto.
    + exists a. rewrite put_all_other; [done..|]. intros x Hx <-.
      apply Hnin, Exists_exists. eauto.
  - intros j b Hb Hn. apply put_all_cases in Hb as (a & Ha & _);
      [congruence | apply run_rows_read | done].
  - intros j b Hb. apply put_all_cases in Hb as (a & Ha & [[_ ->]|[-> _]]);
      [| | apply run_rows_read | done]; rewrite ?Hid; by apply (proj2 keys).
Qed.

(** Reading the run's approvals again gives the rows just written. *)
Lemma locked_members d' :
  keys_ok d' → approvals d' = locked_approvals →
  ∀ b, b ∈ approvals_of_run w i d' ↔ b ∈ rows_approvals run l ck now now'.
Proof using keys.
  intros Hk Hd b. unfold locked_approvals in Hd.
  destruct (rows_approvals_fmap run l ck now now') as (g & Hg & L). rewrite Hg in *.
  assert (∀ a, ap_id (g a) = ap_id a) as Hid by (intros a; apply (order_id quiet), L).
  assert (∀ a, ap_workspace_id (g a) = ap_workspace_id a ∧ ap_run_id (g a) = ap_run_id a) as Hst.
  { intros a. pose proof (le_static _ _ (proj1 (L a))) as Hs. injection Hs. auto. }
  rewrite elem_of_approvals_of_run, Hd, list_elem_of_fmap by done. split.
  - intros (Hb & Hw & Hi). apply put_all_cases in Hb as (a & Ha & [[Hin ->]|[-> Hno]]);
      [eauto | | apply run_rows_read | done].
    exfalso. apply (Hno a); [|done]. by apply elem_of_approvals_of_run.
  - intros (a & -> & Ha). rewrite Hid, put_all_found by auto using run_rows_read.
    destruct (Hst a) as [-> ->]. apply elem_of_approvals_of_run in Ha as (_ & ? & ?); auto.
Qed.
End Locked.

(** ** The transaction *)

Lemma rows_run_id run l ck now now' :
  run_id (rows_run run l ck now now') = run_id run ∧
  run_workspace_id (rows_run run l ck now now') = run_workspace_id run.
Proof.
  unfold rows_run, reconcile_rows. cbn [fst snd].
  assert (∀ r, run_id (complete_terminal now r) = run_id r ∧
               run_workspace_id (complete_terminal now r) = run_workspace_id r) as Hc.
  { intros r. unfold complete_terminal. by destruct (_ && _). }
  rewrite (proj1 (Hc _)), (proj2 (Hc _)). unfold _apply_reconciliation_transition.
  destruct (live_owner run now'); [done|].
  assert (run_id (fence_expired_owner run) = run_id run ∧
          run_workspace_id (fence_expired_owner run) = run_workspace_id run) as [H1 H2].
  { unfold fence_expired_owner. by destruct (truthy _). }
  destruct (_ && _); [done|]. cbn [fst]. rewrite <- H1, <- H2.
  match goal with |- context [mark_log ?s (mark_resume ?p ?c ?l (finish_cancel _
      (flag_unparked _ (flag_zombie ?st _ (park_running _ _ ?r)))))] =>
    pose proof (straight_line_untouched p c l st s r) as Hu end.
  split; [exact (f_equal (λ t, t.1.1.1.1.1.1) Hu) | exact (f_equal (λ t, t.1.1.1.1.1.2) Hu)].
Qed.

(** The timeline entry of a reconciliation that changed something. *)
Definition reconciliation_step (run : AgentRun) (old_status : RunStatus.t) (reason : string)
    (d : Db) : RunStep :=
  {| step_workspace_id := run_workspace_id run; step_agent_run_id := run_id run;
     step_sequence_number := last_sequence run d + 1;
     step_kind := "RECONCILIATION"; step_status := RunStatus.value (run_status run);
     step_safe_metadata := JObj
       [(lit "reason", JStr (lit reason));
        (lit "old_status", JStr (lit (RunStatus.value old_status)));
        (lit "new_status", JStr (lit (RunStatus.value (run_status run))));
        (lit "failure_code", opt_str (run_failure_code run))] |}.

Lemma reconcile_locked_run before run ck now now' d :
  let l := approvals_of_run (run_workspace_id run) (run_id run) d in
  let run' := rows_run run l ck now now' in
  let n := (reconcile_rows run l ck now now').2 in
  let changed := rows_changed before run' n in
  ∃ d', reconcile_locked before run ck now now' d
        = (Return (run', rows_approvals run l ck now now', changed), d') ∧
    agent_runs d' = <[run_id run := run']> (agent_runs d) ∧
    approvals d' = locked_approvals (run_workspace_id run) (run_id run) d run ck now now' ∧
    run_steps d' = (if changed
      then run_steps d ++ [reconciliation_step run' (run_status before)
                             (_reconciliation_reason run' n) d]
      else run_steps d) ∧
    audit_logs d' = audit_logs d ∧ agent_run_events d' = agent_run_events d ∧
    customers d' = customers d ∧ tickets d' = tickets d.
Proof.
  cbn zeta. unfold reconcile_locked.
  pose proof (proj1 (rows_run_id run
    (approvals_of_run (run_workspace_id run) (run_id run) d) ck now now')) as Hid.
  unfold locked_approvals, rows_approvals, rows_run in *. rewrite bind_run. cbn [get].
  destruct (reconcile_rows _ _ _ _ _) as [[r' la] n]. cbn [fst snd] in *.
  destruct (rows_changed before r' n); eexists; (split; [reflexivity|]);
    rewrite <- Hid; split_and!; reflexivity.
Qed.

#[global] Instance ev_reconcile_locked before run ck now now' :
  Evolving quiet (reconcile_locked before run ck now now').
Proof.
  intros d Hk r d' H.
  destruct (reconcile_locked_run before run ck now now' d)
    as (d1 & Hrun & Hr & Ha & _). rewrite Hrun in H. injection H as _ <-.
  eapply locked_evolves; [done|exact Ha|].
  intros j r'. rewrite Hr, lookup_insert_Some. intros [[<- <-]|[_ Hj]].
  - apply rows_run_id.
  - by apply (proj1 Hk).
Qed.

Section Evolve.
Context (checkpoint_probe : option (uuid → uuid → outcome Exn bool)).
Context (resume_dispatch : option (AgentRun → Approval → bool)).

#[global] Instance pure_parse_workspace {S} c : Pure (parse_workspace c : M S Exn uuid).
Proof. unfold parse_workspace. destruct (ctx_workspace_id c); apply _. Qed.
#[global] Instance pure_probe {S} p w i : Pure (probe p w i : M S Exn bool).
Proof. unfold probe. destruct (p w i); apply _. Qed.

#[global] Instance ev_reconcile_run ctx i ck now now' :
  Evolving quiet (reconcile_run checkpoint_probe ctx i ck now now').
Proof. unfold reconcile_run. repeat ev_step. Qed.

#[global] Instance ev_reconcile_candidate p clock c r :
  Evolving quiet (reconcile_candidate resume_dispatch p clock c r).
Proof. unfold reconcile_candidate. repeat ev_step. Qed.

#[global] Instance ev_reconcile_each p clock l r :
  Evolving quiet (reconcile_each resume_dispatch p clock l r).
Proof. revert r. induction l as [|c l IH]; intros r; cbn; repeat ev_step. Qed.

Lemma touch_runs clock0 l (m : gmap uuid AgentRun) :
  (∀ j r, m !! j = Some r → run_id r = j) →
  ∀ j r, foldr (λ r m, <[run_id r := set_run_reconciled_at (Some (clock0 (run_id r))) r]> m)
           m l !! j = Some r → run_id r = j.
Proof.
  intros Hm. induction l as [|x l IH]; intros j r; cbn; [apply Hm|].
  rewrite lookup_insert_Some. intros [[<- <-]|[_ H]]; [done|eauto].
Qed.

#[global] Instance ev_touch clock0 l : Evolving quiet (touch clock0 l).
Proof.
  intros d [K1 K2] r d' [= <- <-]. split; [apply evolves_same; [apply _|done]|].
  split; [|done]. by apply touch_runs.
Qed.

#[global] Instance ev_reconcile_candidates n s now clock0 clock locked :
  Evolving quiet (reconcile_candidates checkpoint_probe resume_dispatch n s now clock0 clock locked).
Proof. unfold reconcile_candidates. repeat ev_step. Qed.
End Evolve.

(** ** A second reconciliation changes nothing *)

Lemma existsb_members (p : Approval → bool) l l' :
  (∀ a, a ∈ l ↔ a ∈ l') → existsb p l = existsb p l'.
Proof.
  intros H. apply eq_true_iff_eq. rewrite !existsb_exists.
  split; intros (a & Ha & Hp); exists a; (split; [|done]);
    apply list_elem_of_In in Ha; apply list_elem_of_In; by apply H.
Qed.

Lemma settled_members run l l' ck stale now :
  (∀ a, a ∈ l ↔ a ∈ l') →
  settled run (filter (λ a, is_pending a = true) l) ck l stale now →
  settled run (filter (λ a, is_pending a = true) l') ck l' stale now.
Proof.
  intros H Hs. unfold settled in *. rewrite !(existsb_members _ l' l) by (intros; by rewrite H).
  eapply settled_pending; [|exact Hs].
  by rewrite !filter_nil_iff, (existsb_members _ l l').
Qed.

Lemma rows_fixpoint run l ck now now' :
  (∀ a, a ∈ l → is_expired now a = false) → complete_terminal now run = run →
  settled run (filter (λ a, is_pending a = true) l) ck l (_run_is_stale run now) now' →
  reconcile_rows run l ck now now' = (run, l, 0).
Proof.
  intros He Hc Hs.
  assert (expire now <$> l = l) as Hexp.
  { rewrite <- (list_fmap_id l) at 2. apply list_fmap_ext.
    intros i a Ha%list_elem_of_lookup_2. by apply is_expired_fixed, He. }
  unfold reconcile_rows. rewrite Hexp, settled_fixpoint; [| by intros -> | done].
  cbn [fst snd]. rewrite Hc. repeat f_equal.
  rewrite (proj2 (filter_nil_iff (is_expired now) _)); [done|].
  apply not_true_is_false. rewrite existsb_exists. intros (a & Ha & E).
  apply list_elem_of_In in Ha. by rewrite He in E.
Qed.

Lemma put_all_id l m : (∀ a, a ∈ l → m !! ap_id a = Some a) → put_all l m = m.
Proof.
  intros H. apply map_eq. intros j. rewrite <- (list_fmap_id l).
  destruct (put_all (id <$> l) m !! j) as [b|] eqn:E.
  - apply put_all_cases in E as (a & -> & [[_ ->]|[-> _]]); auto.
  - rewrite put_all_lookup in E. by destruct (find _ _).
Qed.

(** Reconciling the rows the last reconciliation wrote is a no-op. *)
Lemma reconcile_locked_again before run ck now now' d out d' :
  keys_ok d → agent_runs d !! run_id run = Some run →
  reconcile_locked before run ck now now' d = (Return out, d') →
  agent_runs d' !! run_id run = Some out.1.1 ∧
  reconcile_locked out.1.1 out.1.1 ck now now' d' = (Return (out.1.1,
    approvals_of_run (run_workspace_id run) (run_id run) d', false), d').
Proof.
  intros Hk Hrun H. pose proof (evolving (R := quiet) (m := reconcile_locked _ _ _ _ _) d Hk _ _ H) as [_ Hk'].
  destruct (reconcile_locked_run before run ck now now' d) as (d1 & Hr & Hruns & Haps & _).
  rewrite Hr in H. injection H as <- <-. cbn [fst snd].
  set (l := approvals_of_run (run_workspace_id run) (run_id run) d) in *.
  set (run' := rows_run run l ck now now') in *.
  assert (agent_runs d1 !! run_id run = Some run') as Hin by (by rewrite Hruns, lookup_insert_eq).
  split; [done|].
  destruct (rows_run_id run l ck now now') as [Hi Hw]. fold run' in Hi, Hw.
  pose proof (locked_members _ _ d run ck now now' Hk d1 Hk' Haps) as Hmem. fold l in Hmem.
  set (l2 := approvals_of_run (run_workspace_id run) (run_id run) d1) in *.
  assert (reconcile_rows run' l2 ck now now' = (run', l2, 0)) as Hfix.
  { apply rows_fixpoint.
    - intros a Ha%Hmem. by eapply rows_none_expired.
    - unfold run', rows_run, reconcile_rows. cbn [fst snd]. apply complete_terminal_idem.
    - apply (settled_members _ (rows_approvals run l ck now now')); [done|].
      apply rows_settled. }
  unfold reconcile_locked. rewrite bind_run. cbn [get]. rewrite Hw, Hi. fold l2.
  rewrite Hfix. cbn [fst snd].
  assert (rows_changed run' run' 0 = false) as ->.
  { unfold rows_changed. by rewrite !bool_decide_false by (intros Hn; by apply Hn). }
  rewrite !bind_run. unfold save_run, save_approvals. cbn [modify].
  rewrite Hi, insert_id by done. unfold modify, mret, M_ret.
  assert (put_all l2 (approvals d1) = approvals d1) as Hp.
  { apply put_all_id. intros a Ha. by apply elem_of_approvals_of_run in Ha as (? & _). }
  unfold put_all in Hp. rewrite !bind_run. cbn [approvals set_agent_runs]. rewrite Hp.
  by destruct d1.
Qed.
