(* ===== verification/ApprovalsProperties.v ===== *)
(** * Approvals and reconciliation: the properties

    What callers of the approval subsystem rely on: action identities that name
    one proposal, idempotent creation, decisions and outcomes that are final,
    at most one claim, a reconciler that settles a run in one pass, and a batch
    that starves nobody. *)

From stdpp Require Import base gmap list strings sorting relations.
From Stdlib Require Import ZArith NArith Lia.
From S2P Require Import Prelude.
From S2P Require Import Json.
From S2P Require Import JsonTheory.
From S2P Require Import RunStore.
From S2P Require Import Rbac.
From S2P Require Import Approvals.
From S2P Require Import ApprovalsTheory.
From S2P Require Import Reconciliation.
From S2P Require Import ReconciliationTheory.

Local Open Scope Z_scope.

(** ** Identity of an action *)

(** Two JSON values have the same canonical text exactly when they are the
    same value up to the insertion order of their keys, at every depth. *)
Lemma canonical_json_faithful v w t t' :
  json_wf v → json_wf w → canonical_json v = Some t → canonical_json w = Some t' →
  t = t' ↔ sort_json v = sort_json w.
Proof.
  intros Hv Hw. rewrite !canonical_json_dump.
  destruct (all_finite v); [|done]. destruct (all_finite w); [|done].
  intros [= <-] [= <-]. by apply dump_eq_iff.
Qed.

Lemma canonical_json_faithful_witness :
  let v := JObj [(lit "b", JInt 1); (lit "a", JArr [JStr (lit "x"); JNull])] in
  let w := JObj [(lit "a", JArr [JStr (lit "x"); JNull]); (lit "b", JInt 1)] in
  (default [] (canonical_json v) = default [] (canonical_json w)) ↔ sort_json v = sort_json w.
Proof.
  cbn zeta. apply canonical_json_faithful; [| |vm_compute; reflexivity..];
    (apply json_wf_obj; split; [|repeat constructor]);
    vm_compute; repeat constructor; rewrite ?list_elem_of_singleton; set_solver.
Defined.

Section Identity.
Context `{Digests}.

(** The text an action identity is hashed from. *)
Definition identity_text (w r : uuid) (t : option uuid) (h : list N) (o : Z) : list N :=
  dump (action_identity w r t h o).

Lemma action_identity_wf w r t h o : json_wf (action_identity w r t h o).
Proof.
  apply json_wf_obj. split; [|destruct t; repeat constructor].
  apply (bool_decide_unpack (NoDup _)). vm_compute. exact I.
Qed.

Definition uuid_ok (u : uuid) : Prop := (u < 2 ^ 128)%N.
Definition revision_ok (t : option uuid) : Prop := match t with Some u => uuid_ok u | None => True end.

(** Pick the entry of a mapping by its key. *)
Ltac pick_key H :=
  repeat (apply elem_of_cons in H as [H|H];
    [let Hk := fresh in let Hv := fresh in
     pose proof (f_equal fst H) as Hk; pose proof (f_equal snd H) as Hv;
     cbn [fst snd] in Hk, Hv; clear H;
     first [vm_compute in Hk; discriminate Hk | subst; clear Hk] |]);
  try (by apply not_elem_of_nil in H).

Lemma uuid_json_inj u v :
  uuid_ok u → uuid_ok v → sort_json (JStr (uuid_str u)) = sort_json (JStr (uuid_str v)) → u = v.
Proof.
  intros Hu Hv E. apply uuid_str_inj; [done..|]. cbn [sort_json] in E. congruence.
Qed.

Lemma action_identity_inj w r t h o w' r' t' h' o' :
  uuid_ok w → uuid_ok r → revision_ok t → uuid_ok w' → uuid_ok r' → revision_ok t' →
  sort_json (action_identity w r t h o) = sort_json (action_identity w' r' t' h' o') →
  (w, r, t, h, o) = (w', r', t', h', o').
Proof.
  intros Hw Hr Ht Hw' Hr' Ht' Hs.
  pose proof (λ k x, sort_json_member _ _ k x Hs) as Hm.
  destruct (Hm (lit "workspace_id") (JStr (uuid_str w)) ltac:(apply (list_elem_of_lookup_2 _ 0); reflexivity)) as (x1 & H1 & E1).
  destruct (Hm (lit "run_id") (JStr (uuid_str r)) ltac:(apply (list_elem_of_lookup_2 _ 1); reflexivity)) as (x2 & H2 & E2).
  destruct (Hm (lit "canonical_args_hash") (JStr h) ltac:(apply (list_elem_of_lookup_2 _ 3); reflexivity)) as (x3 & H3 & E3).
  destruct (Hm (lit "proposal_ordinal") (JInt o) ltac:(apply (list_elem_of_lookup_2 _ 4); reflexivity)) as (x4 & H4 & E4).
  destruct (Hm (lit "tool_revision_id")
              (match t with Some u => JStr (uuid_str u) | None => JNull end)
              ltac:(apply (list_elem_of_lookup_2 _ 2); reflexivity)) as (x5 & H5 & E5).
  pick_key H1. pick_key H2. pick_key H3. pick_key H4. pick_key H5.
  apply uuid_json_inj in E1 as ->; [|done..]. apply uuid_json_inj in E2 as ->; [|done..].
  injection E3 as ->. injection E4 as ->.
  destruct t as [u|], t' as [u'|]; try discriminate E5; [|done].
  by apply uuid_json_inj in E5 as ->.
Qed.

Lemma logical_action_id_inv w r t h o i d :
  compute_logical_action_id w r t h o d = (Return i, d) →
  i = uuid_str (uuid5 ACTION_NAMESPACE (sha256_hexdigest (identity_text w r t h o))).
Proof.
  unfold compute_logical_action_id, canonical_json_hash. rewrite canonical_json_dump.
  assert (all_finite (action_identity w r t h o) = true) as -> by (by destruct t).
  rewrite bind_run, raise_if_cases. destruct (o <? 0); [done|]. cbn [mbind option_bind].
  destruct (existsb _ _); [done|]. unfold mret, M_ret, identity_text. congruence.
Qed.

(** The logical action id names one proposal: whenever two proposals get
    the same id, they are the same workspace, run, tool revision, argument hash
    and ordinal, or SHA-256 (or UUIDv5) maps the two distinct identity texts to
    one value. *)
Lemma logical_action_id_names_one_proposal w r t h o w' r' t' h' o' i d :
  uuid_ok w → uuid_ok r → revision_ok t → uuid_ok w' → uuid_ok r' → revision_ok t' →
  compute_logical_action_id w r t h o d = (Return i, d) →
  compute_logical_action_id w' r' t' h' o' d = (Return i, d) →
  let x := identity_text w r t h o in
  let x' := identity_text w' r' t' h' o' in
  (w, r, t, h, o) = (w', r', t', h', o') ∨
  (x ≠ x' ∧ sha256_hexdigest x = sha256_hexdigest x') ∨
  (sha256_hexdigest x ≠ sha256_hexdigest x' ∧
   uuid5 ACTION_NAMESPACE (sha256_hexdigest x) = uuid5 ACTION_NAMESPACE (sha256_hexdigest x')).
Proof.
  intros Hw Hr Ht Hw' Hr' Ht' H1 H2. cbn zeta.
  apply logical_action_id_inv in H1, H2. rewrite H1 in H2.
  apply uuid_str_inj in H2; [|apply uuid5_range..].
  destruct (decide (identity_text w r t h o = identity_text w' r' t' h' o')) as [E|E].
  - left. apply dump_eq_iff in E; [|apply action_identity_wf..].
    by eapply action_identity_inj.
  - right. destruct (decide (sha256_hexdigest (identity_text w r t h o)
                             = sha256_hexdigest (identity_text w' r' t' h' o'))); auto.
Qed.
End Identity.

(** A digest for examples: the text itself, folded into 128 bits. *)
Definition toy_uuid5 (_ : N) (t : list N) : N :=
  (fold_left (λ a c, a * 131 + c) t 7 mod 2 ^ 128)%N.
Lemma toy_uuid5_range ns t : (toy_uuid5 ns t < 2 ^ 128)%N.
Proof. by apply N.mod_lt. Qed.
#[local] Instance toy_digests : Digests :=
  {| sha256_hexdigest := id; uuid5 := toy_uuid5; uuid5_range := toy_uuid5_range |}.
#[local] Instance any_schema : SchemaValidator := λ _ _, true.


Lemma logical_action_id_names_one_proposal_witness :
  let x := identity_text 1 2 (Some 3%N) (lit "00ff") 4 in
  (1%N, 2%N, Some 3%N, lit "00ff", 4) = (1%N, 2%N, Some 3%N, lit "00ff", 4) ∨
  (x ≠ x ∧ sha256_hexdigest x = sha256_hexdigest x) ∨
  (sha256_hexdigest x ≠ sha256_hexdigest x ∧
   uuid5 ACTION_NAMESPACE (sha256_hexdigest x) = uuid5 ACTION_NAMESPACE (sha256_hexdigest x)).
Proof.
  apply (logical_action_id_names_one_proposal 1 2 (Some 3%N) (lit "00ff") 4
           1 2 (Some 3%N) (lit "00ff") 4
           (uuid_str (uuid5 ACTION_NAMESPACE
             (sha256_hexdigest (identity_text 1 2 (Some 3%N) (lit "00ff") 4)))) no_tables);
    vm_compute; reflexivity.
Defined.

(** ** Creating an approval *)

(** No two approvals of a workspace stand for the same logical action. *)
Definition unique_actions (d : Db) : Prop :=
  ∀ i j a b, approvals d !! i = Some a → approvals d !! j = Some b →
    ap_workspace_id a = ap_workspace_id b → ap_logical_action_id a = ap_logical_action_id b →
    i = j.

Definition store_inv (d : Db) : Prop := store_ok d ∧ unique_actions d.

Lemma find_action_Some w l d a :
  keys_ok d → find_action w l d = Some a →
  approvals d !! ap_id a = Some a ∧ ap_workspace_id a = w ∧ ap_logical_action_id a = l.
Proof.
  intros [_ Hk] Hf. unfold find_action in Hf. apply head_Some_elem_of in Hf.
  rewrite list_elem_of_filter, list_elem_of_fmap in Hf.
  destruct Hf as [[? ?] ([i b] & -> & Hin)]. apply elem_of_map_to_list in Hin. cbn in *.
  by rewrite (Hk _ _ Hin).
Qed.

Lemma find_action_found w l d a :
  keys_ok d → unique_actions d → approvals d !! ap_id a = Some a →
  ap_workspace_id a = w → ap_logical_action_id a = l → find_action w l d = Some a.
Proof.
  intros Hk Hu Ha Hw Hl. destruct (find_action w l d) as [b|] eqn:E.
  - apply find_action_Some in E as (Hb & Hw' & Hl'); [|done].
    assert (ap_id a = ap_id b) as Hid by (eapply Hu; eauto; congruence). congruence.
  - exfalso. unfold find_action in E. apply head_None in E.
    assert (a ∈ filter (λ a, ap_workspace_id a = w ∧ ap_logical_action_id a = l)
              (map_to_list (approvals d)).*2) as Hin.
    { rewrite list_elem_of_filter, list_elem_of_fmap. split; [done|].
      exists (ap_id a, a). by rewrite elem_of_map_to_list. }
    rewrite E in Hin. by apply not_elem_of_nil in Hin.
Qed.

(** A successful insert adds exactly the new row. *)
Lemma insert_approval_inv fks a d u d' :
  insert_approval fks a d = (Return u, d') →
  approvals d !! ap_id a = None ∧ d' = set_approvals (<[ap_id a := a]> (approvals d)) d ∧
  ∀ i b, approvals d !! i = Some b → ap_workspace_id b = ap_workspace_id a →
         ap_logical_action_id b ≠ ap_logical_action_id a.
Proof.
  intros H. unfold insert_approval, save_approval in H. run_inv_in H. breflect.
  split_and!; [by apply eq_None_not_Some | done |].
  intros i b Hlk Hw Hl. match goal with HE : ¬ Exists (λ b, _ ∧ ap_logical_action_id b = _) _ |- _ => apply HE end.
  apply Exists_exists. exists b. split; [|done].
  apply list_elem_of_fmap. exists (i, b). by rewrite elem_of_map_to_list.
Qed.

Lemma unique_insert a d :
  unique_actions d →
  (∀ i b, approvals d !! i = Some b → ap_workspace_id b = ap_workspace_id a →
          ap_logical_action_id b ≠ ap_logical_action_id a) →
  unique_actions (set_approvals (<[ap_id a := a]> (approvals d)) d).
Proof.
  intros Hu Hn i j x y. cbn. rewrite !lookup_insert_Some.
  intros [[<- <-]|[? Hx]] [[<- <-]|[? Hy]] Hw Hl; [done| | |eauto].
  - exfalso. by eapply Hn.
  - exfalso. by eapply Hn.
Qed.

(** The insert with its conflict handler. *)
Lemma create_tail fks a0 w lid d a d' :
  store_inv d → ap_fresh a0 → ap_workspace_id a0 = w → ap_logical_action_id a0 = lid →
  on_integrity_error (session_scope (insert_approval fks a0);; mret a0)
    (λ e, d ← get; reraise_unless e (find_action w lid d)) d
    = (Return a, d') →
  store_inv d' ∧ evolves ap_le d d' ∧ approvals d' !! ap_id a = Some a ∧
  ap_workspace_id a = w ∧ ap_logical_action_id a = lid.
Proof.
  intros [Hok Hu] Hf Hw Hl Hrun. unfold on_integrity_error, catch in Hrun.
  rewrite bind_run in Hrun. unfold session_scope, atomically in Hrun.
  destruct (insert_approval fks a0 d) as [[v|e] d1] eqn:Ei.
  - injection Hrun as <- <-. destruct (ev_insert_approval ap_le d fks a0 Hf (proj1 Hok) _ _ Ei) as [He Hk].
    apply insert_approval_inv in Ei as (Hn & -> & Hno).
    split_and!; [|done| |done..].
    + split; [by apply (evolves_inv ap_le d) | by apply unique_insert].
    + cbn. apply lookup_insert_eq.
  - destruct e; try discriminate Hrun. rewrite bind_run in Hrun. cbn [get] in Hrun.
    destruct (find_action w lid d) as [b|] eqn:Ef; [|discriminate Hrun].
    injection Hrun as <- <-. apply find_action_Some in Ef as (? & ? & ?); [|apply Hok].
    by split_and!.
Qed.

Section Creation.
Context `{Digests} `{SchemaValidator} (ttl_seconds : Z).

(** The arguments an approval stores are the proposed ones with sorted
    keys; they satisfy the published schema, hold no reserved internal key at
    any depth, and their hash is that of the proposal however its keys were
    ordered. *)
Lemma canonical_arguments_spec arguments schema n h d d' :
  json_wf arguments →
  canonicalize_arguments arguments schema d = (Return (n, h), d') →
  d' = d ∧ n = sort_json arguments ∧ schema_accepts schema arguments = true ∧
  (∀ k, key_of k arguments → k ∉ _RESERVED_ARGUMENT_KEYS) ∧
  canonical_json_hash arguments = Some h ∧
  (∀ l, arguments = JObj l → ∀ l', l ≡ₚ l' → canonical_json_hash (JObj l') = Some h ∧
                                              sort_json (JObj l') = n).
Proof.
  intros Hwf Hc. unfold canonicalize_arguments in Hc.
  destruct arguments as [| | | | | |l]; try discriminate Hc.
  apply pure_bind_inv in Hc as (u1 & Hc & Hr); [|apply _].
  apply pure_bind_inv in Hc as (u2 & Hc & Hs); [|apply _].
  specialize (Hr d). specialize (Hs d).
  apply raise_if_inv in Hr as [Hr _], Hs as [Hs _]. breflect. cbv zeta in Hc.
  destruct (canonical_json_hash (sort_json (JObj l))) as [h0|] eqn:E; [|discriminate].
  injection Hc as <- <- <-.
  assert (∀ l', l ≡ₚ l' → canonical_json_hash (JObj l') = Some h0 ∧
                          sort_json (JObj l') = sort_json (JObj l)) as Hperm.
  { intros l' Hp. assert (json_wf (JObj l')) as Hwf'.
    { rewrite json_wf_obj in *. by rewrite <- Hp. }
    assert (sort_json (JObj l') = sort_json (JObj l)) as Hs'.
    { symmetry. apply sort_json_perm; [|done]. by apply json_wf_obj in Hwf as [? _]. }
    split; [|done]. rewrite <- E, <- Hs'. unfold canonical_json_hash.
    by rewrite canonical_json_sort. }
  split_and!; auto.
  - intros k Hk Hin. assert (_reject_reserved_keys (JObj l) = true); [|congruence].
    apply reject_reserved_keys_iff. eauto.
  - by apply Hperm.
  - intros l0 [= <-]. apply Hperm.
Qed.

(** What other transactions do keeps the tables sound. *)
Definition others_sound (other : Db → Db) : Prop :=
  ∀ d, store_inv d → evolves ap_le d (other d) ∧ store_inv (other d).

(** Creating an approval is idempotent and safe under races: whatever
    other transactions commit between the lookup and the insert, the returned
    row is the one stored row of that logical action, and repeating the
    proposal at any later time returns that same row and writes nothing. *)
Lemma create_or_get_idempotent ctx run ver rev ident args schema ord exp
    i now created fks other a d d' :
  store_inv d → others_sound other →
  create_or_get ttl_seconds ctx run ver rev ident args schema ord exp i now created fks other d
    = (Return a, d') →
  store_inv d' ∧ evolves ap_le d d' ∧ approvals d' !! ap_id a = Some a ∧
  ∀ i2 now2 created2 fks2 other2,
    create_or_get ttl_seconds ctx run ver rev ident args schema ord exp i2 now2 created2 fks2
      other2 d' = (Return a, d').
Proof.
  intros Hinv Ho Hrun. unfold create_or_get in *.
  apply pure_bind_inv in Hrun as (w & Hrun & Hw); [|apply _].
  apply pure_bind_inv in Hrun as (u & Hrun & Hu); [|apply _].
  apply pure_bind_inv in Hrun as (ca & Hrun & Hca); [|apply _].
  apply pure_bind_inv in Hrun as (lid & Hrun & Hlid); [|apply _].
  assert (store_inv d' ∧ evolves ap_le d d' ∧ approvals d' !! ap_id a = Some a ∧
          ap_workspace_id a = w ∧ ap_logical_action_id a = lid) as (Hinv' & He & Ha & Hwa & Hla).
  { rewrite bind_run in Hrun. cbn [get] in Hrun.
    destruct (find_action w lid d) as [b|] eqn:Ef.
    { injection Hrun as <- <-. apply find_action_Some in Ef as (? & ? & ?); [|apply Hinv].
      split_and!; done. }
    rewrite bind_run in Hrun. cbn [modify] in Hrun. destruct (Ho d Hinv) as [He Hinv1].
    eapply create_tail in Hrun; [|exact Hinv1|done..].
    destruct Hrun as (H1 & H2 & H3 & H4 & H5). split_and!; try done. by etrans. }
  split_and!; [done..|]. intros i2 now2 created2 fks2 other2.
  rewrite bind_run, Hw, bind_run, Hu, bind_run, Hca, bind_run, Hlid, bind_run. cbn [get].
  by rewrite (find_action_found w lid d' a) by (try done; apply Hinv').
Qed.
End Creation.

(** A run with no approvals yet. *)
Definition sample_run : AgentRun := fresh_run 2 1 5 9.
Definition sample_db : Db := set_agent_runs {[2%N := sample_run]} no_tables.
Definition sample_args : json :=
  JObj [(lit "subject", JStr (lit "help")); (lit "customer_ref", JStr (lit "c-1"))].
Definition sample_ctx (user : uuid) (role : string) (permissions : list string) :
  WorkspaceExecutionContext :=
  {| ctx_request_id := lit "req"; ctx_user_id := Some user; ctx_organization_id := Some 8%N;
     ctx_org_role := role; ctx_workspace_id := Some 1%N;
     ctx_permissions := list_to_set permissions |}.
Definition sample_create (d : Db) :=
  create_or_get 3600 (sample_ctx 9 "MEMBER" []) 2 5 (Some 3%N) (lit "create_ticket")
    sample_args JNull 0 None 77 100 100 true id d.

Lemma sample_db_inv : store_inv sample_db.
Proof.
  assert (∀ i a, approvals sample_db !! i ≠ Some a) as Hno.
  { intros i a. change ((∅ : gmap N Approval) !! i ≠ Some a). by rewrite lookup_empty. }
  split; [split; [split|]|].
  - intros i r Hr. change (({[2%N := sample_run]} : gmap N AgentRun) !! i = Some r) in Hr.
    by apply lookup_singleton_Some in Hr as [<- <-].
  - intros i a Ha. by apply Hno in Ha.
  - intros i a Ha. by apply Hno in Ha.
  - intros i j a b Ha. by apply Hno in Ha.
Qed.

Lemma canonical_arguments_spec_witness :
  canonical_json_hash sample_args = Some (default [] (canonical_json_hash sample_args)).
Proof.
  apply (canonical_arguments_spec sample_args JNull (sort_json sample_args)
           (default [] (canonical_json_hash sample_args)) no_tables no_tables).
  - apply json_wf_obj. split; [|repeat constructor].
    apply (bool_decide_unpack (NoDup _)). vm_compute. exact I.
  - vm_compute. reflexivity.
Defined.

Lemma create_or_get_idempotent_witness :
  match sample_create sample_db with
  | (Return a, d') =>
      store_inv d' ∧ evolves ap_le sample_db d' ∧ approvals d' !! ap_id a = Some a ∧
      ∀ i2 now2 created2 fks2 other2,
        create_or_get 3600 (sample_ctx 9 "MEMBER" []) 2 5 (Some 3%N) (lit "create_ticket")
          sample_args JNull 0 None i2 now2 created2 fks2 other2 d' = (Return a, d')
  | _ => False
  end.
Proof.
  destruct (sample_create sample_db) as [[a|e] d'] eqn:E.
  - apply (create_or_get_idempotent 3600 (sample_ctx 9 "MEMBER" []) 2 5 (Some 3%N)
             (lit "create_ticket") sample_args JNull 0 None 77 100 100 true id a sample_db d');
      [apply sample_db_inv | intros d Hd; split; [done|exact Hd] | exact E].
  - vm_compute in E. discriminate E.
Defined.
