(* ===== verification/ApprovalsLifecycle.v ===== *)
(** * The life of an approval under any sequence of transactions

    [txn] is one committed transaction of anybody: the service operations, both
    reconciliation entry points, and any write that leaves the approvals table
    alone.  The properties hold along every sequence of them. *)

From stdpp Require Import base gmap list strings sorting relations.
From Stdlib Require Import ZArith NArith Lia.
From S2P Require Import Prelude.
From S2P Require Import Json.
From S2P Require Import JsonTheory.
From S2P Require Import RunStore.
From S2P Require Import Rbac.
From S2P Require Import Approvals.
From S2P Require Import ApprovalsTheory.
From S2P Require Import Reconciliation.
From S2P Require Import ReconciliationTheory.
From S2P Require Import ApprovalsProperties.

Local Open Scope Z_scope.

Section Transactions.
Context `{Digests} `{SchemaValidator}.

Inductive txn (d d' : Db) : Prop :=
| txn_create ttl ctx run ver rev ident args schema ord exp i now created fks r :
    create_or_get ttl ctx run ver rev ident args schema ord exp i now created fks id d = (r, d') →
    txn d d'
| txn_decide ctx i dec reason now r :
    decide_approval ctx i dec reason now d = (r, d') → txn d d'
| txn_claim ctx i now r : claim_execution ctx i now d = (r, d') → txn d d'
| txn_complete ctx i st res f m now r :
    complete_execution ctx i st res f m now d = (r, d') → txn d d'
| txn_cancel ctx run now r : cancel_pending_for_run ctx run now d = (r, d') → txn d d'
| txn_reconcile probe ctx run ck now now' r :
    reconcile_run probe ctx run ck now now' d = (r, d') → txn d d'
| txn_batch probe send n s now clock0 clock locked r :
    reconcile_candidates probe send n s now clock0 clock locked d = (r, d') → txn d d'
| txn_withdraw w runs now r : _cancel_pending_approvals w runs now d = (r, d') → txn d d'
| txn_other : approvals d' = approvals d → keys_ok d' → txn d d'.

Lemma id_ok R `{!ApOrder R} : others_ok R id.
Proof. intros d Hk. split; [by apply evolves_refl | done]. Qed.

(** Everything but a decision is quiet. *)
Lemma txn_quiet d d' :
  keys_ok d → txn d d' →
  (evolves quiet d d' ∧ keys_ok d') ∨
  ∃ ctx i dec reason now r, decide_approval ctx i dec reason now d = (r, d').
Proof.
  intros Hk [??????????????? Hr|?????? Hr|???? Hr|???????? Hr|???? Hr|??????? Hr|????????? Hr|???? Hr|Hs Hk'].
  - left. eapply (ev_create_or_get _ quiet); [apply id_ok; apply _|exact Hk|exact Hr].
  - right. eauto 10.
  - left. apply (evolving_run quiet _ _ _ _ Hr Hk _).
  - left. apply (evolving_run quiet _ _ _ _ Hr Hk _).
  - left. apply (evolving_run quiet _ _ _ _ Hr Hk _).
  - left. apply (evolving_run quiet _ _ _ _ Hr Hk _).
  - left. apply (evolving_run quiet _ _ _ _ Hr Hk _).
  - left. apply (evolving_run quiet _ _ _ _ Hr Hk _).
  - left. split; [by apply evolves_same; [apply _|] | done].
Qed.

Lemma quiet_coarse d d' : evolves quiet d d' → evolves ap_le d d'.
Proof.
  intros [H1 H2]. split.
  - intros i a Ha. destruct (H1 i a Ha) as (a' & ? & [? _]). eauto.
  - intros i a' Ha Hn. destruct (H2 i a' Ha Hn) as (a & ? & [? _]). eauto.
Qed.

Lemma txn_evolves d d' : keys_ok d → txn d d' → evolves ap_le d d' ∧ keys_ok d'.
Proof.
  intros Hk Ht. destruct (txn_quiet d d' Hk Ht) as [[H1 H2]|(?&?&?&?&?&?&Hr)].
  - split; [by apply quiet_coarse | done].
  - apply (evolving_run ap_le _ _ _ _ Hr Hk _).
Qed.

Lemma txns_evolve d d' : keys_ok d → rtc txn d d' → evolves ap_le d d' ∧ keys_ok d'.
Proof.
  intros Hk Hr. induction Hr as [d|d1 d2 d3 Ht _ IH].
  - split; [by apply evolves_refl; apply _ | done].
  - destruct (txn_evolves _ _ Hk Ht) as [E1 K1]. destruct (IH K1) as [E2 K2].
    split; [by apply (evolves_trans ap_le d1 d2 d3) | done].
Qed.

(** C17. Along any sequence of transactions an approval is never lost, its
    identity, arguments and requester never change, a decision once taken is
    final (status, decider and time), and an execution outcome once recorded is
    final (status, result, failure and times). *)
Theorem approvals_only_move_forward d d' i a :
  keys_ok d → rtc txn d d' → approvals d !! i = Some a →
  ∃ a', approvals d' !! i = Some a' ∧ ap_static a' = ap_static a ∧
    (ap_decision_status a ≠ PENDING → ap_decision a' = ap_decision a) ∧
    (terminal_execution (ap_execution_status a) = true → ap_outcome a' = ap_outcome a).
Proof.
  intros Hk Ht Ha. destruct (txns_evolve _ _ Hk Ht) as [[H1 _] _].
  destruct (H1 _ _ Ha) as (a' & Ha' & [S D O _ _ _ _]). eauto.
Qed.

(** A granted claim, and a refused one. *)
Lemma claim_granted ctx i now d a d1 :
  store_ok d → claim_execution ctx i now d = (Return (Some a), d1) →
  approvals d1 !! i = Some a ∧ ap_execution_status a = CLAIMED ∧
  ap_decision_status a = APPROVED ∧ ap_execution_attempt_count a = 1 ∧
  ∃ b w, find_approval w i d = Some b ∧ ctx_workspace_id ctx = Some w ∧
    a = set_ap_execution_attempt_count (ap_execution_attempt_count b + 1)
          (set_ap_claimed_at (Some now) (set_ap_execution_status CLAIMED b)) ∧
    d1 = set_approvals (<[i := a]> (approvals d)) d.
Proof.
  intros Hok Hc. apply pure_bind_inv in Hc as (w & Hc & Hw); [|apply _].
  unfold session_scope, atomically in Hc. rewrite bind_run in Hc. cbn [get] in Hc.
  destruct (find_approval w i d) as [b|] eqn:Ef; [|discriminate Hc].
  destruct (_ && _) eqn:Eg; [|discriminate Hc]. breflect.
  pose proof (proj1 (find_approval_Some _ _ _ _) Ef) as [Hb _].
  pose proof (proj2 (proj1 Hok) _ _ Hb) as Hid.
  injection Hc as <- <-. cbn. rewrite Hid, lookup_insert_eq.
  split_and!; try done; [by rewrite (inv_not_started b (proj2 Hok _ _ Hb))|].
  exists b, w. split_and!; try done. specialize (Hw d). unfold _workspace_uuid, uuid_or_401 in Hw.
  by destruct (ctx_workspace_id ctx) as [w'|]; [injection Hw as -> | discriminate Hw].
Qed.

Lemma claim_refused ctx i now d b r d' :
  approvals d !! i = Some b → ap_execution_status b ≠ NOT_STARTED →
  claim_execution ctx i now d = (r, d') → d' = d ∧ ∀ x, r ≠ Return (Some x).
Proof.
  intros Hb Hn Hc. unfold claim_execution in Hc. rewrite bind_run in Hc.
  unfold _workspace_uuid, uuid_or_401 in Hc.
  destruct (ctx_workspace_id ctx) as [w|]; [|by injection Hc as <- <-].
  cbn [mret M_ret] in Hc. unfold session_scope, atomically in Hc.
  rewrite bind_run in Hc. cbn [get] in Hc. unfold find_approval in Hc. rewrite Hb in Hc.
  cbn [mbind option_bind] in Hc. destruct (_ =? _)%N; [|by injection Hc as <- <-].
  rewrite (bool_decide_false (ap_execution_status b = NOT_STARTED)) in Hc by done.
  rewrite andb_false_r in Hc. by injection Hc as <- <-.
Qed.

(** C18. In every database reachable from a sound one an approval has been
    claimed at most once and only after an approval; and once somebody holds
    the claim, nobody else ever gets it: every later claim returns nothing and
    changes nothing. *)
Theorem claimed_at_most_once d d1 ctx i now a :
  store_ok d → claim_execution ctx i now d = (Return (Some a), d1) →
  (ap_decision_status a = APPROVED ∧ ap_execution_attempt_count a = 1 ∧
   approvals d1 !! i = Some a) ∧
  ∀ d2, rtc txn d1 d2 →
    (∀ j b, approvals d2 !! j = Some b → ap_inv b) ∧
    ∀ ctx2 now2 r d3, claim_execution ctx2 i now2 d2 = (r, d3) →
      d3 = d2 ∧ ∀ b, r ≠ Return (Some b).
Proof.
  intros Hok Hc. destruct (evolving_run quiet _ _ _ _ Hc (proj1 Hok) _) as [He1 Hk1].
  pose proof (evolves_inv quiet _ _ He1 Hok Hk1) as Hok1.
  apply claim_granted in Hc as (Ha & Hs & Hd & Hn & _); [|done].
  split; [done|]. intros d2 Ht. destruct (txns_evolve _ _ Hk1 Ht) as [He Hk2].
  split; [apply (evolves_inv ap_le _ _ He Hok1 Hk2)|].
  intros ctx2 now2 r d3 Hc2. destruct (proj1 He _ _ Ha) as (b & Hb & Hle).
  apply (claim_refused _ _ _ _ _ _ _ Hb) in Hc2; [done|].
  intros Hn'. apply (le_started _ _ Hle) in Hn'. congruence.
Qed.

(** ** Deciding *)

(** The run an approval belongs to, with the resume outbox flag set. *)
Definition resumed (w i : uuid) (d : Db) : Db :=
  match find_run w i d with
  | Some r => set_agent_runs (<[run_id r := set_run_resume_pending true r]> (agent_runs d)) d
  | None => d
  end.

Lemma set_resume_pending_run w i d : ∃ n, set_resume_pending w i d = (Return n, resumed w i d).
Proof.
  unfold set_resume_pending, update_run, resumed. rewrite bind_run. cbn [get].
  destruct (find_run w i d) as [r|]; eexists; reflexivity.
Qed.

Definition decided_row (dec : ApprovalDecisionStatus.t) (u : uuid) (now : datetime)
    (a : Approval) : Approval :=
  set_ap_decided_at (Some now) (set_ap_decided_by (Some u) (set_ap_decision_status dec a)).
Definition expired_row (now : datetime) (a : Approval) : Approval :=
  set_ap_decided_at (Some now) (set_ap_decision_status ApprovalDecisionStatus.EXPIRED a).
Definition past_deadline (now : datetime) (a : Approval) : bool :=
  match ap_expires_at a with Some e => e <=? now | None => false end.
Definition with_approval (a : Approval) (d : Db) : Db :=
  set_approvals (<[ap_id a := a]> (approvals d)) d.

(** The audit entry of a decision. *)
Definition decision_audit (ctx : WorkspaceExecutionContext) (u o w : uuid) (a : Approval)
    (dec : ApprovalDecisionStatus.t) (reason : option (list N)) : AuditLog :=
  {| audit_actor_user_id := Some u; audit_organization_id := Some o;
     audit_workspace_id := Some w; audit_action := "approval.decide";
     audit_resource_type := "approval"; audit_resource_id := Some (uuid_str (ap_id a));
     audit_request_id := Some (ctx_request_id ctx);
     audit_safe_metadata := decision_metadata a dec reason |}.

(** The keys of the decision metadata are never taken for secrets. *)
Lemma decision_metadata_safe a dec reason :
  assert_safe_metadata (decision_metadata a dec reason) = false.
Proof.
  unfold decision_metadata. cbn [assert_safe_metadata]. rewrite existsb_app.
  apply orb_false_iff. split; [vm_compute; reflexivity|].
  destruct (bool_decide _); vm_compute; reflexivity.
Qed.

(** A decision either changes nothing, or expires the approval, or records the
    decision of an eligible user. *)
Lemma decide_cases ctx i dec reason now r d d' :
  decide_approval ctx i dec reason now d = (r, d') →
  d' = d ∨
  ∃ w u a, ctx_workspace_id ctx = Some w ∧ ctx_user_id ctx = Some u ∧
    has_permission (ctx_permissions ctx) APPROVE_ACTION = true ∧
    find_approval w i d = Some a ∧ ap_decision_status a = PENDING ∧
    ((past_deadline now a = true ∧
      d' = resumed w (ap_run_id a) (with_approval (expired_row now a) d)) ∨
     (past_deadline now a = false ∧
      (dec = APPROVED → ap_requested_by a = u → ctx_org_role ctx ∈ ["OWNER"; "ADMIN"]%string) ∧
      ∃ o, ctx_organization_id ctx = Some o ∧
        let d1 := resumed w (ap_run_id a) (with_approval (decided_row dec u now a) d) in
        d' = set_audit_logs (audit_logs d1 ++
               [decision_audit ctx u o w (decided_row dec u now a) dec reason]) d1)).
Proof.
  intros Hd. unfold decide_approval in Hd.
  rewrite bind_run, raise_if_cases in Hd.
  destruct (has_permission _ _) eqn:Ep; cbn [negb] in Hd; [|injection Hd as _ <-; by left].
  rewrite bind_run, raise_if_cases in Hd.
  destruct (bool_decide (dec ∉ _)) eqn:Edec; [injection Hd as _ <-; by left|].
  rewrite bind_run in Hd. unfold _workspace_uuid, _user_uuid, uuid_or_401 in Hd.
  destruct (ctx_workspace_id ctx) as [w|] eqn:Ew; [|injection Hd as _ <-; by left].
  cbn [mret M_ret] in Hd. rewrite bind_run in Hd.
  destruct (ctx_user_id ctx) as [u|] eqn:Eu; [|injection Hd as _ <-; by left].
  cbn [mret M_ret] in Hd. unfold session_scope, atomically in Hd.
  rewrite bind_run in Hd. cbn [get] in Hd. rewrite bind_run in Hd. unfold reraise_unless in Hd.
  destruct (find_approval w i d) as [a|] eqn:Ef; [|injection Hd as _ <-; by left].
  cbn [mret M_ret] in Hd.
  destruct (bool_decide (ap_decision_status a ≠ PENDING)) eqn:Epend;
    [injection Hd as _ <-; by left|]. breflect. apply dec_stable in Epend.
  fold (past_deadline now a) in Hd. destruct (past_deadline now a) eqn:Edl.
  - right. exists w, u, a. split_and!; try done. left. split; [done|].
    fold (expired_row now a) in Hd.
    rewrite bind_run in Hd. unfold save_approval at 1 in Hd. cbn [modify] in Hd.
    rewrite bind_run in Hd. fold (with_approval (expired_row now a) d) in Hd.
    destruct (set_resume_pending_run w (ap_run_id (expired_row now a))
                (with_approval (expired_row now a) d)) as [n Hn].
    rewrite Hn in Hd. by injection Hd as _ <-.
  - rewrite bind_run, raise_if_cases in Hd.
    destruct (bool_decide (dec = APPROVED) && (ap_requested_by a =? u)%N && _) eqn:Eg;
      [injection Hd as _ <-; by left|].
    fold (decided_row dec u now a) in Hd.
    rewrite bind_run in Hd. unfold save_approval at 1 in Hd. cbn [modify] in Hd.
    rewrite bind_run in Hd. fold (with_approval (decided_row dec u now a) d) in Hd.
    destruct (set_resume_pending_run w (ap_run_id (decided_row dec u now a))
                (with_approval (decided_row dec u now a) d)) as [n Hn].
    rewrite Hn in Hd. rewrite bind_run in Hd. unfold _organization_uuid, uuid_or_401 in Hd.
    destruct (ctx_organization_id ctx) as [o|] eqn:Eo; [|injection Hd as _ <-; by left].
    cbn [mret M_ret] in Hd. rewrite bind_run in Hd. unfold append_audit in Hd.
    rewrite bind_run, raise_if_cases in Hd. cbn [audit_safe_metadata] in Hd.
    rewrite decision_metadata_safe in Hd. cbn [modify mret M_ret] in Hd.
    injection Hd as _ <-. right. exists w, u, a. split_and!; try done. right.
    split_and!; [done| |].
    + intros -> <-. rewrite bool_decide_true, N.eqb_refl in Eg by done. cbn [andb] in Eg. breflect.
      by apply dec_stable.
    + exists o. split; [done|]. reflexivity.
Qed.

Lemma resumed_approvals w i d : approvals (resumed w i d) = approvals d.
Proof. unfold resumed. by destruct (find_run w i d). Qed.

Lemma resumed_run w i d r :
  keys_ok d → find_run w i d = Some r →
  find_run w i (resumed w i d) = Some (set_run_resume_pending true r).
Proof.
  intros Hk Hr. unfold resumed. rewrite Hr. apply find_run_Some in Hr as [Hr Hw].
  apply find_run_Some. cbn. by rewrite (proj1 Hk _ _ Hr), lookup_insert_eq.
Qed.

(** C19. An action becomes approved only by the decision of an eligible person:
    in whatever transaction turns an approval into [APPROVED], a user of the
    same workspace holding [approve_action] decided it while it was pending and
    before its deadline, and that user is not the requester unless an owner or
    administrator; the row names the decider and the time, execution is not
    started by it, the run is flagged for resumption and one audit entry naming
    the approval is appended. *)
Theorem approval_needs_eligible_decider d d' i a a' :
  keys_ok d → txn d d' → approvals d !! i = Some a → approvals d' !! i = Some a' →
  ap_decision_status a ≠ APPROVED → ap_decision_status a' = APPROVED →
  ∃ ctx u o now reason,
    ctx_user_id ctx = Some u ∧ ctx_workspace_id ctx = Some (ap_workspace_id a) ∧
    APPROVE_ACTION ∈ ctx_permissions ctx ∧
    ap_decision_status a = PENDING ∧ past_deadline now a = false ∧
    (u = ap_requested_by a → ctx_org_role ctx ∈ ["OWNER"; "ADMIN"]%string) ∧
    a' = decided_row APPROVED u now a ∧
    (∀ r, find_run (ap_workspace_id a) (ap_run_id a) d = Some r →
          find_run (ap_workspace_id a) (ap_run_id a) d' = Some (set_run_resume_pending true r)) ∧
    audit_logs d' = audit_logs d ++ [decision_audit ctx u o (ap_workspace_id a) a' APPROVED reason].
Proof.
  intros Hk Ht Ha Ha' Hna Hap.
  destruct (txn_quiet _ _ Hk Ht) as [[[Hq _] _]|(ctx & j & dec & reason & now & r & Hd)].
  { destruct (Hq _ _ Ha) as (b & Hb & [_ Hb']). rewrite Ha' in Hb. injection Hb as <-. tauto. }
  apply decide_cases in Hd as [->|(w & u & b & Hw & Hu & Hp & Hf & Hpend & Hcase)];
    [congruence|].
  pose proof (proj1 (find_approval_Some _ _ _ _) Hf) as [Hb Hbw].
  pose proof (proj2 Hk _ _ Hb) as Hid.
  destruct Hcase as [[_ ->]|(Hdl & Hself & o & Ho & ->)].
  - exfalso. rewrite resumed_approvals in Ha'. cbn in Ha'.
    apply lookup_insert_Some in Ha' as [[<- <-]|[_ Hx]]; [discriminate Hap|congruence].
  - cbn zeta in *.
    assert (approvals (set_audit_logs (audit_logs (resumed w (ap_run_id b)
              (with_approval (decided_row dec u now b) d)) ++
              [decision_audit ctx u o w (decided_row dec u now b) dec reason])
              (resumed w (ap_run_id b) (with_approval (decided_row dec u now b) d)))
            = <[ap_id b := decided_row dec u now b]> (approvals d)) as Hmap.
    { cbn. by rewrite resumed_approvals. }
    rewrite Hmap in Ha'. apply lookup_insert_Some in Ha' as [[Hi <-]|[_ Hx]]; [|congruence].
    cbn in Hap. subst dec. assert (a = b) as -> by congruence. subst w.
    exists ctx, u, o, now, reason. unfold has_permission in Hp. breflect.
    split_and!; try done.
    + intros ->. by apply Hself.
    + intros r0 Hr0. cbn. apply (resumed_run _ _ (with_approval _ d)).
      * split; [apply Hk|]. cbn. intros k x. rewrite lookup_insert_Some.
        intros [[<- <-]|[_ Hx]]; [done|by apply (proj2 Hk)].
      * exact Hr0.
    + cbn. unfold resumed. by destruct (find_run _ _ _).
Qed.
End Transactions.

(** ** The inbox *)

Lemma pages_concat {A} (n m : nat) (l : list A) :
  concat ((λ k, take n (drop (k * n) l)) <$> seq 0 m) = take (m * n) l.
Proof.
  induction m as [|m IH]; [done|].
  rewrite seq_S, fmap_app, concat_app, IH. cbn. rewrite app_nil_r.
  rewrite take_take_drop. f_equal. lia.
Qed.

#[global] Instance row_ge_trans : Transitive row_ge.
Proof. intros a b c. unfold row_ge, row_le. lia. Qed.
#[global] Instance row_ge_total : Total row_ge.
Proof. intros a b. unfold row_ge, row_le. lia. Qed.

(** The rows a listing selects. *)
Definition selected (w : uuid) (f : option string) (d : Db) : list Approval :=
  filter (λ a, page_filter w f a = true) (map_to_list (approvals d)).*2.

(** The paged inbox neither skips nor repeats a row: every page of a
    listing reads the database without changing it and reports the number of
    matching rows, and consecutive pages of any size, put together, are exactly
    the matching rows of the workspace, newest first. *)
Lemma inbox_pages_partition ctx w f limit pages d :
  has_permission (ctx_permissions ctx) WORKSPACE_READ = true → ctx_workspace_id ctx = Some w →
  (length (selected w f d) <= pages * limit)%nat →
  ∃ rows, rows ≡ₚ selected w f d ∧ StronglySorted row_ge rows ∧
    (∀ k, ∃ page, list_page ctx f limit (k * limit) d
                  = (Return (page, Z.of_nat (length (selected w f d))), d) ∧
          page = take limit (drop (k * limit) rows)) ∧
    concat ((λ k, take limit (drop (k * limit) rows)) <$> seq 0 pages) = rows.
Proof.
  intros Hp Hw Hn. exists (merge_sort row_ge (selected w f d)).
  assert (merge_sort row_ge (selected w f d) ≡ₚ selected w f d) as Hperm
    by apply merge_sort_Permutation.
  split_and!; [done | apply StronglySorted_merge_sort; apply _ | |].
  - intros k. eexists. split; [|done]. unfold list_page, require_permission.
    rewrite bind_run, raise_if_cases, Hp. cbn [negb].
    rewrite bind_run. unfold _workspace_uuid, uuid_or_401. rewrite Hw. done.
  - rewrite pages_concat. apply take_ge. by rewrite Hperm.
Qed.

(** ** Where the service and the declared state machine differ *)

(** C20. [complete_execution] asks only that no outcome is recorded yet: it
    records [SUCCEEDED] on an approval nobody claimed or even approved, a move
    that [transition_execution] declares illegal. *)
Theorem complete_without_claim ctx w i a res now d :
  ctx_workspace_id ctx = Some w → find_approval w i d = Some a →
  ap_execution_status a = NOT_STARTED →
  let s := ApprovalExecutionStatus.SUCCEEDED in
  transition_execution (ap_execution_status a) s = None ∧
  ∃ a', complete_execution ctx i s res None None now d
        = (Return a', set_approvals (<[ap_id a := a']> (approvals d)) d) ∧
    ap_execution_status a' = s ∧ ap_decision_status a' = ap_decision_status a.
Proof.
  intros Hw Hf Hs. cbn zeta. split; [by rewrite Hs|].
  eexists. split.
  - unfold complete_execution. rewrite bind_run, raise_if_cases. cbn [terminal_execution].
    rewrite bind_run. unfold _workspace_uuid, uuid_or_401. rewrite Hw.
    cbn [mret M_ret]. unfold session_scope, atomically. rewrite bind_run. cbn [get].
    rewrite bind_run. unfold reraise_unless. rewrite Hf. cbn [mret M_ret].
    assert (terminal_execution (ap_execution_status a) = false) as -> by (by rewrite Hs).
    reflexivity.
  - done.
Qed.

(** ** Examples *)

Definition sample_approval (dec : ApprovalDecisionStatus.t) (exec : ApprovalExecutionStatus.t) :
  Approval :=
  set_ap_execution_status exec (set_ap_decision_status dec
    (new_approval 77 1 2 5 (lit "action") (Some 3%N) (lit "create_ticket") sample_args
       (lit "hash") 9 1000 0)).
Definition approval_db (a : Approval) : Db := set_approvals {[77%N := a]} sample_db.
Definition pending_db : Db := approval_db (sample_approval PENDING NOT_STARTED).
Definition approved_db : Db := approval_db (sample_approval APPROVED NOT_STARTED).
Definition approver : WorkspaceExecutionContext := sample_ctx 10 "MEMBER" ["approve_action"%string].

Lemma approval_db_keys a : ap_id a = 77%N → keys_ok (approval_db a).
Proof.
  intros Hid. split.
  - apply sample_db_inv.
  - intros i b Hb. change (({[77%N := a]} : gmap N Approval) !! i = Some b) in Hb.
    by apply lookup_singleton_Some in Hb as [<- <-].
Qed.

Lemma approved_db_ok : store_ok approved_db.
Proof.
  split; [by apply approval_db_keys|]. intros i b Hb.
  change (({[77%N := sample_approval APPROVED NOT_STARTED]} : gmap N Approval) !! i = Some b) in Hb.
  apply lookup_singleton_Some in Hb as [<- <-]. by split.
Qed.

#[local] Existing Instance toy_digests.
#[local] Existing Instance any_schema.

Definition decided_db : Db := snd (decide_approval approver 77 APPROVED None 50 pending_db).

Lemma sample_decision : txn pending_db decided_db.
Proof.
  apply (txn_decide pending_db decided_db approver 77 APPROVED None 50
           (fst (decide_approval approver 77 APPROVED None 50 pending_db))).
  apply surjective_pairing.
Qed.

Lemma approvals_only_move_forward_witness :
  let a := sample_approval PENDING NOT_STARTED in
  ∃ a', approvals decided_db !! 77%N = Some a' ∧ ap_static a' = ap_static a ∧
    (ap_decision_status a ≠ PENDING → ap_decision a' = ap_decision a) ∧
    (terminal_execution (ap_execution_status a) = true → ap_outcome a' = ap_outcome a).
Proof.
  apply (approvals_only_move_forward pending_db decided_db 77).
  - by apply approval_db_keys.
  - apply rtc_once, sample_decision.
  - reflexivity.
Defined.

Lemma claimed_at_most_once_witness :
  match claim_execution approver 77 60 approved_db with
  | (Return (Some a), d1) =>
      (ap_decision_status a = APPROVED ∧ ap_execution_attempt_count a = 1 ∧
       approvals d1 !! 77%N = Some a) ∧
      ∀ d2, rtc txn d1 d2 →
        (∀ j b, approvals d2 !! j = Some b → ap_inv b) ∧
        ∀ ctx2 now2 r d3, claim_execution ctx2 77 now2 d2 = (r, d3) →
          d3 = d2 ∧ ∀ b, r ≠ Return (Some b)
  | _ => False
  end.
Proof.
  destruct (claim_execution approver 77 60 approved_db) as [[[a|]|e] d1] eqn:E;
    [|vm_compute in E; discriminate E..].
  exact (claimed_at_most_once approved_db d1 approver 77 60 a approved_db_ok E).
Defined.

Lemma approval_needs_eligible_decider_witness :
  let a := sample_approval PENDING NOT_STARTED in
  let a' := decided_row APPROVED 10 50 a in
  ∃ ctx u o now reason,
    ctx_user_id ctx = Some u ∧ ctx_workspace_id ctx = Some (ap_workspace_id a) ∧
    APPROVE_ACTION ∈ ctx_permissions ctx ∧
    ap_decision_status a = PENDING ∧ past_deadline now a = false ∧
    (u = ap_requested_by a → ctx_org_role ctx ∈ ["OWNER"; "ADMIN"]%string) ∧
    a' = decided_row APPROVED u now a ∧
    (∀ r, find_run (ap_workspace_id a) (ap_run_id a) pending_db = Some r →
          find_run (ap_workspace_id a) (ap_run_id a) decided_db
            = Some (set_run_resume_pending true r)) ∧
    audit_logs decided_db = audit_logs pending_db
      ++ [decision_audit ctx u o (ap_workspace_id a) a' APPROVED reason].
Proof.
  apply (approval_needs_eligible_decider pending_db decided_db 77); try done.
  - by apply approval_db_keys.
  - apply sample_decision.
Defined.

Lemma inbox_pages_partition_witness :
  let ctx := sample_ctx 9 "MEMBER" ["workspace_read"%string] in
  let f := Some "PENDING"%string in
  ∃ rows, rows ≡ₚ selected 1 f pending_db ∧ StronglySorted row_ge rows ∧
    (∀ k, ∃ page, list_page ctx f 1 (k * 1) pending_db
                  = (Return (page, Z.of_nat (length (selected 1 f pending_db))), pending_db) ∧
          page = take 1 (drop (k * 1) rows)) ∧
    concat ((λ k, take 1 (drop (k * 1) rows)) <$> seq 0 2) = rows.
Proof.
  apply (inbox_pages_partition (sample_ctx 9 "MEMBER" ["workspace_read"%string]) 1
           (Some "PENDING"%string) 1 2 pending_db);
    [vm_compute; reflexivity | reflexivity | vm_compute; repeat constructor].
Defined.

Lemma complete_without_claim_witness :
  let s := ApprovalExecutionStatus.SUCCEEDED in
  transition_execution NOT_STARTED s = None ∧
  ∃ a', complete_execution approver 77 s None None None 60 pending_db
        = (Return a', set_approvals (<[77%N := a']> (approvals pending_db)) pending_db) ∧
    ap_execution_status a' = s ∧ ap_decision_status a' = PENDING.
Proof.
  apply (complete_without_claim approver 1 77 (sample_approval PENDING NOT_STARTED) None 60
           pending_db); reflexivity.
Defined.
