(* ===== verification/ReconciliationProperties.v ===== *)
(** * Reconciliation: the properties

    One pass settles a run and a second pass is a no-op; a cancellation is never
    confirmed over an action whose outcome is open; the beat task's batch always
    finishes and never starves a run it passed over. *)

From stdpp Require Import base gmap list strings sorting.
From Stdlib Require Import ZArith NArith Lia.
From S2P Require Import Prelude.
From S2P Require Import Json.
From S2P Require Import JsonTheory.
From S2P Require Import RunStore.
From S2P Require Import Rbac.
From S2P Require Import Approvals.
From S2P Require Import ApprovalsTheory.
From S2P Require Import Reconciliation.
From S2P Require Import ReconciliationTheory.
From S2P Require Import ApprovalsProperties.
From S2P Require Import ApprovalsLifecycle.

Local Open Scope Z_scope.

(** ** One run *)

(** A successful call, opened. *)
Lemma reconcile_run_inv probe ctx i ck now now' d r d' :
  reconcile_run probe ctx i (Some ck) now now' d = (Return r, d') →
  has_permission (ctx_permissions ctx) "agent_run" = true ∧
  ∃ w run out, ctx_workspace_id ctx = Some w ∧ find_run w i d = Some run ∧
    reconcile_locked run run ck now now' d = (Return out, d') ∧ out.1.1 = r.
Proof.
  intros H. apply pure_bind_inv in H as (u & H & Hp); [|apply _].
  specialize (Hp d). apply raise_if_inv in Hp as [Hp _]. breflect. split; [done|].
  rewrite bind_run in H. cbn [mret M_ret] in H. unfold session_scope, atomically in H.
  rewrite bind_run in H. unfold parse_workspace in H.
  destruct (ctx_workspace_id ctx) as [w|]; [|discriminate H]. cbn [mret M_ret] in H.
  rewrite bind_run in H. cbn [get] in H. rewrite bind_run in H. unfold reraise_unless in H.
  destruct (find_run w i d) as [run|] eqn:Ef; [|discriminate H]. cbn [mret M_ret] in H.
  rewrite bind_run in H.
  destruct (reconcile_locked run run ck now now' d) as [[out|e] d1] eqn:El; [|discriminate H].
  injection H as <- <-. eauto 10.
Qed.

Lemma reconcile_run_intro probe ctx w i ck now now' d run out d' :
  has_permission (ctx_permissions ctx) "agent_run" = true →
  ctx_workspace_id ctx = Some w → find_run w i d = Some run →
  reconcile_locked run run ck now now' d = (Return out, d') →
  reconcile_run probe ctx i (Some ck) now now' d = (Return out.1.1, d').
Proof.
  intros Hp Hw Hf Hl. unfold reconcile_run, require_permission.
  rewrite bind_run, raise_if_cases, Hp. cbn [negb].
  rewrite bind_run. cbn [mret M_ret]. unfold session_scope, atomically.
  rewrite bind_run. unfold parse_workspace. rewrite Hw. cbn [mret M_ret].
  rewrite bind_run. cbn [get]. rewrite bind_run. unfold reraise_unless. rewrite Hf.
  cbn [mret M_ret]. by rewrite bind_run, Hl.
Qed.

(** Reconciliation is idempotent: run again on the database it left, with
    the same clock and checkpoint answer, it returns the same run, writes
    nothing and appends no second timeline entry. *)
Lemma reconcile_run_idempotent probe ctx i ck now now' d r d' :
  keys_ok d → reconcile_run probe ctx i (Some ck) now now' d = (Return r, d') →
  reconcile_run probe ctx i (Some ck) now now' d' = (Return r, d').
Proof.
  intros Hk H. apply reconcile_run_inv in H as (Hp & w & run & out & Hw & Hf & Hl & <-).
  pose proof (proj1 (find_run_Some _ _ _ _) Hf) as [Hrun Hrw].
  pose proof (proj1 Hk _ _ Hrun) as Hid.
  pose proof (reconcile_locked_run run run ck now now' d) as (d1 & Hl' & _).
  rewrite Hl in Hl'. injection Hl' as Hout _.
  destruct (reconcile_locked_again run run ck now now' d out d' Hk) as [Hin Hagain];
    [by rewrite Hid | done |].
  eapply (reconcile_run_intro probe ctx w i ck now now' d' _ (_, _, _)) in Hagain;
    [exact Hagain | done | done |].
  apply find_run_Some. rewrite <- Hid. split; [done|].
  rewrite Hout. cbn [fst]. rewrite (proj2 (rows_run_id _ _ _ _ _)). done.
Qed.

(** A reconciled run is confirmed as cancelled only when no action is open. *)
Lemma transition_cancelled run p ck l stale now :
  let out := _apply_reconciliation_transition run p ck l stale now in
  (l = [] → p = []) →
  run_status out.1 = RunStatus.CANCELLED → run_status run ≠ RunStatus.CANCELLED →
  existsb in_flight out.2 = false.
Proof.
  cbn zeta. intros Hl. unfold _apply_reconciliation_transition. rewrite all_approvals_eq by done.
  destruct (live_owner run now); [done|]. destruct (_ && _); [done|]. cbn [fst snd].
  fold (straight_line p ck l stale (run_status run) (fence_expired_owner run)).
  rewrite straight_line_status. intros Hs Hn.
  assert (run_status (fence_expired_owner run) ≠ RunStatus.CANCELLED) as Hf.
  { unfold fence_expired_owner. by destruct (truthy _). }
  revert Hs Hf. destruct (run_status (fence_expired_owner run)), (existsb in_flight l),
    stale, ck, (bool_decide (p = [])); done.
Qed.

Lemma transition_live run p ck l stale now :
  live_owner run now = true →
  _apply_reconciliation_transition run p ck l stale now = (run, l).
Proof. intros H. unfold _apply_reconciliation_transition. by rewrite H. Qed.

(** C21. A reconciled run needs nothing more: afterwards either a live owner
    holds it, or it is not running on pending approvals, not a stale orphan, not
    parked without a checkpoint, not cancelling, and flagged for resumption if
    its approval is decided; no claimed action is left behind a stale run, no
    pending approval is past its deadline; [CANCELLED] is only ever reached with
    no claimed or unknown action; and a run with a live owner keeps its status,
    failure code and owner. *)
Theorem reconcile_run_settles probe ctx w i ck now now' d run r d' :
  keys_ok d → ctx_workspace_id ctx = Some w → find_run w i d = Some run →
  reconcile_run probe ctx i (Some ck) now now' d = (Return r, d') →
  let l := approvals_of_run w i d' in
  agent_runs d' !! i = Some r ∧
  settled r (filter (λ a, is_pending a = true) l) ck l (_run_is_stale r now) now' ∧
  (∀ a, a ∈ l → is_expired now a = false) ∧
  (run_status r = RunStatus.CANCELLED → run_status run ≠ RunStatus.CANCELLED →
   ∀ a, a ∈ l → in_flight a = false) ∧
  (live_owner run now' = true →
   (run_status r, run_failure_code r, run_execution_owner r)
   = (run_status run, run_failure_code run, run_execution_owner run)).
Proof.
  intros Hk Hw Hf H. cbn zeta.
  pose proof (evolving_run quiet _ _ _ _ H Hk _) as [_ Hk'].
  apply reconcile_run_inv in H as (Hp & w' & run' & out & Hw' & Hf' & Hl & <-).
  rewrite Hw in Hw'. injection Hw' as <-. rewrite Hf in Hf'. injection Hf' as <-.
  apply find_run_Some in Hf as [Hrun Hrw]. pose proof (proj1 Hk _ _ Hrun) as Hid.
  destruct (reconcile_locked_run run run ck now now' d) as (d1 & Hl' & Hruns & Haps & _).
  rewrite Hl in Hl'. injection Hl' as -> <-. cbn [fst snd].
  rewrite Hrw, Hid in *. set (l := approvals_of_run w i d) in *.
  pose proof (locked_members w i d run ck now now' Hk d' Hk' Haps) as Hmem. fold l in Hmem.
  split_and!.
  - by rewrite Hruns, lookup_insert_eq.
  - apply (settled_members _ (rows_approvals run l ck now now')); [|apply rows_settled].
    intros a. by rewrite Hmem.
  - intros a Ha%Hmem. by eapply rows_none_expired.
  - intros Hc Hn a Ha%Hmem.
    assert (existsb in_flight (rows_approvals run l ck now now') = false) as Hno.
    { eapply transition_cancelled; [by intros ->| |exact Hn].
      unfold rows_run, reconcile_rows in Hc. cbn [fst] in Hc.
      revert Hc. unfold complete_terminal. by destruct (_ && _). }
    apply not_true_is_false. intros Hfl.
    assert (existsb in_flight (rows_approvals run l ck now now') = true); [|congruence].
    apply existsb_exists. exists a. by rewrite <- list_elem_of_In.
  - intros Hlive. unfold rows_run, reconcile_rows. rewrite transition_live by done.
    cbn [fst snd]. unfold complete_terminal. by destruct (_ && _).
Qed.

(** ** The batch *)

Lemma rows_cursor run l ck now now' :
  run_reconciled_at (rows_run run l ck now now') = run_reconciled_at run.
Proof.
  unfold rows_run, reconcile_rows. cbn [fst snd].
  assert (∀ r, run_reconciled_at (complete_terminal now r) = run_reconciled_at r) as ->.
  { intros r. unfold complete_terminal. by destruct (_ && _). }
  unfold _apply_reconciliation_transition. destruct (live_owner run now'); [done|].
  assert (run_reconciled_at (fence_expired_owner run) = run_reconciled_at run) as Hf.
  { unfold fence_expired_owner. by destruct (truthy _). }
  destruct (_ && _); [done|]. cbn [fst]. rewrite <- Hf.
  match goal with |- context [mark_log ?s (mark_resume ?p ?c ?l (finish_cancel _
      (flag_unparked _ (flag_zombie ?st _ (park_running _ _ ?r)))))] =>
    exact (f_equal (λ t, t.2) (straight_line_untouched p c l st s r)) end.
Qed.

(** What processing one candidate does to the run table. *)
Lemma reconcile_candidate_runs send p clock c r d :
  keys_ok d →
  ∃ res d', reconcile_candidate send p clock c r d = (Return res, d') ∧
    keys_ok d' ∧
    (∀ j, j ≠ run_id c → agent_runs d' !! j = agent_runs d !! j) ∧
    (∀ x, agent_runs d !! run_id c = Some x →
       ∃ x', agent_runs d' !! run_id c = Some x' ∧
         (run_reconciled_at x' = run_reconciled_at x ∨
          run_reconciled_at x' = Some (clock (run_id c)).1)).
Proof.
  intros Hk. pose proof (ev_reconcile_candidate send p clock c r d Hk) as Hev.
  unfold reconcile_candidate in *.
  destruct (p (run_workspace_id c) (run_id c)) as [ck|e].
  2: { eexists _, _. split; [done|]. split_and!; try done. intros x Hx. eauto. }
  rewrite bind_run in *. cbn [get] in *.
  destruct (find_run (run_workspace_id c) (run_id c) d) as [b|] eqn:Ef.
  2: { eexists _, _. split; [done|]. split_and!; try done. intros x Hx. eauto. }
  apply find_run_Some in Ef as [Hb Hbw]. pose proof (proj1 Hk _ _ Hb) as Hid.
  set (run := set_run_reconciled_at (Some (clock (run_id c)).1) b) in *.
  destruct (reconcile_locked_run b run ck (clock (run_id c)).1 (clock (run_id c)).2 d)
    as (d' & Hl & Hruns & _).
  rewrite bind_run in *. unfold session_scope, atomically in *. rewrite Hl in *.
  eexists _, _. split; [done|].
  assert (keys_ok d') as Hk' by (eapply Hev; reflexivity).
  split; [done|]. assert (run_id run = run_id c) as Hrid by (unfold run; by cbn).
  rewrite Hruns, Hrid. split.
  - intros j Hj. by rewrite lookup_insert_ne.
  - intros x Hx. eexists. rewrite lookup_insert_eq. split; [done|].
    right. rewrite rows_cursor. done.
Qed.

Lemma reconcile_each_runs send p clock l r d :
  keys_ok d →
  ∃ res d', reconcile_each send p clock l r d = (Return res, d') ∧
    scanned res = scanned r ∧
    (∀ j, j ∉ run_id <$> l → agent_runs d' !! j = agent_runs d !! j) ∧
    (∀ j x, agent_runs d !! j = Some x →
       ∃ x', agent_runs d' !! j = Some x' ∧
         (run_reconciled_at x' = run_reconciled_at x ∨
          run_reconciled_at x' = Some (clock j).1)).
Proof.
  revert r d. induction l as [|c l IH]; intros r d Hk.
  - eexists _, _. split; [done|]. split_and!; try done. eauto.
  - cbn [reconcile_each].
    destruct (reconcile_candidate_runs send p clock c r d Hk) as (r1 & d1 & H1 & Hk1 & Ho1 & Hc1).
    destruct (IH r1 d1 Hk1) as (r2 & d2 & H2 & Hs2 & Ho2 & Hc2).
    rewrite bind_run, H1. exists r2, d2. split; [done|].
    split; [rewrite Hs2|split].
    + clear -H1. unfold reconcile_candidate in H1.
      destruct (p _ _); [|by injection H1 as <- _].
      rewrite bind_run in H1. cbn [get] in H1. destruct (find_run _ _ _); [|by injection H1 as <- _].
      rewrite bind_run in H1. destruct (session_scope _ _) as [[out|] ?]; [|done].
      injection H1 as <- _. unfold after_commit, dispatch_decided.
      destruct out.2, send as [s|]; try done;
        destruct (_ && _); try done; destruct (find _ _); try done; by destruct (s _ _).
    + intros j Hj. rewrite fmap_cons, not_elem_of_cons in Hj. destruct Hj as [? ?].
      by rewrite Ho2, Ho1.
    + intros j x Hx. destruct (decide (j = run_id c)) as [->|Hne].
      * destruct (Hc1 x Hx) as (x1 & Hx1 & E1).
        destruct (Hc2 _ _ Hx1) as (x2 & Hx2 & E2). exists x2. split; [done|].
        destruct E1 as [E1|E1], E2 as [E2|E2]; rewrite E2, ?E1; auto.
      * rewrite <- Ho1 in Hx by done. by apply Hc2.
Qed.

Lemma touch_lookup clock0 l (m : gmap uuid AgentRun) j :
  foldr (λ r m, <[run_id r := set_run_reconciled_at (Some (clock0 (run_id r))) r]> m) m l !! j
  = match find (λ r, (run_id r =? j)%N) l with
    | Some r => Some (set_run_reconciled_at (Some (clock0 j)) r)
    | None => m !! j
    end.
Proof.
  induction l as [|x l IH]; [done|]. cbn. destruct (N.eqb_spec (run_id x) j) as [->|Hne].
  - by rewrite lookup_insert_eq.
  - by rewrite lookup_insert_ne.
Qed.

Lemma find_run_row l j :
  j ∈ run_id <$> l → ∃ r, find (λ r, (run_id r =? j)%N) l = Some r ∧ run_id r = j.
Proof.
  induction l as [|x l IH]; [by intros ?%not_elem_of_nil|].
  rewrite fmap_cons, elem_of_cons. cbn. destruct (N.eqb_spec (run_id x) j) as [E|E]; [eauto|].
  intros [->|?]; [done|auto].
Qed.

Lemma find_run_row_none l j :
  j ∉ run_id <$> l → find (λ r : AgentRun, (run_id r =? j)%N) l = None.
Proof.
  induction l as [|x l IH]; [done|]. rewrite fmap_cons, not_elem_of_cons. cbn.
  intros [? ?]. destruct (N.eqb_spec (run_id x) j); [congruence|auto].
Qed.

(** The reconciliation batch always finishes, whatever the checkpoint
    probe or the resume dispatch do, and scans at most [batch_size] runs; and
    it is fair: a run it passed over is left untouched and comes, in the order
    of the next batch, strictly before every run this batch looked at, provided
    the clock has moved past its own cursor. *)
Lemma reconcile_batch_fair p send batch_size stale_after now clock0 clock locked d :
  keys_ok d →
  let batch := select_candidates batch_size (now - seconds stale_after) locked d in
  ∃ res d', reconcile_candidates (Some p) send batch_size stale_after now clock0 clock locked d
            = (Return res, d') ∧
    scanned res = Z.of_nat (length batch) ∧ (length batch <= batch_size)%nat ∧
    ∀ i x y, agent_runs d !! i = Some x → i ∉ run_id <$> batch → y ∈ batch →
      (∀ t, run_reconciled_at x = Some t → t < clock0 (run_id y) ∧ t < (clock (run_id y)).1) →
      agent_runs d' !! i = Some x ∧
      ∃ y', agent_runs d' !! run_id y = Some y' ∧
        candidate_leb x y' = true ∧ candidate_leb y' x = false.
Proof.
  intros Hk. cbn zeta. unfold reconcile_candidates. rewrite bind_run. cbn [get].
  set (batch := select_candidates _ _ _ d). rewrite bind_run. unfold touch. cbn [modify].
  set (d1 := set_agent_runs _ d).
  assert (keys_ok d1) as Hk1 by (eapply (ev_touch clock0 batch d Hk); reflexivity).
  destruct (reconcile_each_runs send p clock batch
              {| scanned := Z.of_nat (length batch); changed := 0; errors := 0; dispatched := [] |}
              d1 Hk1) as (res & d2 & Hrun & Hsc & Ho & Hc).
  exists res, d2. split; [exact Hrun|]. split; [exact Hsc|].
  split; [unfold batch, select_candidates; rewrite length_take; lia|].
  intros i x y Hx Hi Hy Ht.
  assert (agent_runs d2 !! i = Some x) as Hx2.
  { rewrite (Ho _ Hi). unfold d1. cbn. by rewrite touch_lookup, find_run_row_none. }
  split; [done|].
  destruct (find_run_row batch (run_id y)) as (r & Hr & Hrid).
  { apply list_elem_of_fmap. eauto. }
  destruct (Hc (run_id y) (set_run_reconciled_at (Some (clock0 (run_id y))) r)) as (y' & Hy' & Ec).
  { unfold d1. cbn. by rewrite touch_lookup, Hr. }
  exists y'. split; [done|].
  assert (∃ t', run_reconciled_at y' = Some t' ∧
            ∀ t, run_reconciled_at x = Some t → t < t') as (t' & Ey & Hlt).
  { destruct Ec as [Ec|Ec]; rewrite Ec; cbn; eexists; split; try done;
      intros t Hxt; by apply Ht in Hxt as [? ?]. }
  unfold candidate_leb. rewrite Ey. destruct (run_reconciled_at x) as [t|]; [|done].
  cbn [nulls_first]. specialize (Hlt t eq_refl).
  rewrite (proj2 (Z.compare_lt_iff t t') Hlt). by rewrite (proj2 (Z.compare_gt_iff t' t) Hlt).
Qed.

(** ** Examples *)

Definition operator : WorkspaceExecutionContext := sample_ctx 9 "MEMBER" ["agent_run"%string].
(** The pending approval of [pending_db] is past its deadline at time 2000. *)
Definition reconcile_sample (d : Db) := reconcile_run None operator 2 (Some true) 2000 2000 d.

Lemma pending_db_keys : keys_ok pending_db.
Proof. by apply approval_db_keys. Qed.

Lemma reconcile_run_idempotent_witness :
  match reconcile_sample pending_db with
  | (Return r, d') => reconcile_sample d' = (Return r, d')
  | _ => False
  end.
Proof.
  destruct (reconcile_sample pending_db) as [[r|e] d'] eqn:E.
  - exact (reconcile_run_idempotent None operator 2 true 2000 2000 pending_db r d'
             pending_db_keys E).
  - vm_compute in E. discriminate E.
Defined.

Lemma reconcile_run_settles_witness :
  match reconcile_sample pending_db with
  | (Return r, d') =>
      let l := approvals_of_run 1 2 d' in
      agent_runs d' !! 2%N = Some r ∧
      settled r (filter (λ a, is_pending a = true) l) true l (_run_is_stale r 2000) 2000 ∧
      (∀ a, a ∈ l → is_expired 2000 a = false) ∧
      (run_status r = RunStatus.CANCELLED → run_status sample_run ≠ RunStatus.CANCELLED →
       ∀ a, a ∈ l → in_flight a = false) ∧
      (live_owner sample_run 2000 = true →
       (run_status r, run_failure_code r, run_execution_owner r)
       = (run_status sample_run, run_failure_code sample_run, run_execution_owner sample_run))
  | _ => False
  end.
Proof.
  destruct (reconcile_sample pending_db) as [[r|e] d'] eqn:E.
  - exact (reconcile_run_settles None operator 1 2 true 2000 2000 pending_db sample_run r d'
             pending_db_keys eq_refl eq_refl E).
  - vm_compute in E. discriminate E.
Defined.

Lemma reconcile_batch_fair_witness :
  let p := λ _ _, Return true in
  let batch := select_candidates 1 (10000000000 - seconds 300) ∅ pending_db in
  ∃ res d', reconcile_candidates (Some p) None 1 300 10000000000 (λ _, 5) (λ _, (6, 6)) ∅
              pending_db = (Return res, d') ∧
    scanned res = Z.of_nat (length batch) ∧ (length batch <= 1)%nat ∧
    ∀ i x y, agent_runs pending_db !! i = Some x → i ∉ run_id <$> batch → y ∈ batch →
      (∀ t, run_reconciled_at x = Some t → t < 5 ∧ t < 6) →
      agent_runs d' !! i = Some x ∧
      ∃ y', agent_runs d' !! run_id y = Some y' ∧
        candidate_leb x y' = true ∧ candidate_leb y' x = false.
Proof.
  exact (reconcile_batch_fair (λ _ _, Return true) None 1 300 10000000000 (λ _, 5)
           (λ _, (6, 6)) ∅ pending_db pending_db_keys).
Defined.
