(* ===== verification/Actions.v ===== *)
(** * Tools, policy and the action runtime

    Model of [packages/tools/policy.py], the records of
    [packages/tools/contracts.py] and [packages/tools/actions.py]: the built-in
    [create_ticket] executor, the registry and [ActionRuntime].

    An executor is code the runtime only calls, so it is a value of the record
    [ActionExecutor].  What can go wrong while the built-in executor runs (the
    deadline passes, the connection drops) is the argument [fault]: the body is
    cut either before its commit reaches the database or after it. *)

From stdpp Require Import base gmap list strings.
From Stdlib Require Import ZArith NArith Lia.
From S2P Require Import Prelude.
From S2P Require Import Json.
From S2P Require Import JsonTheory.
From S2P Require Import RunStore.
From S2P Require Import Rbac.
From S2P Require Import Approvals.

(** ** contracts.py *)

Inductive ToolEffect := READ | WRITE.
Inductive ToolRisk := LOW | MEDIUM | HIGH.
Inductive ToolApprovalPolicy := NEVER | ALWAYS.
Inductive ToolSourceKind := BUILTIN | MCP.
Inductive ToolResultStatus := SUCCESS | ERROR.

#[global] Instance ToolEffect_eq_dec : EqDecision ToolEffect.
Proof. solve_decision. Defined.
#[global] Instance ToolApprovalPolicy_eq_dec : EqDecision ToolApprovalPolicy.
Proof. solve_decision. Defined.
#[global] Instance ToolSourceKind_eq_dec : EqDecision ToolSourceKind.
Proof. solve_decision. Defined.

Record ToolDefinition := {
  td_identity : list N;
  td_revision_id : N;
  td_input_schema : json;
  td_effect : ToolEffect;
  td_risk_level : ToolRisk;
  td_approval_policy : ToolApprovalPolicy;
  td_timeout_seconds : Z;
  td_source_kind : ToolSourceKind
}.

Record ToolResult := {
  tr_status : ToolResultStatus;
  tr_data : option json;
  tr_error_code : option string;
  tr_safe_message : option string;
  tr_approval_decision : option ApprovalDecisionStatus.t;
  tr_approval_execution : option ApprovalExecutionStatus.t
}.

(** ** policy.py *)

Inductive ToolPolicyDecision := ALLOW_AUTO | REQUIRE_APPROVAL.

Definition decide_policy (definition : ToolDefinition) : ToolPolicyDecision :=
  if bool_decide (td_effect definition = READ)
     && bool_decide (td_approval_policy definition = NEVER)
  then ALLOW_AUTO else REQUIRE_APPROVAL.

(** ** actions.py *)

Module ActionExecutionStatus.
Inductive t := SUCCEEDED | FAILED | UNKNOWN_OUTCOME.
#[global] Instance t_eq_dec : EqDecision t.
Proof. solve_decision. Defined.
End ActionExecutionStatus.

Record ActionExecutionResult := {
  ar_status : ActionExecutionStatus.t;
  ar_data : option json;
  ar_failure_code : option string;
  ar_safe_message : option string
}.

Definition succeeded (data : json) : ActionExecutionResult :=
  {| ar_status := ActionExecutionStatus.SUCCEEDED; ar_data := Some data;
     ar_failure_code := None; ar_safe_message := None |}.
Definition failed (code message : string) : ActionExecutionResult :=
  {| ar_status := ActionExecutionStatus.FAILED; ar_data := None;
     ar_failure_code := Some code; ar_safe_message := Some message |}.
Definition unknown_outcome (code : string) : ActionExecutionResult :=
  {| ar_status := ActionExecutionStatus.UNKNOWN_OUTCOME; ar_data := None;
     ar_failure_code := Some code;
     ar_safe_message := Some "The action outcome requires reconciliation."%string |}.

(** The [ActionExecutor] protocol; [reconcile] is looked up with [getattr] and
    may be missing. *)
Record ActionExecutor := {
  execute : WorkspaceExecutionContext → ToolDefinition → json → list N →
            M Db Exn ActionExecutionResult;
  reconcile : option (WorkspaceExecutionContext → list N → M Db Exn ActionExecutionResult)
}.

(** [arguments.get(key)] *)
Definition json_get (k : list N) (v : json) : option json :=
  match v with
  | JObj l => snd <$> find (λ kv, bool_decide (kv.1 = k)) l
  | _ => None
  end.

Definition _find_ticket (workspace_id : N) (idempotency_key : list N) (d : Db) : option Ticket :=
  find (λ t, (ticket_workspace_id t =? workspace_id)%N
             && bool_decide (ticket_idempotency_key t = Some idempotency_key)) (tickets d).

Definition _ticket_result (t : Ticket) : ActionExecutionResult :=
  succeeded (JObj [(lit "ticket_id", JStr (uuid_str (ticket_id t)));
                   (lit "ticket_ref", JStr (ticket_ref t));
                   (lit "status", JStr (lit (ticket_status t)))]).

(** [INSERT] of a ticket under its primary key and unique constraints. *)
Definition insert_ticket (t : Ticket) : M Db Exn unit :=
  d ← get;
  raise_if (bool_decide (Exists (λ u, ticket_id u = ticket_id t) (tickets d)))
    (IntegrityError "tickets_pkey");;
  raise_if (bool_decide (Exists (λ u, ticket_workspace_id u = ticket_workspace_id t ∧
                                      ticket_ref u = ticket_ref t) (tickets d)))
    (IntegrityError "uq_tickets_workspace_ref");;
  raise_if (bool_decide (Exists (λ u, ticket_workspace_id u = ticket_workspace_id t ∧
                                      ticket_idempotency_key u = ticket_idempotency_key t)
                           (tickets d)))
    (IntegrityError "uq_tickets_workspace_idempotency");;
  modify (λ d, set_tickets (tickets d ++ [t]) d).

(** How the surroundings of the executor misbehave. *)
Inductive fault :=
| NoFault
| CutBeforeCommit (e : Exn)
| CutAfterCommit (e : Exn).

Definition cut_before (f : fault) : M Db Exn unit :=
  match f with CutBeforeCommit e => raise e | _ => mret tt end.
Definition cut_after (f : fault) : M Db Exn unit :=
  match f with CutAfterCommit e => raise e | _ => mret tt end.

Section CreateTicket.
(** [uuid4()] for the row and [f"T-{uuid4().hex[:16].upper()}"], and what other
    transactions commit between the reads and the commit. *)
Context (new_id : N) (new_ref : list N) (other : Db → Db) (f : fault).

Definition create_ticket_reconcile (context : WorkspaceExecutionContext)
    (idempotency_key : list N) : M Db Exn ActionExecutionResult :=
  match ctx_workspace_id context with
  | None => raise (ValueError "badly formed hexadecimal UUID string")
  | Some workspace_id =>
      d ← get;
      mret (match _find_ticket workspace_id idempotency_key d with
            | Some existing => _ticket_result existing
            | None => unknown_outcome "ACTION_OUTCOME_UNKNOWN"
            end)
  end.

Definition create_ticket_execute (context : WorkspaceExecutionContext)
    (definition : ToolDefinition) (arguments : json) (idempotency_key : list N) :
  M Db Exn ActionExecutionResult :=
  match ctx_workspace_id context with
  | None => mret (failed "INVALID_TOOL_CONTEXT" "The workspace is invalid.")
  | Some workspace_id =>
      let priority := default (JStr (lit "MEDIUM")) (json_get (lit "priority") arguments) in
      match json_get (lit "customer_ref") arguments, json_get (lit "subject") arguments with
      | Some (JStr c_ref), Some (JStr subject) =>
          d ← get;
          match _find_ticket workspace_id idempotency_key d with
          | Some existing => mret (_ticket_result existing)
          | None =>
              match find (λ c, (customer_workspace_id c =? workspace_id)%N
                               && bool_decide (customer_ref c = c_ref)) (customers d) with
              | None => mret (failed "CUSTOMER_NOT_FOUND"
                                "The customer was not found in this workspace.")
              | Some customer =>
                  let ticket :=
                    {| ticket_id := new_id; ticket_workspace_id := workspace_id;
                       ticket_customer_id := customer_id customer; ticket_ref := new_ref;
                       ticket_subject := subject; ticket_status := "OPEN";
                       ticket_idempotency_key := Some idempotency_key;
                       ticket_metadata_json := JObj [(lit "priority", priority)] |} in
                  modify other;;
                  cut_before f;;
                  on_integrity_error
                    (session_scope (insert_ticket ticket);;
                     cut_after f;;
                     mret (_ticket_result ticket))
                    (λ _, d ← get;
                     mret (match _find_ticket workspace_id idempotency_key d with
                           | Some existing => _ticket_result existing
                           | None => failed "TICKET_CREATE_CONFLICT"
                                       "The ticket could not be created safely."
                           end))
              end
          end
      | _, _ => mret (failed "TOOL_ARGUMENT_INVALID" "The create_ticket arguments are invalid.")
      end
  end.

Definition CreateTicketActionExecutor : ActionExecutor :=
  {| execute := create_ticket_execute; reconcile := Some create_ticket_reconcile |}.
End CreateTicket.

Record ActionRegistry := {
  _executors : list (list N * ActionExecutor);
  _mcp_executor : option ActionExecutor
}.

(** [{"create_ticket": builtin}] updated with the overrides. *)
Definition new_registry (builtin : ActionExecutor) (overrides : list (list N * ActionExecutor))
    (mcp : option ActionExecutor) : ActionRegistry :=
  {| _executors := overrides ++ [(lit "create_ticket", builtin)]; _mcp_executor := mcp |}.

Definition resolve (registry : ActionRegistry) (identity : list N) : option ActionExecutor :=
  snd <$> find (λ kv, bool_decide (kv.1 = identity)) (_executors registry).

Definition resolve_for (registry : ActionRegistry) (definition : ToolDefinition) :
  option ActionExecutor :=
  if bool_decide (td_source_kind definition = MCP) then _mcp_executor registry
  else resolve registry (td_identity definition).

(** [except Exception]: everything but task cancellation. *)
Definition except_exception {A} (m : M Db Exn A) (h : Exn → M Db Exn A) : M Db Exn A :=
  catch m (λ e, match e with CancelledError => raise e | _ => h e end).

Definition _reconcile_local (executor : ActionExecutor) (context : WorkspaceExecutionContext)
    (key : list N) : M Db Exn ActionExecutionResult :=
  match reconcile executor with
  | Some rec =>
      except_exception (rec context key)
        (λ _, mret (unknown_outcome "ACTION_OUTCOME_UNKNOWN"))
  | None => mret (unknown_outcome "ACTION_OUTCOME_UNKNOWN")
  end.

Definition _execute_remote (executor : ActionExecutor) (context : WorkspaceExecutionContext)
    (definition : ToolDefinition) (arguments : json) (idempotency_key : list N) :
  M Db Exn ActionExecutionResult :=
  except_exception (execute executor context definition arguments idempotency_key)
    (λ _, mret (unknown_outcome "ACTION_OUTCOME_UNKNOWN")).

Definition runtime_execute (registry : ActionRegistry) (context : WorkspaceExecutionContext)
    (definition : ToolDefinition) (arguments : json) (idempotency_key : list N) :
  M Db Exn ActionExecutionResult :=
  if bool_decide (td_effect definition ≠ WRITE)
  then mret (failed "ACTION_NOT_WRITE" "Only WRITE tools can use the action runtime.")
  else match resolve_for registry definition with
  | None => mret (failed "UNKNOWN_ACTION" "The action is not registered.")
  | Some executor =>
      if bool_decide (td_source_kind definition = MCP)
      then _execute_remote executor context definition arguments idempotency_key
      else
        except_exception (execute executor context definition arguments idempotency_key)
          (λ e, match e with
                | AgentHubError code message _ => mret (failed code message)
                | _ => _reconcile_local executor context idempotency_key
                end)
  end.
