(* ===== verification/ActionsProperties.v ===== *)
(** * Actions: the properties

    The built-in ticket action happens at most once per idempotency key,
    whatever interrupts it, and the runtime's verdict tells the truth about the
    tables; the policy lets only approval-free reads run on their own. *)

From stdpp Require Import base gmap list strings.
From Stdlib Require Import ZArith NArith Lia.
From S2P Require Import Prelude.
From S2P Require Import Json.
From S2P Require Import JsonTheory.
From S2P Require Import RunStore.
From S2P Require Import Rbac.
From S2P Require Import Approvals.
From S2P Require Import Actions.
From S2P Require Import ApprovalsProperties.

(** ** Tickets *)

Definition has_key (w : N) (k : list N) (t : Ticket) : Prop :=
  ticket_workspace_id t = w ∧ ticket_idempotency_key t = Some k.
#[global] Instance has_key_dec w k t : Decision (has_key w k t).
Proof. unfold has_key. apply _. Defined.

(** At most one ticket per workspace and idempotency key. *)
Definition one_ticket_per_key (d : Db) : Prop :=
  ∀ w k, (length (filter (has_key w k) (tickets d)) <= 1)%nat.

Lemma find_ticket_Some w k d t :
  _find_ticket w k d = Some t → t ∈ tickets d ∧ has_key w k t.
Proof.
  intros [Hin Hb]%find_some. apply list_elem_of_In in Hin.
  apply andb_true_iff in Hb as [Hw Hk]. apply N.eqb_eq in Hw.
  apply bool_decide_eq_true_1 in Hk. by split.
Qed.

Lemma find_ticket_None w k d :
  _find_ticket w k d = None ↔ filter (has_key w k) (tickets d) = [].
Proof.
  unfold _find_ticket. induction (tickets d) as [|t l IH]; [done|].
  cbn [find]. rewrite filter_cons. case_decide as E.
  - destruct E as [Hw Hk]. rewrite Hw, Hk, N.eqb_refl, bool_decide_true by done. done.
  - destruct (_ && _) eqn:Eb; [|done]. exfalso. apply E.
    apply andb_true_iff in Eb as [Hw Hk]. apply N.eqb_eq in Hw.
    by apply bool_decide_eq_true_1 in Hk.
Qed.

(** The ticket found is the only one. *)
Lemma find_ticket_unique w k d t :
  one_ticket_per_key d → t ∈ tickets d → has_key w k t → _find_ticket w k d = Some t.
Proof.
  intros Hu Hin Hk. destruct (_find_ticket w k d) as [u|] eqn:E.
  - apply find_ticket_Some in E as [Hin' Hk']. specialize (Hu w k).
    assert (t ∈ filter (has_key w k) (tickets d)) as Ht by (by apply list_elem_of_filter).
    assert (u ∈ filter (has_key w k) (tickets d)) as Hu' by (by apply list_elem_of_filter).
    destruct (filter (has_key w k) (tickets d)) as [|x [|y l]]; cbn in Hu; [|..].
    + by apply not_elem_of_nil in Ht.
    + apply list_elem_of_singleton in Ht as ->, Hu' as ->. done.
    + lia.
  - apply find_ticket_None in E.
    assert (t ∈ filter (has_key w k) (tickets d)) as Ht by (by apply list_elem_of_filter).
    rewrite E in Ht. by apply not_elem_of_nil in Ht.
Qed.

Lemma insert_ticket_inv t d u d' :
  insert_ticket t d = (Return u, d') →
  d' = set_tickets (tickets d ++ [t]) d ∧
  ∀ x, x ∈ tickets d → ticket_workspace_id x = ticket_workspace_id t →
       ticket_idempotency_key x ≠ ticket_idempotency_key t.
Proof.
  intros H. unfold insert_ticket in H. run_inv_in H. breflect.
  split; [done|]. intros x Hx Hw Hk.
  match goal with HE : ¬ Exists (λ u, _ ∧ ticket_idempotency_key u = _) _ |- _ => apply HE end.
  apply Exists_exists. eauto.
Qed.

Lemma one_ticket_insert t d :
  one_ticket_per_key d →
  (∀ x, x ∈ tickets d → ticket_workspace_id x = ticket_workspace_id t →
        ticket_idempotency_key x ≠ ticket_idempotency_key t) →
  one_ticket_per_key (set_tickets (tickets d ++ [t]) d).
Proof.
  intros Hu Hn w k. cbn. rewrite filter_app, length_app, filter_cons.
  case_decide as E; [|cbn; specialize (Hu w k); lia]. destruct E as [Hw Hk].
  assert (filter (has_key w k) (tickets d) = []) as ->; [|cbn; lia].
  apply elem_of_nil_inv. intros x [[Hxw Hxk] Hx]%list_elem_of_filter.
  apply (Hn x Hx); congruence.
Qed.

(** What other transactions may do to the tickets. *)
Definition tickets_sound (other : Db → Db) : Prop :=
  ∀ d, one_ticket_per_key d →
    one_ticket_per_key (other d) ∧ ∀ t, t ∈ tickets d → t ∈ tickets (other d).

(** A verdict about the ticket of [w] and [k] that the tables bear out:
    success names the stored ticket, failure means that this call wrote
    nothing. *)
Definition truthful (w : N) (k : list N) (other : Db → Db) (d : Db)
    (r : ActionExecutionResult) (d' : Db) : Prop :=
  match ar_status r with
  | ActionExecutionStatus.SUCCEEDED =>
      ∃ t, _find_ticket w k d' = Some t ∧ r = _ticket_result t
  | ActionExecutionStatus.FAILED => d' = d ∨ d' = other d
  | ActionExecutionStatus.UNKNOWN_OUTCOME => True
  end.

Lemma insert_ticket_raises t d e d' :
  insert_ticket t d = (Raise e, d') → ∃ c, e = IntegrityError c.
Proof.
  unfold insert_ticket. rewrite bind_run. cbn [get].
  do 3 (rewrite bind_run, raise_if_cases;
        match goal with |- context [if ?b then Raise _ else _] => destruct b end;
        [intros [= <- _]; eauto|]).
  discriminate.
Qed.

(** The commit with its conflict handler. *)
Definition ticket_commit (f : fault) (w : N) (k : list N) (t : Ticket) :
  M Db Exn ActionExecutionResult :=
  cut_before f;;
  on_integrity_error
    (session_scope (insert_ticket t);; cut_after f;; mret (_ticket_result t))
    (λ _, d ← get;
          mret (match _find_ticket w k d with
                | Some existing => _ticket_result existing
                | None => failed "TICKET_CREATE_CONFLICT"
                            "The ticket could not be created safely."
                end)).

Lemma ticket_commit_sound f w k t d r d' :
  has_key w k t → one_ticket_per_key d → ticket_commit f w k t d = (r, d') →
  one_ticket_per_key d' ∧ (∀ x, x ∈ tickets d → x ∈ tickets d') ∧
  (∀ res, r = Return res → truthful w k id d res d') ∧
  (∀ e, r = Raise e → f = CutBeforeCommit e ∨ f = CutAfterCommit e).
Proof.
  intros Hk Hu H. unfold ticket_commit in H. rewrite bind_run in H.
  destruct (cut_before f d) as [[[]|e] d0] eqn:Ec.
  2: { destruct f; try discriminate Ec. injection Ec as <- <-. injection H as <- <-.
       split_and!; try done. intros e' [= <-]. by left. }
  assert (d0 = d) as -> by (destruct f; [by injection Ec | discriminate Ec | by injection Ec]).
  unfold on_integrity_error, catch in H. rewrite bind_run in H.
  unfold session_scope, atomically in H.
  destruct (insert_ticket t d) as [[u|e] d1] eqn:Ei.
  - apply insert_ticket_inv in Ei as [-> Hn]. pose proof (one_ticket_insert t d Hu Hn) as Hu1.
    assert (_find_ticket w k (set_tickets (tickets d ++ [t]) d) = Some t) as Hf.
    { apply find_ticket_unique; [done| |done]. cbn. apply elem_of_app. right.
      by apply list_elem_of_singleton. }
    assert (∀ x, x ∈ tickets d → x ∈ tickets (set_tickets (tickets d ++ [t]) d)) as Hsub.
    { intros x Hx. cbn. apply elem_of_app. by left. }
    rewrite bind_run in H.
    destruct f as [|e|e]; [injection H as <- <-|discriminate Ec|].
    + split_and!; try done. intros res [= <-]. by exists t.
    + cbn [cut_after raise] in H.
      destruct e; try (injection H as <- <-; split_and!; try done; intros e' [= <-]; by right).
      rewrite bind_run in H. cbn [get] in H. rewrite Hf in H. injection H as <- <-.
      split_and!; try done. intros res [= <-]. by exists t.
  - pose proof (insert_ticket_raises _ _ _ _ Ei) as [c ->].
    rewrite bind_run in H. cbn [get] in H.
    injection H as <- <-. split_and!; try done. intros res [= <-].
    destruct (_find_ticket w k d) as [x|] eqn:Ef; [by exists x | by left].
Qed.

Section Ticket.
Context (new_id : N) (new_ref : list N) (other : Db → Db) (f : fault).
Context (ctx : WorkspaceExecutionContext) (w : N).
Hypothesis ctx_w : ctx_workspace_id ctx = Some w.
Hypothesis others : tickets_sound other.

Lemma create_ticket_sound def args k d r d' :
  one_ticket_per_key d →
  create_ticket_execute new_id new_ref other f ctx def args k d = (r, d') →
  one_ticket_per_key d' ∧ (∀ t, t ∈ tickets d → t ∈ tickets d') ∧
  (∀ res, r = Return res → truthful w k other d res d') ∧
  (∀ e, r = Raise e → f = CutBeforeCommit e ∨ f = CutAfterCommit e).
Proof using Type*.
  intros Hu H. unfold create_ticket_execute in H. rewrite ctx_w in H.
  destruct (json_get (lit "customer_ref") args) as [[| | | |c_ref| |]|];
    try (injection H as <- <-; split_and!; try done; intros res [= <-]; by left).
  destruct (json_get (lit "subject") args) as [[| | | |subject| |]|];
    try (injection H as <- <-; split_and!; try done; intros res [= <-]; by left).
  rewrite bind_run in H. cbn [get] in H.
  destruct (_find_ticket w k d) as [t|] eqn:Ef.
  { injection H as <- <-. split_and!; try done. intros res [= <-]. by exists t. }
  destruct (find _ (customers d)) as [cu|].
  2: { injection H as <- <-. split_and!; try done. intros res [= <-]. by left. }
  rewrite bind_run in H. cbn [modify] in H. destruct (others d Hu) as [Hu1 Hsub].
  set (t := Build_Ticket _ _ _ _ _ _ _ _) in H.
  assert (has_key w k t) as Hk by done. clearbody t.
  apply (ticket_commit_sound f w k t (other d)) in H as (H1 & H2 & H3 & H4); [|done..].
  split_and!; auto. intros res Hres. specialize (H3 res Hres). unfold truthful in *.
  destruct (ar_status res); auto. right. by destruct H3.
Qed.

(** Once the ticket of a key exists, executing again answers with it. *)
Lemma create_ticket_again def args k t c s d :
  one_ticket_per_key d → t ∈ tickets d → has_key w k t →
  json_get (lit "customer_ref") args = Some (JStr c) →
  json_get (lit "subject") args = Some (JStr s) →
  create_ticket_execute new_id new_ref other f ctx def args k d = (Return (_ticket_result t), d).
Proof using ctx_w.
  intros Hu Hin Hk Hc Hs. unfold create_ticket_execute. rewrite ctx_w, Hc, Hs, bind_run.
  cbn [get]. by rewrite (find_ticket_unique w k d t Hu Hin Hk).
Qed.
End Ticket.

(** C22. The ticket action is effectively once: however an execution is
    interrupted and whatever others commit meanwhile, a workspace never holds
    two tickets with one idempotency key; a reported success names the stored
    ticket, a reported failure wrote nothing; and once the ticket is there every
    further execution with that key answers with it and writes nothing. *)
Theorem create_ticket_effectively_once new_id new_ref other f ctx w def args k d r d' :
  ctx_workspace_id ctx = Some w → tickets_sound other → one_ticket_per_key d →
  create_ticket_execute new_id new_ref other f ctx def args k d = (r, d') →
  one_ticket_per_key d' ∧
  (∀ res, r = Return res → truthful w k other d res d') ∧
  (∀ t c s i ref oth f', t ∈ tickets d' → has_key w k t →
     json_get (lit "customer_ref") args = Some (JStr c) →
     json_get (lit "subject") args = Some (JStr s) →
     create_ticket_execute i ref oth f' ctx def args k d' = (Return (_ticket_result t), d')).
Proof.
  intros Hw Ho Hu H.
  destruct (create_ticket_sound new_id new_ref other f ctx w Hw Ho def args k d r d' Hu H)
    as (H1 & _ & H3 & _).
  split_and!; [done..|]. intros. by eapply create_ticket_again.
Qed.

(** The runtime's verdict on the ticket action is truthful under every
    timeout and lost connection: it returns a verdict instead of raising, a
    success names a ticket that is stored, a failure means the call wrote
    nothing, and an interrupted call whose ticket was nevertheless stored is
    reported as the success it was. *)
Lemma runtime_verdict_truthful new_id new_ref other f ctx w def args k mcp d r d' :
  ctx_workspace_id ctx = Some w → tickets_sound other → one_ticket_per_key d →
  td_effect def = WRITE → td_source_kind def = BUILTIN → td_identity def = lit "create_ticket" →
  (∀ e, f = CutBeforeCommit e ∨ f = CutAfterCommit e →
        e = TimeoutError ∨ ∃ s, e = ProviderFailure s) →
  let registry := new_registry (CreateTicketActionExecutor new_id new_ref other f) [] mcp in
  runtime_execute registry ctx def args k d = (r, d') →
  one_ticket_per_key d' ∧
  ∃ res, r = Return res ∧ truthful w k other d res d' ∧
    (∀ t, (∃ e d1, create_ticket_execute new_id new_ref other f ctx def args k d
                                  = (Raise e, d1)) →
          _find_ticket w k d' = Some t → res = _ticket_result t).
Proof.
  intros Hw Ho Hu Heff Hsrc Hid Hf. cbn zeta. intros H. unfold runtime_execute in H.
  rewrite Heff, Hsrc in H. rewrite bool_decide_false in H by (intros Hn; by apply Hn).
  assert (resolve_for (new_registry (CreateTicketActionExecutor new_id new_ref other f) [] mcp)
            def = Some (CreateTicketActionExecutor new_id new_ref other f)) as Hres.
  { unfold resolve_for, resolve. rewrite Hsrc, Hid. reflexivity. }
  rewrite Hres, bool_decide_false in H by done. unfold except_exception, catch in H.
  cbn [execute CreateTicketActionExecutor] in H.
  destruct (create_ticket_execute new_id new_ref other f ctx def args k d) as [[res|e] d1] eqn:E;
    destruct (create_ticket_sound new_id new_ref other f ctx w Hw Ho def args k d _ _ Hu E)
      as (H1 & _ & H3 & H4).
  - injection H as <- <-. split; [done|]. exists res. split_and!; auto.
    intros t (e & d2 & Hx). congruence.
  - assert (_reconcile_local (CreateTicketActionExecutor new_id new_ref other f) ctx k d1
            = (r, d')) as Hrec.
    { destruct (Hf e (H4 e eq_refl)) as [->|[s ->]]; exact H. }
    unfold _reconcile_local, except_exception, catch in Hrec.
    cbn [reconcile CreateTicketActionExecutor] in Hrec.
    unfold create_ticket_reconcile in Hrec. rewrite Hw, bind_run in Hrec. cbn [get] in Hrec.
    injection Hrec as <- <-. split; [done|]. eexists. split; [done|].
    destruct (_find_ticket w k d1) as [t|] eqn:Ef.
    + split; [by exists t|]. intros t' _ [= <-]. done.
    + by split.
Qed.

(** ** Policy *)

Definition with_risk (risk : ToolRisk) (def : ToolDefinition) : ToolDefinition :=
  {| td_identity := td_identity def; td_revision_id := td_revision_id def;
     td_input_schema := td_input_schema def; td_effect := td_effect def;
     td_risk_level := risk; td_approval_policy := td_approval_policy def;
     td_timeout_seconds := td_timeout_seconds def; td_source_kind := td_source_kind def |}.

(** The module doc speaks of low-risk reads; the decision never looks at the
    risk level, so a high-risk approval-free read runs on its own too. *)
Lemma policy_ignores_risk risk def : decide_policy (with_risk risk def) = decide_policy def.
Proof. reflexivity. Qed.

(** ** Examples *)

Definition ticket_tool : ToolDefinition :=
  {| td_identity := lit "create_ticket"; td_revision_id := 3; td_input_schema := JNull;
     td_effect := WRITE; td_risk_level := MEDIUM; td_approval_policy := ALWAYS;
     td_timeout_seconds := 30; td_source_kind := BUILTIN |}.
Definition shop_db : Db :=
  Build_Db ∅ ∅ [] [] []
    [{| customer_id := 4; customer_workspace_id := 1; customer_ref := lit "c-1" |}] [] [].
Definition agent : WorkspaceExecutionContext := sample_ctx 9 "MEMBER" ["tool_run"%string].
(** The commit reached the server, the reply did not. *)
Definition lost_reply : fault := CutAfterCommit TimeoutError.
Definition ticket_run : M Db Exn ActionExecutionResult :=
  create_ticket_execute 21 (lit "T-1") id lost_reply agent ticket_tool sample_args (lit "key").

Lemma shop_db_ok : one_ticket_per_key shop_db.
Proof. intros w k. cbn. lia. Qed.
Lemma id_sound : tickets_sound id.
Proof. intros d Hd. by split. Qed.

Lemma create_ticket_effectively_once_witness :
  let r := fst (ticket_run shop_db) in
  let d' := snd (ticket_run shop_db) in
  one_ticket_per_key d' ∧
  (∀ res, r = Return res → truthful 1 (lit "key") id shop_db res d') ∧
  (∀ t c s i ref oth f', t ∈ tickets d' → has_key 1 (lit "key") t →
     json_get (lit "customer_ref") sample_args = Some (JStr c) →
     json_get (lit "subject") sample_args = Some (JStr s) →
     create_ticket_execute i ref oth f' agent ticket_tool sample_args (lit "key") d'
       = (Return (_ticket_result t), d')).
Proof.
  cbn zeta.
  exact (create_ticket_effectively_once 21 (lit "T-1") id lost_reply agent 1 ticket_tool
           sample_args (lit "key") shop_db (fst (ticket_run shop_db)) (snd (ticket_run shop_db))
           eq_refl id_sound shop_db_ok (surjective_pairing _)).
Defined.

Lemma runtime_verdict_truthful_witness :
  let run := runtime_execute (new_registry (CreateTicketActionExecutor 21 (lit "T-1") id
               lost_reply) [] None) agent ticket_tool sample_args (lit "key") in
  one_ticket_per_key (snd (run shop_db)) ∧
  ∃ res, fst (run shop_db) = Return res ∧
    truthful 1 (lit "key") id shop_db res (snd (run shop_db)) ∧
    (∀ t, (∃ e d1, create_ticket_execute 21 (lit "T-1") id lost_reply agent ticket_tool
             sample_args (lit "key") shop_db = (Raise e, d1)) →
          _find_ticket 1 (lit "key") (snd (run shop_db)) = Some t → res = _ticket_result t).
Proof.
  cbn zeta.
  apply (runtime_verdict_truthful 21 (lit "T-1") id lost_reply agent 1 ticket_tool
           sample_args (lit "key") None shop_db); try reflexivity.
  - apply id_sound.
  - apply shop_db_ok.
  - intros e [He|He]; [discriminate He|]. injection He as <-. by left.
Defined.
