(* ===== verification/SummaryState.v ===== *)
(** * Thread summary jobs: the pure transitions

    Model of [packages/agent_runtime/summary_state.py].  A
    [SummaryTransitionError] is [None].  [step] is one call of any transition;
    the module's contract lets the persistence layer call the provider only on
    the commit of a dispatch intent, which is the event [Dispatch].

    [isinstance]/[type(...) is bool] tests are discharged by typing. *)

From stdpp Require Import base list strings relations.
From Stdlib Require Import ZArith NArith Lia.
From S2P Require Import Prelude.

Inductive SummaryJobStatus :=
| QUEUED | JOB_CLAIMED | DISPATCH_INTENT | RESPONSE_STORED | VALIDATED
| PUBLISHED | JOB_FAILED | STALE | JOB_UNKNOWN_OUTCOME.

#[global] Instance SummaryJobStatus_eq_dec : EqDecision SummaryJobStatus.
Proof. solve_decision. Defined.

Record SummaryState := {
  status : SummaryJobStatus;
  lease_token : option (list N);
  budget_reserved : bool;
  response_ref : option (list N);
  revision_ref : option (list N)
}.

Definition initial : SummaryState :=
  {| status := QUEUED; lease_token := None; budget_reserved := false;
     response_ref := None; revision_ref := None |}.

(** [replace(state, ...)] for the fields the transitions write. *)
Definition with_status (s : SummaryJobStatus) (st : SummaryState) : SummaryState :=
  {| status := s; lease_token := lease_token st; budget_reserved := budget_reserved st;
     response_ref := response_ref st; revision_ref := revision_ref st |}.
Definition with_lease (t : option (list N)) (st : SummaryState) : SummaryState :=
  {| status := status st; lease_token := t; budget_reserved := budget_reserved st;
     response_ref := response_ref st; revision_ref := revision_ref st |}.
Definition with_reserved (st : SummaryState) : SummaryState :=
  {| status := status st; lease_token := lease_token st; budget_reserved := true;
     response_ref := response_ref st; revision_ref := revision_ref st |}.
Definition with_response (r : list N) (st : SummaryState) : SummaryState :=
  {| status := status st; lease_token := lease_token st; budget_reserved := budget_reserved st;
     response_ref := Some r; revision_ref := revision_ref st |}.
Definition with_revision (r : list N) (st : SummaryState) : SummaryState :=
  {| status := status st; lease_token := lease_token st; budget_reserved := budget_reserved st;
     response_ref := response_ref st; revision_ref := Some r |}.

(** Python truth of a text and of an optional text. *)
Definition nonempty (s : list N) : bool := match s with [] => false | _ => true end.
Definition present (s : option (list N)) : bool :=
  match s with Some t => nonempty t | None => false end.

Definition _valid_token (value : list N) : bool :=
  nonempty value && bool_decide (value = py_strip value).

Definition is_job (s : SummaryJobStatus) (state : SummaryState) : bool :=
  bool_decide (status state = s).

(** [true] when the owner check passes, [false] when it raises. *)
Definition _require_owner (state : SummaryState) (token : list N) (s : SummaryJobStatus) : bool :=
  negb (negb (is_job s state) || negb (_valid_token token)
        || negb (bool_decide (lease_token state = Some token))).

Definition claim (state : SummaryState) (token : list N) : option SummaryState :=
  if negb (is_job QUEUED state) || negb (_valid_token token) then None
  else Some (with_lease (Some token) (with_status JOB_CLAIMED state)).

Definition commit_dispatch_intent (state : SummaryState) (token : list N) : option SummaryState :=
  if negb (_require_owner state token JOB_CLAIMED) then None
  else Some (with_reserved (with_status DISPATCH_INTENT state)).

Definition fail_before_dispatch (state : SummaryState) (token : list N) : option SummaryState :=
  if negb (_require_owner state token JOB_CLAIMED) then None
  else if budget_reserved state || present (response_ref state) then None
  else Some (with_status JOB_FAILED state).

Definition store_response (state : SummaryState) (token ref : list N) : option SummaryState :=
  if negb (_require_owner state token DISPATCH_INTENT) then None
  else if negb (budget_reserved state) || negb (nonempty ref) then None
  else Some (with_response ref (with_status RESPONSE_STORED state)).

Definition validate_response (state : SummaryState) (token : list N) (valid : bool) :
  option SummaryState :=
  if negb (_require_owner state token RESPONSE_STORED) then None
  else if negb (present (response_ref state)) then None
  else Some (with_status (if valid then VALIDATED else JOB_FAILED) state).

Definition publish (state : SummaryState) (token ref : list N) (bindings_current : bool) :
  option SummaryState :=
  if negb (_require_owner state token VALIDATED) then None
  else if negb bindings_current then Some (with_status STALE state)
  else if negb (nonempty ref) then None
  else Some (with_revision ref (with_status PUBLISHED state)).

Definition recover_expired_lease (state : SummaryState) : option SummaryState :=
  match status state with
  | JOB_CLAIMED =>
      if budget_reserved state || present (response_ref state) then None
      else Some (with_lease None (with_status QUEUED state))
  | DISPATCH_INTENT => Some (with_lease None (with_status JOB_UNKNOWN_OUTCOME state))
  | RESPONSE_STORED | VALIDATED => Some (with_lease None state)
  | _ => None
  end.

Definition claim_recovery (state : SummaryState) (token : list N) : option SummaryState :=
  if bool_decide (status state ∉ [RESPONSE_STORED; VALIDATED])
     || bool_decide (lease_token state ≠ None) || negb (_valid_token token) then None
  else Some (with_lease (Some token) state).

(** ** Steps *)

(** What a committed transition is to the outside: [Dispatch t] commits the
    intent that authorises the one provider call, made by the holder of [t]. *)
Inductive event := Dispatch (token : list N) | Local.

#[global] Instance event_eq_dec : EqDecision event.
Proof. solve_decision. Defined.

Inductive step : SummaryState → event → SummaryState → Prop :=
| step_claim s t s' : claim s t = Some s' → step s Local s'
| step_dispatch s t s' : commit_dispatch_intent s t = Some s' → step s (Dispatch t) s'
| step_fail s t s' : fail_before_dispatch s t = Some s' → step s Local s'
| step_store s t r s' : store_response s t r = Some s' → step s Local s'
| step_validate s t v s' : validate_response s t v = Some s' → step s Local s'
| step_publish s t r b s' : publish s t r b = Some s' → step s Local s'
| step_recover s s' : recover_expired_lease s = Some s' → step s Local s'
| step_reclaim s t s' : claim_recovery s t = Some s' → step s Local s'.

(** A run of the machine with the events it produced. *)
Inductive steps : SummaryState → list event → SummaryState → Prop :=
| steps_refl s : steps s [] s
| steps_cons s1 e s2 es s3 : step s1 e s2 → steps s2 es s3 → steps s1 (e :: es) s3.

Definition dispatches (es : list event) : nat :=
  length (filter (λ e, e ≠ Local) es).

(** ** The invariant of a job *)

Definition holds_token (o : option (list N)) : Prop :=
  match o with Some t => _valid_token t = true | None => False end.

Definition job_inv (s : SummaryState) : Prop :=
  match status s with
  | QUEUED => s = initial
  | JOB_CLAIMED =>
      holds_token (lease_token s) ∧ budget_reserved s = false ∧ response_ref s = None ∧
      revision_ref s = None
  | DISPATCH_INTENT =>
      holds_token (lease_token s) ∧ budget_reserved s = true ∧ response_ref s = None ∧
      revision_ref s = None
  | RESPONSE_STORED | VALIDATED =>
      (lease_token s = None ∨ holds_token (lease_token s)) ∧ budget_reserved s = true ∧
      present (response_ref s) = true ∧ revision_ref s = None
  | PUBLISHED =>
      budget_reserved s = true ∧ present (response_ref s) = true ∧ present (revision_ref s) = true
  | STALE => budget_reserved s = true ∧ present (response_ref s) = true ∧ revision_ref s = None
  | JOB_FAILED => revision_ref s = None ∧ (budget_reserved s = present (response_ref s))
  | JOB_UNKNOWN_OUTCOME =>
      lease_token s = None ∧ budget_reserved s = true ∧ response_ref s = None ∧
      revision_ref s = None
  end.

Lemma require_owner_inv s t st :
  _require_owner s t st = true → status s = st ∧ _valid_token t = true ∧ lease_token s = Some t.
Proof.
  unfold _require_owner, is_job. rewrite negb_true_iff, !orb_false_iff, !negb_false_iff.
  intros [[H1 H2] H3]. breflect. done.
Qed.

(** Open a transition that succeeded. *)
Ltac open_transition H :=
  repeat match type of H with
  | (if negb (_require_owner ?s ?t ?st) then _ else _) = Some _ =>
      let E := fresh "Eowner" in
      destruct (_require_owner s t st) eqn:E; [cbn [negb] in H | discriminate H];
      apply require_owner_inv in E as (? & ? & ?)
  | (if ?b then _ else _) = Some _ => destruct b eqn:?; try discriminate H
  end;
  try (injection H as <-).

Ltac finish_transition s H :=
  open_transition H; breflect; unfold job_inv in *;
  destruct s as [st lt br rr vr]; cbn in *; subst; cbn in *; try tauto.

Lemma summary_step_inv s e s' : job_inv s → step s e s' → job_inv s'.
Proof.
  intros Hi Hs. destruct Hs as [s t s' H|s t s' H|s t s' H|s t r s' H|s t v s' H|s t r b s' H
                               |s s' H|s t s' H];
    unfold claim, commit_dispatch_intent, fail_before_dispatch, store_response,
      validate_response, publish, claim_recovery in H.
  - open_transition H. unfold is_job in *. breflect. unfold job_inv in *.
    destruct s as [st lt br rr vr]. cbn in *. subst. by injection Hi as -> -> -> ->.
  - finish_transition s H.
  - finish_transition s H. by destruct Hi as (_ & _ & -> & ->).
  - finish_transition s H.
  - finish_transition s H. destruct v; cbn; [tauto|]. by destruct Hi as (_ & -> & -> & ->).
  - finish_transition s H.
  - unfold recover_expired_lease in H. unfold job_inv in Hi.
    destruct s as [st lt br rr vr]. cbn in *.
    destruct st; try discriminate H.
    + destruct Hi as (_ & -> & -> & ->). cbn in H. injection H as <-. done.
    + injection H as <-. destruct Hi as (_ & -> & -> & ->). done.
    + injection H as <-. cbn. tauto.
    + injection H as <-. cbn. tauto.
  - open_transition H. breflect. unfold job_inv in *.
    destruct s as [st lt br rr vr]. cbn in *. destruct st; try (set_solver); cbn; tauto.
Qed.

(** ** Single dispatch *)

Lemma step_dispatch_counts s e s' :
  job_inv s → step s e s' →
  match e with
  | Dispatch t => budget_reserved s = false ∧ budget_reserved s' = true ∧
                  lease_token s = Some t ∧ lease_token s' = Some t
  | Local => budget_reserved s' = budget_reserved s
  end.
Proof.
  intros Hi Hs. destruct Hs as [s t s' H|s t s' H|s t s' H|s t r s' H|s t v s' H|s t r b s' H
                               |s s' H|s t s' H];
    unfold claim, commit_dispatch_intent, fail_before_dispatch, store_response,
      validate_response, publish, claim_recovery, recover_expired_lease in H.
  - by open_transition H.
  - finish_transition s H.
  - by open_transition H.
  - by open_transition H.
  - by open_transition H.
  - by open_transition H.
  - destruct (status s); try discriminate H; open_transition H; done.
  - by open_transition H.
Qed.

Definition count_reserved (s : SummaryState) : nat := if budget_reserved s then 1 else 0.

Lemma steps_count s es s' :
  job_inv s → steps s es s' →
  job_inv s' ∧ (dispatches es + count_reserved s = count_reserved s')%nat.
Proof.
  intros Hi Hs. induction Hs as [s|s1 e s2 es s3 Hs _ IH]; [done|].
  pose proof (summary_step_inv _ _ _ Hi Hs) as Hi2. destruct (IH Hi2) as [Hi3 Hc]. split; [done|].
  pose proof (step_dispatch_counts _ _ _ Hi Hs) as Hd. unfold dispatches, count_reserved in *.
  rewrite filter_cons. destruct e as [t|].
  - destruct Hd as (-> & Hr & _). rewrite Hr in Hc. case_decide; [cbn; lia | done].
  - rewrite Hd in Hc. case_decide; [done | exact Hc].
Qed.

Lemma steps_trans s es s' es' s'' : steps s es s' → steps s' es' s'' → steps s (es ++ es') s''.
Proof. induction 1; [done|]. intros. cbn. eauto using steps. Qed.

Definition terminal_job (s : SummaryState) : Prop :=
  status s ∈ [PUBLISHED; JOB_FAILED; STALE; JOB_UNKNOWN_OUTCOME].

Lemma terminal_stuck s e s' : terminal_job s → ¬ step s e s'.
Proof.
  unfold terminal_job. intros Ht Hs.
  destruct Hs as [s t s' H|s t s' H|s t s' H|s t r s' H|s t v s' H|s t r b s' H|s s' H|s t s' H];
    unfold claim, commit_dispatch_intent, fail_before_dispatch, store_response,
      validate_response, publish, claim_recovery, recover_expired_lease in H;
    open_transition H; unfold is_job in *; breflect;
    try (match goal with E : status _ = _ |- _ => rewrite E in Ht end; set_solver).
  - destruct (status s); try discriminate H; set_solver.
  - apply dec_stable in H. destruct (status s); set_solver.
Qed.

(** C23. A summary job dispatches to the provider at most once, however often
    workers crash and other workers take over: along any history the number of
    dispatches equals the number of budget reservations, which is zero or one;
    a job that stored a response, published or went stale has dispatched exactly
    once; and each dispatch is made by the worker that holds the lease. *)
Theorem summary_single_dispatch es s :
  steps initial es s →
  dispatches es = count_reserved s ∧ (dispatches es <= 1)%nat ∧
  (status s ∈ [RESPONSE_STORED; VALIDATED; PUBLISHED; STALE; JOB_UNKNOWN_OUTCOME] →
   dispatches es = 1%nat) ∧
  (∀ t s', step s (Dispatch t) s' → dispatches es = 0%nat ∧ lease_token s = Some t).
Proof.
  intros Hs. destruct (steps_count initial es s) as [Hi Hc]; [done..|].
  cbn in Hc. rewrite Nat.add_0_r in Hc. unfold count_reserved in *. split; [done|].
  split; [destruct (budget_reserved s); lia|]. split.
  - intros Hst. assert (budget_reserved s = true) as Hb; [|by rewrite Hb in Hc].
    unfold job_inv in Hi.
    repeat (apply elem_of_cons in Hst as [Hst|Hst]; [rewrite Hst in Hi; tauto|]).
    by apply not_elem_of_nil in Hst.
  - intros t s' Hd. apply step_dispatch_counts in Hd as (Hb & _ & Hl & _); [|done].
    by rewrite Hb in Hc.
Qed.

Lemma summary_single_dispatch_witness :
  let s := with_reserved (with_status DISPATCH_INTENT
             (with_lease (Some (lit "w1")) (with_status JOB_CLAIMED initial))) in
  let es := [Local; Dispatch (lit "w1")] in
  dispatches es = count_reserved s ∧ (dispatches es <= 1)%nat ∧
  (status s ∈ [RESPONSE_STORED; VALIDATED; PUBLISHED; STALE; JOB_UNKNOWN_OUTCOME] →
   dispatches es = 1%nat) ∧
  (∀ t s', step s (Dispatch t) s' → dispatches es = 0%nat ∧ lease_token s = Some t).
Proof.
  apply summary_single_dispatch.
  eapply steps_cons; [apply (step_claim _ (lit "w1")); vm_compute; reflexivity|].
  eapply steps_cons; [apply step_dispatch; vm_compute; reflexivity|].
  apply steps_refl.
Defined.

(** Crash recovery of a reachable job never needs a second dispatch: a
    claim lost before the intent returns the job to its initial state; a lease
    lost after the intent ends in [UNKNOWN_OUTCOME] and nothing can move the job
    again; a saved response can be taken over by any worker with a valid token
    and carried to publication with local steps only; and finished jobs never
    move. *)
Lemma summary_crash_recovery es s t r :
  steps initial es s → _valid_token t = true → nonempty r = true →
  (status s = JOB_CLAIMED → recover_expired_lease s = Some initial) ∧
  (status s = DISPATCH_INTENT →
   ∃ s', recover_expired_lease s = Some s' ∧ status s' = JOB_UNKNOWN_OUTCOME ∧
     ∀ e s'', ¬ step s' e s'') ∧
  (status s ∈ [RESPONSE_STORED; VALIDATED] →
   ∃ es' s', steps s es' s' ∧ dispatches es' = 0%nat ∧ status s' = PUBLISHED ∧
     lease_token s' = Some t ∧ revision_ref s' = Some r) ∧
  (terminal_job s → ∀ e s', ¬ step s e s').
Proof.
  intros Hs Ht Hr. destruct (steps_count initial es s) as [Hi _]; [done..|].
  destruct s as [st lt br rr vr]. unfold job_inv in Hi. cbn in *. split_and!.
  - intros ->. destruct Hi as (_ & -> & -> & ->). done.
  - intros ->. eexists. split; [done|]. split; [done|].
    intros e s''. apply terminal_stuck. unfold terminal_job. cbn. set_solver.
  - intros Hst.
    set (s0 := Build_SummaryState st lt br rr vr).
    assert (present rr = true ∧ br = true ∧ vr = None) as (Hp & -> & ->).
    { apply elem_of_two in Hst as [-> | ->]; tauto. }
    assert (recover_expired_lease s0 = Some (with_lease None s0)) as H1.
    { apply elem_of_two in Hst as [-> | ->]; done. }
    assert (claim_recovery (with_lease None s0) t = Some (with_lease (Some t) s0)) as H2.
    { unfold claim_recovery. cbn. rewrite Ht, (bool_decide_false (st ∉ _)) by (intros Hn; by apply Hn).
      done. }
    assert (∀ x, status x = VALIDATED → lease_token x = Some t →
              publish x t r true = Some (with_revision r (with_status PUBLISHED x))) as H4.
    { intros x Hx Hl. unfold publish, _require_owner, is_job.
      by rewrite Hx, Hl, !bool_decide_true, Ht, Hr by done. }
    apply elem_of_two in Hst as [-> | ->].
    + assert (validate_response (with_lease (Some t) s0) t true
              = Some (with_status VALIDATED (with_lease (Some t) s0))) as H3.
      { unfold validate_response, _require_owner, is_job. cbn.
        by rewrite !bool_decide_true, Ht, Hp by done. }
      eexists [Local; Local; Local; Local], _. split.
      * eapply steps_cons; [by eapply step_recover|].
        eapply steps_cons; [by eapply step_reclaim|].
        eapply steps_cons; [by eapply step_validate|].
        eapply steps_cons; [eapply step_publish; by apply H4 | apply steps_refl].
      * done.
    + eexists [Local; Local; Local], _. split.
      * eapply steps_cons; [by eapply step_recover|].
        eapply steps_cons; [by eapply step_reclaim|].
        eapply steps_cons; [eapply step_publish; by apply H4 | apply steps_refl].
      * done.
  - intros Htm e s'. by apply terminal_stuck.
Qed.

(** A job whose worker died after saving the response. *)
Definition orphaned : SummaryState :=
  with_response (lit "resp") (with_status RESPONSE_STORED (with_reserved
    (with_status DISPATCH_INTENT (with_lease (Some (lit "w1")) (with_status JOB_CLAIMED initial))))).

Lemma summary_crash_recovery_witness :
  let t := lit "w2" in
  (status orphaned = JOB_CLAIMED → recover_expired_lease orphaned = Some initial) ∧
  (status orphaned = DISPATCH_INTENT →
   ∃ s', recover_expired_lease orphaned = Some s' ∧ status s' = JOB_UNKNOWN_OUTCOME ∧
     ∀ e s'', ¬ step s' e s'') ∧
  (status orphaned ∈ [RESPONSE_STORED; VALIDATED] →
   ∃ es' s', steps orphaned es' s' ∧ dispatches es' = 0%nat ∧ status s' = PUBLISHED ∧
     lease_token s' = Some t ∧ revision_ref s' = Some (lit "rev")) ∧
  (terminal_job orphaned → ∀ e s', ¬ step orphaned e s').
Proof.
  apply (summary_crash_recovery [Local; Dispatch (lit "w1"); Local] orphaned (lit "w2") (lit "rev"));
    [|vm_compute; reflexivity..].
  eapply steps_cons; [apply (step_claim _ (lit "w1")); vm_compute; reflexivity|].
  eapply steps_cons; [apply step_dispatch; vm_compute; reflexivity|].
  eapply steps_cons; [apply (step_store _ (lit "w1") (lit "resp")); vm_compute; reflexivity|].
  apply steps_refl.
Defined.
