(* ===== verification/ExecutionLease.v ===== *)
(** * The execution lease: one durable owner per run

    Model of [packages/agent_runtime/execution_lease.py].  Each transaction of
    [run_execution_lease] is a program over the tables; [step] interleaves any
    number of workers that use the context manager on one run with each other,
    with crashes and with everybody else's writes.

    A transaction may raise before it commits or after its commit reached the
    database ([db_fault]); the renewal loop swallows both.  [asyncio] timing is
    the order of the steps: the renewal task runs whenever a [Renew] step does. *)

From stdpp Require Import base gmap list strings relations.
From Stdlib Require Import ZArith NArith Lia.
From S2P Require Import Prelude.
From S2P Require Import Json.
From S2P Require Import JsonTheory.
From S2P Require Import RunStore.
From S2P Require Import Rbac.
From S2P Require Import Approvals.
From S2P Require Import ApprovalsTheory.
From S2P Require Import Reconciliation.
From S2P Require Import ReconciliationTheory.

Local Open Scope Z_scope.

Definition LEASE_SECONDS : Z := 180.

Definition _live (expiry : option datetime) (now : datetime) : bool :=
  match expiry with Some e => now <? e | None => false end.

Definition lost_run (code : string) (now : datetime) (r : AgentRun) : AgentRun :=
  set_run_completed_at (Some now) (set_run_failure_code (Some code)
    (set_run_event_log_complete false (set_run_status RunStatus.NEEDS_ATTENTION r))).

(** An owner that let its lease run out is fenced by the next claimant. *)
Definition fence_owner (now : datetime) (r : AgentRun) : AgentRun :=
  set_run_execution_lease_expires_at None (set_run_execution_owner None
    (lost_run "RUN_EXECUTION_LEASE_EXPIRED" now r)).
Definition take_owner (token : list N) (now : datetime) (r : AgentRun) : AgentRun :=
  set_run_execution_lease_expires_at (Some (now + seconds LEASE_SECONDS))
    (set_run_execution_owner (Some token) r).

Section Lease.
Context (workspace_id run_id : uuid).

(** The first transaction: is the run claimed? *)
Definition claim_lease (allowed_statuses : list RunStatus.t) (token : list N) (now : datetime) :
  M Db Exn bool :=
  session_scope (
    d ← get;
    run ← reraise_unless AGENT_RUN_NOT_FOUND (find_run workspace_id run_id d);
    if bool_decide (run_status run ∈ allowed_statuses) then
      if truthy (run_execution_owner run) then
        if negb (_live (run_execution_lease_expires_at run) now)
        then save_run (fence_owner now run);; mret false
        else mret false
      else save_run (take_owner token now run);; mret true
    else mret false).

Definition owned_by (token : list N) (r : AgentRun) : bool :=
  bool_decide (run_execution_owner r = Some token).
Definition nonterminal (r : AgentRun) : bool :=
  bool_decide (run_status r ∈ [RunStatus.RUNNING; RunStatus.CANCEL_REQUESTED]).

(** The updates of the manager; [db_now] is the database clock. *)
Definition extend_lease (token : list N) (db_now now : datetime) : M Db Exn Z :=
  update_run workspace_id run_id
    (λ r, owned_by token r && _live (run_execution_lease_expires_at r) db_now)
    (set_run_execution_lease_expires_at (Some (now + seconds LEASE_SECONDS))).
Definition mark_lost (token : list N) (now : datetime) : M Db Exn Z :=
  update_run workspace_id run_id (owned_by token) (lost_run "RUN_EXECUTION_LEASE_LOST" now).
Definition mark_interrupted (token : list N) (now : datetime) : M Db Exn Z :=
  update_run workspace_id run_id (λ r, owned_by token r && nonterminal r)
    (lost_run "RUN_EXECUTION_INTERRUPTED" now).
Definition released (now : datetime) (r : AgentRun) : AgentRun :=
  set_run_execution_lease_expires_at None (set_run_execution_owner None
    (if nonterminal r then lost_run "RUN_EXECUTION_INTERRUPTED" now r else r)).
Definition release (token : list N) (now : datetime) : M Db Exn Z :=
  update_run workspace_id run_id (owned_by token) (released now).

(** How a transaction of the manager ends. *)
Inductive db_fault := DbOk | DbBefore | DbAfter.
Definition transact {A} (f : db_fault) (m : M Db Exn A) : M Db Exn A := λ d,
  match f with
  | DbOk => m d
  | DbBefore => (Raise (ProviderFailure "database"), d)
  | DbAfter => (Raise (ProviderFailure "database"), snd (m d))
  end.

(** One pass of the [renew] loop: has ownership been lost? *)
Definition renew (token : list N) (db_now now now' : datetime) (f f' : db_fault) :
  M Db Exn bool :=
  renewed ← catch (n ← transact f (extend_lease token db_now now); mret (n =? 1))
                  (λ _, mret false);
  if renewed : bool then mret false
  else catch (transact f' (mark_lost token now');; mret tt) (λ _, mret tt);; mret true.

(** Why the body was left. *)
Inductive exit_kind := Normally | Cancelled | Errored (e : Exn).

Definition LEASE_LOST : Exn :=
  AgentHubError "RUN_EXECUTION_LEASE_LOST"
    "Run ownership was lost; reconciliation is required." 409.

(** The handlers and the [finally] of the manager.  An exception of the
    interruption write replaces the one being handled; the release runs in any
    case. *)
Definition leave (token : list N) (why : exit_kind) (lost : bool) (now now' : datetime)
    (f f' : db_fault) : M Db Exn unit := λ d,
  let handled : M Db Exn unit :=
    match why with
    | Normally => mret tt
    | Cancelled =>
        if lost then raise LEASE_LOST
        else transact f (mark_interrupted token now);; raise CancelledError
    | Errored e => transact f (mark_interrupted token now);; raise e
    end in
  let '(r, d1) := handled d in
  match transact f' (release token now') d1 with
  | (Return _, d2) => (r, d2)
  | (Raise e, d2) => (Raise e, d2)
  end.

(** ** The system of workers on one run *)

(** Statuses some caller allows a claim from. *)
Definition claimable (s : RunStatus.t) : bool :=
  match s with
  | RunStatus.RUNNING | RunStatus.WAITING_APPROVAL | RunStatus.CANCEL_REQUESTED => true
  | _ => false
  end.

(** The database and the workers inside the manager, with their lost flag. *)
Record sys := { sys_db : Db; workers : gmap (list N) bool }.

(** What everybody else may do to the run: not revive a fenced or finished run,
    and touch the owner only to clear it while fencing. *)
Definition env_ok (r r' : AgentRun) : Prop :=
  (claimable (run_status r') = true → claimable (run_status r) = true) ∧
  (run_execution_owner r' = run_execution_owner r ∨
   (run_execution_owner r' = None ∧ claimable (run_status r') = false)).

(** What the workers do. *)
Inductive lease_step : sys → sys → Prop :=
| Claim d d' ws allowed token now :
    (∀ s, s ∈ allowed → claimable s = true) → token ≠ [] →
    claim_lease allowed token now d = (Return true, d') →
    lease_step {| sys_db := d; workers := ws |} {| sys_db := d'; workers := <[token := false]> ws |}
| Refused d d' ws allowed token now f r :
    (∀ s, s ∈ allowed → claimable s = true) → token ≠ [] →
    transact f (claim_lease allowed token now) d = (r, d') → r ≠ Return true →
    lease_step {| sys_db := d; workers := ws |} {| sys_db := d'; workers := ws |}
| Renew d d' ws token db_now now now' f f' lost :
    ws !! token = Some false → renew token db_now now now' f f' d = (Return lost, d') →
    lease_step {| sys_db := d; workers := ws |} {| sys_db := d'; workers := <[token := lost]> ws |}
| Leave d d' ws token why lost now now' f f' r :
    ws !! token = Some lost → leave token why lost now now' f f' d = (r, d') →
    lease_step {| sys_db := d; workers := ws |} {| sys_db := d'; workers := delete token ws |}
| Crash d ws token :
    lease_step {| sys_db := d; workers := ws |} {| sys_db := d; workers := delete token ws |}.

(** And everybody else. *)
Inductive step : sys → sys → Prop :=
| Lease s s' : lease_step s s' → step s s'
| Others d d' ws :
    keys_ok d' →
    (∀ r, find_run workspace_id run_id d = Some r →
      ∃ r', find_run workspace_id run_id d' = Some r' ∧ env_ok r r') →
    step {| sys_db := d; workers := ws |} {| sys_db := d'; workers := ws |}.
End Lease.

(** The promise a program makes to the lease: to every run it is a bystander. *)
Class FencedWriter {A} (m : M Db Exn A) : Prop := fenced_writer : ∀ d out d',
  keys_ok d → m d = (out, d') →
  keys_ok d' ∧
  ∀ w i r, find_run w i d = Some r → ∃ r', find_run w i d' = Some r' ∧ env_ok r r'.
