(* ===== verification/LeaseProperties.v ===== *)
(** * The lease excludes a second execution

    Theorems about [ExecutionLease.v]: at most one worker is ever inside the
    manager, a crashed worker's run is never executed again, and leaving the
    manager never leaves a half-executed run behind.  Everything else that
    writes runs takes part through [env_ok] only. *)

From stdpp Require Import base gmap list strings relations.
From Stdlib Require Import ZArith NArith Lia.
From S2P Require Import Prelude.
From S2P Require Import Json.
From S2P Require Import JsonTheory.
From S2P Require Import RunStore.
From S2P Require Import Rbac.
From S2P Require Import Approvals.
From S2P Require Import ApprovalsTheory.
From S2P Require Import Reconciliation.
From S2P Require Import ReconciliationTheory.
From S2P Require Import ExecutionLease.

Local Open Scope Z_scope.

(** ** One row *)

Definition same_key (f : AgentRun → AgentRun) : Prop :=
  ∀ r, run_id (f r) = run_id r ∧ run_workspace_id (f r) = run_workspace_id r.

Lemma save_run_keys d r i :
  keys_ok d → run_id r = i → keys_ok (set_agent_runs (<[i := r]> (agent_runs d)) d).
Proof.
  intros [H1 H2] Hr. split; [|done]. cbn. intros j r' Hj.
  destruct (decide (j = i)) as [->|].
  - rewrite lookup_insert_eq in Hj. by simplify_eq.
  - rewrite lookup_insert_ne in Hj by done. by apply H1.
Qed.

Lemma find_run_id w i d r : keys_ok d → find_run w i d = Some r → run_id r = i.
Proof. intros [Hk _] [Hl _]%find_run_Some. by apply Hk. Qed.
Lemma find_run_workspace w i d r : find_run w i d = Some r → run_workspace_id r = w.
Proof. by intros [_ ?]%find_run_Some. Qed.

Lemma find_run_save w i d r w' i' :
  find_run w i d = Some r → ∀ r', run_id r' = i → run_workspace_id r' = w →
  find_run w' i' (set_agent_runs (<[i := r']> (agent_runs d)) d) =
  if decide (w' = w ∧ i' = i) then Some r' else find_run w' i' d.
Proof.
  intros [Hl Hw]%find_run_Some r' Hi' Hw'. unfold find_run. cbn.
  destruct (decide (i' = i)) as [->|Hne].
  - rewrite lookup_insert_eq, Hl. cbn. rewrite Hw, Hw'.
    destruct (decide _) as [[-> _]|Hn].
    + by rewrite N.eqb_refl.
    + destruct (N.eqb_spec w w') as [<-|]; [tauto|done].
  - rewrite lookup_insert_ne by done. by rewrite decide_False by tauto.
Qed.

(** An update of one row: the row count tells whether it happened. *)
Lemma update_run_spec w i p f d r :
  keys_ok d → find_run w i d = Some r → same_key f →
  ∃ d', update_run w i p f d = (Return (if p r then 1 else 0), d') ∧ keys_ok d' ∧
        find_run w i d' = Some (if p r then f r else r) ∧ (p r = false → d' = d).
Proof.
  intros Hk Hf Hs. unfold update_run. mstep. rewrite Hf. destruct (p r) eqn:Hp.
  - destruct (Hs r) as [Hi Hw]. pose proof (find_run_id _ _ _ _ Hk Hf) as Hid.
    pose proof (find_run_workspace _ _ _ _ Hf) as Hwk.
    rewrite bind_run. unfold save_run. cbn [modify]. rewrite Hi, Hid.
    eexists. split; [reflexivity|]. split; [apply save_run_keys; congruence|].
    split; [|done]. erewrite find_run_save by (congruence || done).
    by rewrite decide_True.
  - exists d. done.
Qed.

Lemma transact_update w i p f d r ft :
  keys_ok d → find_run w i d = Some r → same_key f →
  ∃ out d', transact ft (update_run w i p f) d = (out, d') ∧ keys_ok d' ∧
    ((find_run w i d' = Some r ∧ d' = d) ∨ (p r = true ∧ find_run w i d' = Some (f r))).
Proof.
  intros Hk Hf Hs. destruct (update_run_spec w i p f d r Hk Hf Hs) as (d' & E & Hk' & Hf' & Hd).
  assert (Hcase : (find_run w i d' = Some r ∧ d' = d) ∨
                  (p r = true ∧ find_run w i d' = Some (f r))).
  { destruct (p r); [by right|left]. rewrite (Hd eq_refl) in *. by split. }
  destruct ft; cbn; [rewrite E|..]; eauto 8.
  rewrite E. cbn. eauto 8.
Qed.

#[export] Hint Extern 1 (same_key _) => (intros ?; split; reflexivity) : agenthub.

Lemma same_key_released now : same_key (released now).
Proof. intros r. unfold released. by destruct (nonterminal r). Qed.
#[export] Hint Resolve same_key_released : agenthub.

(** ** The claim *)

(** What a claim did to the row. *)
Inductive claim_effect (allowed : list RunStatus.t) (token : list N) (now : datetime)
    (r : AgentRun) : outcome Exn bool → AgentRun → Prop :=
| claim_taken : run_status r ∈ allowed → truthy (run_execution_owner r) = false →
    claim_effect allowed token now r (Return true) (take_owner token now r)
| claim_fenced : run_status r ∈ allowed → truthy (run_execution_owner r) = true →
    _live (run_execution_lease_expires_at r) now = false →
    claim_effect allowed token now r (Return false) (fence_owner now r)
| claim_left : (run_status r ∈ allowed →
      truthy (run_execution_owner r) = true ∧
      _live (run_execution_lease_expires_at r) now = true) →
    claim_effect allowed token now r (Return false) r.

Lemma claim_lease_spec w i allowed token now d r :
  keys_ok d → find_run w i d = Some r →
  ∃ out d' r', claim_lease w i allowed token now d = (out, d') ∧ keys_ok d' ∧
    find_run w i d' = Some r' ∧ claim_effect allowed token now r out r' ∧
    (r' = r → d' = d).
Proof.
  intros Hk Hf. pose proof (find_run_id _ _ _ _ Hk Hf) as Hid.
  pose proof (find_run_workspace _ _ _ _ Hf) as Hw.
  assert (Hsave : ∀ r', run_id r' = run_id r → run_workspace_id r' = run_workspace_id r →
    keys_ok (set_agent_runs (<[run_id r' := r']> (agent_runs d)) d) ∧
    find_run w i (set_agent_runs (<[run_id r' := r']> (agent_runs d)) d) = Some r').
  { intros r' E1 E2. rewrite E1, Hid. split; [apply save_run_keys; congruence|].
    erewrite find_run_save by (congruence || done). by rewrite decide_True. }
  unfold claim_lease, session_scope, atomically. mstep. rewrite Hf.
  unfold reraise_unless. rewrite bind_run. cbn [mret M_ret].
  destruct (bool_decide _) eqn:Ha; breflect.
  2:{ exists (Return false), d, r. do 3 (split; [done|]). by split; [constructor|]. }
  destruct (truthy _) eqn:Ht.
  - destruct (_live _ now) eqn:Hl; cbn [negb].
    + exists (Return false), d, r. do 3 (split; [done|]). by split; [constructor|].
    + rewrite bind_run. unfold save_run. cbn [modify].
      destruct (Hsave (fence_owner now r)) as [? ?]; [done..|].
      do 3 eexists. split; [reflexivity|]. split; [done|]. split; [done|].
      split; [by constructor|]. intros Heq. exfalso.
      apply (f_equal run_execution_owner) in Heq. cbn in Heq. by rewrite <- Heq in Ht.
  - rewrite bind_run. unfold save_run. cbn [modify].
    destruct (Hsave (take_owner token now r)) as [? ?]; [done..|].
    do 3 eexists. split; [reflexivity|]. split; [done|]. split; [done|].
    split; [by constructor|]. intros Heq. 
    apply (f_equal run_execution_owner) in Heq as Ho.
    rewrite Heq. rewrite Hid. destruct Hk as [Hk1 _].
    apply find_run_Some in Hf as [Hf _]. destruct d; cbn in *.
    by rewrite insert_id.
Qed.

Lemma claim_lease_missing w i allowed token now d :
  find_run w i d = None →
  claim_lease w i allowed token now d = (Raise AGENT_RUN_NOT_FOUND, d).
Proof.
  intros Hf. unfold claim_lease, session_scope, atomically. mstep. by rewrite Hf.
Qed.

(** A claim that may be cut off by the database. *)
Lemma transact_claim w i allowed token now f d out d' r :
  keys_ok d → find_run w i d = Some r →
  transact f (claim_lease w i allowed token now) d = (out, d') →
  keys_ok d' ∧ ∃ o r', find_run w i d' = Some r' ∧
    (r' = r ∨ claim_effect allowed token now r o r').
Proof.
  intros Hk Hf E.
  destruct (claim_lease_spec w i allowed token now d r Hk Hf)
    as (o & d1 & r1 & E1 & Hk1 & Hf1 & He & _).
  destruct f; cbn in E; rewrite ?E1 in E; cbn in E; simplify_eq;
    (split; [done|]); [exists out, r1|exists o, r|exists o, r1]; eauto.
Qed.

(** ** Mutual exclusion *)

(** Worker [t] is protected: it owns the run, or nobody can claim it. *)
Definition held (t : list N) (r : AgentRun) : Prop :=
  run_execution_owner r = Some t ∨ claimable (run_status r) = false.
(** Nobody can claim the run before it is fenced. *)
Definition sealed (r : AgentRun) : Prop :=
  truthy (run_execution_owner r) = true ∨ claimable (run_status r) = false.

Lemma held_sealed t r : t ≠ [] → held t r → sealed r.
Proof. unfold sealed. intros Ht [->|]; [left; by destruct t|by right]. Qed.

Lemma held_env t r r' : env_ok r r' → held t r → held t r'.
Proof.
  unfold held. intros [Hc Ho] [Hr|Hr].
  - destruct Ho as [->|[_ ?]]; [by left|by right].
  - right. apply not_true_iff_false. intros H%Hc. congruence.
Qed.
Lemma sealed_env r r' : env_ok r r' → sealed r → sealed r'.
Proof.
  unfold sealed. intros [Hc Ho] [Hr|Hr].
  - destruct Ho as [->|[_ ?]]; [by left|by right].
  - right. apply not_true_iff_false. intros H%Hc. congruence.
Qed.

(** A sealed row is not claimed, and stays sealed for whoever holds it. *)
Lemma claim_sealed allowed token now r o r' :
  (∀ s, s ∈ allowed → claimable s = true) → sealed r →
  claim_effect allowed token now r o r' →
  o = Return false ∧ (r' = r ∨ claimable (run_status r') = false).
Proof.
  intros Hall Hs He. destruct He as [Hin Ht|Hin Ht Hl|Hn].
  - exfalso. destruct Hs as [Hs|Hs]; [congruence|]. by rewrite (Hall _ Hin) in Hs.
  - split; [done|]. by right.
  - split; [done|]. by left.
Qed.

Section System.
Context (w i : uuid).

Record lease_inv (s : sys) : Prop := {
  inv_keys : keys_ok (sys_db s);
  inv_one : (size (workers s) ≤ 1)%nat;
  inv_held : ∀ t lost, workers s !! t = Some lost →
    t ≠ [] ∧ ∃ r, find_run w i (sys_db s) = Some r ∧ held t r }.

Lemma others_absent (ws : gmap (list N) bool) t lost t' lost' :
  (size ws ≤ 1)%nat → ws !! t = Some lost → ws !! t' = Some lost' → t' = t.
Proof.
  intros Hs Ht Ht'. destruct (decide (t' = t)) as [|Hne]; [done|exfalso].
  assert (H : (2 ≤ size ws)%nat); [|lia].
  rewrite <- (insert_delete_id ws t lost Ht).
  rewrite map_size_insert_None by apply lookup_delete_eq.
  destruct (decide (delete t ws = ∅)) as [He|He%map_size_non_empty_iff]; [|lia].
  exfalso. assert (delete t ws !! t' = None) as Hd by (rewrite He; apply lookup_empty).
  rewrite lookup_delete_ne in Hd by done. congruence.
Qed.

Lemma size_delete_le (ws : gmap (list N) bool) t : (size (delete t ws) ≤ size ws)%nat.
Proof. rewrite map_size_delete. destruct (ws !! t); unfold id; lia. Qed.

(** The renewal keeps the worker protected. *)
Lemma renew_keeps t db_now now now' f f' d out d' r :
  keys_ok d → find_run w i d = Some r → held t r →
  renew w i t db_now now now' f f' d = (out, d') →
  keys_ok d' ∧ ∃ r', find_run w i d' = Some r' ∧ held t r'.
Proof.
  intros Hk Hf Hh E. unfold renew in E. rewrite bind_run in E. unfold catch in E.
  rewrite bind_run in E.
  destruct (transact_update w i
    (λ r, owned_by t r && _live (run_execution_lease_expires_at r) db_now)
    (set_run_execution_lease_expires_at (Some (now + seconds LEASE_SECONDS))) d r f
    Hk Hf ltac:(auto with agenthub)) as (o1 & d1 & E1 & Hk1 & H1).
  assert (∃ r1, find_run w i d1 = Some r1 ∧ held t r1) as (r1 & Hf1 & Hh1).
  { destruct H1 as [[? _]|[_ ?]]; [by eauto|]. eexists. split; [done|]. exact Hh. }
  unfold extend_lease in E. rewrite E1 in E.
  assert (Hstep : ∀ (b : bool), (if b then mret false else
      catch (transact f' (mark_lost w i t now');; mret tt) (λ _, mret tt);; mret true) d1
      = (out, d') → keys_ok d' ∧ ∃ r', find_run w i d' = Some r' ∧ held t r').
  { intros [] Eb; [injection Eb as _ <-; eauto|].
    destruct (transact_update w i (owned_by t) (lost_run "RUN_EXECUTION_LEASE_LOST" now') d1 r1 f'
      Hk1 Hf1 ltac:(auto with agenthub)) as (o2 & d2 & E2 & Hk2 & H2).
    cbv iota in Eb. rewrite bind_run in Eb. unfold catch in Eb. rewrite bind_run in Eb.
    unfold mark_lost in Eb. rewrite E2 in Eb.
    assert (d' = d2) as ->.
    { by destruct o2; injection Eb as _ <-. }
    split; [done|]. destruct H2 as [[? _]|[_ ?]]; [by eauto|].
    eexists. split; [done|]. by right. }
  destruct o1 as [a|]; [exact (Hstep (a =? 1) E)|exact (Hstep false E)].
Qed.

(** Every write of the manager by worker [t] is an [update_run]; leaving it
    leaves at most the row of [t] changed. *)
Lemma leave_keys t why lost now now' f f' d out d' r :
  keys_ok d → find_run w i d = Some r →
  leave w i t why lost now now' f f' d = (out, d') →
  keys_ok d' ∧ ∃ r', find_run w i d' = Some r'.
Proof.
  intros Hk Hf. unfold leave.
  set (h := match why with Normally => _ | Cancelled => _ | Errored e => _ end).
  assert (∃ o1 d1 r1, h d = (o1, d1) ∧ keys_ok d1 ∧ find_run w i d1 = Some r1)
    as (o1 & d1 & r1 & E1 & Hk1 & Hf1).
  { assert (Hm : ∀ e, ∃ o1 d1 r1,
      (transact f (mark_interrupted w i t now);; raise e : M Db Exn unit) d = (o1, d1) ∧
      keys_ok d1 ∧ find_run w i d1 = Some r1).
    { intros e. destruct (transact_update w i (λ r, owned_by t r && nonterminal r)
        (lost_run "RUN_EXECUTION_INTERRUPTED" now) d r f Hk Hf ltac:(auto with agenthub))
        as (o & d1 & E & Hk1 & H1).
      unfold mark_interrupted. rewrite bind_run, E.
      destruct o, H1 as [[? _]|[_ ?]]; do 3 eexists; (split; [reflexivity|]);
        (split; [done|eassumption]). }
    subst h. destruct why as [| |e].
    - exists (Return tt), d, r. by split; [reflexivity|].
    - destruct lost; [|apply Hm].
      exists (Raise LEASE_LOST), d, r. by split; [reflexivity|].
    - apply Hm. }
  rewrite E1.
  destruct (transact_update w i (owned_by t) (released now') d1 r1 f' Hk1 Hf1
    ltac:(auto with agenthub)) as (o2 & d2 & E2 & Hk2 & H2).
  unfold release. rewrite E2. intros E.
  assert (d' = d2) as -> by (destruct o2; by simplify_eq).
  split; [done|]. destruct H2 as [[? _]|[_ ?]]; eauto.
Qed.

Lemma step_inv s s' : step w i s s' → lease_inv s → lease_inv s'.
Proof.
  destruct 1 as [? ? [d d' ws allowed token now Hall Htok E
                |d d' ws allowed token now f out Hall Htok E Hout
                |d d' ws token db_now now now' f f' lost Hw E
                |d d' ws token why lost now now' f f' out Hw E
                |d ws token]|d d' ws Hk' Henv];
    intros [Hk Hone Hheld]; cbn in *.
  - destruct (find_run w i d) as [r|] eqn:Hf.
    2:{ by rewrite claim_lease_missing in E. }
    destruct (claim_lease_spec w i allowed token now d r Hk Hf)
      as (o & d1 & r1 & E1 & Hk1 & Hf1 & He & _).
    rewrite E1 in E. simplify_eq.
    assert (ws = ∅) as ->.
    { apply map_empty. intros t. destruct (ws !! t) as [l|] eqn:Ht; [|done].
      destruct (Hheld _ _ Ht) as (Hnil & r' & [= <-] & Hh).
      by destruct (claim_sealed _ _ _ _ _ _ Hall (held_sealed _ _ Hnil Hh) He). }
    split; cbn; [done|by rewrite insert_empty, map_size_singleton|].
    intros t l Ht. rewrite insert_empty in Ht.
    apply lookup_singleton_Some in Ht as [<- <-]. split; [done|].
    exists r1. split; [done|]. inversion He; subst. by left.
  - destruct (find_run w i d) as [r|] eqn:Hf.
    + destruct (transact_claim _ _ _ _ _ _ _ _ _ _ Hk Hf E) as (Hk' & o & r' & Hf' & He).
      split; [done..|]. intros t l Ht.
      destruct (Hheld _ _ Ht) as (Hnil & r0 & [= <-] & Hh). split; [done|].
      exists r'. split; [done|]. destruct He as [->|He]; [done|].
      destruct (claim_sealed _ _ _ _ _ _ Hall (held_sealed _ _ Hnil Hh) He) as [_ [->|?]];
        [done|by right].
    + assert (d' = d) as ->.
      { unfold transact in E. rewrite claim_lease_missing in E by done.
        by destruct f; simplify_eq. }
      split; [done..|]. intros t l Ht.
      by destruct (Hheld _ _ Ht) as (_ & ? & ? & _).
  - destruct (Hheld _ _ Hw) as (Hnil & r & Hf & Hh).
    destruct (renew_keeps _ _ _ _ _ _ _ _ _ _ Hk Hf Hh E) as (Hk' & r' & Hf' & Hh').
    split; cbn; [done|by rewrite map_size_insert_Some|].
    intros t l Ht. destruct (decide (t = token)) as [->|Hne]; [by eauto|].
    rewrite lookup_insert_ne in Ht by done.
    by rewrite (others_absent _ _ _ _ _ Hone Hw Ht) in Hne.
  - destruct (Hheld _ _ Hw) as (Hnil & r & Hf & _).
    destruct (leave_keys _ _ _ _ _ _ _ _ _ _ _ Hk Hf E) as (Hk' & _).
    split; cbn; [done|pose proof (size_delete_le ws token); lia|].
    intros t l [Hne Ht]%lookup_delete_Some.
    by rewrite (others_absent _ _ _ _ _ Hone Hw Ht) in Hne.
  - split; cbn; [done|pose proof (size_delete_le ws token); lia|].
    intros t l [Hne Ht]%lookup_delete_Some. eauto.
  - split; [done..|]. intros t l Ht.
    destruct (Hheld _ _ Ht) as (Hnil & r & Hf & Hh). split; [done|].
    destruct (Henv _ Hf) as (r' & Hf' & He). eauto using held_env.
Qed.

Lemma rtc_inv s s' : rtc (step w i) s s' → lease_inv s → lease_inv s'.
Proof. induction 1; eauto using step_inv. Qed.

Lemma lease_inv_start d : keys_ok d → lease_inv {| sys_db := d; workers := ∅ |}.
Proof.
  intros Hk. split; cbn; [done|rewrite map_size_empty; lia|].
  intros t l Ht. by rewrite lookup_empty in Ht.
Qed.

(** A sealed run without workers stays so. *)
Definition abandoned (s : sys) : Prop :=
  keys_ok (sys_db s) ∧ workers s = ∅ ∧ ∃ r, find_run w i (sys_db s) = Some r ∧ sealed r.

Lemma step_abandoned s s' : step w i s s' → abandoned s → abandoned s'.
Proof.
  intros Hs (Hk & Hws & r & Hf & Hr).
  destruct Hs as [? ? [d d' ws allowed token now Hall Htok E
                |d d' ws allowed token now f out Hall Htok E Hout
                |d d' ws token db_now now now' f f' lost Hw E
                |d d' ws token why lost now now' f f' out Hw E
                |d ws token]|d d' ws Hk' Henv]; cbn in *; subst ws.
  - destruct (claim_lease_spec w i allowed token now d r Hk Hf)
      as (o & d1 & r1 & E1 & Hk1 & Hf1 & He & _).
    rewrite E1 in E. simplify_eq.
    by destruct (claim_sealed _ _ _ _ _ _ Hall Hr He).
  - destruct (transact_claim _ _ _ _ _ _ _ _ _ _ Hk Hf E) as (Hk' & o & r' & Hf' & He).
    split; [done|]. split; [done|]. exists r'. split; [done|].
    destruct He as [->|He]; [done|].
    destruct (claim_sealed _ _ _ _ _ _ Hall Hr He) as [_ [->|?]]; [done|by right].
  - by rewrite lookup_empty in Hw.
  - by rewrite lookup_empty in Hw.
  - split; [done|]. split; [apply delete_empty|eauto].
  - split; [done|]. split; [done|]. destruct (Henv _ Hf) as (r' & Hf' & He).
    exists r'. eauto using sealed_env.
Qed.

Lemma rtc_abandoned s s' : rtc (step w i) s s' → abandoned s → abandoned s'.
Proof. induction 1; eauto using step_abandoned. Qed.
End System.

(** A worker that leaves: the row it leaves behind. *)
Lemma leave_row w i t why lost now now' f d out d' r :
  keys_ok d → find_run w i d = Some r →
  leave w i t why lost now now' f DbOk d = (out, d') →
  (run_execution_owner r = Some t ∧ ∃ r1 r', find_run w i d' = Some r' ∧
     (r1 = r ∨ (nonterminal r = true ∧ r1 = lost_run "RUN_EXECUTION_INTERRUPTED" now r)) ∧
     r' = released now' r1) ∨
  (run_execution_owner r ≠ Some t ∧ d' = d).
Proof.
  intros Hk Hf. unfold leave.
  set (h := match why with Normally => _ | Cancelled => _ | Errored e => _ end).
  assert (∃ o1 d1, h d = (o1, d1) ∧ keys_ok d1 ∧ ((find_run w i d1 = Some r ∧ d1 = d) ∨
    (owned_by t r && nonterminal r = true ∧
     find_run w i d1 = Some (lost_run "RUN_EXECUTION_INTERRUPTED" now r))))
    as (o1 & d1 & E1 & Hk1 & H1).
  { assert (Hm : ∀ e, ∃ o1 d1,
      (transact f (mark_interrupted w i t now);; raise e : M Db Exn unit) d = (o1, d1) ∧
      keys_ok d1 ∧ ((find_run w i d1 = Some r ∧ d1 = d) ∨
        (owned_by t r && nonterminal r = true ∧
         find_run w i d1 = Some (lost_run "RUN_EXECUTION_INTERRUPTED" now r)))).
    { intros e. destruct (transact_update w i (λ r, owned_by t r && nonterminal r)
        (lost_run "RUN_EXECUTION_INTERRUPTED" now) d r f Hk Hf ltac:(auto with agenthub))
        as (o & d1 & E & Hk1 & H1).
      unfold mark_interrupted. rewrite bind_run, E. destruct o; eauto. }
    subst h. destruct why as [| |e]; [..|apply Hm].
    - exists (Return tt), d. split; [reflexivity|]. eauto.
    - destruct lost; [|apply Hm]. exists (Raise LEASE_LOST), d. split; [reflexivity|]. eauto. }
  rewrite E1. cbn [transact]. unfold release. intros E.
  destruct H1 as [[Hf1 ->]|[Ho Hf1]];
    destruct (update_run_spec w i (owned_by t) (released now') _ _ Hk1 Hf1
      ltac:(auto with agenthub)) as (d2 & E2 & Hk2 & Hf2 & Hd2);
    rewrite E2 in E; injection E as _ <-.
  - destruct (owned_by t r) eqn:Hown; unfold owned_by in Hown; breflect.
    + left. split; [done|]. eauto 8.
    + right. split; [done|]. auto.
  - apply andb_true_iff in Ho as [Hown Hnt]. unfold owned_by in Hown. breflect.
    left. split; [done|]. unfold owned_by in Hf2. cbn in Hf2.
    rewrite bool_decide_true in Hf2 by done. eauto 8.
Qed.

Lemma released_settled now r :
  run_execution_owner (released now r) = None ∧ nonterminal (released now r) = false.
Proof.
  unfold released. by destruct (nonterminal r) eqn:Hn.
Qed.

(** ** Claims *)

(** One execution at a time.  Start any number of workers on one run, let
    them claim, renew, lose their lease, fail, crash and leave in any order and
    with any clocks, let database failures cut transactions off before or after
    they took effect, and let the rest of the system act as [env_ok] allows:
    there is never more than one worker inside [run_execution_lease], and while
    a worker is inside, the run names it as owner or can no longer be claimed. *)
Lemma lease_mutual_exclusion w i d s :
  keys_ok d → rtc (step w i) {| sys_db := d; workers := ∅ |} s →
  (size (workers s) ≤ 1)%nat ∧
  ∀ t lost, workers s !! t = Some lost →
    ∃ r, find_run w i (sys_db s) = Some r ∧
      (run_execution_owner r = Some t ∨ claimable (run_status r) = false).
Proof.
  intros Hk Hs. assert (Hi : lease_inv w i s).
  { eapply rtc_inv; [exact Hs|by apply lease_inv_start]. }
  split; [apply Hi|]. intros t l Ht. by destruct (inv_held _ _ _ Hi _ _ Ht) as (_ & ?).
Qed.

(** C24. A lost owner is never replayed.  When a worker dies inside the manager
    without releasing it, no worker enters the manager of that run again,
    whatever happens later: the next claimant fences the run instead. *)
Theorem crashed_run_never_reexecuted w i d s t lost s' :
  keys_ok d → rtc (step w i) {| sys_db := d; workers := ∅ |} s →
  workers s !! t = Some lost →
  rtc (step w i) {| sys_db := sys_db s; workers := delete t (workers s) |} s' →
  workers s' = ∅.
Proof.
  intros Hk Hs Ht Hs'. assert (Hi : lease_inv w i s).
  { eapply rtc_inv; [exact Hs|by apply lease_inv_start]. }
  destruct (inv_held _ _ _ Hi _ _ Ht) as (Hnil & r & Hf & Hh).
  refine (proj1 (proj2 (rtc_abandoned w i _ _ Hs' _))).
  split; [apply Hi|]. cbn. split; [|by eauto using held_sealed].
  apply map_empty. intros t'. destruct (decide (t' = t)) as [->|Hne].
  - apply lookup_delete_eq.
  - rewrite lookup_delete_ne by done. destruct (workers s !! t') eqn:Ht'; [|done].
    by destruct Hne; apply (others_absent _ _ _ _ _ (inv_one _ _ _ Hi) Ht Ht').
Qed.

(** Leaving never leaves a half-executed run behind.  When the release
    commits, a run this worker still owned has no owner and no live status
    (RUNNING and CANCEL_REQUESTED became NEEDS_ATTENTION), however the body
    ended; a run that has another owner or none is not touched at all. *)
Lemma leave_settles_run w i t why lost now now' f d out d' r :
  keys_ok d → find_run w i d = Some r →
  leave w i t why lost now now' f DbOk d = (out, d') →
  (run_execution_owner r = Some t ∧ ∃ r', find_run w i d' = Some r' ∧
     run_execution_owner r' = None ∧ run_execution_lease_expires_at r' = None ∧
     run_status r' ≠ RunStatus.RUNNING ∧ run_status r' ≠ RunStatus.CANCEL_REQUESTED ∧
     (nonterminal r = true → run_status r' = RunStatus.NEEDS_ATTENTION ∧
        run_failure_code r' = Some "RUN_EXECUTION_INTERRUPTED"%string ∧
        run_event_log_complete r' = false) ∧
     (nonterminal r = false → run_status r' = run_status r)) ∨
  (run_execution_owner r ≠ Some t ∧ d' = d).
Proof.
  intros Hk Hf E.
  destruct (leave_row _ _ _ _ _ _ _ _ _ _ _ _ Hk Hf E)
    as [(Ho & r1 & r' & Hf' & Hr1 & ->)|?]; [left|by right].
  split; [done|]. exists (released now' r1). split; [done|].
  pose proof (released_settled now' r1) as [? Hn]. split; [done|]. split; [done|].
  unfold nonterminal in Hn. breflect. rewrite elem_of_two in Hn.
  split; [by intros ?; apply Hn; left|]. split; [by intros ?; apply Hn; right|].
  unfold released. destruct Hr1 as [->|[Hnt ->]].
  - by destruct (nonterminal r).
  - rewrite Hnt. by split.
Qed.

(** ** Witnesses *)

Definition lease_run : AgentRun := fresh_run 2 1 5 9.
Definition lease_db (r : AgentRun) : Db := set_agent_runs {[2%N := r]} no_tables.

Lemma lease_db_keys r : run_id r = 2%N → keys_ok (lease_db r).
Proof.
  intros Hr. split; intros j x Hj; cbn in Hj; [|by rewrite lookup_empty in Hj].
  by apply lookup_singleton_Some in Hj as [<- <-].
Qed.

Definition tok : list N := [97%N].
Definition inside : sys :=
  {| sys_db := lease_db (take_owner tok 10 lease_run); workers := <[tok := false]> ∅ |}.

Lemma enters_lease : lease_step 1 2 {| sys_db := lease_db lease_run; workers := ∅ |} inside.
Proof.
  apply (Claim 1 2 _ _ ∅ [RunStatus.RUNNING] tok 10); [|done|reflexivity].
  by intros s ->%list_elem_of_singleton.
Qed.

Lemma enters : step 1 2 {| sys_db := lease_db lease_run; workers := ∅ |} inside.
Proof. apply Lease, enters_lease. Qed.

Lemma lease_mutual_exclusion_witness :
  (size (workers inside) ≤ 1)%nat ∧
  ∀ t lost, workers inside !! t = Some lost →
    ∃ r, find_run 1 2 (sys_db inside) = Some r ∧
      (run_execution_owner r = Some t ∨ claimable (run_status r) = false).
Proof.
  apply (lease_mutual_exclusion 1 2 (lease_db lease_run)).
  - by apply lease_db_keys.
  - apply rtc_once, enters.
Defined.

Lemma crashed_run_never_reexecuted_witness :
  workers {| sys_db := sys_db inside; workers := delete tok (workers inside) |} = ∅.
Proof.
  apply (crashed_run_never_reexecuted 1 2 (lease_db lease_run) inside tok false).
  - by apply lease_db_keys.
  - apply rtc_once, enters.
  - apply lookup_insert_eq.
  - apply rtc_refl.
Defined.

Lemma leave_settles_run_witness :
  let '(_, d') := leave 1 2 tok Normally false 20 21 DbOk DbOk (sys_db inside) in
  ∃ r', find_run 1 2 d' = Some r' ∧ run_status r' = RunStatus.NEEDS_ATTENTION.
Proof.
  destruct (leave 1 2 tok Normally false 20 21 DbOk DbOk (sys_db inside)) as [o d'] eqn:E.
  destruct (leave_settles_run 1 2 tok Normally false 20 21 DbOk (sys_db inside) o d'
    (take_owner tok 10 lease_run)) as [(_ & r' & Hf & _ & _ & _ & _ & H & _)|[H _]].
  - by apply lease_db_keys.
  - reflexivity.
  - exact E.
  - exists r'. split; [exact Hf|]. apply H. reflexivity.
  - by destruct H.
Defined.
