(* ===== verification/TurnTranscript.v ===== *)
(** * The stored transcript of one thread turn

    Model of [packages/agent_runtime/history_transcript.py] and of the messages
    of [packages/model_gateway/contracts.py]: validation of a complete turn,
    its versioned JSON payload, and the strict reading of a payload.

    Every refusal of the module is the same [ValueError] subclass with another
    text; here it is [None].  Tests of Python types are discharged by typing
    where the argument is typed and kept where it is JSON.  Text decoding
    ([decode]) is [json.loads] followed by [_transcript_from_payload]; the
    parser itself is not modelled. *)

From stdpp Require Import base gmap list strings.
From Stdlib Require Import ZArith NArith Lia.
From S2P Require Import Prelude.
From S2P Require Import Json.
From S2P Require Import JsonTheory.

Local Open Scope N_scope.

(** ** Messages *)

Inductive MessageRole := role_system | role_user | role_assistant | role_tool.
#[global] Instance MessageRole_eq_dec : EqDecision MessageRole.
Proof. solve_decision. Defined.
Definition role_text (r : MessageRole) : list N :=
  match r with
  | role_system => lit "system" | role_user => lit "user"
  | role_assistant => lit "assistant" | role_tool => lit "tool"
  end.

Record ModelToolCall := {
  call_name : list N;
  call_arguments : json;
  provider_tool_call_id : option (list N)
}.
Record ModelMessage := {
  role : MessageRole;
  content : option (list N);
  msg_name : option (list N);
  tool_call_id : option (list N);
  tool_calls : list ModelToolCall
}.

(** ** Bounds *)

Definition TRANSCRIPT_SCHEMA_VERSION : Z := 1.
Definition TRANSCRIPT_PAYLOAD_KIND : list N := lit "agenthub.turn_transcript".
Definition MAX_ENCODED_BYTES : N := 4 * 1024 * 1024.
Definition MAX_TOOL_CALLS_PER_ASSISTANT : N := 32.
Definition MAX_TOTAL_TOOL_CALLS : N := 64.
Definition MAX_MESSAGES : N := 2 + 2 * MAX_TOTAL_TOOL_CALLS.
Definition MAX_MESSAGE_CONTENT_CHARS : N := 1000000.
Definition MAX_MESSAGE_NAME_CHARS : N := 256.
Definition MAX_PROTOCOL_CALL_ID_CHARS : N := 512.
Definition MAX_ARGUMENT_STRING_CHARS : N := 1000000.
Definition MAX_ARGUMENT_DEPTH : N := 16.
Definition MAX_ARGUMENT_NODES : N := 10000.
Definition MAX_ARGUMENT_INTEGER_BITS : Z := 1024.
Definition MAX_PAYLOAD_DEPTH : N := 24.
Definition MAX_PAYLOAD_NODES : N := 100000.

Definition len {A} (l : list A) : N := N.of_nat (length l).

(** [str.isprintable] of one character: a table of the Unicode database. *)
Class Unicode := { py_isprintable : N → bool }.

(** ** Bounded JSON trees *)

(** [int.bit_length()] *)
Definition bit_length (z : Z) : Z :=
  if (z =? 0)%Z then 0%Z else (Z.log2 (Z.abs z) + 1)%Z.

(** The walk that [_validate_payload_tree] and [_normalize_arguments] both
    make: count every value and every key against a budget, bound the depth,
    test atoms and keys.  The result is the new count.  Values are trees here,
    so the identity tests for cycles never fire, and a deep copy is the value. *)
Section Walk.
Context (max_nodes max_depth : N) (atom_ok : json → bool) (key_ok : list N → bool).

Fixpoint walk (depth : N) (v : json) (nodes : N) : option N :=
  let nodes := nodes + 1 in
  if max_nodes <? nodes then None
  else if max_depth <? depth then None
  else match v with
  | JArr l => (fix go l nodes := match l with
               | [] => Some nodes
               | x :: r => n ← walk (depth + 1) x nodes; go r n
               end) l nodes
  | JObj l => (fix go l nodes := match l with
               | [] => Some nodes
               | (k, x) :: r =>
                   let nodes := nodes + 1 in
                   if max_nodes <? nodes then None
                   else if key_ok k then n ← walk (depth + 1) x nodes; go r n
                   else None
               end) l nodes
  | _ => if atom_ok v then Some nodes else None
  end.
End Walk.

(** [_ensure_valid_unicode]: encodable as UTF-8 and without NUL. *)
Definition _ensure_valid_unicode (s : list N) : bool :=
  negb (existsb is_surrogate s) && negb (existsb (N.eqb 0) s).

Definition payload_atom (v : json) : bool :=
  match v with
  | JInt z => (bit_length z <=? MAX_ARGUMENT_INTEGER_BITS)%Z
  | JFloat r => negb (non_finite r)
  | _ => true
  end.
Definition payload_key (k : list N) : bool := len k <=? MAX_MESSAGE_NAME_CHARS.

Definition _validate_payload_tree (payload : json) : bool :=
  match walk MAX_PAYLOAD_NODES MAX_PAYLOAD_DEPTH payload_atom payload_key 0 payload 0 with
  | Some _ => true
  | None => false
  end.

Definition argument_atom (v : json) : bool :=
  payload_atom v &&
  match v with
  | JStr s => (len s <=? MAX_ARGUMENT_STRING_CHARS) && _ensure_valid_unicode s
  | _ => true
  end.
Definition argument_key (k : list N) : bool := payload_key k && _ensure_valid_unicode k.

Definition _normalize_arguments (arguments : json) : option json :=
  match arguments with
  | JObj _ =>
      _ ← walk MAX_ARGUMENT_NODES MAX_ARGUMENT_DEPTH argument_atom argument_key 0 arguments 0;
      Some arguments
  | _ => None
  end.

(** ** Text fields *)

Section Transcript.
Context `{Unicode}.

(** The checks answer whether the field is accepted. *)
Definition _validate_content (c : option (list N)) (allow_none require_nonblank : bool) : bool :=
  match c with
  | None => allow_none
  | Some s => (len s <=? MAX_MESSAGE_CONTENT_CHARS) && _ensure_valid_unicode s
              && (negb require_nonblank || negb (bool_decide (py_strip s = [])))
  end.

Definition bounded_text (limit : N) (char_ok : N → bool) (s : list N) : bool :=
  negb (bool_decide (s = [])) && bool_decide (py_strip s = s) && (len s <=? limit)
  && _ensure_valid_unicode s && forallb char_ok s.
Definition _require_name (s : list N) : bool :=
  bounded_text MAX_MESSAGE_NAME_CHARS py_isprintable s.
Definition _require_protocol_id (s : list N) : bool :=
  bounded_text MAX_PROTOCOL_CALL_ID_CHARS (λ c, py_isprintable c && negb (py_isspace c)) s.
Definition _validate_message_name (n : option (list N)) : bool :=
  match n with None => true | Some s => _require_name s end.

Definition is_role (r : MessageRole) (m : ModelMessage) : bool := bool_decide (role m = r).
Definition no_calls (m : ModelMessage) : bool :=
  match tool_calls m with [] => true | _ => false end.
Definition no_call_id (m : ModelMessage) : bool :=
  match tool_call_id m with None => true | Some _ => false end.

Definition _validate_user_message (m : ModelMessage) : bool :=
  no_calls m && no_call_id m && _validate_message_name (msg_name m)
  && _validate_content (content m) false true.
Definition _validate_final_assistant (m : ModelMessage) : bool :=
  no_calls m && no_call_id m && _validate_message_name (msg_name m)
  && _validate_content (content m) false true.
Definition _validate_assistant_content (c : option (list N)) : bool :=
  _validate_content c true false.

(** The normalized call and its protocol id. *)
Definition _validate_tool_call (call : ModelToolCall) : option (ModelToolCall * list N) :=
  if negb (_require_name (call_name call)) then None else
  match provider_tool_call_id call with
  | Some call_id =>
      if negb (_require_protocol_id call_id) then None else
      arguments ← _normalize_arguments (call_arguments call);
      Some ({| call_name := call_name call; call_arguments := arguments;
               provider_tool_call_id := Some call_id |}, call_id)
  | None => None
  end.

Definition _validate_tool_result (m : ModelMessage) : option (list N) :=
  if no_calls m && _validate_message_name (msg_name m)
     && _validate_content (content m) false false
  then match tool_call_id m with
       | Some i => if _require_protocol_id i then Some i else None
       | None => None
       end
  else None.

(** ** The turn *)

(** [for call in calls]: the normalized calls with their ids, and the ids seen
    so far in the turn. *)
Fixpoint validate_calls (calls : list ModelToolCall) (seen : list (list N)) :
  option (list (ModelToolCall * list N) * list (list N)) :=
  match calls with
  | [] => Some ([], seen)
  | call :: r =>
      c ← _validate_tool_call call;
      if bool_decide (c.2 ∈ seen) then None else
      rest ← validate_calls r (c.2 :: seen);
      Some (c :: rest.1, rest.2)
  end.

(** [call_names.get(id)] *)
Definition call_name_of (group : list (ModelToolCall * list N)) (i : list N) :
  option (list N) :=
  call_name ∘ fst <$> find (λ c, bool_decide (c.2 = i)) group.

(** One result of a group: its id and the normalized message. *)
Definition validate_result (group : list (ModelToolCall * list N)) (m : ModelMessage) :
  option (list N * ModelMessage) :=
  if negb (is_role role_tool m) then None else
  i ← _validate_tool_result m;
  if match call_name_of group i, msg_name m with
     | Some n, Some n' => negb (bool_decide (n' = n))
     | _, _ => false
     end
  then None
  else Some (i, {| role := role_tool; content := content m; msg_name := msg_name m;
                   tool_call_id := Some i; tool_calls := [] |}).

(** [while index < len(values) - 1]: the messages between the user and the
    final assistant, group by group; every pass consumes at least one. *)
Fixpoint validate_groups (fuel : nat) (values : list ModelMessage) (seen : list (list N))
    (total_calls : N) : option (list ModelMessage) :=
  match values, fuel with
  | [], _ => Some []
  | _ :: _, O => None
  | assistant :: rest, S fuel =>
      if negb (is_role role_assistant assistant) then None else
      if negb (no_call_id assistant) then None else
      if negb (_validate_message_name (msg_name assistant)) then None else
      if negb (_validate_assistant_content (content assistant)) then None else
      let calls := tool_calls assistant in
      if no_calls assistant then None else
      if MAX_TOOL_CALLS_PER_ASSISTANT <? len calls then None else
      let total_calls := total_calls + len calls in
      if MAX_TOTAL_TOOL_CALLS <? total_calls then None else
      g ← validate_calls calls seen;
      let group := g.1 in
      let group_ids := group.*2 in
      if (length rest <? length group_ids)%nat then None else
      results ← mapM (validate_result group) (take (length group_ids) rest);
      let result_ids := results.*1 in
      if negb (bool_decide (NoDup result_ids)) then None else
      if negb (bool_decide ((list_to_set result_ids : gset (list N)) = list_to_set group_ids))
      then None else
      more ← validate_groups fuel (drop (length group_ids) rest) g.2 total_calls;
      Some ({| role := role_assistant; content := content assistant;
               msg_name := msg_name assistant; tool_call_id := None;
               tool_calls := group.*1 |} :: results.*2 ++ more)
  end.

Definition _validate_turn_messages (values : list ModelMessage) : option (list ModelMessage) :=
  if len values <? 2 then None else
  if MAX_MESSAGES <? len values then None else
  match values with
  | [] => None
  | first :: tail =>
      if negb (is_role role_user first) then None else
      if negb (_validate_user_message first) then None else
      match last tail with
      | None => None
      | Some final =>
          if negb (is_role role_assistant final) then None else
          if negb (_validate_final_assistant final) then None else
          let middle := take (length tail - 1)%nat tail in
          groups ← validate_groups (length middle) middle [] 0;
          Some ({| role := role_user; content := content first; msg_name := msg_name first;
                   tool_call_id := None; tool_calls := [] |} :: groups ++
                [{| role := role_assistant; content := content final;
                    msg_name := msg_name final; tool_call_id := None; tool_calls := [] |}])
      end
  end.

(** ** The payload *)

Definition text_or_null (s : option (list N)) : json :=
  match s with Some s => JStr s | None => JNull end.

Definition call_payload (call : ModelToolCall) : option json :=
  arguments ← _normalize_arguments (call_arguments call);
  Some (JObj [(lit "protocol_call_id", text_or_null (provider_tool_call_id call));
              (lit "name", JStr (call_name call)); (lit "arguments", arguments)]).

Definition _message_payload (m : ModelMessage) : option json :=
  let base := [(lit "role", JStr (role_text (role m))); (lit "content", text_or_null (content m))]
    ++ match msg_name m with Some n => [(lit "name", JStr n)] | None => [] end in
  if is_role role_assistant m && negb (no_calls m) then
    calls ← mapM call_payload (tool_calls m);
    Some (JObj (base ++ [(lit "tool_calls", JArr calls)]))
  else if is_role role_tool m then
    Some (JObj (base ++ [(lit "tool_call_id", text_or_null (tool_call_id m))]))
  else Some (JObj base).

Definition _payload_from_messages (run_id turn_id : N) (messages : list ModelMessage) :
  option json :=
  ms ← mapM _message_payload messages;
  Some (JObj [(lit "schema_version", JInt TRANSCRIPT_SCHEMA_VERSION);
              (lit "kind", JStr TRANSCRIPT_PAYLOAD_KIND);
              (lit "run_id", JStr (uuid_str run_id)); (lit "turn_id", JStr (uuid_str turn_id));
              (lit "messages", JArr ms)]).

(** Bytes of a text in UTF-8. *)
Definition utf8_width (c : N) : N :=
  if c <? 128 then 1 else if c <? 2048 then 2 else if c <? 65536 then 3 else 4.
Definition utf8_length (s : list N) : N := foldr (λ c n, utf8_width c + n) 0 s.

Definition _encode_payload (payload : json) : option (list N) :=
  encoded ← canonical_json payload;
  if existsb is_surrogate encoded then None else
  if MAX_ENCODED_BYTES <? utf8_length encoded then None else Some encoded.

(** ** The transcript *)

Record TurnTranscript := { t_run_id : N; t_turn_id : N; messages : list ModelMessage }.

(** [TurnTranscript(...)], with [__post_init__]. *)
Definition new_transcript (run_id turn_id : N) (values : list ModelMessage) :
  option TurnTranscript :=
  ms ← _validate_turn_messages values;
  payload ← _payload_from_messages run_id turn_id ms;
  encoded ← _encode_payload payload;
  if MAX_ENCODED_BYTES <? utf8_length encoded then None
  else Some {| t_run_id := run_id; t_turn_id := turn_id; messages := ms |}.

Definition build_turn_transcript := new_transcript.
Definition to_payload (t : TurnTranscript) : option json :=
  _payload_from_messages (t_run_id t) (t_turn_id t) (messages t).
Definition encode (t : TurnTranscript) : option (list N) :=
  payload ← to_payload t; _encode_payload payload.

(** ** Reading a payload *)

Definition dict_get (k : list N) (l : list (list N * json)) : option json :=
  snd <$> find (λ kv, bool_decide (kv.1 = k)) l.
(** [set(value) == keys] for a dictionary. *)
Definition has_exactly (keys : list (list N)) (l : list (list N * json)) : bool :=
  forallb (λ k, bool_decide (k ∈ keys)) l.*1 && forallb (λ k, bool_decide (k ∈ l.*1)) keys.

Definition _TOP_LEVEL_KEYS : list (list N) :=
  lit <$> ["schema_version"; "kind"; "run_id"; "turn_id"; "messages"]%string.
Definition _CALL_KEYS : list (list N) := lit <$> ["protocol_call_id"; "name"; "arguments"]%string.

(** [_CANONICAL_UUID] and [UUID(value)]. *)
Definition lower_hex (c : N) : bool := (48 <=? c) && (c <=? 57) || (97 <=? c) && (c <=? 102).
Definition uuid_digits (s : list N) : list N :=
  take 8 s ++ take 4 (drop 9 s) ++ take 4 (drop 14 s) ++ take 4 (drop 19 s) ++ drop 24 s.
Definition _CANONICAL_UUID (s : list N) : bool :=
  bool_decide (length s = 36%nat) && forallb lower_hex (uuid_digits s)
  && forallb (λ i, bool_decide (s !! i = Some 45)) [8; 13; 18; 23]%nat.
Definition read_hex (ds : list N) : N := fold_left (λ a d, 16 * a + hex_val d) ds 0.

Definition _decode_uuid (v : json) : option N :=
  match v with
  | JStr s =>
      if negb (_CANONICAL_UUID s) then None else
      let parsed := read_hex (uuid_digits s) in
      if bool_decide (uuid_str parsed = s) then Some parsed else None
  | _ => None
  end.

(** A JSON value used as text, or as optional text. *)
Definition as_text (v : json) : option (list N) :=
  match v with JStr s => Some s | _ => None end.
Definition as_opt_text (v : json) : option (option (list N)) :=
  match v with JNull => Some None | JStr s => Some (Some s) | _ => None end.

Definition _tool_call_from_payload (v : json) : option ModelToolCall :=
  match v with
  | JObj l =>
      if negb (has_exactly _CALL_KEYS l) then None else
      protocol_call_id ← dict_get (lit "protocol_call_id") l ≫= as_text;
      if negb (_require_protocol_id protocol_call_id) then None else
      name ← dict_get (lit "name") l ≫= as_text;
      if negb (_require_name name) then None else
      arguments ← dict_get (lit "arguments") l ≫= _normalize_arguments;
      Some {| call_name := name; call_arguments := arguments;
              provider_tool_call_id := Some protocol_call_id |}
  | _ => None
  end.

(** Missing fields, or fields other than the expected ones and [name]. *)
Definition shape_ok (expected : list (list N)) (l : list (list N * json)) : bool :=
  forallb (λ k, bool_decide (k ∈ l.*1)) expected
  && forallb (λ k, bool_decide (k ∈ expected) || bool_decide (k = lit "name")) l.*1.

Definition _message_from_payload (v : json) : option ModelMessage :=
  match v with
  | JObj l =>
      role ← dict_get (lit "role") l ≫= as_text;
      name ← as_opt_text (default JNull (dict_get (lit "name") l));
      let name_ok := _validate_message_name name in
      if bool_decide (role = lit "user") then
        if negb (shape_ok (lit <$> ["role"; "content"]%string) l) then None else
        if negb name_ok then None else
        content ← dict_get (lit "content") l ≫= as_opt_text;
        if negb (_validate_content content false true) then None else
        Some {| role := role_user; content := content; msg_name := name;
                tool_call_id := None; tool_calls := [] |}
      else if bool_decide (role = lit "tool") then
        if negb (shape_ok (lit <$> ["role"; "content"; "tool_call_id"]%string) l) then None else
        if negb name_ok then None else
        content ← dict_get (lit "content") l ≫= as_opt_text;
        if negb (_validate_content content false false) then None else
        i ← dict_get (lit "tool_call_id") l ≫= as_text;
        if negb (_require_protocol_id i) then None else
        Some {| role := role_tool; content := content; msg_name := name;
                tool_call_id := Some i; tool_calls := [] |}
      else if bool_decide (role = lit "assistant") then
        if bool_decide (lit "tool_calls" ∈ l.*1) then
          if negb (shape_ok (lit <$> ["role"; "content"; "tool_calls"]%string) l) then None else
          if negb name_ok then None else
          content ← dict_get (lit "content") l ≫= as_opt_text;
          if negb (_validate_assistant_content content) then None else
          match dict_get (lit "tool_calls") l with
          | Some (JArr (c :: cs)) =>
              if MAX_TOOL_CALLS_PER_ASSISTANT <? len (c :: cs) then None else
              calls ← mapM _tool_call_from_payload (c :: cs);
              Some {| role := role_assistant; content := content; msg_name := name;
                      tool_call_id := None; tool_calls := calls |}
          | _ => None
          end
        else
          if negb (shape_ok (lit <$> ["role"; "content"]%string) l) then None else
          if negb name_ok then None else
          content ← dict_get (lit "content") l ≫= as_opt_text;
          if negb (_validate_content content false true) then None else
          Some {| role := role_assistant; content := content; msg_name := name;
                  tool_call_id := None; tool_calls := [] |}
      else None
  | _ => None
  end.

Definition _transcript_from_payload (payload : json) : option TurnTranscript :=
  match payload with
  | JObj l =>
      if negb (_validate_payload_tree payload) then None else
      if negb (has_exactly _TOP_LEVEL_KEYS l) then None else
      if negb match dict_get (lit "schema_version") l with
              | Some (JInt z) => (z =? TRANSCRIPT_SCHEMA_VERSION)%Z
              | _ => false
              end then None else
      if negb match dict_get (lit "kind") l with
              | Some (JStr s) => bool_decide (s = TRANSCRIPT_PAYLOAD_KIND)
              | _ => false
              end then None else
      run_id ← dict_get (lit "run_id") l ≫= _decode_uuid;
      turn_id ← dict_get (lit "turn_id") l ≫= _decode_uuid;
      match dict_get (lit "messages") l with
      | Some (JArr raw) =>
          if MAX_MESSAGES <? len raw then None else
          ms ← mapM _message_from_payload raw;
          new_transcript run_id turn_id ms
      | _ => None
      end
  | _ => None
  end.
End Transcript.
