(* ===== verification/TurnTranscriptTheory.v ===== *)
(** * Theory of stored transcripts

    Bounded JSON walks as predicates, the grammar of a complete turn, and the
    reading of what was written. *)

From stdpp Require Import base gmap list strings.
From Stdlib Require Import ZArith NArith Lia.
From S2P Require Import Prelude.
From S2P Require Import Json.
From S2P Require Import JsonTheory.
From S2P Require Import TurnTranscript.

Local Open Scope N_scope.

(** ** Walks *)

(** Values and keys of a tree; the longest path; every atom and key. *)
Fixpoint node_count (v : json) : N :=
  match v with
  | JArr l => 1 + foldr (λ x n, node_count x + n) 0 l
  | JObj l => 1 + foldr (λ kv n, 1 + node_count kv.2 + n) 0 l
  | _ => 1
  end.
Fixpoint height (v : json) : N :=
  match v with
  | JArr l => foldr (λ x n, N.max (1 + height x) n) 0 l
  | JObj l => foldr (λ kv n, N.max (1 + height kv.2) n) 0 l
  | _ => 0
  end.
Fixpoint all_nodes (atom_ok : json → bool) (key_ok : list N → bool) (v : json) : bool :=
  match v with
  | JArr l => forallb (all_nodes atom_ok key_ok) l
  | JObj l => forallb (λ kv, key_ok kv.1 && all_nodes atom_ok key_ok kv.2) l
  | _ => atom_ok v
  end.

Lemma node_count_pos v : 1 ≤ node_count v.
Proof. destruct v; cbn; lia. Qed.

Section Walk.
Context (max_nodes max_depth : N) (atom_ok : json → bool) (key_ok : list N → bool).
Abbreviation walk := (walk max_nodes max_depth atom_ok key_ok).
Abbreviation all_nodes := (all_nodes atom_ok key_ok).

(** The walk succeeds exactly within its bounds, and counts the nodes. *)
Definition walks (v : json) : Prop := ∀ d n m,
  walk d v n = Some m ↔
  m = n + node_count v ∧ m ≤ max_nodes ∧ d + height v ≤ max_depth ∧ all_nodes v = true.

Lemma walk_atom v d n m :
  (∀ l, v ≠ JArr l) → (∀ l, v ≠ JObj l) →
  walk d v n = Some m ↔ m = n + 1 ∧ m ≤ max_nodes ∧ d ≤ max_depth ∧ atom_ok v = true.
Proof.
  intros Ha Ho.
  assert (walk d v n = if max_nodes <? n + 1 then None else if max_depth <? d then None
                       else if atom_ok v then Some (n + 1) else None) as ->.
  { destruct v as [| | | | |l|l]; try done; [by destruct (Ha l)|by destruct (Ho l)]. }
  destruct (N.ltb_spec max_nodes (n + 1)); [split; [done|lia]|].
  destruct (N.ltb_spec max_depth d); [split; [done|lia]|].
  destruct (atom_ok v); [|split; [done|by intros (_ & _ & _ & ?)]].
  split; [intros [= <-]; by split_and!|by intros (-> & _)].
Qed.

Definition walk_arr (d : N) : list json → N → option N :=
  fix go l nodes := match l with
  | [] => Some nodes
  | x :: r => n ← walk (d + 1) x nodes; go r n
  end.
Definition walk_obj (d : N) : list (list N * json) → N → option N :=
  fix go l nodes := match l with
  | [] => Some nodes
  | (k, x) :: r =>
      let nodes := nodes + 1 in
      if max_nodes <? nodes then None
      else if key_ok k then n ← walk (d + 1) x nodes; go r n
      else None
  end.

Lemma walk_arr_spec d l n m :
  Forall walks l → d ≤ max_depth → n ≤ max_nodes →
  walk_arr d l n = Some m ↔
  m = n + foldr (λ x k, node_count x + k) 0 l ∧ m ≤ max_nodes ∧
  d + foldr (λ x k, N.max (1 + height x) k) 0 l ≤ max_depth ∧ forallb all_nodes l = true.
Proof.
  intros Hl Hd. revert n m. induction Hl as [|x l Hx _ IH]; intros n m Hn; cbn.
  { split; [intros [= <-]; split_and!; lia || done|intros (-> & _); f_equal; lia]. }
  fold (walk_arr d l). rewrite andb_true_iff. split.
  - intros (k & Hk & Hr)%bind_Some. apply Hx in Hk as (-> & Hk & Hh & Ha).
    apply IH in Hr as (-> & ? & ? & ?); [|done]. split_and!; try done; lia.
  - intros (-> & Hm & Hh & Ha & Hr). apply bind_Some. exists (n + node_count x).
    split; [apply Hx; split_and!; try done; lia|]. apply IH; [lia|].
    split_and!; try done; lia.
Qed.

Lemma walk_obj_spec d l n m :
  Forall (λ kv, walks kv.2) l → d ≤ max_depth → n ≤ max_nodes →
  walk_obj d l n = Some m ↔
  m = n + foldr (λ kv k, 1 + node_count kv.2 + k) 0 l ∧ m ≤ max_nodes ∧
  d + foldr (λ kv k, N.max (1 + height kv.2) k) 0 l ≤ max_depth ∧
  forallb (λ kv, key_ok kv.1 && all_nodes kv.2) l = true.
Proof.
  intros Hl Hd. revert n m. induction Hl as [|[k x] l Hx _ IH]; intros n m Hn; cbn.
  { split; [intros [= <-]; split_and!; lia || done|intros (-> & _); f_equal; lia]. }
  cbn in Hx. fold (walk_obj d l). pose proof (node_count_pos x).
  rewrite !andb_true_iff. destruct (N.ltb_spec max_nodes (n + 1)); [split; [done|lia]|].
  destruct (key_ok k); [|split; [done|by intros (_ & _ & _ & [? _] & _)]]. split.
  - intros (j & Hj & Hr)%bind_Some. apply Hx in Hj as (-> & Hj & Hh & Ha).
    apply IH in Hr as (-> & ? & ? & ?); [|done]. split_and!; try done; lia.
  - intros (-> & Hm & Hh & [_ Ha] & Hr). apply bind_Some. exists (n + 1 + node_count x).
    split; [apply Hx; split_and!; try done; lia|]. apply IH; [lia|].
    split_and!; try done; lia.
Qed.

Lemma walk_spec v : walks v.
Proof.
  induction v as [| | | | |l IH|l IH] using json_ind'; intros d n m;
    try (rewrite walk_atom by done; cbn; rewrite N.add_0_r; done).
  - change (walk d (JArr l) n) with
      (if max_nodes <? n + 1 then None else if max_depth <? d then None
       else walk_arr d l (n + 1)).
    cbn. destruct (N.ltb_spec max_nodes (n + 1)); [split; [done|lia]|].
    destruct (N.ltb_spec max_depth d); [split; [done|lia]|].
    rewrite walk_arr_spec by done. split; intros (-> & ? & ? & ?); split_and!; try done; lia.
  - change (walk d (JObj l) n) with
      (if max_nodes <? n + 1 then None else if max_depth <? d then None
       else walk_obj d l (n + 1)).
    cbn. destruct (N.ltb_spec max_nodes (n + 1)); [split; [done|lia]|].
    destruct (N.ltb_spec max_depth d); [split; [done|lia]|].
    rewrite walk_obj_spec by done. split; intros (-> & ? & ? & ?); split_and!; try done; lia.
Qed.
End Walk.

Lemma all_nodes_impl p q a b v :
  (∀ x, p x = true → q x = true) → (∀ k, a k = true → b k = true) →
  all_nodes p a v = true → all_nodes q b v = true.
Proof.
  intros Hp Hk. induction v as [| | | | |l IH|l IH] using json_ind'; cbn; auto.
  - rewrite !forallb_forall. rewrite Forall_forall in IH. intros H x Hx.
    apply IH; [by apply list_elem_of_In|auto].
  - rewrite !forallb_forall. rewrite Forall_forall in IH. intros H x Hx.
    specialize (H x Hx). apply andb_true_iff in H as [? ?]. apply andb_true_iff.
    split; [auto|]. apply IH; [by apply list_elem_of_In|done].
Qed.

(** Arguments are accepted unchanged, exactly when they are a bounded object. *)
Lemma normalize_arguments_spec v v' :
  _normalize_arguments v = Some v' ↔
  v' = v ∧ (∃ l, v = JObj l) ∧ node_count v ≤ MAX_ARGUMENT_NODES ∧
  height v ≤ MAX_ARGUMENT_DEPTH ∧ all_nodes argument_atom argument_key v = true.
Proof.
  unfold _normalize_arguments. destruct v as [| | | | |l|l];
    try (split; [done|intros (_ & [? ?] & _); done]).
  split.
  - intros (m & Hm & [= <-])%bind_Some. apply walk_spec in Hm as (-> & ? & ? & ?).
    split_and!; [done|by eexists|lia|lia|done].
  - intros (-> & _ & ? & ? & ?). apply bind_Some. exists (0 + node_count (JObj l)).
    split; [|done]. apply walk_spec. split_and!; try done; lia.
Qed.

Lemma validate_payload_tree_spec v :
  _validate_payload_tree v = true ↔
  node_count v ≤ MAX_PAYLOAD_NODES ∧ height v ≤ MAX_PAYLOAD_DEPTH ∧
  all_nodes payload_atom payload_key v = true.
Proof.
  unfold _validate_payload_tree.
  destruct (walk _ _ _ _ 0 v 0) as [m|] eqn:E.
  - apply walk_spec in E as (-> & ? & ? & ?). rewrite N.add_0_l in *. by split.
  - split; [done|]. intros (? & ? & ?). exfalso.
    assert (walk MAX_PAYLOAD_NODES MAX_PAYLOAD_DEPTH payload_atom payload_key 0 v 0
            = Some (0 + node_count v)) by (apply walk_spec; split_and!; try done; lia).
    congruence.
Qed.

Lemma argument_atom_payload v : argument_atom v = true → payload_atom v = true.
Proof. unfold argument_atom. by intros [? _]%andb_true_iff. Qed.
Lemma argument_key_payload k : argument_key k = true → payload_key k = true.
Proof. unfold argument_key. by intros [? _]%andb_true_iff. Qed.

(** ** The grammar of a turn *)

Section Grammar.
Context `{Unicode}.

Definition cid (c : ModelToolCall) : list N := default [] (provider_tool_call_id c).
Definition rid (m : ModelMessage) : list N := default [] (tool_call_id m).

Record call_ok (c : ModelToolCall) : Prop := {
  call_has_id : provider_tool_call_id c = Some (cid c);
  call_name_ok : _require_name (call_name c) = true;
  call_id_ok : _require_protocol_id (cid c) = true;
  call_arguments_ok : _normalize_arguments (call_arguments c) = Some (call_arguments c) }.

Record result_ok (m : ModelMessage) : Prop := {
  result_role : role m = role_tool;
  result_calls : tool_calls m = [];
  result_has_id : tool_call_id m = Some (rid m);
  result_id_ok : _require_protocol_id (rid m) = true;
  result_name_ok : _validate_message_name (msg_name m) = true;
  result_content_ok : _validate_content (content m) false false = true }.

(** A result that carries a name carries the name of its call. *)
Definition names_agree (calls : list ModelToolCall) (m : ModelMessage) : Prop :=
  ∀ c n, c ∈ calls → cid c = rid m → msg_name m = Some n → n = call_name c.

(** An assistant message with tool calls, followed by one result per call. *)
Record group_ok (a : ModelMessage) (results : list ModelMessage) : Prop := {
  group_role : role a = role_assistant;
  group_no_id : tool_call_id a = None;
  group_name : _validate_message_name (msg_name a) = true;
  group_content : _validate_assistant_content (content a) = true;
  group_nonempty : tool_calls a ≠ [];
  group_few : len (tool_calls a) ≤ MAX_TOOL_CALLS_PER_ASSISTANT;
  group_calls : Forall call_ok (tool_calls a);
  group_results : Forall (λ m, result_ok m ∧ names_agree (tool_calls a) m) results;
  group_paired : rid <$> results ≡ₚ cid <$> tool_calls a }.

Definition group_messages (g : ModelMessage * list ModelMessage) := g.1 :: g.2.
Definition groups_calls (gs : list (ModelMessage * list ModelMessage)) :=
  gs ≫= (λ g, tool_calls g.1).

Lemma validate_tool_call_spec c p :
  _validate_tool_call c = Some p ↔ p = (c, cid c) ∧ call_ok c.
Proof.
  unfold _validate_tool_call, cid. split.
  - destruct (_require_name _) eqn:Hn; [|done]. cbn [negb].
    destruct (provider_tool_call_id c) as [i|] eqn:Hp; [|done].
    destruct (_require_protocol_id i) eqn:Hi; [|done]. cbn [negb].
    intros (a & Ha & [= <-])%bind_Some.
    pose proof (proj1 (normalize_arguments_spec _ _) Ha) as [-> _].
    destruct c as [n a' p]; cbn in *; subst. split; [done|].
    by split; unfold cid; cbn.
  - intros [-> [Hp Hn Hi Ha]]. unfold cid in Hi. rewrite Hn. cbn [negb].
    destruct (provider_tool_call_id c) as [i|] eqn:E; [|done]. cbn in *.
    rewrite Hi. cbn [negb]. rewrite Ha. cbn. do 2 f_equal. destruct c; cbn in *. by subst.
Qed.

Lemma validate_calls_spec calls seen g :
  validate_calls calls seen = Some g ↔
  g = ((λ c, (c, cid c)) <$> calls, reverse (cid <$> calls) ++ seen) ∧
  Forall call_ok calls ∧ NoDup (cid <$> calls) ∧ (∀ c, c ∈ calls → cid c ∉ seen).
Proof.
  revert seen g. induction calls as [|c calls IH]; intros seen g; cbn [validate_calls].
  { split; [|by intros (-> & _)]. intros [= <-].
    split_and!; [done|by constructor|constructor|by intros c ?%elem_of_nil]. }
  rewrite !fmap_cons, Forall_cons, NoDup_cons, reverse_cons, <- app_assoc. split.
  - intros (p & Hp & Hg)%bind_Some. apply validate_tool_call_spec in Hp as [-> Hc].
    cbn in Hg. destruct (bool_decide _) eqn:Hs; [done|]. breflect.
    apply bind_Some in Hg as (rest & Hr & [= <-]).
    apply IH in Hr as (-> & Hok & Hnd & Hseen). cbn [fst snd]. split_and!; try done.
    + intros (c' & Heq & Hc')%list_elem_of_fmap. apply (Hseen c' Hc'). rewrite Heq. left.
    + intros c' [->|Hc']%elem_of_cons; [done|]. intros Hin. apply (Hseen c' Hc'). by right.
  - intros (-> & [Hc Hok] & [Hn Hnd] & Hseen). apply bind_Some. exists (c, cid c).
    split; [by apply validate_tool_call_spec|]. cbn.
    rewrite bool_decide_false by (apply Hseen; left).
    apply bind_Some. eexists. split.
    + apply IH. split_and!; [reflexivity|done|done|].
      intros c' Hc' [He|Hin]%elem_of_cons; [|apply (Hseen c'); [by right|done]].
      apply Hn. rewrite <- He. by apply list_elem_of_fmap_2.
    + done.
Qed.

Lemma call_name_of_unique calls c :
  c ∈ calls → NoDup (cid <$> calls) →
  call_name_of ((λ c, (c, cid c)) <$> calls) (cid c) = Some (call_name c).
Proof.
  unfold call_name_of. induction calls as [|x calls IH]; [by intros ?%elem_of_nil|].
  cbn. intros Hin [Hx Hnd]%NoDup_cons. destruct (bool_decide _) eqn:E; breflect.
  - cbn. apply elem_of_cons in Hin as [->|Hin]; [done|].
    destruct Hx. rewrite E. by apply list_elem_of_fmap_2.
  - apply elem_of_cons in Hin as [->|Hin]; [done|]. by apply IH.
Qed.
Lemma call_name_of_Some calls i n :
  call_name_of ((λ c, (c, cid c)) <$> calls) i = Some n →
  ∃ c, c ∈ calls ∧ cid c = i ∧ call_name c = n.
Proof.
  unfold call_name_of. induction calls as [|x calls IH]; [done|]. cbn.
  destruct (bool_decide _) eqn:E; breflect.
  - intros [= <-]. exists x. split; [left|done].
  - intros (c & ? & ?)%IH. exists c. split; [by right|done].
Qed.

Lemma result_eta m :
  result_ok m →
  {| role := role_tool; content := content m; msg_name := msg_name m;
     tool_call_id := Some (rid m); tool_calls := [] |} = m.
Proof. intros [R C I _ _ _]. rewrite <- R, <- C, <- I. by destruct m. Qed.

Lemma validate_result_spec calls m p :
  NoDup (cid <$> calls) →
  validate_result ((λ c, (c, cid c)) <$> calls) m = Some p ↔
  p = (rid m, m) ∧ result_ok m ∧ names_agree calls m.
Proof.
  intros Hnd. unfold validate_result, is_role, _validate_tool_result, no_calls. split.
  - destruct (bool_decide _) eqn:Hr; [|done]. breflect. cbn [negb].
    destruct (tool_calls m) as [|] eqn:Hc; [|done].
    destruct (_validate_message_name _) eqn:Hn; [|done].
    destruct (_validate_content _ _ _) eqn:Hct; [|done]. cbn [andb].
    intros (i & Hi & Hp)%bind_Some. destruct (tool_call_id m) as [j|] eqn:Ht; [|done].
    destruct (_require_protocol_id j) eqn:Hj; [|done]. injection Hi as ->.
    assert (rid m = i) as Hrid by (unfold rid; by rewrite Ht).
    assert (names_agree calls m ∧
      p = (i, {| role := role_tool; content := content m; msg_name := msg_name m;
                 tool_call_id := Some i; tool_calls := [] |})) as [Hna ->].
    { destruct (msg_name m) as [n'|] eqn:Hm.
      2:{ split; [intros c n _ _ ?; congruence|]. destruct (call_name_of _ i); congruence. }
      destruct (call_name_of _ i) as [n|] eqn:Hcn.
      - destruct (bool_decide (n' = n)) eqn:E; [|done]. breflect. subst n'.
        split; [|cbn in Hp; congruence]. intros c k Hin Hck Hk.
        rewrite Hm in Hk. injection Hk as <-. rewrite Hrid in Hck.
        rewrite <- Hck, call_name_of_unique in Hcn by done. congruence.
      - split; [|congruence]. intros c k Hin Hck _. exfalso. rewrite Hrid in Hck.
        by rewrite <- Hck, call_name_of_unique in Hcn. }
    split; [|split; [split|]]; rewrite ?Hrid; try done.
    destruct m; cbn in *. by subst.
  - intros (-> & Hok & Hna). pose proof (result_eta m Hok) as Heta.
    destruct Hok as [R C I O N T]. rewrite R, C, N, T, I, O.
    rewrite bool_decide_true by done. cbn [negb andb mbind option_bind].
    rewrite Heta. destruct (msg_name m) as [n'|] eqn:Hm.
    + destruct (call_name_of _ (rid m)) as [n|] eqn:Hcn; [|done].
      apply call_name_of_Some in Hcn as (c & Hc & Hid & <-).
      by rewrite (Hna c n' Hc Hid Hm), bool_decide_true by done.
    + by destruct (call_name_of _ (rid m)).
Qed.

Lemma validate_results_spec calls l rs :
  NoDup (cid <$> calls) →
  mapM (validate_result ((λ c, (c, cid c)) <$> calls)) l = Some rs ↔
  rs = (λ m, (rid m, m)) <$> l ∧ Forall (λ m, result_ok m ∧ names_agree calls m) l.
Proof.
  intros Hnd. rewrite mapM_Some. split.
  - induction 1 as [|m p l rs Hp _ IH]; [by split|].
    apply validate_result_spec in Hp as (-> & ? & ?); [|done].
    destruct IH as [-> ?]. split; [done|by constructor].
  - intros [-> Hl]. induction Hl as [|m l [? ?] _ IH]; cbn; constructor; [|done].
    by apply validate_result_spec.
Qed.

Lemma group_eta a :
  role a = role_assistant → tool_call_id a = None →
  {| role := role_assistant; content := content a; msg_name := msg_name a;
     tool_call_id := None; tool_calls := tool_calls a |} = a.
Proof. intros R I. rewrite <- R, <- I. by destruct a. Qed.

Lemma fst_pairs {A B} (f : A → B) (l : list A) : ((λ x, (x, f x)) <$> l).*1 = l.
Proof. induction l; cbn; by f_equal. Qed.
Lemma snd_pairs {A B} (f : A → B) (l : list A) : ((λ x, (x, f x)) <$> l).*2 = f <$> l.
Proof. induction l; cbn; by f_equal. Qed.
Lemma fst_pairs' {A B} (f : A → B) (l : list A) : ((λ x, (f x, x)) <$> l).*1 = f <$> l.
Proof. induction l; cbn; by f_equal. Qed.
Lemma snd_pairs' {A B} (f : A → B) (l : list A) : ((λ x, (f x, x)) <$> l).*2 = l.
Proof. induction l; cbn; by f_equal. Qed.

Lemma no_calls_false a : no_calls a = false ↔ tool_calls a ≠ [].
Proof. unfold no_calls. by destruct (tool_calls a). Qed.
Lemma no_call_id_true m : no_call_id m = true ↔ tool_call_id m = None.
Proof. unfold no_call_id. by destruct (tool_call_id m). Qed.
Lemma no_calls_true m : no_calls m = true ↔ tool_calls m = [].
Proof. unfold no_calls. by destruct (tool_calls m). Qed.

(** Ids of results and calls agree as sets without repetition exactly when one
    is a reordering of the other. *)
Lemma same_ids (a b : list (list N)) :
  NoDup b →
  NoDup a ∧ (list_to_set a : gset (list N)) = list_to_set b ↔ a ≡ₚ b.
Proof.
  intros Hb. split.
  - intros [Ha He]. apply NoDup_Permutation; [done..|]. intros x.
    by rewrite <- !(elem_of_list_to_set (C := gset (list N))), He.
  - intros Hp. split; [by rewrite Hp|]. by rewrite Hp.
Qed.

(** One pass of the loop. *)
Lemma validate_groups_step fuel a rest seen total out :
  validate_groups (S fuel) (a :: rest) seen total = Some out ↔
  ∃ results rest' more, rest = results ++ rest' ∧ group_ok a results ∧
    NoDup (cid <$> tool_calls a) ∧ (∀ c, c ∈ tool_calls a → cid c ∉ seen) ∧
    total + len (tool_calls a) ≤ MAX_TOTAL_TOOL_CALLS ∧
    validate_groups fuel rest' (reverse (cid <$> tool_calls a) ++ seen)
      (total + len (tool_calls a)) = Some more ∧ out = a :: results ++ more.
Proof.
  cbn [validate_groups]. unfold is_role. split.
  - destruct (bool_decide (role a = _)) eqn:Hr; [|done]. breflect. cbn [negb].
    destruct (no_call_id a) eqn:Hi; [|done]. cbn [negb]. apply no_call_id_true in Hi.
    destruct (_validate_message_name _) eqn:Hn; [|done]. cbn [negb].
    destruct (_validate_assistant_content _) eqn:Hc; [|done]. cbn [negb].
    destruct (no_calls a) eqn:Hne; [done|]. apply no_calls_false in Hne.
    destruct (N.ltb_spec MAX_TOOL_CALLS_PER_ASSISTANT (len (tool_calls a))); [done|].
    destruct (N.ltb_spec MAX_TOTAL_TOOL_CALLS (total + len (tool_calls a))); [done|].
    intros (g & Hg & Hout)%bind_Some.
    apply validate_calls_spec in Hg as (-> & Hok & Hnd & Hseen). cbn [fst snd] in Hout.
    rewrite fst_pairs, snd_pairs in Hout.
    destruct (Nat.ltb_spec (length rest) (length (cid <$> tool_calls a))); [done|].
    apply bind_Some in Hout as (rs & Hrs & Hout).
    apply validate_results_spec in Hrs as [-> Hres]; [|done].
    rewrite fst_pairs', snd_pairs' in Hout.
    destruct (bool_decide (NoDup _)) eqn:Hnr; [|done]. breflect. cbn [negb] in Hout.
    destruct (bool_decide (_ = _)) eqn:Hset; [|done]. breflect. cbn [negb] in Hout.
    apply bind_Some in Hout as (more & Hmore & [= <-]).
    exists (take (length (cid <$> tool_calls a)) rest),
           (drop (length (cid <$> tool_calls a)) rest), more.
    rewrite take_drop, group_eta by done. split_and!; try done.
    split; try done. by apply same_ids.
  - intros (results & rest' & more & -> & [] & Hnd & Hseen & Htot & Hmore & ->).
    rewrite bool_decide_true, (proj2 (no_call_id_true a)), group_name0, group_content0,
      (proj2 (no_calls_false a)) by done. cbn [negb].
    destruct (N.ltb_spec MAX_TOOL_CALLS_PER_ASSISTANT (len (tool_calls a))); [lia|].
    destruct (N.ltb_spec MAX_TOTAL_TOOL_CALLS (total + len (tool_calls a))); [lia|].
    apply bind_Some. eexists. split.
    { apply validate_calls_spec. split_and!; [reflexivity|done..]. }
    cbn [fst snd]. rewrite fst_pairs, snd_pairs.
    assert (length (cid <$> tool_calls a) = length results) as Hlen.
    { rewrite <- group_paired0. by rewrite length_fmap. }
    rewrite Hlen, take_app_length, drop_app_length, length_app.
    destruct (Nat.ltb_spec (length results + length rest') (length results)); [lia|].
    apply bind_Some. eexists. split.
    { apply validate_results_spec; [done|]. split; [reflexivity|done]. }
    rewrite fst_pairs', snd_pairs'.
    destruct (proj2 (same_ids _ _ Hnd) group_paired0) as [? ?].
    rewrite !bool_decide_true by done. cbn [negb]. rewrite Hmore. cbn.
    by rewrite group_eta.
Qed.

Record groups_ok (gs : list (ModelMessage * list ModelMessage)) (seen : list (list N))
    (total : N) : Prop := {
  groups_all : Forall (λ g, group_ok g.1 g.2) gs;
  groups_unique : NoDup (cid <$> groups_calls gs);
  groups_fresh : ∀ c, c ∈ groups_calls gs → cid c ∉ seen;
  groups_few : total + len (groups_calls gs) ≤ MAX_TOTAL_TOOL_CALLS }.

Lemma groups_ok_cons g gs seen total :
  groups_ok (g :: gs) seen total ↔
  group_ok g.1 g.2 ∧ NoDup (cid <$> tool_calls g.1) ∧
  (∀ c, c ∈ tool_calls g.1 → cid c ∉ seen) ∧
  total + len (tool_calls g.1) ≤ MAX_TOTAL_TOOL_CALLS ∧
  groups_ok gs (reverse (cid <$> tool_calls g.1) ++ seen) (total + len (tool_calls g.1)).
Proof.
  assert (groups_calls (g :: gs) = tool_calls g.1 ++ groups_calls gs) as Hc by done.
  assert (∀ l, len (tool_calls g.1 ++ l) = len (tool_calls g.1) + len l) as Hl.
  { intros l. unfold len. rewrite length_app. lia. }
  split.
  - intros [Ha Hu Hf Hn]. rewrite Hc in *. rewrite fmap_app in Hu. rewrite Hl in Hn.
    apply Forall_cons in Ha as [Hg Ha]. apply NoDup_app in Hu as (Hu1 & Hd & Hu2).
    split_and!; [done|done| |lia|split; [done..| |lia]].
    + intros c ?. apply Hf, elem_of_app. by left.
    + intros c Hin Hx. apply elem_of_app in Hx as [Hx|Hx].
      * apply (Hd (cid c)); [by rewrite elem_of_reverse in Hx|by apply list_elem_of_fmap_2].
      * apply (Hf c); [apply elem_of_app; by right|done].
  - intros (Hg & Hu1 & Hf1 & _ & [Ha Hu Hf Hn]). split.
    + by constructor.
    + rewrite Hc, fmap_app. apply NoDup_app. split_and!; [done| |done].
      intros x Hx (c & -> & Hin)%list_elem_of_fmap. apply (Hf c Hin), elem_of_app. left.
      by apply elem_of_reverse.
    + rewrite Hc. intros c [Hin|Hin]%elem_of_app; [by apply Hf1|].
      intros Hx. apply (Hf c Hin), elem_of_app. by right.
    + rewrite Hc, Hl. lia.
Qed.

Lemma validate_groups_sound fuel vals seen total out :
  total ≤ MAX_TOTAL_TOOL_CALLS →
  validate_groups fuel vals seen total = Some out →
  out = vals ∧ ∃ gs, vals = gs ≫= group_messages ∧ groups_ok gs seen total.
Proof.
  revert vals seen total out. induction fuel as [|fuel IH]; intros [|a rest] seen total out Ht.
  1,3: intros [= <-]; (split; [done|]); exists []; (split; [done|]);
    split; [done|by apply NoDup_nil|by intros c ?%elem_of_nil|by rewrite N.add_0_r].
  - done.
  - intros (results & rest' & more & -> & Hg & Hnd & Hs & Htot & Hm & ->)%validate_groups_step.
    apply IH in Hm as (-> & gs & -> & Hgs); [|done]. split; [done|].
    exists ((a, results) :: gs). split; [done|]. by apply groups_ok_cons.
Qed.

Lemma validate_groups_complete fuel gs seen total :
  (length (gs ≫= group_messages) <= fuel)%nat → groups_ok gs seen total →
  validate_groups fuel (gs ≫= group_messages) seen total = Some (gs ≫= group_messages).
Proof.
  revert gs seen total. induction fuel as [|fuel IH]; intros [|[a results] gs] seen total Hl Hok.
  1,3: done.
  - cbn in Hl. lia.
  - apply groups_ok_cons in Hok as (Hg & Hu & Hf & Ht & Hok). cbn in Hg, Hu, Hf, Ht, Hok.
    change (((a, results) :: gs) ≫= group_messages)
      with (a :: results ++ (gs ≫= group_messages)) in *.
    apply validate_groups_step. exists results, (gs ≫= group_messages), (gs ≫= group_messages).
    split_and!; try done. apply IH; [|done].
    cbn in Hl. rewrite length_app in Hl. lia.
Qed.

(** A complete turn: a user message, groups of tool calls with their results,
    and a final assistant message; protocol ids are unique in the turn. *)
Definition complete_turn (ms : list ModelMessage) : Prop :=
  ∃ u gs f, ms = u :: (gs ≫= group_messages) ++ [f] ∧
    role u = role_user ∧ _validate_user_message u = true ∧
    role f = role_assistant ∧ _validate_final_assistant f = true ∧ groups_ok gs [] 0.

Lemma group_messages_length gs seen total :
  groups_ok gs seen total →
  len (gs ≫= group_messages) ≤ 2 * len (groups_calls gs).
Proof.
  revert seen total. induction gs as [|[a rs] gs IH]; intros seen total Hok; [apply N.le_0_l|].
  apply groups_ok_cons in Hok as (Hg & _ & _ & _ & Hok). apply IH in Hok. cbn in Hg.
  pose proof (group_nonempty _ _ Hg) as Hne. pose proof (group_paired _ _ Hg) as Hp.
  apply Permutation_length in Hp. rewrite !length_fmap in Hp.
  change (((a, rs) :: gs) ≫= group_messages) with (a :: rs ++ (gs ≫= group_messages)).
  change (groups_calls ((a, rs) :: gs)) with (tool_calls a ++ groups_calls gs).
  unfold len in *. cbn [length]. rewrite !length_app.
  destruct (tool_calls a); [done|]. cbn [length] in *. lia.
Qed.

Lemma final_eta r f :
  role f = r → _validate_final_assistant f = true →
  {| role := r; content := content f; msg_name := msg_name f;
     tool_call_id := None; tool_calls := [] |} = f.
Proof.
  unfold _validate_final_assistant. intros <- Hf. breflect.
  match goal with H : no_calls f = true |- _ => apply no_calls_true in H; rewrite <- H end.
  match goal with H : no_call_id f = true |- _ => apply no_call_id_true in H; rewrite <- H end.
  by destruct f.
Qed.

(** Validation accepts exactly the complete turns and changes nothing. *)
Lemma validate_turn_spec ms ms' :
  _validate_turn_messages ms = Some ms' ↔ ms' = ms ∧ complete_turn ms.
Proof.
  unfold _validate_turn_messages, complete_turn, is_role. split.
  - destruct (N.ltb_spec (len ms) 2); [done|].
    destruct (N.ltb_spec MAX_MESSAGES (len ms)); [done|].
    destruct ms as [|u tail]; [done|].
    destruct (bool_decide (role u = _)) eqn:Hu; [|done]. breflect. cbn [negb].
    destruct (_validate_user_message u) eqn:Hvu; [|done]. cbn [negb].
    destruct (last tail) as [f|] eqn:Hl; [|done].
    destruct (bool_decide (role f = _)) eqn:Hf; [|done]. breflect. cbn [negb].
    destruct (_validate_final_assistant f) eqn:Hvf; [|done]. cbn [negb].
    apply last_Some in Hl as [mid ->]. rewrite length_app, Nat.add_sub.
    rewrite take_app_length. intros (g & Hg & [= <-])%bind_Some.
    apply validate_groups_sound in Hg as (-> & gs & -> & Hok); [|done].
    rewrite (final_eta role_user u Hu Hvu), (final_eta role_assistant f Hf Hvf).
    split; [done|]. eauto 10.
  - intros (-> & u & gs & f & -> & Hu & Hvu & Hf & Hvf & Hok).
    pose proof (group_messages_length _ _ _ Hok) as Hlen.
    pose proof (groups_few _ _ _ Hok) as Hfew.
    assert (len (u :: (gs ≫= group_messages) ++ [f]) = 2 + len (gs ≫= group_messages)) as Hn.
    { unfold len. cbn [length]. rewrite length_app. cbn [length]. lia. }
    rewrite Hn. unfold MAX_MESSAGES, MAX_TOTAL_TOOL_CALLS in *.
    destruct (N.ltb_spec (2 + len (gs ≫= group_messages)) 2); [lia|].
    destruct (N.ltb_spec (2 + 2 * 64) (2 + len (gs ≫= group_messages))); [lia|].
    rewrite bool_decide_true, Hvu, last_snoc by done. cbn [negb].
    rewrite bool_decide_true, Hvf by done. cbn [negb].
    rewrite length_app, Nat.add_sub, take_app_length.
    rewrite (validate_groups_complete _ gs [] 0) by done. cbn [mbind option_bind].
    by rewrite (final_eta role_user u Hu Hvu), (final_eta role_assistant f Hf Hvf).
Qed.

(** ** Reading back a message *)

Lemma dict_get_here k v l : dict_get k ((k, v) :: l) = Some v.
Proof. unfold dict_get. cbn. by rewrite bool_decide_true. Qed.
Lemma dict_get_there k k' v l : k' ≠ k → dict_get k ((k', v) :: l) = dict_get k l.
Proof. intros ?. unfold dict_get. cbn. by rewrite bool_decide_false. Qed.
Lemma dict_get_nil k : dict_get k [] = None.
Proof. done. Qed.

Definition readable (m : ModelMessage) : Prop :=
  ∀ p, _message_payload m = Some p → _message_from_payload p = Some m.
End Grammar.

(** Look up a literal key in a literal dictionary. *)
Ltac dict_read :=
  cbn [app];
  repeat first
    [ rewrite dict_get_here
    | rewrite dict_get_there by (vm_compute; discriminate)
    | rewrite dict_get_nil ];
  cbn [mbind option_bind as_text as_opt_text from_option id text_or_null].

Section Reading.
Context `{Unicode}.

Lemma call_payload_read c p :
  call_ok c → call_payload c = Some p → _tool_call_from_payload p = Some c.
Proof.
  intros [I Hn Hi Ha]. unfold call_payload. rewrite Ha. cbn [mbind option_bind].
  intros [= <-]. unfold _tool_call_from_payload. rewrite I.
  replace (has_exactly _CALL_KEYS _) with true by reflexivity. cbn [negb].
  dict_read. rewrite Hi, Hn. cbn [negb]. rewrite Ha. cbn [mbind option_bind].
  rewrite <- I. by destruct c.
Qed.

Lemma calls_payload_read cs ps :
  Forall call_ok cs → mapM call_payload cs = Some ps →
  mapM _tool_call_from_payload ps = Some cs ∧ length ps = length cs.
Proof.
  intros Hok Hp. apply mapM_Some in Hp. rewrite mapM_Some.
  induction Hp as [|c p cs ps Hc _ IH]; [by split|].
  apply Forall_cons in Hok as [Hcok Hok]. destruct (IH Hok). cbn. split; [|lia].
  constructor; [by apply call_payload_read|done].
Qed.

Lemma opt_text_read c : as_opt_text (text_or_null c) = Some c.
Proof. by destruct c. Qed.
(** The optional name, present or not. *)
Definition name_field (n : option (list N)) : list (list N * json) :=
  match n with Some n => [(lit "name", JStr n)] | None => [] end.

Lemma user_readable u :
  role u = role_user → _validate_user_message u = true → readable u.
Proof.
  intros R Hv p. pose proof (final_eta _ _ R Hv) as Heta.
  unfold _validate_user_message in Hv. breflect. unfold _message_payload, is_role.
  rewrite R. rewrite !bool_decide_false by done. cbn [andb]. intros Hp.
  apply (inj Some) in Hp. subst p. unfold _message_from_payload, role_text.
  destruct (msg_name u) as [n|] eqn:Hn; dict_read; rewrite bool_decide_true by done;
    replace (shape_ok _ _) with true by reflexivity; cbn [negb];
    match goal with H : _validate_message_name _ = true |- _ => rewrite H end; cbn [negb];
    rewrite opt_text_read; cbn [mbind option_bind];
    match goal with H : _validate_content _ _ _ = true |- _ => rewrite H end; cbn [negb];
    by rewrite Heta.
Qed.

Lemma final_readable f :
  role f = role_assistant → _validate_final_assistant f = true → readable f.
Proof.
  intros R Hv p. pose proof (final_eta _ _ R Hv) as Heta.
  unfold _validate_final_assistant in Hv. breflect. unfold _message_payload, is_role.
  match goal with H : no_calls f = true |- _ => rewrite H end.
  rewrite R. cbn [negb]. rewrite andb_false_r, bool_decide_false by done. intros Hp.
  apply (inj Some) in Hp. subst p. unfold _message_from_payload, role_text.
  destruct (msg_name f) as [n|] eqn:Hn; dict_read;
    rewrite (bool_decide_false (lit "assistant" = lit "user")),
      (bool_decide_false (lit "assistant" = lit "tool")),
      (bool_decide_true (lit "assistant" = lit "assistant")) by (vm_compute; done);
    rewrite bool_decide_false by (vm_compute; set_solver);
    replace (shape_ok _ _) with true by reflexivity; cbn [negb];
    match goal with H : _validate_message_name _ = true |- _ => rewrite H end; cbn [negb];
    rewrite opt_text_read; cbn [mbind option_bind];
    match goal with H : _validate_content _ _ _ = true |- _ => rewrite H end; cbn [negb];
    by rewrite Heta.
Qed.

Lemma result_readable m : result_ok m → readable m.
Proof.
  intros Hok p. pose proof (result_eta m Hok) as Heta. destruct Hok as [R C I O N T].
  unfold _message_payload, is_role, no_calls. rewrite R, C, I.
  rewrite bool_decide_false, bool_decide_true by done. cbn [andb]. intros Hp.
  apply (inj Some) in Hp. subst p. unfold _message_from_payload, role_text.
  destruct (msg_name m) as [n|] eqn:Hn; dict_read;
    rewrite (bool_decide_false (lit "tool" = lit "user")),
      (bool_decide_true (lit "tool" = lit "tool")) by (vm_compute; done);
    replace (shape_ok _ _) with true by reflexivity; cbn [negb]; rewrite N; cbn [negb];
    rewrite opt_text_read; cbn [mbind option_bind]; rewrite T; cbn [negb];
    rewrite O; cbn [negb]; by rewrite Heta.
Qed.

Lemma assistant_readable a rs : group_ok a rs → readable a.
Proof.
  intros Hok p. destruct Hok as [R I N T Hne Hfew Hc _ _].
  pose proof (group_eta a R I) as Heta.
  unfold _message_payload, is_role. rewrite R, (proj2 (no_calls_false a) Hne).
  rewrite bool_decide_true by done. cbn [andb negb]. intros (ps & Hps & Hp)%bind_Some.
  apply (inj Some) in Hp. subst p. destruct (calls_payload_read _ _ Hc Hps) as [Hr Hlen].
  destruct ps as [|c cs]; [cbn in Hlen; by destruct (tool_calls a)|].
  assert (len (c :: cs) = len (tool_calls a)) as Hl by (unfold len; by rewrite Hlen).
  unfold _message_from_payload, role_text.
  destruct (msg_name a) as [n|] eqn:Hn; dict_read;
    rewrite (bool_decide_false (lit "assistant" = lit "user")),
      (bool_decide_false (lit "assistant" = lit "tool")),
      (bool_decide_true (lit "assistant" = lit "assistant")) by (vm_compute; done);
    rewrite bool_decide_true by (vm_compute; set_solver);
    replace (shape_ok _ _) with true by reflexivity; cbn [negb]; rewrite N; cbn [negb];
    rewrite opt_text_read; cbn [mbind option_bind]; rewrite T; cbn [negb];
    (destruct (N.ltb_spec MAX_TOOL_CALLS_PER_ASSISTANT (len (c :: cs))); [lia|]);
    rewrite Hr; cbn [mbind option_bind]; by rewrite Heta.
Qed.

Lemma turn_readable ms : complete_turn ms → Forall readable ms.
Proof.
  intros (u & gs & f & -> & Hu & Hvu & Hf & Hvf & [Hall _ _ _]).
  constructor; [by apply user_readable|]. apply Forall_app. split.
  2:{ constructor; [by apply final_readable|done]. }
  induction Hall as [|[a rs] gs Hg _ IH]; [done|]. cbn in Hg.
  change (((a, rs) :: gs) ≫= group_messages) with (a :: rs ++ (gs ≫= group_messages)).
  constructor; [by eapply assistant_readable|]. apply Forall_app. split; [|done].
  eapply Forall_impl; [apply (group_results _ _ Hg)|]. intros m [? _]. by apply result_readable.
Qed.

(** ** The payload tree of a message *)

Definition tree_bound (h : N) (v : json) : Prop :=
  height v ≤ h ∧ all_nodes payload_atom payload_key v = true.

Lemma tree_bound_arr h l : Forall (tree_bound h) l → tree_bound (1 + h) (JArr l).
Proof.
  unfold tree_bound. intros Hl. cbn. induction Hl as [|x l [Hh Ha] _ [IH1 IH2]]; cbn.
  { split; [lia|done]. }
  split; [lia|]. by rewrite Ha, IH2.
Qed.
Lemma tree_bound_obj h l :
  Forall (λ kv, payload_key kv.1 = true ∧ tree_bound h kv.2) l → tree_bound (1 + h) (JObj l).
Proof.
  unfold tree_bound. intros Hl. cbn. induction Hl as [|x l [Hk [Hh Ha]] _ [IH1 IH2]]; cbn.
  { split; [lia|done]. }
  split; [lia|]. by rewrite Hk, Ha, IH2.
Qed.
Lemma tree_bound_str h s : tree_bound h (JStr s).
Proof. split; [apply N.le_0_l|done]. Qed.
Lemma tree_bound_text h s : tree_bound h (text_or_null s).
Proof. destruct s; split; done || apply N.le_0_l. Qed.
Lemma tree_bound_mono h h' v : h ≤ h' → tree_bound h v → tree_bound h' v.
Proof. intros ? [? ?]. split; [lia|done]. Qed.

Lemma call_payload_bound c p : call_payload c = Some p → tree_bound 17 p.
Proof.
  unfold call_payload. intros (a & Ha & Hp)%bind_Some. apply (inj Some) in Hp. subst p.
  apply normalize_arguments_spec in Ha as (-> & _ & _ & Hh & Hall).
  apply (tree_bound_obj 16). repeat (constructor; [split; [reflexivity|]|]); [..|constructor].
  - apply tree_bound_text.
  - apply tree_bound_str.
  - split; [done|].
    exact (all_nodes_impl _ _ _ _ _ argument_atom_payload argument_key_payload Hall).
Qed.

Lemma message_payload_bound m p : _message_payload m = Some p → tree_bound 19 p.
Proof.
  unfold _message_payload.
  set (base := [(lit "role", _); _] ++ _).
  assert (Forall (λ kv, payload_key kv.1 = true ∧ tree_bound 18 kv.2) base) as Hb.
  { subst base. apply Forall_app. split.
    - repeat (constructor; [split; [reflexivity|]|]); [..|constructor];
        [apply tree_bound_str|apply tree_bound_text].
    - destruct (msg_name m); [|done].
      constructor; [split; [reflexivity|apply tree_bound_str]|done]. }
  clearbody base. intros Hp.
  assert (∃ l, p = JObj l ∧ Forall (λ kv, payload_key kv.1 = true ∧ tree_bound 18 kv.2) l)
    as (l & -> & Hl); [|by apply (tree_bound_obj 18)].
  destruct (_ && _).
  - apply bind_Some in Hp as (cs & Hcs & Hp). apply (inj Some) in Hp. subst p.
    eexists. split; [done|]. apply Forall_app. split; [done|].
    constructor; [split; [reflexivity|]|done]. apply (tree_bound_arr 17).
    apply mapM_Some in Hcs. induction Hcs; constructor; eauto using call_payload_bound.
  - destruct (is_role role_tool m); apply (inj Some) in Hp; subst p; eexists; (split; [done|]).
    + apply Forall_app. split; [done|].
      constructor; [split; [reflexivity|apply tree_bound_text]|done].
    + done.
Qed.

Lemma payload_bound r t ms p :
  _payload_from_messages r t ms = Some p → tree_bound MAX_PAYLOAD_DEPTH p.
Proof.
  unfold _payload_from_messages. intros (ps & Hps & Hp)%bind_Some. apply (inj Some) in Hp.
  subst p. apply (tree_bound_mono (1 + 20)); [by vm_compute|]. apply tree_bound_obj.
  repeat (constructor; [split; [reflexivity|]|]); [..|constructor];
    try apply tree_bound_str.
  - split; [apply N.le_0_l|done].
  - apply (tree_bound_arr 19). apply mapM_Some in Hps.
    induction Hps; constructor; eauto using message_payload_bound.
Qed.
End Reading.
