(* ===== verification/TurnTranscriptProperties.v ===== *)
(** * What is written can be read, within the node budget

    Claims about [TurnTranscript.v]. *)

From stdpp Require Import base gmap list strings.
From Stdlib Require Import ZArith NArith Lia.
From S2P Require Import Prelude.
From S2P Require Import Json.
From S2P Require Import JsonTheory.
From S2P Require Import TurnTranscript.
From S2P Require Import TurnTranscriptTheory.

Local Open Scope N_scope.

(** ** Identifiers *)

Lemma hex_digit_lower d : d < 16 → lower_hex (hex_digit d) = true ∧ hex_val (hex_digit d) = d.
Proof.
  intros Hd. unfold lower_hex, hex_val, hex_digit. destruct (N.ltb_spec d 10).
  - destruct (N.leb_spec 48 (48 + d)), (N.leb_spec (48 + d) 57), (N.ltb_spec (48 + d) 58);
      lia.
  - destruct (N.leb_spec 97 (87 + d)), (N.leb_spec (87 + d) 102), (N.ltb_spec (87 + d) 58);
      lia.
Qed.

Lemma hex_fixed_lower k n : forallb lower_hex (hex_fixed k n) = true.
Proof.
  revert n. induction k as [|k IH]; intros n; [done|]. cbn [hex_fixed].
  rewrite forallb_app, IH. cbn [forallb andb].
  rewrite (proj1 (hex_digit_lower (n mod 16) (N.mod_lt n 16 ltac:(done)))). done.
Qed.

Lemma read_hex_fixed k n : read_hex (hex_fixed k n) = n mod 16 ^ N.of_nat k.
Proof.
  revert n. induction k as [|k IH]; intros n.
  { cbn [hex_fixed]. rewrite N.mod_1_r. done. }
  cbn [hex_fixed]. unfold read_hex in *. rewrite fold_left_app. cbn [fold_left].
  rewrite IH, (proj2 (hex_digit_lower (n mod 16) (N.mod_lt n 16 ltac:(done)))).
  rewrite Nat2N.inj_succ, N.pow_succ_r', (N.Div0.mod_mul_r n 16 (16 ^ N.of_nat k)). lia.
Qed.

Lemma uuid_text_shape h :
  length h = 32%nat →
  let s := join 45 [take 8 h; take 4 (drop 8 h); take 4 (drop 12 h); take 4 (drop 16 h);
                    drop 20 h] in
  length s = 36%nat ∧ uuid_digits s = h ∧
  forallb (λ i, bool_decide (s !! i = Some 45)) [8; 13; 18; 23]%nat = true.
Proof.
  intros Hl. do 32 (destruct h as [|? h]; [done|]). destruct h; [|done]. by split_and!.
Qed.

Lemma decode_uuid_str u : u < 2 ^ 128 → _decode_uuid (JStr (uuid_str u)) = Some u.
Proof.
  intros Hu. unfold _decode_uuid, _CANONICAL_UUID.
  destruct (uuid_text_shape (hex_fixed 32 u) (hex_fixed_length 32 u)) as (H1 & H2 & H3).
  fold (uuid_str u) in H1, H2, H3. rewrite H2, H3, hex_fixed_lower.
  rewrite bool_decide_true by done. cbn [andb negb].
  rewrite read_hex_fixed. rewrite N.mod_small by exact Hu. by rewrite bool_decide_true.
Qed.

Section Properties.
Context `{Unicode}.

Lemma new_transcript_inv r u ms t :
  new_transcript r u ms = Some t →
  t = {| t_run_id := r; t_turn_id := u; messages := ms |} ∧ complete_turn ms.
Proof.
  unfold new_transcript. intros (ms' & Hms & Ht)%bind_Some.
  apply validate_turn_spec in Hms as [-> Hc].
  apply bind_Some in Ht as (p & _ & Ht). apply bind_Some in Ht as (e & _ & Ht).
  destruct (_ <? _); [done|]. by injection Ht as <-.
Qed.

Lemma messages_read ms ps :
  Forall readable ms → mapM _message_payload ms = Some ps →
  mapM _message_from_payload ps = Some ms ∧ length ps = length ms.
Proof.
  intros Hr Hp. apply mapM_Some in Hp. rewrite mapM_Some.
  induction Hp as [|m p ms ps Hm _ IH]; [by split|].
  apply Forall_cons in Hr as [Hrm Hr]. destruct (IH Hr). cbn. split; [|lia].
  constructor; [by apply Hrm|done].
Qed.

(** Reading a payload whose tree is within the bounds. *)
Lemma payload_reads r u ms t p :
  r < 2 ^ 128 → u < 2 ^ 128 → new_transcript r u ms = Some t → to_payload t = Some p →
  _transcript_from_payload p =
  if _validate_payload_tree p then Some t else None.
Proof.
  intros Hr Hu Ht Hp. pose proof (new_transcript_inv _ _ _ _ Ht) as [-> Hc].
  unfold to_payload, _payload_from_messages in Hp. cbn [t_run_id t_turn_id messages] in Hp.
  apply bind_Some in Hp as (ps & Hps & Hp). apply (inj Some) in Hp. subst p.
  destruct (messages_read _ _ (turn_readable _ Hc) Hps) as [Hread Hlen].
  unfold _transcript_from_payload. destruct (_validate_payload_tree _); [|done]. cbn [negb].
  replace (has_exactly _TOP_LEVEL_KEYS _) with true by reflexivity. cbn [negb].
  dict_read. rewrite Z.eqb_refl, bool_decide_true by done. cbn [negb].
  rewrite !decode_uuid_str by done. cbn [mbind option_bind].
  destruct (N.ltb_spec MAX_MESSAGES (len ps)) as [Hmax|].
  - exfalso. destruct (proj2 (validate_turn_spec ms ms) (conj eq_refl Hc)) as [].
    unfold new_transcript in Ht. apply bind_Some in Ht as (ms' & Hms & _).
    unfold _validate_turn_messages in Hms. unfold len in *. rewrite <- Hlen in Hms.
    destruct (N.ltb_spec (N.of_nat (length ps)) 2); [done|].
    destruct (N.ltb_spec MAX_MESSAGES (N.of_nat (length ps))); [done|lia].
  - rewrite Hread. cbn [mbind option_bind]. exact Ht.
Qed.

(** C25. A message sequence is accepted as a turn exactly when it is a complete
    turn: one user message, then assistant messages with one to 32 tool calls,
    each followed by exactly one result for every call, in whatever order they
    were observed and with the call's name if any, and a final assistant message
    without calls, with protocol ids unique in the turn and at most 64 calls; it
    is stored unchanged, so the observed order is kept. *)
Theorem turn_accepted_iff_complete ms ms' :
  _validate_turn_messages ms = Some ms' ↔ ms' = ms ∧ complete_turn ms.
Proof. apply validate_turn_spec. Qed.

(** C26. A stored transcript reads back: whatever transcript is accepted, its
    payload restores exactly that transcript as long as the payload has at most
    100,000 nodes, and is refused otherwise; depth, integer, key and message
    limits can never prevent it. *)
Theorem transcript_round_trip r u ms t p :
  r < 2 ^ 128 → u < 2 ^ 128 → build_turn_transcript r u ms = Some t → to_payload t = Some p →
  (node_count p ≤ MAX_PAYLOAD_NODES → _transcript_from_payload p = Some t) ∧
  (MAX_PAYLOAD_NODES < node_count p → _transcript_from_payload p = None).
Proof.
  intros Hr Hu Ht Hp. rewrite (payload_reads r u ms t p) by done.
  pose proof (new_transcript_inv _ _ _ _ Ht) as [-> _].
  destruct (payload_bound _ _ _ _ Hp) as [Hh Ha].
  destruct (_validate_payload_tree p) eqn:E.
  - apply validate_payload_tree_spec in E as (? & _). split; [done|lia].
  - split; [|done]. intros Hn. exfalso.
    rewrite (proj2 (validate_payload_tree_spec p)) in E by done. done.
Qed.
End Properties.

(** ** A turn with two parallel calls answered out of order *)

(** Printable ASCII. *)
#[local] Instance ascii_unicode : Unicode :=
  {| py_isprintable := λ c, (32 <=? c) && (c <=? 126) |}.

Definition plain (r : MessageRole) (text : string) : ModelMessage :=
  {| role := r; content := Some (lit text); msg_name := None; tool_call_id := None;
     tool_calls := [] |}.
Definition sample_call (i : string) : ModelToolCall :=
  {| call_name := lit "lookup"; call_arguments := JObj [(lit "q", JArr [JInt 1; JNull])];
     provider_tool_call_id := Some (lit i) |}.
Definition sample_result (i : string) : ModelMessage :=
  {| role := role_tool; content := Some (lit "{}"); msg_name := Some (lit "lookup");
     tool_call_id := Some (lit i); tool_calls := [] |}.
Definition sample_turn : list ModelMessage :=
  [plain role_user "hello";
   {| role := role_assistant; content := None; msg_name := None; tool_call_id := None;
      tool_calls := [sample_call "c1"; sample_call "c2"] |};
   sample_result "c2"; sample_result "c1"; plain role_assistant "done"].
Definition sample_transcript : TurnTranscript :=
  {| t_run_id := 7; t_turn_id := 8; messages := sample_turn |}.

(** The turn is complete; with a result left out, or one given twice, it is not. *)
Lemma turn_accepted_iff_complete_witness :
  complete_turn sample_turn ∧
  ¬ complete_turn (delete 2%nat sample_turn) ∧
  ¬ complete_turn (<[2%nat := sample_result "c1"]> sample_turn).
Proof.
  split; [|split].
  - apply (turn_accepted_iff_complete sample_turn sample_turn). vm_compute. reflexivity.
  - intros Hc. assert (_validate_turn_messages (delete 2%nat sample_turn) = None) as E
      by (vm_compute; reflexivity).
    by rewrite (proj2 (turn_accepted_iff_complete _ _) (conj eq_refl Hc)) in E.
  - intros Hc. assert (_validate_turn_messages (<[2%nat := sample_result "c1"]> sample_turn) = None) as E
      by (vm_compute; reflexivity).
    by rewrite (proj2 (turn_accepted_iff_complete _ _) (conj eq_refl Hc)) in E.
Defined.

Lemma transcript_round_trip_witness :
  ∃ p, to_payload sample_transcript = Some p ∧
       _transcript_from_payload p = Some sample_transcript.
Proof.
  destruct (to_payload sample_transcript) as [p|] eqn:E; [|by vm_compute in E].
  exists p. split; [reflexivity|].
  apply (transcript_round_trip 7 8 sample_turn sample_transcript p).
  - reflexivity.
  - reflexivity.
  - vm_compute. reflexivity.
  - exact E.
  - assert (to_payload sample_transcript = Some p → node_count p ≤ MAX_PAYLOAD_NODES) as H.
    { clear. intros E. assert (node_count <$> to_payload sample_transcript = Some 68) as Hn
        by (vm_compute; reflexivity). rewrite E in Hn. injection Hn as ->. by vm_compute. }
    exact (H E).
Defined.
