(* ===== verification/RunUsage.v ===== *)
(** * Usage totals and the cost ceiling

    Model of [_aggregate_usage] and [_cost_guard_failure] of
    [packages/agent_runtime/runtime_projection.py].

    Cost amounts are exact multiples of [10^-12] of the currency unit; a
    [Decimal] sum of such amounts is exact below [10^16] units of currency
    (28 significant digits).  Currency codes are ASCII letters, as
    [ModelCostEstimate] requires. *)

From stdpp Require Import base gmap list strings.
From Stdlib Require Import ZArith NArith Lia.
From S2P Require Import Prelude.
From S2P Require Import Json.
From S2P Require Import RunStore.

Local Open Scope Z_scope.

Record Usage := {
  input_tokens : Z;
  output_tokens : Z;
  usage_total_tokens : Z;
  cached_tokens : option Z
}.
Record Cost := { cost_amount : Z; cost_code : list N; cost_estimated : bool }.
(** One model call: either part may be missing. *)
Record UsageRecord := { usage : option Usage; cost : option Cost }.

(** [str.upper()] of a currency code. *)
Definition ascii_upper (c : N) : N :=
  if ((97 <=? c) && (c <=? 122))%N then (c - 32)%N else c.
Definition py_upper (s : list N) : list N := ascii_upper <$> s.

Definition py_sum (l : list Z) : Z := foldr Z.add 0 l.

(** [all(isinstance(value, Mapping) for value in values)], with the values. *)
Definition all_present {A} (l : list (option A)) : option (list A) := mapM id l.

Definition no_usage : UsageTotals :=
  {| total_input_tokens := None; total_output_tokens := None; total_tokens := None;
     total_cached_tokens := None; total_cost_amount := None; cost_currency := None;
     cost_is_estimate := None |}.

Definition add_tokens (values : list Usage) (t : UsageTotals) : UsageTotals :=
  {| total_input_tokens := Some (py_sum (input_tokens <$> values));
     total_output_tokens := Some (py_sum (output_tokens <$> values));
     total_tokens := Some (py_sum (usage_total_tokens <$> values));
     total_cached_tokens := py_sum <$> all_present (cached_tokens <$> values);
     total_cost_amount := total_cost_amount t; cost_currency := cost_currency t;
     cost_is_estimate := cost_is_estimate t |}.

Definition add_costs (values : list Cost) (t : UsageTotals) : UsageTotals :=
  match elements (list_to_set ((λ v, py_upper (cost_code v)) <$> values) : gset (list N)) with
  | [currency] =>
      {| total_input_tokens := total_input_tokens t; total_output_tokens := total_output_tokens t;
         total_tokens := total_tokens t; total_cached_tokens := total_cached_tokens t;
         total_cost_amount := Some (py_sum (cost_amount <$> values));
         cost_currency := Some currency;
         cost_is_estimate := Some (existsb cost_estimated values) |}
  | _ => t
  end.

Definition _aggregate_usage (records : list UsageRecord) : UsageTotals :=
  let t := match records, all_present (usage <$> records) with
           | _ :: _, Some values => add_tokens values no_usage
           | _, _ => no_usage
           end in
  match records, all_present (cost <$> records) with
  | _ :: _, Some values => add_costs values t
  | _, _ => t
  end.

(** [_MICRO_USD], and the units of [10^-12] in one currency unit. *)
Definition _MICRO_USD : Z := 1000000.
Definition COST_UNITS : Z := 1000000000000.

Definition AGENT_COST_UNMEASURABLE : string := "AGENT_COST_UNMEASURABLE".
Definition AGENT_COST_LIMIT_EXCEEDED : string := "AGENT_COST_LIMIT_EXCEEDED".

Definition _cost_guard_failure (usage_records : list UsageRecord) (limit_micro_usd : option Z)
    (rounds_completed : Z) : option string :=
  match limit_micro_usd with
  | None => None
  | Some limit =>
      match usage_records with
      | [] => if rounds_completed <=? 0 then None else Some AGENT_COST_UNMEASURABLE
      | _ =>
          let aggregate := _aggregate_usage usage_records in
          match total_cost_amount aggregate, cost_currency aggregate with
          | Some amount, Some currency =>
              if negb (bool_decide (py_upper currency = lit "USD"))
              then Some AGENT_COST_UNMEASURABLE
              else if limit * COST_UNITS <=? amount * _MICRO_USD
              then Some AGENT_COST_LIMIT_EXCEEDED
              else None
          | _, _ => Some AGENT_COST_UNMEASURABLE
          end
      end
  end.

(** ** What the guard lets through *)

Lemma all_present_Some {A} (l : list (option A)) vs : all_present l = Some vs ↔ l = Some <$> vs.
Proof.
  unfold all_present. rewrite mapM_Some. split.
  - induction 1 as [|x v l vs Hx _ IH]; [done|]. cbn in *. by subst.
  - intros ->. induction vs; cbn; constructor; auto.
Qed.

Lemma all_present_unique {A} (l : list (option A)) vs vs' :
  l = Some <$> vs → l = Some <$> vs' → vs = vs'.
Proof. intros -> Hf. by apply (inj (fmap Some)) in Hf. Qed.

Lemma total_cost_spec records amount :
  total_cost_amount (_aggregate_usage records) = Some amount ↔
  records ≠ [] ∧ ∃ vs cur, cost <$> records = Some <$> vs ∧
    (∀ v, v ∈ vs → py_upper (cost_code v) = cur) ∧ amount = py_sum (cost_amount <$> vs) ∧
    cost_currency (_aggregate_usage records) = Some cur.
Proof.
  unfold _aggregate_usage. destruct records as [|x records].
  { cbn. split; [done|by intros [? _]]. }
  set (t := match all_present _ with Some vs => add_tokens vs no_usage | None => no_usage end).
  assert (total_cost_amount t = None) as Ht by (subst t; by destruct (all_present _)).
  clearbody t. destruct (all_present (cost <$> x :: records)) as [vs|] eqn:Hp.
  - apply all_present_Some in Hp. unfold add_costs.
    set (s := list_to_set _ : gset (list N)).
    assert (∀ c, c ∈ s ↔ ∃ v, v ∈ vs ∧ c = py_upper (cost_code v)) as Hs.
    { intros c. subst s. rewrite elem_of_list_to_set, list_elem_of_fmap. naive_solver. }
    destruct (elements s) as [|cur [|cur' r]] eqn:He.
    + rewrite Ht. split; [done|]. intros (_ & vs' & cur & Hvs & _). exfalso.
      assert (vs = vs') as <- by exact (all_present_unique _ _ _ Hp Hvs).
      destruct vs as [|v vs]; [done|].
      assert (py_upper (cost_code v) ∈ elements s) as Hin.
      { apply elem_of_elements, Hs. exists v. split; [left|done]. }
      rewrite He in Hin. by apply elem_of_nil in Hin.
    + cbn. split.
      * intros [= <-]. split; [done|]. exists vs, cur. split_and!; try done.
        intros v Hv. assert (py_upper (cost_code v) ∈ elements s) as Hin.
        { apply elem_of_elements, Hs. eauto. }
        rewrite He in Hin. by apply list_elem_of_singleton in Hin.
      * intros (_ & vs' & cur' & Hvs & _ & -> & _).
        assert (vs = vs') as -> by exact (all_present_unique _ _ _ Hp Hvs). done.
    + rewrite Ht. split; [done|]. intros (_ & vs' & c0 & Hvs & Hall & _). exfalso.
      assert (vs = vs') as <- by exact (all_present_unique _ _ _ Hp Hvs).
      assert (NoDup (cur :: cur' :: r)) as Hnd by (rewrite <- He; apply NoDup_elements).
      assert (∀ c, c ∈ elements s → c = c0) as Hc.
      { intros c Hin%elem_of_elements. apply Hs in Hin as (v & Hv & ->). by apply Hall. }
      rewrite He in Hc. apply NoDup_cons in Hnd as [Hn _]. apply Hn.
      assert (cur = c0) as -> by (apply Hc; left).
      assert (cur' = c0) as -> by (apply Hc; right; left). left.
  - rewrite Ht. split; [done|]. intros (_ & vs & cur & Hvs & _).
    apply all_present_Some in Hvs. congruence.
Qed.

Lemma py_upper_idem s : py_upper (py_upper s) = py_upper s.
Proof.
  unfold py_upper. rewrite <- list_fmap_compose. apply list_fmap_ext. intros _ c _.
  unfold compose, ascii_upper. destruct ((97 <=? c) && (c <=? 122))%N eqn:E; [|by rewrite E].
  apply andb_true_iff in E as [E1%N.leb_le E2%N.leb_le].
  destruct (97 <=? c - 32)%N eqn:F; [|done]. apply N.leb_le in F. lia.
Qed.

Lemma py_sum_app l k : py_sum (l ++ k) = py_sum l + py_sum k.
Proof. unfold py_sum. induction l; cbn; lia. Qed.
Lemma py_sum_nonneg l : Forall (Z.le 0) l → 0 <= py_sum l.
Proof. unfold py_sum. induction 1; cbn in *; lia. Qed.

(** The cost ceiling fails closed.  When a run with a ceiling may go on,
    either nothing was called yet, or every recorded call carries a cost in US
    dollars and their exact sum is below the ceiling; and a run stopped for its
    spend is never let through again, whatever further calls with nonnegative
    costs are recorded. *)
Lemma cost_guard_fails_closed records limit rounds :
  (_cost_guard_failure records (Some limit) rounds = None →
   (records = [] ∧ rounds <= 0) ∨
   ∃ costs, cost <$> records = Some <$> costs ∧
     (∀ c, c ∈ costs → py_upper (cost_code c) = lit "USD") ∧
     py_sum (cost_amount <$> costs) * _MICRO_USD < limit * COST_UNITS) ∧
  (_cost_guard_failure records (Some limit) rounds = Some AGENT_COST_LIMIT_EXCEEDED →
   ∀ more rounds', (∀ r c, r ∈ more → cost r = Some c → 0 <= cost_amount c) →
     _cost_guard_failure (records ++ more) (Some limit) rounds' ≠ None).
Proof.
  assert (Hpass : ∀ records rounds, records ≠ [] →
    _cost_guard_failure records (Some limit) rounds = None →
    ∃ costs cur, cost <$> records = Some <$> costs ∧
      (∀ c, c ∈ costs → py_upper (cost_code c) = cur) ∧ py_upper cur = lit "USD" ∧
      py_sum (cost_amount <$> costs) * _MICRO_USD < limit * COST_UNITS).
  { clear. intros records rounds Hne. unfold _cost_guard_failure.
    destruct records as [|x l]; [done|]. set (records := x :: l) in *.
    destruct (total_cost_amount _) as [amount|] eqn:Ht; [|done].
    apply total_cost_spec in Ht as (_ & vs & cur & Hvs & Hall & -> & Hcur). rewrite Hcur.
    destruct (bool_decide _) eqn:Hu; [|done]. cbn [negb]. breflect.
    destruct (_ <=? _) eqn:Hlim; [done|]. breflect. eauto 8. }
  split.
  - intros Hg. destruct records as [|x l].
    + left. split; [done|]. unfold _cost_guard_failure in Hg.
      destruct (rounds <=? 0) eqn:E; [|done]. by breflect.
    + right. destruct (Hpass (x :: l) rounds ltac:(done) Hg) as (vs & cur & Hvs & Hall & Hcur & Hlim).
      exists vs. split_and!; [done| |done]. intros c Hc.
      by rewrite <- Hcur, <- (Hall c Hc), py_upper_idem.
  - intros Hg more rounds' Hpos Hg'.
    destruct records as [|x l]; [cbn in Hg; destruct (_ <=? _); discriminate Hg|].
    destruct (Hpass ((x :: l) ++ more) rounds' ltac:(done) Hg') as (vs & cur & Hvs & _ & _ & Hlim).
    unfold _cost_guard_failure in Hg.
    destruct (total_cost_amount _) as [amount|] eqn:Ht; [|done].
    apply total_cost_spec in Ht as (_ & vs1 & cur1 & Hvs1 & _ & -> & Hcur1). rewrite Hcur1 in Hg.
    destruct (bool_decide _); [|done]. cbn [negb] in Hg.
    destruct (_ <=? _) eqn:Hlim1; [|done]. breflect.
    rewrite fmap_app in Hvs. symmetry in Hvs.
    apply fmap_app_inv in Hvs as (vs1' & vs2 & Hv1 & Hv2 & ->).
    rewrite Hvs1 in Hv1. apply (inj (fmap Some)) in Hv1 as <-.
    rewrite fmap_app, py_sum_app in Hlim.
    assert (0 <= py_sum (cost_amount <$> vs2)); [|unfold _MICRO_USD in *; lia].
    apply py_sum_nonneg, Forall_fmap, Forall_forall. intros c Hc. cbn.
    assert (Some c ∈ cost <$> more) as (r & Hr & Hin)%list_elem_of_fmap.
    { rewrite Hv2. by apply list_elem_of_fmap_2. }
    by apply (Hpos r).
Qed.

Definition one_call (amount : Z) : UsageRecord :=
  {| usage := None;
     cost := Some {| cost_amount := amount; cost_code := lit "usd"; cost_estimated := true |} |}.

Lemma cost_guard_fails_closed_witness :
  _cost_guard_failure [one_call 3000000] (Some 5) 1 = None ∧
  _cost_guard_failure [one_call 3000000; one_call 2000000] (Some 5) 2
    = Some AGENT_COST_LIMIT_EXCEEDED ∧
  _cost_guard_failure ([one_call 3000000; one_call 2000000] ++ [one_call 1]) (Some 5) 3 ≠ None.
Proof.
  split; [reflexivity|]. split; [reflexivity|].
  apply (cost_guard_fails_closed [one_call 3000000; one_call 2000000] 5 2); [reflexivity|].
  intros r c ->%list_elem_of_singleton [= <-]. cbn. lia.
Defined.
