(* ===== verification/RunLifecycle.v ===== *)
(** * The status of a run

    Model of the methods of [AgentRunService]
    ([packages/agent_runtime/runtime_service.py]) that write the row of a run:
    [cancel], [_mark_waiting], [_waiting_result], [_transition_resume_to_running],
    [_fail_resume_safely] and [_complete_run], with what they read
    ([_load_run], [_load_resume_approval], [_resume_required_permissions]) and
    the projection [_run_result] of [runtime_projection.py].

    [visible_evidence_registry] (checked against the knowledge layer) is a
    parameter.  Trace spans and log lines are left out. *)

From stdpp Require Import base gmap list strings.
From Stdlib Require Import ZArith NArith Lia.
From S2P Require Import Prelude.
From S2P Require Import RunBudgetLedger.
From S2P Require Import Json.
From S2P Require Import JsonTheory.
From S2P Require Import RunStore.
From S2P Require Import Rbac.
From S2P Require Import Approvals.
From S2P Require Import Reconciliation.
From S2P Require Import TurnTranscript.
From S2P Require Import RunUsage.

Local Open Scope Z_scope.

(** ** Projections *)

Record AgentRunResult := {
  res_run_id : uuid;
  res_agent_version_id : uuid;
  res_status : RunStatus.t;
  res_final_output : option (list N);
  res_failure_code : option string;
  res_model_step_count : Z;
  res_tool_call_count : Z;
  res_totals : UsageTotals
}.

Definition _run_result (run : AgentRun) : AgentRunResult :=
  {| res_run_id := run_id run; res_agent_version_id := run_agent_version_id run;
     res_status := run_status run; res_final_output := run_final_output run;
     res_failure_code := run_failure_code run;
     res_model_step_count := run_model_step_count run;
     res_tool_call_count := run_tool_call_count run; res_totals := run_totals run |}.

Definition _is_uncertain_action_failure (failure_code : option string) : bool :=
  match failure_code with
  | Some c => bool_decide (c ∈ ["UNKNOWN_OUTCOME"; "ACTION_OUTCOME_UNKNOWN";
                                "ACTION_RECONCILIATION_REQUIRED"]%string)
  | None => false
  end.

(** [select(Approval.id).where(run, execution_status in {CLAIMED,
    UNKNOWN_OUTCOME}).limit(1)] finds a row. *)
Definition claimed_action (run : AgentRun) (d : RunStore.Db) : bool :=
  existsb in_flight (approvals_of_run (run_workspace_id run) (run_id run) d).

Definition is_any (l : list RunStatus.t) (run : AgentRun) : bool :=
  bool_decide (run_status run ∈ l).

(** [select(AgentRun).where(workspace, id)], with or without the row lock. *)
Definition load_run (context : WorkspaceExecutionContext) (i : uuid) :
  M RunStore.Db Exn AgentRun :=
  w ← parse_workspace context;
  d ← get;
  reraise_unless AGENT_RUN_NOT_FOUND (find_run w i d).

Definition _load_run := load_run.

(** ** Cancellation *)

Definition cancel_row (claimed : bool) (now : datetime) (run : AgentRun) : AgentRun :=
  if is_status RunStatus.NEEDS_ATTENTION run then run
  else if claimed && is_any [RunStatus.SUCCEEDED; RunStatus.FAILED; RunStatus.CANCELLED] run
  then set_run_failure_code (Some "ACTION_RECONCILIATION_REQUIRED"%string)
         (set_run_status RunStatus.NEEDS_ATTENTION run)
  else if claimed then set_run_status RunStatus.CANCEL_REQUESTED run
  else if is_status RunStatus.WAITING_APPROVAL run && negb (truthy (run_execution_owner run))
  then set_run_completed_at (Some now) (set_run_status RunStatus.CANCELLED run)
  else if is_any [RunStatus.RUNNING; RunStatus.WAITING_APPROVAL] run
  then set_run_status RunStatus.CANCEL_REQUESTED run
  else run.

(** [has_service]: an approval service is configured. *)
Definition cancel (has_service : bool) (context : WorkspaceExecutionContext) (i : uuid)
    (now now' : datetime) : M RunStore.Db Exn AgentRunResult :=
  require_permission context "agent_run";;
  result ← session_scope (
    run ← load_run context i;
    d ← get;
    let run' := mark_log (run_status run) (cancel_row (claimed_action run d) now run) in
    save_run run';;
    mret (_run_result run'));
  (if bool_decide (res_status result = RunStatus.CANCELLED) && has_service
   then cancel_pending_for_run context i now';; mret tt
   else mret tt);;
  mret result.

(** ** Waiting for an approval *)

Definition _mark_waiting (context : WorkspaceExecutionContext) (i : uuid) :
  M RunStore.Db Exn unit :=
  session_scope (
    w ← parse_workspace context;
    d ← get;
    match find_run w i d with
    | Some run =>
        if is_status RunStatus.RUNNING run
        then save_run (set_run_event_log_complete false
               (set_run_status RunStatus.WAITING_APPROVAL run))
        else mret tt
    | None => mret tt
    end).

(** Decided, not started, and the awaited one if one is named. *)
Definition resumable (waiting : option uuid) (a : Approval) : bool :=
  negb (is_pending a)
  && bool_decide (ap_execution_status a = ApprovalExecutionStatus.NOT_STARTED)
  && match waiting with Some i => (ap_id a =? i)%N | None => true end.

Definition _waiting_result (context : WorkspaceExecutionContext) (i : uuid)
    (model_step_count tool_call_count : Z) (usage_records : list UsageRecord)
    (waiting_approval_id : option uuid) : M RunStore.Db Exn AgentRunResult :=
  session_scope (
    persisted ← load_run context i;
    d ← get;
    let decided := existsb (resumable waiting_approval_id)
      (approvals_of_run (run_workspace_id persisted) (run_id persisted) d) in
    let r := set_run_tool_call_count tool_call_count
               (set_run_model_step_count model_step_count persisted) in
    let r := if is_status RunStatus.RUNNING r
             then set_run_status RunStatus.WAITING_APPROVAL r else r in
    let r := set_run_totals (_aggregate_usage usage_records)
               (set_run_resume_pending decided
                 (set_run_waiting_approval_id waiting_approval_id
                   (set_run_event_log_complete false r))) in
    save_run r;;
    mret {| res_run_id := run_id r; res_agent_version_id := run_agent_version_id r;
            res_status := run_status r; res_final_output := None; res_failure_code := None;
            res_model_step_count := run_model_step_count r;
            res_tool_call_count := run_tool_call_count r; res_totals := run_totals r |}).

(** ** Resuming *)

Definition APPROVAL_RESUME_MISMATCH (message : string) : Exn :=
  AgentHubError "APPROVAL_RESUME_MISMATCH" message 409.

Definition _load_resume_approval (context : WorkspaceExecutionContext) (run : AgentRun)
    (approval_id : uuid) : M RunStore.Db Exn Approval :=
  w ← parse_workspace context;
  d ← get;
  match find_approval w approval_id d with
  | None => raise (APPROVAL_RESUME_MISMATCH "The approval does not match the durable run.")
  | Some a =>
      if negb (ap_run_id a =? run_id run)%N
      then raise (APPROVAL_RESUME_MISMATCH "The approval does not belong to this durable run.")
      else if negb (ap_agent_version_id a =? run_agent_version_id run)%N
      then raise (APPROVAL_RESUME_MISMATCH
                    "The approval does not match the run's published version.")
      else mret a
  end.

Definition _resume_required_permissions (a : Approval) : gset string :=
  if terminal_execution (ap_execution_status a) then {["agent_run"%string]}
  else list_to_set ["agent_run"; "workspace_read"; "tool_run"]%string
       ∪ (if bool_decide (ap_tool_identity a ∈ lit <$> ["search_knowledge"; "query_wiki"]%string)
          then {["knowledge_run"%string]} else ∅).

Definition _transition_resume_to_running (run : AgentRun) : M RunStore.Db Exn bool :=
  session_scope (
    d ← get;
    match find_run (run_workspace_id run) (run_id run) d with
    | Some current =>
        if is_status RunStatus.WAITING_APPROVAL current
        then save_run (set_run_event_log_complete false
               (set_run_status RunStatus.RUNNING current));; mret true
        else mret false
    | None => mret false
    end).

Definition failed_resume (code : string) (now : datetime) (run : AgentRun) : AgentRun :=
  set_run_completed_at (Some now) (set_run_waiting_approval_id None
    (set_run_resume_pending false (set_run_event_log_complete false
      (set_run_final_output None (set_run_failure_code (Some code)
        (set_run_status RunStatus.NEEDS_ATTENTION run)))))).

(** A Python text used as a condition. *)
Definition nonempty_code (c : option string) : bool :=
  match c with Some c => negb (bool_decide (c = ""%string)) | None => false end.

Definition _fail_resume_safely (context : WorkspaceExecutionContext) (i : uuid)
    (failure_code : string) (now : datetime) : M RunStore.Db Exn AgentRunResult :=
  session_scope (
    run ← load_run context i;
    d ← get;
    let code := if claimed_action run d then "ACTION_RECONCILIATION_REQUIRED"%string
                else failure_code in
    if is_any [RunStatus.SUCCEEDED; RunStatus.FAILED; RunStatus.CANCELLED] run
    then mret (_run_result run)
    else
      let code := if is_status RunStatus.NEEDS_ATTENTION run
                     && nonempty_code (run_failure_code run)
                     && bool_decide (code = "RUN_EXECUTION_INTERRUPTED"%string)
                  then default code (run_failure_code run) else code in
      let run' := failed_resume code now run in
      save_run run';;
      mret (_run_result run')).

(** ** Completion *)

Record Outcome := {
  out_status : RunStatus.t;
  out_output : option (list N);
  out_failure : option string
}.

(** [failure_code or code] *)
Definition or_code (c : option string) (code : string) : option string :=
  if nonempty_code c then c else Some code.

(** The outcome that is recorded, from the one that is reported. *)
Definition effective_outcome (run : AgentRun) (claim budget_unknown : bool) (reported : Outcome) :
  Outcome :=
  let uncertain := bool_decide (out_status reported = RunStatus.NEEDS_ATTENTION)
                   || _is_uncertain_action_failure (out_failure reported) || claim in
  if uncertain then
    {| out_status := RunStatus.NEEDS_ATTENTION; out_output := None;
       out_failure := or_code (out_failure reported) "ACTION_RECONCILIATION_REQUIRED" |}
  else if budget_unknown then
    {| out_status := RunStatus.NEEDS_ATTENTION; out_output := out_output reported;
       out_failure := Some "RUN_BUDGET_RECONCILIATION_REQUIRED"%string |}
  else if is_any [RunStatus.CANCELLED; RunStatus.NEEDS_ATTENTION] run then
    {| out_status := run_status run; out_output := run_final_output run;
       out_failure := run_failure_code run |}
  else if is_status RunStatus.CANCEL_REQUESTED run then
    if bool_decide (out_status reported = RunStatus.NEEDS_ATTENTION)
       || _is_uncertain_action_failure (out_failure reported)
    then {| out_status := RunStatus.NEEDS_ATTENTION; out_output := None;
            out_failure := or_code (out_failure reported) "ACTION_RECONCILIATION_REQUIRED" |}
    else {| out_status := RunStatus.CANCELLED; out_output := None; out_failure := None |}
  else reported.

(** An attempt of the run's own model calls has an unknown bill. *)
Definition attempt_unknown (w i : uuid) (l : RunBudgetLedger.Db) : bool :=
  existsb (λ ka : (N * N * list N) * RunBudgetAttempt,
    bool_decide (ka.1.1 = (w, i))
    && bool_decide (attempt_kind ka.2 ∈ ["MAIN_MODEL"; "RETRY"; "FALLBACK"]%string)
    && bool_decide (status ka.2 = "UNKNOWN_OUTCOME"%string))
    (map_to_list (attempts l)).

(** [{**metadata, key: value}] *)
Fixpoint dict_set (k : list N) (v : json) (l : list (list N * json)) : list (list N * json) :=
  match l with
  | [] => [(k, v)]
  | (k', v') :: r => if bool_decide (k' = k) then (k, v) :: r else (k', v') :: dict_set k v r
  end.

(** The finish step, unless the run has one. *)
Definition add_finish (run : AgentRun) (o : Outcome) (safe_metadata : option json) :
  M RunStore.Db Exn unit :=
  d ← get;
  let of_run s := bool_decide (step_workspace_id s = run_workspace_id run)
                  && bool_decide (step_agent_run_id s = run_id run) in
  if existsb (λ s, of_run s && bool_decide (step_kind s = "FINISH"%string)) (run_steps d)
  then mret tt
  else
    let metadata := match safe_metadata with Some (JObj l) => l | _ => [] end in
    put (set_run_steps (run_steps d ++
      [{| step_workspace_id := run_workspace_id run; step_agent_run_id := run_id run;
          step_sequence_number := last_sequence run d + 1; step_kind := "FINISH";
          step_status := RunStatus.value (out_status o);
          step_safe_metadata := JObj
            (dict_set (lit "error_code") (opt_str (out_failure o))
              (dict_set (lit "status") (JStr (lit (RunStatus.value (out_status o))))
                metadata)) |}]) d).

(** [insert ... on_conflict_do_nothing] of the extraction job. *)
Definition add_memory_job (run : AgentRun) : M RunStore.Db Exn unit :=
  modify (λ d, let key := (run_workspace_id run, run_id run) in
    if bool_decide (key ∈ memory_jobs d) then d
    else set_memory_jobs (memory_jobs d ++ [key]) d).

Section Complete.
Context `{Unicode}.
(** The evidence visible in the messages; [None] is the mapping error. *)
Context (visible_evidence_registry : list ModelMessage → json → option json).

Definition AGENT_HISTORY_SNAPSHOT_INVALID (message : string) : Exn :=
  AgentHubError "AGENT_HISTORY_SNAPSHOT_INVALID" message 409.

(** Python equality of two JSON values up to key order. *)
Definition same_json (a b : json) : bool := bool_decide (canonical_json a = canonical_json b).

(** [json.dumps(v, ensure_ascii=False, allow_nan=False)] with its default
    separators. *)
Fixpoint join_text (sep : list N) (l : list (list N)) : list N :=
  match l with
  | [] => []
  | [x] => x
  | x :: r => x ++ sep ++ join_text sep r
  end.
Fixpoint json_dumps (v : json) : option (list N) :=
  match v with
  | JArr l => ts ← (fix go l := match l with
                    | [] => Some []
                    | x :: r => t ← json_dumps x; ts ← go r; Some (t :: ts)
                    end) l;
              Some ([91%N] ++ join_text [44; 32]%N ts ++ [93%N])
  | JObj l => ts ← (fix go l := match l with
                    | [] => Some []
                    | (k, x) :: r =>
                        t ← json_dumps x; ts ← go r; Some ((dump_str k ++ [58; 32]%N ++ t) :: ts)
                    end) l;
              Some ([123%N] ++ join_text [44; 32]%N ts ++ [125%N])
  | v => canonical_json v
  end.

(** The evidence of a transcript, if it maps and fits the storage bound. *)
Definition stored_evidence (ms : list ModelMessage) (registry : json) : option json :=
  evidence ← visible_evidence_registry ms registry;
  text ← json_dumps evidence;
  if existsb is_surrogate text then None
  else if (MAX_ENCODED_BYTES <? utf8_length text)%N then None else Some evidence.

(** The transcript of the turn, if it is complete and matches the run. *)
Definition matching_transcript (run : AgentRun) (output : option (list N))
    (turn_transcript : list ModelMessage) : option (TurnTranscript * json) :=
  turn_id ← run_thread_turn_id run;
  t ← build_turn_transcript (run_id run) turn_id turn_transcript;
  if negb (bool_decide ((head (messages t) ≫= content) = Some (run_input_text run)))
     || negb (bool_decide ((last (messages t) ≫= content) = output))
     || negb (Z.of_nat (length (messages t ≫= tool_calls)) =? run_tool_call_count run)
  then None
  else payload ← to_payload t; Some (t, payload).

(** Keep the transcript and the evidence of a successful thread turn; a stored
    one must not change. *)
Definition record_history (run : AgentRun) (o : Outcome)
    (turn_transcript : option (list ModelMessage)) (turn_evidence_registry : json) :
  M RunStore.Db Exn AgentRun :=
  match turn_transcript, out_status o, run_thread_turn_id run with
  | Some ms, RunStatus.SUCCEEDED, Some _ =>
      match matching_transcript run (out_output o) ms with
      | None => mret run
      | Some (t, payload) =>
          raise_if match run_thread_history_transcript run with
                   | Some old => negb (same_json old payload)
                   | None => false
                   end (AGENT_HISTORY_SNAPSHOT_INVALID "The completed turn transcript changed.");;
          let run := set_run_thread_history_transcript (Some payload) run in
          match stored_evidence (messages t) turn_evidence_registry with
          | None => mret run
          | Some evidence =>
              raise_if match run_thread_history_evidence_registry run with
                       | Some old => negb (same_json old evidence)
                       | None => false
                       end (AGENT_HISTORY_SNAPSHOT_INVALID "The completed turn evidence changed.");;
              mret (set_run_thread_history_evidence_registry (Some evidence) run)
          end
      end
  | _, _, _ => mret run
  end.

Definition completed_row (o : Outcome) (model_step_count tool_call_count : Z) (run : AgentRun) :
  AgentRun :=
  set_run_tool_call_count (Z.max tool_call_count (run_tool_call_count run))
    (set_run_model_step_count (Z.max model_step_count (run_model_step_count run))
      (set_run_failure_code (out_failure o) (set_run_final_output (out_output o)
        (set_run_waiting_approval_id None (set_run_resume_pending false
          (set_run_event_log_complete false (set_run_status (out_status o) run))))))).

(** [ledger]: the budget tables, when budgets are configured;
    [memory_writer]: an extraction queue is configured.  The second component
    of the result tells whether the queue is notified after the commit. *)
Definition _complete_run (ledger : option RunBudgetLedger.Db) (memory_writer : bool)
    (context : WorkspaceExecutionContext) (i : uuid) (reported : Outcome)
    (model_step_count tool_call_count : Z) (usage_records : list UsageRecord)
    (turn_transcript : option (list ModelMessage)) (turn_evidence_registry : json)
    (pending_finish : option (option json)) (now : datetime) :
  M RunStore.Db Exn (AgentRunResult * bool) :=
  session_scope (
    run ← load_run context i;
    d ← get;
    let budget_unknown := match ledger with
      | Some l => attempt_unknown (run_workspace_id run) (run_id run) l
      | None => false
      end in
    let o := effective_outcome run (claimed_action run d) budget_unknown reported in
    r ← record_history (completed_row o model_step_count tool_call_count run) o
          turn_transcript turn_evidence_registry;
    let r := match usage_records with
             | [] => if run_model_step_count run =? 0
                     then set_run_totals (_aggregate_usage usage_records) r else r
             | _ => set_run_totals (_aggregate_usage usage_records) r
             end in
    match pending_finish with
    | Some metadata => add_finish run o metadata
    | None => mret tt
    end;;
    let thread_success := bool_decide (out_status o = RunStatus.SUCCEEDED)
                          && bool_decide (run_thread_id run ≠ None) in
    (if memory_writer && thread_success then add_memory_job run else mret tt);;
    let r := set_run_completed_at (Some now) r in
    save_run r;;
    mret (_run_result r, memory_writer && thread_success)).
End Complete.

(** The outcomes the callers of [_complete_run] report: a cancelled or blocked
    start, the final state of the graph (which sets [run_status] to these values
    only), and an error. *)
Inductive reported_end : Outcome → Prop :=
| end_cancelled :
    reported_end {| out_status := RunStatus.CANCELLED; out_output := None; out_failure := None |}
| end_wiki :
    reported_end {| out_status := RunStatus.NEEDS_ATTENTION; out_output := None;
                    out_failure := Some "WIKI_PUBLICATION_UNAVAILABLE"%string |}
| end_graph run_status failure_code final_output :
    run_status ∈ [None; Some RunStatus.NEEDS_ATTENTION; Some RunStatus.CANCELLED] →
    reported_end
      {| out_status := default (if nonempty_code failure_code then RunStatus.FAILED
                                else RunStatus.SUCCEEDED) run_status;
         out_output := if nonempty_code failure_code then None else final_output;
         out_failure := failure_code |}
| end_error code :
    reported_end {| out_status := RunStatus.FAILED; out_output := None; out_failure := Some code |}.

(** ** Creation

    The end of [_create_run], once the binding, the version and the snapshots
    were accepted: the insert, and the run that wins a race for the same turn
    ([_load_run_for_turn]).  [turn_agent_run_id]: the run the turn names. *)

Definition new_run (w i version created_by : uuid) (thread turn : option uuid)
    (input_text : pystr) (now : datetime) : AgentRun :=
  {| run_id := i; run_workspace_id := w; run_agent_version_id := version;
     run_created_by := created_by; run_execution_owner := None;
     run_execution_lease_expires_at := None; run_waiting_approval_id := None;
     run_resume_pending := false; run_reconciled_at := None; run_event_log_complete := false;
     run_event_log_failed := false; run_status := RunStatus.RUNNING; run_thread_id := thread;
     run_thread_turn_id := turn; run_input_text := input_text; run_final_output := None;
     run_thread_history_transcript := None; run_thread_history_evidence_registry := None;
     run_model_step_count := 0; run_tool_call_count := 0; run_totals := no_totals;
     run_failure_code := None; run_started_at := Some now; run_completed_at := None |}.

Definition same_turn (run r : AgentRun) : bool :=
  (run_workspace_id r =? run_workspace_id run)%N
  && bool_decide (run_thread_turn_id r = run_thread_turn_id run).

Definition THREAD_TURN_BINDING_INVALID (message : string) : Exn :=
  AgentHubError "THREAD_TURN_BINDING_INVALID" message 409.

Definition insert_run (turn_agent_run_id : option uuid) (run : AgentRun) : M RunStore.Db Exn AgentRun :=
  session_scope (
    d ← get;
    raise_if (bool_decide (agent_runs d !! run_id run ≠ None)) (IntegrityError "agent_runs_pkey");;
    match run_thread_turn_id run with
    | None => save_run run;; mret run
    | Some _ =>
        match head (filter (λ r, same_turn run r = true) (map_to_list (agent_runs d)).*2) with
        | None => save_run run;; mret run
        | Some r =>
            raise_if (negb (bool_decide (run_thread_id r = run_thread_id run)))
              (IntegrityError "uq_agent_runs_thread_turn");;
            raise_if match turn_agent_run_id with Some i => negb (i =? run_id r)%N | None => false end
              (THREAD_TURN_BINDING_INVALID "The turn and stable run bindings disagree.");;
            raise_if (negb (run_agent_version_id r =? run_agent_version_id run)%N
                      || negb (bool_decide (run_input_text r = run_input_text run)))
              (THREAD_TURN_BINDING_INVALID
                 "The existing run does not match the supplied thread turn.");;
            mret r
        end
    end).

(** ** The worker tasks

    [apps/worker/tasks/agent_runs.py].  [authorized] is what
    [_authorized_run_context] finds for the user who started the run; the answer
    is the context the task goes on with. *)

Definition access_revoked (now : datetime) (run : AgentRun) : AgentRun :=
  set_run_completed_at (Some now) (set_run_event_log_complete false
    (set_run_resume_pending false (set_run_failure_code (Some "RUN_ACTOR_ACCESS_REVOKED"%string)
      (set_run_status RunStatus.NEEDS_ATTENTION run)))).

Definition _mark_run_access_revoked (now : datetime) (run : AgentRun) : M RunStore.Db Exn unit :=
  save_run (access_revoked now run).

Definition authorize (authorized : outcome Exn (option WorkspaceExecutionContext))
    (now : datetime) (run : AgentRun) : M RunStore.Db Exn (option WorkspaceExecutionContext) :=
  match authorized with
  | Return None => _mark_run_access_revoked now run;; mret None
  | Return (Some c) => mret (Some c)
  | Raise e => raise e
  end.

Definition _resume_agent_run (authorized : outcome Exn (option WorkspaceExecutionContext))
    (i : uuid) (now : datetime) : M RunStore.Db Exn (option WorkspaceExecutionContext) :=
  session_scope (
    d ← get;
    match agent_runs d !! i with
    | Some run =>
        if is_status RunStatus.WAITING_APPROVAL run then authorize authorized now run else mret None
    | None => mret None
    end).

(** A cancellation that reached the run before any worker did. *)
Definition cancelled_unstarted (claimed : bool) (now : datetime) (run : AgentRun) : AgentRun :=
  set_run_completed_at (Some now)
    (set_run_failure_code (if claimed then Some "ACTION_RECONCILIATION_REQUIRED"%string else None)
      (set_run_event_log_complete false
        (set_run_status (if claimed then RunStatus.NEEDS_ATTENTION else RunStatus.CANCELLED) run))).

Definition _execute_agent_run (authorized : outcome Exn (option WorkspaceExecutionContext))
    (w i : uuid) (now : datetime) : M RunStore.Db Exn (option WorkspaceExecutionContext) :=
  session_scope (
    d ← get;
    match find_run w i d with
    | Some run =>
        if is_status RunStatus.CANCEL_REQUESTED run then
          if truthy (run_execution_owner run) then mret None
          else save_run (cancelled_unstarted (existsb in_flight (approvals_of_run w i d)) now run);;
               mret None
        else if is_status RunStatus.RUNNING run then authorize authorized now run
        else mret None
    | None => mret None
    end).

(** ** The interactive evaluations

    What [packages/evaluation/interactive_lifecycle.py] writes into the runs of
    an episode: [record_turn], [_stabilize_preparation_runs] and
    [_cancel_safe_drafts], inside the transactions of their callers.  The rows of
    the episode and of its turns are arguments. *)

(** [update(AgentRun).where(p).values(f)] *)
Definition update_runs (p : AgentRun → bool) (f : AgentRun → AgentRun) : M RunStore.Db Exn unit :=
  modify (λ d, set_agent_runs ((λ r, if p r then f r else r) <$> agent_runs d) d).

Definition is_active : AgentRun → bool :=
  is_any [RunStatus.RUNNING; RunStatus.WAITING_APPROVAL; RunStatus.CANCEL_REQUESTED].

Definition pending_action (w i : uuid) (s : RunStep) : bool :=
  (step_workspace_id s =? w)%N && (step_agent_run_id s =? i)%N
  && bool_decide (step_kind s ∈ ["ACTION"; "TOOL_EXECUTE"]%string)
  && negb (bool_decide (step_status s ∈ ["SUCCEEDED"; "FAILED"; "CANCELLED"; "SKIPPED"]%string)).
Definition _has_unknown_execution (w i : uuid) (d : RunStore.Db) : bool :=
  existsb in_flight (approvals_of_run w i d) || existsb (pending_action w i) (run_steps d).

(** [_terminal_status] of the status of a row. *)
Definition _terminal_status (s : RunStatus.t) : option RunStatus.t :=
  match s with
  | RunStatus.SUCCEEDED | RunStatus.FAILED | RunStatus.CANCELLED | RunStatus.NEEDS_ATTENTION =>
      Some s
  | _ => None
  end.

Definition unknown_outcome (run : AgentRun) : AgentRun :=
  set_run_failure_code (or_code (run_failure_code run) "INTERACTIVE_UNKNOWN_OUTCOME")
    (set_run_status RunStatus.NEEDS_ATTENTION run).

(** The part of [record_turn] that concerns the bound run.  [supplied]: the
    [_terminal_status] of the status the evidence gives, if it gives one; the
    answer is the status kept for the turn. *)
Definition record_turn_run (w i : uuid) (supplied : option (option RunStatus.t)) :
  M RunStore.Db Exn RunStatus.t :=
  d ← get;
  run ← reraise_unless (AgentHubError "INTERACTIVE_AGENT_RUN_NOT_FOUND"
                          "The bound AgentRun was not found." 409) (find_run w i d);
  terminal ← reraise_unless (AgentHubError "INTERACTIVE_TURN_NOT_TERMINAL"
    "The AgentRun has not reached a terminal storage state." 409)
    (_terminal_status (run_status run));
  raise_if match supplied with
           | Some s => negb (bool_decide (s = Some terminal))
           | None => false
           end (AgentHubError "INTERACTIVE_TURN_STATUS_CONFLICT"
                  "The turn evidence conflicts with the persisted AgentRun status." 409);;
  if _has_unknown_execution w (run_id run) d
  then save_run (unknown_outcome run);; mret RunStatus.NEEDS_ATTENTION
  else mret terminal.

Record EpisodeTurn := {
  turn_agent_run_id : option uuid;
  turn_dispatch_status : string
}.
Definition undispatched (t : EpisodeTurn) : bool :=
  bool_decide (turn_dispatch_status t ∈ ["RESERVED"; "BOUND"]%string).
(** [turn_by_run.get(run.id)]: the last turn that names the run. *)
Definition turn_by_run (turns : list EpisodeTurn) (i : uuid) : option EpisodeTurn :=
  last (filter (λ t, turn_agent_run_id t = Some i) turns).

(** An owner whose lease is over, and one whose lease still runs. *)
Definition owner_expired (now : datetime) (run : AgentRun) : bool :=
  bool_decide (run_execution_owner run ≠ None)
  && match run_execution_lease_expires_at run with Some e => e <=? now | None => true end.
Definition owner_live (now : datetime) (run : AgentRun) : bool :=
  bool_decide (run_execution_owner run ≠ None)
  && match run_execution_lease_expires_at run with Some e => now <? e | None => true end.

Definition recovery_required (now : datetime) (run : AgentRun) : AgentRun :=
  set_run_completed_at (Some (default now (run_completed_at run)))
    (set_run_execution_lease_expires_at None (set_run_execution_owner None
      (set_run_failure_code
        (or_code (run_failure_code run) "EVALUATION_INTERACTIVE_RECOVERY_REQUIRED")
        (set_run_status RunStatus.NEEDS_ATTENTION run)))).
Definition cancelled_draft (now : datetime) (run : AgentRun) : AgentRun :=
  set_run_completed_at (Some now) (set_run_execution_lease_expires_at None
    (set_run_status RunStatus.CANCELLED run)).

Definition in_thread (w thread : uuid) (run : AgentRun) : bool :=
  (run_workspace_id run =? w)%N && bool_decide (run_thread_id run = Some thread).
Definition fenced_now (now : datetime) (run : AgentRun) : bool := is_active run && owner_expired now run.
Definition safe_draft (turns : list EpisodeTurn) (d : RunStore.Db) (run : AgentRun) : bool :=
  match turn_by_run turns (run_id run) with Some t => undispatched t | None => true end
  && is_active run && bool_decide (run_execution_owner run = None)
  && negb (_has_unknown_execution (run_workspace_id run) (run_id run) d).
Definition ids_where (p : AgentRun → bool) (d : RunStore.Db) : list uuid :=
  run_id <$> filter (λ r, p r = true) (map_to_list (agent_runs d)).*2.

Definition _stabilize_preparation_runs (w thread : uuid) (turns : list EpisodeTurn)
    (now now' : datetime) : M RunStore.Db Exn unit :=
  d ← get;
  let uncertain := ids_where (λ r, in_thread w thread r && fenced_now now r) d in
  let safe := ids_where (λ r, in_thread w thread r && negb (fenced_now now r)
                              && safe_draft turns d r) d in
  update_runs (λ r, in_thread w thread r && fenced_now now r) (recovery_required now);;
  _cancel_pending_approvals w uncertain now';;
  _cancel_pending_approvals w safe now';;
  update_runs (λ r, (run_workspace_id r =? w)%N && bool_decide (run_id r ∈ safe) && is_active r
                    && bool_decide (run_execution_owner r = None)) (cancelled_draft now).

(** The locked runs of the episode include every run one of its turns names. *)
Definition _cancel_safe_drafts (w : uuid) (turns : list EpisodeTurn) (now now' : datetime) :
  M RunStore.Db Exn unit :=
  let safe_run_ids := omap turn_agent_run_id (filter (λ t, undispatched t = true) turns) in
  _cancel_pending_approvals w safe_run_ids now';;
  update_runs (λ r, (run_workspace_id r =? w)%N && bool_decide (run_id r ∈ safe_run_ids)
                    && negb (owner_live now r) && is_active r)
    (λ r, set_run_execution_owner None (cancelled_draft now r)).

