(* ===== verification/RunLifecycleTheory.v ===== *)
(** * How the row of a run may change

    [run_le] orders the rows of a run: a run that is fenced, finished or being
    cancelled is never revived, and its owner is only ever cleared while
    fencing it.  Every program that writes runs, the lease apart, respects the
    order; the tactic [rn_step] walks through such a program. *)

From stdpp Require Import base gmap list strings sorting.
From Stdlib Require Import ZArith NArith Lia.
From S2P Require Import Prelude.
From S2P Require Import Json.
From S2P Require Import JsonTheory.
From S2P Require Import RunStore.
From S2P Require Import Rbac.
From S2P Require Import Approvals.
From S2P Require Import ApprovalsTheory.
From S2P Require Import Reconciliation.
From S2P Require Import ReconciliationTheory.
From S2P Require Import TurnTranscript.
From S2P Require Import RunUsage.
From S2P Require Import RunLifecycle.
From S2P Require Import ExecutionLease.
From S2P Require Import LeaseProperties.

Local Open Scope Z_scope.

(** ** The order *)

(** Cancellation was asked for, or the run ended without an answer. *)
Definition halting (s : RunStatus.t) : bool :=
  match s with
  | RunStatus.CANCEL_REQUESTED | RunStatus.CANCELLED | RunStatus.NEEDS_ATTENTION => true
  | _ => false
  end.

Record run_le (r r' : AgentRun) : Prop := {
  le_id : run_id r' = run_id r;
  le_workspace : run_workspace_id r' = run_workspace_id r;
  le_env : env_ok r r';
  le_halting : halting (run_status r) = true → halting (run_status r') = true;
  le_attention : run_status r = RunStatus.NEEDS_ATTENTION →
                 run_status r' = RunStatus.NEEDS_ATTENTION }.

Lemma env_ok_trans r1 r2 r3 : env_ok r1 r2 → env_ok r2 r3 → env_ok r1 r3.
Proof.
  intros [C1 O1] [C2 O2]. split; [auto|]. destruct O2 as [->|?]; [|by right].
  destruct O1 as [->|[-> Hc]]; [by left|]. right. split; [done|].
  apply not_true_iff_false. intros H%C2. congruence.
Qed.

#[global] Instance run_le_preorder : PreOrder run_le.
Proof.
  split.
  - intros r. split; try done. split; [done|by left].
  - intros r1 r2 r3 [] []. split; [congruence|congruence|by eapply env_ok_trans|auto|auto].
Qed.

(** Rows that agree on the status and the owner. *)
Lemma run_le_same r r' :
  run_id r' = run_id r → run_workspace_id r' = run_workspace_id r →
  run_status r' = run_status r → run_execution_owner r' = run_execution_owner r →
  run_le r r'.
Proof. intros ? ? Hs Ho. split; rewrite ?Hs; try done. split; [by rewrite Hs|by left]. Qed.

(** A change of status only. *)
Lemma run_le_status r r' :
  run_id r' = run_id r → run_workspace_id r' = run_workspace_id r →
  run_execution_owner r' = run_execution_owner r →
  (claimable (run_status r') = true → claimable (run_status r) = true) →
  (halting (run_status r) = true → halting (run_status r') = true) →
  (run_status r = RunStatus.NEEDS_ATTENTION → run_status r' = RunStatus.NEEDS_ATTENTION) →
  run_le r r'.
Proof. intros. split; try done. split; [done|by left]. Qed.

(** ** Programs that respect it *)

Definition runs_rel (d d' : Db) : Prop :=
  ∀ i r, agent_runs d !! i = Some r → ∃ r', agent_runs d' !! i = Some r' ∧ run_le r r'.
Definition rn_at (d : Db) {A} (m : M Db Exn A) : Prop :=
  keys_ok d → ∀ out d', m d = (out, d') → runs_rel d d' ∧ keys_ok d'.
Class RunWriter {A} (m : M Db Exn A) : Prop := run_writer : ∀ d, rn_at d m.

#[global] Instance runs_rel_preorder : PreOrder runs_rel.
Proof.
  split.
  - intros d i r Hr. exists r. split; [done|reflexivity].
  - intros d1 d2 d3 H1 H2 i r Hr. destruct (H1 _ _ Hr) as (r2 & Hr2 & L1).
    destruct (H2 _ _ Hr2) as (r3 & Hr3 & L2). exists r3. split; [done|by etrans].
Qed.

Lemma runs_rel_same d d' : agent_runs d' = agent_runs d → runs_rel d d'.
Proof. intros E i r Hr. exists r. rewrite E. split; [done|reflexivity]. Qed.

(** What respects the order is a bystander of the lease. *)
#[global] Instance run_writer_fenced {A} (m : M Db Exn A) : RunWriter m → FencedWriter m.
Proof.
  intros Hm d out d' Hk E. destruct (Hm d Hk _ _ E) as [Hr Hk']. split; [done|].
  intros w i r [Hl Hw]%find_run_Some. destruct (Hr _ _ Hl) as (r' & Hl' & Hle).
  exists r'. split; [|apply Hle]. apply find_run_Some.
  rewrite (le_workspace _ _ Hle). by split.
Qed.

Section Rules.
Context {A B : Type}.

Lemma rn_pure d (m : M Db Exn A) : Pure m → rn_at d m.
Proof. intros Hp Hk r d' H. apply (pure_state m) in H as ->. split; [reflexivity|exact Hk]. Qed.

Lemma rn_bind d (m : M Db Exn A) (f : A → M Db Exn B) :
  rn_at d m → (∀ a d1, m d = (Return a, d1) → rn_at d1 (f a)) → rn_at d (m ≫= f).
Proof.
  intros Hm Hf Hk r d' H. rewrite bind_run in H. destruct (m d) as [[a|e] d1] eqn:E.
  - destruct (Hm Hk _ _ E) as [E1 K1]. destruct (Hf _ _ eq_refl K1 _ _ H) as [E2 K2].
    split; [by etrans | done].
  - injection H as <- <-. exact (Hm Hk _ _ E).
Qed.

Lemma rn_get d (f : Db → M Db Exn B) : rn_at d (f d) → rn_at d (get ≫= f).
Proof. intros Hf Hk r d' H. exact (Hf Hk _ _ H). Qed.

Lemma rn_scope d (m : M Db Exn A) : rn_at d m → rn_at d (session_scope m).
Proof.
  intros Hm Hk r d' H. unfold session_scope, atomically in H.
  destruct (m d) as [[a|e] d1] eqn:E; injection H as <- <-; [exact (Hm Hk _ _ E)|].
  split; [reflexivity | exact Hk].
Qed.

Lemma rn_catch d (m : M Db Exn A) h :
  rn_at d m → (∀ e d1, m d = (Raise e, d1) → rn_at d1 (h e)) → rn_at d (catch m h).
Proof.
  intros Hm Hh Hk r d' H. unfold catch in H. destruct (m d) as [[a|e] d1] eqn:E.
  - injection H as <- <-. exact (Hm Hk _ _ E).
  - destruct (Hm Hk _ _ E) as [E1 K1]. destruct (Hh _ _ eq_refl K1 _ _ H) as [E2 K2].
    split; [by etrans | done].
Qed.
End Rules.

(** Writing back a row that was read from these tables. *)
Lemma rn_save_run d w i r r' : find_run w i d = Some r → run_le r r' → rn_at d (save_run r').
Proof.
  intros [Hr Hw]%find_run_Some Hle Hk out d' [= <- <-].
  assert (run_id r' = i) as Hid by (rewrite (le_id _ _ Hle); by apply Hk).
  rewrite Hid. split; [|by apply save_run_keys].
  intros j x Hx. cbn. destruct (decide (j = i)) as [->|Hne].
  - rewrite lookup_insert_eq. exists r'. split; [done|]. congruence.
  - rewrite lookup_insert_ne by done. exists x. split; [done|reflexivity].
Qed.

Lemma rn_save_approval d a : rn_at d (save_approval a).
Proof.
  intros [K1 K2] out d' [= <- <-]. split; [by apply runs_rel_same|]. split; [done|].
  intros i b. cbn. rewrite lookup_insert_Some. intros [[<- <-]|[_ H]]; [done|eauto].
Qed.

Lemma rn_modify d f :
  agent_runs (f d) = agent_runs d → approvals (f d) = approvals d →
  rn_at d (modify f : M Db Exn unit).
Proof.
  intros E E' [K1 K2] out d' [= <- <-]. split; [by apply runs_rel_same|].
  split; by rewrite ?E, ?E'.
Qed.
Lemma rn_put d d1 :
  agent_runs d1 = agent_runs d → approvals d1 = approvals d →
  rn_at d (put d1 : M Db Exn unit).
Proof. apply (rn_modify d (λ _, d1)). Qed.

(** An [update] that changes neither status nor owner, or is within the order. *)
#[global] Instance rn_update_run w i p f :
  (∀ r, run_le r (f r)) → RunWriter (update_run w i p f).
Proof.
  intros Hf d. unfold update_run. apply rn_get. destruct (find_run w i d) as [r|] eqn:E.
  - destruct (p r); [|apply rn_pure; apply _].
    apply rn_bind; [by eapply rn_save_run|]. intros. apply rn_pure. apply _.
  - apply rn_pure. apply _.
Qed.

Lemma load_run_inv ctx i d r d' :
  load_run ctx i d = (Return r, d') → d' = d ∧ ∃ w, find_run w i d = Some r.
Proof.
  unfold load_run, parse_workspace. rewrite bind_run. destruct (ctx_workspace_id ctx) as [w|];
    [|done]. msimpl. mstep. destruct (find_run w i d) as [x|] eqn:E; [|done]. cbn.
  intros [= -> ->]. eauto.
Qed.
#[global] Instance pure_parse_workspace {S} c : Pure (parse_workspace c : M S Exn uuid).
Proof. unfold parse_workspace. destruct (ctx_workspace_id c); apply _. Qed.
#[global] Instance rn_load_run ctx i : RunWriter (load_run ctx i).
Proof.
  intros d. unfold load_run. apply rn_bind; [apply rn_pure; apply _|]. intros w d1 _.
  apply rn_get, rn_pure. apply _.
Qed.
Lemma rn_after_load {A} ctx i d (f : AgentRun → M Db Exn A) :
  (∀ w r, find_run w i d = Some r → rn_at d (f r)) → rn_at d (load_run ctx i ≫= f).
Proof.
  intros Hf. apply rn_bind; [apply run_writer|]. intros r d1 E.
  apply load_run_inv in E as (-> & w & Hr). by eapply Hf.
Qed.

(** Walk through a program; what is left are its writes. *)
Ltac rn_clean H :=
  lazymatch type of H with
  | raise_if _ _ _ = (Return _, _) => apply raise_if_inv in H as [H ->]
  | reraise_unless _ _ _ = (Return _, _) => apply reraise_inv in H as [H ->]
  | ?m ?d = (_, ?d1) => try (let E := fresh in
      assert (Pure m) as E by apply _; apply (pure_state m) in H; subst d1; clear E)
  end.
Ltac rn_step :=
  lazymatch goal with
  | |- RunWriter _ => intros ?
  | |- rn_at _ (get ≫= _) => apply rn_get; cbv beta
  | |- rn_at _ (load_run _ _ ≫= _) => apply rn_after_load; intros ? ? ?; cbv beta
  | |- rn_at _ (_ ≫= _) =>
      let H := fresh "H" in apply rn_bind;
      lazymatch goal with
      | |- ∀ _, _ => intros ? ? H; rn_clean H; cbv beta
      | |- _ => idtac
      end
  | |- rn_at _ (session_scope _) => apply rn_scope
  | |- rn_at _ (save_approval _) => apply rn_save_approval
  | |- rn_at _ (on_integrity_error _ _) => unfold on_integrity_error
  | |- rn_at _ (catch _ _) => apply rn_catch;
      lazymatch goal with |- ∀ _, _ => intros [] ? ? | |- _ => idtac end
  | |- rn_at _ (if ?b then _ else _) => destruct b eqn:?
  | |- rn_at _ (match ?o with _ => _ end) => destruct o eqn:?
  | |- rn_at _ _ => first [apply rn_pure; apply _ | apply run_writer]
  end.

(** ** The writers of [AgentRunService] *)

(** Split on the status; the row keeps its keys and its owner. *)
Ltac by_status r :=
  apply run_le_status; cbn; try reflexivity;
  destruct (run_status r); cbn; intros; done.

Lemma eqb_status s r : is_status s r = true ↔ run_status r = s.
Proof. apply RunStatus.eqb_eq. Qed.

Lemma mark_log_le r s r' : run_le r r' → run_le r (mark_log s r').
Proof.
  intros Hle. unfold mark_log. destruct (negb _); [|done].
  etrans; [exact Hle|]. by apply run_le_same.
Qed.

Lemma cancel_row_le claimed now r : run_le r (cancel_row claimed now r).
Proof.
  unfold cancel_row, is_any, is_status. destruct claimed; cbn [andb];
    destruct (run_status r) eqn:E; cbn [RunStatus.eqb]; try reflexivity;
    rewrite ?bool_decide_true by set_solver; rewrite ?bool_decide_false by set_solver;
    try (destruct (negb _); cbn [andb]); apply run_le_status; cbn; rewrite ?E; done.
Qed.

#[global] Instance rn_cancel_pending ctx i now : RunWriter (cancel_pending_for_run ctx i now).
Proof.
  unfold cancel_pending_for_run. repeat rn_step.
  intros [K1 K2] out d' [= <- <-]. split; [by apply runs_rel_same|]. split; [done|].
  intros j b. cbn. rewrite lookup_fmap_Some. intros (x & <- & Ha). apply K2 in Ha.
  unfold cancelled_by. destruct (_ && _); done.
Qed.

#[global] Instance rn_cancel b ctx i now now' : RunWriter (cancel b ctx i now now').
Proof.
  unfold cancel. repeat rn_step. eapply rn_save_run; [eassumption|]. apply mark_log_le, cancel_row_le.
Qed.

#[global] Instance rn_mark_waiting ctx i : RunWriter (_mark_waiting ctx i).
Proof.
  unfold _mark_waiting. repeat rn_step. eapply rn_save_run; [done|].
  match goal with H : is_status _ _ = true |- _ => apply eqb_status in H as Hs end.
  apply run_le_status; cbn; rewrite ?Hs; done.
Qed.

#[global] Instance rn_waiting_result ctx i m t u w : RunWriter (_waiting_result ctx i m t u w).
Proof.
  unfold _waiting_result. repeat rn_step. eapply rn_save_run; [eassumption|].
  unfold is_status. cbn.
  match goal with H : find_run _ _ _ = Some ?r |- _ => destruct (run_status r) eqn:E end; cbn; apply run_le_status; cbn; rewrite ?E; done.
Qed.

#[global] Instance rn_transition_resume r : RunWriter (_transition_resume_to_running r).
Proof.
  unfold _transition_resume_to_running. repeat rn_step. eapply rn_save_run; [done|].
  match goal with H : is_status _ _ = true |- _ => apply eqb_status in H as Hs end.
  apply run_le_status; cbn; rewrite ?Hs; done.
Qed.

#[global] Instance rn_fail_resume ctx i code now : RunWriter (_fail_resume_safely ctx i code now).
Proof.
  unfold _fail_resume_safely. repeat rn_step. eapply rn_save_run; [eassumption|]. by apply run_le_status.
Qed.

(** The recorded outcome of a reported end never revives the run. *)
Lemma effective_outcome_le run claim budget o :
  claimable (out_status o) = false →
  let s := out_status (effective_outcome run claim budget o) in
  claimable s = false ∧ (halting (run_status run) = true → halting s = true) ∧
  (run_status run = RunStatus.NEEDS_ATTENTION → s = RunStatus.NEEDS_ATTENTION).
Proof.
  intros Ho. unfold effective_outcome, is_any, is_status. cbn zeta.
  destruct (_ || claim); [done|]. destruct budget; [done|].
  destruct (run_status run) eqn:E;
    rewrite ?bool_decide_true by set_solver; rewrite ?bool_decide_false by set_solver;
    cbn; try done.
  destruct (_ || _); done.
Qed.

Section Complete.
Context `{Unicode} (ver : list ModelMessage → json → option json).

(** Only the two history columns may change. *)
Definition with_history (a b : option json) (r : AgentRun) : AgentRun :=
  set_run_thread_history_evidence_registry b (set_run_thread_history_transcript a r).
Lemma with_history_id r :
  r = with_history (run_thread_history_transcript r) (run_thread_history_evidence_registry r) r.
Proof. by destruct r. Qed.

Lemma record_history_inv run o tt er d out d' :
  record_history ver run o tt er d = (out, d') →
  d' = d ∧ ∀ r, out = Return r → ∃ a b, r = with_history a b run.
Proof.
  assert (Hid : ∀ r, Return run = (Return r : outcome Exn AgentRun) →
    ∃ a b, r = with_history a b run).
  { intros r [= <-]. do 2 eexists. apply with_history_id. }
  unfold record_history. destruct tt as [ms|]; [|by intros [= <- <-]].
  destruct (out_status o); try by intros [= <- <-].
  destruct (run_thread_turn_id run); [|by intros [= <- <-]].
  destruct (matching_transcript _ _ _) as [[t p]|]; [|by intros [= <- <-]].
  rewrite bind_run, raise_if_cases.
  destruct (match run_thread_history_transcript run with Some _ => _ | None => _ end);
    [by intros [= <- <-]|].
  destruct (stored_evidence _ _ _) as [ev|].
  2:{ intros [= <- <-]. split; [done|]. intros r [= <-].
      exists (Some p), (run_thread_history_evidence_registry run). by destruct run. }
  rewrite bind_run, raise_if_cases. cbn [run_thread_history_evidence_registry].
  destruct (match _ with Some _ => _ | None => _ end); [by intros [= <- <-]|].
  intros [= <- <-]. split; [done|]. intros r [= <-]. by exists (Some p), (Some ev).
Qed.

Lemma add_finish_runs run o md d out d' :
  add_finish run o md d = (out, d') → agent_runs d' = agent_runs d.
Proof. unfold add_finish. mstep. by destruct (existsb _ _); intros [= _ <-]. Qed.
Lemma add_memory_job_runs run d out d' :
  add_memory_job run d = (out, d') → agent_runs d' = agent_runs d.
Proof. unfold add_memory_job. cbn. intros [= _ <-]. by case_match. Qed.

#[global] Instance rn_add_finish run o md : RunWriter (add_finish run o md).
Proof. unfold add_finish. repeat rn_step. by apply rn_put. Qed.
#[global] Instance rn_add_memory_job run : RunWriter (add_memory_job run).
Proof. intros d. apply rn_modify; cbn zeta; by case_match. Qed.

(** Every reported outcome is an end. *)
Lemma reported_end_terminal o : reported_end o → claimable (out_status o) = false.
Proof.
  intros [| |rs code out Hrs|code]; [done..| |done]. cbn.
  repeat (apply elem_of_cons in Hrs as [->|Hrs]; [by try destruct (nonempty_code code)|]).
  by apply elem_of_nil in Hrs.
Qed.

#[global] Instance rn_complete_run ledger mw ctx i o ms tc u tt er pf now :
  reported_end o →
  RunWriter (_complete_run ver ledger mw ctx i o ms tc u tt er pf now).
Proof.
  intros Ho%reported_end_terminal. unfold _complete_run. do 4 rn_step.
  match goal with |- context [effective_outcome ?r ?c ?b o] =>
    destruct (effective_outcome_le r c b o Ho) as (Hc & Hh & Ha);
    set (e := effective_outcome r c b o) in * end.
  match goal with H : find_run _ _ _ = Some _ |- _ => rename H into Hf end.
  apply rn_bind.
  { intros Hk out d' E. apply record_history_inv in E as [-> _]. split; [reflexivity|done]. }
  intros r1 d1 E. apply record_history_inv in E as [-> Hr1].
  destruct (Hr1 r1 eq_refl) as (ha & hb & ->).
  repeat rn_step.
  match goal with
  | Hfin : match pf with Some _ => _ | None => _ end _ = (_, ?d1),
    Hjob : (if _ then _ else _) ?d1 = (_, ?d0) |- _ =>
      assert (agent_runs d0 = agent_runs d) as Hsame
  end.
  { etrans.
    - match goal with Hjob : (if ?b then _ else _) ?d1 = (_, ?d0) |- agent_runs ?d0 = _ =>
        destruct b; [exact (add_memory_job_runs _ _ _ _ Hjob)|by injection Hjob as _ <-] end.
    - destruct pf; [by eapply add_finish_runs|by match goal with H : mret _ _ = _ |- _ =>
        injection H as _ <- end]. }
  eapply (rn_save_run _ w i r); [unfold find_run in *; by rewrite Hsame|].
  apply run_le_status; destruct u; try destruct (_ =? 0); cbn; try done;
    rewrite Hc; done.
Qed.
End Complete.

(** ** The approval service and reconciliation *)

#[global] Instance rn_append_audit e : RunWriter (append_audit e).
Proof. unfold append_audit. repeat rn_step. by apply rn_modify. Qed.

#[global] Instance rn_set_resume_pending w i : RunWriter (set_resume_pending w i).
Proof. apply rn_update_run. intros r. by apply run_le_same. Qed.

#[global] Instance rn_decide ctx i dec reason now :
  RunWriter (decide_approval ctx i dec reason now).
Proof. unfold decide_approval. repeat rn_step. Qed.

#[global] Instance rn_claim ctx i now : RunWriter (claim_execution ctx i now).
Proof. unfold claim_execution. repeat rn_step. Qed.

#[global] Instance rn_complete_execution ctx i st res f m now :
  RunWriter (complete_execution ctx i st res f m now).
Proof. unfold complete_execution. repeat rn_step. Qed.

Lemma fence_expired_owner_le r : run_le r (fence_expired_owner r).
Proof.
  unfold fence_expired_owner. destruct (truthy _); [|reflexivity].
  split; try done. split; [done|]. by right.
Qed.
Lemma fail_with_le code r : run_le r (fail_with code r).
Proof. by apply run_le_status. Qed.
Lemma park_running_le p c r : run_le r (park_running p c r).
Proof.
  unfold park_running. destruct (is_status _ r) eqn:E; [|reflexivity]. cbn [andb].
  destruct (negb (bool_decide _)); [|reflexivity]. destruct (negb c); [apply fail_with_le|].
  apply eqb_status in E. apply run_le_status; cbn; rewrite ?E; done.
Qed.
Lemma flag_zombie_le s c r : run_le r (flag_zombie s c r).
Proof. unfold flag_zombie. destruct (_ && _); [apply fail_with_le|reflexivity]. Qed.
Lemma flag_unparked_le c r : run_le r (flag_unparked c r).
Proof. unfold flag_unparked. destruct (_ && _); [apply fail_with_le|reflexivity]. Qed.
Lemma finish_cancel_le l r : run_le r (finish_cancel l r).
Proof.
  unfold finish_cancel. destruct (is_status _ r) eqn:E; [|reflexivity]. cbn [andb].
  destruct (existsb _ _); [apply fail_with_le|].
  apply eqb_status in E. apply run_le_status; cbn; rewrite ?E; done.
Qed.
Lemma mark_resume_le p c l r : run_le r (mark_resume p c l r).
Proof. unfold mark_resume. destruct (_ && _); [by apply run_le_same|reflexivity]. Qed.
Lemma complete_terminal_le now r : run_le r (complete_terminal now r).
Proof. unfold complete_terminal. destruct (_ && _); [by apply run_le_same|reflexivity]. Qed.
#[export] Hint Resolve fence_expired_owner_le park_running_le flag_zombie_le flag_unparked_le
  finish_cancel_le mark_resume_le complete_terminal_le mark_log_le : agenthub.

Lemma transition_le run pending c l stale now :
  run_le run (_apply_reconciliation_transition run pending c l stale now).1.
Proof.
  unfold _apply_reconciliation_transition. destruct (live_owner run now); [reflexivity|].
  cbn zeta. destruct ((stale || _) && _); cbn [fst].
  - etrans; [apply fence_expired_owner_le|]. by apply run_le_status.
  - apply mark_log_le. repeat (etrans; [|solve [auto with agenthub]]). reflexivity.
Qed.

Lemma reconcile_rows_le run l c now now' : run_le run (reconcile_rows run l c now now').1.1.
Proof. unfold reconcile_rows. cbn. etrans; [apply transition_le|auto with agenthub]. Qed.

Lemma rn_reconcile_locked d w i r before run ck now now' :
  find_run w i d = Some r → run_le r run → rn_at d (reconcile_locked before run ck now now').
Proof.
  intros Hf Hle Hk out d' E.
  destruct (evolving_run quiet _ _ _ _ E Hk _) as [_ Hk'].
  destruct (reconcile_locked_run before run ck now now' d) as (d1 & Hrun & Hr & _).
  rewrite Hrun in E. injection E as _ <-. split; [|done].
  apply find_run_Some in Hf as [Hl _]. pose proof (proj1 Hk _ _ Hl) as Hid.
  intros j x Hx. rewrite Hr. rewrite (le_id _ _ Hle), Hid.
  destruct (decide (j = i)) as [->|Hne].
  - rewrite lookup_insert_eq. eexists. split; [done|]. replace x with r by congruence.
    etrans; [exact Hle|]. apply reconcile_rows_le.
  - rewrite lookup_insert_ne by done. exists x. split; [done|reflexivity].
Qed.

Section Reconcile.
Context (checkpoint_probe : option (uuid → uuid → outcome Exn bool)).
Context (resume_dispatch : option (AgentRun → Approval → bool)).

#[global] Instance rn_reconcile_run ctx i ck now now' :
  RunWriter (reconcile_run checkpoint_probe ctx i ck now now').
Proof.
  unfold reconcile_run. repeat rn_step. eapply rn_reconcile_locked; [eassumption|reflexivity].
Qed.

#[global] Instance rn_reconcile_candidate p clock c r :
  RunWriter (reconcile_candidate resume_dispatch p clock c r).
Proof.
  unfold reconcile_candidate. repeat rn_step.
  eapply rn_reconcile_locked; [eassumption|by apply run_le_same].
Qed.

#[global] Instance rn_reconcile_each p clock l r :
  RunWriter (reconcile_each resume_dispatch p clock l r).
Proof. revert r. induction l as [|c l IH]; intros r; cbn; repeat rn_step. Qed.

Lemma rn_touch d clock0 l :
  (∀ r, r ∈ l → agent_runs d !! run_id r = Some r) → rn_at d (touch clock0 l).
Proof.
  intros Hl Hk out d' E. destruct (evolving_run quiet _ _ _ _ E Hk _) as [_ Hk'].
  injection E as _ <-. split; [|done]. intros i r Hr. cbn.
  clear Hk'. induction l as [|x l IH]; [exists r; split; [done|reflexivity]|]. cbn.
  destruct (decide (i = run_id x)) as [->|Hne].
  - rewrite lookup_insert_eq. eexists. split; [done|].
    assert (x = r) as -> by (rewrite (Hl x) in Hr by left; congruence). by apply run_le_same.
  - rewrite lookup_insert_ne by done. apply IH. intros y Hy. apply Hl. by right.
Qed.

#[global] Instance rn_reconcile_candidates n s now clock0 clock locked :
  RunWriter (reconcile_candidates checkpoint_probe resume_dispatch n s now clock0 clock locked).
Proof.
  intros d. unfold reconcile_candidates. destruct checkpoint_probe as [p|];
    [|apply rn_pure; apply _].
  apply rn_get. cbn zeta. apply rn_bind; [|intros; apply run_writer].
  intros Hk. refine (rn_touch d clock0 _ _ Hk). intros r Hr.
  unfold select_candidates in Hr. apply elem_of_take in Hr as (k & Hr & _).
  apply list_elem_of_lookup_2, list_elem_of_filter in Hr as [_ Hr].
  rewrite merge_sort_Permutation in Hr.
  apply list_elem_of_filter in Hr as [_ ([j x] & -> & Hin)%list_elem_of_fmap].
  apply elem_of_map_to_list in Hin. cbn. by rewrite (proj1 Hk _ _ Hin).
Qed.
End Reconcile.

#[global] Instance rn_insert_approval fks a : RunWriter (insert_approval fks a).
Proof. unfold insert_approval. repeat rn_step. Qed.

#[global] Instance rn_create_or_get `{Digests} `{SchemaValidator} ttl ctx run ver rev ident args
    schema ord exp i now created fks :
  RunWriter (create_or_get ttl ctx run ver rev ident args schema ord exp i now created fks id).
Proof. unfold create_or_get. repeat rn_step. Qed.

(** ** The other writers *)

#[global] Instance rn_withdraw w runs now : RunWriter (_cancel_pending_approvals w runs now).
Proof.
  intros d. unfold _cancel_pending_approvals. destruct runs; [apply rn_pure; apply _|].
  intros [K1 K2] out d' [= <- <-]. split; [by apply runs_rel_same|]. split; [done|].
  intros j b. cbn. rewrite lookup_fmap_Some. intros (x & <- & Ha). apply K2 in Ha.
  unfold withdrawn_by. destruct (_ && _); done.
Qed.

#[global] Instance rn_update_runs p f :
  (∀ r, p r = true → run_le r (f r)) → RunWriter (update_runs p f).
Proof.
  intros Hf d [K1 K2] out d' [= <- <-].
  assert (Hle : ∀ r, run_le r (if p r then f r else r))
    by (intros r; destruct (p r) eqn:E; [by apply Hf|reflexivity]).
  split; [|split; [|done]].
  - intros i r Hr. cbn. exists (if p r then f r else r). by rewrite lookup_fmap, Hr.
  - intros i r. cbn. rewrite lookup_fmap_Some. intros (x & <- & Hx).
    rewrite (le_id _ _ (Hle x)). by apply K1.
Qed.

(** A row no table entry had before. *)
Lemma rn_save_new d r : agent_runs d !! run_id r = None → rn_at d (save_run r).
Proof.
  intros Hn Hk out d' [= <- <-]. split; [|by apply save_run_keys].
  intros i x Hx. cbn. exists x. split; [|reflexivity]. rewrite lookup_insert_ne; congruence.
Qed.

#[global] Instance rn_insert_run turn run : RunWriter (insert_run turn run).
Proof.
  unfold insert_run. do 4 rn_step; [rn_step|].
  apply bool_decide_eq_false, dec_stable in H.
  destruct (run_thread_turn_id run) as [t|]; [destruct (head _)|]; repeat rn_step;
    by apply rn_save_new.
Qed.

(** Ending a run that is not being cancelled, or is. *)
Lemma ends_le r r' :
  run_id r' = run_id r → run_workspace_id r' = run_workspace_id r →
  run_execution_owner r' = run_execution_owner r ∨ run_execution_owner r' = None →
  (run_status r' = RunStatus.NEEDS_ATTENTION ∨
   run_status r' = RunStatus.CANCELLED ∧ claimable (run_status r) = true) →
  run_le r r'.
Proof.
  intros Hi Hw Ho Hs. assert (claimable (run_status r') = false) as Hc
    by (by destruct Hs as [->|[-> _]]).
  split; try done.
  - split; [by rewrite Hc|]. destruct Ho as [?|?]; [by left|by right].
  - by destruct Hs as [->|[-> _]].
  - intros E. destruct Hs as [->|[-> Hcl]]; [done|]. by rewrite E in Hcl.
Qed.

Lemma access_revoked_le now r : run_le r (access_revoked now r).
Proof. apply ends_le; cbn; auto. Qed.

Lemma rn_authorize d a now r : find_run (run_workspace_id r) (run_id r) d = Some r →
  rn_at d (authorize a now r).
Proof.
  intros Hr. unfold authorize, _mark_run_access_revoked. destruct a as [[c|]|e]; repeat rn_step.
  eapply rn_save_run; [exact Hr|apply access_revoked_le].
Qed.

Lemma found_self d i r : keys_ok d → agent_runs d !! i = Some r →
  find_run (run_workspace_id r) (run_id r) d = Some r.
Proof. intros [K _] Hr. apply find_run_Some. by rewrite (K _ _ Hr). Qed.

#[global] Instance rn_resume_task a i now : RunWriter (_resume_agent_run a i now).
Proof.
  unfold _resume_agent_run. rn_step. apply rn_scope, rn_get.
  destruct (agent_runs d !! i) as [r|] eqn:E; [|apply rn_pure; apply _].
  intros Hk. destruct (is_status _ r); [|exact (rn_pure d _ _ Hk)].
  exact (rn_authorize d a now r (found_self d i r Hk E) Hk).
Qed.

#[global] Instance rn_execute_task a w i now : RunWriter (_execute_agent_run a w i now).
Proof.
  unfold _execute_agent_run. rn_step. apply rn_scope, rn_get.
  destruct (find_run w i d) as [r|] eqn:E; [|apply rn_pure; apply _].
  destruct (is_status RunStatus.CANCEL_REQUESTED r) eqn:Es; repeat rn_step.
  - eapply rn_save_run; [exact E|]. apply eqb_status in Es.
    apply ends_le; cbn; auto. rewrite Es. by destruct (existsb _ _); [left|right].
  - intros Hk. pose proof (proj1 (find_run_Some _ _ _ _) E) as [Hl _].
    exact (rn_authorize d a now r (found_self d i r Hk Hl) Hk).
Qed.

Lemma active_claimable r : is_active r = true → claimable (run_status r) = true.
Proof.
  unfold is_active, is_any. intros H%bool_decide_eq_true.
  repeat (apply elem_of_cons in H as [->|H]; [done|]). by apply elem_of_nil in H.
Qed.

#[global] Instance rn_record_turn w i s : RunWriter (record_turn_run w i s).
Proof.
  unfold record_turn_run. rn_step. apply rn_get. apply rn_bind; [apply rn_pure; apply _|].
  intros r d1 [Hr ->]%reraise_inv. repeat rn_step.
  eapply rn_save_run; [exact Hr|]. apply ends_le; cbn; auto.
Qed.

#[global] Instance rn_stabilize w t turns now now' :
  RunWriter (_stabilize_preparation_runs w t turns now now').
Proof.
  unfold _stabilize_preparation_runs. rn_step. apply rn_get. cbn zeta.
  repeat first [apply rn_bind; [|intros ? ? _]|apply run_writer]; apply rn_update_runs;
    intros r Hr; breflect; apply ends_le; cbn; auto using active_claimable.
Qed.

#[global] Instance rn_drafts w turns now now' : RunWriter (_cancel_safe_drafts w turns now now').
Proof.
  unfold _cancel_safe_drafts. rn_step. cbn zeta. apply rn_bind; [apply run_writer|intros ? ? _].
  apply rn_update_runs. intros r Hr. breflect. apply ends_le; cbn; auto using active_claimable.
Qed.
