(* ===== verification/EventStore.v ===== *)
(** * The durable event stream of a run

    Model of [packages/agent_runtime/events.py] (the validated envelope and the
    sequencer) and [packages/agent_runtime/event_store.py] (recording, replay
    and the completeness mark).

    [validate_summary] and [validate_evidence] of [tools/projections.py] parse
    JSON text; they are parameters here.  A payload stored as [jsonb] reads
    back as the same value.  A transaction may fail before or after its commit
    took effect, as in [ExecutionLease]; a row the columns cannot hold is a
    failure before. *)

From stdpp Require Import base gmap list strings sorting.
From Stdlib Require Import ZArith NArith Lia.
From S2P Require Import Prelude.
From S2P Require Import Json.
From S2P Require Import RunStore.
From S2P Require Import ExecutionLease.

Local Open Scope Z_scope.

(** ** events.py *)

(** [AgentEventType] *)
Inductive AgentEventType :=
  | RUN_STARTED | MESSAGE_STARTED | CONTEXT_BUDGET | MESSAGE_DELTA | MESSAGE_COMPLETED
  | RETRIEVAL_STARTED | RETRIEVAL_COMPLETED | RERANK_COMPLETED | TOOL_REQUESTED | TOOL_STARTED
  | TOOL_COMPLETED | TOOL_FAILED | APPROVAL_REQUIRED | APPROVAL_RESOLVED
  | RUN_CANCEL_REQUESTED | USAGE | RUN_COMPLETED | RUN_FAILED | RUN_CANCELLED.
#[global] Instance AgentEventType_eq_dec : EqDecision AgentEventType.
Proof. solve_decision. Defined.

Definition event_type_value (t : AgentEventType) : string :=
  match t with
  | RUN_STARTED => "run.started"
  | MESSAGE_STARTED => "message.started"
  | CONTEXT_BUDGET => "context.budget"
  | MESSAGE_DELTA => "message.delta"
  | MESSAGE_COMPLETED => "message.completed"
  | RETRIEVAL_STARTED => "retrieval.started"
  | RETRIEVAL_COMPLETED => "retrieval.completed"
  | RERANK_COMPLETED => "rerank.completed"
  | TOOL_REQUESTED => "tool.requested"
  | TOOL_STARTED => "tool.started"
  | TOOL_COMPLETED => "tool.completed"
  | TOOL_FAILED => "tool.failed"
  | APPROVAL_REQUIRED => "approval.required"
  | APPROVAL_RESOLVED => "approval.resolved"
  | RUN_CANCEL_REQUESTED => "run.cancel_requested"
  | USAGE => "usage"
  | RUN_COMPLETED => "run.completed"
  | RUN_FAILED => "run.failed"
  | RUN_CANCELLED => "run.cancelled"
  end.
Definition event_types : list AgentEventType :=
  [RUN_STARTED; MESSAGE_STARTED; CONTEXT_BUDGET; MESSAGE_DELTA; MESSAGE_COMPLETED;
    RETRIEVAL_STARTED; RETRIEVAL_COMPLETED; RERANK_COMPLETED; TOOL_REQUESTED; TOOL_STARTED;
    TOOL_COMPLETED; TOOL_FAILED; APPROVAL_REQUIRED; APPROVAL_RESOLVED; RUN_CANCEL_REQUESTED;
    USAGE; RUN_COMPLETED; RUN_FAILED; RUN_CANCELLED].

Definition _ALLOWED_FIELDS (t : AgentEventType) : list string :=
  match t with
  | RUN_STARTED => ["status"; "model_step_count"; "tool_call_count"]
  | MESSAGE_STARTED => ["model_round"]
  | CONTEXT_BUDGET => ["model_round"; "context_limit"; "reserved_output";
        "estimated_input_before"; "estimated_input_after"; "truncated";
        "dropped_exchange_count"; "window_utilization"; "context_policy_version";
        "available_input"; "model_available_input"; "workspace_input_limit";
        "context_limit_status"; "counter_precision"; "window_utilization_basis";
        "soft_trigger_tokens"; "hard_trigger_tokens"; "target_tokens"]
  | MESSAGE_DELTA => ["delta"]
  | MESSAGE_COMPLETED => ["model_round"; "status"]
  | RETRIEVAL_STARTED => []
  | RETRIEVAL_COMPLETED => ["duration_ms"; "result_count"]
  | RERANK_COMPLETED => ["duration_ms"; "result_count"]
  | TOOL_REQUESTED => ["tool_call_id"; "tool_identity"; "arguments_summary"]
  | TOOL_STARTED => ["tool_call_id"; "tool_identity"]
  | TOOL_COMPLETED => ["tool_call_id"; "tool_identity"; "status"; "error_code"; "duration_ms";
        "evidence_refs"]
  | TOOL_FAILED => ["tool_call_id"; "tool_identity"; "error_code"; "duration_ms"]
  | APPROVAL_REQUIRED => ["approval_id"; "logical_action_id"; "tool_identity"; "risk_level";
        "decision_status"; "execution_status"]
  | APPROVAL_RESOLVED => ["approval_id"; "decision_status"; "execution_status"; "failure_code"]
  | RUN_CANCEL_REQUESTED => ["status"]
  | USAGE => ["input_tokens"; "output_tokens"; "total_tokens"; "cached_tokens"]
  | RUN_COMPLETED => ["status"; "model_step_count"; "tool_call_count"; "output"]
  | RUN_FAILED => ["status"; "failure_code"; "model_step_count"; "tool_call_count"]
  | RUN_CANCELLED => ["status"; "model_step_count"; "tool_call_count"]
  end%string.

Definition _NUMERIC_FIELDS : list string :=
  ["window_utilization"; "available_input"; "model_available_input"; "workspace_input_limit";
    "soft_trigger_tokens"; "hard_trigger_tokens"; "target_tokens"; "model_round";
    "context_limit"; "reserved_output"; "estimated_input_before"; "estimated_input_after";
    "dropped_exchange_count"; "model_step_count"; "tool_call_count"; "input_tokens";
    "output_tokens"; "total_tokens"; "cached_tokens"; "duration_ms"; "result_count"]%string.

(** The two text validators of [tools/projections.py]: do they accept? *)
Class SafeTexts := {
  validate_summary : list N → bool;
  validate_evidence : list N → bool
}.

Record AgentEvent := {
  event_id : list N;
  request_id : list N;
  step_id : option (list N);
  sequence : Z;
  type : AgentEventType;
  event_run_id : uuid;
  event_version_id : uuid;
  timestamp : datetime;
  payload : list (list N * json)
}.

(** [key in names], for the source's literal names. *)
Definition key_in (names : list string) (k : list N) : bool :=
  bool_decide (k ∈ lit <$> names).

Section Events.
Context `{SafeTexts}.

Definition field_ok (key : list N) (value : json) : bool :=
  (if key_in ["arguments_summary"]%string key
   then match value with JStr s => validate_summary s | _ => false end else true)
  && (if key_in ["evidence_refs"]%string key
      then match value with JStr s => validate_evidence s | _ => false end else true)
  && (if key_in _NUMERIC_FIELDS key
      then match value with JInt _ | JFloat _ => true | _ => false end
      else if key_in ["truncated"]%string key
      then match value with JBool _ => true | _ => false end
      else match value with JNull | JStr _ => true | _ => false end).

(** [None] is the [ValueError] of an unsafe field. *)
Definition _validated_data (event_type : AgentEventType) (data : list (list N * json)) :
  option (list (list N * json)) :=
  if forallb (λ kv, key_in (_ALLOWED_FIELDS event_type) kv.1 && field_ok kv.1 kv.2) data
  then Some data else None.

(** [AgentEvent(...)]; [fresh] is the identifier drawn when none is given. *)
Definition new_event (seq : Z) (ty : AgentEventType) (request : list N) (run version : uuid)
    (step : option (list N)) (eid : option (list N)) (fresh : list N) (at_ : datetime)
    (data : list (list N * json)) : option AgentEvent :=
  if seq <? 1 then None else
  if bool_decide (request = []) then None else
  p ← _validated_data ty data;
  Some {| event_id := match eid with Some (c :: s) => c :: s | _ => fresh end;
          request_id := request; step_id := step; sequence := seq; type := ty;
          event_run_id := run; event_version_id := version; timestamp := at_; payload := p |}.

(** [AgentEventEmitter]: the counter moves even when the event is refused. *)
Record Emitter := {
  em_run : uuid;
  em_version : uuid;
  em_request : list N;
  em_sequence : Z
}.
Definition emit (ty : AgentEventType) (data : list (list N * json)) (fresh : list N)
    (at_ : datetime) (e : Emitter) : option AgentEvent * Emitter :=
  let e' := {| em_run := em_run e; em_version := em_version e; em_request := em_request e;
               em_sequence := em_sequence e + 1 |} in
  (new_event (em_sequence e') ty (em_request e) (em_run e) (em_version e) None None fresh at_ data,
   e').

(** ** event_store.py *)

Definition should_persist (e : AgentEvent) : bool := negb (bool_decide (type e = MESSAGE_DELTA)).

Section Recorder.
Context (w i : uuid).

Definition _row_values (id : uuid) (e : AgentEvent) : AgentRunEvent :=
  {| ev_id := id; ev_workspace_id := w; ev_agent_run_id := i; ev_sequence := sequence e;
     ev_event_id := event_id e; ev_event_type := event_type_value (type e);
     ev_request_id := request_id e; ev_step_id := step_id e; ev_payload := JObj (payload e);
     ev_occurred_at := timestamp e |}.

(** The unique key of the stream, and the primary key. *)
Definition clashes (a b : AgentRunEvent) : bool :=
  bool_decide ((ev_workspace_id a, ev_agent_run_id a, ev_sequence a)
               = (ev_workspace_id b, ev_agent_run_id b, ev_sequence b))
  || bool_decide (ev_id a = ev_id b).

(** [insert(AgentRunEvent).on_conflict_do_nothing().returning(...)], row by row:
    the number of rows inserted. *)
Fixpoint insert_rows (rows : list AgentRunEvent) (log : list AgentRunEvent) :
  list AgentRunEvent * nat :=
  match rows with
  | [] => (log, O)
  | r :: rows =>
      if existsb (clashes r) log then insert_rows rows log
      else let out := insert_rows rows (log ++ [r]) in (out.1, S out.2)
  end.

(** [existing.get(sequence)] among the rows of this run. *)
Definition at_seq (s : Z) (r : AgentRunEvent) : bool :=
  bool_decide (ev_workspace_id r = w) && bool_decide (ev_agent_run_id r = i)
  && bool_decide (ev_sequence r = s).
Definition stored_id (s : Z) (log : list AgentRunEvent) : option (list N) :=
  ev_event_id <$> find (at_seq s) log.

(** [ids] are the primary keys drawn by [uuid4], one per position. *)
Definition insert_batch (ids : nat → uuid) (batch : list AgentEvent) : M Db Exn unit :=
  d ← get;
  raise_if (bool_decide (find_run w i d = None))
    (IntegrityError "fk_agent_run_events_agent_run_workspace");;
  let rows := imap (λ k, _row_values (ids k)) batch in
  let out := insert_rows rows (agent_run_events d) in
  put (set_agent_run_events out.1 d);;
  if bool_decide (out.2 = length rows) then mret tt
  else raise_if (existsb (λ e, negb (bool_decide (stored_id (sequence e) out.1
                                                 = Some (event_id e)))) batch)
         EventSequenceConflict.

(** The recorder: its failure flag, its queue and whether a writer runs. *)
Record Recorder := { rec_failed : bool; rec_queue : list (option AgentEvent); rec_writer : bool }.
Record World := { db : Db; recorder : Recorder }.

Definition _QUEUE_MAXSIZE : nat := 2048.

Definition set_failed (r : Recorder) : Recorder :=
  {| rec_failed := true; rec_queue := rec_queue r; rec_writer := rec_writer r |}.
Definition set_queue (q : list (option AgentEvent)) (r : Recorder) : Recorder :=
  {| rec_failed := rec_failed r; rec_queue := q; rec_writer := rec_writer r |}.
Definition on_recorder (f : Recorder → Recorder) : M World Exn unit :=
  modify (λ s, {| db := db s; recorder := f (recorder s) |}).

(** A session inside the recorder. *)
Definition in_session {A} (m : M Db Exn A) : M World Exn A := λ s,
  let '(r, d') := m (db s) in (r, {| db := d'; recorder := recorder s |}).

Definition AGENT_EVENT_LOG_UNAVAILABLE : Exn :=
  AgentHubError "AGENT_EVENT_LOG_UNAVAILABLE" "The run event could not be durably recorded." 503.

Definition _flush (ids : nat → uuid) (batch : list AgentEvent) (strict : bool) (f : db_fault) :
  M World Exn unit :=
  match batch with
  | [] => mret tt
  | _ =>
      catch (in_session (transact f (session_scope (insert_batch ids batch))))
        (λ error, on_recorder set_failed;;
                  if strict
                  then match error with
                       | EventSequenceConflict => raise EventSequenceConflict
                       | _ => raise AGENT_EVENT_LOG_UNAVAILABLE
                       end
                  else mret tt)
  end.

Definition arecord (id : uuid) (e : AgentEvent) (f : db_fault) : M World Exn unit :=
  if negb (should_persist e) then mret tt
  else catch (_flush (λ _, id) [e] true f) (λ error, on_recorder set_failed;; raise error).

Definition start : M World Exn unit :=
  on_recorder (λ r, {| rec_failed := rec_failed r; rec_queue := rec_queue r; rec_writer := true |}).

(** [put_nowait] *)
Definition put_nowait (x : option AgentEvent) (r : Recorder) : option Recorder :=
  if (_QUEUE_MAXSIZE <=? length (rec_queue r))%nat then None
  else Some (set_queue (rec_queue r ++ [x]) r).

Definition record (e : AgentEvent) : M World Exn unit :=
  on_recorder (λ r,
    if negb (rec_writer r) || negb (should_persist e) then r
    else match put_nowait (Some e) r with Some r' => r' | None => set_failed r end).

(** One round of [_drain] on the queue: the events already queued, up to the
    sentinel; does the writer stop? *)
Fixpoint take_batch (q : list (option AgentEvent)) :
  list AgentEvent * list (option AgentEvent) * bool :=
  match q with
  | [] => ([], [], false)
  | None :: q => ([], q, true)
  | Some e :: q => let out := take_batch q in (e :: out.1.1, out.1.2, out.2)
  end.

Definition drain_round (ids : nat → uuid) (f : db_fault) : M World Exn bool :=
  s ← get;
  let out := take_batch (rec_queue (recorder s)) in
  on_recorder (set_queue out.1.2);;
  _flush ids out.1.1 false f;;
  mret out.2.

(** The event the log ends with, as [latest_type]. *)
Definition seq_ge (a b : AgentRunEvent) : Prop := ev_sequence b <= ev_sequence a.
#[global] Instance seq_ge_dec : RelDecision seq_ge := λ a b, decide (ev_sequence b <= ev_sequence a).
Definition of_run (r : AgentRunEvent) : Prop := ev_workspace_id r = w ∧ ev_agent_run_id r = i.
Definition latest_type (d : Db) : option string :=
  ev_event_type <$> head (merge_sort seq_ge (filter of_run (agent_run_events d))).

Definition completed_segment (s : RunStatus.t) (latest : option string) : bool :=
  let ends x := bool_decide (latest = Some x) in
  match s with
  | RunStatus.WAITING_APPROVAL => ends "approval.required"%string
  | RunStatus.SUCCEEDED => ends "run.completed"%string
  | RunStatus.CANCELLED => ends "run.cancelled"%string
  | RunStatus.FAILED | RunStatus.NEEDS_ATTENTION => ends "run.failed"%string
  | _ => false
  end.

Definition mark_query (failed : bool) : M Db Exn Z :=
  d ← get;
  update_run w i
    (λ r, failed || negb (run_event_log_failed r)
                    && completed_segment (run_status r) (latest_type d))
    (λ r, if failed then set_run_event_log_failed true (set_run_event_log_complete false r)
          else set_run_event_log_complete true r).

Definition _mark_completeness (f : db_fault) : M World Exn unit :=
  s ← get;
  catch (in_session (transact f (session_scope (mark_query (rec_failed (recorder s)))));; mret tt)
    (λ _, on_recorder set_failed).

(** The rounds the writer finishes before the ten seconds of [aclose] are over,
    each with the row ids it draws and the fate of its transaction: is it done? *)
Fixpoint run_writer (rounds : list ((nat → uuid) * db_fault)) : M World Exn bool :=
  match rounds with
  | [] => mret false
  | (ids, f) :: rounds =>
      stop ← drain_round ids f;
      if stop : bool then mret true else run_writer rounds
  end.

(** A full queue has no room for the sentinel, so the writer is then cancelled. *)
Definition aclose (rounds : list ((nat → uuid) * db_fault)) (f : db_fault) : M World Exn unit :=
  s ← get;
  if negb (rec_writer (recorder s)) then _mark_completeness f
  else
    on_recorder (λ r,
      let r := {| rec_failed := rec_failed r; rec_queue := rec_queue r; rec_writer := false |} in
      default r (put_nowait None r));;
    is_done ← run_writer rounds;
    (if is_done : bool then mret tt else on_recorder set_failed);;
    _mark_completeness f.
End Recorder.

(** ** Replay *)

Definition latest_sequence (w i : uuid) (d : Db) : Z :=
  foldr Z.max 0 (ev_sequence <$> filter (of_run w i) (agent_run_events d)).

Definition agent_version_id (w i : uuid) (d : Db) : option uuid :=
  run_agent_version_id <$> find_run w i d.

(** [AgentEventType(value)] *)
Definition parse_type (s : string) : option AgentEventType :=
  find (λ t, bool_decide (event_type_value t = s)) event_types.

(** [None] is the [ValueError] of a row that does not rebuild. *)
Definition _event_from_row (version : uuid) (fresh : list N) (r : AgentRunEvent) :
  option AgentEvent :=
  ty ← parse_type (ev_event_type r);
  new_event (ev_sequence r) ty (ev_request_id r) (ev_agent_run_id r) version (ev_step_id r)
    (Some (ev_event_id r)) fresh (ev_occurred_at r)
    match ev_payload r with JObj l => l | _ => [] end.

Definition seq_le (a b : AgentRunEvent) : Prop := ev_sequence a <= ev_sequence b.
#[global] Instance seq_le_dec : RelDecision seq_le := λ a b, decide (ev_sequence a <= ev_sequence b).

Definition read_after (w i : uuid) (version : uuid) (fresh : list N) (after : Z) (limit : nat)
    (d : Db) : option (list AgentEvent) :=
  mapM (_event_from_row version fresh)
    (take limit (merge_sort seq_le
      (filter (λ r, of_run w i r ∧ after < ev_sequence r) (agent_run_events d)))).
End Events.
