(* ===== verification/RunLifecycleProperties.v ===== *)
(** * The life of a run under every writer

    [service_call] is one transaction of anybody who writes runs; [system]
    interleaves them with the workers of the lease.  The promise [FencedWriter]
    that the lease asks of bystanders is discharged for each of them. *)

From stdpp Require Import base gmap list strings relations.
From Stdlib Require Import ZArith NArith Lia.
From S2P Require Import Prelude.
From S2P Require Import Json.
From S2P Require Import JsonTheory.
From S2P Require Import RunStore.
From S2P Require Import Rbac.
From S2P Require Import Approvals.
From S2P Require Import ApprovalsTheory.
From S2P Require Import Reconciliation.
From S2P Require Import ReconciliationTheory.
From S2P Require Import TurnTranscript.
From S2P Require Import RunUsage.
From S2P Require Import RunLifecycle.
From S2P Require Import ExecutionLease.
From S2P Require Import LeaseProperties.
From S2P Require Import RunLifecycleTheory.
From S2P Require Import EventStore.

Local Open Scope Z_scope.

Section System.
Context `{HU : Unicode} `{HD : Digests} `{HS : SchemaValidator}.
Context (ver : list ModelMessage → json → option json).

(** The columns the lease and the status machine do not read: what other
    transactions may change in the runs (the frozen snapshots the graph stores,
    the thread a deletion clears), or nothing at all. *)
Definition other_columns (d d' : Db) : Prop :=
  ∀ i r, agent_runs d !! i = Some r → ∃ r', agent_runs d' !! i = Some r' ∧
    run_id r' = run_id r ∧ run_workspace_id r' = run_workspace_id r ∧
    run_status r' = run_status r ∧ run_execution_owner r' = run_execution_owner r.

(** One call of the services, of the worker tasks or of the evaluations, with
    its arguments and its answer: every write of the run table outside the
    lease, and any transaction on other tables and columns. *)
Inductive service_call (d d' : Db) : Prop :=
| call_cancel b ctx i now now' r : cancel b ctx i now now' d = (r, d') → service_call d d'
| call_mark_waiting ctx i r : _mark_waiting ctx i d = (r, d') → service_call d d'
| call_waiting ctx i m t u w r : _waiting_result ctx i m t u w d = (r, d') → service_call d d'
| call_to_running run r : _transition_resume_to_running run d = (r, d') → service_call d d'
| call_fail_resume ctx i code now r :
    _fail_resume_safely ctx i code now d = (r, d') → service_call d d'
| call_complete ledger mw ctx i o m t u tr er pf now r :
    reported_end o →
    _complete_run ver ledger mw ctx i o m t u tr er pf now d = (r, d') → service_call d d'
| call_insert turn run r : insert_run turn run d = (r, d') → service_call d d'
| call_resume_task a i now r : _resume_agent_run a i now d = (r, d') → service_call d d'
| call_execute_task a w i now r : _execute_agent_run a w i now d = (r, d') → service_call d d'
| call_record_turn w i s r : record_turn_run w i s d = (r, d') → service_call d d'
| call_stabilize w t turns now now' r :
    _stabilize_preparation_runs w t turns now now' d = (r, d') → service_call d d'
| call_drafts w turns now now' r :
    _cancel_safe_drafts w turns now now' d = (r, d') → service_call d d'
| call_withdraw w runs now r :
    _cancel_pending_approvals w runs now d = (r, d') → service_call d d'
| call_mark_log w i failed r : mark_query w i failed d = (r, d') → service_call d d'
| call_elsewhere : other_columns d d' → keys_ok d' → service_call d d'
| call_create ttl ctx run vid rev ident args schema ord exp i now created fks r :
    create_or_get ttl ctx run vid rev ident args schema ord exp i now created fks id d = (r, d') →
    service_call d d'
| call_decide ctx i dec reason now r :
    decide_approval ctx i dec reason now d = (r, d') → service_call d d'
| call_claim ctx i now r : claim_execution ctx i now d = (r, d') → service_call d d'
| call_complete_action ctx i st res f m now r :
    complete_execution ctx i st res f m now d = (r, d') → service_call d d'
| call_reconcile p ctx i ck now now' r :
    reconcile_run p ctx i ck now now' d = (r, d') → service_call d d'
| call_batch p send n s now clock0 clock locked r :
    reconcile_candidates p send n s now clock0 clock locked d = (r, d') → service_call d d'.

#[local] Instance rn_mark_query w i failed : RunWriter (mark_query w i failed).
Proof.
  intros d. unfold mark_query. apply rn_get.
  refine (rn_update_run w i _ _ _ d). intros r. destruct failed; by apply run_le_same.
Qed.

Lemma service_call_ok d d' : keys_ok d → service_call d d' → runs_rel d d' ∧ keys_ok d'.
Proof.
  intros Hk Hc. destruct Hc as [ | | | | |ledger mw ctx i o m t u tr er pf now r Ho E
    | | | | | | | | |Hsame Hk'| | | | | |];
    try match goal with E : _ = (_, d') |- _ => exact (RunLifecycleTheory.run_writer d Hk _ _ E) end.
  { exact (rn_complete_run ver ledger mw ctx i o m t u tr er pf now Ho d Hk _ _ E). }
  split; [|done]. intros j r (r' & Hr' & ? & ? & ? & ?)%Hsame.
  exists r'. split; [done|by apply run_le_same].
Qed.

(** The whole system around one run. *)
Inductive system (w i : uuid) : sys → sys → Prop :=
| by_worker s s' : lease_step w i s s' → system w i s s'
| by_service d d' ws :
    service_call d d' →
    system w i {| sys_db := d; workers := ws |} {| sys_db := d'; workers := ws |}.

Lemma system_step w i s s' : keys_ok (sys_db s) → system w i s s' → step w i s s'.
Proof.
  intros Hk Hs. revert Hk. destruct Hs as [? ? Hl|d d' ws Hc]; intros Hk; [by apply Lease|].
  destruct (service_call_ok _ _ Hk Hc) as [Hr Hk']. apply Others; [done|].
  intros r [Hl Hw]%find_run_Some. destruct (Hr _ _ Hl) as (r' & Hl' & Hle).
  exists r'. split; [|apply Hle]. apply find_run_Some.
  rewrite (le_workspace _ _ Hle). by split.
Qed.

Lemma system_inv w i s s' : rtc (system w i) s s' → lease_inv w i s → lease_inv w i s'.
Proof.
  induction 1 as [|s1 s2 s3 Hs _ IH]; [done|]. intros Hi. apply IH.
  eapply step_inv; [|exact Hi]. apply system_step; [apply Hi|done].
Qed.

(** ** Halting *)

Definition halt_le (r r' : AgentRun) : Prop :=
  (claimable (run_status r') = true → claimable (run_status r) = true) ∧
  (halting (run_status r) = true → halting (run_status r') = true) ∧
  (run_status r = RunStatus.NEEDS_ATTENTION → run_status r' = RunStatus.NEEDS_ATTENTION).

#[local] Instance halt_le_preorder : PreOrder halt_le.
Proof. unfold halt_le. split; [intros r; by split_and!|intros r1 r2 r3 (?&?&?) (?&?&?); split_and!; auto]. Qed.

Definition halt_at (w i : uuid) (d d' : Db) : Prop :=
  keys_ok d' ∧ ∀ r, find_run w i d = Some r → ∃ r', find_run w i d' = Some r' ∧ halt_le r r'.

Lemma halt_update w i p f d ft out d' :
  transact ft (update_run w i p f) d = (out, d') →
  keys_ok d → same_key f → (∀ r, halt_le r (f r)) → halt_at w i d d'.
Proof.
  intros E Hk Hs Hf. destruct (find_run w i d) as [r|] eqn:Hr.
  - destruct (transact_update w i p f d r ft Hk Hr Hs) as (o & d1 & E1 & Hk1 & H1).
    rewrite E1 in E. injection E as <- <-. split; [done|]. rewrite Hr. intros ? [= <-].
    destruct H1 as [[? _]|[_ ?]]; eexists; (split; [done|]); [reflexivity|apply Hf].
  - assert (d' = d) as ->.
    { unfold transact, update_run in E. rewrite bind_run in E. cbn [get] in E.
      rewrite Hr in E. by destruct ft; injection E. }
    split; [done|]. by rewrite Hr.
Qed.

Lemma halt_trans w i d1 d2 d3 : halt_at w i d1 d2 → halt_at w i d2 d3 → halt_at w i d1 d3.
Proof.
  intros [_ H1] [Hk H2]. split; [done|]. intros r (r2 & Hr2 & L1)%H1.
  destruct (H2 _ Hr2) as (r3 & Hr3 & L2). exists r3. split; [done|by etrans].
Qed.
Lemma halt_refl w i d : keys_ok d → halt_at w i d d.
Proof. intros Hk. split; [done|]. intros r Hr. exists r. split; [done|reflexivity]. Qed.

(** Every transaction of the manager respects halting. *)
Lemma lost_run_halt code now r : halt_le r (lost_run code now r).
Proof. by split_and!. Qed.
Lemma released_halt now r : halt_le r (released now r).
Proof. unfold released. destruct (nonterminal r); by split_and!. Qed.
Lemma extend_halt e r : halt_le r (set_run_execution_lease_expires_at e r).
Proof. by split_and!. Qed.
#[local] Hint Resolve lost_run_halt released_halt extend_halt : agenthub.

Lemma claim_halt w i allowed token now f d out d' :
  keys_ok d → transact f (claim_lease w i allowed token now) d = (out, d') → halt_at w i d d'.
Proof.
  intros Hk E. destruct (find_run w i d) as [r|] eqn:Hr.
  - destruct (transact_claim _ _ _ _ _ _ _ _ _ _ Hk Hr E) as (Hk' & o & r' & Hr' & He).
    split; [done|]. rewrite Hr. intros ? [= <-]. exists r'. split; [done|].
    destruct He as [->|[? ?|? ? ?|?]]; by split_and!.
  - unfold transact in E. rewrite claim_lease_missing in E by done.
    assert (d' = d) as -> by (by destruct f; injection E). split; [done|]. by rewrite Hr.
Qed.

Lemma renew_halt w i t db_now now now' f f' d out d' :
  keys_ok d → renew w i t db_now now now' f f' d = (out, d') → halt_at w i d d'.
Proof.
  intros Hk E. unfold renew in E. rewrite bind_run in E. unfold catch in E.
  rewrite bind_run in E.
  destruct (transact f (extend_lease w i t db_now now) d) as [o1 d1] eqn:E1.
  pose proof (halt_update _ _ _ _ _ _ _ _ E1 Hk ltac:(auto with agenthub) (extend_halt _))
    as H1.
  assert (Hstep : ∀ (b : bool), (if b then mret false else
      catch (transact f' (mark_lost w i t now');; mret tt) (λ _, mret tt);; mret true) d1
      = (out, d') → halt_at w i d d').
  { intros [] Eb; [injection Eb as _ <-; done|].
    destruct (transact f' (mark_lost w i t now') d1) as [o2 d2] eqn:E2.
    pose proof (halt_update _ _ _ _ _ _ _ _ E2 (proj1 H1) ltac:(auto with agenthub)
      (lost_run_halt _ _)) as H2.
    cbv iota in Eb. rewrite bind_run in Eb. unfold catch in Eb. rewrite bind_run, E2 in Eb.
    assert (d' = d2) as -> by (by destruct o2; injection Eb as _ <-).
    by eapply halt_trans. }
  destruct o1 as [a|]; [exact (Hstep (a =? 1) E)|exact (Hstep false E)].
Qed.

Lemma leave_halt w i t why lost now now' f f' d out d' :
  keys_ok d → leave w i t why lost now now' f f' d = (out, d') → halt_at w i d d'.
Proof.
  intros Hk. unfold leave.
  set (h := match why with Normally => _ | Cancelled => _ | Errored e => _ end).
  destruct (h d) as [o1 d1] eqn:E1. destruct (transact f' _ d1) as [o2 d2] eqn:E2. intros E.
  assert (d' = d2) as -> by (destruct o2; by injection E).
  assert (halt_at w i d d1) as H1.
  { assert (Hm : ∀ e, (transact f (mark_interrupted w i t now);; raise e : M Db Exn unit) d
                      = (o1, d1) → halt_at w i d d1).
    { intros e Em. rewrite bind_run in Em.
      destruct (transact f (mark_interrupted w i t now) d) as [o d1'] eqn:E3.
      pose proof (halt_update _ _ _ _ _ _ _ _ E3 Hk ltac:(auto with agenthub)
        (lost_run_halt _ _)) as H3.
      assert (d1 = d1') as -> by (by destruct o; injection Em). done. }
    subst h. destruct why as [| |e]; [by injection E1 as _ <-; apply halt_refl| |by eapply Hm].
    destruct lost; [by injection E1 as _ <-; apply halt_refl|by eapply Hm]. }
  eapply halt_trans; [exact H1|].
  eapply halt_update; [exact E2|apply H1|auto with agenthub|apply released_halt].
Qed.

Lemma system_halt w i s s' :
  keys_ok (sys_db s) → system w i s s' → halt_at w i (sys_db s) (sys_db s').
Proof.
  intros Hk Hs. revert Hk.
  destruct Hs as [? ? [d d' ws allowed token now Hall Htok E
                |d d' ws allowed token now f out Hall Htok E Hout
                |d d' ws token db_now now now' f f' lost Hw E
                |d d' ws token why lost now now' f f' out Hw E
                |d ws token]|d d' ws Hc]; cbn; intros Hk.
  - by apply (claim_halt w i allowed token now DbOk _ (Return true)).
  - by eapply claim_halt.
  - by eapply renew_halt.
  - by eapply leave_halt.
  - by apply halt_refl.
  - destruct (service_call_ok _ _ Hk Hc) as [Hr Hk']. split; [done|].
    intros r [Hl Hw]%find_run_Some. destruct (Hr _ _ Hl) as (r' & Hl' & Hle).
    exists r'. split; [|split_and!; apply Hle]. apply find_run_Some.
    rewrite (le_workspace _ _ Hle). by split.
Qed.

Lemma rtc_halt w i s s' :
  rtc (system w i) s s' → keys_ok (sys_db s) → halt_at w i (sys_db s) (sys_db s').
Proof.
  induction 1 as [s|s1 s2 s3 Hs _ IH]; intros Hk; [by apply halt_refl|].
  pose proof (system_halt _ _ _ _ Hk Hs) as H1. eapply halt_trans; [exact H1|].
  apply IH, H1.
Qed.

(** ** Claims *)

(** A claim on a run that cannot be claimed is refused and writes nothing. *)
Lemma lease_refused w i allowed token now d r :
  find_run w i d = Some r → claimable (run_status r) = false →
  (∀ s, s ∈ allowed → claimable s = true) →
  claim_lease w i allowed token now d = (Return false, d).
Proof.
  intros Hr Hc Ha. unfold claim_lease, session_scope, atomically. mstep. rewrite Hr. cbn.
  rewrite bind_run. cbn. rewrite bool_decide_false; [done|]. intros H%Ha. congruence.
Qed.

(** C27. One execution at a time in the whole system.  The other writers of the
    runs really are the bystanders the lease relies on: with any interleaving of
    workers on a run (claiming, renewing, failing, crashing, leaving, with
    database failures at any point) and of calls of the run service, the approval
    service, reconciliation, the worker tasks, the event log and the interactive
    evaluations, at most one worker is ever inside the lease of the run, and the
    run names it as owner or can no longer be claimed. *)
Theorem run_executed_by_one_worker w i d s :
  keys_ok d → rtc (system w i) {| sys_db := d; workers := ∅ |} s →
  (size (workers s) <= 1)%nat ∧
  ∀ t lost, workers s !! t = Some lost →
    ∃ r, find_run w i (sys_db s) = Some r ∧
      (run_execution_owner r = Some t ∨ claimable (run_status r) = false).
Proof.
  intros Hk Hs. pose proof (system_inv w i _ _ Hs (lease_inv_start w i d Hk)) as Hi.
  split; [apply Hi|]. intros t l Ht. by destruct (inv_held _ _ _ Hi _ _ Ht) as (_ & ?).
Qed.

(** C28. Ends are final.  Whatever workers, services, tasks, evaluations and
    reconciliation do, in any order: a run that succeeded, failed, was cancelled
    or needs attention never runs, waits or is being cancelled again, and every
    later claim of it is refused and writes nothing; a run that is cancelling,
    cancelled or needs attention never runs, waits, succeeds or fails; and one
    that needs attention keeps needing it. *)
Theorem halted_run_stays_halted w i d ws s r :
  keys_ok d → rtc (system w i) {| sys_db := d; workers := ws |} s →
  find_run w i d = Some r →
  ∃ r', find_run w i (sys_db s) = Some r' ∧
    (claimable (run_status r) = false →
       run_status r' ∈ [RunStatus.SUCCEEDED; RunStatus.FAILED; RunStatus.CANCELLED;
                        RunStatus.NEEDS_ATTENTION] ∧
       ∀ allowed token now, (∀ st, st ∈ allowed → claimable st = true) →
         claim_lease w i allowed token now (sys_db s) = (Return false, sys_db s)) ∧
    (halting (run_status r) = true →
       run_status r' ∈ [RunStatus.CANCEL_REQUESTED; RunStatus.CANCELLED;
                        RunStatus.NEEDS_ATTENTION]) ∧
    (run_status r = RunStatus.NEEDS_ATTENTION → run_status r' = RunStatus.NEEDS_ATTENTION).
Proof.
  intros Hk Hs Hr. destruct (rtc_halt _ _ _ _ Hs Hk) as [_ H'].
  destruct (H' _ Hr) as (r' & Hr' & Hc & Hl & Ha). exists r'. split_and!; [done| | |done].
  - intros E. assert (claimable (run_status r') = false) as E'
      by (apply not_true_iff_false; intros ?%Hc; congruence).
    split; [|intros; by eapply lease_refused]. destruct (run_status r'); try done; set_solver.
  - intros ?%Hl. destruct (run_status r'); try done; set_solver.
Qed.

(** ** Completion *)

Definition finishes (w i : uuid) (d : Db) : nat :=
  length (filter (λ s, step_workspace_id s = w ∧ step_agent_run_id s = i ∧
                       step_kind s = "FINISH"%string) (run_steps d)).

Lemma add_finish_once run o md d out d' :
  add_finish run o md d = (out, d') →
  finishes (run_workspace_id run) (run_id run) d' =
    Nat.max 1 (finishes (run_workspace_id run) (run_id run) d) ∧
  agent_runs d' = agent_runs d ∧ approvals d' = approvals d.
Proof.
  unfold add_finish, finishes. mstep. destruct (existsb _ _) eqn:E.
  - intros [= _ <-]. split; [|done].
    apply existsb_exists in E as (s & Hs & Hp). breflect. apply list_elem_of_In in Hs.
    assert (s ∈ filter (λ s, step_workspace_id s = run_workspace_id run ∧
      step_agent_run_id s = run_id run ∧ step_kind s = "FINISH"%string) (run_steps d)) as Hin
      by (apply list_elem_of_filter; by split).
    destruct (filter _ _); [by apply elem_of_nil in Hin|]. cbn. lia.
  - intros [= _ <-]. split; [|done]. cbn [run_steps set_run_steps].
    rewrite filter_app, length_app. rewrite filter_cons_True by done. cbn.
    assert (filter (λ s, step_workspace_id s = run_workspace_id run ∧
      step_agent_run_id s = run_id run ∧ step_kind s = "FINISH"%string) (run_steps d) = [])
      as ->; [|done].
    destruct (filter _ _) as [|s l] eqn:Ef; [done|].
    assert (s ∈ filter (λ s, step_workspace_id s = run_workspace_id run ∧
      step_agent_run_id s = run_id run ∧ step_kind s = "FINISH"%string) (run_steps d)) as Hin
      by (rewrite Ef; left).
    apply list_elem_of_filter in Hin as [(H1 & H2 & H3) Hin].
    apply not_true_iff_false in E. destruct E. apply existsb_exists. exists s.
    split; [by apply list_elem_of_In|]. by rewrite !bool_decide_true.
Qed.

Lemma load_run_found ctx w i d r :
  ctx_workspace_id ctx = Some w → find_run w i d = Some r → load_run ctx i d = (Return r, d).
Proof.
  intros Hw Hf. unfold load_run, parse_workspace. rewrite Hw, bind_run. msimpl. mstep.
  by rewrite Hf.
Qed.

(** The recorded outcome, and what became of the row. *)
Lemma complete_run_inv ledger mw ctx w i o m t u tr er pf now d run res q d' :
  keys_ok d → ctx_workspace_id ctx = Some w → find_run w i d = Some run →
  _complete_run ver ledger mw ctx i o m t u tr er pf now d = (Return (res, q), d') →
  let e := effective_outcome run (claimed_action run d)
             match ledger with Some l => attempt_unknown w i l | None => false end o in
  approvals d' = approvals d ∧
  finishes w i d' = match pf with Some _ => Nat.max 1 (finishes w i d) | None => finishes w i d end ∧
  (q = true → (w, i) ∈ memory_jobs d' ∧ out_status e = RunStatus.SUCCEEDED) ∧
  ∃ r', find_run w i d' = Some r' ∧ res = _run_result r' ∧
    run_status r' = out_status e ∧ run_final_output r' = out_output e ∧
    run_failure_code r' = out_failure e ∧ run_completed_at r' = Some now ∧
    run_waiting_approval_id r' = None ∧ run_resume_pending r' = false ∧
    run_event_log_complete r' = false ∧
    run_model_step_count r' = Z.max m (run_model_step_count run) ∧
    run_tool_call_count r' = Z.max t (run_tool_call_count run).
Proof.
  intros Hk Hw Hf. pose proof (find_run_workspace _ _ _ _ Hf) as Hrw.
  pose proof (find_run_id _ _ _ _ Hk Hf) as Hid.
  unfold _complete_run, session_scope, atomically.
  rewrite bind_run, (load_run_found ctx w i d run Hw Hf). mstep. rewrite Hrw, Hid. cbn zeta. set (e := effective_outcome _ _ _ _). rewrite bind_run.
  destruct (record_history _ _ _ _ _ d) as [[r1|x] d1] eqn:Eh; [|discriminate].
  apply record_history_inv in Eh as [-> Hr1]. destruct (Hr1 r1 eq_refl) as (ha & hb & ->).
  rewrite bind_run.
  assert (∃ d1, match pf with Some md => add_finish run e md | None => mret tt end d
                = (Return tt, d1) ∧ agent_runs d1 = agent_runs d ∧ approvals d1 = approvals d ∧
    finishes w i d1 = match pf with Some _ => Nat.max 1 (finishes w i d)
                                  | None => finishes w i d end)
    as (d1 & E1 & R1 & A1 & F1).
  { destruct pf as [md|]; [|by eexists].
    destruct (add_finish run e md d) as [o1 d1] eqn:E1.
    destruct (add_finish_once _ _ _ _ _ _ E1) as (F & R & A). rewrite Hrw, Hid in F.
    exists d1. split_and!; try done. unfold add_finish in E1. rewrite bind_run in E1.
    cbn [get] in E1. by destruct (existsb _ _); injection E1 as <- _. }
  rewrite E1. clear E1. set (job := mw && _). rewrite bind_run.
  assert (∃ d2, (if job then add_memory_job run else mret tt) d1 = (Return tt, d2) ∧
    agent_runs d2 = agent_runs d1 ∧ approvals d2 = approvals d1 ∧ run_steps d2 = run_steps d1 ∧
    (job = true → (w, i) ∈ memory_jobs d2)) as (d2 & E2 & R2 & A2 & S2 & J2).
  { destruct job; [|by eexists]. unfold add_memory_job. cbn [modify].
    rewrite Hrw, Hid. eexists. split; [reflexivity|].
    destruct (bool_decide _) eqn:E; breflect; split_and!; try done.
    intros _. cbn. apply elem_of_app. right. by left. }
  rewrite E2. clear E2.
  set (r' := set_run_completed_at (Some now) _).
  assert (run_id r' = i ∧ run_workspace_id r' = w ∧
    run_status r' = out_status e ∧ run_final_output r' = out_output e ∧
    run_failure_code r' = out_failure e ∧ run_completed_at r' = Some now ∧
    run_waiting_approval_id r' = None ∧ run_resume_pending r' = false ∧
    run_event_log_complete r' = false ∧
    run_model_step_count r' = Z.max m (run_model_step_count run) ∧
    run_tool_call_count r' = Z.max t (run_tool_call_count run)) as (Hi' & Hw' & Hrow).
  { subst r'. by destruct u; try destruct (_ =? 0). }
  clearbody r'. rewrite bind_run. unfold save_run. cbn [modify]. rewrite Hi'.
  intros E. injection E as <- Eq <-. split; [by cbn; rewrite A2, A1|].
  split; [unfold finishes in *; cbn [run_steps set_agent_runs]; by rewrite S2|].
  split.
  { cbn. rewrite <- Eq. intros Hj. split; [by apply J2|]. subst job. by breflect. }
  exists r'. split; [|by split].
  apply find_run_Some. cbn. by rewrite lookup_insert_eq.
Qed.

(** C29. A completed run tells the truth.  When [_complete_run] returns, the
    row it stored is the one it reports, closed and no longer waiting; a claimed
    or unknown action makes it need attention with no output; success is only
    recorded when success was reported, no action is in flight, no model bill
    is unknown and the run was not being cancelled or escalated, and then with
    the reported output; approvals are untouched, a run gets at most one finish
    step however often it is completed, and the memory queue is only notified
    when the extraction intent is stored. *)
Theorem completion_tells_the_truth ledger mw ctx w i o m t u tr er pf now d run res q d' :
  keys_ok d → ctx_workspace_id ctx = Some w → find_run w i d = Some run →
  _complete_run ver ledger mw ctx i o m t u tr er pf now d = (Return (res, q), d') →
  approvals d' = approvals d ∧ (finishes w i d <= 1 → finishes w i d' <= 1)%nat ∧
  (q = true → (w, i) ∈ memory_jobs d' ∧ res_status res = RunStatus.SUCCEEDED) ∧
  ∃ r', find_run w i d' = Some r' ∧ res = _run_result r' ∧
    run_completed_at r' = Some now ∧ run_waiting_approval_id r' = None ∧
    run_resume_pending r' = false ∧
    (claimed_action run d = true →
       run_status r' = RunStatus.NEEDS_ATTENTION ∧ run_final_output r' = None ∧
       run_failure_code r' ≠ None) ∧
    (run_status r' = RunStatus.SUCCEEDED →
       out_status o = RunStatus.SUCCEEDED ∧ claimed_action run d = false ∧
       (∀ l, ledger = Some l → attempt_unknown w i l = false) ∧
       halting (run_status run) = false ∧ run_final_output r' = out_output o).
Proof.
  intros Hk Hw Hf E.
  pose proof (complete_run_inv _ _ _ _ _ _ _ _ _ _ _ _ _ _ _ _ _ _ Hk Hw Hf E) as Hinv.
  cbn zeta in Hinv. destruct Hinv as (Ha & Hfin & Hq & r' & Hr' & -> & Hs & Ho & Hc & Hat & Hwt &
    Hrp & _). split; [done|].
  split; [rewrite Hfin; destruct pf; lia|].
  split; [intros Hj; by rewrite <- Hs in Hq; apply Hq|].
  exists r'. do 5 (split; [done|]). rewrite Hs, Ho, Hc.
  clear -Hk. unfold effective_outcome. split.
  - intros ->. rewrite orb_true_r. cbn. split_and!; try done.
    unfold or_code. destruct (nonempty_code (out_failure o)) eqn:En; [|done].
    by destruct (out_failure o).
  - destruct (_ || claimed_action run d) eqn:Hu; [done|].
    apply orb_false_iff in Hu as [Hu ->].
    destruct (match ledger with Some l => attempt_unknown w i l | None => false end) eqn:Hl;
      [done|].
    assert (∀ l, ledger = Some l → attempt_unknown w i l = false) by (intros l ->; done).
    unfold is_any, is_status. destruct (run_status run) eqn:Er;
      rewrite ?bool_decide_true by set_solver; rewrite ?(bool_decide_false (_ ∈ _)) by set_solver;
      cbn; try done.
    by destruct (_ || _).
Qed.
End System.

(** ** Examples *)

#[local] Instance ascii_unicode : Unicode :=
  {| py_isprintable := λ c, ((32 <=? c) && (c <=? 126))%N |}.
#[local] Instance some_digests : Digests :=
  {| sha256_hexdigest := id; uuid5 := λ _ _, 0%N; uuid5_range := λ _ _, eq_refl |}.
#[local] Instance any_schema : SchemaValidator := λ _ _, true.
Definition no_evidence : list ModelMessage → json → option json := λ _ _, Some (JObj []).

Definition runner : WorkspaceExecutionContext :=
  {| ctx_request_id := lit "req"; ctx_user_id := Some 9%N; ctx_organization_id := Some 8%N;
     ctx_org_role := "MEMBER"; ctx_workspace_id := Some 1%N;
     ctx_permissions := {["agent_run"%string]} |}.
Definition answered : Outcome :=
  {| out_status := RunStatus.SUCCEEDED; out_output := Some (lit "42"); out_failure := None |}.
Definition cancelled_db : Db := lease_db (set_run_status RunStatus.CANCELLED lease_run).
Definition finish (d : Db) :=
  _complete_run no_evidence None true runner 2 answered 1 0 [] None JNull (Some None) 50 d.
(** A worker holds the run while the user cancels it. *)
Definition cancelled_inside : sys :=
  {| sys_db := snd (cancel true runner 2 20 21 (sys_db inside)); workers := workers inside |}.

Lemma answered_end : reported_end answered.
Proof. apply (end_graph None None (Some (lit "42"))). by left. Qed.

Lemma run_executed_by_one_worker_witness :
  (size (workers cancelled_inside) <= 1)%nat ∧
  ∀ t lost, workers cancelled_inside !! t = Some lost →
    ∃ r, find_run 1 2 (sys_db cancelled_inside) = Some r ∧
      (run_execution_owner r = Some t ∨ claimable (run_status r) = false).
Proof.
  apply (run_executed_by_one_worker no_evidence 1 2 (lease_db lease_run)).
  - by apply lease_db_keys.
  - eapply rtc_l; [apply by_worker, enters_lease|]. apply rtc_once.
    apply (by_service no_evidence 1 2 (sys_db inside) _ (workers inside)).
    eapply call_cancel. apply surjective_pairing.
Defined.

(** The run was cancelled; a late worker reports success and another claims. *)
Lemma halted_run_stays_halted_witness :
  ∃ r', find_run 1 2 (snd (finish cancelled_db)) = Some r' ∧
    run_status r' ∈ [RunStatus.CANCEL_REQUESTED; RunStatus.CANCELLED; RunStatus.NEEDS_ATTENTION] ∧
    claim_lease 1 2 [RunStatus.RUNNING] (lit "w2") 60 (snd (finish cancelled_db)) =
      (Return false, snd (finish cancelled_db)).
Proof.
  destruct (halted_run_stays_halted no_evidence 1 2 cancelled_db ∅
    {| sys_db := snd (finish cancelled_db); workers := ∅ |}
    (set_run_status RunStatus.CANCELLED lease_run)) as (r' & Hr' & Hc & Hh & _).
  - by apply lease_db_keys.
  - apply rtc_once, by_service. eapply call_complete; [apply answered_end|apply surjective_pairing].
  - reflexivity.
  - exists r'. split; [exact Hr'|]. split; [by apply Hh|].
    apply Hc; [reflexivity|]. by intros st ->%list_elem_of_singleton.
Defined.

Lemma completion_tells_the_truth_witness :
  ∃ res q, fst (finish (lease_db lease_run)) = Return (res, q) ∧
    res_status res = RunStatus.SUCCEEDED ∧ claimed_action lease_run (lease_db lease_run) = false.
Proof.
  destruct (finish (lease_db lease_run)) as [[[res q]|e] d'] eqn:E; [|by vm_compute in E].
  exists res, q. split; [reflexivity|].
  assert (res_status res = RunStatus.SUCCEEDED) as Hs.
  { pose proof (f_equal fst E) as E'. vm_compute in E'. by injection E' as <- _. }
  split; [exact Hs|].
  destruct (completion_tells_the_truth no_evidence None true runner 1 2 answered 1 0 [] None JNull
    (Some None) 50 (lease_db lease_run) lease_run res q d') as
    (_ & _ & _ & r' & _ & Hres & _ & _ & _ & _ & H).
  - by apply lease_db_keys.
  - reflexivity.
  - reflexivity.
  - exact E.
  - rewrite Hres in Hs. by apply H in Hs as (_ & ? & _).
Defined.
