(* ===== verification/EventStoreProperties.v ===== *)
(** * The durable event stream: recording and the completeness mark

    Theorems about [EventStore.v]: an event whose recording returned is stored
    for good under its sequence number, and a log is only marked complete when
    everything offered to its recorder is stored. *)

From stdpp Require Import base gmap list strings sorting relations.
From Stdlib Require Import ZArith NArith Lia.
From S2P Require Import Prelude.
From S2P Require Import Json.
From S2P Require Import RunStore.
From S2P Require Import ExecutionLease.
From S2P Require Import LeaseProperties.
From S2P Require Import EventStore.

Local Open Scope Z_scope.

(** ** The table *)

Definition key_of (r : AgentRunEvent) : uuid * uuid * Z :=
  (ev_workspace_id r, ev_agent_run_id r, ev_sequence r).

(** The unique constraints of [agent_run_events]. *)
Record stream_ok (log : list AgentRunEvent) : Prop := {
  so_keys : NoDup (key_of <$> log);
  so_ids : NoDup (ev_id <$> log)
}.

Lemma clashes_false a b : clashes a b = false ↔ key_of a ≠ key_of b ∧ ev_id a ≠ ev_id b.
Proof.
  unfold clashes, key_of. rewrite orb_false_iff, !bool_decide_eq_false. done.
Qed.

Lemma existsb_false {A} (p : A → bool) l : existsb p l = false ↔ ∀ x, x ∈ l → p x = false.
Proof.
  rewrite <- not_true_iff_false, existsb_exists. setoid_rewrite list_elem_of_In.
  setoid_rewrite <- not_true_iff_false. naive_solver.
Qed.

Lemma existsb_clashes r log :
  existsb (clashes r) log = false ↔ ¬ key_of r ∈ key_of <$> log ∧ ¬ ev_id r ∈ ev_id <$> log.
Proof.
  rewrite existsb_false, !list_elem_of_fmap. setoid_rewrite clashes_false. split.
  - intros H. split; intros (x & Hx & Hin); by destruct (H x Hin).
  - intros [Hk Hi] x Hin. split; intros E; [apply Hk|apply Hi]; by exists x.
Qed.

Lemma stream_ok_snoc log r :
  stream_ok log → existsb (clashes r) log = false → stream_ok (log ++ [r]).
Proof.
  intros [H1 H2] [Hk Hi]%existsb_clashes.
  split; rewrite fmap_app; apply NoDup_app; (split; [done|]); (split; [|apply NoDup_singleton]);
    intros x Hx Hx'; apply list_elem_of_singleton in Hx'; naive_solver.
Qed.

(** A key names one row. *)
Lemma key_unique log r r' :
  stream_ok log → r ∈ log → r' ∈ log → key_of r = key_of r' → r = r'.
Proof.
  intros [Hk _] [j Hj]%list_elem_of_lookup [k Hk']%list_elem_of_lookup E.
  assert (j = k) as <-; [|congruence].
  eapply (NoDup_lookup (key_of <$> log) j k (key_of r)); [done|..];
    rewrite list_lookup_fmap, ?Hj, ?Hk'; cbn; congruence.
Qed.

Lemma sublist_full {A} (l k : list A) : l `sublist_of` k → length l = length k → l = k.
Proof.
  induction 1 as [|x l k Hs IH|x l k Hs IH]; cbn; [done|intros [= ?]; by rewrite IH|].
  pose proof (sublist_length _ _ Hs). lia.
Qed.

Lemma insert_rows_spec rows log :
  stream_ok log →
  stream_ok (insert_rows rows log).1 ∧
  ∃ added, (insert_rows rows log).1 = log ++ added ∧ added `sublist_of` rows ∧
    (insert_rows rows log).2 = length added.
Proof.
  revert log. induction rows as [|r rows IH]; intros log Hok; cbn.
  { split; [done|]. exists []. by rewrite app_nil_r. }
  destruct (existsb _ log) eqn:E.
  - destruct (IH log Hok) as [Hs (a & Hl & Ha & Hn)]. split; [done|].
    exists a. split; [done|]. split; [by apply sublist_cons|done].
  - destruct (IH _ (stream_ok_snoc _ _ Hok E)) as [Hs (a & Hl & Ha & Hn)]. split; [done|].
    exists (r :: a). cbn. rewrite Hl, Hn, <- app_assoc. split; [done|].
    split; [by apply sublist_skip|done].
Qed.

Section Run.
Context (w i : uuid).

Lemma at_seq_true s r : at_seq w i s r = true ↔ key_of r = (w, i, s).
Proof.
  unfold at_seq, key_of. rewrite !andb_true_iff, !bool_decide_eq_true. naive_solver.
Qed.

(** The row a sequence number names is unique. *)
Lemma stored_id_Some s log x :
  stream_ok log →
  stored_id w i s log = Some x ↔ ∃ r, r ∈ log ∧ key_of r = (w, i, s) ∧ ev_event_id r = x.
Proof.
  intros Hok. unfold stored_id. split.
  - intros (r & Hr & ->)%fmap_Some_1. apply find_some in Hr as [Hin Ha].
    exists r. rewrite list_elem_of_In, <- at_seq_true. done.
  - intros (r & Hin & Hr & <-). destruct (find (at_seq w i s) log) as [r'|] eqn:E.
    + apply find_some in E as [Hin' Ha]. apply list_elem_of_In in Hin'.
      cbn. f_equal. f_equal. apply at_seq_true in Ha.
      apply (key_unique log); congruence.
    + eapply find_none in E; [|by apply list_elem_of_In].
      apply at_seq_true in Hr. congruence.
Qed.

Lemma stored_id_grows s log log' x :
  stream_ok log' → log `prefix_of` log' →
  stored_id w i s log = Some x → stored_id w i s log' = Some x.
Proof.
  intros Hok' [a ->] Hx.
  assert (stream_ok log) as Hok.
  { destruct Hok' as [Hk Hi]. rewrite fmap_app in Hk. rewrite fmap_app in Hi. split;
      [by apply NoDup_app in Hk as [? _]|by apply NoDup_app in Hi as [? _]]. }
  apply stored_id_Some in Hx as (r & ? & ? & ?); [|done].
  apply stored_id_Some; [done|]. exists r. rewrite elem_of_app. eauto.
Qed.

(** Event [e] is stored in [d]. *)
Definition stored (d : Db) (e : AgentEvent) : Prop :=
  stored_id w i (sequence e) (agent_run_events d) = Some (event_id e).

(** The rows a recorder's own inserts never touch. *)
Definition rows_of (d : Db) := (agent_runs d, approvals d).
Lemma rows_of_run d d' : rows_of d' = rows_of d → find_run w i d' = find_run w i d.
Proof. unfold find_run. by intros [= -> _]. Qed.
Lemma rows_of_keys d d' : rows_of d' = rows_of d → keys_ok d → keys_ok d'.
Proof. unfold keys_ok. by intros [= -> ->]. Qed.

(** What a recorder's transaction may do to the tables. *)
Record grows (d d' : Db) : Prop := {
  gr_ok : stream_ok (agent_run_events d');
  gr_log : agent_run_events d `prefix_of` agent_run_events d'
}.

Lemma grows_refl d : stream_ok (agent_run_events d) → grows d d.
Proof. by split. Qed.
Lemma grows_trans d1 d2 d3 : grows d1 d2 → grows d2 d3 → grows d1 d3.
Proof. intros [_ H1] [H2 H3]. split; [done|]. by etrans. Qed.
Lemma stored_grows d d' e : grows d d' → stored d e → stored d' e.
Proof. intros [H1 H2]. by apply stored_id_grows. Qed.

(** ** One transaction *)

Lemma insert_batch_spec ids batch d out d' :
  stream_ok (agent_run_events d) →
  session_scope (insert_batch w i ids batch) d = (out, d') →
  grows d d' ∧ rows_of d' = rows_of d ∧
  (∀ u, out = Return u → ∀ e, e ∈ batch → stored d' e) ∧
  (∀ x, out = Raise x → d' = d).
Proof.
  intros Hok. unfold session_scope, atomically, insert_batch. mstep.
  destruct (bool_decide (find_run w i d = None)); cbn [raise_if].
  { rewrite bind_raise with (e := IntegrityError _) (s' := d) by done.
    intros [= <- <-]. split; [by apply grows_refl|]. naive_solver. }
  rewrite bind_run. msimpl. rewrite bind_run. msimpl.
  set (rows := imap _ batch).
  destruct (insert_rows_spec rows _ Hok) as [Hok' (added & Hl & Hsub & Hn)].
  set (d1 := set_agent_run_events _ d).
  assert (Hg : grows d d1). { split; [done|]. cbn. rewrite Hl. by exists added. }
  destruct (bool_decide (_ = length rows)) eqn:En.
  - intros [= <- <-]. split; [done|]. split; [done|]. split; [|done].
    intros _ _ e He. apply stored_id_Some; [done|]. breflect.
    assert (added = rows) as ->.
    { apply sublist_full; [done|]. congruence. }
    apply list_elem_of_lookup in He as [k Hk].
    exists (_row_values w i (ids k) e). cbn. rewrite Hl. split; [|done].
    apply elem_of_app. right. apply list_elem_of_lookup. exists k.
    unfold rows. by rewrite list_lookup_imap, Hk.
  - rewrite raise_if_cases. destruct (existsb _ batch) eqn:Ex; intros [= <- <-].
    + split; [by apply grows_refl|]. naive_solver.
    + split; [done|]. split; [done|]. split; [|done]. intros _ _ e He.
      pose proof (proj1 (existsb_false _ _) Ex e He) as He'.
      apply negb_false_iff, bool_decide_eq_true in He'. exact He'.
Qed.

Lemma transact_insert ids batch f d out d' :
  stream_ok (agent_run_events d) →
  transact f (session_scope (insert_batch w i ids batch)) d = (out, d') →
  grows d d' ∧ rows_of d' = rows_of d ∧
  (∀ u, out = Return u → ∀ e, e ∈ batch → stored d' e) ∧
  ((∃ x, (session_scope (insert_batch w i ids batch) d).1 = Raise x) → d' = d).
Proof.
  intros Hok E. destruct (session_scope _ d) as [o d1] eqn:E1.
  destruct (insert_batch_spec _ _ _ _ _ Hok E1) as (Hg & Hr & Hs & Hx).
  destruct f; cbn in E; rewrite ?E1 in E; injection E as <- <-; cbn [fst].
  - split; [done|]. split; [done|]. split; [done|]. intros [x ->]. by eapply Hx.
  - split; [by apply grows_refl|]. naive_solver.
  - split; [done|]. split; [done|]. split; [done|]. intros [x ->]. by eapply Hx.
Qed.

(** ** The recorder *)

Lemma flush_spec ids batch strict f s out s' :
  stream_ok (agent_run_events (db s)) →
  _flush w i ids batch strict f s = (out, s') →
  grows (db s) (db s') ∧ rows_of (db s') = rows_of (db s) ∧
  rec_queue (recorder s') = rec_queue (recorder s) ∧
  rec_writer (recorder s') = rec_writer (recorder s) ∧
  (rec_failed (recorder s') = false →
     rec_failed (recorder s) = false ∧ ∀ e, e ∈ batch → stored (db s') e) ∧
  (∀ u, out = Return u → strict = true → ∀ e, e ∈ batch → stored (db s') e) ∧
  (∀ x, out = Raise x → strict = true ∧ rec_failed (recorder s') = true).
Proof.
  intros Hok. unfold _flush. destruct batch as [|e0 batch'].
  { intros [= <- <-]. split; [by apply grows_refl|].
    repeat (split; [done|]). split; [|split]; [| |done].
    - intros ->. split; [done|]. by intros e ?%not_elem_of_nil.
    - by intros _ _ _ e ?%not_elem_of_nil. }
  set (batch := e0 :: batch'). unfold catch, in_session.
  destruct (transact f _ (db s)) as [o d'] eqn:E.
  destruct (transact_insert _ _ _ _ _ _ Hok E) as (Hg & Hr & Hs & _).
  destruct o as [u|x].
  - intros [= <- <-]. cbn. repeat (split; [done|]). split; [|split]; [|by eauto|done].
    intros ->. split; [done|]. by eapply Hs.
  - mstep. unfold on_recorder. cbn [modify]. destruct strict.
    + intros Heq.
      assert (s' = {| db := d'; recorder := set_failed (recorder s) |} ∧ ∃ x', out = Raise x')
        as [-> [x' ->]] by (destruct x; injection Heq as <- <-; eauto).
      cbn. repeat (split; [done|]). done.
    + intros [= <- <-]. cbn. repeat (split; [done|]). done.
Qed.

Lemma arecord_spec id e f s out s' :
  stream_ok (agent_run_events (db s)) → should_persist e = true →
  arecord w i id e f s = (out, s') →
  grows (db s) (db s') ∧ rows_of (db s') = rows_of (db s) ∧
  rec_queue (recorder s') = rec_queue (recorder s) ∧
  rec_writer (recorder s') = rec_writer (recorder s) ∧
  (rec_failed (recorder s') = false → rec_failed (recorder s) = false ∧ stored (db s') e) ∧
  (∀ u, out = Return u → stored (db s') e) ∧
  (∀ x, out = Raise x → rec_failed (recorder s') = true).
Proof.
  intros Hok Hp. unfold arecord. rewrite Hp. cbn [negb]. unfold catch.
  destruct (_flush _ _ _ _ _ _ s) as [o s1] eqn:E.
  destruct (flush_spec _ _ _ _ _ _ _ Hok E) as (Hg & Hr & Hq & Hw & Hf & Hs & Hx).
  destruct o as [u|x].
  - intros [= <- <-]. split_and!; try done; [|by intros; eapply Hs, list_elem_of_here].
    intros [? H']%Hf. split; [done|]. apply H', list_elem_of_here.
  - mstep. unfold on_recorder. cbn [modify]. intros [= <- <-]. cbn. by split_and!.
Qed.

Lemma take_batch_sentinel q :
  None ∉ q → take_batch (q ++ [None]) = (omap id q, [], true).
Proof.
  induction q as [|[e|] q IH]; cbn; intros Hq; [done| |].
  - rewrite IH; [done|]. intros ?. apply Hq. by right.
  - destruct Hq. by left.
Qed.
Lemma take_batch_open q : None ∉ q → take_batch q = (omap id q, [], false).
Proof.
  induction q as [|[e|] q IH]; cbn; intros Hq; [done| |].
  - rewrite IH; [done|]. intros ?. apply Hq. by right.
  - destruct Hq. by left.
Qed.
Lemma elem_of_queued e (q : list (option AgentEvent)) : e ∈ omap id q ↔ Some e ∈ q.
Proof. rewrite list_elem_of_omap. naive_solver. Qed.

Lemma drain_round_spec ids f s out s' :
  stream_ok (agent_run_events (db s)) →
  drain_round w i ids f s = (out, s') →
  let t := take_batch (rec_queue (recorder s)) in
  out = Return t.2 ∧ grows (db s) (db s') ∧ rows_of (db s') = rows_of (db s) ∧
  rec_queue (recorder s') = t.1.2 ∧ rec_writer (recorder s') = rec_writer (recorder s) ∧
  (rec_failed (recorder s') = false →
     rec_failed (recorder s) = false ∧ ∀ e, e ∈ t.1.1 → stored (db s') e).
Proof.
  intros Hok. unfold drain_round. mstep. rewrite bind_run. unfold on_recorder. cbn [modify].
  rewrite bind_run. destruct (_flush _ _ _ _ _ _ _) as [o s1] eqn:E.
  destruct (flush_spec _ _ _ _ _ _ _ (Hok : stream_ok (agent_run_events (db (Build_World _ _)))) E)
    as (Hg & Hr & Hq & Hw & Hf & _ & Hx). cbn in *.
  destruct o as [u|x]; [|by destruct (Hx x eq_refl)].
  intros [= <- <-]. by split_and!.
Qed.

(** ** A recorder among other writers *)

(** The world and the events offered to the recorder so far. *)
Inductive recorder_step : World * list AgentEvent → World * list AgentEvent → Prop :=
| Arecord id e f s offered :
    recorder_step (s, offered) ((arecord w i id e f s).2, e :: offered)
| Record_ e s offered : recorder_step (s, offered) ((record e s).2, e :: offered)
| Drain ids f s offered : recorder_step (s, offered) ((drain_round w i ids f s).2, offered)
| OtherWriter d' s offered :
    grows (db s) d' → recorder_step (s, offered) ({| db := d'; recorder := recorder s |}, offered).

Record recorder_inv (x : World * list AgentEvent) : Prop := {
  ri_ok : stream_ok (agent_run_events (db x.1));
  ri_open : None ∉ rec_queue (recorder x.1);
  ri_writer : rec_writer (recorder x.1) = true;
  ri_kept : rec_failed (recorder x.1) = false → ∀ e, e ∈ x.2 → should_persist e = true →
    stored (db x.1) e ∨ Some e ∈ rec_queue (recorder x.1)
}.

Lemma recorder_step_inv x x' : recorder_step x x' → recorder_inv x → recorder_inv x'.
Proof.
  intros Hst [Hok Hq Hw Hk].
  destruct Hst as [id e f s offered|e s offered|ids f s offered|d' s offered Hg]; cbn in *.
  - destruct (should_persist e) eqn:Hp.
    + destruct (arecord _ _ _ _ _ _) as [o s'] eqn:E.
      destruct (arecord_spec _ _ _ _ _ _ Hok Hp E) as (Hg & Hr & Hq' & Hw' & Hf & _). cbn.
      split; cbn; [apply Hg|congruence|congruence|].
      intros [Hf1 Hst]%Hf e' [->|He']%elem_of_cons Hp'; [by left|]. rewrite Hq'.
      destruct (Hk Hf1 e' He' Hp'); [left; by eapply stored_grows|by right].
    + unfold arecord. rewrite Hp. cbn. split; cbn; [done..|].
      intros Hf e' [->|?]%elem_of_cons ?; [congruence|eauto].
  - rewrite Hw. cbn. destruct (should_persist e) eqn:Hp; cbn.
    + unfold put_nowait. destruct (_ <=? _)%nat; cbn.
      * by split.
      * split; cbn; [done| |done|].
        -- rewrite elem_of_app, list_elem_of_singleton. naive_solver.
        -- intros Hf e' [->|He']%elem_of_cons Hp'; rewrite elem_of_app, list_elem_of_singleton.
           ++ by right; right.
           ++ destruct (Hk Hf e' He' Hp'); [by left|by right; left].
    + split; cbn; [done..|]. intros Hf e' [->|?]%elem_of_cons ?; [congruence|eauto].
  - destruct (drain_round _ _ _ _ _) as [o s'] eqn:E.
    destruct (drain_round_spec _ _ _ _ _ Hok E) as (_ & Hg & Hr & Hq' & Hw' & Hf).
    rewrite take_batch_open in Hq', Hf by done. cbn in *.
    split; cbn; [apply Hg|rewrite Hq'; by apply not_elem_of_nil|congruence|].
    intros [Hf1 Hst]%Hf e He Hp. left.
    destruct (Hk Hf1 e He Hp) as [?|Hin]; [by eapply stored_grows|].
    by apply Hst, elem_of_queued.
  - split; cbn; [apply Hg|done|done|]. intros Hf e He Hp.
    destruct (Hk Hf e He Hp); [left; by eapply stored_grows|by right].
Qed.

Lemma recorder_rtc_inv x x' : rtc recorder_step x x' → recorder_inv x → recorder_inv x'.
Proof. induction 1; eauto using recorder_step_inv. Qed.

(** ** The completeness mark *)

Lemma latest_type_Some d t :
  latest_type w i d = Some t →
  ∃ row, row ∈ agent_run_events d ∧ of_run w i row ∧ ev_event_type row = t ∧
    ∀ row', row' ∈ agent_run_events d → of_run w i row' → ev_sequence row' <= ev_sequence row.
Proof.
  unfold latest_type. set (l := filter _ _).
  assert (Htr : Transitive seq_ge) by (intros ???; unfold seq_ge; lia).
  assert (Hto : Total seq_ge) by (intros ??; unfold seq_ge; lia).
  pose proof (Sorted_StronglySorted seq_ge _ (Sorted_merge_sort seq_ge l)) as Hs.
  pose proof (merge_sort_Permutation seq_ge l) as Hperm.
  destruct (merge_sort seq_ge l) as [|row rest]; cbn; intros [= <-].
  assert (Hin : ∀ x, x ∈ row :: rest ↔ of_run w i x ∧ x ∈ agent_run_events d).
  { intros x. rewrite Hperm. apply list_elem_of_filter. }
  exists row. destruct (proj1 (Hin row) (list_elem_of_here _ _)). split_and!; [done..|].
  intros row' Hi Ho. apply StronglySorted_inv in Hs as [_ Hall].
  assert (row' ∈ row :: rest) as [->|Hx]%elem_of_cons by (by apply Hin); [done|].
  rewrite Forall_forall in Hall. by apply Hall.
Qed.

Lemma completed_segment_None st : completed_segment st None = false.
Proof. by destruct st. Qed.

Lemma update_run_events p f d : agent_run_events (update_run w i p f d).2 = agent_run_events d.
Proof.
  unfold update_run. mstep. destruct (find_run w i d); [|done]. by destruct (p _).
Qed.

(** What the mark does to the row of the run. *)
Inductive mark_effect (failed : bool) (d : Db) (r : AgentRun) : AgentRun → Prop :=
| mark_none : mark_effect failed d r r
| mark_failed : failed = true →
    mark_effect failed d r (set_run_event_log_failed true (set_run_event_log_complete false r))
| mark_complete : failed = false → run_event_log_failed r = false →
    completed_segment (run_status r) (latest_type w i d) = true →
    mark_effect failed d r (set_run_event_log_complete true r).

Lemma mark_spec f s r :
  keys_ok (db s) → find_run w i (db s) = Some r →
  ∃ s' r', _mark_completeness w i f s = (Return tt, s') ∧
    find_run w i (db s') = Some r' ∧ keys_ok (db s') ∧
    agent_run_events (db s') = agent_run_events (db s) ∧
    mark_effect (rec_failed (recorder s)) (db s) r r' ∧
    (f = DbOk → rec_failed (recorder s) = true → run_event_log_failed r' = true ∧
                                                  run_event_log_complete r' = false).
Proof.
  intros Hk Hf. unfold _mark_completeness. mstep. unfold catch.
  set (b := rec_failed (recorder s)). rewrite bind_run. unfold in_session.
  set (p := λ r0 : AgentRun, b || negb (run_event_log_failed r0)
         && completed_segment (run_status r0) (latest_type w i (db s))).
  set (g := λ r0 : AgentRun, if b
         then set_run_event_log_failed true (set_run_event_log_complete false r0)
         else set_run_event_log_complete true r0).
  destruct (update_run_spec w i p g (db s) r Hk Hf) as (d' & E & Hk' & Hf' & Hd).
  { unfold g. intros r0. by destruct b. }
  assert (Hrun : session_scope (mark_query w i b) (db s) = (Return (if p r then 1 else 0), d')).
  { unfold session_scope, atomically, mark_query. rewrite bind_run. cbn [get].
    change (update_run w i _ _ (db s)) with (update_run w i p g (db s)). by rewrite E. }
  assert (Hev : agent_run_events d' = agent_run_events (db s)).
  { pose proof (update_run_events p g (db s)) as He. by rewrite E in He. }
  assert (Heff : mark_effect b (db s) r (if p r then g r else r)).
  { unfold p, g. destruct b eqn:Eb; cbn; [by constructor|].
    destruct (negb _ && _) eqn:Ep; [|by constructor]. breflect. by constructor. }
  assert (Hbad : b = true → run_event_log_failed (if p r then g r else r) = true ∧
                            run_event_log_complete (if p r then g r else r) = false).
  { unfold p, g. intros ->. done. }
  destruct f; cbn [transact]; rewrite ?Hrun; cbn.
  - do 2 eexists. split; [reflexivity|]. cbn. by split_and!.
  - do 2 eexists. split; [reflexivity|]. cbn. split_and!; [done..|by constructor|done].
  - do 2 eexists. split; [reflexivity|]. cbn. by split_and!.
Qed.

Lemma run_writer_spec rounds s :
  stream_ok (agent_run_events (db s)) →
  ∃ b s', run_writer w i rounds s = (Return b, s') ∧
    grows (db s) (db s') ∧ rows_of (db s') = rows_of (db s) ∧
    (rec_failed (recorder s') = false → rec_failed (recorder s) = false) ∧
    ∀ q, None ∉ q →
      (rec_queue (recorder s) = q → b = false) ∧
      (rec_queue (recorder s) = q ++ [None] → b = true → rec_failed (recorder s') = false →
         ∀ e, Some e ∈ q → stored (db s') e).
Proof.
  revert s. induction rounds as [|[ids f] rounds IH]; intros s Hok; cbn.
  { exists false, s. by split_and!. }
  rewrite bind_run. destruct (drain_round w i ids f s) as [o s1] eqn:E.
  destruct (drain_round_spec _ _ _ _ _ Hok E) as (-> & Hg & Hr & Hq & Hw & Hf).
  destruct ((take_batch (rec_queue (recorder s))).2) eqn:Et.
  - exists true, s1. split_and!; try done. { by intros []%Hf. }
    intros q Hn. split.
    + intros Eq. rewrite Eq, take_batch_open in Et by done. done.
    + intros Eq _ [_ Hs]%Hf e He. apply Hs. rewrite Eq, take_batch_sentinel by done.
      by apply elem_of_queued.
  - destruct (IH s1) as (b & s' & E' & Hg' & Hr' & Hf' & Hq'); [apply Hg|].
    exists b, s'. split_and!; [done|by eapply grows_trans|congruence| |].
    { intros []%Hf'%Hf. done. }
    intros q Hn. split.
    + intros Eq. apply (Hq' []); [by apply not_elem_of_nil|].
      by rewrite Hq, Eq, take_batch_open.
    + intros Eq. by rewrite Eq, take_batch_sentinel in Et.
Qed.
End Run.

(** ** Re-recording *)

Lemma set_events_id d : set_agent_run_events (agent_run_events d) d = d.
Proof. by destruct d. Qed.

(** The sequence number is taken: nothing is inserted, and the identity decides. *)
Lemma insert_taken w i id e d x :
  stream_ok (agent_run_events d) → find_run w i d ≠ None →
  stored_id w i (sequence e) (agent_run_events d) = Some x →
  session_scope (insert_batch w i (λ _, id) [e]) d =
    (if bool_decide (x = event_id e) then Return tt else Raise EventSequenceConflict, d).
Proof.
  intros Hok Hr Hx. unfold session_scope, atomically, insert_batch. mstep.
  rewrite (bool_decide_eq_false_2 (find_run w i d = None)) by done.
  rewrite bind_run. msimpl. rewrite bind_run. cbn [put imap insert_rows length].
  assert (existsb (clashes (_row_values w i id e)) (agent_run_events d) = true) as ->.
  { apply stored_id_Some in Hx as (r & Hin & Hkey & _); [|done].
    apply existsb_exists. exists r. split; [by apply list_elem_of_In|].
    unfold clashes. apply orb_true_iff. left. apply bool_decide_eq_true. symmetry. exact Hkey. }
  cbn [fst snd]. rewrite (bool_decide_eq_false_2 (0%nat = 1%nat)) by done.
  rewrite raise_if_cases. cbn [existsb]. rewrite set_events_id, Hx.
  repeat case_bool_decide; simplify_eq; done.
Qed.

Lemma insert_no_run w i id e d :
  find_run w i d = None →
  ∃ x, session_scope (insert_batch w i (λ _, id) [e]) d = (Raise x, d).
Proof.
  intros Hr. unfold session_scope, atomically, insert_batch. mstep.
  rewrite (bool_decide_eq_true_2 (find_run w i d = None)) by done. eauto.
Qed.

(** C30. Recording before publication is durable: when [arecord] of a structural
    event returns, the event is stored under its sequence number and stays so
    whatever is appended later.  Rows are only ever appended and sequence numbers
    and ids stay unique, also when the transaction fails before or after its
    commit.  A second event with a taken sequence number is refused without a
    write, recording the same event again changes nothing, and every failure is
    remembered by the recorder. *)
Theorem recorded_event_is_durable w i id e f s out s' :
  stream_ok (agent_run_events (db s)) → should_persist e = true →
  arecord w i id e f s = (out, s') →
  grows (db s) (db s') ∧
  (out = Return tt → ∀ d, grows (db s') d → stored w i d e) ∧
  (∀ x, stored_id w i (sequence e) (agent_run_events (db s)) = Some x → x ≠ event_id e →
     db s' = db s ∧ ∃ ex, out = Raise ex) ∧
  (stored w i (db s) e → find_run w i (db s) ≠ None → f = DbOk → out = Return tt ∧ s' = s) ∧
  (∀ ex, out = Raise ex → rec_failed (recorder s') = true).
Proof.
  intros Hok Hp E. destruct (arecord_spec _ _ _ _ _ _ _ _ Hok Hp E) as (Hg & _ & _ & _ & _ & Hs & Hx).
  split; [done|]. split; [intros -> d Hd; eapply stored_grows; eauto|].
  unfold arecord, _flush, catch, in_session in E. rewrite Hp in E. cbn [negb] in E.
  split; [|split; [|done]].
  - intros x Hst Hne.
    assert (∃ ex, session_scope (insert_batch w i (λ _, id) [e]) (db s) = (Raise ex, db s)) as [ex Hi].
    { destruct (find_run w i (db s)) eqn:Hr; [|by apply insert_no_run].
      erewrite insert_taken by (done || congruence). rewrite bool_decide_eq_false_2 by done. eauto. }
    destruct f; cbn [transact] in E; rewrite ?Hi in E;
      [destruct ex| |]; injection E as <- <-; eauto.
  - intros Hst Hr ->. cbn [transact] in E.
    erewrite insert_taken in E by done. rewrite bool_decide_eq_true_2 in E by done.
    injection E as <- <-. split; [done|]. by destruct s.
Qed.

(** Closing a recorder whose writer runs: the queue is flushed, then the mark is
    set by what the writer achieved. *)
Lemma aclose_spec w i rounds f out s s' r :
  stream_ok (agent_run_events (db s)) → None ∉ rec_queue (recorder s) →
  rec_writer (recorder s) = true → keys_ok (db s) → find_run w i (db s) = Some r →
  aclose w i rounds f s = (out, s') →
  ∃ t r', out = Return tt ∧ grows (db s) (db t) ∧
    agent_run_events (db s') = agent_run_events (db t) ∧ find_run w i (db s') = Some r' ∧
    mark_effect w i (rec_failed (recorder t)) (db t) r r' ∧
    (f = DbOk → rec_failed (recorder t) = true → run_event_log_failed r' = true ∧
                                                  run_event_log_complete r' = false) ∧
    (rec_failed (recorder t) = false → rec_failed (recorder s) = false ∧
       ∀ e, Some e ∈ rec_queue (recorder s) → stored w i (db t) e).
Proof.
  intros Hok Hq Hw Hk Hr E.
  unfold aclose in E. rewrite bind_run in E. cbn [get] in E. rewrite Hw in E. cbn [negb] in E.
  rewrite bind_run in E. unfold on_recorder at 1 in E. cbn [modify] in E.
  set (rc := default _ _) in E. set (s1 := {| db := db s; recorder := rc |}) in E.
  assert (rec_failed rc = rec_failed (recorder s) ∧
          (rec_queue rc = rec_queue (recorder s) ∨ rec_queue rc = rec_queue (recorder s) ++ [None]))
    as [Hrf Hrq].
  { unfold rc, put_nowait. destruct (_ <=? _)%nat; cbn; auto. }
  rewrite bind_run in E.
  destruct (run_writer_spec w i rounds s1 Hok) as (b & s2 & E2 & Hg & Hruns & Hf2 & Hq2).
  rewrite E2 in E. rewrite bind_run in E.
  set (s3 := if b then s2 else {| db := db s2; recorder := set_failed (recorder s2) |}).
  replace ((if b then mret () else on_recorder set_failed) s2) with (@Return Exn unit tt, s3) in E
    by (unfold s3; by destruct b).
  assert (Hdb3 : db s3 = db s2) by (unfold s3; by destruct b).
  destruct (mark_spec w i f s3 r) as (s4 & r' & E4 & Hr4 & _ & Hev & Heff & Hbad).
  { rewrite Hdb3. by eapply rows_of_keys. }
  { rewrite Hdb3. by rewrite (rows_of_run w i _ _ Hruns). }
  rewrite E4 in E. injection E as <- <-. exists s3, r'. rewrite Hdb3 in *.
  do 6 (split; [done|]). unfold s3. destruct b; [|done]. intros Hfl. pose proof (Hf2 Hfl) as Hf1.
  cbn in Hf1. split; [congruence|]. intros e Hin. destruct (Hq2 _ Hq) as [Hno Hyes].
  destruct Hrq as [Hrq|Hrq]; [by specialize (Hno Hrq)|by apply (Hyes Hrq)].
Qed.

(** C31. The completeness mark is sound: a recorder is started on a run and any
    number of events is offered to it, blocking or queued, interleaved with its
    writer and with other writers.  If closing it turns the run's
    [event_log_complete] on, every structural event offered is stored, no
    earlier failure was recorded on the run, and the stored stream ends with the
    event that belongs to the run's status.  A recorder that failed marks the
    run as failed, and closing never raises. *)
Theorem complete_mark_sound w i d0 s offered rounds f out s' r :
  stream_ok (agent_run_events d0) →
  rtc (recorder_step w i)
    ({| db := d0; recorder := {| rec_failed := false; rec_queue := []; rec_writer := true |} |}, [])
    (s, offered) →
  keys_ok (db s) → find_run w i (db s) = Some r →
  aclose w i rounds f s = (out, s') →
  out = Return tt ∧ grows (db s) (db s') ∧ ∃ r', find_run w i (db s') = Some r' ∧
  (run_event_log_complete r' = true → run_event_log_complete r = false →
     run_event_log_failed r = false ∧
     (∀ e, e ∈ offered → should_persist e = true → stored w i (db s') e) ∧
     ∃ row, row ∈ agent_run_events (db s') ∧ of_run w i row ∧
       completed_segment (run_status r') (Some (ev_event_type row)) = true ∧
       ∀ row', row' ∈ agent_run_events (db s') → of_run w i row' →
         ev_sequence row' <= ev_sequence row) ∧
  (rec_failed (recorder s) = true → f = DbOk →
     run_event_log_failed r' = true ∧ run_event_log_complete r' = false).
Proof.
  intros Hok0 Hst Hk Hr E.
  apply recorder_rtc_inv in Hst as [Hok Hq Hw Hkept]; cbn in *;
    [|split; cbn; [done|by apply not_elem_of_nil|done|by intros _ e ?%not_elem_of_nil]].
  destruct (aclose_spec _ _ _ _ _ _ _ _ Hok Hq Hw Hk Hr E)
    as (t & r' & -> & Hg & Hev & Hr' & Heff & Hbad & Hgood).
  split; [done|]. split. { destruct Hg as [Ha Hb]. split; by rewrite Hev. }
  exists r'. split; [done|]. split.
  - intros Hc Hc0. destruct Heff as [|Hfl|Hfl Hlf Hseg]; [congruence|done|].
    destruct (Hgood Hfl) as [Hf1 Hqueued]. split; [done|]. split.
    + intros e He Hp. unfold stored. rewrite Hev.
      destruct (Hkept Hf1 e He Hp) as [Hst|Hin]; [by eapply stored_grows in Hst|by apply Hqueued].
    + destruct (latest_type w i (db t)) as [ty|] eqn:Ht;
        [|by rewrite completed_segment_None in Hseg].
      apply latest_type_Some in Ht as (row & H1 & H2 & <- & H4).
      rewrite Hev. exists row. by split_and!.
  - intros Hb ->. apply Hbad; [done|]. destruct (rec_failed (recorder t)) eqn:E5; [done|].
    destruct (Hgood eq_refl). congruence.
Qed.

(** ** Witnesses *)

Definition done_event : AgentEvent :=
  {| event_id := [101%N]; request_id := [114%N]; step_id := None; sequence := 1;
     type := RUN_COMPLETED; event_run_id := 2; event_version_id := 5; timestamp := 30;
     payload := [] |}.
Definition started (r : AgentRun) : World :=
  {| db := lease_db r;
     recorder := {| rec_failed := false; rec_queue := []; rec_writer := true |} |}.
Definition done_run : AgentRun := set_run_status RunStatus.SUCCEEDED lease_run.
Definition recorded : World := (arecord 1 2 7 done_event DbOk (started done_run)).2.

Lemma started_ok r : stream_ok (agent_run_events (db (started r))).
Proof. split; apply NoDup_nil_2. Qed.

Lemma recorded_event_is_durable_witness : stored 1 2 (db recorded) done_event.
Proof.
  destruct (recorded_event_is_durable 1 2 7 done_event DbOk (started done_run) (Return tt) recorded)
    as (Hg & Hs & _).
  - apply started_ok.
  - reflexivity.
  - vm_compute. reflexivity.
  - apply Hs; [reflexivity|]. apply grows_refl, Hg.
Defined.

Lemma complete_mark_sound_witness :
  let s' := (aclose 1 2 [(λ _, 8%N, DbOk)] DbOk recorded).2 in
  stored 1 2 (db s') done_event ∧
  ∃ r', find_run 1 2 (db s') = Some r' ∧ run_event_log_complete r' = true.
Proof.
  assert (Hc : ∃ r', find_run 1 2 (db (aclose 1 2 [(λ _, 8%N, DbOk)] DbOk recorded).2) = Some r' ∧
    run_event_log_complete r' = true) by (eexists; split; vm_compute; reflexivity).
  split; [|exact Hc]. destruct Hc as (r' & Hr' & Hc).
  destruct (complete_mark_sound 1 2 (lease_db done_run) recorded [done_event]
    [(λ _, 8%N, DbOk)] DbOk (Return tt) (aclose 1 2 [(λ _, 8%N, DbOk)] DbOk recorded).2 done_run)
    as (_ & _ & r'' & Hr'' & H & _).
  - apply (started_ok done_run).
  - apply rtc_once. apply (Arecord 1 2 7 done_event DbOk (started done_run) []).
  - split; intros j x Hj; vm_compute in Hj; [|by destruct j].
    by destruct j as [|[|[]|]]; simplify_eq.
  - vm_compute. reflexivity.
  - vm_compute. reflexivity.
  - rewrite Hr' in Hr''. injection Hr'' as <-. destruct (H Hc) as (_ & Hst & _); [reflexivity|].
    apply Hst; [by left|reflexivity].
Defined.
