(* ===== verification/StreamHub.v ===== *)
(** * Live streams: the hub, its subscribers and the follower

    Model of [packages/agent_runtime/stream_hub.py] ([RunStreamHub] and the
    registry entry of one run), of the two ways the runtime publishes an event
    ([AgentEventEmitter] with [before_publish] in [open_stream], [_emit] in a
    resumed graph) and of [AgentRunService.attach_stream].

    One step is what runs between two suspension points of [asyncio]; tasks
    interleave step by step.  A step that would wait is [None] (or leaves the
    state alone). *)

From stdpp Require Import base gmap list strings sorting relations.
From Stdlib Require Import ZArith NArith Lia.
From S2P Require Import Prelude.
From S2P Require Import Json.
From S2P Require Import RunStore.
From S2P Require Import ExecutionLease.
From S2P Require Import EventStore.

Local Open Scope Z_scope.

(** ** The hub *)

Definition _SUBSCRIBER_QUEUE_MAXSIZE : nat := 512.
(** [asyncio.Queue(maxsize=256)] of [open_stream] *)
Definition source_maxsize : nat := 256.

Abbreviation queue := (list (option AgentEvent)) (only parsing).

(** [hub_queues] holds the queue of every open iterator, [hub_subscribers] the
    iterators still broadcast to; [hub_aborts] counts calls of the callback. *)
Record Hub := {
  hub_source : queue;
  hub_queues : gmap nat (list (option AgentEvent));
  hub_subscribers : gset nat;
  hub_grace : bool;
  hub_closed : bool;
  hub_last_sequence : Z;
  hub_aborts : nat
}.

Definition set_source (q : queue) (h : Hub) : Hub :=
  {| hub_source := q; hub_queues := hub_queues h; hub_subscribers := hub_subscribers h;
     hub_grace := hub_grace h; hub_closed := hub_closed h;
     hub_last_sequence := hub_last_sequence h; hub_aborts := hub_aborts h |}.
Definition set_subscriptions (qs : gmap nat (list (option AgentEvent))) (ss : gset nat) (h : Hub) :
  Hub :=
  {| hub_source := hub_source h; hub_queues := qs; hub_subscribers := ss;
     hub_grace := hub_grace h; hub_closed := hub_closed h;
     hub_last_sequence := hub_last_sequence h; hub_aborts := hub_aborts h |}.
Definition set_grace (g : bool) (h : Hub) : Hub :=
  {| hub_source := hub_source h; hub_queues := hub_queues h;
     hub_subscribers := hub_subscribers h; hub_grace := g; hub_closed := hub_closed h;
     hub_last_sequence := hub_last_sequence h; hub_aborts := hub_aborts h |}.
Definition set_closed (h : Hub) : Hub :=
  {| hub_source := hub_source h; hub_queues := hub_queues h;
     hub_subscribers := hub_subscribers h; hub_grace := hub_grace h; hub_closed := true;
     hub_last_sequence := hub_last_sequence h; hub_aborts := hub_aborts h |}.
Definition set_last_sequence (s : Z) (h : Hub) : Hub :=
  {| hub_source := hub_source h; hub_queues := hub_queues h;
     hub_subscribers := hub_subscribers h; hub_grace := hub_grace h; hub_closed := hub_closed h;
     hub_last_sequence := s; hub_aborts := hub_aborts h |}.
(** [self._abort()] *)
Definition call_abort (h : Hub) : Hub :=
  {| hub_source := hub_source h; hub_queues := hub_queues h;
     hub_subscribers := hub_subscribers h; hub_grace := hub_grace h; hub_closed := hub_closed h;
     hub_last_sequence := hub_last_sequence h; hub_aborts := S (hub_aborts h) |}.

(** [_broadcast] to one queue: a full queue gives up its oldest entry for the
    sentinel, and its subscriber is dropped. *)
Definition full (q : queue) : bool := (_SUBSCRIBER_QUEUE_MAXSIZE <=? length q)%nat.
Definition offer (x : option AgentEvent) (q : queue) : queue :=
  if full q then tail q ++ [None] else q ++ [x].
Definition kept (h : Hub) (k : nat) : Prop :=
  match hub_queues h !! k with Some q => full q = false | None => True end.
#[global] Instance kept_dec h k : Decision (kept h k).
Proof. unfold kept. destruct (hub_queues h !! k); apply _. Defined.
Definition _broadcast (x : option AgentEvent) (h : Hub) : Hub :=
  set_subscriptions
    (map_imap (λ k q, Some (if decide (k ∈ hub_subscribers h) then offer x q else q))
       (hub_queues h))
    (filter (kept h) (hub_subscribers h)) h.

Definition _cancel_grace (h : Hub) : Hub := set_grace false h.

(** [subscribe()] up to its first [queue.get()]; a closed hub ends it at once. *)
Definition subscribe (k : nat) (h : Hub) : Hub :=
  if hub_closed h then h
  else _cancel_grace
         (set_subscriptions (<[k := []]> (hub_queues h)) ({[k]} ∪ hub_subscribers h) h).

Section Grace.
(** [grace_seconds is not None] *)
Context (grace_enabled : bool).

Definition _start_grace_if_idle (h : Hub) : Hub :=
  if negb grace_enabled then h
  else if hub_closed h || negb (bool_decide (hub_subscribers h = ∅)) || hub_grace h then h
  else set_grace true h.

(** The [finally] of [subscribe()]. *)
Definition leave_hub (k : nat) (h : Hub) : Hub :=
  _start_grace_if_idle
    (set_subscriptions (delete k (hub_queues h)) (hub_subscribers h ∖ {[k]}) h).

(** One [queue.get()] of iterator [k]: [Some (Some e)] yields [e], [Some None]
    ends the iteration, [None] waits. *)
Definition next (k : nat) (h : Hub) : option (option AgentEvent * Hub) :=
  match hub_queues h !! k with
  | Some (Some e :: q) =>
      Some (Some e, set_subscriptions (<[k := q]> (hub_queues h)) (hub_subscribers h) h)
  | Some (None :: _) => Some (None, leave_hub k h)
  | _ => None
  end.
End Grace.

(** [_grace()], when its sleep is over. *)
Definition grace_expired (h : Hub) : Hub :=
  if negb (hub_grace h) then h
  else let h := set_grace false h in
       if hub_closed h || negb (bool_decide (hub_subscribers h = ∅)) then h else call_abort h.

Definition abort_if_unwatched (h : Hub) : Hub :=
  let h := _cancel_grace h in
  if hub_closed h || negb (bool_decide (hub_subscribers h = ∅)) then h else call_abort h.

(** ** The hub with its recorder and its place in the registry *)

Record Live := { hub : Hub; world : World; registered : bool }.

Definition on_hub (f : Hub → Hub) (l : Live) : Live :=
  {| hub := f (hub l); world := world l; registered := registered l |}.

Section Pump.
Context (w i : uuid) (source_persisted : bool).

(** [_finish]; [on_closed] is the registry's [discard]. *)
Definition _finish (rounds : list ((nat → uuid) * db_fault)) (f : db_fault) (l : Live) : Live :=
  let h := _broadcast None (_cancel_grace (set_closed (hub l))) in
  {| hub := set_subscriptions (hub_queues h) ∅ h;
     world := (aclose w i rounds f (world l)).2;
     registered := false |}.

(** One round of [_run_pump]. *)
Definition pump_step (id : uuid) (f : db_fault) (rounds : list ((nat → uuid) * db_fault))
    (f' : db_fault) (l : Live) : Live :=
  if hub_closed (hub l) then l
  else match hub_source (hub l) with
       | [] => l
       | None :: rest => _finish rounds f' (on_hub (set_source rest) l)
       | Some e :: rest =>
           let l := on_hub (λ h, set_last_sequence (sequence e) (set_source rest h)) l in
           if source_persisted then on_hub (_broadcast (Some e)) l
           else match arecord w i id e f (world l) with
                | (Return _, wd) =>
                    on_hub (_broadcast (Some e))
                      {| hub := hub l; world := wd; registered := registered l |}
                | (Raise _, wd) =>
                    _finish rounds f' {| hub := hub l; world := wd; registered := registered l |}
                end
       end.

(** [aclose()]: the pump, if still running, is cancelled and finishes. *)
Definition hub_aclose (rounds : list ((nat → uuid) * db_fault)) (f : db_fault) (l : Live) : Live :=
  let l := on_hub _cancel_grace l in
  if hub_closed (hub l) then l else _finish rounds f l.
End Pump.

(** [RunStreamRegistry.get]: a closed hub is forgotten. *)
Definition registry_get (l : Live) : bool * Live :=
  if registered l
  then if hub_closed (hub l)
       then (false, {| hub := hub l; world := world l; registered := false |})
       else (true, l)
  else (false, l).

(** ** Publishing *)

(** [_close_event_queue] *)
Definition _close_event_queue (q : queue) : queue :=
  if (length q <? source_maxsize)%nat then q ++ [None] else tail q ++ [None].

Section Publish.
Context `{SafeTexts} (w i : uuid).

(** [AgentEventEmitter.emit] with [before_publish = recorder.arecord]: recorded
    before the lock is released. *)
Definition emit_recorded (ty : AgentEventType) (data : list (list N * json)) (fresh : list N)
    (at_ : datetime) (id : uuid) (f : db_fault) (em : Emitter) (wd : World) :
  option AgentEvent * Emitter * World :=
  match emit ty data fresh at_ em with
  | (None, em') => (None, em', wd)
  | (Some e, em') =>
      match arecord w i id e f wd with
      | (Return _, wd') => (Some e, em', wd')
      | (Raise _, wd') => (None, em', wd')
      end
  end.
End Publish.

(** ** The follower: [attach_stream] *)

(** Where [attach_stream] goes on when a [replay()] is exhausted. *)
Inductive point :=
  | AfterOpen | AfterGap (e : AgentEvent) | AfterWatch | AfterPoll | AfterStop.
Inductive pc := Replaying (p : point) | Watching | Polling | Finished.

Record Follower := { cursor : Z; out : list AgentEvent; at_pc : pc }.

Definition STREAM_FOLLOW_STOP_STATUSES : list RunStatus.t :=
  [RunStatus.SUCCEEDED; RunStatus.FAILED; RunStatus.CANCELLED; RunStatus.NEEDS_ATTENTION;
    RunStatus.WAITING_APPROVAL].
Definition _run_stopped_publishing (w i : uuid) (d : Db) : bool :=
  match find_run w i d with
  | Some r => bool_decide (run_status r ∈ STREAM_FOLLOW_STOP_STATUSES)
  | None => false
  end.

Definition goto (p : pc) (fo : Follower) : Follower :=
  {| cursor := cursor fo; out := out fo; at_pc := p |}.
Definition yield_event (e : AgentEvent) (fo : Follower) : Follower :=
  {| cursor := sequence e; out := out fo ++ [e]; at_pc := at_pc fo |}.
Definition yield_all (l : list AgentEvent) (fo : Follower) : Follower :=
  foldl (λ fo e, yield_event e fo) fo l.

(** The end of the loop body: skip what was already seen. *)
Definition offer_live (e : AgentEvent) (fo : Follower) : Follower :=
  goto Watching (if sequence e <=? cursor fo then fo else yield_event e fo).

Section Follow.
Context `{SafeTexts} (w i : uuid) (grace_enabled : bool) (version : uuid) (fresh : list N)
  (k : nat).

(** What follows an exhausted replay, up to the next suspension. *)
Definition after_replay (p : point) (l : Live) (fo : Follower) : Live * Follower :=
  match p with
  | AfterOpen =>
      let '(found, l) := registry_get l in
      if found then (on_hub (subscribe k) l, goto Watching fo) else (l, goto Polling fo)
  | AfterGap e => (l, offer_live e fo)
  | AfterWatch => (l, goto (if hub_closed (hub l) then Finished else Polling) fo)
  | AfterPoll => (l, goto Polling fo)
  | AfterStop => (l, goto Finished fo)
  end.

(** [None]: waiting, finished, or an exception of [read_after]. *)
Definition attach_step (l : Live) (fo : Follower) : option (Live * Follower) :=
  match at_pc fo with
  | Replaying p =>
      events ← read_after w i version fresh (cursor fo) 500 (db (world l));
      match events with
      | [] => Some (after_replay p l fo)
      | _ => Some (l, yield_all events fo)
      end
  | Watching =>
      x ← next grace_enabled k (hub l);
      let l' := on_hub (λ _, x.2) l in
      match x.1 with
      | None => Some (l', goto (Replaying AfterWatch) fo)
      | Some e =>
          if cursor fo + 1 <? sequence e then Some (l', goto (Replaying (AfterGap e)) fo)
          else Some (l', offer_live e fo)
      end
  | Polling =>
      Some (l, goto (Replaying (if _run_stopped_publishing w i (db (world l))
                                then AfterStop else AfterPoll)) fo)
  | Finished => None
  end.
End Follow.

(** [attach_stream] begins with a replay. *)
Definition attach (after_sequence : Z) : Follower :=
  {| cursor := after_sequence; out := []; at_pc := Replaying AfterOpen |}.

(** ** The system around one follower

    [in_flight] are events on their way to the source queue of the hub.  After a
    resume [resumed] is the recorder of the resumed execution (a new one), and
    [recording] holds the events its emitter numbered and did not record yet. *)

Record Sys := {
  live : Live;
  emitter : Emitter;
  in_flight : list AgentEvent;
  resumed : option Recorder;
  recording : list AgentEvent;
  follower : Follower
}.
Definition with_live (l : Live) (s : Sys) : Sys :=
  {| live := l; emitter := emitter s; in_flight := in_flight s; resumed := resumed s;
     recording := recording s; follower := follower s |}.
Definition with_flight (l : list AgentEvent) (s : Sys) : Sys :=
  {| live := live s; emitter := emitter s; in_flight := l; resumed := resumed s;
     recording := recording s; follower := follower s |}.
Definition with_follower (l : Live) (fo : Follower) (s : Sys) : Sys :=
  {| live := l; emitter := emitter s; in_flight := in_flight s; resumed := resumed s;
     recording := recording s; follower := fo |}.
Definition with_world (wd : World) (l : Live) : Live :=
  {| hub := hub l; world := wd; registered := registered l |}.
Definition with_db (d : Db) (l : Live) : Live :=
  with_world {| db := d; recorder := recorder (world l) |} l.

Section System.
Context `{SafeTexts} (w i : uuid) (grace_enabled : bool) (version : uuid) (fresh : list N)
  (k : nat).

(** What everybody but iterator [k] does to the hub. *)
Inductive hub_op : Hub → Hub → Prop :=
| Subscribe k' h : k' ≠ k → hub_queues h !! k' = None → hub_op h (subscribe k' h)
| Next k' h x h' : k' ≠ k → next grace_enabled k' h = Some (x, h') → hub_op h h'
| Leave k' h : k' ≠ k → is_Some (hub_queues h !! k') → hub_op h (leave_hub grace_enabled k' h)
| GraceOver h : hub_op h (grace_expired h)
| AbortUnwatched h : hub_op h (abort_if_unwatched h).

(** [emitter.emit] of a stream opened by [open_stream]; the event then waits to
    be put on the source queue. *)
Definition publish (ty : AgentEventType) (data : list (list N * json)) (fr : list N)
    (at_ : datetime) (id : uuid) (f : db_fault) (s : Sys) : Sys :=
  let out := emit_recorded w i ty data fr at_ id f (emitter s) (world (live s)) in
  {| live := with_world out.2 (live s); emitter := out.1.2;
     in_flight := option_list out.1.1 ++ in_flight s; resumed := resumed s;
     recording := recording s; follower := follower s |}.

(** [AgentRunService.resume]: an emitter that goes on after the last stored
    event, and a recorder of its own; no hub and no [before_publish]. *)
Definition resume (request : list N) (s : Sys) : Sys :=
  {| live := live s;
     emitter := {| em_run := em_run (emitter s); em_version := em_version (emitter s);
                   em_request := request;
                   em_sequence := latest_sequence w i (db (world (live s))) |};
     in_flight := in_flight s;
     resumed := Some {| rec_failed := false; rec_queue := []; rec_writer := false |};
     recording := recording s; follower := follower s |}.

(** The two halves of [_emit] in a resumed graph: the event is numbered under
    the emitter's lock, and recorded after it, in a transaction of its own;
    parallel tool calls do both concurrently. *)
Definition number_event (ty : AgentEventType) (data : list (list N * json)) (fr : list N)
    (at_ : datetime) (s : Sys) : Sys :=
  let out := emit ty data fr at_ (emitter s) in
  {| live := live s; emitter := out.2; in_flight := in_flight s; resumed := resumed s;
     recording := option_list out.1 ++ recording s; follower := follower s |}.
Definition record_event (rc : Recorder) (id : uuid) (f : db_fault) (e : AgentEvent)
    (rest : list AgentEvent) (s : Sys) : Sys :=
  let wd := (arecord w i id e f {| db := db (world (live s)); recorder := rc |}).2 in
  {| live := with_db (db wd) (live s); emitter := emitter s; in_flight := in_flight s;
     resumed := Some (recorder wd); recording := rest; follower := follower s |}.

Inductive stream_step : Sys → Sys → Prop :=
| Publish ty data fr at_ id f s :
    resumed s = None → fr ≠ [] → stream_step s (publish ty data fr at_ id f s)
| PutSource e l1 l2 s :
    in_flight s = l1 ++ e :: l2 → (length (hub_source (hub (live s))) < source_maxsize)%nat →
    stream_step s
      (with_live (on_hub (λ h, set_source (hub_source h ++ [Some e]) h) (live s))
         (with_flight (l1 ++ l2) s))
| PutGivenUp e l1 l2 s :
    in_flight s = l1 ++ e :: l2 → stream_step s (with_flight (l1 ++ l2) s)
| CloseSource s :
    stream_step s
      (with_live (on_hub (λ h, set_source (_close_event_queue (hub_source h)) h) (live s)) s)
| Pump id f rounds f' s :
    stream_step s (with_live (pump_step w i true id f rounds f' (live s)) s)
| HubClose rounds f s : stream_step s (with_live (hub_aclose w i rounds f (live s)) s)
| HubOp h' s :
    hub_op (hub (live s)) h' → stream_step s (with_live (on_hub (λ _, h') (live s)) s)
| Resume request s : stream_step s (resume request s)
| PublishResumed ty data fr at_ s :
    resumed s ≠ None → fr ≠ [] → stream_step s (number_event ty data fr at_ s)
| RecordResumed rc id f e l1 l2 s :
    resumed s = Some rc → recording s = l1 ++ e :: l2 →
    stream_step s (record_event rc id f e (l1 ++ l2) s)
| OtherTables d s :
    agent_run_events (db (world (live s))) `prefix_of` agent_run_events d →
    NoDup (ev_id <$> agent_run_events d) →
    NoDup ((λ r, (ev_workspace_id r, ev_agent_run_id r, ev_sequence r)) <$> agent_run_events d) →
    filter (of_run w i) (agent_run_events d)
      = filter (of_run w i) (agent_run_events (db (world (live s)))) →
    stream_step s (with_live (with_db d (live s)) s)
| Follow l fo s :
    attach_step w i grace_enabled version fresh k (live s) (follower s) = Some (l, fo) →
    stream_step s (with_follower l fo s).
End System.

(** ** The life of a hub *)

Inductive hub_life (w i : uuid) (source_persisted grace_enabled : bool) : Live → Live → Prop :=
| LifeSubscribe k l :
    hub_queues (hub l) !! k = None →
    hub_life w i source_persisted grace_enabled l (on_hub (subscribe k) l)
| LifeNext k x h' l :
    next grace_enabled k (hub l) = Some (x, h') →
    hub_life w i source_persisted grace_enabled l (on_hub (λ _, h') l)
| LifeLeave k l :
    is_Some (hub_queues (hub l) !! k) →
    hub_life w i source_persisted grace_enabled l (on_hub (leave_hub grace_enabled k) l)
| LifeGrace l : hub_life w i source_persisted grace_enabled l (on_hub grace_expired l)
| LifeAbort l : hub_life w i source_persisted grace_enabled l (on_hub abort_if_unwatched l)
| LifeSource q l : hub_life w i source_persisted grace_enabled l (on_hub (set_source q) l)
| LifePump id f rounds f' l :
    hub_life w i source_persisted grace_enabled l
      (pump_step w i source_persisted id f rounds f' l)
| LifeClose rounds f l :
    hub_life w i source_persisted grace_enabled l (hub_aclose w i rounds f l).
