(* ===== verification/StreamTheory.v ===== *)
(** * Replay pages and the publisher's invariant

    Lemmas for [StreamHub.v]: a stored row rebuilds its event, a page of
    [read_after] is the next stretch of the stream, and publishing under the
    emitter's lock only appends beyond everything published before. *)

From stdpp Require Import base gmap list strings sorting relations.
From Stdlib Require Import ZArith NArith Lia.
From S2P Require Import Prelude.
From S2P Require Import Json.
From S2P Require Import RunStore.
From S2P Require Import ExecutionLease.
From S2P Require Import EventStore.
From S2P Require Import EventStoreProperties.
From S2P Require Import StreamHub.

Local Open Scope Z_scope.

(** ** Rows and events *)

Lemma parse_type_value t : parse_type (event_type_value t) = Some t.
Proof. by destruct t. Qed.

Section Stream.
Context `{HS : SafeTexts} (w i version : uuid).

(** What [AgentEvent.__init__] guarantees of an event of this run. *)
Record good (e : AgentEvent) : Prop := {
  good_sequence : 1 <= sequence e;
  good_request : request_id e ≠ [];
  good_id : event_id e ≠ [];
  good_run : event_run_id e = i;
  good_version : event_version_id e = version;
  good_payload : _validated_data (type e) (payload e) = Some (payload e)
}.

Lemma new_event_good seq ty req step eid fresh at_ data e :
  fresh ≠ [] → new_event seq ty req i version step eid fresh at_ data = Some e →
  good e ∧ sequence e = seq.
Proof.
  intros Hfr. unfold new_event. destruct (seq <? 1) eqn:Hs; [done|].
  case_bool_decide as Hr; [done|]. intros (p & Hp & E)%bind_Some. simplify_eq.
  apply Z.ltb_ge in Hs. unfold _validated_data in Hp. destruct (forallb _ data) eqn:Ef; [|done].
  simplify_eq. split; [|done]. split; cbn; try done; [by destruct eid as [[|]|]|].
  unfold _validated_data. by rewrite Ef.
Qed.

Lemma event_row_round_trip fresh id e :
  good e → _event_from_row version fresh (_row_values w i id e) = Some e.
Proof.
  intros [Hs Hr Hi Hrun Hv Hp]. unfold _event_from_row.
  change (ev_event_type (_row_values w i id e)) with (event_type_value (type e)).
  rewrite parse_type_value. cbn. unfold new_event. rewrite (proj2 (Z.ltb_ge _ _) Hs), bool_decide_eq_false_2 by done.
  rewrite Hp. cbn. rewrite <- Hrun, <- Hv. destruct (event_id e) as [|c s] eqn:Ee; [done|].
  rewrite <- Ee. by destruct e.
Qed.

(** Row [row] stores event [e]. *)
Definition stores (row : AgentRunEvent) (e : AgentEvent) : Prop :=
  good e ∧ ∃ id, row = _row_values w i id e.

Lemma stores_sequence row e : stores row e → ev_sequence row = sequence e ∧ of_run w i row.
Proof. by intros [_ [id ->]]. Qed.

Lemma mapM_stores fresh rows :
  (∀ row, row ∈ rows → ∃ e, stores row e) →
  ∃ events, mapM (_event_from_row version fresh) rows = Some events ∧
    Forall2 stores rows events.
Proof.
  intros Hr. assert (∃ events, Forall2 stores rows events) as [events Hf].
  { induction rows as [|row rows IH]; [by exists []|].
    destruct (Hr row) as [e He]; [by left|]. destruct IH as [es Hf].
    { intros r ?. apply Hr. by right. }
    exists (e :: es). by constructor. }
  exists events. split; [|done]. apply mapM_Some_2.
  apply (Forall2_impl _ _ _ _ Hf). intros row e [Hg [id ->]]. by apply event_row_round_trip.
Qed.

(** ** One page of the stream *)

Lemma strictly_sorted log rows :
  stream_ok log → NoDup rows → (∀ r, r ∈ rows → r ∈ log ∧ of_run w i r) →
  StronglySorted seq_le rows → StronglySorted Z.lt (ev_sequence <$> rows).
Proof.
  intros Hok. induction rows as [|r rows IH]; intros Hnd Hin Hs; [constructor|].
  apply NoDup_cons in Hnd as [Hr Hnd]. apply StronglySorted_inv in Hs as [Hs Hall].
  cbn. constructor; [apply IH; auto; intros x ?; apply Hin; by right|].
  apply Forall_forall. intros z (x & -> & Hx)%list_elem_of_fmap.
  pose proof (proj1 (Forall_forall _ _) Hall x Hx) as Hle. unfold seq_le in Hle.
  destruct (decide (ev_sequence r = ev_sequence x)) as [E|]; [|lia]. destruct Hr.
  destruct (Hin r) as [H1 [H2 H3]]; [by left|]. destruct (Hin x) as [H4 [H5 H6]]; [by right|].
  replace r with x; [done|]. apply (key_unique log); [done..|].
  unfold key_of. congruence.
Qed.

Definition rows_after (after : Z) (d : Db) : list AgentRunEvent :=
  merge_sort seq_le (filter (λ r, of_run w i r ∧ after < ev_sequence r) (agent_run_events d)).

Lemma rows_after_spec after d :
  stream_ok (agent_run_events d) →
  StronglySorted Z.lt (ev_sequence <$> rows_after after d) ∧
  ∀ r, r ∈ rows_after after d ↔
       r ∈ agent_run_events d ∧ of_run w i r ∧ after < ev_sequence r.
Proof.
  intros Hok. unfold rows_after. set (l := filter _ _).
  assert (Htr : Transitive seq_le) by (intros ???; unfold seq_le; lia).
  assert (Hto : Total seq_le) by (intros ??; unfold seq_le; lia).
  pose proof (merge_sort_Permutation seq_le l) as Hp.
  assert (Hin : ∀ r, r ∈ merge_sort seq_le l ↔
    r ∈ agent_run_events d ∧ of_run w i r ∧ after < ev_sequence r).
  { intros r. rewrite Hp. unfold l. rewrite list_elem_of_filter. tauto. }
  split; [|done]. apply (strictly_sorted (agent_run_events d)); [done| | |].
  - rewrite Hp. apply NoDup_filter, (NoDup_fmap_1 key_of), Hok.
  - intros r (? & ? & _)%Hin. done.
  - apply Sorted_StronglySorted; [done|]. by apply Sorted_merge_sort.
Qed.

Lemma Forall2_sequences rows events :
  Forall2 stores rows events → ev_sequence <$> rows = sequence <$> events.
Proof.
  induction 1 as [|row e rows events Hs _ IH]; cbn; [done|]. f_equal; [|done].
  by apply stores_sequence.
Qed.

Lemma sorted_last events e x :
  StronglySorted Z.lt (sequence <$> events) → e ∈ events → last events = Some x →
  sequence e <= sequence x.
Proof.
  intros Hs He [l ->]%last_Some. rewrite fmap_app in Hs.
  apply elem_of_app in He as [He| ->%list_elem_of_singleton]; [|done].
  pose proof (StronglySorted_app_1_elem_of _ _ _ (sequence e) (sequence x) Hs) as H.
  rewrite !list_elem_of_fmap in H. specialize (H ltac:(eauto)).
  apply Z.lt_le_incl, H. exists x. split; [done|]. by left.
Qed.

(** Rows of the run, each the image of an event. *)
Definition run_rows (log : list AgentRunEvent) : Prop :=
  ∀ row, row ∈ log → of_run w i row → ∃ e, stores row e.

(** The last sequence number of a page, the next cursor. *)
Definition page_end (after : Z) (events : list AgentEvent) : Z :=
  default after (sequence <$> last events).

Lemma read_after_spec fresh after limit d :
  stream_ok (agent_run_events d) → run_rows (agent_run_events d) →
  ∃ events, read_after w i version fresh after limit d = Some events ∧
    StronglySorted Z.lt (sequence <$> events) ∧
    (∀ e, e ∈ events → after < sequence e <= page_end after events ∧
       ∃ row, row ∈ agent_run_events d ∧ stores row e) ∧
    (∀ row, row ∈ agent_run_events d → of_run w i row →
       after < ev_sequence row <= page_end after events → ∃ e, e ∈ events ∧ stores row e) ∧
    (events = [] → limit ≠ 0%nat → ∀ row, row ∈ agent_run_events d → of_run w i row →
       ev_sequence row <= after).
Proof.
  intros Hok Hrows. unfold read_after. fold (rows_after after d).
  destruct (rows_after_spec after d Hok) as [Hsort Hin].
  set (all := rows_after after d) in *. set (page := take limit all).
  destruct (mapM_stores fresh page) as (events & Hm & Hf).
  { intros row Hr. destruct (proj1 (Hin row)) as (? & ? & _); [|by apply Hrows].
    rewrite <- (take_drop limit all). apply elem_of_app. by left. }
  pose proof (Forall2_sequences _ _ Hf) as Hseq.
  assert (Hss : StronglySorted Z.lt (sequence <$> events)).
  { rewrite <- Hseq. rewrite <- (take_drop limit all), fmap_app in Hsort.
    by apply StronglySorted_app_1_l in Hsort. }
  assert (Hev : ∀ e, e ∈ events → ∃ row, row ∈ page ∧ stores row e).
  { intros e [j Hj]%list_elem_of_lookup.
    destruct (Forall2_lookup_r _ _ _ _ _ Hf Hj) as (row & Hrow & ?).
    exists row. split; [|done]. by eapply list_elem_of_lookup_2. }
  assert (Hpage : ∀ row, row ∈ page → row ∈ agent_run_events d ∧ of_run w i row ∧
    after < ev_sequence row).
  { intros row Hr. apply Hin. rewrite <- (take_drop limit all). apply elem_of_app. by left. }
  exists events. split; [done|]. split; [done|]. split; [|split].
  - intros e He. destruct (Hev e He) as (row & Hr & Hst).
    destruct (Hpage row Hr) as (? & _ & Hlt). destruct (stores_sequence _ _ Hst) as [Es _].
    split; [|eauto]. split; [lia|]. unfold page_end.
    destruct (last events) as [x|] eqn:Hl; cbn; [by eapply sorted_last|].
    apply last_None in Hl as ->. by apply not_elem_of_nil in He.
  - intros row Hr Ho [Hlt Hle].
    assert (row ∈ page ++ drop limit all) as [Hp|Hd]%elem_of_app
      by (unfold page; rewrite take_drop; by apply Hin).
    + apply list_elem_of_lookup in Hp as [j Hj].
      destruct (Forall2_lookup_l _ _ _ _ _ Hf Hj) as (e & He & Hst).
      exists e. split; [|done]. by eapply list_elem_of_lookup_2.
    + exfalso. unfold page_end in Hle. destruct (last events) as [x|] eqn:Hl; cbn in Hle; [|lia].
      destruct (Hev x (last_Some_elem_of _ _ Hl)) as (rx & Hrx & Hst).
      destruct (stores_sequence _ _ Hst) as [Es _].
      rewrite <- (take_drop limit all), fmap_app in Hsort.
      pose proof (StronglySorted_app_1_elem_of _ _ _ (ev_sequence rx) (ev_sequence row) Hsort)
        as Hcon. rewrite !list_elem_of_fmap in Hcon.
      specialize (Hcon ltac:(eauto) ltac:(eauto)). lia.
  - intros -> Hlim row Hr Ho. apply Forall2_nil_inv_r in Hf.
    assert (all = []) as Hall. { unfold page in Hf. by destruct all, limit. }
    destruct (Z.le_gt_cases (ev_sequence row) after) as [|Hgt]; [done|].
    assert (row ∈ all) as Hx by (by apply Hin). rewrite Hall in Hx. by apply not_elem_of_nil in Hx.
Qed.

(** ** What has been published

    [strict]: only a publisher that records under its lock has numbered
    everything; of a resumed one the weaker half holds. *)

Context (strict : bool).

(** The log has moved on: new rows of the run lie beyond everything numbered
    before. *)
Record advance (log : list AgentRunEvent) (n : Z) (log' : list AgentRunEvent) (n' : Z) : Prop := {
  adv_number : strict = true → n <= n';
  adv_old : ∀ row, row ∈ log → row ∈ log';
  adv_new : strict = true → ∀ row, row ∈ log' → of_run w i row → row ∈ log ∨ n < ev_sequence row
}.

Lemma advance_number log n n' : (strict = true → n <= n') → advance log n log n'.
Proof. split; [done|done|by left]. Qed.
Lemma advance_row log n row :
  n < ev_sequence row → advance log n (log ++ [row]) (ev_sequence row).
Proof.
  split; [lia| |].
  - intros r ?. apply elem_of_app. by left.
  - intros _ r [?| ->%list_elem_of_singleton]%elem_of_app _; [by left|by right].
Qed.

(** A structural event is stored before anybody sees it; the number of a
    delta is never stored. *)
Record published (log : list AgentRunEvent) (n : Z) (e : AgentEvent) : Prop := {
  pu_number : strict = true → sequence e <= n;
  pu_stored : should_persist e = true → ∃ row, row ∈ log ∧ stores row e;
  pu_skipped : strict = true → should_persist e = false →
    ∀ row, row ∈ log → of_run w i row → ev_sequence row ≠ sequence e
}.

Lemma published_advance log n log' n' e :
  advance log n log' n' → published log n e → published log' n' e.
Proof.
  intros [Hn Ho Hw] [H1 H2 H3]. split.
  - intros Hs. specialize (Hn Hs). specialize (H1 Hs). lia.
  - intros (row & ? & ?)%H2. eauto.
  - intros Hs Hp row Hr Hof. specialize (H1 Hs). destruct (Hw Hs row Hr Hof); [by apply H3|lia].
Qed.

(** A row that stores a structural event keeps it published. *)
Lemma stored_published log n row e :
  row ∈ log → stores row e → should_persist e = true → (strict = true → sequence e <= n) →
  published log n e.
Proof. intros ??? ?. split; [done|eauto|congruence]. Qed.

(** ** What a follower has seen *)

Record seen (after : Z) (log : list AgentRunEvent) (n : Z) (fo : Follower) : Prop := {
  sn_sorted : StronglySorted Z.lt (sequence <$> out fo);
  sn_range : ∀ e, e ∈ out fo → after < sequence e <= cursor fo;
  sn_published : ∀ e, e ∈ out fo → published log n e;
  sn_cursor : after <= cursor fo ∧ (strict = true → cursor fo = after ∨ cursor fo <= n);
  sn_complete : strict = true → ∀ row, row ∈ log → of_run w i row → after < ev_sequence row <= cursor fo →
    ∃ e, e ∈ out fo ∧ stores row e
}.

Lemma seen_advance after log n log' n' fo :
  advance log n log' n' → seen after log n fo → seen after log' n' fo.
Proof.
  intros Ha [H1 H2 H3 [H4 H4'] H5]. split; [done|done| |split; [done|]|].
  - intros e He. eapply published_advance; eauto.
  - intros Hst. pose proof (adv_number _ _ _ _ Ha Hst). destruct (H4' Hst); [by left|right; lia].
  - intros Hst row Hr Ho Hs. destruct Ha as [_ _ Hw].
    destruct (Hw Hst row Hr Ho); [by apply H5|]. destruct (H4' Hst); lia.
Qed.

Lemma seen_goto after log n fo p : seen after log n fo → seen after log n (goto p fo).
Proof. intros [H1 H2 H3 H4 H5]. by split. Qed.

Lemma yield_all_spec events fo :
  yield_all events fo = {| cursor := page_end (cursor fo) events; out := out fo ++ events;
                           at_pc := at_pc fo |}.
Proof.
  revert fo. induction events as [|e events IH]; intros fo.
  { cbn. rewrite app_nil_r. by destruct fo. }
  change (yield_all (e :: events) fo) with (yield_all events (yield_event e fo)). rewrite IH. cbn. rewrite <- app_assoc. f_equal. unfold page_end.
  rewrite last_cons. by destruct (last events).
Qed.

(** Appending a stretch that leaves no stored row out. *)
Lemma seen_append after log n fo events c p :
  seen after log n fo → cursor fo <= c → (strict = true → c = cursor fo ∨ c <= n) →
  StronglySorted Z.lt (sequence <$> events) →
  (∀ e, e ∈ events → cursor fo < sequence e <= c ∧ published log n e) →
  (strict = true → ∀ row, row ∈ log → of_run w i row → cursor fo < ev_sequence row <= c →
     ∃ e, e ∈ events ∧ stores row e) →
  seen after log n {| cursor := c; out := out fo ++ events; at_pc := p |}.
Proof.
  intros [H1 H2 H3 [H4a H4b] H5] Hc Hn Hs He Hr. split; cbn.
  - rewrite fmap_app. apply StronglySorted_app_2; [|done..].
    intros x y (a & -> & Ha)%list_elem_of_fmap (b & -> & Hb)%list_elem_of_fmap.
    specialize (H2 a Ha). destruct (He b Hb). lia.
  - intros e [Hin|Hin]%elem_of_app; [specialize (H2 e Hin); lia|].
    destruct (He e Hin). lia.
  - intros e [Hin|Hin]%elem_of_app; [by apply H3|by apply He].
  - split; [lia|]. intros Hst. destruct (Hn Hst) as [->|]; [by apply H4b|by right].
  - intros Hst row Hin Ho [Hl Hle]. destruct (Z.le_gt_cases (ev_sequence row) (cursor fo)).
    + destruct (H5 Hst row Hin Ho) as (e & ? & ?); [done|]. exists e. rewrite elem_of_app. eauto.
    + destruct (Hr Hst row Hin Ho) as (e & ? & ?); [done|]. exists e. rewrite elem_of_app. eauto.
Qed.

(** Rows of the run store structural events already numbered. *)
Definition numbered (log : list AgentRunEvent) (n : Z) : Prop :=
  ∀ row, row ∈ log → of_run w i row →
    ∃ e, stores row e ∧ should_persist e = true ∧ (strict = true → sequence e <= n).

Lemma numbered_run_rows log n : numbered log n → run_rows log.
Proof. intros H row Hr Ho. destruct (H row Hr Ho) as (e & ? & _). eauto. Qed.

Lemma numbered_le log n n' : n <= n' → numbered log n → numbered log n'.
Proof.
  intros Hle H row Hr Ho. destruct (H row Hr Ho) as (e & ? & ? & Hn). exists e.
  split; [done|]. split; [done|]. intros Hst. specialize (Hn Hst). lia.
Qed.

Lemma stores_inj row e e' : stores row e → stores row e' → e = e'.
Proof.
  intros [Hg [id ->]] [Hg' [id' E]]. apply (f_equal (_event_from_row version [])) in E.
  rewrite !event_row_round_trip in E by done. congruence.
Qed.

(** A replayed page. *)
Lemma seen_page after d n fresh fo limit :
  stream_ok (agent_run_events d) → numbered (agent_run_events d) n →
  seen after (agent_run_events d) n fo →
  ∃ events, read_after w i version fresh (cursor fo) limit d = Some events ∧
    seen after (agent_run_events d) n (yield_all events fo) ∧
    (events = [] → limit ≠ 0%nat → ∀ row, row ∈ agent_run_events d → of_run w i row →
       ev_sequence row <= cursor fo).
Proof.
  intros Hok Hnum Hseen.
  destruct (read_after_spec fresh (cursor fo) limit d Hok (numbered_run_rows _ _ Hnum))
    as (events & Hr & Hs & He & Hc & Hnil).
  exists events. split; [done|]. split; [|done]. rewrite yield_all_spec.
  assert (Hpub : ∀ e, e ∈ events → published (agent_run_events d) n e).
  { intros e Hin. destruct (He e Hin) as (_ & row & Hrow & Hst).
    destruct (Hnum row Hrow) as (e' & Hst' & Hp & Hle); [by apply stores_sequence in Hst as []|].
    rewrite <- (stores_inj _ _ _ Hst Hst') in *. by eapply stored_published. }
  apply seen_append; [done| | |done| |done].
  - unfold page_end. destruct (last events) as [x|] eqn:Hl; cbn; [|done].
    destruct (He x (last_Some_elem_of _ _ Hl)). lia.
  - intros Hst. unfold page_end. destruct (last events) as [x|] eqn:Hl; cbn; [right|by left].
    by apply Hpub; [apply last_Some_elem_of|].
  - intros e Hin. split; [by apply He|by apply Hpub].
Qed.

(** A live event that does not skip a stored row. *)
Lemma seen_offer after log n fo e :
  stream_ok log → seen after log n fo → published log n e →
  (strict = true → ∀ row, row ∈ log → of_run w i row → ev_sequence row < sequence e →
     ev_sequence row <= cursor fo) →
  seen after log n (offer_live e fo).
Proof.
  intros Hok Hseen Hp Hgap. unfold offer_live. destruct (Z.leb_spec (sequence e) (cursor fo)).
  { by apply seen_goto. }
  change (goto Watching (yield_event e fo))
    with {| cursor := sequence e; out := out fo ++ [e]; at_pc := Watching |}.
  apply seen_append; [done|lia|intros Hst; right; by apply Hp|repeat constructor|..].
  - intros x ->%list_elem_of_singleton. split; [lia|done].
  - intros Hstr row Hr Ho [Hl Hle].
    assert (ev_sequence row = sequence e) as Es.
    { destruct (Z.lt_ge_cases (ev_sequence row) (sequence e)) as [Hlt|]; [|lia].
      specialize (Hgap Hstr row Hr Ho Hlt). lia. }
    exists e. split; [by left|]. destruct (should_persist e) eqn:Hpe.
    + destruct (pu_stored _ _ _ Hp Hpe) as (row' & Hr' & Hst).
      destruct (stores_sequence _ _ Hst) as [Es' [Ho1 Ho2]]. destruct Ho as [Ho3 Ho4].
      replace row with row'; [done|]. apply (key_unique log); [done..|].
      unfold key_of. congruence.
    + by destruct (pu_skipped _ _ _ Hp Hstr Hpe row Hr Ho).
Qed.
End Stream.
