(* ===== verification/StreamProperties.v ===== *)
(** * Following a run's stream

    Theorems about [StreamHub.v]: a follower of a stream that records before it
    publishes receives every stored event exactly once and in order; a follower
    of a resumed run may miss one; and a hub aborts its run only when nobody
    watches it. *)

From stdpp Require Import base gmap list strings sorting relations.
From Stdlib Require Import ZArith NArith Lia.
From S2P Require Import Prelude.
From S2P Require Import Json.
From S2P Require Import RunStore.
From S2P Require Import ExecutionLease.
From S2P Require Import LeaseProperties.
From S2P Require Import EventStore.
From S2P Require Import EventStoreProperties.
From S2P Require Import StreamHub.
From S2P Require Import StreamTheory.

Local Open Scope Z_scope.

(** ** The recorder of a hub only records *)

Definition quiet (s : World) : Prop := omap id (rec_queue (recorder s)) = [].

Lemma take_batch_quiet q : omap id q = [] → (take_batch q).1.1 = [] ∧ omap id (take_batch q).1.2 = [].
Proof. induction q as [|[e|] q IH]; cbn; [done|discriminate|done]. Qed.

Section Quiet.
Context (w i : uuid).

Lemma drain_quiet ids f s :
  quiet s → ∃ b s', drain_round w i ids f s = (Return b, s') ∧ quiet s' ∧ db s' = db s.
Proof.
  intros Hq. unfold drain_round. mstep. rewrite bind_run. unfold on_recorder. cbn [modify].
  destruct (take_batch_quiet _ Hq) as [-> Hr]. cbn. eauto.
Qed.

Lemma run_writer_quiet rounds s :
  quiet s → ∃ b s', run_writer w i rounds s = (Return b, s') ∧ quiet s' ∧ db s' = db s.
Proof.
  revert s. induction rounds as [|[ids f] rounds IH]; intros s Hq; cbn; [eauto|].
  rewrite bind_run. destruct (drain_quiet ids f s Hq) as (b & s1 & -> & Hq1 & Hd1).
  destruct b; [eauto|]. destruct (IH s1 Hq1) as (b & s2 & -> & ? & ?). do 2 eexists.
  split; [done|]. split; [done|congruence].
Qed.

Lemma mark_quiet f s :
  quiet s → quiet (_mark_completeness w i f s).2 ∧
  agent_run_events (db (_mark_completeness w i f s).2) = agent_run_events (db s).
Proof.
  intros Hq. unfold _mark_completeness. rewrite bind_run. cbn [get]. unfold catch.
  set (b := rec_failed (recorder s)). rewrite bind_run. unfold in_session.
  assert (He : agent_run_events (session_scope (mark_query w i b) (db s)).2
               = agent_run_events (db s)).
  { unfold session_scope, atomically, mark_query. rewrite bind_run. cbn [get].
    pose proof (update_run_events w i
      (λ r, b || negb (run_event_log_failed r)
                 && completed_segment (run_status r) (latest_type w i (db s)))
      (λ r, if b then set_run_event_log_failed true (set_run_event_log_complete false r)
            else set_run_event_log_complete true r) (db s)) as Hu.
    destruct (update_run _ _ _ _ _) as [[] d']; [exact Hu|done]. }
  destruct f; cbn [transact].
  - destruct (session_scope _ _) as [[] d']; cbn in *; split; done.
  - done.
  - destruct (session_scope _ _) as [o d']; cbn in *; split; done.
Qed.

Lemma aclose_quiet rounds f s :
  quiet s → quiet (aclose w i rounds f s).2 ∧
  agent_run_events (db (aclose w i rounds f s).2) = agent_run_events (db s).
Proof.
  intros Hq. destruct (aclose w i rounds f s) as [o s'] eqn:E. cbn.
  unfold aclose in E. rewrite bind_run in E. cbn [get] in E.
  assert (Hmark : ∀ t, quiet t → db t = db s → _mark_completeness w i f t = (o, s') →
    quiet s' ∧ agent_run_events (db s') = agent_run_events (db s)).
  { intros t Ht Hd Em. pose proof (mark_quiet f t Ht) as Hm. rewrite Em, Hd in Hm. exact Hm. }
  destruct (negb _); [by eapply Hmark|]. rewrite bind_run in E. unfold on_recorder at 1 in E.
  cbn [modify] in E. set (rc := default _ _) in E.
  set (s1 := {| db := db s; recorder := rc |}) in E.
  assert (quiet s1) as Hq1.
  { unfold quiet, s1, rc, put_nowait. destruct (_ <=? _)%nat; cbn; [done|].
    rewrite omap_app. cbn. by rewrite app_nil_r. }
  rewrite bind_run in E.
  destruct (run_writer_quiet rounds s1 Hq1) as (b & s2 & E2 & Hq2 & Hd2). rewrite E2 in E.
  rewrite bind_run in E. destruct b; cbn [mret M_ret] in E; [by apply (Hmark s2)|].
  unfold on_recorder in E. cbn [modify] in E. by eapply Hmark, E.
Qed.

(** An [arecord] appends its own row or nothing. *)
Lemma arecord_log id e f s out s' :
  stream_ok (agent_run_events (db s)) → arecord w i id e f s = (out, s') →
  agent_run_events (db s') = agent_run_events (db s) ∨
  agent_run_events (db s') = agent_run_events (db s) ++ [_row_values w i id e].
Proof.
  intros Hok.
  assert (Hi : ∀ o d', session_scope (insert_batch w i (λ _, id) [e]) (db s) = (o, d') →
    agent_run_events d' = agent_run_events (db s) ∨
    agent_run_events d' = agent_run_events (db s) ++ [_row_values w i id e]).
  { intros o d'. unfold session_scope, atomically, insert_batch. mstep.
    destruct (bool_decide (find_run w i (db s) = None)); [intros [= _ <-]; by left|].
    rewrite bind_run. msimpl. rewrite bind_run. cbn [put imap].
    destruct (insert_rows_spec [_row_values w i id e] _ Hok) as [_ (a & Hl & Hsub & _)].
    set (ins := insert_rows _ _) in *. clearbody ins.
    assert (Ha : a = [] ∨ a = [_row_values w i id e]).
    { inversion Hsub as [|? ? ? H1|? ? ? H1]; subst; [right; f_equal|left];
        by apply sublist_nil_r in H1. }
    destruct (bool_decide _); [intros [= _ <-]|rewrite raise_if_cases; destruct (existsb _ _)];
      [|intros [= _ <-]; by left|intros [= _ <-]];
      cbn; rewrite Hl; destruct Ha as [->| ->]; rewrite ?app_nil_r; auto. }
  unfold arecord. destruct (negb _). { intros [= _ <-]. by left. }
  unfold catch, _flush, catch, in_session.
  destruct (session_scope _ (db s)) as [o d'] eqn:E. specialize (Hi o d' eq_refl).
  destruct f; cbn [transact]; rewrite ?E.
  - destruct o as [u|x]; [intros [= _ <-]; done|]. destruct x; intros [= _ <-]; done.
  - intros [= _ <-]. by left.
  - intros [= _ <-]. done.
Qed.
End Quiet.

(** ** Events inside the hub *)

Definition hub_event (h : Hub) (e : AgentEvent) : Prop :=
  Some e ∈ hub_source h ∨ ∃ k q, hub_queues h !! k = Some q ∧ Some e ∈ q.

Lemma elem_of_tail {A} (x : A) l : x ∈ tail l → x ∈ l.
Proof. destruct l; [done|]. by right. Qed.

Lemma offer_elem x q e : Some e ∈ offer x q → Some e ∈ q ∨ x = Some e.
Proof.
  unfold offer. destruct (full q); rewrite elem_of_app, list_elem_of_singleton;
    [|naive_solver]. intros [?%elem_of_tail|?]; [by left|done].
Qed.

Lemma broadcast_event x h e : hub_event (_broadcast x h) e → hub_event h e ∨ x = Some e.
Proof.
  intros [Hs|(k & q & Hk & He)]; [by left; left|]. cbn in Hk.
  rewrite map_lookup_imap in Hk. apply bind_Some in Hk as (q' & Hq & Hk).
  destruct (decide _); simplify_eq.
  - apply offer_elem in He as [He|]; [|by right]. left. right. eauto.
  - left. right. eauto.
Qed.

Lemma hub_event_source q h e :
  (Some e ∈ q → Some e ∈ hub_source h) → hub_event (set_source q h) e → hub_event h e.
Proof. intros Hq [?|?]; [left; auto|by right]. Qed.

Lemma hub_event_queues qs ss h e :
  (∀ k q, qs !! k = Some q → Some e ∈ q → ∃ k' q', hub_queues h !! k' = Some q' ∧ Some e ∈ q') →
  hub_event (set_subscriptions qs ss h) e → hub_event h e.
Proof. intros Hq [?|(k & q & Hk & He)]; [by left|right; eauto]. Qed.

Lemma subscribe_event k h e : hub_event (subscribe k h) e → hub_event h e.
Proof.
  unfold subscribe. destruct (hub_closed h); [done|]. intros H.
  apply (hub_event_queues (<[k:=[]]> (hub_queues h)) ({[k]} ∪ hub_subscribers h)); [|exact H].
  intros j q Hj He. destruct (decide (j = k)) as [->|].
  - rewrite lookup_insert_eq in Hj. simplify_eq. by apply not_elem_of_nil in He.
  - rewrite lookup_insert_ne in Hj by done. eauto.
Qed.

Lemma leave_event g k h e : hub_event (leave_hub g k h) e → hub_event h e.
Proof.
  intros H. apply (hub_event_queues (delete k (hub_queues h)) (hub_subscribers h ∖ {[k]})).
  - intros j q [_ Hj]%lookup_delete_Some He. eauto.
  - revert H. unfold leave_hub, _start_grace_if_idle. by repeat case_match.
Qed.

Lemma next_event g k h x h' :
  next g k h = Some (x, h') →
  (∀ e, x = Some e → hub_event h e) ∧ ∀ e, hub_event h' e → hub_event h e.
Proof.
  unfold next. destruct (hub_queues h !! k) as [[|[e0|] q]|] eqn:Hk; intros; simplify_eq.
  - split; [intros e [= ->]; right; exists k; eexists; split; [done|by left]|].
    intros e. apply hub_event_queues. intros j q' Hj He. destruct (decide (j = k)) as [->|].
    + rewrite lookup_insert_eq in Hj. simplify_eq. exists k. eexists. split; [done|by right].
    + rewrite lookup_insert_ne in Hj by done. eauto.
  - split; [done|]. intros e. apply leave_event.
Qed.

Lemma hub_op_event g k h h' e : hub_op g k h h' → hub_event h' e → hub_event h e.
Proof.
  intros [k' h0 _ _|k' h0 x h1 _ Hn|k' h0 _ _|h0|h0].
  - apply subscribe_event.
  - by apply (next_event _ _ _ _ _ Hn).
  - apply leave_event.
  - unfold grace_expired. by repeat case_match.
  - unfold abort_if_unwatched. by repeat case_match.
Qed.

Section Pump.
Context (w i : uuid).

Lemma finish_live rounds f l :
  quiet (world l) →
  quiet (world (_finish w i rounds f l)) ∧
  agent_run_events (db (world (_finish w i rounds f l))) = agent_run_events (db (world l)) ∧
  ∀ e, hub_event (hub (_finish w i rounds f l)) e → hub_event (hub l) e.
Proof.
  intros Hq. destruct (aclose_quiet w i rounds f (world l) Hq) as [H1 H2].
  split; [done|]. split; [done|]. intros e H. 
  destruct (broadcast_event None (_cancel_grace (set_closed (hub l))) e) as [|]; [|done|done].
  exact H.
Qed.

Lemma pump_live id f rounds f' l :
  quiet (world l) →
  quiet (world (pump_step w i true id f rounds f' l)) ∧
  agent_run_events (db (world (pump_step w i true id f rounds f' l)))
    = agent_run_events (db (world l)) ∧
  ∀ e, hub_event (hub (pump_step w i true id f rounds f' l)) e → hub_event (hub l) e.
Proof.
  intros Hq. unfold pump_step. destruct (hub_closed _); [done|].
  destruct (hub_source (hub l)) as [|[e0|] rest] eqn:Hs; [done| |].
  - split; [done|]. split; [done|]. intros e [H|[= ->]]%broadcast_event.
    + eapply hub_event_source; [|exact H]. rewrite Hs. by right.
    + left. rewrite Hs. by left.
  - destruct (finish_live rounds f' (on_hub (set_source rest) l) Hq) as (H1 & H2 & H3).
    split; [done|]. split; [done|]. intros e H%H3. eapply hub_event_source; [|exact H].
    rewrite Hs. by right.
Qed.

Lemma hub_aclose_live rounds f l :
  quiet (world l) →
  quiet (world (hub_aclose w i rounds f l)) ∧
  agent_run_events (db (world (hub_aclose w i rounds f l))) = agent_run_events (db (world l)) ∧
  ∀ e, hub_event (hub (hub_aclose w i rounds f l)) e → hub_event (hub l) e.
Proof.
  intros Hq. unfold hub_aclose. destruct (hub_closed _); [done|].
  apply (finish_live rounds f (on_hub _cancel_grace l) Hq).
Qed.
End Pump.

(** ** The publisher's invariant *)

Section System.
Context `{HS : SafeTexts} (w i : uuid) (g : bool) (version : uuid) (fresh : list N) (k : nat).
(** Of a resumed run only the weaker half is claimed. *)
Context (strict : bool).

Definition log_of (s : Sys) : list AgentRunEvent := agent_run_events (db (world (live s))).
Definition numbers (s : Sys) : Z := em_sequence (emitter s).

(** Events on their way to subscribers. *)
Definition travelling (s : Sys) (e : AgentEvent) : Prop :=
  e ∈ in_flight s ∨ hub_event (hub (live s)) e ∨ at_pc (follower s) = Replaying (AfterGap e).

(** The stream of the run as its publisher leaves it. *)
Record publisher_ok (s : Sys) : Prop := {
  po_log : stream_ok (log_of s);
  po_rows : numbered w i version strict (log_of s) (numbers s);
  po_quiet : quiet (world (live s));
  po_emitter : em_run (emitter s) = i ∧ em_version (emitter s) = version;
  po_recording : ∀ e, e ∈ recording s → good i version e;
  po_travelling : ∀ e, travelling s e → published w i version strict (log_of s) (numbers s) e
}.

Definition stream_inv (after : Z) (s : Sys) : Prop :=
  publisher_ok s ∧ seen w i version strict after (log_of s) (numbers s) (follower s).

(** A step that leaves the follower alone and publishes nothing new. *)
Lemma inv_quiet_step after s s' :
  stream_inv after s → log_of s' = log_of s → numbers s' = numbers s →
  em_run (emitter s') = em_run (emitter s) → em_version (emitter s') = em_version (emitter s) →
  quiet (world (live s')) → follower s' = follower s → recording s' = recording s →
  (∀ e, travelling s' e → travelling s e) → stream_inv after s'.
Proof.
  intros [[H1 H2 H3 [H4 H4'] H5 H6] H7] El En Er Ev Hq Ef Erc Ht.
  split; [split|]; rewrite ?El, ?En, ?Ef, ?Erc; try done; [split; congruence|].
  intros e He. by apply H6, Ht.
Qed.

(** The stream after an attempt to store the next event. *)
Lemma recorded_stream id e log log' n :
  strict = true → numbered w i version strict log n → good i version e → sequence e = n + 1 → should_persist e = true →
  (log' = log ∨ log' = log ++ [_row_values w i id e]) → stream_ok log' →
  advance w i strict log n log' (n + 1) ∧ numbered w i version strict log' (n + 1) ∧
  (stored_id w i (sequence e) log' = Some (event_id e) → published w i version strict log' (n + 1) e).
Proof.
  intros Hstr Hnum Hg Hs Hp Hlog Hok'.
  assert (Hrow : stores w i version (_row_values w i id e) e) by (split; [done|eauto]).
  assert (Hn1 : numbered w i version strict log (n + 1)).
  { by apply (numbered_le _ _ _ _ _ n); [lia|]. }
  destruct Hlog as [-> | ->].
  - split; [apply advance_number; intros _; lia|]. split; [done|].
    intros (row & Hin & Hkey & _)%stored_id_Some; [|done]. injection Hkey as ? ? Hk.
    destruct (Hnum row Hin) as (e' & Hst' & _ & Hle); [done|]. specialize (Hle Hstr).
    apply stores_sequence in Hst' as [Es _]. lia.
  - split; [rewrite <- Hs; apply advance_row; cbn; lia|]. split.
    + intros row [Hin| ->%list_elem_of_singleton]%elem_of_app Ho; [by apply Hn1|].
      exists e. split; [done|]. split; [done|lia].
    + intros _. eapply stored_published; [apply elem_of_app; right; by left|exact Hrow|done|lia].
Qed.

(** What [emit_recorded] does to the stream. *)
Lemma emit_recorded_spec ty data fr at_ id f s oe em wd :
  strict = true → publisher_ok s → fr ≠ [] →
  emit_recorded w i ty data fr at_ id f (emitter s) (world (live s)) = (oe, em, wd) →
  let log' := agent_run_events (db wd) in
  em_run em = i ∧ em_version em = version ∧ em_sequence em = numbers s + 1 ∧ quiet wd ∧
  stream_ok log' ∧ numbered w i version strict log' (em_sequence em) ∧
  advance w i strict (log_of s) (numbers s) log' (em_sequence em) ∧
  (∀ e, oe = Some e → published w i version strict log' (em_sequence em) e).
Proof.
  intros Hstr [Hok Hnum Hq [Hr Hv] _ _] Hfr. unfold emit_recorded.
  destruct (emit ty data fr at_ (emitter s)) as [[e|] em'] eqn:Ee; unfold emit in Ee;
    apply pair_equal_spec in Ee as [Ee <-]; cbn in Ee.
  2:{ intros [= <- <- <-]. cbn. fold (numbers s). do 5 (split; [done|]).
      split; [by apply (numbered_le _ _ _ _ _ (numbers s)); [lia|]|].
      split; [apply advance_number; intros _; lia|done]. }
  rewrite Hr, Hv in Ee. apply new_event_good in Ee as [Hg Hs]; [|done].
  change (em_sequence (emitter s)) with (numbers s) in *. cbn [em_sequence].
  destruct (arecord w i id e f (world (live s))) as [o wd'] eqn:Ea.
  destruct (should_persist e) eqn:Hp.
  - destruct (arecord_spec w i _ _ _ _ _ _ Hok Hp Ea) as (Hgr & _ & Hrq & _ & _ & Hst & _).
    pose proof (arecord_log w i _ _ _ _ _ _ Hok Ea) as Hlog.
    assert (Hq' : quiet wd') by (unfold quiet in *; congruence).
    destruct (recorded_stream id e (log_of s) (agent_run_events (db wd')) (numbers s))
      as (Hadv & Hnum' & Hpub); [done..|apply Hgr|].
    assert (Hpub' : ∀ u, o = Return u →
      published w i version strict (agent_run_events (db wd')) (numbers s + 1) e).
    { intros u Hu. by apply Hpub, (Hst u). }
    destruct o as [u|x]; intros [= <- <- <-]; cbn;
      (do 4 (split; [done|]); split; [apply Hgr|]; split; [done|]; split; [done|]); [|done].
    intros e' [= <-]. by apply (Hpub' u).
  - assert (o = Return tt ∧ wd' = world (live s)) as [-> ->].
    { unfold arecord in Ea. rewrite Hp in Ea. by injection Ea as <- <-. }
    intros [= <- <- <-]. cbn. do 5 (split; [done|]).
    split; [by apply (numbered_le _ _ _ _ _ (numbers s)); [lia|]|].
    split; [apply advance_number; intros _; lia|].
    intros e' [= <-]. split; [lia|congruence|].
    intros _ _ row Hin Ho. destruct (Hnum row Hin Ho) as (e' & Hst' & _ & Hle).
    specialize (Hle Hstr).
    apply stores_sequence in Hst' as [-> _]. lia.
Qed.

Lemma publish_inv after ty data fr at_ id f s :
  strict = true → fr ≠ [] → stream_inv after s →
  stream_inv after (publish w i ty data fr at_ id f s).
Proof.
  intros Hstr Hfr [Hpo Hseen]. unfold publish.
  destruct (emit_recorded w i ty data fr at_ id f (emitter s) (world (live s)))
    as [[oe em] wd] eqn:E.
  destruct (emit_recorded_spec _ _ _ _ _ _ _ _ _ _ Hstr Hpo Hfr E)
    as (Hr & Hv & Hn & Hq & Hok & Hnum & Hadv & Hpub).
  split; [split|]; unfold log_of, numbers; cbn; try done; [apply Hpo| |].
  - intros e [He|[He|He]]; cbn in He.
    + apply elem_of_app in He as [He|He].
      * destruct oe as [e0|]; cbn in He; [|by apply not_elem_of_nil in He].
        apply list_elem_of_singleton in He as ->. by apply Hpub.
      * eapply published_advance; [exact Hadv|]. apply Hpo. by left.
    + eapply published_advance; [exact Hadv|]. apply Hpo. by right; left.
    + eapply published_advance; [exact Hadv|]. apply Hpo. by right; right.
  - eapply seen_advance; eauto.
Qed.

(** What an exhausted replay has left out: nothing. *)
Definition caught_up (s : Sys) (fo : Follower) : Prop :=
  ∀ row, row ∈ log_of s → of_run w i row → ev_sequence row <= cursor fo.

Lemma replay_step after s p :
  stream_inv after s → at_pc (follower s) = Replaying p →
  ∃ events, read_after w i version fresh (cursor (follower s)) 500 (db (world (live s)))
              = Some events ∧
    seen w i version strict after (log_of s) (numbers s) (yield_all events (follower s)) ∧
    (events = [] → caught_up s (follower s)).
Proof.
  intros [[Hok Hnum _ _ _ _] Hseen] _.
  destruct (seen_page w i version strict after (db (world (live s))) (numbers s) fresh (follower s) 500)
    as (events & ? & ? & Hc); [done..|].
  exists events. split; [done|]. split; [done|]. intros He. exact (Hc He ltac:(done)).
Qed.

(** The hub after the follower's part of a replay. *)
Lemma after_replay_live p l fo l' fo' :
  after_replay k p l fo = (l', fo') →
  world l' = world l ∧ (∀ e, hub_event (hub l') e → hub_event (hub l) e).
Proof.
  destruct p; cbn; try (by intros [= <- _]).
  unfold registry_get. destruct (registered l), (hub_closed (hub l)); intros [= <- _]; try done.
  split; [done|]. intros e. apply subscribe_event.
Qed.

(** An exhausted replay ends in a state where the follower has seen all. *)
Lemma after_replay_seen after s p l' fo' :
  stream_inv after s → at_pc (follower s) = Replaying p → caught_up s (follower s) →
  after_replay k p (live s) (follower s) = (l', fo') →
  seen w i version strict after (log_of s) (numbers s) fo' ∧ (∀ e, at_pc fo' ≠ Replaying (AfterGap e)) ∧
  (at_pc fo' = Finished → cursor fo' = cursor (follower s) ∧ out fo' = out (follower s)).
Proof.
  intros [[Hok _ _ _ _ Htr] Hseen] Hpc Hc E.
  destruct p; cbn in E.
  - unfold registry_get in E.
    destruct (registered (live s)), (hub_closed (hub (live s))); injection E as _ <-;
      (split; [by apply seen_goto|done]).
  - injection E as _ <-. split; [|done]. apply seen_offer; [done..| |].
    + apply Htr. by right; right.
    + intros _ row Hr Ho _. by apply Hc.
  - injection E as _ <-. split; [by apply seen_goto|]. by destruct (hub_closed _).
  - injection E as _ <-. by split; [apply seen_goto|].
  - injection E as _ <-. by split; [apply seen_goto|].
Qed.

(** A follower's step, with what it means to finish. *)
Lemma follow_inv after s l fo :
  stream_inv after s →
  attach_step w i g version fresh k (live s) (follower s) = Some (l, fo) →
  let s' := with_follower l fo s in
  stream_inv after s' ∧
  (strict = true → at_pc fo = Finished → ∀ row, row ∈ log_of s' → of_run w i row → after < ev_sequence row →
     ∃ e, e ∈ out fo ∧ stores w i version row e).
Proof.
  intros Hinv E. pose proof Hinv as [Hpo Hseen]. cbn zeta. unfold attach_step in E.
  assert (Hmk : world l = world (live s) →
    (∀ e, hub_event (hub l) e → hub_event (hub (live s)) e) →
    seen w i version strict after (log_of s) (numbers s) fo →
    (∀ e, at_pc fo = Replaying (AfterGap e) → published w i version strict (log_of s) (numbers s) e) →
    stream_inv after (with_follower l fo s)).
  { intros Hw Hh Hs Hgap. destruct Hpo as [H1 H2 H3 H4 H4' H5].
    split; [split|]; unfold log_of, numbers in *; cbn; rewrite ?Hw; try done.
    intros e [He|[He|He]]; cbn in He; [apply H5; by left|apply H5; right; left; auto|by apply Hgap]. }
  destruct (at_pc (follower s)) as [p| | |] eqn:Hpc.
  - destruct (replay_step after s p Hinv Hpc) as (events & Hread & Hy & Hc).
    rewrite Hread in E. cbn [mbind option_bind] in E. destruct events as [|e0 es].
    + destruct (after_replay k p (live s) (follower s)) as [l1 fo1] eqn:Ea.
      injection E as -> ->. specialize (Hc eq_refl).
      destruct (after_replay_seen after s p l fo Hinv Hpc Hc Ea) as (Hs & Hng & Hfin).
      destruct (after_replay_live _ _ _ _ _ Ea) as [Hw Hh].
      split; [apply Hmk; [done..|]; intros e He; by destruct (Hng e)|].
      intros Hstr Hf row Hr Ho Hlt. unfold log_of in Hr. cbn in Hr. rewrite Hw in Hr.
      destruct (Hfin Hf) as [Ec _]. apply (sn_complete _ _ _ _ _ _ _ _ Hs Hstr row Hr Ho).
      split; [done|]. rewrite Ec. by apply Hc.
    + injection E as <- <-. split.
      * apply Hmk; [done..|]. intros e He. rewrite yield_all_spec in He. cbn in He.
        apply Hpo. right; right. congruence.
      * rewrite yield_all_spec. cbn. congruence.
  - destruct (next g k (hub (live s))) as [[x h']|] eqn:Hn; [|done]. cbn in E.
    destruct (next_event _ _ _ _ _ Hn) as [Hx Hh].
    destruct x as [e|].
    + assert (Hpe : published w i version strict (log_of s) (numbers s) e).
      { apply Hpo. right; left. by apply Hx. }
      destruct (Z.ltb_spec (cursor (follower s) + 1) (sequence e)); injection E as <- <-.
      * split; [|done]. apply Hmk; [done|done|by apply seen_goto|]. cbn. congruence.
      * split; [|done]. apply Hmk; [done|done| |done].
        apply seen_offer; [apply Hpo|done|done|]. intros _ row _ _ Hlt. lia.
    + injection E as <- <-. split; [|done]. apply Hmk; [done|done|by apply seen_goto|done].
  - injection E as <- <-. split; [|done]. apply Hmk; [done|done|by apply seen_goto|].
    cbn. by destruct (_run_stopped_publishing _ _ _).
  - done.
Qed.

(** Writes to other runs and tables. *)
Lemma other_tables_inv after d s :
  agent_run_events (db (world (live s))) `prefix_of` agent_run_events d →
  stream_ok (agent_run_events d) →
  filter (of_run w i) (agent_run_events d)
    = filter (of_run w i) (agent_run_events (db (world (live s)))) →
  stream_inv after s → stream_inv after (with_live (with_db d (live s)) s).
Proof.
  intros Hpre Hok Hsame [Hpo Hseen].
  assert (Hback : ∀ row, row ∈ agent_run_events d → of_run w i row → row ∈ log_of s).
  { intros row Hr Ho. assert (row ∈ filter (of_run w i) (agent_run_events d)) as Hx
      by (by apply list_elem_of_filter).
    rewrite Hsame in Hx. by apply list_elem_of_filter in Hx as [_ ?]. }
  assert (Hadv : advance w i strict (log_of s) (numbers s) (agent_run_events d) (numbers s)).
  { split; [done| |].
    - intros row Hr. destruct Hpre as [a ->]. apply elem_of_app. by left.
    - intros _ row Hr Ho. left. by apply Hback. }
  split; [split|]; unfold log_of, numbers in *; cbn; try apply Hpo; [done| | |].
  - intros row Hr Ho. apply (po_rows _ Hpo row); [by apply Hback|done].
  - intros e He. eapply published_advance; [exact Hadv|]. by apply Hpo.
  - eapply seen_advance; eauto.
Qed.

(** The hub's own steps, which never touch the log. *)
Lemma hub_step_inv after s l' :
  stream_inv after s → quiet (world l') →
  agent_run_events (db (world l')) = agent_run_events (db (world (live s))) →
  (∀ e, hub_event (hub l') e → hub_event (hub (live s)) e) →
  stream_inv after (with_live l' s).
Proof.
  intros Hinv Hq Hl Hh. apply (inv_quiet_step after s); try done.
  intros e' [He|[He|He]]; [by left|right; left; by apply Hh|by right; right].
Qed.
End System.

(** ** Resumption *)

Section Resumed.
Context `{HS : SafeTexts} (w i : uuid) (g : bool) (version : uuid) (fresh : list N) (k : nat).

Definition unresumed (s : Sys) : bool := bool_decide (resumed s = None).

Lemma weaken strict after s :
  stream_inv w i version strict after s → stream_inv w i version false after s.
Proof.
  intros [[H1 H2 H3 H4 H5 H6] [S1 S2 S3 [S4 _] _]].
  assert (Hp : ∀ e, published w i version strict (log_of s) (numbers s) e →
    published w i version false (log_of s) (numbers s) e).
  { intros e [_ ? _]. by split. }
  split; split; try done; eauto.
  intros row Hr Ho. destruct (H2 row Hr Ho) as (e & ? & ? & _). by exists e.
Qed.

(** In a resumed run only the log matters. *)
Lemma resumed_advance log n log' n' :
  (∀ row, row ∈ log → row ∈ log') → advance w i false log n log' n'.
Proof. by split. Qed.

Lemma resumed_inv after s s' :
  stream_inv w i version false after s →
  stream_ok (log_of s') → quiet (world (live s')) →
  (∀ row, row ∈ log_of s → row ∈ log_of s') →
  (∀ row, row ∈ log_of s' → of_run w i row → row ∈ log_of s ∨
     ∃ e, stores w i version row e ∧ should_persist e = true) →
  em_run (emitter s') = em_run (emitter s) → em_version (emitter s') = em_version (emitter s) →
  (∀ e, e ∈ recording s' → good i version e) →
  hub (live s') = hub (live s) → in_flight s' = in_flight s → follower s' = follower s →
  stream_inv w i version false after s'.
Proof.
  intros [Hpo Hseen] Hok Hq Hold Hnew Er Ev Hrec Eh Ei Ef.
  pose proof (resumed_advance _ (numbers s) _ (numbers s') Hold) as Hadv.
  split; [split|]; [done| |done|rewrite Er, Ev; apply Hpo|done| |].
  - intros row Hr Ho. destruct (Hnew row Hr Ho) as [Hr'|(e & ? & ?)]; [|by exists e].
    destruct (po_rows _ _ _ _ _ Hpo row Hr' Ho) as (e & ? & ? & _). by exists e.
  - intros e He. eapply published_advance; [exact Hadv|]. apply Hpo.
    unfold travelling in *. by rewrite Eh, Ei, Ef in He.
  - rewrite Ef. eapply seen_advance; eauto.
Qed.

Lemma number_inv after ty data fr at_ s :
  fr ≠ [] → stream_inv w i version false after s →
  stream_inv w i version false after (number_event ty data fr at_ s).
Proof.
  intros Hfr Hinv. pose proof Hinv as [Hpo _]. destruct (po_emitter _ _ _ _ _ Hpo) as [Hr Hv].
  apply (resumed_inv after s); try done; [apply Hpo|apply Hpo|by left|].
  intros e [He|He]%elem_of_app; [|by apply Hpo].
  cbn in He. rewrite Hr, Hv in He.
  destruct (new_event _ _ _ _ _ _ _ _ _ _) as [e0|] eqn:Ee; [|by apply not_elem_of_nil in He].
  apply list_elem_of_singleton in He as ->. by apply new_event_good in Ee as [? _].
Qed.

Lemma record_inv after rc id f e l1 l2 s :
  recording s = l1 ++ e :: l2 → stream_inv w i version false after s →
  stream_inv w i version false after (record_event w i rc id f e (l1 ++ l2) s).
Proof.
  intros Hrec Hinv. pose proof Hinv as [Hpo _].
  assert (Hg : good i version e) by (apply Hpo; rewrite Hrec; set_solver).
  unfold record_event. set (s0 := {| db := _; recorder := rc |}).
  destruct (arecord w i id e f s0) as [o wd] eqn:Ea. cbn [snd].
  assert (Hl : stream_ok (agent_run_events (db wd)) ∧
    (agent_run_events (db wd) = log_of s ∨
     agent_run_events (db wd) = log_of s ++ [_row_values w i id e] ∧ should_persist e = true)).
  { destruct (should_persist e) eqn:Hp.
    - split; [|destruct (arecord_log w i id e f s0 o wd (po_log _ _ _ _ _ Hpo) Ea); auto].
      eapply (arecord_spec w i id e f s0 o wd); [apply Hpo|done|exact Ea].
    - unfold arecord in Ea. rewrite Hp in Ea. injection Ea as _ <-. split; [apply Hpo|by left]. }
  destruct Hl as [Hok Hl]. apply (resumed_inv after s); try done; unfold log_of in *; cbn.
  - apply Hpo.
  - intros row Hr. destruct Hl as [-> |[-> _]]; [done|]. apply elem_of_app. by left.
  - intros row Hr Ho. destruct Hl as [El|[El Hp]]; rewrite El in Hr; [by left|].
    apply elem_of_app in Hr as [Hr| ->%list_elem_of_singleton]; [by left|right].
    exists e. split; [|done]. split; [done|eauto].
  - intros e' He. apply Hpo. rewrite Hrec. set_solver.
Qed.

Lemma stream_step_inv after s s' :
  stream_step w i g version fresh k s s' →
  stream_inv w i version (unresumed s) after s → stream_inv w i version (unresumed s') after s'.
Proof.
  intros Hst Hinv. pose proof Hinv as [Hpo Hseen].
  destruct Hst as [ty data fr at_ id f s Hn Hfr|e l1 l2 s Hf _|e l1 l2 s Hf|s|id f rounds f' s
    |rounds f s|h' s Hop|request s|ty data fr at_ s Hn Hfr|rc id f e l1 l2 s Hn Hf
    |d s Hpre Hids Hkeys Hsame|l fo s E].
  - apply publish_inv; [|done..]. by apply bool_decide_eq_true.
  - apply (inv_quiet_step _ _ _ _ after s); try done; [apply Hpo|].
    intros e' [He|[[He|He]|He]]; cbn in He.
    + left. rewrite Hf. set_solver.
    + apply elem_of_app in He as [He|He%list_elem_of_singleton]; [right; left; by left|].
      injection He as ->. left. rewrite Hf. set_solver.
    + right; left. by right.
    + by right; right.
  - apply (inv_quiet_step _ _ _ _ after s); try done; [apply Hpo|].
    intros e' [He|He]; [left; cbn in He; rewrite Hf; set_solver|by right].
  - apply hub_step_inv; [done|apply Hpo|done|]. intros e' He.
    eapply hub_event_source; [|exact He]. unfold _close_event_queue.
    destruct (_ <? _)%nat; rewrite elem_of_app, list_elem_of_singleton;
      [naive_solver|]. intros [?%elem_of_tail|?]; done.
  - destruct (pump_live w i id f rounds f' (live s) (po_quiet _ _ _ _ _ Hpo)) as (H1 & H2 & H3).
    by apply hub_step_inv.
  - destruct (hub_aclose_live w i rounds f (live s) (po_quiet _ _ _ _ _ Hpo)) as (H1 & H2 & H3).
    by apply hub_step_inv.
  - apply hub_step_inv; [done|apply Hpo|done|]. intros e'. by eapply hub_op_event.
  - apply (resumed_inv after s); try done; try apply Hpo; [by eapply weaken|by left].
  - assert (unresumed s = false) as Hu by (by apply bool_decide_eq_false).
    change (unresumed (number_event ty data fr at_ s)) with (unresumed s). rewrite Hu in *.
    by apply number_inv.
  - apply record_inv; [done|]. by eapply weaken.
  - by apply other_tables_inv.
  - by apply (follow_inv w i g version fresh k _ after s l fo).
Qed.

Lemma stream_rtc_inv after s s' :
  rtc (stream_step w i g version fresh k) s s' →
  stream_inv w i version (unresumed s) after s → stream_inv w i version (unresumed s') after s'.
Proof. induction 1; eauto using stream_step_inv. Qed.

Lemma attach_inv strict after s :
  publisher_ok w i version strict s → follower s = attach after →
  stream_inv w i version strict after s.
Proof.
  intros Hpo Hf. split; [done|]. rewrite Hf. split; cbn.
  - constructor.
  - by intros e ?%not_elem_of_nil.
  - by intros e ?%not_elem_of_nil.
  - split; [done|by left].
  - lia.
Qed.
End Resumed.

(** ** Watching a hub *)

Record hub_ok (g : bool) (h : Hub) : Prop := {
  ho_grace : hub_grace h = true → g = true ∧ hub_closed h = false ∧ hub_subscribers h = ∅;
  ho_iterators : ∀ k, k ∈ hub_subscribers h → is_Some (hub_queues h !! k)
}.
(** Somebody watches, the clock is running, or it is over. *)
Definition attended (a : nat) (h : Hub) : Prop :=
  hub_closed h = true ∨ hub_queues h ≠ ∅ ∨ hub_grace h = true ∨ (a < hub_aborts h)%nat.

Lemma hub_ok_grace_off g h : hub_ok g h → hub_ok g (set_grace false h).
Proof. intros [_ H]. by split. Qed.

Lemma watched_queues g h : hub_ok g h → hub_subscribers h ≠ ∅ → hub_queues h ≠ ∅.
Proof.
  intros [_ H] [k Hk]%set_choose_L E. destruct (H k Hk) as [q Hq]. by rewrite E in Hq.
Qed.

Lemma broadcast_ok g x h : hub_ok g h → hub_ok g (_broadcast x h).
Proof.
  intros [H1 H2]. split; cbn.
  - intros (? & ? & ->)%H1. by split_and!.
  - intros k [_ Hk]%elem_of_filter. rewrite map_lookup_imap.
    destruct (H2 k Hk) as [q ->]. by eexists.
Qed.

Lemma broadcast_queues x h : hub_queues h ≠ ∅ → hub_queues (_broadcast x h) ≠ ∅.
Proof.
  intros [k [q Hq]]%map_choose E. apply (f_equal (.!! k)) in E. cbn in E.
  rewrite map_lookup_imap, Hq, lookup_empty in E. done.
Qed.

Lemma finish_closed w i rounds f l g :
  hub_ok g (hub (_finish w i rounds f l)) ∧ hub_closed (hub (_finish w i rounds f l)) = true ∧
  hub_aborts (hub (_finish w i rounds f l)) = hub_aborts (hub l).
Proof. split; [split; cbn; [done|set_solver]|done]. Qed.

(** The two ways to abort. *)
Lemma abort_unwatched g a h h' :
  hub_ok g h → (a ≤ hub_aborts h)%nat →
  h' = (if hub_closed h || negb (bool_decide (hub_subscribers h = ∅))
        then set_grace false h else call_abort (set_grace false h)) →
  hub_ok g h' ∧ attended a h' ∧ (hub_aborts h ≤ hub_aborts h')%nat ∧
  ((hub_aborts h < hub_aborts h')%nat → hub_subscribers h = ∅ ∧ hub_closed h = false).
Proof.
  intros Hok Ha ->. destruct (hub_closed h) eqn:Hc; cbn.
  { split; [by apply hub_ok_grace_off|]. split; [by left|cbn; lia]. }
  case_bool_decide as Hs; cbn.
  - split; [split; [done|apply Hok]|]. split; [right; right; right; cbn; lia|].
    split; [lia|done].
  - split; [by apply hub_ok_grace_off|]. split; [|cbn; lia].
    right; left. exact (watched_queues g h Hok Hs).
Qed.

Lemma leave_ok g a k h :
  hub_ok g h → hub_ok g (leave_hub g k h) ∧ (g = true → attended a (leave_hub g k h)) ∧
  hub_aborts (leave_hub g k h) = hub_aborts h.
Proof.
  intros [H1 H2]. unfold leave_hub, _start_grace_if_idle. cbn.
  assert (Hit : ∀ j, j ∈ hub_subscribers h ∖ {[k]} → is_Some (delete k (hub_queues h) !! j)).
  { intros j [Hj Hk]%elem_of_difference. rewrite lookup_delete_ne; [by apply H2|set_solver]. }
  destruct g; cbn.
  2:{ split; [split; cbn; [|done]|done]. by intros (? & _)%H1. }
  destruct (hub_closed h) eqn:Hc; cbn.
  { split; [split; cbn; [|done]|by split; [left|]]. intros (? & ? & ?)%H1. congruence. }
  case_bool_decide as Hs; cbn.
  - destruct (hub_grace h) eqn:Hg.
    + split; [split; cbn; [|done]|split; [by right; right; left|done]]. by intros _.
    + split; [by split; cbn|]. split; [by right; right; left|done].
  - assert (hub_grace h = false) as Hg.
    { destruct (hub_grace h) eqn:Hg; [|done]. destruct (H1 eq_refl) as (_ & _ & Hx). set_solver. }
    split; [split; cbn; [congruence|done]|]. split; [|done]. right; left. cbn.
    apply set_choose_L in Hs as [j Hj]. destruct (Hit j Hj) as [q Hq]. intros E. by rewrite E in Hq.
Qed.

Lemma hub_life_step w i sp g a l l' :
  hub_life w i sp g l l' → hub_ok g (hub l) → (a ≤ hub_aborts (hub l))%nat →
  (g = true → attended a (hub l)) →
  hub_ok g (hub l') ∧ (g = true → attended a (hub l')) ∧
  (hub_aborts (hub l) ≤ hub_aborts (hub l'))%nat ∧
  ((hub_aborts (hub l) < hub_aborts (hub l'))%nat →
     hub_subscribers (hub l) = ∅ ∧ hub_closed (hub l) = false).
Proof.
  intros Hst Hok Ha Hat.
  assert (Hfin : ∀ rounds f l0, hub_aborts (hub l0) = hub_aborts (hub l) →
    let h := hub (_finish w i rounds f l0) in
    hub_ok g h ∧ (g = true → attended a h) ∧ (hub_aborts (hub l) ≤ hub_aborts h)%nat ∧
    ((hub_aborts (hub l) < hub_aborts h)%nat →
       hub_subscribers (hub l) = ∅ ∧ hub_closed (hub l) = false)).
  { intros rounds f l0 E. destruct (finish_closed w i rounds f l0 g) as (H1 & H2 & H3).
    cbn zeta. rewrite H3, E. split; [done|]. split; [by left|]. split; lia. }
  assert (Hbc : ∀ x l0, hub_ok g (hub l0) → (g = true → attended a (hub l0)) →
    hub_aborts (hub l0) = hub_aborts (hub l) →
    let h := _broadcast x (hub l0) in
    hub_ok g h ∧ (g = true → attended a h) ∧ (hub_aborts (hub l) ≤ hub_aborts h)%nat ∧
    ((hub_aborts (hub l) < hub_aborts h)%nat →
       hub_subscribers (hub l) = ∅ ∧ hub_closed (hub l) = false)).
  { intros x l0 Hok0 Hat0 E. cbn zeta. split; [by apply broadcast_ok|].
    split; [|cbn; lia]. intros Hg. destruct (Hat0 Hg) as [?|[?|?]]; [by left| |by right; right].
    right; left. by apply broadcast_queues. }
  destruct Hst as [k l Hk|k x h' l Hn|k l Hk|l|l|q l|id f rounds f' l|rounds f l]; cbn.
  - unfold subscribe. destruct (hub_closed (hub l)) eqn:Hc; [split; [done|]; split; [done|lia]|].
    destruct Hok as [H1 H2]. split; [split; cbn; [done|]|].
    + intros j Hj. destruct (decide (j = k)) as [->|]; [by rewrite lookup_insert_eq|].
      rewrite lookup_insert_ne by done. apply H2. set_solver.
    + split; [|cbn; lia]. intros _. right; left. cbn. apply insert_non_empty.
  - unfold next in Hn. destruct (hub_queues (hub l) !! k) as [[|[e|] q]|] eqn:Hk; simplify_eq.
    + destruct Hok as [H1 H2]. split; [split; cbn; [done|]|].
      * intros j Hj. destruct (decide (j = k)) as [->|]; [by rewrite lookup_insert_eq|].
        rewrite lookup_insert_ne by done. by apply H2.
      * split; [|cbn; lia]. intros _. right; left. cbn. apply insert_non_empty.
    + destruct (leave_ok g a k (hub l) Hok) as (? & ? & ->). split; [done|]. split; [done|lia].
  - destruct (leave_ok g a k (hub l) Hok) as (? & ? & ->). split; [done|]. split; [done|lia].
  - unfold grace_expired. destruct (hub_grace (hub l)) eqn:Hg; cbn [negb].
    + by edestruct (abort_unwatched g a (hub l)) as (? & ? & ? & ?).
    + split; [done|]. split; [done|lia].
  - by edestruct (abort_unwatched g a (hub l)) as (? & ? & ? & ?).
  - split; [by split; apply Hok|]. split; [|lia]. exact Hat.
  - unfold pump_step. destruct (hub_closed (hub l)) eqn:Hc; [split; [done|]; split; [done|lia]|].
    destruct (hub_source (hub l)) as [|[e|] rest]; [split; [done|]; split; [done|lia]| |].
    + set (l1 := on_hub _ l). assert (hub_ok g (hub l1)) by (split; apply Hok).
      destruct sp; [by apply Hbc|]. cbn zeta.
      destruct (arecord w i id e f (world l1)) as [[u|x] wd]; [|by apply Hfin].
      by apply (Hbc _ {| hub := hub l1; world := wd; registered := registered l1 |}).
    + by apply Hfin.
  - unfold hub_aclose. destruct (hub_closed _) eqn:Hc; cbn in Hc; [|by apply Hfin].
    split; [by apply hub_ok_grace_off|]. split; [by left|cbn; lia].
Qed.

Lemma hub_life_rtc w i sp g a l l' :
  rtc (hub_life w i sp g) l l' → hub_ok g (hub l) → (a ≤ hub_aborts (hub l))%nat →
  (g = true → attended a (hub l)) →
  hub_ok g (hub l') ∧ (g = true → attended a (hub l')) ∧ (a ≤ hub_aborts (hub l'))%nat.
Proof.
  induction 1 as [|l l1 l2 Hst _ IH]; [done|]. intros H1 H2 H3.
  destruct (hub_life_step _ _ _ _ a _ _ Hst H1 H2 H3) as (? & ? & ? & _).
  apply IH; [done|lia|done].
Qed.

(** ** A run nobody has published to yet *)

Definition idle_hub : Hub :=
  {| hub_source := []; hub_queues := ∅; hub_subscribers := ∅; hub_grace := false;
     hub_closed := false; hub_last_sequence := 0; hub_aborts := 0 |}.
Definition opened (reg : bool) : Sys :=
  {| live := {| hub := idle_hub; world := started lease_run; registered := reg |};
     emitter := {| em_run := 2; em_version := 5; em_request := [114%N]; em_sequence := 0 |};
     in_flight := []; resumed := None; recording := []; follower := attach 0 |}.
(** The run of these tables has succeeded. *)
Definition closed_run (d : Db) : Db :=
  set_agent_runs (set_run_status RunStatus.SUCCEEDED <$> agent_runs d) d.
Definition sample_event (ty : AgentEventType) : AgentEvent :=
  {| event_id := [101%N]; request_id := [114%N]; step_id := None; sequence := 1; type := ty;
     event_run_id := 2; event_version_id := 5; timestamp := 30; payload := [] |}.

Lemma opened_ok `{SafeTexts} reg : publisher_ok 1 2 5 true (opened reg).
Proof.
  split; cbn; [apply (started_ok lease_run)|by intros ? ?%not_elem_of_nil|done|done
    |by intros ? ?%not_elem_of_nil|].
  intros e [He|[[He|(j & q & Hj & _)]|He]]; cbn in *;
    [by apply not_elem_of_nil in He..|by rewrite lookup_empty in Hj|done].
Qed.

(** ** The theorems *)

(** C32. Following a stream is in order and never invents an event, and of a
    run that was not resumed it is exactly-once.  A follower attaches after
    sequence number [after]; publishing, the hub's pump, other subscribers,
    dropped and slow subscribers, hub shutdown, the resumption of the run,
    concurrent recording by the resumed execution, and writes to other runs
    interleave with it in any way.  Then what it has yielded is strictly
    ascending and beyond [after], every structural event it yielded is stored,
    and a replay never fails.  As long as the run is not resumed -- its publisher
    then records each structural event before it hands it on -- no stored event
    up to the cursor was skipped, and a follower that finishes has yielded every
    event stored by then. *)
Theorem follower_misses_nothing `{SafeTexts} w i g version fresh k after s s' :
  publisher_ok w i version (unresumed s) s → follower s = attach after →
  rtc (stream_step w i g version fresh k) s s' →
  let fo := follower s' in
  StronglySorted Z.lt (sequence <$> out fo) ∧
  (∀ e, e ∈ out fo → after < sequence e ∧
     (should_persist e = true → ∃ row, row ∈ log_of s' ∧ stores w i version row e)) ∧
  (∀ p, at_pc fo = Replaying p →
     is_Some (attach_step w i g version fresh k (live s') fo)) ∧
  (resumed s' = None →
   (∀ row, row ∈ log_of s' → of_run w i row → after < ev_sequence row <= cursor fo →
      ∃ e, e ∈ out fo ∧ stores w i version row e) ∧
   (∀ l fo', attach_step w i g version fresh k (live s') fo = Some (l, fo') →
      at_pc fo' = Finished →
      ∀ row, row ∈ agent_run_events (db (world l)) → of_run w i row → after < ev_sequence row →
        ∃ e, e ∈ out fo' ∧ stores w i version row e)).
Proof.
  intros Hpo Hf Hst. cbn zeta.
  pose proof (stream_rtc_inv w i g version fresh k after _ _ Hst (attach_inv _ _ _ _ _ _ Hpo Hf))
    as Hinv. pose proof Hinv as [_ [H1 H2 H3 _ H5]].
  split; [done|]. split; [|split].
  - intros e He. split; [by apply H2|]. by apply (pu_stored _ _ _ _ _ _ _ (H3 e He)).
  - intros p Hp. destruct (replay_step w i version fresh _ after s' p Hinv Hp) as (es & Hr & _).
    unfold attach_step. rewrite Hp, Hr. cbn. by destruct es.
  - intros Hu%(bool_decide_eq_true_2 (resumed s' = None)). split; [by apply H5|].
    intros l fo' E Hfin. by apply (follow_inv w i g version fresh k _ after s' l fo' Hinv E).
Qed.

Lemma close_step `{SafeTexts} s :
  stream_ok (log_of s) →
  stream_step 1 2 true 5 [102%N] 0 s (with_live (with_db (closed_run (db (world (live s)))) (live s)) s).
Proof. intros [H1 H2]. by apply OtherTables. Qed.

(** Of a resumed run it is not: with two concurrent tool calls the second event
    can be stored first; a follower that tails the log then moves its cursor
    past the first event, and finishes without ever yielding it although it is
    stored. *)
Lemma resumed_follower_can_miss_event `{SafeTexts} :
  ∃ s s' e, publisher_ok 1 2 5 (unresumed s) s ∧ follower s = attach 0 ∧ in_flight s = [] ∧
    rtc (stream_step 1 2 true 5 [102%N] 0) s s' ∧
    at_pc (follower s') = Finished ∧ recording s' = [] ∧
    stored 1 2 (db (world (live s'))) e ∧ 0 < sequence e ∧ e ∉ out (follower s').
Proof.
  exists (opened false). eexists. exists (sample_event TOOL_STARTED).
  split; [apply opened_ok|]. split; [reflexivity|]. split; [reflexivity|]. split.
  - eapply rtc_l; [apply (Resume 1 2 true 5 _ 0 [114%N])|].
    eapply rtc_l; [apply (PublishResumed 1 2 true 5 _ 0 TOOL_STARTED [] [101%N] 30); discriminate|].
    eapply rtc_l; [apply (PublishResumed 1 2 true 5 _ 0 TOOL_STARTED [] [102%N] 31); discriminate|].
    eapply rtc_l; [eapply (RecordResumed 1 2 true 5 _ 0 _ 8 DbOk _ []); reflexivity|].
    eapply rtc_l; [eapply Follow; vm_compute; reflexivity|].
    eapply rtc_l; [eapply Follow; vm_compute; reflexivity|].
    eapply rtc_l; [eapply (RecordResumed 1 2 true 5 _ 0 _ 9 DbOk _ []); reflexivity|].
    eapply rtc_l; [apply close_step; vm_compute; split; repeat constructor; set_solver|].
    eapply rtc_l; [eapply Follow; vm_compute; reflexivity|].
    eapply rtc_l; [eapply Follow; vm_compute; reflexivity|].
    apply rtc_refl.
  - split; [reflexivity|]. split; [reflexivity|]. split; [vm_compute; reflexivity|].
    split; [reflexivity|]. cbn. rewrite list_elem_of_singleton. discriminate.
Qed.

(** The end of a running timer is an abort. *)
Lemma grace_over_aborts g h :
  hub_ok g h → hub_grace h = true → hub_aborts (grace_expired h) = S (hub_aborts h).
Proof.
  intros [H _] Hg. destruct (H Hg) as (_ & Hc & Hs). unfold grace_expired. rewrite Hg. cbn.
  rewrite Hc. by rewrite bool_decide_eq_true_2.
Qed.

(** C33. A hub aborts its run exactly for want of an audience.  Through any
    sequence of subscriptions, departures, dropped subscribers, timers, pump
    rounds and shutdown of a hub that was once watched: the grace timer only runs
    while the hub is open and nobody is subscribed, never when the owner disabled
    the window (the hub of a worker), and an abort only happens to an open hub
    without subscribers.  When the window is configured, a hub that is open and no
    longer iterated has aborted its run, or its timer is running and the end of
    the timer aborts it, so no run is left running for nobody. *)
Theorem unwatched_run_is_aborted w i sp g l l' l'' :
  hub_ok g (hub l) → hub_queues (hub l) ≠ ∅ →
  rtc (hub_life w i sp g) l l' → hub_life w i sp g l' l'' →
  (hub_grace (hub l') = true →
     g = true ∧ hub_closed (hub l') = false ∧ hub_subscribers (hub l') = ∅) ∧
  ((hub_aborts (hub l') < hub_aborts (hub l''))%nat →
     hub_subscribers (hub l') = ∅ ∧ hub_closed (hub l') = false) ∧
  (g = true → hub_closed (hub l'') = false → hub_queues (hub l'') = ∅ →
     (hub_aborts (hub l) < hub_aborts (hub l''))%nat ∨
     hub_grace (hub l'') = true ∧
       hub_aborts (hub (on_hub grace_expired l'')) = S (hub_aborts (hub l''))).
Proof.
  intros Hok Hq Hst Hlast.
  destruct (hub_life_rtc w i sp g (hub_aborts (hub l)) l l' Hst Hok) as (H1 & H2 & H3); [done| |].
  { intros _. by right; left. }
  destruct (hub_life_step _ _ _ _ _ _ _ Hlast H1 H3 H2) as (H4 & H5 & _ & H6).
  split; [apply H1|]. split; [done|]. intros Hg Hc He.
  destruct (H5 Hg) as [?|[?|[?|?]]]; [congruence|done| |by left].
  right. split; [done|by eapply grace_over_aborts].
Qed.

(** ** Witnesses *)

#[local] Instance any_texts : SafeTexts :=
  {| validate_summary := λ _, true; validate_evidence := λ _, true |}.

Lemma follower_misses_nothing_witness :
  ∃ s', rtc (stream_step 1 2 true 5 [102%N] 0) (opened true) s' ∧
    out (follower s') = [sample_event RUN_STARTED] ∧
    StronglySorted Z.lt (sequence <$> out (follower s')).
Proof.
  assert (∃ s', rtc (stream_step 1 2 true 5 [102%N] 0) (opened true) s' ∧
    out (follower s') = [sample_event RUN_STARTED]) as (s' & Hs & Ho).
  { eexists. split.
    - eapply rtc_l; [eapply Follow; vm_compute; reflexivity|].
      eapply rtc_l; [apply (Publish 1 2 true 5 _ 0 RUN_STARTED [] [101%N] 30 7 DbOk); [reflexivity|discriminate]|].
      eapply rtc_l; [eapply (PutSource 1 2 true 5 _ 0 _ [] []); vm_compute; [reflexivity|lia]|].
      eapply rtc_l; [apply (Pump 1 2 true 5 _ 0 0 DbOk [] DbOk)|].
      eapply rtc_l; [eapply Follow; vm_compute; reflexivity|].
      apply rtc_refl.
    - reflexivity. }
  exists s'. split; [exact Hs|]. split; [exact Ho|].
  apply (follower_misses_nothing 1 2 true 5 [102%N] 0 0 (opened true) s').
  - apply opened_ok.
  - reflexivity.
  - exact Hs.
Defined.

Definition watched_live : Live :=
  on_hub (subscribe 0) {| hub := idle_hub; world := started lease_run; registered := true |}.

Lemma unwatched_run_is_aborted_witness :
  (0 < hub_aborts (hub (on_hub (leave_hub true 0) watched_live)))%nat ∨
  hub_grace (hub (on_hub (leave_hub true 0) watched_live)) = true ∧
  hub_aborts (hub (on_hub grace_expired (on_hub (leave_hub true 0) watched_live))) =
    S (hub_aborts (hub (on_hub (leave_hub true 0) watched_live))).
Proof.
  destruct (unwatched_run_is_aborted 1 2 true true watched_live watched_live
    (on_hub (leave_hub true 0) watched_live)) as (_ & _ & H).
  - split; [discriminate|]. intros k Hk. cbn in Hk.
    assert (k = 0%nat) as -> by set_solver. by eexists.
  - cbn. apply insert_non_empty.
  - apply rtc_refl.
  - apply (LifeLeave 1 2 true true 0). by eexists.
  - apply H; [reflexivity..|]. cbn. apply delete_insert_id. reflexivity.
Defined.
