(* ===== verification/ActionNode.v ===== *)
(** * The action node of the agent graph

    Model of the node [action_execute] of
    [packages/agent_runtime/runtime_graph.py] with [_stop_if_requested],
    [_action_permissions_intact] and [step], of [_append_step]
    ([runtime_service.py]) and of the projections [_approval_state_facts],
    [_approval_tool_result] and [_safe_step_metadata]
    ([runtime_projection.py]).

    Between any two transactions of the node other transactions run: [tx] first
    lets the next entry of [coming] happen.  Three logs are kept for the theorems:
    [calls], the claimed approvals behind the calls of the action runtime; [sent],
    the very arguments of those calls with their outcome; and [found], the row each
    completion found.  [_authoritative_run_context] (the tenant service) and
    Python's [str()] of a list item are parameters; trace spans are left out.
    The node is only reached after an approval interrupt was resumed, and a
    resumed graph has [mode = "sync"], so the branch of [_stop_if_requested]
    that emits the cancellation event of a stream is never taken here. *)

From stdpp Require Import base gmap list strings.
From Stdlib Require Import ZArith NArith Lia.
From S2P Require Import Prelude.
From S2P Require Import RunBudgetLedger.
From S2P Require Import Json.
From S2P Require Import JsonTheory.
From S2P Require Import RunStore.
From S2P Require Import Rbac.
From S2P Require Import Approvals.
From S2P Require Import Reconciliation.
From S2P Require Import Actions.
From S2P Require Import TurnTranscript.
From S2P Require Import RunUsage.
From S2P Require Import RunLifecycle.

Local Open Scope Z_scope.

(** ** Projections *)

Definition _approval_tool_result (a : Approval) : ToolResult :=
  if bool_decide (ap_execution_status a = ApprovalExecutionStatus.SUCCEEDED) then
    {| tr_status := SUCCESS; tr_data := ap_safe_result a; tr_error_code := None;
       tr_safe_message := None; tr_approval_decision := Some (ap_decision_status a);
       tr_approval_execution := Some (ap_execution_status a) |}
  else
    {| tr_status := ERROR; tr_data := None;
       tr_error_code := or_code (ap_failure_code a) "ACTION_FAILED";
       tr_safe_message := or_code (ap_safe_failure_message a) "The action failed.";
       tr_approval_decision := Some (ap_decision_status a);
       tr_approval_execution := Some (ap_execution_status a) |}.

Definition execution_value (s : ApprovalExecutionStatus.t) : string :=
  match s with
  | ApprovalExecutionStatus.NOT_STARTED => "NOT_STARTED"
  | ApprovalExecutionStatus.CLAIMED => "CLAIMED"
  | ApprovalExecutionStatus.SUCCEEDED => "SUCCEEDED"
  | ApprovalExecutionStatus.FAILED => "FAILED"
  | ApprovalExecutionStatus.UNKNOWN_OUTCOME => "UNKNOWN_OUTCOME"
  end.

Definition allowed_metadata : list string :=
  ["model_round"; "context_limit"; "reserved_output"; "estimated_input_before";
    "estimated_input_after"; "truncated"; "window_utilization"; "dropped_exchange_count";
    "tool_count"; "step_count"; "tool_identities"; "tool_call_ids"; "arguments_hashes";
    "tool_results"; "action_results"; "logical_action_ids"; "policy_decision"; "error_code";
    "status"; "observations"; "input_tokens"; "output_tokens"; "total_tokens"; "cached_tokens";
    "cost_amount"; "cost_currency"; "cost_is_estimate"; "provider"; "model"; "usage_source";
    "attempt_status"; "cost_status"; "memory_projection_version"; "memory_selected_count";
    "memory_admitted_count"; "memory_dropped_count"; "memory_dropped_pool_budget_count";
    "memory_dropped_context_window_count"; "memory_dropped_unavailable_count";
    "context_policy_version"; "available_input"; "model_available_input";
    "workspace_input_limit"; "context_limit_status"; "counter_precision";
    "window_utilization_basis"; "soft_trigger_tokens"; "hard_trigger_tokens"; "target_tokens";
    "summary_revision_hash"; "summary_source_count"; "summary_context_tokens_after";
    "history_plan_version"; "history_plan_pre_trim_tokens"; "history_plan_planned_tokens";
    "history_plan_retained_tokens"; "history_plan_pre_trim_pressure";
    "history_plan_group_count"; "history_plan_reasons"]%string.

(** [{field: item.get(field) for field in fields}] *)
Definition pick (fields : list string) (item : list (list N * json)) : json :=
  JObj ((λ f, (lit f, default JNull (json_get (lit f) (JObj item)))) <$> fields).
Definition picked (fields : list string) (l : list json) : json :=
  JArr (omap (λ v, match v with JObj m => Some (pick fields m) | _ => None end) (take 32 l)).

(** [str(item)] of a JSON value. *)
Class PyStr := { py_str : json → list N }.

Definition _safe_step_metadata `{PyStr} (metadata : list (list N * json)) :
  list (list N * json) :=
  omap (λ kv : list N * json,
    if bool_decide (kv.1 ∈ lit <$> allowed_metadata) then
      match kv.2 with
      | JArr l =>
          Some (kv.1,
            if bool_decide (kv.1 = lit "tool_results")
            then picked ["tool_call_id"; "tool_identity"; "status"; "error_code"]%string l
            else if bool_decide (kv.1 = lit "action_results")
            then picked ["tool_call_id"; "logical_action_id"; "tool_identity"; "status";
                          "error_code"]%string l
            else JArr (JStr ∘ py_str <$> take 32 l))
      | JObj _ => None
      | v => Some (kv.1, v)
      end
    else None) metadata.

(** ** The node's state *)

(** The arguments of a call of the action runtime, with the approval it is for. *)
Record Handover := {
  ho_approval : uuid;
  ho_context : WorkspaceExecutionContext;
  ho_definition : ToolDefinition;
  ho_arguments : json;
  ho_key : list N
}.

(** [self_context] and [cancel_emitted] are [self.context] and
    [self._cancel_requested_emitted] of the graph. *)
Record Node := {
  tables : RunStore.Db;
  coming : list (RunStore.Db → RunStore.Db);
  calls : list (uuid * Approval);
  sent : list (Handover * outcome Exn ActionExecutionResult);
  found : list (uuid * option Approval);
  node_sequence : Z;
  self_context : WorkspaceExecutionContext;
  cancel_emitted : bool
}.
Definition set_tables (d : RunStore.Db) (c : list (RunStore.Db → RunStore.Db)) (s : Node) : Node :=
  {| tables := d; coming := c; calls := calls s; sent := sent s; found := found s;
     node_sequence := node_sequence s; self_context := self_context s;
     cancel_emitted := cancel_emitted s |}.
Definition add_call (a : Approval) (h : Handover) (r : outcome Exn ActionExecutionResult)
    (s : Node) : Node :=
  {| tables := tables s; coming := coming s; calls := calls s ++ [(ho_approval h, a)];
     sent := sent s ++ [(h, r)]; found := found s; node_sequence := node_sequence s;
     self_context := self_context s; cancel_emitted := cancel_emitted s |}.
Definition add_found (i : uuid) (s : Node) : Node :=
  {| tables := tables s; coming := coming s; calls := calls s; sent := sent s;
     found := found s ++ [(i, approvals (tables s) !! i)]; node_sequence := node_sequence s;
     self_context := self_context s; cancel_emitted := cancel_emitted s |}.
Definition next_sequence (s : Node) : Node :=
  {| tables := tables s; coming := coming s; calls := calls s; sent := sent s;
     found := found s; node_sequence := node_sequence s + 1; self_context := self_context s;
     cancel_emitted := cancel_emitted s |}.
Definition set_context (c : WorkspaceExecutionContext) (s : Node) : Node :=
  {| tables := tables s; coming := coming s; calls := calls s; sent := sent s;
     found := found s; node_sequence := node_sequence s; self_context := c;
     cancel_emitted := cancel_emitted s |}.

(** Whatever others commit until the node's next transaction. *)
Definition await : M Node Exn unit := λ s,
  match coming s with
  | [] => (Return tt, s)
  | f :: rest => (Return tt, set_tables (f (tables s)) rest s)
  end.
Definition in_tables {A} (m : M RunStore.Db Exn A) : M Node Exn A := λ s,
  let '(r, d) := m (tables s) in (r, set_tables d (coming s) s).
Definition tx {A} (m : M RunStore.Db Exn A) : M Node Exn A := await;; in_tables m.

(** How [m] ends, as a value. *)
Definition attempt {A} (m : M Node Exn A) : M Node Exn (outcome Exn A) := λ s,
  let '(r, s') := m s in (Return r, s').
Definition conclude {A} (r : outcome Exn A) : M Node Exn A :=
  match r with Return a => mret a | Raise e => raise e end.

(** [_append_step], with the table's unique key. *)
Definition _append_step (context : WorkspaceExecutionContext) (run_id_ : uuid) (sequence : Z)
    (kind status : string) (metadata : list (list N * json)) : M RunStore.Db Exn unit :=
  session_scope (
    w ← parse_workspace context;
    d ← get;
    raise_if (bool_decide (find_run w run_id_ d = None))
      (IntegrityError "fk_run_steps_agent_run_workspace");;
    raise_if (existsb (λ s, bool_decide ((step_workspace_id s, step_agent_run_id s,
                                          step_sequence_number s) = (w, run_id_, sequence)))
                (run_steps d))
      (IntegrityError "uq_run_steps_sequence");;
    put (set_run_steps (run_steps d ++
      [{| step_workspace_id := w; step_agent_run_id := run_id_;
          step_sequence_number := sequence; step_kind := kind; step_status := status;
          step_safe_metadata := JObj metadata |}]) d)).

(** ** The node *)

(** An entry of [action_calls]. *)
Record ActionCall := { ac_tool_call_id : list N; ac_name : list N; ac_approval_id : uuid }.

(** The keys of the returned state update. *)
Record Update := {
  up_executed : option (list (list N * ToolResult));
  up_run_status : option RunStatus.t;
  up_failure_code : option string;
  up_actions_done : bool
}.

(** [action_results] *)
Record ActionResult := {
  re_tool_call_id : list N;
  re_logical_action_id : list N;
  re_tool_identity : list N;
  re_status : ApprovalExecutionStatus.t;
  re_error_code : option string
}.

(** What the loop carries. *)
Record Progress := {
  pr_context : WorkspaceExecutionContext;
  pr_executed : list (list N * ToolResult);
  pr_ids : list (list N);
  pr_results : list ActionResult
}.

(** [executed[key] = value] *)
Fixpoint set_result (k : list N) (r : ToolResult) (l : list (list N * ToolResult)) :
  list (list N * ToolResult) :=
  match l with
  | [] => [(k, r)]
  | (k', r') :: rest => if bool_decide (k' = k) then (k, r) :: rest
                        else (k', r') :: set_result k r rest
  end.

Definition attention (executed : option (list (list N * ToolResult))) (code : string) : Update :=
  {| up_executed := executed; up_run_status := Some RunStatus.NEEDS_ATTENTION;
     up_failure_code := Some code; up_actions_done := false |}.

Section ActionNode.
Context `{PyStr}.
Context (run : AgentRun) (registry : ActionRegistry).
(** [TenantService.get_workspace_access] for the run's creator. *)
Context (authoritative : WorkspaceExecutionContext → AgentRun →
                         M RunStore.Db Exn WorkspaceExecutionContext).
Context (tool_definitions : list N → option ToolDefinition).
(** The clock readings of the claim and of the completion of an approval. *)
Context (clock : uuid → datetime * datetime).

Definition stop_update (status : option RunStatus.t) : option Update :=
  match status with
  | Some RunStatus.CANCEL_REQUESTED | Some RunStatus.CANCELLED =>
      Some {| up_executed := None; up_run_status := Some RunStatus.CANCELLED;
              up_failure_code := None; up_actions_done := false |}
  | Some RunStatus.NEEDS_ATTENTION => Some (attention None "ACTION_RECONCILIATION_REQUIRED")
  | _ => None
  end.
Definition status_now (context : WorkspaceExecutionContext) : M Node Exn (option RunStatus.t) :=
  tx (w ← parse_workspace context; d ← get; mret (run_status <$> find_run w (run_id run) d)).
Definition _stop_if_requested (context : WorkspaceExecutionContext) : M Node Exn (option Update) :=
  status ← status_now context; mret (stop_update status).

(** [self.step(kind, status, metadata)] *)
Definition step (context : WorkspaceExecutionContext) (kind status : string)
    (metadata : list (list N * json)) : M Node Exn unit :=
  s ← get;
  modify next_sequence;;
  tx (_append_step context (run_id run) (node_sequence s + 1) kind status
        (_safe_step_metadata metadata)).

Definition _action_permissions_intact (definition : ToolDefinition)
    (context : WorkspaceExecutionContext) : bool :=
  bool_decide ((list_to_set (["agent_run"; "workspace_read"; "tool_run"]%string
    ++ (if bool_decide (td_identity definition ∈ lit <$> ["search_knowledge"; "query_wiki"]%string)
        then ["knowledge_run"%string] else [])) : gset string)
    ⊆ ctx_permissions context).

(** The refreshed context, or [None] when access was revoked. *)
Definition refresh (context : WorkspaceExecutionContext) :
  M Node Exn (option WorkspaceExecutionContext) :=
  catch (c ← tx (authoritative context run); modify (set_context c);; mret (Some c))
    (λ e, match e with
          | AgentHubError _ _ code =>
              if bool_decide (code ∈ [403; 404]) then mret None else raise e
          | _ => raise e
          end).

Definition result_of (item : ActionCall) (a : Approval) (s : ApprovalExecutionStatus.t)
    (code : option string) : ActionResult :=
  {| re_tool_call_id := ac_tool_call_id item; re_logical_action_id := ap_logical_action_id a;
     re_tool_identity := ap_tool_identity a; re_status := s; re_error_code := code |}.

Definition with_context (c : WorkspaceExecutionContext) (p : Progress) : Progress :=
  {| pr_context := c; pr_executed := pr_executed p; pr_ids := pr_ids p;
     pr_results := pr_results p |}.
Definition observe (item : ActionCall) (a : Approval) (p : Progress) : Progress :=
  {| pr_context := pr_context p;
     pr_executed := set_result (ac_tool_call_id item) (_approval_tool_result a) (pr_executed p);
     pr_ids := pr_ids p; pr_results := pr_results p |}.
Definition report (r : ActionResult) (p : Progress) : Progress :=
  {| pr_context := pr_context p; pr_executed := pr_executed p; pr_ids := pr_ids p;
     pr_results := pr_results p ++ [r] |}.

Definition completed_status (s : ActionExecutionStatus.t) : ApprovalExecutionStatus.t :=
  match s with
  | ActionExecutionStatus.SUCCEEDED => ApprovalExecutionStatus.SUCCEEDED
  | ActionExecutionStatus.FAILED => ApprovalExecutionStatus.FAILED
  | ActionExecutionStatus.UNKNOWN_OUTCOME => ApprovalExecutionStatus.UNKNOWN_OUTCOME
  end.

(** [action_runtime.execute(...)], backed by the approval [claimed]. *)
Definition run_handover (h : Handover) : M RunStore.Db Exn ActionExecutionResult :=
  runtime_execute registry (ho_context h) (ho_definition h) (ho_arguments h) (ho_key h).
Definition hand_over (claimed : Approval) (h : Handover) : M Node Exn ActionExecutionResult :=
  r ← attempt (tx (run_handover h));
  modify (add_call claimed h r);;
  conclude r.

(** A completion of approval [i], which notes the row it finds. *)
Definition settle (i : uuid) (complete : M RunStore.Db Exn Approval) : M Node Exn Approval :=
  await;; modify (add_found i);; in_tables complete.

(** From the granted claim on. *)
Definition run_claimed (item : ActionCall) (definition : ToolDefinition) (approval claimed : Approval)
    (p : Progress) : M Node Exn (Progress + Update) :=
  access ← refresh (pr_context p);
  match access with
  | None => mret (inr (attention (Some (pr_executed p)) "RUN_ACTOR_ACCESS_REVOKED"))
  | Some c =>
      let p := with_context c p in
      if negb (_action_permissions_intact definition c)
      then mret (inr (attention (Some (pr_executed p)) "RUN_ACTOR_ACCESS_REVOKED"))
      else
        result ← hand_over claimed
          {| ho_approval := ac_approval_id item; ho_context := c; ho_definition := definition;
             ho_arguments := ap_canonical_arguments claimed; ho_key := ap_idempotency_key claimed |};
        let status := completed_status (ar_status result) in
        let safe_result := match ar_status result with
                           | ActionExecutionStatus.UNKNOWN_OUTCOME => None
                           | _ => ar_data result
                           end in
        completed ← settle (ac_approval_id item)
                      (complete_execution c (ac_approval_id item) status safe_result
                         (ar_failure_code result) (ar_safe_message result)
                         (clock (ac_approval_id item)).2);
        let p := report (result_of item approval status (ar_failure_code result))
                   (observe item completed p) in
        match ar_status result with
        | ActionExecutionStatus.UNKNOWN_OUTCOME =>
            mret (inr (attention (Some (pr_executed p)) "ACTION_RECONCILIATION_REQUIRED"))
        | _ => mret (inl p)
        end
  end.

Definition claim_and_run (item : ActionCall) (approval : Approval) (p : Progress) :
  M Node Exn (Progress + Update) :=
  match tool_definitions (ac_name item) with
  | None => raise KeyError
  | Some definition =>
      access ← refresh (pr_context p);
      match access with
      | None => mret (inr (attention (Some (pr_executed p)) "RUN_ACTOR_ACCESS_REVOKED"))
      | Some c =>
          let p := with_context c p in
          if negb (_action_permissions_intact definition c)
             || negb (bool_decide ("tool_run"%string ∈ ctx_permissions c))
          then mret (inr (attention (Some (pr_executed p)) "RUN_ACTOR_ACCESS_REVOKED"))
          else
            claimed ← tx (claim_execution c (ac_approval_id item) (clock (ac_approval_id item)).1);
            match claimed with
            | Some claimed => run_claimed item definition approval claimed p
            | None =>
                current ← tx (get_approval c (ac_approval_id item));
                if terminal_execution (ap_execution_status current)
                then mret (inl (observe item current p))
                else mret (inr (attention None "ACTION_CLAIM_LOST"))
            end
      end
  end.

(** One turn of the loop. *)
Definition execute_item (item : ActionCall) (p : Progress) : M Node Exn (Progress + Update) :=
  stopped ← _stop_if_requested (pr_context p);
  match stopped with
  | Some u => mret (inr {| up_executed := Some (pr_executed p); up_run_status := up_run_status u;
                           up_failure_code := up_failure_code u; up_actions_done := false |})
  | None =>
      approval ← tx (_load_resume_approval (pr_context p) run (ac_approval_id item));
      let p := {| pr_context := pr_context p; pr_executed := pr_executed p;
                  pr_ids := pr_ids p ++ [ap_logical_action_id approval];
                  pr_results := pr_results p |} in
      if terminal_execution (ap_execution_status approval) then
        let p := report (result_of item approval (ap_execution_status approval)
                           (ap_failure_code approval)) (observe item approval p) in
        if bool_decide (ap_execution_status approval = ApprovalExecutionStatus.UNKNOWN_OUTCOME)
        then mret (inr (attention (Some (pr_executed p)) "ACTION_RECONCILIATION_REQUIRED"))
        else mret (inl p)
      else claim_and_run item approval p
  end.

Fixpoint execute_items (items : list ActionCall) (p : Progress) :
  M Node Exn (Progress + Update) :=
  match items with
  | [] => mret (inl p)
  | item :: items =>
      out ← execute_item item p;
      match out with
      | inl p => execute_items items p
      | inr u => mret (inr u)
      end
  end.

Definition result_json (r : ActionResult) : json :=
  JObj [(lit "tool_call_id", JStr (re_tool_call_id r));
        (lit "logical_action_id", JStr (re_logical_action_id r));
        (lit "tool_identity", JStr (re_tool_identity r));
        (lit "status", JStr (lit (execution_value (re_status r))));
        (lit "error_code", opt_str (re_error_code r))].

(** [self.step("ACTION", ...)] *)
Definition action_step (items : list ActionCall) (p : Progress) : M Node Exn unit :=
  step (pr_context p) "ACTION"
    (if existsb (λ r, bool_decide (re_status r = ApprovalExecutionStatus.FAILED)) (pr_results p)
     then "FAILED" else "SUCCEEDED")
    [(lit "tool_count", JInt (Z.of_nat (length (pr_executed p))));
     (lit "tool_identities", JArr (JStr ∘ ac_name <$> items));
     (lit "logical_action_ids", JArr (JStr <$> pr_ids p));
     (lit "action_results", JArr (result_json <$> pr_results p))].

(** [configured]: an action runtime and an approval service are present. *)
Definition action_execute (configured : bool) (context : WorkspaceExecutionContext)
    (action_calls : list ActionCall) : M Node Exn Update :=
  stopped ← _stop_if_requested context;
  match stopped with
  | Some u => mret u
  | None =>
      if negb configured
      then mret {| up_executed := None; up_run_status := None;
                   up_failure_code := Some "ACTION_RUNTIME_NOT_CONFIGURED"%string;
                   up_actions_done := false |}
      else
        out ← execute_items action_calls
                {| pr_context := context; pr_executed := []; pr_ids := []; pr_results := [] |};
        match out with
        | inr u => mret u
        | inl p =>
            action_step action_calls p;;
            mret {| up_executed := Some (pr_executed p); up_run_status := None;
                    up_failure_code := None; up_actions_done := true |}
        end
  end.
End ActionNode.
