(* ===== verification/ActionNodeProperties.v ===== *)
(** * Approved actions, executed once

    Theorems about [ActionNode.v]: whatever runs beside it, the node hands an
    action to the runtime only after a granted claim on an approved approval of
    its own run, at most once per approval, with the arguments that were
    approved, and what it tells the model is what the approval records.

    [triple] is a small program logic over the node's state: the invariant
    [node_ok] is kept by every step, and facts that survive the moves of
    approvals ([Stable]) survive other transactions. *)

From stdpp Require Import base gmap list strings.
From Stdlib Require Import ZArith NArith Lia.
From S2P Require Import Prelude.
From S2P Require Import RunBudgetLedger.
From S2P Require Import Json.
From S2P Require Import JsonTheory.
From S2P Require Import RunStore.
From S2P Require Import Rbac.
From S2P Require Import Approvals.
From S2P Require Import ApprovalsTheory.
From S2P Require Import ApprovalsProperties.
From S2P Require Import ApprovalsLifecycle.
From S2P Require Import Reconciliation.
From S2P Require Import Actions.
From S2P Require Import TurnTranscript.
From S2P Require Import RunUsage.
From S2P Require Import RunLifecycle.
From S2P Require Import ActionNode.

Local Open Scope Z_scope.

(** ** Invariant and stable facts *)

(** Row [i] has moved on from [a]. *)
Definition since (i : uuid) (a : Approval) (s : Node) : Prop :=
  ∃ b, approvals (tables s) !! i = Some b ∧ ap_le a b.

(** A call of the runtime repeats the claimed approval behind it. *)
Definition backed (x : Handover * outcome Exn ActionExecutionResult) (c : uuid * Approval) : Prop :=
  ho_approval x.1 = c.1 ∧ ho_arguments x.1 = ap_canonical_arguments c.2 ∧
  ho_key x.1 = ap_idempotency_key c.2.

Section Log.
(** What the log holds when the node starts. *)
Context (old : list (Handover * outcome Exn ActionExecutionResult)).

Record node_ok (s : Node) : Prop := {
  no_store : store_ok (tables s);
  no_coming : ∀ f, f ∈ coming s → others_ok ap_le f;
  no_calls : ∀ i a, (i, a) ∈ calls s → since i a s ∧
    ap_execution_status a = CLAIMED ∧ ap_decision_status a = APPROVED;
  no_once : NoDup (calls s).*1;
  no_sent : ∃ new, sent s = old ++ new ∧ Forall2 backed new (calls s)
}.

(** The node did not call anything and approvals moved forward. *)
Record later (s s' : Node) : Prop := {
  la_tables : evolves ap_le (tables s) (tables s');
  la_calls : calls s' = calls s;
  la_sent : sent s' = sent s;
  la_found : found s `prefix_of` found s'
}.
#[global] Instance later_refl : Reflexive later.
Proof using Type. intros s. by split. Qed.
#[global] Instance later_trans : Transitive later.
Proof using Type. intros a b c [] []. split; [by etrans|congruence|congruence|by etrans]. Qed.

Class Stable (P : Node → Prop) : Prop := stable s s' : later s s' → P s → P s'.

Lemma since_later i a s s' : later s s' → since i a s → since i a s'.
Proof.
  intros [[Hev _] _ _ _] (b & Hb & Hle). destruct (Hev i b Hb) as (b' & Hb' & Hle').
  exists b'. split; [done|]. by etrans.
Qed.

#[global] Instance stable_since i a : Stable (since i a).
Proof. intros s s'. apply since_later. Qed.
#[global] Instance stable_true : Stable (λ _, True).
Proof. by intros ???. Qed.
#[global] Instance stable_and P Q : Stable P → Stable Q → Stable (λ s, P s ∧ Q s).
Proof. intros HP HQ s s' Hl [? ?]. split; [by eapply HP|by eapply HQ]. Qed.

Lemma node_ok_tables s s' :
  node_ok s → later s s' → keys_ok (tables s') → (∀ f, f ∈ coming s' → f ∈ coming s) → node_ok s'.
Proof.
  intros [H1 H2 H3 H4 H5] Hl Hk Hc. pose proof Hl as [Hev Hcalls Hsent _]. split.
  - exact (evolves_inv ap_le _ _ Hev H1 Hk).
  - auto.
  - intros i a Hin. rewrite Hcalls in Hin. destruct (H3 i a Hin) as (? & ? & ?).
    split; [by eapply since_later|done].
  - by rewrite Hcalls.
  - by rewrite Hcalls, Hsent.
Qed.

(** ** Triples *)

Definition triple {A} (P : Node → Prop) (m : M Node Exn A) (Q : A → Node → Prop) : Prop :=
  ∀ s r s', node_ok s → P s → m s = (r, s') →
    node_ok s' ∧ ∀ a, r = Return a → Q a s'.

Section Rules.
Context {A B : Type}.

Lemma triple_ret (P : Node → Prop) (a : A) (Q : A → Node → Prop) :
  (∀ s, P s → Q a s) → triple P (mret a) Q.
Proof. intros H s r s' Hok HP [= <- <-]. split; [done|]. intros ? [= <-]. auto. Qed.

Lemma triple_raise P (e : Exn) (Q : A → Node → Prop) : triple P (raise e) Q.
Proof. intros s r s' Hok _ [= <- <-]. by split. Qed.

Lemma triple_bind P (m : M Node Exn A) Q (f : A → M Node Exn B) R :
  triple P m Q → (∀ a, triple (Q a) (f a) R) → triple P (m ≫= f) R.
Proof.
  intros Hm Hf s r s' Hok HP. rewrite bind_run. destruct (m s) as [[a|e] s1] eqn:E.
  - destruct (Hm s _ s1 Hok HP E) as [Hok1 HQ]. intros E'. by eapply Hf; [..|apply HQ|exact E'].
  - destruct (Hm s _ s1 Hok HP E) as [Hok1 _]. intros [= <- <-]. by split.
Qed.

Lemma triple_catch P (m : M Node Exn A) h Q :
  triple P m Q → (∀ e, triple (λ _, True) (h e) Q) → triple P (catch m h) Q.
Proof.
  intros Hm Hh s r s' Hok HP. unfold catch. destruct (m s) as [[a|e] s1] eqn:E.
  - destruct (Hm s _ s1 Hok HP E) as [Hok1 HQ]. intros [= <- <-]. split; [done|]. by intros ? [= <-]; apply HQ.
  - destruct (Hm s _ s1 Hok HP E) as [Hok1 _]. intros E'. by eapply Hh.
Qed.

Lemma triple_conseq P P' (m : M Node Exn A) Q Q' :
  triple P m Q → (∀ s, P' s → P s) → (∀ a s, Q a s → Q' a s) → triple P' m Q'.
Proof.
  intros Hm HP HQ s r s' Hok HP' E. destruct (Hm s r s' Hok (HP s HP') E) as [? H].
  split; [done|]. intros a Ha. by apply HQ, H.
Qed.

Lemma await_later s :
  node_ok s → ∃ s1, await s = (Return tt, s1) ∧ later s s1 ∧ node_ok s1.
Proof using Type.
  intros Hok. unfold await. destruct (coming s) as [|f rest] eqn:Ec; [by eexists|].
  eexists. split; [done|].
  destruct (no_coming _ Hok f) with (d := tables s) as [Hev Hk];
    [rewrite Ec; by left|apply (no_store _ Hok)|].
  assert (later s (set_tables (f (tables s)) rest s)) as Hl by (by split).
  split; [done|]. eapply node_ok_tables; [done..|]. cbn. rewrite Ec. by right.
Qed.

(** A transaction beside others: stable facts survive it, also when it raises. *)
Lemma tx_later (m : M RunStore.Db Exn A) s r s' :
  Evolving ap_le m → node_ok s → tx m s = (r, s') →
  ∃ s1, later s s1 ∧ node_ok s1 ∧ later s1 s' ∧ node_ok s' ∧ calls s' = calls s1 ∧
    m (tables s1) = (r, tables s').
Proof.
  intros Hm Hok. unfold tx. rewrite bind_run.
  destruct (await_later s Hok) as (s1 & -> & Hl1 & Hok1).
  unfold in_tables. destruct (m (tables s1)) as [r1 d] eqn:E. intros [= <- <-].
  destruct (Hm (tables s1) (proj1 (no_store _ Hok1)) _ _ E) as [Hev Hk].
  exists s1. split; [done|]. split; [done|].
  set (s2 := set_tables d (coming s1) s1).
  assert (Hl2 : later s1 s2) by (by split).
  split; [done|]. split; [by apply (node_ok_tables s1)|done].
Qed.

Lemma triple_tx P (m : M RunStore.Db Exn A) (Q : A → Node → Prop) :
  Stable P → Evolving ap_le m →
  (∀ s s' a, node_ok s → P s → calls s' = calls s → m (tables s) = (Return a, tables s') → Q a s') →
  triple P (tx m) (λ a s, P s ∧ Q a s).
Proof.
  intros HP Hm HQ s r s' Hok HPs E.
  destruct (tx_later m s r s' Hm Hok E) as (s1 & Hl1 & Hok1 & Hl2 & Hok2 & Hc & Em).
  split; [done|]. intros a ->. assert (HP1 : P s1) by (by eapply HP).
  split; [by eapply HP|]. exact (HQ s1 s' a Hok1 HP1 Hc Em).
Qed.
End Rules.

Lemma triple_keep {A} P (m : M RunStore.Db Exn A) :
  Stable P → Evolving ap_le m → triple P (tx m) (λ _ s, P s).
Proof.
  intros HP Hm. eapply triple_conseq; [apply (triple_tx P m (λ _ _, True)); done|done|].
  by intros a s [? _].
Qed.

End Log.

(** ** Approvals read and written by the node *)

Definition terminal (a : Approval) : Prop := terminal_execution (ap_execution_status a) = true.

(** What the model is told about an approval. *)
Record told (r : ToolResult) (a : Approval) : Prop := {
  to_execution : tr_approval_execution r = Some (ap_execution_status a);
  to_success : ap_execution_status a = ApprovalExecutionStatus.SUCCEEDED →
    tr_status r = SUCCESS ∧ tr_data r = ap_safe_result a ∧ tr_error_code r = None ∧
    tr_safe_message r = None;
  to_failure : ap_execution_status a ≠ ApprovalExecutionStatus.SUCCEEDED →
    tr_status r = ERROR ∧ tr_data r = None ∧
    tr_error_code r = or_code (ap_failure_code a) "ACTION_FAILED" ∧
    tr_safe_message r = or_code (ap_safe_failure_message a) "The action failed."
}.

Lemma tool_result_told a : told (_approval_tool_result a) a.
Proof. unfold _approval_tool_result. case_bool_decide; by split. Qed.

(** What the runtime answered is what the approval records. *)
Definition records (b : Approval) (r : ActionExecutionResult) : Prop :=
  ap_execution_status b = completed_status (ar_status r) ∧
  ap_safe_result b = match ar_status r with
                     | ActionExecutionStatus.UNKNOWN_OUTCOME => None
                     | _ => ar_data r
                     end ∧
  ap_failure_code b = ar_failure_code r ∧ ap_safe_failure_message b = ar_safe_message r.

Lemma outcome_final a b : ap_le a b → terminal a → ap_outcome b = ap_outcome a.
Proof. intros Hle. apply (le_outcome _ _ Hle). Qed.
Lemma outcome_same a b : ap_outcome b = ap_outcome a →
  (terminal a → terminal b) ∧ (∀ r, told r a → told r b) ∧ ∀ r, records a r → records b r.
Proof.
  unfold ap_outcome, terminal, records. intros [= E1 E2 E3 E4 _ _].
  split; [by rewrite E1|]. split.
  - intros r []. split; by rewrite ?E1, ?E2, ?E3, ?E4.
  - intros r. by rewrite E1, E2, E3, E4.
Qed.

Lemma since_terminal i a s :
  since i a s → terminal a →
  ∃ b, approvals (tables s) !! i = Some b ∧ terminal b ∧ ap_outcome b = ap_outcome a ∧
    ∀ r, told r a → told r b.
Proof.
  intros (b & Hb & Hle) Ht. exists b. pose proof (outcome_final _ _ Hle Ht) as E.
  destruct (outcome_same _ _ E) as (? & ? & _). auto.
Qed.

Lemma load_resume_inv ctx run i d a d' :
  _load_resume_approval ctx run i d = (Return a, d') →
  approvals d !! i = Some a ∧ ap_run_id a = run_id run ∧
  ap_agent_version_id a = run_agent_version_id run ∧ d' = d.
Proof.
  intros (w & Hc & _)%pure_bind_inv; [|unfold parse_workspace; destruct (ctx_workspace_id ctx); apply _].
  rewrite bind_run in Hc. cbn [get] in Hc.
  destruct (find_approval w i d) as [b|] eqn:Hf; [|discriminate Hc].
  destruct (N.eqb_spec (ap_run_id b) (run_id run)); [|discriminate Hc].
  destruct (N.eqb_spec (ap_agent_version_id b) (run_agent_version_id run)); [|discriminate Hc].
  injection Hc as <- <-. by apply find_approval_Some in Hf as [? _].
Qed.

(** A granted claim found the row unstarted. *)
Lemma claim_from ctx i now d a d' b :
  claim_execution ctx i now d = (Return (Some a), d') → approvals d !! i = Some b →
  ap_execution_status b = NOT_STARTED.
Proof.
  intros Hc Hb. destruct (decide (ap_execution_status b = NOT_STARTED)) as [|Hn]; [done|].
  destruct (claim_refused _ _ _ _ _ _ _ Hb Hn Hc) as [_ H]. by destruct (H a).
Qed.

Lemma get_approval_inv ctx i d a d' :
  get_approval ctx i d = (Return a, d') → approvals d' !! i = Some a.
Proof.
  unfold get_approval. intros (u & d0 & H1 & Hc)%bind_inv.
  apply pure_state in H1 as ->; [|apply _].
  apply pure_bind_inv in Hc as (w & Hc & _); [|apply _].
  rewrite bind_run in Hc. cbn [get] in Hc. apply reraise_inv in Hc as [Hf ->].
  by apply find_approval_Some in Hf as [? _].
Qed.

(** A completion finds a row, and writes the outcome unless there is one. *)
Lemma complete_returns ctx i st r f m now d a d' :
  keys_ok d → complete_execution ctx i st r f m now d = (Return a, d') →
  ∃ b, approvals d !! i = Some b ∧ approvals d' !! i = Some a ∧ terminal a ∧
    (terminal b → a = b) ∧
    (¬ terminal b → ap_execution_status a = st ∧ ap_safe_result a = r ∧
       ap_failure_code a = f ∧ ap_safe_failure_message a = m).
Proof.
  intros Hk Hc. unfold complete_execution in Hc. apply bind_inv in Hc as (u & d0 & Hr & Hc).
  apply raise_if_inv in Hr as [Hst ->]. apply negb_false_iff in Hst.
  apply pure_bind_inv in Hc as (w & Hc & _); [|apply _].
  unfold session_scope, atomically in Hc. rewrite bind_run in Hc. cbn [get] in Hc.
  destruct (find_approval w i d) as [b|] eqn:Hf; [|discriminate Hc].
  rewrite bind_run in Hc. cbn [reraise_unless mret M_ret] in Hc.
  pose proof (proj1 (find_approval_Some _ _ _ _) Hf) as [Hb _]. exists b. split; [done|].
  unfold terminal. destruct (terminal_execution (ap_execution_status b)) eqn:Et.
  - by injection Hc as <- <-.
  - rewrite bind_run in Hc. unfold save_approval in Hc. cbn [modify mret M_ret] in Hc.
    injection Hc as <- <-. cbn. rewrite (proj2 Hk _ _ Hb), lookup_insert_eq. done.
Qed.

#[global] Instance ev_append_step ctx run n kind st meta :
  Evolving ap_le (_append_step ctx run n kind st meta).
Proof.
  unfold _append_step. repeat ev_step;
    try (apply ev_pure; unfold parse_workspace; destruct (ctx_workspace_id ctx); apply _).
  intros Hk r d' [= <- <-]. split; [by apply (evolves_same ap_le)|done].
Qed.
#[global] Instance ev_load_resume ctx run i : Evolving ap_le (_load_resume_approval ctx run i).
Proof.
  unfold _load_resume_approval. repeat ev_step;
    apply ev_pure; unfold parse_workspace; destruct (ctx_workspace_id ctx); apply _.
Qed.
#[global] Instance ev_get_approval ctx i : Evolving ap_le (get_approval ctx i).
Proof. unfold get_approval. repeat ev_step. Qed.
#[global] Instance ev_claim_le ctx i now : Evolving ap_le (claim_execution ctx i now).
Proof. apply evolving_quiet, _. Qed.
#[global] Instance ev_complete_le ctx i s r f m now :
  Evolving ap_le (complete_execution ctx i s r f m now).
Proof. apply evolving_quiet, _. Qed.

(** ** The node *)

Section Node.
Context `{HP : PyStr} (run : AgentRun) (registry : ActionRegistry).
Context (authoritative : WorkspaceExecutionContext → AgentRun →
                         M RunStore.Db Exn WorkspaceExecutionContext).
Context (tool_definitions : list N → option ToolDefinition) (clock : uuid → datetime * datetime).
Context (Hauth : ∀ c r, Evolving ap_le (authoritative c r)).
Context (Hexec : ∀ c def args key, Evolving ap_le (runtime_execute registry c def args key)).
(** The log the node started with, and all the calls of the round. *)
Context (old : list (Handover * outcome Exn ActionExecutionResult)) (all : list ActionCall).

(** A call is accounted for: the approval records what the runtime answered,
    unless its completion found an outcome already. *)
Definition accounted (h : Handover) (r : outcome Exn ActionExecutionResult) (s : Node) : Prop :=
  ∃ res f b, r = Return res ∧ (ho_approval h, Some f) ∈ found s ∧
    approvals (tables s) !! ho_approval h = Some b ∧ terminal b ∧
    (terminal f → ap_outcome b = ap_outcome f) ∧ (¬ terminal f → records b res).

(** Every call was for an approval of this run, and all but [skip] are settled. *)
Definition settled_but (skip : uuid → Prop) (skip_call : Handover → Prop) (s : Node) : Prop :=
  (∀ i a, (i, a) ∈ calls s →
     ap_run_id a = run_id run ∧ ap_agent_version_id a = run_agent_version_id run ∧
     (skip i ∨ ∃ b, approvals (tables s) !! i = Some b ∧ terminal b)) ∧
  (∀ h r, (h, r) ∈ sent s → (h, r) ∈ old ∨ skip_call h ∨ accounted h r s).
Definition settled : Node → Prop := settled_but (λ _, False) (λ _, False).
(** What is told under a call's identifier is the outcome of its approval. *)
Definition truthful (l : list (list N * ToolResult)) (s : Node) : Prop :=
  ∀ k r, (k, r) ∈ l → ∃ item b, item ∈ all ∧ ac_tool_call_id item = k ∧
    approvals (tables s) !! ac_approval_id item = Some b ∧ terminal b ∧ told r b.
(** The calls of [ds] have their observations. *)
Definition covers (ds : list ActionCall) (p : Progress) : Prop :=
  ∀ item, item ∈ ds → ac_tool_call_id item ∈ (pr_executed p).*1.
Definition good (p : Progress) (s : Node) : Prop :=
  settled s ∧ truthful (pr_executed p) s.

#[global] Instance stable_settled skip skc : Stable (settled_but skip skc).
Proof using Type.
  intros s s' Hl [H1 H2]. pose proof Hl as [Hev Hc Hs [more Hf]].
  assert (Hter : ∀ i b, approvals (tables s) !! i = Some b → terminal b →
    ∃ b', approvals (tables s') !! i = Some b' ∧ terminal b' ∧ ap_outcome b' = ap_outcome b).
  { intros i b Hb Ht. destruct (since_terminal i b s') as (b' & ? & ? & ? & _); [|done|eauto].
    apply (since_later i b s s' Hl). by exists b. }
  split.
  - intros i a Hin. rewrite Hc in Hin.
    destruct (H1 i a Hin) as (? & ? & [?|(b & Hb & Ht)]); (do 2 (split; [done|])); [by left|right].
    destruct (Hter i b Hb Ht) as (b' & ? & ? & _). eauto.
  - intros h r Hin. rewrite Hs in Hin.
    destruct (H2 h r Hin) as [?|[?|(res & f & b & ? & Hfo & Hb & Ht & E1 & E2)]]; [by left|by right; left|].
    right; right. destruct (Hter _ b Hb Ht) as (b' & ? & ? & E).
    exists res, f, b'. split; [done|]. split; [rewrite Hf; apply elem_of_app; by left|].
    split; [done|]. split; [done|]. split; [intros ?%E1; congruence|].
    intros Hr%E2. by apply (outcome_same b b').
Qed.
#[global] Instance stable_settled_all : Stable settled.
Proof using Type. unfold settled. apply _. Qed.
#[global] Instance stable_truthful l : Stable (truthful l).
Proof using Type.
  intros s s' Hl H k r Hin. destruct (H k r Hin) as (item & b & Hi & Hk & Hb & Ht & Hr).
  assert (Hsi : since (ac_approval_id item) b s')
    by (apply (since_later _ b s s' Hl); by exists b).
  destruct (since_terminal _ _ _ Hsi Ht) as (b' & ? & ? & _ & Htold).
  exists item, b'. split_and!; auto.
Qed.
#[global] Instance stable_good p : Stable (good p).
Proof using Type. unfold good. apply _. Qed.

(** The update says what it tells. *)
Definition good_update (u : Update) (s : Node) : Prop :=
  settled s ∧ (∀ l, up_executed u = Some l → truthful l s) ∧
  (up_actions_done u = true → ∃ l, up_executed u = Some l ∧
     ∀ item, item ∈ all → ac_tool_call_id item ∈ l.*1).
Definition good_out (ds : list ActionCall) (out : Progress + Update) (s : Node) : Prop :=
  match out with
  | inl p => good p s ∧ covers ds p
  | inr u => good_update u s ∧ up_actions_done u = false
  end.

Lemma stopped_update ds p (u : Update) s :
  good p s → up_actions_done u = false →
  (up_executed u = Some (pr_executed p) ∨ up_executed u = None) → good_out ds (inr u) s.
Proof using Type.
  intros [Hs Ht] Hd Hu. split; [|done]. split; [done|]. split; [|congruence].
  intros l E. destruct Hu as [E'|E']; [|congruence]. by replace l with (pr_executed p) by congruence.
Qed.

Lemma set_result_elem k r l k' r' :
  (k', r') ∈ set_result k r l → (k', r') ∈ l ∨ k' = k ∧ r' = r.
Proof using Type.
  induction l as [|[k0 r0] l IH]; cbn.
  - intros H%list_elem_of_singleton. right. by injection H as -> ->.
  - case_bool_decide; rewrite elem_of_cons; intros [E|Hin].
    + right. by injection E as -> ->.
    + left. by right.
    + left. rewrite E. by left.
    + destruct (IH Hin) as [?|?]; [left; by right|by right].
Qed.
Lemma set_result_keys k r l : k ∈ (set_result k r l).*1 ∧ l.*1 ⊆ (set_result k r l).*1.
Proof using Type.
  clear. induction l as [|[k0 r0] l [IH1 IH2]]; cbn; [set_solver|].
  case_bool_decide as E; cbn; set_solver.
Qed.

Lemma truthful_observe item a p s :
  item ∈ all → truthful (pr_executed p) s → since (ac_approval_id item) a s → terminal a →
  truthful (pr_executed (observe item a p)) s.
Proof using Type.
  intros Hi Ht Hs Hter k r [Hin|[-> ->]]%set_result_elem; [by eapply Ht|].
  destruct (since_terminal _ _ _ Hs Hter) as (b & Hb & Hbt & _ & Htold).
  exists item, b. do 4 (split; [done|]). apply Htold, tool_result_told.
Qed.
Lemma covers_observe ds item a p q :
  covers ds p → pr_executed q = pr_executed (observe item a p) → covers (ds ++ [item]) q.
Proof using Type.
  intros Hc Hq x [Hx| ->%list_elem_of_singleton]%elem_of_app; rewrite Hq; cbn.
  - by apply (proj2 (set_result_keys _ _ _)), Hc.
  - apply (proj1 (set_result_keys _ _ _)).
Qed.

Lemma triple_local P (f : Node → Node) :
  Stable P →
  (∀ s, tables (f s) = tables s ∧ coming (f s) = coming s ∧ calls (f s) = calls s ∧
        sent (f s) = sent s ∧ found s `prefix_of` found (f s)) →
  triple old P (modify f) (λ _ s, P s).
Proof using Type.
  intros HP' Hf s r s' Hok HPs [= <- <-]. destruct (Hf s) as (Et & Ec & El & Es & Ef).
  assert (later s (f s)) as Hl by (split; [by rewrite Et|done..]).
  split; [|intros _ _; by eapply HP'].
  apply (node_ok_tables _ s); [done..| |by rewrite Ec]. rewrite Et. apply (no_store _ _ Hok).
Qed.

Lemma triple_refresh P ctx :
  Stable P → triple old P (refresh run authoritative ctx) (λ _ s, P s).
Proof using Hauth.
  intros Hst s r s' Hok HPs E. unfold refresh, catch in E. rewrite bind_run in E.
  destruct (tx (authoritative ctx run) s) as [[c|e] s1] eqn:E1.
  - destruct (triple_keep old P _ Hst (Hauth ctx run) s _ s1 Hok HPs E1) as [Hok1 HP1].
    rewrite bind_run in E. cbn [modify mret M_ret] in E. injection E as <- <-.
    destruct (triple_local P (set_context c) Hst ltac:(done) s1 _ _ Hok1 (HP1 c eq_refl) eq_refl)
      as [Hok2 HP2]. split; [done|]. intros _ _. exact (HP2 tt eq_refl).
  - destruct (tx_later old _ _ _ _ (Hauth ctx run) Hok E1) as (s0 & Hl0 & _ & Hl1 & Hok1 & _).
    assert (HP1 : P s1) by (eapply Hst; [exact Hl1|]; by eapply Hst).
    destruct e; try (injection E as <- <-; by split).
    destruct (bool_decide _); injection E as <- <-; by split.
Qed.

#[global] Instance stable_uncalled i : Stable (λ s, i ∉ (calls s).*1).
Proof using Type. intros s s' Hl. by rewrite (la_calls _ _ Hl). Qed.

(** A claim this node was granted and has not used yet. *)
Record claim_held (i : uuid) (a : Approval) : Prop := {
  ch_claimed : ap_execution_status a = CLAIMED;
  ch_approved : ap_decision_status a = APPROVED;
  ch_run : ap_run_id a = run_id run;
  ch_version : ap_agent_version_id a = run_agent_version_id run
}.

(** The call of the runtime. *)
Lemma triple_hand_over l i a h :
  claim_held i a → backed (h, Return (succeeded JNull)) (i, a) →
  triple old (λ s, (settled s ∧ truthful l s) ∧ since i a s ∧ i ∉ (calls s).*1)
    (hand_over registry a h)
    (λ res s, settled_but (eq i) (eq h) s ∧ truthful l s ∧
       ∀ r, (h, r) ∈ sent s → (h, r) ∈ old ∨ r = Return res).
Proof using Hexec.
  intros [H1 H2 H3 H4] (B1 & B2 & B3) s r s' Hok Hpre E. cbn in B1, B2, B3.
  unfold hand_over in E. rewrite bind_run in E. unfold attempt in E.
  destruct (tx (run_handover registry h) s) as [res s1] eqn:Et.
  destruct (tx_later old _ s res s1 (Hexec _ _ _ _) Hok Et) as (s0 & L0 & _ & L1 & Hok1 & _).
  assert (HP1 : (settled s1 ∧ truthful l s1) ∧ since i a s1 ∧ i ∉ (calls s1).*1)
    by (refine (stable (P := λ s, (settled s ∧ truthful l s) ∧ since i a s ∧ i ∉ (calls s).*1)
          s s1 _ Hpre); by etrans).
  clear Hok Hpre Et L0 L1. destruct HP1 as (([Hs1 Hs2] & Ht) & Hsince & Hn).
  pose proof Hok1 as [K1 K2 K3 K4 (new & K5 & K6)].
  rewrite bind_run in E. cbn [modify] in E. set (s2 := add_call a h res s1) in E.
  assert (Hok2 : node_ok old s2).
  { split; cbn; [done..| | |].
    - intros j b [Hin|Hin]%elem_of_app; [by apply K3|].
      apply list_elem_of_singleton in Hin as [= -> ->]. by rewrite B1.
    - rewrite fmap_app. apply NoDup_app. split; [done|]. split; [|apply NoDup_singleton].
      intros x Hx ->%list_elem_of_singleton. by rewrite B1 in Hx.
    - exists (new ++ [(h, res)]). rewrite K5, app_assoc. split; [done|].
      apply Forall2_app; [done|]. by repeat constructor. }
  assert (s' = s2 ∧ r = res) as [-> ->] by (by destruct res; injection E as <- <-).
  split; [done|]. intros x ->. split; [split|split; [done|]]; cbn.
  - intros j b [Hin|Hin]%elem_of_app.
    + destruct (Hs1 j b Hin) as (? & ? & [[]|?]). by split_and!; [..|right].
    + apply list_elem_of_singleton in Hin as [= -> ->]. rewrite B1. by split_and!; [..|left].
  - intros h' r' [Hin|Hin]%elem_of_app.
    + destruct (Hs2 h' r' Hin) as [?|[[]|?]]; [by left|by right; right].
    + apply list_elem_of_singleton in Hin as [= -> ->]. by right; left.
  - intros r' [Hin|Hin]%elem_of_app; [|apply list_elem_of_singleton in Hin; right; congruence].
    rewrite K5 in Hin. apply elem_of_app in Hin as [?|Hin]; [by left|]. exfalso. apply Hn.
    apply list_elem_of_lookup in Hin as [j Hj].
    destruct (Forall2_lookup_l _ _ _ _ _ K6 Hj) as ([i' a'] & Hc & E1 & _). cbn in E1.
    apply list_elem_of_fmap. exists (i', a'). split; [cbn; congruence|]. by eapply list_elem_of_lookup_2.
Qed.

(** The completion of the call. *)
Lemma triple_settle l i h res ctx safe_result now :
  ho_approval h = i →
  safe_result = (match ar_status res with
                 | ActionExecutionStatus.UNKNOWN_OUTCOME => None
                 | _ => ar_data res
                 end) →
  triple old (λ s, settled_but (eq i) (eq h) s ∧ truthful l s ∧
              ∀ r, (h, r) ∈ sent s → (h, r) ∈ old ∨ r = Return res)
    (settle i (complete_execution ctx i (completed_status (ar_status res)) safe_result
                 (ar_failure_code res) (ar_safe_message res) now))
    (λ a s, settled_but (eq i) (eq h) s ∧ truthful l s ∧ since i a s ∧ terminal a ∧
       ∀ r, (h, r) ∈ sent s → (h, r) ∈ old ∨ accounted h r s).
Proof using Type.
  intros Hi Hsafe s r s' Hok Hpre E. unfold settle in E. rewrite bind_run in E.
  assert (∃ s1, await s = (Return tt, s1) ∧ later s s1 ∧ node_ok old s1) as (s1 & Ea & Hl1 & Hok1).
  { apply (await_later old s Hok). }
  rewrite Ea, bind_run in E. cbn [modify] in E. set (s2 := add_found i s1) in E.
  assert (Hl2 : later s1 s2) by (split; [done|done|done|by eexists]).
  assert (Hok2 : node_ok old s2) by (apply (node_ok_tables old s1); [done..|apply Hok1|done]).
  unfold in_tables in E. destruct (complete_execution _ _ _ _ _ _ _ (tables s2)) as [o d] eqn:Ec.
  injection E as <- <-. destruct (ev_complete_le _ _ _ _ _ _ _ (tables s2) (proj1 (no_store _ _ Hok2))
    _ _ Ec) as [Hev Hk].
  set (s3 := set_tables d (coming s2) s2). assert (Hl3 : later s2 s3) by (by split).
  split; [by apply (node_ok_tables old s2)|]. intros a ->.
  destruct (complete_returns _ _ _ _ _ _ _ _ _ _ (proj1 (no_store _ _ Hok2)) Ec)
    as (f & Hf & Ha & Hter & Hkeep & Hwrite).
  assert (HP3 : (settled_but (eq i) (eq h) s3 ∧ truthful l s3) ∧
    ∀ r, (h, r) ∈ sent s3 → (h, r) ∈ old ∨ r = Return res).
  { destruct Hpre as (P1 & P2 & P3). assert (Hl : later s s3) by (by etrans; [|etrans]).
    split; [revert P1 P2; intros P1 P2; split; by eapply stable|].
    intros r Hr. rewrite (la_sent _ _ Hl) in Hr. by apply P3. }
  destruct HP3 as ((P1 & P2) & P3). split; [done|]. split; [done|].
  split; [by exists a|]. split; [done|]. intros r [?| ->]%P3; [by left|right].
  exists res, f, a. rewrite Hi. split; [done|]. split.
  { cbn. apply elem_of_app. right. apply list_elem_of_singleton. cbn in Hf. by rewrite Hf. }
  split; [done|]. split; [done|]. split; [by intros ->%Hkeep|].
  intros (?&?&?&?)%Hwrite. unfold records. by rewrite <- Hsafe.
Qed.

Lemma triple_claimed ds item def approval claimed p :
  item ∈ all → covers ds p → claim_held (ac_approval_id item) claimed →
  triple old (λ s, good p s ∧ since (ac_approval_id item) claimed s ∧
               ac_approval_id item ∉ (calls s).*1)
    (run_claimed run registry authoritative clock item def approval claimed p)
    (good_out (ds ++ [item])).
Proof using Hauth Hexec.
  intros Hall Hcov Hch. unfold run_claimed.
  eapply triple_bind; [apply (triple_refresh _ _ _)|]. intros [c|].
  2:{ apply triple_ret. intros s (Hg & _). apply (stopped_update _ p); auto. }
  destruct (negb _).
  { apply triple_ret. intros s (Hg & _). apply (stopped_update _ p); auto. }
  set (h := {| ho_approval := _; ho_context := _ |}).
  eapply triple_bind; [by apply (triple_hand_over (pr_executed p) _ _ h)|]. intros result. cbv zeta.
  eapply triple_bind; [by apply (triple_settle (pr_executed p) _ h result)|]. intros completed.
  cbv beta. set (q := report _ _).
  assert (Hpost : ∀ s, settled_but (eq (ac_approval_id item)) (eq h) s ∧ truthful (pr_executed p) s ∧
    since (ac_approval_id item) completed s ∧ terminal completed ∧
    (∀ r, (h, r) ∈ sent s → (h, r) ∈ old ∨ accounted h r s) → good q s).
  { intros s ([Hs1 Hs2] & Htr & Hsi & Hter & Hacc). split; [split|].
    - intros i a Hin. destruct (Hs1 i a Hin) as (? & ? & [<-|?]); (do 2 (split; [done|])); right;
        [|done]. destruct (since_terminal _ _ _ Hsi Hter) as (b & ? & ? & _). eauto.
    - intros h' r Hin. destruct (Hs2 h' r Hin) as [?|[<-|?]]; [by left| |by right; right].
      destruct (Hacc r Hin); [by left|by right; right].
    - by apply (truthful_observe item completed p). }
  destruct (ar_status result); apply triple_ret; intros s Hg%Hpost.
  - split; [done|]. by eapply (covers_observe ds item completed p).
  - split; [done|]. by eapply (covers_observe ds item completed p).
  - apply (stopped_update _ q); auto.
Qed.

(** A claim that is granted. *)
Lemma triple_claim item approval p c now :
  ap_run_id approval = run_id run → ap_agent_version_id approval = run_agent_version_id run →
  triple old (λ s, good p s ∧ since (ac_approval_id item) approval s)
    (tx (claim_execution c (ac_approval_id item) now))
    (λ o s, (good p s ∧ since (ac_approval_id item) approval s) ∧
       ∀ a, o = Some a → claim_held (ac_approval_id item) a ∧
         since (ac_approval_id item) a s ∧ ac_approval_id item ∉ (calls s).*1).
Proof using Type.
  intros Hr Hv. apply (triple_tx old _ _ (λ o s, ∀ a, o = Some a → claim_held (ac_approval_id item) a ∧
      since (ac_approval_id item) a s ∧ ac_approval_id item ∉ (calls s).*1)); [apply _..|].
  intros s s' o Hok [_ (b & Hb & Hle)] Hcalls Hc a ->.
  destruct (claim_granted _ _ _ _ _ _ (no_store _ _ Hok) Hc)
    as (Ha & Hcl & Hap & _ & b' & w & Hf & _ & -> & _).
  apply find_approval_Some in Hf as [Hb' _]. assert (b' = b) as -> by congruence.
  pose proof (le_static _ _ Hle) as Hst. unfold ap_static in Hst.
  split; [split; cbn; cbn in Hap; congruence|]. split; [by eexists|]. rewrite Hcalls.
  intros ([j a0] & Hj & Hin)%list_elem_of_fmap. cbn in Hj. subst j.
  destruct (no_calls _ _ Hok _ _ Hin) as ((b1 & Hb1 & Hle1) & Hc1 & _).
  assert (b1 = b) as -> by congruence.
  assert (Hns : ap_execution_status b = NOT_STARTED) by (by eapply claim_from).
  specialize (le_started _ _ Hle1 Hns). congruence.
Qed.

Lemma triple_claim_and_run ds item approval p :
  item ∈ all → covers ds p →
  ap_run_id approval = run_id run → ap_agent_version_id approval = run_agent_version_id run →
  triple old (λ s, good p s ∧ since (ac_approval_id item) approval s)
    (claim_and_run run registry authoritative tool_definitions clock item approval p)
    (good_out (ds ++ [item])).
Proof using Hauth Hexec.
  intros Hall Hcov Hr Hv. unfold claim_and_run.
  destruct (tool_definitions _) as [def|]; [|apply triple_raise].
  eapply triple_bind; [apply (triple_refresh _ _ _)|]. intros [c|].
  2:{ apply triple_ret. intros s (Hg & _). apply (stopped_update _ p); auto. }
  destruct (_ || _).
  { apply triple_ret. intros s (Hg & _). apply (stopped_update _ p); auto. }
  eapply triple_bind; [by apply triple_claim|].
  intros [claimed|]; cbv beta.
  - intros s r s' Hok ((Hg & _) & Hq). destruct (Hq claimed eq_refl) as (Hch & ? & ?).
    by apply (triple_claimed ds item def approval claimed (with_context c p) Hall Hcov Hch).
  - eapply triple_bind.
    { apply (triple_tx old _ _ (λ a s, since (ac_approval_id item) a s)).
      - intros s s' Hl ((? & ?) & _). split; [|by intros ? [=]].
        split; [by eapply stable_good|by eapply since_later].
      - apply _.
      - intros s s' a Hok _ _ Hc. exists a. split; [by eapply get_approval_inv|done]. }
    intros current. cbv beta. destruct (terminal_execution _) eqn:Et; apply triple_ret;
      intros s [[[Hg _] _] Hsi].
    + split; [|by eapply (covers_observe ds item current)]. destruct Hg as [Hg1 Hg2].
      split; [done|]. by apply truthful_observe.
    + apply (stopped_update _ p); auto.
Qed.

Lemma triple_stop P ctx :
  Stable P → triple old P (_stop_if_requested run ctx)
    (λ o s, P s ∧ ∀ u, o = Some u → up_executed u = None ∧ up_actions_done u = false).
Proof using Type.
  intros HP'. unfold _stop_if_requested, status_now. eapply triple_bind.
  { apply triple_keep; [done|]. repeat ev_step;
      apply ev_pure; unfold parse_workspace; destruct (ctx_workspace_id ctx); apply _. }
  intros st. apply triple_ret. intros s Hs. split; [done|]. intros u.
  destruct st as [[]|]; intros [= <-]; done.
Qed.

Lemma triple_load c item p :
  triple old (good p) (tx (_load_resume_approval c run (ac_approval_id item)))
    (λ a s, good p s ∧ since (ac_approval_id item) a s ∧ ap_run_id a = run_id run ∧
            ap_agent_version_id a = run_agent_version_id run).
Proof using Type.
  apply (triple_tx old (good p) _ (λ a s, since (ac_approval_id item) a s ∧
    ap_run_id a = run_id run ∧ ap_agent_version_id a = run_agent_version_id run)); [apply _..|].
  intros s s' a Hok _ _ Hc. destruct (load_resume_inv _ _ _ _ _ _ Hc) as (Ha & ? & ? & Ed).
  split; [|done]. exists a. rewrite Ed. by split.
Qed.

Lemma triple_item ds item p :
  item ∈ all → covers ds p →
  triple old (good p)
    (execute_item run registry authoritative tool_definitions clock item p)
    (good_out (ds ++ [item])).
Proof using Hauth Hexec.
  intros Hall Hcov. unfold execute_item.
  eapply triple_bind; [apply (triple_stop _ _ _)|]. intros [u|]; cbv beta.
  { apply triple_ret. intros s (Hg & _). apply (stopped_update _ p); auto. }
  eapply triple_bind.
  { eapply triple_conseq; [apply (triple_load (pr_context p) item p)|by intros s [? _]|].
    intros a s Hl. exact Hl. }
  intros approval. cbv beta. cbn zeta. 
  set (p1 := {| pr_context := _; pr_executed := _; pr_ids := _; pr_results := _ |}).
  destruct (terminal_execution _) eqn:Et.
  - set (p2 := report _ _).
    assert (Hp2 : ∀ s, good p s ∧ since (ac_approval_id item) approval s ∧
      ap_run_id approval = run_id run ∧ ap_agent_version_id approval = run_agent_version_id run →
      good p2 s).
    { intros s ((Hg1 & Hg2) & Hsi & _). split; [done|]. by apply (truthful_observe item approval p1). }
    destruct (bool_decide _); apply triple_ret; intros s Hg%Hp2.
    + apply (stopped_update _ p2); auto.
    + split; [done|]. by eapply (covers_observe ds item approval p1).
  - intros s r s' Hok (Hg & Hsi & Hr & Hv).
    by apply (triple_claim_and_run ds item approval p1 Hall Hcov Hr Hv).
Qed.

Lemma triple_items ds items p :
  (∀ item, item ∈ items → item ∈ all) → covers ds p →
  triple old (good p)
    (execute_items run registry authoritative tool_definitions clock items p)
    (good_out (ds ++ items)).
Proof using Hauth Hexec.
  revert ds p. induction items as [|item items IH]; intros ds p Hall Hcov; cbn.
  { rewrite app_nil_r. by apply triple_ret. }
  eapply triple_bind; [apply triple_item; [apply Hall; by left|done]|].
  rewrite (assoc_L (++) ds [item] items : ds ++ item :: items = _).
  intros [p'|u]; [|by apply triple_ret].
  intros s r s' Hok [Hg Hc]. apply IH; [|done..]. intros x ?. apply Hall. by right.
Qed.

Lemma triple_step P ctx kind status metadata :
  Stable P → triple old P (step run ctx kind status metadata) (λ _ s, P s).
Proof using Type.
  intros HP' s r s' Hok HPs E. unfold step in E. rewrite bind_run in E. cbn [get] in E.
  refine (triple_bind old P _ (λ _, P) _ (λ _, P) _ _ s r s' Hok HPs E);
    [by apply triple_local|intros []].
  by apply triple_keep; [|apply _].
Qed.
End Node.

Lemma triple_node `{PyStr} run registry authoritative tool_definitions clock old configured ctx items :
  (∀ c r, Evolving ap_le (authoritative c r)) →
  (∀ c def args key, Evolving ap_le (runtime_execute registry c def args key)) →
  triple old (λ s, calls s = [] ∧ sent s = old)
    (action_execute run registry authoritative tool_definitions clock configured ctx items)
    (good_update run old items).
Proof.
  intros Hauth Hexec.
  assert (Hno : ∀ s, calls s = [] ∧ sent s = old → settled run old s).
  { intros s [Hc Hs]. split; intros ?? Hin; [rewrite Hc in Hin; by apply not_elem_of_nil in Hin|].
    left. by rewrite <- Hs. }
  unfold action_execute. eapply triple_bind.
  { apply triple_stop. intros s s' Hl. by rewrite (la_calls _ _ Hl), (la_sent _ _ Hl). }
  intros [u|]; cbv beta.
  { apply triple_ret. intros s [Hs Hu]. destruct (Hu u eq_refl) as [E1 E2].
    split; [by apply Hno|]. rewrite E1, E2. by split. }
  destruct configured; cbn [negb].
  2:{ apply triple_ret. intros s [Hs _]. split; [by apply Hno|done]. }
  eapply triple_bind.
  { eapply triple_conseq; [apply (triple_items run registry authoritative tool_definitions clock
      Hauth Hexec old items [] items)| |intros a s Hg; exact Hg]; [done| |].
    - by intros x ?%not_elem_of_nil.
    - intros s [Hs _]. split; [by apply Hno|]. by intros k r ?%not_elem_of_nil. }
  intros [p|u]; [|apply triple_ret; by intros s [? _]]. cbn [good_out].
  intros s r s' Hok [Hg Hc] E.
  rewrite bind_run in E. destruct (action_step run items p s) as [o s1] eqn:Ea.
  destruct (triple_step run old (good run old items p) (pr_context p) "ACTION" _ _ _ s o s1 Hok Hg Ea)
    as [Hok1 Hp]. destruct o as [[]|x]; injection E as <- <-; [|by split].
  split; [done|]. intros u [= <-]. destruct (Hp tt eq_refl) as [Hs Ht].
  split; [done|]. split; [by intros l [= <-]|]. intros _. by eexists.
Qed.

(** ** What the node asks of the runtime *)

(** The call repeats an approved approval of the run that was claimed. *)
Definition authorized (run : AgentRun) (h : Handover) (d : RunStore.Db) : Prop :=
  ∃ b, approvals d !! ho_approval h = Some b ∧ ap_decision_status b = APPROVED ∧
    ap_execution_status b ≠ NOT_STARTED ∧ ap_run_id b = run_id run ∧
    ap_agent_version_id b = run_agent_version_id run ∧
    ho_arguments h = ap_canonical_arguments b ∧ ho_key h = ap_idempotency_key b.

Lemma claimed_authorized run i a h s :
  claim_held run i a → backed (h, Return (succeeded JNull)) (i, a) → since i a s →
  authorized run h (tables s).
Proof.
  intros [H1 H2 H3 H4] (B1 & B2 & B3) (b & Hb & Hle). cbn in B1, B2, B3. exists b.
  pose proof (le_static _ _ Hle) as Hst. unfold ap_static in Hst.
  assert (Hd : ap_decision b = ap_decision a) by (apply (le_decision _ _ Hle); by rewrite H2).
  unfold ap_decision in Hd. split; [by rewrite B1|].
  split_and!; try congruence. intros Hn%(le_started _ _ Hle). congruence.
Qed.

Lemma bind_same {A B} old P (m m' : M Node Exn A) Q (f f' : A → M Node Exn B) s :
  triple old P m Q → node_ok old s → P s → m s = m' s →
  (∀ a s1, node_ok old s1 → Q a s1 → f a s1 = f' a s1) →
  (m ≫= f) s = (m' ≫= f') s.
Proof.
  intros Hm Hok HP E Hf. rewrite !bind_run, <- E. destruct (m s) as [[a|e] s1] eqn:Em; [|done].
  destruct (Hm s _ s1 Hok HP Em) as [Hok1 HQ]. by apply Hf; [|apply HQ].
Qed.

(** Two runtimes that agree on authorized calls cannot be told apart. *)
Section Same.
Context `{HP : PyStr} (run : AgentRun) (registry registry' : ActionRegistry).
Context (authoritative : WorkspaceExecutionContext → AgentRun →
                         M RunStore.Db Exn WorkspaceExecutionContext).
Context (tool_definitions : list N → option ToolDefinition) (clock : uuid → datetime * datetime).
Context (Hauth : ∀ c r, Evolving ap_le (authoritative c r)).
Context (Hexec : ∀ c def args key, Evolving ap_le (runtime_execute registry c def args key)).
Context (Hagree : ∀ h d, authorized run h d → run_handover registry h d = run_handover registry' h d).
Context (old : list (Handover * outcome Exn ActionExecutionResult)) (all : list ActionCall).

Lemma hand_over_same i a h s :
  claim_held run i a → backed (h, Return (succeeded JNull)) (i, a) →
  node_ok old s → since i a s → hand_over registry a h s = hand_over registry' a h s.
Proof using Hagree.
  intros Hc Hb Hok Hs. unfold hand_over. rewrite !(bind_run (attempt _)). unfold attempt, tx.
  rewrite !(bind_run await). destruct (await_later old s Hok) as (s1 & -> & Hl & _).
  unfold in_tables. rewrite Hagree; [done|].
  eapply claimed_authorized; [done..|]. by eapply since_later.
Qed.

Lemma run_claimed_same item def approval claimed p s :
  claim_held run (ac_approval_id item) claimed → node_ok old s →
  since (ac_approval_id item) claimed s →
  run_claimed run registry authoritative clock item def approval claimed p s
  = run_claimed run registry' authoritative clock item def approval claimed p s.
Proof using Hagree Hauth.
  intros Hc Hok Hs. unfold run_claimed.
  eapply bind_same; [apply (triple_refresh run authoritative Hauth old
    (since (ac_approval_id item) claimed) _ _)|done|exact Hs|done|].
  intros [c|] s1 Hok1 Hs1; [|done]. cbv zeta. destruct (negb _); [done|].
  rewrite !(bind_run (hand_over _ _ _)). by erewrite hand_over_same.
Qed.

Lemma claim_and_run_same ds item approval p s :
  item ∈ all → covers ds p →
  ap_run_id approval = run_id run → ap_agent_version_id approval = run_agent_version_id run →
  node_ok old s → good run old all p s ∧ since (ac_approval_id item) approval s →
  claim_and_run run registry authoritative tool_definitions clock item approval p s
  = claim_and_run run registry' authoritative tool_definitions clock item approval p s.
Proof using Hagree Hauth.
  intros Hall Hcov Hr Hv Hok Hs. unfold claim_and_run. destruct (tool_definitions _); [|done].
  eapply bind_same; [apply (triple_refresh run authoritative Hauth old
    (λ s, good run old all p s ∧ since (ac_approval_id item) approval s) _ _)|done|exact Hs|done|].
  intros [c|] s1 Hok1 Hs1; [|done]. cbv zeta. destruct (_ || _); [done|].
  eapply bind_same; [by apply (triple_claim run old all item approval p)|done|exact Hs1|done|].
  intros [claimed|] s2 Hok2 [_ Hq]; [|done]. destruct (Hq claimed eq_refl) as (? & ? & _).
  by apply run_claimed_same.
Qed.

Lemma execute_items_same ds items p s :
  (∀ item, item ∈ items → item ∈ all) → covers ds p → node_ok old s → good run old all p s →
  execute_items run registry authoritative tool_definitions clock items p s
  = execute_items run registry' authoritative tool_definitions clock items p s.
Proof using Hagree Hauth Hexec.
  revert ds p s. induction items as [|item items IH]; intros ds p s Hall Hcov Hok Hg; [done|].
  assert (item ∈ all) as Hi by (apply Hall; by left). cbn [execute_items].
  eapply bind_same; [by apply (triple_item run registry authoritative tool_definitions clock Hauth
    Hexec old all ds)|done|exact Hg| |].
  - unfold execute_item.
    eapply bind_same; [apply (triple_stop run old (good run old all p) _ _)|done|exact Hg|done|].
    intros [u|] s1 Hok1 [Hg1 _]; [done|].
    eapply bind_same; [apply (triple_load run old all)|done|exact Hg1|done|].
    intros approval s2 Hok2 (Hg2 & Hsi & Hr & Hv). cbv zeta. destruct (terminal_execution _); [done|].
    by eapply (claim_and_run_same ds).
  - intros [p'|u] s1 Hok1 Hout; [|done]. destruct Hout as [Hg1 Hc1].
    apply (IH (ds ++ [item])); [|done..]. intros x ?. apply Hall. by right.
Qed.
End Same.

Lemma node_same `{PyStr} run registry registry' authoritative tool_definitions clock configured ctx
    items s :
  (∀ c u, Evolving ap_le (authoritative c u)) →
  (∀ c def args key, Evolving ap_le (runtime_execute registry c def args key)) →
  (∀ h d, authorized run h d → run_handover registry h d = run_handover registry' h d) →
  node_ok [] s → calls s = [] → sent s = [] →
  action_execute run registry authoritative tool_definitions clock configured ctx items s
  = action_execute run registry' authoritative tool_definitions clock configured ctx items s.
Proof.
  intros Hauth Hexec Hagree Hok Hc Hs. unfold action_execute.
  assert (Stable (λ s, calls s = [] ∧ sent s = [])) as Hst
    by (intros s1 s2 Hl; by rewrite (la_calls _ _ Hl), (la_sent _ _ Hl)).
  eapply bind_same; [apply (triple_stop run [] _ _ Hst)|done|done|done|].
  intros [u|] s1 Hok1 [[Hc1 Hs1] _]; [done|]. destruct (negb configured); [done|].
  rewrite !(bind_run (execute_items _ _ _ _ _ _ _)).
  rewrite (execute_items_same run registry registry' authoritative tool_definitions clock Hauth
    Hexec Hagree [] items []); [done|done|by intros x ?%not_elem_of_nil|done|].
  split; [|by intros k r ?%not_elem_of_nil].
  split; intros ?? Hin; [rewrite Hc1 in Hin|rewrite Hs1 in Hin]; by apply not_elem_of_nil in Hin.
Qed.

(** ** The theorem *)

(** C34. Approved actions are executed once, as approved, and reported as
    recorded.  The node runs beside arbitrary transactions that move approvals
    only forward (every transaction of the services does), with a runtime and an
    access check that do the same.  However it ends, each action it handed to the
    runtime had a granted claim on an approved approval of this run and version,
    is handed over at most once and with the approved arguments and idempotency
    key -- a runtime that behaves differently on any other call would make no
    difference -- and its row keeps those arguments and key and can never be
    claimed again.  If the node returns, each call answered and its approval is
    settled: it records exactly what the runtime answered, unless the completion
    found an outcome there already, which then stands.  Every observation passed
    to the model stands under the tool call of an action of the round and repeats
    the recorded outcome of that action's own approval: result, error code and
    message; and a node that says the actions are done has one for every action. *)
Theorem actions_executed_once_as_approved `{PyStr} run registry authoritative tool_definitions
    clock configured ctx items s r s' :
  (∀ c u, Evolving ap_le (authoritative c u)) →
  (∀ c def args key, Evolving ap_le (runtime_execute registry c def args key)) →
  store_ok (tables s) → (∀ f, f ∈ coming s → others_ok ap_le f) → calls s = [] → sent s = [] →
  action_execute run registry authoritative tool_definitions clock configured ctx items s
    = (r, s') →
  NoDup (calls s').*1 ∧ Forall2 backed (sent s') (calls s') ∧
  (∀ i a, (i, a) ∈ calls s' →
     ap_decision_status a = APPROVED ∧ ap_execution_status a = CLAIMED ∧
     ∃ b, approvals (tables s') !! i = Some b ∧ ap_decision_status b = APPROVED ∧
       ap_canonical_arguments b = ap_canonical_arguments a ∧
       ap_idempotency_key b = ap_idempotency_key a ∧
       ∀ c now o d, claim_execution c i now (tables s') = (o, d) →
         d = tables s' ∧ ∀ x, o ≠ Return (Some x)) ∧
  (∀ registry', (∀ h d, authorized run h d → run_handover registry h d = run_handover registry' h d) →
     action_execute run registry' authoritative tool_definitions clock configured ctx items s
       = (r, s')) ∧
  (∀ u, r = Return u →
     (∀ i a, (i, a) ∈ calls s' → ap_run_id a = run_id run ∧
        ap_agent_version_id a = run_agent_version_id run ∧
        ∃ b, approvals (tables s') !! i = Some b ∧ terminal b) ∧
     (∀ h o, (h, o) ∈ sent s' → accounted h o s') ∧
     (∀ l k o, up_executed u = Some l → (k, o) ∈ l →
        ∃ item b, item ∈ items ∧ ac_tool_call_id item = k ∧
          approvals (tables s') !! ac_approval_id item = Some b ∧ terminal b ∧ told o b) ∧
     (up_actions_done u = true → ∃ l, up_executed u = Some l ∧
        ∀ item, item ∈ items → ac_tool_call_id item ∈ l.*1)).
Proof.
  intros Hauth Hexec Hok Hco Hnil Hsent E.
  assert (node_ok [] s) as Hn.
  { split; [done..| | |]; rewrite ?Hnil; [by intros i a ?%not_elem_of_nil|apply NoDup_nil_2|].
    exists []. rewrite Hsent. by split. }
  destruct (triple_node run registry authoritative tool_definitions clock [] configured ctx items
    Hauth Hexec s r s' Hn (conj Hnil Hsent) E) as [[_ _ Hcalls Honce (new & Hnew & Hback)] Hret].
  split; [done|]. split; [by rewrite Hnew|]. split; [|split].
  - intros i a Hin. destruct (Hcalls i a Hin) as ((b & Hb & Hle) & Hc & Ha).
    split; [done|]. split; [done|]. exists b. split; [done|].
    assert (Hd : ap_decision b = ap_decision a) by (apply (le_decision _ _ Hle); by rewrite Ha).
    pose proof (le_static _ _ Hle) as Hst. unfold ap_static in Hst. unfold ap_decision in Hd.
    split; [congruence|]. split; [congruence|]. split; [congruence|].
    intros c now o d Hcl. apply (claim_refused c i now (tables s') b o d Hb); [|done].
    intros Hns. specialize (le_started _ _ Hle Hns). congruence.
  - intros registry' Hagree. rewrite <- E. symmetry. by apply node_same.
  - intros u Hu. destruct (Hret u Hu) as ([Hset Hacc] & Htr & Hdone). split_and!; [|  |by intros l k o ?%Htr; auto|done].
    + intros i a Hin. destruct (Hset i a Hin) as (? & ? & [[]|?]). done.
    + intros h o Hin. destruct (Hacc h o Hin) as [?%not_elem_of_nil|[[]|?]]; done.
Qed.

(** ** Witness *)

#[local] Instance plain_str : PyStr := {| py_str := λ v, match v with JStr s => s | _ => [] end |}.

Definition sample_executor : ActionExecutor :=
  {| execute := λ _ _ _ _, mret (succeeded (JObj [])); reconcile := None |}.
Definition sample_registry : ActionRegistry :=
  {| _executors := [(lit "create_ticket", sample_executor)]; _mcp_executor := None |}.
Definition sample_definition : ToolDefinition :=
  {| td_identity := lit "create_ticket"; td_revision_id := 3; td_input_schema := JNull;
     td_effect := WRITE; td_risk_level := HIGH; td_approval_policy := ALWAYS;
     td_timeout_seconds := 10; td_source_kind := BUILTIN |}.
Definition sample_caller : WorkspaceExecutionContext :=
  sample_ctx 9 "MEMBER" ["agent_run"; "workspace_read"; "tool_run"]%string.
Definition sample_call : ActionCall :=
  {| ac_tool_call_id := lit "call-1"; ac_name := lit "create_ticket"; ac_approval_id := 77 |}.
Definition before_node : Node :=
  {| tables := approved_db; coming := [id]; calls := []; sent := []; found := [];
     node_sequence := 0;
     self_context := sample_caller; cancel_emitted := false |}.
Definition sample_node : outcome Exn Update * Node :=
  action_execute sample_run sample_registry (λ c _, mret c) (λ _, Some sample_definition)
    (λ _, (60, 61)) true sample_caller [sample_call; sample_call] before_node.

Lemma sample_runtime_evolving c def args key :
  Evolving ap_le (runtime_execute sample_registry c def args key).
Proof.
  intros d. unfold runtime_execute. destruct (bool_decide _); [apply (ev_pure ap_le); apply _|].
  unfold resolve_for, resolve, sample_registry. cbn [_mcp_executor _executors find fst].
  repeat case_bool_decide; cbn [snd fmap option_fmap option_map]; try (apply (ev_pure ap_le); apply _);
    intros Hk r d' [= <- <-]; (split; [reflexivity|done]).
Qed.

Lemma actions_executed_once_as_approved_witness :
  (calls sample_node.2).*1 = [77%N] ∧ NoDup (calls sample_node.2).*1.
Proof.
  split; [vm_compute; reflexivity|].
  destruct sample_node as [r s'] eqn:E.
  apply (actions_executed_once_as_approved sample_run sample_registry (λ c _, mret c)
    (λ _, Some sample_definition) (λ _, (60, 61)) true sample_caller [sample_call; sample_call]
    before_node r s').
  - intros c u d. apply (ev_pure ap_le); apply _.
  - apply sample_runtime_evolving.
  - apply approved_db_ok.
  - intros f ->%list_elem_of_singleton. apply id_ok, _.
  - reflexivity.
  - reflexivity.
  - exact E.
Defined.
