(* ===== verification/ContextMetadata.v ===== *)
(** * Declared limits and capabilities of model deployments

    Model of [packages/model_gateway/context_metadata.py] and
    [capabilities.py], with [ModelCapabilities] and [CapabilityRequirements] of
    [contracts.py].  A rejected declaration ([ValueError]) is [None].

    The values read are JSON (a JSONB column or a request body); a [Mapping] is
    therefore [JObj], and [isinstance(x, int)] without booleans is [JInt].
    [_canonical_source_record] writes a record with sorted keys and reads it
    back, which for finite numbers is [sort_json]. *)

From stdpp Require Import base gmap list strings sorting.
From Stdlib Require Import ZArith NArith Lia.
From S2P Require Import Prelude.
From S2P Require Import Json.
From S2P Require Import JsonTheory.
From S2P Require Import TurnTranscript.

Local Open Scope Z_scope.

Definition CONTEXT_METADATA_SCHEMA_VERSION : Z := 1.
Definition UNKNOWN : list N := lit "UNKNOWN".

Inductive InputOutputSemantics := TOTAL_WINDOW | INDEPENDENT_INPUT_OUTPUT.
Inductive OutputReserveSemantics := INCLUDES_REASONING.
#[global] Instance InputOutputSemantics_dec : EqDecision InputOutputSemantics.
Proof. solve_decision. Defined.

Definition semantics_value (s : InputOutputSemantics) : list N :=
  match s with
  | TOTAL_WINDOW => lit "TOTAL_WINDOW"
  | INDEPENDENT_INPUT_OUTPUT => lit "INDEPENDENT_INPUT_OUTPUT"
  end.
Definition reserve_value (s : OutputReserveSemantics) : list N := lit "INCLUDES_REASONING".

Record ContextMetadata := {
  deployment_id : list N;
  resolved_model : list N;
  source_version : list N;
  max_input_tokens : option Z;
  max_output_tokens : option Z;
  deployment_input_limit : option Z;
  input_output_semantics : option InputOutputSemantics;
  output_reserve_semantics : option OutputReserveSemantics;
  catalog_ref : option (list N);
  source_records : option (list json)
}.

(** [limit is not None and value is not None and value > limit] *)
Definition over (value limit : option Z) : bool :=
  match value, limit with Some v, Some l => l <? v | _, _ => false end.

(** Is the declaration refused? *)
Definition _validate_declared_consistency (m : ContextMetadata) (total : option Z) : bool :=
  (bool_decide (input_output_semantics m = Some TOTAL_WINDOW)
   && (over (max_input_tokens m) total || over (max_output_tokens m) total))
  || (bool_decide (input_output_semantics m = Some INDEPENDENT_INPUT_OUTPUT)
      && bool_decide (max_input_tokens m = None))
  || (bool_decide (is_Some (max_output_tokens m))
      && match output_reserve_semantics m with None => true | Some _ => false end)
  || over (max_input_tokens m) total || over (max_output_tokens m) total
  || over (deployment_input_limit m) (max_input_tokens m).

(** ** Reading fields *)

Definition _required_text (v : json) : option (list N) :=
  match v with
  | JStr s => if bool_decide (py_strip s = []) || negb (bool_decide (s = py_strip s))
              then None else Some s
  | _ => None
  end.
Definition _resolved_model (v : json) : option (list N) :=
  match v with
  | JStr s => if bool_decide (s = UNKNOWN) then Some UNKNOWN else _required_text v
  | _ => _required_text v
  end.
Definition _optional_text (v : json) : option (option (list N)) :=
  match v with JNull => Some None | _ => Some <$> _required_text v end.
Definition _optional_positive_int (v : json) : option (option Z) :=
  match v with
  | JNull => Some None
  | JInt z => if z <=? 0 then None else Some (Some z)
  | _ => None
  end.
Definition _semantics {A} (value : A → list N) (members : list A) (v : json) : option (option A) :=
  match v with
  | JNull => Some None
  | JStr s => Some <$> find (λ m, bool_decide (value m = s)) members
  | _ => None
  end.

Definition _canonical_source_record (v : json) : option json :=
  match v with
  | JObj [] => None
  | JObj _ => if all_finite v then Some (sort_json v) else None
  | _ => None
  end.
Definition _source_records (v : json) : option (option (list json)) :=
  match v with
  | JNull => Some None
  | JArr l => Some <$> mapM _canonical_source_record l
  | _ => None
  end.

Definition _ALLOWED_METADATA_KEYS : list (list N) :=
  lit <$> ["schema_version"; "deployment_id"; "resolved_model"; "source_version";
    "max_input_tokens"; "max_output_tokens"; "deployment_input_limit";
    "input_output_semantics"; "output_reserve_semantics"; "catalog_ref";
    "source_records"]%string.
Definition _REQUIRED_METADATA_KEYS : list (list N) :=
  lit <$> ["schema_version"; "deployment_id"; "resolved_model"; "source_version"]%string.

(** [__post_init__]: the checks on a record whose fields have their types. *)
Definition trimmed (s : list N) : bool :=
  negb (bool_decide (py_strip s = [])) && bool_decide (s = py_strip s).
Definition positive (o : option Z) : bool := match o with Some z => 0 <? z | None => true end.

Definition new_metadata (m : ContextMetadata) : option ContextMetadata :=
  if forallb trimmed [deployment_id m; resolved_model m; source_version m]
     && forallb positive [max_input_tokens m; max_output_tokens m; deployment_input_limit m]
     && match catalog_ref m with Some s => trimmed s | None => true end
  then
    records ← match source_records m with
              | None => Some None
              | Some l => Some <$> mapM _canonical_source_record l
              end;
    let m := {| deployment_id := deployment_id m; resolved_model := resolved_model m;
                source_version := source_version m; max_input_tokens := max_input_tokens m;
                max_output_tokens := max_output_tokens m;
                deployment_input_limit := deployment_input_limit m;
                input_output_semantics := input_output_semantics m;
                output_reserve_semantics := output_reserve_semantics m;
                catalog_ref := catalog_ref m; source_records := records |} in
    if _validate_declared_consistency m None then None else Some m
  else None.

(** [value.get(key)] *)
Definition field (k : string) (l : list (list N * json)) : json := default JNull (dict_get (lit k) l).

Definition context_metadata_from_mapping (value : json) : option (option ContextMetadata) :=
  match value with
  | JNull => Some None
  | JObj l =>
      if negb (forallb (λ k, bool_decide (k ∈ _ALLOWED_METADATA_KEYS)) l.*1)
         || negb (forallb (λ k, bool_decide (k ∈ l.*1)) _REQUIRED_METADATA_KEYS)
      then None
      else match field "schema_version" l with
      | JInt 1 =>
          d ← _required_text (field "deployment_id" l);
          r ← _resolved_model (field "resolved_model" l);
          s ← _required_text (field "source_version" l);
          i ← _optional_positive_int (field "max_input_tokens" l);
          o ← _optional_positive_int (field "max_output_tokens" l);
          dl ← _optional_positive_int (field "deployment_input_limit" l);
          io ← _semantics semantics_value [TOTAL_WINDOW; INDEPENDENT_INPUT_OUTPUT]
                 (field "input_output_semantics" l);
          os ← _semantics reserve_value [INCLUDES_REASONING] (field "output_reserve_semantics" l);
          c ← _optional_text (field "catalog_ref" l);
          sr ← _source_records (field "source_records" l);
          m ← new_metadata {| deployment_id := d; resolved_model := r; source_version := s;
                 max_input_tokens := i; max_output_tokens := o; deployment_input_limit := dl;
                 input_output_semantics := io; output_reserve_semantics := os;
                 catalog_ref := c; source_records := sr |};
          if _validate_declared_consistency m None then None else Some (Some m)
      | _ => None
      end
  | _ => None
  end.

(** ** Writing *)

Definition opt_int (o : option Z) : json := match o with Some z => JInt z | None => JNull end.
Definition opt_text (o : option (list N)) : json :=
  match o with Some s => JStr s | None => JNull end.
Definition as_dict (m : ContextMetadata) : json :=
  JObj [(lit "schema_version", JInt CONTEXT_METADATA_SCHEMA_VERSION);
        (lit "deployment_id", JStr (deployment_id m));
        (lit "resolved_model", JStr (resolved_model m));
        (lit "source_version", JStr (source_version m));
        (lit "max_input_tokens", opt_int (max_input_tokens m));
        (lit "max_output_tokens", opt_int (max_output_tokens m));
        (lit "deployment_input_limit", opt_int (deployment_input_limit m));
        (lit "input_output_semantics", opt_text (semantics_value <$> input_output_semantics m));
        (lit "output_reserve_semantics", opt_text (reserve_value <$> output_reserve_semantics m));
        (lit "catalog_ref", opt_text (catalog_ref m));
        (lit "source_records", match source_records m with
                               | Some l => JArr l | None => JNull end)].

Definition context_metadata_to_mapping (value : json) : option json :=
  parsed ← context_metadata_from_mapping value;
  mret match parsed with Some m => as_dict m | None => JNull end.

(** [metadata] is still a mapping ([inl]) or already parsed ([inr]). *)
Definition parse_either (metadata : json + option ContextMetadata) :
  option (option ContextMetadata) :=
  match metadata with inl v => context_metadata_from_mapping v | inr m => Some m end.

Definition validate_context_metadata (metadata : json + option ContextMetadata)
    (max_context_tokens output_allowance : option Z) : option (option ContextMetadata) :=
  if negb (positive max_context_tokens) || negb (positive output_allowance) then None
  else
    parsed ← parse_either metadata;
    match parsed with
    | None => Some None
    | Some m =>
        if _validate_declared_consistency m max_context_tokens
           || over output_allowance (max_output_tokens m)
           || over (max_input_tokens m) max_context_tokens
        then None else Some (Some m)
    end.

(** ** capabilities.py *)

Record ModelCapabilities := {
  tool_calling : bool;
  streaming : bool;
  structured_output : bool;
  vision : bool;
  max_context_tokens : option Z;
  context_metadata : option ContextMetadata
}.

(** [ModelCapabilities.__post_init__] *)
Definition new_capabilities (c : ModelCapabilities) : option ModelCapabilities :=
  if negb (positive (max_context_tokens c)) then None
  else
    m ← validate_context_metadata (inr (context_metadata c)) (max_context_tokens c) None;
    mret {| tool_calling := tool_calling c; streaming := streaming c;
            structured_output := structured_output c; vision := vision c;
            max_context_tokens := max_context_tokens c; context_metadata := m |}.

Definition _BOOLEAN_CAPABILITIES : list string :=
  ["tool_calling"; "streaming"; "structured_output"; "vision"]%string.

Definition bool_or_null (v : json) : bool := match v with JNull | JBool _ => true | _ => false end.
Definition is_true (v : json) : bool := match v with JBool b => b | _ => false end.

Definition capabilities_from_mapping (values : json) : option ModelCapabilities :=
  match values with
  | JObj l =>
      if negb (forallb (λ k, bool_or_null (field k l)) _BOOLEAN_CAPABILITIES) then None
      else
        t ← _optional_positive_int (field "max_context_tokens" l);
        m ← context_metadata_from_mapping (field "context_metadata" l);
        new_capabilities {| tool_calling := is_true (field "tool_calling" l);
          streaming := is_true (field "streaming" l);
          structured_output := is_true (field "structured_output" l);
          vision := is_true (field "vision" l);
          max_context_tokens := t; context_metadata := m |}
  | _ => None
  end.

Record CapabilityRequirements := {
  required : gset string;
  required_context_tokens : option Z
}.
Definition no_requirements : CapabilityRequirements :=
  {| required := ∅; required_context_tokens := None |}.

(** [getattr(capabilities, name)] of a boolean capability; any other name is
    missing. *)
Definition has_capability (c : ModelCapabilities) (name : string) : bool :=
  if bool_decide (name = "tool_calling"%string) then tool_calling c
  else if bool_decide (name = "streaming"%string) then streaming c
  else if bool_decide (name = "structured_output"%string) then structured_output c
  else if bool_decide (name = "vision"%string) then vision c
  else false.

(** Are the requirements met? *)
Definition validate_capabilities (c : ModelCapabilities) (r : CapabilityRequirements) : bool :=
  forallb (has_capability c) (elements (required r))
  && match required_context_tokens r with
     | None => true
     | Some n => match max_context_tokens c with Some t => n <=? t | None => false end
     end.

(** [mode]: does the caller stream? *)
Definition effective_capability_requirements (has_tools has_schema stream : bool)
    (r : CapabilityRequirements) : CapabilityRequirements :=
  {| required := required r ∪ (if has_tools then {[ "tool_calling"%string ]} else ∅)
       ∪ (if has_schema then {[ "structured_output"%string ]} else ∅)
       ∪ (if stream then {[ "streaming"%string ]} else ∅);
     required_context_tokens := required_context_tokens r |}.

(** ** A stored declaration reads back as itself *)

Lemma sort_json_idem v : json_wf v → sort_json (sort_json v) = sort_json v.
Proof. intros Hv. apply dump_eq_iff; [by apply sort_json_wf|done|by apply dump_sort_json]. Qed.

Lemma canonical_record_inv v w :
  json_wf v → _canonical_source_record v = Some w →
  json_wf w ∧ _canonical_source_record w = Some w.
Proof.
  intros Hv. destruct v as [| | | | | |[|kv l]]; cbn [_canonical_source_record]; try done.
  destruct (all_finite _) eqn:Hf; [|done]. intros Hw. assert (sort_json (JObj (kv :: l)) = w) as Hs
    by congruence. clear Hw.
  pose proof (sort_json_wf _ Hv) as Hw. pose proof (sort_json_idem _ Hv) as Hi.
  rewrite <- all_finite_sort in Hf. rewrite Hs in Hw, Hi, Hf. split; [done|].
  cbn [sort_json] in Hs. destruct w as [| | | | | |[|kv' l']]; try discriminate Hs.
  - exfalso. injection Hs as E. apply (f_equal length) in E.
    rewrite merge_sort_Permutation in E. done.
  - cbn [_canonical_source_record]. by rewrite Hf, Hi.
Qed.

Lemma canonical_records_inv l r :
  Forall json_wf l → mapM _canonical_source_record l = Some r →
  Forall json_wf r ∧ mapM _canonical_source_record r = Some r.
Proof.
  intros Hl Hr%mapM_Some_1. revert Hl. induction Hr as [|v w l r Hv _ IH]; [done|].
  intros [Hwf Hl]%Forall_cons. destruct (IH Hl) as [Hr Hm].
  destruct (canonical_record_inv v w Hwf Hv) as [Hw Hc].
  split; [by constructor|]. cbn. rewrite Hc. cbn. by rewrite Hm.
Qed.

Lemma field_wf k l : json_wf (JObj l) → json_wf (field k l).
Proof.
  rewrite json_wf_obj. intros [_ Hl]. unfold field, dict_get.
  destruct (find _ l) as [kv|] eqn:E; cbn; [|done].
  apply find_some in E as [Hin%list_elem_of_In _]. rewrite Forall_forall in Hl. by apply (Hl kv).
Qed.

Lemma source_records_fixed v l rs :
  json_wf v → _source_records v = Some l →
  match l with
  | Some l => Some <$> mapM _canonical_source_record l | None => Some None end = Some (Some rs) →
  mapM _canonical_source_record rs = Some rs.
Proof.
  intros Hv H1 H2. destruct l as [l|]; [|done].
  destruct v as [| | | | |l0|]; try done. cbn in H1. apply fmap_Some in H1 as (l1 & H1 & [= ->]).
  apply json_wf_arr in Hv. destruct (canonical_records_inv _ _ Hv H1) as [_ H3].
  rewrite H3 in H2. cbn in H2. by injection H2 as ->.
Qed.

(** What parsing leaves behind. *)
Lemma metadata_parsed v m :
  json_wf v → context_metadata_from_mapping v = Some (Some m) →
  forallb trimmed [deployment_id m; resolved_model m; source_version m] = true ∧
  forallb positive [max_input_tokens m; max_output_tokens m; deployment_input_limit m] = true ∧
  match catalog_ref m with Some s => trimmed s | None => true end = true ∧
  match source_records m with
  | Some l => mapM _canonical_source_record l = Some l | None => True end ∧
  _validate_declared_consistency m None = false.
Proof.
  intros Hwf. unfold context_metadata_from_mapping. destruct v as [| | | | | |l]; try done.
  destruct (_ || _); [done|]. destruct (field "schema_version" l) as [| |[|[]|]| | | |]; try done.
  intros H. repeat (apply bind_Some in H as (? & ? & H)).
  match goal with Hn : new_metadata _ = Some _ |- _ => rename Hn into Hnew end.
  match goal with Hn : _source_records _ = Some _ |- _ => rename Hn into Hrec end.
  unfold new_metadata in Hnew. cbn [deployment_id resolved_model source_version max_input_tokens
    max_output_tokens deployment_input_limit input_output_semantics output_reserve_semantics
    catalog_ref source_records] in Hnew.
  destruct (_ && _) eqn:Hchk in Hnew; [|done]. apply bind_Some in Hnew as (rs & Hrs & Hnew).
  destruct (_validate_declared_consistency _ _) eqn:Hc in Hnew; [done|]. injection Hnew as <-.
  rewrite Hc in H. injection H as <-. cbn.
  apply andb_true_iff in Hchk as [[Ht Hp]%andb_true_iff Hr].
  split; [exact Ht|]. split; [exact Hp|]. split; [exact Hr|]. split; [|exact Hc].
  destruct rs as [rs|]; [|done]. eapply source_records_fixed; [|exact Hrec|exact Hrs].
  by apply field_wf.
Qed.

Lemma semantics_read {A} (value : A → list N) members (o : option A) :
  (∀ a, o = Some a → find (λ m, bool_decide (value m = value a)) members = Some a) →
  _semantics value members (opt_text (value <$> o)) = Some o.
Proof. destruct o as [a|]; cbn; [|done]. intros H. by rewrite H. Qed.

Lemma required_text_read s : trimmed s = true → _required_text (JStr s) = Some s.
Proof.
  unfold trimmed, _required_text. intros [H1 H2]%andb_true_iff. apply negb_true_iff in H1.
  by rewrite H1, H2.
Qed.

Lemma optional_int_read o : positive o = true → _optional_positive_int (opt_int o) = Some o.
Proof. destruct o as [z|]; cbn; [|done]. intros H%Z.ltb_lt. by rewrite (proj2 (Z.leb_gt _ _)). Qed.

(** A parsed declaration, written out and read again, is the same declaration. *)
Lemma metadata_round_trip v m :
  json_wf v → context_metadata_from_mapping v = Some (Some m) →
  context_metadata_from_mapping (as_dict m) = Some (Some m).
Proof.
  intros Hwf Hv. destruct (metadata_parsed v m Hwf Hv) as (Ht & Hp & Hc & Hr & Hcons).
  cbn [forallb] in Ht, Hp. rewrite !andb_true_iff in Ht, Hp.
  destruct Ht as (Hd & Hm & Hs & _), Hp as (Hi & Ho & Hl & _).
  unfold as_dict. match goal with |- context [JObj ?l] => set (items := l) end.
  unfold context_metadata_from_mapping.
  match goal with |- context [negb ?b || negb ?c] =>
    assert (negb b || negb c = false) as -> by reflexivity end.
  change (field "schema_version" items) with (JInt 1). cbn match.
  rewrite (required_text_read _ Hd : _required_text (field "deployment_id" items) = _).
  assert (_resolved_model (field "resolved_model" items) = Some (resolved_model m)) as ->.
  { change (field "resolved_model" items) with (JStr (resolved_model m)). cbn [_resolved_model].
    case_bool_decide as E; [by rewrite E|by apply required_text_read]. }
  rewrite (required_text_read _ Hs : _required_text (field "source_version" items) = _).
  rewrite (optional_int_read _ Hi : _optional_positive_int (field "max_input_tokens" items) = _).
  rewrite (optional_int_read _ Ho : _optional_positive_int (field "max_output_tokens" items) = _).
  rewrite (optional_int_read _ Hl : _optional_positive_int (field "deployment_input_limit" items) = _).
  assert (_semantics semantics_value [TOTAL_WINDOW; INDEPENDENT_INPUT_OUTPUT]
            (field "input_output_semantics" items) = Some (input_output_semantics m)) as ->
    by (apply semantics_read; by intros []).
  assert (_semantics reserve_value [INCLUDES_REASONING]
            (field "output_reserve_semantics" items) = Some (output_reserve_semantics m)) as ->
    by (apply semantics_read; by intros []).
  assert (_optional_text (field "catalog_ref" items) = Some (catalog_ref m)) as ->.
  { change (field "catalog_ref" items) with (opt_text (catalog_ref m)).
    destruct (catalog_ref m); [|done]. cbn [opt_text _optional_text]. by rewrite required_text_read. }
  assert (_source_records (field "source_records" items) = Some (source_records m)) as ->.
  { change (field "source_records" items)
      with (match source_records m with Some l => JArr l | None => JNull end).
    destruct (source_records m); [|done]. cbn [_source_records]. by rewrite Hr. }
  clear items. destruct m as [d r s i o dl io os c sr]. cbn in *. unfold new_metadata. cbn in *.
  rewrite Hd, Hm, Hs, Hi, Ho, Hl, Hc. cbn.
  destruct sr as [l|]; cbn; [rewrite Hr; cbn|]; rewrite Hcons; cbn; by rewrite Hcons.
Qed.
