(* ===== verification/ModelProfiles.v ===== *)
(** * Model profiles and their fallback chains

    Model of [packages/model_gateway/errors.py], [profile_resolution.py], the
    lookups of [repositories.py], and the request and response records of
    [contracts.py].

    [resolve_chain] follows [fallback_profile_id] with a [while] loop over a
    visited set.  [resolve_from] is that loop with fuel; [resolve_chain] gives
    it one round more than there are profiles, which always suffices
    ([resolve_chain_terminates]).  A lookup reads the profile table as it is
    when the chain is resolved. *)

From stdpp Require Import base gmap list strings.
From Stdlib Require Import ZArith NArith Lia.
From S2P Require Import Prelude.
From S2P Require Import Json.
From S2P Require Import JsonTheory.
From S2P Require Import Rbac.
From S2P Require Import TurnTranscript.
From S2P Require Import RunUsage.
From S2P Require Import ContextMetadata.

Local Open Scope Z_scope.

(** ** errors.py *)

Inductive ModelGatewayErrorCode :=
| MODEL_TIMEOUT | MODEL_RATE_LIMITED | MODEL_AUTH_FAILED | MODEL_PROVIDER_UNAVAILABLE
| MODEL_BAD_RESPONSE | MODEL_CAPABILITY_MISMATCH | MODEL_PROFILE_DISABLED
| MODEL_STREAM_INTERRUPTED | MODEL_TARGET_FORBIDDEN | AGENT_VERSION_MODEL_BINDING_INVALID.

(** What the gateway raises or lets through.  [CancelledError] and
    [GeneratorExit] are no [Exception]s; [OtherException] stands for any
    exception not named here. *)
Inductive GatewayExn :=
| ModelGatewayError (code : ModelGatewayErrorCode) (retryable : bool)
| ModelAttemptBudgetError (code : string)
| TimeoutError
| OtherException
| CancelledError
| GeneratorExit.

(** ** contracts.py *)

Record ModelToolDefinition := {
  td_name : list N;
  td_parameters : json;
  td_description : option (list N)
}.
Record StructuredOutputSchema := {
  schema_name : list N;
  json_schema : json;
  schema_strict : bool
}.
Inductive AliyunDeepSeekRequestMode := PROVIDER_DEFAULT | NON_THINKING.

Record ModelRequest := {
  rq_messages : list ModelMessage;
  rq_tools : list ModelToolDefinition;
  rq_response_schema : option StructuredOutputSchema;
  rq_required : CapabilityRequirements;
  rq_max_attempts : nat;
  rq_mode : AliyunDeepSeekRequestMode
}.

Record ModelResponse := {
  rs_content : list N;
  rs_provider : list N;
  rs_model : list N;
  rs_tool_calls : list ModelToolCall;
  rs_finish_reason : option (list N);
  rs_usage : option Usage;
  rs_cost : option Cost
}.

Record ModelToolCallDelta := {
  delta_index : N;
  delta_name : option (list N);
  arguments_delta : list N;
  delta_call_id : option (list N)
}.
(** Exactly one payload, the one its [event_type] names. *)
Inductive ModelStreamEvent :=
| MESSAGE_DELTA (text : list N)
| TOOL_CALL_DELTA (d : ModelToolCallDelta)
| USAGE (u : Usage)
| COMPLETED (r : ModelResponse).

(** ** The profile table and its rows *)

(** [temperature] and [timeout_seconds] are in thousandths ([Numeric(_, 3)]). *)
Record ModelProfile := {
  mp_id : N;
  mp_workspace_id : N;
  mp_provider_credential_id : N;
  mp_model : list N;
  mp_temperature : Z;
  mp_max_tokens : Z;
  mp_timeout_seconds : Z;
  mp_fallback_profile_id : option N;
  mp_capabilities : json;
  mp_enabled : bool
}.
Record ResolvedModelProfile := {
  rp_id : N;
  rp_workspace_id : N;
  rp_provider_credential_id : N;
  rp_model : list N;
  rp_temperature : Z;
  rp_max_tokens : Z;
  rp_timeout_seconds : Z;
  rp_fallback_profile_id : option N;
  rp_capabilities : ModelCapabilities
}.

Definition bad_response {A} : outcome GatewayExn A :=
  Raise (ModelGatewayError MODEL_BAD_RESPONSE false).

Definition _to_resolved (p : ModelProfile) : outcome GatewayExn ResolvedModelProfile :=
  if (mp_max_tokens p <=? 0) || (mp_timeout_seconds p <=? 0) || (mp_temperature p <? 0)
  then bad_response
  else match capabilities_from_mapping (mp_capabilities p) with
  | None => bad_response
  | Some c =>
      if validate_capabilities c no_requirements then
        Return {| rp_id := mp_id p; rp_workspace_id := mp_workspace_id p;
          rp_provider_credential_id := mp_provider_credential_id p; rp_model := mp_model p;
          rp_temperature := mp_temperature p; rp_max_tokens := mp_max_tokens p;
          rp_timeout_seconds := mp_timeout_seconds p;
          rp_fallback_profile_id := mp_fallback_profile_id p; rp_capabilities := c |}
      else Raise (ModelGatewayError MODEL_CAPABILITY_MISMATCH false)
  end.

Section Resolve.
Context (profiles : gmap N ModelProfile) (context : WorkspaceExecutionContext).
Context (required_capabilities : CapabilityRequirements).

(** [repository.get_model_profile] *)
Definition get_model_profile (profile_id : N) : option ModelProfile :=
  match ctx_workspace_id context with
  | None => None
  | Some w =>
      match profiles !! profile_id with
      | Some p => if (mp_workspace_id p =? w)%N then Some p else None
      | None => None
      end
  end.

(** One round of the loop: the profile it appends. *)
Definition resolve_one (i : N) : outcome GatewayExn ResolvedModelProfile :=
  match get_model_profile i with
  | None => Raise (ModelGatewayError MODEL_PROFILE_DISABLED false)
  | Some p =>
      if negb (mp_enabled p) then Raise (ModelGatewayError MODEL_PROFILE_DISABLED false)
      else match _to_resolved p with
      | Raise e => Raise e
      | Return r =>
          if validate_capabilities (rp_capabilities r) required_capabilities then Return r
          else Raise (ModelGatewayError MODEL_CAPABILITY_MISMATCH false)
      end
  end.

(** The loop; [None] when the fuel is spent. *)
Fixpoint resolve_from (fuel : nat) (chain : list ResolvedModelProfile) (visited : gset N)
    (current_id : option N) : option (outcome GatewayExn (list ResolvedModelProfile)) :=
  match fuel with
  | O => None
  | S fuel =>
      match current_id with
      | None => Some (Return chain)
      | Some i =>
          if bool_decide (i ∈ visited) then Some bad_response
          else match resolve_one i with
          | Raise e => Some (Raise e)
          | Return r => resolve_from fuel (chain ++ [r]) ({[i]} ∪ visited) (rp_fallback_profile_id r)
          end
      end
  end.

Definition resolve_chain (profile_id : N) : outcome GatewayExn (list ResolvedModelProfile) :=
  default (Raise OtherException) (resolve_from (S (size profiles)) [] ∅ (Some profile_id)).

(** ** Termination and shape *)

(** Consecutive profiles are linked by their fallback, the last has none. *)
Fixpoint linked (start : option N) (chain : list ResolvedModelProfile) : Prop :=
  match chain with
  | [] => start = None
  | r :: rest => start = Some (rp_id r) ∧ linked (rp_fallback_profile_id r) rest
  end.

(** A usable profile of the caller's workspace. *)
Definition usable (r : ResolvedModelProfile) : Prop :=
  ∃ p, profiles !! rp_id r = Some p ∧ mp_enabled p = true ∧ _to_resolved p = Return r ∧
    ctx_workspace_id context = Some (rp_workspace_id r) ∧
    validate_capabilities (rp_capabilities r) required_capabilities = true.

Lemma to_resolved_fields p r :
  _to_resolved p = Return r → rp_id r = mp_id p ∧ rp_workspace_id r = mp_workspace_id p ∧
    rp_fallback_profile_id r = mp_fallback_profile_id p.
Proof using. unfold _to_resolved, bad_response. intros H. repeat case_match; simplify_eq. done. Qed.

Lemma resolve_one_key i r : resolve_one i = Return r → i ∈ dom profiles.
Proof using. unfold resolve_one, get_model_profile. rewrite elem_of_dom. intros. repeat case_match; simplify_eq; eauto. Qed.

(** Every round visits one more profile. *)
Lemma resolve_from_total fuel chain visited current :
  (size (dom profiles ∖ visited) < fuel)%nat →
  is_Some (resolve_from fuel chain visited current).
Proof using.
  revert chain visited current. induction fuel as [|fuel IH]; intros chain visited current Hf;
    [lia|]. cbn [resolve_from]. destruct current as [i|]; [|eauto].
  case_bool_decide as Hi; [eauto|]. destruct (resolve_one i) as [r|e] eqn:E; [|eauto].
  pose proof (resolve_one_key i r E) as Hk. apply IH.
  enough (size (dom profiles ∖ ({[i]} ∪ visited)) < size (dom profiles ∖ visited))%nat by lia.
  apply subset_size. set_solver.
Qed.

Lemma resolve_from_mono fuel fuel' chain visited current out :
  resolve_from fuel chain visited current = Some out → (fuel ≤ fuel')%nat →
  resolve_from fuel' chain visited current = Some out.
Proof using.
  revert fuel' chain visited current. induction fuel as [|fuel IH]; intros fuel' chain visited current;
    [done|]. intros H Hle. destruct fuel' as [|fuel']; [lia|]. cbn [resolve_from] in *.
  destruct current as [i|]; [|done]. case_bool_decide; [done|].
  destruct (resolve_one i); [|done]. eapply IH; [exact H|lia].
Qed.

Lemma usable_bounded chain :
  Forall usable chain → NoDup (rp_id <$> chain) → (length chain ≤ size profiles)%nat.
Proof using.
  intros Hu Hnd. rewrite <- size_dom, <- (length_fmap rp_id), <- (size_list_to_set (C := gset N)) by done.
  apply subseteq_size. intros i (r & -> & Hr)%elem_of_list_to_set%list_elem_of_fmap.
  rewrite Forall_forall in Hu. destruct (Hu r Hr) as (p & Hp & _). by apply elem_of_dom_2 in Hp.
Qed.

Lemma resolve_chain_run profile_id :
  resolve_from (S (size profiles)) [] ∅ (Some profile_id) = Some (resolve_chain profile_id).
Proof using.
  unfold resolve_chain. destruct (resolve_from_total (S (size profiles)) [] ∅ (Some profile_id))
    as [out ->]; [|done].
  rewrite difference_empty_L, size_dom. lia.
Qed.
Hypothesis keyed : ∀ i p, profiles !! i = Some p → mp_id p = i.

Lemma resolve_one_usable i r : resolve_one i = Return r ↔ rp_id r = i ∧ usable r.
Proof using keyed.
  unfold resolve_one, get_model_profile, usable. split.
  - intros H. destruct (ctx_workspace_id context) as [w|] eqn:Hw; [|done].
    destruct (profiles !! i) as [p|] eqn:Hp; [|done].
    destruct (N.eqb_spec (mp_workspace_id p) w) as [<-|]; [|done].
    destruct (mp_enabled p) eqn:He; [|done]. cbn [negb] in H.
    destruct (_to_resolved p) as [r'|e] eqn:Er; [|done].
    destruct (validate_capabilities _ _) eqn:Hv; [|done]. injection H as ->.
    destruct (to_resolved_fields p r Er) as (Hid & Hws & _). rewrite (keyed i p Hp) in Hid.
    split; [done|]. exists p. rewrite Hid, Hws. done.
  - intros [<- (p & Hp & He & Er & Hw & Hv)]. rewrite Hw, Hp.
    destruct (to_resolved_fields p r Er) as (_ & -> & _). by rewrite N.eqb_refl, He, Er, Hv.
Qed.

Lemma resolve_from_sound fuel chain visited current out :
  resolve_from fuel chain visited current = Some (Return out) →
  ∃ rest, out = chain ++ rest ∧ linked current rest ∧ Forall usable rest ∧
    NoDup (rp_id <$> rest) ∧ ∀ i, i ∈ rp_id <$> rest → i ∉ visited.
Proof using keyed.
  revert chain visited current. induction fuel as [|fuel IH]; intros chain visited current; [done|].
  cbn [resolve_from]. destruct current as [i|].
  - case_bool_decide as Hi; [done|]. destruct (resolve_one i) as [r|e] eqn:E; [|done].
    intros (rest & -> & Hl & Hu & Hnd & Hv)%IH. apply resolve_one_usable in E as [<- Hr].
    exists (r :: rest). rewrite <- app_assoc. split; [done|]. split; [done|].
    split; [by constructor|]. cbn. split.
    + apply NoDup_cons. split; [|done]. intros Hin. apply (Hv _ Hin). set_solver.
    + intros j [->|Hj]%elem_of_cons; [done|]. specialize (Hv j Hj). set_solver.
  - intros [= <-]. exists []. rewrite app_nil_r. split_and!; try done; [by apply NoDup_nil_2|].
    by intros i ?%not_elem_of_nil.
Qed.

Lemma resolve_from_complete fuel chain visited current rest :
  linked current rest → Forall usable rest → NoDup (rp_id <$> rest) →
  (∀ i, i ∈ rp_id <$> rest → i ∉ visited) → (length rest < fuel)%nat →
  resolve_from fuel chain visited current = Some (Return (chain ++ rest)).
Proof using keyed.
  revert fuel chain visited current. induction rest as [|r rest IH];
    intros fuel chain visited current Hl Hu Hnd Hv Hf; (destruct fuel as [|fuel]; [cbn in Hf; lia|]);
    cbn [resolve_from].
  - cbn in Hl. subst. by rewrite app_nil_r.
  - destruct Hl as [-> Hl]. apply Forall_cons in Hu as [Hr Hu].
    cbn in Hnd, Hv, Hf. apply NoDup_cons in Hnd as [Hn Hnd].
    rewrite bool_decide_false by (apply Hv; by left).
    rewrite (proj2 (resolve_one_usable (rp_id r) r)) by done.
    rewrite (IH fuel (chain ++ [r])), <- app_assoc; try done; [|lia].
    intros i Hi [->%elem_of_singleton|Hvis]%elem_of_union; [done|].
    by apply (Hv i); [right|].
Qed.
End Resolve.

(** Resolving a fallback chain always terminates: the loop needs at most one
    round more than there are profiles, and more fuel changes nothing.  It
    returns a chain exactly when following the fallback links from the given
    profile ends, without visiting a profile twice, and every profile on the
    way is enabled, well formed, of the caller's workspace and has the required
    capabilities; such a chain is never longer than the profile table. *)
Lemma resolve_chain_terminates profiles context required profile_id :
  (∀ i p, profiles !! i = Some p → mp_id p = i) →
  (∀ fuel, (size profiles < fuel)%nat →
     resolve_from profiles context required fuel [] ∅ (Some profile_id)
     = Some (resolve_chain profiles context required profile_id)) ∧
  ∀ chain, resolve_chain profiles context required profile_id = Return chain ↔
    linked (Some profile_id) chain ∧ Forall (usable profiles context required) chain ∧
    NoDup (rp_id <$> chain) ∧ (length chain ≤ size profiles)%nat.
Proof.
  intros keyed. pose proof (resolve_chain_run profiles context required profile_id) as Hrun. split.
  - intros fuel Hf. eapply resolve_from_mono; [exact Hrun|lia].
  - intros chain. split.
    + intros Hc. rewrite Hc in Hrun.
      destruct (resolve_from_sound _ _ _ keyed _ _ _ _ _ Hrun) as (rest & -> & Hl & Hu & Hnd & _).
      split_and!; try done. by eapply usable_bounded.
    + intros (Hl & Hu & Hnd & Hlen).
      rewrite (resolve_from_complete _ _ _ keyed _ [] ∅ _ chain) in Hrun
        by first [done | lia | intros ??; apply not_elem_of_empty].
      by injection Hrun.
Qed.

Definition sample_profile (i : N) (fallback : option N) : ModelProfile :=
  {| mp_id := i; mp_workspace_id := 5; mp_provider_credential_id := 3; mp_model := lit "m";
     mp_temperature := 0; mp_max_tokens := 100; mp_timeout_seconds := 20000;
     mp_fallback_profile_id := fallback;
     mp_capabilities := JObj [(lit "streaming", JBool true)]; mp_enabled := true |}.
(** Profile 1 falls back to 2; 3 and 4 fall back to each other. *)
Definition sample_profiles : gmap N ModelProfile :=
  {[1%N := sample_profile 1 (Some 2%N); 2%N := sample_profile 2 None;
    3%N := sample_profile 3 (Some 4%N); 4%N := sample_profile 4 (Some 3%N)]}.
Definition sample_workspace : WorkspaceExecutionContext :=
  {| ctx_request_id := lit "req"; ctx_user_id := Some 9%N; ctx_organization_id := Some 8%N;
     ctx_org_role := "MEMBER"; ctx_workspace_id := Some 5%N; ctx_permissions := ∅ |}.
Definition sample_chain (i : N) : list ResolvedModelProfile :=
  match resolve_chain sample_profiles sample_workspace no_requirements i with
  | Return c => c | Raise _ => [] end.

Lemma sample_profiles_keyed i p : sample_profiles !! i = Some p → mp_id p = i.
Proof.
  apply (bool_decide_eq_true_1 (map_Forall (λ i p, mp_id p = i) sample_profiles)).
  vm_compute. reflexivity.
Qed.

(** The linked chain is returned; the cyclic one is refused, not followed forever. *)
Lemma resolve_chain_terminates_witness :
  (rp_id <$> sample_chain 1 = [1; 2]%N ∧ linked (Some 1%N) (sample_chain 1)) ∧
  resolve_from sample_profiles sample_workspace no_requirements 100 [] ∅ (Some 3%N)
  = Some bad_response.
Proof.
  split.
  - split; [vm_compute; reflexivity|].
    apply (resolve_chain_terminates sample_profiles sample_workspace no_requirements 1
             sample_profiles_keyed). vm_compute. reflexivity.
  - rewrite (proj1 (resolve_chain_terminates sample_profiles sample_workspace no_requirements 3
             sample_profiles_keyed)); [vm_compute; reflexivity|].
    apply (bool_decide_eq_true_1 _). vm_compute. reflexivity.
Defined.
