(* ===== verification/ModelGateway.v ===== *)
(** * The model gateway: retries, fallbacks and the run budget

    Model of [ModelGatewayService] ([packages/model_gateway/gateway.py]:
    [generate], [_generate_chain], [_stream] and their helpers), of the budget
    contract [packages/model_gateway/run_budget_adapter.py] and of the adapter
    that implements it on the run's ledger
    ([packages/agent_runtime/model_budget_adapter.py]).

    One call of the gateway works on a [Call]: the shared [World] (the ledger
    tables and a log of the provider calls made under a reservation), what
    others do to that world before each of its transactions ([coming]), the
    reservation its exception handlers see ([active]), the attempts it sent,
    and, for a stream, the loop's local variables and the events handed to the
    consumer.  A consumer may close the stream after any event ([patience]).

    The provider adapter is a parameter: [complete] and [stream_events] give the
    outcome of each attempt, timeouts and cancellation included.  So are the
    price source, [uuid4()], the clock and the outcome of each database
    transaction ([tx_fault]: it may fail or be cancelled before or after its
    commit).  Trace spans are left out. *)

From stdpp Require Import base gmap list strings.
From Stdlib Require Import ZArith NArith Lia.
From S2P Require Import Prelude.
From S2P Require Import RunBudgetLedger.
From S2P Require Import LedgerSpec.
From S2P Require Import Json.
From S2P Require Import JsonTheory.
From S2P Require Import Rbac.
From S2P Require Import TurnTranscript.
From S2P Require Import RunUsage.
From S2P Require Import ContextMetadata.
From S2P Require Import ModelProfiles.

Local Open Scope Z_scope.

(** ** run_budget_adapter.py *)

Module ModelAttemptKind.
Inductive t := MAIN_MODEL | RETRY | FALLBACK.
End ModelAttemptKind.

(** [RunBudgetAttemptKind(attempt_kind.value)] *)
Definition ledger_kind (k : ModelAttemptKind.t) : RunBudgetAttemptKind :=
  match k with
  | ModelAttemptKind.MAIN_MODEL => RunBudgetLedger.MAIN_MODEL
  | ModelAttemptKind.RETRY => RunBudgetLedger.RETRY
  | ModelAttemptKind.FALLBACK => RunBudgetLedger.FALLBACK
  end.

Record AttemptCostUpperBound := {
  ub_amount : decimal;
  ub_currency : list N;
  ub_basis_identity : list N
}.

Record Reservation := {
  rv_workspace_id : N;
  rv_run_id : N;
  rv_attempt_identity : list N;
  rv_attempt_kind : ModelAttemptKind.t;
  rv_cost_upper_bound : AttemptCostUpperBound
}.

Inductive operation := generate_op | stream_op.
Definition operation_text (o : operation) : list N :=
  match o with generate_op => lit "generate" | stream_op => lit "stream" end.

(** ** State *)

Record World := {
  ledger : Db;
  dispatched : list ((N * N) * list N)
}.

Record Call := {
  world : World;
  coming : list (World → World);
  active : option Reservation;
  sent : list (nat * nat);
  visible : bool;
  buffered : list ModelStreamEvent;
  final_response : option ModelResponse;
  yielded : list ModelStreamEvent;
  patience : option nat
}.

Definition set_world (w : World) (s : Call) : Call :=
  {| world := w; coming := coming s; active := active s; sent := sent s; visible := visible s;
     buffered := buffered s; final_response := final_response s; yielded := yielded s;
     patience := patience s |}.
Definition set_coming (l : list (World → World)) (s : Call) : Call :=
  {| world := world s; coming := l; active := active s; sent := sent s; visible := visible s;
     buffered := buffered s; final_response := final_response s; yielded := yielded s;
     patience := patience s |}.
Definition set_active (a : option Reservation) (s : Call) : Call :=
  {| world := world s; coming := coming s; active := a; sent := sent s; visible := visible s;
     buffered := buffered s; final_response := final_response s; yielded := yielded s;
     patience := patience s |}.
Definition set_sent (l : list (nat * nat)) (s : Call) : Call :=
  {| world := world s; coming := coming s; active := active s; sent := l; visible := visible s;
     buffered := buffered s; final_response := final_response s; yielded := yielded s;
     patience := patience s |}.
(** [visible], [buffered] and [final_response] of the current attempt. *)
Definition set_locals (v : bool) (b : list ModelStreamEvent) (f : option ModelResponse)
    (s : Call) : Call :=
  {| world := world s; coming := coming s; active := active s; sent := sent s; visible := v;
     buffered := b; final_response := f; yielded := yielded s; patience := patience s |}.
Definition set_output (l : list ModelStreamEvent) (n : option nat) (s : Call) : Call :=
  {| world := world s; coming := coming s; active := active s; sent := sent s;
     visible := visible s; buffered := buffered s; final_response := final_response s;
     yielded := l; patience := n |}.

(** ** Transactions on the ledger *)

Inductive tx_fault := TxOk | TxFails (committed : bool) | TxCancelled (committed : bool).

(** What the body of the adapter's transactions can raise. *)
Inductive TxExn := InLedger (e : LedgerExn) | Budget (code : string) | Unexpected | Interrupted.

Definition lift_ledger {A} (m : L A) : M Db TxExn A := λ db,
  match m db with
  | (Return a, db') => (Return a, db')
  | (Raise e, db') => (Raise (InLedger e), db')
  end.

(** [async with session.begin()], with the trigger that runs at COMMIT. *)
Definition session_begin {A} (sc : N * N) (f : tx_fault) (m : M Db TxExn A) : M Db TxExn A := λ db,
  let run := atomically (before ← get; a ← m; after ← get;
    raise_if (negb (bool_decide (attempts before = attempts after))
              && negb (run_budget_verify_account_totals after sc))
      (InLedger (IntegrityError "run_budget_attempt_totals_guard"));;
    mret a) db in
  match f with
  | TxOk => run
  | TxFails false => (Raise Unexpected, db)
  | TxFails true => (Raise Unexpected, snd run)
  | TxCancelled false => (Raise Interrupted, db)
  | TxCancelled true => (Raise Interrupted, snd run)
  end.

(** The [except] clauses around both transactions; [code] is the adapter's own. *)
Definition adapter_exn (code : string) (e : TxExn) : GatewayExn :=
  match e with
  | Budget c => ModelAttemptBudgetError c
  | InLedger (RunBudgetLedgerError c) => ModelAttemptBudgetError c
  | InLedger _ | Unexpected => ModelAttemptBudgetError code
  | Interrupted => CancelledError
  end.

(** Whatever others do until this call's next transaction. *)
Definition await : M Call GatewayExn unit := λ s,
  match coming s with
  | [] => (Return tt, s)
  | f :: rest => (Return tt, set_coming rest (set_world (f (world s)) s))
  end.

Definition in_ledger {A} (code : string) (m : M Db TxExn A) : M Call GatewayExn A := λ s,
  let '(r, db) := m (ledger (world s)) in
  (match r with Return a => Return a | Raise e => Raise (adapter_exn code e) end,
   set_world {| ledger := db; dispatched := dispatched (world s) |} s).
Definition tx {A} (code : string) (m : M Db TxExn A) : M Call GatewayExn A :=
  await;; in_ledger code m.

(** ** The adapter: model_budget_adapter.py *)

(** The adapter's run and model round. *)
Record Binding := { workspace_id : N; run_id : N; call_identity : list N }.
Record ProviderCredential := { cred_provider : list N; cred_enabled : bool }.
(** [last_error] *)
Record Failure := { fail_code : ModelGatewayErrorCode; fail_retryable : bool }.

Section Gateway.
(** [None] is a gateway without a budget. *)
Context (budget : option Binding).
Context (price_source : ResolvedModelProfile → ModelRequest → list N → ModelAttemptKind.t → Db →
                        option (option AttemptCostUpperBound)).
Context (uuid4 : Db → N) (now : nat → nat → Z).
Context (reserve_fault : nat → nat → tx_fault).
(** Faults of the marks: in the attempt's own handler, or ([late]) in the outer one. *)
Context (mark_fault : bool → nat → nat → tx_fault).
(** The provider: the outcome of the attempt [attempt] on profile [profile_index]. *)
Context (complete : nat → nat → outcome GatewayExn ModelResponse).
Context (stream_events : nat → nat → list ModelStreamEvent * option GatewayExn).
Context (context : WorkspaceExecutionContext) (request : ModelRequest).

Definition scope (b : Binding) : N * N := (workspace_id b, run_id b).

Definition _MAX_CALL_IDENTITY_LENGTH : nat := 64.
(** [_validate_call_identity], called by the constructor of the adapter. *)
Definition _validate_call_identity (s : list N) : bool :=
  negb (bool_decide (s = [])) && bool_decide (s = py_strip s)
  && (length s <=? _MAX_CALL_IDENTITY_LENGTH)%nat && negb (bool_decide (0%N ∈ s)).

Definition attempt_identity (b : Binding) (o : operation) (profile_index attempt_index : nat) :
  list N :=
  lit "model:" ++ call_identity b ++ lit ":" ++ operation_text o ++ lit ":"
  ++ dump_nat (N.of_nat profile_index) ++ lit ":" ++ dump_nat (N.of_nat attempt_index).

Definition _validate_context (b : Binding) : M Call GatewayExn unit :=
  raise_if (negb (bool_decide (ctx_workspace_id context = Some (workspace_id b))))
    (ModelAttemptBudgetError "RUN_BUDGET_BINDING_MISMATCH").

(** The reservation transaction: the quote it is made for. *)
Definition reserve_body (b : Binding) (profile : ResolvedModelProfile) (provider : list N)
    (o : operation) (p a : nat) (kind : ModelAttemptKind.t) : M Db TxExn AttemptCostUpperBound :=
  db ← get;
  match price_source profile request provider kind db with
  | None => raise Unexpected
  | Some None => raise (Budget "RUN_BUDGET_UPPER_BOUND_UNAVAILABLE")
  | Some (Some quote) =>
      reservation ← lift_ledger (reserve (uuid4 db) (now p a) (scope b) (attempt_identity b o p a)
        (ledger_kind kind) (ub_amount quote) (ub_currency quote) CONSERVATIVE_MAXIMUM);
      raise_if (negb (created reservation)) (Budget "RUN_BUDGET_ATTEMPT_REPLAYED");;
      mret quote
  end.

Definition reserve_attempt (b : Binding) (profile : ResolvedModelProfile) (provider : list N)
    (o : operation) (p a : nat) (kind : ModelAttemptKind.t) : M Call GatewayExn Reservation :=
  _validate_context b;;
  raise_if (bool_decide (provider = [])) OtherException;;
  raise_if (128 <? length (attempt_identity b o p a))%nat
    (ModelAttemptBudgetError "RUN_BUDGET_ATTEMPT_IDENTITY_INVALID");;
  quote ← tx "RUN_BUDGET_RESERVATION_FAILED"
            (session_begin (scope b) (reserve_fault p a) (reserve_body b profile provider o p a kind));
  mret {| rv_workspace_id := workspace_id b; rv_run_id := run_id b;
          rv_attempt_identity := attempt_identity b o p a; rv_attempt_kind := kind;
          rv_cost_upper_bound := quote |}.

Definition mark_attempt (b : Binding) (r : Reservation) (f : tx_fault) : M Call GatewayExn unit :=
  raise_if (negb (bool_decide (rv_workspace_id r = workspace_id b))
            || negb (bool_decide (rv_run_id r = run_id b)))
    (ModelAttemptBudgetError "RUN_BUDGET_BINDING_MISMATCH");;
  tx "RUN_BUDGET_UNKNOWN_OUTCOME_FAILED"
    (session_begin (scope b) f
       (lift_ledger (mark_unknown_outcome (rv_workspace_id r, rv_run_id r) (rv_attempt_identity r));;
        mret tt)).

(** ** The gateway: gateway.py *)

Definition _attempt_kind (profile_index attempt_index : nat) : ModelAttemptKind.t :=
  match profile_index, attempt_index with
  | S _, _ => ModelAttemptKind.FALLBACK
  | O, S _ => ModelAttemptKind.RETRY
  | O, O => ModelAttemptKind.MAIN_MODEL
  end.

(** A refusal is an answer; otherwise an answer has text or tool calls. *)
Definition usable_response (r : ModelResponse) : bool :=
  negb (bool_decide (py_strip (rs_content r) = [])) || negb (bool_decide (rs_tool_calls r = []))
  || bool_decide (rs_finish_reason r ∈ [Some (lit "content_filter"); Some (lit "refusal")]).
Definition _validate_usable_response (r : ModelResponse) : M Call GatewayExn unit :=
  raise_if (negb (usable_response r)) (ModelGatewayError MODEL_BAD_RESPONSE false).

Definition _reserve_attempt (profile : ResolvedModelProfile) (provider : list N) (o : operation)
    (p a : nat) (kind : ModelAttemptKind.t) : M Call GatewayExn (option Reservation) :=
  match budget with
  | None => mret None
  | Some b => r ← reserve_attempt b profile provider o p a kind; mret (Some r)
  end.

(** [late], [p], [a] only select the fault of the transaction. *)
Definition _mark_unknown_outcome (late : bool) (p a : nat) (r : option Reservation) : M Call GatewayExn unit :=
  match r with
  | None => mret tt
  | Some r =>
      match budget with
      | None => raise (ModelAttemptBudgetError "RUN_BUDGET_BINDING_UNAVAILABLE")
      | Some b => mark_attempt b r (mark_fault late p a)
      end
  end.

(** Shielded: a failure is logged, only a cancellation goes on. *)
Definition _mark_cancelled_unknown_outcome (p a : nat) (r : option Reservation) :
  M Call GatewayExn unit :=
  catch (_mark_unknown_outcome true p a r)
    (λ e, match e with CancelledError => raise CancelledError | _ => mret tt end).

(** [await self._mark_unknown_outcome(active_budget_reservation)] *)
Definition mark_active (p a : nat) : M Call GatewayExn unit :=
  s ← get; _mark_unknown_outcome false p a (active s).
Definition clear_active : M Call GatewayExn unit := modify (set_active None).

(** The provider is called: the attempt, and the reservation it runs under. *)
Definition dispatch (p a : nat) : M Call GatewayExn unit :=
  modify (λ s, set_sent (sent s ++ [(p, a)])
    match active s with
    | None => s
    | Some r => set_world {| ledger := ledger (world s);
                  dispatched := dispatched (world s)
                    ++ [((rv_workspace_id r, rv_run_id r), rv_attempt_identity r)] |} s
    end).

(** Where the loops find the credential's provider: [credentials[profile.id]]
    of a prepared call, or [_enabled_credential]. *)
Context (credentials : option (gmap N ProviderCredential)).
Context (get_provider_credential : N → outcome GatewayExn (option ProviderCredential)).

Definition _enabled_credential (credential_id : N) : M Call GatewayExn ProviderCredential :=
  match get_provider_credential credential_id with
  | Raise e => raise e
  | Return (Some c) => if cred_enabled c then mret c
                       else raise (ModelGatewayError MODEL_PROFILE_DISABLED false)
  | Return None => raise (ModelGatewayError MODEL_PROFILE_DISABLED false)
  end.
Definition credential_of (profile : ResolvedModelProfile) : M Call GatewayExn ProviderCredential :=
  match credentials with
  | Some m => match m !! rp_id profile with Some c => mret c | None => raise OtherException end
  | None => _enabled_credential (rp_provider_credential_id profile)
  end.

Definition raise_failure {A} (e : Failure) : M Call GatewayExn A :=
  raise (ModelGatewayError (fail_code e) (fail_retryable e)).

(** One attempt of [_generate_chain]: the response, or [last_error]. *)
Definition try_generate (p a : nat) : M Call GatewayExn (ModelResponse + Failure) :=
  catch
    (match complete p a with
     | Raise e => raise e
     | Return response =>
         clear_active;;
         _validate_usable_response response;;
         mret (inl response)
     end)
    (λ e, match e with
     | TimeoutError =>
         mark_active p a;; clear_active;;
         mret (inr {| fail_code := MODEL_TIMEOUT; fail_retryable := true |})
     | ModelGatewayError code retryable =>
         mark_active p a;; clear_active;;
         mret (inr {| fail_code := code; fail_retryable := retryable |})
     | CancelledError | GeneratorExit => raise e
     | _ => mark_active p a;; clear_active;; raise e
     end).

(** Reserve, then call the provider. *)
Definition begin_attempt (o : operation) (profile : ResolvedModelProfile) (provider : list N)
    (p a : nat) : M Call GatewayExn unit :=
  r ← _reserve_attempt profile provider o p a (_attempt_kind p a);
  modify (set_active r);;
  dispatch p a.

(** [for attempt in range(max_attempts)], from [a] with [n] left. *)
Fixpoint attempts_from {A} (o : operation) (try : nat → nat → M Call GatewayExn (A + Failure))
    (profile : ResolvedModelProfile) (provider : list N) (p a n : nat) (last : option Failure) :
  M Call GatewayExn (A + option Failure) :=
  match n with
  | O => mret (inr last)
  | S n =>
      begin_attempt o profile provider p a;;
      out ← try p a;
      match out with
      | inl response => mret (inl response)
      | inr e => if negb (fail_retryable e) || (n =? 0)%nat then mret (inr (Some e))
                 else attempts_from o try profile provider p (S a) n (Some e)
      end
  end.

(** [for profile_index, profile in enumerate(chain)], from [p]. *)
Fixpoint profiles_from {A} (o : operation) (try : nat → nat → M Call GatewayExn (A + Failure))
    (p : nat) (chain : list ResolvedModelProfile) (last : option Failure) : M Call GatewayExn A :=
  match chain with
  | [] => match last with
          | Some e => raise_failure e
          | None => raise (ModelGatewayError MODEL_PROVIDER_UNAVAILABLE false)
          end
  | profile :: rest =>
      credential ← credential_of profile;
      out ← attempts_from o try profile (cred_provider credential) p 0
              (rq_max_attempts request) last;
      match out with
      | inl response => mret response
      | inr last => profiles_from o try (S p) rest last
      end
  end.

(** The attempt the handlers' transaction belongs to. *)
Definition current (s : Call) : nat * nat := default (0, 0)%nat (list.last (sent s)).

(** The outer [except] clauses, the same in both operations. *)
Definition guarded {A} (m : M Call GatewayExn A) : M Call GatewayExn A :=
  catch m (λ e,
    s ← get;
    let '(p, a) := current s in
    match e with
    | CancelledError | GeneratorExit =>
        _mark_cancelled_unknown_outcome p a (active s);; raise e
    | ModelAttemptBudgetError _ => raise e
    | ModelGatewayError _ _ => _mark_unknown_outcome true p a (active s);; raise e
    | _ => _mark_unknown_outcome true p a (active s);;
           raise (ModelGatewayError MODEL_BAD_RESPONSE false)
    end).

Definition _generate_chain (chain : list ResolvedModelProfile) : M Call GatewayExn ModelResponse :=
  guarded (profiles_from generate_op try_generate 0 chain None).

(** [generate] on the current profile table. *)
Definition generate (profiles : gmap N ModelProfile) (model_profile_id : N) :
  M Call GatewayExn ModelResponse :=
  match resolve_chain profiles context
          (effective_capability_requirements (negb (bool_decide (rq_tools request = [])))
             (bool_decide (is_Some (rq_response_schema request))) false (rq_required request))
          model_profile_id with
  | Raise e => raise e
  | Return chain => _generate_chain chain
  end.

(** [yield event]: the consumer takes it and may then close the generator. *)
Definition yield (e : ModelStreamEvent) : M Call GatewayExn unit := λ s,
  match patience s with
  | None => (Return tt, set_output (yielded s ++ [e]) None s)
  | Some (S n) => (Return tt, set_output (yielded s ++ [e]) (Some n) s)
  | Some O => (Raise GeneratorExit, set_output (yielded s ++ [e]) (Some O) s)
  end.
Fixpoint yield_all (l : list ModelStreamEvent) : M Call GatewayExn unit :=
  match l with [] => mret tt | e :: l => yield e;; yield_all l end.

Definition is_delta (e : ModelStreamEvent) : bool :=
  match e with MESSAGE_DELTA _ | TOOL_CALL_DELTA _ => true | _ => false end.

(** The body of [async for event in self.adapter.stream(...)]. *)
Definition stream_event (e : ModelStreamEvent) : M Call GatewayExn unit :=
  match e with
  | COMPLETED r =>
      clear_active;;
      modify (λ s, set_locals (visible s) (buffered s) (Some r) s);;
      _validate_usable_response r
  | _ => mret tt
  end;;
  s ← get;
  if is_delta e then
    modify (λ s, set_locals true (buffered s) (final_response s) s);;
    yield_all (buffered s);;
    modify (λ s, set_locals true [] (final_response s) s);;
    yield e
  else if visible s then yield e
  else modify (λ s, set_locals (visible s) (buffered s ++ [e]) (final_response s) s).

Fixpoint stream_loop (l : list ModelStreamEvent) : M Call GatewayExn unit :=
  match l with [] => mret tt | e :: l => stream_event e;; stream_loop l end.

(** After a failure: [if visible: raise ... from None]. *)
Definition interrupted_if_visible : M Call GatewayExn unit :=
  s ← get; raise_if (visible s) (ModelGatewayError MODEL_STREAM_INTERRUPTED false).

(** One attempt of [_stream]. *)
Definition try_stream (p a : nat) : M Call GatewayExn (unit + Failure) :=
  modify (set_locals false [] None);;
  out ← catch
    (let '(events, ending) := stream_events p a in
     stream_loop events;;
     match ending with
     | Some e => raise e
     | None =>
         s ← get;
         match final_response s with
         | None => raise (ModelGatewayError MODEL_BAD_RESPONSE false)
         | Some _ => mret (inl tt)
         end
     end)
    (λ e, match e with
     | TimeoutError =>
         mark_active p a;; clear_active;; interrupted_if_visible;;
         mret (inr {| fail_code := MODEL_TIMEOUT; fail_retryable := true |})
     | ModelGatewayError code retryable =>
         mark_active p a;; clear_active;; interrupted_if_visible;;
         mret (inr {| fail_code := code; fail_retryable := retryable |})
     | CancelledError | GeneratorExit => raise e
     | _ =>
         mark_active p a;; clear_active;; interrupted_if_visible;;
         mret (inr {| fail_code := MODEL_BAD_RESPONSE; fail_retryable := false |})
     end);
  match out with
  | inl _ => s ← get; yield_all (buffered s);; mret (inl tt)
  | inr e => mret (inr e)
  end.

(** The stream of a prepared chain, or of the current profile table.  (A frozen
    plan is turned into a prepared chain by [_prepare_frozen_stream].) *)
Definition _stream (prepared : list ResolvedModelProfile + (gmap N ModelProfile * N)) :
  M Call GatewayExn unit :=
  guarded
    (chain ← match prepared with
       | inl chain => mret chain
       | inr (profiles, model_profile_id) =>
           match resolve_chain profiles context
                   (effective_capability_requirements (negb (bool_decide (rq_tools request = [])))
                      (bool_decide (is_Some (rq_response_schema request))) true
                      (rq_required request)) model_profile_id with
           | Raise e => raise e
           | Return chain => mret chain
           end
       end;
     profiles_from stream_op try_stream 0 chain None).
End Gateway.
