(* ===== verification/ModelGatewayProperties.v ===== *)
(** * Provider calls and the run budget

    Theorems about [ModelGateway.v].  Every provider call made under a budget
    is covered by a reservation that was committed before it, no attempt is ever
    sent twice, and the calls whose bill is outstanding never exceed the limit
    of the run, whatever other workers do to the same ledger; and a stream never
    mixes the output of two attempts.

    Others are described by what they may do to the shared world ([others_fair]):
    keep its invariant and move holds forward ([world_le]).  The gateway keeps
    the same contract, so any number of gateways can run side by side. *)

From stdpp Require Import base gmap list strings relations.
From Stdlib Require Import ZArith NArith Lia.
From S2P Require Import Prelude.
From S2P Require Import RunBudgetLedger.
From S2P Require Import LedgerSpec.
From S2P Require Import LedgerTheory.
From S2P Require Import LedgerProperties.
From S2P Require Import Json.
From S2P Require Import JsonTheory.
From S2P Require Import Rbac.
From S2P Require Import TurnTranscript.
From S2P Require Import RunUsage.
From S2P Require Import ContextMetadata.
From S2P Require Import ModelProfiles.
From S2P Require Import ModelGateway.

Local Open Scope Z_scope.

(** ** Holds only move forward *)

Record hold_le (h h' : Hold) : Prop := {
  hl_terms : (h_amount h', h_currency h', h_kind h') = (h_amount h, h_currency h, h_kind h);
  hl_phase : match h_phase h with
             | Held false => True
             | Held true => h_phase h' ≠ Held false
             | Billed z b => h_phase h' = Billed z b
             end
}.
#[global] Instance hold_le_refl : Reflexive hold_le.
Proof. intros h. split; [done|]. by destruct (h_phase h) as [[]|]. Qed.
#[global] Instance hold_le_trans : Transitive hold_le.
Proof.
  intros a b c [H1 H2] [H3 H4]. split; [congruence|].
  destruct (h_phase a) as [[]|]; [|done|]; destruct (h_phase b) as [[]|]; try done; congruence.
Qed.

Definition holds (db : Db) : gmap ((N * N) * list N) Hold := al_holds (abs db).
Definition holds_le (m m' : gmap ((N * N) * list N) Hold) : Prop :=
  ∀ k h, m !! k = Some h → ∃ h', m' !! k = Some h' ∧ hold_le h h'.
#[global] Instance holds_le_refl : Reflexive holds_le.
Proof. intros m k h Hk. by exists h. Qed.
#[global] Instance holds_le_trans : Transitive holds_le.
Proof.
  intros a b c H1 H2 k h Hk. destruct (H1 k h Hk) as (h1 & Hk1 & ?).
  destruct (H2 k h1 Hk1) as (h2 & ? & ?). exists h2. split; [done|]. by etrans.
Qed.

Lemma holds_le_insert m k h' :
  (∀ h, m !! k = Some h → hold_le h h') → holds_le m (<[k := h']> m).
Proof.
  intros Hle j h Hj. destruct (decide (j = k)) as [->|Hne].
  - exists h'. rewrite lookup_insert_eq. auto.
  - exists h. by rewrite lookup_insert_ne.
Qed.

Lemma spec_holds_le sc op al : holds_le (al_holds al) (al_holds (snd (spec_op sc op al))).
Proof.
  assert (∀ (chk : L unit) k, holds_le (al_holds al) (al_holds (snd k)) →
    holds_le (al_holds al) (al_holds (snd
      match pure_error chk with Some e => (verdict_of (Raise e), al) | None => k end))) as Hg.
  { intros chk k Hk. by destruct (pure_error chk). }
  destruct op; cbn [spec_op]; apply Hg.
  - unfold spec_create. repeat case_match; cbn; reflexivity.
  - unfold spec_reserve. repeat case_match; cbn; try reflexivity.
    apply holds_le_insert. intros h Hh. congruence.
  - unfold spec_mark. repeat case_match; cbn; try reflexivity.
    apply holds_le_insert. intros h1 ?. simplify_eq. split; [done|].
    match goal with Hp : h_phase _ = _ |- _ => rewrite Hp end. by case_match.
  - case_match; [apply Hg|reflexivity]. unfold spec_settle. repeat case_match; cbn; try reflexivity.
    apply holds_le_insert. intros h1 ?. simplify_eq. split; [done|].
    match goal with Hp : h_phase _ = _ |- _ => rewrite Hp end. by case_match.
Qed.

Lemma run_op_holds sc op db r db' :
  ledger_inv db → op_fresh op db → run_op sc op db = (r, db') →
  ledger_inv db' ∧ holds_le (holds db) (holds db').
Proof.
  intros Hinv Hf Hrun. destruct (run_op_sim sc op db Hinv Hf) as (r' & d & Hr & _ & Ha & Hi & _).
  rewrite Hrun in Hr. injection Hr as <- <-. split; [done|]. unfold holds. rewrite Ha.
  apply spec_holds_le.
Qed.

(** ** The adapter's transactions are ledger transactions *)

(** What [session_begin] did: nothing, or the whole body, committed. *)
Lemma session_begin_cases {A} sc f (m : M Db TxExn A) db r db' :
  session_begin sc f m db = (r, db') →
  (db' = db ∧ ∃ e, r = Raise e) ∨
  ∃ a, m db = (Return a, db') ∧
    negb (bool_decide (attempts db = attempts db')) && negb (run_budget_verify_account_totals db' sc)
    = false ∧ (r = Return a ∨ ∃ e, r = Raise e).
Proof.
  unfold session_begin, atomically. rewrite bind_run. cbn [get]. rewrite bind_run.
  destruct (m db) as [[a|e] db1] eqn:E.
  - rewrite bind_run. cbn [get]. rewrite bind_run, raise_if_cases. destruct (_ && _) eqn:Hc.
    + intros H. left. destruct f as [|[]|[]]; injection H as <- <-; eauto.
    + intros H. destruct f as [|[]|[]]; injection H as <- <-; eauto 8.
  - intros H. left. destruct f as [|[]|[]]; injection H as <- <-; eauto.
Qed.

(** Such a body committed is the corresponding operation of the ledger. *)
Lemma run_op_intro sc (m : L bool) (op : LedgerOp) db db' :
  run_op sc op = transaction sc m → m db = (Return true, db') →
  negb (bool_decide (attempts db = attempts db')) && negb (run_budget_verify_account_totals db' sc)
    = false →
  run_op sc op db = (Return true, db').
Proof.
  intros -> Hm Hc. unfold transaction, atomically. rewrite bind_run. cbn [get].
  rewrite bind_run, Hm, bind_run. cbn [get]. by rewrite bind_run, raise_if_cases, Hc.
Qed.

Lemma lift_ledger_inv {A} (m : L A) db a db' :
  lift_ledger m db = (Return a, db') → m db = (Return a, db').
Proof. unfold lift_ledger. by destruct (m db) as [[x|e] d]; intros [= <- <-]. Qed.

Lemma spec_reserve_granted sc i k u c al :
  fst (spec_reserve sc i k u c al) = Granted →
  al_holds al !! (sc, i) = None ∧
  al_holds (snd (spec_reserve sc i k u c al)) !! (sc, i) =
    Some (mkHold u c (kind_value k) (Held false)).
Proof.
  unfold spec_reserve. intros H. repeat case_match; try discriminate H. cbn.
  by rewrite lookup_insert_eq.
Qed.

Lemma reserve_op_granted sc id now i k a c db db' :
  ledger_inv db → map_Forall (λ _ x, att_id x ≠ id) (attempts db) →
  run_op sc (OpReserve id now i k a c CONSERVATIVE_MAXIMUM) db = (Return true, db') →
  holds db !! (sc, i) = None ∧
  ∃ u, _validate_amount a false db = (Return u, db) ∧
    holds db' !! (sc, i) = Some (mkHold u c (kind_value k) (Held false)).
Proof.
  intros Hinv Hf Hrun.
  destruct (run_op_sim sc (OpReserve id now i k a c CONSERVATIVE_MAXIMUM) db Hinv Hf)
    as (r & d & Hr & Hv & Ha & _).
  rewrite Hrun in Hr. injection Hr as <- <-. cbn [spec_op] in Hv, Ha.
  destruct (pure_error _) as [e|] eqn:Hchk; [destruct e; discriminate Hv|].
  rewrite bool_decide_true in Hv, Ha by done. symmetry in Hv.
  apply spec_reserve_granted in Hv as [Hn Hh]. rewrite <- Ha in Hh. split; [exact Hn|].
  apply (pure_error_None _ db) in Hchk. apply bind_inv in Hchk as ([] & s1 & H1 & Hchk).
  pose proof (pure_state _ _ _ _ H1). subst s1. apply bind_inv in Hchk as (u & s1 & Hu & _).
  pose proof (pure_state _ _ _ _ Hu). subst s1. exists u. split; [done|].
  rewrite (pure_value_run _ _ _ Hu) in Hh. exact Hh.
Qed.

Lemma mark_op_granted sc i db db' :
  ledger_inv db → run_op sc (OpMark i) db = (Return true, db') →
  ∃ h, holds db' !! (sc, i) = Some h ∧ h_phase h = Held true.
Proof.
  intros Hinv Hrun. destruct (run_op_sim sc (OpMark i) db Hinv I) as (r & d & Hr & Hv & Ha & _).
  rewrite Hrun in Hr. injection Hr as <- <-. cbn [spec_op] in Hv, Ha. unfold holds. rewrite Ha.
  destruct (pure_error _) as [e|]; [destruct e; discriminate Hv|].
  unfold spec_mark in *. repeat case_match; try discriminate Hv. cbn. rewrite lookup_insert_eq. eauto.
Qed.

(** ** The shared world *)

Abbreviation key := ((N * N) * list N)%type (only parsing).

Record world_ok (w : World) : Prop := {
  wo_ledger : ledger_inv (ledger w);
  wo_once : NoDup (dispatched w);
  wo_held : ∀ k, k ∈ dispatched w → is_Some (holds (ledger w) !! k)
}.
Record world_le (w w' : World) : Prop := {
  wl_holds : holds_le (holds (ledger w)) (holds (ledger w'));
  wl_log : ∀ k, k ∈ dispatched w → k ∈ dispatched w'
}.
#[global] Instance world_le_refl : Reflexive world_le.
Proof. intros w. split; [reflexivity|done]. Qed.
#[global] Instance world_le_trans : Transitive world_le.
Proof. intros a b c [? ?] [? ?]. split; [by etrans|auto]. Qed.

(** What is asked of everybody else who shares the ledger. *)
Definition fair (f : World → World) : Prop :=
  ∀ w, world_ok w → world_ok (f w) ∧ world_le w (f w).

Lemma world_ledger w db :
  world_ok w → ledger_inv db → holds_le (holds (ledger w)) (holds db) →
  let w' := {| ledger := db; dispatched := dispatched w |} in world_ok w' ∧ world_le w w'.
Proof.
  intros [H1 H2 H3] Hinv Hle. split; [|by split]. split; [done..|].
  intros k Hk. destruct (H3 k Hk) as [h Hh]. destruct (Hle k h Hh) as (h' & ? & _). by exists h'.
Qed.

(** Any ledger transaction of anybody is fair. *)
Lemma run_op_fair sc op (f : World → World) :
  (∀ w, op_fresh op (ledger w)) →
  (∀ w, f w = {| ledger := snd (run_op sc op (ledger w)); dispatched := dispatched w |}) → fair f.
Proof.
  intros Hf E w Hok. rewrite E. destruct (run_op sc op (ledger w)) as [r db'] eqn:Hrun.
  destruct (run_op_holds sc op (ledger w) r db' (wo_ledger w Hok) (Hf w) Hrun).
  by apply world_ledger.
Qed.

(** *** Exposure: provider calls whose bill is outstanding *)

(** The reserved maximum of every call sent under [sc] that is not billed yet. *)
Definition exposure (w : World) (sc : N * N) : Z :=
  foldr (λ k acc, (match attempts (ledger w) !! k with
                   | Some a => in_scope sc open_amount k a | None => 0 end) + acc) 0 (dispatched w).

Lemma sum_list_le `{Countable K} {A} (f : K → A → Z) (m : gmap K A) (l : list K) :
  NoDup l → (∀ k a, m !! k = Some a → 0 ≤ f k a) →
  foldr (λ k acc, (match m !! k with Some a => f k a | None => 0 end) + acc) 0 l ≤ sum_map f m.
Proof.
  intros Hnd. revert m. induction Hnd as [|k l Hk _ IH]; intros m Hf; cbn.
  - by apply sum_map_nonneg.
  - assert (foldr (λ k acc, (match m !! k with Some a => f k a | None => 0 end) + acc) 0 l
      = foldr (λ j acc, (match delete k m !! j with Some a => f j a | None => 0 end) + acc) 0 l) as ->.
    { clear IH Hf. induction l as [|j l IH]; cbn; [done|].
      rewrite lookup_delete_ne by (intros ->; apply Hk; by left).
      rewrite IH; [done|]. intros ?. apply Hk. by right. }
    specialize (IH (delete k m)). destruct (m !! k) as [a|] eqn:E.
    + rewrite (sum_map_delete f m k a E). enough (0 + sum_map f (delete k m) ≤ sum_map f (delete k m));
        [|lia]. pose proof (IH (λ j b Hj, Hf j b (proj2 (proj1 (lookup_delete_Some m k j b) Hj)))). lia.
    + rewrite delete_id in IH by done. pose proof (IH Hf). rewrite delete_id by done. lia.
Qed.

Lemma exposure_within_limit w sc acc :
  world_ok w → accounts (ledger w) !! sc = Some acc → exposure w sc ≤ limit_amount acc.
Proof.
  intros [Hinv Hnd _] Hacc. destruct (inv_totals _ Hinv sc acc Hacc) as [Hr _].
  pose proof (proj1 (account_ok_iff acc) (inv_account_ok _ Hinv sc acc Hacc)) as Hok.
  transitivity (expected_reserved (ledger w) sc); [|lia].
  apply (sum_list_le (in_scope sc open_amount)); [done|].
  intros [sc' i] a Ha. unfold in_scope. case_bool_decide; [|lia].
  eapply open_amount_nonneg, inv_attempt_ok; eauto.
Qed.

(** ** Handing out events *)

(** Events are handed out in order; closing the generator is the only way to
    stop early. *)
Lemma yield_all_run l s r s' :
  yield_all l s = (r, s') →
  ∃ n k, s' = set_output (yielded s ++ take k l) n s ∧
    match r with Return _ => take k l = l | Raise e => e = GeneratorExit end.
Proof.
  revert s. induction l as [|e l IH]; intros s; cbn [yield_all].
  - intros [= <- <-]. exists (patience s), 0%nat. rewrite app_nil_r. by destruct s.
  - rewrite bind_run. unfold yield. destruct (patience s) as [[|n]|] eqn:Hp.
    + intros [= <- <-]. exists (Some 0%nat), 1%nat. by rewrite firstn_cons, firstn_O.
    + intros (n' & k & -> & Hr)%IH. exists n', (S k). cbn. rewrite <- app_assoc. split; [done|].
      destruct r; [by f_equal|done].
    + intros (n' & k & -> & Hr)%IH. exists n', (S k). cbn. rewrite <- app_assoc. split; [done|].
      destruct r; [by f_equal|done].
Qed.

(** ** One call under a budget *)

Section Budgeted.
Context (b : Binding).
Context (price_source : ResolvedModelProfile → ModelRequest → list N → ModelAttemptKind.t → Db →
                        option (option AttemptCostUpperBound)).
Context (uuid4 : Db → N) (now : nat → nat → Z).
Context (reserve_fault : nat → nat → tx_fault) (mark_fault : bool → nat → nat → tx_fault).
Context (complete : nat → nat → outcome GatewayExn ModelResponse).
Context (stream_events : nat → nat → list ModelStreamEvent * option GatewayExn).
Context (context : WorkspaceExecutionContext) (request : ModelRequest).
Context (credentials : option (gmap N ProviderCredential)).
Context (get_provider_credential : N → outcome GatewayExn (option ProviderCredential)).
(** [uuid4()] never repeats the id of a row. *)
Context (Huuid : ∀ db, map_Forall (λ _ x, att_id x ≠ uuid4 db) (attempts db)).
Context (o : operation).
(** Did the provider answer this attempt? *)
Context (answered : nat → nat → Prop).
(** Profiles of the chain, attempts per profile. *)
Context (profiles_n attempts_n : nat).

Definition slot (x : nat * nat) : key := (scope b, attempt_identity b o x.1 x.2).
Definition slot_of (r : Reservation) : key :=
  ((rv_workspace_id r, rv_run_id r), rv_attempt_identity r).

(** The hold under [k] is no longer an open question: unknown, or billed. *)
Definition recorded (k : key) (w : World) : Prop :=
  ∃ h, holds (ledger w) !! k = Some h ∧ h_phase h ≠ Held false.

Lemma recorded_le k w w' : world_le w w' → recorded k w → recorded k w'.
Proof using.
  intros [Hle _] (h & Hh & Hp). destruct (Hle k h Hh) as (h' & Hh' & [_ Hph]). exists h'.
  split; [done|]. destruct (h_phase h) as [[]|]; try done. congruence.
Qed.

(** Kind and hold of an attempt that was sent. *)
Definition covered (x : nat * nat) (w : World) : Prop :=
  slot x ∈ dispatched w ∧
  ∃ h, holds (ledger w) !! slot x = Some h ∧
    h_kind h = kind_value (ledger_kind (_attempt_kind x.1 x.2)).

Lemma covered_le x w w' : world_le w w' → covered x w → covered x w'.
Proof using.
  intros [Hle Hlog] (Hd & h & Hh & Hk). split; [auto|].
  destruct (Hle _ h Hh) as (h' & Hh' & [Ht _]). exists h'. split; [done|]. congruence.
Qed.

Definition is_active (x : nat * nat) (s : Call) : Prop :=
  ∃ r, active s = Some r ∧ slot_of r = slot x.

Record ok (w0 : World) (s : Call) : Prop := {
  ok_world : world_ok (world s);
  ok_le : world_le w0 (world s);
  ok_coming : Forall fair (coming s);
  ok_active : ∀ r, active s = Some r → (rv_workspace_id r, rv_run_id r) = scope b;
  ok_covered : ∀ x, x ∈ sent s → covered x (world s) ∧ slot x ∉ dispatched w0;
  ok_once : NoDup (slot <$> sent s);
  ok_bounds : ∀ x, x ∈ sent s → (x.1 < profiles_n ∧ x.2 < attempts_n)%nat;
  ok_settled : ∀ x, x ∈ sent s →
    answered x.1 x.2 ∨ recorded (slot x) (world s) ∨ is_active x s
}.

(** The world moved on. *)
Lemma ok_world_le w0 s w :
  ok w0 s → world_ok w → world_le (world s) w → ok w0 (set_world w s).
Proof using.
  intros [H1 H2 H3 H4 H5 H6 H7 H8] Hok Hle. split; cbn; try done.
  - by etrans.
  - intros x Hx. destruct (H5 x Hx). split; [by eapply covered_le|done].
  - intros x Hx. destruct (H8 x Hx) as [?|[?|?]]; [by left|right; left; by eapply recorded_le|by do 2 right].
Qed.

Definition at_ (w0 : World) (A : option Reservation) (S : list (nat * nat)) (s : Call) : Prop :=
  ok w0 s ∧ active s = A ∧ sent s = S.
(** What a failed transaction raises. *)
Definition fault (e : GatewayExn) : Prop :=
  e = CancelledError ∨ ∃ c, e = ModelAttemptBudgetError c.

Lemma adapter_fault code e : fault (adapter_exn code e).
Proof using. unfold fault. destruct e as [[]| | |]; cbn; eauto. Qed.

Lemma hoare_tx {A} w0 R S code (m : M Db TxExn A) (F : A → Db → Db → Prop) :
  (∀ db r db', ledger_inv db → m db = (r, db') →
     ledger_inv db' ∧ holds_le (holds db) (holds db') ∧ ∀ a, r = Return a → F a db db') →
  hoare (at_ w0 R S) (tx code m)
    (λ a s, at_ w0 R S s ∧ ∃ w, world_ok w ∧ dispatched w = dispatched (world s) ∧
                             F a (ledger w) (ledger (world s)))
    (λ e s, at_ w0 R S s ∧ fault e).
Proof using.
  intros Hm. apply (hoare_bind _ _ _ (λ _, at_ w0 R S)).
  - intros s r s' (Hok & HA & HS). unfold await. destruct (coming s) as [|f rest] eqn:Ec;
      intros [= <- <-]; [done|].
    pose proof (ok_coming _ _ Hok) as Hfair. rewrite Ec in Hfair.
    apply Forall_cons in Hfair as [Hf Hrest].
    destruct (Hf (world s) (ok_world _ _ Hok)) as [Hw Hle].
    destruct (ok_world_le w0 s (f (world s)) Hok Hw Hle). by split.
  - intros [] s r s' (Hok & HA & HS). unfold in_ledger.
    destruct (m (ledger (world s))) as [r0 db] eqn:E.
    destruct (Hm _ _ _ (wo_ledger _ (ok_world _ _ Hok)) E) as (Hinv & Hle & HF).
    destruct (world_ledger (world s) db (ok_world _ _ Hok) Hinv Hle) as [Hw Hwle].
    pose proof (ok_world_le w0 s _ Hok Hw Hwle) as Hok'.
    destruct r0 as [a|e]; intros [= <- <-].
    + split; [by split|]. exists (world s). split; [apply Hok|]. split; [done|]. by apply HF.
    + split; [by split|]. apply adapter_fault.
Qed.

Lemma reserve_body_spec profile provider p a db r db' :
  ledger_inv db →
  session_begin (scope b) (reserve_fault p a)
    (reserve_body price_source uuid4 now request b profile provider o p a (_attempt_kind p a)) db
  = (r, db') →
  ledger_inv db' ∧ holds_le (holds db) (holds db') ∧
  ∀ q, r = Return q → holds db !! slot (p, a) = None ∧
    ∃ h, holds db' !! slot (p, a) = Some h ∧
      h_kind h = kind_value (ledger_kind (_attempt_kind p a)).
Proof using Huuid.
  intros Hinv [[-> [e ->]]|(q & Hm & Hc & Hr)]%session_begin_cases; [done|].
  unfold reserve_body in Hm. rewrite bind_run in Hm. cbn [get] in Hm.
  destruct (price_source _ _ _ _ _) as [[q'|]|]; try discriminate Hm.
  apply bind_inv in Hm as (rv & db1 & Hrv%lift_ledger_inv & Hm).
  apply bind_inv in Hm as ([] & db2 & [Hcr ->]%raise_if_inv & Hm). injection Hm as -> ->.
  apply negb_false_iff in Hcr.
  assert (run_op (scope b) (OpReserve (uuid4 db) (now p a) (attempt_identity b o p a)
    (ledger_kind (_attempt_kind p a)) (ub_amount q) (ub_currency q) CONSERVATIVE_MAXIMUM) db
    = (Return true, db')) as Hop.
  { eapply run_op_intro; [reflexivity| |exact Hc]. rewrite bind_run, Hrv. cbn. by rewrite Hcr. }
  destruct (run_op_holds _ (OpReserve _ _ _ _ _ _ _) _ _ _ Hinv (Huuid db) Hop) as [Hinv' Hle].
  destruct (reserve_op_granted _ _ _ _ _ _ _ _ _ Hinv (Huuid db) Hop) as (Hn & u & _ & Hh).
  split; [done|]. split; [done|]. intros _ _. split; [done|]. eauto.
Qed.

Lemma mark_body_spec f i db r db' :
  ledger_inv db →
  session_begin (scope b) f (lift_ledger (mark_unknown_outcome (scope b) i);; mret tt) db = (r, db') →
  ledger_inv db' ∧ holds_le (holds db) (holds db') ∧
  ∀ u, r = Return u → ∃ h, holds db' !! (scope b, i) = Some h ∧ h_phase h = Held true.
Proof using.
  intros Hinv [[-> [e ->]]|(q & Hm & Hc & Hr)]%session_begin_cases; [done|].
  apply bind_inv in Hm as (x & db1 & Hx%lift_ledger_inv & Hm). injection Hm as _ ->.
  assert (run_op (scope b) (OpMark i) db = (Return true, db')) as Hop.
  { eapply run_op_intro; [reflexivity| |exact Hc]. by rewrite bind_run, Hx. }
  destruct (run_op_holds _ (OpMark _) _ _ _ Hinv I Hop) as [Hinv' Hle].
  split; [done|]. split; [done|]. intros _ _. exact (mark_op_granted _ _ _ _ Hinv Hop).
Qed.

Lemma slot_inj s x y :
  NoDup (slot <$> sent s) → x ∈ sent s → y ∈ sent s → slot x = slot y → x = y.
Proof using.
  induction (sent s) as [|z l IH]; cbn; [by intros _ ?%not_elem_of_nil|].
  intros [Hz Hnd]%NoDup_cons. rewrite !elem_of_cons. intros [->|Hx] [->|Hy] Heq; try done.
  - destruct Hz. rewrite Heq. by apply list_elem_of_fmap_2.
  - destruct Hz. rewrite <- Heq. by apply list_elem_of_fmap_2.
  - auto.
Qed.

(** Taking up a reservation, and letting go of one. *)
Lemma ok_set_active w0 s r :
  ok w0 s → active s = None → (rv_workspace_id r, rv_run_id r) = scope b →
  ok w0 (set_active (Some r) s).
Proof using.
  intros [H1 H2 H3 H4 H5 H6 H7 H8] Hn Hr. split; cbn; try done.
  - by intros ? [= <-].
  - intros x Hx. destruct (H8 x Hx) as [?|[?|(r' & ? & _)]]; [by left|by right; left|congruence].
Qed.

Lemma ok_clear w0 s :
  ok w0 s →
  (∀ x, x ∈ sent s → is_active x s → answered x.1 x.2 ∨ recorded (slot x) (world s)) →
  ok w0 (set_active None s).
Proof using.
  intros [H1 H2 H3 H4 H5 H6 H7 H8] Hx. split; cbn; try done.
  intros x Hin. destruct (H8 x Hin) as [?|[?|Ha]]; [by left|by right; left|].
  destruct (Hx x Hin Ha); [by left|by right; left].
Qed.

Lemma ok_dispatch w0 s r p a :
  ok w0 s → active s = Some r → slot_of r = slot (p, a) → slot (p, a) ∉ dispatched (world s) →
  (∃ h, holds (ledger (world s)) !! slot (p, a) = Some h ∧
     h_kind h = kind_value (ledger_kind (_attempt_kind p a))) →
  (p < profiles_n)%nat → (a < attempts_n)%nat →
  ok w0 (set_sent (sent s ++ [(p, a)])
    (set_world {| ledger := ledger (world s); dispatched := dispatched (world s) ++ [slot_of r] |} s)).
Proof using.
  intros Hok Hr Hslot Hnew (h & Hh & Hk) Hp Ha. rewrite Hslot.
  set (w := {| ledger := _; dispatched := _ |}).
  assert (world_ok w ∧ world_le (world s) w) as [Hw Hle].
  { destruct (ok_world _ _ Hok) as [H1 H2 H3]. split; split; cbn; try done.
    - apply NoDup_app. split; [done|]. split; [|apply NoDup_singleton].
      intros k Hin ->%list_elem_of_singleton. done.
    - intros k [Hin| ->%list_elem_of_singleton]%elem_of_app; eauto.
    - intros k Hin. apply elem_of_app. by left. }
  pose proof (ok_world_le w0 s w Hok Hw Hle) as [H1 H2 H3 H4 H5 H6 H7 H8]. cbn in *.
  assert (slot (p, a) ∉ dispatched w0) as Hold.
  { intros Hin. apply Hnew, (wl_log _ _ (ok_le _ _ Hok)), Hin. }
  split; cbn; try done.
  - intros x [Hx| ->%list_elem_of_singleton]%elem_of_app; [auto|]. split; [|done].
    split; [apply elem_of_app; right; by apply list_elem_of_singleton|]. eauto.
  - rewrite fmap_app. apply NoDup_app. split; [done|]. split; [|apply NoDup_singleton].
    intros k (x & -> & Hx)%list_elem_of_fmap Heq%list_elem_of_singleton.
    apply Hnew. rewrite <- Heq. apply (ok_covered _ _ Hok x Hx).
  - intros x [Hx| ->%list_elem_of_singleton]%elem_of_app; [auto|]. by cbn.
  - intros x [Hx| ->%list_elem_of_singleton]%elem_of_app; [auto|].
    do 2 right. by exists r.
Qed.

Lemma hoare_raise_if_at {P : Call → Prop} c e (Q : GatewayExn → Call → Prop) :
  (∀ s, P s → Q e s) → hoare P (raise_if c e) (λ _, P) Q.
Proof using. intros H. apply hoare_raise_if; auto. Qed.

Lemma begin_attempt_ok w0 S profile provider p a :
  (p < profiles_n)%nat → (a < attempts_n)%nat →
  hoare (at_ w0 None S)
    (begin_attempt (Some b) price_source uuid4 now reserve_fault context request o profile provider p a)
    (λ _ s, ok w0 s ∧ is_active (p, a) s ∧ sent s = S ++ [(p, a)]) (λ _ s, ok w0 s).
Proof using Huuid.
  intros Hp Ha. set (fresh := λ (v : Reservation) (s : Call),
    at_ w0 None S s ∧ (rv_workspace_id v, rv_run_id v) = scope b ∧ slot_of v = slot (p, a) ∧
    (slot (p, a) ∉ dispatched (world s)) ∧
    ∃ h, holds (ledger (world s)) !! slot (p, a) = Some h ∧
      h_kind h = kind_value (ledger_kind (_attempt_kind p a))).
  apply (hoare_bind _ _ _ (λ r s, ∃ v, r = Some v ∧ fresh v s)).
  - cbn [_reserve_attempt]. apply (hoare_bind _ _ _ fresh);
      [|by intros v s r s' Hv [= <- <-]; exists v].
    unfold reserve_attempt, _validate_context.
    do 3 (eapply hoare_bind; [apply hoare_raise_if_at; by intros s []|intros []]).
    eapply hoare_bind.
    { eapply hoare_conseq; [apply hoare_tx; intros db r db'; apply reserve_body_spec|done| |].
      - intros q s H. exact H.
      - by intros e s [[] _]. }
    intros q s r s' (Hat & w & Hw & Hlog & Hn & Hh) [= <- <-].
    split; [done|]. split; [done|]. split; [done|]. split; [|done].
    rewrite <- Hlog. intros Hin. destruct (wo_held _ Hw _ Hin) as [h Hheld]. congruence.
  - intros v0 s r s' (v & -> & (Hok & Hn & HS) & Hsc & Hslot & Hnew & Hh).
    rewrite bind_run. cbn [modify]. unfold dispatch. cbn [modify active set_active].
    intros [= <- <-]. pose proof (ok_set_active w0 s v Hok Hn Hsc) as Hok1.
    pose proof (ok_dispatch w0 _ v p a Hok1 eq_refl Hslot Hnew Hh Hp Ha) as Hok2.
    split; [exact Hok2|]. split; [by exists v|]. cbn. by rewrite HS.
Qed.

Definition recorded_active (s : Call) : Prop :=
  ∀ r, active s = Some r → recorded (slot_of r) (world s).

Lemma mark_ok w0 S late p a R :
  hoare (at_ w0 R S) (_mark_unknown_outcome (Some b) mark_fault late p a R)
    (λ _ s, at_ w0 R S s ∧ recorded_active s) (λ e s, at_ w0 R S s ∧ fault e).
Proof using.
  destruct R as [r|]; cbn [_mark_unknown_outcome].
  2: { intros s x s' Hat [= <- <-]. split; [done|]. intros r Hr. destruct Hat as (_ & ? & _). congruence. }
  apply (hoare_fact ((rv_workspace_id r, rv_run_id r) = scope b)).
  { intros s (Hok & Hr & _). exact (ok_active _ _ Hok r Hr). }
  intros Hsc. unfold mark_attempt. eapply hoare_bind.
  { apply (hoare_raise_if_at _ _ (λ e s, at_ w0 (Some r) S s ∧ fault e)).
    intros s Hat. split; [done|]. right. eauto. }
  intros []. rewrite Hsc. eapply hoare_conseq.
  - apply hoare_tx. intros db x db'. apply mark_body_spec.
  - done.
  - intros [] s (Hat & w & _ & _ & h & Hh & Hp). split; [done|]. intros r' Hr'.
    destruct Hat as (_ & Hr & _). rewrite Hr in Hr'. injection Hr' as <-.
    exists h. unfold slot_of. rewrite Hsc, Hp. done.
  - done.
Qed.

Lemma mark_active_ok w0 p a :
  hoare (ok w0) (mark_active (Some b) mark_fault p a)
    (λ _ s, ok w0 s ∧ recorded_active s) (λ e s, ok w0 s ∧ fault e).
Proof using.
  apply hoare_get. intros s0. eapply hoare_conseq; [apply (mark_ok w0 (sent s0) false p a (active s0))|..].
  - intros s [-> Hok]. done.
  - by intros _ s [[? _] ?].
  - by intros e s [[? _] ?].
Qed.

(** [mark; active_budget_reservation = None; k] *)
Lemma mark_and_clear {A} w0 p a (k : M Call GatewayExn A) Q :
  hoare (λ s, ok w0 s ∧ active s = None) k Q (λ _, ok w0) →
  hoare (ok w0) (mark_active (Some b) mark_fault p a;; clear_active;; k) Q (λ _, ok w0).
Proof using.
  intros Hk. apply (hoare_bind _ _ _ (λ _ s, ok w0 s ∧ recorded_active s)).
  { eapply hoare_conseq; [apply mark_active_ok|done|done|by intros e s []]. }
  intros []. apply (hoare_bind _ _ _ (λ _ s, ok w0 s ∧ active s = None)); [|by intros []].
  apply hoare_modify. intros s [Hok Hrec]. split; [|done]. apply ok_clear; [done|].
  intros x _ (v & Hv & <-). right. by apply Hrec.
Qed.

(** The current attempt, which holds the active reservation. *)
Definition running (w0 : World) (p a : nat) (s : Call) : Prop :=
  ok w0 s ∧ is_active (p, a) s ∧ (p, a) ∈ sent s.

(** The response arrived: [active_budget_reservation = None]. *)
Lemma clear_answered w0 p a s : answered p a → running w0 p a s → ok w0 (set_active None s).
Proof using.
  intros Hans (Hok & (r & Hr & Hs) & Hin). apply ok_clear; [done|].
  intros x Hx (r' & Hr' & Hs'). left.
  rewrite (slot_inj s x (p, a) (ok_once _ _ Hok) Hx Hin); [done|]. congruence.
Qed.

(** ** The loops, for any way to make one attempt *)

Section Loops.
Context {A : Type} (try : nat → nat → M Call GatewayExn (A + Failure)) (w0 : World).
Hypothesis try_ok : ∀ p a,
  hoare (running w0 p a) (try p a) (λ _ s, ok w0 s ∧ active s = None) (λ _ s, ok w0 s).

Lemma attempts_ok profile provider p a n last :
  (p < profiles_n)%nat → (a + n ≤ attempts_n)%nat →
  hoare (λ s, ok w0 s ∧ active s = None)
    (attempts_from (Some b) price_source uuid4 now reserve_fault context request o try profile
       provider p a n last)
    (λ _ s, ok w0 s ∧ active s = None) (λ _ s, ok w0 s).
Proof using Huuid try_ok.
  intros Hp. revert a last. induction n as [|n IH]; intros a last Ha; cbn [attempts_from].
  - by apply hoare_ret.
  - apply (hoare_bind _ _ _ (λ _, running w0 p a)).
    { intros s r s' [Hok Hn] E.
      pose proof (begin_attempt_ok w0 (sent s) profile provider p a Hp ltac:(lia) s r s') as H.
      specialize (H (conj Hok (conj Hn eq_refl)) E). destruct r; [|done].
      destruct H as (? & ? & Hs). split; [done|]. split; [done|]. rewrite Hs.
      apply elem_of_app. right. by apply list_elem_of_singleton. }
    intros []. eapply hoare_bind; [apply try_ok|]. intros [response|e]; [by apply hoare_ret|].
    destruct (_ || _); [by apply hoare_ret|]. apply IH. lia.
Qed.

Lemma credential_ok profile P :
  hoare P (credential_of credentials get_provider_credential profile) (λ _, P) (λ _, P).
Proof using.
  unfold credential_of, _enabled_credential.
  repeat case_match; intros s r s' HP [= <- <-]; exact HP.
Qed.

Lemma profiles_ok p chain last :
  (p + length chain ≤ profiles_n)%nat → (rq_max_attempts request ≤ attempts_n)%nat →
  hoare (λ s, ok w0 s ∧ active s = None)
    (profiles_from (Some b) price_source uuid4 now reserve_fault context request credentials
       get_provider_credential o try p chain last)
    (λ _ s, ok w0 s ∧ active s = None) (λ _ s, ok w0 s).
Proof using Huuid try_ok.
  intros Hp Ha. revert p last Hp. induction chain as [|profile rest IH]; intros p last Hp;
    cbn [profiles_from].
  - destruct last; intros s r s' [Hok _] [= <- <-]; exact Hok.
  - cbn in Hp. apply (hoare_bind _ _ _ (λ _ s, ok w0 s ∧ active s = None)).
    { eapply hoare_conseq; [apply (credential_ok profile (λ s, ok w0 s ∧ active s = None))|..];
        [done|done|by intros ? s []]. }
    intros credential. eapply hoare_bind; [apply attempts_ok; lia|].
    intros [response|last']; [by apply hoare_ret|]. apply IH. lia.
Qed.
End Loops.

(** Every attempt was answered or is recorded as unknown or billed. *)
Definition settled (s : Call) : Prop :=
  ∀ x, x ∈ sent s → answered x.1 x.2 ∨ recorded (slot x) (world s).

Definition reported (e : GatewayExn) (s : Call) : Prop :=
  match e with
  | ModelGatewayError _ _ => settled s
  | ModelAttemptBudgetError _ | CancelledError | GeneratorExit => True
  | TimeoutError | OtherException => False
  end.

Lemma settled_recorded w0 s : ok w0 s → recorded_active s → settled s.
Proof using.
  intros Hok Hrec x Hx. destruct (ok_settled _ _ Hok x Hx) as [?|[?|(r & Hr & <-)]]; auto.
Qed.
Lemma settled_idle w0 s : ok w0 s → active s = None → settled s.
Proof using. intros Hok Hn. apply (settled_recorded w0 s Hok). intros r Hr. congruence. Qed.

Lemma fault_reported e s : fault e → reported e s.
Proof using. by intros [->|[c ->]]. Qed.

(** The handlers that record the outcome and then raise a gateway error. *)
Lemma mark_then_raise {A} w0 p a R S e :
  (∀ s, settled s → reported e s) →
  hoare (at_ w0 R S) (_mark_unknown_outcome (Some b) mark_fault true p a R;; raise e)
    (λ (_ : A) s, ok w0 s ∧ active s = None) (λ e s, ok w0 s ∧ reported e s).
Proof using.
  intros He. apply (hoare_bind _ _ _ (λ _ s, at_ w0 R S s ∧ recorded_active s)).
  - eapply hoare_conseq; [apply mark_ok|done|done|].
    intros e' s [[? _] Hf]. split; [done|]. by apply fault_reported.
  - intros [] s r s' [[Hok _] Hrec] [= <- <-]. split; [done|]. apply He.
    by eapply settled_recorded.
Qed.

Lemma cancelled_then_raise {A} w0 p a R S e :
  (∀ s, reported e s) →
  hoare (at_ w0 R S) (_mark_cancelled_unknown_outcome (Some b) mark_fault p a R;; raise e)
    (λ (_ : A) s, ok w0 s ∧ active s = None) (λ e s, ok w0 s ∧ reported e s).
Proof using.
  intros He. apply (hoare_bind _ _ _ (λ _, ok w0)).
  - unfold _mark_cancelled_unknown_outcome. eapply hoare_catch.
    + eapply hoare_conseq; [apply mark_ok|done|by intros [] s [[? _] _]|].
      instantiate (1 := λ _, ok w0). by intros e' s [[? _] _].
    + intros e' s r s' Hok E. destruct e'; injection E as <- <-; done.
  - intros [] s r s' Hok [= <- <-]. split; [done|]. apply He.
Qed.

Lemma guarded_ok {A} w0 (m : M Call GatewayExn A) :
  hoare (λ s, ok w0 s ∧ active s = None) m (λ _ s, ok w0 s ∧ active s = None) (λ _ s, ok w0 s) →
  hoare (λ s, ok w0 s ∧ active s = None) (guarded (Some b) mark_fault m)
    (λ _ s, ok w0 s ∧ settled s) (λ e s, ok w0 s ∧ reported e s).
Proof using.
  intros Hm. apply (hoare_conseq (λ s, ok w0 s ∧ active s = None) _ _
    (λ _ s, ok w0 s ∧ active s = None) _ (λ e s, ok w0 s ∧ reported e s) _); try done.
  2: { intros a s [? ?]. split; [done|by eapply settled_idle]. }
  unfold guarded. eapply hoare_catch; [exact Hm|]. intros e. apply hoare_get. intros s0.
  destruct (current s0) as [p a].
  apply (hoare_pre (at_ w0 (active s0) (sent s0))); [|by intros s [-> Hok]].
  destruct e; try (by apply mark_then_raise); try (by apply cancelled_then_raise).
  intros s r s' [Hok _] [= <- <-]. done.
Qed.

(** ** One attempt *)

(** While a stream runs: its attempt is active, or answered and let go. *)
Definition working (w0 : World) (p a : nat) (s : Call) : Prop :=
  ok w0 s ∧ (p, a) ∈ sent s ∧ (active s = None ∨ is_active (p, a) s) ∧
  (is_Some (final_response s) → active s = None).

Lemma working_clear w0 p a s :
  answered p a → working w0 p a s → working w0 p a (set_active None s).
Proof using.
  intros Hans (Hok & Hin & Hact & _). split; [|split; [done|split; [by left|done]]].
  destruct Hact as [Hn|Ha]; [|by apply (clear_answered w0 p a)].
  apply ok_clear; [done|]. intros x _ (r & Hr & _). congruence.
Qed.

Lemma try_generate_ok w0 p a :
  (∀ r, complete p a = Return r → answered p a) →
  hoare (running w0 p a) (try_generate (Some b) mark_fault complete p a)
    (λ _ s, ok w0 s ∧ active s = None) (λ _ s, ok w0 s).
Proof using.
  intros Hans. unfold try_generate. apply (hoare_catch _ _ _ _ (λ _, ok w0)).
  - destruct (complete p a) as [response|e]; [|apply hoare_raise; by intros s []].
    specialize (Hans response eq_refl).
    apply (hoare_bind _ _ _ (λ _ s, ok w0 s ∧ active s = None)).
    { apply hoare_modify. intros s Hrun. split; [by apply (clear_answered w0 p a)|done]. }
    intros []. eapply hoare_bind; [apply hoare_raise_if_at; by intros s []|].
    intros []. by apply hoare_ret.
  - intros []; try (apply mark_and_clear; first [by apply hoare_ret|apply hoare_raise; by intros s []]);
      by apply hoare_raise.
Qed.

(** The stream's own variables do not matter here. *)
Lemma ok_same w0 s s' :
  world s' = world s → coming s' = coming s → active s' = active s → sent s' = sent s →
  ok w0 s → ok w0 s'.
Proof using.
  intros Hw Hc Ha Hs [H1 H2 H3 H4 H5 H6 H7 H8].
  split; rewrite ?Hw, ?Hc, ?Ha, ?Hs; try done.
  intros x Hx. destruct (H8 x Hx) as [?|[?|(r & ? & ?)]]; [by left|by right; left|].
  do 2 right. exists r. by rewrite Ha.
Qed.
Lemma working_same w0 p a s s' :
  world s' = world s → coming s' = coming s → active s' = active s → sent s' = sent s →
  (is_Some (final_response s') → active s = None) → working w0 p a s → working w0 p a s'.
Proof using.
  intros Hw Hc Ha Hs Hf (Hok & Hin & Hact & _). split; [by eapply ok_same|]. rewrite Hs, Ha.
  split; [done|]. split; [|done]. destruct Hact as [?|(r & ? & ?)]; [by left|right].
  exists r. by rewrite Ha.
Qed.

Lemma yield_all_working w0 p a l :
  hoare (working w0 p a) (yield_all l) (λ _, working w0 p a) (λ _, working w0 p a).
Proof using.
  intros s r s' Hw (n & k & -> & _)%yield_all_run.
  assert (working w0 p a (set_output (yielded s ++ take k l) n s)) as H
    by (eapply working_same; [..|exact Hw]; [done..|apply Hw]).
  by destruct r.
Qed.

Lemma modify_working w0 p a f :
  (∀ s, world (f s) = world s ∧ coming (f s) = coming s ∧ active (f s) = active s ∧
        sent (f s) = sent s ∧ final_response (f s) = final_response s) →
  hoare (working w0 p a) (modify f) (λ _, working w0 p a) (λ _ : GatewayExn, working w0 p a).
Proof using.
  intros Hf. apply hoare_modify. intros s Hw. destruct (Hf s) as (? & ? & ? & ? & Hfin).
  eapply working_same; [done..| |done]. rewrite Hfin. apply Hw.
Qed.

Lemma stream_event_working w0 p a e :
  (∀ r, e = COMPLETED r → answered p a) →
  hoare (working w0 p a) (stream_event e) (λ _, working w0 p a) (λ _, working w0 p a).
Proof using.
  intros Hans. unfold stream_event. apply (hoare_bind _ _ _ (λ _, working w0 p a)).
  - destruct e as [| | |r]; try (by apply hoare_ret).
    specialize (Hans r eq_refl). apply (hoare_bind _ _ _ (λ _ s, working w0 p a s ∧ active s = None)).
    { apply hoare_modify. intros s Hw. split; [by apply (working_clear _ _ _ _ Hans)|done]. }
    intros []. apply (hoare_bind _ _ _ (λ _, working w0 p a)).
    { apply hoare_modify. intros s [Hw Hn]. by eapply working_same; [..|exact Hw]. }
    intros [].
    by apply hoare_raise_if_at.
  - intros []. apply hoare_get. intros s0.
    apply (hoare_pre (working w0 p a)); [|by intros s []].
    assert (∀ x, hoare (working w0 p a) (yield x) (λ _, working w0 p a) (λ _, working w0 p a)) as Hy.
    { intros x. pose proof (yield_all_working w0 p a [x]) as H. intros s r s' Hw E.
      specialize (H s r s' Hw). cbn [yield_all] in H. rewrite bind_run, E in H.
      destruct r as [[]|]; by apply H. }
    destruct (is_delta e); [|destruct (visible s0); [apply Hy|by apply modify_working]].
    apply (hoare_bind _ _ _ (λ _, working w0 p a)); [by apply modify_working|]. intros [].
    apply (hoare_bind _ _ _ (λ _, working w0 p a)); [apply yield_all_working|]. intros [].
    apply (hoare_bind _ _ _ (λ _, working w0 p a)); [by apply modify_working|]. intros []. apply Hy.
Qed.

Lemma stream_loop_working w0 p a l :
  (∀ r, COMPLETED r ∈ l → answered p a) →
  hoare (working w0 p a) (stream_loop l) (λ _, working w0 p a) (λ _, working w0 p a).
Proof using.
  induction l as [|e l IH]; intros Hans; cbn [stream_loop]; [by apply hoare_ret|].
  apply (hoare_bind _ _ _ (λ _, working w0 p a)); [apply stream_event_working|].
  - intros r ->. apply (Hans r). by left.
  - intros []. apply IH. intros r Hr. apply (Hans r). by right.
Qed.

Lemma interrupted_ok w0 :
  hoare (λ s, ok w0 s ∧ active s = None) interrupted_if_visible
    (λ _ s, ok w0 s ∧ active s = None) (λ _, ok w0).
Proof using.
  apply hoare_get. intros s0. apply (hoare_pre (λ s, ok w0 s ∧ active s = None)); [|by intros s []].
  apply hoare_raise_if_at. by intros s [].
Qed.

Lemma try_stream_ok w0 p a :
  (∀ r, COMPLETED r ∈ (stream_events p a).1 → answered p a) →
  hoare (running w0 p a) (try_stream (Some b) mark_fault stream_events p a)
    (λ _ s, ok w0 s ∧ active s = None) (λ _ s, ok w0 s).
Proof using.
  intros Hans. unfold try_stream. apply (hoare_bind _ _ _ (λ _, working w0 p a)).
  { apply hoare_modify. intros s (Hok & Hact & Hin). split; [by eapply ok_same; [..|exact Hok]|].
    split; [done|]. split; [by right|]. by intros [? ?]. }
  intros []. apply (hoare_bind _ _ _ (λ out s, match out with
    | inl _ => working w0 p a s ∧ active s = None | inr _ => ok w0 s ∧ active s = None end)).
  - apply (hoare_catch _ _ _ _ (λ _, ok w0)).
    + destruct (stream_events p a) as [events ending]. cbn in Hans.
      apply (hoare_bind _ _ _ (λ _, working w0 p a)).
      { eapply hoare_conseq; [by apply stream_loop_working|done|done|by intros e s []]. }
      intros []. destruct ending; [apply hoare_raise; by intros s []|].
      apply hoare_get. intros s0. destruct (final_response s0) eqn:Hf.
      * apply hoare_ret. intros s [-> Hw]. split; [done|]. apply Hw. by rewrite Hf.
      * apply hoare_raise. by intros s [-> []].
    + intros []; try (by apply hoare_raise); apply mark_and_clear;
        (apply (hoare_bind _ _ _ (λ _ s, ok w0 s ∧ active s = None));
         [apply interrupted_ok|intros []; by apply hoare_ret]).
  - intros [[]|e]; [|by apply hoare_ret]. apply hoare_get. intros s0.
    intros s r s' [-> [(Hok & _) Hn]] E. rewrite bind_run in E.
    destruct (yield_all (buffered s0) s0) as [[[]|e] s1] eqn:E1; injection E as <- <-;
      apply yield_all_run in E1 as (n & k & -> & _).
    + split; [by eapply ok_same; [..|exact Hok]|done].
    + by eapply ok_same; [..|exact Hok].
Qed.
End Budgeted.

Lemma grid_bound (l : list (nat * nat)) n m :
  NoDup l → (∀ x, x ∈ l → x.1 < n ∧ x.2 < m)%nat → (length l ≤ n * m)%nat.
Proof.
  intros Hnd Hl. transitivity (length (list_prod (seq 0 n) (seq 0 m)));
    [|by rewrite length_prod, !length_seq].
  apply List.NoDup_incl_length; [by apply NoDup_ListNoDup|].
  intros [p a] Hin%list_elem_of_In. destruct (Hl _ Hin). apply in_prod; apply in_seq; cbn in *; lia.
Qed.

Section Claims.
Context (b : Binding).
Context (price_source : ResolvedModelProfile → ModelRequest → list N → ModelAttemptKind.t → Db →
                        option (option AttemptCostUpperBound)).
Context (uuid4 : Db → N) (now : nat → nat → Z).
Context (reserve_fault : nat → nat → tx_fault) (mark_fault : bool → nat → nat → tx_fault).
Context (complete : nat → nat → outcome GatewayExn ModelResponse).
Context (stream_events : nat → nat → list ModelStreamEvent * option GatewayExn).
Context (context : WorkspaceExecutionContext) (request : ModelRequest).
Context (credentials : option (gmap N ProviderCredential)).
Context (get_provider_credential : N → outcome GatewayExn (option ProviderCredential)).

(** One call of the gateway on a prepared chain. *)
Definition gateway_call (o : operation) (chain : list ResolvedModelProfile) :
  M Call GatewayExn unit :=
  match o with
  | generate_op =>
      _generate_chain (Some b) price_source uuid4 now reserve_fault mark_fault complete context
        request credentials get_provider_credential chain;; mret tt
  | stream_op =>
      _stream (Some b) price_source uuid4 now reserve_fault mark_fault stream_events context
        request credentials get_provider_credential (inl chain)
  end.

(** The provider's response reached the gateway. *)
Definition was_answered (o : operation) (p a : nat) : Prop :=
  match o with
  | generate_op => ∃ r, complete p a = Return r
  | stream_op => ∃ r, COMPLETED r ∈ (stream_events p a).1
  end.

Lemma gateway_call_ok o chain w0 :
  (∀ db, map_Forall (λ _ x, att_id x ≠ uuid4 db) (attempts db)) →
  let inv := ok b o (was_answered o) (length chain) (rq_max_attempts request) w0 in
  hoare (λ s, inv s ∧ active s = None) (gateway_call o chain)
    (λ _ s, inv s ∧ settled b o (was_answered o) s)
    (λ e s, inv s ∧ reported b o (was_answered o) e s).
Proof.
  intros Huuid inv. destruct o; cbn [gateway_call].
  - eapply hoare_bind; [apply guarded_ok, profiles_ok; [done| |done|done]|].
    + intros p a. apply try_generate_ok. intros r Hr. by exists r.
    + intros resp. by apply hoare_ret.
  - apply guarded_ok. apply (hoare_bind _ _ _ (λ c s, c = chain ∧ inv s ∧ active s = None));
      [by apply hoare_ret|]. intros c. apply (hoare_fact (c = chain)); [by intros s []|].
    intros Hc. rewrite Hc.
    apply (hoare_pre (λ s, inv s ∧ active s = None)); [|by intros s []].
    apply profiles_ok; [done| |lia|done]. intros p a. apply try_stream_ok. intros r Hr. by exists r.
Qed.
End Claims.

(** C15. Provider calls stay inside the run's budget, whatever others do to the
    ledger in between and however transactions fail.  A gateway call keeps the
    shared ledger sound and only moves holds forward; every attempt it sends is
    covered by a hold of its own kind that was created for it and committed
    before; no attempt identity is sent twice, by this call or by any earlier
    one (a re-executed run is refused instead of paid twice), and there are at
    most [max_attempts] per profile; the reserved maxima of all calls sent and
    not yet billed never exceed the limit of the run's account.  When the call
    returns or reports a gateway error, every attempt the provider did not
    answer is recorded as unknown (or billed); any other failure is a refusal of
    the budget, a cancellation or a closed stream. *)
Theorem provider_calls_stay_in_budget b price_source uuid4 now reserve_fault mark_fault complete
    stream_events context request credentials get_provider_credential o chain s r s' :
  (∀ db, map_Forall (λ _ x, att_id x ≠ uuid4 db) (attempts db)) →
  world_ok (world s) → Forall fair (coming s) → active s = None → sent s = [] →
  gateway_call b price_source uuid4 now reserve_fault mark_fault complete stream_events context
    request credentials get_provider_credential o chain s = (r, s') →
  world_ok (world s') ∧ world_le (world s) (world s') ∧
  (∀ x, x ∈ sent s' → covered b o x (world s') ∧ slot b o x ∉ dispatched (world s)) ∧
  NoDup (slot b o <$> sent s') ∧
  (length (sent s') ≤ length chain * rq_max_attempts request)%nat ∧
  (∀ sc acc, accounts (ledger (world s')) !! sc = Some acc →
     exposure (world s') sc ≤ limit_amount acc) ∧
  match r with
  | Return _ | Raise (ModelGatewayError _ _) =>
      ∀ x, x ∈ sent s' →
        was_answered complete stream_events o x.1 x.2 ∨ recorded (slot b o x) (world s')
  | Raise (ModelAttemptBudgetError _) | Raise CancelledError | Raise GeneratorExit => True
  | Raise TimeoutError | Raise OtherException => False
  end.
Proof.
  intros Huuid Hw Hfair Hn Hsent E.
  set (inv := ok b o (was_answered complete stream_events o) (length chain) (rq_max_attempts request)
                (world s)).
  assert (inv s) as Hinv.
  { split; try done; rewrite ?Hsent; try (by intros ? ?%not_elem_of_nil); [congruence|constructor]. }
  pose proof (gateway_call_ok b price_source uuid4 now reserve_fault mark_fault complete
    stream_events context request credentials get_provider_credential o chain (world s) Huuid
    s r s' (conj Hinv Hn) E) as H.
  assert (inv s' ∧ match r with
    | Return _ => settled b o (was_answered complete stream_events o) s'
    | Raise e => reported b o (was_answered complete stream_events o) e s' end) as [Hok Hr]
    by (by destruct r).
  split; [apply Hok|]. split; [apply Hok|]. split; [apply Hok|]. split; [apply Hok|].
  split; [|split].
  - apply grid_bound; [|apply Hok]. apply (NoDup_fmap_1 (slot b o)), Hok.
  - intros sc acc. apply exposure_within_limit, Hok.
  - destruct r as [[]|[]]; exact Hr.
Qed.

(** ** Witness: a timeout, then an answer, under a limit of five dollars *)

(** One more than every id in use. *)
Definition next_uuid (db : Db) : N :=
  N.succ (map_fold (λ _ a m, N.max (att_id a) m) 0%N (attempts db)).

Lemma next_uuid_fresh db : map_Forall (λ _ x, att_id x ≠ next_uuid db) (attempts db).
Proof.
  assert (∀ m : gmap ((N * N) * list N) RunBudgetAttempt, map_Forall (λ _ x,
    att_id x ≤ map_fold (λ _ a m, N.max (att_id a) m) 0 m)%N m) as H.
  { induction m as [|k a m Hk IH] using map_ind; [apply map_Forall_empty|].
    rewrite map_fold_insert_L by (done || (intros; lia)).
    apply map_Forall_insert_2; [lia|]. eapply map_Forall_impl; [exact IH|]. cbn. intros. lia. }
  intros k x Hx. specialize (H _ k x Hx). cbn in H. unfold next_uuid. lia.
Qed.

Definition demo_binding : Binding :=
  {| workspace_id := 1; run_id := 2; call_identity := lit "round-1" |}.
Definition demo_response : ModelResponse :=
  {| rs_content := lit "hello"; rs_provider := lit "openai"; rs_model := lit "m";
     rs_tool_calls := []; rs_finish_reason := None; rs_usage := None; rs_cost := None |}.
Definition demo_request : ModelRequest :=
  {| rq_messages := []; rq_tools := []; rq_response_schema := None; rq_required := no_requirements;
     rq_max_attempts := 2; rq_mode := PROVIDER_DEFAULT |}.
Definition demo_context : WorkspaceExecutionContext :=
  {| ctx_request_id := lit "req"; ctx_user_id := Some 9%N; ctx_organization_id := Some 8%N;
     ctx_org_role := "MEMBER"; ctx_workspace_id := Some 1%N; ctx_permissions := ∅ |}.
(** Somebody else marks an attempt of theirs in between. *)
Definition demo_other (w : World) : World :=
  {| ledger := snd (run_op demo_scope (OpMark (lit "call:0")) (ledger w)); dispatched := dispatched w |}.
Definition demo_start : Call :=
  {| world := {| ledger := demo_db2; dispatched := [] |}; coming := [demo_other]; active := None;
     sent := []; visible := false; buffered := []; final_response := None; yielded := [];
     patience := None |}.
Definition demo_call : outcome GatewayExn unit * Call :=
  gateway_call demo_binding
    (λ _ _ _ _ _, Some (Some {| ub_amount := DFinite false 1 0; ub_currency := usd;
                                 ub_basis_identity := lit "list price" |}))
    next_uuid (λ _ _, 500) (λ _ _, TxOk) (λ _ _ _, TxOk)
    (λ _ a, match a with O => Raise TimeoutError | S _ => Return demo_response end)
    (λ _ _, ([], None)) demo_context demo_request
    (Some {[2%N := {| cred_provider := lit "openai"; cred_enabled := true |}]}) (λ _, Return None)
    generate_op (sample_chain 2) demo_start.

Lemma provider_calls_stay_in_budget_witness :
  fst demo_call = Return tt ∧ sent (snd demo_call) = [(0, 0); (0, 1)]%nat ∧
  exposure (world (snd demo_call)) demo_scope ≤ 500000000.
Proof.
  split; [vm_compute; reflexivity|]. split; [vm_compute; reflexivity|].
  destruct (provider_calls_stay_in_budget demo_binding
    (λ _ _ _ _ _, Some (Some {| ub_amount := DFinite false 1 0; ub_currency := usd;
                                 ub_basis_identity := lit "list price" |}))
    next_uuid (λ _ _, 500) (λ _ _, TxOk) (λ _ _ _, TxOk)
    (λ _ a, match a with O => Raise TimeoutError | S _ => Return demo_response end)
    (λ _ _, ([], None)) demo_context demo_request
    (Some {[2%N := {| cred_provider := lit "openai"; cred_enabled := true |}]}) (λ _, Return None)
    generate_op (sample_chain 2) demo_start (fst demo_call) (snd demo_call))
    as (_ & _ & _ & _ & _ & Hexp & _).
  - apply next_uuid_fresh.
  - split; [apply demo_db2_inv|apply NoDup_nil_2|by intros k ?%not_elem_of_nil].
  - apply Forall_singleton. by apply (run_op_fair demo_scope (OpMark (lit "call:0"))).
  - reflexivity.
  - reflexivity.
  - apply surjective_pairing.
  - apply (Hexp demo_scope (mkAccount usd 500000000 450000000 0)). vm_compute. reflexivity.
Defined.
