(* ===== verification/ModelStreamProperties.v ===== *)
(** * Streams of the model gateway

    What a consumer of [ModelGateway._stream] is handed.  Retries and fallbacks
    happen behind its back only while nothing was handed out; [handed] follows
    the loop over one provider stream, and [view] is the part of a call that
    transactions of the budget never touch. *)

From stdpp Require Import base gmap list strings.
From Stdlib Require Import ZArith NArith Lia.
From S2P Require Import Prelude.
From S2P Require Import RunBudgetLedger.
From S2P Require Import LedgerSpec.
From S2P Require Import Rbac.
From S2P Require Import ContextMetadata.
From S2P Require Import ModelProfiles.
From S2P Require Import ModelGateway.
From S2P Require Import ModelGatewayProperties.

Local Open Scope Z_scope.

(** ** One provider stream *)

(** After the events [seen]: they are handed out or buffered, in order. *)
Definition handed (S : list (nat * nat)) (seen : list ModelStreamEvent) (s : Call) : Prop :=
  sent s = S ∧ yielded s ++ buffered s = seen ∧
  (if visible s then buffered s = [] else yielded s = []) ∧
  ∀ r, final_response s = Some r → COMPLETED r ∈ seen ∧ usable_response r = true.

(** The loop was left by an exception. *)
Definition broken (S : list (nat * nat)) (all : list ModelStreamEvent) (s : Call) : Prop :=
  sent s = S ∧ yielded s `prefix_of` all ∧ (visible s = false → yielded s = []).

Lemma handed_broken S seen rest s : handed S seen s → broken S (seen ++ rest) s.
Proof.
  intros (HS & Hseen & Hv & _). split; [done|]. split.
  - rewrite <- Hseen, <- app_assoc. by apply prefix_app_r.
  - intros Hf. by rewrite Hf in Hv.
Qed.

Lemma stream_event_handed S seen e :
  hoare (handed S seen) (stream_event e) (λ _, handed S (seen ++ [e]))
    (λ _, broken S (seen ++ [e])).
Proof.
  unfold stream_event. apply (hoare_bind _ _ _ (λ _ s, sent s = S ∧ yielded s ++ buffered s = seen ∧
    (if visible s then buffered s = [] else yielded s = []) ∧
    ∀ r, final_response s = Some r → COMPLETED r ∈ seen ++ [e] ∧ usable_response r = true)).
  - intros s r s' Hh E. pose proof (handed_broken S seen [e] s Hh) as (Hb1 & Hb2 & Hb3).
    destruct Hh as (HS & Hseen & Hv & Hf).
    destruct e as [| | |resp]; try (injection E as <- <-; split_and!; try done;
      intros r Hr; destruct (Hf r Hr); split; [apply elem_of_app; by left|done]).
    rewrite bind_run in E. cbn [clear_active modify] in E. rewrite bind_run in E. cbn [modify] in E.
    unfold _validate_usable_response in E. rewrite raise_if_cases in E.
    destruct (usable_response resp) eqn:Hu; injection E as <- <-; [|done].
    split_and!; try done. cbn. intros r [= <-]. split; [|done].
    apply elem_of_app. right. by apply list_elem_of_singleton.
  - intros []. apply hoare_get. intros s0 s r s' [-> (HS & Hseen & Hv & Hf)] E.
    destruct (is_delta e).
    + rewrite bind_run in E. cbn [modify] in E. rewrite bind_run in E.
      destruct (yield_all _ _) as [r1 s1] eqn:E1.
      apply yield_all_run in E1 as (n & k & -> & Hr1). cbn in E, Hr1. destruct r1 as [[]|x].
      * rewrite Hr1 in E. cbn in E. unfold yield in E. cbn in E.
        assert (yielded s0 ++ buffered s0 ++ [e] = seen ++ [e]) as Hall by (by rewrite app_assoc, Hseen).
        destruct n as [[|n]|]; injection E as <- <-; unfold handed, broken; cbn;
          rewrite ?app_nil_r, <- ?app_assoc, Hall; split_and!; done.
      * injection E as <- <-. split; [done|]. cbn. split; [|done].
        rewrite <- Hseen, <- app_assoc. apply prefix_app.
        etrans; [apply (prefix_take (buffered s0) k)|by apply prefix_app_r].
    + destruct (visible s0) eqn:Hvis.
      * rewrite Hv, app_nil_r in Hseen. unfold yield in E.
        destruct (patience s0) as [[|n]|]; injection E as <- <-; unfold handed, broken; cbn;
          rewrite ?Hvis, ?Hv, ?app_nil_r, Hseen; split_and!; done.
      * injection E as <- <-. unfold handed. cbn. rewrite Hvis, app_assoc, Hseen. done.
Qed.

Lemma stream_loop_handed S seen l :
  hoare (handed S seen) (stream_loop l) (λ _, handed S (seen ++ l)) (λ _, broken S (seen ++ l)).
Proof.
  revert seen. induction l as [|e l IH]; intros seen; cbn [stream_loop].
  - apply hoare_ret. intros s. by rewrite app_nil_r.
  - apply (hoare_bind _ _ _ (λ _, handed S (seen ++ [e]))).
    + eapply hoare_conseq; [apply stream_event_handed|done|done|].
      intros x s (H1 & H2 & H3). split; [done|]. split; [|done].
      etrans; [exact H2|]. exists l. by rewrite <- app_assoc.
    + intros []. specialize (IH (seen ++ [e])). by rewrite <- app_assoc in IH.
Qed.

(** ** What the budget's transactions leave alone *)

Definition view (s : Call) : bool * list ModelStreamEvent * list (nat * nat) :=
  (visible s, yielded s, sent s).
Definition keeps {A} (m : M Call GatewayExn A) : Prop :=
  ∀ s r s', m s = (r, s') → view s' = view s.

Section Keeps.
Context {A B : Type}.
Lemma keeps_ret (a : A) : keeps (mret a).
Proof. by intros s r s' [= <- <-]. Qed.
Lemma keeps_raise e : keeps (raise e : M Call GatewayExn A).
Proof. by intros s r s' [= <- <-]. Qed.
Lemma keeps_raise_if c e : keeps (raise_if c e).
Proof. intros s r s'. rewrite raise_if_cases. by intros [= <- <-]. Qed.
Lemma keeps_get (f : Call → M Call GatewayExn A) : (∀ s, keeps (f s)) → keeps (get ≫= f).
Proof. intros Hf s r s' E. exact (Hf s s r s' E). Qed.
Lemma keeps_bind (m : M Call GatewayExn A) (f : A → M Call GatewayExn B) :
  keeps m → (∀ a, keeps (f a)) → keeps (m ≫= f).
Proof.
  intros Hm Hf s r s'. rewrite bind_run. destruct (m s) as [[a|e] s1] eqn:E.
  - intros E'. by rewrite (Hf a _ _ _ E'), (Hm _ _ _ E).
  - intros [= <- <-]. by apply Hm in E.
Qed.
Lemma keeps_catch (m : M Call GatewayExn A) h : keeps m → (∀ e, keeps (h e)) → keeps (catch m h).
Proof.
  intros Hm Hh s r s'. unfold catch. destruct (m s) as [[a|e] s1] eqn:E.
  - intros [= <- <-]. by apply Hm in E.
  - intros E'. by rewrite (Hh e _ _ _ E'), (Hm _ _ _ E).
Qed.
Lemma keeps_tx code (m : M Db TxExn A) : keeps (tx code m).
Proof.
  intros s r s'. unfold tx. rewrite bind_run. unfold await.
  destruct (coming s) as [|f rest]; unfold in_ledger;
    destruct (m _) as [r0 db]; by intros [= <- <-].
Qed.
Lemma keeps_hoare (m : M Call GatewayExn A) (P : bool * list ModelStreamEvent * list (nat * nat) → Prop) :
  keeps m → hoare (λ s, P (view s)) m (λ _ s, P (view s)) (λ _ s, P (view s)).
Proof. intros Hm s r s' HP E. apply Hm in E. rewrite <- E in HP. by destruct r. Qed.
End Keeps.
#[local] Hint Resolve keeps_ret keeps_raise keeps_raise_if keeps_tx : core.

Section Stream.
Context (budget : option Binding).
Context (price_source : ResolvedModelProfile → ModelRequest → list N → ModelAttemptKind.t → Db →
                        option (option AttemptCostUpperBound)).
Context (uuid4 : Db → N) (now : nat → nat → Z).
Context (reserve_fault : nat → nat → tx_fault) (mark_fault : bool → nat → nat → tx_fault).
Context (stream_events : nat → nat → list ModelStreamEvent * option GatewayExn).
Context (context : WorkspaceExecutionContext) (request : ModelRequest).
Context (credentials : option (gmap N ProviderCredential)).
Context (get_provider_credential : N → outcome GatewayExn (option ProviderCredential)).

Lemma mark_keeps late p a r : keeps (_mark_unknown_outcome budget mark_fault late p a r).
Proof.
  unfold _mark_unknown_outcome, mark_attempt. destruct r; [|done]. destruct budget; [|done].
  by apply keeps_bind.
Qed.
Lemma mark_active_keeps p a : keeps (mark_active budget mark_fault p a).
Proof. apply keeps_get. intros s. apply mark_keeps. Qed.
Lemma reserve_keeps profile provider o p a kind :
  keeps (_reserve_attempt budget price_source uuid4 now reserve_fault context request profile provider
           o p a kind).
Proof.
  unfold _reserve_attempt, reserve_attempt, _validate_context. destruct budget; [|done].
  apply keeps_bind; [|done]. do 3 (apply keeps_bind; [done|intros []]). by apply keeps_bind.
Qed.

(** The attempt [x] was the last one sent, and its stream was handed out in full. *)
Definition complete_stream (x : nat * nat) (s : Call) : Prop :=
  list.last (sent s) = Some x ∧ yielded s = (stream_events x.1 x.2).1 ∧
  (stream_events x.1 x.2).2 = None ∧
  ∃ r, COMPLETED r ∈ (stream_events x.1 x.2).1 ∧ usable_response r = true.
(** What a stream that failed has handed out: nothing, or the beginning of the
    last attempt's events. *)
Definition partial_stream (s : Call) : Prop :=
  yielded s = [] ∨
  ∃ x, list.last (sent s) = Some x ∧ yielded s `prefix_of` (stream_events x.1 x.2).1.

Lemma broken_partial p a S s :
  list.last S = Some (p, a) → broken S (stream_events p a).1 s → partial_stream s.
Proof. intros HS (Hs & Hp & _). right. exists (p, a). by rewrite Hs. Qed.

(** A failed attempt: retried only if nothing was handed out. *)
Lemma after_failure p a S (f : Failure) :
  list.last S = Some (p, a) →
  hoare (broken S (stream_events p a).1)
    (mark_active budget mark_fault p a;; clear_active;; interrupted_if_visible;;
     mret (inr f : unit + Failure))
    (λ out s, out = inr f ∧ yielded s = []) (λ _, partial_stream).
Proof.
  intros HS. set (Br := broken S (stream_events p a).1).
  apply (hoare_bind _ _ _ (λ _, Br)).
  { eapply hoare_conseq; [apply (keeps_hoare _ (λ v, v.2 = S ∧
      v.1.2 `prefix_of` (stream_events p a).1 ∧ (v.1.1 = false → v.1.2 = [])));
      apply mark_active_keeps|done|done|]. intros e s. by apply broken_partial. }
  intros []. apply (hoare_bind _ _ _ (λ _, Br)); [by apply hoare_modify|].
  intros []. apply (hoare_bind _ _ _ (λ _ s, yielded s = [])); [|intros []; by apply hoare_ret].
  apply hoare_get. intros s0. apply hoare_raise_if.
  - intros s [-> Hb] _. by eapply broken_partial.
  - intros s [-> (_ & _ & Hb)] Hv. by apply Hb.
Qed.

Lemma try_stream_handed p a S :
  list.last S = Some (p, a) →
  hoare (λ s, yielded s = [] ∧ sent s = S) (try_stream budget mark_fault stream_events p a)
    (λ out s, match out with inl _ => complete_stream (p, a) s | inr _ => yielded s = [] end)
    (λ _, partial_stream).
Proof.
  intros HS. unfold try_stream. apply (hoare_bind _ _ _ (λ _, handed S [])).
  { apply hoare_modify. intros s [Hy Hs]. split; [done|]. cbn. by rewrite Hy. }
  intros []. set (Q := λ (out : unit + Failure) s, match out with
    | inl _ => handed S (stream_events p a).1 s ∧ (stream_events p a).2 = None ∧
               is_Some (final_response s)
    | inr _ => yielded s = [] end).
  apply (hoare_bind _ _ _ Q).
  - apply (hoare_catch _ _ _ _ (λ _, broken S (stream_events p a).1)).
    + unfold Q. pose proof (stream_loop_handed S [] (stream_events p a).1) as Hl.
      destruct (stream_events p a) as [events ending]. cbn [fst snd app] in *.
      apply (hoare_bind _ _ _ (λ _, handed S events)); [exact Hl|].
      intros []. pose proof (handed_broken S events []) as Hhb. rewrite app_nil_r in Hhb.
      destruct ending; [by apply hoare_raise|]. apply hoare_get. intros s0.
      destruct (final_response s0) eqn:Hf.
      * apply hoare_ret. intros s [-> Hh]. by rewrite Hf.
      * apply hoare_raise. intros s [-> Hh]. auto.
    + intros e. assert (∀ x : GatewayExn, hoare (broken S (stream_events p a).1) (raise x) Q
        (λ _, partial_stream)) as Hr by (intros x; apply hoare_raise; intros s; by apply broken_partial).
      assert (∀ f, hoare (broken S (stream_events p a).1)
        (mark_active budget mark_fault p a;; clear_active;; interrupted_if_visible;; mret (inr f)) Q
        (λ _, partial_stream)) as Ha.
      { intros f. eapply hoare_conseq; [by apply after_failure|done| |done]. by intros out s [-> ?]. }
      destruct e; first [apply Ha|apply Hr].
  - intros [[]|e]; [|by apply hoare_ret]. apply hoare_get. intros s0.
    intros s r s' [-> ((Hs & Hall & Hv & Hf) & Hend & [resp Hresp])] E. rewrite bind_run in E.
    destruct (yield_all _ _) as [r1 s1] eqn:E1. apply yield_all_run in E1 as (n & k & -> & Hr1).
    destruct (Hf resp Hresp) as [Hc Hu].
    destruct r1 as [[]|e]; injection E as <- <-.
    + split; [by rewrite <- HS, <- Hs|]. cbn. rewrite Hr1. split; [done|]. split; [done|]. by exists resp.
    + right. exists (p, a). cbn. rewrite Hs. split; [done|]. rewrite <- Hall. apply prefix_app, prefix_take.
Qed.

Definition stream_done (s : Call) : Prop := ∃ x, complete_stream x s.

Lemma attempts_handed profile provider p a n last :
  hoare (λ s, yielded s = [])
    (attempts_from budget price_source uuid4 now reserve_fault context request stream_op
       (try_stream budget mark_fault stream_events) profile provider p a n last)
    (λ out s, match out with inl _ => stream_done s | inr _ => yielded s = [] end)
    (λ _, partial_stream).
Proof.
  revert a last. induction n as [|n IH]; intros a last; cbn [attempts_from]; [by apply hoare_ret|].
  apply (hoare_bind _ _ _ (λ _ s, yielded s = [] ∧ list.last (sent s) = Some (p, a))).
  { unfold begin_attempt. apply (hoare_bind _ _ _ (λ _ s, yielded s = [])).
    - eapply hoare_conseq; [apply (keeps_hoare _ (λ v, v.1.2 = [])), reserve_keeps|done|done|].
      intros e s Hy. by left.
    - intros r. apply (hoare_bind _ _ _ (λ _ s, yielded s = [])); [by apply hoare_modify|].
      intros []. apply hoare_modify. intros s Hy. cbn. rewrite last_snoc. by destruct (active s). }
  intros []. apply (hoare_bind _ _ _ (λ out s, match out with
    | inl _ => stream_done s | inr _ => yielded s = [] end)).
  - intros s r s' [Hy Hl] E. pose proof (try_stream_handed p a (sent s) Hl s r s' (conj Hy eq_refl) E) as H.
    destruct r as [[]|]; [by exists (p, a)|done|done].
  - intros [u|e]; [by apply hoare_ret|]. destruct (_ || _); [by apply hoare_ret|]. apply IH.
Qed.

Lemma profiles_handed p chain last :
  hoare (λ s, yielded s = [])
    (profiles_from budget price_source uuid4 now reserve_fault context request credentials
       get_provider_credential stream_op (try_stream budget mark_fault stream_events) p chain last)
    (λ _, stream_done) (λ _, partial_stream).
Proof.
  revert p last. induction chain as [|profile rest IH]; intros p last; cbn [profiles_from].
  - destruct last; apply hoare_raise; intros s Hy; by left.
  - apply (hoare_bind _ _ _ (λ _ s, yielded s = [])).
    { eapply hoare_conseq; [apply (credential_ok _ _ profile (λ s, yielded s = []))|done|done|].
      intros e s Hy. by left. }
    intros c. eapply hoare_bind; [apply attempts_handed|]. intros [u|l]; [by apply hoare_ret|apply IH].
Qed.

Lemma guarded_keeps {A} (m : M Call GatewayExn A) :
  hoare (λ s, yielded s = []) m (λ _, stream_done) (λ _, partial_stream) →
  hoare (λ s, yielded s = []) (guarded budget mark_fault m) (λ _, stream_done) (λ _, partial_stream).
Proof.
  intros Hm. unfold guarded. apply (hoare_catch _ _ _ _ (λ _, partial_stream)); [exact Hm|].
  intros e. apply hoare_get. intros s0. destruct (current s0) as [p a].
  assert (∀ (k : M Call GatewayExn A), keeps k → (∀ s x s', k s ≠ (Return x, s')) →
    hoare (λ s, s = s0 ∧ partial_stream s) k (λ _, stream_done) (λ _, partial_stream)) as Hk.
  { intros k Hkeep Hr s [x|x] s' [_ Hp] E; [by destruct (Hr _ _ _ E)|].
    apply Hkeep in E. unfold partial_stream in *. injection E as _ -> ->. done. }
  assert (∀ x (n : M Call GatewayExn unit), keeps n →
    hoare (λ s, s = s0 ∧ partial_stream s) (n;; raise x) (λ _ : A, stream_done) (λ _, partial_stream)) as Hn.
  { intros x n Hn. apply Hk; [by apply keeps_bind|].
    intros s y s'. rewrite bind_run. by destruct (n s) as [[]]. }
  destruct e; try (apply Hn, mark_keeps); try (by apply Hk);
    apply Hn, keeps_catch; [apply mark_keeps| |apply mark_keeps|]; by intros [].
Qed.

Lemma stream_handed prepared :
  hoare (λ s, yielded s = [])
    (_stream budget price_source uuid4 now reserve_fault mark_fault stream_events context request
       credentials get_provider_credential prepared) (λ _, stream_done) (λ _, partial_stream).
Proof.
  apply guarded_keeps. apply (hoare_bind _ _ _ (λ _ s, yielded s = []));
    [|intros c; apply profiles_handed].
  destruct prepared as [c|[ps i]]; [by apply hoare_ret|].
  destruct (resolve_chain _ _ _ _); [by apply hoare_ret|]. apply hoare_raise. intros s Hy. by left.
Qed.
End Stream.

(** A call nobody has consumed from. *)
Definition opened (w : World) (others : list (World → World)) (patience : option nat) : Call :=
  {| world := w; coming := others; active := None; sent := []; visible := false; buffered := [];
     final_response := None; yielded := []; patience := patience |}.

(** C16. A stream never mixes attempts.  Whatever the providers, the budget, the
    database and the consumer do: when the gateway's stream ends normally, the
    consumer received exactly the events of the last attempt, in order and
    completely, and among them a usable response; when it fails or is closed,
    the consumer received nothing, or the beginning of the last attempt's
    events.  So nothing an abandoned attempt produced is ever shown, and after
    the first visible event there is no retry and no fallback. *)
Theorem stream_never_mixes_attempts budget price_source uuid4 now reserve_fault mark_fault
    stream_events context request credentials get_provider_credential prepared w others patience :
  match _stream budget price_source uuid4 now reserve_fault mark_fault stream_events context request
          credentials get_provider_credential prepared (opened w others patience) with
  | (Return _, s) =>
      ∃ p a response, list.last (sent s) = Some (p, a) ∧ yielded s = (stream_events p a).1 ∧
        (stream_events p a).2 = None ∧ COMPLETED response ∈ yielded s ∧
        usable_response response = true
  | (Raise _, s) =>
      yielded s = [] ∨
      ∃ p a, list.last (sent s) = Some (p, a) ∧ yielded s `prefix_of` (stream_events p a).1
  end.
Proof.
  pose proof (hoare_run _ _ _ _ (opened w others patience) (stream_handed budget price_source uuid4
    now reserve_fault mark_fault stream_events context request credentials get_provider_credential
    prepared) eq_refl) as H.
  destruct (_stream _ _ _ _ _ _ _ _ _ _ _ _) as [[[]|e] s].
  - destruct H as ([p a] & Hl & Hy & He & r & Hr & Hu). exists p, a, r. by rewrite Hy.
  - destruct H as [H|([p a] & Hl & Hp)]; [by left|right; by exists p, a].
Qed.
