(* ===== verification/ContextPolicy.v ===== *)
(** * The context policy of a published agent

    Model of [packages/agent_runtime/context_policy.py]: the policy request of
    a draft, its resolution against the frozen model chain, and the validation
    of the frozen result before a run.  A raised [ValueError] is [None].

    Requests, chain entries and frozen policies are JSON objects.  The
    dictionary a function builds is written with its items in the order of the
    assignments; [request_items] and [policy_items] are the literals of the two
    results. *)

From stdpp Require Import base gmap list strings sorting.
From Stdlib Require Import ZArith NArith Lia.
From S2P Require Import Prelude.
From S2P Require Import Json.
From S2P Require Import JsonTheory.
From S2P Require Import TurnTranscript.
From S2P Require Import ContextMetadata.

Local Open Scope Z_scope.

Definition POLICY_VERSION : list N := lit "adaptive_context_v1".
Definition PRESET_INPUT_LIMITS : list (list N * Z) :=
  [(lit "MINI_16K", 16384); (lit "STANDARD_32K", 32768); (lit "GENERAL_64K", 65536);
   (lit "LONG_DOCUMENT_128K", 131072); (lit "EXTENDED_256K", 262144)].
Definition DEFAULT_PRESET : list N := lit "GENERAL_64K".
Definition SOFT_TRIGGER_PERCENT : Z := 70.
Definition HARD_TRIGGER_PERCENT : Z := 85.
Definition TARGET_PERCENT : Z := 55.
Definition DEFAULT_SAFETY_RESERVE_PERCENT : Z := 5.
Definition DEFAULT_SAFETY_RESERVE_TOKENS : Z := 1024.
Definition COUNTER_ID : list N := lit "approx_language_v1".
Definition COUNTER_VERSION : Z := 1.
Definition _POLICY_KEYS : list (list N) :=
  lit <$> ["policy_version"; "preset"; "workspace_input_limit"; "workspace_input_limit_source";
    "soft_trigger_percent"; "hard_trigger_percent"; "target_percent"; "counter_id";
    "retained_recent_turns"; "max_history_groups"; "safety_reserve_percent";
    "safety_reserve_tokens"]%string.

Inductive LimitSource := UNSET | DEFAULT | CUSTOM.
#[global] Instance LimitSource_dec : EqDecision LimitSource.
Proof. solve_decision. Defined.
(** [WORKSPACE_INPUT_LIMIT_SOURCES] *)
Definition source_value (s : LimitSource) : list N :=
  match s with UNSET => lit "UNSET" | DEFAULT => lit "DEFAULT" | CUSTOM => lit "CUSTOM" end.

(** ** Reading JSON *)

(** [if not b: raise ValueError] *)
Definition require (b : bool) : option unit := if b then Some tt else None.

(** [value.get(k, d)] *)
Definition get_or (d : json) (k : string) (l : list (list N * json)) : json :=
  default d (dict_get (lit k) l).
(** [v == s] for a string [s]. *)
Definition is_text (s : list N) (v : json) : bool :=
  match v with JStr t => bool_decide (t = s) | _ => false end.
Definition preset_limit (preset : list N) : option Z :=
  snd <$> find (λ kv, bool_decide (kv.1 = preset)) PRESET_INPUT_LIMITS.

Definition _positive_int (v : json) : option Z :=
  match v with JInt z => if z <=? 0 then None else Some z | _ => None end.
Definition _identity_text (v : json) : option (list N) :=
  match v with JStr s => if trimmed s then Some s else None | _ => None end.
(** [isinstance(v, int)] without booleans. *)
Definition as_int (v : json) : option Z := match v with JInt z => Some z | _ => None end.
(** A field that is absent, null or an integer between two bounds. *)
Definition optional_in (lo hi : Z) (v : json) : option (option Z) :=
  match v with
  | JNull => Some None
  | JInt z => if (lo <=? z) && (z <=? hi) then Some (Some z) else None
  | _ => None
  end.

(** ** Normalisation of a request *)

(** The normalised request; [rq_limit] is only kept for [CUSTOM]. *)
Record PolicyRequest := {
  rq_preset : list N;
  rq_source : LimitSource;
  rq_soft : Z;
  rq_hard : Z;
  rq_target : Z;
  rq_limit : option Z;
  rq_retained_recent_turns : option Z;
  rq_max_history_groups : option Z;
  rq_safety_reserve_percent : option Z;
  rq_safety_reserve_tokens : option Z
}.

Definition request_source (supplied : json) (limit_present : bool) : option LimitSource :=
  match supplied with
  | JNull => Some (if limit_present then CUSTOM else UNSET)
  | JStr s => find (λ x, bool_decide (source_value x = s)) [UNSET; DEFAULT; CUSTOM]
  | _ => None
  end.

Definition request_limit (source : LimitSource) (v : json) (plimit : Z) : option (option Z) :=
  match v with
  | JNull => if bool_decide (source = CUSTOM) then None else Some None
  | _ =>
      z ← _positive_int v;
      require (z <=? plimit);;
      require (bool_decide (source = CUSTOM) || (z =? plimit));;
      mret (Some z)
  end.

Definition checked_request (value : json) : option PolicyRequest :=
  match value with
  | JObj l =>
      require (forallb (λ k, bool_decide (k ∈ _POLICY_KEYS)) l.*1);;
      require (is_text POLICY_VERSION (get_or (JStr POLICY_VERSION) "policy_version" l));;
      preset ← as_text (get_or (JStr DEFAULT_PRESET) "preset" l);
      plimit ← preset_limit preset;
      let limit_value := field "workspace_input_limit" l in
      source ← request_source (field "workspace_input_limit_source" l)
                 (match limit_value with JNull => false | _ => true end);
      limit ← request_limit source limit_value plimit;
      soft ← as_int (get_or (JInt SOFT_TRIGGER_PERCENT) "soft_trigger_percent" l);
      hard ← as_int (get_or (JInt HARD_TRIGGER_PERCENT) "hard_trigger_percent" l);
      target ← as_int (get_or (JInt TARGET_PERCENT) "target_percent" l);
      require ((0 <? target) && (target <? soft) && (soft <? hard) && (hard <=? 100));;
      turns ← optional_in 0 50 (field "retained_recent_turns" l);
      groups ← optional_in 16 4096 (field "max_history_groups" l);
      percent ← optional_in 0 30 (field "safety_reserve_percent" l);
      tokens ← optional_in 0 65536 (field "safety_reserve_tokens" l);
      require (is_text COUNTER_ID (get_or (JStr COUNTER_ID) "counter_id" l));;
      mret {| rq_preset := preset; rq_source := source; rq_soft := soft; rq_hard := hard;
              rq_target := target;
              rq_limit := if bool_decide (source = CUSTOM) then limit else None;
              rq_retained_recent_turns := turns; rq_max_history_groups := groups;
              rq_safety_reserve_percent := percent; rq_safety_reserve_tokens := tokens |}
  | _ => None
  end.

(** [if value is not None: result[k] = value] *)
Definition opt_item (k : string) (o : option Z) : list (list N * json) :=
  match o with Some z => [(lit k, JInt z)] | None => [] end.

Definition request_items (r : PolicyRequest) : list (list N * json) :=
  [(lit "policy_version", JStr POLICY_VERSION);
   (lit "preset", JStr (rq_preset r));
   (lit "workspace_input_limit_source", JStr (source_value (rq_source r)));
   (lit "soft_trigger_percent", JInt (rq_soft r));
   (lit "hard_trigger_percent", JInt (rq_hard r));
   (lit "target_percent", JInt (rq_target r));
   (lit "counter_id", JStr COUNTER_ID)]
  ++ opt_item "workspace_input_limit" (rq_limit r)
  ++ opt_item "retained_recent_turns" (rq_retained_recent_turns r)
  ++ opt_item "max_history_groups" (rq_max_history_groups r)
  ++ opt_item "safety_reserve_percent" (rq_safety_reserve_percent r)
  ++ opt_item "safety_reserve_tokens" (rq_safety_reserve_tokens r).

Definition normalize_context_policy_request (value : json) : option json :=
  r ← checked_request value; mret (JObj (request_items r)).

(** ** Resolving one model of the chain *)

Record _ResolvedModelContext := {
  rm_profile_id : list N;
  rm_credential_ref : list N;
  rm_provider : list N;
  rm_model : list N;
  rm_requested_max_tokens : Z;
  rm_metadata : option ContextMetadata;
  rm_total_context_tokens : option Z;
  rm_max_input_tokens : option Z;
  rm_deployment_input_limit : option Z;
  rm_output_allowance : Z;
  rm_applicable_input_limit : Z;
  rm_safety_reserve_tokens : Z;
  rm_available_input_tokens : Z;
  rm_safety_reserve_percent : Z;
  rm_configured_reserve_tokens : Z
}.

Definition chain_required_keys : list (list N) :=
  lit <$> ["profile_id"; "credential_ref"; "provider"; "model"; "max_tokens";
           "capabilities"]%string.

Definition semantics_is (s : InputOutputSemantics) (m : option ContextMetadata) : bool :=
  match m with Some m => bool_decide (input_output_semantics m = Some s) | None => false end.

(** [constraints]: the proven input capacities. *)
Definition constraints (max_input deployment total : option Z) (allowance : Z) : list Z :=
  option_list max_input ++ option_list deployment
  ++ option_list ((λ t, t - allowance) <$> total).

(** [min(...)] of a non-empty list. *)
Definition min_of (x : Z) (l : list Z) : Z := fold_left Z.min l x.
Definition max_of (x : Z) (l : list Z) : Z := fold_left Z.max l x.

Definition _resolve_model (raw : json) (reserved_output_tokens : Z)
    (safety_reserve_percent safety_reserve_tokens : Z) : option _ResolvedModelContext :=
  match raw with
  | JObj l =>
      require (forallb (λ k, bool_decide (k ∈ l.*1)) chain_required_keys);;
      profile_id ← _identity_text (field "profile_id" l);
      credential_ref ← _identity_text (field "credential_ref" l);
      provider ← _identity_text (field "provider" l);
      model ← _identity_text (field "model" l);
      actual_max_tokens ← _positive_int (field "max_tokens" l);
      capabilities ← capabilities_from_mapping (field "capabilities" l);
      let metadata := context_metadata capabilities in
      let total := max_context_tokens capabilities in
      let max_input := metadata ≫= max_input_tokens in
      let deployment := metadata ≫= deployment_input_limit in
      let allowance := Z.max actual_max_tokens reserved_output_tokens in
      require (negb (semantics_is TOTAL_WINDOW metadata && bool_decide (total = None)));;
      require (negb (bool_decide (total = None)
                     && (negb (semantics_is INDEPENDENT_INPUT_OUTPUT metadata)
                         || bool_decide (max_input = None))));;
      require (negb (over (Some allowance) (metadata ≫= max_output_tokens)));;
      require (negb (match metadata with
                     | Some m => match output_reserve_semantics m with
                                 | None => bool_decide (is_Some (max_output_tokens m))
                                 | Some _ => false
                                 end
                     | None => false
                     end));;
      match constraints max_input deployment total allowance with
      | [] => None
      | c :: cs =>
          let applicable := min_of c cs in
          require (0 <? applicable);;
          let reserve := Z.max safety_reserve_tokens
                           ((safety_reserve_percent * applicable + 99) / 100) in
          let available := applicable - reserve in
          require (0 <? available);;
          mret {| rm_profile_id := profile_id; rm_credential_ref := credential_ref;
                  rm_provider := provider; rm_model := model;
                  rm_requested_max_tokens := actual_max_tokens; rm_metadata := metadata;
                  rm_total_context_tokens := total; rm_max_input_tokens := max_input;
                  rm_deployment_input_limit := deployment; rm_output_allowance := allowance;
                  rm_applicable_input_limit := applicable; rm_safety_reserve_tokens := reserve;
                  rm_available_input_tokens := available;
                  rm_safety_reserve_percent := safety_reserve_percent;
                  rm_configured_reserve_tokens := safety_reserve_tokens |}
      end
  | _ => None
  end.

(** ** Projections *)

Definition contract_metadata_dict (m : option ContextMetadata) : json :=
  match m with Some m => as_dict m | None => JNull end.

Definition eq_opt (z : Z) (o : option Z) : bool :=
  match o with Some y => z =? y | None => false end.

Definition _model_reasons (m : _ResolvedModelContext) : list (list N) :=
  (if bool_decide (rm_total_context_tokens m = None) then [lit "TOTAL_CONTEXT_UNKNOWN"] else [])
  ++ (if eq_opt (rm_applicable_input_limit m)
           ((λ t, t - rm_output_allowance m) <$> rm_total_context_tokens m)
      then [lit "TOTAL_WINDOW_MINUS_OUTPUT"] else [])
  ++ (if eq_opt (rm_applicable_input_limit m) (rm_max_input_tokens m)
      then [lit "PROVIDER_INPUT_LIMIT"] else [])
  ++ (if eq_opt (rm_applicable_input_limit m) (rm_deployment_input_limit m)
      then [lit "DEPLOYMENT_INPUT_LIMIT"] else [])
  ++ (if (rm_safety_reserve_percent m =? 5) && (rm_configured_reserve_tokens m =? 1024)
      then [lit "FIVE_PERCENT_SAFETY_RESERVE"]
      else [lit "CUSTOM_SAFETY_RESERVE_" ++ dump_int (rm_safety_reserve_percent m)
            ++ lit "_PERCENT"]).

Definition projection_source (m : _ResolvedModelContext) : json :=
  let metadata := rm_metadata m in
  JObj [(lit "declared", contract_metadata_dict metadata);
        (lit "declared_max_context_tokens", opt_int (rm_total_context_tokens m));
        (lit "resolved_model",
          JStr match metadata with Some x => resolved_model x | None => UNKNOWN end);
        (lit "source_version", opt_text (source_version <$> metadata));
        (lit "catalog_ref", opt_text (metadata ≫= catalog_ref));
        (lit "source_records", match metadata ≫= source_records with
                               | Some l => JArr l | None => JNull end)].

Definition _model_projection (m : _ResolvedModelContext) : json :=
  let metadata := rm_metadata m in
  JObj [(lit "profile_id", JStr (rm_profile_id m));
        (lit "credential_ref", JStr (rm_credential_ref m));
        (lit "provider", JStr (rm_provider m));
        (lit "model", JStr (rm_model m));
        (lit "resolved_model",
          JStr match metadata with Some x => resolved_model x | None => UNKNOWN end);
        (lit "source", projection_source m);
        (lit "limits", JObj
          [(lit "requested_max_tokens", JInt (rm_requested_max_tokens m));
           (lit "total_context_tokens", opt_int (rm_total_context_tokens m));
           (lit "max_input_tokens", opt_int (rm_max_input_tokens m));
           (lit "deployment_input_limit", opt_int (rm_deployment_input_limit m));
           (lit "max_output_tokens", opt_int (metadata ≫= max_output_tokens));
           (lit "input_output_semantics",
             opt_text (semantics_value <$> (metadata ≫= input_output_semantics)));
           (lit "output_reserve_semantics",
             opt_text (reserve_value <$> (metadata ≫= output_reserve_semantics)))]);
        (lit "budget", JObj
          [(lit "reserved_output_tokens", JInt (rm_output_allowance m));
           (lit "applicable_input_limit_tokens", JInt (rm_applicable_input_limit m));
           (lit "safety_reserve_tokens", JInt (rm_safety_reserve_tokens m));
           (lit "available_input_tokens", JInt (rm_available_input_tokens m))]);
        (lit "reasons", JArr (JStr <$> _model_reasons m))].

Definition _model_limitations (models : list _ResolvedModelContext) (limit : Z) : list json :=
  (λ m, JObj [(lit "scope", JStr (lit "MODEL"));
              (lit "profile_id", JStr (rm_profile_id m));
              (lit "code", JStr (lit "MODEL_INPUT_CAP_BELOW_WORKSPACE_LIMIT"));
              (lit "workspace_input_limit", JInt limit);
              (lit "model_available_input_tokens", JInt (rm_available_input_tokens m))])
  <$> filter (λ m, rm_available_input_tokens m < limit) models.

Definition _unknowns (models : list _ResolvedModelContext) (min_total : option Z) : list json :=
  (if bool_decide (min_total = None) then [JStr (lit "MIN_TOTAL_CONTEXT_TOKENS")] else [])
  ++ (if existsb (λ m, match rm_metadata m with None => true | Some _ => false end) models
      then [JStr (lit "MODEL_CONTEXT_METADATA")] else [])
  ++ (if existsb (λ m, match rm_metadata m with
                       | Some x => bool_decide (resolved_model x = UNKNOWN)
                       | None => false end) models
      then [JStr (lit "RESOLVED_MODEL")] else []).

Definition _counter_projection : json :=
  JObj [(lit "id", JStr COUNTER_ID); (lit "version", JInt COUNTER_VERSION);
        (lit "precision", JStr (lit "APPROXIMATE"));
        (lit "request_overhead_tokens", JInt 8); (lit "message_overhead_tokens", JInt 4);
        (lit "tool_overhead_tokens", JInt 8); (lit "includes_protocol_overhead", JBool false);
        (lit "scope", JStr (lit "Approximate heuristic for system/user/assistant/tool text plus JSON schema; does not guarantee an exact provider token count. The fixed overheads are applied once by the runtime wrapper and are not included in this heuristic."))].

Definition _chain_items (chain : list json) : option (list json) :=
  match chain with
  | [] => None
  | _ => require (forallb (λ v, match v with JObj _ => true | _ => false end) chain);;
         mret chain
  end.

(** At most 55 percent is rounded down, more is rounded up. *)
Definition _scaled_threshold (value percent : Z) : Z :=
  if percent <=? 55 then (percent * value) / 100 else (percent * value + 99) / 100.

(** ** The resolved policy *)

(** [normalized_request.get("workspace_input_limit", PRESET_INPUT_LIMITS[...])] *)
Definition workspace_limit (r : PolicyRequest) : Z :=
  default (default 0 (preset_limit (rq_preset r))) (rq_limit r).

Definition min_total_context (models : list _ResolvedModelContext) : option Z :=
  match mapM rm_total_context_tokens models with
  | Some (t :: ts) => Some (min_of t ts)
  | _ => None
  end.

(** [model_available_input_tokens], [input_limit_tokens] and
    [reserved_output_tokens] of the chain [m :: ms]. *)
Definition common_available_input (m : _ResolvedModelContext) ms : Z :=
  min_of (rm_available_input_tokens m) (rm_available_input_tokens <$> ms).
Definition working_input_limit (r : PolicyRequest) m ms : Z :=
  Z.min (common_available_input m ms) (workspace_limit r).
Definition chain_output (m : _ResolvedModelContext) ms : Z :=
  max_of (rm_output_allowance m) (rm_output_allowance <$> ms).

(** [if normalized_request.get(key) != THRESHOLD_PERCENTS[key]] *)
Definition changed (d z : Z) : option Z := if z =? d then None else Some z.

Definition policy_items (r : PolicyRequest) (m : _ResolvedModelContext)
    (ms : list _ResolvedModelContext) : list (list N * json) :=
  let models := m :: ms in
  let limit := working_input_limit r m ms in
  [(lit "policy_version", JStr POLICY_VERSION);
   (lit "preset", JStr (rq_preset r));
   (lit "workspace_input_limit", JInt (workspace_limit r));
   (lit "workspace_input_limit_source", JStr (source_value (rq_source r)));
   (lit "input_limit_tokens", JInt limit);
   (lit "model_available_input_tokens", JInt (common_available_input m ms));
   (lit "min_total_context_tokens", opt_int (min_total_context models));
   (lit "reserved_output_tokens", JInt (chain_output m ms));
   (lit "models", JArr (_model_projection <$> models));
   (lit "thresholds", JObj
     [(lit "soft", JInt (_scaled_threshold limit (rq_soft r)));
      (lit "hard", JInt (_scaled_threshold limit (rq_hard r)));
      (lit "target", JInt (_scaled_threshold limit (rq_target r)))]);
   (lit "counter", _counter_projection);
   (lit "limitations", JArr (_model_limitations models (workspace_limit r)));
   (lit "unknowns", JArr (_unknowns models (min_total_context models)))]
  ++ opt_item "soft_trigger_percent" (changed SOFT_TRIGGER_PERCENT (rq_soft r))
  ++ opt_item "hard_trigger_percent" (changed HARD_TRIGGER_PERCENT (rq_hard r))
  ++ opt_item "target_percent" (changed TARGET_PERCENT (rq_target r))
  ++ opt_item "retained_recent_turns" (rq_retained_recent_turns r)
  ++ opt_item "max_history_groups" (rq_max_history_groups r)
  ++ opt_item "safety_reserve_percent" (rq_safety_reserve_percent r)
  ++ opt_item "safety_reserve_tokens" (rq_safety_reserve_tokens r).

Definition resolve_models (r : PolicyRequest) (chain : list json) (reserved : json) :
    option (list _ResolvedModelContext) :=
  reserved_output ← _positive_int reserved;
  items ← _chain_items chain;
  mapM (λ item, _resolve_model item reserved_output
          (default DEFAULT_SAFETY_RESERVE_PERCENT (rq_safety_reserve_percent r))
          (default DEFAULT_SAFETY_RESERVE_TOKENS (rq_safety_reserve_tokens r))) items.

Definition resolve_context_policy (request : json) (chain : list json)
    (reserved_output_tokens : json) : option json :=
  r ← checked_request request;
  models ← resolve_models r chain reserved_output_tokens;
  match models with
  | m :: ms => mret (JObj (policy_items r m ms))
  | [] => None
  end.

(** ** Validation of a frozen policy *)

(** [json.dumps(..., ensure_ascii=True)]: characters outside the printable
    ASCII range are written as [\uXXXX], those beyond the basic plane as two
    surrogates.  They only occur inside string literals of the text. *)
Definition u_escape (n : N) : list N :=
  [92; 117; hex_digit (n / 4096); hex_digit (n / 256 mod 16); hex_digit (n / 16 mod 16);
   hex_digit (n mod 16)]%N.
Definition ascii_char (c : N) : list N :=
  if ((32 <=? c) && (c <=? 126))%N then [c]
  else if (c <? 65536)%N then u_escape c
  else u_escape (55296 + (c - 65536) / 1024) ++ u_escape (56320 + (c - 65536) mod 1024).
Definition _canonical_json (v : json) : option (list N) :=
  t ← canonical_json v; mret (t ≫= ascii_char).

Definition frozen_required : list (list N) :=
  lit <$> ["policy_version"; "preset"; "workspace_input_limit"; "workspace_input_limit_source";
    "input_limit_tokens"; "model_available_input_tokens"; "min_total_context_tokens";
    "reserved_output_tokens"; "models"; "thresholds"; "counter"; "limitations";
    "unknowns"]%string.
Definition frozen_allowed : list (list N) :=
  frozen_required ++ (lit <$> ["soft_trigger_percent"; "hard_trigger_percent"; "target_percent";
    "retained_recent_turns"; "max_history_groups"; "safety_reserve_percent";
    "safety_reserve_tokens"]%string).

(** [if key in value: request_data[key] = value[key]] *)
Definition copy_item (k : string) (l : list (list N * json)) : list (list N * json) :=
  match dict_get (lit k) l with Some v => [(lit k, v)] | None => [] end.

Definition request_data (l : list (list N * json)) : json :=
  JObj ([(lit "policy_version", field "policy_version" l);
         (lit "preset", field "preset" l);
         (lit "workspace_input_limit", field "workspace_input_limit" l);
         (lit "workspace_input_limit_source", field "workspace_input_limit_source" l);
         (lit "soft_trigger_percent",
           get_or (JInt SOFT_TRIGGER_PERCENT) "soft_trigger_percent" l);
         (lit "hard_trigger_percent",
           get_or (JInt HARD_TRIGGER_PERCENT) "hard_trigger_percent" l);
         (lit "target_percent", get_or (JInt TARGET_PERCENT) "target_percent" l);
         (lit "counter_id", JStr COUNTER_ID)]
        ++ copy_item "retained_recent_turns" l ++ copy_item "max_history_groups" l
        ++ copy_item "safety_reserve_percent" l ++ copy_item "safety_reserve_tokens" l).

(** The source and limit of the frozen value itself, after normalisation. *)
Definition frozen_limit_ok (l : list (list N * json)) (plimit : Z) : bool :=
  match field "workspace_input_limit_source" l with
  | JStr s =>
      match find (λ x, bool_decide (source_value x = s)) [UNSET; DEFAULT; CUSTOM] with
      | Some CUSTOM => match field "workspace_input_limit" l with
                       | JInt z => z <=? plimit | _ => false end
      | Some _ => match field "workspace_input_limit" l with
                  | JInt z => z =? plimit | _ => false end
      | None => false
      end
  | _ => false
  end.

Definition validate_frozen_context_policy (value : json) (chain : list json)
    (reserved_output_tokens : json) : option json :=
  match value with
  | JObj l =>
      require (forallb (λ k, bool_decide (k ∈ l.*1)) frozen_required
               && forallb (λ k, bool_decide (k ∈ frozen_allowed)) l.*1);;
      r ← checked_request (request_data l);
      plimit ← preset_limit (rq_preset r);
      require (frozen_limit_ok l plimit);;
      expected ← resolve_context_policy (JObj (request_items r)) chain reserved_output_tokens;
      actual_text ← _canonical_json value;
      expected_text ← _canonical_json expected;
      require (bool_decide (actual_text = expected_text));;
      mret expected
  | _ => None
  end.
