(* ===== verification/ContextPolicyTheory.v ===== *)
(** * Context policies: reading back what was written

    Lemmas about dictionaries built by literals and optional assignments, and
    about the fields of normalised requests and resolved policies. *)

From stdpp Require Import base gmap list strings sorting.
From Stdlib Require Import ZArith NArith Lia.
From S2P Require Import Prelude.
From S2P Require Import Json.
From S2P Require Import JsonTheory.
From S2P Require Import TurnTranscript.
From S2P Require Import ContextMetadata.
From S2P Require Import ContextPolicy.

Local Open Scope Z_scope.
Local Arguments lit : simpl never.
Local Arguments preset_limit : simpl never.

(** ** Dictionaries *)

Lemma dict_get_app k l1 l2 :
  dict_get k (l1 ++ l2) = match dict_get k l1 with Some v => Some v | None => dict_get k l2 end.
Proof.
  unfold dict_get. induction l1 as [|kv l1 IH]; [done|]. cbn.
  by destruct (bool_decide (kv.1 = k)).
Qed.

Lemma dict_get_opt k k' o :
  dict_get k (opt_item k' o) = if bool_decide (lit k' = k) then JInt <$> o else None.
Proof. unfold dict_get. destruct o; cbn; by case_bool_decide. Qed.

Lemma dict_get_elem k l x : NoDup l.*1 → dict_get k l = Some x ↔ (k, x) ∈ l.
Proof.
  unfold dict_get. induction l as [|[k' y] l IH]; cbn.
  - intros _. split; [done|]. by intros ?%not_elem_of_nil.
  - intros [Hk Hnd]%NoDup_cons. rewrite elem_of_cons. case_bool_decide as E; cbn.
    + subst k'. split; [intros [= ->]; by left|]. intros [[= ->]|Hin]; [done|].
      destruct Hk. apply list_elem_of_fmap. by exists (k, x).
    + rewrite IH by done. split; [by right|]. intros [[= -> ->]|?]; done.
Qed.

(** Equal up to key order: the same value, up to key order, under every key. *)
Lemma sorted_dict_get l l' k :
  NoDup l.*1 → NoDup l'.*1 → sort_json (JObj l) = sort_json (JObj l') →
  sort_json <$> dict_get k l = sort_json <$> dict_get k l'.
Proof.
  intros Hl Hl' Hs.
  destruct (dict_get k l) as [x|] eqn:E.
  - apply dict_get_elem in E; [|done]. destruct (sort_json_member _ _ _ _ Hs E) as (x' & E' & Hx).
    apply dict_get_elem in E'; [|done]. rewrite E'. cbn. by rewrite Hx.
  - destruct (dict_get k l') as [x'|] eqn:E'; [|done].
    apply dict_get_elem in E'; [|done].
    destruct (sort_json_member _ _ _ _ (eq_sym Hs) E') as (x & Hx & _).
    apply dict_get_elem in Hx; [|done]. congruence.
Qed.

(** Values without inner dictionaries are not touched by sorting. *)
Definition atom (v : json) : Prop := match v with JArr _ | JObj _ => False | _ => True end.

Lemma sort_json_atom v w : atom v → sort_json w = v → w = v.
Proof. destruct w; cbn; intros Hv <-; done. Qed.

Lemma sorted_dict_atom l l' k :
  NoDup l.*1 → NoDup l'.*1 → sort_json (JObj l) = sort_json (JObj l') →
  (∀ v, dict_get k l' = Some v → atom v) → dict_get k l = dict_get k l'.
Proof.
  intros Hl Hl' Hs Ha. pose proof (sorted_dict_get _ _ k Hl Hl' Hs) as Hk.
  destruct (dict_get k l') as [v|] eqn:E; cbn in Hk.
  - pose proof (Ha v eq_refl) as Hv. apply fmap_Some in Hk as (w & -> & Hw). f_equal.
    apply sort_json_atom; [done|]. by destruct v.
  - by destruct (dict_get k l).
Qed.

Lemma sorted_dict_keys l l' :
  sort_json (JObj l) = sort_json (JObj l') → l.*1 ≡ₚ l'.*1.
Proof.
  cbn [sort_json]. intros [= Hs].
  assert (∀ q : list (list N * json),
    ((λ kv : list N * json, (kv.1, sort_json kv.2)) <$> q).*1 = q.*1) as Hq.
  { intros q. rewrite <- list_fmap_compose. by apply list_fmap_ext. }
  rewrite <- (Hq l), <- (Hq l').
  rewrite <- (merge_sort_Permutation key_le (_ <$> l)), Hs.
  by rewrite merge_sort_Permutation.
Qed.

Lemma forallb_keys_perm (p : list N → bool) (l l' : list (list N)) :
  l ≡ₚ l' → forallb p l = forallb p l'.
Proof.
  intros Hp. apply eq_true_iff_eq. rewrite !forallb_forall. setoid_rewrite <- list_elem_of_In.
  by setoid_rewrite Hp.
Qed.

Lemma opt_item_keys k o : (opt_item k o).*1 `sublist_of` [lit k].
Proof. destruct o; cbn; [done|]. apply sublist_nil_l. Qed.

(** ** Requests *)

(** What a normalised request satisfies. *)
Record request_ok (r : PolicyRequest) : Prop := {
  ok_preset : is_Some (preset_limit (rq_preset r));
  ok_custom : rq_source r = CUSTOM ↔ is_Some (rq_limit r);
  ok_limit : ∀ z, rq_limit r = Some z → 0 < z ≤ default 0 (preset_limit (rq_preset r));
  ok_percents : 0 < rq_target r < rq_soft r ∧ rq_soft r < rq_hard r ≤ 100;
  ok_turns : ∀ z, rq_retained_recent_turns r = Some z → 0 ≤ z ≤ 50;
  ok_groups : ∀ z, rq_max_history_groups r = Some z → 16 ≤ z ≤ 4096;
  ok_reserve_percent : ∀ z, rq_safety_reserve_percent r = Some z → 0 ≤ z ≤ 30;
  ok_reserve_tokens : ∀ z, rq_safety_reserve_tokens r = Some z → 0 ≤ z ≤ 65536
}.

Lemma require_Some b u : require b = Some u → b = true.
Proof. by destruct b. Qed.

Lemma optional_in_inv lo hi v o z : optional_in lo hi v = Some o → o = Some z → lo ≤ z ≤ hi.
Proof.
  destruct v as [| |x| | | |]; cbn; try done; [by intros [= <-]|].
  destruct (_ && _) eqn:E; [|done]. intros [= <-] [= <-]. breflect. lia.
Qed.

Lemma optional_in_read lo hi o :
  (∀ z, o = Some z → lo ≤ z ≤ hi) → optional_in lo hi (opt_int o) = Some o.
Proof.
  intros Ho. destruct o as [z|]; [|done]. cbn. destruct (Ho z eq_refl).
  by rewrite (proj2 (Z.leb_le _ _)), (proj2 (Z.leb_le _ _)).
Qed.

Lemma request_limit_inv s v p o :
  request_limit s v p = Some o →
  (s = CUSTOM → is_Some o) ∧ (∀ z, o = Some z → 0 < z ≤ p).
Proof.
  unfold request_limit, _positive_int.
  destruct v as [| |x| | | |]; cbn; try done.
  - case_bool_decide; [done|]. intros [= <-]. split; [done|discriminate].
  - destruct (x <=? 0) eqn:E; [done|]. cbn. unfold require.
    destruct (x <=? p) eqn:E2; [|done]. destruct (_ || _); [|done]. cbn. intros [= <-].
    split; [by eexists|]. intros z [= <-]. breflect. lia.
Qed.

Ltac opt_inv H :=
  repeat match type of H with
  | (require _ ≫= _) = Some _ =>
      let Hr := fresh "Hreq" in apply bind_Some in H as (? & Hr%require_Some & H)
  | (_ ≫= _) = Some _ => apply bind_Some in H as (? & ? & H)
  end.

Lemma checked_request_ok v r : checked_request v = Some r → request_ok r.
Proof.
  unfold checked_request. destruct v as [| | | | | |l]; try done. intros H. cbn zeta in H.
  opt_inv H. injection H as <-.
  match goal with Hl : request_limit _ _ _ = Some _, Hp : preset_limit _ = Some _ |- _ =>
    destruct (request_limit_inv _ _ _ _ Hl) as [Hc Hz]; split; cbn; try rewrite Hp; cbn end;
    eauto using optional_in_inv.
  - case_bool_decide as E; [naive_solver|]. split; [done|]. by intros [? ?].
  - intros z. case_bool_decide; [apply Hz|done].
  - breflect. lia.
Qed.

Lemma preset_read r : request_ok r → ∃ p, preset_limit (rq_preset r) = Some p ∧ 0 < p.
Proof.
  intros [[p Hp] _ _ _ _ _ _ _]. exists p. split; [done|].
  unfold preset_limit in Hp. apply fmap_Some in Hp as (kv & Hf & ->).
  apply find_some in Hf as [Hin _]. cbn in Hin. naive_solver.
Qed.

Lemma source_read s b : request_source (JStr (source_value s)) b = Some s.
Proof. by destruct s. Qed.

(** The limit a request carries, or the preset's own for the other sources,
    is accepted again. *)
Lemma limit_read r p v :
  request_ok r → preset_limit (rq_preset r) = Some p →
  (v = opt_int (rq_limit r) ∨ v = JInt (workspace_limit r)) →
  ∃ o, request_limit (rq_source r) v p = Some o ∧
       (if bool_decide (rq_source r = CUSTOM) then o else None) = rq_limit r.
Proof.
  intros Hok Hp Hv. destruct (preset_read r Hok) as (p' & Hp' & Hpos).
  assert (p' = p) as -> by congruence. destruct Hok as [_ Hc Hl _ _ _ _ _].
  rewrite Hp in Hl. cbn in Hl. unfold workspace_limit in Hv. rewrite Hp in Hv. cbn in Hv.
  destruct (rq_limit r) as [z|] eqn:El; cbn in Hv.
  - destruct (Hl z eq_refl). assert (v = JInt z) as -> by naive_solver. exists (Some z).
    assert (rq_source r = CUSTOM) as -> by (apply Hc; eauto). cbn.
    rewrite (proj2 (Z.leb_gt _ _)) by lia. cbn. by rewrite (proj2 (Z.leb_le _ _)) by lia.
  - assert (rq_source r ≠ CUSTOM) as Hs. { intros E. apply Hc in E as [? ?]. done. }
    rewrite bool_decide_false by done. destruct Hv as [->| ->]; cbn.
    + rewrite bool_decide_false by done. eauto.
    + rewrite (proj2 (Z.leb_gt _ _)) by lia. cbn. rewrite (proj2 (Z.leb_le _ _)) by lia. cbn.
      rewrite Z.eqb_refl, orb_true_r. cbn. eauto.
Qed.

(** A dictionary whose fields say what [r] says is normalised to [r]. *)
Lemma checked_request_read r l :
  request_ok r →
  forallb (λ k, bool_decide (k ∈ _POLICY_KEYS)) l.*1 = true →
  dict_get (lit "policy_version") l = Some (JStr POLICY_VERSION) →
  dict_get (lit "preset") l = Some (JStr (rq_preset r)) →
  dict_get (lit "workspace_input_limit_source") l = Some (JStr (source_value (rq_source r))) →
  (field "workspace_input_limit" l = opt_int (rq_limit r) ∨
   field "workspace_input_limit" l = JInt (workspace_limit r)) →
  dict_get (lit "soft_trigger_percent") l = Some (JInt (rq_soft r)) →
  dict_get (lit "hard_trigger_percent") l = Some (JInt (rq_hard r)) →
  dict_get (lit "target_percent") l = Some (JInt (rq_target r)) →
  dict_get (lit "counter_id") l = Some (JStr COUNTER_ID) →
  field "retained_recent_turns" l = opt_int (rq_retained_recent_turns r) →
  field "max_history_groups" l = opt_int (rq_max_history_groups r) →
  field "safety_reserve_percent" l = opt_int (rq_safety_reserve_percent r) →
  field "safety_reserve_tokens" l = opt_int (rq_safety_reserve_tokens r) →
  checked_request (JObj l) = Some r.
Proof.
  intros Hok Hkeys Hv Hp Hs Hl Hso Hha Hta Hc Ht Hg Hrp Hrt.
  destruct (preset_read r Hok) as (p & Hpl & _).
  destruct (limit_read r p _ Hok Hpl Hl) as (o & Ho & Hlim). pose proof Hok as Hok'.
  destruct Hok' as [_ _ _ Hpct H1 H2 H3 H4].
  unfold checked_request. cbn zeta. unfold get_or.
  rewrite Hkeys, Hv, Hp, Hso, Hha, Hta, Hc, Ht, Hg, Hrp, Hrt. unfold is_text.
  cbn [from_option id]. rewrite !bool_decide_true by done. cbn [require mbind option_bind as_text].
  rewrite Hpl. unfold field at 2. rewrite Hs. cbn [from_option id mbind option_bind as_int].
  rewrite source_read. cbn [mbind option_bind]. rewrite Ho. cbn [mbind option_bind as_int].
  rewrite !(proj2 (Z.ltb_lt _ _)), (proj2 (Z.leb_le _ _)) by lia. cbn [andb require mbind option_bind].
  rewrite !optional_in_read by done. cbn [mbind option_bind]. rewrite Hlim. by destruct r.
Qed.

(** Look a closed key up in a literal with optional items. *)
Ltac read_dict :=
  rewrite ?dict_get_app, ?dict_get_opt;
  repeat match goal with
  | |- context [bool_decide (lit ?a = lit ?b)] =>
      first [rewrite (bool_decide_true (lit a = lit b)) by reflexivity
            |rewrite (bool_decide_false (lit a = lit b)) by (intros E; vm_compute in E; discriminate E)]
  end;
  first [reflexivity | match goal with |- context [JInt <$> ?o] => destruct o; reflexivity end].

Lemma request_items_read r : request_ok r → checked_request (JObj (request_items r)) = Some r.
Proof.
  intros Hok. apply checked_request_read; [done|..].
  all: unfold request_items, field.
  { rewrite !fmap_app, !forallb_app. cbn [fmap list_fmap forallb].
    rewrite !andb_true_iff. repeat split; try (vm_compute; reflexivity).
    all: match goal with |- context [opt_item _ ?o] => destruct o; reflexivity end. }
  all: try (left; read_dict); read_dict.
Qed.

(** ** The resolved policy *)

Lemma policy_items_keys r m ms : (policy_items r m ms).*1 `sublist_of` frozen_allowed.
Proof.
  unfold policy_items, frozen_allowed. rewrite !fmap_app.
  apply sublist_app; [done|]. repeat (apply (sublist_app _ [_]); [apply opt_item_keys|]).
  apply opt_item_keys.
Qed.

Lemma frozen_allowed_nodup : NoDup frozen_allowed.
Proof. by apply (bool_decide_unpack _); vm_compute. Qed.

Lemma policy_items_nodup r m ms : NoDup (policy_items r m ms).*1.
Proof. eapply sublist_NoDup; [apply frozen_allowed_nodup|apply policy_items_keys]. Qed.

Lemma get_changed d z : default (JInt d) (JInt <$> changed d z) = JInt z.
Proof. unfold changed. destruct (Z.eqb_spec z d); by subst. Qed.

Lemma copy_item_opt k l o : dict_get (lit k) l = JInt <$> o → copy_item k l = opt_item k o.
Proof. unfold copy_item. intros ->. by destruct o. Qed.

(** The fields of a frozen policy from which validation rebuilds the request. *)
Record policy_fields (r : PolicyRequest) (l : list (list N * json)) : Prop := {
  pf_version : dict_get (lit "policy_version") l = Some (JStr POLICY_VERSION);
  pf_preset : dict_get (lit "preset") l = Some (JStr (rq_preset r));
  pf_source :
    dict_get (lit "workspace_input_limit_source") l = Some (JStr (source_value (rq_source r)));
  pf_limit : dict_get (lit "workspace_input_limit") l = Some (JInt (workspace_limit r));
  pf_soft : dict_get (lit "soft_trigger_percent") l
            = JInt <$> changed SOFT_TRIGGER_PERCENT (rq_soft r);
  pf_hard : dict_get (lit "hard_trigger_percent") l
            = JInt <$> changed HARD_TRIGGER_PERCENT (rq_hard r);
  pf_target : dict_get (lit "target_percent") l = JInt <$> changed TARGET_PERCENT (rq_target r);
  pf_turns : dict_get (lit "retained_recent_turns") l = JInt <$> rq_retained_recent_turns r;
  pf_groups : dict_get (lit "max_history_groups") l = JInt <$> rq_max_history_groups r;
  pf_reserve_percent :
    dict_get (lit "safety_reserve_percent") l = JInt <$> rq_safety_reserve_percent r;
  pf_reserve_tokens :
    dict_get (lit "safety_reserve_tokens") l = JInt <$> rq_safety_reserve_tokens r
}.

Lemma policy_items_fields r m ms : policy_fields r (policy_items r m ms).
Proof. split; unfold policy_items; read_dict. Qed.

(** They are atoms, so they survive a reordering of the keys. *)
Lemma policy_fields_sorted r l l' :
  NoDup l.*1 → NoDup l'.*1 → sort_json (JObj l) = sort_json (JObj l') →
  policy_fields r l' → policy_fields r l.
Proof.
  intros Hl Hl' Hs [].
  split; (erewrite sorted_dict_atom; [eassumption|exact Hl|exact Hl'|exact Hs|]);
    intros v Hv; match goal with H : dict_get ?k l' = _ |- _ =>
      assert_fails (constr_eq H Hv); match type of Hv with dict_get k l' = _ => rewrite H in Hv end end;
    first [by injection Hv as <- | by apply fmap_Some in Hv as (? & _ & ->)].
Qed.

Lemma request_data_read r l :
  request_ok r → policy_fields r l → checked_request (request_data l) = Some r.
Proof.
  intros Hok []. unfold request_data, get_or, field.
  rewrite (copy_item_opt "retained_recent_turns" l _ pf_turns0),
    (copy_item_opt "max_history_groups" l _ pf_groups0),
    (copy_item_opt "safety_reserve_percent" l _ pf_reserve_percent0),
    (copy_item_opt "safety_reserve_tokens" l _ pf_reserve_tokens0).
  rewrite pf_version0, pf_preset0, pf_source0, pf_limit0, pf_soft0, pf_hard0, pf_target0, !get_changed.
  cbn [from_option id]. apply checked_request_read; [done|..].
  { rewrite !fmap_app, !forallb_app. rewrite !andb_true_iff.
    repeat split; try (vm_compute; reflexivity). all: match goal with |- context [opt_item _ ?o] => destruct o; reflexivity end. }
  all: unfold field; try (right; read_dict); read_dict.
Qed.

(** ** Models of the chain *)

(** What resolving one entry establishes. *)
Record model_ok (raw : json) (reserved percent tokens : Z) (m : _ResolvedModelContext) : Prop := {
  mo_entry : ∃ l c, raw = JObj l ∧ field "max_tokens" l = JInt (rm_requested_max_tokens m) ∧
    capabilities_from_mapping (field "capabilities" l) = Some c ∧
    context_metadata c = rm_metadata m ∧ max_context_tokens c = rm_total_context_tokens m;
  mo_allowance : rm_output_allowance m = Z.max (rm_requested_max_tokens m) reserved;
  mo_total : ∀ t, rm_total_context_tokens m = Some t →
    rm_applicable_input_limit m + rm_output_allowance m ≤ t;
  mo_input : ∀ i, rm_metadata m ≫= max_input_tokens = Some i → rm_applicable_input_limit m ≤ i;
  mo_deployment : ∀ d, rm_metadata m ≫= deployment_input_limit = Some d →
    rm_applicable_input_limit m ≤ d;
  mo_output : ∀ o, rm_metadata m ≫= max_output_tokens = Some o → rm_output_allowance m ≤ o;
  mo_reserve : rm_safety_reserve_tokens m
    = Z.max tokens ((percent * rm_applicable_input_limit m + 99) / 100);
  mo_available : rm_available_input_tokens m
    = rm_applicable_input_limit m - rm_safety_reserve_tokens m;
  mo_positive : 0 < rm_available_input_tokens m
}.

Lemma fold_min_le l x : fold_left Z.min l x ≤ x ∧ Forall (λ y, fold_left Z.min l x ≤ y) l.
Proof.
  revert x. induction l as [|y l IH]; intros x; cbn; [split; [lia|constructor]|].
  destruct (IH (Z.min x y)) as [H1 H2]. split; [lia|]. constructor; [lia|done].
Qed.
Lemma min_of_le x l y : y ∈ x :: l → min_of x l ≤ y.
Proof.
  unfold min_of. destruct (fold_min_le l x) as [H1 H2]. rewrite elem_of_cons.
  intros [->|Hy]; [done|]. by apply (proj1 (Forall_forall _ _) H2).
Qed.
Lemma min_of_elem x l : min_of x l ∈ x :: l.
Proof.
  unfold min_of. revert x. induction l as [|y l IH]; intros x; cbn; [set_solver|].
  specialize (IH (Z.min x y)). destruct (Z.min_spec x y) as [[_ E]|[_ E]]; rewrite E in *; set_solver.
Qed.
Lemma max_of_ge x l y : y ∈ x :: l → y ≤ max_of x l.
Proof.
  unfold max_of. revert x y. induction l as [|z l IH]; intros x y; cbn.
  - rewrite elem_of_cons. intros [->|[]%not_elem_of_nil]. done.
  - rewrite !elem_of_cons. intros [->|[->|Hy]].
    + transitivity (Z.max x z); [lia|]. apply IH. by left.
    + transitivity (Z.max x z); [lia|]. apply IH. by left.
    + apply IH. by right.
Qed.

Lemma constraints_elem max_input deployment total allowance y :
  (max_input = Some y ∨ deployment = Some y ∨ ∃ t, total = Some t ∧ y = t - allowance) →
  y ∈ constraints max_input deployment total allowance.
Proof.
  unfold constraints. intros [->|[->|(t & -> & ->)]]; cbn; set_solver.
Qed.

Lemma resolve_model_ok raw reserved percent tokens m :
  _resolve_model raw reserved percent tokens = Some m → model_ok raw reserved percent tokens m.
Proof.
  unfold _resolve_model. destruct raw as [| | | | | |l]; try done. intros H. cbn zeta in H.
  opt_inv H.
  match type of H with match ?c with _ => _ end = _ => destruct c as [|c0 cs] eqn:Hc; [done|] end.
  opt_inv H. injection H as <-.
  assert (∀ y, y ∈ c0 :: cs → min_of c0 cs ≤ y) as Hmin by (intros; by apply min_of_le).
  rewrite <- Hc in Hmin. clear Hc. breflect.
  match goal with Hm : _positive_int (field "max_tokens" l) = Some _ |- _ =>
    rename Hm into Hmax end.
  split; cbn; try done.
  - eexists l, _. split; [done|]. split; [|eauto].
    unfold _positive_int in Hmax. destruct (field "max_tokens" l) as [| |z| | | |]; try done.
    destruct (z <=? 0); [done|]. by injection Hmax as ->.
  - intros t Ht. apply Z.le_add_le_sub_r, Hmin, constraints_elem. eauto.
  - intros i Hi. apply Hmin, constraints_elem. eauto.
  - intros d Hd. apply Hmin, constraints_elem. eauto.
  - intros o Ho. match goal with Hv : over _ _ = false |- _ => rewrite Ho in Hv; cbn in Hv end.
    breflect. done.
Qed.

(** ** Finite numbers and distinct keys *)

Definition json_good (v : json) : Prop := json_wf v ∧ all_finite v = true.

Lemma good_arr l : Forall json_good l → json_good (JArr l).
Proof.
  intros H. unfold json_good. rewrite json_wf_arr. cbn.
  split; [|apply forallb_forall; intros x Hx%list_elem_of_In; by apply (proj1 (Forall_forall _ _) H)].
  eapply Forall_impl; [exact H|]. by intros ? [? _].
Qed.
Lemma good_obj l : NoDup l.*1 → Forall (λ kv, json_good kv.2) l → json_good (JObj l).
Proof.
  intros Hnd H. unfold json_good. rewrite json_wf_obj. cbn.
  split; [split; [done|]|apply forallb_forall; intros x Hx%list_elem_of_In;
    by apply (proj1 (Forall_forall _ _) H)].
  eapply Forall_impl; [exact H|]. by intros ? [? _].
Qed.
Lemma good_atom v : atom v → (∀ r, v ≠ JFloat r) → json_good v.
Proof. destruct v; cbn; try done. intros _ H. by destruct (H repr). Qed.

Lemma good_records v m :
  json_wf v → context_metadata_from_mapping v = Some (Some m) →
  Forall json_good (default [] (source_records m)).
Proof.
  intros Hwf Hv. destruct (metadata_parsed v m Hwf Hv) as (_ & _ & _ & Hr & _).
  destruct (source_records m) as [l|] eqn:E; cbn; [|done].
  assert (Forall json_wf l) as Hl.
  { unfold context_metadata_from_mapping in Hv. destruct v as [| | | | | |q]; try done.
    destruct (_ || _); [done|]. destruct (field "schema_version" q) as [| |[|[]|]| | | |]; try done.
    opt_inv Hv. destruct (_validate_declared_consistency _ _); [done|]. injection Hv as ->.
    match goal with Hn : new_metadata _ = Some _ |- _ => rename Hn into Hnew end.
    match goal with Hn : _source_records _ = Some _ |- _ => rename Hn into Hrec end.
    unfold new_metadata in Hnew. cbn [source_records] in Hnew.
    destruct (_ && _); [|done]. apply bind_Some in Hnew as (rs & Hrs & Hnew).
    destruct (_validate_declared_consistency _ _); [done|]. injection Hnew as <-. cbn in E. subst rs.
    pose proof (field_wf "source_records" q Hwf) as Hf.
    destruct (field "source_records" q) as [| | | | |l0|]; cbn in Hrec; try done.
    - by injection Hrec as <-.
    - apply fmap_Some in Hrec as (l1 & Hl1 & ->). apply fmap_Some in Hrs as (l2 & Hl2 & [= ->]).
      apply json_wf_arr in Hf. destruct (canonical_records_inv _ _ Hf Hl1) as [Hw _].
      by destruct (canonical_records_inv _ _ Hw Hl2). }
  clear E Hv. apply mapM_Some_1 in Hr. revert Hl.
  assert (∀ l' : list json, Forall2 (λ v w, _canonical_source_record v = Some w) l' l →
    Forall json_wf l → Forall json_good l) as Hgen; [|by eapply Hgen].
  clear Hr. intros l' Hr. induction Hr as [|x y l' l Hxy _ IH]; [done|].
  intros [Hy Hl]%Forall_cons. constructor; [|by apply IH]. split; [done|].
  unfold _canonical_source_record in Hxy. destruct x as [| | | | | |[|]]; try done.
  destruct (all_finite _) eqn:Ef; [|done].
  match type of Hxy with Some ?a = Some ?b => assert (a = b) as <- by congruence end.
  by rewrite all_finite_sort.
Qed.

Lemma capabilities_metadata v c m :
  capabilities_from_mapping v = Some c → context_metadata c = Some m →
  ∃ l, v = JObj l ∧ context_metadata_from_mapping (field "context_metadata" l) = Some (Some m).
Proof.
  unfold capabilities_from_mapping. destruct v as [| | | | | |l]; try done.
  destruct (negb _); [done|]. intros H Hm. opt_inv H. exists l. split; [done|].
  unfold new_capabilities in H. destruct (negb _); [done|]. opt_inv H. injection H as <-.
  cbn in Hm. subst. match goal with Hv : validate_context_metadata _ _ _ = _ |- _ =>
    unfold validate_context_metadata in Hv; destruct (_ || _); [done|]; cbn in Hv; rename Hv into Hval end.
  match goal with Hv : context_metadata_from_mapping _ = Some ?o |- _ => rename o into o', Hv into Hfrom end.
  cbn in Hval. destruct o' as [m'|]; [|done]. destruct (_ || _) in Hval; [done|]. by injection Hval as ->.
Qed.

Lemma good_opt_int o : json_good (opt_int o).
Proof. by destruct o. Qed.
Lemma good_opt_text o : json_good (opt_text o).
Proof. by destruct o. Qed.
Lemma good_opt_arr o :
  Forall json_good (default [] o) →
  json_good (match o with Some l => JArr l | None => JNull end).
Proof. destruct o; cbn; [apply good_arr|done]. Qed.
#[local] Hint Resolve good_opt_int good_opt_text good_opt_arr : core.

Ltac good_literal :=
  apply good_obj; [by apply (bool_decide_unpack _); vm_compute|];
  repeat (apply Forall_cons; split); cbn [snd]; auto; try done.

Lemma good_as_dict m : Forall json_good (default [] (source_records m)) → json_good (as_dict m).
Proof. intros H. unfold as_dict. good_literal. Qed.

Definition records_good (m : _ResolvedModelContext) : Prop :=
  ∀ x, rm_metadata m = Some x → Forall json_good (default [] (source_records x)).

Lemma good_projection m : records_good m → json_good (_model_projection m).
Proof.
  intros Hm. unfold _model_projection. good_literal.
  - unfold projection_source. good_literal.
    + destruct (rm_metadata m) as [x|] eqn:E; [|done]. cbn. by apply good_as_dict, Hm.
    + apply good_opt_arr. destruct (rm_metadata m) as [x|] eqn:E; [|done]. by apply Hm.
  - good_literal.
  - good_literal.
  - apply good_arr, Forall_fmap, Forall_forall. done.
Qed.

Lemma good_policy r m ms :
  Forall records_good (m :: ms) → json_good (JObj (policy_items r m ms)).
Proof.
  intros Hm. apply good_obj; [apply policy_items_nodup|]. unfold policy_items.
  rewrite !Forall_app.
  assert (∀ k o, Forall (λ kv : list N * json, json_good kv.2) (opt_item k o)) as Hopt.
  { intros k []; repeat constructor. }
  split; [|repeat (split; [apply Hopt|]); apply Hopt].
  repeat (apply Forall_cons; split); cbn [snd]; auto; try done.
  - apply good_arr, Forall_fmap. eapply Forall_impl; [exact Hm|]. apply good_projection.
  - good_literal.
  - unfold _counter_projection. good_literal.
  - apply good_arr, Forall_fmap, Forall_forall. intros x _. good_literal.
  - apply good_arr. unfold _unknowns. rewrite !Forall_app.
    repeat split; repeat case_match; repeat constructor.
Qed.

Lemma resolved_records_good raw reserved percent tokens m :
  json_wf raw → model_ok raw reserved percent tokens m → records_good m.
Proof.
  intros Hwf [(l & c & -> & _ & Hc & Hm & _) _ _ _ _ _ _ _ _] x Hx.
  assert (context_metadata c = Some x) as Hcx by congruence.
  destruct (capabilities_metadata _ _ _ Hc Hcx) as (q & Hq & Hfrom).
  eapply good_records; [|exact Hfrom]. apply field_wf. rewrite <- Hq. by apply field_wf.
Qed.
