(* ===== verification/ContextPolicyProperties.v ===== *)
(** * Context policies: what freezing and validating them guarantees *)

From stdpp Require Import base gmap list strings sorting.
From Stdlib Require Import ZArith NArith Lia.
From S2P Require Import Prelude.
From S2P Require Import Json.
From S2P Require Import JsonTheory.
From S2P Require Import TurnTranscript.
From S2P Require Import ContextMetadata.
From S2P Require Import ContextPolicy.
From S2P Require Import ContextPolicyTheory.

Local Open Scope Z_scope.

(** Normalising twice is normalising once, as the docstring says. *)
Lemma normalize_idempotent v w :
  normalize_context_policy_request v = Some w → normalize_context_policy_request w = Some w.
Proof.
  unfold normalize_context_policy_request. intros (r & Hr & [= <-])%bind_Some.
  by rewrite (request_items_read r (checked_request_ok v r Hr)).
Qed.

(** ** Resolution *)

Lemma resolve_inv request chain reserved p :
  resolve_context_policy request chain reserved = Some p →
  ∃ r m ms z, request_ok r ∧ checked_request request = Some r ∧ reserved = JInt z ∧ 0 < z ∧
    resolve_models r chain reserved = Some (m :: ms) ∧ p = JObj (policy_items r m ms) ∧
    Forall2 (λ raw m, model_ok raw z
      (default DEFAULT_SAFETY_RESERVE_PERCENT (rq_safety_reserve_percent r))
      (default DEFAULT_SAFETY_RESERVE_TOKENS (rq_safety_reserve_tokens r)) m) chain (m :: ms).
Proof.
  unfold resolve_context_policy. intros (r & Hr & H)%bind_Some.
  apply bind_Some in H as ([|m ms] & Hms & H); [done|]. injection H as <-.
  exists r, m, ms. pose proof Hms as Hms'. unfold resolve_models in Hms'.
  apply bind_Some in Hms' as (z & Hz & H). apply bind_Some in H as (items & Hi & H).
  exists z. split; [by eapply checked_request_ok|]. split; [done|].
  assert (reserved = JInt z ∧ 0 < z) as [-> Hpos].
  { unfold _positive_int in Hz. destruct reserved as [| |y| | | |]; try done.
    destruct (y <=? 0) eqn:E; [done|]. injection Hz as ->. breflect. done. }
  split_and!; try done.
  assert (items = chain) as ->.
  { unfold _chain_items in Hi. destruct chain; [done|]. destruct (forallb _ _); [|done]. by injection Hi. }
  apply mapM_Some_1 in H. eapply Forall2_impl; [exact H|]. intros raw x. apply resolve_model_ok.
Qed.

(** Resolving the normalised request is resolving the request. *)
Lemma resolve_normalised r request chain reserved :
  request_ok r → checked_request request = Some r →
  resolve_context_policy (JObj (request_items r)) chain reserved
  = resolve_context_policy request chain reserved.
Proof.
  intros Hok Hr. unfold resolve_context_policy. by rewrite (request_items_read r Hok), Hr.
Qed.

Lemma frozen_limit_accepts r l p :
  request_ok r → policy_fields r l → preset_limit (rq_preset r) = Some p →
  frozen_limit_ok l p = true.
Proof.
  intros Hok Hf Hp. unfold frozen_limit_ok, field.
  rewrite (pf_source _ _ Hf), (pf_limit _ _ Hf). cbn [from_option id].
  destruct Hok as [_ Hc Hl _ _ _ _ _]. unfold workspace_limit. rewrite Hp in *. cbn in Hl |- *.
  destruct (rq_limit r) as [z|] eqn:E; cbn.
  - rewrite (proj2 Hc) by eauto. cbn. apply Z.leb_le. apply Hl. done.
  - destruct (rq_source r); cbn; [by apply Z.eqb_refl..|].
    destruct (proj1 Hc eq_refl). done.
Qed.

Lemma resolved_good request chain reserved p :
  Forall json_wf chain → resolve_context_policy request chain reserved = Some p → json_good p.
Proof.
  intros Hchain (r & m & ms & z & _ & _ & _ & _ & _ & -> & Hmodels)%resolve_inv.
  apply good_policy, Forall_forall. intros x [i Hi]%list_elem_of_lookup.
  destruct (Forall2_lookup_r _ _ _ _ _ Hmodels Hi) as (raw & Hraw & Hm).
  eapply resolved_records_good; [|exact Hm]. eapply Forall_lookup_1; [exact Hchain|exact Hraw].
Qed.

(** ** The frozen policy reads back *)

(** A policy resolved when an agent version is published is accepted
    again by the validation before each run against the same model chain, and
    validation returns it unchanged; the stored copy may have its keys in
    another order at any depth (a JSONB column does that). *)
Lemma frozen_policy_round_trip request chain reserved p value :
  Forall json_wf chain → json_wf value →
  resolve_context_policy request chain reserved = Some p →
  sort_json value = sort_json p →
  validate_frozen_context_policy value chain reserved = Some p.
Proof.
  intros Hchain Hwf Hres Hs. pose proof Hres as Hres'.
  apply resolve_inv in Hres' as (r & m & ms & z & Hok & Hr & -> & Hz & Hms & -> & Hmodels).
  destruct value as [| | | | | |l]; try discriminate Hs.
  assert (NoDup l.*1) as Hl by (by apply json_wf_obj in Hwf as [? _]).
  pose proof (policy_items_nodup r m ms) as Hnd.
  assert (policy_fields r l) as Hf.
  { eapply policy_fields_sorted; [done| |exact Hs|apply policy_items_fields]. done. }
  destruct (resolved_good _ _ _ _ Hchain Hres) as [Hpwf Hpfin].
  pose proof (sorted_dict_keys _ _ Hs) as Hkeys.
  unfold validate_frozen_context_policy.
  assert (forallb (λ k, bool_decide (k ∈ l.*1)) frozen_required
          && forallb (λ k, bool_decide (k ∈ frozen_allowed)) l.*1 = true) as ->.
  { rewrite (forallb_keys_perm _ _ _ Hkeys). apply andb_true_iff. split.
    - apply forallb_forall. intros k Hk%list_elem_of_In. apply bool_decide_eq_true.
      rewrite Hkeys. unfold policy_items. rewrite fmap_app, elem_of_app. by left.
    - apply forallb_forall. intros k Hk%list_elem_of_In. apply bool_decide_eq_true.
      eapply elem_of_submseteq; [exact Hk|]. apply sublist_submseteq, policy_items_keys. }
  cbn [require mbind option_bind]. rewrite (request_data_read r l Hok Hf). cbn [mbind option_bind].
  destruct (preset_read r Hok) as (plimit & Hp & _). rewrite Hp. cbn [mbind option_bind].
  rewrite (frozen_limit_accepts r l plimit Hok Hf Hp). cbn [require mbind option_bind].
  rewrite (resolve_normalised r request chain _ Hok Hr), Hres. cbn [mbind option_bind].
  unfold _canonical_json. rewrite !canonical_json_dump.
  assert (dump (JObj l) = dump (JObj (policy_items r m ms))) as -> by by apply dump_eq_iff.
  assert (all_finite (JObj l) = true) as ->.
  { rewrite <- all_finite_sort, Hs, all_finite_sort. done. }
  rewrite Hpfin. cbn [mbind option_bind mret option_ret]. by rewrite bool_decide_true.
Qed.

(** ** Budgets *)

(** The input limit [limit] leaves room in every model of the chain for the
    output the run reserves and for the safety margin, and the triggers are
    ordered below it. *)
Definition policy_safe (chain : list json) (reserved : json) (p : json) : Prop :=
  ∃ l limit soft hard target percent tokens output,
    p = JObj l ∧ field "input_limit_tokens" l = JInt limit ∧
    field "thresholds" l = JObj [(lit "soft", JInt soft); (lit "hard", JInt hard);
                                 (lit "target", JInt target)] ∧
    get_or (JInt DEFAULT_SAFETY_RESERVE_PERCENT) "safety_reserve_percent" l = JInt percent ∧
    get_or (JInt DEFAULT_SAFETY_RESERVE_TOKENS) "safety_reserve_tokens" l = JInt tokens ∧
    reserved = JInt output ∧
    0 < limit ∧ 0 ≤ target ≤ soft ∧ soft ≤ hard ≤ limit ∧
    ∀ raw, raw ∈ chain → ∃ e c max_tokens reserve,
      raw = JObj e ∧ capabilities_from_mapping (field "capabilities" e) = Some c ∧
      field "max_tokens" e = JInt max_tokens ∧
      0 ≤ tokens ≤ reserve ∧ percent * (limit + reserve) ≤ 100 * reserve ∧
      (∀ t, max_context_tokens c = Some t → limit + reserve + Z.max max_tokens output ≤ t) ∧
      (∀ i, context_metadata c ≫= max_input_tokens = Some i → limit + reserve ≤ i) ∧
      (∀ d, context_metadata c ≫= deployment_input_limit = Some d → limit + reserve ≤ d) ∧
      (∀ o, context_metadata c ≫= max_output_tokens = Some o → Z.max max_tokens output ≤ o).

Lemma scaled_threshold_mono v p q :
  0 < v → 0 < p → p ≤ q → q ≤ 100 →
  0 ≤ _scaled_threshold v p ∧ _scaled_threshold v p ≤ _scaled_threshold v q ∧
  _scaled_threshold v q ≤ v.
Proof.
  intros Hv Hp Hpq Hq. unfold _scaled_threshold.
  assert (p * v ≤ q * v ≤ 100 * v) as Hm by nia.
  assert (0 < p * v) by nia. generalize dependent (p * v). generalize dependent (q * v).
  intros a b Hab Hb. destruct (Z.leb_spec p 55), (Z.leb_spec q 55); try lia;
    repeat split; try (apply Z.div_pos; lia); try (apply Z.div_le_mono; lia);
    try (apply Z.div_le_upper_bound; lia).
  all: apply Z.lt_succ_r, Z.div_lt_upper_bound; lia.
Qed.

Lemma reserve_covers percent tokens applicable reserve :
  0 ≤ percent → reserve = Z.max tokens ((percent * applicable + 99) / 100) →
  percent * applicable ≤ 100 * reserve.
Proof.
  intros Hp ->. pose proof (Z.div_mod (percent * applicable + 99) 100 ltac:(lia)).
  pose proof (Z.mod_pos_bound (percent * applicable + 99) 100 ltac:(lia)). lia.
Qed.

Lemma working_limit_pos r m ms raws z percent tokens :
  request_ok r → Forall2 (λ raw m, model_ok raw z percent tokens m) raws (m :: ms) →
  0 < working_input_limit r m ms.
Proof.
  intros Hok Hmodels. unfold working_input_limit. apply Z.min_glb_lt.
  - unfold common_available_input.
    pose proof (min_of_elem (rm_available_input_tokens m) (rm_available_input_tokens <$> ms)) as He.
    rewrite <- (fmap_cons rm_available_input_tokens) in He.
    apply list_elem_of_fmap in He as (x & -> & [i Hi]%list_elem_of_lookup).
    destruct (Forall2_lookup_r _ _ _ _ _ Hmodels Hi) as (raw & _ & Hm). apply Hm.
  - unfold workspace_limit. destruct (preset_read r Hok) as (pl & Hpl & ?). rewrite Hpl.
    destruct (rq_limit r) eqn:E; cbn; [|done]. by apply (ok_limit r Hok).
Qed.

Lemma resolved_policy_safe request chain reserved p :
  resolve_context_policy request chain reserved = Some p → policy_safe chain reserved p.
Proof.
  intros (r & m & ms & z & Hok & Hr & -> & Hz & Hms & -> & Hmodels)%resolve_inv.
  set (limit := working_input_limit r m ms).
  assert (∀ x, x ∈ m :: ms → limit ≤ rm_available_input_tokens x) as Havail.
  { intros x Hx. unfold limit, working_input_limit, common_available_input.
    rewrite Z.le_min_l. apply min_of_le. rewrite <- fmap_cons. by apply list_elem_of_fmap_2. }
  assert (0 < limit) as Hpos by (by eapply working_limit_pos).
  destruct (ok_percents r Hok) as [[H1 H2] [H3 H4]].
  destruct (scaled_threshold_mono limit (rq_target r) (rq_soft r)) as (? & ? & _); try lia.
  destruct (scaled_threshold_mono limit (rq_soft r) (rq_hard r)) as (_ & ? & ?); try lia.
  destruct (policy_items_fields r m ms) as [_ _ _ _ _ _ _ _ _ Hrp Hrt].
  exists (policy_items r m ms), limit. do 3 eexists.
  exists (default DEFAULT_SAFETY_RESERVE_PERCENT (rq_safety_reserve_percent r)),
    (default DEFAULT_SAFETY_RESERVE_TOKENS (rq_safety_reserve_tokens r)), z.
  unfold get_or. rewrite Hrp, Hrt. split_and!; try done.
  1-2: match goal with |- context [JInt <$> ?o] => by destruct o end.
  intros raw [i Hi]%list_elem_of_lookup.
  destruct (Forall2_lookup_l _ _ _ _ _ Hmodels Hi) as (x & Hx & Hm).
  pose proof (Havail x (list_elem_of_lookup_2 _ _ _ Hx)) as Hlx.
  destruct Hm as [(e & c & -> & Hmt & Hc & Hmeta & Htot) Hal Ht Hin Hd Ho Hres Hav _].
  exists e, c, (rm_requested_max_tokens x), (rm_safety_reserve_tokens x).
  rewrite Hmeta, Htot. rewrite Hal in *. rewrite Hav in Hlx.
  assert (0 ≤ default DEFAULT_SAFETY_RESERVE_PERCENT (rq_safety_reserve_percent r)) as Hp0.
  { destruct (rq_safety_reserve_percent r) eqn:E; cbn; [|done]. by apply (ok_reserve_percent r Hok). }
  assert (0 ≤ default DEFAULT_SAFETY_RESERVE_TOKENS (rq_safety_reserve_tokens r)) as Ht0.
  { destruct (rq_safety_reserve_tokens r) eqn:E; cbn; [|done]. by apply (ok_reserve_tokens r Hok). }
  split_and!; try done.
  - rewrite Hres. lia.
  - pose proof (reserve_covers _ _ _ _ Hp0 Hres). nia.
  - intros t Hxt. specialize (Ht t Hxt). lia.
  - intros t Hxt. specialize (Hin t Hxt). lia.
  - intros t Hxt. specialize (Hd t Hxt). lia.
Qed.

(** C35. A frozen policy that passes validation before a run has exactly the
    content the run's own model chain resolves to, and its input limit is
    positive and fits every model of that chain together with the reserved
    output and the safety margin, so that no model of the chain can be sent
    more than it declares; the target, soft and hard triggers are ordered and
    lie within the limit. *)
Theorem validated_policy_is_safe value chain reserved p :
  validate_frozen_context_policy value chain reserved = Some p →
  _canonical_json value = _canonical_json p ∧ is_Some (_canonical_json value) ∧
  policy_safe chain reserved p.
Proof.
  unfold validate_frozen_context_policy. destruct value as [| | | | | |l]; try done.
  intros H. opt_inv H. injection H as <-. breflect. subst.
  match goal with H1 : _canonical_json (JObj l) = Some _, H2 : _canonical_json _ = Some _ |- _ =>
    rewrite H1, H2 end.
  split_and!; [done|by eexists|]. by eapply resolved_policy_safe.
Qed.

(** ** Witnesses *)

Definition sample_chain : list json :=
  [JObj [(lit "profile_id", JStr (lit "p1")); (lit "credential_ref", JStr (lit "c1"));
         (lit "provider", JStr (lit "openai")); (lit "model", JStr (lit "large"));
         (lit "max_tokens", JInt 4096);
         (lit "capabilities", JObj [(lit "max_context_tokens", JInt 128000)])];
   JObj [(lit "profile_id", JStr (lit "p2")); (lit "credential_ref", JStr (lit "c2"));
         (lit "provider", JStr (lit "openai")); (lit "model", JStr (lit "small"));
         (lit "max_tokens", JInt 2048);
         (lit "capabilities", JObj [(lit "max_context_tokens", JInt 32000)])]].
Definition sample_policy : json :=
  default JNull (resolve_context_policy (JObj [(lit "preset", JStr (lit "GENERAL_64K"))])
                   sample_chain (JInt 2000)).

Lemma sample_resolved :
  resolve_context_policy (JObj [(lit "preset", JStr (lit "GENERAL_64K"))]) sample_chain (JInt 2000)
  = Some sample_policy.
Proof. vm_compute. reflexivity. Qed.

Lemma sample_chain_wf : Forall json_wf sample_chain.
Proof.
  repeat constructor; try (apply (bool_decide_unpack _); vm_compute; done).
  all: vm_compute; try done; set_solver.
Qed.

Lemma sample_policy_wf : json_wf sample_policy.
Proof. eapply resolved_good; [apply sample_chain_wf|apply sample_resolved]. Qed.

Lemma frozen_policy_round_trip_witness :
  validate_frozen_context_policy (sort_json sample_policy) sample_chain (JInt 2000)
  = Some sample_policy.
Proof.
  exact (frozen_policy_round_trip _ sample_chain (JInt 2000) sample_policy _ sample_chain_wf
    (sort_json_wf _ sample_policy_wf) sample_resolved (sort_json_idem _ sample_policy_wf)).
Defined.

Lemma validated_policy_is_safe_witness :
  validate_frozen_context_policy sample_policy sample_chain (JInt 2000) = Some sample_policy ∧
  policy_safe sample_chain (JInt 2000) sample_policy.
Proof.
  assert (validate_frozen_context_policy sample_policy sample_chain (JInt 2000)
          = Some sample_policy) as H by (vm_compute; reflexivity).
  split; [exact H|]. apply (validated_policy_is_safe sample_policy sample_chain (JInt 2000)). exact H.
Defined.
