(* ===== verification/Outcome.v ===== *)
(** * Pure code that may raise

    [outcome E] as a monad of its own: functions of the source that compute a
    value or raise, without state. *)

From stdpp Require Import base gmap list strings.
From S2P Require Import Prelude.

#[global] Instance outcome_ret {E} : MRet (outcome E) := λ A a, Return a.
#[global] Instance outcome_bind {E} : MBind (outcome E) := λ A B f m,
  match m with Return a => f a | Raise e => Raise e end.

#[global] Instance outcome_fmap {E} : FMap (outcome E) := λ A B f m,
  match m with Return a => Return (f a) | Raise e => Raise e end.

(** [if b: raise e] *)
Definition fail_if {E} (b : bool) (e : E) : outcome E unit := if b then Raise e else Return tt.
(** A lookup that raises when there is nothing. *)
Definition or_raise {E A} (e : E) (o : option A) : outcome E A :=
  match o with Some a => Return a | None => Raise e end.

(** [[f(x) for x in l]] *)
Fixpoint traverse {E A B} (f : A → outcome E B) (l : list A) : outcome E (list B) :=
  match l with
  | [] => Return []
  | x :: r => match f x with
              | Raise e => Raise e
              | Return y => match traverse f r with
                            | Raise e => Raise e
                            | Return ys => Return (y :: ys)
                            end
              end
  end.

(** [for x in l: state = f(state, x)] *)
Fixpoint fold_raise {E A S} (f : S → A → outcome E S) (l : list A) (s : S) : outcome E S :=
  match l with
  | [] => Return s
  | x :: r => match f s x with Raise e => Raise e | Return s' => fold_raise f r s' end
  end.

Section Lemmas.
Context {E : Type}.

Lemma obind_inv {A B} (m : outcome E A) (f : A → outcome E B) b :
  m ≫= f = Return b → ∃ a, m = Return a ∧ f a = Return b.
Proof. destruct m as [a|e]; [|done]. intros H. exists a. split; [done|exact H]. Qed.

Lemma ofmap_inv {A B} (f : A → B) (m : outcome E A) b :
  f <$> m = Return b → ∃ a, m = Return a ∧ b = f a.
Proof. destruct m as [a|e]; [|done]. intros [= <-]. eauto. Qed.

Lemma obind_raise {A B} (m : outcome E A) (f : A → outcome E B) e :
  m ≫= f = Raise e → m = Raise e ∨ ∃ a, m = Return a ∧ f a = Raise e.
Proof. intros H. destruct m as [a|e']; [|left; by injection H as ->]. right. exists a. split; [done|exact H]. Qed.

Lemma fail_if_inv b (e : E) u : fail_if b e = Return u → b = false.
Proof. by destruct b. Qed.

Lemma fail_if_raise b (e e' : E) : fail_if b e = Raise e' → b = true ∧ e' = e.
Proof. destruct b; [by intros [= <-]|done]. Qed.

Lemma or_raise_inv {A} (e : E) (o : option A) a : or_raise e o = Return a → o = Some a.
Proof. destruct o; [by intros [= ->]|done]. Qed.

Lemma traverse_Forall2 {A B} (f : A → outcome E B) l k :
  traverse f l = Return k → Forall2 (λ x y, f x = Return y) l k.
Proof.
  revert k. induction l as [|x l IH]; intros k; cbn; [by intros [= <-]|].
  destruct (f x) as [y|] eqn:Hx; [|done]. destruct (traverse f l) as [ys|]; [|done].
  intros [= <-]. constructor; auto.
Qed.

Lemma traverse_return {A B} (f : A → outcome E B) (g : A → B) l :
  (∀ x, x ∈ l → f x = Return (g x)) → traverse f l = Return (g <$> l).
Proof.
  induction l as [|x l IH]; intros H; cbn; [done|].
  rewrite H by set_solver. by rewrite IH by set_solver.
Qed.

Lemma traverse_raise {A B} (f : A → outcome E B) l e :
  traverse f l = Raise e → ∃ x, x ∈ l ∧ f x = Raise e.
Proof.
  induction l as [|x l IH]; cbn; [done|].
  destruct (f x) as [y|e'] eqn:Hx.
  - destruct (traverse f l) as [ys|]; [done|]. intros [= ->].
    destruct IH as (x' & ? & ?); [done|]. exists x'. set_solver.
  - intros [= ->]. exists x. set_solver.
Qed.

Lemma fold_raise_app {A S} (f : S → A → outcome E S) l k s :
  fold_raise f (l ++ k) s = (t ← fold_raise f l s; fold_raise f k t).
Proof. revert s. induction l as [|x l IH]; intros s; cbn; [done|]. by destruct (f s x). Qed.

(** A property of the state kept by every iteration. *)
Lemma fold_raise_inv {A S} (f : S → A → outcome E S) (P : list A → S → Prop) l s s' :
  P [] s →
  (∀ done x t t', P done t → x ∈ l → f t x = Return t' → P (done ++ [x]) t') →
  fold_raise f l s = Return s' → P l s'.
Proof.
  intros H0 Hstep. enough (∀ done rest t, done ++ rest = l → P done t →
    fold_raise f rest t = Return s' → P l s') as H by (by apply (H [] l s)).
  intros dn rest. revert dn. induction rest as [|x rest IH]; intros dn t Hl Ht; cbn.
  - intros [= <-]. rewrite app_nil_r in Hl. by subst.
  - destruct (f t x) as [t'|] eqn:Hf; [|done]. apply (IH (dn ++ [x])).
    + by rewrite <- app_assoc.
    + eapply Hstep; [exact Ht| |exact Hf]. subst. set_solver.
Qed.

(** An iteration that never raises is an ordinary fold. *)
Lemma fold_raise_return {A S} (f : S → A → outcome E S) (P : S → Prop) l s :
  P s → (∀ x t, P t → x ∈ l → ∃ t', f t x = Return t' ∧ P t') →
  ∃ s', fold_raise f l s = Return s' ∧ P s'.
Proof.
  revert s. induction l as [|x l IH]; intros s Hs Hf; cbn; [eauto|].
  destruct (Hf x s Hs) as (t & -> & Ht); [set_solver|].
  apply IH; [done|]. intros y u Hu Hy. apply Hf; [done|set_solver].
Qed.
End Lemmas.

(** Split a successful computation into its parts. *)
Ltac outcome_inv H :=
  lazymatch type of H with
  | mbind _ _ = Return _ =>
      let a := fresh "a" in let H1 := fresh "H" in let H2 := fresh "H" in
      apply obind_inv in H as (a & H1 & H2); cbn beta in H2; outcome_inv H1; outcome_inv H2
  | fmap _ _ = Return _ =>
      let a := fresh "a" in let H1 := fresh "H" in let H2 := fresh "H" in
      apply ofmap_inv in H as (a & H1 & H2); outcome_inv H1
  | fail_if _ _ = Return _ => apply fail_if_inv in H
  | or_raise _ _ = Return _ => apply or_raise_inv in H
  | mret _ = Return _ => injection H as H
  | _ => idtac
  end.
