(* ===== verification/HistoryPlanner.v ===== *)
(** * The history planner

    Model of [packages/agent_runtime/history_planner.py]: the all-or-nothing
    selection of thread history under the working input budget.

    Source groups and the scope are records whose fields have their Python
    types; [new_group] is [HistorySourceGroup.__post_init__].  The injected
    counter and the summary verifier are parameters: [count g = None] is an
    exception of the counter, and the JSON value it returns otherwise need not
    be a non-negative integer.  A threshold mapping holds integers, as
    [resolve_context_policy] writes it.  [sorted] orders groups by keys that
    contain the group identity, which the planner has checked to be distinct,
    so that any sorting function gives the same list. *)

From stdpp Require Import base gmap list strings sorting.
From Stdlib Require Import ZArith NArith Lia.
From S2P Require Import Prelude.
From S2P Require Import Json.
From S2P Require Import ContextMetadata.
From S2P Require Import Outcome.

Local Open Scope Z_scope.

Definition PLANNER_VERSION : list N := lit "history_planner_m3_v1".
Definition SOFT_TRIGGER_PERCENT : Z := 70.
Definition HARD_TRIGGER_PERCENT : Z := 85.
Definition TARGET_PERCENT : Z := 55.

Inductive HistoryCategory := MANDATORY | KEEP_EXACT | RECENT | VERIFIED_SUMMARY | OPTIONAL.
#[global] Instance HistoryCategory_dec : EqDecision HistoryCategory.
Proof. solve_decision. Defined.

Module SummaryEligibility.
Inductive t := ELIGIBLE | INELIGIBLE | UNKNOWN.
#[global] Instance dec : EqDecision t.
Proof. solve_decision. Defined.
End SummaryEligibility.

Module PlanPressure.
Inductive t := NONE | SOFT | HARD.
#[global] Instance dec : EqDecision t.
Proof. solve_decision. Defined.
End PlanPressure.

Module PlanStatus.
Inductive t := READY | INCOMPLETE | BLOCKED.
End PlanStatus.

Inductive DecisionReason :=
| RETAINED_MANDATORY | RETAINED_KEEP_EXACT | RETAINED_RECENT | RETAINED_VERIFIED_SUMMARY
| RETAINED_OPTIONAL | DROPPED_SHARED_BUDGET | DROPPED_RECENT_SUFFIX_GAP
| DROPPED_COVERED_BY_SUMMARY | DROPPED_SUMMARY_NOT_NEEDED | DROPPED_SUMMARY_COVERAGE_INVALID.
#[global] Instance DecisionReason_dec : EqDecision DecisionReason.
Proof. solve_decision. Defined.

Module EligibilityReason.
Inductive t :=
| EXPLICIT_CATEGORY | UNKNOWN_CATEGORY_KEEP_EXACT | UNKNOWN_SUMMARY_ELIGIBILITY_KEEP_EXACT
| PUBLISHER_MARKED_SUMMARY_ELIGIBLE | PUBLISHER_MARKED_SUMMARY_INELIGIBLE | VERIFIED_SUMMARY.
End EligibilityReason.

Module PlanReason.
Inductive t :=
| NO_PRESSURE | SOFT_THRESHOLD_REACHED_BEFORE_TRIM | HARD_THRESHOLD_REACHED_BEFORE_TRIM
| TARGET_MET_AFTER_PLANNING | SHARED_BUDGET_TRIM_REQUIRED | VERIFIED_SUMMARY_USED
| WORK_LIMIT_REACHED | KEEP_EXACT_OMITTED | RECENT_GROUP_OMITTED
| VERIFIED_SUMMARY_COVERAGE_INVALID | HARD_LIMIT_NOT_SATISFIED.
#[global] Instance dec : EqDecision t.
Proof. solve_decision. Defined.
End PlanReason.

Module InsufficiencyCode.
Inductive t :=
| WORK_LIMIT_REACHED | NO_ELIGIBLE_SOURCE | NO_VERIFIED_SUMMARY | KEEP_EXACT_NOT_RETAINED
| RECENT_SOURCE_NOT_RETAINED | VERIFIED_SUMMARY_NOT_RETAINED
| VERIFIED_SUMMARY_COVERAGE_INVALID | POST_TRIM_PLANNED_AT_OR_ABOVE_HARD_LIMIT.
End InsufficiencyCode.

(** What [plan_history] can raise.  [AgentHubError] carries its code. *)
Inductive PlanError :=
| ValueError
| HistoryPlanContractError (message : string)
| AgentHubError (code : string)
| KeyError.

Definition contract_error {A} (message : string) : outcome PlanError A :=
  Raise (HistoryPlanContractError message).

(** ** Sources *)

Record HistoryScope := {
  workspace_id : list N;
  thread_id : list N;
  permission_snapshot : list N
}.
#[global] Instance HistoryScope_dec : EqDecision HistoryScope.
Proof. solve_decision. Defined.

Record SummaryCoverage := { source_group_id : list N; source_revision : list N }.
#[global] Instance SummaryCoverage_dec : EqDecision SummaryCoverage.
Proof. solve_decision. Defined.

Record HistorySourceGroup := {
  group_id : list N;
  scope : HistoryScope;
  revision : list N;
  sequence : Z;
  watermark : Z;
  exchange_id : list N;
  original_ref : list N;
  count_version : Z;
  category : option HistoryCategory;
  summary_eligibility : SummaryEligibility.t;
  summary_eligibility_reason : list N;
  coverage : list SummaryCoverage;
  verified : bool;
  verification_ref : option (list N)
}.

Definition new_scope (s : HistoryScope) : outcome PlanError HistoryScope :=
  fail_if (negb (forallb trimmed [workspace_id s; thread_id s; permission_snapshot s])) ValueError;;
  mret s.

Definition new_group (g : HistorySourceGroup) : outcome PlanError HistorySourceGroup :=
  fail_if (negb (forallb trimmed [group_id g; revision g; exchange_id g; original_ref g])
           || (sequence g <? 0) || (watermark g <? 0) || (count_version g <=? 0)) ValueError;;
  fail_if (negb (trimmed (summary_eligibility_reason g))) ValueError;;
  fail_if (negb (bool_decide (NoDup (coverage g)))) ValueError;;
  fail_if (match verification_ref g with Some r => negb (trimmed r) | None => false end) ValueError;;
  (if bool_decide (category g = Some VERIFIED_SUMMARY)
   then fail_if (negb (verified g) || bool_decide (verification_ref g = None)
                 || bool_decide (coverage g = [])) ValueError
   else fail_if (verified g || bool_decide (is_Some (verification_ref g))
                 || negb (bool_decide (coverage g = []))) ValueError);;
  fail_if (bool_decide (summary_eligibility g = SummaryEligibility.ELIGIBLE)
           && negb (bool_decide (category g = Some OPTIONAL))) ValueError;;
  mret g.

(** [HistoryTokenCounter] *)
Record HistoryTokenCounter := {
  counter_id : list N;
  counter_version : Z;
  count : HistorySourceGroup → option json
}.

Definition _validate_counter (c : HistoryTokenCounter) : outcome PlanError unit :=
  fail_if (negb (trimmed (counter_id c)) || (counter_version c <=? 0)) ValueError.

Record HistoryThresholds := {
  b_work_tokens : Z;
  soft_percent : Z;
  hard_percent : Z;
  target_percent : Z;
  soft_tokens : Z;
  hard_tokens : Z;
  target_tokens : Z
}.

(** The argument [thresholds]: absent, already computed, or a mapping. *)
Inductive ThresholdArgument :=
| NoThresholds
| FixedThresholds (t : HistoryThresholds)
| MappedThresholds (m : list (list N * Z)).

Definition map_get (k : string) (m : list (list N * Z)) : option Z :=
  snd <$> find (λ kv, bool_decide (kv.1 = lit k)) m.

Definition _thresholds (b : Z) (custom : ThresholdArgument) : HistoryThresholds :=
  match custom with
  | FixedThresholds t => t
  | MappedThresholds m =>
      let soft := default (default SOFT_TRIGGER_PERCENT (map_get "soft_trigger_percent" m))
                    (map_get "soft_percent" m) in
      let hard := default (default HARD_TRIGGER_PERCENT (map_get "hard_trigger_percent" m))
                    (map_get "hard_percent" m) in
      let target := default TARGET_PERCENT (map_get "target_percent" m) in
      {| b_work_tokens := b; soft_percent := soft; hard_percent := hard; target_percent := target;
         soft_tokens := default ((soft * b + 99) / 100) (map_get "soft" m);
         hard_tokens := default ((hard * b + 99) / 100) (map_get "hard" m);
         target_tokens := default ((target * b) / 100) (map_get "target" m) |}
  | NoThresholds =>
      {| b_work_tokens := b; soft_percent := SOFT_TRIGGER_PERCENT;
         hard_percent := HARD_TRIGGER_PERCENT; target_percent := TARGET_PERCENT;
         soft_tokens := (SOFT_TRIGGER_PERCENT * b + 99) / 100;
         hard_tokens := (HARD_TRIGGER_PERCENT * b + 99) / 100;
         target_tokens := (TARGET_PERCENT * b) / 100 |}
  end.

Definition _pressure (tokens : Z) (t : HistoryThresholds) : PlanPressure.t :=
  if hard_tokens t <=? tokens then PlanPressure.HARD
  else if soft_tokens t <=? tokens then PlanPressure.SOFT else PlanPressure.NONE.

(** ** Results *)

Record SourceGroupDecision := {
  d_group_id : list N;
  d_revision : list N;
  d_sequence : Z;
  d_exchange_id : list N;
  d_category : HistoryCategory;
  d_summary_eligibility : SummaryEligibility.t;
  d_summary_eligibility_reason : list N;
  d_eligibility_reason : EligibilityReason.t;
  d_tokens : Z;
  d_retained : bool;
  d_reason : DecisionReason;
  d_covered_by_summary_id : option (list N)
}.

Record Insufficiency := {
  code : InsufficiencyCode.t;
  blocking : bool;
  message : list N
}.

Record HistoryPlan := {
  plan_version : list N;
  plan_scope : HistoryScope;
  frozen_watermark : Z;
  plan_counter_id : list N;
  plan_counter_version : Z;
  work_limit : Z;
  input_group_count : Z;
  measured_group_count : Z;
  unmeasured_group_count : Z;
  measurement_complete : bool;
  pre_trim_measurement_basis : list N;
  unmeasured_group_ids : list (list N);
  thresholds : HistoryThresholds;
  pre_trim_tokens : Z;
  unaccounted_growth_tokens : Z;
  planned_tokens : Z;
  retained_tokens : Z;
  retained_planned_tokens : Z;
  pre_trim_pressure : PlanPressure.t;
  post_trim_pressure : PlanPressure.t;
  retained_group_ids : list (list N);
  dropped_group_ids : list (list N);
  decisions : list SourceGroupDecision;
  reasons : list PlanReason.t;
  insufficiencies : list Insufficiency;
  ready_for_dispatch : bool
}.

Definition status (p : HistoryPlan) : PlanStatus.t :=
  if existsb blocking (insufficiencies p)
  then if measurement_complete p then PlanStatus.BLOCKED else PlanStatus.INCOMPLETE
  else PlanStatus.READY.

(** ** Ordering and measuring *)

Definition order_leb (a b : HistorySourceGroup) : bool :=
  (sequence a <? sequence b)
  || (sequence a =? sequence b) && pystr_leb (group_id a) (group_id b).
Definition order_le (a b : HistorySourceGroup) : Prop := order_leb a b = true.
#[global] Instance order_le_dec : RelDecision order_le := λ a b, decide (order_leb a b = true).

(** The loop of [_validate_and_order_groups]; [ids] and [exchanges] are the
    keys of [identities] and [exchange_owners]. *)
Fixpoint check_groups (sc : HistoryScope) (frozen version : Z)
    (ids exchanges : gset (list N)) (groups : list HistorySourceGroup) : outcome PlanError unit :=
  match groups with
  | [] => Return tt
  | g :: rest =>
      if negb (bool_decide (scope g = sc))
      then contract_error "source scope differs from the frozen plan scope"
      else if negb (watermark g =? frozen) || (frozen <=? sequence g)
      then contract_error "source group is newer than the frozen watermark"
      else if negb (count_version g =? version)
      then contract_error "source group count version differs from its counter"
      else if bool_decide (group_id g ∈ ids)
      then contract_error "duplicate source group identity"
      else if bool_decide (exchange_id g ∈ exchanges)
      then contract_error "one atomic exchange was split across source groups"
      else check_groups sc frozen version ({[group_id g]} ∪ ids) ({[exchange_id g]} ∪ exchanges) rest
  end.

Definition _validate_and_order_groups (groups : list HistorySourceGroup) (sc : HistoryScope)
    (frozen version : Z) : outcome PlanError (list HistorySourceGroup) :=
  check_groups sc frozen version ∅ ∅ groups;;
  mret (merge_sort order_le groups).

Definition _effective_category (g : HistorySourceGroup) : HistoryCategory * EligibilityReason.t :=
  match category g with
  | None => (KEEP_EXACT, EligibilityReason.UNKNOWN_CATEGORY_KEEP_EXACT)
  | Some c =>
      match c, summary_eligibility g with
      | OPTIONAL, SummaryEligibility.UNKNOWN =>
          (KEEP_EXACT, EligibilityReason.UNKNOWN_SUMMARY_ELIGIBILITY_KEEP_EXACT)
      | _, SummaryEligibility.ELIGIBLE => (c, EligibilityReason.PUBLISHER_MARKED_SUMMARY_ELIGIBLE)
      | _, SummaryEligibility.INELIGIBLE =>
          (c, EligibilityReason.PUBLISHER_MARKED_SUMMARY_INELIGIBLE)
      | VERIFIED_SUMMARY, _ => (c, EligibilityReason.VERIFIED_SUMMARY)
      | _, _ => (c, EligibilityReason.EXPLICIT_CATEGORY)
      end
  end.

Record _MeasuredGroup := {
  mg_group : HistorySourceGroup;
  mg_category : HistoryCategory;
  mg_eligibility_reason : EligibilityReason.t;
  mg_tokens : Z
}.
Definition mg_id (m : _MeasuredGroup) : list N := group_id (mg_group m).

Definition _measure_group (c : HistoryTokenCounter) (g : HistorySourceGroup) :
    outcome PlanError _MeasuredGroup :=
  match count c g with
  | None => contract_error "injected history counter failed"
  | Some (JInt tokens) =>
      if tokens <? 0
      then contract_error "injected history counter must return a non-negative integer"
      else mret {| mg_group := g; mg_category := (_effective_category g).1;
                   mg_eligibility_reason := (_effective_category g).2; mg_tokens := tokens |}
  | Some _ => contract_error "injected history counter must return a non-negative integer"
  end.

Definition mg_newer (a b : _MeasuredGroup) : Prop := order_le (mg_group b) (mg_group a).
#[global] Instance mg_newer_dec : RelDecision mg_newer :=
  λ a b, decide (order_le (mg_group b) (mg_group a)).
Definition _newest_first (l : list _MeasuredGroup) : list _MeasuredGroup := merge_sort mg_newer l.

Definition of_category (c : HistoryCategory) (l : list _MeasuredGroup) : list _MeasuredGroup :=
  filter (λ m, mg_category m = c) l.
Definition sum_tokens (l : list _MeasuredGroup) : Z := foldr (λ m, Z.add (mg_tokens m)) 0 l.

(** ** Selection *)

(** [selected_ids], [remaining] and [decisions]. *)
Record Selection := {
  selected_ids : gset (list N);
  remaining : Z;
  made : gmap (list N) SourceGroupDecision
}.

Definition _source_decision (m : _MeasuredGroup) (retained : bool) (r : DecisionReason)
    (covered_by : option (list N)) : SourceGroupDecision :=
  {| d_group_id := mg_id m; d_revision := revision (mg_group m);
     d_sequence := sequence (mg_group m); d_exchange_id := exchange_id (mg_group m);
     d_category := mg_category m; d_summary_eligibility := summary_eligibility (mg_group m);
     d_summary_eligibility_reason := summary_eligibility_reason (mg_group m);
     d_eligibility_reason := mg_eligibility_reason m; d_tokens := mg_tokens m;
     d_retained := retained; d_reason := r; d_covered_by_summary_id := covered_by |}.

Definition retain (r : DecisionReason) (m : _MeasuredGroup) (s : Selection) : Selection :=
  {| selected_ids := {[mg_id m]} ∪ selected_ids s; remaining := remaining s - mg_tokens m;
     made := <[mg_id m := _source_decision m true r None]> (made s) |}.
Definition drop_group (r : DecisionReason) (covered_by : option (list N)) (m : _MeasuredGroup)
    (s : Selection) : Selection :=
  {| selected_ids := selected_ids s; remaining := remaining s;
     made := <[mg_id m := _source_decision m false r covered_by]> (made s) |}.

Definition start_selection (b : Z) : Selection :=
  {| selected_ids := ∅; remaining := b; made := ∅ |}.
Definition reserve_growth (growth : Z) (s : Selection) : Selection :=
  {| selected_ids := selected_ids s; remaining := remaining s - growth; made := made s |}.

Definition select_mandatory (l : list _MeasuredGroup) (s : Selection) : Selection :=
  fold_left (λ s m, retain RETAINED_MANDATORY m s) l s.

Definition keep_exact_step (s : Selection) (m : _MeasuredGroup) : Selection :=
  if mg_tokens m <=? remaining s then retain RETAINED_KEEP_EXACT m s
  else drop_group DROPPED_SHARED_BUDGET None m s.
Definition select_keep_exact (l : list _MeasuredGroup) (s : Selection) : Selection :=
  fold_left keep_exact_step (_newest_first l) s.

(** The flag is [recent_suffix_open]. *)
Definition recent_step (os : bool * Selection) (m : _MeasuredGroup) : bool * Selection :=
  let '(open, s) := os in
  if open && (mg_tokens m <=? remaining s) then (open, retain RETAINED_RECENT m s)
  else (false, drop_group DROPPED_RECENT_SUFFIX_GAP None m s).
Definition select_recent (l : list _MeasuredGroup) (s : Selection) : Selection :=
  (fold_left recent_step (_newest_first l) (true, s)).2.

(** [token_counts] *)
Definition token_counts (l : list _MeasuredGroup) : gmap (list N) Z :=
  list_to_map ((λ m, (mg_id m, mg_tokens m)) <$> l).

Definition is_eligible (m : _MeasuredGroup) : bool :=
  bool_decide (mg_category m = OPTIONAL)
  && bool_decide (summary_eligibility (mg_group m) = SummaryEligibility.ELIGIBLE).

Definition coverage_ids (m : _MeasuredGroup) : list (list N) :=
  source_group_id <$> coverage (mg_group m).

(** One summary of [_coverage_validation]: the recorded reason, if any. *)
Definition coverage_invalid (source_groups eligible : list _MeasuredGroup) (m : _MeasuredGroup) :
    option string :=
  let revisions : gmap (list N) (list N) :=
    list_to_map ((λ x, (mg_id x, revision (mg_group x))) <$> source_groups) in
  if existsb (λ c, negb (bool_decide (revisions !! source_group_id c = Some (source_revision c))))
       (coverage (mg_group m))
  then Some "coverage source revision is unavailable"%string
  else if existsb (λ i, negb (bool_decide (i ∈ mg_id <$> eligible))) (coverage_ids m)
  then Some "coverage includes a non-eligible source"%string
  else if negb (bool_decide (coverage_ids m = take (length (coverage_ids m)) (mg_id <$> eligible)))
  then Some "coverage is not the oldest complete eligible prefix"%string
  else None.

Definition set_invalid (m : _MeasuredGroup) (reason : option string)
    (acc : gmap (list N) string) : gmap (list N) string :=
  match reason with Some r => <[mg_id m := r]> acc | None => acc end.

Definition _coverage_validation (summaries source_groups eligible : list _MeasuredGroup) :
    gmap (list N) string :=
  fold_left (λ acc m, set_invalid m (coverage_invalid source_groups eligible m) acc) summaries ∅.

Definition verifier := option (HistorySourceGroup → HistoryScope → bool).

(** The loop that adds what the verifier refuses. *)
Definition verify_summaries (v : verifier) (sc : HistoryScope) (summaries : list _MeasuredGroup)
    (acc : gmap (list N) string) : gmap (list N) string :=
  fold_left (λ acc m,
    set_invalid m
      (match v with
       | Some f => if f (mg_group m) sc then None
                   else Some "summary publication is not verified"%string
       | None => Some "summary publication is not verified"%string
       end) acc) summaries acc.

Definition saved_tokens (counts : gmap (list N) Z) (m : _MeasuredGroup) : Z :=
  foldr Z.add 0 ((λ i, default 0 (counts !! i)) <$> coverage_ids m) - mg_tokens m.

(** Most saved first, then newest, then by identity. *)
Definition summary_leb (counts : gmap (list N) Z) (a b : _MeasuredGroup) : bool :=
  let sa := saved_tokens counts a in let sb := saved_tokens counts b in
  let qa := sequence (mg_group a) in let qb := sequence (mg_group b) in
  (sb <? sa) || (sa =? sb) && ((qb <? qa) || (qa =? qb) && pystr_leb (mg_id a) (mg_id b)).
Definition summary_le counts (a b : _MeasuredGroup) : Prop := summary_leb counts a b = true.
#[global] Instance summary_le_dec counts : RelDecision (summary_le counts) :=
  λ a b, decide (summary_leb counts a b = true).

Definition set_cost (counts : gmap (list N) Z) (ids : gset (list N)) : outcome PlanError Z :=
  ts ← traverse (λ i, or_raise KeyError (counts !! i)) (elements ids);
  mret (foldr Z.add 0 ts).

Definition summary_step (counts : gmap (list N) Z) (invalid : gmap (list N) string)
    (cs : gset (list N) * Selection) (m : _MeasuredGroup) :
    outcome PlanError (gset (list N) * Selection) :=
  let '(covered_ids, s) := cs in
  let covered : gset (list N) := list_to_set (coverage_ids m) in
  match invalid !! mg_id m with
  | Some _ => Return (covered_ids, drop_group DROPPED_SUMMARY_COVERAGE_INVALID None m s)
  | None =>
      if negb (bool_decide (covered ∩ covered_ids = ∅))
      then Return (covered_ids, drop_group DROPPED_SUMMARY_NOT_NEEDED None m s)
      else
        covered_cost ← set_cost counts covered;
        if covered_cost <=? mg_tokens m
        then Return (covered_ids, drop_group DROPPED_SUMMARY_NOT_NEEDED None m s)
        else if mg_tokens m <=? remaining s
        then Return (covered_ids ∪ covered, retain RETAINED_VERIFIED_SUMMARY m s)
        else Return (covered_ids, drop_group DROPPED_SHARED_BUDGET None m s)
  end.

Definition select_summaries (counts : gmap (list N) Z) (invalid : gmap (list N) string)
    (pressure : PlanPressure.t) (eligible summary_groups : list _MeasuredGroup) (s : Selection) :
    outcome PlanError (gset (list N) * Selection) :=
  if negb (bool_decide (pressure = PlanPressure.NONE)) && negb (bool_decide (eligible = []))
  then fold_raise (summary_step counts invalid) (merge_sort (summary_le counts) summary_groups)
         (∅, s)
  else Return (∅, fold_left (λ s m, drop_group DROPPED_SUMMARY_NOT_NEEDED None m s)
                    summary_groups s).

Definition _covering_summary_id (m : _MeasuredGroup) (summaries : list _MeasuredGroup)
    (decisions : gmap (list N) SourceGroupDecision) : option (list N) :=
  mg_id <$> find (λ x,
    match decisions !! mg_id x with
    | Some d => d_retained d
                && existsb (λ c, bool_decide (source_group_id c = mg_id m)
                                 && bool_decide (source_revision c = revision (mg_group m)))
                     (coverage (mg_group x))
    | None => false
    end) summaries.

Definition optional_step (summary_groups : list _MeasuredGroup) (covered_ids : gset (list N))
    (s : Selection) (m : _MeasuredGroup) : Selection :=
  if bool_decide (mg_id m ∈ covered_ids)
  then drop_group DROPPED_COVERED_BY_SUMMARY (_covering_summary_id m summary_groups (made s)) m s
  else if mg_tokens m <=? remaining s then retain RETAINED_OPTIONAL m s
  else drop_group DROPPED_SHARED_BUDGET None m s.
Definition select_optional summary_groups covered_ids (l : list _MeasuredGroup) (s : Selection) :
    Selection :=
  fold_left (optional_step summary_groups covered_ids) (_newest_first l) s.

(** ** The plan *)

Definition _insufficiency (c : InsufficiencyCode.t) (b : bool) (m : list N) : Insufficiency :=
  {| code := c; blocking := b; message := m |}.

Definition _deduplicate_reasons (l : list PlanReason.t) : list PlanReason.t :=
  fold_left (λ acc r, if bool_decide (r ∈ acc) then acc else acc ++ [r]) l [].

(** Everything the tail of [plan_history] reads. *)
Record PlanFacts := {
  f_ordered : list HistorySourceGroup;
  f_measured : list _MeasuredGroup;
  f_complete : bool;
  f_sources : list _MeasuredGroup;
  f_summaries : list _MeasuredGroup;
  f_eligible : list _MeasuredGroup;
  f_invalid : gmap (list N) string;
  f_selected : gset (list N);
  f_thresholds : HistoryThresholds;
  f_pre_trim : Z;
  f_pre_pressure : PlanPressure.t;
  f_retained : Z;
  f_retained_planned : Z;
  f_post_pressure : PlanPressure.t
}.

Definition omitted (c : HistoryCategory) (f : PlanFacts) : bool :=
  existsb (λ m, bool_decide (mg_category m = c) && negb (bool_decide (mg_id m ∈ f_selected f)))
    (f_sources f).
Definition invalid_summaries (f : PlanFacts) : bool :=
  existsb (λ m, bool_decide (is_Some (f_invalid f !! mg_id m))) (f_summaries f).
Definition summary_selected (f : PlanFacts) : bool :=
  existsb (λ m, bool_decide (mg_id m ∈ f_selected f)) (f_summaries f).

Definition when {A} (b : bool) (x : A) : list A := if b then [x] else [].

Definition plan_insufficiencies (f : PlanFacts) : list Insufficiency :=
  when (negb (f_complete f))
    (_insufficiency InsufficiencyCode.WORK_LIMIT_REACHED true
       (lit "Only " ++ dump_nat (N.of_nat (length (f_measured f))) ++ lit " of "
        ++ dump_nat (N.of_nat (length (f_ordered f)))
        ++ lit " groups were measured; the remaining history must not be reported as measured."))
  ++ when (omitted KEEP_EXACT f)
    (_insufficiency InsufficiencyCode.KEEP_EXACT_NOT_RETAINED true
       (lit "At least one KEEP_EXACT source group did not fit the shared budget."))
  ++ when (omitted RECENT f)
    (_insufficiency InsufficiencyCode.RECENT_SOURCE_NOT_RETAINED true
       (lit "The complete recent-source suffix could not be retained."))
  ++ when (invalid_summaries f)
    (_insufficiency InsufficiencyCode.VERIFIED_SUMMARY_COVERAGE_INVALID false
       (lit "A verified summary did not bind the complete oldest eligible source prefix."))
  ++ (if bool_decide (f_pre_pressure f = PlanPressure.NONE) then []
      else if bool_decide (f_eligible f = []) then
        [_insufficiency InsufficiencyCode.NO_ELIGIBLE_SOURCE false
           (lit "No source group has explicit summary eligibility.")]
      else if bool_decide (f_summaries f = []) then
        [_insufficiency InsufficiencyCode.NO_VERIFIED_SUMMARY false
           (lit "No published verified summary was supplied.")]
      else if negb (summary_selected f) && invalid_summaries f then []
      else when (negb (summary_selected f))
        (_insufficiency InsufficiencyCode.VERIFIED_SUMMARY_NOT_RETAINED false
           (lit "No supplied verified summary fit the shared budget.")))
  ++ when (bool_decide (f_post_pressure f = PlanPressure.HARD))
    (_insufficiency InsufficiencyCode.POST_TRIM_PLANNED_AT_OR_ABOVE_HARD_LIMIT true
       (lit "Post-trim planned input remains at or above the hard threshold.")).

Definition plan_reasons (f : PlanFacts) : list PlanReason.t :=
  when (negb (f_complete f)) PlanReason.WORK_LIMIT_REACHED
  ++ when (omitted KEEP_EXACT f) PlanReason.KEEP_EXACT_OMITTED
  ++ when (omitted RECENT f) PlanReason.RECENT_GROUP_OMITTED
  ++ when (invalid_summaries f) PlanReason.VERIFIED_SUMMARY_COVERAGE_INVALID
  ++ when (bool_decide (f_post_pressure f = PlanPressure.HARD)) PlanReason.HARD_LIMIT_NOT_SATISFIED
  ++ [match f_pre_pressure f with
      | PlanPressure.NONE => PlanReason.NO_PRESSURE
      | PlanPressure.SOFT => PlanReason.SOFT_THRESHOLD_REACHED_BEFORE_TRIM
      | PlanPressure.HARD => PlanReason.HARD_THRESHOLD_REACHED_BEFORE_TRIM
      end]
  ++ when (f_retained_planned f <=? target_tokens (f_thresholds f))
       PlanReason.TARGET_MET_AFTER_PLANNING
  ++ when (f_retained f <? f_pre_trim f) PlanReason.SHARED_BUDGET_TRIM_REQUIRED
  ++ when (summary_selected f) PlanReason.VERIFIED_SUMMARY_USED.

(** The arguments of [plan_history] beside the groups. *)
Record PlanArguments := {
  arg_scope : HistoryScope;
  arg_frozen_watermark : Z;
  arg_counter : HistoryTokenCounter;
  arg_b_work_tokens : Z;
  arg_growth : Z;
  arg_work_limit : option Z;
  arg_verifier : verifier;
  arg_expected_counter_id : option (list N);
  arg_expected_counter_version : option Z;
  arg_thresholds : ThresholdArgument
}.

(** [work_limit or HistoryWorkLimit(max_groups=256)] *)
Definition max_groups (a : PlanArguments) : Z := default 256 (arg_work_limit a).

Definition check_arguments (a : PlanArguments) : outcome PlanError unit :=
  new_scope (arg_scope a);;
  fail_if ((arg_frozen_watermark a <? 0) || (arg_b_work_tokens a <=? 0) || (arg_growth a <? 0))
    ValueError;;
  fail_if (match arg_work_limit a with Some n => n <=? 0 | None => false end) ValueError;;
  _validate_counter (arg_counter a);;
  fail_if (match arg_expected_counter_id a with
           | Some i => negb (bool_decide (counter_id (arg_counter a) = i)) | None => false end)
    (HistoryPlanContractError "history counter differs from the frozen policy");;
  fail_if (match arg_expected_counter_version a with
           | Some v => negb (counter_version (arg_counter a) =? v) | None => false end)
    (HistoryPlanContractError "history counter version differs from the frozen policy").

(** The selection passes, in the order of the source. *)
Definition select_groups (a : PlanArguments) (measured : list _MeasuredGroup)
    (pressure : PlanPressure.t) : outcome PlanError (gset (list N) * Selection) :=
  let source_groups := filter (λ m, mg_category m ≠ VERIFIED_SUMMARY) measured in
  let summary_groups := of_category VERIFIED_SUMMARY measured in
  let eligible := filter (λ m, is_eligible m = true) source_groups in
  let counts := token_counts measured in
  let mandatory := of_category MANDATORY source_groups in
  fail_if (arg_b_work_tokens a <? sum_tokens mandatory)
    (AgentHubError "AGENT_CONTEXT_BUDGET_EXCEEDED");;
  let s := select_mandatory mandatory (start_selection (arg_b_work_tokens a)) in
  fail_if (remaining s <? arg_growth a) (AgentHubError "AGENT_HISTORY_GROWTH_BUDGET_EXCEEDED");;
  let s := reserve_growth (arg_growth a) s in
  let s := select_keep_exact (of_category KEEP_EXACT source_groups) s in
  let s := select_recent (of_category RECENT source_groups) s in
  let invalid := verify_summaries (arg_verifier a) (arg_scope a) summary_groups
                   (_coverage_validation summary_groups source_groups eligible) in
  cs ← select_summaries counts invalid pressure eligible summary_groups s;
  mret (cs.1, select_optional summary_groups cs.1 (of_category OPTIONAL source_groups) cs.2).

Definition plan_history (groups : list HistorySourceGroup) (a : PlanArguments) :
    outcome PlanError HistoryPlan :=
  check_arguments a;;
  ordered ← _validate_and_order_groups groups (arg_scope a) (arg_frozen_watermark a)
              (counter_version (arg_counter a));
  let limit := Z.to_nat (max_groups a) in
  measured ← traverse (_measure_group (arg_counter a)) (take limit ordered);
  let complete := bool_decide (length ordered ≤ limit)%nat in
  let source_groups := filter (λ m, mg_category m ≠ VERIFIED_SUMMARY) measured in
  let summary_groups := of_category VERIFIED_SUMMARY measured in
  let eligible := filter (λ m, is_eligible m = true) source_groups in
  let counts := token_counts measured in
  let pre_trim := sum_tokens source_groups in
  let planned := pre_trim + arg_growth a in
  let th := _thresholds (arg_b_work_tokens a) (arg_thresholds a) in
  let pre_pressure := _pressure planned th in
  cs ← select_groups a measured pre_pressure;
  let sel := cs.2 in
  retained ← set_cost counts (selected_ids sel);
  let retained_planned := retained + arg_growth a in
  let post_pressure := _pressure retained_planned th in
  let facts :=
    {| f_ordered := ordered; f_measured := measured; f_complete := complete;
       f_sources := source_groups; f_summaries := summary_groups; f_eligible := eligible;
       f_invalid := verify_summaries (arg_verifier a) (arg_scope a) summary_groups
                      (_coverage_validation summary_groups source_groups eligible);
       f_selected := selected_ids sel; f_thresholds := th; f_pre_trim := pre_trim;
       f_pre_pressure := pre_pressure; f_retained := retained;
       f_retained_planned := retained_planned; f_post_pressure := post_pressure |} in
  ordered_decisions ← traverse (λ m, or_raise KeyError (made sel !! mg_id m)) measured;
  mret {| plan_version := PLANNER_VERSION; plan_scope := arg_scope a;
     frozen_watermark := arg_frozen_watermark a; plan_counter_id := counter_id (arg_counter a);
     plan_counter_version := counter_version (arg_counter a); work_limit := max_groups a;
     input_group_count := Z.of_nat (length ordered);
     measured_group_count := Z.of_nat (length measured);
     unmeasured_group_count := Z.max (Z.of_nat (length ordered) - Z.of_nat (length measured)) 0;
     measurement_complete := complete;
     pre_trim_measurement_basis := if complete then lit "EXACT" else lit "LOWER_BOUND";
     unmeasured_group_ids := group_id <$> drop limit ordered;
     thresholds := th; pre_trim_tokens := pre_trim; unaccounted_growth_tokens := arg_growth a;
     planned_tokens := planned; retained_tokens := retained;
     retained_planned_tokens := retained_planned; pre_trim_pressure := pre_pressure;
     post_trim_pressure := post_pressure;
     retained_group_ids := mg_id <$> filter (λ m, mg_id m ∈ selected_ids sel) measured;
     dropped_group_ids := mg_id <$> filter (λ m, mg_id m ∉ selected_ids sel) measured;
     decisions := ordered_decisions; reasons := _deduplicate_reasons (plan_reasons facts);
     insufficiencies := plan_insufficiencies facts;
     ready_for_dispatch := negb (existsb blocking (plan_insufficiencies facts)) |}.
