(* ===== verification/HistoryPlannerTheory.v ===== *)
(** * The history planner: the invariant of the selection passes

    The passes decide one measured group after another: each either fits and
    is retained or is dropped.  [sel_inv] is what holds after any such run;
    [sel_run] is the run of one pass. *)

From stdpp Require Import base gmap list strings sorting.
From Stdlib Require Import ZArith NArith Lia.
From S2P Require Import Prelude.
From S2P Require Import Json.
From S2P Require Import Outcome.
From S2P Require Import HistoryPlanner.

Local Open Scope Z_scope.

Lemma filter_ext_in {A} (P Q : A → Prop) `{∀ x, Decision (P x), ∀ x, Decision (Q x)} (l : list A) :
  (∀ x, x ∈ l → P x ↔ Q x) → filter P l = filter Q l.
Proof.
  induction l as [|x l IH]; intros Hl; [done|]. rewrite !filter_cons.
  assert (filter P l = filter Q l) as -> by (apply IH; set_solver).
  assert (P x ↔ Q x) by set_solver. repeat case_decide; done || tauto.
Qed.

(** ** Sums *)

Lemma sum_tokens_app l k : sum_tokens (l ++ k) = sum_tokens l + sum_tokens k.
Proof. induction l as [|m l IH]; cbn; [done|]. unfold sum_tokens in *. lia. Qed.

#[global] Instance sum_tokens_perm : Proper ((≡ₚ) ==> (=)) sum_tokens.
Proof. induction 1; cbn; unfold sum_tokens in *; lia. Qed.

#[global] Instance sum_perm : Proper ((≡ₚ) ==> (=)) (foldr Z.add 0).
Proof. induction 1; cbn; lia. Qed.

Lemma sum_tokens_nonneg l : Forall (λ m, 0 ≤ mg_tokens m) l → 0 ≤ sum_tokens l.
Proof. induction 1; cbn; [done|]. unfold sum_tokens in *. lia. Qed.

(** ** Decisions *)

(** The reasons a category can be given. *)
Definition reason_fits (c : HistoryCategory) (retained : bool) (r : DecisionReason) : bool :=
  match c, retained, r with
  | MANDATORY, true, RETAINED_MANDATORY
  | KEEP_EXACT, true, RETAINED_KEEP_EXACT
  | KEEP_EXACT, false, DROPPED_SHARED_BUDGET
  | RECENT, true, RETAINED_RECENT
  | RECENT, false, DROPPED_RECENT_SUFFIX_GAP
  | VERIFIED_SUMMARY, true, RETAINED_VERIFIED_SUMMARY
  | VERIFIED_SUMMARY, false, DROPPED_SUMMARY_COVERAGE_INVALID
  | VERIFIED_SUMMARY, false, DROPPED_SUMMARY_NOT_NEEDED
  | VERIFIED_SUMMARY, false, DROPPED_SHARED_BUDGET
  | OPTIONAL, true, RETAINED_OPTIONAL
  | OPTIONAL, false, DROPPED_COVERED_BY_SUMMARY
  | OPTIONAL, false, DROPPED_SHARED_BUDGET => true
  | _, _, _ => false
  end.

(** One group is decided. *)
Inductive sel_step (m : _MeasuredGroup) (s : Selection) : Selection → Prop :=
| step_retain r : mg_tokens m ≤ remaining s → reason_fits (mg_category m) true r = true →
    sel_step m s (retain r m s)
| step_drop r c : reason_fits (mg_category m) false r = true →
    (r = DROPPED_COVERED_BY_SUMMARY ∨ c = None) →
    (r = DROPPED_SHARED_BUDGET → remaining s < mg_tokens m) →
    sel_step m s (drop_group r c m s).

Inductive sel_run : list _MeasuredGroup → Selection → Selection → Prop :=
| run_nil s : sel_run [] s s
| run_cons m l s s1 s2 : sel_step m s s1 → sel_run l s1 s2 → sel_run (m :: l) s s2.

Lemma sel_run_app l k s s1 s2 : sel_run l s s1 → sel_run k s1 s2 → sel_run (l ++ k) s s2.
Proof. induction 1; cbn; eauto using run_cons. Qed.

Lemma sel_run_fold (f : Selection → _MeasuredGroup → Selection) l s :
  (∀ s m, m ∈ l → sel_step m s (f s m)) → sel_run l s (fold_left f l s).
Proof.
  revert s. induction l as [|m l IH]; intros s Hf; cbn; [constructor|].
  econstructor; [apply Hf; set_solver|]. apply IH. intros. apply Hf. set_solver.
Qed.

(** After the groups [done] were decided under the budget [b]. *)
Record sel_inv (b : Z) (done : list _MeasuredGroup) (s : Selection) : Prop := {
  si_made : ∀ m, m ∈ done → ∃ ret r c,
    made s !! mg_id m = Some (_source_decision m ret r c) ∧
    (ret = true ↔ mg_id m ∈ selected_ids s) ∧ reason_fits (mg_category m) ret r = true ∧
    (r = DROPPED_COVERED_BY_SUMMARY ∨ c = None);
  si_dom : ∀ i, is_Some (made s !! i) → i ∈ mg_id <$> done;
  si_selected : ∀ i, i ∈ selected_ids s → i ∈ mg_id <$> done;
  si_sum : remaining s + sum_tokens (filter (λ m, mg_id m ∈ selected_ids s) done) = b;
  si_pos : 0 ≤ remaining s;
  si_over : ∀ m d, m ∈ done → made s !! mg_id m = Some d → d_reason d = DROPPED_SHARED_BUDGET →
    remaining s < mg_tokens m
}.

Lemma filter_selected_fresh (X : gset (list N)) m (l : list _MeasuredGroup) :
  mg_id m ∉ mg_id <$> l →
  filter (λ x, mg_id x ∈ {[mg_id m]} ∪ X) l = filter (λ x, mg_id x ∈ X) l.
Proof.
  intros Hm. apply filter_ext_in. intros x Hx.
  assert (mg_id x ≠ mg_id m); [|set_solver].
  intros E. apply Hm. rewrite <- E. by apply list_elem_of_fmap_2.
Qed.

Lemma sel_inv_step b l m s s' :
  0 ≤ mg_tokens m →
  mg_id m ∉ mg_id <$> l → sel_inv b l s → sel_step m s s' → sel_inv b (l ++ [m]) s'.
Proof.
  intros Hnn Hm [Hmade Hdom Hsel Hsum Hpos Hover] Hstep.
  assert (mg_id m ∉ selected_ids s) as Hns by (intros ?%Hsel; done).
  assert (∀ x, x ∈ l → mg_id x ≠ mg_id m) as Hne.
  { intros x Hx E. apply Hm. rewrite <- E. by apply list_elem_of_fmap_2. }
  destruct Hstep as [r Hfit Hr|r c Hr Hc Hb]; split; cbn.
  - intros x [Hx| ->%list_elem_of_singleton]%elem_of_app.
    + destruct (Hmade x Hx) as (ret & rr & cc & Hl & Hi & ? & ?). exists ret, rr, cc.
      specialize (Hne x Hx). rewrite lookup_insert_ne by done.
      split_and!; try done. rewrite Hi. set_solver.
    + exists true, r, None. rewrite lookup_insert_eq. split_and!; try done; [set_solver|by right].
  - intros i Hi. rewrite fmap_app, elem_of_app. destruct (decide (i = mg_id m)) as [->|Hne'].
    + right. set_solver.
    + left. apply Hdom. by rewrite lookup_insert_ne in Hi.
  - intros i. rewrite elem_of_union, elem_of_singleton, fmap_app, elem_of_app.
    intros [->|Hi]; [right; set_solver|left; auto].
  - rewrite filter_app, filter_selected_fresh, sum_tokens_app by done.
    rewrite filter_cons_True by set_solver. cbn. lia.
  - lia.
  - intros x d [Hx| ->%list_elem_of_singleton]%elem_of_app.
    + rewrite lookup_insert_ne by (by apply not_eq_sym, Hne). intros Hd Hdr.
      pose proof (Hover x d Hx Hd Hdr). lia.
    + rewrite lookup_insert_eq. intros [= <-] E. cbn in E. subst r. by destruct (mg_category m).
  - intros x [Hx| ->%list_elem_of_singleton]%elem_of_app.
    + destruct (Hmade x Hx) as (ret & rr & cc & Hl & Hi & ? & ?). exists ret, rr, cc.
      specialize (Hne x Hx). by rewrite lookup_insert_ne.
    + exists false, r, c. rewrite lookup_insert_eq. split_and!; done.
  - intros i Hi. rewrite fmap_app, elem_of_app. destruct (decide (i = mg_id m)) as [->|Hne'].
    + right. set_solver.
    + left. apply Hdom. by rewrite lookup_insert_ne in Hi.
  - intros i Hi. rewrite fmap_app, elem_of_app. left. auto.
  - rewrite filter_app, sum_tokens_app, filter_cons_False by done. cbn. lia.
  - done.
  - intros x d [Hx| ->%list_elem_of_singleton]%elem_of_app.
    + rewrite lookup_insert_ne by (by apply not_eq_sym, Hne). by apply Hover.
    + rewrite lookup_insert_eq. intros [= <-]. exact Hb.
Qed.

Lemma sel_inv_run b l k s s' :
  Forall (λ m, 0 ≤ mg_tokens m) k →
  NoDup (mg_id <$> (l ++ k)) → sel_inv b l s → sel_run k s s' → sel_inv b (l ++ k) s'.
Proof.
  intros Hnn Hnd Hinv Hrun. revert l Hnd Hinv.
  induction Hrun as [|m k s s1 s2 Hstep _ IH]; intros l Hnd Hinv.
  - by rewrite app_nil_r.
  - apply Forall_cons in Hnn as [Hm Hnn]. assert (l ++ m :: k = (l ++ [m]) ++ k) as Heq by (by rewrite <- app_assoc).
    rewrite Heq in *. apply IH; [done..|]. eapply sel_inv_step; [done| |done..].
    rewrite !fmap_app in Hnd. apply NoDup_app in Hnd as (Hnd & _ & _).
    apply NoDup_app in Hnd as (_ & Hd & _). intros Hin. apply (Hd _ Hin). set_solver.
Qed.

Lemma sel_inv_perm b l k s : l ≡ₚ k → sel_inv b l s → sel_inv b k s.
Proof.
  intros Hp [Hmade Hdom Hsel Hsum Hpos Hover]. split.
  - intros m Hm. apply Hmade. by rewrite Hp.
  - intros i Hi. rewrite <- Hp. auto.
  - intros i Hi. rewrite <- Hp. auto.
  - by rewrite <- Hp.
  - done.
  - intros m d Hm. apply Hover. by rewrite Hp.
Qed.

Lemma sel_inv_start b : 0 ≤ b → sel_inv b [] (start_selection b).
Proof.
  intros Hb. split; cbn.
  - intros m Hm. set_solver.
  - intros i. rewrite lookup_empty. by intros [].
  - set_solver.
  - lia.
  - done.
  - intros m d Hm. set_solver.
Qed.

Lemma sel_inv_reserve b l s g :
  sel_inv b l s → 0 ≤ g ≤ remaining s → sel_inv (b - g) l (reserve_growth g s).
Proof.
  intros [? ? ? ? ? Hover] Hg. split; cbn; try done; try lia. intros m d Hm Hd Hr.
  pose proof (Hover m d Hm Hd Hr). lia.
Qed.

(** Nothing that was selected is taken back. *)
Lemma sel_run_mono l s s' : sel_run l s s' → selected_ids s ⊆ selected_ids s'.
Proof.
  induction 1 as [|m l s s1 s2 Hstep _ IH]; [done|]. transitivity (selected_ids s1); [|done].
  destruct Hstep; cbn; set_solver.
Qed.

(** A pass only decides its own groups. *)
Lemma sel_run_other l s s' i :
  sel_run l s s' → i ∉ mg_id <$> l →
  (i ∈ selected_ids s' ↔ i ∈ selected_ids s) ∧ made s' !! i = made s !! i.
Proof.
  induction 1 as [|m l s s1 s2 Hstep _ IH]; [done|]. cbn. rewrite elem_of_cons.
  intros Hi. destruct IH as [IH1 IH2]; [naive_solver|]. rewrite IH1, IH2.
  destruct Hstep; cbn; (split; [set_solver|by rewrite lookup_insert_ne by naive_solver]).
Qed.

(** ** The passes *)

Section Passes.
Implicit Types (l : list _MeasuredGroup) (m : _MeasuredGroup) (s : Selection).

Lemma elem_of_category c l m : m ∈ of_category c l ↔ m ∈ l ∧ mg_category m = c.
Proof. unfold of_category. rewrite list_elem_of_filter. tauto. Qed.

Lemma newest_perm l : _newest_first l ≡ₚ l.
Proof. apply merge_sort_Permutation. Qed.

Lemma select_mandatory_spec l s :
  Forall (λ m, mg_category m = MANDATORY) l → Forall (λ m, 0 ≤ mg_tokens m) l →
  sum_tokens l ≤ remaining s →
  sel_run l s (select_mandatory l s) ∧
  remaining (select_mandatory l s) = remaining s - sum_tokens l ∧
  (∀ m, m ∈ l → mg_id m ∈ selected_ids (select_mandatory l s)).
Proof.
  unfold select_mandatory. revert s. induction l as [|m l IH]; intros s Hc Hn Hsum; cbn in *.
  - split; [constructor|]. split; [lia|set_solver].
  - apply Forall_cons in Hc as [Hcm Hc]. apply Forall_cons in Hn as [Hnm Hn].
    pose proof (sum_tokens_nonneg l Hn) as Hpos. unfold sum_tokens in *.
    destruct (IH (retain RETAINED_MANDATORY m s)) as (Hrun & Hrem & Hin); [done|done|cbn; lia|].
    split_and!.
    + econstructor; [|exact Hrun]. apply step_retain; [lia|by rewrite Hcm].
    + rewrite Hrem. cbn. lia.
    + intros x [->|Hx]%elem_of_cons; [|auto].
      apply (sel_run_mono _ _ _ Hrun). cbn. set_solver.
Qed.

Lemma select_keep_exact_run l s :
  Forall (λ m, mg_category m = KEEP_EXACT) l → sel_run (_newest_first l) s (select_keep_exact l s).
Proof.
  intros Hl. rewrite <- newest_perm in Hl. apply sel_run_fold. intros t m Hm.
  apply (proj1 (Forall_forall _ _) Hl) in Hm. unfold keep_exact_step.
  destruct (mg_tokens m <=? remaining t) eqn:E; breflect.
  - by apply step_retain; [|rewrite Hm].
  - apply step_drop; [by rewrite Hm|by right|lia].
Qed.

(** Once the suffix is closed every older group is dropped. *)
Lemma recent_fold_spec l s open :
  Forall (λ m, mg_category m = RECENT) l →
  sel_run l s (fold_left recent_step l (open, s)).2 ∧
  (open = false → selected_ids (fold_left recent_step l (open, s)).2 = selected_ids s).
Proof.
  revert s open. induction l as [|m l IH]; intros s open Hl; cbn; [by split; [constructor|]|].
  apply Forall_cons in Hl as [Hm Hl].
  destruct (open && (mg_tokens m <=? remaining s)) eqn:E.
  - apply andb_true_iff in E as [-> E]. breflect.
    destruct (IH (retain RETAINED_RECENT m s) true Hl) as [Hrun _].
    split; [|done]. econstructor; [|exact Hrun]. by apply step_retain; [|rewrite Hm].
  - destruct (IH (drop_group DROPPED_RECENT_SUFFIX_GAP None m s) false Hl) as [Hrun Hsel].
    split; [|intros _; by rewrite Hsel]. econstructor; [|exact Hrun].
    by apply step_drop; [rewrite Hm|right|].
Qed.

Lemma select_recent_run l s :
  Forall (λ m, mg_category m = RECENT) l → sel_run (_newest_first l) s (select_recent l s).
Proof.
  intros Hl. rewrite <- newest_perm in Hl. unfold select_recent. by apply recent_fold_spec.
Qed.

(** What is retained of the recent groups is a prefix of newest-first order. *)
Lemma recent_fold_prefix l s :
  Forall (λ m, mg_category m = RECENT) l → NoDup (mg_id <$> l) →
  (∀ m, m ∈ l → mg_id m ∉ selected_ids s) →
  ∃ n, ∀ i m, l !! i = Some m →
    mg_id m ∈ selected_ids (fold_left recent_step l (true, s)).2 ↔ (i < n)%nat.
Proof.
  revert s. induction l as [|m l IH]; intros s Hl Hnd Hs; cbn; [by exists 0%nat|].
  apply Forall_cons in Hl as [Hm Hl]. apply NoDup_cons in Hnd as [Hfresh Hnd].
  destruct (true && (mg_tokens m <=? remaining s)) eqn:E; cbn in E; rewrite E; cbn.
  - destruct (IH (retain RETAINED_RECENT m s) Hl Hnd) as [n Hn].
    { intros x Hx. cbn. assert (mg_id x ≠ mg_id m); [|set_solver].
      intros Heq. apply Hfresh. rewrite <- Heq. by apply list_elem_of_fmap_2. }
    exists (S n). intros [|i] x; cbn; [|intros Hx; rewrite (Hn i x Hx); lia].
    intros [= <-]. split; [lia|intros _].
    destruct (recent_fold_spec l (retain RETAINED_RECENT m s) true Hl) as [Hrun _].
    apply (sel_run_mono _ _ _ Hrun). cbn. set_solver.
  - exists 0%nat. intros i x Hx. split; [|lia]. intros Hin. exfalso.
    destruct (recent_fold_spec l (drop_group DROPPED_RECENT_SUFFIX_GAP None m s) false Hl) as [_ Hsel].
    rewrite Hsel in Hin by done. cbn in Hin. apply (Hs x); [|done].
    by apply (list_elem_of_lookup_2 _ i).
Qed.

Lemma select_optional_run summary_groups covered l s :
  Forall (λ m, mg_category m = OPTIONAL) l →
  sel_run (_newest_first l) s (select_optional summary_groups covered l s).
Proof.
  intros Hl. rewrite <- newest_perm in Hl. apply sel_run_fold. intros t m Hm.
  apply (proj1 (Forall_forall _ _) Hl) in Hm. unfold optional_step.
  case_bool_decide; [by apply step_drop; [rewrite Hm|left|]|].
  destruct (mg_tokens m <=? remaining t) eqn:E; breflect.
  - by apply step_retain; [|rewrite Hm].
  - apply step_drop; [by rewrite Hm|by right|lia].
Qed.

(** ** Summaries *)

(** Why a summary was dropped; [quiet]: no pressure, or nothing to summarize. *)
Definition summary_dropped (counts : gmap (list N) Z) (invalid : gmap (list N) string)
    (quiet : Prop) (covered : gset (list N)) m (r : DecisionReason) : Prop :=
  match r with
  | DROPPED_SUMMARY_COVERAGE_INVALID => is_Some (invalid !! mg_id m)
  | DROPPED_SUMMARY_NOT_NEEDED =>
      quiet ∨ (∃ i, i ∈ coverage_ids m ∧ i ∈ covered) ∨
      invalid !! mg_id m = None ∧
      ∃ cost, set_cost counts (list_to_set (coverage_ids m)) = Return cost ∧ cost ≤ mg_tokens m
  | DROPPED_SHARED_BUDGET => True
  | _ => False
  end.
Lemma summary_dropped_mono (counts : gmap (list N) Z) (invalid : gmap (list N) string) (quiet : Prop)
    (covered covered' : gset (list N)) m (r : DecisionReason) :
  covered ⊆ covered' → summary_dropped counts invalid quiet covered m r →
  summary_dropped counts invalid quiet covered' m r.
Proof.
  intros Hs. destruct r; try done. cbn. intros [?|[(i & ? & ?)|?]]; [by left| |by do 2 right].
  right. left. exists i. auto.
Qed.

(** The state of the pass over summaries: what is covered is covered by a
    retained summary that passed validation and is cheaper than its sources. *)
Record cover_inv (quiet : Prop) (counts : gmap (list N) Z) (invalid : gmap (list N) string) s0
    (decided : list _MeasuredGroup) (covered : gset (list N)) s : Prop := {
  ci_run : sel_run decided s0 s;
  ci_covered : ∀ i, i ∈ covered → ∃ m, m ∈ decided ∧ mg_id m ∈ selected_ids s ∧ i ∈ coverage_ids m;
  ci_retained : ∀ m, m ∈ decided → mg_id m ∈ selected_ids s →
    invalid !! mg_id m = None ∧ (∀ i, i ∈ coverage_ids m → i ∈ covered) ∧
    ∃ cost, set_cost counts (list_to_set (coverage_ids m)) = Return cost ∧ mg_tokens m < cost;
  ci_dropped : ∀ m d, m ∈ decided → made s !! mg_id m = Some d → d_retained d = false →
    summary_dropped counts invalid quiet covered m (d_reason d)
}.

Lemma cover_inv_drop quiet counts invalid s0 l covered s m r :
  cover_inv quiet counts invalid s0 l covered s → mg_id m ∉ selected_ids s →
  mg_id m ∉ mg_id <$> l → mg_category m = VERIFIED_SUMMARY →
  reason_fits VERIFIED_SUMMARY false r = true → (r = DROPPED_SHARED_BUDGET → remaining s < mg_tokens m) →
  summary_dropped counts invalid quiet covered m r →
  cover_inv quiet counts invalid s0 (l ++ [m]) covered (drop_group r None m s).
Proof.
  intros [Hrun Hcov Hret Hdrop] Hm Hfresh Hc Hr Hb Hw. split; cbn.
  - eapply sel_run_app; [exact Hrun|]. econstructor; [|constructor].
    apply step_drop; [by rewrite Hc|by right|done].
  - intros i Hi. destruct (Hcov i Hi) as (x & ? & ? & ?). exists x. set_solver.
  - intros x [Hx| ->%list_elem_of_singleton]%elem_of_app Hs; [auto|done].
  - intros x d [Hx| ->%list_elem_of_singleton]%elem_of_app.
    + rewrite lookup_insert_ne; [by apply Hdrop|]. intros E. apply Hfresh. rewrite E.
      by apply list_elem_of_fmap_2.
    + rewrite lookup_insert_eq. by intros [= <-].
Qed.

Lemma cover_inv_step quiet counts invalid s0 l covered s m covered' s' :
  cover_inv quiet counts invalid s0 l covered s → mg_id m ∉ selected_ids s →
  mg_id m ∉ mg_id <$> l → mg_category m = VERIFIED_SUMMARY →
  summary_step counts invalid (covered, s) m = Return (covered', s') →
  cover_inv quiet counts invalid s0 (l ++ [m]) covered' s'.
Proof.
  intros Hinv Hm Hfresh Hc. unfold summary_step.
  destruct (invalid !! mg_id m) eqn:Hi.
  { intros [= <- <-]. apply cover_inv_drop; try done. cbn. rewrite Hi. by eexists. }
  case_bool_decide as Hover; cbn [negb].
  2: { intros [= <- <-]. apply cover_inv_drop; try done. cbn. right. left.
       apply set_choose_L in Hover as [i Hin]. exists i.
       apply elem_of_intersection in Hin as [Hin ?]. by apply elem_of_list_to_set in Hin. }
  intros (cost & Hcost & H')%obind_inv. revert H'.
  destruct (cost <=? mg_tokens m) eqn:E1.
  { intros [= <- <-]. breflect. apply cover_inv_drop; try done. do 2 right. eauto. }
  destruct (mg_tokens m <=? remaining s) eqn:E2.
  2: { intros [= <- <-]. breflect. by apply cover_inv_drop. }
  intros [= <- <-]. breflect. destruct Hinv as [Hrun Hcov Hret Hdrop]. split; cbn.
  - eapply sel_run_app; [exact Hrun|]. econstructor; [|constructor].
    apply step_retain; [done|by rewrite Hc].
  - intros i [Hi'|Hi']%elem_of_union.
    + destruct (Hcov i Hi') as (x & ? & ? & ?). exists x. set_solver.
    + exists m. set_solver.
  - intros x [Hx| ->%list_elem_of_singleton]%elem_of_app Hs.
    + assert (mg_id x ≠ mg_id m).
      { intros E. apply Hfresh. rewrite <- E. by apply list_elem_of_fmap_2. }
      destruct (Hret x Hx) as (? & ? & ?); [set_solver|]. split_and!; try done. set_solver.
    + split_and!; [done|set_solver|eauto].
  - intros x d [Hx| ->%list_elem_of_singleton]%elem_of_app.
    + rewrite lookup_insert_ne by (intros E; apply Hfresh; rewrite E; by apply list_elem_of_fmap_2).
      intros Hd Hr. eapply summary_dropped_mono; [apply union_subseteq_l|by apply Hdrop].
    + rewrite lookup_insert_eq. by intros [= <-].
Qed.

Lemma select_summaries_spec counts invalid pressure eligible l s covered s' :
  Forall (λ m, mg_category m = VERIFIED_SUMMARY) l → NoDup (mg_id <$> l) →
  (∀ m, m ∈ l → mg_id m ∉ selected_ids s) →
  select_summaries counts invalid pressure eligible l s = Return (covered, s') →
  ∃ l', l' ≡ₚ l ∧
    cover_inv (pressure = PlanPressure.NONE ∨ eligible = []) counts invalid s l' covered s'.
Proof.
  intros Hc Hnd Hs. unfold select_summaries. set (quiet := _ ∨ _).
  destruct (_ && _) eqn:Hquiet.
  - set (l' := merge_sort (summary_le counts) l).
    assert (l' ≡ₚ l) as Hp by apply merge_sort_Permutation.
    rewrite <- Hp in Hc, Hnd. assert (∀ m, m ∈ l' → mg_id m ∉ selected_ids s) as Hs'.
    { intros m. rewrite Hp. auto. } clear Hs. intros H. exists l'. split; [done|].
    enough (∀ dn rest cov t, dn ++ rest = l' → cover_inv quiet counts invalid s dn cov t →
      fold_raise (summary_step counts invalid) rest (cov, t) = Return (covered, s') →
      cover_inv quiet counts invalid s l' covered s') as Hgen.
    { apply (Hgen [] l' ∅ s); [done| |done]. split; [constructor|set_solver..]. }
    clear H. intros dn rest. revert dn. induction rest as [|m rest IH]; intros dn cov t Heq Hinv; cbn [fold_raise].
    + rewrite app_nil_r in Heq. subst. by intros [= <- <-].
    + destruct (summary_step _ _ _ _) as [[cov' t']|] eqn:Hstep; [|done].
      assert (mg_id m ∉ mg_id <$> dn) as Hfresh.
      { rewrite <- Heq, fmap_app in Hnd. apply NoDup_app in Hnd as (_ & Hd & _).
        intros Hin. apply (Hd _ Hin). cbn. set_solver. }
      apply (IH (dn ++ [m])); [by rewrite <- app_assoc|]. eapply cover_inv_step; [exact Hinv|..|exact Hstep].
      * rewrite (proj1 (sel_run_other _ _ _ _ (ci_run _ _ _ _ _ _ _ Hinv) Hfresh)).
        apply Hs'. rewrite <- Heq. set_solver.
      * done.
      * apply (proj1 (Forall_forall _ _) Hc). rewrite <- Heq. set_solver.
  - intros [= <- <-]. exists l. split; [done|].
    assert (sel_run l s (fold_left (λ s m, drop_group DROPPED_SUMMARY_NOT_NEEDED None m s) l s)) as Hrun.
    { apply sel_run_fold. intros t m Hm. apply step_drop; [|by right|done].
      by rewrite (proj1 (Forall_forall _ _) Hc m Hm). }
    assert (∀ k t, selected_ids (fold_left (λ s m, drop_group DROPPED_SUMMARY_NOT_NEEDED None m s) k t)
      = selected_ids t) as Hsel
      by (intros k; induction k as [|? k IH]; intros t; cbn; [done|by rewrite IH]).
    split; [done|set_solver|intros m Hm; rewrite Hsel; by intros ?%Hs|].
    assert (quiet) as Hq.
    { unfold quiet. apply andb_false_iff in Hquiet as [E|E]; breflect; auto. }
    assert (∀ k t i d, made (fold_left (λ s m, drop_group DROPPED_SUMMARY_NOT_NEEDED None m s) k t)
        !! i = Some d → d_reason d = DROPPED_SUMMARY_NOT_NEEDED ∨ i ∉ mg_id <$> k) as Hmade.
    { clear. induction k as [|x k IH]; intros t i d Hd; [right; set_solver|]. cbn [fold_left] in Hd.
      destruct (decide (i ∈ mg_id <$> k)) as [Hi|Hi]; [by destruct (IH _ _ _ Hd); [left|]|].
      destruct (decide (i = mg_id x)) as [->|]; [|right; set_solver]. left.
      assert (∀ t, made (fold_left (λ s m, drop_group DROPPED_SUMMARY_NOT_NEEDED None m s) k t)
        !! mg_id x = made t !! mg_id x) as Hother.
      { clear -Hi. induction k as [|y k IH]; intros t; [done|]. cbn [fold_left]. rewrite IH by set_solver.
        cbn. rewrite lookup_insert_ne by set_solver. done. }
      rewrite Hother in Hd. cbn in Hd. rewrite lookup_insert_eq in Hd. by injection Hd as <-. }
    intros m d Hm Hd _. destruct (Hmade l s _ d Hd) as [->|Hn]; [by left|].
    destruct Hn. by apply list_elem_of_fmap_2.
Qed.
End Passes.

(** ** The passes together *)

Implicit Types (l : list _MeasuredGroup) (m x : _MeasuredGroup) (s : Selection).

(** ** Categories *)

Lemma category_partition l :
  l ≡ₚ of_category MANDATORY l ++ of_category KEEP_EXACT l ++ of_category RECENT l
       ++ of_category VERIFIED_SUMMARY l ++ of_category OPTIONAL l.
Proof.
  unfold of_category. induction l as [|m l IH]; [done|].
  rewrite !filter_cons. destruct (mg_category m); repeat case_decide; try done;
    rewrite IH at 1; solve_Permutation.
Qed.

Lemma source_category c l :
  c ≠ VERIFIED_SUMMARY →
  of_category c (filter (λ m, mg_category m ≠ VERIFIED_SUMMARY) l) = of_category c l.
Proof.
  intros Hc. unfold of_category. rewrite list_filter_filter. apply filter_ext_in.
  intros x _. split; [tauto|]. intros E. split; [done|]. by rewrite E.
Qed.

(** ** Costs *)

Lemma counts_lookup l m :
  NoDup (mg_id <$> l) → m ∈ l → token_counts l !! mg_id m = Some (mg_tokens m).
Proof.
  intros Hnd Hm. unfold token_counts. apply elem_of_list_to_map_1.
  - by rewrite <- list_fmap_compose.
  - apply list_elem_of_fmap. by exists m.
Qed.

Lemma set_cost_return l (X : gset (list N)) :
  NoDup (mg_id <$> l) → (∀ i, i ∈ X → i ∈ mg_id <$> l) →
  set_cost (token_counts l) X = Return (sum_tokens (filter (λ m, mg_id m ∈ X) l)).
Proof.
  intros Hnd HX. unfold set_cost.
  rewrite (traverse_return _ (λ i, default 0 (token_counts l !! i))).
  - unfold mbind, outcome_bind, mret, outcome_ret. f_equal.
    assert (elements X ≡ₚ mg_id <$> filter (λ m, mg_id m ∈ X) l) as ->.
    { apply NoDup_Permutation; [apply NoDup_elements| |].
      - eapply sublist_NoDup; [exact Hnd|]. apply fmap_sublist, sublist_filter.
      - intros i. rewrite elem_of_elements, list_elem_of_fmap. split.
        + intros Hi. pose proof (HX i Hi) as (m & -> & Hm)%list_elem_of_fmap. exists m.
          by rewrite list_elem_of_filter.
        + by intros (m & -> & [? ?]%list_elem_of_filter). }
    rewrite <- list_fmap_compose. unfold sum_tokens.
    assert (∀ k, (∀ m, m ∈ k → m ∈ l) →
      foldr Z.add 0 (((λ i, default 0 (token_counts l !! i)) ∘ mg_id) <$> k)
      = foldr (λ m, Z.add (mg_tokens m)) 0 k) as Hk.
    { induction k as [|m k IH]; intros Hin; cbn; [done|].
      rewrite (counts_lookup l m) by set_solver. cbn. f_equal. apply IH. set_solver. }
    apply Hk. intros m [_ ?]%list_elem_of_filter. done.
  - intros i Hi%elem_of_elements. apply HX, list_elem_of_fmap in Hi as (m & -> & Hm).
    by rewrite (counts_lookup l m).
Qed.

(** ** Validation of summaries *)

Lemma set_invalid_fold (f : _MeasuredGroup → option string) l acc i :
  i ∉ mg_id <$> l → fold_left (λ acc m, set_invalid m (f m) acc) l acc !! i = acc !! i.
Proof.
  revert acc. induction l as [|m l IH]; intros acc; cbn; [done|].
  rewrite elem_of_cons. intros Hi. rewrite IH by naive_solver.
  unfold set_invalid. destruct (f m); [|done]. rewrite lookup_insert_ne; naive_solver.
Qed.

Lemma set_invalid_lookup (f : _MeasuredGroup → option string) l acc x :
  NoDup (mg_id <$> l) → x ∈ l →
  fold_left (λ acc m, set_invalid m (f m) acc) l acc !! mg_id x
  = match f x with Some r => Some r | None => acc !! mg_id x end.
Proof.
  revert acc. induction l as [|m l IH]; intros acc Hnd Hx; cbn; [set_solver|].
  apply NoDup_cons in Hnd as [Hm Hnd]. apply elem_of_cons in Hx as [->|Hx].
  - rewrite set_invalid_fold by done. unfold set_invalid.
    destruct (f m); [by rewrite lookup_insert_eq|done].
  - rewrite IH by done. destruct (f x); [done|]. unfold set_invalid. destruct (f m); [|done].
    rewrite lookup_insert_ne; [done|]. intros E. apply Hm. rewrite E. by apply list_elem_of_fmap_2.
Qed.

(** A summary that passes: published, and an exact cover of the oldest
    eligible sources. *)
Record summary_valid (v : verifier) (sc : HistoryScope) (sources eligible : list _MeasuredGroup)
    x : Prop := {
  sv_verified : ∃ f, v = Some f ∧ f (mg_group x) sc = true;
  sv_revision : ∀ c, c ∈ coverage (mg_group x) →
    ∃ m, m ∈ sources ∧ mg_id m = source_group_id c ∧ revision (mg_group m) = source_revision c;
  sv_prefix : coverage_ids x `prefix_of` (mg_id <$> eligible)
}.

Lemma coverage_invalid_None sources eligible x :
  coverage_invalid sources eligible x = None →
  (∀ c, c ∈ coverage (mg_group x) →
    ∃ m, m ∈ sources ∧ mg_id m = source_group_id c ∧ revision (mg_group m) = source_revision c) ∧
  coverage_ids x `prefix_of` (mg_id <$> eligible).
Proof.
  unfold coverage_invalid. cbn zeta. destruct (existsb _ _) eqn:E1; [done|].
  destruct (existsb _ (coverage_ids x)) eqn:E2; [done|]. case_bool_decide as E3; cbn; [|done]. intros _.
  split.
  - intros c Hc. apply list_elem_of_In in Hc.
    assert (bool_decide (((list_to_map ((λ x, (mg_id x, revision (mg_group x))) <$> sources)
      : gmap (list N) (list N)) !! source_group_id c) = Some (source_revision c)) = true) as Hb.
    { apply not_false_iff_true. intros Hf. enough (false = true) by done. rewrite <- E1.
      apply existsb_exists. exists c. by rewrite Hf. }
    apply bool_decide_eq_true, elem_of_list_to_map_2, list_elem_of_fmap in Hb as (m & [= Hi Hr] & Hm).
    exists m. by rewrite Hi, Hr.
  - rewrite E3. apply prefix_take.
Qed.

Lemma coverage_invalid_intro sources eligible x :
  NoDup (mg_id <$> sources) →
  (∀ c, c ∈ coverage (mg_group x) →
    ∃ m, m ∈ sources ∧ mg_id m = source_group_id c ∧ revision (mg_group m) = source_revision c) →
  coverage_ids x `prefix_of` (mg_id <$> eligible) → coverage_invalid sources eligible x = None.
Proof.
  intros Hnd Hrev Hpre. unfold coverage_invalid. cbn zeta.
  destruct (existsb _ _) eqn:E1.
  { exfalso. apply existsb_exists in E1 as (c & Hc%list_elem_of_In & E). breflect.
    destruct (Hrev c Hc) as (m & Hm & Hi & Hr). apply E. rewrite <- Hi, <- Hr. apply elem_of_list_to_map_1.
    - by rewrite <- list_fmap_compose.
    - apply list_elem_of_fmap. by exists m. }
  destruct (existsb _ (coverage_ids x)) eqn:E2.
  { exfalso. apply existsb_exists in E2 as (i & Hi%list_elem_of_In & E). breflect. apply E.
    destruct Hpre as [k ->]. apply elem_of_app. by left. }
  rewrite bool_decide_true; [done|]. destruct Hpre as [k ->]. by rewrite take_app_length.
Qed.

Lemma summary_valid_intro v sc summaries sources eligible x :
  NoDup (mg_id <$> summaries) → x ∈ summaries →
  verify_summaries v sc summaries (_coverage_validation summaries sources eligible) !! mg_id x = None →
  summary_valid v sc sources eligible x.
Proof.
  intros Hnd Hx. unfold verify_summaries, _coverage_validation.
  rewrite set_invalid_lookup by done. destruct v as [f|]; [|done].
  destruct (f (mg_group x) sc) eqn:Hf; [|done].
  rewrite set_invalid_lookup by done.
  destruct (coverage_invalid sources eligible x) eqn:Hc; [done|]. intros _.
  apply coverage_invalid_None in Hc as [? ?]. split; eauto.
Qed.

Lemma summary_invalid v sc summaries sources eligible x :
  NoDup (mg_id <$> summaries) → NoDup (mg_id <$> sources) → x ∈ summaries →
  is_Some (verify_summaries v sc summaries (_coverage_validation summaries sources eligible) !! mg_id x) →
  ¬ summary_valid v sc sources eligible x.
Proof.
  intros Hnd Hnds Hx Hsome [(f & -> & Hf) Hrev Hpre]. revert Hsome.
  unfold verify_summaries, _coverage_validation. rewrite !set_invalid_lookup, Hf by done.
  rewrite coverage_invalid_intro, lookup_empty by done. by intros [].
Qed.

(** ** Which summary covers *)

Lemma covering_ext m summaries d d' :
  (∀ x, x ∈ summaries → d !! mg_id x = d' !! mg_id x) →
  _covering_summary_id m summaries d = _covering_summary_id m summaries d'.
Proof.
  intros H. unfold _covering_summary_id. f_equal. induction summaries as [|x k IH]; [done|].
  cbn. rewrite H by set_solver. rewrite IH; [done|]. set_solver.
Qed.

Lemma covering_found m x summaries d c dx :
  x ∈ summaries → d !! mg_id x = Some dx → d_retained dx = true →
  c ∈ coverage (mg_group x) → source_group_id c = mg_id m →
  source_revision c = revision (mg_group m) →
  ∃ y cy dy, _covering_summary_id m summaries d = Some (mg_id y) ∧ y ∈ summaries ∧
    d !! mg_id y = Some dy ∧ d_retained dy = true ∧ cy ∈ coverage (mg_group y) ∧
    source_group_id cy = mg_id m ∧ source_revision cy = revision (mg_group m).
Proof.
  intros Hx Hd Hr Hc Hi Hrev. unfold _covering_summary_id.
  match goal with |- context [find ?p _] => set (q := p) end.
  assert (q x = true) as Hq.
  { unfold q. rewrite Hd, Hr. cbn. apply existsb_exists. exists c.
    rewrite <- list_elem_of_In. split; [done|]. by rewrite !bool_decide_true. }
  destruct (find q summaries) as [y|] eqn:Hf.
  - apply find_some in Hf as [Hy Hqy]. apply list_elem_of_In in Hy. unfold q in Hqy.
    destruct (d !! mg_id y) as [dy|] eqn:Hdy; [|done]. apply andb_true_iff in Hqy as [Hry Hey].
    apply existsb_exists in Hey as (cy & Hcy%list_elem_of_In & [? ?]%andb_true_iff).
    breflect. exists y, cy, dy. by split_and!.
  - exfalso. apply list_elem_of_In in Hx. pose proof (find_none _ _ Hf x Hx). congruence.
Qed.

(** The decision of each optional group. *)
Lemma optional_fold_made summaries covered l s m :
  NoDup (mg_id <$> l) → (∀ x, x ∈ summaries → mg_id x ∉ mg_id <$> l) → m ∈ l →
  ∃ d, made (fold_left (optional_step summaries covered) l s) !! mg_id m = Some d ∧
    if bool_decide (mg_id m ∈ covered)
    then d = _source_decision m false DROPPED_COVERED_BY_SUMMARY
               (_covering_summary_id m summaries (made s))
    else d_reason d ≠ DROPPED_COVERED_BY_SUMMARY.
Proof.
  revert s. induction l as [|x l IH]; intros s Hnd Hdis Hm; [set_solver|].
  cbn [fold_left]. apply NoDup_cons in Hnd as [Hx Hnd].
  assert (∀ s, made (optional_step summaries covered s x) = <[mg_id x :=
    default (_source_decision x false DROPPED_SHARED_BUDGET None)
      (made (optional_step summaries covered s x) !! mg_id x)]> (made s)) as Hmade.
  { intros t. unfold optional_step. repeat case_match; cbn; by rewrite lookup_insert_eq. }
  assert (∀ k t i, i ∉ mg_id <$> k →
    made (fold_left (optional_step summaries covered) k t) !! i = made t !! i) as Hother.
  { clear. induction k as [|y k IH]; intros t i Hi; cbn in *; [done|].
    rewrite elem_of_cons in Hi. rewrite IH by naive_solver.
    unfold optional_step. repeat case_match; cbn; rewrite lookup_insert_ne; naive_solver. }
  apply elem_of_cons in Hm as [->|Hm].
  - rewrite Hother by done. unfold optional_step. case_bool_decide; cbn.
    + eexists. by rewrite lookup_insert_eq.
    + case_match; cbn; eexists; by rewrite lookup_insert_eq.
  - destruct (IH (optional_step summaries covered s x) Hnd) as (d & Hd & Hspec); [set_solver|done|].
    exists d. split; [exact Hd|]. case_bool_decide; [|done]. rewrite Hspec. f_equal.
    apply covering_ext. intros y Hy. rewrite Hmade, lookup_insert_ne; [done|].
    intros E. apply (Hdis y Hy). rewrite <- E. set_solver.
Qed.

(** ** The order of the history *)

#[global] Instance order_le_trans : Transitive order_le.
Proof.
  intros a b c. unfold order_le, order_leb. rewrite !orb_true_iff, !andb_true_iff, !Z.ltb_lt, !Z.eqb_eq.
  intros [?|[? H1]] [?|[? H2]]; try (left; lia). right. split; [lia|].
  by eapply pystr_leb_trans.
Qed.
#[global] Instance order_le_total : Total order_le.
Proof.
  intros a b. unfold order_le, order_leb. rewrite !orb_true_iff, !andb_true_iff, !Z.ltb_lt, !Z.eqb_eq.
  destruct (Z.lt_trichotomy (sequence a) (sequence b)) as [|[E|]]; auto.
  rewrite E. destruct (pystr_leb_total (group_id a) (group_id b)); auto.
Qed.
Lemma order_le_antisym a b : order_le a b → order_le b a → group_id a = group_id b.
Proof.
  unfold order_le, order_leb. rewrite !orb_true_iff, !andb_true_iff, !Z.ltb_lt, !Z.eqb_eq.
  intros [?|[? H1]] [?|[? H2]]; try lia. by apply pystr_leb_antisym.
Qed.
#[global] Instance mg_newer_trans : Transitive mg_newer.
Proof. intros a b c. unfold mg_newer. intros H1 H2. by transitivity (mg_group b). Qed.
#[global] Instance mg_newer_total : Total mg_newer.
Proof. intros a b. unfold mg_newer. destruct (total order_le (mg_group a) (mg_group b)); auto. Qed.

Lemma StronglySorted_lookup {A} (R : relation A) (l : list A) i j (x y : A) :
  StronglySorted R l → (i < j)%nat → l !! i = Some x → l !! j = Some y → R x y.
Proof.
  intros Hs. revert i j. induction Hs as [|a l _ IH Hall]; intros [|i] [|j] Hij Hi Hj; try lia; try done.
  - injection Hi as ->. cbn in Hj. by apply (proj1 (Forall_forall _ _) Hall), (list_elem_of_lookup_2 _ j).
  - cbn in *. apply (IH i j); [lia|done..].
Qed.

Lemma nodup_ids_eq l x (y : _MeasuredGroup) : NoDup (mg_id <$> l) → x ∈ l → y ∈ l → mg_id x = mg_id y → x = y.
Proof.
  intros Hnd [i Hi]%list_elem_of_lookup [j Hj]%list_elem_of_lookup E.
  assert ((mg_id <$> l) !! i = Some (mg_id x)) as H1 by by rewrite list_lookup_fmap, Hi.
  assert ((mg_id <$> l) !! j = Some (mg_id x)) as H2 by by rewrite list_lookup_fmap, Hj, E.
  assert (i = j) as -> by (eapply NoDup_lookup; done). congruence.
Qed.

(** Retaining a recent group means retaining every newer one. *)
Lemma select_recent_suffix l s x (y : _MeasuredGroup) :
  Forall (λ m, mg_category m = RECENT) l → NoDup (mg_id <$> l) →
  (∀ m, m ∈ l → mg_id m ∉ selected_ids s) →
  x ∈ l → y ∈ l → order_le (mg_group x) (mg_group y) →
  mg_id x ∈ selected_ids (select_recent l s) → mg_id y ∈ selected_ids (select_recent l s).
Proof.
  intros Hl Hnd Hs Hx Hy Hxy. pose proof (newest_perm l) as Hp. pose proof Hnd as Hnd0.
  rewrite <- Hp in Hl, Hnd, Hx, Hy. assert (∀ m, m ∈ _newest_first l → mg_id m ∉ selected_ids s) as Hs'
    by (intros m; rewrite Hp; auto).
  destruct (recent_fold_prefix _ s Hl Hnd Hs') as [n Hn]. unfold select_recent.
  apply list_elem_of_lookup in Hx as [i Hi], Hy as [j Hj].
  rewrite (Hn i x Hi), (Hn j y Hj). intros Hin.
  destruct (decide (i < j)%nat) as [Hij|]; [|lia]. exfalso.
  assert (StronglySorted mg_newer (_newest_first l)) as Hsort
    by (apply StronglySorted_merge_sort; apply _).
  pose proof (StronglySorted_lookup _ _ _ _ _ _ Hsort Hij Hi Hj) as Hn'. unfold mg_newer in Hn'.
  pose proof (order_le_antisym _ _ Hxy Hn') as E.
  assert (i = j); [|lia]. eapply (NoDup_lookup (mg_id <$> _newest_first l)); [done|..].
  - by rewrite list_lookup_fmap, Hi.
  - rewrite list_lookup_fmap, Hj. cbn. f_equal. symmetry. exact E.
Qed.

(** ** All passes *)

Definition sources_of l := filter (λ m, mg_category m ≠ VERIFIED_SUMMARY) l.
Definition eligible_of l := filter (λ m, is_eligible m = true) (sources_of l).

(** Why the summary [x] is not retained. *)
Definition summary_unneeded (a : PlanArguments) (measured : list _MeasuredGroup)
    (pressure : PlanPressure.t) s x (r : DecisionReason) : Prop :=
  match r with
  | DROPPED_SUMMARY_COVERAGE_INVALID =>
      ¬ summary_valid (arg_verifier a) (arg_scope a) (sources_of measured) (eligible_of measured) x
  | DROPPED_SUMMARY_NOT_NEEDED =>
      pressure = PlanPressure.NONE ∨ eligible_of measured = [] ∨
      (∃ y i, y ∈ measured ∧ mg_category y = VERIFIED_SUMMARY ∧ mg_id y ∈ selected_ids s ∧
         i ∈ coverage_ids x ∧ i ∈ coverage_ids y) ∨
      sum_tokens (filter (λ m, mg_id m ∈ coverage_ids x) measured) ≤ mg_tokens x
  | DROPPED_SHARED_BUDGET => True
  | _ => False
  end.

(** What the selection of the measured groups guarantees. *)
Record selection_ok (a : PlanArguments) (measured : list _MeasuredGroup) (pressure : PlanPressure.t)
    s : Prop := {
  so_inv : sel_inv (arg_b_work_tokens a - arg_growth a) measured s;
  so_mandatory : ∀ m, m ∈ measured → mg_category m = MANDATORY → mg_id m ∈ selected_ids s;
  so_recent : ∀ x y, x ∈ measured → y ∈ measured → mg_category x = RECENT → mg_category y = RECENT →
    order_le (mg_group x) (mg_group y) → mg_id x ∈ selected_ids s → mg_id y ∈ selected_ids s;
  so_covered : ∀ m d, m ∈ measured → made s !! mg_id m = Some d →
    d_reason d = DROPPED_COVERED_BY_SUMMARY →
    ∃ x c, x ∈ measured ∧ mg_category x = VERIFIED_SUMMARY ∧ mg_id x ∈ selected_ids s ∧
      d_covered_by_summary_id d = Some (mg_id x) ∧ c ∈ coverage (mg_group x) ∧
      source_group_id c = mg_id m ∧ source_revision c = revision (mg_group m);
  so_summary : ∀ x, x ∈ measured → mg_category x = VERIFIED_SUMMARY → mg_id x ∈ selected_ids s →
    summary_valid (arg_verifier a) (arg_scope a) (sources_of measured) (eligible_of measured) x ∧
    mg_tokens x < sum_tokens (filter (λ m, mg_id m ∈ coverage_ids x) measured);
  so_replaced : ∀ x m, x ∈ measured → mg_category x = VERIFIED_SUMMARY →
    mg_id x ∈ selected_ids s → m ∈ measured → mg_id m ∈ coverage_ids x → mg_id m ∉ selected_ids s;
  so_dropped : ∀ x d, x ∈ measured → mg_category x = VERIFIED_SUMMARY →
    made s !! mg_id x = Some d → d_retained d = false →
    summary_unneeded a measured pressure s x (d_reason d)
}.

Lemma category_disjoint l c c' x :
  NoDup (mg_id <$> l) → c ≠ c' → x ∈ of_category c l → mg_id x ∉ mg_id <$> of_category c' l.
Proof.
  intros Hnd Hc [Hx E]%elem_of_category (y & Hid & [Hy E']%elem_of_category)%list_elem_of_fmap.
  apply Hc. rewrite <- E, <- E'. f_equal. by eapply nodup_ids_eq.
Qed.

Lemma category_nodup l c : NoDup (mg_id <$> l) → NoDup (mg_id <$> of_category c l).
Proof. intros H. eapply sublist_NoDup; [exact H|]. apply fmap_sublist, sublist_filter. Qed.

Lemma of_category_Forall c l : Forall (λ m, mg_category m = c) (of_category c l).
Proof. apply Forall_forall. by intros m [_ ?]%elem_of_category. Qed.

Lemma of_category_tokens c l :
  Forall (λ m, 0 ≤ mg_tokens m) l → Forall (λ m, 0 ≤ mg_tokens m) (of_category c l).
Proof. intros H. apply Forall_forall. intros m [? _]%elem_of_category. by apply (proj1 (Forall_forall _ _) H). Qed.

Lemma newest_tokens c l :
  Forall (λ m, 0 ≤ mg_tokens m) l → Forall (λ m, 0 ≤ mg_tokens m) (_newest_first (of_category c l)).
Proof. intros H. rewrite newest_perm. by apply of_category_tokens. Qed.

(** The states between the passes. *)
Section Stages.
Context (a : PlanArguments) (measured : list _MeasuredGroup).
Context (Hnd : NoDup (mg_id <$> measured)).
Context (Htokens : Forall (λ m, 0 ≤ mg_tokens m) measured).
Context (Hb : 0 < arg_b_work_tokens a) (Hg : 0 ≤ arg_growth a).
Let part c := of_category c measured.

(** The growth and the mandatory groups fit. *)
Context (Hmand : sum_tokens (part MANDATORY) + arg_growth a ≤ arg_b_work_tokens a).
Let s1 := select_mandatory (part MANDATORY) (start_selection (arg_b_work_tokens a)).
Let s2 := reserve_growth (arg_growth a) s1.
Let s3 := select_keep_exact (part KEEP_EXACT) s2.
Let s4 := select_recent (part RECENT) s3.
Let budget := arg_b_work_tokens a - arg_growth a.

Lemma stage_mandatory :
  sel_inv budget (part MANDATORY) s2 ∧ remaining s1 = arg_b_work_tokens a - sum_tokens (part MANDATORY) ∧
  (∀ m, m ∈ part MANDATORY → mg_id m ∈ selected_ids s2).
Proof using Hb Hg Hmand Hnd Htokens.
  destruct (select_mandatory_spec (part MANDATORY) (start_selection (arg_b_work_tokens a)))
    as (Hrun & Hrem & Hin).
  - apply of_category_Forall.
  - by apply of_category_tokens.
  - cbn. lia.
  - split_and!; [|exact Hrem|exact Hin]. apply sel_inv_reserve.
    + eapply (sel_inv_run _ []); [by apply of_category_tokens|by apply category_nodup|apply sel_inv_start; lia|exact Hrun].
    + unfold s1. rewrite Hrem. cbn. lia.
Qed.

Let l4 := part MANDATORY ++ _newest_first (part KEEP_EXACT) ++ _newest_first (part RECENT).

Lemma l4_perm rest :
  rest ≡ₚ part VERIFIED_SUMMARY ++ part OPTIONAL → l4 ++ rest ≡ₚ measured.
Proof using Type.
  intros ->. unfold l4. rewrite !newest_perm. rewrite (category_partition measured) at 1.
  by rewrite <- !app_assoc.
Qed.

Lemma nodup_prefix (k r : list _MeasuredGroup) : NoDup (mg_id <$> (k ++ r)) → NoDup (mg_id <$> k).
Proof using Type. rewrite fmap_app. by intros [? _]%NoDup_app. Qed.

Lemma l4_nodup : NoDup (mg_id <$> l4).
Proof using Hnd.
  apply (nodup_prefix _ (part VERIFIED_SUMMARY ++ part OPTIONAL)). by rewrite l4_perm.
Qed.

Lemma stage_recent : sel_inv budget l4 s4.
Proof using Hb Hg Hmand Hnd Htokens.
  destruct stage_mandatory as [H2 _]. unfold l4. rewrite app_assoc.
  apply (sel_inv_run _ _ _ s3); [by apply newest_tokens|rewrite <- app_assoc; apply l4_nodup| |].
  - apply (sel_inv_run _ _ _ s2); [by apply newest_tokens| |done|apply select_keep_exact_run, of_category_Forall].
    apply (nodup_prefix _ (_newest_first (part RECENT))). rewrite <- app_assoc. apply l4_nodup.
  - apply select_recent_run, of_category_Forall.
Qed.

(** Before the summaries, nothing of the later categories is selected. *)
Lemma stage_recent_fresh c m :
  (c = VERIFIED_SUMMARY ∨ c = OPTIONAL) → m ∈ part c →
  (mg_id m ∉ selected_ids s4) ∧ (mg_id m ∉ mg_id <$> l4).
Proof using Hb Hg Hmand Hnd Htokens.
  intros Hc Hm. assert (mg_id m ∉ mg_id <$> l4) as Hfresh.
  { unfold l4. rewrite !fmap_app, !elem_of_app, !newest_perm.
    intros [H|[H|H]]; (eapply category_disjoint; [exact Hnd| |exact Hm|exact H]); naive_solver. }
  split; [|done]. intros Hs. by apply Hfresh, (si_selected _ _ _ stage_recent).
Qed.

Lemma stage_suffix x y :
  x ∈ part RECENT → y ∈ part RECENT → order_le (mg_group x) (mg_group y) →
  mg_id x ∈ selected_ids s4 → mg_id y ∈ selected_ids s4.
Proof using Hb Hg Hmand Hnd Htokens.
  intros Hx Hy Hxy. apply select_recent_suffix; try done.
  - apply of_category_Forall.
  - by apply category_nodup.
  - intros m Hm. destruct stage_mandatory as [H2 _].
    assert (sel_inv budget (part MANDATORY ++ _newest_first (part KEEP_EXACT)) s3) as H3.
    { apply (sel_inv_run _ _ _ s2); [by apply newest_tokens| |done|apply select_keep_exact_run, of_category_Forall].
      apply (nodup_prefix _ (_newest_first (part RECENT))). rewrite <- app_assoc. apply l4_nodup. }
    intros Hs%(si_selected _ _ _ H3). revert Hs. rewrite fmap_app, elem_of_app, newest_perm.
    intros [H|H]; (eapply category_disjoint; [exact Hnd| |exact Hm|exact H]); done.
Qed.
End Stages.

Section Selection.
Context (a : PlanArguments) (measured : list _MeasuredGroup) (pressure : PlanPressure.t).
Context (Hnd : NoDup (mg_id <$> measured)).
Context (Htokens : Forall (λ m, 0 ≤ mg_tokens m) measured).
Context (Hb : 0 < arg_b_work_tokens a) (Hg : 0 ≤ arg_growth a).
Let part c := of_category c measured.
Let s4 := select_recent (part RECENT) (select_keep_exact (part KEEP_EXACT)
  (reserve_growth (arg_growth a)
     (select_mandatory (part MANDATORY) (start_selection (arg_b_work_tokens a))))).
Let invalid := verify_summaries (arg_verifier a) (arg_scope a) (part VERIFIED_SUMMARY)
  (_coverage_validation (part VERIFIED_SUMMARY) (sources_of measured) (eligible_of measured)).
Let summaries_pass := select_summaries (token_counts measured) invalid pressure
  (eligible_of measured) (part VERIFIED_SUMMARY) s4.

(** The passes of [select_groups] with the source lists written as parts. *)
Lemma select_groups_unfold :
  select_groups a measured pressure =
  if arg_b_work_tokens a <? sum_tokens (part MANDATORY)
  then Raise (AgentHubError "AGENT_CONTEXT_BUDGET_EXCEEDED")
  else if remaining (select_mandatory (part MANDATORY) (start_selection (arg_b_work_tokens a)))
          <? arg_growth a
  then Raise (AgentHubError "AGENT_HISTORY_GROWTH_BUDGET_EXCEEDED")
  else match summaries_pass with
       | Return (cov, s) =>
           Return (cov, select_optional (part VERIFIED_SUMMARY) cov (part OPTIONAL) s)
       | Raise e => Raise e
       end.
Proof using Type.
  unfold select_groups, summaries_pass, invalid, s4, eligible_of, sources_of, part.
  rewrite !(source_category _ measured) by done. unfold fail_if, mbind, outcome_bind.
  destruct (_ <? _); [done|]. destruct (_ <? _); [done|].
  destruct (select_summaries _ _ _ _ _ _) as [[cov s]|]; done.
Qed.

Lemma coverage_measured x :
  summary_valid (arg_verifier a) (arg_scope a) (sources_of measured) (eligible_of measured) x →
  ∀ i, i ∈ coverage_ids x → i ∈ mg_id <$> measured.
Proof using Type.
  intros [_ Hrev _] i (c & -> & Hc)%list_elem_of_fmap. destruct (Hrev c Hc) as (m & Hm & <- & _).
  apply list_elem_of_fmap_2. unfold sources_of in Hm. by apply list_elem_of_filter in Hm as [_ ?].
Qed.

(** No lookup of the summary pass fails. *)
Lemma summaries_return s : ∃ r, select_summaries (token_counts measured) invalid pressure
  (eligible_of measured) (part VERIFIED_SUMMARY) s = Return r.
Proof using Hnd.
  unfold select_summaries. destruct (_ && _); [|eauto].
  destruct (fold_raise_return (summary_step (token_counts measured) invalid) (λ _, True)
    (merge_sort (summary_le (token_counts measured)) (part VERIFIED_SUMMARY)) (∅, s)) as (r & Hr & _); eauto.
  intros x [cov t] _ Hx. rewrite merge_sort_Permutation in Hx. unfold summary_step.
  destruct (invalid !! mg_id x) eqn:Hi; [eauto|]. case_bool_decide; cbn [negb]; [|eauto].
  rewrite set_cost_return; [|done|].
  - unfold mbind, outcome_bind. repeat case_match; eauto.
  - intros i Hin. eapply coverage_measured; [|by apply elem_of_list_to_set in Hin].
    eapply summary_valid_intro; [by apply category_nodup|exact Hx|exact Hi].
Qed.

(** After the summary pass. *)
Section After.
Context (Hmand : sum_tokens (part MANDATORY) + arg_growth a ≤ arg_b_work_tokens a).
Context (cov : gset (list N)) (s5 : Selection) (V : list _MeasuredGroup).
Context (HV : V ≡ₚ part VERIFIED_SUMMARY).
Context (quiet : Prop) (Hcov : cover_inv quiet (token_counts measured) invalid s4 V cov s5).
Let s6 := select_optional (part VERIFIED_SUMMARY) cov (part OPTIONAL) s5.
Let l5 := (part MANDATORY ++ _newest_first (part KEEP_EXACT) ++ _newest_first (part RECENT)) ++ V.
Let budget := arg_b_work_tokens a - arg_growth a.

Lemma after_perm : l5 ++ _newest_first (part OPTIONAL) ≡ₚ measured.
Proof using HV. unfold l5. rewrite <- app_assoc. apply l4_perm. by rewrite HV, newest_perm. Qed.

Lemma after_run : sel_run (_newest_first (part OPTIONAL)) s5 s6.
Proof using Type. apply select_optional_run, of_category_Forall. Qed.

Lemma after_summaries : sel_inv budget l5 s5.
Proof using HV Hb Hcov Hg Hmand Hnd Htokens.
  eapply sel_inv_run; [rewrite HV; by apply of_category_tokens| |by apply stage_recent|exact (ci_run _ _ _ _ _ _ _ Hcov)].
  eapply (nodup_prefix _ (_newest_first (part OPTIONAL))). fold l5. by rewrite after_perm.
Qed.

Lemma after_inv : sel_inv budget measured s6.
Proof using HV Hb Hcov Hg Hmand Hnd Htokens.
  eapply sel_inv_perm; [exact after_perm|].
  eapply sel_inv_run; [by apply newest_tokens|by rewrite after_perm|exact after_summaries|exact after_run].
Qed.

(** The optional pass leaves the other categories alone. *)
Lemma after_same c x :
  c ≠ OPTIONAL → x ∈ part c → mg_id x ∈ selected_ids s6 ↔ mg_id x ∈ selected_ids s5.
Proof using Hnd.
  intros Hc Hx. apply (sel_run_other _ _ _ _ after_run). rewrite newest_perm.
  by apply (category_disjoint _ c).
Qed.

Lemma after_valid x :
  x ∈ part VERIFIED_SUMMARY → mg_id x ∈ selected_ids s5 →
  summary_valid (arg_verifier a) (arg_scope a) (sources_of measured) (eligible_of measured) x ∧
  mg_tokens x < sum_tokens (filter (λ m, mg_id m ∈ coverage_ids x) measured).
Proof using HV Hcov Hnd.
  intros Hx Hs. destruct (ci_retained _ _ _ _ _ _ _ Hcov x) as (Hi & _ & cost & Hc & Hlt);
    [by rewrite HV|done|].
  assert (summary_valid (arg_verifier a) (arg_scope a) (sources_of measured)
    (eligible_of measured) x) as Hv.
  { eapply summary_valid_intro; [by apply category_nodup|exact Hx|exact Hi]. }
  split; [done|]. rewrite set_cost_return in Hc; [|done|].
  - injection Hc as <-. erewrite filter_ext_in; [exact Hlt|]. intros y _. cbn.
    by rewrite elem_of_list_to_set.
  - intros i Hin%elem_of_list_to_set. by eapply coverage_measured.
Qed.

Lemma after_suffix x y :
  x ∈ part RECENT → y ∈ part RECENT → order_le (mg_group x) (mg_group y) →
  mg_id x ∈ selected_ids s6 → mg_id y ∈ selected_ids s6.
Proof using HV Hb Hcov Hg Hmand Hnd Htokens.
  intros Hx Hy Hxy. rewrite !(after_same RECENT) by done.
  assert (∀ z, z ∈ part RECENT → mg_id z ∈ selected_ids s5 ↔ mg_id z ∈ selected_ids s4) as H54.
  { intros z Hz. apply (sel_run_other _ _ _ _ (ci_run _ _ _ _ _ _ _ Hcov)). rewrite HV.
    by apply (category_disjoint _ RECENT). }
  rewrite !H54 by done. by apply stage_suffix.
Qed.

(** The decision of an optional group. *)
Lemma after_optional m :
  m ∈ part OPTIONAL → ∃ d, made s6 !! mg_id m = Some d ∧
    if bool_decide (mg_id m ∈ cov)
    then d = _source_decision m false DROPPED_COVERED_BY_SUMMARY
               (_covering_summary_id m (part VERIFIED_SUMMARY) (made s5))
    else d_reason d ≠ DROPPED_COVERED_BY_SUMMARY.
Proof using Hnd.
  intros Hm. apply optional_fold_made.
  - rewrite newest_perm. by apply category_nodup.
  - intros x Hx. rewrite newest_perm. by apply (category_disjoint _ VERIFIED_SUMMARY).
  - by rewrite newest_perm.
Qed.

(** A group dropped as covered is covered, at its exact revision, by the
    retained summary the decision names. *)
Lemma after_covered m d :
  m ∈ measured → made s6 !! mg_id m = Some d → d_reason d = DROPPED_COVERED_BY_SUMMARY →
  ∃ x c, x ∈ part VERIFIED_SUMMARY ∧ mg_id x ∈ selected_ids s6 ∧
    d_covered_by_summary_id d = Some (mg_id x) ∧ c ∈ coverage (mg_group x) ∧
    source_group_id c = mg_id m ∧ source_revision c = revision (mg_group m).
Proof using HV Hb Hcov Hg Hmand Hnd Htokens.
  intros Hm Hd Hr. destruct (si_made _ _ _ after_inv m Hm) as (ret & r & c0 & Hd' & _ & Hfit & _).
  rewrite Hd in Hd'. injection Hd' as ->. cbn in Hr. subst r.
  assert (m ∈ part OPTIONAL) as Hmo.
  { apply elem_of_category. split; [done|]. by destruct (mg_category m), ret. }
  destruct (after_optional m Hmo) as (d' & Hd' & Hspec).
  rewrite Hd in Hd'. injection Hd' as <-.
  case_bool_decide as Hin; [|by destruct Hspec]. injection Hspec as -> ->.
  destruct (ci_covered _ _ _ _ _ _ _ Hcov _ Hin) as (x & Hx & Hxs & (cx & Hcx & Hcxin)%list_elem_of_fmap).
  assert (x ∈ part VERIFIED_SUMMARY) as HxV by by rewrite <- HV.
  destruct (after_valid x HxV Hxs) as [[_ Hrev _] _]. destruct (Hrev cx Hcxin) as (m' & Hm' & Hid & Hrv).
  assert (m' = m) as ->.
  { eapply nodup_ids_eq; [exact Hnd| |done|congruence].
    unfold sources_of in Hm'. by apply list_elem_of_filter in Hm' as [_ ?]. }
  destruct (si_made _ _ _ after_summaries x) as (retx & rx & ccx & Hdx & Hselx & _).
  { apply elem_of_app. by right. }
  destruct (covering_found m x (part VERIFIED_SUMMARY) (made s5) cx _ HxV Hdx)
    as (y & cy & dy & Heq & Hy & Hdy & Hry & Hcy & Hiy & Hrvy); [by apply Hselx|done|congruence..|].
  exists y, cy. split_and!; try done. apply (sel_run_mono _ _ _ after_run).
  destruct (si_made _ _ _ after_summaries y) as (rety & ry & ccy & Hdy' & Hsely & _).
  { apply elem_of_app. right. by rewrite HV. }
  rewrite Hdy in Hdy'. injection Hdy' as ->. by apply Hsely.
Qed.

(** A dropped summary is invalid, of no use, or does not fit. *)
Lemma after_dropped x d :
  quiet = (pressure = PlanPressure.NONE ∨ eligible_of measured = []) →
  x ∈ part VERIFIED_SUMMARY → made s6 !! mg_id x = Some d → d_retained d = false →
  summary_unneeded a measured pressure s6 x (d_reason d).
Proof using HV Hcov Hnd.
  intros Hq Hx Hd Hr. assert (made s6 !! mg_id x = made s5 !! mg_id x) as Hsame.
  { apply (sel_run_other _ _ _ _ after_run). rewrite newest_perm.
    by apply (category_disjoint _ VERIFIED_SUMMARY). }
  rewrite Hsame in Hd. assert (x ∈ V) as HxV by by rewrite HV.
  pose proof (ci_dropped _ _ _ _ _ _ _ Hcov x d HxV Hd Hr) as Hw. revert Hw.
  unfold summary_dropped, summary_unneeded. destruct (d_reason d); try done.
  - rewrite Hq. intros [[?|?]|[(i & Hi & Hic)|(Hi & cost & Hcost & Hle)]]; [by left|by right; left|..].
    + do 2 right. left. destruct (ci_covered _ _ _ _ _ _ _ Hcov i Hic) as (y & Hy & Hys & Hiy).
      rewrite HV in Hy. exists y, i. apply elem_of_category in Hy as Hy'. destruct Hy' as [? ?].
      split_and!; try done. by apply (after_same VERIFIED_SUMMARY).
    + do 3 right. rewrite set_cost_return in Hcost; [|done|].
      * injection Hcost as <-. erewrite filter_ext_in; [exact Hle|]. intros y _. cbn.
        by rewrite elem_of_list_to_set.
      * intros j Hj%elem_of_list_to_set. eapply coverage_measured; [|done].
        eapply summary_valid_intro; [by apply category_nodup|exact Hx|exact Hi].
  - intros Hi. eapply summary_invalid; [by apply category_nodup| |exact Hx|exact Hi].
    eapply sublist_NoDup; [exact Hnd|]. apply fmap_sublist, sublist_filter.
Qed.

(** What a retained summary covers is not sent besides. *)
Lemma after_replaced x m :
  x ∈ part VERIFIED_SUMMARY → mg_id x ∈ selected_ids s5 → m ∈ measured →
  mg_id m ∈ coverage_ids x → mg_id m ∉ selected_ids s6.
Proof using HV Hb Hcov Hg Hmand Hnd Htokens.
  intros Hx Hs Hm Hin. destruct (after_valid x Hx Hs) as [[_ _ Hprefix] _].
  destruct (ci_retained _ _ _ _ _ _ _ Hcov x) as (_ & Hcovered & _); [by rewrite HV|done|].
  assert (m ∈ part OPTIONAL) as Hmo.
  { assert (mg_id m ∈ mg_id <$> eligible_of measured) as (y & Hy & Hye)%list_elem_of_fmap.
    { destruct Hprefix as [k Hk]. rewrite Hk. apply elem_of_app. by left. }
    unfold eligible_of, sources_of in Hye. rewrite !list_elem_of_filter in Hye.
    destruct Hye as (He & _ & Hym). assert (m = y) as -> by (by eapply nodup_ids_eq).
    apply elem_of_category. split; [done|]. unfold is_eligible in He. breflect. done. }
  destruct (after_optional m Hmo) as (d & Hd & Hspec).
  rewrite bool_decide_true in Hspec by auto. subst d.
  destruct (si_made _ _ _ after_inv m Hm) as (ret & r & c & Hd' & Hret & _).
  rewrite Hd in Hd'. injection Hd' as <- <- <-. intros ?%Hret. done.
Qed.
End After.

Lemma mandatory_fit :
  sum_tokens (part MANDATORY) ≤ arg_b_work_tokens a →
  remaining (select_mandatory (part MANDATORY) (start_selection (arg_b_work_tokens a)))
  = arg_b_work_tokens a - sum_tokens (part MANDATORY).
Proof using Htokens.
  intros H. destruct (select_mandatory_spec (part MANDATORY) (start_selection (arg_b_work_tokens a)))
    as (_ & Hrem & _); [apply of_category_Forall|by apply of_category_tokens|cbn; lia|].
  done.
Qed.

Lemma select_groups_ok cov s :
  select_groups a measured pressure = Return (cov, s) → selection_ok a measured pressure s.
Proof using Hb Hg Hnd Htokens.
  rewrite select_groups_unfold. destruct (_ <? _) eqn:E1; [done|].
  destruct (remaining _ <? _) eqn:E2; [done|]. breflect. rewrite (mandatory_fit E1) in E2.
  assert (sum_tokens (part MANDATORY) + arg_growth a ≤ arg_b_work_tokens a) as Hmand by lia.
  destruct summaries_pass as [[c5 s5]|] eqn:Hsum; [|done]. intros [= -> <-].
  apply select_summaries_spec in Hsum as (V & HV & Hcov);
    [|apply of_category_Forall|by apply category_nodup
     |intros m Hm; eapply stage_recent_fresh; [done..|by left|exact Hm]].
  split.
  - by eapply after_inv.
  - intros m Hm Hc. destruct (stage_mandatory a measured Hnd Htokens Hb Hg Hmand) as (_ & _ & Hin).
    apply (sel_run_mono _ _ _ (after_run cov s5)), (sel_run_mono _ _ _ (ci_run _ _ _ _ _ _ _ Hcov)),
      (sel_run_mono _ _ _ (select_recent_run _ _ (of_category_Forall RECENT measured))),
      (sel_run_mono _ _ _ (select_keep_exact_run _ _ (of_category_Forall KEEP_EXACT measured))), Hin.
    by apply elem_of_category.
  - intros x y Hx Hy Hcx Hcy. eapply after_suffix; try done; by apply elem_of_category.
  - intros m d Hm Hd Hr. edestruct after_covered as (x & c & Hx & ?); [done..|].
    exists x, c. apply elem_of_category in Hx as [? ?]. tauto.
  - intros x Hx Hc Hsel. assert (x ∈ part VERIFIED_SUMMARY) as HxV by by apply elem_of_category.
    eapply after_valid; [done..|]. by apply (after_same cov s5 VERIFIED_SUMMARY).
  - intros x m Hx Hc Hsel Hm. assert (x ∈ part VERIFIED_SUMMARY) as HxV by by apply elem_of_category.
    apply (after_same cov s5 VERIFIED_SUMMARY) in Hsel; [|done..]. by eapply after_replaced.
  - intros x d Hx Hc Hd Hr. assert (x ∈ part VERIFIED_SUMMARY) as HxV by by apply elem_of_category.
    by eapply after_dropped.
Qed.
End Selection.
