(* ===== verification/HistoryPlannerProperties.v ===== *)
(** * What a history plan guarantees *)

From stdpp Require Import base gmap list strings sorting.
From Stdlib Require Import ZArith NArith Lia.
From S2P Require Import Prelude.
From S2P Require Import Json.
From S2P Require Import Outcome.
From S2P Require Import HistoryPlanner.
From S2P Require Import HistoryPlannerTheory.

Local Open Scope Z_scope.

(** ** The contract on the input *)

Record groups_ok (a : PlanArguments) (groups : list HistorySourceGroup) : Prop := {
  go_ids : NoDup (group_id <$> groups);
  go_exchanges : NoDup (exchange_id <$> groups);
  go_each : Forall (λ g, scope g = arg_scope a ∧ watermark g = arg_frozen_watermark a ∧
    sequence g < arg_frozen_watermark a ∧ count_version g = counter_version (arg_counter a)) groups
}.

Lemma check_groups_iff sc frozen version ids exchanges groups :
  check_groups sc frozen version ids exchanges groups = Return tt ↔
  NoDup (group_id <$> groups) ∧ NoDup (exchange_id <$> groups) ∧
  Forall (λ g, scope g = sc ∧ watermark g = frozen ∧ sequence g < frozen ∧ count_version g = version)
    groups ∧
  Forall (λ g, (group_id g ∉ ids) ∧ (exchange_id g ∉ exchanges)) groups.
Proof.
  revert ids exchanges. induction groups as [|g groups IH]; intros ids exchanges; cbn.
  { split; [|done]. intros _. split_and!; constructor. }
  rewrite !NoDup_cons, !Forall_cons.
  case_bool_decide; cbn; [|split; [done|naive_solver]].
  destruct (negb (watermark g =? frozen) || (frozen <=? sequence g)) eqn:E1.
  { split; [done|]. intros (_ & _ & [(_ & Hw & ? & _) _] & _).
    rewrite Hw, Z.eqb_refl in E1. cbn in E1. breflect. lia. }
  destruct (negb (count_version g =? version)) eqn:E2.
  { split; [done|]. breflect. naive_solver. }
  breflect. case_bool_decide; [split; [done|naive_solver]|].
  case_bool_decide; [split; [done|naive_solver]|]. rewrite IH.
  assert (Forall (λ g', (group_id g' ∉ ({[group_id g]} ∪ ids)) ∧
      (exchange_id g' ∉ ({[exchange_id g]} ∪ exchanges))) groups ↔
    (group_id g ∉ group_id <$> groups) ∧ (exchange_id g ∉ exchange_id <$> groups) ∧
    Forall (λ g', (group_id g' ∉ ids) ∧ (exchange_id g' ∉ exchanges)) groups) as ->.
  { rewrite !Forall_forall, !list_elem_of_fmap. split.
    - intros Hall. split_and!; [intros (x & E & Hx)..|]; [destruct (Hall x Hx); set_solver..|].
      intros x Hx. destruct (Hall x Hx). set_solver.
    - intros (Hi & He & Hall) x Hx. destruct (Hall x Hx). set_solver. }
  naive_solver.
Qed.

Lemma groups_ok_iff a groups :
  check_groups (arg_scope a) (arg_frozen_watermark a) (counter_version (arg_counter a)) ∅ ∅ groups
  = Return tt ↔ groups_ok a groups.
Proof.
  rewrite check_groups_iff. split.
  - intros (? & ? & ? & _). by split.
  - intros []. split_and!; try done. apply Forall_forall. set_solver.
Qed.

Lemma check_groups_raise sc frozen version ids exchanges groups e :
  check_groups sc frozen version ids exchanges groups = Raise e →
  ∃ msg, e = HistoryPlanContractError msg.
Proof.
  revert ids exchanges. induction groups as [|g groups IH]; intros ids exchanges; cbn; [done|].
  unfold contract_error. repeat (case_match; [intros [= <-]; eauto|]). apply IH.
Qed.

Lemma nodup_group_ids (groups : list HistorySourceGroup) g h :
  NoDup (group_id <$> groups) → g ∈ groups → h ∈ groups → group_id g = group_id h → g = h.
Proof.
  intros Hnd [i Hi]%list_elem_of_lookup [j Hj]%list_elem_of_lookup E.
  assert (i = j) as ->; [|congruence].
  eapply (NoDup_lookup (group_id <$> groups)); [done|..];
    rewrite list_lookup_fmap; [by rewrite Hi|by rewrite Hj, E].
Qed.

(** ** Measuring *)

Lemma measure_group_inv c g m :
  _measure_group c g = Return m →
  mg_group m = g ∧ mg_category m = (_effective_category g).1 ∧ 0 ≤ mg_tokens m ∧
  count c g = Some (JInt (mg_tokens m)).
Proof.
  unfold _measure_group. destruct (count c g) as [[| |t| | | |]|]; try done.
  destruct (t <? 0) eqn:E; [done|]. intros [= <-]. breflect. by split_and!.
Qed.

Record measured_ok (a : PlanArguments) (groups : list HistorySourceGroup)
    (measured : list _MeasuredGroup) : Prop := {
  me_groups : mg_group <$> measured = take (Z.to_nat (max_groups a)) (merge_sort order_le groups);
  me_nodup : NoDup (mg_id <$> measured);
  me_tokens : Forall (λ m, 0 ≤ mg_tokens m) measured;
  me_category : Forall (λ m, mg_category m = (_effective_category (mg_group m)).1 ∧
    count (arg_counter a) (mg_group m) = Some (JInt (mg_tokens m))) measured
}.

Lemma measured_intro a groups measured :
  groups_ok a groups →
  traverse (_measure_group (arg_counter a))
    (take (Z.to_nat (max_groups a)) (merge_sort order_le groups)) = Return measured →
  measured_ok a groups measured.
Proof.
  intros Hok H%traverse_Forall2.
  assert (mg_group <$> measured = take (Z.to_nat (max_groups a)) (merge_sort order_le groups)) as Heq.
  { revert H. generalize (take (Z.to_nat (max_groups a)) (merge_sort order_le groups)). intros k H.
    induction H as [|g m k measured Hm _ IH]; cbn; [done|].
    apply measure_group_inv in Hm as (Hg & _). by rewrite Hg, IH. }
  split; [done|..].
  - assert (mg_id <$> measured = group_id <$> (mg_group <$> measured)) as ->
      by (rewrite <- list_fmap_compose; reflexivity).
    rewrite Heq. eapply sublist_NoDup; [|apply fmap_sublist, sublist_take].
    rewrite merge_sort_Permutation. apply Hok.
  - eapply Forall_forall. intros m [i Hi]%list_elem_of_lookup.
    destruct (Forall2_lookup_r _ _ _ _ _ H Hi) as (g & _ & Hm).
    by apply measure_group_inv in Hm as (_ & _ & ? & _).
  - eapply Forall_forall. intros m [i Hi]%list_elem_of_lookup.
    destruct (Forall2_lookup_r _ _ _ _ _ H Hi) as (g & _ & Hm). apply measure_group_inv in Hm.
    by destruct Hm as (Hg & ? & _ & ?); rewrite Hg.
Qed.

Lemma check_arguments_inv a u :
  check_arguments a = Return u →
  0 ≤ arg_frozen_watermark a ∧ 0 < arg_b_work_tokens a ∧ 0 ≤ arg_growth a ∧ 0 < max_groups a.
Proof.
  unfold check_arguments. intros H. outcome_inv H. unfold max_groups.
  destruct (arg_work_limit a); cbn; breflect; lia.
Qed.

(** ** The shape of a plan *)

Record plan_shape (groups : list HistorySourceGroup) (a : PlanArguments)
    (measured : list _MeasuredGroup) (sel : Selection) (p : HistoryPlan) : Prop := {
  ps_groups : groups_ok a groups;
  ps_measured : measured_ok a groups measured;
  ps_selection : selection_ok a measured (pre_trim_pressure p) sel;
  ps_budget : 0 < arg_b_work_tokens a ∧ 0 ≤ arg_growth a;
  ps_complete : measurement_complete p = bool_decide (length groups ≤ Z.to_nat (max_groups a))%nat;
  ps_thresholds : thresholds p = _thresholds (arg_b_work_tokens a) (arg_thresholds a);
  ps_retained : retained_tokens p
    = sum_tokens (filter (λ m, mg_id m ∈ selected_ids sel) measured);
  ps_planned : retained_planned_tokens p = retained_tokens p + arg_growth a;
  ps_post : post_trim_pressure p = _pressure (retained_planned_tokens p) (thresholds p);
  ps_retained_ids :
    retained_group_ids p = mg_id <$> filter (λ m, mg_id m ∈ selected_ids sel) measured;
  ps_dropped_ids :
    dropped_group_ids p = mg_id <$> filter (λ m, mg_id m ∉ selected_ids sel) measured;
  ps_decisions : Forall2 (λ m d, made sel !! mg_id m = Some d) measured (decisions p);
  ps_ready : ready_for_dispatch p = negb (existsb blocking (insufficiencies p));
  ps_blocking : existsb blocking (insufficiencies p) = false ↔
    measurement_complete p = true ∧
    (∀ m, m ∈ measured → (mg_category m = KEEP_EXACT ∨ mg_category m = RECENT) →
      mg_id m ∈ selected_ids sel) ∧
    post_trim_pressure p ≠ PlanPressure.HARD
}.

Lemma existsb_when b i : existsb blocking (when b i) = b && blocking i.
Proof. destruct b; cbn; [by rewrite orb_false_r|done]. Qed.

Lemma omitted_false c f :
  omitted c f = false ↔ ∀ m, m ∈ f_sources f → mg_category m = c → mg_id m ∈ f_selected f.
Proof.
  unfold omitted. rewrite <- not_true_iff_false, existsb_exists. setoid_rewrite <- list_elem_of_In.
  setoid_rewrite andb_true_iff. setoid_rewrite negb_true_iff.
  setoid_rewrite bool_decide_eq_true. setoid_rewrite bool_decide_eq_false. split.
  - intros H m Hm Hc. destruct (decide (mg_id m ∈ f_selected f)); [done|]. destruct H. eauto.
  - intros H (m & Hm & Hc & Hn). auto.
Qed.

Lemma plan_insufficiencies_blocking f :
  existsb blocking (plan_insufficiencies f) = false ↔
  f_complete f = true ∧ omitted KEEP_EXACT f = false ∧ omitted RECENT f = false ∧
  f_post_pressure f ≠ PlanPressure.HARD.
Proof.
  unfold plan_insufficiencies. rewrite !existsb_app, !existsb_when.
  match goal with |- context [if bool_decide (f_pre_pressure f = _) then ?x else ?y] =>
    set (mid := if bool_decide (f_pre_pressure f = PlanPressure.NONE) then x else y) end.
  assert (existsb blocking mid = false) as ->.
  { unfold mid. repeat case_match; try done. by rewrite existsb_when, andb_false_r. }
  cbn. rewrite !andb_true_r, andb_false_r. cbn. rewrite !orb_false_iff, negb_false_iff.
  rewrite bool_decide_eq_false. tauto.
Qed.

Lemma decisions_return (measured : list _MeasuredGroup) sel b :
  sel_inv b measured sel →
  ∃ ds, traverse (λ m, or_raise KeyError (made sel !! mg_id m)) measured = Return ds.
Proof.
  intros [Hmade _ _ _ _ _]. induction measured as [|m l IH]; cbn; [eauto|].
  destruct (Hmade m) as (ret & r & c & -> & _); [set_solver|]. cbn.
  destruct IH as [ds ->]; [|eauto]. intros x Hx. apply Hmade. set_solver.
Qed.

Lemma plan_inv groups a p :
  plan_history groups a = Return p → ∃ measured sel, plan_shape groups a measured sel p.
Proof.
  unfold plan_history. intros (u1 & Hargs & H)%obind_inv.
  apply obind_inv in H as (ordered & Hord & H). unfold _validate_and_order_groups in Hord.
  apply obind_inv in Hord as ([] & Hgroups%groups_ok_iff & [= <-]).
  apply obind_inv in H as (measured & Hmeas & H). apply measured_intro in Hmeas; [|done].
  destruct (check_arguments_inv _ _ Hargs) as (_ & Hb & Hg & _).
  apply obind_inv in H as ([cov sel] & Hsel & H).
  apply select_groups_ok in Hsel; [|by apply Hmeas|by apply Hmeas|done..]. cbn [snd] in H.
  rewrite set_cost_return in H; [|by apply Hmeas|apply (so_inv _ _ _ _ Hsel)].
  apply obind_inv in H as (retained & [= <-] & H).
  apply obind_inv in H as (ds & Hds%traverse_Forall2 & [= <-]). exists measured, sel.
  split; try done; cbn.
  - apply bool_decide_ext. by rewrite merge_sort_Permutation.
  - eapply Forall2_impl; [exact Hds|]. intros m d. apply or_raise_inv.
  - rewrite plan_insufficiencies_blocking, !omitted_false. cbn. split.
    + intros (? & Hk & Hr & ?). split_and!; try done. intros m Hm Hc.
      assert (m ∈ filter (λ m, mg_category m ≠ VERIFIED_SUMMARY) measured).
      { apply list_elem_of_filter. split; [|done]. by destruct Hc as [-> | ->]. }
      destruct Hc; auto.
    + intros (? & Hkr & ?).
      split_and!; try done; intros m [_ Hm]%list_elem_of_filter Hc; apply Hkr; auto.
Qed.

Lemma prefix_of_pointwise {A B C} (l : list A) (k : list B) (f : A → C) (g : B → C) :
  ∀ {D} (f' : A → D) (g' : B → D), (f <$> l) `prefix_of` (g <$> k) →
  (∀ x y, x ∈ l → y ∈ k → f x = g y → f' x = g' y) → (f' <$> l) `prefix_of` (g' <$> k).
Proof.
  intros D f' g'. revert k. induction l as [|x l IH]; intros k; cbn; [intros _ _; apply prefix_nil|].
  destruct k as [|y k]; cbn; [by intros [? [=]]|]. intros Hp Hxy.
  rewrite (Hxy x y); [|by left|by left|by apply prefix_cons_inv_1 in Hp].
  apply prefix_cons, IH; [by apply prefix_cons_inv_2 in Hp|]. intros ????. apply Hxy; by right.
Qed.

(** ** Decisions *)

Section Decisions.
Context {groups : list HistorySourceGroup} {a : PlanArguments}.
Context {measured : list _MeasuredGroup} {sel : Selection} {p : HistoryPlan}.
Context (Hp : plan_shape groups a measured sel p).

Lemma decision_of_group m :
  m ∈ measured → ∃ ret r c,
    _source_decision m ret r c ∈ decisions p ∧ made sel !! mg_id m = Some (_source_decision m ret r c) ∧
    (ret = true ↔ mg_id m ∈ selected_ids sel) ∧ reason_fits (mg_category m) ret r = true ∧
    (r = DROPPED_COVERED_BY_SUMMARY ∨ c = None).
Proof using Hp.
  intros Hm. destruct (si_made _ _ _ (so_inv _ _ _ _ (ps_selection _ _ _ _ _ Hp)) m Hm)
    as (ret & r & c & Hd & ? & ? & ?). exists ret, r, c. split_and!; try done.
  apply list_elem_of_lookup in Hm as [i Hi].
  destruct (Forall2_lookup_l _ _ _ _ _ (ps_decisions _ _ _ _ _ Hp) Hi) as (d & Hdi & Hd').
  rewrite Hd in Hd'. injection Hd' as <-. by eapply list_elem_of_lookup_2.
Qed.

Lemma retained_ids_iff m :
  m ∈ measured → mg_id m ∈ retained_group_ids p ↔ mg_id m ∈ selected_ids sel.
Proof using Hp.
  intros Hm. rewrite (ps_retained_ids _ _ _ _ _ Hp), list_elem_of_fmap. split.
  - by intros (x & -> & [? _]%list_elem_of_filter).
  - intros Hs. exists m. by rewrite list_elem_of_filter.
Qed.

(** When the measurement is complete every group of the input is measured. *)
Lemma complete_measured g :
  measurement_complete p = true → g ∈ groups → ∃ m, m ∈ measured ∧ mg_group m = g.
Proof using Hp.
  rewrite (ps_complete _ _ _ _ _ Hp). intros Hlen%bool_decide_eq_true Hg.
  pose proof (me_groups _ _ _ (ps_measured _ _ _ _ _ Hp)) as Hm.
  rewrite take_ge in Hm by (by rewrite merge_sort_Permutation).
  rewrite <- (merge_sort_Permutation order_le groups), <- Hm in Hg.
  apply list_elem_of_fmap in Hg as (m & -> & ?). eauto.
Qed.

Lemma measured_in_groups m : m ∈ measured → mg_group m ∈ groups.
Proof using Hp.
  intros Hm. rewrite <- (merge_sort_Permutation order_le groups).
  eapply elem_of_submseteq; [|apply sublist_submseteq, sublist_take].
  rewrite <- (me_groups _ _ _ (ps_measured _ _ _ _ _ Hp)). by apply list_elem_of_fmap_2.
Qed.

Lemma measured_category m : m ∈ measured → mg_category m = (_effective_category (mg_group m)).1.
Proof using Hp.
  intros Hm. pose proof (me_category _ _ _ (ps_measured _ _ _ _ _ Hp)) as H.
  by apply (proj1 (Forall_forall _ _) H) in Hm as [? _].
Qed.

Lemma measured_count m : m ∈ measured → count (arg_counter a) (mg_group m) = Some (JInt (mg_tokens m)).
Proof using Hp.
  intros Hm. pose proof (me_category _ _ _ (ps_measured _ _ _ _ _ Hp)) as H.
  by apply (proj1 (Forall_forall _ _) H) in Hm as [_ ?].
Qed.

(** Every decision is the decision of its group. *)
Lemma decisions_shape :
  Forall2 (λ m d, ∃ ret r c, d = _source_decision m ret r c ∧
    (ret = true ↔ mg_id m ∈ selected_ids sel) ∧ reason_fits (mg_category m) ret r = true ∧
    (is_Some c ↔ r = DROPPED_COVERED_BY_SUMMARY)) measured (decisions p).
Proof using Hp.
  apply Forall2_same_length_lookup. split; [apply (Forall2_length _ _ _ (ps_decisions _ _ _ _ _ Hp))|].
  intros i m d Hi Hdi. assert (m ∈ measured) as Hm by by eapply list_elem_of_lookup_2.
  assert (made sel !! mg_id m = Some d) as Hd.
  { destruct (Forall2_lookup_l _ _ _ _ _ (ps_decisions _ _ _ _ _ Hp) Hi) as (d' & Hd' & ?). congruence. }
  pose proof (ps_selection _ _ _ _ _ Hp) as Hsel.
  destruct (si_made _ _ _ (so_inv _ _ _ _ Hsel) m Hm) as (ret & r & c & Hd' & Hret & Hfit & Hcov).
  assert (d = _source_decision m ret r c) as -> by congruence. exists ret, r, c.
  split_and!; try done. split; [intros [? ->]; by destruct Hcov|]. intros ->.
  destruct (so_covered _ _ _ _ Hsel m _ Hm Hd eq_refl) as (x & _ & _ & _ & _ & Hid & _).
  cbn in Hid. rewrite Hid. by eexists.
Qed.

Lemma retained_sum :
  foldr Z.add 0 (d_tokens <$> filter (λ d, d_retained d = true) (decisions p))
  = sum_tokens (filter (λ m, mg_id m ∈ selected_ids sel) measured).
Proof using Hp.
  pose proof (ps_decisions _ _ _ _ _ Hp) as Hd.
  pose proof (so_inv _ _ _ _ (ps_selection _ _ _ _ _ Hp)) as [Hmade _ _ _ _ _]. clear Hp.
  induction Hd as [|m d l ds Hmd _ IH]; [done|]. rewrite !filter_cons.
  destruct (Hmade m) as (ret & r & c & Hm & Hret & _); [set_solver|].
  rewrite Hmd in Hm. injection Hm as ->. cbn [d_retained _source_decision].
  assert (foldr Z.add 0 (d_tokens <$> filter (λ d, d_retained d = true) ds)
          = sum_tokens (filter (λ m, mg_id m ∈ selected_ids sel) l)) as IH'.
  { apply IH. intros x Hx. apply Hmade. set_solver. }
  repeat case_decide; try tauto; cbn; unfold sum_tokens in *; lia.
Qed.

(** Choosing decisions by their group is choosing groups. *)
Lemma filter_decisions (P : _MeasuredGroup → Prop) (Q : SourceGroupDecision → Prop)
    `{∀ m, Decision (P m), ∀ d, Decision (Q d)} :
  (∀ m ret r c, Q (_source_decision m ret r c) ↔ P m) →
  d_group_id <$> filter Q (decisions p) = mg_id <$> filter P measured ∧
  foldr Z.add 0 (d_tokens <$> filter Q (decisions p)) = sum_tokens (filter P measured).
Proof using Hp.
  intros HPQ. pose proof decisions_shape as Hds. clear Hp.
  induction Hds as [|m d l ds (ret & r & c & -> & _) _ [IH1 IH2]]; [done|].
  rewrite !filter_cons. pose proof (HPQ m ret r c).
  repeat case_decide; try tauto; cbn; rewrite IH1; unfold sum_tokens in *; split; done || lia.
Qed.

Lemma decision_inv d :
  d ∈ decisions p → ∃ m ret r c, m ∈ measured ∧ d = _source_decision m ret r c ∧
    (ret = true ↔ mg_id m ∈ selected_ids sel).
Proof using Hp.
  intros [i Hi]%list_elem_of_lookup.
  destruct (Forall2_lookup_r _ _ _ _ _ decisions_shape Hi) as (m & Hm%list_elem_of_lookup_2 & Hd).
  destruct Hd as (ret & r & c & -> & Hret & _). by exists m, ret, r, c.
Qed.
End Decisions.

(** ** Theorems *)

(** A plan never promises more than the working budget: what it retains,
    counted by its own decisions, fits together with the expected growth, and
    a plan that is ready for dispatch stays below the hard threshold. *)
Lemma plan_within_budget groups a p :
  plan_history groups a = Return p →
  retained_tokens p = foldr Z.add 0 (d_tokens <$> filter (λ d, d_retained d = true) (decisions p)) ∧
  retained_planned_tokens p = retained_tokens p + arg_growth a ∧
  0 ≤ retained_planned_tokens p ≤ arg_b_work_tokens a ∧
  (ready_for_dispatch p = true → retained_planned_tokens p < hard_tokens (thresholds p)).
Proof.
  intros (measured & sel & Hp)%plan_inv. rewrite (retained_sum Hp).
  pose proof (so_inv _ _ _ _ (ps_selection _ _ _ _ _ Hp)) as [_ _ _ Hsum Hpos _].
  pose proof (ps_budget _ _ _ _ _ Hp) as [Hb Hg].
  assert (0 ≤ sum_tokens (filter (λ m, mg_id m ∈ selected_ids sel) measured)).
  { apply sum_tokens_nonneg. pose proof (me_tokens _ _ _ (ps_measured _ _ _ _ _ Hp)) as Ht.
    eapply Forall_forall. intros m [_ Hm]%list_elem_of_filter. by apply (proj1 (Forall_forall _ _) Ht). }
  rewrite (ps_planned _ _ _ _ _ Hp), (ps_retained _ _ _ _ _ Hp).
  split_and!; try done; try lia. rewrite (ps_ready _ _ _ _ _ Hp), negb_true_iff.
  intros Hready%(ps_blocking _ _ _ _ _ Hp). destruct Hready as (_ & _ & Hpost).
  rewrite (ps_post _ _ _ _ _ Hp) in Hpost. unfold _pressure in Hpost.
  rewrite (ps_planned _ _ _ _ _ Hp), (ps_retained _ _ _ _ _ Hp) in Hpost.
  destruct (_ <=? _) eqn:E in Hpost; [done|]. breflect. lia.
Qed.

(** An optional source that may be summarized. *)
Definition eligible_source (g : HistorySourceGroup) : bool :=
  bool_decide ((_effective_category g).1 = OPTIONAL)
  && bool_decide (summary_eligibility g = SummaryEligibility.ELIGIBLE).

(** The sources a summary claims to cover, each at a revision. *)
Definition covered_sources (x : HistorySourceGroup) : list (list N * list N) :=
  (λ c, (source_group_id c, source_revision c)) <$> coverage x.

(** The verifier accepts the summary, and it covers, at their present revisions,
    the oldest of the sources that may be summarized, without a gap. *)
Definition verified_cover (groups : list HistorySourceGroup) (a : PlanArguments)
    (x : HistorySourceGroup) : Prop :=
  (∃ f, arg_verifier a = Some f ∧ f x (arg_scope a) = true) ∧
  covered_sources x `prefix_of`
    ((λ g, (group_id g, revision g))
       <$> filter (λ g, eligible_source g = true) (merge_sort order_le groups)).

(** How a plan accounts for a group it does not retain.  Only optional groups
    and summaries are given up.  An optional group does not fit beside what the
    plan retains, or is replaced by the retained summary that the decision
    names, an accepted cover of the oldest sources, this one among them.  A
    summary, which only stands for groups that are decided themselves, does not
    fit, or is not such a cover, or is not needed: there is no pressure, there is
    nothing to summarize, a retained summary covers one of its sources, or it
    costs at least what its sources cost. *)
Definition drop_justified (groups : list HistorySourceGroup) (a : PlanArguments) (p : HistoryPlan)
    (g : HistorySourceGroup) (d : SourceGroupDecision) : Prop :=
  let retained_summary x :=
    x ∈ groups ∧ (_effective_category x).1 = VERIFIED_SUMMARY ∧ group_id x ∈ retained_group_ids p in
  match (_effective_category g).1, d_reason d with
  | OPTIONAL, DROPPED_SHARED_BUDGET | VERIFIED_SUMMARY, DROPPED_SHARED_BUDGET =>
      arg_b_work_tokens a < retained_planned_tokens p + d_tokens d
  | OPTIONAL, DROPPED_COVERED_BY_SUMMARY =>
      ∃ x, retained_summary x ∧ d_covered_by_summary_id d = Some (group_id x) ∧
        verified_cover groups a x ∧ (group_id g, revision g) ∈ covered_sources x
  | VERIFIED_SUMMARY, DROPPED_SUMMARY_COVERAGE_INVALID => ¬ verified_cover groups a g
  | VERIFIED_SUMMARY, DROPPED_SUMMARY_NOT_NEEDED =>
      pre_trim_pressure p = PlanPressure.NONE ∨
      filter (λ x, eligible_source x = true) groups = [] ∨
      (∃ x i, retained_summary x ∧ i ∈ (covered_sources g).*1 ∧ i ∈ (covered_sources x).*1) ∨
      foldr Z.add 0 (d_tokens <$> filter (λ e, d_group_id e ∈ (covered_sources g).*1) (decisions p))
        ≤ d_tokens d
  | _, _ => False
  end.

Section Justified.
Context {groups : list HistorySourceGroup} {a : PlanArguments}.
Context {measured : list _MeasuredGroup} {sel : Selection} {p : HistoryPlan}.
Context (Hp : plan_shape groups a measured sel p) (Hcomplete : measurement_complete p = true).

Lemma covered_ids x : (covered_sources x).*1 = source_group_id <$> coverage x.
Proof using Type. unfold covered_sources. by rewrite <- list_fmap_compose. Qed.

Lemma all_measured : mg_group <$> measured = merge_sort order_le groups.
Proof using Hp Hcomplete.
  rewrite (me_groups _ _ _ (ps_measured _ _ _ _ _ Hp)). apply take_ge.
  rewrite merge_sort_Permutation. rewrite (ps_complete _ _ _ _ _ Hp) in Hcomplete.
  by apply bool_decide_eq_true in Hcomplete.
Qed.

Lemma eligible_measured :
  mg_group <$> eligible_of measured = filter (λ g, eligible_source g = true) (merge_sort order_le groups).
Proof using Hp Hcomplete.
  rewrite <- all_measured. pose proof (measured_category Hp) as Hcat. clear Hcomplete Hp.
  unfold eligible_of, sources_of. rewrite list_filter_filter.
  induction measured as [|m l IH]; [done|]. cbn [fmap list_fmap]. rewrite !filter_cons.
  assert (is_eligible m = true ∧ mg_category m ≠ VERIFIED_SUMMARY ↔ eligible_source (mg_group m) = true)
    as Hiff.
  { unfold is_eligible, eligible_source. rewrite (Hcat m) by set_solver.
    rewrite !andb_true_iff, !bool_decide_eq_true. split; [tauto|]. intros [E ?]. by rewrite E. }
  assert (∀ m, m ∈ l → mg_category m = (_effective_category (mg_group m)).1) as Hl
    by (intros; apply Hcat; set_solver).
  specialize (IH Hl). repeat case_decide; try tauto; cbn; by rewrite IH.
Qed.

(** The cover the planner accepts is the one that names the oldest sources. *)
Lemma valid_cover x :
  x ∈ measured →
  summary_valid (arg_verifier a) (arg_scope a) (sources_of measured) (eligible_of measured) x ↔
  verified_cover groups a (mg_group x).
Proof using Hp Hcomplete.
  intros Hx. unfold verified_cover. rewrite <- eligible_measured, <- list_fmap_compose.
  pose proof (me_nodup _ _ _ (ps_measured _ _ _ _ _ Hp)) as Hnd.
  assert (∀ m, m ∈ eligible_of measured → m ∈ sources_of measured) as Hsub.
  { intros m. unfold eligible_of. by intros [_ ?]%list_elem_of_filter. }
  assert (∀ m, m ∈ sources_of measured → m ∈ measured) as Hsm.
  { intros m. unfold sources_of. by intros [_ ?]%list_elem_of_filter. }
  split.
  - intros [Hv Hrev [k Hk]]. split; [done|].
    apply (prefix_of_pointwise (coverage (mg_group x)) (eligible_of measured) source_group_id mg_id);
      [by exists k|]. intros c m Hc Hm E. cbn. f_equal; [done|].
    destruct (Hrev c Hc) as (m' & Hm' & Hi & <-). do 2 f_equal.
    eapply nodup_ids_eq; [exact Hnd|auto..|]. congruence.
  - intros [Hv Hpre]. split; [done|..].
    + intros c Hc. destruct Hpre as [k Hk].
      assert ((source_group_id c, source_revision c) ∈ (λ m, (group_id (mg_group m), revision (mg_group m)))
        <$> eligible_of measured) as (m & E & Hm)%list_elem_of_fmap.
      { unfold compose in Hk. rewrite Hk. apply elem_of_app. left.
        apply list_elem_of_fmap. by exists c. }
      injection E as -> ->. exists m. auto.
    + destruct Hpre as [k Hk]. exists (k.*1). unfold coverage_ids.
      apply (f_equal (fmap fst)) in Hk. unfold covered_sources in Hk.
      rewrite fmap_app, <- !list_fmap_compose in Hk. exact Hk.
Qed.

Lemma retained_summary m :
  m ∈ measured → mg_category m = VERIFIED_SUMMARY → mg_id m ∈ selected_ids sel →
  mg_group m ∈ groups ∧ (_effective_category (mg_group m)).1 = VERIFIED_SUMMARY ∧
  group_id (mg_group m) ∈ retained_group_ids p.
Proof using Hp.
  intros Hm Hc Hs. rewrite <- (measured_category Hp m Hm). split_and!; [|done|].
  - by eapply measured_in_groups.
  - by apply (retained_ids_iff Hp m Hm).
Qed.

Lemma over_budget m r c :
  m ∈ measured → made sel !! mg_id m = Some (_source_decision m false r c) → r = DROPPED_SHARED_BUDGET →
  arg_b_work_tokens a < retained_planned_tokens p + mg_tokens m.
Proof using Hp.
  intros Hm Hd Hr. pose proof (so_inv _ _ _ _ (ps_selection _ _ _ _ _ Hp)) as [_ _ _ Hsum _ Hover].
  pose proof (Hover m _ Hm Hd Hr). rewrite (ps_planned _ _ _ _ _ Hp), (ps_retained _ _ _ _ _ Hp). lia.
Qed.

Lemma dropped_justified m r c :
  m ∈ measured → made sel !! mg_id m = Some (_source_decision m false r c) →
  reason_fits (mg_category m) false r = true →
  (mg_category m = KEEP_EXACT ∨ mg_category m = RECENT → False) →
  drop_justified groups a p (mg_group m) (_source_decision m false r c).
Proof using Hp Hcomplete.
  intros Hm Hd Hfit Hkeep. pose proof (ps_selection _ _ _ _ _ Hp) as Hsel.
  unfold drop_justified. cbv zeta. rewrite <- (measured_category Hp m Hm). cbn [d_reason _source_decision].
  destruct (mg_category m) eqn:Hc, r; try discriminate Hfit; try (destruct Hkeep; by auto);
    try (by eapply over_budget).
  - pose proof (so_dropped _ _ _ _ Hsel m _ Hm Hc Hd eq_refl) as Hw. cbn in Hw.
    rewrite covered_ids. destruct Hw as [?|[He|[(y & i & Hy & Hcy & Hys & Hi & Hiy)|Hle]]].
    + by left.
    + right. left. apply (f_equal (fmap mg_group)) in He. rewrite eligible_measured in He. cbn in He.
      apply elem_of_nil_inv. intros x [Hx Hxg]%list_elem_of_filter.
      apply (not_elem_of_nil (A := HistorySourceGroup) x). rewrite <- He. apply list_elem_of_filter.
      by rewrite merge_sort_Permutation.
    + do 2 right. left. exists (mg_group y), i. rewrite covered_ids.
      split_and!; try done; by apply retained_summary.
    + do 3 right. destruct (filter_decisions Hp (λ x, mg_id x ∈ coverage_ids m)
        (λ e, d_group_id e ∈ source_group_id <$> coverage (mg_group m))) as [_ ->]; done.
  - pose proof (so_dropped _ _ _ _ Hsel m _ Hm Hc Hd eq_refl) as Hw. cbn in Hw. by rewrite <- valid_cover.
  - destruct (so_covered _ _ _ _ Hsel m _ Hm Hd eq_refl)
      as (x & cx & Hx & Hcx & Hxs & Hid & Hcin & Hci & Hcr).
    exists (mg_group x). split; [by apply retained_summary|]. split; [exact Hid|].
    split; [apply valid_cover; [done|]; by apply (so_summary _ _ _ _ Hsel x)|].
    apply list_elem_of_fmap. exists cx. by rewrite Hci, Hcr.
Qed.
End Justified.

(** C11. Nothing disappears silently: a plan that is ready for dispatch has
    measured every group of the input, retains every mandatory, keep-exact and
    recent group (a group of unknown category or unknown eligibility counts as
    keep-exact), and for each optional group or summary it drops the reason it
    names is true ([drop_justified]). *)
Theorem ready_plan_keeps_history groups a p g :
  plan_history groups a = Return p → ready_for_dispatch p = true → g ∈ groups →
  ∃ d, d ∈ decisions p ∧ d_group_id d = group_id g ∧ d_revision d = revision g ∧
    (d_retained d = true ∧ group_id g ∈ retained_group_ids p ∨
     d_retained d = false ∧ (group_id g ∉ retained_group_ids p) ∧ drop_justified groups a p g d).
Proof.
  intros (measured & sel & Hp)%plan_inv. rewrite (ps_ready _ _ _ _ _ Hp), negb_true_iff.
  intros (Hcomplete & Hkeep & _)%(ps_blocking _ _ _ _ _ Hp) Hg.
  destruct (complete_measured Hp g Hcomplete Hg) as (m & Hm & <-).
  destruct (decision_of_group Hp m Hm) as (ret & r & c & Hd & Hmade & Hret & Hfit & _).
  exists (_source_decision m ret r c). split_and!; try done.
  change (group_id (mg_group m)) with (mg_id m). rewrite (retained_ids_iff Hp m Hm). cbn.
  destruct ret; [left; split; [done|by apply Hret]|]. right.
  assert (mg_id m ∉ selected_ids sel) as Hns by (intros ?%Hret; done).
  split_and!; [done..|]. apply (dropped_justified Hp Hcomplete m r c Hm Hmade Hfit).
  intros Hc. by apply Hns, Hkeep.
Qed.

(** C36. The decisions of a plan are well typed: one per measured group, in
    history order, each carrying the identity, tokens and effective category of
    its group and a reason that its category and its fate allow; the retained
    and the dropped identities partition the measured ones in agreement with
    the decisions. *)
Theorem plan_decisions_well_typed groups a p :
  plan_history groups a = Return p →
  d_group_id <$> decisions p
    = group_id <$> take (Z.to_nat (max_groups a)) (merge_sort order_le groups) ∧
  retained_group_ids p = d_group_id <$> filter (λ d, d_retained d = true) (decisions p) ∧
  dropped_group_ids p = d_group_id <$> filter (λ d, d_retained d = false) (decisions p) ∧
  NoDup (retained_group_ids p ++ dropped_group_ids p) ∧
  Forall (λ d, ∃ g, g ∈ groups ∧ d_group_id d = group_id g ∧ d_revision d = revision g ∧
    d_sequence d = sequence g ∧ d_exchange_id d = exchange_id g ∧
    d_category d = (_effective_category g).1 ∧
    count (arg_counter a) g = Some (JInt (d_tokens d)) ∧
    reason_fits (d_category d) (d_retained d) (d_reason d) = true ∧
    (is_Some (d_covered_by_summary_id d) ↔ d_reason d = DROPPED_COVERED_BY_SUMMARY)) (decisions p).
Proof.
  intros (measured & sel & Hp)%plan_inv. pose proof (decisions_shape Hp) as Hds.
  pose proof (me_nodup _ _ _ (ps_measured _ _ _ _ _ Hp)) as Hnd.
  rewrite <- (me_groups _ _ _ (ps_measured _ _ _ _ _ Hp)), <- list_fmap_compose.
  rewrite (ps_retained_ids _ _ _ _ _ Hp), (ps_dropped_ids _ _ _ _ _ Hp). split_and!.
  - clear -Hds. induction Hds as [|m d l ds (ret & r & c & -> & _) _ IH]; cbn; [done|]. by rewrite IH.
  - clear -Hds. induction Hds as [|m d l ds (ret & r & c & -> & Hret & _) _ IH]; [done|].
    rewrite !filter_cons. cbn [d_retained _source_decision]. repeat case_decide; try tauto; cbn; by rewrite IH.
  - clear -Hds. induction Hds as [|m d l ds (ret & r & c & -> & Hret & _) _ IH]; [done|].
    rewrite !filter_cons. cbn [d_retained _source_decision].
    repeat case_decide; cbn; try (by rewrite IH); destruct ret; naive_solver.
  - rewrite <- fmap_app.
    assert (filter (λ m, mg_id m ∈ selected_ids sel) measured
            ++ filter (λ m, mg_id m ∉ selected_ids sel) measured ≡ₚ measured) as ->; [|done].
    clear. induction measured as [|m l IH]; [done|]. rewrite !filter_cons.
    repeat case_decide; try tauto; cbn; rewrite <- IH at 3; solve_Permutation.
  - apply Forall_forall. intros d [i Hi]%list_elem_of_lookup.
    destruct (Forall2_lookup_r _ _ _ _ _ Hds Hi) as (m & Hm%list_elem_of_lookup_2 & Hd).
    destruct Hd as (ret & r & c & -> & Hret & Hfit & Hc). exists (mg_group m). cbn.
    rewrite <- (measured_category Hp m Hm), (measured_count Hp m Hm).
    split_and!; try done. by eapply measured_in_groups.
Qed.

(** What is kept is kept in the right order of preference: of the recent
    groups the newest are retained without a gap, and a retained summary was
    accepted by the verifier, covers exactly the oldest eligible groups at
    their present revisions, none of which is sent besides, and costs less
    than they do. *)
Lemma plan_prefers_recent_history groups a p :
  plan_history groups a = Return p →
  (∀ g h, g ∈ groups → h ∈ groups → (_effective_category g).1 = RECENT →
    (_effective_category h).1 = RECENT → order_le g h → group_id g ∈ retained_group_ids p →
    group_id h ∈ d_group_id <$> decisions p → group_id h ∈ retained_group_ids p) ∧
  (∀ d, d ∈ decisions p → d_category d = VERIFIED_SUMMARY → d_retained d = true →
    ∃ x f covered, x ∈ groups ∧ group_id x = d_group_id d ∧
      arg_verifier a = Some f ∧ f x (arg_scope a) = true ∧
      (∀ c, c ∈ coverage x → ∃ g, g ∈ groups ∧ group_id g = source_group_id c ∧
         revision g = source_revision c) ∧
      (source_group_id <$> coverage x) `prefix_of`
        (d_group_id <$> filter (λ e, d_category e = OPTIONAL ∧
           d_summary_eligibility e = SummaryEligibility.ELIGIBLE) (decisions p)) ∧
      covered = filter (λ e, d_group_id e ∈ source_group_id <$> coverage x) (decisions p) ∧
      Forall (λ e, d_retained e = false) covered ∧
      d_tokens d < foldr Z.add 0 (d_tokens <$> covered)).
Proof.
  intros (measured & sel & Hp)%plan_inv. pose proof (ps_selection _ _ _ _ _ Hp) as Hsel.
  pose proof (me_nodup _ _ _ (ps_measured _ _ _ _ _ Hp)) as Hnd. split.
  - intros g h Hg Hh Hcg Hch Hgh Hrg Hdh.
    rewrite (ps_retained_ids _ _ _ _ _ Hp) in Hrg. apply list_elem_of_fmap in Hrg as (x & Hx & Hxs).
    apply list_elem_of_filter in Hxs as [Hxs Hxm].
    apply list_elem_of_fmap in Hdh as (d & Hd & (y & ret & r & c & Hym & -> & _)%(decision_inv Hp)).
    cbn in Hd. pose proof (go_ids _ _ (ps_groups _ _ _ _ _ Hp)) as Hids.
    assert (mg_group x = g) as <- by (eapply nodup_group_ids; eauto using measured_in_groups).
    assert (mg_group y = h) as <- by (eapply nodup_group_ids; eauto using measured_in_groups).
    rewrite Hd. apply (retained_ids_iff Hp y Hym), (so_recent _ _ _ _ Hsel x y); try done.
    + by rewrite (measured_category Hp).
    + by rewrite (measured_category Hp).
  - intros d (x & ret & r & c & Hxm & -> & Hret)%(decision_inv Hp) Hc Hr. cbn in Hc, Hr. subst ret.
    assert (mg_id x ∈ selected_ids sel) as Hxs by by apply Hret.
    destruct (so_summary _ _ _ _ Hsel x Hxm Hc Hxs) as [[(f & Hf & Hfx) Hrev Hpre] Hcost].
    exists (mg_group x), f. eexists. split_and!; try done; [by eapply measured_in_groups| | | |].
    + intros cc Hcc. destruct (Hrev cc Hcc) as (m & Hm & ? & ?). exists (mg_group m).
      split_and!; try done. eapply measured_in_groups; [done|].
      unfold sources_of in Hm. by apply list_elem_of_filter in Hm as [_ ?].
    + destruct (filter_decisions Hp (λ m, is_eligible m = true ∧ mg_category m ≠ VERIFIED_SUMMARY)
        (λ e, d_category e = OPTIONAL ∧ d_summary_eligibility e = SummaryEligibility.ELIGIBLE))
        as [-> _].
      { intros m ret r' c'. cbn. unfold is_eligible. rewrite andb_true_iff, !bool_decide_eq_true.
        split; [|tauto]. intros [E ?]. by rewrite E. }
      unfold eligible_of, sources_of in Hpre. by rewrite list_filter_filter in Hpre.
    + apply Forall_forall. intros e [He (m & ret & r' & c' & Hm & -> & Hret')%(decision_inv Hp)]%list_elem_of_filter.
      cbn in He |- *. destruct ret; [|done]. exfalso.
      apply (so_replaced _ _ _ _ Hsel x m); try done. by apply Hret'.
    + destruct (filter_decisions Hp (λ m, mg_id m ∈ coverage_ids x)
        (λ e, d_group_id e ∈ source_group_id <$> coverage (mg_group x))) as [_ ->]; done.
Qed.

(** ** The order of the input *)

Lemma groups_ok_perm a groups groups' : groups ≡ₚ groups' → groups_ok a groups → groups_ok a groups'.
Proof. intros Hp [H1 H2 H3]. rewrite Hp in H1, H2, H3. by split. Qed.

Lemma order_unique a groups groups' :
  groups ≡ₚ groups' → groups_ok a groups → merge_sort order_le groups = merge_sort order_le groups'.
Proof.
  intros Hp Hok. apply (StronglySorted_unique_strong order_le).
  - intros x y Hx Hy Hxy Hyx. rewrite merge_sort_Permutation in Hx, Hy. rewrite <- Hp in Hy.
    eapply nodup_group_ids; [apply Hok|done..|]. by apply order_le_antisym.
  - apply StronglySorted_merge_sort; apply _.
  - apply StronglySorted_merge_sort; apply _.
  - by rewrite !merge_sort_Permutation.
Qed.

Lemma validated_order a groups :
  (groups_ok a groups ∧
   _validate_and_order_groups groups (arg_scope a) (arg_frozen_watermark a)
     (counter_version (arg_counter a)) = Return (merge_sort order_le groups)) ∨
  (¬ groups_ok a groups ∧ ∃ msg,
   _validate_and_order_groups groups (arg_scope a) (arg_frozen_watermark a)
     (counter_version (arg_counter a)) = Raise (HistoryPlanContractError msg)).
Proof.
  unfold _validate_and_order_groups. pose proof (groups_ok_iff a groups) as Hiff.
  destruct (check_groups _ _ _ _ _ _) as [[]|e] eqn:E.
  - left. split; [by apply Hiff|done].
  - right. split; [intros H%Hiff; done|]. destruct (check_groups_raise _ _ _ _ _ _ _ E) as [msg ->].
    by exists msg.
Qed.

(** The plan does not depend on the order in which the groups are
    passed: planning a permutation gives the same plan and the same budget
    errors, and is refused as a broken contract in the same cases. *)
Lemma plan_order_independent groups groups' a :
  groups ≡ₚ groups' →
  plan_history groups a = plan_history groups' a ∨
  ∃ msg msg', plan_history groups a = Raise (HistoryPlanContractError msg) ∧
              plan_history groups' a = Raise (HistoryPlanContractError msg').
Proof.
  intros Hp. unfold plan_history. destruct (check_arguments a) as [u|e]; [|by left].
  unfold mbind at 1 2, outcome_bind at 1 2.
  destruct (validated_order a groups) as [[Hok ->]|(Hn & msg & ->)];
    destruct (validated_order a groups') as [[Hok' ->]|(Hn' & msg' & ->)].
  - left. by rewrite (order_unique a groups groups' Hp Hok).
  - destruct Hn'. by eapply groups_ok_perm.
  - destruct Hn. by eapply groups_ok_perm; [symmetry|].
  - right. by exists msg, msg'.
Qed.

(** ** When planning succeeds *)

(** The counter returns a token count for every group. *)
Definition countable (a : PlanArguments) (groups : list HistorySourceGroup) : Prop :=
  ∀ g, g ∈ groups → ∃ t, count (arg_counter a) g = Some (JInt t) ∧ 0 ≤ t.

Definition tokens_of (a : PlanArguments) (g : HistorySourceGroup) : Z :=
  match count (arg_counter a) g with Some (JInt t) => t | _ => 0 end.
(** The tokens of the mandatory groups within the work limit. *)
Definition mandatory_total (a : PlanArguments) (groups : list HistorySourceGroup) : Z :=
  foldr Z.add 0 (tokens_of a <$> filter (λ g, (_effective_category g).1 = MANDATORY)
    (take (Z.to_nat (max_groups a)) (merge_sort order_le groups))).

Lemma measured_mandatory a groups measured :
  measured_ok a groups measured →
  sum_tokens (of_category MANDATORY measured) = mandatory_total a groups.
Proof.
  intros [Hg _ _ Hc]. unfold mandatory_total. rewrite <- Hg. clear Hg.
  induction Hc as [|m l [Hcat Hcount] _ IH]; [done|]. unfold of_category in *.
  rewrite fmap_cons, !filter_cons, Hcat. case_decide; [|exact IH]. cbn. unfold sum_tokens, tokens_of in *.
  rewrite Hcount. by rewrite <- IH.
Qed.

(** Planning is total on inputs that keep the contract: with well-formed
    arguments, groups of one scope and watermark with distinct identities and
    exchanges, and a counter that counts them, [plan_history] returns a plan
    exactly when the mandatory groups and the expected growth fit the working
    budget, and otherwise raises one of its two budget errors; no lookup in
    its tables ever fails. *)
Lemma plan_succeeds_iff_mandatory_fits groups a :
  check_arguments a = Return tt → groups_ok a groups → countable a groups →
  (mandatory_total a groups + arg_growth a ≤ arg_b_work_tokens a →
   ∃ p, plan_history groups a = Return p) ∧
  (arg_b_work_tokens a < mandatory_total a groups + arg_growth a →
   ∃ code, plan_history groups a = Raise (AgentHubError code) ∧
     code = (if arg_b_work_tokens a <? mandatory_total a groups
             then "AGENT_CONTEXT_BUDGET_EXCEEDED"%string
             else "AGENT_HISTORY_GROWTH_BUDGET_EXCEEDED"%string)).
Proof.
  intros Hargs Hok Hcount. unfold plan_history. rewrite Hargs.
  destruct (validated_order a groups) as [[_ ->]|[Hn _]]; [|done].
  unfold mbind, outcome_bind.
  destruct (traverse _ _) as [measured|e] eqn:Hm.
  2: { exfalso. apply traverse_raise in Hm as (g & Hg & Hm).
       assert (g ∈ groups) as Hin.
       { rewrite <- (merge_sort_Permutation order_le groups).
         eapply elem_of_submseteq; [exact Hg|apply sublist_submseteq, sublist_take]. }
       destruct (Hcount g Hin) as (t & Ht & Hpos). unfold _measure_group in Hm. rewrite Ht in Hm.
       by rewrite (proj2 (Z.ltb_ge _ _)) in Hm. }
  apply measured_intro in Hm; [|done]. destruct (check_arguments_inv _ _ Hargs) as (_ & Hb & Hg & _).
  pose proof (measured_mandatory _ _ _ Hm) as Htotal. destruct Hm as [_ Hnd Htok _].
  pose proof (mandatory_fit a measured Htok) as Hfit.
  match goal with |- context [select_groups a measured ?pr] =>
    pose proof (select_groups_unfold a measured pr) as Hunf;
    pose proof (select_groups_ok a measured pr Hnd Htok Hb Hg) as Hsel end.
  cbv zeta beta in Hunf, Hfit. rewrite Htotal in Hunf, Hfit. rewrite Hunf in Hsel |- *.
  split; intros Hle.
  - rewrite (proj2 (Z.ltb_ge _ _)) in Hsel |- * by lia. rewrite Hfit in Hsel |- * by lia.
    rewrite (proj2 (Z.ltb_ge _ _)) in Hsel |- * by lia.
    match goal with |- context [select_summaries ?c ?i ?pr ?e ?v ?s] =>
      destruct (summaries_return a measured pr Hnd s) as [[cov s5] Hr] end.
    rewrite Hr in Hsel |- *. specialize (Hsel _ _ eq_refl). cbn [snd].
    rewrite set_cost_return; [|done|apply (so_inv _ _ _ _ Hsel)].
    destruct (decisions_return _ _ _ (so_inv _ _ _ _ Hsel)) as [ds ->]. eauto.
  - destruct (_ <? _) eqn:E; [eauto|]. breflect. rewrite Hfit by lia.
    rewrite (proj2 (Z.ltb_lt _ _)) by lia. eauto.
Qed.

(** ** Witnesses: two old exchanges are replaced by a verified summary *)

Definition sample_scope : HistoryScope :=
  {| workspace_id := lit "w"; thread_id := lit "t"; permission_snapshot := lit "p" |}.
Definition sample_group (i : string) (seq : Z) (c : HistoryCategory)
    (e : SummaryEligibility.t) (cov : list string) : HistorySourceGroup :=
  {| group_id := lit i; scope := sample_scope; revision := lit "r1"; sequence := seq;
     watermark := 9; exchange_id := lit i; original_ref := lit i; count_version := 1;
     category := Some c; summary_eligibility := e; summary_eligibility_reason := lit "x";
     coverage := (λ k, {| source_group_id := lit k; source_revision := lit "r1" |}) <$> cov;
     verified := negb (bool_decide (cov = [])); verification_ref := match cov with [] => None | _ => Some (lit "v") end |}.
Definition sample_groups : list HistorySourceGroup :=
  [sample_group "recent" 5 RECENT SummaryEligibility.UNKNOWN [];
   sample_group "old1" 1 OPTIONAL SummaryEligibility.ELIGIBLE [];
   sample_group "old2" 2 OPTIONAL SummaryEligibility.ELIGIBLE [];
   sample_group "exact" 4 KEEP_EXACT SummaryEligibility.INELIGIBLE [];
   sample_group "sum" 3 VERIFIED_SUMMARY SummaryEligibility.UNKNOWN ["old1"; "old2"]%string;
   sample_group "must" 0 MANDATORY SummaryEligibility.INELIGIBLE []].
Definition sample_arguments : PlanArguments :=
  {| arg_scope := sample_scope; arg_frozen_watermark := 9;
     arg_counter := {| counter_id := lit "c"; counter_version := 1;
       count := λ g, Some (JInt (if bool_decide (group_id g = lit "sum") then 50
                                 else if bool_decide (category g = Some OPTIONAL) then 300 else 100)) |};
     arg_b_work_tokens := 1000; arg_growth := 20; arg_work_limit := None;
     arg_verifier := Some (λ _ _, true); arg_expected_counter_id := None;
     arg_expected_counter_version := None; arg_thresholds := NoThresholds |}.

Lemma sample_groups_valid : Forall (λ g, new_group g = Return g) sample_groups.
Proof. repeat constructor. Qed.

(** The plan of the sample retains the summary and drops what it covers. *)
Lemma sample_plan :
  match plan_history sample_groups sample_arguments with
  | Return p => ready_for_dispatch p = true ∧ retained_planned_tokens p = 370 ∧
      retained_group_ids p = lit <$> ["must"; "sum"; "exact"; "recent"]%string ∧
      status p = PlanStatus.READY
  | Raise _ => False
  end.
Proof. vm_compute. auto. Qed.

Lemma plan_within_budget_witness :
  ∃ p, plan_history sample_groups sample_arguments = Return p ∧
    retained_planned_tokens p < hard_tokens (thresholds p).
Proof.
  pose proof sample_plan as H. destruct (plan_history _ _) as [p|] eqn:E; [|destruct H].
  exists p. split; [reflexivity|]. apply (plan_within_budget sample_groups sample_arguments p E), H.
Defined.

Lemma ready_plan_keeps_history_witness :
  ∃ p d, plan_history sample_groups sample_arguments = Return p ∧ d ∈ decisions p ∧
    d_group_id d = lit "exact".
Proof.
  pose proof sample_plan as H. destruct (plan_history _ _) as [p|] eqn:E; [|destruct H].
  destruct (ready_plan_keeps_history sample_groups sample_arguments p
    (sample_group "exact" 4 KEEP_EXACT SummaryEligibility.INELIGIBLE []) E) as (d & Hd & Hid & _).
  - apply H.
  - apply list_elem_of_In. cbn. auto.
  - exists p, d. auto.
Defined.

Lemma plan_decisions_well_typed_witness :
  ∃ p, plan_history sample_groups sample_arguments = Return p ∧
    NoDup (retained_group_ids p ++ dropped_group_ids p).
Proof.
  pose proof sample_plan as H. destruct (plan_history _ _) as [p|] eqn:E; [|destruct H].
  exists p. split; [reflexivity|].
  apply (plan_decisions_well_typed sample_groups sample_arguments p E).
Defined.

Lemma plan_prefers_recent_history_witness :
  ∃ p, plan_history sample_groups sample_arguments = Return p ∧
    ∀ d, d ∈ decisions p → d_category d = VERIFIED_SUMMARY → d_retained d = true →
      ∃ x, x ∈ sample_groups ∧ group_id x = d_group_id d.
Proof.
  pose proof sample_plan as H. destruct (plan_history _ _) as [p|] eqn:E; [|destruct H].
  exists p. split; [reflexivity|]. intros d Hd Hc Hr.
  destruct (proj2 (plan_prefers_recent_history sample_groups sample_arguments p E) d Hd Hc Hr)
    as (x & f & cv & Hx & Hid & _). eauto.
Defined.

Lemma plan_order_independent_witness :
  plan_history (reverse sample_groups) sample_arguments = plan_history sample_groups sample_arguments.
Proof.
  pose proof sample_plan as H.
  destruct (plan_order_independent sample_groups (reverse sample_groups) sample_arguments)
    as [He|(m & m' & He & _)].
  - symmetry. apply reverse_Permutation.
  - symmetry. exact He.
  - rewrite He in H. destruct H.
Defined.

Lemma plan_succeeds_iff_mandatory_fits_witness :
  ∃ p, plan_history sample_groups sample_arguments = Return p.
Proof.
  apply (plan_succeeds_iff_mandatory_fits sample_groups sample_arguments).
  - vm_compute. reflexivity.
  - apply groups_ok_iff. vm_compute. reflexivity.
  - intros g Hg. cbn. case_bool_decide; [eauto with lia|]. case_bool_decide; eauto with lia.
  - vm_compute. discriminate.
Defined.
