(* ===== verification/JsonProjection.v ===== *)
(** * Bounded projection of JSON payloads

    Model of the projection of [packages/agent_runtime/context_budget.py]
    ([_project_json_value], [_fit_mapping_to_budget], [_string_prefix_length],
    [_json_safe]): tool results, evidence and memory are shortened to a token
    budget before they enter the model's window.

    The token estimator is a parameter whose estimates are natural numbers.
    The two evidence formats of the retrieval layer have projections of their
    own, which are parameters here ([Reprojection]).  [None] in the first
    component is [_PROJECTION_UNAVAILABLE].  Dictionaries have distinct keys,
    so that inserting the items of one under their keys appends them. *)

From stdpp Require Import base gmap list strings sorting.
From Stdlib Require Import ZArith NArith Lia.
From S2P Require Import Prelude.
From S2P Require Import Json.
From S2P Require Import JsonTheory.
From S2P Require Import TurnTranscript.
From S2P Require Import ContextMetadata.
From S2P Require Import ContextPolicy.

Local Open Scope Z_scope.

Inductive ContextCategory :=
| RUNTIME_POLICY | SYSTEM_PROMPT | CURRENT_USER_TASK | TOOL_DEFINITIONS
| RAG_EVIDENCE | TOOL_RESULT | CONVERSATION | MEMORY.
#[global] Instance ContextCategory_dec : EqDecision ContextCategory.
Proof. solve_decision. Defined.

Definition _MANDATORY_CATEGORIES (c : ContextCategory) : bool :=
  match c with
  | RUNTIME_POLICY | SYSTEM_PROMPT | CURRENT_USER_TASK | TOOL_DEFINITIONS => true
  | _ => false
  end.
Definition _PROJECTABLE_CATEGORIES (c : ContextCategory) : bool :=
  match c with RAG_EVIDENCE | TOOL_RESULT | MEMORY => true | _ => false end.
Definition _UNTRUSTED_CATEGORIES (c : ContextCategory) : bool :=
  match c with TOOL_RESULT | MEMORY => true | _ => false end.

Definition _APPROVAL_FACT_KEYS : list (list N) :=
  lit <$> ["approval_decision"; "approval_execution"]%string.
Definition _PRIORITY_JSON_KEYS : list (list N) :=
  lit <$> ["status"; "error_code"; "error"; "code"; "evidence_refs"; "trust"; "truncated"]%string.
Definition _PRESERVED_SCALAR_KEYS : list (list N) :=
  lit <$> ["status"; "error_code"; "error"; "code"]%string.

(** [TokenEstimator] *)
Class TokenEstimator := { estimate : list N → N }.
(** [reproject_evidence_view] and [reproject_rag_evidence_payload]: a
    dictionary that fits the budget, or [None]. *)
Class Reprojection := {
  reproject_evidence_view : json → Z → option (list (list N * json));
  reproject_rag_evidence_payload : json → Z → option (list (list N * json))
}.

(** ** Small pieces *)

(** [_json_safe]: non-finite numbers become text. *)
Fixpoint _json_safe (v : json) : json :=
  match v with
  | JFloat r => if non_finite r then JStr r else v
  | JArr l => JArr (_json_safe <$> l)
  | JObj l => JObj ((λ kv, (kv.1, _json_safe kv.2)) <$> l)
  | _ => v
  end.

(** [d[k] = v] *)
Fixpoint dict_set (k : list N) (v : json) (l : list (list N * json)) : list (list N * json) :=
  match l with
  | [] => [(k, v)]
  | (k', w) :: r => if bool_decide (k' = k) then (k, v) :: r else (k', w) :: dict_set k v r
  end.
(** [{**l, **u}] *)
Definition dict_update (l u : list (list N * json)) : list (list N * json) :=
  fold_left (λ acc kv, dict_set kv.1 kv.2 acc) u l.

(** [bool(v)] *)
Definition truthy_json (v : json) : bool :=
  match v with
  | JNull | JBool false | JInt 0 | JStr [] | JArr [] | JObj [] => false
  | JFloat r => negb (bool_decide (r ∈ [lit "0.0"; lit "-0.0"]))
  | _ => true
  end.

Definition is_scalar (v : json) : bool := match v with JArr _ | JObj _ => false | _ => true end.

(** Priority keys first ([true]) or last, then by text. *)
Definition key_rank (first : bool) (k : list N) : N :=
  if bool_decide (k ∈ _PRIORITY_JSON_KEYS) then (if first then 0 else 1)%N
  else (if first then 1 else 0)%N.
Definition rank_le {A} (first : bool) (p q : list N * A) : Prop :=
  (key_rank first p.1 < key_rank first q.1)%N ∨
  key_rank first p.1 = key_rank first q.1 ∧ pystr_leb p.1 q.1 = true.
#[global] Instance rank_le_dec {A} first : RelDecision (@rank_le A first).
Proof. intros p q. unfold rank_le. apply _. Defined.

Section Projection.
Context `{!TokenEstimator, !Reprojection}.

Definition _json_estimate (v : json) : Z := Z.of_N (estimate (dump v)).

(** Binary search for the longest prefix of a string whose estimate fits; the
    fuel is the length of the text, which the interval cannot outlast. *)
Fixpoint prefix_search (fuel : nat) (s : list N) (budget : Z) (low high : nat) : nat :=
  match fuel with
  | O => low
  | S fuel' =>
      if (low <? high)%nat then
        let middle := ((low + high + 1) / 2)%nat in
        if _json_estimate (JStr (take middle s)) <=? budget
        then prefix_search fuel' s budget middle high
        else prefix_search fuel' s budget low (middle - 1)
      else low
  end.
Definition _string_prefix_length (s : list N) (budget : Z) : nat :=
  prefix_search (length s) s budget 0 (length s).

Fixpoint fit_loop (budget : Z) (trust_keys : list (list N)) (keys : list (list N))
    (result : list (list N * json)) : option (list (list N * json)) :=
  match keys with
  | [] => None
  | k :: rest =>
      if bool_decide (k ∈ trust_keys) || bool_decide (k ∈ _PRIORITY_JSON_KEYS)
         || bool_decide (k = lit "truncated")
      then fit_loop budget trust_keys rest result
      else
        let result := filter (λ kv, kv.1 ≠ k) result in
        if _json_estimate (JObj result) <=? budget then Some result
        else fit_loop budget trust_keys rest result
  end.
Definition _fit_mapping_to_budget (value : list (list N * json)) (budget : Z)
    (trust_keys : list (list N)) : option (list (list N * json)) :=
  if _json_estimate (JObj value) <=? budget then Some value
  else fit_loop budget trust_keys (merge_sort (rank_le false) value).*1 value.

(** The evidence formats; [None]: the payload has neither of them. *)
Definition rag_projection (c : ContextCategory) (v : json) (budget : Z) :
    option (option json * bool) :=
  match c, v with
  | RAG_EVIDENCE, JObj l =>
      let finish r :=
        match r with
        | None => (None, true)
        | Some p => (Some (JObj p), truthy_json (field "truncated" l)
                                    || truthy_json (field "truncated" p))
        end in
      if is_text (lit "rag_view_v1") (field "evidence_format" l)
      then Some (finish (reproject_evidence_view v budget))
      else if is_text (lit "rag_records_v1") (field "evidence_format" l)
      then Some (finish (reproject_rag_evidence_payload v budget))
      else None
  | _, _ => None
  end.

(** One key of a nested mapping; the item carries its value and the
    projection of that value. *)
Definition object_step (budget : Z) (st : list (list N * json) * bool)
    (it : list N * (json * (Z → option json * bool))) : list (list N * json) * bool :=
  let '(result, truncated) := st in
  let '(key, (value, project)) := it in
  if bool_decide (key ∈ _PRESERVED_SCALAR_KEYS) && is_scalar value then
    let candidate := result ++ [(key, value)] in
    if _json_estimate (JObj candidate) <=? budget then (candidate, truncated) else (result, true)
  else
    let remaining := budget - _json_estimate (JObj result) in
    if remaining <=? 0 then (result, true)
    else
      let child_budget := Z.max (remaining - _json_estimate (JObj [(key, JObj [])])) 0 in
      match project child_budget with
      | (None, _) => (result, true)
      | (Some child, child_truncated) =>
          let candidate := result ++ [(key, child)] in
          if _json_estimate (JObj candidate) <=? budget
          then (candidate, truncated || child_truncated)
          else (result, true)
      end.

Definition items_envelope (values : list json) : json :=
  JObj [(lit "items", JArr values); (lit "truncated", JBool true)].

(** The elements of a nested list, up to the first that does not fit. *)
Fixpoint array_loop (budget : Z) (children : list (Z → option json * bool))
    (values : list json) (truncated : bool) : list json * bool :=
  match children with
  | [] => (values, truncated)
  | project :: rest =>
      let remaining := budget - _json_estimate (items_envelope values) in
      if remaining <=? 0 then (values, true)
      else match project remaining with
      | (None, _) => (values, true)
      | (Some child, child_truncated) =>
          if _json_estimate (items_envelope (values ++ [child])) <=? budget
          then array_loop budget rest (values ++ [child]) (truncated || child_truncated)
          else (values, true)
      end
  end.

(** [_project_json_value(..., _root=False)] on a normalised value. *)
Fixpoint project_nested (c : ContextCategory) (v : json) (budget : Z) {struct v} :
    option json * bool :=
  if budget <=? 0 then (None, true)
  else match rag_projection c v budget with
  | Some r => r
  | None =>
      if _json_estimate v <=? budget then (Some v, false)
      else match v with
      | JObj l =>
          let items := merge_sort (rank_le true)
                         ((λ kv, (kv.1, (kv.2, project_nested c kv.2))) <$> l) in
          let '(result, truncated) := fold_left (object_step budget) items ([], false) in
          match _fit_mapping_to_budget result budget [] with
          | Some r => (Some (JObj r), truncated || (length result <? length l)%nat)
          | None => (None, true)
          end
      | JArr l =>
          let '(values, truncated) := array_loop budget (project_nested c <$> l) [] false in
          (Some (JArr values), truncated)
      | JStr s =>
          let p := take (_string_prefix_length s budget) s in
          if _json_estimate (JStr p) <=? budget
          then (Some (JStr p), negb (bool_decide (p = s))) else (None, true)
      | _ => (None, true)
      end
  end.

(** ** The root of a message *)

Definition trust_fields (c : ContextCategory) (v : json) : list (list N * json) :=
  if _UNTRUSTED_CATEGORIES c then [(lit "trust", JStr (lit "UNTRUSTED"))]
  else match v with
       | JObj l => copy_item "trust" l ++ copy_item "data_trust" l
       | _ => []
       end.

Definition approval_keys_present (c : ContextCategory) (v : json) : bool :=
  match c, v with
  | TOOL_RESULT, JObj l => existsb (λ k, bool_decide (k ∈ _APPROVAL_FACT_KEYS)) l.*1
  | _, _ => false
  end.
Definition approval_fields (c : ContextCategory) (v : json) : list (list N * json) :=
  match c, v with
  | TOOL_RESULT, JObj l =>
      match dict_get (lit "approval_decision") l, dict_get (lit "approval_execution") l with
      | Some (JStr d), Some (JStr e) =>
          [(lit "approval_decision", JStr d); (lit "approval_execution", JStr e)]
      | _, _ => []
      end
  | _, _ => []
  end.

Definition metadata_keys : list (list N) :=
  (lit <$> ["trust"; "data_trust"; "truncated"]%string) ++ _APPROVAL_FACT_KEYS.
Definition business_value (v : json) : json :=
  match v with JObj l => JObj (filter (λ kv, kv.1 ∉ metadata_keys) l) | _ => v end.
Definition original_truncated (v : json) : bool :=
  match v with
  | JObj l => match field "truncated" l with JBool b => b | _ => false end
  | _ => false
  end.

Definition project_with_root_envelope (c : ContextCategory) (v : json) (budget : Z)
    (reserve_truncated include_approval : bool) : option (list (list N * json) * bool) :=
  let approvals := if include_approval then approval_fields c v else [] in
  let envelope := dict_update (dict_update (trust_fields c v) approvals)
                    (if reserve_truncated then [(lit "truncated", JBool true)] else []) in
  let inner_budget := budget - _json_estimate (JObj envelope) in
  if inner_budget <=? 0 then None
  else match project_nested c (business_value v) inner_budget with
  | (None, _) => None
  | (Some projected, child_truncated) =>
      let '(base, was_truncated) :=
        match business_value v with
        | JObj b =>
            let p := match projected with JObj p => p | _ => [] end in
            (p, child_truncated || original_truncated v || (length p <? length b)%nat
                || approval_keys_present c v && negb include_approval)
        | JArr _ => ([(lit "items", projected)], child_truncated)
        | _ => ([(lit "value", projected)], child_truncated)
        end in
      let candidate := dict_update (dict_update base (trust_fields c v)) approvals in
      let candidate := if was_truncated then dict_set (lit "truncated") (JBool true) candidate
                       else candidate in
      if _json_estimate (JObj candidate) <=? budget then Some (candidate, was_truncated) else None
  end.

(** The attempts with and without the approval facts. *)
Fixpoint root_attempts (c : ContextCategory) (v : json) (budget : Z) (includes : list bool) :
    option (list (list N * json) * bool) :=
  match includes with
  | [] => None
  | include :: rest =>
      match project_with_root_envelope c v budget false include with
      | Some (p, false) => Some (p, false)
      | _ => match project_with_root_envelope c v budget true include with
             | Some r => Some r
             | None => root_attempts c v budget rest
             end
      end
  end.

(** The search for an envelope that fits, and the bare marker. *)
Definition root_projection (c : ContextCategory) (v : json) (budget : Z) : option json * bool :=
  match root_attempts c v budget
          (if bool_decide (approval_fields c v = []) then [false] else [true; false]) with
  | Some (p, t) => (Some (JObj p), t)
  | None =>
      let marker := dict_update [(lit "truncated", JBool true)] (trust_fields c v) in
      if _json_estimate (JObj marker) <=? budget then (Some (JObj marker), true) else (None, true)
  end.

(** A mapping that fits as it is, with its trust labels assigned. *)
Definition labelled_root (c : ContextCategory) (v : json) (budget : Z) :
    option (list (list N * json)) :=
  match v with
  | JObj l =>
      let candidate := dict_update l (trust_fields c v) in
      if (_json_estimate v <=? budget) && (_json_estimate (JObj candidate) <=? budget)
      then Some candidate else None
  | _ => None
  end.

(** [_project_json_value] at the root. *)
Definition _project_json_value (c : ContextCategory) (value : json) (budget : Z) :
    option json * bool :=
  if budget <=? 0 then (None, true)
  else
    let v := _json_safe value in
    match rag_projection c v budget with
    | Some r => r
    | None =>
        if (_json_estimate v <=? budget) && bool_decide (trust_fields c v = [])
        then (Some v, false)
        else match labelled_root c v budget with
             | Some l => (Some (JObj l), false)
             | None => root_projection c v budget
             end
    end.
End Projection.
