(* ===== verification/JsonProjectionTheory.v ===== *)
(** * Bounded projection: nothing is lost without a mark *)

From stdpp Require Import base gmap list strings sorting.
From Stdlib Require Import ZArith NArith Lia.
From S2P Require Import Prelude.
From S2P Require Import Json.
From S2P Require Import JsonTheory.
From S2P Require Import TurnTranscript.
From S2P Require Import ContextMetadata.
From S2P Require Import ContextPolicy.
From S2P Require Import ContextPolicyTheory.
From S2P Require Import JsonProjection.

Local Open Scope Z_scope.
Local Arguments lit : simpl never.

(** ** Dictionaries *)

Lemma dict_get_cons k' k v l :
  dict_get k' ((k, v) :: l) = if decide (k = k') then Some v else dict_get k' l.
Proof. unfold dict_get. cbn. case_bool_decide; case_decide; done. Qed.

Lemma dict_get_set k v l k' :
  dict_get k' (dict_set k v l) = if decide (k' = k) then Some v else dict_get k' l.
Proof.
  induction l as [|[k0 w] l IH]; cbn [dict_set].
  - rewrite dict_get_cons. repeat case_decide; congruence.
  - case_bool_decide; rewrite !dict_get_cons, ?IH; repeat case_decide; congruence.
Qed.

Lemma dict_get_update l u k :
  dict_get k (dict_update l u)
  = match dict_get k (reverse u) with Some v => Some v | None => dict_get k l end.
Proof.
  unfold dict_update. revert l. induction u as [|[k0 w] u IH]; intros l; cbn [fold_left]; [done|].
  rewrite IH, reverse_cons, dict_get_app, dict_get_set, dict_get_cons. cbn [fst snd].
  destruct (dict_get k (reverse u)); [done|]. repeat case_decide; try congruence; done.
Qed.

Lemma dict_get_None k l : dict_get k l = None ↔ k ∉ l.*1.
Proof.
  induction l as [|[k0 w] l IH]; [split; [intros _; apply not_elem_of_nil|done]|].
  rewrite dict_get_cons. cbn. rewrite not_elem_of_cons. case_decide; naive_solver.
Qed.

(** ** Nested projections *)

Section Nested.
Context `{!TokenEstimator, !Reprojection}.

Definition step_item : Type := list N * (json * (Z → option json * bool)).

(** How a kept item relates to the original one. *)
Definition kept (it : step_item) (kv : list N * json) : Prop :=
  kv.1 = it.1 ∧ (kv.2 = it.2.1 ∨ ∃ b, it.2.2 b = (Some kv.2, false)).

Lemma object_step_spec budget res trunc it res' trunc' :
  object_step budget (res, trunc) it = (res', trunc') →
  (res' = res ∧ trunc' = true) ∨
  (∃ x, res' = res ++ [(it.1, x)] ∧ _json_estimate (JObj res') ≤ budget ∧
    (trunc' = false → trunc = false ∧ kept it (it.1, x))).
Proof.
  unfold object_step. destruct it as [key [value project]]. cbn [fst snd].
  destruct (_ && is_scalar value).
  - destruct (_ <=? _) eqn:E; intros [= <- <-]; [|by left]. breflect. right. exists value.
    split_and!; [done..|]. intros ->. split; [done|]. split; [done|by left].
  - destruct (budget - _ <=? 0); [intros [= <- <-]; by left|].
    match goal with |- context [project ?b] => destruct (project b) as [[child|] ct] eqn:Hp end;
      [|intros [= <- <-]; by left].
    destruct (_ <=? _) eqn:E; intros [= <- <-]; [|by left]. breflect. right. exists child.
    split_and!; [done..|]. intros [-> ->]%orb_false_iff. split; [done|]. split; [done|]. right.
    by eexists.
Qed.

Lemma object_fold_spec budget its res0 trunc0 res trunc :
  fold_left (object_step budget) its (res0, trunc0) = (res, trunc) →
  ∃ new, res = res0 ++ new ∧ new.*1 `sublist_of` its.*1 ∧
    (new = [] ∨ _json_estimate (JObj res) ≤ budget) ∧
    (trunc = false → trunc0 = false ∧ Forall2 kept its new).
Proof.
  revert res0 trunc0. induction its as [|it its IH]; intros res0 trunc0; cbn [fold_left].
  - intros [= <- <-]. exists []. rewrite app_nil_r. split_and!; [done|constructor|by left|].
    intros ->. split; [done|constructor].
  - destruct (object_step budget (res0, trunc0) it) as [res1 trunc1] eqn:Hs.
    intros (new & -> & Hsub & Hest & Ht)%IH.
    destruct (object_step_spec _ _ _ _ _ _ Hs) as [[-> ->]|(x & -> & Hfit & Hk)].
    + exists new. split_and!; [done|by apply sublist_cons|done|].
      intros E. by destruct (Ht E).
    + exists ((it.1, x) :: new). split_and!.
      * by rewrite <- app_assoc.
      * cbn. by apply sublist_skip.
      * right. destruct Hest as [->|?]; [|by rewrite <- app_assoc in *]. by rewrite app_nil_r.
      * intros E. destruct (Ht E) as [E1 HF]. destruct (Hk E1) as [? ?]. split; [done|].
        by constructor.
Qed.

Lemma fit_loop_nil budget trust : _fit_mapping_to_budget [] budget trust = Some [] ∨
  _fit_mapping_to_budget [] budget trust = None.
Proof. unfold _fit_mapping_to_budget. case_match; [by left|]. right. reflexivity. Qed.

(** The last step of a nested mapping changes nothing. *)
Lemma fit_result budget res r :
  (res = [] ∨ _json_estimate (JObj res) ≤ budget) →
  _fit_mapping_to_budget res budget [] = Some r → r = res.
Proof.
  intros [->|Hle]; [destruct (fit_loop_nil budget []); congruence|].
  unfold _fit_mapping_to_budget. rewrite (proj2 (Z.leb_le _ _)) by done. by intros [= ->].
Qed.

Lemma array_loop_spec budget children values trunc values' trunc' :
  array_loop budget children values trunc = (values', trunc') →
  trunc' = false → trunc = false ∧ ∃ new, values' = values ++ new ∧
    Forall2 (λ f x, ∃ b, f b = (Some x, false)) children new.
Proof.
  revert values trunc. induction children as [|f children IH]; intros values trunc; cbn [array_loop].
  - intros [= <- <-] ->. split; [done|]. exists []. rewrite app_nil_r. split; [done|constructor].
  - destruct (_ <=? 0); [intros [= <- <-]; done|].
    match goal with |- context [f ?b] => destruct (f b) as [[child|] ct] eqn:Hf end;
      [|intros [= <- <-]; done].
    destruct (_ <=? budget); [|intros [= <- <-]; done].
    intros Hl Ht. destruct (IH _ _ Hl Ht) as [[-> ->]%orb_false_iff (new & -> & HF)].
    split; [done|]. exists (child :: new). rewrite <- app_assoc. split; [done|]. constructor; eauto.
Qed.

Lemma rag_projection_other c v b : c ≠ RAG_EVIDENCE → rag_projection c v b = None.
Proof. by destruct c. Qed.

Lemma project_nested_unfold c v b :
  c ≠ RAG_EVIDENCE → 0 < b →
  project_nested c v b =
  if _json_estimate v <=? b then (Some v, false)
  else match v with
  | JObj l =>
      let '(result, truncated) := fold_left (object_step b)
        (merge_sort (rank_le true) ((λ kv, (kv.1, (kv.2, project_nested c kv.2))) <$> l)) ([], false) in
      match _fit_mapping_to_budget result b [] with
      | Some r => (Some (JObj r), truncated || (length result <? length l)%nat)
      | None => (None, true)
      end
  | JArr l =>
      let '(values, truncated) := array_loop b (project_nested c <$> l) [] false in
      (Some (JArr values), truncated)
  | JStr s =>
      let p := take (_string_prefix_length s b) s in
      if _json_estimate (JStr p) <=? b then (Some (JStr p), negb (bool_decide (p = s))) else (None, true)
  | _ => (None, true)
  end.
Proof.
  intros Hc Hb. destruct v; cbn [project_nested]; rewrite (proj2 (Z.leb_gt b 0)) by lia;
    by rewrite rag_projection_other by done.
Qed.

Lemma project_nested_nonpos c v b : b ≤ 0 → project_nested c v b = (None, true).
Proof. intros Hb. destruct v; cbn [project_nested]; by rewrite (proj2 (Z.leb_le b 0)). Qed.

(** A mapping stays a mapping, with some of its keys. *)
Lemma project_nested_obj c l b w t :
  c ≠ RAG_EVIDENCE → project_nested c (JObj l) b = (Some w, t) →
  ∃ r, w = JObj r ∧ (∀ k, k ∈ r.*1 → k ∈ l.*1) ∧ (length r < length l → t = true)%nat.
Proof.
  intros Hc. destruct (decide (b ≤ 0)); [by rewrite project_nested_nonpos|].
  rewrite project_nested_unfold by (done || lia). destruct (_ <=? b).
  { intros [= <- <-]. exists l. split_and!; [done..|lia]. }
  destruct (fold_left _ _ _) as [res trunc] eqn:Hf.
  destruct (object_fold_spec _ _ _ _ _ _ Hf) as (new & Heq & Hsub & Hest & _). cbn in Heq. subst new.
  destruct (_fit_mapping_to_budget res b []) as [r|] eqn:Hfit; [|done].
  apply fit_result in Hfit; [|done]. subst r. intros [= <- <-]. exists res. split_and!; [done| |].
  - intros k Hk. eapply elem_of_submseteq in Hk; [|by apply sublist_submseteq].
    rewrite merge_sort_Permutation, <- list_fmap_compose in Hk. exact Hk.
  - intros Hlt. apply orb_true_iff. right. by apply Nat.ltb_lt.
Qed.

Lemma kept_sorted c (l : list (list N * json)) (its : list step_item) new :
  (∀ it, it ∈ its → ∃ kv, kv ∈ l ∧ it = (kv.1, (kv.2, project_nested c kv.2))) →
  (∀ kv b x, kv ∈ l → project_nested c kv.2 b = (Some x, false) → sort_json x = sort_json kv.2) →
  Forall2 kept its new →
  (λ kv, (kv.1, sort_json kv.2)) <$> new = (λ it : step_item, (it.1, sort_json it.2.1)) <$> its.
Proof.
  intros Hits Hsub HF. induction HF as [|it kv its new [Hk Hv] _ IH]; cbn; [done|].
  f_equal; [|apply IH; intros; apply Hits; set_solver].
  destruct (Hits it) as (kv0 & Hin & ->); [set_solver|]. cbn in *. f_equal; [done|].
  destruct Hv as [->|[b Hb]]; [done|]. by eapply Hsub.
Qed.

(** A nested projection that is not marked as truncated has kept the whole
    value, up to the order of keys. *)
Lemma project_nested_complete c v b w :
  c ≠ RAG_EVIDENCE → json_wf v → project_nested c v b = (Some w, false) → sort_json w = sort_json v.
Proof.
  intros Hc. revert b w. induction v as [|b0|z0|r0|s0|l IH|l IH] using json_ind'; intros b w Hwf;
    (destruct (decide (b ≤ 0)); [by rewrite project_nested_nonpos|]);
    rewrite project_nested_unfold by (done || lia); destruct (_ <=? b); try done;
    try (by intros [= <-]).
  - cbn zeta. destruct (_ <=? b); [|done]. intros [= <- Hp%negb_false_iff%bool_decide_eq_true]. by rewrite Hp.
  - destruct (array_loop _ _ _ _) as [values trunc] eqn:Ha. intros [= <- ->].
    destruct (array_loop_spec _ _ _ _ _ _ Ha eq_refl) as (_ & new & Heq & HF). cbn in Heq. subst new.
    cbn [sort_json]. f_equal. apply json_wf_arr in Hwf. clear Ha.
    apply Forall2_fmap_l in HF. revert Hwf IH. induction HF as [|x y l values [b' Hb] _ IHl]; [done|].
    intros [Hx Hwf]%Forall_cons [IHx IH]%Forall_cons. cbn. f_equal; [by eapply IHx|by apply IHl].
  - destruct (fold_left _ _ _) as [res trunc] eqn:Hf.
    destruct (object_fold_spec _ _ _ _ _ _ Hf) as (new & Heq & _ & Hest & Ht). cbn in Heq. subst new.
    destruct (_fit_mapping_to_budget res b []) as [r|] eqn:Hfit; [|done].
    apply fit_result in Hfit; [|done]. subst r. intros [= <- [-> _]%orb_false_iff].
    destruct (Ht eq_refl) as [_ HF]. apply json_wf_obj in Hwf as [Hnd Hwf].
    cbn [sort_json]. f_equal. erewrite (kept_sorted c l); [|..|exact HF].
    + apply merge_sort_unique.
      * rewrite <- list_fmap_compose, merge_sort_Permutation, <- list_fmap_compose.
        erewrite list_fmap_ext; [exact Hnd|done].
      * rewrite merge_sort_Permutation, <- list_fmap_compose. done.
    + intros it. rewrite merge_sort_Permutation. intros (kv & -> & Hkv)%list_elem_of_fmap. eauto.
    + intros kv b' x Hkv. rewrite Forall_forall in IH, Hwf. apply (IH kv Hkv), (Hwf kv Hkv).
Qed.
End Nested.
