(* ===== verification/JsonProjectionProperties.v ===== *)
(** * Tool output in the model's window *)

From stdpp Require Import base gmap list strings sorting.
From Stdlib Require Import ZArith NArith Lia.
From S2P Require Import Prelude.
From S2P Require Import Json.
From S2P Require Import JsonTheory.
From S2P Require Import TurnTranscript.
From S2P Require Import ContextMetadata.
From S2P Require Import ContextPolicy.
From S2P Require Import ContextPolicyTheory.
From S2P Require Import JsonProjection.
From S2P Require Import JsonProjectionTheory.

Local Open Scope Z_scope.
Local Arguments lit : simpl never.

(** The payload as the items of the projected dictionary. *)
Definition payload_items (v : json) : list (list N * json) :=
  match v with
  | JObj l => l
  | JArr _ => [(lit "items", v)]
  | _ => [(lit "value", v)]
  end.

Lemma json_safe_wf v : json_wf v → json_wf (_json_safe v).
Proof.
  induction v as [|b0|z0|r0|s0|l IH|l IH] using json_ind'; intros Hwf; cbn [_json_safe]; try done.
  - destruct (non_finite r0); done.
  - rewrite json_wf_arr in *. rewrite Forall_fmap. rewrite Forall_forall in *. cbn. auto.
  - rewrite json_wf_obj in *. destruct Hwf as [Hnd Hwf]. split.
    + rewrite <- list_fmap_compose. erewrite list_fmap_ext; [exact Hnd|done].
    + rewrite Forall_fmap. rewrite Forall_forall in *. cbn. auto.
Qed.

Section Tool.
Context `{!TokenEstimator, !Reprojection}.

(** What a projected tool result looks like. *)
Record tool_projection (v : json) (budget : Z) (l : list (list N * json)) (t : bool) : Prop := {
  tp_fits : _json_estimate (JObj l) ≤ budget;
  tp_trust : dict_get (lit "trust") l = Some (JStr (lit "UNTRUSTED"));
  tp_marked : t = true → dict_get (lit "truncated") l = Some (JBool true);
  tp_complete : t = false → ∀ k x, (k, x) ∈ payload_items v → k ∉ metadata_keys →
    ∃ x', dict_get k l = Some x' ∧ sort_json x' = sort_json x;
  tp_facts : t = false → ∀ k x, (k, x) ∈ payload_items v → k ∈ _APPROVAL_FACT_KEYS →
    dict_get k l = Some x;
  tp_approval : approval_fields TOOL_RESULT v ≠ [] →
    (∀ k x, (k, x) ∈ approval_fields TOOL_RESULT v → dict_get k l = Some x) ∨
    (∀ k, k ∈ _APPROVAL_FACT_KEYS → dict_get k l = None)
}.

Lemma approval_cases v :
  approval_fields TOOL_RESULT v = [] ∨
  ∃ l d e, v = JObj l ∧ dict_get (lit "approval_decision") l = Some (JStr d) ∧
    dict_get (lit "approval_execution") l = Some (JStr e) ∧
    approval_fields TOOL_RESULT v
    = [(lit "approval_decision", JStr d); (lit "approval_execution", JStr e)].
Proof.
  destruct v as [| | | | | |l]; cbn; try (by left).
  destruct (dict_get (lit "approval_decision") l) as [[]|] eqn:E1; try (by left).
  destruct (dict_get (lit "approval_execution") l) as [[]|] eqn:E2; try (by left).
  right. eauto 10.
Qed.

Lemma neq_lit_metadata k s : k ∉ metadata_keys → lit s ∈ metadata_keys → k ≠ lit s.
Proof. by intros ? ? ->. Qed.

Ltac not_key H := apply (bool_decide_eq_true_2 _) in H; vm_compute in H; discriminate H.
Ltac meta := vm_compute; repeat first [by left | right].

Lemma labelled_sound v budget l :
  json_wf v → labelled_root TOOL_RESULT v budget = Some l → tool_projection v budget l false.
Proof.
  destruct v as [| | | | | |l0]; try done. intros [Hnd _]%json_wf_obj. unfold labelled_root.
  cbn [trust_fields _UNTRUSTED_CATEGORIES].
  destruct (_ && _) eqn:E; [|done]. intros [= <-]. breflect.
  assert (∀ k, dict_get k (dict_update l0 [(lit "trust", JStr (lit "UNTRUSTED"))])
    = if decide (k = lit "trust") then Some (JStr (lit "UNTRUSTED")) else dict_get k l0) as Hget.
  { intros k. unfold dict_update. cbn. apply dict_get_set. }
  split; [done|by rewrite Hget, decide_True|done| | |].
  - intros _ k x Hin Hk. exists x. split; [|done]. rewrite Hget, decide_False.
    + by apply dict_get_elem.
    + apply neq_lit_metadata; [done|meta].
  - intros _ k x Hin Hk. rewrite Hget, decide_False; [by apply dict_get_elem|].
    intros ->. not_key Hk.
  - intros _. destruct (approval_cases (JObj l0)) as [E|(l & d & e & [= ->] & Hd & He & ->)]; [left|left].
    + rewrite E. intros k x []%not_elem_of_nil.
    + intros k x Hin. rewrite Hget. rewrite !elem_of_cons in Hin.
      destruct Hin as [[= -> ->]|[[= -> ->]|[]%not_elem_of_nil]];
        rewrite decide_False by (vm_compute; discriminate); done.
Qed.

(** Lookups in the dictionary an envelope is put around. *)
Definition enveloped (base approvals : list (list N * json)) (t : bool) : list (list N * json) :=
  let l := dict_update (dict_update base [(lit "trust", JStr (lit "UNTRUSTED"))]) approvals in
  if t then dict_set (lit "truncated") (JBool true) l else l.

Lemma enveloped_get base approvals t k :
  dict_get k (enveloped base approvals t)
  = if decide (t = true ∧ k = lit "truncated") then Some (JBool true)
    else match dict_get k (reverse approvals) with
         | Some x => Some x
         | None => if decide (k = lit "trust") then Some (JStr (lit "UNTRUSTED"))
                   else dict_get k base
         end.
Proof.
  unfold enveloped. destruct t; rewrite ?dict_get_set, dict_get_update; unfold dict_update; cbn [fold_left];
    rewrite dict_get_set; cbn [fst snd].
  - destruct (decide (k = lit "truncated")); [by rewrite decide_True|].
    by rewrite (decide_False (P := true = true ∧ _)) by tauto.
  - by rewrite (decide_False (P := false = true ∧ _)) by (by intros [? _]).
Qed.

Lemma approvals_get_other v include k :
  k ∉ _APPROVAL_FACT_KEYS →
  dict_get k (reverse (if include : bool then approval_fields TOOL_RESULT v else [])) = None.
Proof.
  intros Hk. destruct include; [|done].
  destruct (approval_cases v) as [->|(l & d & e & _ & _ & _ & ->)]; [done|].
  apply dict_get_None. cbn. rewrite !not_elem_of_cons.
  split_and!; [..|apply not_elem_of_nil]; intros ->; apply Hk; unfold _APPROVAL_FACT_KEYS; cbn; set_solver.
Qed.

Lemma envelope_inv v budget reserve include l t :
  project_with_root_envelope TOOL_RESULT v budget reserve include = Some (l, t) →
  ∃ base w ct b, project_nested TOOL_RESULT (business_value v) b = (Some w, ct) ∧
    l = enveloped base (if include then approval_fields TOOL_RESULT v else []) t ∧
    _json_estimate (JObj l) ≤ budget ∧
    match business_value v with
    | JObj bl => w = JObj base ∧ (∀ k, k ∈ base.*1 → k ∈ bl.*1) ∧
        (t = false → ct = false ∧ (approval_keys_present TOOL_RESULT v = true → include = true))
    | JArr _ => base = [(lit "items", w)] ∧ t = ct
    | _ => base = [(lit "value", w)] ∧ t = ct
    end.
Proof.
  unfold project_with_root_envelope. cbn zeta. destruct (_ <=? 0); [done|].
  match goal with |- context [project_nested _ _ ?b] =>
    destruct (project_nested TOOL_RESULT (business_value v) b) as [[w|] ct] eqn:Hn; [|done];
    set (bud := b) in * end.
  destruct (business_value v) as [| | | | | |bl] eqn:Hb.
  1-6: cbn beta iota zeta; destruct (_ <=? budget) eqn:E; [|done]; intros [= <- <-]; breflect;
    first [exists [(lit "value", w)], w, ct, bud; by split_and!
          |exists [(lit "items", w)], w, ct, bud; by split_and!].
  assert (TOOL_RESULT ≠ RAG_EVIDENCE) as Hc by done.
  destruct (project_nested_obj _ _ _ _ _ Hc Hn) as (p & -> & Hkeys & Hlen).
  destruct (_ <=? budget) eqn:E; [|done]. intros [= <- <-]. breflect.
  eexists p, _, ct, bud. split_and!; [exact Hn|reflexivity|done..|].
  intros Ht. rewrite !orb_false_iff in Ht. destruct Ht as [[[-> _] _] Ha]. split; [done|].
  intros Hp. unfold approval_keys_present in Hp. rewrite Hp in Ha. by destruct include.
Qed.

Lemma business_wf v : json_wf v → json_wf (business_value v).
Proof.
  destruct v as [| | | | | |l]; try done. cbn [business_value]. rewrite !json_wf_obj. intros [Hnd Hwf].
  split; [|rewrite Forall_forall in *; intros kv [_ ?]%list_elem_of_filter; auto]. eapply sublist_NoDup; [exact Hnd|]. apply fmap_sublist, sublist_filter.
Qed.

Lemma approvals_get v k x :
  (k, x) ∈ approval_fields TOOL_RESULT v → dict_get k (reverse (approval_fields TOOL_RESULT v)) = Some x.
Proof.
  destruct (approval_cases v) as [->|(l & d & e & _ & _ & _ & ->)]; [intros []%not_elem_of_nil|].
  rewrite !elem_of_cons. by intros [[= -> ->]|[[= -> ->]|[]%not_elem_of_nil]].
Qed.

Lemma complete_get base l k x :
  sort_json (JObj base) = sort_json (JObj l) → NoDup l.*1 → (k, x) ∈ l →
  ∃ x', dict_get k base = Some x' ∧ sort_json x' = sort_json x.
Proof.
  cbn [sort_json]. intros [= E] Hnd Hin. set (f := λ kv : list N * json, (kv.1, sort_json kv.2)) in *.
  assert (f <$> base ≡ₚ f <$> l) as Hp.
  { rewrite <- (merge_sort_Permutation key_le (f <$> base)). rewrite E. apply merge_sort_Permutation. }
  assert (∀ m, (f <$> m).*1 = m.*1) as Hf.
  { intros m. rewrite <- list_fmap_compose. by apply list_fmap_ext. }
  assert (NoDup base.*1) as Hnd'. { by rewrite <- Hf, Hp, Hf. }
  assert (f (k, x) ∈ f <$> base) as (kv & E' & Hkv)%list_elem_of_fmap.
  { rewrite Hp. by apply list_elem_of_fmap_2. }
  destruct kv as [k' x']. injection E' as -> E'. exists x'. split; [by apply dict_get_elem|done].
Qed.

(** When the facts are shown, every one of them is. *)
Lemma fact_shown l k x :
  NoDup l.*1 → approval_fields TOOL_RESULT (JObj l) ≠ [] → (k, x) ∈ l → k ∈ _APPROVAL_FACT_KEYS →
  (k, x) ∈ approval_fields TOOL_RESULT (JObj l).
Proof.
  intros Hnd Ha Hin Hk. apply (dict_get_elem k l x Hnd) in Hin.
  destruct (approval_cases (JObj l)) as [?|(l' & d & e & [= <-] & Hd & He & ->)]; [done|].
  unfold _APPROVAL_FACT_KEYS in Hk. cbn [fmap list_fmap] in Hk. rewrite !elem_of_cons in Hk.
  destruct Hk as [->|[->|[]%not_elem_of_nil]]; [rewrite Hd in Hin|rewrite He in Hin];
    injection Hin as <-; [by left|right; by left].
Qed.

(** An envelope around a mapping. *)
Lemma envelope_object v b base ct bud include budget t bl :
  business_value v = JObj bl → json_wf v →
  project_nested TOOL_RESULT (JObj bl) bud = (Some (JObj base), ct) →
  (∀ k, k ∈ base.*1 → k ∈ bl.*1) →
  (t = false → ct = false ∧ (approval_keys_present TOOL_RESULT v = true → include = true)) →
  (include = true → approval_fields TOOL_RESULT v ≠ []) →
  b = enveloped base (if include : bool then approval_fields TOOL_RESULT v else []) t →
  _json_estimate (JObj b) ≤ budget → tool_projection v budget b t.
Proof.
  intros Hb Hwf Hn Hkeys Ht Hinc -> Hfit. destruct v as [| | | | | |l]; try discriminate Hb.
  assert (Hbwf := business_wf _ Hwf). rewrite Hb in Hbwf. cbn [business_value] in Hb. injection Hb as <-.
  assert (∀ k, k ∈ metadata_keys → dict_get k base = None) as Hbase.
  { intros k Hk. apply dict_get_None. intros Hin%Hkeys.
    apply list_elem_of_fmap in Hin as (kv & -> & [? _]%list_elem_of_filter). done. }
  split; [done| | | | |].
  - rewrite enveloped_get, decide_False by (intros [_ E]; vm_compute in E; discriminate E).
    rewrite approvals_get_other by (vm_compute; set_solver). by rewrite decide_True.
  - intros ->. by rewrite enveloped_get, decide_True.
  - intros -> k x Hin Hk. rewrite enveloped_get, decide_False by naive_solver.
    rewrite approvals_get_other by (intros Ha; apply Hk; unfold metadata_keys; rewrite elem_of_app; by right).
    rewrite decide_False by (apply neq_lit_metadata; [done|meta]).
    rewrite (proj1 (Ht eq_refl)) in Hn. apply project_nested_complete in Hn; [|done..].
    apply json_wf_obj in Hbwf as [Hnd _]. eapply complete_get; [exact Hn|exact Hnd|]. apply list_elem_of_filter. done.
  - intros -> k x Hin Hk. destruct (Ht eq_refl) as [_ Hp].
    assert (include = true) as ->.
    { apply Hp. cbn. apply existsb_exists. exists k.
      split; [|by apply bool_decide_eq_true].
      apply list_elem_of_In, list_elem_of_fmap. by exists (k, x). }
    rewrite enveloped_get, decide_False by (by intros [? _]).
    rewrite (approvals_get _ k x); [done|]. by apply fact_shown; [apply json_wf_obj in Hwf as [? _]|apply Hinc|..].
  - intros _. destruct include.
    + left. intros k x Hin. rewrite enveloped_get, decide_False; [by rewrite (approvals_get _ _ _ Hin)|].
      intros [_ ->]. destruct (approval_cases (JObj l)) as [E|(l' & d & e & _ & _ & _ & E)]; rewrite E in Hin.
      * by apply not_elem_of_nil in Hin.
      * rewrite !elem_of_cons in Hin. by destruct Hin as [[=]|[[=]|[]%not_elem_of_nil]].
    + right. intros k Hk. rewrite enveloped_get. cbn [reverse rev_append dict_get].
      rewrite decide_False by (intros [_ ->]; not_key Hk).
      rewrite decide_False by (intros ->; not_key Hk).
      apply Hbase. unfold metadata_keys. rewrite elem_of_app. by right.
Qed.

(** An envelope around a list or a scalar, which the payload key names. *)
Lemma envelope_value v b w ct bud name budget include :
  business_value v = v → json_wf v → payload_items v = [(lit name, v)] →
  approval_fields TOOL_RESULT v = [] → lit name ≠ lit "trust" →
  lit name ∉ _APPROVAL_FACT_KEYS → project_nested TOOL_RESULT v bud = (Some w, ct) →
  b = enveloped [(lit name, w)] (if include : bool then approval_fields TOOL_RESULT v else []) ct →
  _json_estimate (JObj b) ≤ budget → tool_projection v budget b ct.
Proof.
  intros Hb Hwf Hi Ha Htrust Hfact Hn -> Hfit. rewrite Ha in *.
  assert ((if include then [] else []) = @nil (list N * json)) as Hnil by (by destruct include).
  rewrite Hnil in *.
  split; [done| | | | |by rewrite Ha].
  - rewrite enveloped_get, decide_False by (intros [_ E]; vm_compute in E; discriminate E). by rewrite decide_True.
  - intros ->. by rewrite enveloped_get, decide_True.
  - intros -> k x Hin Hk. rewrite Hi in Hin. apply list_elem_of_singleton in Hin. injection Hin as -> ->.
    rewrite enveloped_get, decide_False by naive_solver. cbn [reverse rev_append dict_get].
    rewrite decide_False by done. exists w. rewrite dict_get_cons, decide_True by done.
    split; [done|]. eapply (project_nested_complete TOOL_RESULT); [done|exact Hwf|exact Hn].
  - intros _ k x Hin Hk. rewrite Hi in Hin. apply list_elem_of_singleton in Hin.
    injection Hin as -> _. by destruct (Hfact Hk).
Qed.

Lemma envelope_sound v budget reserve include l t :
  json_wf v → (include = true → approval_fields TOOL_RESULT v ≠ []) → project_with_root_envelope TOOL_RESULT v budget reserve include = Some (l, t) →
  tool_projection v budget l t.
Proof.
  intros Hwf Hinc (base & w & ct & b & Hn & Hl & Hfit & Hb)%envelope_inv.
  destruct v as [| | | | | |vl]; cbn [business_value] in *;
    try (destruct Hb as [-> ->]; eapply envelope_value; eauto;
         first [by vm_compute|intros Hk; not_key Hk]).
  destruct Hb as (-> & Hkeys & Ht). eapply envelope_object; eauto.
Qed.

Lemma attempts_sound v budget includes l t :
  json_wf v → (true ∈ includes → approval_fields TOOL_RESULT v ≠ []) →
  root_attempts TOOL_RESULT v budget includes = Some (l, t) → tool_projection v budget l t.
Proof.
  intros Hwf. induction includes as [|i rest IH]; intros Hinc; cbn [root_attempts]; [done|].
  assert (i = true → approval_fields TOOL_RESULT v ≠ []) as Hi by (intros ->; apply Hinc; by left).
  assert (true ∈ rest → approval_fields TOOL_RESULT v ≠ []) as Hrest by (intros ?; apply Hinc; by right).
  specialize (IH Hrest).
  destruct (project_with_root_envelope _ _ _ false i) as [[p []]|] eqn:E1.
  2: { intros [= <- <-]. by eapply envelope_sound. }
  all: destruct (project_with_root_envelope _ _ _ true i) as [[p' t']|] eqn:E2; [|done].
  all: intros [= <- <-]; by eapply envelope_sound.
Qed.

Lemma marker_sound v budget :
  _json_estimate (JObj (dict_update [(lit "truncated", JBool true)] (trust_fields TOOL_RESULT v))) ≤ budget →
  tool_projection v budget (dict_update [(lit "truncated", JBool true)] (trust_fields TOOL_RESULT v)) true.
Proof.
  intros Hfit. split; [done|by vm_compute|by vm_compute|done|done|]. intros _. right. intros k.
  unfold _APPROVAL_FACT_KEYS. cbn [fmap list_fmap].
  rewrite !elem_of_cons. by intros [->|[->|[]%not_elem_of_nil]].
Qed.

(** C37. However long a tool's result is and whatever labels it carries, what
    the model is shown of it fits the token budget, is an object labelled
    [UNTRUSTED], and is marked [truncated] whenever a business field or an
    approval fact of the result is missing or cut: without the mark every one of
    them is there with its value.  The pair of approval facts is shown whole or
    not at all.  (The labels [trust], [data_trust] and [truncated] of the result
    itself give way to the projection's own.) *)
Theorem tool_result_projection_sound value budget w t :
  json_wf value → _project_json_value TOOL_RESULT value budget = (Some w, t) →
  ∃ l, w = JObj l ∧ tool_projection (_json_safe value) budget l t.
Proof.
  intros Hwf%json_safe_wf. unfold _project_json_value, root_projection. destruct (budget <=? 0); [done|].
  cbn zeta. rewrite rag_projection_other by done. cbn [trust_fields _UNTRUSTED_CATEGORIES].
  rewrite andb_false_r. destruct (labelled_root _ _ _) as [l|] eqn:El.
  { intros [= <- <-]. exists l. split; [done|]. by apply labelled_sound. }
  destruct (root_attempts _ _ _ _) as [[l t']|] eqn:Ea.
  { intros [= <- <-]. exists l. split; [done|]. eapply attempts_sound; [done| |exact Ea].
    case_bool_decide; [|done]. by intros ?%list_elem_of_singleton. }
  destruct (_ <=? budget) eqn:Em; [|done]. breflect. intros [= <- <-]. eexists. split; [done|].
  by apply (marker_sound (_json_safe value)).
Qed.
End Tool.

(** A result of some length in a small budget, with one token per character. *)
#[local] Instance char_estimator : TokenEstimator := { estimate s := N.of_nat (length s) }.
#[local] Instance no_reprojection : Reprojection :=
  { reproject_evidence_view _ _ := None; reproject_rag_evidence_payload _ _ := None }.
Definition sample_result : json :=
  JObj [(lit "trust", JStr (lit "SYSTEM")); (lit "status", JStr (lit "SUCCESS"));
        (lit "rows", JArr (replicate 40 (JStr (lit "row"))))].

Lemma tool_result_projection_sound_witness :
  ∃ w l, _project_json_value TOOL_RESULT sample_result 120 = (Some w, true) ∧ w = JObj l ∧
    tool_projection (_json_safe sample_result) 120 l true.
Proof.
  destruct (_project_json_value TOOL_RESULT sample_result 120) as [[w|] t] eqn:E.
  2: { vm_compute in E. discriminate E. }
  assert (t = true) as Ht by (by vm_compute in E; injection E).
  assert (json_wf sample_result) as Hwf.
  { apply json_wf_obj. split; [apply (bool_decide_unpack _); by vm_compute|]. repeat constructor. }
  destruct (tool_result_projection_sound sample_result 120 w t Hwf E) as (l & Hl & Hs).
  subst t. exists w, l. split; [reflexivity|]. split; [exact Hl|exact Hs].
Defined.

(** A result that is one long text does not survive shortening: the envelope
    leaves no room for its own key, so only the marker is sent, whatever the
    budget. *)
Example long_text_becomes_marker :
  _project_json_value TOOL_RESULT (JStr (replicate 500 65%N)) 400
  = (Some (JObj [(lit "truncated", JBool true); (lit "trust", JStr (lit "UNTRUSTED"))]), true).
Proof. vm_compute. reflexivity. Qed.
