(* ===== verification/ContextBudget.v ===== *)
(** * The context budget: policy, messages and estimates

    Model of [packages/agent_runtime/context_budget.py]: the budget knobs, the
    policy built from a frozen model chain, the categorised messages, and what
    a message, a tool and a request are estimated to cost.

    Unpacking a mapping as keyword arguments raises [TypeError] on a key that
    is not a parameter.  A profile's identifiers are the texts of its UUIDs. *)

From stdpp Require Import base gmap list strings sorting.
From Stdlib Require Import ZArith NArith Lia.
From S2P Require Import Prelude.
From S2P Require Import Json.
From S2P Require Import JsonTheory.
From S2P Require Import TurnTranscript.
From S2P Require Import ContextMetadata.
From S2P Require Import ModelProfiles.
From S2P Require Import ContextPolicy.
From S2P Require Import Outcome.
From S2P Require Import JsonProjection.

Local Open Scope Z_scope.

Inductive BudgetError :=
| AGENT_CONTEXT_POLICY_INVALID
| AGENT_CONTEXT_LIMIT_UNAVAILABLE
| AGENT_CONTEXT_BUDGET_EXCEEDED (reason : Exceeded)
| AGENT_MEMORY_PAYLOAD_INVALID
| BudgetValueError
| BudgetTypeError
with Exceeded :=
| reserve_too_large | mandatory_overflow | newest_not_projectable | newest_too_large
| admitted_too_large.

Abbreviation fallible := (outcome BudgetError).

(** ** Configuration *)

Record ContextBudgetConfig := {
  reserved_output_tokens : Z;
  max_retrieval_tokens : Z;
  max_tool_result_tokens : Z;
  max_memory_tokens : option Z
}.
(** [ContextBudgetConfig.__post_init__] *)
Definition new_config (c : ContextBudgetConfig) : fallible ContextBudgetConfig :=
  fail_if (existsb (λ z, z <? 0)
             [reserved_output_tokens c; max_retrieval_tokens c; max_tool_result_tokens c])
    BudgetValueError;;
  fail_if (match max_memory_tokens c with Some z => z <? 0 | None => false end) BudgetValueError;;
  mret c.
Definition default_config : ContextBudgetConfig :=
  {| reserved_output_tokens := 2000; max_retrieval_tokens := 5000;
     max_tool_result_tokens := 4000; max_memory_tokens := None |}.

(** A number of the runtime policy, or its default when the key is absent. *)
Definition config_number (k : string) (d : Z) (l : list (list N * json)) : fallible Z :=
  match dict_get (lit k) l with
  | None => mret d
  | Some (JInt z) => mret z
  | Some _ => Raise BudgetValueError
  end.
(** [runtime.get(k, {})], which must be a mapping. *)
Definition sub_mapping (k : string) (l : list (list N * json)) : fallible (list (list N * json)) :=
  match dict_get (lit k) l with
  | None => mret []
  | Some (JObj m) => mret m
  | Some _ => Raise BudgetTypeError
  end.
(** The configuration a published runtime policy carries. *)
Definition runtime_config (runtime : list (list N * json)) : fallible ContextBudgetConfig :=
  budget ← sub_mapping "context_budget" runtime;
  memory ← sub_mapping "memory" runtime;
  fail_if (existsb (λ k, bool_decide (k ∉ lit <$>
             ["reserved_output_tokens"; "max_retrieval_tokens"; "max_tool_result_tokens"]%string))
             budget.*1) BudgetTypeError;;
  reserved ← config_number "reserved_output_tokens" (reserved_output_tokens default_config) budget;
  retrieval ← config_number "max_retrieval_tokens" (max_retrieval_tokens default_config) budget;
  results ← config_number "max_tool_result_tokens" (max_tool_result_tokens default_config) budget;
  memories ← match field "max_memory_tokens" memory with
             | JNull => mret None
             | JInt z => mret (Some z)
             | _ => Raise BudgetValueError
             end;
  new_config {| reserved_output_tokens := reserved; max_retrieval_tokens := retrieval;
                max_tool_result_tokens := results; max_memory_tokens := memories |}.

(** ** Estimators *)

(** [unicodedata.east_asian_width(c) in ("W", "F")]: a table of the Unicode
    database. *)
Class EastAsian := { is_wide : N → bool }.

(** [ApproxTokenEstimator.estimate].  [c / 1.6] is [5 c / 8], an exact double
    for texts below 2^50 characters, and so is the sum with [(n - c) / 4]. *)
Definition approx_estimate `{EastAsian} (text : list N) : N :=
  let cjk := len (filter (λ c, is_wide c = true) text) in
  ((5 * cjk + 2 * (len text - cjk) + 7) / 8)%N.
Definition ApproxTokenEstimator `{EastAsian} : TokenEstimator := {| estimate := approx_estimate |}.

(** ** The policy *)

(** [ResolvedModelExecutionProfile], as far as admission reads it. *)
Record ResolvedModelExecutionProfile := {
  ep_id : list N;
  ep_provider_credential_id : list N;
  ep_provider : list N;
  ep_model : list N;
  ep_max_tokens : Z;
  ep_capabilities : ModelCapabilities
}.

Record ContextBudgetPolicy := {
  config : ContextBudgetConfig;
  context_policy : option (list (list N * json));
  profiles : list ResolvedModelExecutionProfile
}.

(** An entry of the chain that the frozen policy is checked against. *)
Definition chain_entry (p : ResolvedModelExecutionProfile) : json :=
  let c := ep_capabilities p in
  JObj [(lit "profile_id", JStr (ep_id p));
        (lit "credential_ref", JStr (ep_provider_credential_id p));
        (lit "provider", JStr (ep_provider p));
        (lit "model", JStr (ep_model p));
        (lit "max_tokens", JInt (ep_max_tokens p));
        (lit "capabilities", JObj
          ([(lit "tool_calling", JBool (tool_calling c));
            (lit "streaming", JBool (streaming c));
            (lit "structured_output", JBool (structured_output c));
            (lit "vision", JBool (vision c));
            (lit "max_context_tokens", opt_int (max_context_tokens c))]
           ++ match context_metadata c with
              | Some m => [(lit "context_metadata", as_dict m)]
              | None => []
              end))].

(** [ContextBudgetPolicy.__init__] for a source with these profiles and this
    [runtime] mapping. *)
Definition new_policy (runtime : list (list N * json)) (profiles : list ResolvedModelExecutionProfile)
    (supplied : option ContextBudgetConfig) : fallible ContextBudgetPolicy :=
  match dict_get (lit "context_policy") runtime with
  | None | Some JNull =>
      mret {| config := default default_config supplied; context_policy := None;
              profiles := profiles |}
  | Some policy =>
      config ← match supplied with Some c => mret c | None => runtime_config runtime end;
      match validate_frozen_context_policy policy (chain_entry <$> profiles)
              (JInt (reserved_output_tokens config)) with
      | Some (JObj l) =>
          mret {| config := config; context_policy := Some l; profiles := profiles |}
      | _ => Raise AGENT_CONTEXT_POLICY_INVALID
      end
  end.

(** [policy[k]], a number. *)
Definition policy_int (k : string) (l : list (list N * json)) : fallible Z :=
  or_raise BudgetTypeError (as_int (field k l)).

Definition _effective_context_limit (p : ContextBudgetPolicy) : fallible (option Z) :=
  match context_policy p with
  | Some l => mret (as_int (field "min_total_context_tokens" l))
  | None =>
      limits ← traverse (λ q, match max_context_tokens (ep_capabilities q) with
                              | Some z => if z <=? 0 then Raise AGENT_CONTEXT_LIMIT_UNAVAILABLE
                                          else mret z
                              | None => Raise AGENT_CONTEXT_LIMIT_UNAVAILABLE
                              end) (profiles p);
      match limits with
      | [] => Raise AGENT_CONTEXT_LIMIT_UNAVAILABLE
      | x :: r => mret (Some (min_of x r))
      end
  end.

Definition _effective_reserved_output (p : ContextBudgetPolicy) : fallible Z :=
  match context_policy p with
  | Some l => policy_int "reserved_output_tokens" l
  | None =>
      fail_if (existsb (λ q, ep_max_tokens q <? 0) (profiles p))
        (AGENT_CONTEXT_BUDGET_EXCEEDED reserve_too_large);;
      let maximum := max_of (reserved_output_tokens (config p)) (ep_max_tokens <$> profiles p) in
      limit ← _effective_context_limit p;
      fail_if (default 0 limit <=? maximum) (AGENT_CONTEXT_BUDGET_EXCEEDED reserve_too_large);;
      mret maximum
  end.

(** ** Messages *)

Record ContextMessage := {
  message : ModelMessage;
  category : ContextCategory;
  exchange_group : option (list N)
}.

(** What the caller passes: messages with or without their metadata, and the
    metadata by position or by index. *)
Inductive Given := Plain (m : ModelMessage) | Categorised (m : ContextMessage).
Inductive Metadata (A : Type) := by_position (l : list A) | by_index (m : gmap nat A).
Arguments by_position {_} _.
Arguments by_index {_} _.

Definition _metadata_length {A} (m : Metadata A) : nat :=
  match m with by_position l => length l | by_index m => size m end.
Definition _metadata_at {A} (m : Metadata A) (i : nat) : fallible A :=
  or_raise BudgetValueError (match m with by_position l => l !! i | by_index m => m !! i end).

(** [_NormalizedMessage.group]: a message without a group is one of its own. *)
Definition group_key (i : nat) (m : ContextMessage) : list N + nat :=
  match exchange_group m with Some g => inl g | None => inr i end.

Definition disagrees {A} `{EqDecision A} (m : option (Metadata A)) (i : nat) (x : A) : fallible bool :=
  match m with
  | None => mret false
  | Some m => y ← _metadata_at m i; mret (negb (bool_decide (y = x)))
  end.

Definition normalize_one (categories : option (Metadata ContextCategory))
    (groups : option (Metadata (option (list N)))) (i : nat) (g : Given) : fallible ContextMessage :=
  match g with
  | Categorised m =>
      b ← disagrees categories i (category m);
      fail_if b BudgetValueError;;
      b ← disagrees groups i (exchange_group m);
      fail_if b BudgetValueError;;
      mret m
  | Plain m =>
      match categories with
      | None => Raise BudgetValueError
      | Some cs =>
          c ← _metadata_at cs i;
          group ← match groups with None => mret None | Some gs => _metadata_at gs i end;
          mret {| message := m; category := c; exchange_group := group |}
      end
  end.

Definition is_tool (m : ContextMessage) : bool := bool_decide (role (message m) = role_tool).
Definition is_tool_call (m : ContextMessage) : bool :=
  bool_decide (role (message m) = role_assistant)
  && match tool_calls (message m) with [] => false | _ => true end.

(** A tool observation needs an assistant tool call in its group. *)
Definition _validate_atomic_tool_groups (ms : list ContextMessage) : fallible unit :=
  let keyed := imap (λ i m, (group_key i m, m)) ms in
  fail_if (existsb (λ km, is_tool km.2
             && negb (existsb (λ kn, bool_decide (kn.1 = km.1) && is_tool_call kn.2) keyed)) keyed)
    BudgetValueError.

Definition _normalize_messages (given : list Given) (categories : option (Metadata ContextCategory))
    (groups : option (Metadata (option (list N)))) : fallible (list ContextMessage) :=
  fail_if (match categories with
           | Some m => negb (length given =? _metadata_length m)%nat | None => false end)
    BudgetValueError;;
  fail_if (match groups with
           | Some m => negb (length given =? _metadata_length m)%nat | None => false end)
    BudgetValueError;;
  normalized ← traverse (λ ig, normalize_one categories groups ig.1 ig.2) (imap pair given);
  _validate_atomic_tool_groups normalized;;
  mret normalized.

(** ** Estimates *)

Section Estimates.
Context `{!TokenEstimator} (self : ContextBudgetPolicy).

Definition _estimate_text (text : list N) : fallible Z :=
  let value := Z.of_N (estimate text) in
  fail_if (match context_policy self with
           | Some _ => negb (bool_decide (text = [])) && (value =? 0)
           | None => false end) BudgetValueError;;
  mret value.

Definition _protocol_overhead (key : string) : fallible Z :=
  match context_policy self with
  | None => mret 0
  | Some l =>
      match field "counter" l with
      | JObj c => if truthy_json (field "includes_protocol_overhead" c) then mret 0
                  else policy_int key c
      | _ => Raise BudgetTypeError
      end
  end.

(** [self._estimate_text(s) if s else 0] *)
Definition estimate_optional (s : option (list N)) : fallible Z :=
  match s with None | Some [] => mret 0 | Some s => _estimate_text s end.
Definition _json_dumps (v : json) : fallible (list N) := or_raise BudgetValueError (canonical_json v).
Definition estimate_call (c : ModelToolCall) : fallible Z :=
  name ← _estimate_text (call_name c);
  text ← _json_dumps (call_arguments c);
  arguments ← _estimate_text text;
  id ← estimate_optional (provider_tool_call_id c);
  mret (name + arguments + id).

Definition _estimate_message (m : ModelMessage) : fallible Z :=
  text ← _estimate_text (default [] (content m));
  overhead ← _protocol_overhead "message_overhead_tokens";
  name ← estimate_optional (msg_name m);
  id ← estimate_optional (tool_call_id m);
  calls ← traverse estimate_call (tool_calls m);
  mret (text + overhead + name + id + foldr Z.add 0 calls).

(** [_estimate_tool(tool).total] *)
Definition _estimate_tool (t : ModelToolDefinition) : fallible Z :=
  name ← _estimate_text (td_name t);
  description ← _estimate_text (default [] (td_description t));
  text ← _json_dumps (td_parameters t);
  schema ← _estimate_text text;
  overhead ← _protocol_overhead "tool_overhead_tokens";
  mret (name + description + schema + overhead).
End Estimates.
