(* ===== verification/ContextMemory.v ===== *)
(** * Recalled memory in the context window

    Model of the memory payloads of [packages/agent_runtime/context_budget.py]:
    parsing ([_parse_memory_payload], [_validate_memory_payloads]) and fitting
    whole entries under the memory pool ([_project_memory_message]).

    [json.loads] is a parameter: [loads] is the plain call, [loads_strict] the
    one that refuses duplicate keys and non-finite constants. *)

From stdpp Require Import base gmap list strings sorting.
From Stdlib Require Import ZArith NArith Lia.
From S2P Require Import Prelude.
From S2P Require Import Json.
From S2P Require Import JsonTheory.
From S2P Require Import TurnTranscript.
From S2P Require Import ContextMetadata.
From S2P Require Import ModelProfiles.
From S2P Require Import ContextPolicy.
From S2P Require Import Outcome.
From S2P Require Import JsonProjection.
From S2P Require Import ContextBudget.

Local Open Scope Z_scope.

Class JsonText := {
  loads : list N → option json;
  loads_strict : list N → option json
}.

Definition _MEMORY_KINDS : list (list N) :=
  lit <$> ["FACT"; "PREFERENCE"; "DECISION"; "CONSTRAINT"]%string.
Definition _MEMORY_ROOT_KEYS : list (list N) :=
  lit <$> ["data_trust"; "memories"; "note"; "truncated"; "trust"]%string.
Definition _MEMORY_ITEM_KEYS : list (list N) := lit <$> ["content"; "id"; "kind"]%string.

Record _MemoryCandidate := {
  mc_id : list N;
  mc_kind : list N;
  mc_content : list N
}.
Record _MemoryPayload := {
  note : option (list N);
  candidates : list _MemoryCandidate;
  payload_truncated : bool
}.

Definition as_payload (c : _MemoryCandidate) : json :=
  JObj [(lit "id", JStr (mc_id c)); (lit "kind", JStr (mc_kind c));
        (lit "content", JStr (mc_content c))].

(** [_canonical_uuid_string]: only the canonical spelling is accepted, so the
    canonical identifier is the text itself. *)
Definition is_lower_hex (c : N) : bool :=
  ((48 <=? c) && (c <=? 57) || (97 <=? c) && (c <=? 102))%N.
Definition _canonical_uuid_string (s : list N) : option (list N) :=
  if (length s =? 36)%nat
     && forallb (λ b, b) (imap (λ i c, if bool_decide (i ∈ [8; 13; 18; 23]%nat) then (c =? 45)%N
                                        else is_lower_hex c) s)
  then Some s else None.

Definition same_keys (keys : list (list N)) (l : list (list N * json)) : bool :=
  forallb (λ k, bool_decide (k ∈ keys)) l.*1 && forallb (λ k, bool_decide (k ∈ l.*1)) keys.

Definition parse_candidate (seen : list (list N)) (v : json) : option _MemoryCandidate :=
  match v with
  | JObj l =>
      require (same_keys _MEMORY_ITEM_KEYS l);;
      match field "id" l, field "kind" l, field "content" l with
      | JStr i, JStr k, JStr c =>
          require (negb (bool_decide (py_strip c = [])) && bool_decide (k ∈ _MEMORY_KINDS));;
          canonical ← _canonical_uuid_string i;
          require (bool_decide (canonical ∉ seen));;
          mret {| mc_id := i; mc_kind := k; mc_content := c |}
      | _, _, _ => None
      end
  | _ => None
  end.

(** The entries of one payload; an identifier occurs at most once. *)
Fixpoint parse_candidates (seen : list (list N)) (l : list json) : option (list _MemoryCandidate) :=
  match l with
  | [] => Some []
  | v :: r =>
      c ← parse_candidate seen v;
      cs ← parse_candidates (mc_id c :: seen) r;
      mret (c :: cs)
  end.

Definition text_or_null (v : json) : bool := match v with JNull | JStr _ => true | _ => false end.

Definition payload_of (v : json) : option _MemoryPayload :=
  match v with
  | JObj l =>
      require (forallb (λ k, bool_decide (k ∈ _MEMORY_ROOT_KEYS)) l.*1);;
      require (text_or_null (field "note" l) && text_or_null (field "trust" l)
               && text_or_null (field "data_trust" l));;
      match get_or (JBool false) "truncated" l, field "memories" l with
      | JBool t, JArr ms =>
          cs ← parse_candidates [] ms;
          mret {| note := match field "note" l with JStr s => Some s | _ => None end;
                  candidates := cs; payload_truncated := t |}
      | _, _ => None
      end
  | _ => None
  end.

Definition _parse_memory_payload `{!JsonText} (raw : option (list N)) : fallible _MemoryPayload :=
  or_raise AGENT_MEMORY_PAYLOAD_INVALID (s ← raw; v ← loads_strict s; payload_of v).

(** The payload of every memory message by index, identifiers distinct across
    all of them. *)
Fixpoint parse_payloads `{!JsonText} (i : nat) (seen : list (list N)) (ms : list ContextMessage) :
    fallible (gmap nat _MemoryPayload) :=
  match ms with
  | [] => mret ∅
  | m :: r =>
      if bool_decide (category m = MEMORY) then
        p ← _parse_memory_payload (content (message m));
        fail_if (existsb (λ c, bool_decide (mc_id c ∈ seen)) (candidates p))
          AGENT_MEMORY_PAYLOAD_INVALID;;
        rest ← parse_payloads (S i) ((mc_id <$> candidates p) ++ seen) r;
        mret (<[i := p]> rest)
      else parse_payloads (S i) seen r
  end.
Definition _validate_memory_payloads `{!JsonText} (ms : list ContextMessage) :
    fallible (gmap nat _MemoryPayload) := parse_payloads 0 [] ms.

(** ** Fitting entries *)

Section Projection.
Context `{!TokenEstimator} (self : ContextBudgetPolicy).

(** [replace(message, content=text)] *)
Definition with_content (m : ModelMessage) (text : list N) : ModelMessage :=
  {| role := role m; content := Some text; msg_name := msg_name m;
     tool_call_id := tool_call_id m; tool_calls := tool_calls m |}.

Definition memory_content (note : option (list N)) (selected : list _MemoryCandidate)
    (truncated : bool) : json :=
  JObj (match note with Some s => [(lit "note", JStr s)] | None => [] end
        ++ [(lit "memories", JArr (as_payload <$> selected)); (lit "trust", JStr (lit "UNTRUSTED"))]
        ++ (if truncated then [(lit "truncated", JBool true)] else [])).

Definition _memory_projection (m : ModelMessage) (p : _MemoryPayload)
    (selected : list _MemoryCandidate) (include_note include_truncated : bool) :
    fallible (ModelMessage * Z) :=
  text ← _json_dumps (memory_content (if include_note then note p else None) selected
                        include_truncated);
  let projected := with_content m text in
  estimated ← _estimate_message self projected;
  mret (projected, estimated).

(** Give up the last entries until the marked projection fits. *)
Fixpoint drop_last (m : ModelMessage) (p : _MemoryPayload) (budget : Z) (rev_selected : list _MemoryCandidate)
    (rejected : list (list N)) : fallible (list _MemoryCandidate * list (list N)) :=
  match rev_selected with
  | [] => mret ([], rejected)
  | c :: r =>
      '(_, tokens) ← _memory_projection m p (reverse rev_selected) false true;
      if tokens <=? budget then mret (rev_selected, rejected)
      else drop_last m p budget r (rejected ++ [mc_id c])
  end.

(** One entry; the state is the kept entries, newest first, and the
    identifiers of the rejected ones. *)
Definition memory_step (m : ModelMessage) (p : _MemoryPayload) (budget : Z) (group_truncated : bool)
    (st : list _MemoryCandidate * list (list N)) (c : _MemoryCandidate) :
    fallible (list _MemoryCandidate * list (list N)) :=
  let '(kept, rejected) := st in
  '(_, tokens) ← _memory_projection m p (reverse (c :: kept)) false
                   (group_truncated || payload_truncated p || negb (bool_decide (rejected = [])));
  if tokens <=? budget then mret (c :: kept, rejected)
  else drop_last m p budget kept (rejected ++ [mc_id c]).

Record MemoryFit := {
  mf_message : option ModelMessage;
  mf_tokens : Z;
  mf_admitted : list (list N);
  mf_rejected : list (list N);
  mf_truncated : bool
}.

Definition _project_memory_message (item : ContextMessage) (budget : Z) (p : _MemoryPayload)
    (group_truncated : bool) : fallible MemoryFit :=
  if budget <=? 0 then
    mret {| mf_message := None; mf_tokens := 0; mf_admitted := [];
            mf_rejected := mc_id <$> candidates p; mf_truncated := true |}
  else
    let m := message item in
    '(kept, rejected) ← fold_raise (memory_step m p budget group_truncated) (candidates p) ([], []);
    let selected := reverse kept in
    let truncated := group_truncated || negb (bool_decide (rejected = [])) || payload_truncated p in
    '(projected, tokens) ← _memory_projection m p selected false truncated;
    if budget <? tokens then
      mret {| mf_message := None; mf_tokens := 0; mf_admitted := [];
              mf_rejected := rejected ++ (mc_id <$> selected); mf_truncated := true |}
    else
      '(noted, noted_tokens) ← _memory_projection m p selected true truncated;
      let '(final, final_tokens) :=
        if noted_tokens <=? budget then (noted, noted_tokens) else (projected, tokens) in
      mret {| mf_message := Some final; mf_tokens := final_tokens;
              mf_admitted := mc_id <$> selected; mf_rejected := rejected;
              mf_truncated := truncated |}.
End Projection.
