(* ===== verification/JsonParser.v ===== *)
(** * Reading JSON text

    Model of Python's [json.loads], which the runtime applies to the text of
    tool messages and stored payloads, and the proof that it reads back what
    [canonical_json] writes.

    [FloatText] is [repr(float(text))].  Python's limits on recursion depth and
    on the digits of an integer are not modelled.  The fuel of [value] is twice
    the length of the text plus two: every two calls consume a character. *)

From stdpp Require Import base gmap list strings sorting.
From Stdlib Require Import ZArith NArith Lia.
From S2P Require Import Prelude.
From S2P Require Import Json.
From S2P Require Import JsonTheory.
From S2P Require Import TurnTranscript.
From S2P Require Import JsonProjection.
From S2P Require Import ContextMemory.

Local Open Scope N_scope.
Local Arguments lit : simpl never.

Definition blank (c : N) : bool := (c =? 32) || (c =? 9) || (c =? 10) || (c =? 13).
Definition skip : list N → list N := drop_while blank.

Fixpoint strip_prefix (p t : list N) : option (list N) :=
  match p, t with
  | [], _ => Some t
  | a :: p', b :: t' => if a =? b then strip_prefix p' t' else None
  | _ :: _, [] => None
  end.

(** ** Strings *)

Definition hex_value (c : N) : option N :=
  if (48 <=? c) && (c <=? 57) then Some (c - 48)
  else if (97 <=? c) && (c <=? 102) then Some (c - 87)
  else if (65 <=? c) && (c <=? 70) then Some (c - 55)
  else None.
Definition hex4 (t : list N) : option (N * list N) :=
  match t with
  | a :: b :: c :: d :: r =>
      a ← hex_value a; b ← hex_value b; c ← hex_value c; d ← hex_value d;
      Some (((a * 16 + b) * 16 + c) * 16 + d, r)
  | _ => None
  end.
(** After [\u]: a high surrogate is joined with the low one that follows. *)
Definition read_unicode (t : list N) : option (N * list N) :=
  '(u, r) ← hex4 t;
  if (55296 <=? u) && (u <=? 56319) then
    match strip_prefix [92; 117] r ≫= hex4 with
    | Some (w, r') => if (56320 <=? w) && (w <=? 57343)
                      then Some (65536 + ((u - 55296) * 1024 + (w - 56320)), r')
                      else Some (u, r)
    | None => match strip_prefix [92; 117] r with Some _ => None | None => Some (u, r) end
    end
  else Some (u, r).
(** After a backslash. *)
Definition read_escape (t : list N) : option (N * list N) :=
  match t with
  | c :: r =>
      if (c =? 34) || (c =? 92) || (c =? 47) then Some (c, r)
      else if c =? 98 then Some (8, r) else if c =? 102 then Some (12, r)
      else if c =? 110 then Some (10, r) else if c =? 114 then Some (13, r)
      else if c =? 116 then Some (9, r) else if c =? 117 then read_unicode r
      else None
  | [] => None
  end.
(** After the opening quote. *)
Fixpoint read_string (fuel : nat) (t : list N) : option (list N * list N) :=
  match fuel, t with
  | S fuel', c :: r =>
      if c =? 34 then Some ([], r)
      else if c =? 92 then
        '(d, r) ← read_escape r; '(s, r) ← read_string fuel' r; Some (d :: s, r)
      else if c <? 32 then None
      else '(s, r) ← read_string fuel' r; Some (c :: s, r)
  | _, _ => None
  end.
Definition string_of (t : list N) : option (list N * list N) := read_string (S (length t)) t.

(** ** Numbers *)

Class FloatText := float_text : list N → list N.

Fixpoint take_while {A} (p : A → bool) (l : list A) : list A :=
  match l with
  | [] => []
  | x :: r => if p x then x :: take_while p r else []
  end.

(** [-?], then [0|[1-9]\d*]. *)
Definition read_sign (t : list N) : list N * list N :=
  match t with c :: r => if c =? 45 then ([c], r) else ([], t) | [] => ([], t) end.
Definition read_integer (t : list N) : option (list N * list N) :=
  match t with
  | c :: r => if c =? 48 then Some ([c], r)
              else if digit_char c then Some (take_while digit_char t, drop_while digit_char t)
              else None
  | [] => None
  end.
(** [(\.\d+)?] and [([eE][-+]?\d+)?] *)
Definition read_fraction (t : list N) : list N * list N :=
  match t with
  | c :: r => if (c =? 46) && negb (bool_decide (take_while digit_char r = []))
              then (c :: take_while digit_char r, drop_while digit_char r) else ([], t)
  | [] => ([], t)
  end.
Definition read_exponent (t : list N) : list N * list N :=
  match t with
  | c :: r =>
      let '(sign, r') := match r with
                         | s :: r' => if (s =? 45) || (s =? 43) then ([s], r') else ([], r)
                         | [] => ([], r)
                         end in
      if ((c =? 101) || (c =? 69)) && negb (bool_decide (take_while digit_char r' = []))
      then (c :: sign ++ take_while digit_char r', drop_while digit_char r') else ([], t)
  | [] => ([], t)
  end.
Section Values.
Context `{FloatText}.

Definition read_number (t : list N) : option (json * list N) :=
  let '(sign, t1) := read_sign t in
  '(whole, t2) ← read_integer t1;
  let '(fraction, t3) := read_fraction t2 in
  let '(exponent, t4) := read_exponent t3 in
  Some (if bool_decide (fraction = [] ∧ exponent = [])
        then let n := Z.of_N (fold_left read_digit whole 0) in
             JInt (if bool_decide (sign = []) then n else - n)%Z
        else JFloat (float_text (sign ++ whole ++ fraction ++ exponent)), t4).

(** ** Values

    [strict] is the call with hooks that refuse duplicate keys and constants
    that are not finite numbers. *)
Context (strict : bool).

Definition constants : list (string * json) :=
  [("null", JNull); ("true", JBool true); ("false", JBool false)]%string.
Definition float_constants : list (string * json) :=
  [("NaN", JFloat (lit "nan")); ("Infinity", JFloat (lit "inf")); ("-Infinity", JFloat (lit "-inf"))]%string.
Fixpoint read_constant (l : list (string * json)) (t : list N) : option (json * list N) :=
  match l with
  | [] => None
  | (s, v) :: rest => match strip_prefix (lit s) t with Some r => Some (v, r) | None => read_constant rest t end
  end.
Definition scalar (t : list N) : option (json * list N) :=
  match read_constant constants t with
  | Some x => Some x
  | None => match read_number t with
            | Some x => Some x
            | None => if strict then None else read_constant float_constants t
            end
  end.

(** [elements] and [members] start at the first element or key. *)
Fixpoint value (fuel : nat) (t : list N) : option (json * list N) :=
  match fuel, t with
  | S fuel', c :: r =>
      if c =? 34 then '(s, r) ← string_of r; Some (JStr s, r)
      else if c =? 91 then
        match skip r with
        | d :: r' => if d =? 93 then Some (JArr [], r')
                     else '(l, r) ← elements fuel' (d :: r'); Some (JArr l, r)
        | [] => None
        end
      else if c =? 123 then
        match skip r with
        | d :: r' => if d =? 125 then Some (JObj [], r')
                     else '(l, r) ← members fuel' (d :: r') []; Some (JObj l, r)
        | [] => None
        end
      else scalar t
  | _, _ => None
  end
with elements (fuel : nat) (t : list N) : option (list json * list N) :=
  match fuel with
  | S fuel' =>
      '(v, r) ← value fuel' t;
      match skip r with
      | d :: r' => if d =? 93 then Some ([v], r')
                   else if d =? 44 then '(l, r) ← elements fuel' (skip r'); Some (v :: l, r)
                   else None
      | [] => None
      end
  | O => None
  end
with members (fuel : nat) (t : list N) (acc0 : list (list N * json)) :
  option (list (list N * json) * list N) :=
  match fuel, t with
  | S fuel', c :: r =>
      if c =? 34 then
        '(k, r) ← string_of r;
        match skip r with
        | d :: r' => if d =? 58 then
            '(v, r) ← value fuel' (skip r');
            match skip r with
            | e :: r' => let acc := dict_set k v acc0 in
                         if strict && bool_decide (k ∈ acc0.*1) then None
                         else if e =? 125 then Some (acc, r')
                         else if e =? 44 then members fuel' (skip r') acc
                         else None
            | [] => None
            end
            else None
        | [] => None
        end
      else None
  | _, _ => None
  end.

Lemma value_step fuel c r :
  value (S fuel) (c :: r) =
  if c =? 34 then '(s, r) ← string_of r; Some (JStr s, r)
  else if c =? 91 then
    match skip r with
    | d :: r' => if d =? 93 then Some (JArr [], r')
                 else '(l, r) ← elements fuel (d :: r'); Some (JArr l, r)
    | [] => None
    end
  else if c =? 123 then
    match skip r with
    | d :: r' => if d =? 125 then Some (JObj [], r')
                 else '(l, r) ← members fuel (d :: r') []; Some (JObj l, r)
    | [] => None
    end
  else scalar (c :: r).
Proof. reflexivity. Qed.
Lemma elements_step fuel t :
  elements (S fuel) t =
  '(v, r) ← value fuel t;
  match skip r with
  | d :: r' => if d =? 93 then Some ([v], r')
               else if d =? 44 then '(l, r) ← elements fuel (skip r'); Some (v :: l, r)
               else None
  | [] => None
  end.
Proof. reflexivity. Qed.
Lemma members_step fuel r acc :
  members (S fuel) (34 :: r) acc =
  '(k, r) ← string_of r;
  match skip r with
  | d :: r' => if d =? 58 then
      '(v, r) ← value fuel (skip r');
      match skip r with
      | e :: r' => if strict && bool_decide (k ∈ acc.*1) then None
                   else if e =? 125 then Some (dict_set k v acc, r')
                   else if e =? 44 then members fuel (skip r') (dict_set k v acc)
                   else None
      | [] => None
      end
      else None
  | [] => None
  end.
Proof. reflexivity. Qed.

(** [json.loads(t)]; [None] is [JSONDecodeError]. *)
Definition json_loads (t : list N) : option json :=
  '(v, r) ← value (2 * length t + 2) (skip t);
  match skip r with [] => Some v | _ => None end.
End Values.

(** ** Reading back *)

Lemma read_escaped fuel c t :
  read_string (S fuel) (escape_char c ++ t) = '(s, r) ← read_string fuel t; Some (c :: s, r).
Proof.
  destruct (N.ltb_spec c 32) as [Hlt|Hge].
  - assert (c ∈ N.of_nat <$> seq 0 32) as Hin.
    { apply list_elem_of_fmap. exists (N.to_nat c). rewrite elem_of_seq. lia. }
    cbn in Hin. rewrite !elem_of_cons, elem_of_nil in Hin.
    repeat (destruct Hin as [->|Hin]; [reflexivity|]). done.
  - unfold escape_char.
    destruct (N.eqb_spec c 34) as [->|]; [done|]. destruct (N.eqb_spec c 92) as [->|]; [done|].
    repeat match goal with |- context [c =? ?k] => destruct (N.eqb_spec c k); [lia|] end.
    destruct (N.ltb_spec c 32); [lia|]. cbn [read_string app].
    destruct (N.eqb_spec c 34); [done|]. destruct (N.eqb_spec c 92); [done|].
    destruct (N.ltb_spec c 32); [lia|done].
Qed.

Lemma read_string_back s r fuel :
  (length (s ≫= escape_char) < fuel)%nat →
  read_string fuel ((s ≫= escape_char) ++ 34 :: r) = Some (s, r).
Proof.
  revert fuel. induction s as [|c s IH]; intros fuel Hf; destruct fuel as [|fuel]; try (cbn in Hf; lia).
  - done.
  - change ((c :: s) ≫= escape_char) with (escape_char c ++ (s ≫= escape_char)) in *.
    rewrite <- app_assoc, read_escaped, IH; [done|]. rewrite length_app in Hf.
    assert (length (escape_char c) ≠ 0)%nat; [|lia].
    unfold escape_char. repeat case_match; done.
Qed.

Lemma string_of_back s r : string_of ((s ≫= escape_char) ++ 34 :: r) = Some (s, r).
Proof. apply read_string_back. rewrite length_app. cbn. lia. Qed.

(** *** Numbers *)

Lemma delim_not_digit r : delim r → take_while digit_char r = [] ∧ drop_while digit_char r = r.
Proof. destruct r as [|c r]; [done|]. intros [-> | [-> | ->]]; done. Qed.

Lemma take_drop_digits ds r :
  forallb digit_char ds = true → delim r →
  take_while digit_char (ds ++ r) = ds ∧ drop_while digit_char (ds ++ r) = r.
Proof.
  intros Hd Hr. induction ds as [|d ds IH]; [by apply delim_not_digit|].
  cbn in Hd |- *. apply andb_true_iff in Hd as [-> Hd]. destruct (IH Hd) as [-> ->]. done.
Qed.

Lemma delim_stop r : delim r → read_fraction r = ([], r) ∧ read_exponent r = ([], r).
Proof.
  destruct r as [|c r]; [done|]. intros Hc. unfold read_fraction, read_exponent.
  assert ((c =? 46) = false ∧ ((c =? 101) || (c =? 69)) = false) as [-> ->]
    by (by destruct Hc as [-> | [-> | ->]]).
  split; [done|]. by case_match.
Qed.

Lemma digits_first fuel n acc :
  0 < n → n < 2 ^ N.of_nat fuel → ∃ c t, digits fuel n acc = c :: t ∧ c ≠ 48.
Proof.
  revert n acc. induction fuel as [|fuel IH]; intros n acc H0 Hn.
  - cbn in Hn. lia.
  - cbn [digits]. destruct (N.ltb_spec n 10) as [Hlt|Hge].
    + do 2 eexists. split; [done|]. rewrite N.mod_small by done. lia.
    + apply IH.
      * apply N.div_str_pos. lia.
      * rewrite Nat2N.inj_succ, N.pow_succ_r' in Hn. apply N.Div0.div_lt_upper_bound. lia.
Qed.

Lemma dump_nat_first n : 0 < n → ∃ c t, dump_nat n = c :: t ∧ c ≠ 48 ∧ digit_char c = true.
Proof.
  intros H0. pose proof (dump_nat_chars n) as Hc.
  destruct (digits_first (S (N.size_nat n)) n []) as (c & t & E & Hz); [done| |].
  { rewrite Nat2N.inj_succ, N.pow_succ_r'. pose proof (size_nat_bound n). lia. }
  exists c, t. unfold dump_nat in *. rewrite E in Hc |- *. cbn in Hc. by apply andb_true_iff in Hc as [-> _].
Qed.

Lemma read_integer_back n r : delim r → read_integer (dump_nat n ++ r) = Some (dump_nat n, r).
Proof.
  intros Hr. destruct (N.eq_0_gt_0_cases n) as [->|Hn]; [done|].
  destruct (dump_nat_first n Hn) as (c & t & E & Hz & Hd).
  destruct (take_drop_digits (dump_nat n) r (dump_nat_chars n) Hr) as [Et Ed].
  unfold read_integer. rewrite E in Et, Ed |- *. cbn [app] in *. apply N.eqb_neq in Hz.
  by rewrite Hz, Hd, Et, Ed.
Qed.

Section Back.
Context `{float_repr_of : FloatText} (strict : bool).

Lemma read_number_back z r : delim r → read_number (dump_int z ++ r) = Some (JInt z, r).
Proof.
  intros Hr. unfold dump_int. destruct (delim_stop r Hr) as [Hf He].
  assert (∀ n, read_sign (dump_nat n ++ r) = ([], dump_nat n ++ r)) as Hs.
  { intros n. destruct (dump_nat_cons n) as (c & t & -> & Hc). cbn.
    destruct (N.eqb_spec c 45) as [->|]; done. }
  destruct (Z.ltb_spec z 0) as [Hz|Hz]; unfold read_number.
  - change (read_sign ((45 :: dump_nat (Z.to_N (- z))) ++ r)) with ([45], dump_nat (Z.to_N (- z)) ++ r).
    cbv iota beta. rewrite read_integer_back by done. cbn [mbind option_bind]. rewrite Hf. cbv iota beta. rewrite He.
    cbv iota beta.     rewrite bool_decide_eq_true_2 by done. rewrite bool_decide_eq_false_2 by done.
    rewrite dump_nat_read. repeat f_equal. lia.
  - rewrite Hs. cbv iota beta. rewrite read_integer_back by done. cbn [mbind option_bind]. rewrite Hf. cbv iota beta. rewrite He.
    cbv iota beta.     rewrite !bool_decide_eq_true_2 by done. rewrite dump_nat_read. repeat f_equal. lia.
Qed.

(** The float texts of a value are read as themselves. *)
Definition reads_float (f : list N) : Prop :=
  ∀ r, delim r → read_number (f ++ r) = Some (JFloat f, r).
Fixpoint float_texts (v : json) : list (list N) :=
  match v with
  | JFloat f => [f]
  | JArr l => l ≫= float_texts
  | JObj l => l ≫= λ kv, float_texts kv.2
  | _ => []
  end.

(** *** Values *)

Lemma skip_delim r : delim r → skip r = r.
Proof. destruct r as [|c r]; [done|]. by intros [-> | [-> | ->]]. Qed.

Lemma skip_tag t c r : t = c :: r → (tag c ≤ 6)%nat → skip t = t.
Proof.
  intros -> Ht. unfold skip. cbn. replace (blank c) with false; [done|]. symmetry.
  unfold blank. destruct (N.eqb_spec c 32) as [->|]; [cbn in Ht; lia|].
  destruct (N.eqb_spec c 9) as [->|]; [cbn in Ht; lia|].
  destruct (N.eqb_spec c 10) as [->|]; [cbn in Ht; lia|].
  destruct (N.eqb_spec c 13) as [->|]; [cbn in Ht; lia|done].
Qed.

(** Numbers are not taken for anything else. *)
Lemma scalar_number c r x :
  num_char c = true → read_number (c :: r) = Some x → scalar strict (c :: r) = Some x.
Proof.
  intros Hc Hx. unfold scalar. rewrite Hx. unfold constants, read_constant.
  change (lit "null") with (110 :: lit "ull"). change (lit "true") with (116 :: lit "rue").
  change (lit "false") with (102 :: lit "alse"). cbn [strip_prefix].
  rewrite !(proj2 (N.eqb_neq _ c)); [done|..]; by intros <-.
Qed.

Lemma number_value fuel t r x :
  forallb num_char t = true → t ≠ [] → read_number (t ++ r) = Some x → value strict (S fuel) (t ++ r) = Some x.
Proof.
  intros Hn Ht Hx. destruct t as [|c t]; [done|]. cbn in Hn. apply andb_true_iff in Hn as [Hc _].
  cbn [app]. rewrite value_step. assert (c ≠ 34 ∧ c ≠ 91 ∧ c ≠ 123) as (H1 & H2 & H3) by (split_and!; intros ->; done).
  apply N.eqb_neq in H1, H2, H3. rewrite H1, H2, H3. by apply scalar_number.
Qed.

(** [v] is read back from its text, with enough fuel. *)
Definition back (v : json) : Prop :=
  ∀ fuel r, (2 * length (dump v) ≤ fuel)%nat → delim r →
  value strict fuel (dump v ++ r) = Some (sort_json v, r).

Lemma dump_head v : json_wf v → ∃ c t, dump v = c :: t ∧ (tag c ≤ 6)%nat.
Proof.
  intros Hv. destruct (dump_tag v Hv) as (c & t & E & Ht). exists c, t. split; [done|].
  rewrite Ht. destruct v as [|[]| | | | |]; cbn; lia.
Qed.

Lemma elements_back l fuel r :
  l ≠ [] → Forall back l → Forall json_wf l →
  (2 * length (join 44 (dump <$> l)) + 1 ≤ fuel)%nat →
  elements strict fuel (join 44 (dump <$> l) ++ 93 :: r) = Some (sort_json <$> l, r).
Proof.
  intros Hne Hb Hw. revert fuel Hne. induction l as [|v l IH]; intros fuel Hne Hf; [done|].
  apply Forall_cons in Hb as [Hv Hb], Hw as [Hwv Hw]. destruct fuel as [|fuel]; [lia|].
  rewrite elements_step, fmap_cons, join_cons.
  assert (length (join 44 (dump <$> v :: l)) =
          (length (dump v) + match l with [] => 0 | _ => 1 + length (join 44 (dump <$> l)) end)%nat) as El.
  { destruct l; cbn; [lia|]. rewrite length_app. cbn. lia. }
  destruct l as [|w l]; cbn [fmap list_fmap] in El, Hf |- *.
  - rewrite Hv by (lia || (cbn; auto)). done.
  - rewrite Hv by (lia || (cbn; auto)). cbn [mbind option_bind]. rewrite skip_delim by (cbn; auto).
    cbv iota. destruct (dump_head w) as (c & t & Ec & Ht); [by apply Forall_cons in Hw as [? _]|].
    rewrite (skip_tag _ c ((match l with [] => t | _ => t ++ 44 :: join 44 (dump <$> l) end) ++ 93 :: r));
      [|destruct l; cbn; by rewrite Ec|done].
    specialize (IH Hb Hw fuel). cbn [fmap list_fmap] in IH. rewrite IH; [done|done|lia].
Qed.

Lemma dict_set_new k v (acc : list (list N * json)) : k ∉ acc.*1 → dict_set k v acc = acc ++ [(k, v)].
Proof.
  induction acc as [|[k' w] acc IH]; [done|]. cbn. rewrite not_elem_of_cons. intros [Hk Hn].
  rewrite bool_decide_eq_false_2 by congruence. by rewrite IH.
Qed.

Lemma member_text k v rest :
  dump_member (k, v) ++ rest = 34 :: (k ≫= escape_char) ++ 34 :: 58 :: dump v ++ rest.
Proof. unfold dump_member, dump_item, dump_str. cbn. by rewrite <- !app_assoc. Qed.

(** What follows a value inside brackets. *)
Definition after (close : N) (texts : list (list N)) (r : list N) : list N :=
  match texts with [] => close :: r | _ => 44 :: join 44 texts ++ close :: r end.

Lemma members_back l fuel acc r :
  l ≠ [] → Forall (λ kv, back kv.2) l → Forall (λ kv, json_wf kv.2) l → NoDup (acc.*1 ++ l.*1) →
  (2 * length (join 44 (dump_member <$> l)) + 1 ≤ fuel)%nat →
  members strict fuel (join 44 (dump_member <$> l) ++ 125 :: r) acc
    = Some (acc ++ ((λ kv, (kv.1, sort_json kv.2)) <$> l), r).
Proof.
  intros Hne Hb Hw. revert fuel acc Hne. induction l as [|[k v] l IH]; intros fuel acc Hne Hnd Hf; [done|].
  apply Forall_cons in Hb as [Hv Hb], Hw as [Hwv Hw]. destruct fuel as [|fuel]; [lia|].
  cbn [snd] in Hv, Hwv.
  assert (length (join 44 (dump_member <$> (k, v) :: l)) =
    (length (dump_member (k, v)) + match l with [] => 0 | _ => 1 + length (join 44 (dump_member <$> l)) end)%nat)
    as El.
  { destruct l; cbn [fmap list_fmap join]; [lia|]. rewrite length_app. cbn [length]. lia. }
  assert (2 + length (dump v) ≤ length (dump_member (k, v)))%nat as Em.
  { pose proof (f_equal length (member_text k v [])) as E. rewrite app_nil_r in E. rewrite E.
    cbn [length]. rewrite !length_app. cbn [length]. rewrite length_app. lia. }
  rewrite fmap_cons, join_cons.
  change (match dump_member <$> l with [] => 125 :: r | _ => 44 :: join 44 (dump_member <$> l) ++ 125 :: r end)
    with (after 125 (dump_member <$> l) r).
  rewrite member_text, members_step, string_of_back. cbn [mbind option_bind skip drop_while].
  change (blank 58) with false. cbv iota. change (58 =? 58) with true. cbv iota.
  destruct (dump_head v Hwv) as (c & t & Ec & Ht).
  rewrite (skip_tag (dump v ++ _) c (t ++ after 125 (dump_member <$> l) r)); [|by rewrite Ec|done].
  rewrite Hv; [|lia|destruct l; cbn; auto].
  cbn [mbind option_bind]. rewrite skip_delim by (destruct l; cbn; auto).
  assert (k ∉ acc.*1) as Hk.
  { cbn in Hnd. intros Hk. apply NoDup_app in Hnd as (_ & Hx & _). apply (Hx k Hk). by left. }
  rewrite dict_set_new by done. cbn [fmap list_fmap].
  rewrite bool_decide_eq_false_2, andb_false_r by done.
  destruct l as [|[k' v'] l]; [done|]. cbn [after fmap list_fmap].
  change (44 =? 125) with false. change (44 =? 44) with true. cbv iota.
  rewrite (skip_tag (join 44 _ ++ _) 34 (drop 1 (join 44 (dump_member (k', v') :: (dump_member <$> l)) ++ 125 :: r)));
    [|by rewrite join_cons, member_text|cbn; lia].
  specialize (IH Hb Hw fuel (acc ++ [(k, sort_json v)])). cbn [fmap list_fmap] in IH.
  rewrite IH; [|done| |cbn [fmap list_fmap] in El, Hf; lia].
  - by rewrite <- app_assoc.
  - rewrite fmap_app, <- app_assoc. exact Hnd.
Qed.

Lemma value_back v : json_wf v → Forall reads_float (float_texts v) → back v.
Proof.
  induction v as [|[]|z|f|s|l IH|l IH] using json_ind'; intros Hw Hf fuel r Hfuel Hr.
  1-3: destruct fuel; [exfalso; revert Hfuel; vm_compute; lia|reflexivity].
  - assert (dump_int z ≠ []) as Hn.
    { unfold dump_int. destruct (z <? 0)%Z; [done|]. by destruct (dump_nat_cons (Z.to_N z)) as (? & ? & -> & _). }
    destruct fuel as [|fuel]; [cbn in Hfuel; destruct (dump_int z); [done|cbn in Hfuel; lia]|].
    apply number_value; [apply dump_int_num|done|by apply read_number_back].
  - cbn in Hw. apply andb_true_iff in Hw as [Hn He].
    destruct f as [|c f]; [done|]. destruct fuel as [|fuel]; [cbn in Hfuel; lia|].
    apply number_value; [done|done|]. cbn [float_texts] in Hf.
    apply Forall_cons in Hf as [Hf _]. by apply Hf.
  - destruct fuel as [|fuel]; [cbn in Hfuel; lia|]. cbn [dump]. unfold dump_str.
    rewrite <- !app_assoc. cbn [app]. rewrite value_step. change (34 =? 34) with true. cbv iota.
    by rewrite string_of_back.
  - apply json_wf_arr in Hw. cbn [dump sort_json] in *. destruct fuel as [|fuel]; [cbn in Hfuel; lia|].
    destruct l as [|v l]; [done|]. rewrite <- !app_assoc. cbn [app]. rewrite value_step.
    change (91 =? 34) with false. change (91 =? 91) with true. cbv iota.
    destruct (dump_head v) as (c & t & Ec & Ht); [by apply Forall_cons in Hw as [? _]|].
    rewrite (skip_tag _ c (drop 1 (join 44 (dump <$> v :: l) ++ 93 :: r)));
      [|rewrite fmap_cons, join_cons, Ec; done|done].
    rewrite length_app in Hfuel. cbn [length] in Hfuel. rewrite length_app in Hfuel. cbn [length] in Hfuel.
    assert (Forall back (v :: l)) as Hb.
    { apply Forall_forall. intros w Hin. rewrite Forall_forall in IH, Hw. rewrite Forall_forall in Hf.
      apply IH; [done|by apply Hw|]. apply Forall_forall. intros f Hff. apply Hf.
      change (f ∈ (v :: l) ≫= float_texts). apply list_elem_of_bind. eauto. }
    pose proof (elements_back (v :: l) fuel r ltac:(done) Hb Hw ltac:(lia)) as He.
    rewrite fmap_cons, join_cons, Ec in He |- *. cbn [app] in He |- *.
    assert ((c =? 93) = false) as -> by (apply N.eqb_neq; intros ->; cbn in Ht; lia).
    by rewrite He.
  - assert (NoDup l.*1) as Hnd by (by apply json_wf_obj in Hw as [? _]).
    rewrite sort_json_obj, dump_obj in * by done. apply json_wf_obj in Hw as [_ Hw].
    assert (∀ kv, kv ∈ obj_items l ↔ kv ∈ l) as Hin by (intros; unfold obj_items; by rewrite merge_sort_Permutation).
    assert (NoDup (obj_items l).*1) as Hnd' by (unfold obj_items; by rewrite merge_sort_Permutation).
    assert (Forall (λ kv, back kv.2) (obj_items l) ∧ Forall (λ kv, json_wf kv.2) (obj_items l)) as [Hb Hwi].
    { rewrite Forall_forall in IH, Hw. rewrite Forall_forall in Hf. rewrite !Forall_forall.
      split; intros kv Hkv%Hin; [|by apply Hw].
      apply IH; [done|by apply Hw|]. apply Forall_forall. intros f Hff. apply Hf.
      change (f ∈ l ≫= λ kv, float_texts kv.2). apply list_elem_of_bind. eauto. }
    clear IH Hw Hf Hnd Hin. destruct fuel as [|fuel]; [cbn in Hfuel; lia|].
    destruct (obj_items l) as [|[k v] items]; [done|]. rewrite <- !app_assoc. cbn [app]. rewrite value_step.
    change (123 =? 34) with false. change (123 =? 91) with false. change (123 =? 123) with true. cbv iota.
    rewrite (skip_tag _ 34 (drop 1 (join 44 (dump_member <$> (k, v) :: items) ++ 125 :: r)));
      [|by rewrite fmap_cons, join_cons, member_text|cbn; lia].
    rewrite length_app in Hfuel. cbn [length] in Hfuel. rewrite length_app in Hfuel. cbn [length] in Hfuel.
    pose proof (members_back ((k, v) :: items) fuel [] r ltac:(done) Hb Hwi Hnd' ltac:(lia)) as He.
    rewrite fmap_cons, join_cons, member_text in He |- *. cbn [app] in He |- *.
    change (34 =? 125) with false. cbv iota. by rewrite He.
Qed.

(** What [json.loads] gives for a canonical text. *)
Lemma loads_dump v :
  json_wf v → Forall reads_float (float_texts v) → json_loads strict (dump v) = Some (sort_json v).
Proof.
  intros Hw Hf. unfold json_loads. destruct (dump_head v Hw) as (c & t & Ec & Ht).
  rewrite (skip_tag _ c t) by done.
  pose proof (value_back v Hw Hf (2 * length (dump v) + 2)%nat [] ltac:(lia) I) as H.
  rewrite app_nil_r in H. rewrite H. done.
Qed.

(** C40. Canonical text reads back.  What [canonical_json] writes for a value,
    [json.loads], strict or not, reads as the same value with the keys of every mapping in
    order (provided Python reads the text of each float in it as that float). *)
Theorem canonical_text_reads_back v t :
  json_wf v → Forall reads_float (float_texts v) → canonical_json v = Some t →
  json_loads strict t = Some (sort_json v) ∧ canonical_json (sort_json v) = Some t.
Proof.
  intros Hw Hf Ht. rewrite canonical_json_sort by done. split; [|done].
  rewrite canonical_json_dump in Ht. destruct (all_finite v); [|done]. injection Ht as <-.
  by apply loads_dump.
Qed.
End Back.

(** The parser behind the context window and the evidence check. *)
Definition python_json `{FloatText} : JsonText :=
  {| loads := json_loads false; loads_strict := json_loads true |}.

(** ** Witness *)

#[local] Instance same_text : FloatText := λ t, t.

Definition sample_value : json :=
  JObj [(lit "text", JStr ([34; 92; 9; 27721; 128512; 1] ++ lit "x")); (lit "n", JInt (-120));
        (lit "f", JFloat (lit "1.5e-07")); (lit "a", JArr [JNull; JBool true; JObj []; JArr []; JInt 0])].

Lemma canonical_text_reads_back_witness :
  json_loads false (dump sample_value) = Some (sort_json sample_value) ∧
  json_loads false (lit "[1, 2,]") = None ∧
  json_loads false (lit " [1 , { } , 2.0 ] ") = Some (JArr [JInt 1; JObj []; JFloat (lit "2.0")]).
Proof.
  split; [|split; vm_compute; reflexivity].
  apply (canonical_text_reads_back false sample_value); [| |vm_compute; reflexivity].
  - apply json_wf_obj. split; [apply (bool_decide_unpack _); vm_compute; exact I|].
    repeat (apply Forall_cons_2; [vm_compute; repeat constructor|]). done.
  - apply Forall_cons_2; [|done]. intros [|c r] Hr; [vm_compute; reflexivity|].
    destruct Hr as [-> | [-> | ->]]; reflexivity.
Defined.
