(* ===== verification/ContextAdmission.v ===== *)
(** * Admission of a request into the model's window

    Model of [ContextBudgetPolicy.admit] of
    [packages/agent_runtime/context_budget.py]: optional content is projected
    into its pools, whole exchanges are chosen under the window's budget, and
    the result carries its own accounting.

    [was_projected] is written but never read and [window_utilization] is a
    quotient for display; neither is modelled.  Counts per category are
    functions of the category.  The loop that gives up old exchanges removes
    one per turn, so their number is enough fuel. *)

From stdpp Require Import base gmap list strings sorting.
From Stdlib Require Import ZArith NArith Lia.
From S2P Require Import Prelude.
From S2P Require Import Json.
From S2P Require Import JsonTheory.
From S2P Require Import TurnTranscript.
From S2P Require Import ContextMetadata.
From S2P Require Import ModelProfiles.
From S2P Require Import ContextPolicy.
From S2P Require Import Outcome.
From S2P Require Import JsonProjection.
From S2P Require Import ContextBudget.
From S2P Require Import ContextMemory.

Local Open Scope Z_scope.

Record _NormalizedMessage := {
  nm_item : ContextMessage;
  nm_index : nat;
  nm_raw_tokens : Z;
  nm_admitted_message : option ModelMessage;
  nm_admitted_tokens : Z;
  nm_memory_admitted_ids : list (list N);
  nm_memory_pool_dropped_ids : list (list N);
  nm_memory_truncated : bool
}.
Definition nm_category (n : _NormalizedMessage) : ContextCategory := category (nm_item n).
Definition nm_group (n : _NormalizedMessage) : list N + nat := group_key (nm_index n) (nm_item n).
Definition mandatory (n : _NormalizedMessage) : bool := _MANDATORY_CATEGORIES (nm_category n).
Definition of_category (c : ContextCategory) (l : list _NormalizedMessage) :
    list _NormalizedMessage := filter (λ n, nm_category n = c) l.

Fixpoint sum {A} (f : A → Z) (l : list A) : Z :=
  match l with [] => 0 | x :: r => f x + sum f r end.

(** ** Results *)

Inductive DropReason := MEMORY_POOL_BUDGET | CONTEXT_WINDOW_BUDGET.
Record MemoryAdmission := {
  ma_selected_ids : list (list N);
  ma_admitted_ids : list (list N);
  ma_dropped_reasons : list (list N * DropReason)
}.
Record ContextBudgetUsage := {
  us_context_limit : option Z;
  us_reserved_output : Z;
  us_available_input : Z;
  us_estimated_input_before : Z;
  us_estimated_input_after : Z;
  us_truncated : bool;
  us_dropped_exchange_count : Z;
  us_estimated_by_category : ContextCategory → Z;
  us_retained_by_category : ContextCategory → Z;
  us_truncated_by_category : ContextCategory → Z;
  us_context_policy_version : option (list N);
  us_model_available_input : option Z
}.
Record ContextAdmissionResult := {
  ar_messages : list ModelMessage;
  ar_tool_definitions : list ModelToolDefinition;
  ar_usage : ContextBudgetUsage;
  ar_message_categories : list ContextCategory;
  ar_memory_admission : option MemoryAdmission
}.

Definition all_categories : list ContextCategory :=
  [RUNTIME_POLICY; SYSTEM_PROMPT; CURRENT_USER_TASK; TOOL_DEFINITIONS; RAG_EVIDENCE;
   TOOL_RESULT; CONVERSATION; MEMORY].

(** [ContextBudgetUsage.__post_init__] *)
Definition new_usage (u : ContextBudgetUsage) : fallible ContextBudgetUsage :=
  fail_if (existsb (λ z, z <? 0)
             [us_reserved_output u; us_available_input u; us_estimated_input_before u;
              us_estimated_input_after u; us_dropped_exchange_count u]) BudgetValueError;;
  fail_if (match us_context_limit u with Some z => z <? 0 | None => false end) BudgetValueError;;
  match us_context_policy_version u with
  | None =>
      match us_context_limit u with
      | None => Raise BudgetValueError
      | Some limit =>
          fail_if (limit <? us_reserved_output u) BudgetValueError;;
          fail_if (negb (us_available_input u =? limit - us_reserved_output u)) BudgetValueError
      end
  | Some version =>
      fail_if (negb (bool_decide (version = lit "adaptive_context_v1"))
               || match us_model_available_input u with
                  | Some m => negb ((0 <? us_available_input u) && (us_available_input u <=? m))
                  | None => true
                  end) BudgetValueError
  end;;
  fail_if (us_available_input u <? us_estimated_input_after u) BudgetValueError;;
  fail_if (existsb (λ f : ContextCategory → Z, existsb (λ c, f c <? 0) all_categories)
             [us_estimated_by_category u; us_retained_by_category u; us_truncated_by_category u])
    BudgetValueError;;
  mret u.

(** [MemoryAdmission.__post_init__]; the reasons are listed in the order of
    the selected identifiers. *)
Definition new_memory_admission (selected admitted : list (list N))
    (reasons : gmap (list N) DropReason) : fallible MemoryAdmission :=
  fail_if (negb (bool_decide (NoDup selected) && bool_decide (NoDup admitted))) BudgetValueError;;
  fail_if (existsb (λ i, bool_decide (i ∉ selected)) admitted) BudgetValueError;;
  fail_if (negb (bool_decide (dom reasons
             = (list_to_set selected ∖ list_to_set admitted : gset (list N))))) BudgetValueError;;
  mret {| ma_selected_ids := selected; ma_admitted_ids := admitted;
          ma_dropped_reasons := omap (λ i, pair i <$> reasons !! i) selected |}.

Section Admission.
Context `{!TokenEstimator, !Reprojection, !JsonText} (self : ContextBudgetPolicy).

(** ** Projection into the pools *)

Definition parsed_content (raw : option (list N)) : json :=
  match raw with
  | None => JNull
  | Some s => default (JStr s) (loads s)
  end.

(** Project, write and measure; [None] when nothing useful fits. *)
Definition write_projection (m : ModelMessage) (c : ContextCategory) (parsed : json) (budget : Z) :
    fallible (option (ModelMessage * Z * bool)) :=
  match _project_json_value c parsed budget with
  | (None, _) => mret None
  | (Some projected, truncated) =>
      text ← _json_dumps projected;
      let m' := with_content m text in
      estimated ← _estimate_message self m';
      mret (Some (m', estimated, truncated))
  end.

Definition _project_message (item : ContextMessage) (budget : Z) (c : ContextCategory) :
    fallible (option (ModelMessage * Z)) :=
  if budget <=? 0 then mret None
  else
    let m := message item in
    let parsed := parsed_content (content m) in
    metadata ← _estimate_message self (with_content m []);
    let projection_budget := budget - metadata in
    if projection_budget <=? 0 then mret None
    else
      first ← write_projection m c parsed projection_budget;
      match first with
      | None => mret None
      | Some (m', estimated, truncated) =>
          if truncated && match loads (default [] (content m')) with None => true | _ => false end
          then mret None
          else if budget <? estimated then
            let residual := Z.max (projection_budget - (estimated - budget)) 0 in
            second ← write_projection m c parsed residual;
            match second with
            | None => mret None
            | Some (m'', estimated', _) =>
                mret (if budget <? estimated' then None else Some (m'', estimated'))
            end
          else mret (Some (m', estimated))
      end.

Definition replaced (n : _NormalizedMessage) (f : MemoryFit) : _NormalizedMessage :=
  {| nm_item := nm_item n; nm_index := nm_index n; nm_raw_tokens := nm_raw_tokens n;
     nm_admitted_message := mf_message f; nm_admitted_tokens := mf_tokens f;
     nm_memory_admitted_ids := mf_admitted f; nm_memory_pool_dropped_ids := mf_rejected f;
     nm_memory_truncated := mf_truncated f |}.
Definition plain_fit (r : option (ModelMessage * Z)) : MemoryFit :=
  {| mf_message := fst <$> r; mf_tokens := default 0 (snd <$> r); mf_admitted := [];
     mf_rejected := []; mf_truncated := false |}.
Definition unfit (f : MemoryFit) : MemoryFit :=
  {| mf_message := None; mf_tokens := 0; mf_admitted := mf_admitted f;
     mf_rejected := mf_rejected f; mf_truncated := mf_truncated f |}.

Record PoolState := {
  remaining : Z;
  memory_group_truncated : bool;
  projected : list _NormalizedMessage
}.

(** One message of a pool. *)
Definition pool_step (payloads : gmap nat _MemoryPayload) (c : ContextCategory) (st : PoolState)
    (n : _NormalizedMessage) : fallible PoolState :=
  fit ← (if bool_decide (c = MEMORY) then
           p ← or_raise BudgetTypeError (payloads !! nm_index n);
           _project_memory_message self (nm_item n) (remaining st) p (memory_group_truncated st)
         else plain_fit <$> _project_message (nm_item n) (remaining st) c);
  let fit' := match mf_message fit with
              | Some _ => if remaining st <? mf_tokens fit then unfit fit else fit
              | None => unfit fit
              end in
  mret {| remaining := remaining st - mf_tokens fit';
          memory_group_truncated := memory_group_truncated st || mf_truncated fit;
          projected := projected st ++ [replaced n fit'] |}.

Definition project_pool (payloads : gmap nat _MemoryPayload) (c : ContextCategory) (pool : Z)
    (items : list _NormalizedMessage) : fallible PoolState :=
  let chosen := of_category c items in
  let ordered := match c with TOOL_RESULT | RAG_EVIDENCE => reverse chosen | _ => chosen end in
  fold_raise (pool_step payloads c) ordered
    {| remaining := pool; memory_group_truncated := false; projected := [] |}.

Definition unchanged (n : _NormalizedMessage) : _NormalizedMessage :=
  replaced n {| mf_message := Some (message (nm_item n)); mf_tokens := nm_raw_tokens n;
                mf_admitted := nm_memory_admitted_ids n;
                mf_rejected := nm_memory_pool_dropped_ids n;
                mf_truncated := nm_memory_truncated n |}.

(** Memory has a pool of its own, or shares the evidence pool. *)
Definition _project_optional_items (items : list _NormalizedMessage)
    (payloads : gmap nat _MemoryPayload) : fallible (list _NormalizedMessage) :=
  let c := config self in
  memory ← project_pool payloads MEMORY (default (max_retrieval_tokens c) (max_memory_tokens c)) items;
  let evidence_pool := match max_memory_tokens c with
                       | None => remaining memory
                       | Some _ => max_retrieval_tokens c end in
  evidence ← project_pool payloads RAG_EVIDENCE evidence_pool items;
  results ← project_pool payloads TOOL_RESULT (max_tool_result_tokens c) items;
  let all := projected memory ++ projected evidence ++ projected results in
  traverse (λ n, if _PROJECTABLE_CATEGORIES (nm_category n)
                 then or_raise BudgetTypeError (find (λ q, (nm_index q =? nm_index n)%nat) all)
                 else mret (unchanged n)) items.

(** ** Choice of exchanges *)

Record Exchange := {
  ex_group : list N + nat;
  ex_first : nat;
  ex_items : list _NormalizedMessage
}.
Definition ex_tokens (e : Exchange) : Z := sum nm_admitted_tokens (ex_items e).
Definition admissible (e : Exchange) : bool :=
  forallb (λ n, match nm_admitted_message n with Some _ => true | None => false end) (ex_items e).
Definition has_conversation (e : Exchange) : bool :=
  existsb (λ n, bool_decide (nm_category n = CONVERSATION)) (ex_items e).

(** [groups.setdefault(item.group, []).append(item)] *)
Fixpoint add_to_group (es : list Exchange) (n : _NormalizedMessage) : list Exchange :=
  match es with
  | [] => [{| ex_group := nm_group n; ex_first := nm_index n; ex_items := [n] |}]
  | e :: r =>
      if bool_decide (ex_group e = nm_group n)
      then {| ex_group := ex_group e; ex_first := ex_first e; ex_items := ex_items e ++ [n] |} :: r
      else e :: add_to_group r n
  end.
Definition exchanges (items : list _NormalizedMessage) : list Exchange :=
  fold_left add_to_group (filter (λ n, mandatory n = false) items) [].

(** [max(es, key=first_index, default=None)] and [min] *)
Definition newest_of (es : list Exchange) : option Exchange :=
  fold_left (λ best e, match best with
                       | Some b => if (ex_first b <? ex_first e)%nat then Some e else Some b
                       | None => Some e end) es None.
Definition oldest_of (es : list Exchange) : option Exchange :=
  fold_left (λ best e, match best with
                       | Some b => if (ex_first e <? ex_first b)%nat then Some e else Some b
                       | None => Some e end) es None.

Fixpoint drop_oldest (fuel : nat) (budget : Z) (es : list Exchange) (tokens : Z) :
    list Exchange * Z :=
  match fuel with
  | O => (es, tokens)
  | S fuel' =>
      if budget <? tokens then
        match oldest_of es with
        | None => (es, tokens)
        | Some o => drop_oldest fuel' budget (filter (λ e, ex_group e ≠ ex_group o) es)
                      (tokens - ex_tokens o)
        end
      else (es, tokens)
  end.

Definition first_le (a b : Exchange) : Prop := (ex_first a ≤ ex_first b)%nat.
#[global] Instance first_le_dec : RelDecision first_le := λ a b, decide (ex_first a ≤ ex_first b)%nat.

(** A standalone group is added if it fits in what is left. *)
Definition standalone_step (st : list (list N + nat) * Z) (e : Exchange) : list (list N + nat) * Z :=
  let '(chosen, remaining) := st in
  if has_conversation e || negb (admissible e) then st
  else if ex_tokens e <=? remaining then (ex_group e :: chosen, remaining - ex_tokens e)
  else st.

Definition _select_items (items : list _NormalizedMessage) (mandatory_total available_input : Z) :
    fallible (list _NormalizedMessage * nat) :=
  let budget := available_input - mandatory_total in
  let groups := exchanges items in
  let conversations := filter (λ e, has_conversation e = true) groups in
  match newest_of conversations with
  | None => mret tt
  | Some newest =>
      fail_if (negb (admissible newest)) (AGENT_CONTEXT_BUDGET_EXCEEDED newest_not_projectable);;
      fail_if (budget <? ex_tokens newest) (AGENT_CONTEXT_BUDGET_EXCEEDED newest_too_large)
  end;;
  let eligible := filter (λ e, admissible e = true) conversations in
  let '(kept, tokens) := drop_oldest (length eligible) budget eligible (sum ex_tokens eligible) in
  let '(chosen, _) := fold_left standalone_step (merge_sort first_le groups)
                        (ex_group <$> kept, budget - tokens) in
  let selected := filter (λ n, mandatory n = true ∨ nm_group n ∈ chosen) items in
  mret (selected, length (filter (λ e, ex_group e ∉ chosen) conversations)).

(** ** Accounting *)

(** What memory was recalled, what of it is in the request, and why the rest
    is not. *)
Definition by_nm_index (i : nat) (l : list _NormalizedMessage) : option _NormalizedMessage :=
  find (λ n, (nm_index n =? i)%nat) l.

Definition drop_reason (pool : bool) : DropReason :=
  if pool then MEMORY_POOL_BUDGET else CONTEXT_WINDOW_BUDGET.

(** The reasons for the entries of one memory message, and its admitted ids. *)
Definition memory_outcome (projected selected : list _NormalizedMessage) (i : nat)
    (p : _MemoryPayload) : fallible (list (list N) * list (list N * DropReason)) :=
  let ids := mc_id <$> candidates p in
  proj ← or_raise BudgetTypeError (by_nm_index i projected);
  match by_nm_index i selected with
  | Some s =>
      match nm_admitted_message s with
      | Some _ =>
          mret (nm_memory_admitted_ids s,
                (λ id, (id, drop_reason (bool_decide (id ∈ nm_memory_pool_dropped_ids s))))
                  <$> filter (λ id, id ∉ nm_memory_admitted_ids s) ids)
      | None => mret ([], (λ id, (id, drop_reason true)) <$> ids)
      end
  | None =>
      mret ([], (λ id, (id, drop_reason
                   (match nm_admitted_message proj with None => true | Some _ => false end
                    || bool_decide (id ∈ nm_memory_pool_dropped_ids proj)))) <$> ids)
  end.

Definition _memory_admission (raw projected selected : list _NormalizedMessage)
    (payloads : gmap nat _MemoryPayload) : fallible (option MemoryAdmission) :=
  match of_category MEMORY raw with
  | [] => mret None
  | items =>
      parts ← traverse (λ n, p ← or_raise BudgetTypeError (payloads !! nm_index n);
                             r ← memory_outcome projected selected (nm_index n) p;
                             mret (mc_id <$> candidates p, r)) items;
      Some <$> new_memory_admission (parts ≫= fst) (parts ≫= λ p, p.2.1)
                 (list_to_map (reverse (parts ≫= λ p, p.2.2)))
  end.

Definition raw_item (tokens : Z) (i : nat) (m : ContextMessage) : _NormalizedMessage :=
  {| nm_item := m; nm_index := i; nm_raw_tokens := tokens; nm_admitted_message := None;
     nm_admitted_tokens := 0; nm_memory_admitted_ids := []; nm_memory_pool_dropped_ids := [];
     nm_memory_truncated := false |}.

Definition available_input_of (context_limit : option Z) (reserved_output : Z) : fallible Z :=
  match context_policy self with
  | Some l => policy_int "input_limit_tokens" l
  | None =>
      match context_limit with
      | Some limit =>
          fail_if (limit <=? reserved_output) (AGENT_CONTEXT_BUDGET_EXCEEDED reserve_too_large);;
          mret (limit - reserved_output)
      | None => Raise (AGENT_CONTEXT_BUDGET_EXCEEDED reserve_too_large)
      end
  end.

Definition plus_if (b : bool) (z : Z) : Z := if b then z else 0.

Definition estimated_by_category (raw : list _NormalizedMessage) (tools overhead : Z)
    (c : ContextCategory) : Z :=
  sum nm_raw_tokens (of_category c raw) + plus_if (bool_decide (c = TOOL_DEFINITIONS)) tools
  + plus_if (bool_decide (c = RUNTIME_POLICY)) overhead.
Definition retained_by_category (selected : list _NormalizedMessage) (tools overhead : Z)
    (c : ContextCategory) : Z :=
  sum nm_admitted_tokens (of_category c selected)
  + plus_if (bool_decide (c = TOOL_DEFINITIONS)) tools
  + plus_if (bool_decide (c = RUNTIME_POLICY)) overhead.
(** What is missing of one message. *)
Definition lost_tokens (selected : list _NormalizedMessage) (n : _NormalizedMessage) : Z :=
  match by_nm_index (nm_index n) selected with
  | Some s => if negb (bool_decide (nm_category n = MEMORY)) || nm_memory_truncated s
              then Z.max (nm_raw_tokens n - nm_admitted_tokens s) 0 else 0
  | None => nm_raw_tokens n
  end.
Definition truncated_by_category (raw selected : list _NormalizedMessage) (c : ContextCategory) : Z :=
  if bool_decide (c = TOOL_DEFINITIONS) then 0
  else sum (lost_tokens selected) (of_category c raw).

Definition _admit_normalized (messages : list ContextMessage) (tools : list ModelToolDefinition)
    (payloads : gmap nat _MemoryPayload) : fallible ContextAdmissionResult :=
  context_limit ← _effective_context_limit self;
  reserved_output ← _effective_reserved_output self;
  available_input ← available_input_of context_limit reserved_output;
  request_overhead ← _protocol_overhead self "request_overhead_tokens";
  tool_estimates ← traverse (_estimate_tool self) tools;
  raw ← traverse (λ im, tokens ← _estimate_message self (message im.2);
                        mret (raw_item tokens im.1 im.2)) (imap pair messages);
  let tool_tokens := sum id tool_estimates in
  let estimated := estimated_by_category raw tool_tokens request_overhead in
  let mandatory_total :=
    sum nm_raw_tokens (filter (λ n, mandatory n = true) raw) + tool_tokens + request_overhead in
  fail_if (available_input <? mandatory_total) (AGENT_CONTEXT_BUDGET_EXCEEDED mandatory_overflow);;
  projected ← _project_optional_items raw payloads;
  '(selected, dropped) ← _select_items projected mandatory_total available_input;
  let estimated_after := tool_tokens + request_overhead + sum nm_admitted_tokens selected in
  fail_if (available_input <? estimated_after) (AGENT_CONTEXT_BUDGET_EXCEEDED admitted_too_large);;
  let truncated := truncated_by_category raw selected in
  version ← match context_policy self with
            | Some l => match field "policy_version" l with
                        | JStr s => mret (Some s) | _ => Raise BudgetTypeError end
            | None => mret None
            end;
  model_available ← match context_policy self with
                    | Some l => Some <$> policy_int "model_available_input_tokens" l
                    | None => mret None
                    end;
  usage ← new_usage
    {| us_context_limit := context_limit; us_reserved_output := reserved_output;
       us_available_input := available_input;
       us_estimated_input_before := sum estimated all_categories;
       us_estimated_input_after := estimated_after;
       us_truncated := existsb (λ c, 0 <? truncated c) all_categories;
       us_dropped_exchange_count := Z.of_nat dropped;
       us_estimated_by_category := estimated;
       us_retained_by_category := retained_by_category selected tool_tokens request_overhead;
       us_truncated_by_category := truncated;
       us_context_policy_version := version; us_model_available_input := model_available |};
  memory ← _memory_admission raw projected selected payloads;
  let admitted := omap (λ n, pair (nm_category n) <$> nm_admitted_message n) selected in
  mret {| ar_messages := admitted.*2; ar_tool_definitions := tools; ar_usage := usage;
          ar_message_categories := admitted.*1; ar_memory_admission := memory |}.

(** [ContextBudgetPolicy.admit] *)
Definition admit_context (given : list Given) (categories : option (Metadata ContextCategory))
    (groups : option (Metadata (option (list N)))) (tools : list ModelToolDefinition) :
    fallible ContextAdmissionResult :=
  normalized ← _normalize_messages given categories groups;
  payloads ← _validate_memory_payloads normalized;
  _admit_normalized normalized tools payloads.
End Admission.
