(* ===== verification/ContextAdmissionTheory.v ===== *)
(** * Admission: estimates, pools and projected messages *)

From stdpp Require Import base gmap list strings sorting.
From Stdlib Require Import ZArith NArith Lia.
From S2P Require Import Prelude.
From S2P Require Import Json.
From S2P Require Import JsonTheory.
From S2P Require Import TurnTranscript.
From S2P Require Import ContextMetadata.
From S2P Require Import ModelProfiles.
From S2P Require Import ContextPolicy.
From S2P Require Import ContextPolicyTheory.
From S2P Require Import ContextPolicyProperties.
From S2P Require Import Outcome.
From S2P Require Import JsonProjection.
From S2P Require Import ContextBudget.
From S2P Require Import ContextMemory.
From S2P Require Import ContextAdmission.

Local Open Scope Z_scope.
Local Arguments lit : simpl never.

Lemma sublist_same_length {A} (l k : list A) : l `sublist_of` k → length l = length k → l = k.
Proof.
  induction 1 as [|x l k Hs IH|x l k Hs IH]; cbn; [done|intros; f_equal; auto|].
  apply sublist_length in Hs. lia.
Qed.

Lemma Forall2_in {A B} (P Q : A → B → Prop) l k :
  Forall2 P l k → (∀ x y, x ∈ l → P x y → Q x y) → Forall2 Q l k.
Proof. induction 1; intros HPQ; constructor; [apply HPQ; set_solver|set_solver]. Qed.

(** ** Sums *)

Lemma sum_app {A} (f : A → Z) l1 l2 : sum f (l1 ++ l2) = sum f l1 + sum f l2.
Proof. induction l1 as [|x l1 IH]; cbn; [done|]. rewrite IH. lia. Qed.

Lemma sum_ext {A} (f g : A → Z) l : (∀ x, x ∈ l → f x = g x) → sum f l = sum g l.
Proof.
  induction l as [|x l IH]; intros H; cbn; [done|]. rewrite H by set_solver.
  rewrite IH by set_solver. done.
Qed.

Lemma sum_nonneg {A} (f : A → Z) l : (∀ x, x ∈ l → 0 ≤ f x) → 0 ≤ sum f l.
Proof.
  induction l as [|x l IH]; intros H; cbn; [done|].
  assert (0 ≤ f x) by (apply H; set_solver). assert (0 ≤ sum f l) by (apply IH; set_solver). lia.
Qed.

#[global] Instance sum_proper {A} (f : A → Z) : Proper ((≡ₚ) ==> (=)) (sum f).
Proof. induction 1; cbn; try lia; congruence. Qed.

Lemma sum_submseteq {A} (f : A → Z) l k :
  l ⊆+ k → (∀ x, x ∈ k → 0 ≤ f x) → sum f l ≤ sum f k.
Proof.
  intros (r & Hr)%submseteq_Permutation H. rewrite Hr, sum_app.
  assert (0 ≤ sum f r); [|lia]. apply sum_nonneg. intros x Hx. apply H. rewrite Hr. set_solver.
Qed.

Lemma sum_filter {A} (P : A → Prop) `{∀ x, Decision (P x)} (f : A → Z) l :
  sum f (filter P l) = sum (λ x, plus_if (bool_decide (P x)) (f x)) l.
Proof.
  induction l as [|x l IH]; [done|]. rewrite filter_cons. cbn. case_decide; cbn; rewrite IH.
  - by rewrite bool_decide_true.
  - by rewrite bool_decide_false.
Qed.

Lemma sum_plus {A} (f g : A → Z) l : sum (λ x, f x + g x) l = sum f l + sum g l.
Proof. induction l as [|x l IH]; cbn; [done|]. rewrite IH. lia. Qed.

(** Every item counts in exactly one category. *)
Lemma sum_by_category (f : _NormalizedMessage → Z) l :
  sum (λ c, sum f (of_category c l)) all_categories = sum f l.
Proof.
  unfold of_category. induction l as [|x l IH]; [done|]. cbn [sum]. rewrite <- IH.
  erewrite (sum_ext _ (λ c, plus_if (bool_decide (nm_category x = c)) (f x)
                            + sum f (filter (λ n, nm_category n = c) l))).
  2: { intros c _. rewrite filter_cons. case_decide; cbn.
       - by rewrite bool_decide_true. - by rewrite bool_decide_false. }
  rewrite sum_plus. f_equal. destruct (nm_category x); cbv -[Z.add]; lia.
Qed.

(** ** The policy object *)

(** What a policy built by [new_policy] satisfies. *)
Definition policy_ready (p : ContextBudgetPolicy) : Prop :=
  match context_policy p with
  | None => True
  | Some l => ∃ request, resolve_context_policy request (chain_entry <$> profiles p)
                           (JInt (reserved_output_tokens (config p))) = Some (JObj l)
  end.

Lemma validate_inv value chain reserved p :
  validate_frozen_context_policy value chain reserved = Some p →
  ∃ request, resolve_context_policy request chain reserved = Some p.
Proof.
  unfold validate_frozen_context_policy. destruct value as [| | | | | |l]; try done.
  intros (? & _ & H)%bind_Some. apply bind_Some in H as (r & _ & H).
  apply bind_Some in H as (? & _ & H). apply bind_Some in H as (? & _ & H).
  apply bind_Some in H as (e & He & H). apply bind_Some in H as (? & _ & H).
  apply bind_Some in H as (? & _ & H). apply bind_Some in H as (? & _ & [= <-]). eauto.
Qed.

Lemma model_total_pos raw z percent tokens m t :
  model_ok raw z percent tokens m → rm_total_context_tokens m = Some t → 0 < t.
Proof.
  intros [(l & c & _ & _ & Hc & _ & Htot) _ _ _ _ _ _ _ _] Ht. rewrite <- Htot in Ht.
  unfold capabilities_from_mapping in Hc. destruct (field "capabilities" l); try done.
  destruct (negb _); [done|]. apply bind_Some in Hc as (mt & _ & Hc). apply bind_Some in Hc as (? & _ & Hc).
  unfold new_capabilities in Hc. cbn [max_context_tokens] in Hc. destruct (positive mt) eqn:Hp; [|done].
  apply bind_Some in Hc as (? & _ & [= <-]). cbn in Ht. subst mt. cbn in Hp. by breflect.
Qed.

Lemma resolved_ready request chain reserved p :
  resolve_context_policy request chain reserved = Some p →
  ∃ r m ms, p = JObj (policy_items r m ms) ∧
    0 < working_input_limit r m ms ≤ common_available_input m ms ∧ 0 < chain_output m ms
    ∧ ∀ t, min_total_context (m :: ms) = Some t → 0 < t.
Proof.
  intros (r & m & ms & z & Hok & _ & _ & Hz & _ & -> & Hmodels)%resolve_inv.
  exists r, m, ms. split_and!; [done|by eapply working_limit_pos|apply Z.le_min_l| |].
  - apply Forall2_cons_inv_r in Hmodels as (raw & raws & Hm & _ & _).
    pose proof (max_of_ge (rm_output_allowance m) (rm_output_allowance <$> ms) (rm_output_allowance m)
      ltac:(set_solver)) as Hge.
    unfold chain_output. rewrite (mo_allowance _ _ _ _ _ Hm) in Hge at 1. lia.
  - intros t. unfold min_total_context. destruct (mapM _ _) as [[|t0 ts]|] eqn:Hts; try done.
    intros [= <-]. apply mapM_Some_1 in Hts. pose proof (min_of_elem t0 ts) as [i Hi]%list_elem_of_lookup.
    destruct (Forall2_lookup_r _ _ _ _ _ Hts Hi) as (x & Hx & Ht).
    destruct (Forall2_lookup_r _ _ _ _ _ Hmodels Hx) as (raw & _ & Hm). by eapply model_total_pos.
Qed.

Lemma new_policy_ready runtime profiles supplied p :
  new_policy runtime profiles supplied = Return p → policy_ready p.
Proof.
  unfold new_policy. intros H.
  destruct (dict_get _ runtime) as [v|]; [|injection H as <-; exact I].
  assert (v = JNull ∨ ∃ c l,
    validate_frozen_context_policy v (chain_entry <$> profiles) (JInt (reserved_output_tokens c))
    = Some (JObj l) ∧
    p = {| config := c; context_policy := Some l; profiles := profiles |}) as [->|(c & l & Hv & ->)].
  { destruct v; [by left|..]; right; outcome_inv H;
      match type of H1 with (match ?o with _ => _ end) = _ => destruct o as [[| | | | | |pl]|] eqn:Hv end;
      try done; injection H1 as <-; eauto 10. }
  { injection H as <-. exact I. }
  exact (validate_inv _ _ _ _ Hv).
Qed.

(** ** Estimates *)

Section Estimates.
Context {estimator : TokenEstimator} (self : ContextBudgetPolicy) (Hready : policy_ready self).

Lemma overhead_returns key :
  key ∈ ["request_overhead_tokens"; "message_overhead_tokens"; "tool_overhead_tokens"]%string →
  ∃ z, _protocol_overhead self key = Return z ∧ 0 ≤ z.
Proof using Hready.
  intros Hk. unfold _protocol_overhead. unfold policy_ready in Hready.
  destruct (context_policy self) as [l|]; [|by exists 0].
  destruct Hready as (request & (r & m & ms & [= ->] & _)%resolved_ready).
  rewrite !elem_of_cons in Hk. destruct Hk as [->|[->|[->|[]%not_elem_of_nil]]];
    eexists; (split; [vm_compute; reflexivity|done]).
Qed.

Lemma overhead_nonneg key z :
  key ∈ ["request_overhead_tokens"; "message_overhead_tokens"; "tool_overhead_tokens"]%string →
  _protocol_overhead self key = Return z → 0 ≤ z.
Proof using Hready. intros Hk Hz. destruct (overhead_returns key Hk) as (z' & Hz' & ?). congruence. Qed.

Lemma estimate_text_nonneg s z : _estimate_text self s = Return z → 0 ≤ z.
Proof. unfold _estimate_text. intros H. outcome_inv H. lia. Qed.

Lemma estimate_optional_nonneg s z : estimate_optional self s = Return z → 0 ≤ z.
Proof. destruct s as [[|]|]; cbn; [by intros [= <-]|apply estimate_text_nonneg|by intros [= <-]]. Qed.

Lemma estimate_call_nonneg c z : estimate_call self c = Return z → 0 ≤ z.
Proof.
  unfold estimate_call. intros H. outcome_inv H.
  repeat match goal with H : _estimate_text _ _ = _ |- _ => apply estimate_text_nonneg in H
    | H : estimate_optional _ _ = _ |- _ => apply estimate_optional_nonneg in H end. lia.
Qed.

Lemma calls_nonneg cs ts :
  Forall2 (λ c t, estimate_call self c = Return t) cs ts → 0 ≤ foldr Z.add 0 ts.
Proof. induction 1 as [|c t cs ts Hc%estimate_call_nonneg _ IH]; cbn; lia. Qed.

Lemma estimate_message_nonneg m z : _estimate_message self m = Return z → 0 ≤ z.
Proof using Hready.
  unfold _estimate_message. intros H. outcome_inv H.
  repeat match goal with H : _estimate_text _ _ = _ |- _ => apply estimate_text_nonneg in H
    | H : estimate_optional _ _ = _ |- _ => apply estimate_optional_nonneg in H
    | H : _protocol_overhead _ _ = _ |- _ => apply overhead_nonneg in H; [|set_solver]
    | H : traverse _ _ = _ |- _ => apply traverse_Forall2 in H end.
  match goal with H : Forall2 _ _ _ |- _ => apply calls_nonneg in H end. lia.
Qed.

Lemma estimate_tool_nonneg t z : _estimate_tool self t = Return z → 0 ≤ z.
Proof using Hready.
  unfold _estimate_tool. intros H. outcome_inv H.
  repeat match goal with H : _estimate_text _ _ = _ |- _ => apply estimate_text_nonneg in H
    | H : _protocol_overhead _ _ = _ |- _ => apply overhead_nonneg in H; [|set_solver] end. lia.
Qed.
End Estimates.

(** ** Memory *)

Section Memory.
Context {estimator : TokenEstimator} (self : ContextBudgetPolicy).

Lemma memory_content_text n cs t :
  _json_dumps (memory_content n cs t) = Return (dump (memory_content n cs t)).
Proof.
  unfold _json_dumps. rewrite canonical_json_dump.
  assert (all_finite (memory_content n cs t) = true) as ->; [|done].
  unfold memory_content. cbn [all_finite]. rewrite !forallb_app, !andb_true_iff.
  split_and!; [by destruct n| |by destruct t]. cbn. rewrite andb_true_r.
  apply forallb_forall. intros x (c & <- & _)%in_map_iff. done.
Qed.

Lemma memory_projection_inv m p sel b t m' z :
  _memory_projection self m p sel b t = Return (m', z) →
  m' = with_content m (dump (memory_content (if b then note p else None) sel t)) ∧
  _estimate_message self m' = Return z.
Proof.
  unfold _memory_projection. intros H. apply obind_inv in H as (text & Ht & H). cbn beta in H.
  rewrite memory_content_text in Ht. injection Ht as <-.
  apply obind_inv in H as (a & Ha & H). by injection H as <- <-.
Qed.

Lemma drop_last_inv m p budget kept rejected kept' rejected' :
  drop_last self m p budget kept rejected = Return (kept', rejected') →
  ∃ given_up, kept = given_up ++ kept' ∧ rejected' = rejected ++ (mc_id <$> given_up).
Proof.
  revert rejected. induction kept as [|c kept IH]; intros rejected; cbn [drop_last].
  - intros [= <- <-]. exists []. split; [done|]. by rewrite app_nil_r.
  - intros H. apply obind_inv in H as ([m' z] & _ & H). cbn beta iota in H. destruct (z <=? budget).
    + injection H as <- <-. exists []. split; [done|]. by rewrite app_nil_r.
    + destruct (IH _ H) as (g & -> & ->). exists (c :: g). by rewrite <- app_assoc.
Qed.

(** The kept and rejected entries are the ones seen so far. *)
Definition memory_inv (seen : list _MemoryCandidate)
    (st : list _MemoryCandidate * list (list N)) : Prop :=
  reverse st.1 `sublist_of` seen ∧ (mc_id <$> st.1) ++ st.2 ≡ₚ mc_id <$> seen.

Lemma memory_step_inv m p budget g seen st c st' :
  memory_inv seen st → memory_step self m p budget g st c = Return st' → memory_inv (seen ++ [c]) st'.
Proof.
  destruct st as [kept rejected]. intros [Hs Hp] H. unfold memory_step in H. cbn [fst snd] in *.
  apply obind_inv in H as ([m' z] & _ & H). cbn beta iota in H. destruct (z <=? budget).
  - injection H as <-. split; cbn [fst snd].
    + rewrite reverse_cons. by apply sublist_app.
    + rewrite fmap_app, <- Hp. cbn. by rewrite <- Permutation_cons_append.
  - destruct st' as [kept' rejected']. apply drop_last_inv in H as (g' & -> & ->). split; cbn [fst snd].
    + rewrite reverse_app in Hs. apply sublist_inserts_r. etrans; [|exact Hs]. by apply sublist_inserts_r.
    + rewrite fmap_app, <- Hp, fmap_app. cbn. solve_Permutation.
Qed.

(** What fitting a memory message into a budget returns. *)
Record memory_fits (item : ContextMessage) (p : _MemoryPayload) (budget : Z) (f : MemoryFit) : Prop := {
  fits_message : ∀ m, mf_message f = Some m → ∃ sel noted t,
    sel `sublist_of` candidates p ∧ mf_admitted f = mc_id <$> sel ∧
    m = with_content (message item) (dump (memory_content (if noted : bool then note p else None) sel t)) ∧
    (t = false → sel = candidates p) ∧ t = mf_truncated f ∧
    _estimate_message self m = Return (mf_tokens f) ∧ mf_tokens f ≤ budget;
  fits_none : mf_message f = None → mf_tokens f = 0;
  fits_ids : mf_admitted f ++ mf_rejected f ≡ₚ mc_id <$> candidates p
}.

Lemma memory_fits_project item budget p g f :
  _project_memory_message self item budget p g = Return f → memory_fits item p budget f.
Proof.
  unfold _project_memory_message. destruct (budget <=? 0).
  { intros [= <-]. by split. }
  intros H. apply obind_inv in H as ([kept rejected] & Hf & H). cbn beta iota zeta in H.
  apply (fold_raise_inv _ memory_inv) in Hf as [Hsub Hperm]; [|by split|].
  2: { intros seen c st st' Hi _. by apply memory_step_inv. }
  cbn [fst snd] in *. apply obind_inv in H as ([m z] & Hm & H). cbn beta iota zeta in H.
  set (sel := reverse kept) in *.
  assert ((mc_id <$> sel) ++ rejected ≡ₚ mc_id <$> candidates p) as Hids.
  { rewrite <- Hperm. unfold sel. by rewrite reverse_Permutation. }
  destruct (budget <? z) eqn:Ez.
  { injection H as <-. split; cbn; [done|done|]. by rewrite <- Hids, Permutation_app_comm. }
  apply obind_inv in H as ([m' z'] & Hm' & H). cbn beta iota zeta in H.
  assert (∀ t, t = g || negb (bool_decide (rejected = [])) || payload_truncated p → t = false →
    sel = candidates p) as Hall.
  { intros t -> [[_ Hr]%orb_false_iff _]%orb_false_iff.
    apply negb_false_iff, bool_decide_eq_true in Hr. subst rejected. rewrite app_nil_r in Hids.
    apply sublist_same_length; [done|]. apply Permutation_length in Hids. by rewrite !length_fmap in Hids. }
  destruct (memory_projection_inv _ _ _ _ _ _ _ Hm) as [-> Hz].
  destruct (memory_projection_inv _ _ _ _ _ _ _ Hm') as [-> Hz'].
  destruct (z' <=? budget) eqn:Ez'; injection H as <-; breflect; split; cbn; try done;
    intros ? [= <-]; exists sel; [exists true|exists false]; eexists; split_and!; try done; try lia.
  all: by apply Hall.
Qed.
End Memory.

(** ** Pools *)

Section Pools.
Context {estimator : TokenEstimator} {reprojection : Reprojection} {json_text : JsonText}.
Context (self : ContextBudgetPolicy) (Hready : policy_ready self).
Context (payloads : gmap nat _MemoryPayload).

Lemma write_projection_inv m c v b m' z t :
  write_projection self m c v b = Return (Some (m', z, t)) →
  (∃ text, m' = with_content m text) ∧ _estimate_message self m' = Return z.
Proof.
  unfold write_projection. destruct (_project_json_value c v b) as [[w|] t0]; [|done]. intros H.
  apply obind_inv in H as (text & _ & H). apply obind_inv in H as (z' & Hz & [= <- <- <-]). eauto.
Qed.

Lemma project_message_inv item budget c m z :
  _project_message self item budget c = Return (Some (m, z)) →
  (∃ text, m = with_content (message item) text) ∧ _estimate_message self m = Return z ∧ z ≤ budget.
Proof.
  unfold _project_message. destruct (budget <=? 0); [done|]. intros H.
  apply obind_inv in H as (metadata & _ & H). cbn beta zeta in H. destruct (_ <=? 0); [done|].
  apply obind_inv in H as ([[[m1 z1] t1]|] & H1 & H); [|done]. cbn beta iota in H.
  destruct (_ && _); [done|]. destruct (budget <? z1) eqn:E.
  - apply obind_inv in H as ([[[m2 z2] t2]|] & H2 & H); [|done]. cbn beta iota in H.
    destruct (budget <? z2) eqn:E2; [done|]. injection H as <- <-. breflect.
    apply write_projection_inv in H2 as [? ?]. split_and!; [done|done|lia].
  - injection H as <- <-. breflect. apply write_projection_inv in H1 as [? ?]. split_and!; [done|done|lia].
Qed.

(** How a message of a pool relates to the original. *)
Record placed (n q : _NormalizedMessage) : Prop := {
  pl_item : nm_item q = nm_item n;
  pl_index : nm_index q = nm_index n;
  pl_raw : nm_raw_tokens q = nm_raw_tokens n;
  pl_measured : ∀ m, nm_admitted_message q = Some m →
    _estimate_message self m = Return (nm_admitted_tokens q);
  pl_none : nm_admitted_message q = None → nm_admitted_tokens q = 0;
  pl_text : ∀ m, nm_admitted_message q = Some m →
    m = message (nm_item n) ∨
    _PROJECTABLE_CATEGORIES (nm_category n) = true ∧ ∃ text, m = with_content (message (nm_item n)) text;
  pl_memory : nm_category n = MEMORY → ∃ p, payloads !! nm_index n = Some p ∧
    nm_memory_admitted_ids q ++ nm_memory_pool_dropped_ids q ≡ₚ mc_id <$> candidates p ∧
    ∀ m, nm_admitted_message q = Some m → ∃ sel noted,
      sel `sublist_of` candidates p ∧ nm_memory_admitted_ids q = mc_id <$> sel ∧
      m = with_content (message (nm_item n))
            (dump (memory_content (if noted : bool then note p else None) sel (nm_memory_truncated q))) ∧
      (nm_memory_truncated q = false → sel = candidates p)
}.

Lemma placed_nonneg n q : placed n q → 0 ≤ nm_admitted_tokens q.
Proof using Hready.
  intros [_ _ _ Hm Hn _ _]. destruct (nm_admitted_message q) as [m|].
  - specialize (Hm m eq_refl). by eapply estimate_message_nonneg.
  - by rewrite Hn.
Qed.

Definition pool_inv (pool : Z) (seen : list _NormalizedMessage) (st : PoolState) : Prop :=
  Forall2 placed seen (projected st) ∧
  sum nm_admitted_tokens (projected st) + remaining st = pool ∧
  (0 ≤ remaining st ∨ sum nm_admitted_tokens (projected st) = 0).

(** The message the pool gives room to. *)
Lemma pool_step_entry c st n st' :
  nm_category n = c → _PROJECTABLE_CATEGORIES c = true → pool_step self payloads c st n = Return st' →
  ∃ q, placed n q ∧ projected st' = projected st ++ [q] ∧
    remaining st' = remaining st - nm_admitted_tokens q ∧
    (nm_admitted_tokens q ≤ remaining st ∨ nm_admitted_tokens q = 0).
Proof.
  intros Hc Hp H. unfold pool_step in H. apply obind_inv in H as (fit & Hfit & [= <-]). cbn.
  match goal with |- context [replaced n ?f] => set (fit' := f) end.
  exists (replaced n fit'). split; [|split_and!; [done|done|]]; cycle 1.
  { unfold fit'. cbn. destruct (mf_message fit); [|by right]. destruct (_ <? _) eqn:E; [by right|].
    breflect. left. lia. }
  assert (mf_message fit' = None ∧ mf_tokens fit' = 0 ∨ fit' = fit) as Hcases.
  { unfold fit'. destruct (mf_message fit) eqn:E; [|by left]. destruct (_ <? _); [by left|by right]. }
  assert (mf_admitted fit' = mf_admitted fit ∧ mf_rejected fit' = mf_rejected fit
          ∧ mf_truncated fit' = mf_truncated fit) as (Ha & Hr & Ht).
  { unfold fit'. destruct (mf_message fit); [destruct (_ <? _)|]; done. }
  clearbody fit'. case_bool_decide as Hmem.
  - apply obind_inv in Hfit as (p & Hpl & Hfit). apply or_raise_inv in Hpl.
    apply memory_fits_project in Hfit as [Hmsg Hnone Hids].
    split; cbn; try done.
    + intros m Hm. destruct Hcases as [[? _]| ->]; [congruence|].
      by destruct (Hmsg m Hm) as (sel & noted & t & _ & _ & _ & _ & _ & ? & _).
    + destruct Hcases as [[_ ?]| ->]; auto.
    + intros m Hm. destruct Hcases as [[? _]| ->]; [congruence|]. right. rewrite Hc. split; [done|].
      destruct (Hmsg m Hm) as (sel & noted & t & _ & _ & -> & _). by eexists.
    + intros _. exists p. rewrite Ha, Hr. split_and!; [done..|]. intros m Hm.
      destruct Hcases as [[? _]| ->]; [congruence|].
      destruct (Hmsg m Hm) as (sel & noted & t & ? & ? & -> & ? & -> & _). exists sel, noted. done.
  - apply ofmap_inv in Hfit as (r & Hfit & ->).
    split; cbn; try done.
    + intros m Hm. destruct Hcases as [[? _]| ->]; [congruence|]. destruct r as [[m' z]|]; [|done].
      injection Hm as <-. by apply project_message_inv in Hfit as (_ & ? & _).
    + intros Hm. destruct Hcases as [[_ ?]| ->]; [done|]. by destruct r as [[m' z]|].
    + intros m Hm. destruct Hcases as [[? _]| ->]; [congruence|]. destruct r as [[m' z]|]; [|done].
      injection Hm as <-. apply project_message_inv in Hfit as (? & _ & _). right. rewrite Hc. done.
    + intros Hm. congruence.
Qed.

Lemma pool_step_inv c pool seen st n st' :
  nm_category n = c → _PROJECTABLE_CATEGORIES c = true → pool_inv pool seen st →
  pool_step self payloads c st n = Return st' → pool_inv pool (seen ++ [n]) st'.
Proof using Hready.
  intros Hc Hp (HF & Hsum & Hrem) H. destruct (pool_step_entry _ _ _ _ Hc Hp H) as (q & Hq & E1 & E2 & Hle).
  pose proof (placed_nonneg _ _ Hq). unfold pool_inv. rewrite E1, E2, sum_app. cbn [sum].
  split_and!; [apply Forall2_app; [done|by constructor]|lia|lia].
Qed.

Lemma project_pool_inv c pool items st :
  _PROJECTABLE_CATEGORIES c = true → project_pool self payloads c pool items = Return st →
  ∃ ordered, ordered ≡ₚ of_category c items ∧ pool_inv pool ordered st.
Proof using Hready.
  intros Hp H. unfold project_pool in H.
  set (ordered := match c with TOOL_RESULT | RAG_EVIDENCE => reverse (of_category c items)
                  | _ => of_category c items end).
  assert (ordered ≡ₚ of_category c items) as Hperm.
  { unfold ordered. destruct c; try done; by rewrite reverse_Permutation. }
  exists ordered. split; [done|]. fold ordered in H. revert H.
  apply (fold_raise_inv _ (pool_inv pool)); [split_and!; cbn; [done|lia|by right]|].
  intros seen n st1 st2 Hi Hn. eapply pool_step_inv; [|done|done].
  rewrite Hperm in Hn. by apply list_elem_of_filter in Hn as [? _].
Qed.

(** The pools are respected by what is admitted. *)
Definition category_tokens (c : ContextCategory) (l : list _NormalizedMessage) : Z :=
  sum nm_admitted_tokens (of_category c l).
Definition pools_respected (cfg : ContextBudgetConfig) (l : list _NormalizedMessage) : Prop :=
  category_tokens TOOL_RESULT l ≤ Z.max 0 (max_tool_result_tokens cfg) ∧
  category_tokens RAG_EVIDENCE l ≤ Z.max 0 (max_retrieval_tokens cfg) ∧
  match max_memory_tokens cfg with
  | None => category_tokens MEMORY l + category_tokens RAG_EVIDENCE l ≤ Z.max 0 (max_retrieval_tokens cfg)
  | Some k => category_tokens MEMORY l ≤ Z.max 0 k
  end.

Lemma placed_category n q : placed n q → nm_category q = nm_category n.
Proof. intros [Hi _ _ _ _ _ _]. unfold nm_category. by rewrite Hi. Qed.

(** The members of a pool are the projected messages of its category. *)
Lemma pool_member c ordered items ps q :
  ordered ≡ₚ of_category c items → Forall2 placed ordered ps → q ∈ ps →
  ∃ n, n ∈ items ∧ nm_category n = c ∧ placed n q.
Proof.
  intros Hperm HF [i Hi]%list_elem_of_lookup.
  destruct (Forall2_lookup_r _ _ _ _ _ HF Hi) as (n & Hn & Hpl).
  apply list_elem_of_lookup_2 in Hn. rewrite Hperm in Hn. apply list_elem_of_filter in Hn as [? ?]. eauto.
Qed.

Definition measured_raw (n : _NormalizedMessage) : Prop :=
  _estimate_message self (message (nm_item n)) = Return (nm_raw_tokens n).

Lemma unchanged_placed n :
  measured_raw n → _PROJECTABLE_CATEGORIES (nm_category n) = false → placed n (unchanged n).
Proof.
  intros Hm Hp. split; cbn; try done.
  - by intros m [= <-].
  - intros m [= <-]. by left.
  - intros Hc. by rewrite Hc in Hp.
Qed.

Lemma find_in_pool {A} (f : A → nat) i (l : list A) q :
  find (λ x, (f x =? i)%nat) l = Some q → q ∈ l ∧ f q = i.
Proof. intros [Hin Hb]%find_some. split; [by apply list_elem_of_In|by apply Nat.eqb_eq]. Qed.

Lemma index_inj {A} (f : A → nat) (l : list A) x y :
  NoDup (f <$> l) → x ∈ l → y ∈ l → f x = f y → x = y.
Proof.
  intros Hnd [i Hi]%list_elem_of_lookup [j Hj]%list_elem_of_lookup E.
  assert (i = j) as ->; [|congruence].
  eapply NoDup_lookup; [exact Hnd| |]; rewrite list_lookup_fmap, ?Hi, ?Hj; cbn; [done|by rewrite E].
Qed.

Lemma Forall2_placed_index l k : Forall2 placed l k → nm_index <$> k = nm_index <$> l.
Proof. induction 1 as [|n q l k [_ Hi _ _ _ _ _] _ IH]; cbn; congruence. Qed.

Lemma pool_covers c items ordered ps res :
  Forall2 placed ordered ps → NoDup (nm_index <$> items) → Forall2 placed items res →
  (∀ q, q ∈ res → nm_category q = c → q ∈ ps) → category_tokens c res ≤ sum nm_admitted_tokens ps.
Proof using Hready.
  intros HF Hnd Hpl Hin. apply sum_submseteq.
  - apply NoDup_submseteq; [|intros q [Hc Hq]%list_elem_of_filter; auto].
    apply NoDup_filter, (NoDup_fmap_1 nm_index). by rewrite (Forall2_placed_index _ _ Hpl).
  - intros q [i Hi]%list_elem_of_lookup. destruct (Forall2_lookup_r _ _ _ _ _ HF Hi) as (n & _ & Hq).
    by eapply placed_nonneg.
Qed.

(** Every message keeps its place; only evidence, results and memory change. *)
Lemma project_optional_placed items res :
  NoDup (nm_index <$> items) → Forall measured_raw items →
  _project_optional_items self items payloads = Return res →
  Forall2 placed items res ∧
  Forall2 (λ n q, _PROJECTABLE_CATEGORIES (nm_category n) = false → q = unchanged n) items res ∧
  pools_respected (config self) res.
Proof using Hready.
  intros Hnd Hraw H. unfold _project_optional_items in H.
  apply obind_inv in H as (mem & Hmem & H). apply obind_inv in H as (rag & Hrag & H).
  apply obind_inv in H as (tool & Htool & H). cbn zeta beta in H.
  apply project_pool_inv in Hmem as (om & Pm & Fm & Sm & Rm); [|done].
  apply project_pool_inv in Hrag as (og & Pg & Fg & Sg & Rg); [|done].
  apply project_pool_inv in Htool as (ot & Pt & Ft & St & Rt); [|done].
  apply traverse_Forall2 in H.
  set (all := projected mem ++ projected rag ++ projected tool) in *.
  assert (∀ q, q ∈ all → ∃ n, n ∈ items ∧ placed n q ∧
    (q ∈ projected mem ∧ nm_category n = MEMORY ∨ q ∈ projected rag ∧ nm_category n = RAG_EVIDENCE ∨
     q ∈ projected tool ∧ nm_category n = TOOL_RESULT)) as Hall.
  { intros q. unfold all. rewrite !elem_of_app. intros [Hq|[Hq|Hq]];
      [edestruct pool_member as (n & ? & ? & ?); [exact Pm|exact Fm|exact Hq|]
      |edestruct pool_member as (n & ? & ? & ?); [exact Pg|exact Fg|exact Hq|]
      |edestruct pool_member as (n & ? & ? & ?); [exact Pt|exact Ft|exact Hq|]]; exists n; tauto. }
  assert (Forall2 (λ n q, placed n q ∧ (_PROJECTABLE_CATEGORIES (nm_category n) = false → q = unchanged n)
    ∧ (_PROJECTABLE_CATEGORIES (nm_category n) = true → q ∈ all)) items res) as Hres.
  { eapply Forall2_in; [exact H|]. intros n q Hn Hq. cbn beta in Hq. rewrite Forall_forall in Hraw.
    destruct (_PROJECTABLE_CATEGORIES (nm_category n)) eqn:Hp.
    - apply or_raise_inv, find_in_pool in Hq as [Hq Hi]. split_and!; [|done..].
      destruct (Hall q Hq) as (n' & Hn' & Hpl & _).
      assert (n = n') as <-; [|done]. apply (index_inj nm_index items); try done.
      rewrite <- Hi. apply Hpl.
    - injection Hq as <-. split_and!; [|done..]. apply unchanged_placed; auto. }
  clear H. split_and!.
  { eapply Forall2_impl; [exact Hres|]. naive_solver. }
  { eapply Forall2_impl; [exact Hres|]. naive_solver. }
  assert (Forall2 placed items res) as Hpl by (eapply Forall2_impl; [exact Hres|naive_solver]).
  assert (∀ c ps ordered, ordered ≡ₚ of_category c items → Forall2 placed ordered ps →
    (∀ q, q ∈ all → nm_category q = c → q ∈ ps) → _PROJECTABLE_CATEGORIES c = true →
    category_tokens c res ≤ sum nm_admitted_tokens ps) as Hsub.
  { intros c ps ordered Ho HF Hin Hp. eapply pool_covers; [exact HF|exact Hnd|exact Hpl|].
    intros q [i Hi]%list_elem_of_lookup Hc. apply Hin; [|done].
    destruct (Forall2_lookup_r _ _ _ _ _ Hres Hi) as (n & _ & Hq & _ & Hq'). apply Hq'.
    by rewrite <- (placed_category _ _ Hq), Hc. }
  assert (∀ q, q ∈ all → (nm_category q = MEMORY → q ∈ projected mem) ∧
    (nm_category q = RAG_EVIDENCE → q ∈ projected rag) ∧ (nm_category q = TOOL_RESULT → q ∈ projected tool)) as Hcat.
  { intros q Hq. destruct (Hall q Hq) as (n & _ & Hq'%placed_category & Hor). rewrite Hq'.
    destruct Hor as [[? ->]|[[? ->]|[? ->]]]; done. }
  pose proof (Hsub MEMORY _ _ Pm Fm (λ q Hq, proj1 (Hcat q Hq)) eq_refl).
  pose proof (Hsub RAG_EVIDENCE _ _ Pg Fg (λ q Hq, proj1 (proj2 (Hcat q Hq))) eq_refl).
  pose proof (Hsub TOOL_RESULT _ _ Pt Ft (λ q Hq, proj2 (proj2 (Hcat q Hq))) eq_refl).
  assert (0 ≤ sum nm_admitted_tokens (projected mem)).
  { apply sum_nonneg. intros q [i Hi]%list_elem_of_lookup.
    destruct (Forall2_lookup_r _ _ _ _ _ Fm Hi) as (n & _ & Hq). by eapply placed_nonneg. }
  unfold pools_respected. destruct (max_memory_tokens (config self)); cbn in *; lia.
Qed.
End Pools.
