(* ===== verification/ContextSelection.v ===== *)
(** * Choice of exchanges: grouping, dropping and accounting *)

From stdpp Require Import base gmap list strings sorting.
From Stdlib Require Import ZArith NArith Lia.
From S2P Require Import Prelude.
From S2P Require Import Json.
From S2P Require Import JsonTheory.
From S2P Require Import TurnTranscript.
From S2P Require Import ContextMetadata.
From S2P Require Import ModelProfiles.
From S2P Require Import ContextPolicy.
From S2P Require Import ContextPolicyTheory.
From S2P Require Import ContextPolicyProperties.
From S2P Require Import Outcome.
From S2P Require Import JsonProjection.
From S2P Require Import ContextBudget.
From S2P Require Import ContextMemory.
From S2P Require Import ContextAdmission.
From S2P Require Import ContextAdmissionTheory.

Local Open Scope Z_scope.

(** ** Grouping *)

(** An exchange holds the messages of its group, in order. *)
Record exchange_of (opt : list _NormalizedMessage) (e : Exchange) : Prop := {
  eo_items : ex_items e = filter (λ n, nm_group n = ex_group e) opt;
  eo_first : ∃ n, head (ex_items e) = Some n ∧ ex_first e = nm_index n
}.
Record grouped (opt : list _NormalizedMessage) (es : list Exchange) : Prop := {
  gr_nodup : NoDup (ex_group <$> es);
  gr_each : Forall (exchange_of opt) es;
  gr_cover : ∀ n, n ∈ opt → nm_group n ∈ ex_group <$> es
}.

Lemma add_to_group_groups es n :
  ex_group <$> add_to_group es n
  = if decide (nm_group n ∈ ex_group <$> es) then ex_group <$> es
    else (ex_group <$> es) ++ [nm_group n].
Proof.
  induction es as [|e es IH]; cbn [add_to_group].
  - cbn. rewrite decide_False; [done|]. apply not_elem_of_nil.
  - case_bool_decide as E; cbn.
    + rewrite decide_True by (rewrite E; set_solver). done.
    + rewrite IH. repeat case_decide; set_solver.
Qed.

Lemma add_to_group_each opt es n :
  Forall (exchange_of opt) es →
  (nm_group n ∉ ex_group <$> es → filter (λ x, nm_group x = nm_group n) opt = []) →
  NoDup (ex_group <$> es) → Forall (exchange_of (opt ++ [n])) (add_to_group es n).
Proof.
  induction es as [|e es IH]; intros HF Hnew Hnd; cbn [add_to_group].
  - constructor; [|done]. split; cbn; [|by exists n].
    rewrite filter_app, Hnew, filter_cons_True by (done || apply not_elem_of_nil). done.
  - apply Forall_cons in HF as [[Hi (h & Hh & Hf)] HF].
    rewrite fmap_cons in Hnd. apply NoDup_cons in Hnd as [Hne Hnd].
    assert (∀ e', ex_group e' ≠ nm_group n → exchange_of opt e' → exchange_of (opt ++ [n]) e') as Hkeep.
    { intros e' He' [Hi' Hh']. split; [|done]. rewrite filter_app, filter_cons_False by congruence.
      by rewrite filter_nil, app_nil_r. }
    case_bool_decide as E.
    + constructor.
      * split; cbn.
        -- rewrite Hi, filter_app, filter_cons_True by done. done.
        -- exists h. destruct (ex_items e); [done|]. done.
      * rewrite Forall_forall in *. intros e' He'. apply Hkeep; [|auto].
        intros E'. apply Hne. rewrite E, <- E'. by apply list_elem_of_fmap_2.
    + constructor; [apply Hkeep; [done|]; split; [done|eauto]|]. apply IH; [done| |done].
      intros Hn. apply Hnew. cbn. rewrite not_elem_of_cons. done.
Qed.

Lemma add_to_group_grouped opt es n : grouped opt es → grouped (opt ++ [n]) (add_to_group es n).
Proof.
  intros [Hnd Heach Hcov]. split.
  - rewrite add_to_group_groups. case_decide; [done|]. apply NoDup_app. split_and!; [done| |].
    + intros x Hx ->%list_elem_of_singleton. done.
    + apply NoDup_singleton.
  - apply add_to_group_each; [done| |done]. intros Hn.
    destruct (filter _ opt) as [|x r] eqn:Ef; [done|exfalso].
    assert (x ∈ filter (λ x, nm_group x = nm_group n) opt) as [E Hx]%list_elem_of_filter by (rewrite Ef; set_solver).
    apply Hn. rewrite <- E. by apply Hcov.
  - intros x. rewrite add_to_group_groups. rewrite elem_of_app, list_elem_of_singleton.
    intros [Hx| ->]; case_decide; rewrite ?elem_of_app;
      [by apply Hcov|left; by apply Hcov|done|right; by apply list_elem_of_singleton].
Qed.

Lemma exchanges_grouped items :
  grouped (filter (λ n, mandatory n = false) items) (exchanges items).
Proof.
  unfold exchanges. generalize (filter (λ n, mandatory n = false) items) as opt. intros opt.
  enough (∀ seen es, grouped seen es → grouped (seen ++ opt) (fold_left add_to_group opt es)) as H.
  { apply (H []). split; [constructor|constructor|]. intros n []%not_elem_of_nil. }
  induction opt as [|n opt IH]; intros seen es Hg; cbn [fold_left]; [by rewrite app_nil_r|].
  replace (seen ++ n :: opt) with ((seen ++ [n]) ++ opt) by (by rewrite <- app_assoc).
  by apply IH, add_to_group_grouped.
Qed.

(** The tokens of the chosen groups are those of their messages. *)
Lemma add_to_group_sum (P : list N + nat → bool) es n :
  sum (λ e, plus_if (P (ex_group e)) (ex_tokens e)) (add_to_group es n)
  = sum (λ e, plus_if (P (ex_group e)) (ex_tokens e)) es
    + plus_if (P (nm_group n)) (nm_admitted_tokens n).
Proof.
  induction es as [|e es IH]; cbn [add_to_group sum].
  - unfold ex_tokens. cbn. destruct (P (nm_group n)); cbn; lia.
  - case_bool_decide as E; cbn [sum ex_group]; [|rewrite IH; lia].
    unfold ex_tokens at 1. cbn [ex_items]. rewrite sum_app. cbn [sum]. rewrite E.
    unfold ex_tokens. destruct (P (nm_group n)); cbn; lia.
Qed.

Lemma exchanges_sum (P : list N + nat → bool) items :
  sum (λ e, plus_if (P (ex_group e)) (ex_tokens e)) (exchanges items)
  = sum (λ n, plus_if (P (nm_group n)) (nm_admitted_tokens n))
      (filter (λ n, mandatory n = false) items).
Proof.
  unfold exchanges. generalize (filter (λ n, mandatory n = false) items) as opt. intros opt.
  enough (∀ es, sum (λ e, plus_if (P (ex_group e)) (ex_tokens e)) (fold_left add_to_group opt es)
    = sum (λ e, plus_if (P (ex_group e)) (ex_tokens e)) es
      + sum (λ n, plus_if (P (nm_group n)) (nm_admitted_tokens n)) opt) as H by apply (H []).
  induction opt as [|n opt IH]; intros es; cbn [fold_left sum]; [lia|].
  rewrite IH, add_to_group_sum. lia.
Qed.

(** ** Oldest and newest *)

Lemma best_of (better : Exchange → Exchange → bool) es :
  (∀ a b c, better a b = false → better b c = false → better a c = false) →
  (∀ a b, better a b = true → better b a = false) →
  ∀ b0, ∃ b, fold_left (λ best e, match best with
    | Some b => if better e b then Some e else Some b | None => Some e end) es (Some b0) = Some b ∧
    (b = b0 ∨ b ∈ es) ∧ better b0 b = false ∧ ∀ e, e ∈ es → better e b = false.
Proof.
  intros Htr Hasym. assert (∀ a, better a a = false) as Hirr.
  { intros a. destruct (better a a) eqn:E; [|done]. rewrite (Hasym _ _ E) in E. done. }
  induction es as [|x es IH]; intros b0; cbn [fold_left].
  - exists b0. split_and!; [done|by left|done|]. intros e []%not_elem_of_nil.
  - destruct (better x b0) eqn:E.
    + destruct (IH x) as (b & -> & Hb & Hxb & Hall). exists b. split_and!; [done|set_solver| |set_solver].
      eapply Htr; [apply Hasym; exact E|done].
    + destruct (IH b0) as (b & -> & Hb & Hxb & Hall). exists b. split_and!; [done|set_solver|done|].
      intros e [->|He]%elem_of_cons; [|auto]. by eapply Htr.
Qed.

Lemma newest_of_inv es : match newest_of es with
  | Some b => b ∈ es ∧ ∀ e, e ∈ es → (ex_first e ≤ ex_first b)%nat
  | None => es = []
  end.
Proof.
  unfold newest_of. destruct es as [|x es]; [done|]. cbn [fold_left].
  destruct (best_of (λ e b, (ex_first b <? ex_first e)%nat) es) with (b0 := x)
    as (b & -> & Hb & Hx & Hall); [intros ? ? ?; rewrite !Nat.ltb_ge; lia|
      intros ? ?; rewrite Nat.ltb_lt, Nat.ltb_ge; lia|].
  split; [set_solver|]. intros e [->|He]%elem_of_cons; [by apply Nat.ltb_ge|]. by apply Nat.ltb_ge, Hall.
Qed.

Lemma oldest_of_inv es : match oldest_of es with
  | Some b => b ∈ es ∧ ∀ e, e ∈ es → (ex_first b ≤ ex_first e)%nat
  | None => es = []
  end.
Proof.
  unfold oldest_of. destruct es as [|x es]; [done|]. cbn [fold_left].
  destruct (best_of (λ e b, (ex_first e <? ex_first b)%nat) es) with (b0 := x)
    as (b & -> & Hb & Hx & Hall); [intros ? ? ?; rewrite !Nat.ltb_ge; lia|
      intros ? ?; rewrite Nat.ltb_lt, Nat.ltb_ge; lia|].
  split; [set_solver|]. intros e [->|He]%elem_of_cons; [by apply Nat.ltb_ge|]. by apply Nat.ltb_ge, Hall.
Qed.

(** ** Giving up old exchanges *)

Lemma filter_keeps {A} (P : A → Prop) `{∀ x, Decision (P x)} (l : list A) :
  (∀ x, x ∈ l → P x) → filter P l = l.
Proof.
  induction l as [|x l IH]; intros HP; [done|].
  rewrite filter_cons_True by (apply HP; set_solver). f_equal. apply IH. set_solver.
Qed.

Lemma filter_one_out es o :
  NoDup (ex_group <$> es) → o ∈ es → es ≡ₚ o :: filter (λ e, ex_group e ≠ ex_group o) es.
Proof.
  induction es as [|e es IH]; intros Hnd Ho; [by apply not_elem_of_nil in Ho|].
  rewrite fmap_cons in Hnd. apply NoDup_cons in Hnd as [Hne Hnd].
  apply elem_of_cons in Ho as [<-|Ho].
  - rewrite filter_cons_False by (intros H; by apply H). f_equiv. apply Permutation_refl'. symmetry.
    apply filter_keeps. intros e' He' E. apply Hne. rewrite <- E. by apply list_elem_of_fmap_2.
  - rewrite filter_cons_True by (intros E; apply Hne; rewrite E; by apply list_elem_of_fmap_2).
    rewrite (IH Hnd Ho) at 1. apply Permutation_swap.
Qed.

(** What is kept of [es]: a newest part of it that fits. *)
Record newest_part (budget : Z) (es kept : list Exchange) (tokens : Z) : Prop := {
  np_sub : kept `sublist_of` es;
  np_tokens : tokens = sum ex_tokens kept;
  np_fits : kept = [] ∨ tokens ≤ budget;
  np_newest : ∀ e e', e ∈ kept → e' ∈ es → (ex_first e < ex_first e')%nat → e' ∈ kept;
  np_keeps : ∀ b, b ∈ es → (∀ e, e ∈ es → (ex_first e ≤ ex_first b)%nat) → ex_tokens b ≤ budget → b ∈ kept
}.

Lemma drop_oldest_spec fuel budget es tokens kept tokens' :
  NoDup (ex_group <$> es) → NoDup (ex_first <$> es) → tokens = sum ex_tokens es →
  (length es ≤ fuel)%nat → drop_oldest fuel budget es tokens = (kept, tokens') →
  newest_part budget es kept tokens'.
Proof.
  revert es tokens. induction fuel as [|fuel IH]; intros es tokens Hg Hf -> Hlen; cbn [drop_oldest].
  { destruct es; [|cbn in Hlen; lia]. intros [= <- <-]. split; [done|done|by left|done|done]. }
  destruct (budget <? _) eqn:E; cycle 1.
  { intros [= <- <-]. breflect. split; try done. right. lia. }
  breflect. pose proof (oldest_of_inv es) as Ho. destruct (oldest_of es) as [o|]; cycle 1.
  { subst es. intros [= <- <-]. split; [done|done|by left|done|done]. }
  destruct Ho as [Ho Hmin]. set (rest := filter (λ e, ex_group e ≠ ex_group o) es).
  assert (es ≡ₚ o :: rest) as Hperm by (by apply filter_one_out).
  intros Hd. destruct (IH rest (sum ex_tokens es - ex_tokens o)) as [Hs Ht Hfit Hn Hk]; try done.
  { eapply sublist_NoDup; [exact Hg|]. apply fmap_sublist, sublist_filter. }
  { eapply sublist_NoDup; [exact Hf|]. apply fmap_sublist, sublist_filter. }
  { rewrite Hperm. cbn. lia. }
  { apply Permutation_length in Hperm. cbn in Hperm. lia. }
  assert (∀ e, e ∈ es → e = o ∨ e ∈ rest) as Hcase.
  { intros e. rewrite Hperm. by rewrite elem_of_cons. }
  split; try done.
  - etrans; [exact Hs|]. apply sublist_filter.
  - intros e e' He He' Hlt. destruct (Hcase e' He') as [->|Hr]; [|by eapply Hn].
    assert (e ∈ es) as Hin%Hmin by (eapply elem_of_submseteq; [exact He|];
      apply sublist_submseteq; etrans; [exact Hs|apply sublist_filter]). lia.
  - intros b Hb Hmax Hle. destruct (Hcase b Hb) as [->|Hr].
    + exfalso. assert (rest = []) as Hnil.
      { destruct rest as [|e r] eqn:Er; [done|]. exfalso.
        assert (e ∈ es) as He by (rewrite Hperm; set_solver).
        assert (ex_first e = ex_first o) as Heq by (specialize (Hmin e He); specialize (Hmax e He); lia).
        assert (e = o) as -> by (by apply (index_inj ex_first es)).
        rewrite Hperm in Hg. rewrite fmap_cons, NoDup_cons in Hg. destruct Hg as [Hg _].
        apply Hg. cbn. set_solver. }
      rewrite Hperm, Hnil in E. cbn in E. lia.
    + apply Hk; [done| |done]. intros e He. apply Hmax. rewrite Hperm. set_solver.
Qed.

(** ** The whole choice *)

Lemma exchange_head items e :
  e ∈ exchanges items → ∃ n, n ∈ items ∧ mandatory n = false ∧ nm_group n = ex_group e ∧
    ex_first e = nm_index n.
Proof.
  intros He. destruct (exchanges_grouped items) as [_ Heach _]. rewrite Forall_forall in Heach.
  destruct (Heach e He) as [Hi (n & Hn & Hf)]. rewrite Hi in Hn. apply head_Some_elem_of in Hn.
  apply list_elem_of_filter in Hn as [Hg Hn]. apply list_elem_of_filter in Hn as [Hm Hn]. eauto.
Qed.

Lemma exchanges_first_nodup items :
  NoDup (nm_index <$> items) → NoDup (ex_first <$> exchanges items).
Proof.
  intros Hnd. pose proof (gr_nodup _ _ (exchanges_grouped items)) as Hg.
  apply NoDup_fmap_2_strong; [|by apply NoDup_fmap_1 in Hg].
  intros a b Ha Hb E. destruct (exchange_head _ _ Ha) as (n & Hn & _ & Hna & Hfa).
  destruct (exchange_head _ _ Hb) as (n' & Hn' & _ & Hnb & Hfb).
  assert (n = n') as <- by (apply (index_inj nm_index items); congruence).
  assert (ex_group a = ex_group b) as Eg by congruence.
  clear E. revert Ha Hb. generalize dependent (exchanges items). intros es Hg Ha Hb.
  apply list_elem_of_lookup in Ha as [i Hi], Hb as [j Hj].
  assert (i = j) as ->; [|congruence].
  eapply NoDup_lookup; [exact Hg| |]; rewrite list_lookup_fmap, ?Hi, ?Hj; cbn; [done|by rewrite Eg].
Qed.

Definition chosen_tokens (chosen : list (list N + nat)) (e : Exchange) : Z :=
  plus_if (bool_decide (ex_group e ∈ chosen)) (ex_tokens e).

Lemma sum_choose es chosen e :
  NoDup (ex_group <$> es) → e ∈ es → ex_group e ∉ chosen →
  sum (chosen_tokens (ex_group e :: chosen)) es = sum (chosen_tokens chosen) es + ex_tokens e.
Proof.
  intros Hnd He Hne. rewrite (filter_one_out es e Hnd He). cbn [sum].
  rewrite (sum_ext (chosen_tokens (ex_group e :: chosen)) (chosen_tokens chosen)).
  - unfold chosen_tokens at 1 3. rewrite bool_decide_true by set_solver.
    rewrite bool_decide_false by done. cbn. lia.
  - intros x [Hx _]%list_elem_of_filter. unfold chosen_tokens. f_equal.
    apply bool_decide_ext. rewrite elem_of_cons. naive_solver.
Qed.

(** The state of the loop over standalone groups. *)
Record standalone_inv (budget : Z) (es kept seen : list Exchange)
    (st : list (list N + nat) * Z) : Prop := {
  si_sum : sum (chosen_tokens st.1) es + st.2 = budget;
  si_left : 0 ≤ st.2;
  si_kept : ∀ e, e ∈ kept → ex_group e ∈ st.1;
  si_only : ∀ g, g ∈ st.1 → g ∈ ex_group <$> kept ∨
    ∃ e, e ∈ seen ∧ ex_group e = g ∧ has_conversation e = false ∧ admissible e = true
}.

Lemma standalone_step_inv budget es kept seen e st :
  NoDup (ex_group <$> es) → e ∈ es → e ∉ seen → seen ⊆ es →
  (∀ k, k ∈ kept → k ∈ es ∧ has_conversation k = true) →
  standalone_inv budget es kept seen st →
  standalone_inv budget es kept (seen ++ [e]) (standalone_step st e).
Proof.
  intros Hnd He Hfresh Hseen Hkept [Hs Hl Hk Ho]. destruct st as [chosen rem]. cbn [fst snd] in *.
  assert (standalone_inv budget es kept (seen ++ [e]) (chosen, rem)) as Hstay.
  { split; cbn; try done. intros g Hg. destruct (Ho g Hg) as [?|(x & Hx & ?)]; [by left|].
    right. exists x. set_solver. }
  unfold standalone_step. destruct (has_conversation e) eqn:Ec; cbn [orb]; [done|].
  destruct (admissible e) eqn:Ea; cbn [negb]; [|done]. destruct (_ <=? rem) eqn:E; [|done]. breflect.
  assert (∀ x, x ∈ es → ex_group x = ex_group e → x = e) as Hinj.
  { intros x [i Hi]%list_elem_of_lookup Eg. apply list_elem_of_lookup in He as [j Hj].
    assert (i = j) as ->; [|congruence].
    eapply NoDup_lookup; [exact Hnd| |]; rewrite list_lookup_fmap, ?Hi, ?Hj; cbn; [done|by rewrite Eg]. }
  assert (ex_group e ∉ chosen) as Hne.
  { intros Hin. destruct (Ho _ Hin) as [(k & Hk' & Hin')%list_elem_of_fmap|(x & Hx & Hg & _)].
    - destruct (Hkept k Hin') as [Hke Hkc]. rewrite (Hinj k Hke) in Hkc by congruence. congruence.
    - apply Hfresh. by rewrite <- (Hinj x) by auto. }
  split; cbn [fst snd].
  - rewrite sum_choose by done. lia.
  - lia.
  - intros x Hx. set_solver.
  - intros g [->|Hg]%elem_of_cons; [right; exists e; set_solver|].
    destruct (Ho g Hg) as [?|(x & Hx & ?)]; [by left|right; exists x; set_solver].
Qed.

Lemma standalone_fold_inv budget es kept rest seen st :
  NoDup (ex_group <$> es) → seen ++ rest ≡ₚ es →
  (∀ k, k ∈ kept → k ∈ es ∧ has_conversation k = true) →
  standalone_inv budget es kept seen st →
  standalone_inv budget es kept (seen ++ rest) (fold_left standalone_step rest st).
Proof.
  intros Hnd Hp Hkept. revert seen st Hp.
  induction rest as [|e rest IH]; intros seen st Hp Hi; cbn [fold_left]; [by rewrite app_nil_r|].
  replace (seen ++ e :: rest) with ((seen ++ [e]) ++ rest) in * by (by rewrite <- app_assoc).
  apply IH; [done|]. assert (NoDup ((seen ++ [e]) ++ rest)) as Hnd'.
  { rewrite Hp. by apply NoDup_fmap_1 in Hnd. }
  apply NoDup_app in Hnd' as (Hnd' & _ & _). apply NoDup_app in Hnd' as (_ & Hdis & _).
  apply standalone_step_inv; try done.
  - rewrite <- Hp. set_solver.
  - intros Hin. apply (Hdis e Hin). set_solver.
  - intros x Hx. rewrite <- Hp. set_solver.
Qed.

(** What the choice guarantees. *)
Record selection (items : list _NormalizedMessage) (budget : Z)
    (chosen : list (list N + nat)) : Prop := {
  sl_fits : sum nm_admitted_tokens
    (filter (λ n, mandatory n = false ∧ nm_group n ∈ chosen) items) ≤ budget;
  sl_whole : ∀ n, n ∈ items → mandatory n = false → nm_group n ∈ chosen →
    is_Some (nm_admitted_message n);
  sl_newest : ∀ e, newest_of (filter (λ e, has_conversation e = true) (exchanges items)) = Some e →
    ex_group e ∈ chosen;
  sl_suffix : ∀ e e', e ∈ exchanges items → e' ∈ exchanges items →
    has_conversation e = true → has_conversation e' = true → admissible e' = true →
    ex_group e ∈ chosen → (ex_first e < ex_first e')%nat → ex_group e' ∈ chosen
}.

Lemma chosen_tokens_items items chosen :
  sum (chosen_tokens chosen) (exchanges items)
  = sum nm_admitted_tokens (filter (λ n, mandatory n = false ∧ nm_group n ∈ chosen) items).
Proof.
  etrans; [exact (exchanges_sum (λ g, bool_decide (g ∈ chosen)) items)|].
  rewrite !sum_filter. apply sum_ext. intros n _. destruct (mandatory n) eqn:E.
  - rewrite (bool_decide_false (true = false)) by done.
    by rewrite (bool_decide_false (true = false ∧ _)) by (by intros [? _]).
  - rewrite (bool_decide_true (false = false)) by done. cbn. f_equal. apply bool_decide_ext. naive_solver.
Qed.

(** The groups that take part in the conversation and can be sent whole. *)
Definition eligible_of (items : list _NormalizedMessage) : list Exchange :=
  filter (λ e, admissible e = true) (filter (λ e, has_conversation e = true) (exchanges items)).

Lemma eligible_elem items e :
  e ∈ eligible_of items ↔
  admissible e = true ∧ has_conversation e = true ∧ e ∈ exchanges items.
Proof. unfold eligible_of. by rewrite !list_elem_of_filter. Qed.

Lemma exchange_unique items e e' :
  e ∈ exchanges items → e' ∈ exchanges items → ex_group e = ex_group e' → e = e'.
Proof.
  intros [i Hi]%list_elem_of_lookup [j Hj]%list_elem_of_lookup E. assert (i = j) as ->; [|congruence].
  eapply NoDup_lookup; [exact (gr_nodup _ _ (exchanges_grouped items))| |];
    rewrite list_lookup_fmap, ?Hi, ?Hj; cbn; [done|by rewrite E].
Qed.

Lemma admissible_items items e n :
  e ∈ exchanges items → admissible e = true → n ∈ items → mandatory n = false →
  nm_group n = ex_group e → is_Some (nm_admitted_message n).
Proof.
  intros He Ha Hn Hm Hg. destruct (exchanges_grouped items) as [_ Heach _].
  rewrite Forall_forall in Heach. destruct (Heach e He) as [Hi _].
  unfold admissible in Ha. rewrite Hi, forallb_forall in Ha.
  specialize (Ha n). destruct (nm_admitted_message n); [by eexists|].
  discriminate Ha. apply list_elem_of_In, list_elem_of_filter. split; [done|].
  by apply list_elem_of_filter.
Qed.

Lemma chosen_kept items kept :
  NoDup kept → (∀ k, k ∈ kept → k ∈ exchanges items) →
  sum (chosen_tokens (ex_group <$> kept)) (exchanges items) = sum ex_tokens kept.
Proof.
  intros Hnd Hin. unfold chosen_tokens. rewrite <- (sum_filter (λ e, ex_group e ∈ ex_group <$> kept)).
  apply sum_proper. apply NoDup_Permutation; [|done|].
  - apply NoDup_filter. by pose proof (gr_nodup _ _ (exchanges_grouped items)) as ?%NoDup_fmap_1.
  - intros e. rewrite list_elem_of_filter. split.
    + intros [(k & Hg & Hk)%list_elem_of_fmap He]. by rewrite (exchange_unique _ _ _ He (Hin k Hk) Hg).
    + intros He. split; [by apply list_elem_of_fmap_2|auto].
Qed.

Lemma standalone_selection items budget kept tokens chosen rem :
  newest_part budget (eligible_of items) kept tokens → 0 ≤ budget →
  (∀ e, newest_of (filter (λ e, has_conversation e = true) (exchanges items)) = Some e →
    admissible e = true ∧ ex_tokens e ≤ budget) →
  standalone_inv budget (exchanges items) kept (merge_sort first_le (exchanges items)) (chosen, rem) →
  selection items budget chosen.
Proof.
  intros [Hsub Ht Hfit Hn Hk] Hb Hnewest [Hs Hl Hkc Ho]. cbn [fst snd] in *.
  assert (∀ e, e ∈ kept → e ∈ eligible_of items) as Hin.
  { intros e He. eapply elem_of_submseteq; [exact He|by apply sublist_submseteq]. }
  assert (∀ e, e ∈ exchanges items → ex_group e ∈ chosen → admissible e = true ∧
    (has_conversation e = true → e ∈ kept)) as Hch.
  { intros e He Hc. destruct (Ho _ Hc) as [(k & Hg & Hk')%list_elem_of_fmap|(x & Hx & Hg & Hcx & Hax)].
    - pose proof (Hin _ Hk') as (Ha & _ & Hke)%eligible_elem.
      by rewrite (exchange_unique _ _ _ He Hke Hg).
    - rewrite merge_sort_Permutation in Hx. rewrite (exchange_unique _ _ _ He Hx) by done.
      split; [done|congruence]. }
  split.
  - rewrite <- chosen_tokens_items. lia.
  - intros n Hn' Hm Hg. destruct (exchanges_grouped items) as [_ _ Hcov].
    destruct (list_elem_of_fmap_1 _ _ _ (Hcov n ltac:(by apply list_elem_of_filter))) as (e & Hge & He).
    eapply admissible_items; try done. apply (Hch e He). by rewrite <- Hge.
  - intros e He. pose proof (newest_of_inv (filter (λ e, has_conversation e = true) (exchanges items))) as Hi.
    rewrite He in Hi. destruct Hi as [[Hc Hex]%list_elem_of_filter Hmax], (Hnewest e He) as [Ha Hle].
    apply Hkc, Hk; [by apply eligible_elem| |done].
    intros e' (_ & Hc' & He')%eligible_elem. apply Hmax. by apply list_elem_of_filter.
  - intros e e' He He' Hc Hc' Ha' Hg Hlt. destruct (Hch e He Hg) as [_ Hke].
    apply Hkc. apply (Hn e e'); [by apply Hke|by apply eligible_elem|done].
Qed.

Lemma select_items_inv items mandatory_total available selected dropped :
  NoDup (nm_index <$> items) → mandatory_total ≤ available →
  _select_items items mandatory_total available = Return (selected, dropped) →
  ∃ chosen, selection items (available - mandatory_total) chosen ∧
    selected = filter (λ n, mandatory n = true ∨ nm_group n ∈ chosen) items.
Proof.
  intros Hnd Hle H. unfold _select_items in H. cbn zeta in H. fold (eligible_of items) in H.
  set (budget := available - mandatory_total) in *. apply obind_inv in H as ([] & Hnewest & H).
  destruct (drop_oldest _ _ _ _) as [kept tokens] eqn:Hd.
  destruct (fold_left standalone_step _ _) as [chosen rem] eqn:Hf. injection H as <- <-.
  exists chosen. split; [|done].
  pose proof (gr_nodup _ _ (exchanges_grouped items)) as Hg.
  pose proof (exchanges_first_nodup _ Hnd) as Hfi.
  assert (eligible_of items `sublist_of` exchanges items) as Hsub.
  { unfold eligible_of. etrans; apply sublist_filter. }
  apply drop_oldest_spec in Hd; [|eapply sublist_NoDup; [|by apply fmap_sublist]; done..|done|done].
  assert (0 ≤ budget) by (unfold budget; lia).
  assert (∀ k, k ∈ kept → k ∈ exchanges items ∧ has_conversation k = true) as Hkept.
  { intros k Hk. assert (k ∈ eligible_of items) as (_ & ? & ?)%eligible_elem; [|done].
    eapply elem_of_submseteq; [exact Hk|]. apply sublist_submseteq, (np_sub _ _ _ _ Hd). }
  eapply standalone_selection; [exact Hd|done| |].
  { intros e He. rewrite He in Hnewest. outcome_inv Hnewest. by breflect. }
  assert (NoDup kept) as Hndk.
  { eapply sublist_NoDup; [|exact (np_sub _ _ _ _ Hd)]. eapply sublist_NoDup; [|exact Hsub].
    by apply NoDup_fmap_1 in Hg. }
  pose proof (standalone_fold_inv budget (exchanges items) kept (merge_sort first_le (exchanges items)) []
    (ex_group <$> kept, budget - tokens) Hg) as Hfold.
  rewrite Hf in Hfold. apply Hfold; [by rewrite merge_sort_Permutation|done|]. split; cbn [fst snd].
  - rewrite (np_tokens _ _ _ _ Hd). rewrite <- (chosen_kept items kept) by naive_solver. lia.
  - destruct (np_fits _ _ _ _ Hd) as [->|?]; [|lia]. pose proof (np_tokens _ _ _ _ Hd). cbn in *. lia.
  - intros e He. by apply list_elem_of_fmap_2.
  - intros g Hg'. by left.
Qed.

(** ** One admission, taken apart *)

Local Arguments lit : simpl never.

Section Run.
Context {estimator : TokenEstimator} {reprojection : Reprojection} {json_text : JsonText}.
Context (self : ContextBudgetPolicy) (Hready : policy_ready self).

(** The messages with their index and their cost. *)
Record measured_messages (ms : list ContextMessage) (raw : list _NormalizedMessage) : Prop := {
  mm_items : nm_item <$> raw = ms;
  mm_index : nm_index <$> raw = seq 0 (length ms);
  mm_raw : Forall (measured_raw self) raw
}.

Lemma imap_pair_seq {A} (l : list A) : (imap pair l).*1 = seq 0 (length l) ∧ (imap pair l).*2 = l.
Proof.
  split; apply list_eq; intros i; rewrite list_lookup_fmap, list_lookup_imap.
  - destruct (l !! i) eqn:E; cbn; symmetry.
    + apply lookup_lt_Some in E. by apply lookup_seq.
    + apply lookup_ge_None in E. by apply lookup_seq_ge.
  - by destruct (l !! i).
Qed.

Lemma raw_measured ms raw :
  traverse (λ im, tokens ← _estimate_message self (message im.2); mret (raw_item tokens im.1 im.2))
    (imap pair ms) = Return raw → measured_messages ms raw.
Proof.
  intros H%traverse_Forall2. destruct (imap_pair_seq ms) as [Hs Hm].
  rewrite <- Hm at 1. generalize dependent (imap pair ms). intros l HF Hs Hm. rewrite Hm.
  assert (Forall2 (λ im n, nm_item n = im.2 ∧ nm_index n = im.1 ∧ measured_raw self n) l raw) as HF'.
  { eapply Forall2_impl; [exact HF|]. intros im n H. apply obind_inv in H as (t & Ht & [= <-]). done. }
  clear HF. split.
  - rewrite <- Hm. clear -HF'. induction HF' as [|im n l raw (? & ? & ?) _ IH]; cbn; congruence.
  - rewrite <- Hs. clear -HF'. induction HF' as [|im n l raw (? & ? & ?) _ IH]; cbn; congruence.
  - clear -HF'. induction HF' as [|im n l raw (? & ? & ?) _ IH]; by constructor.
Qed.

Definition selected_of (projected : list _NormalizedMessage) (chosen : list (list N + nat)) :
    list _NormalizedMessage :=
  filter (λ n, mandatory n = true ∨ nm_group n ∈ chosen) projected.

(** Everything an admission computes on the way to its result. *)
Record admission (ms : list ContextMessage) (tools : list ModelToolDefinition)
    (payloads : gmap nat _MemoryPayload) (r : ContextAdmissionResult)
    (limit : option Z) (reserved available overhead : Z) (tool_estimates : list Z)
    (raw projected : list _NormalizedMessage) (chosen : list (list N + nat)) : Prop := {
  ad_limit : _effective_context_limit self = Return limit;
  ad_reserved : _effective_reserved_output self = Return reserved;
  ad_available : available_input_of self limit reserved = Return available;
  ad_overhead : _protocol_overhead self "request_overhead_tokens" = Return overhead;
  ad_tools : traverse (_estimate_tool self) tools = Return tool_estimates;
  ad_raw : measured_messages ms raw;
  ad_placed : Forall2 (placed self payloads) raw projected;
  ad_unchanged : Forall2 (λ n q, _PROJECTABLE_CATEGORIES (nm_category n) = false → q = unchanged n)
                   raw projected;
  ad_pools : pools_respected (config self) projected;
  ad_selection : selection projected
    (available - (sum nm_raw_tokens (filter (λ n, mandatory n = true) raw)
                  + sum id tool_estimates + overhead)) chosen;
  ad_messages : ar_messages r = omap nm_admitted_message (selected_of projected chosen);
  ad_categories : ar_message_categories r
    = (omap (λ n, pair (nm_category n) <$> nm_admitted_message n) (selected_of projected chosen)).*1;
  ad_tool_definitions : ar_tool_definitions r = tools;
  ad_usage : us_available_input (ar_usage r) = available ∧
    us_estimated_input_after (ar_usage r)
    = sum id tool_estimates + overhead + sum nm_admitted_tokens (selected_of projected chosen) ∧
    us_retained_by_category (ar_usage r)
    = retained_by_category (selected_of projected chosen) (sum id tool_estimates) overhead ∧
    us_truncated_by_category (ar_usage r)
    = truncated_by_category raw (selected_of projected chosen);
  ad_memory : _memory_admission raw projected (selected_of projected chosen) payloads
              = Return (ar_memory_admission r)
}.

Lemma new_usage_inv u u' : new_usage u = Return u' → u' = u.
Proof.
  unfold new_usage. intros H. repeat (apply obind_inv in H as (? & _ & H)). by injection H.
Qed.

Lemma omap_pair_snd (l : list _NormalizedMessage) :
  (omap (λ n, pair (nm_category n) <$> nm_admitted_message n) l).*2 = omap nm_admitted_message l.
Proof. induction l as [|n l IH]; cbn; [done|]. destruct (nm_admitted_message n); cbn; congruence. Qed.

Lemma admit_normalized_inv ms tools payloads r :
  _admit_normalized self ms tools payloads = Return r →
  ∃ limit reserved available overhead estimates raw projected chosen,
    admission ms tools payloads r limit reserved available overhead estimates raw projected chosen.
Proof using Hready.
  unfold _admit_normalized. intros H.
  apply obind_inv in H as (limit & Hlimit & H). apply obind_inv in H as (reserved & Hres & H).
  apply obind_inv in H as (available & Hav & H). apply obind_inv in H as (overhead & Hov & H).
  apply obind_inv in H as (estimates & Hte & H). apply obind_inv in H as (raw & Hraw & H).
  cbn zeta in H. apply obind_inv in H as (u1 & Hmand & H). apply fail_if_inv in Hmand.
  apply obind_inv in H as (projected & Hproj & H).
  apply obind_inv in H as ([selected dropped] & Hsel & H). cbn beta iota in H.
  apply obind_inv in H as (u2 & _ & H).
  apply obind_inv in H as (version & _ & H). apply obind_inv in H as (mavail & _ & H).
  apply obind_inv in H as (usage & Husage & H). apply new_usage_inv in Husage. subst usage.
  apply obind_inv in H as (memory & Hmem & H). injection H as <-.
  apply raw_measured in Hraw as Hm. pose proof (mm_raw _ _ Hm) as HF.
  assert (NoDup (nm_index <$> raw)) as Hnd by (rewrite (mm_index _ _ Hm); apply NoDup_seq).
  destruct (project_optional_placed self Hready payloads raw projected Hnd HF Hproj) as (Hp & Hu & Hpools).
  apply select_items_inv in Hsel as (chosen & Hsl & ->).
  2: { by rewrite (Forall2_placed_index _ _ _ _ Hp). }
  2: { by breflect. }
  exists limit, reserved, available, overhead, estimates, raw, projected, chosen.
  split; cbn; try done. apply omap_pair_snd.
Qed.
End Run.
