(* ===== verification/ContextAdmissionProperties.v ===== *)
(** * What an admitted request guarantees *)

From stdpp Require Import base gmap list strings sorting.
From Stdlib Require Import ZArith NArith Lia.
From S2P Require Import Prelude.
From S2P Require Import Json.
From S2P Require Import JsonTheory.
From S2P Require Import TurnTranscript.
From S2P Require Import ContextMetadata.
From S2P Require Import ModelProfiles.
From S2P Require Import ContextPolicy.
From S2P Require Import ContextPolicyTheory.
From S2P Require Import ContextPolicyProperties.
From S2P Require Import Outcome.
From S2P Require Import JsonProjection.
From S2P Require Import ContextBudget.
From S2P Require Import ContextMemory.
From S2P Require Import ContextAdmission.
From S2P Require Import ContextAdmissionTheory.
From S2P Require Import ContextSelection.

Local Open Scope Z_scope.
Local Arguments lit : simpl never.

(** ** The window of every model *)

Lemma chain_capabilities q c :
  capabilities_from_mapping (field "capabilities"
    match chain_entry q with JObj l => l | _ => [] end) = Some c →
  max_context_tokens c = max_context_tokens (ep_capabilities q).
Proof.
  set (t := max_context_tokens (ep_capabilities q)).
  assert (field "capabilities" match chain_entry q with JObj l => l | _ => [] end
    = JObj ([(lit "tool_calling", JBool (tool_calling (ep_capabilities q)));
             (lit "streaming", JBool (streaming (ep_capabilities q)));
             (lit "structured_output", JBool (structured_output (ep_capabilities q)));
             (lit "vision", JBool (vision (ep_capabilities q)));
             (lit "max_context_tokens", opt_int t)]
            ++ match context_metadata (ep_capabilities q) with
               | Some m => [(lit "context_metadata", as_dict m)] | None => [] end)) as -> by reflexivity.
  unfold capabilities_from_mapping. destruct (negb _); [done|].
  intros (t' & Ht' & H)%bind_Some.
  assert (t' = t) as ->.
  { assert (∀ rest, field "max_context_tokens" ([(lit "tool_calling", JBool (tool_calling (ep_capabilities q)));
             (lit "streaming", JBool (streaming (ep_capabilities q)));
             (lit "structured_output", JBool (structured_output (ep_capabilities q)));
             (lit "vision", JBool (vision (ep_capabilities q)));
             (lit "max_context_tokens", opt_int t)] ++ rest) = opt_int t) as Hf by reflexivity.
    rewrite Hf in Ht'. unfold _optional_positive_int in Ht'. destruct t as [z|]; cbn in Ht'; [|by injection Ht'].
    destruct (_ <=? 0) in Ht'; [done|by injection Ht']. }
  apply bind_Some in H as (m & _ & H). unfold new_capabilities in H. destruct (negb _); [done|].
  by apply bind_Some in H as (m' & _ & [= <-]).
Qed.

Lemma new_policy_profiles runtime models supplied p :
  new_policy runtime models supplied = Return p → profiles p = models.
Proof.
  unfold new_policy. intros H. destruct (dict_get _ runtime) as [[]|]; try (by injection H as <-);
    apply obind_inv in H as (c & _ & H);
    destruct (validate_frozen_context_policy _ _ _) as [[]|]; try done; by injection H as <-.
Qed.

(** The input that may be sent leaves every model room for its output. *)
Lemma available_fits (self : ContextBudgetPolicy) limit reserved available q t :
  policy_ready self →
  _effective_context_limit self = Return limit → _effective_reserved_output self = Return reserved →
  available_input_of self limit reserved = Return available →
  q ∈ profiles self → max_context_tokens (ep_capabilities q) = Some t →
  available + Z.max (ep_max_tokens q) (reserved_output_tokens (config self)) ≤ t.
Proof.
  unfold policy_ready, _effective_context_limit, _effective_reserved_output, available_input_of.
  destruct (context_policy self) as [l|]; intros Hready Hl Hr Ha Hq Ht.
  - destruct Hready as (request & Hres).
    destruct (resolved_policy_safe _ _ _ _ Hres) as (l' & lim & soft & hard & target & percent & tokens
      & output & [= <-] & Hlim & _ & _ & _ & [= <-] & _ & _ & _ & Hall).
    destruct (Hall (chain_entry q)) as (e & c & mt & reserve & He & Hc & Hmt & Htok & Hp & Hwin & _).
    { by apply list_elem_of_fmap_2. }
    unfold policy_int in Ha. rewrite Hlim in Ha. injection Ha as <-.
    assert (max_context_tokens c = Some t) as Hct.
    { rewrite <- Ht. apply chain_capabilities. by rewrite He. }
    assert (mt = ep_max_tokens q) as ->. { injection He as <-. by injection Hmt as <-. }
    specialize (Hwin t Hct). lia.
  - apply obind_inv in Hl as (limits & Hlimits & Hl). destruct limits as [|x rest]; [done|]. injection Hl as <-.
    apply obind_inv in Hr as (u & _ & Hr). cbn zeta in Hr. apply obind_inv in Hr as (lim & _ & Hr).
    apply obind_inv in Hr as (u' & _ & Hr). injection Hr as <-.
    apply obind_inv in Ha as (u'' & _ & Ha). injection Ha as <-.
    apply traverse_Forall2 in Hlimits. apply list_elem_of_lookup in Hq as [i Hi].
    destruct (Forall2_lookup_l _ _ _ _ _ Hlimits Hi) as (z & Hz & Hqz). rewrite Ht in Hqz. cbn in Hqz.
    destruct (t <=? 0); [done|]. injection Hqz as <-.
    pose proof (min_of_le x rest t (list_elem_of_lookup_2 _ _ _ Hz)).
    set (M := max_of _ _).
    assert (ep_max_tokens q ≤ M).
    { apply max_of_ge. right. apply list_elem_of_fmap_2. by eapply list_elem_of_lookup_2. }
    assert (reserved_output_tokens (config self) ≤ M) by (apply max_of_ge; left). lia.
Qed.

Section Requests.
Context {estimator : TokenEstimator} {reprojection : Reprojection} {json_text : JsonText}.

Lemma admit_inv self given categories groups tools r :
  admit_context self given categories groups tools = Return r →
  ∃ ms payloads, _normalize_messages given categories groups = Return ms ∧
    _validate_memory_payloads ms = Return payloads ∧ _admit_normalized self ms tools payloads = Return r.
Proof.
  unfold admit_context. intros H. apply obind_inv in H as (ms & Hms & H).
  apply obind_inv in H as (p & Hp & H). eauto.
Qed.

(** ** Accounting *)

Lemma mandatory_cost self payloads raw projected :
  Forall2 (placed self payloads) raw projected →
  Forall2 (λ n q, _PROJECTABLE_CATEGORIES (nm_category n) = false → q = unchanged n) raw projected →
  sum nm_admitted_tokens (filter (λ n, mandatory n = true) projected)
  = sum nm_raw_tokens (filter (λ n, mandatory n = true) raw).
Proof.
  intros HF HU. revert HU. induction HF as [|n q raw projected Hpl HF IH]; intros HU; [done|].
  apply Forall2_cons in HU as [Hu HU]. rewrite !filter_cons.
  assert (mandatory q = mandatory n) as -> by (unfold mandatory; by rewrite (placed_category _ _ _ _ Hpl)).
  case_decide as Hm; [|by apply IH]. cbn. rewrite IH by done. f_equal.
  rewrite Hu; [done|]. unfold mandatory in Hm. by destruct (nm_category n).
Qed.

Lemma selected_cost projected chosen :
  sum nm_admitted_tokens (selected_of projected chosen)
  = sum nm_admitted_tokens (filter (λ n, mandatory n = true) projected)
    + sum nm_admitted_tokens (filter (λ n, mandatory n = false ∧ nm_group n ∈ chosen) projected).
Proof.
  unfold selected_of. rewrite !sum_filter, <- sum_plus. apply sum_ext. intros n _.
  destruct (mandatory n).
  - rewrite (bool_decide_true (true = true ∨ _)) by (by left). rewrite (bool_decide_true (true = true)) by done.
    rewrite (bool_decide_false (true = false ∧ _)) by (by intros [? _]). cbn. lia.
  - rewrite (bool_decide_false (false = true)) by done. cbn [plus_if]. rewrite Z.add_0_l. f_equal.
    apply bool_decide_ext. naive_solver.
Qed.

Lemma admitted_measured self payloads raw projected sel :
  Forall2 (placed self payloads) raw projected → sel `sublist_of` projected →
  ∃ ts, traverse (_estimate_message self) (omap nm_admitted_message sel) = Return ts ∧
    sum id ts = sum nm_admitted_tokens sel.
Proof.
  intros HF Hsub. assert (∀ q, q ∈ sel → ∃ n, placed self payloads n q) as Hpl.
  { intros q Hq. eapply elem_of_submseteq in Hq; [|by apply sublist_submseteq].
    apply list_elem_of_lookup in Hq as [i Hi].
    destruct (Forall2_lookup_r _ _ _ _ _ HF Hi) as (n & _ & ?). eauto. }
  clear HF Hsub. induction sel as [|q sel IH]; [by exists []|].
  destruct IH as (ts & Hts & Hsum); [set_solver|]. destruct (Hpl q) as (n & Hq); [set_solver|].
  cbn [omap list_omap]. fold (omap (M := list) nm_admitted_message sel).
  destruct (nm_admitted_message q) as [m|] eqn:E.
  - exists (nm_admitted_tokens q :: ts). cbn [traverse]. rewrite (pl_measured _ _ _ _ Hq m E), Hts.
    split; [done|]. cbn. by rewrite <- Hsum.
  - exists ts. split; [done|]. cbn. rewrite (pl_none _ _ _ _ Hq E). lia.
Qed.

Lemma filter_sublist_mono {A} (P : A → Prop) `{∀ x, Decision (P x)} (l k : list A) :
  l `sublist_of` k → filter P l `sublist_of` filter P k.
Proof.
  induction 1 as [|x l k _ IH|x l k _ IH]; [done|..]; rewrite !filter_cons; case_decide; auto using sublist.
Qed.

Lemma retained_total selected tools overhead :
  sum (retained_by_category selected tools overhead) all_categories
  = tools + overhead + sum nm_admitted_tokens selected.
Proof.
  assert (∀ z c0, sum (λ c, plus_if (bool_decide (c = c0)) z) all_categories = z) as Hone.
  { intros z []; cbv -[Z.add]; lia. }
  unfold retained_by_category. rewrite !sum_plus, sum_by_category, !Hone. lia.
Qed.

(** C9. The request that is sent, measured message by message and tool by
    tool with the same estimator, costs exactly what its usage record says,
    within the available input; the categories of the record add up to it,
    tool results and evidence stay within their pools, memory stays within its
    own pool or, if it has none, shares the pool of evidence with it, and together
    with the output the run may ask for it fits the declared window of every
    model of the chain, fallbacks included. *)
Theorem request_fits_every_model runtime models supplied self given categories groups tools r :
  new_policy runtime models supplied = Return self →
  admit_context self given categories groups tools = Return r →
  ∃ message_tokens tool_tokens overhead,
    traverse (_estimate_message self) (ar_messages r) = Return message_tokens ∧
    traverse (_estimate_tool self) (ar_tool_definitions r) = Return tool_tokens ∧
    _protocol_overhead self "request_overhead_tokens" = Return overhead ∧
    us_estimated_input_after (ar_usage r) = sum id message_tokens + sum id tool_tokens + overhead ∧
    us_estimated_input_after (ar_usage r) ≤ us_available_input (ar_usage r) ∧
    sum (us_retained_by_category (ar_usage r)) all_categories = us_estimated_input_after (ar_usage r) ∧
    us_retained_by_category (ar_usage r) TOOL_RESULT ≤ Z.max 0 (max_tool_result_tokens (config self)) ∧
    us_retained_by_category (ar_usage r) RAG_EVIDENCE ≤ Z.max 0 (max_retrieval_tokens (config self)) ∧
    match max_memory_tokens (config self) with
    | Some pool => us_retained_by_category (ar_usage r) MEMORY ≤ Z.max 0 pool
    | None => us_retained_by_category (ar_usage r) MEMORY + us_retained_by_category (ar_usage r) RAG_EVIDENCE
              ≤ Z.max 0 (max_retrieval_tokens (config self))
    end ∧
    ∀ q t, q ∈ models → max_context_tokens (ep_capabilities q) = Some t →
      us_estimated_input_after (ar_usage r) + ep_max_tokens q ≤ t.
Proof.
  intros Hnew H. pose proof (new_policy_ready _ _ _ _ Hnew) as Hready.
  assert (profiles self = models) as Hprofiles by (by eapply new_policy_profiles).
  apply admit_inv in H as (ms & payloads & _ & _ & H).
  apply (admit_normalized_inv self Hready) in H
    as (limit & reserved & available & overhead & estimates & raw & projected & chosen & H).
  destruct H as [Hl Hr Ha Ho Hte Hm Hp Hu Hpools Hsel -> _ -> (-> & -> & -> & _) _].
  destruct (admitted_measured self payloads raw projected (selected_of projected chosen)) as (ts & Hts & Hsum).
  { exact Hp. } { apply sublist_filter. }
  exists ts, estimates, overhead. rewrite retained_total, <- Hsum.
  pose proof (selected_cost projected chosen) as Hcost. rewrite (mandatory_cost _ _ _ _ Hp Hu) in Hcost.
  pose proof (sl_fits _ _ _ Hsel). rewrite <- Hsum in Hcost.
  assert (sum id estimates + overhead + sum id ts ≤ available) as Hle by lia.
  assert (∀ c, _MANDATORY_CATEGORIES c = false →
    retained_by_category (selected_of projected chosen) (sum id estimates) overhead c
    ≤ category_tokens c projected) as Hcat.
  { intros c Hc. unfold retained_by_category, category_tokens.
    rewrite !bool_decide_false by (by intros ->). cbn [plus_if]. rewrite !Z.add_0_r.
    apply sum_submseteq.
    - apply sublist_submseteq. apply filter_sublist_mono, sublist_filter.
    - intros q [_ [i Hi]%list_elem_of_lookup]%list_elem_of_filter.
      destruct (Forall2_lookup_r _ _ _ _ _ Hp Hi) as (n & _ & Hq). by eapply placed_nonneg. }
  destruct Hpools as (Hpt & Hpr & Hpm).
  pose proof (Hcat TOOL_RESULT eq_refl). pose proof (Hcat RAG_EVIDENCE eq_refl).
  pose proof (Hcat MEMORY eq_refl).
  split_and!; [done|done|done|lia|lia|done|lia|lia|destruct (max_memory_tokens (config self)); lia|].
  intros q t Hq Ht. rewrite <- Hprofiles in Hq.
  pose proof (available_fits self limit reserved available q t Hready Hl Hr Ha Hq Ht). lia.
Qed.

(** ** Which messages are sent *)

(** What is sent for each message, by position. *)
Definition sent_of (projected : list _NormalizedMessage) (chosen : list (list N + nat)) :
    list (option ModelMessage) :=
  (λ q, if decide (mandatory q = true ∨ nm_group q ∈ chosen) then nm_admitted_message q else None)
    <$> projected.

Lemma sent_messages projected chosen :
  omap id (sent_of projected chosen) = omap nm_admitted_message (selected_of projected chosen).
Proof.
  unfold sent_of, selected_of. induction projected as [|q l IH]; [done|].
  rewrite filter_cons. cbn. case_decide; cbn; [|done]. unfold id. destruct (nm_admitted_message q); cbn;
    [f_equal|]; exact IH.
Qed.

Definition optional (m : ContextMessage) : bool := negb (_MANDATORY_CATEGORIES (category m)).
Definition in_conversation (ms : list ContextMessage) (g : list N + nat) : Prop :=
  ∃ i m, ms !! i = Some m ∧ group_key i m = g ∧ category m = CONVERSATION.
(** The exchange [g] begins at [i]. *)
Definition begins (ms : list ContextMessage) (g : list N + nat) (i : nat) : Prop :=
  (∃ m, ms !! i = Some m ∧ optional m = true ∧ group_key i m = g) ∧
  ∀ j m, ms !! j = Some m → optional m = true → group_key j m = g → (i ≤ j)%nat.

Record request_sound (ms : list ContextMessage) (sent : list (option ModelMessage)) : Prop := {
  rs_each : Forall2 (λ m o, match o with
    | None => optional m = true
    | Some m' => m' = message m ∨
        _PROJECTABLE_CATEGORIES (category m) = true ∧ ∃ text, m' = with_content (message m) text
    end) ms sent;
  rs_atomic : ∀ i j m m' o o',
    ms !! i = Some m → ms !! j = Some m' → sent !! i = Some o → sent !! j = Some o' →
    optional m = true → optional m' = true → group_key i m = group_key j m' →
    is_Some o → is_Some o';
  rs_newest : ∀ g i, in_conversation ms g → begins ms g i →
    (∀ g' i', in_conversation ms g' → begins ms g' i' → (i' ≤ i)%nat) →
    ∀ j m, ms !! j = Some m → group_key j m = g → ∃ m', sent !! j = Some (Some m')
}.

(** The position of a projected message. *)
Lemma projected_at self payloads ms raw projected i q :
  measured_messages self ms raw → Forall2 (placed self payloads) raw projected →
  projected !! i = Some q →
  ∃ m, ms !! i = Some m ∧ nm_item q = m ∧ nm_index q = i ∧ nm_group q = group_key i m ∧
    mandatory q = _MANDATORY_CATEGORIES (category m) ∧ nm_category q = category m.
Proof.
  intros [Hi Hx _] HF Hq. destruct (Forall2_lookup_r _ _ _ _ _ HF Hq) as (n & Hn & Hpl).
  exists (nm_item n). assert (nm_index n = i) as Hni.
  { assert ((nm_index <$> raw) !! i = Some (nm_index n)) as H by (by rewrite list_lookup_fmap, Hn).
    rewrite Hx in H. apply lookup_seq in H as [-> _]. done. }
  rewrite <- Hi, list_lookup_fmap, Hn. destruct Hpl as [Hit Hix _ _ _ _ _].
  unfold nm_group, mandatory, nm_category. rewrite Hit, Hix, Hni. done.
Qed.

Lemma sent_at self payloads ms raw projected chosen i m :
  measured_messages self ms raw → Forall2 (placed self payloads) raw projected →
  ms !! i = Some m →
  ∃ q, projected !! i = Some q ∧ nm_item q = m ∧ nm_group q = group_key i m ∧
    mandatory q = _MANDATORY_CATEGORIES (category m) ∧ nm_category q = category m ∧
    sent_of projected chosen !! i
    = Some (if decide (mandatory q = true ∨ nm_group q ∈ chosen) then nm_admitted_message q else None).
Proof.
  intros Hm HF Hi. assert (is_Some (projected !! i)) as [q Hq].
  { apply lookup_lt_is_Some. rewrite <- (Forall2_length _ _ _ HF). rewrite <- (length_fmap nm_item).
    rewrite (mm_items _ _ _ Hm). by eapply lookup_lt_Some. }
  destruct (projected_at _ _ _ _ _ _ _ Hm HF Hq) as (m' & Hm' & ? & ? & ? & ? & ?).
  exists q. replace m' with m in * by congruence. unfold sent_of. rewrite list_lookup_fmap, Hq. done.
Qed.

Lemma head_filter_first {A} (P : A → Prop) `{∀ x, Decision (P x)} (l : list A) x :
  head (filter P l) = Some x →
  ∃ k, l !! k = Some x ∧ P x ∧ ∀ j y, l !! j = Some y → P y → (k ≤ j)%nat.
Proof.
  induction l as [|y l IH]; [done|]. rewrite filter_cons. case_decide as Hy.
  - intros [= <-]. exists 0%nat. split_and!; [done|done|lia].
  - intros (k & Hk & HP & Hmin)%IH. exists (S k). split_and!; [done|done|].
    intros [|j] z Hz Pz; [by injection Hz as ->|]. apply le_n_S. by eapply Hmin.
Qed.

Section Sound.
Context (self : ContextBudgetPolicy) (payloads : gmap nat _MemoryPayload).
Context (ms : list ContextMessage) (raw projected : list _NormalizedMessage).
Context (Hm : measured_messages self ms raw) (Hp : Forall2 (placed self payloads) raw projected).

Lemma exchange_begins e :
  e ∈ exchanges projected →
  begins ms (ex_group e) (ex_first e) ∧ (has_conversation e = true → in_conversation ms (ex_group e)).
Proof using Hm Hp.
  intros He. destruct (exchanges_grouped projected) as [_ Heach _]. rewrite Forall_forall in Heach.
  destruct (Heach e He) as [Hi (n & Hn & Hf)]. rewrite list_filter_filter in Hi. split.
  - rewrite Hi in Hn. apply head_filter_first in Hn as (k & Hk & [Hg Hmand] & Hmin).
    destruct (projected_at _ _ _ _ _ _ _ Hm Hp Hk) as (m & Hmk & _ & Hx & Hgk & Hmd & _).
    rewrite Hf, Hx. split.
    + exists m. unfold optional. rewrite <- Hmd, <- Hgk. by rewrite Hmand.
    + intros j m' Hj Ho Hgj. destruct (sent_at self payloads ms raw projected [] j m' Hm Hp Hj)
        as (q & Hq & _ & Hgq & Hmq & _). apply (Hmin j q Hq). rewrite Hgq, Hmq. split; [done|].
      by apply negb_true_iff in Ho.
  - unfold has_conversation. intros (x & Hx%list_elem_of_In & Hc%bool_decide_eq_true)%existsb_exists.
    rewrite Hi in Hx. apply list_elem_of_filter in Hx as [[Hg _] [j Hj]%list_elem_of_lookup].
    destruct (projected_at _ _ _ _ _ _ _ Hm Hp Hj) as (m & Hmj & _ & _ & Hgj & _ & Hcj).
    exists j, m. split_and!; [done|congruence|congruence].
Qed.

Lemma conversation_exchange g :
  in_conversation ms g → ∃ e, e ∈ exchanges projected ∧ ex_group e = g ∧ has_conversation e = true.
Proof using Hm Hp.
  intros (i & m & Hi & Hg & Hc). destruct (sent_at self payloads ms raw projected [] i m Hm Hp Hi)
    as (q & Hq & _ & Hgq & Hmq & Hcq & _). rewrite Hc in Hmq, Hcq.
  destruct (exchanges_grouped projected) as [_ Heach Hcov].
  assert (q ∈ filter (λ n, mandatory n = false) projected) as Hin.
  { apply list_elem_of_filter. split; [done|by eapply list_elem_of_lookup_2]. }
  destruct (list_elem_of_fmap_1 _ _ _ (Hcov q Hin)) as (e & Hge & He). exists e.
  split_and!; [done|congruence|]. rewrite Forall_forall in Heach. destruct (Heach e He) as [Hitems _].
  unfold has_conversation. rewrite Hitems. apply existsb_exists. exists q.
  split; [|by apply bool_decide_eq_true]. apply list_elem_of_In, list_elem_of_filter. done.
Qed.

Lemma begins_unique g i j : begins ms g i → begins ms g j → i = j.
Proof.
  intros [(m & Hi & Ho & Hg) Hmin] [(m' & Hj & Ho' & Hg') Hmin'].
  apply Nat.le_antisymm; [by eapply Hmin|by eapply Hmin'].
Qed.

(** The conversation exchange that begins last is the newest one. *)
Lemma newest_conversation g i :
  in_conversation ms g → begins ms g i →
  (∀ g' i', in_conversation ms g' → begins ms g' i' → (i' ≤ i)%nat) →
  ∃ e, newest_of (filter (λ e, has_conversation e = true) (exchanges projected)) = Some e ∧ ex_group e = g.
Proof using Hm Hp.
  intros Hcg Hbg Hmax. destruct (conversation_exchange g Hcg) as (e & He & Hge & Hce).
  pose proof (newest_of_inv (filter (λ e, has_conversation e = true) (exchanges projected))) as Hn.
  destruct (newest_of _) as [b|].
  2: { assert (e ∈ filter (λ e, has_conversation e = true) (exchanges projected)) as Hin
         by (by apply list_elem_of_filter). rewrite Hn in Hin. by apply not_elem_of_nil in Hin. }
  destruct Hn as [[Hcb Hb]%list_elem_of_filter Hbmax]. exists b. split; [done|].
  destruct (exchange_begins b Hb) as [Hbb Hcb']. destruct (exchange_begins e He) as [Hbe _].
  rewrite Hge in Hbe. pose proof (begins_unique _ _ _ Hbe Hbg) as Hei.
  pose proof (Hbmax e ltac:(by apply list_elem_of_filter)).
  pose proof (Hmax _ _ (Hcb' Hcb) Hbb). assert (ex_first b = i) as E by lia. rewrite E in Hbb.
  destruct Hbb as [(m & Hmi & _ & <-) _], Hbg as [(m' & Hmi' & _ & <-) _]. congruence.
Qed.

Lemma sent_sound chosen budget :
  Forall2 (λ n q, _PROJECTABLE_CATEGORIES (nm_category n) = false → q = unchanged n) raw projected →
  selection projected budget chosen → request_sound ms (sent_of projected chosen).
Proof using Hm Hp.
  intros Hu [_ Hwhole Hnewest _].
  assert (∀ i m, ms !! i = Some m → _MANDATORY_CATEGORIES (category m) = true →
    sent_of projected chosen !! i = Some (Some (message m))) as Hmandatory.
  { intros i m Hi Hmand. destruct (sent_at self payloads ms raw projected chosen i m Hm Hp Hi)
      as (q & Hq & Hit & _ & Hmq & Hcq & ->). rewrite decide_True by (left; congruence).
    destruct (Forall2_lookup_r _ _ _ _ _ Hu Hq) as (n & Hn & Hun).
    pose proof (placed_category _ _ _ _ (Forall2_lookup_lr _ _ _ _ _ _ Hp Hn Hq)) as Hcn.
    rewrite <- Hit, Hun; [done|]. rewrite <- Hcn, Hcq. by destruct (category m). }
  split.
  - apply Forall2_same_length_lookup_2.
    { unfold sent_of. rewrite length_fmap, <- (Forall2_length _ _ _ Hp), <- (mm_items _ _ _ Hm).
      by rewrite length_fmap. }
    intros i m o Hi Ho. destruct (sent_at self payloads ms raw projected chosen i m Hm Hp Hi)
      as (q & Hq & Hit & _ & Hmq & Hcq & Hsent). rewrite Hsent in Ho. injection Ho as <-.
    destruct (_MANDATORY_CATEGORIES (category m)) eqn:Emand.
    { rewrite (Hmandatory i m Hi Emand) in Hsent. injection Hsent as <-. by left. }
    case_decide; [|unfold optional; by rewrite Emand].
    destruct (nm_admitted_message q) as [m'|] eqn:Em; [|unfold optional; by rewrite Emand].
    destruct (Forall2_lookup_r _ _ _ _ _ Hp Hq) as (n & _ & Hpl).
    pose proof (pl_text _ _ _ _ Hpl m' Em) as Ht. pose proof (placed_category _ _ _ _ Hpl) as Hcn.
    rewrite <- (pl_item _ _ _ _ Hpl), Hit in Ht. rewrite <- Hcn, Hcq in Ht. done.
  - intros i j m m' o o' Hi Hj Ho Ho' Hopt Hopt' Hg.
    destruct (sent_at self payloads ms raw projected chosen i m Hm Hp Hi) as (q & Hq & _ & Hgq & Hmq & _ & Hs).
    destruct (sent_at self payloads ms raw projected chosen j m' Hm Hp Hj) as (q' & Hq' & _ & Hgq' & Hmq' & _ & Hs').
    unfold optional in *. rewrite negb_true_iff in Hopt, Hopt'.
    rewrite Hs in Ho. rewrite Hs' in Ho'. injection Ho as <-. injection Ho' as <-.
    rewrite Hmq, Hmq', Hopt, Hopt'. rewrite Hgq, Hgq', Hg.
    clear Hs Hs'. case_decide as Hd; [|done]. intros _. destruct Hd as [?|Hd]; [done|]. apply Hwhole; [by eapply list_elem_of_lookup_2|congruence|congruence].
  - intros g i Hcg Hbg Hmax j m Hj Hgj.
    destruct (newest_conversation g i Hcg Hbg Hmax) as (e & He & Hge). apply Hnewest in He.
    destruct (_MANDATORY_CATEGORIES (category m)) eqn:Emand; [eauto|].
    destruct (sent_at self payloads ms raw projected chosen j m Hm Hp Hj)
      as (q & Hq & Hit & Hgq & Hmq & Hcq & ->).
    assert (nm_group q ∈ chosen) as Hin by (by rewrite Hgq, Hgj, <- Hge).
    rewrite decide_True by (by right).
    destruct (Hwhole q) as [m' ->]; [by eapply list_elem_of_lookup_2|congruence|done|]. eauto.
Qed.
End Sound.

Lemma validated_tool_groups ms u i m :
  _validate_atomic_tool_groups ms = Return u → ms !! i = Some m → is_tool m = true →
  ∃ j m', ms !! j = Some m' ∧ group_key j m' = group_key i m ∧ is_tool_call m' = true.
Proof.
  unfold _validate_atomic_tool_groups. cbn zeta. intros Hv%fail_if_inv Hi Ht.
  assert (∀ k x, (k, x) ∈ imap (λ i m, (group_key i m, m)) ms ↔ ∃ j, ms !! j = Some x ∧ k = group_key j x) as Hin.
  { intros k x. rewrite list_elem_of_lookup. split.
    - intros (j & Hj). rewrite list_lookup_imap in Hj. destruct (ms !! j) eqn:E; [|done].
      injection Hj as <- <-. eauto.
    - intros (j & Hj & ->). exists j. by rewrite list_lookup_imap, Hj. }
  destruct (existsb (λ kn, bool_decide (kn.1 = group_key i m) && is_tool_call kn.2)
    (imap (λ i m, (group_key i m, m)) ms)) eqn:E.
  - apply existsb_exists in E as ([k x] & Hx%list_elem_of_In & [Hk%bool_decide_eq_true Hc]%andb_true_iff).
    apply Hin in Hx as (j & Hj & ->). cbn in *. eauto.
  - exfalso. eapply not_true_iff_false; [exact Hv|]. apply existsb_exists. exists (group_key i m, m).
    split; [apply list_elem_of_In, Hin; eauto|]. cbn [fst snd]. by rewrite Ht, E.
Qed.

Lemma normalized_valid given categories groups ms :
  _normalize_messages given categories groups = Return ms → _validate_atomic_tool_groups ms = Return tt.
Proof.
  unfold _normalize_messages. intros H. apply obind_inv in H as (? & _ & H).
  apply obind_inv in H as (? & _ & H). apply obind_inv in H as (? & _ & H).
  apply obind_inv in H as ([] & Hv & H). by injection H as <-.
Qed.

(** C10. An admitted request is the conversation it was given, in order:
    every instruction and the current task are sent unchanged; conversation
    messages are sent unchanged or not at all, and only the text of evidence,
    tool results and memory is shortened.  An exchange is sent whole or not at
    all, so a tool observation is never sent without its tool call, and the
    newest conversation exchange is always sent. *)
Theorem admitted_request_is_sound runtime models supplied self given categories groups tools r :
  new_policy runtime models supplied = Return self →
  admit_context self given categories groups tools = Return r →
  ∃ ms sent, _normalize_messages given categories groups = Return ms ∧
    ar_messages r = omap id sent ∧ request_sound ms sent ∧
    ∀ i m m', ms !! i = Some m → sent !! i = Some (Some m') → optional m = true → is_tool m = true →
      ∃ j c c', ms !! j = Some c ∧ sent !! j = Some (Some c') ∧
        group_key j c = group_key i m ∧ is_tool_call c = true.
Proof.
  intros Hnew H. pose proof (new_policy_ready _ _ _ _ Hnew) as Hready.
  apply admit_inv in H as (ms & payloads & Hn & _ & H).
  apply (admit_normalized_inv self Hready) in H
    as (limit & reserved & available & overhead & estimates & raw & projected & chosen & H).
  destruct H as [_ _ _ _ _ Hm Hp Hu _ Hsel -> _ _ _ _].
  pose proof (sent_sound self payloads ms raw projected Hm Hp chosen _ Hu Hsel) as Hs.
  exists ms, (sent_of projected chosen). split_and!; [done|by rewrite sent_messages|done|].
  intros i m m' Hi Hsi Ho Ht.
  destruct (validated_tool_groups ms tt i m (normalized_valid _ _ _ _ Hn) Hi Ht) as (j & c & Hj & Hg & Hc).
  assert (is_Some (sent_of projected chosen !! j)) as [o Hoj].
  { apply lookup_lt_is_Some. rewrite <- (Forall2_length _ _ _ (rs_each _ _ Hs)). by eapply lookup_lt_Some. }
  assert (is_Some o) as [c' ->]; [|by exists j, c, c'].
  destruct (optional c) eqn:Ec.
  - eapply (rs_atomic _ _ Hs i j); eauto.
  - pose proof (Forall2_lookup_lr _ _ _ _ _ _ (rs_each _ _ Hs) Hj Hoj) as He.
    destruct o; [by eexists|]. cbn in He. congruence.
Qed.
End Requests.

(** ** A request *)

#[local] Instance char_tokens : TokenEstimator := { estimate s := N.of_nat (length s) }.
#[local] Instance plain_evidence : Reprojection :=
  { reproject_evidence_view _ _ := None; reproject_rag_evidence_payload _ _ := None }.
Definition sample_memories : json :=
  JObj [(lit "memories", JArr
    [JObj [(lit "id", JStr (lit "00000000-0000-0000-0000-000000000001"));
           (lit "kind", JStr (lit "FACT")); (lit "content", JStr (lit "The team is in Hangzhou."))];
     JObj [(lit "id", JStr (lit "00000000-0000-0000-0000-000000000002"));
           (lit "kind", JStr (lit "PREFERENCE")); (lit "content", JStr (lit "Answers in English."))]])].
#[local] Instance sample_text : JsonText :=
  {| loads s := if bool_decide (head s = Some 123%N) then Some (JObj []) else None;
     loads_strict s := if bool_decide (s = dump sample_memories) then Some sample_memories else None |}.

Definition sample_model : ResolvedModelExecutionProfile :=
  {| ep_id := lit "p1"; ep_provider_credential_id := lit "c1"; ep_provider := lit "openai";
     ep_model := lit "large"; ep_max_tokens := 500;
     ep_capabilities := {| tool_calling := true; streaming := true; structured_output := false;
       vision := false; max_context_tokens := Some 4000; context_metadata := None |} |}.
Definition sample_runtime : list (list N * json) :=
  [(lit "context_policy", default JNull
      (resolve_context_policy (JObj [(lit "preset", JStr (lit "GENERAL_64K"))])
         [chain_entry sample_model] (JInt 500)));
   (lit "context_budget", JObj [(lit "reserved_output_tokens", JInt 500);
                                (lit "max_tool_result_tokens", JInt 200)]);
   (lit "memory", JObj [(lit "max_memory_tokens", JInt 200)])].

Definition text_message (r : MessageRole) (s : string) : ModelMessage :=
  {| role := r; content := Some (lit s); msg_name := None; tool_call_id := None; tool_calls := [] |}.
Definition sample_given : list Given :=
  let item m c g := Categorised {| message := m; category := c; exchange_group := g |} in
  [item (text_message role_system "You are helpful.") SYSTEM_PROMPT None;
   item {| role := role_user; content := Some (dump sample_memories); msg_name := None;
           tool_call_id := None; tool_calls := [] |} MEMORY None;
   item (text_message role_user "What is the status?") CONVERSATION (Some (lit "turn-1"));
   item {| role := role_assistant; content := None; msg_name := None; tool_call_id := None;
           tool_calls := [{| call_name := lit "status"; call_arguments := JObj [];
                             provider_tool_call_id := Some (lit "call-1") |}] |}
     CONVERSATION (Some (lit "turn-1"));
   item {| role := role_tool; content := Some (replicate 300 65%N); msg_name := None;
           tool_call_id := Some (lit "call-1"); tool_calls := [] |} TOOL_RESULT (Some (lit "turn-1"));
   item (text_message role_user "And now?") CURRENT_USER_TASK None].

Definition sample_self : ContextBudgetPolicy :=
  match new_policy sample_runtime [sample_model] None with
  | Return p => p | Raise _ => {| config := default_config; context_policy := None; profiles := [] |}
  end.
Definition empty_usage : ContextBudgetUsage :=
  {| us_context_limit := None; us_reserved_output := 0; us_available_input := 0;
     us_estimated_input_before := 0; us_estimated_input_after := 0; us_truncated := false;
     us_dropped_exchange_count := 0; us_estimated_by_category := λ _, 0;
     us_retained_by_category := λ _, 0; us_truncated_by_category := λ _, 0;
     us_context_policy_version := None; us_model_available_input := None |}.
Definition sample_admission : ContextAdmissionResult :=
  match admit_context sample_self sample_given None None [] with
  | Return r => r
  | Raise _ => {| ar_messages := []; ar_tool_definitions := []; ar_usage := empty_usage;
                  ar_message_categories := []; ar_memory_admission := None |}
  end.

Lemma sample_policy_built : new_policy sample_runtime [sample_model] None = Return sample_self.
Proof. vm_compute. reflexivity. Qed.
Lemma sample_admitted : admit_context sample_self sample_given None None [] = Return sample_admission.
Proof. vm_compute. reflexivity. Qed.

Lemma request_fits_every_model_witness :
  us_estimated_input_after (ar_usage sample_admission) + 500 ≤ 4000 ∧
  us_retained_by_category (ar_usage sample_admission) TOOL_RESULT ≤ 200.
Proof.
  destruct (request_fits_every_model sample_runtime [sample_model] None sample_self sample_given
    None None [] sample_admission sample_policy_built sample_admitted)
    as (ts & us & o & _ & _ & _ & _ & _ & _ & Htool & _ & _ & Hfit).
  split; [exact (Hfit sample_model 4000 (list_elem_of_here _ _) eq_refl)|exact Htool].
Defined.

Lemma admitted_request_is_sound_witness :
  ∃ ms sent, _normalize_messages sample_given None None = Return ms ∧
    ar_messages sample_admission = omap id sent ∧ length sent = 6%nat ∧ request_sound ms sent.
Proof.
  destruct (admitted_request_is_sound sample_runtime [sample_model] None sample_self sample_given
    None None [] sample_admission sample_policy_built sample_admitted) as (ms & sent & Hn & Hs & Hr & _).
  exists ms, sent. split; [exact Hn|]. split; [exact Hs|]. split; [|exact Hr].
  rewrite <- (Forall2_length _ _ _ (rs_each _ _ Hr)). vm_compute in Hn. injection Hn as <-. reflexivity.
Defined.

(** ** Recalled memory is reported exactly *)

Lemma bind_nodup_unique {A B} (f : A → list B) (l : list A) i j a b x :
  NoDup (l ≫= f) → l !! i = Some a → l !! j = Some b → x ∈ f a → x ∈ f b → i = j.
Proof.
  revert i j. induction l as [|y l IH]; intros i j; [done|].
  rewrite bind_cons. intros (_ & Hdis & Hnd)%NoDup_app.
  assert (∀ k z, l !! k = Some z → x ∈ f z → x ∈ l ≫= f) as Hin.
  { intros k z Hk Hx. apply list_elem_of_bind. exists z. split; [done|by eapply list_elem_of_lookup_2]. }
  destruct i as [|i], j as [|j]; cbn; intros Hi Hj Ha Hb; [done|..].
  - injection Hi as ->. exfalso. apply (Hdis x Ha). by eapply Hin.
  - injection Hj as ->. exfalso. apply (Hdis x Hb). by eapply Hin.
  - f_equal. by eapply IH.
Qed.

Lemma bind_nodup_part {A B} (f : A → list B) (l : list A) i a :
  NoDup (l ≫= f) → l !! i = Some a → NoDup (f a).
Proof.
  revert i. induction l as [|y l IH]; intros i; [done|]. rewrite bind_cons.
  intros (Hy & _ & Hnd)%NoDup_app. destruct i; cbn; [by intros [= ->]|by apply IH].
Qed.

Section Memory.
Context {estimator : TokenEstimator} {reprojection : Reprojection} {json_text : JsonText}.

Lemma parse_payloads_inv k seen ms ps i m :
  parse_payloads k seen ms = Return ps → ms !! i = Some m → category m = MEMORY →
  ∃ p, ps !! (k + i)%nat = Some p ∧ _parse_memory_payload (content (message m)) = Return p.
Proof.
  revert k seen ps i. induction ms as [|x ms IH]; intros k seen ps i; [done|]. cbn [parse_payloads].
  case_bool_decide as Hc.
  - intros H. apply obind_inv in H as (p & Hp & H). apply obind_inv in H as (u & _ & H).
    apply obind_inv in H as (rest & Hr & H). injection H as <-. destruct i as [|i]; cbn.
    + intros [= ->] _. exists p. by rewrite Nat.add_0_r, lookup_insert_eq.
    + intros Hi Hm. rewrite lookup_insert_ne by lia. rewrite <- Nat.add_succ_comm. by eapply IH.
  - intros H. destruct i as [|i]; cbn; [by intros [= ->]|]. intros Hi Hm.
    rewrite <- Nat.add_succ_comm. by eapply IH.
Qed.

(** The admission of memory, message by message. *)
Lemma memory_admission_inv raw projected selected payloads a :
  _memory_admission raw projected selected payloads = Return a →
  match a with
  | None => of_category MEMORY raw = []
  | Some a => ∃ parts,
      Forall2 (λ n part, ∃ p, payloads !! nm_index n = Some p ∧ part.1 = mc_id <$> candidates p ∧
        memory_outcome projected selected (nm_index n) p = Return part.2)
        (of_category MEMORY raw) parts ∧
      ma_selected_ids a = parts ≫= fst ∧ ma_admitted_ids a = (parts ≫= λ q, q.2.1) ∧
      NoDup (ma_selected_ids a) ∧
      ma_admitted_ids a ++ (ma_dropped_reasons a).*1 ≡ₚ ma_selected_ids a
  end.
Proof.
  unfold _memory_admission. destruct (of_category MEMORY raw) as [|n0 ns]; [by intros [= <-]|].
  intros H. apply obind_inv in H as (parts & Hparts & H). apply ofmap_inv in H as (b & Hb & ->).
  exists parts. split.
  { apply traverse_Forall2 in Hparts. eapply Forall2_impl; [exact Hparts|]. cbn. intros n part H.
    apply obind_inv in H as (p & Hp & H). apply or_raise_inv in Hp.
    apply obind_inv in H as (r & Hr & H). injection H as <-. eauto. }
  clear Hparts. revert Hb. generalize (parts ≫= fst) (parts ≫= λ q, q.2.1).
  intros sel adm. unfold new_memory_admission.
  set (reasons := list_to_map _ : gmap (list N) DropReason). intros H.
  apply obind_inv in H as (u1 & H1 & H). apply obind_inv in H as (u2 & H2 & H).
  apply obind_inv in H as (u3 & H3 & H). injection H as <-. cbn.
  apply fail_if_inv in H1, H2, H3. apply negb_false_iff in H1, H3.
  apply andb_true_iff in H1 as [Hns%bool_decide_eq_true Hna%bool_decide_eq_true].
  apply bool_decide_eq_true in H3.
  assert (∀ x, x ∈ adm → x ∈ sel) as Hsub.
  { intros x Hx. destruct (decide (x ∈ sel)); [done|]. exfalso.
    eapply not_true_iff_false; [exact H2|]. apply existsb_exists. exists x.
    split; [by apply list_elem_of_In|by apply bool_decide_eq_true]. }
  split_and!; [done..|].
  assert ((omap (λ i, pair i <$> reasons !! i) sel).*1 = filter (λ i, i ∉ adm) sel) as ->.
  { assert (∀ i, i ∈ sel → is_Some (reasons !! i) ↔ i ∉ adm) as Hr.
    { intros i Hi. rewrite <- elem_of_dom, H3. set_solver. }
    clear -Hr. induction sel as [|i sel IH]; [done|]. rewrite filter_cons.
    specialize (IH ltac:(set_solver)). specialize (Hr i ltac:(set_solver)). cbn.
    destruct (reasons !! i) eqn:E; cbn.
    - rewrite decide_True by (apply Hr; eauto). cbn. by rewrite <- IH.
    - rewrite decide_False; [done|]. intros Hn%Hr. by destruct Hn. }
  apply NoDup_Permutation; [|done|].
  - apply NoDup_app. split_and!; [done| |by apply NoDup_filter].
    intros x Hx [Hn _]%list_elem_of_filter. done.
  - intros x. rewrite elem_of_app, list_elem_of_filter. destruct (decide (x ∈ adm)); naive_solver.
Qed.

(** What the request shows of one recalled payload, given the identifiers
    reported as admitted. *)
Definition memory_shown (p : _MemoryPayload) (admitted : list (list N)) (m : ContextMessage)
    (sent : option ModelMessage) : Prop :=
  match sent with
  | None => ∀ c, c ∈ candidates p → mc_id c ∉ admitted
  | Some m' => ∃ shown noted t,
      m' = with_content (message m)
             (dump (memory_content (if noted : bool then note p else None) shown t)) ∧
      shown `sublist_of` candidates p ∧ (t = false → shown = candidates p) ∧
      ∀ c, c ∈ candidates p → mc_id c ∈ admitted ↔ mc_id c ∈ mc_id <$> shown
  end.

Lemma by_index_projected l i q :
  NoDup (nm_index <$> l) → q ∈ l → nm_index q = i → by_nm_index i l = Some q.
Proof.
  intros Hnd Hq Hi. unfold by_nm_index. destruct (find _ l) as [x|] eqn:E.
  - apply find_in_pool in E as [Hx Hxi]. f_equal. apply (index_inj nm_index l); congruence.
  - exfalso. eapply find_none in E; [|by apply list_elem_of_In]. cbn in E. apply Nat.eqb_neq in E. done.
Qed.

Lemma by_index_none l i : (∀ q, q ∈ l → nm_index q ≠ i) → by_nm_index i l = None.
Proof.
  intros H. unfold by_nm_index. destruct (find _ l) as [x|] eqn:E; [|done].
  apply find_in_pool in E as [Hx Hxi]. by destruct (H x Hx).
Qed.

(** The identifiers reported for one memory message are those it shows. *)
Lemma memory_outcome_shown self payloads n q projected chosen p r :
  placed self payloads n q → NoDup (nm_index <$> projected) → q ∈ projected →
  nm_category n = MEMORY → payloads !! nm_index n = Some p → NoDup (mc_id <$> candidates p) →
  memory_outcome projected (selected_of projected chosen) (nm_index n) p = Return r →
  (∀ x, x ∈ r.1 → x ∈ mc_id <$> candidates p) ∧
  memory_shown p r.1 (nm_item n)
    (if decide (mandatory q = true ∨ nm_group q ∈ chosen) then nm_admitted_message q else None).
Proof.
  intros Hpl Hnd Hq Hc Hp Hids H. pose proof (pl_index _ _ _ _ Hpl) as Hi.
  unfold memory_outcome in H. rewrite (by_index_projected projected _ q Hnd Hq Hi) in H.
  apply obind_inv in H as (q' & Hq' & H). injection Hq' as <-.
  destruct (pl_memory _ _ _ _ Hpl Hc) as (p' & Hp' & Hperm & Hmsg). replace p' with p in * by congruence.
  case_decide as Hd.
  - assert (q ∈ selected_of projected chosen) as Hin by (by apply list_elem_of_filter).
    assert (NoDup (nm_index <$> selected_of projected chosen)) as Hnds.
    { eapply sublist_NoDup; [exact Hnd|]. apply fmap_sublist, sublist_filter. }
    rewrite (by_index_projected _ _ q Hnds Hin Hi) in H.
    destruct (nm_admitted_message q) as [m'|] eqn:E; injection H as <-; cbn [fst snd memory_shown].
    + destruct (Hmsg m' eq_refl) as (sel & noted & Hsub & Hadm & -> & Hall). split.
      * intros x Hx. rewrite <- Hperm. set_solver.
      * exists sel, noted, (nm_memory_truncated q). by rewrite Hadm.
    + split; [intros x []%not_elem_of_nil|]. intros c _. apply not_elem_of_nil.
  - rewrite by_index_none in H.
    + injection H as <-. split; [intros x []%not_elem_of_nil|]. intros c _. apply not_elem_of_nil.
    + intros x [Hx Hxp]%list_elem_of_filter E. apply Hd.
      by rewrite <- (index_inj nm_index projected x q) by congruence.
Qed.

Lemma memory_shown_ext p adm adm' m o :
  (∀ c, c ∈ candidates p → mc_id c ∈ adm ↔ mc_id c ∈ adm') →
  memory_shown p adm m o → memory_shown p adm' m o.
Proof.
  intros H. destruct o as [m'|]; cbn.
  - intros (sel & noted & t & ? & ? & ? & Hsel). exists sel, noted, t. split_and!; [done..|].
    intros c Hc. rewrite <- (H c Hc). auto.
  - intros Hn c Hc. rewrite <- (H c Hc). auto.
Qed.

(** One memory message and its part of the report. *)
Definition memory_part (projected : list _NormalizedMessage) (chosen : list (list N + nat))
    (payloads : gmap nat _MemoryPayload)
    (n : _NormalizedMessage) (part : list (list N) * (list (list N) * list (list N * DropReason))) : Prop :=
  ∃ p, payloads !! nm_index n = Some p ∧ part.1 = mc_id <$> candidates p ∧
    memory_outcome projected (selected_of projected chosen) (nm_index n) p = Return part.2.

Lemma memory_part_shown self ms raw projected chosen payloads i n part :
  measured_messages self ms raw → Forall2 (placed self payloads) raw projected →
  raw !! i = Some n → nm_category n = MEMORY → NoDup part.1 →
  memory_part projected chosen payloads n part →
  (∀ x, x ∈ part.2.1 → x ∈ part.1) ∧
  ∃ p o, payloads !! i = Some p ∧ part.1 = mc_id <$> candidates p ∧
    sent_of projected chosen !! i = Some o ∧ memory_shown p part.2.1 (nm_item n) o.
Proof.
  intros Hm Hp Hn Hc Hnd (p & Hpp & Hids & Hout).
  destruct (Forall2_lookup_l _ _ _ _ _ Hp Hn) as (q & Hq & Hpl).
  destruct (projected_at _ _ _ _ _ _ _ Hm Hp Hq) as (m & _ & _ & Hx & _).
  rewrite (pl_index _ _ _ _ Hpl) in Hx.
  assert (NoDup (nm_index <$> projected)) as Hndx.
  { rewrite (Forall2_placed_index _ _ _ _ Hp), (mm_index _ _ _ Hm). apply NoDup_seq. }
  rewrite Hids in Hnd |- *.
  destruct (memory_outcome_shown self payloads n q projected chosen p part.2 Hpl Hndx
    (list_elem_of_lookup_2 _ _ _ Hq) Hc Hpp Hnd Hout) as [Hsub Hshown].
  split; [done|]. exists p. eexists. split_and!; [congruence|done| |exact Hshown].
  unfold sent_of. by rewrite list_lookup_fmap, Hq.
Qed.

(** C38. The memory that a request reports as recalled splits without overlap
    into the entries it reports as admitted and the ones it reports as dropped,
    each dropped one with a reason; and the report is what is sent: a memory
    message shows whole entries of its payload, in order, labelled
    [UNTRUSTED], exactly the admitted ones, and it is marked [truncated]
    whenever an entry is missing. *)
Theorem memory_report_is_exact runtime models supplied self given categories groups tools r a :
  new_policy runtime models supplied = Return self →
  admit_context self given categories groups tools = Return r → ar_memory_admission r = Some a →
  NoDup (ma_selected_ids a) ∧
  ma_admitted_ids a ++ (ma_dropped_reasons a).*1 ≡ₚ ma_selected_ids a ∧
  ∃ ms sent, _normalize_messages given categories groups = Return ms ∧ ar_messages r = omap id sent ∧
    ∀ i m, ms !! i = Some m → category m = MEMORY →
      ∃ p o, _parse_memory_payload (content (message m)) = Return p ∧ sent !! i = Some o ∧
        (∀ c, c ∈ candidates p → mc_id c ∈ ma_selected_ids a) ∧
        memory_shown p (ma_admitted_ids a) m o.
Proof.
  intros Hnew H Ha. pose proof (new_policy_ready _ _ _ _ Hnew) as Hready.
  apply admit_inv in H as (ms & payloads & Hn & Hv & H).
  apply (admit_normalized_inv self Hready) in H
    as (limit & reserved & available & overhead & estimates & raw & projected & chosen & H).
  destruct H as [_ _ _ _ _ Hm Hp _ _ _ -> _ _ _ Hmem].
  apply memory_admission_inv in Hmem. rewrite Ha in Hmem.
  destruct Hmem as (parts & HF & Hsel & Hadm & Hnd & Hperm). split_and!; [done..|].
  exists ms, (sent_of projected chosen). split_and!; [done|by rewrite sent_messages|].
  rewrite Hsel in Hnd. fold (memory_part projected chosen payloads) in HF.
  assert (∀ k part, parts !! k = Some part → ∃ i n, raw !! i = Some n ∧ nm_category n = MEMORY ∧
    memory_part projected chosen payloads n part) as Hparts.
  { intros k part Hk. destruct (Forall2_lookup_r _ _ _ _ _ HF Hk) as (n & Hx & Hpart).
    apply list_elem_of_lookup_2, list_elem_of_filter in Hx as [Hc [i Hi]%list_elem_of_lookup]. eauto. }
  intros i m Hi Hc. rewrite <- (mm_items _ _ _ Hm), list_lookup_fmap in Hi.
  destruct (raw !! i) as [n|] eqn:Hni; [|done]. injection Hi as <-.
  assert (n ∈ of_category MEMORY raw) as [k Hk]%list_elem_of_lookup.
  { apply list_elem_of_filter. split; [done|by eapply list_elem_of_lookup_2]. }
  destruct (Forall2_lookup_l _ _ _ _ _ HF Hk) as (part & Hpart & Hmp).
  destruct (memory_part_shown self ms raw projected chosen payloads i n part Hm Hp Hni Hc
    (bind_nodup_part fst parts _ _ Hnd Hpart) Hmp) as (Hsub & p & o & Hpi & Hids & Ho & Hshown).
  destruct (parse_payloads_inv 0 [] ms payloads i (nm_item n) Hv) as (p' & Hp' & Hparse); [|done|].
  { by rewrite <- (mm_items _ _ _ Hm), list_lookup_fmap, Hni. }
  replace p' with p in * by (cbn in Hp'; congruence).
  assert (∀ c, c ∈ candidates p → mc_id c ∈ part.1) as Hin.
  { intros c Hcc. rewrite Hids. by apply list_elem_of_fmap_2. }
  exists p, o. split_and!; [done|done| |].
  - intros c Hcc. rewrite Hsel. apply list_elem_of_bind. exists part.
    split; [by apply Hin|by eapply list_elem_of_lookup_2].
  - eapply memory_shown_ext; [|exact Hshown]. intros c Hcc. rewrite Hadm, list_elem_of_bind. split.
    + intros Hx. exists part. split; [done|by eapply list_elem_of_lookup_2].
    + intros (part' & Hx & [k' Hk']%list_elem_of_lookup).
      destruct (Hparts k' part' Hk') as (i' & n' & Hn' & Hc' & Hmp').
      destruct (memory_part_shown self ms raw projected chosen payloads i' n' part' Hm Hp Hn' Hc'
        (bind_nodup_part fst parts _ _ Hnd Hk') Hmp') as [Hsub' _].
      assert (k' = k) as ->; [|congruence].
      by eapply (bind_nodup_unique fst parts); [exact Hnd|exact Hk'|exact Hpart|apply Hsub'|apply Hin].
Qed.
End Memory.

Definition sample_report : MemoryAdmission :=
  default {| ma_selected_ids := []; ma_admitted_ids := []; ma_dropped_reasons := [] |}
    (ar_memory_admission sample_admission).

Lemma memory_report_is_exact_witness :
  ma_admitted_ids sample_report ++ (ma_dropped_reasons sample_report).*1 ≡ₚ ma_selected_ids sample_report ∧
  length (ma_admitted_ids sample_report) = 1%nat ∧ length (ma_selected_ids sample_report) = 2%nat.
Proof.
  split; [|vm_compute; done].
  apply (memory_report_is_exact sample_runtime [sample_model] None sample_self sample_given
    None None [] sample_admission sample_report sample_policy_built sample_admitted).
  vm_compute. reflexivity.
Defined.
