(* ===== verification/UuidText.v ===== *)
(** * Reading a UUID from text

    Model of [uuid.UUID(text)] and of the [int(text, 16)] it calls, as the
    Python standard library defines them, and the fact that the printed form of
    a UUID reads back.  [py_decimal] is the decimal value of a character in the
    Unicode database. *)

From stdpp Require Import base gmap list strings.
From Stdlib Require Import ZArith NArith Lia.
From S2P Require Import Prelude.
From S2P Require Import Json.
From S2P Require Import JsonTheory.
From S2P Require Import TurnTranscript.
From S2P Require Import TurnTranscriptProperties.

Local Open Scope N_scope.

Class UnicodeDecimal := { py_decimal : N → option N }.

(** [s.replace(pattern, "")]; [skip] counts the characters of a match still to
    be left out. *)
Fixpoint remove_all (pattern : list N) (skip : nat) (s : list N) : list N :=
  match s with
  | [] => []
  | c :: r =>
      match skip with
      | S k => remove_all pattern k r
      | O => if bool_decide (pattern `prefix_of` s) then remove_all pattern (length pattern - 1) r
             else c :: remove_all pattern 0 r
      end
  end.

(** [int(text, 16)]: decimal digits and blanks of any script are first mapped
    to ASCII. *)
Section Int.
Context `{UnicodeDecimal}.

Definition to_ascii (c : N) : N :=
  if c <? 127 then c
  else if py_isspace c then 32
  else match py_decimal c with Some d => 48 + d | None => 63 end.
Definition ascii_space (c : N) : bool := (9 <=? c) && (c <=? 13) || (c =? 32).
Definition hex_value (c : N) : option N :=
  if (48 <=? c) && (c <=? 57) then Some (c - 48)
  else if (97 <=? c) && (c <=? 102) then Some (c - 87)
  else if (65 <=? c) && (c <=? 70) then Some (c - 55) else None.

(** Digits with single underscores between them, then blanks; the flag says
    that a digit must follow. *)
Fixpoint scan_digits (value : N) (expected : bool) (s : list N) : option N :=
  match s with
  | [] => if expected then None else Some value
  | c :: r =>
      match hex_value c with
      | Some d => scan_digits (16 * value + d) false r
      | None => if expected then None
                else if c =? 95 then scan_digits value true r
                else if forallb ascii_space s then Some value else None
      end
  end.

Definition skip_sign (s : list N) : list N :=
  match s with c :: r => if c =? 43 then r else s | [] => s end.
Definition skip_base (s : list N) : list N :=
  match s with
  | 48 :: x :: r => if (x =? 120) || (x =? 88)
                    then match r with 95 :: r' => r' | _ => r end else s
  | _ => s
  end.
(** The caller has removed every minus sign. *)
Definition int_of_hex (s : list N) : option N :=
  scan_digits 0 true (skip_base (skip_sign (drop_while ascii_space (to_ascii <$> s)))).

(** [uuid.UUID(text)]; [None] is a [ValueError]. *)
Definition uuid_of_text (text : list N) : option N :=
  let hex := remove_all (lit "uuid:") 0 (remove_all (lit "urn:") 0 text) in
  let hex := strip_with (λ c, (c =? 123) || (c =? 125)) hex in
  let hex := remove_all [45] 0 hex in
  if bool_decide (length hex = 32%nat) then int_of_hex hex else None.

(** [UUID(str(value))] of a JSON value: only strings and integers print as 32
    hexadecimal digits. *)
Definition uuid_of_json (v : json) : option N :=
  match v with
  | JStr s => uuid_of_text s
  | JInt z => uuid_of_text (dump_int z)
  | _ => None
  end.

(** ** Printed UUIDs read back *)

Lemma remove_all_absent pattern c s : c ∈ pattern → c ∉ s → remove_all pattern 0 s = s.
Proof.
  intros Hc. induction s as [|x s IH]; intros Hs; [done|]. cbn [remove_all].
  rewrite bool_decide_false.
  - by rewrite IH by set_solver.
  - intros [k Hk]. apply Hs. rewrite Hk. set_solver.
Qed.

Lemma remove_all_char c s : remove_all [c] 0 s = filter (λ x, x ≠ c) s.
Proof.
  induction s as [|x s IH]; [done|]. cbn [remove_all].
  rewrite filter_cons. case_bool_decide as Hp; case_decide as Hx; cbn [length Nat.sub].
  - destruct Hp as [k Hk]. by injection Hk as -> _.
  - done.
  - by rewrite IH.
  - exfalso. apply Hp. rewrite Hx. by exists s.
Qed.

Lemma strip_absent p s : Forall (λ c, p c = false) s → strip_with p s = s.
Proof.
  intros Hs. unfold strip_with.
  assert (∀ l, Forall (λ c, p c = false) l → drop_while p l = l) as Hd.
  { intros l Hl. destruct Hl as [|x l Hx Hl]; cbn; [done|]. by rewrite Hx. }
  rewrite (Hd s Hs), Hd; [apply reverse_involutive|]. by apply Forall_reverse.
Qed.

Definition uuid_char (c : N) : Prop := lower_hex c = true ∨ c = 45.

Lemma lower_hex_value c : lower_hex c = true → hex_value c = Some (hex_val c) ∧ to_ascii c = c ∧
  ascii_space c = false ∧ c ≠ 43 ∧ c ≠ 45 ∧ c ≠ 120 ∧ c ≠ 88 ∧ c ≠ 58 ∧ c ≠ 123 ∧ c ≠ 125.
Proof.
  unfold lower_hex, hex_value, hex_val, to_ascii, ascii_space. intros Hc.
  apply orb_true_iff in Hc as [[H1%N.leb_le H2%N.leb_le]%andb_true_iff
                             |[H1%N.leb_le H2%N.leb_le]%andb_true_iff].
  - rewrite (proj2 (N.leb_le 48 c)), (proj2 (N.leb_le c 57)), (proj2 (N.ltb_lt c 58)),
      (proj2 (N.ltb_lt c 127)), (proj2 (N.leb_gt c 13)), (proj2 (N.eqb_neq c 32)) by lia.
    rewrite andb_false_r. split_and!; try done; lia.
  - rewrite (proj2 (N.leb_gt c 57)), (proj2 (N.leb_le 97 c)), (proj2 (N.leb_le c 102)),
      (proj2 (N.ltb_ge c 58)), (proj2 (N.ltb_lt c 127)), (proj2 (N.leb_gt c 13)),
      (proj2 (N.eqb_neq c 32)) by lia.
    rewrite !andb_false_r. split_and!; try done; lia.
Qed.

Lemma scan_lower_hex s v e :
  forallb lower_hex s = true → (s = [] → e = false) →
  scan_digits v e s = Some (fold_left (λ a d, 16 * a + hex_val d) s v).
Proof.
  revert v e. induction s as [|c s IH]; intros v e; cbn [forallb scan_digits fold_left].
  - intros _ He. by rewrite He.
  - intros [Hc Hs]%andb_true_iff _. rewrite (proj1 (lower_hex_value c Hc)). by apply IH.
Qed.

Lemma skip_base_lower s : forallb lower_hex s = true → skip_base s = s.
Proof.
  intros Hs. unfold skip_base. destruct s as [|x [|y r]]; [done|by repeat case_match|].
  cbn [forallb] in Hs. apply andb_true_iff in Hs as [_ [Hy _]%andb_true_iff].
  destruct (lower_hex_value y Hy) as (_ & _ & _ & _ & _ & H1%N.eqb_neq & H2%N.eqb_neq & _).
  rewrite H1, H2. cbn [orb]. by repeat case_match.
Qed.

Lemma int_of_lower_hex s :
  forallb lower_hex s = true → s ≠ [] → int_of_hex s = Some (read_hex s).
Proof.
  intros Hs Hne. unfold int_of_hex.
  assert (to_ascii <$> s = s) as ->.
  { clear Hne. induction s as [|c s IH]; [done|]. cbn [forallb] in Hs.
    apply andb_true_iff in Hs as [Hc Hs]. rewrite fmap_cons, (IH Hs).
    by rewrite (proj1 (proj2 (lower_hex_value c Hc))). }
  assert (skip_sign (drop_while ascii_space s) = s) as ->.
  { destruct s as [|c s]; [done|]. cbn [forallb] in Hs. apply andb_true_iff in Hs as [Hc _].
    destruct (lower_hex_value c Hc) as (_ & _ & Hsp & Hn%N.eqb_neq & _).
    cbn [drop_while skip_sign]. rewrite Hsp. cbn [skip_sign]. by rewrite Hn. }
  rewrite skip_base_lower by done. by rewrite scan_lower_hex by done.
Qed.

Lemma uuid_str_chars u : Forall uuid_char (uuid_str u).
Proof.
  assert (Forall uuid_char (hex_fixed 32 u)) as Hh.
  { apply Forall_forall. intros c Hc. left. pose proof (hex_fixed_lower 32 u) as Hl.
    rewrite forallb_forall in Hl. by apply Hl, list_elem_of_In. }
  unfold uuid_str. set (h := hex_fixed 32 u) in *.
  assert (∀ k j, Forall uuid_char (take k (drop j h))) as Htd
    by (intros; by apply Forall_take, Forall_drop).
  assert (∀ j, Forall uuid_char (drop j h)) as Hd by (intros; by apply Forall_drop).
  pose proof (Htd 8%nat 0%nat) as Ht. rewrite drop_0 in Ht.
  cbn [join]. repeat (apply Forall_app_2; [auto|constructor; [by right|]]). auto.
Qed.

Lemma filter_lower_hex s : forallb lower_hex s = true → filter (λ x, x ≠ 45) s = s.
Proof.
  induction s as [|c s IH]; [done|]. cbn [forallb]. intros [Hc Hs]%andb_true_iff.
  rewrite filter_cons_True by (by destruct (lower_hex_value c Hc) as (_ & _ & _ & _ & ? & _)).
  by rewrite IH.
Qed.

Lemma uuid_str_digits u : filter (λ x, x ≠ 45) (uuid_str u) = hex_fixed 32 u.
Proof.
  pose proof (hex_fixed_lower 32 u) as Hh.
  unfold uuid_str. set (h := hex_fixed 32 u) in *. clearbody h. cbn [join].
  assert (∀ k j, filter (λ x, x ≠ 45) (take k (drop j h)) = take k (drop j h)) as Htd.
  { intros k j. apply filter_lower_hex.
    rewrite <- (take_drop j h), forallb_app, andb_true_iff in Hh. destruct Hh as [_ Hh].
    rewrite <- (take_drop k (drop j h)), forallb_app, andb_true_iff in Hh. by destruct Hh. }
  assert (∀ s t, filter (λ x, x ≠ 45) (s ++ 45 :: t) =
    filter (λ x, x ≠ 45) s ++ filter (λ x, x ≠ 45) t) as Happ.
  { intros s t. rewrite filter_app, (filter_cons_False _ 45) by auto. done. }
  rewrite !Happ. rewrite !Htd.
  pose proof (Htd 8%nat 0%nat) as Ht. rewrite drop_0 in Ht. rewrite Ht.
  pose proof (Htd (length h) 20%nat) as Hd. rewrite firstn_all2 in Hd
    by (rewrite length_drop; lia). rewrite Hd.
  assert (∀ k, drop (4 + k) h = drop 4 (drop k h)) as Hs
    by (intros k; rewrite drop_drop; f_equal; lia).
  by rewrite (Hs 16%nat : drop 20 h = _), take_drop, (Hs 12%nat : drop 16 h = _), take_drop,
    (Hs 8%nat : drop 12 h = _), !take_drop.
Qed.

Lemma uuid_of_str u : u < 2 ^ 128 → uuid_of_text (uuid_str u) = Some u.
Proof.
  intros Hu. pose proof (uuid_str_chars u) as Hc. unfold uuid_of_text.
  assert (58 ∉ uuid_str u) as Hcolon.
  { intros Hin. rewrite Forall_forall in Hc. destruct (Hc _ Hin) as [H'|]; [|done].
    by apply lower_hex_value in H' as (_ & _ & _ & _ & _ & _ & _ & ? & _). }
  rewrite (remove_all_absent (lit "urn:") 58) by (done || (cbn; set_solver)).
  rewrite (remove_all_absent (lit "uuid:") 58) by (done || (cbn; set_solver)).
  rewrite strip_absent.
  2:{ eapply Forall_impl; [exact Hc|]. intros c [Hx| ->]; [|done].
      apply lower_hex_value in Hx as (_ & _ & _ & _ & _ & _ & _ & _ & H1%N.eqb_neq & H2%N.eqb_neq).
      by rewrite H1, H2. }
  rewrite remove_all_char, uuid_str_digits. rewrite bool_decide_true by apply hex_fixed_length.
  rewrite int_of_lower_hex by (by rewrite hex_fixed_lower || (intros E; by apply (f_equal length) in E)).
  rewrite read_hex_fixed. by rewrite N.mod_small.
Qed.

(** ** What is read is a 128-bit number *)

Lemma hex_value_bound c d : hex_value c = Some d → d < 16.
Proof.
  unfold hex_value. intros Hd. repeat case_match; try done; injection Hd as <-;
    repeat match goal with E : _ && _ = true |- _ =>
      apply andb_true_iff in E as [?%N.leb_le ?%N.leb_le] end; lia.
Qed.

Lemma scan_digits_bound s v e u :
  scan_digits v e s = Some u → u < (v + 1) * 16 ^ N.of_nat (length s).
Proof.
  revert v e. induction s as [|c s IH]; intros v e; cbn [scan_digits length].
  - destruct e; [done|]. intros [= <-]. cbn. lia.
  - rewrite Nat2N.inj_succ, N.pow_succ_r'.
    assert (0 < 16 ^ N.of_nat (length s)) by (apply N.neq_0_lt_0, N.pow_nonzero; done).
    destruct (hex_value c) as [d|] eqn:Hd.
    + intros Hu%IH. apply hex_value_bound in Hd. nia.
    + destruct e; [done|]. destruct (c =? 95); [intros Hu%IH; nia|].
      destruct (forallb _ _); [|done]. intros [= <-]. nia.
Qed.

Lemma skip_sign_length s : (length (skip_sign s) ≤ length s)%nat.
Proof. destruct s as [|c s]; cbn; [done|]. destruct (c =? 43); cbn; lia. Qed.
Lemma skip_base_length s : (length (skip_base s) ≤ length s)%nat.
Proof. unfold skip_base. repeat case_match; cbn; lia. Qed.

Lemma uuid_of_text_bound t u : uuid_of_text t = Some u → u < 2 ^ 128.
Proof.
  unfold uuid_of_text. case_bool_decide as Hl; [|done]. unfold int_of_hex. intros Hu.
  apply scan_digits_bound in Hu.
  set (hex := remove_all _ _ _) in *. set (s := skip_base _) in Hu.
  assert (length s ≤ 32)%nat as Hs.
  { unfold s. pose proof (skip_base_length (skip_sign (drop_while ascii_space (to_ascii <$> hex)))).
    pose proof (skip_sign_length (drop_while ascii_space (to_ascii <$> hex))).
    pose proof (drop_while_length ascii_space (to_ascii <$> hex)) as Hd.
    rewrite length_fmap in Hd. lia. }
  apply (N.lt_le_trans _ _ _ Hu). rewrite N.mul_1_l. change (2 ^ 128) with (16 ^ 32).
  apply N.pow_le_mono_r; lia.
Qed.

Lemma uuid_of_json_bound v u : uuid_of_json v = Some u → u < 2 ^ 128.
Proof. destruct v; cbn; try done; apply uuid_of_text_bound. Qed.
End Int.
