(* ===== verification/WorkLayer.v ===== *)
(** * The contracts of the work layer

    Model of [packages/agent_runtime/work_layer.py]: the frozen snapshot of a
    thread's history that a run persists (its scope, the sources selected under
    a watermark, their artifacts, how complete the measurement was) with the
    checks of every constructor, the manifest written to the database and its
    strict reader, and the earlier turns as the runtime sees them.

    A raised [ValueError] is [None].  Fields have their Python types, so the
    [isinstance] checks of the constructors hold by typing. *)

From stdpp Require Import base gmap list strings sorting.
From Stdlib Require Import ZArith NArith Lia.
From S2P Require Import Prelude.
From S2P Require Import Json.
From S2P Require Import TurnTranscript.
From S2P Require Import ContextMetadata.
From S2P Require Import ContextPolicy.
From S2P Require Import UuidText.

Local Open Scope Z_scope.

Definition HISTORY_SOURCE_CONTRACT_VERSION : Z := 1.
Definition HISTORY_SOURCE_POLICY : list N := lit "deterministic_history_v1".
Definition HISTORY_SOURCE_COUNT_VERSION : Z := 1.
Definition HISTORY_SOURCE_COMPLETE : list N := lit "COMPLETE".
Definition HISTORY_SOURCE_LIMIT_REACHED : list N := lit "LIMIT_REACHED".
Definition HISTORY_SOURCE_TURN_SCAN_LIMIT : list N := lit "TURN_SCAN_LIMIT_REACHED".
Definition HISTORY_SOURCE_TURN_SELECTION_LIMIT : list N := lit "TURN_SELECTION_LIMIT_REACHED".
Definition HISTORY_SOURCE_ARTIFACT_LIMIT : list N := lit "ARTIFACT_LIMIT_REACHED".
Definition FROZEN_WATERMARK : list N := lit "FROZEN_WATERMARK".
Definition LOWER_BOUND : list N := lit "LOWER_BOUND".
Definition PLAIN_TEXT_PREFIX_V1 : list N := lit "plain_text_prefix_v1".
Definition PLAIN_TEXT_PREFIX_V1_ELIGIBLE_REASON : list N :=
  lit "PLAIN_TEXT_PREFIX_V1_SIMPLE_COMPLETED_EXCHANGE".
Definition HISTORY_SOURCE_MAX_TURNS : Z := 200.
Definition HISTORY_SOURCE_MAX_TURNS_SCANNED : Z := 2000.
Definition HISTORY_SOURCE_MAX_ARTIFACTS : Z := 5000.
Definition HISTORY_SOURCE_MAX_PAGE_SIZE : Z := 500.

Definition in_texts (s : list N) (l : list (list N)) : bool := bool_decide (s ∈ l).
Definition same (s t : list N) : bool := bool_decide (s = t).

(** ** Field readers *)

Definition _positive_int (v : json) : option Z :=
  match v with JInt z => if z <? 1 then None else Some z | _ => None end.
Definition _nonnegative_int (v : json) : option Z :=
  match v with JInt z => if z <? 0 then None else Some z | _ => None end.
Definition _trimmed_text (v : json) : option (list N) :=
  match v with JStr s => if trimmed s then Some s else None | _ => None end.
Definition sha256_ok (s : list N) : bool :=
  trimmed s && bool_decide (length s = 64%nat) && forallb lower_hex s.
Definition _sha256_text (v : json) : option (list N) :=
  s ← _trimmed_text v; require (sha256_ok s);; mret s.
Definition _uuid_value `{UnicodeDecimal} (v : json) : option N := uuid_of_json v.
Definition read_bool (v : json) : option bool := match v with JBool b => Some b | _ => None end.
(** [None if value is None else reader(value)] *)
Definition nullable {A} (reader : json → option A) (v : json) : option (option A) :=
  match v with JNull => Some None | _ => Some <$> reader v end.

(** ** Proofs of the plain-text prefix policy *)

Inductive PlainTextPrefixProofStatus := ELIGIBLE | INELIGIBLE | UNPROVEN.
#[global] Instance proof_status_dec : EqDecision PlainTextPrefixProofStatus.
Proof. solve_decision. Defined.
Definition proof_status_value (s : PlainTextPrefixProofStatus) : list N :=
  match s with
  | ELIGIBLE => lit "ELIGIBLE" | INELIGIBLE => lit "INELIGIBLE" | UNPROVEN => lit "UNPROVEN"
  end.

Record PlainTextPrefixProof := {
  pf_status : PlainTextPrefixProofStatus;
  pf_reason : list N;
  pf_policy : list N
}.
(** The constructor: the status may be given as its text. *)
Definition new_proof (status reason policy : list N) : option PlainTextPrefixProof :=
  s ← find (λ s, same (proof_status_value s) status) [ELIGIBLE; INELIGIBLE; UNPROVEN];
  require (same policy PLAIN_TEXT_PREFIX_V1);;
  require (trimmed reason);;
  mret {| pf_status := s; pf_reason := reason; pf_policy := policy |}.

(** ** The scope of a snapshot *)

Record ThreadHistorySourceScope := {
  sc_workspace_id : uuid;
  sc_thread_id : uuid;
  sc_before_run_id : uuid;
  sc_before_sequence : Z;
  sc_max_turns : Z;
  sc_max_turns_scanned : Z;
  sc_max_artifacts : Z;
  sc_artifact_page_size : Z;
  sc_count_version : Z;
  sc_policy : list N;
  sc_contract_version : Z
}.
#[global] Instance scope_dec : EqDecision ThreadHistorySourceScope.
Proof. solve_decision. Defined.

(** [ThreadHistorySourceScope.__post_init__] *)
Definition new_source_scope (s : ThreadHistorySourceScope) : option ThreadHistorySourceScope :=
  require (forallb (Z.leb 1) [sc_before_sequence s; sc_max_turns s; sc_max_turns_scanned s;
             sc_max_artifacts s; sc_artifact_page_size s; sc_count_version s]);;
  require (sc_max_turns s <=? HISTORY_SOURCE_MAX_TURNS);;
  require (sc_max_turns_scanned s <=? HISTORY_SOURCE_MAX_TURNS_SCANNED);;
  require (sc_max_turns s <=? sc_max_turns_scanned s);;
  require (sc_max_artifacts s <=? HISTORY_SOURCE_MAX_ARTIFACTS);;
  require (sc_artifact_page_size s <=? HISTORY_SOURCE_MAX_PAGE_SIZE);;
  require (sc_count_version s =? HISTORY_SOURCE_COUNT_VERSION);;
  require (same (sc_policy s) HISTORY_SOURCE_POLICY);;
  require (sc_contract_version s =? HISTORY_SOURCE_CONTRACT_VERSION);;
  mret s.

Definition uuid_json (u : uuid) : json := JStr (uuid_str u).

(** [scope.to_manifest()], and without its version. *)
Definition scope_items (s : ThreadHistorySourceScope) : list (list N * json) :=
  [(lit "policy", JStr (sc_policy s));
   (lit "workspace_id", uuid_json (sc_workspace_id s));
   (lit "thread_id", uuid_json (sc_thread_id s));
   (lit "before_run_id", uuid_json (sc_before_run_id s));
   (lit "before_sequence", JInt (sc_before_sequence s));
   (lit "max_turns", JInt (sc_max_turns s));
   (lit "max_turns_scanned", JInt (sc_max_turns_scanned s));
   (lit "max_artifacts", JInt (sc_max_artifacts s));
   (lit "artifact_page_size", JInt (sc_artifact_page_size s));
   (lit "count_version", JInt (sc_count_version s))].
Definition scope_to_manifest (s : ThreadHistorySourceScope) : json :=
  JObj ((lit "contract_version", JInt (sc_contract_version s)) :: scope_items s).

Definition scope_required : list (list N) :=
  lit <$> ["contract_version"; "policy"; "workspace_id"; "thread_id"; "before_run_id";
    "before_sequence"; "max_turns"; "max_turns_scanned"; "max_artifacts"; "artifact_page_size";
    "count_version"]%string.

Section Reading.
Context `{UnicodeDecimal}.

(** The scope part of [ThreadHistorySourceManifest.from_manifest]. *)
Definition scope_from_manifest (v : json) : option ThreadHistorySourceScope :=
  match v with
  | JObj l =>
      require (has_exactly scope_required l);;
      version ← _positive_int (field "contract_version" l);
      policy ← _trimmed_text (field "policy" l);
      workspace ← _uuid_value (field "workspace_id" l);
      thread ← _uuid_value (field "thread_id" l);
      run ← _uuid_value (field "before_run_id" l);
      sequence ← _positive_int (field "before_sequence" l);
      turns ← _positive_int (field "max_turns" l);
      scanned ← _positive_int (field "max_turns_scanned" l);
      artifacts ← _positive_int (field "max_artifacts" l);
      page ← _positive_int (field "artifact_page_size" l);
      count ← _positive_int (field "count_version" l);
      new_source_scope {| sc_workspace_id := workspace; sc_thread_id := thread;
        sc_before_run_id := run; sc_before_sequence := sequence; sc_max_turns := turns;
        sc_max_turns_scanned := scanned; sc_max_artifacts := artifacts;
        sc_artifact_page_size := page; sc_count_version := count; sc_policy := policy;
        sc_contract_version := version |}
  | _ => None
  end.

(** ** Artifacts *)

Record ThreadHistoryArtifactIdentity := { ai_artifact_id : uuid; ai_content_sha256 : list N }.

Definition new_artifact (a : ThreadHistoryArtifactIdentity) : option ThreadHistoryArtifactIdentity :=
  require (sha256_ok (ai_content_sha256 a));; mret a.
Definition artifact_to_manifest (a : ThreadHistoryArtifactIdentity) : json :=
  JObj [(lit "artifact_id", uuid_json (ai_artifact_id a));
        (lit "content_sha256", JStr (ai_content_sha256 a))].
Definition artifact_from_manifest (v : json) : option ThreadHistoryArtifactIdentity :=
  match v with
  | JObj l =>
      require (has_exactly (lit <$> ["artifact_id"; "content_sha256"]%string) l);;
      id ← _uuid_value (field "artifact_id" l);
      sha ← _sha256_text (field "content_sha256" l);
      new_artifact {| ai_artifact_id := id; ai_content_sha256 := sha |}
  | _ => None
  end.

(** ** Sources *)

Record ThreadHistorySourceIdentity := {
  si_source_id : list N;
  si_workspace_id : uuid;
  si_thread_id : uuid;
  si_turn_id : uuid;
  si_run_id : uuid;
  si_sequence : Z;
  si_watermark : Z;
  si_exchange_id : list N;
  si_original_ref : list N;
  si_count_version : Z;
  si_user_input_sha256 : list N;
  si_final_output_sha256 : list N;
  si_revision_sha256 : list N;
  si_artifact_identities : list ThreadHistoryArtifactIdentity;
  si_summary_eligibility : list N;
  si_summary_eligibility_reason : list N
}.

Definition si_artifact_ids (s : ThreadHistorySourceIdentity) : list uuid :=
  ai_artifact_id <$> si_artifact_identities s.

(** [ids == tuple(sorted(set(ids)))] *)
Definition sorted_unique (ids : list uuid) : bool :=
  bool_decide (ids = merge_sort N.le (remove_dups ids)).

(** [ThreadHistorySourceIdentity.__post_init__] *)
Definition new_source (s : ThreadHistorySourceIdentity) : option ThreadHistorySourceIdentity :=
  require (same (si_source_id s) (lit "thread-turn:" ++ uuid_str (si_turn_id s)));;
  require (same (si_exchange_id s) (si_source_id s));;
  require (same (si_original_ref s) (si_source_id s));;
  require (1 <=? si_sequence s);;
  require (1 <=? si_watermark s);;
  require (si_sequence s <? si_watermark s);;
  require (si_count_version s =? HISTORY_SOURCE_COUNT_VERSION);;
  require (forallb sha256_ok
    [si_user_input_sha256 s; si_final_output_sha256 s; si_revision_sha256 s]);;
  require (sorted_unique (si_artifact_ids s));;
  require (in_texts (si_summary_eligibility s)
    (lit <$> ["ELIGIBLE"; "INELIGIBLE"; "UNKNOWN"]%string));;
  require (trimmed (si_summary_eligibility_reason s));;
  mret s.

Definition source_to_manifest (s : ThreadHistorySourceIdentity) : json :=
  JObj [(lit "source_id", JStr (si_source_id s));
        (lit "workspace_id", uuid_json (si_workspace_id s));
        (lit "thread_id", uuid_json (si_thread_id s));
        (lit "turn_id", uuid_json (si_turn_id s));
        (lit "run_id", uuid_json (si_run_id s));
        (lit "sequence", JInt (si_sequence s));
        (lit "watermark", JInt (si_watermark s));
        (lit "exchange_id", JStr (si_exchange_id s));
        (lit "original_ref", JStr (si_original_ref s));
        (lit "count_version", JInt (si_count_version s));
        (lit "user_input_sha256", JStr (si_user_input_sha256 s));
        (lit "final_output_sha256", JStr (si_final_output_sha256 s));
        (lit "revision_sha256", JStr (si_revision_sha256 s));
        (lit "artifact_identities", JArr (artifact_to_manifest <$> si_artifact_identities s));
        (lit "summary_eligibility", JStr (si_summary_eligibility s));
        (lit "summary_eligibility_reason", JStr (si_summary_eligibility_reason s))].

Definition source_required : list (list N) :=
  lit <$> ["source_id"; "workspace_id"; "thread_id"; "turn_id"; "run_id"; "sequence"; "watermark";
    "exchange_id"; "original_ref"; "count_version"; "user_input_sha256"; "final_output_sha256";
    "revision_sha256"; "artifact_identities"; "summary_eligibility";
    "summary_eligibility_reason"]%string.

Definition source_from_manifest (v : json) : option ThreadHistorySourceIdentity :=
  match v with
  | JObj l =>
      require (has_exactly source_required l);;
      match field "artifact_identities" l with
      | JArr artifact_values =>
          source_id ← _trimmed_text (field "source_id" l);
          workspace ← _uuid_value (field "workspace_id" l);
          thread ← _uuid_value (field "thread_id" l);
          turn ← _uuid_value (field "turn_id" l);
          run ← _uuid_value (field "run_id" l);
          sequence ← _positive_int (field "sequence" l);
          watermark ← _positive_int (field "watermark" l);
          exchange ← _trimmed_text (field "exchange_id" l);
          original ← _trimmed_text (field "original_ref" l);
          count ← _positive_int (field "count_version" l);
          user ← _sha256_text (field "user_input_sha256" l);
          final ← _sha256_text (field "final_output_sha256" l);
          revision ← _sha256_text (field "revision_sha256" l);
          artifacts ← mapM artifact_from_manifest artifact_values;
          eligibility ← _trimmed_text (field "summary_eligibility" l);
          reason ← _trimmed_text (field "summary_eligibility_reason" l);
          new_source {| si_source_id := source_id; si_workspace_id := workspace;
            si_thread_id := thread; si_turn_id := turn; si_run_id := run;
            si_sequence := sequence; si_watermark := watermark; si_exchange_id := exchange;
            si_original_ref := original; si_count_version := count;
            si_user_input_sha256 := user; si_final_output_sha256 := final;
            si_revision_sha256 := revision; si_artifact_identities := artifacts;
            si_summary_eligibility := eligibility; si_summary_eligibility_reason := reason |}
      | _ => None
      end
  | _ => None
  end.
End Reading.

(** ** The manifest of a snapshot *)

Record ThreadHistorySourceManifest := {
  mf_scope : ThreadHistorySourceScope;
  mf_status : list N;
  mf_selected_sources : list ThreadHistorySourceIdentity;
  mf_selected_source_count : Z;
  mf_available_eligible_source_count : Z;
  mf_selected_artifact_count : Z;
  mf_available_artifact_count : option Z;
  mf_available_artifact_count_scope : list N;
  mf_available_source_count : option Z;
  mf_available_source_count_scope : list N;
  mf_provenance_complete : bool;
  mf_below_watermark_has_eligible_source : bool;
  mf_work_limit_reached : bool;
  mf_limit_reason : option (list N);
  mf_detail : option (list N);
  mf_manifest_sha256 : list N;
  mf_contract_version : Z
}.

(** The payload, whose scope may leave out its version. *)
Definition payload_with (scope : json) (m : ThreadHistorySourceManifest)
    (rest : list (list N * json)) : json :=
  JObj ([(lit "scope", scope);
         (lit "status", JStr (mf_status m));
         (lit "selected_sources", JArr (source_to_manifest <$> mf_selected_sources m));
         (lit "selected_source_count", JInt (mf_selected_source_count m));
         (lit "available_eligible_source_count", JInt (mf_available_eligible_source_count m));
         (lit "selected_artifact_count", JInt (mf_selected_artifact_count m));
         (lit "available_artifact_count", opt_int (mf_available_artifact_count m));
         (lit "available_artifact_count_scope", JStr (mf_available_artifact_count_scope m));
         (lit "available_source_count", opt_int (mf_available_source_count m));
         (lit "available_source_count_scope", JStr (mf_available_source_count_scope m));
         (lit "provenance_complete", JBool (mf_provenance_complete m));
         (lit "below_watermark_has_eligible_source",
            JBool (mf_below_watermark_has_eligible_source m));
         (lit "work_limit_reached", JBool (mf_work_limit_reached m));
         (lit "limit_reason", opt_text (mf_limit_reason m));
         (lit "detail", opt_text (mf_detail m))] ++ rest).

Definition payload (include_manifest_hash include_contract_version : bool)
    (m : ThreadHistorySourceManifest) : json :=
  payload_with
    (if include_contract_version then scope_to_manifest (mf_scope m) else JObj (scope_items (mf_scope m)))
    m
    ((if include_contract_version
      then [(lit "contract_version", JInt (mf_contract_version m))] else [])
     ++ (if include_manifest_hash
         then [(lit "manifest_sha256", JStr (mf_manifest_sha256 m))] else [])).

Definition manifest_to_manifest (m : ThreadHistorySourceManifest) : json := payload true true m.

(** [(source.sequence, source.source_id)] and the order of such tuples. *)
Definition source_key (s : ThreadHistorySourceIdentity) : Z * list N :=
  (si_sequence s, si_source_id s).
Definition source_key_leb (a b : Z * list N) : bool :=
  (a.1 <? b.1) || (a.1 =? b.1) && pystr_leb a.2 b.2.
Definition source_key_le (a b : Z * list N) : Prop := source_key_leb a b = true.
#[global] Instance source_key_le_dec : RelDecision source_key_le :=
  λ a b, decide (source_key_leb a b = true).

Definition in_scope (sc : ThreadHistorySourceScope) (s : ThreadHistorySourceIdentity) : bool :=
  bool_decide (si_workspace_id s = sc_workspace_id sc)
  && bool_decide (si_thread_id s = sc_thread_id sc)
  && (si_sequence s <? sc_before_sequence sc) && (si_watermark s =? sc_before_sequence sc).

(** [if count is not None]: a non-negative number, and at least [low]. *)
Definition at_least (low : Z) (count : option Z) : bool :=
  match count with Some n => (0 <=? n) && (low <=? n) | None => true end.

Definition count_scope_ok (s : list N) : bool := in_texts s [FROZEN_WATERMARK; LOWER_BOUND].

(** The checks before the status is looked at. *)
Definition counts_ok (m : ThreadHistorySourceManifest) : bool :=
  let sc := mf_scope m in let sources := mf_selected_sources m in
  (mf_contract_version m =? HISTORY_SOURCE_CONTRACT_VERSION)
  && in_texts (mf_status m) [HISTORY_SOURCE_COMPLETE; HISTORY_SOURCE_LIMIT_REACHED]
  && (0 <=? mf_selected_source_count m) && (0 <=? mf_available_eligible_source_count m)
  && (mf_selected_source_count m <=? mf_available_eligible_source_count m)
  && (mf_selected_source_count m <=? sc_max_turns sc)
  && (0 <=? mf_selected_artifact_count m)
  && (mf_selected_source_count m =? Z.of_nat (length sources))
  && (mf_selected_artifact_count m =?
        foldr Z.add 0 ((λ s, Z.of_nat (length (si_artifact_identities s))) <$> sources))
  && (mf_selected_artifact_count m <=? sc_max_artifacts sc)
  && at_least (mf_selected_artifact_count m) (mf_available_artifact_count m)
  && count_scope_ok (mf_available_artifact_count_scope m)
  && bool_decide (source_key <$> sources
                  = merge_sort source_key_le (remove_dups (source_key <$> sources)))
  && bool_decide (NoDup (si_sequence <$> sources))
  && bool_decide (NoDup (si_source_id <$> sources))
  && bool_decide (NoDup (si_run_id <$> sources))
  && forallb (in_scope sc) sources
  && at_least (mf_available_eligible_source_count m) (mf_available_source_count m)
  && count_scope_ok (mf_available_source_count_scope m).

Definition same_count (o : option Z) (n : Z) : bool := bool_decide (o = Some n).

Definition complete_ok (m : ThreadHistorySourceManifest) : bool :=
  same_count (mf_available_source_count m) (mf_available_eligible_source_count m)
  && same_count (mf_available_source_count m) (mf_selected_source_count m)
  && negb (mf_below_watermark_has_eligible_source m)
  && same (mf_available_source_count_scope m) FROZEN_WATERMARK
  && mf_provenance_complete m
  && negb (mf_work_limit_reached m) && bool_decide (mf_limit_reason m = None)
  && bool_decide (mf_detail m = None)
  && same_count (mf_available_artifact_count m) (mf_selected_artifact_count m)
  && same (mf_available_artifact_count_scope m) FROZEN_WATERMARK.

Definition limit_ok (m : ThreadHistorySourceManifest) : bool :=
  match mf_limit_reason m with
  | None => false
  | Some reason =>
      let scan_limit := same reason HISTORY_SOURCE_TURN_SCAN_LIMIT in
      let selection_limit := same reason HISTORY_SOURCE_TURN_SELECTION_LIMIT in
      let artifact_limit := same reason HISTORY_SOURCE_ARTIFACT_LIMIT in
      in_texts reason [HISTORY_SOURCE_TURN_SCAN_LIMIT; HISTORY_SOURCE_TURN_SELECTION_LIMIT;
                       HISTORY_SOURCE_ARTIFACT_LIMIT]
      && match mf_detail m with None | Some [] => false | Some _ => true end
      && (if scan_limit
          then bool_decide (mf_available_source_count m = None)
               && same (mf_available_source_count_scope m) LOWER_BOUND && mf_work_limit_reached m
          else bool_decide (is_Some (mf_available_source_count m))
               && same (mf_available_source_count_scope m) FROZEN_WATERMARK)
      && (if selection_limit
          then match mf_available_source_count m with
               | Some n => sc_max_turns (mf_scope m) <? n | None => false end
               && negb (mf_work_limit_reached m)
          else true)
      && negb (Bool.eqb artifact_limit (mf_provenance_complete m))
      && (if artifact_limit
          then match mf_available_artifact_count m with
               | Some n => mf_selected_artifact_count m <? n | None => false end
               && same (mf_available_artifact_count_scope m) LOWER_BOUND
          else same_count (mf_available_artifact_count m) (mf_selected_artifact_count m)
               && same (mf_available_artifact_count_scope m) FROZEN_WATERMARK)
      && (scan_limit || negb (mf_work_limit_reached m))
  end.

Definition with_hash (h : list N) (m : ThreadHistorySourceManifest) : ThreadHistorySourceManifest :=
  {| mf_scope := mf_scope m; mf_status := mf_status m;
     mf_selected_sources := mf_selected_sources m;
     mf_selected_source_count := mf_selected_source_count m;
     mf_available_eligible_source_count := mf_available_eligible_source_count m;
     mf_selected_artifact_count := mf_selected_artifact_count m;
     mf_available_artifact_count := mf_available_artifact_count m;
     mf_available_artifact_count_scope := mf_available_artifact_count_scope m;
     mf_available_source_count := mf_available_source_count m;
     mf_available_source_count_scope := mf_available_source_count_scope m;
     mf_provenance_complete := mf_provenance_complete m;
     mf_below_watermark_has_eligible_source := mf_below_watermark_has_eligible_source m;
     mf_work_limit_reached := mf_work_limit_reached m; mf_limit_reason := mf_limit_reason m;
     mf_detail := mf_detail m; mf_manifest_sha256 := h;
     mf_contract_version := mf_contract_version m |}.

Section Manifest.
Context `{Digests} `{UnicodeDecimal}.

Definition _canonical_sha256 (m : ThreadHistorySourceManifest) : option (list N) :=
  canonical_json_hash (payload false true m).

(** [ThreadHistorySourceManifest.__post_init__]; the result carries the
    computed hash. *)
Definition new_manifest (m : ThreadHistorySourceManifest) : option ThreadHistorySourceManifest :=
  require (counts_ok m);;
  require (if same (mf_status m) HISTORY_SOURCE_COMPLETE then complete_ok m else limit_ok m);;
  computed ← _canonical_sha256 m;
  require (same (mf_manifest_sha256 m) [] || same (mf_manifest_sha256 m) computed);;
  mret (with_hash computed m).

(** [ThreadHistorySourceManifest.empty] *)
Definition empty_manifest (workspace thread before_run : uuid) (before_sequence : option Z)
    (max_turns max_turns_scanned max_artifacts artifact_page_size count_version : Z) :
    option ThreadHistorySourceManifest :=
  scope ← new_source_scope {| sc_workspace_id := workspace; sc_thread_id := thread;
    sc_before_run_id := before_run;
    sc_before_sequence := match before_sequence with
                          | Some n => if n =? 0 then 1 else n | None => 1 end;
    sc_max_turns := max_turns; sc_max_turns_scanned := max_turns_scanned;
    sc_max_artifacts := max_artifacts; sc_artifact_page_size := artifact_page_size;
    sc_count_version := count_version; sc_policy := HISTORY_SOURCE_POLICY;
    sc_contract_version := HISTORY_SOURCE_CONTRACT_VERSION |};
  new_manifest {| mf_scope := scope; mf_status := HISTORY_SOURCE_COMPLETE;
    mf_selected_sources := []; mf_selected_source_count := 0;
    mf_available_eligible_source_count := 0; mf_selected_artifact_count := 0;
    mf_available_artifact_count := Some 0; mf_available_artifact_count_scope := FROZEN_WATERMARK;
    mf_available_source_count := Some 0; mf_available_source_count_scope := FROZEN_WATERMARK;
    mf_provenance_complete := true; mf_below_watermark_has_eligible_source := false;
    mf_work_limit_reached := false; mf_limit_reason := None; mf_detail := None;
    mf_manifest_sha256 := []; mf_contract_version := HISTORY_SOURCE_CONTRACT_VERSION |}.

Definition manifest_required : list (list N) :=
  lit <$> ["contract_version"; "scope"; "status"; "selected_sources"; "selected_source_count";
    "available_eligible_source_count"; "selected_artifact_count"; "available_artifact_count";
    "available_artifact_count_scope"; "available_source_count"; "available_source_count_scope";
    "provenance_complete"; "below_watermark_has_eligible_source"; "work_limit_reached";
    "limit_reason"; "detail"; "manifest_sha256"]%string.

Definition manifest_from_manifest (v : json) : option ThreadHistorySourceManifest :=
  match v with
  | JObj l =>
      require (has_exactly manifest_required l);;
      scope ← scope_from_manifest (field "scope" l);
      match field "selected_sources" l with
      | JArr selected_sources =>
          provenance ← read_bool (field "provenance_complete" l);
          below ← read_bool (field "below_watermark_has_eligible_source" l);
          work ← read_bool (field "work_limit_reached" l);
          detail ← nullable _trimmed_text (field "detail" l);
          reason ← nullable _trimmed_text (field "limit_reason" l);
          version ← _positive_int (field "contract_version" l);
          status ← _trimmed_text (field "status" l);
          sources ← mapM source_from_manifest selected_sources;
          selected ← _nonnegative_int (field "selected_source_count" l);
          eligible ← _nonnegative_int (field "available_eligible_source_count" l);
          artifacts ← _nonnegative_int (field "selected_artifact_count" l);
          available_artifacts ← nullable _nonnegative_int (field "available_artifact_count" l);
          artifact_scope ← _trimmed_text (field "available_artifact_count_scope" l);
          available_sources ← nullable _nonnegative_int (field "available_source_count" l);
          source_scope ← _trimmed_text (field "available_source_count_scope" l);
          sha ← _sha256_text (field "manifest_sha256" l);
          new_manifest {| mf_scope := scope; mf_status := status; mf_selected_sources := sources;
            mf_selected_source_count := selected; mf_available_eligible_source_count := eligible;
            mf_selected_artifact_count := artifacts;
            mf_available_artifact_count := available_artifacts;
            mf_available_artifact_count_scope := artifact_scope;
            mf_available_source_count := available_sources;
            mf_available_source_count_scope := source_scope;
            mf_provenance_complete := provenance;
            mf_below_watermark_has_eligible_source := below;
            mf_work_limit_reached := work; mf_limit_reason := reason; mf_detail := detail;
            mf_manifest_sha256 := sha; mf_contract_version := version |}
      | _ => None
      end
  | _ => None
  end.
End Manifest.

(** ** Earlier turns *)

Record ThreadTurnContext := {
  tc_user_input : list N;
  tc_final_output : list N;
  tc_turn_id : option uuid;
  tc_run_id : option uuid;
  tc_sequence : option Z;
  tc_artifact_ids : list uuid;
  tc_artifact_refs : list (list N);
  tc_messages : list ModelMessage;
  tc_evidence_registry : option (list (list N * json));
  tc_source_knowledge_snapshots : list json;
  tc_source_wiki_publications : list json;
  tc_plain_text_prefix_v1_proof : option PlainTextPrefixProof
}.

Record ThreadConversation := {
  cv_turns : list ThreadTurnContext;
  cv_turns_available : Z;
  cv_turns_available_is_exact : bool;
  cv_source_manifest : option ThreadHistorySourceManifest
}.
