(* ===== verification/WorkLayerProperties.v ===== *)
(** * Frozen thread history: what a stored snapshot promises

    A snapshot that was built or read is written and read back unchanged, its
    hash identifies it, and a complete one selects every measured source. *)

From stdpp Require Import base gmap list strings sorting.
From Stdlib Require Import ZArith NArith Lia.
From S2P Require Import Prelude.
From S2P Require Import Json.
From S2P Require Import JsonTheory.
From S2P Require Import TurnTranscript.
From S2P Require Import ContextMetadata.
From S2P Require Import ContextPolicy.
From S2P Require Import ContextPolicyTheory.
From S2P Require Import UuidText.
From S2P Require Import WorkLayer.

Local Open Scope Z_scope.
Local Arguments lit : simpl never.
Local Arguments require : simpl never.

(** A digest is 64 lower-case hexadecimal digits. *)
Class DigestText `{Digests} : Prop := {
  digest_length : ∀ t, length (sha256_hexdigest t) = 64%nat;
  digest_lower : ∀ t, forallb lower_hex (sha256_hexdigest t) = true
}.

(** ** Reading what was written *)

(** Split the checks of a constructor that succeeded. *)
Ltac required :=
  repeat match goal with
  | H : require _ ≫= _ = Some _ |- _ =>
      let u := fresh "u" in let Hb := fresh "Hb" in
      apply bind_Some in H as (u & Hb & H); apply require_Some in Hb; clear u; cbv beta in H
  end.

Lemma require_bind {A} b (k : option A) : b = true → (require b ;; k) = k.
Proof. by intros ->. Qed.

Lemma positive_read z : 1 ≤ z → _positive_int (JInt z) = Some z.
Proof. cbn. destruct (Z.ltb_spec z 1); [lia|done]. Qed.
Lemma nonnegative_read z : 0 ≤ z → _nonnegative_int (JInt z) = Some z.
Proof. cbn. destruct (Z.ltb_spec z 0); [lia|done]. Qed.
Lemma trimmed_read s : trimmed s = true → _trimmed_text (JStr s) = Some s.
Proof. cbn. by intros ->. Qed.
Lemma sha_read s : sha256_ok s = true → _sha256_text (JStr s) = Some s.
Proof.
  intros Hs. unfold _sha256_text. rewrite trimmed_read.
  - cbn [mbind option_bind]. by rewrite Hs.
  - unfold sha256_ok in Hs. by rewrite !andb_true_iff in Hs; destruct Hs as [[? _] _].
Qed.
Lemma nullable_int_read low o :
  at_least low o = true → nullable _nonnegative_int (opt_int o) = Some o.
Proof.
  destruct o as [z|]; [|done]. unfold at_least. intros [H _]%andb_true_iff. apply Z.leb_le in H.
  cbn [opt_int nullable]. by rewrite nonnegative_read.
Qed.
Lemma nullable_text_read o :
  match o with Some s => trimmed s | None => true end = true →
  nullable _trimmed_text (opt_text o) = Some o.
Proof. destruct o as [s|]; [|done]. intros H. cbn [opt_text nullable]. by rewrite trimmed_read. Qed.

(** The readers give back values of the right kind. *)
Lemma positive_inv v z : _positive_int v = Some z → 1 ≤ z.
Proof. destruct v; cbn; try done. destruct (Z.ltb_spec z0 1); [done|]. intros [= <-]. lia. Qed.
Lemma trimmed_inv v s : _trimmed_text v = Some s → trimmed s = true.
Proof. destruct v; cbn; try done. destruct (trimmed s0) eqn:E; [|done]. by intros [= <-]. Qed.
Lemma nullable_trimmed_inv v o :
  nullable _trimmed_text v = Some o → match o with Some s => trimmed s | None => true end = true.
Proof.
  destruct v; cbn; try done; [by intros [= <-]|].
  destruct (trimmed s) eqn:E; [|done]. by intros [= <-].
Qed.

(** Text of visible ASCII characters is trimmed. *)
Definition visible (c : N) : bool := ((33 <=? c) && (c <=? 126))%N.
Lemma visible_not_space c : visible c = true → py_isspace c = false.
Proof.
  unfold visible. intros [H1%N.leb_le H2%N.leb_le]%andb_true_iff.
  unfold py_isspace. repeat (apply orb_false_iff; split); try apply andb_false_iff;
    rewrite ?N.leb_gt, ?N.eqb_neq; lia.
Qed.
Lemma visible_trimmed s : s ≠ [] → forallb visible s = true → trimmed s = true.
Proof.
  intros Hne Hs. unfold trimmed, py_strip. rewrite strip_absent.
  - destruct s; [done|]. cbn. by rewrite bool_decide_true.
  - apply Forall_forall. intros c Hc. apply visible_not_space.
    rewrite forallb_forall in Hs. by apply Hs, list_elem_of_In.
Qed.
Lemma lower_hex_visible s : forallb lower_hex s = true → forallb visible s = true.
Proof.
  rewrite !forallb_forall. intros H c Hc. specialize (H c Hc). revert H. unfold lower_hex, visible.
  rewrite orb_true_iff, !andb_true_iff, !N.leb_le. lia.
Qed.
Lemma source_id_trimmed u : trimmed (lit "thread-turn:" ++ uuid_str u) = true.
Proof.
  apply visible_trimmed; [done|]. rewrite forallb_app. apply andb_true_iff. split; [done|].
  apply forallb_forall. intros c Hc%list_elem_of_In. pose proof (uuid_str_chars u) as Hu.
  rewrite Forall_forall in Hu. destruct (Hu c Hc) as [Hx| ->]; [|done].
  revert Hx. unfold lower_hex, visible. rewrite orb_true_iff, !andb_true_iff, !N.leb_le. lia.
Qed.

Section Snapshots.
Context {digests : Digests} {decimal : UnicodeDecimal}.

Lemma uuid_read u : (u < 2 ^ 128)%N → _uuid_value (uuid_json u) = Some u.
Proof. intros Hu. exact (uuid_of_str u Hu). Qed.

#[local] Opaque uuid_json opt_int opt_text.

(** A constructed artifact, source, scope or snapshot whose identifiers are
    UUIDs. *)
Definition artifact_good (a : ThreadHistoryArtifactIdentity) : Prop :=
  sha256_ok (ai_content_sha256 a) = true ∧ (ai_artifact_id a < 2 ^ 128)%N.
Definition source_good (s : ThreadHistorySourceIdentity) : Prop :=
  new_source s = Some s ∧
  Forall (λ u, u < 2 ^ 128)%N [si_workspace_id s; si_thread_id s; si_turn_id s; si_run_id s] ∧
  Forall artifact_good (si_artifact_identities s).
Definition scope_good (s : ThreadHistorySourceScope) : Prop :=
  new_source_scope s = Some s ∧
  Forall (λ u, u < 2 ^ 128)%N [sc_workspace_id s; sc_thread_id s; sc_before_run_id s].
Definition snapshot_good (m : ThreadHistorySourceManifest) : Prop :=
  scope_good (mf_scope m) ∧ Forall source_good (mf_selected_sources m) ∧
  match mf_detail m with Some s => trimmed s | None => true end = true.

Lemma mapM_read {A} (f : A → json) (g : json → option A) (P : A → Prop) l :
  (∀ x, P x → g (f x) = Some x) → Forall P l → mapM g (f <$> l) = Some l.
Proof.
  intros Hg Hl. induction Hl as [|x l Hx _ IH]; [done|]. rewrite fmap_cons. cbn [mapM].
  rewrite (Hg x Hx). cbn [mbind option_bind]. by rewrite IH.
Qed.

(** Replace the fields of a written object by their values and read them. *)
Ltac get_fields :=
  repeat match goal with
  | |- context [field ?k ?l] =>
      let v := eval hnf in (field k l) in change (field k l) with v
  end.
Ltac read_fields :=
  get_fields; repeat first
    [ rewrite require_bind by reflexivity | rewrite uuid_read by done | rewrite sha_read by done
    | rewrite positive_read by lia | rewrite nonnegative_read by lia | rewrite trimmed_read by done
    | progress cbn [mbind option_bind read_bool] ].

Lemma artifact_read a : artifact_good a → artifact_from_manifest (artifact_to_manifest a) = Some a.
Proof.
  intros [Hs Hu]. unfold artifact_to_manifest, artifact_from_manifest. read_fields.
  unfold new_artifact. cbn [ai_content_sha256]. rewrite Hs. by destruct a.
Qed.

Lemma scope_checks s : new_source_scope s = Some s →
  1 ≤ sc_before_sequence s ∧ 1 ≤ sc_max_turns s ∧ 1 ≤ sc_max_turns_scanned s ∧
  1 ≤ sc_max_artifacts s ∧ 1 ≤ sc_artifact_page_size s ∧ sc_count_version s = 1 ∧
  sc_policy s = HISTORY_SOURCE_POLICY ∧ sc_contract_version s = 1.
Proof.
  unfold new_source_scope. intros Hn. required. cbn [forallb] in *.
  rewrite ?andb_true_iff, ?Z.leb_le, ?Z.eqb_eq in *. unfold same in *.
  rewrite ?bool_decide_eq_true in *. naive_solver.
Qed.

Lemma scope_read s : scope_good s → scope_from_manifest (scope_to_manifest s) = Some s.
Proof.
  intros [Hs Hu]. rewrite !Forall_cons in Hu. destruct Hu as (Hw & Ht & Hr & _).
  destruct (scope_checks s Hs) as (H1 & H2 & H3 & H4 & H5 & H6 & H7 & H8).
  assert (trimmed (sc_policy s) = true) as Hp by (by rewrite H7).
  unfold scope_to_manifest, scope_from_manifest. read_fields.
  by destruct s.
Qed.
#[local] Opaque scope_to_manifest.

Lemma source_checks s : new_source s = Some s →
  si_source_id s = lit "thread-turn:" ++ uuid_str (si_turn_id s) ∧
  si_exchange_id s = si_source_id s ∧ si_original_ref s = si_source_id s ∧
  1 ≤ si_sequence s < si_watermark s ∧ si_count_version s = 1 ∧
  forallb sha256_ok [si_user_input_sha256 s; si_final_output_sha256 s; si_revision_sha256 s] = true ∧
  sorted_unique (si_artifact_ids s) = true ∧
  trimmed (si_summary_eligibility s) = true ∧ trimmed (si_summary_eligibility_reason s) = true.
Proof.
  unfold new_source. intros Hn. required. unfold same, in_texts in *.
  rewrite ?Z.leb_le, ?Z.ltb_lt, ?Z.eqb_eq, ?bool_decide_eq_true in *. split_and!; try done.
  match goal with He : si_summary_eligibility s ∈ _ |- _ => revert He end.
  rewrite !fmap_cons, !elem_of_cons. intros [->|[->|[->|[]%not_elem_of_nil]]]; reflexivity.
Qed.

Lemma stored_source_read s : source_good s → source_from_manifest (source_to_manifest s) = Some s.
Proof.
  intros (Hs & Hu & Ha). rewrite !Forall_cons in Hu. destruct Hu as (Hw & Ht & Hn & Hr & _).
  destruct (source_checks s Hs) as (H1 & H2 & H3 & H4 & H5 & H6 & _ & H7 & H8).
  cbn [forallb] in H6. rewrite !andb_true_iff in H6. destruct H6 as (Hh1 & Hh2 & Hh3 & _).
  assert (trimmed (si_source_id s) = true) as Hid by (rewrite H1; apply source_id_trimmed).
  assert (trimmed (si_exchange_id s) = true) as Hex by (by rewrite H2).
  assert (trimmed (si_original_ref s) = true) as Hor by (by rewrite H3).
  unfold source_to_manifest, source_from_manifest. read_fields.
  rewrite (mapM_read _ _ artifact_good) by (done || apply artifact_read).
  cbn [mbind option_bind]. read_fields. by destruct s.
Qed.

Lemma counts_checks m : counts_ok m = true →
  mf_contract_version m = 1 ∧ trimmed (mf_status m) = true ∧ 0 ≤ mf_selected_source_count m ∧
  0 ≤ mf_available_eligible_source_count m ∧ 0 ≤ mf_selected_artifact_count m ∧
  at_least (mf_selected_artifact_count m) (mf_available_artifact_count m) = true ∧
  trimmed (mf_available_artifact_count_scope m) = true ∧
  at_least (mf_available_eligible_source_count m) (mf_available_source_count m) = true ∧
  trimmed (mf_available_source_count_scope m) = true.
Proof.
  unfold counts_ok. rewrite !andb_true_iff, !Z.leb_le, !Z.eqb_eq.
  assert (∀ s, count_scope_ok s = true → trimmed s = true) as Hsc.
  { intros s. unfold count_scope_ok, in_texts. rewrite bool_decide_eq_true, !elem_of_cons.
    intros [->|[->|[]%not_elem_of_nil]]; reflexivity. }
  intros Hc. destruct_and! Hc. split_and!; auto.
  match goal with He : in_texts (mf_status m) _ = true |- _ => revert He end.
  unfold in_texts. rewrite bool_decide_eq_true, !elem_of_cons.
  intros [->|[->|[]%not_elem_of_nil]]; reflexivity.
Qed.

Lemma limit_reason_trimmed m :
  (if same (mf_status m) HISTORY_SOURCE_COMPLETE then complete_ok m else limit_ok m) = true →
  match mf_limit_reason m with Some s => trimmed s | None => true end = true.
Proof.
  destruct (same _ _).
  - unfold complete_ok. rewrite !andb_true_iff, !bool_decide_eq_true. intros Hc.
    destruct_and! Hc. by simplify_option_eq.
  - unfold limit_ok. destruct (mf_limit_reason m) as [r|]; [|done]. rewrite !andb_true_iff.
    intros Hc. destruct_and! Hc. match goal with He : in_texts r _ = true |- _ => revert He end.
    unfold in_texts. rewrite bool_decide_eq_true, !elem_of_cons.
    intros [->|[->|[->|[]%not_elem_of_nil]]]; reflexivity.
Qed.

Lemma digest_ok {text : DigestText} t : sha256_ok (sha256_hexdigest t) = true.
Proof.
  unfold sha256_ok. rewrite digest_lower, bool_decide_true by apply digest_length.
  rewrite visible_trimmed; [done| |].
  - intros E. pose proof (digest_length t) as Hl. by rewrite E in Hl.
  - apply lower_hex_visible, digest_lower.
Qed.

Lemma new_manifest_inv m0 m : new_manifest m0 = Some m →
  counts_ok m0 = true ∧
  (if same (mf_status m0) HISTORY_SOURCE_COMPLETE then complete_ok m0 else limit_ok m0) = true ∧
  ∃ h, _canonical_sha256 m0 = Some h ∧ m = with_hash h m0 ∧
    (mf_manifest_sha256 m0 = [] ∨ mf_manifest_sha256 m0 = h).
Proof.
  unfold new_manifest. intros Hn. required.
  apply bind_Some in Hn as (h & Hh & Hn). required. injection Hn as <-.
  split_and!; [done..|]. exists h. split_and!; [done..|].
  unfold same in *. rewrite orb_true_iff, !bool_decide_eq_true in *. done.
Qed.

(** The hash is not part of what is hashed or checked. *)
Lemma new_manifest_again m0 m : new_manifest m0 = Some m → new_manifest m = Some m.
Proof.
  intros (Hc & Hs & h & Hh & -> & _)%new_manifest_inv. unfold new_manifest.
  rewrite (require_bind (counts_ok _)) by exact Hc. rewrite require_bind by exact Hs.
  change (_canonical_sha256 (with_hash h m0)) with (_canonical_sha256 m0). rewrite Hh.
  cbn [mbind option_bind]. rewrite require_bind; [done|].
  cbn [with_hash mf_manifest_sha256]. unfold same. by rewrite (bool_decide_true (h = h)), orb_true_r.
Qed.

Lemma manifest_read {text : DigestText} m0 m :
  new_manifest m0 = Some m → snapshot_good m0 →
  manifest_from_manifest (manifest_to_manifest m) = Some m.
Proof.
  intros Hm (Hsc & Hso & Hd). pose proof (new_manifest_again _ _ Hm) as Hm'.
  apply new_manifest_inv in Hm as (_ & _ & h & Hh & -> & _).
  assert (sha256_ok (mf_manifest_sha256 (with_hash h m0)) = true) as Hsha.
  { cbn. unfold _canonical_sha256, canonical_json_hash in Hh.
    apply bind_Some in Hh as (t & _ & Hh). destruct (existsb _ _); [done|].
    injection Hh as <-. apply digest_ok. }
  change (mf_scope m0) with (mf_scope (with_hash h m0)) in Hsc.
  change (mf_selected_sources m0) with (mf_selected_sources (with_hash h m0)) in Hso.
  change (mf_detail m0) with (mf_detail (with_hash h m0)) in Hd.
  clear Hh. set (m := with_hash h m0) in *. clearbody m. clear m0 h.
  pose proof (new_manifest_inv _ _ Hm') as (Hc & Hr & _).
  destruct (counts_checks m Hc) as (H1 & H2 & H3 & H4 & H5 & H6 & H7 & H8 & H9).
  apply limit_reason_trimmed in Hr.
  unfold manifest_to_manifest, payload, payload_with, manifest_from_manifest. cbn [app].
  get_fields. rewrite require_bind by reflexivity. rewrite (scope_read _ Hsc). read_fields.
  rewrite !nullable_text_read by done. read_fields.
  rewrite (mapM_read _ _ source_good) by (done || apply stored_source_read). read_fields.
  erewrite !nullable_int_read by done. read_fields. by destruct m.
Qed.

(** ** What is read was checked *)

Lemma artifact_from_good v a : artifact_from_manifest v = Some a → artifact_good a.
Proof.
  unfold artifact_from_manifest. destruct v; try done. intros Ha. required.
  apply bind_Some in Ha as (u & Hu & Ha). apply bind_Some in Ha as (h & _ & Ha).
  unfold new_artifact in Ha. required. injection Ha as <-.
  split; [done|]. by eapply uuid_of_json_bound.
Qed.

Lemma new_source_same s s' : new_source s = Some s' → s' = s.
Proof. unfold new_source. intros Hn. required. by injection Hn as <-. Qed.
Lemma new_source_scope_same s s' : new_source_scope s = Some s' → s' = s.
Proof. unfold new_source_scope. intros Hn. required. by injection Hn as <-. Qed.

(** Split the reads of a parser that succeeded. *)
Ltac reads_of Hr :=
  required; repeat (let x := fresh "x" in let Hx := fresh "Hx" in
    apply bind_Some in Hr as (x & Hx & Hr); cbv beta in Hr).

Lemma scope_from_good v s : scope_from_manifest v = Some s → scope_good s.
Proof.
  unfold scope_from_manifest. destruct v; try done. intros Hs. required.
  do 11 (apply bind_Some in Hs as (? & ? & Hs)).
  pose proof (new_source_scope_same _ _ Hs) as ->. split; [exact Hs|].
  repeat constructor; by eapply uuid_of_json_bound.
Qed.

Lemma mapM_from {A} (g : json → option A) (P : A → Prop) l k :
  (∀ v x, g v = Some x → P x) → mapM g l = Some k → Forall P k.
Proof.
  intros Hg Hk%mapM_Some_1. induction Hk as [|v x l k Hv _ IH]; constructor; eauto.
Qed.

Lemma source_from_good v s : source_from_manifest v = Some s → source_good s.
Proof.
  unfold source_from_manifest. destruct v; try done. intros Hs. required.
  destruct (field "artifact_identities" l) as [| | | | |artifacts|]; try done.
  do 16 (apply bind_Some in Hs as (? & ? & Hs)).
  pose proof (new_source_same _ _ Hs) as ->. split; [exact Hs|]. split.
  - repeat constructor; by eapply uuid_of_json_bound.
  - eapply mapM_from; [exact artifact_from_good|done].
Qed.

Lemma manifest_from_inv v m :
  manifest_from_manifest v = Some m →
  ∃ m0, new_manifest m0 = Some m ∧ snapshot_good m0 ∧ mf_manifest_sha256 m0 ≠ [] ∧
    match v with
    | JObj l => field "manifest_sha256" l = JStr (mf_manifest_sha256 m0)
    | _ => False
    end.
Proof.
  unfold manifest_from_manifest. destruct v; try done. intros Hm. required.
  apply bind_Some in Hm as (sc & Hsc & Hm).
  destruct (field "selected_sources" l) as [| | | | |sources|]; try done.
  do 15 (apply bind_Some in Hm as (? & ? & Hm)).
  apply bind_Some in Hm as (sha & Hsha & Hm).
  eexists. split; [exact Hm|]. cbn. unfold snapshot_good. cbn. split_and!.
  - by eapply scope_from_good.
  - eapply mapM_from; [exact source_from_good|eassumption].
  - by eapply nullable_trimmed_inv.
  - intros ->. unfold _sha256_text in Hsha. apply bind_Some in Hsha as (t & _ & Ht). required.
    injection Ht as ->. done.
  - unfold _sha256_text in Hsha. apply bind_Some in Hsha as (t & Ht & Hr). required.
    injection Hr as <-. destruct (field "manifest_sha256" l); try done. cbn in Ht.
    destruct (trimmed s); [|done]. by injection Ht as ->.
Qed.

(** ** What a checked snapshot says *)

#[local] Instance source_key_trans : Transitive source_key_le.
Proof.
  intros [x a] [y b] [z c]. unfold source_key_le, source_key_leb. cbn.
  rewrite !orb_true_iff, !andb_true_iff, !Z.ltb_lt, !Z.eqb_eq.
  intros [|[-> ?]] [|[-> ?]]; [left; lia|by left|by left|right].
  split; [done|]. by eapply pystr_leb_trans.
Qed.
#[local] Instance source_key_total : Total source_key_le.
Proof.
  intros [x a] [y b]. unfold source_key_le, source_key_leb. cbn.
  rewrite !orb_true_iff, !andb_true_iff, !Z.ltb_lt, !Z.eqb_eq.
  destruct (Z.lt_trichotomy x y) as [|[->|]]; auto. destruct (pystr_leb_total a b); auto.
Qed.

(** In order of sequence numbers, each once. *)
Lemma sources_increase sources :
  source_key <$> sources = merge_sort source_key_le (remove_dups (source_key <$> sources)) →
  NoDup (si_sequence <$> sources) → StronglySorted Z.lt (si_sequence <$> sources).
Proof.
  intros Hk Hnd.
  assert (StronglySorted source_key_le (source_key <$> sources)) as Hs.
  { rewrite Hk. apply StronglySorted_merge_sort; apply _. }
  clear Hk. induction sources as [|s sources IH]; [constructor|].
  rewrite !fmap_cons in *. apply NoDup_cons in Hnd as [Hn Hnd].
  inversion Hs as [|? ? Hs' Hle]; subst. constructor; [by apply IH|].
  apply Forall_forall. intros q Hq. apply list_elem_of_fmap in Hq as (s' & -> & Hs1).
  rewrite Forall_forall in Hle. specialize (Hle (source_key s')).
  assert (source_key_le (source_key s) (source_key s')) as Hss
    by (apply Hle, list_elem_of_fmap; eauto).
  assert (si_sequence s ≠ si_sequence s') as Hne
    by (intros E; apply Hn; rewrite E; apply list_elem_of_fmap; eauto).
  unfold source_key_le, source_key_leb in Hss. cbn in Hss.
  rewrite orb_true_iff, andb_true_iff, Z.ltb_lt, Z.eqb_eq in Hss. lia.
Qed.

(** The promises of a snapshot. *)
Record snapshot (m : ThreadHistorySourceManifest) : Prop := {
  sn_hash : _canonical_sha256 m = Some (mf_manifest_sha256 m);
  sn_order : StronglySorted Z.lt (si_sequence <$> mf_selected_sources m);
  sn_scope : Forall (λ s,
    si_workspace_id s = sc_workspace_id (mf_scope m) ∧
    si_thread_id s = sc_thread_id (mf_scope m) ∧
    1 ≤ si_sequence s < sc_before_sequence (mf_scope m) ∧
    si_source_id s = lit "thread-turn:" ++ uuid_str (si_turn_id s)) (mf_selected_sources m);
  sn_ids : NoDup (si_source_id <$> mf_selected_sources m);
  sn_turns : NoDup (si_turn_id <$> mf_selected_sources m);
  sn_runs : NoDup (si_run_id <$> mf_selected_sources m);
  sn_bound : (length (mf_selected_sources m) ≤ 200)%nat;
  sn_selected : mf_selected_source_count m = Z.of_nat (length (mf_selected_sources m));
  sn_complete : mf_status m = HISTORY_SOURCE_COMPLETE →
    mf_available_source_count m = Some (Z.of_nat (length (mf_selected_sources m))) ∧
    mf_available_eligible_source_count m = Z.of_nat (length (mf_selected_sources m)) ∧
    mf_below_watermark_has_eligible_source m = false ∧
    mf_available_artifact_count m = Some (mf_selected_artifact_count m) ∧
    mf_provenance_complete m = true;
  sn_limited : mf_status m ≠ HISTORY_SOURCE_COMPLETE →
    mf_status m = HISTORY_SOURCE_LIMIT_REACHED ∧ is_Some (mf_limit_reason m) ∧
    (mf_limit_reason m = Some HISTORY_SOURCE_TURN_SCAN_LIMIT ↔ mf_work_limit_reached m = true) ∧
    (mf_limit_reason m = Some HISTORY_SOURCE_ARTIFACT_LIMIT ↔ mf_provenance_complete m = false)
}.

Lemma turns_distinct sources :
  Forall source_good sources → NoDup (si_source_id <$> sources) → NoDup (si_turn_id <$> sources).
Proof.
  intros Hs Hnd. assert (si_source_id <$> sources =
    (λ u, lit "thread-turn:" ++ uuid_str u) <$> (si_turn_id <$> sources)) as E.
  { rewrite <- list_fmap_compose. clear Hnd. induction Hs as [|s sources Hg _ IH]; [done|].
    rewrite !fmap_cons, IH. f_equal. destruct Hg as [Hn _].
    by destruct (source_checks s Hn) as (-> & _). }
  rewrite E in Hnd. by apply NoDup_fmap_1 in Hnd.
Qed.

Lemma limit_facts m : limit_ok m = true →
  is_Some (mf_limit_reason m) ∧
  (mf_limit_reason m = Some HISTORY_SOURCE_TURN_SCAN_LIMIT ↔ mf_work_limit_reached m = true) ∧
  (mf_limit_reason m = Some HISTORY_SOURCE_ARTIFACT_LIMIT ↔ mf_provenance_complete m = false).
Proof.
  unfold limit_ok. destruct (mf_limit_reason m) as [r|]; [|done].
  rewrite !andb_true_iff. intros Hc. destruct_and! Hc. split; [eauto|].
  assert (∀ t, same r t = true ↔ Some r = Some t) as Hsame.
  { intros t. unfold same. rewrite bool_decide_eq_true. naive_solver. }
  rewrite <- !Hsame. clear Hsame.
  destruct (same r HISTORY_SOURCE_TURN_SCAN_LIMIT), (same r HISTORY_SOURCE_ARTIFACT_LIMIT),
    (mf_work_limit_reached m), (mf_provenance_complete m);
    rewrite ?andb_true_iff in *; naive_solver.
Qed.

Lemma new_manifest_snapshot m0 m :
  new_manifest m0 = Some m → snapshot_good m0 → snapshot m.
Proof.
  intros Hm (Hsc & Hso & _).
  destruct (new_manifest_inv _ _ Hm) as (Hc & Hs & h & Hh & -> & _). clear Hm.
  unfold counts_ok in Hc. rewrite !andb_true_iff, !bool_decide_eq_true, !Z.leb_le, !Z.eqb_eq in Hc.
  destruct_and! Hc.
  assert (sc_max_turns (mf_scope m0) ≤ 200) as Hmax.
  { destruct Hsc as [Hn _]. unfold new_source_scope in Hn. required. rewrite !Z.leb_le in *. done. }
  constructor; cbn [with_hash mf_scope mf_status mf_selected_sources mf_selected_source_count
    mf_manifest_sha256 mf_available_source_count mf_below_watermark_has_eligible_source
    mf_available_artifact_count mf_selected_artifact_count mf_provenance_complete mf_limit_reason
    mf_work_limit_reached mf_available_eligible_source_count].
  - exact Hh.
  - by apply sources_increase.
  - match goal with Hin : forallb (in_scope _) _ = true |- _ => revert Hin end.
    rewrite forallb_forall, Forall_forall. intros Hin s Hs'. rewrite Forall_forall in Hso.
    destruct (Hso s Hs') as [Hn _]. destruct (source_checks s Hn) as (-> & _ & _ & ? & _).
    specialize (Hin s (proj1 (list_elem_of_In _ _) Hs')). unfold in_scope in Hin.
    rewrite !andb_true_iff, !bool_decide_eq_true, Z.ltb_lt, Z.eqb_eq in Hin.
    destruct_and! Hin. split_and!; try done; lia.
  - done.
  - by apply turns_distinct.
  - done.
  - lia.
  - done.
  - intros E. unfold same in Hs. rewrite bool_decide_true in Hs by done.
    unfold complete_ok, same_count in Hs.
    rewrite !andb_true_iff, !bool_decide_eq_true, !negb_true_iff in Hs. destruct_and! Hs.
    split_and!; try done; congruence.
  - intros E. unfold same in Hs. rewrite bool_decide_false in Hs by done. split.
    + match goal with Hin : in_texts _ _ = true |- _ => revert Hin end.
      unfold in_texts. rewrite bool_decide_eq_true, !elem_of_cons. intros [?|[?|[]%not_elem_of_nil]]; done.
    + by apply limit_facts.
Qed.

(** ** The hash identifies the snapshot *)

(** Objects written with the same keys in the same order. *)
Lemma sort_same_keys l l' :
  l.*1 = l'.*1 → NoDup l.*1 → sort_json (JObj l) = sort_json (JObj l') →
  sort_json <$> l.*2 = sort_json <$> l'.*2.
Proof.
  intros Hk Hnd Hs. assert (NoDup l'.*1) as Hnd' by (by rewrite <- Hk).
  apply list_eq. intros i. rewrite !list_lookup_fmap.
  destruct (l !! i) as [[k v]|] eqn:E.
  - destruct (l' !! i) as [[k' v']|] eqn:E'.
    2:{ apply lookup_ge_None in E'. apply lookup_lt_Some in E.
        apply (f_equal length) in Hk. rewrite !length_fmap in Hk. lia. }
    cbn. assert (k = k') as <-.
    { apply (f_equal (.!! i)) in Hk. rewrite !list_lookup_fmap, E, E' in Hk. by injection Hk. }
    apply list_elem_of_lookup_2 in E. destruct (sort_json_member _ _ _ _ Hs E) as (x & Hx & ->).
    apply dict_get_elem in Hx; [|done]. apply list_elem_of_lookup_2, dict_get_elem in E'; [|done].
    congruence.
  - apply lookup_ge_None in E. rewrite (lookup_ge_None_2 l' i); [done|].
    apply (f_equal length) in Hk. rewrite !length_fmap in Hk. lia.
Qed.

Lemma cons_split {A} (x y : A) l k : x :: l = y :: k → x = y ∧ l = k.
Proof. by intros [= -> ->]. Qed.
Lemma sort_str a b : sort_json (JStr a) = sort_json (JStr b) → a = b.
Proof. by intros [= ->]. Qed.
Lemma sort_int a b : sort_json (JInt a) = sort_json (JInt b) → a = b.
Proof. by intros [= ->]. Qed.
Lemma sort_bool a b : sort_json (JBool a) = sort_json (JBool b) → a = b.
Proof. by intros [= ->]. Qed.
#[local] Transparent opt_int opt_text.
Lemma sort_opt_int a b : sort_json (opt_int a) = sort_json (opt_int b) → a = b.
Proof. destruct a, b; cbn; congruence. Qed.
Lemma sort_opt_text a b : sort_json (opt_text a) = sort_json (opt_text b) → a = b.
Proof. destruct a, b; cbn; congruence. Qed.
#[local] Opaque opt_int opt_text.
Lemma sort_arr l k : sort_json (JArr l) = sort_json (JArr k) → sort_json <$> l = sort_json <$> k.
Proof. by intros [= ->]. Qed.

(** The values of two objects written the same way. *)
Ltac same_fields Hs :=
  apply sort_same_keys in Hs; [|reflexivity|by apply (bool_decide_eq_true_1 _)];
  cbn [fmap list_fmap fst snd app] in Hs;
  repeat (let E := fresh "E" in apply cons_split in Hs as [E Hs]; try first
    [ apply sort_str in E | apply sort_int in E | apply sort_bool in E
    | apply sort_opt_int in E | apply sort_opt_text in E ]); clear Hs.

Lemma sort_map_inj {A} (f : A → json) (P : A → Prop) l l' :
  (∀ x y, P x → P y → sort_json (f x) = sort_json (f y) → x = y) →
  Forall P l → Forall P l' → sort_json <$> (f <$> l) = sort_json <$> (f <$> l') → l = l'.
Proof.
  intros Hf Hl. revert l'. induction Hl as [|x l Hx _ IH]; intros [|y l'] Hl' E; try done.
  rewrite !fmap_cons in E. injection E as Exy E. apply Forall_cons in Hl' as [Hy Hl'].
  f_equal; auto.
Qed.

Lemma artifact_inj a b :
  artifact_good a → artifact_good b →
  sort_json (artifact_to_manifest a) = sort_json (artifact_to_manifest b) → a = b.
Proof.
  intros [_ Ha] [_ Hb] Hs. unfold artifact_to_manifest in Hs. same_fields Hs.
  apply uuid_str_inj in E; [|done..].
  destruct a as [i c], b as [i' c']. cbn [ai_artifact_id ai_content_sha256] in *. by subst.
Qed.

Lemma scope_inj a b :
  scope_good a → scope_good b →
  sort_json (scope_to_manifest a) = sort_json (scope_to_manifest b) → a = b.
Proof.
  intros [_ Ha] [_ Hb] Hs. with_strategy transparent [scope_to_manifest] unfold scope_to_manifest in Hs.
  unfold scope_items in Hs. rewrite !Forall_cons in Ha, Hb. destruct_and! Ha. destruct_and! Hb.
  same_fields Hs.
  repeat match goal with Hu : uuid_str _ = uuid_str _ |- _ => apply uuid_str_inj in Hu; [|done..] end.
  destruct a as [w t r q mt ms ma ps cv po kv], b as [w' t' r' q' mt' ms' ma' ps' cv' po' kv'].
  cbn [sc_workspace_id sc_thread_id sc_before_run_id sc_before_sequence sc_max_turns
    sc_max_turns_scanned sc_max_artifacts sc_artifact_page_size sc_count_version sc_policy
    sc_contract_version] in *. by subst.
Qed.

Lemma source_inj a b :
  source_good a → source_good b →
  sort_json (source_to_manifest a) = sort_json (source_to_manifest b) → a = b.
Proof.
  intros (_ & Ha & Hfa) (_ & Hb & Hfb) Hs. unfold source_to_manifest in Hs.
  rewrite !Forall_cons in Ha, Hb. destruct_and! Ha. destruct_and! Hb. same_fields Hs.
  repeat match goal with Hu : uuid_str _ = uuid_str _ |- _ => apply uuid_str_inj in Hu; [|done..] end.
  match goal with Hl : sort_json (JArr _) = _ |- _ =>
    apply sort_arr, (sort_map_inj _ artifact_good) in Hl; [|exact artifact_inj|done..] end.
  destruct a as [x1 x2 x3 x4 x5 x6 x7 x8 x9 x10 x11 x12 x13 x14 x15 x16],
    b as [y1 y2 y3 y4 y5 y6 y7 y8 y9 y10 y11 y12 y13 y14 y15 y16].
  cbn [si_source_id si_workspace_id si_thread_id si_turn_id si_run_id si_sequence si_watermark
    si_exchange_id si_original_ref si_count_version si_user_input_sha256 si_final_output_sha256
    si_revision_sha256 si_artifact_identities si_summary_eligibility
    si_summary_eligibility_reason] in *. by subst.
Qed.

(** Snapshots with the same hashed content differ at most in the hash. *)
Lemma payload_inj a b :
  snapshot_good a → snapshot_good b →
  sort_json (payload false true a) = sort_json (payload false true b) →
  with_hash [] a = with_hash [] b.
Proof.
  intros (Hsa & Hfa & _) (Hsb & Hfb & _) Hs. unfold payload, payload_with in Hs. same_fields Hs.
  match goal with Hl : sort_json (JArr _) = _ |- _ =>
    apply sort_arr, (sort_map_inj _ source_good) in Hl; [|exact source_inj|done..] end.
  match goal with Hl : sort_json (scope_to_manifest _) = _ |- _ =>
    apply scope_inj in Hl; [|done..] end.
  unfold with_hash. f_equal; assumption.
Qed.

(** Written snapshots are well-formed JSON. *)
Lemma good_uuid u : json_good (uuid_json u).
Proof. with_strategy transparent [uuid_json] unfold uuid_json. by apply good_atom. Qed.
Lemma good_scope s : json_good (scope_to_manifest s).
Proof.
  with_strategy transparent [scope_to_manifest] unfold scope_to_manifest. unfold scope_items.
  apply good_obj; [by apply (bool_decide_eq_true_1 _)|].
  repeat constructor; cbn [snd]; first [apply good_uuid | by apply good_atom].
Qed.
Lemma good_artifact a : json_good (artifact_to_manifest a).
Proof.
  apply good_obj; [by apply (bool_decide_eq_true_1 _)|].
  repeat constructor; cbn [snd]; first [apply good_uuid | by apply good_atom].
Qed.
Lemma good_source s : json_good (source_to_manifest s).
Proof.
  apply good_obj; [by apply (bool_decide_eq_true_1 _)|].
  repeat (constructor; [cbn [snd]; first [apply good_uuid | by apply good_atom |
    apply good_arr, Forall_fmap, Forall_true; intros; apply good_artifact]|]). constructor.
Qed.
Lemma good_payload m : json_good (payload false true m).
Proof.
  unfold payload, payload_with. cbn [app]. apply good_obj; [by apply (bool_decide_eq_true_1 _)|].
  repeat (constructor; [cbn [snd]; first [apply good_scope | apply good_opt_int
    | apply good_opt_text | by apply good_atom |
    apply good_arr, Forall_fmap, Forall_true; intros; apply good_source]|]). constructor.
Qed.

Lemma hash_inj a b h :
  snapshot_good a → snapshot_good b → _canonical_sha256 a = Some h → _canonical_sha256 b = Some h →
  with_hash h a = with_hash h b ∨ ∃ t t', t ≠ t' ∧ sha256_hexdigest t = sha256_hexdigest t'.
Proof.
  intros Ha Hb. unfold _canonical_sha256, canonical_json_hash.
  intros (t & Ht & Hh)%bind_Some (t' & Ht' & Hh')%bind_Some.
  destruct (existsb _ t); [done|]. destruct (existsb _ t'); [done|].
  injection Hh as Hh. injection Hh' as Hh'.
  destruct (decide (t = t')) as [<-|Hne]; [left|right; exists t, t'; split; [done|congruence]].
  destruct (good_payload a) as [Wa Fa], (good_payload b) as [Wb Fb].
  rewrite canonical_json_dump, Fa in Ht. rewrite canonical_json_dump, Fb in Ht'.
  assert (sort_json (payload false true a) = sort_json (payload false true b)) as Hs
    by (apply dump_eq_iff; [done..|congruence]).
  apply (payload_inj a b Ha Hb) in Hs. apply (f_equal (with_hash h)) in Hs. exact Hs.
Qed.

(** A stored history snapshot is accepted only when it carries the hash of
    its own content.  An accepted snapshot lists at most 200 sources of its own
    workspace and thread below the frozen watermark, in strictly increasing
    sequence, each turn and run once; [COMPLETE] means that every measured
    source and artifact is in it, and otherwise the limit that stopped the
    measurement is named.  Written again it reads back unchanged, and two
    accepted snapshots with the same hash are the same snapshot unless SHA-256
    collides. *)
Lemma stored_snapshot_is_sound {text : DigestText} v m :
  manifest_from_manifest v = Some m →
  snapshot m ∧
  manifest_from_manifest (manifest_to_manifest m) = Some m ∧
  match v with
  | JObj l => field "manifest_sha256" l = JStr (mf_manifest_sha256 m)
  | _ => False
  end ∧
  ∀ v' m', manifest_from_manifest v' = Some m' → mf_manifest_sha256 m = mf_manifest_sha256 m' →
    m = m' ∨ ∃ t t', t ≠ t' ∧ sha256_hexdigest t = sha256_hexdigest t'.
Proof.
  intros (m0 & Hm & Hg & Hne & Hv)%manifest_from_inv.
  split; [by eapply new_manifest_snapshot|]. split; [by eapply manifest_read|].
  destruct (new_manifest_inv _ _ Hm) as (_ & _ & h & Hh & -> & Hsha). cbn [with_hash mf_manifest_sha256].
  split. { destruct Hsha as [|<-]; [done|]. by destruct v. }
  intros v' m' (m0' & Hm' & Hg' & _ & _)%manifest_from_inv Heq.
  destruct (new_manifest_inv _ _ Hm') as (_ & _ & h' & Hh' & -> & _).
  cbn [with_hash mf_manifest_sha256] in Heq. subst h'. by apply hash_inj.
Qed.
End Snapshots.

(** ** A stored snapshot *)

#[local] Instance sample_digests : Digests.
Proof. by refine {| sha256_hexdigest := λ _, replicate 64 97%N; uuid5 := λ _ _, 0%N |}. Defined.
#[local] Instance sample_digest_text : DigestText.
Proof. by split. Qed.
#[local] Instance sample_decimal : UnicodeDecimal := {| py_decimal := λ _, None |}.

Definition sample_scope : ThreadHistorySourceScope :=
  {| sc_workspace_id := 1; sc_thread_id := 2; sc_before_run_id := 3; sc_before_sequence := 4;
     sc_max_turns := 20; sc_max_turns_scanned := 200; sc_max_artifacts := 100;
     sc_artifact_page_size := 50; sc_count_version := 1; sc_policy := HISTORY_SOURCE_POLICY;
     sc_contract_version := 1 |}.
Definition sample_source (turn run : N) (sequence : Z) : ThreadHistorySourceIdentity :=
  {| si_source_id := lit "thread-turn:" ++ uuid_str turn; si_workspace_id := 1; si_thread_id := 2;
     si_turn_id := turn; si_run_id := run; si_sequence := sequence; si_watermark := 4;
     si_exchange_id := lit "thread-turn:" ++ uuid_str turn;
     si_original_ref := lit "thread-turn:" ++ uuid_str turn; si_count_version := 1;
     si_user_input_sha256 := replicate 64 48%N; si_final_output_sha256 := replicate 64 49%N;
     si_revision_sha256 := replicate 64 50%N; si_artifact_identities := [];
     si_summary_eligibility := lit "UNKNOWN"; si_summary_eligibility_reason := lit "NOT_CLASSIFIED" |}.
Definition sample_snapshot : ThreadHistorySourceManifest :=
  {| mf_scope := sample_scope; mf_status := HISTORY_SOURCE_COMPLETE;
     mf_selected_sources := [sample_source 10 20 1; sample_source 11 21 3];
     mf_selected_source_count := 2; mf_available_eligible_source_count := 2;
     mf_selected_artifact_count := 0; mf_available_artifact_count := Some 0;
     mf_available_artifact_count_scope := FROZEN_WATERMARK; mf_available_source_count := Some 2;
     mf_available_source_count_scope := FROZEN_WATERMARK; mf_provenance_complete := true;
     mf_below_watermark_has_eligible_source := false; mf_work_limit_reached := false;
     mf_limit_reason := None; mf_detail := None; mf_manifest_sha256 := replicate 64 97%N;
     mf_contract_version := 1 |}.

Lemma stored_snapshot_is_sound_witness :
  snapshot sample_snapshot ∧
  manifest_from_manifest (manifest_to_manifest sample_snapshot) = Some sample_snapshot.
Proof.
  destruct (stored_snapshot_is_sound (manifest_to_manifest sample_snapshot) sample_snapshot)
    as (Hs & Hr & _); [by vm_compute|]. by split.
Defined.

(** A run without earlier turns stores a complete snapshot of nothing. *)
Example empty_snapshot_complete :
  mf_status <$> empty_manifest 1 2 3 None 20 200 100 50 1 = Some HISTORY_SOURCE_COMPLETE.
Proof. by vm_compute. Qed.
