(* ===== verification/HistoryRuntime.v ===== *)
(** * From frozen thread sources to a planned history

    Model of [packages/agent_runtime/history_runtime.py]: every source of a
    complete snapshot is measured with the estimates of the context budget and
    offered to the history planner; a ready plan gives the messages to send, a
    blocked one gives none.

    The memory messages and the sources become planner groups; [ViewState] is
    what the loop over the sources accumulates.  A frozen policy holds integers
    where the source asks for them ([validate_frozen_context_policy]). *)

From stdpp Require Import base gmap list strings sorting.
From Stdlib Require Import ZArith NArith Lia.
From S2P Require Import Prelude.
From S2P Require Import Json.
From S2P Require Import TurnTranscript.
From S2P Require Import ContextMetadata.
From S2P Require Import ModelProfiles.
From S2P Require Import ContextPolicy.
From S2P Require Import Outcome.
From S2P Require Import JsonProjection.
From S2P Require Import ContextBudget.
From S2P Require Import WorkLayer.
From S2P Require Import HistoryPlanner.

Local Open Scope Z_scope.

(** What [plan_history_view] can raise. *)
Inductive ViewError :=
| ViewError_value
| ViewError_hub (code : string)
| ViewError_plan (e : PlanError)
| ViewError_budget (e : BudgetError).
Abbreviation viewing := (outcome ViewError).

Definition HISTORY_INSUFFICIENT : ViewError := ViewError_hub "AGENT_HISTORY_CONTEXT_INSUFFICIENT".
Definition HISTORY_INVALID : ViewError := ViewError_hub "AGENT_HISTORY_SNAPSHOT_INVALID".

Definition from_plan {A} (m : outcome PlanError A) : viewing A :=
  match m with Return a => Return a | Raise e => Raise (ViewError_plan e) end.
Definition from_budget {A} (m : outcome BudgetError A) : viewing A :=
  match m with Return a => Return a | Raise e => Raise (ViewError_budget e) end.

Record PlainTextPrefixSource := {
  px_source_id : list N;
  px_turn_id : uuid;
  px_run_id : uuid;
  px_sequence : Z;
  px_revision_sha256 : list N;
  px_estimated_tokens : Z
}.
Record PlainTextPrefix := {
  px_policy : list N;
  px_sources : list PlainTextPrefixSource;
  px_stopped_before_source_id : option (list N);
  px_stop_reason : option (list N)
}.
Definition px_source_ids (p : PlainTextPrefix) : list (list N) := px_source_id <$> px_sources p.
Definition px_total_tokens (p : PlainTextPrefix) : Z :=
  foldr Z.add 0 (px_estimated_tokens <$> px_sources p).

Record PlannedHistory := {
  ph_plan : HistoryPlan;
  ph_messages : list ModelMessage;
  ph_memory_messages : list ModelMessage;
  ph_exchange_ids : list (list N);
  ph_plain_text_prefix : option PlainTextPrefix
}.

(** [_Counter] *)
Definition _Counter (values : gmap (list N) Z) : HistoryTokenCounter :=
  {| counter_id := lit "approx_language_v1"; counter_version := 1;
     count := λ g, JInt <$> values !! group_id g |}.

(** ** Turns *)

(** [f"history-{turn_id}-{n}"] *)
Definition history_call_id (turn_id : list N) (n : nat) : list N :=
  lit "history-" ++ turn_id ++ lit "-" ++ dump_nat (N.of_nat n).

Definition with_call_id (i : list N) (c : ModelToolCall) : ModelToolCall :=
  {| call_name := call_name c; call_arguments := call_arguments c;
     provider_tool_call_id := Some i |}.
Definition with_tool_calls (calls : list ModelToolCall) (m : ModelMessage) : ModelMessage :=
  {| role := role m; content := content m; msg_name := msg_name m; tool_call_id := tool_call_id m;
     tool_calls := calls |}.
Definition with_tool_call_id (i : list N) (m : ModelMessage) : ModelMessage :=
  {| role := role m; content := content m; msg_name := msg_name m; tool_call_id := Some i;
     tool_calls := tool_calls m |}.

(** One call of the inner loop; the state is [mapping] and [calls]. *)
Definition namespace_call (turn_id : list N)
    (st : gmap (list N) (list N) * list ModelToolCall) (c : ModelToolCall) :
    viewing (gmap (list N) (list N) * list ModelToolCall) :=
  let '(mapping, calls) := st in
  match provider_tool_call_id c with
  | None => Raise HISTORY_INVALID
  | Some original =>
      fail_if (bool_decide (is_Some (mapping !! original))) HISTORY_INVALID;;
      let replacement := history_call_id turn_id (size mapping) in
      mret (<[original := replacement]> mapping, calls ++ [with_call_id replacement c])
  end.

Definition namespace_message (turn_id : list N)
    (st : gmap (list N) (list N) * list ModelMessage) (m : ModelMessage) :
    viewing (gmap (list N) (list N) * list ModelMessage) :=
  let '(mapping, result) := st in
  match tool_calls m with
  | _ :: _ =>
      mc ← fold_raise (namespace_call turn_id) (tool_calls m) (mapping, []);
      mret (mc.1, result ++ [with_tool_calls mc.2 m])
  | [] =>
      if bool_decide (role m = role_tool) then
        match tool_call_id m ≫= λ i, mapping !! i with
        | None => Raise HISTORY_INVALID
        | Some replacement => mret (mapping, result ++ [with_tool_call_id replacement m])
        end
      else mret (mapping, result ++ [m])
  end.

Definition _namespace_tool_ids (turn_id : list N) (messages : list ModelMessage) :
    viewing (list ModelMessage) :=
  mr ← fold_raise (namespace_message turn_id) messages (∅, []);
  mret mr.2.

Definition no_text (s : list N) : bool := bool_decide (py_strip s = []).
Definition plain_message (r : MessageRole) (text : list N) (m : ModelMessage) : bool :=
  bool_decide (role m = r) && bool_decide (content m = Some text)
  && bool_decide (length (tool_calls m) = 0%nat) && bool_decide (tool_call_id m = None).

Definition _is_plain_text_exchange (t : ThreadTurnContext) : bool :=
  if negb (bool_decide (tc_artifact_ids t = [])) || negb (bool_decide (tc_artifact_refs t = []))
     || negb match tc_evidence_registry t with Some [] => true | _ => false end
     || negb (bool_decide (length (tc_source_knowledge_snapshots t) = 0%nat))
     || negb (bool_decide (length (tc_source_wiki_publications t) = 0%nat))
     || bool_decide (length (tc_messages t) = 0%nat)
     || no_text (tc_user_input t) || no_text (tc_final_output t)
     || bool_decide (0%N ∈ tc_user_input t) || bool_decide (0%N ∈ tc_final_output t)
  then false
  else match tc_messages t with
       | [u; f] => plain_message role_user (tc_user_input t) u
                   && plain_message role_assistant (tc_final_output t) f
       | _ => false
       end.

Definition plain (r : MessageRole) (text : list N) : ModelMessage :=
  {| role := r; content := Some text; msg_name := None; tool_call_id := None; tool_calls := [] |}.

(** What a turn contributes to the request. *)
Definition turn_pair (turn_id : uuid) (t : ThreadTurnContext) : viewing (list ModelMessage) :=
  match tc_messages t with
  | [] =>
      let text := match tc_artifact_refs t with
                  | [] => tc_final_output t
                  | refs => join 10 (tc_final_output t :: refs)
                  end in
      mret [plain role_user (tc_user_input t); plain role_assistant text]
  | messages => _namespace_tool_ids (hex_fixed 32 turn_id) messages
  end.

(** ** The eligible prefix *)

(** Why a turn ends the eligible prefix; [None] is an eligible turn. *)
Definition prefix_stop (expected : Z) (s : ThreadHistorySourceIdentity) (t : ThreadTurnContext) :
    option (list N) :=
  if negb (si_sequence s =? expected) then Some (lit "PLAIN_TEXT_PREFIX_V1_SOURCE_SEQUENCE_GAP")
  else match tc_plain_text_prefix_v1_proof t with
  | None => Some (lit "PLAIN_TEXT_PREFIX_V1_PERSISTED_PROOF_MISSING")
  | Some p =>
      match pf_status p with
      | UNPROVEN | INELIGIBLE => Some (pf_reason p)
      | ELIGIBLE =>
          if negb (bool_decide (pf_reason p = PLAIN_TEXT_PREFIX_V1_ELIGIBLE_REASON))
          then Some (lit "PLAIN_TEXT_PREFIX_V1_PROOF_POLICY_MISMATCH")
          else if negb (_is_plain_text_exchange t)
          then Some (lit "PLAIN_TEXT_PREFIX_V1_PROOF_CONTRADICTED_BY_TURN")
          else None
      end
  end.

Definition _plain_text_prefix_result (policy : option (list N)) (sources : list PlainTextPrefixSource)
    (stopped_before_source_id stop_reason : option (list N)) : option PlainTextPrefix :=
  match policy with
  | None => None
  | Some policy =>
      let stop_reason :=
        if bool_decide (length sources = 0%nat) && bool_decide (stop_reason = None)
        then Some (lit "PLAIN_TEXT_PREFIX_V1_NO_ELIGIBLE_OLD_EXCHANGE") else stop_reason in
      Some {| px_policy := policy; px_sources := sources;
              px_stopped_before_source_id := stopped_before_source_id;
              px_stop_reason := stop_reason |}
  end.

(** ** A plan that would silently drop history is blocked *)

Definition uncovered_drop (retained_summary_ids : list (list N)) (d : SourceGroupDecision) : bool :=
  bool_decide (d_category d = OPTIONAL) && (0 <? d_sequence d) && negb (d_retained d)
  && negb (bool_decide (d_reason d = DROPPED_COVERED_BY_SUMMARY)
           && match d_covered_by_summary_id d with
              | Some i => bool_decide (i ∈ retained_summary_ids) | None => false end).

Definition _block_uncovered_optional_history_drops (p : HistoryPlan) : HistoryPlan :=
  let retained_summary_ids :=
    d_group_id <$> filter (λ d, d_category d = VERIFIED_SUMMARY ∧ d_retained d = true) (decisions p) in
  if negb (existsb (uncovered_drop retained_summary_ids) (decisions p)) then p
  else
    {| plan_version := plan_version p; plan_scope := plan_scope p;
       frozen_watermark := frozen_watermark p; plan_counter_id := plan_counter_id p;
       plan_counter_version := plan_counter_version p; work_limit := work_limit p;
       input_group_count := input_group_count p; measured_group_count := measured_group_count p;
       unmeasured_group_count := unmeasured_group_count p;
       measurement_complete := measurement_complete p;
       pre_trim_measurement_basis := pre_trim_measurement_basis p;
       unmeasured_group_ids := unmeasured_group_ids p; thresholds := thresholds p;
       pre_trim_tokens := pre_trim_tokens p;
       unaccounted_growth_tokens := unaccounted_growth_tokens p;
       planned_tokens := planned_tokens p; retained_tokens := retained_tokens p;
       retained_planned_tokens := retained_planned_tokens p;
       pre_trim_pressure := pre_trim_pressure p; post_trim_pressure := post_trim_pressure p;
       retained_group_ids := retained_group_ids p; dropped_group_ids := dropped_group_ids p;
       decisions := decisions p; reasons := reasons p;
       insufficiencies := insufficiencies p ++
         [_insufficiency InsufficiencyCode.VERIFIED_SUMMARY_NOT_RETAINED true
            (lit "Optional historical sources would be dropped before a verified summary replaces them.")];
       ready_for_dispatch := false |}.

(** ** The view *)

Record ViewState := {
  vs_groups : list HistorySourceGroup;
  vs_counts : gmap (list N) Z;
  vs_pairs : gmap (list N) (list ModelMessage);
  vs_prefix_sources : list PlainTextPrefixSource;
  vs_prefix_open : bool;
  vs_stopped_before : option (list N);
  vs_stop_reason : option (list N);
  vs_expected : Z
}.

Section View.
Context `{!TokenEstimator} (policy : ContextBudgetPolicy).

Definition estimate_messages (ms : list ModelMessage) : viewing Z :=
  ts ← traverse (λ m, from_budget (_estimate_message policy m)) ms;
  mret (foldr Z.add 0 ts).

(** The local function [add]: a new group and its count. *)
Definition new_view_group (sc : HistoryScope) (wm : Z) (id : list N) (c : HistoryCategory)
    (sequence : Z) (revision : list N) (reason : list N) (eligibility : SummaryEligibility.t) :
    viewing HistorySourceGroup :=
  from_plan (new_group
    {| group_id := id; scope := sc; revision := revision; sequence := sequence; watermark := wm;
       exchange_id := id; original_ref := id; count_version := 1; category := Some c;
       summary_eligibility := eligibility; summary_eligibility_reason := reason; coverage := [];
       verified := false; verification_ref := None |}).
Definition add_group (g : HistorySourceGroup) (tokens : Z) (s : ViewState) : ViewState :=
  {| vs_groups := vs_groups s ++ [g]; vs_counts := <[group_id g := tokens]> (vs_counts s);
     vs_pairs := vs_pairs s; vs_prefix_sources := vs_prefix_sources s;
     vs_prefix_open := vs_prefix_open s; vs_stopped_before := vs_stopped_before s;
     vs_stop_reason := vs_stop_reason s; vs_expected := vs_expected s |}.
Definition NOT_APPLICABLE : list N := lit "NOT_APPLICABLE".
Definition add_runtime (sc : HistoryScope) (wm : Z) (id : list N) (c : HistoryCategory)
    (revision : list N) (tokens : Z) (s : ViewState) : viewing ViewState :=
  g ← new_view_group sc wm id c 0 revision NOT_APPLICABLE SummaryEligibility.INELIGIBLE;
  mret (add_group g tokens s).

Definition memory_id (index : nat) : list N :=
  lit "runtime:memory:" ++ dump_nat (N.of_nat index).
Definition add_memory (sc : HistoryScope) (wm : Z) (s : ViewState) (im : nat * ModelMessage) :
    viewing ViewState :=
  tokens ← from_budget (_estimate_message policy im.2);
  add_runtime sc wm (memory_id im.1) OPTIONAL (lit "memory-v1") tokens s.

Definition set_pair (id : list N) (pair : list ModelMessage) (s : ViewState) : ViewState :=
  {| vs_groups := vs_groups s; vs_counts := vs_counts s;
     vs_pairs := <[id := pair]> (vs_pairs s); vs_prefix_sources := vs_prefix_sources s;
     vs_prefix_open := vs_prefix_open s; vs_stopped_before := vs_stopped_before s;
     vs_stop_reason := vs_stop_reason s; vs_expected := vs_expected s |}.
Definition close_prefix (id reason : list N) (s : ViewState) : ViewState :=
  {| vs_groups := vs_groups s; vs_counts := vs_counts s; vs_pairs := vs_pairs s;
     vs_prefix_sources := vs_prefix_sources s; vs_prefix_open := false;
     vs_stopped_before := Some id; vs_stop_reason := Some reason; vs_expected := vs_expected s |}.
Definition extend_prefix (x : PlainTextPrefixSource) (s : ViewState) : ViewState :=
  {| vs_groups := vs_groups s; vs_counts := vs_counts s; vs_pairs := vs_pairs s;
     vs_prefix_sources := vs_prefix_sources s ++ [x]; vs_prefix_open := vs_prefix_open s;
     vs_stopped_before := vs_stopped_before s; vs_stop_reason := vs_stop_reason s;
     vs_expected := vs_expected s + 1 |}.

Definition prefix_source (s : ThreadHistorySourceIdentity) (tokens : Z) : PlainTextPrefixSource :=
  {| px_source_id := si_source_id s; px_turn_id := si_turn_id s; px_run_id := si_run_id s;
     px_sequence := si_sequence s; px_revision_sha256 := si_revision_sha256 s;
     px_estimated_tokens := tokens |}.

(** The category, eligibility and reason of one source. *)
Definition classify (summaries : bool) (recent : bool) (s : ThreadHistorySourceIdentity)
    (t : ThreadTurnContext) (tokens : Z) (st : ViewState) :
    HistoryCategory * SummaryEligibility.t * list N * ViewState :=
  let reason := si_summary_eligibility_reason s in
  if recent then
    if summaries
    then (RECENT, SummaryEligibility.INELIGIBLE,
          lit "PLAIN_TEXT_PREFIX_V1_RECENT_EXCHANGE_RETAINED", st)
    else (RECENT, SummaryEligibility.UNKNOWN, reason, st)
  else if negb summaries then (KEEP_EXACT, SummaryEligibility.UNKNOWN, reason, st)
  else if negb (vs_prefix_open st)
  then (KEEP_EXACT, SummaryEligibility.INELIGIBLE,
        lit "PLAIN_TEXT_PREFIX_V1_CONTIGUITY_CLOSED", st)
  else match prefix_stop (vs_expected st) s t with
  | Some stop => (KEEP_EXACT, SummaryEligibility.INELIGIBLE, stop, close_prefix (si_source_id s) stop st)
  | None => (OPTIONAL, SummaryEligibility.ELIGIBLE, PLAIN_TEXT_PREFIX_V1_ELIGIBLE_REASON,
             extend_prefix (prefix_source s tokens) st)
  end.

(** One round of the loop over the sources and their turns. *)
Definition add_source (sc : HistoryScope) (wm : Z) (summaries : bool) (recent_start : Z)
    (st : ViewState) (ist : nat * (ThreadHistorySourceIdentity * ThreadTurnContext)) :
    viewing ViewState :=
  let '(index, (s, t)) := ist in
  fail_if (negb (bool_decide (tc_turn_id t = Some (si_turn_id s)))
           || negb (bool_decide (tc_run_id t = Some (si_run_id s)))
           || negb (bool_decide (tc_sequence t = Some (si_sequence s)))) HISTORY_INVALID;;
  pair ← turn_pair (si_turn_id s) t;
  let st := set_pair (si_source_id s) pair st in
  tokens ← estimate_messages pair;
  let '(c, eligibility, reason, st) :=
    classify summaries (recent_start <=? Z.of_nat index) s t tokens st in
  g ← new_view_group sc wm (si_source_id s) c (si_sequence s) (si_revision_sha256 s) reason eligibility;
  mret (add_group g tokens st).

(** [isinstance(value, int)], which booleans satisfy. *)
Definition as_python_int (v : json) : option Z :=
  match v with JInt z => Some z | JBool b => Some (Z.b2z b) | _ => None end.
Definition retained_turns (l : list (list N * json)) : Z :=
  match as_python_int (get_or (JInt 2) "retained_recent_turns" l) with
  | Some z => if z <? 0 then 2 else z
  | None => 2
  end.
(** [HistoryWorkLimit] refuses the boolean that [isinstance] lets through. *)
Definition group_limit (l : list (list N * json)) : viewing (option Z) :=
  match get_or (JInt 256) "max_history_groups" l with
  | JInt z => mret (if 0 <? z then Some z else None)
  | JBool true => Raise ViewError_value
  | _ => mret None
  end.
(** The frozen policy holds integer thresholds. *)
Definition threshold_argument (l : list (list N * json)) : viewing ThresholdArgument :=
  match field "thresholds" l with
  | JNull => mret NoThresholds
  | JObj m =>
      items ← traverse (λ kv, z ← or_raise ViewError_value (as_int kv.2); mret (kv.1, z)) m;
      mret (MappedThresholds items)
  | _ => Raise ViewError_value
  end.

Definition start_view (summaries : bool) : ViewState :=
  {| vs_groups := []; vs_counts := ∅; vs_pairs := ∅; vs_prefix_sources := [];
     vs_prefix_open := summaries; vs_stopped_before := None; vs_stop_reason := None;
     vs_expected := 1 |}.

(** Everything up to the call of the planner. *)
Definition collect (sc : HistoryScope) (m : ThreadHistorySourceManifest)
    (turns : list ThreadTurnContext) (l : list (list N * json))
    (mandatory memory : list ModelMessage) (tools : list ModelToolDefinition) (summaries : bool) :
    viewing ViewState :=
  let wm := sc_before_sequence (mf_scope m) in
  overhead ← from_budget (_protocol_overhead policy "request_overhead_tokens");
  mandatory_tokens ← estimate_messages mandatory;
  tool_tokens ← traverse (λ t, from_budget (_estimate_tool policy t)) tools;
  s ← add_runtime sc wm (lit "runtime:mandatory") MANDATORY (lit "runtime-v1")
        (overhead + mandatory_tokens + foldr Z.add 0 tool_tokens) (start_view summaries);
  s ← fold_raise (add_memory sc wm) (imap pair memory) s;
  let recent_start := Z.max (Z.of_nat (length turns) - retained_turns l) 0 in
  fold_raise (add_source sc wm summaries recent_start)
    (imap pair (zip (mf_selected_sources m) turns)) s.

Definition view_arguments (sc : HistoryScope) (wm : Z) (counts : gmap (list N) Z)
    (l : list (list N * json)) : viewing PlanArguments :=
  limit ← group_limit l;
  th ← threshold_argument l;
  budget ← from_budget (policy_int "input_limit_tokens" l);
  match field "counter" l with
  | JObj c =>
      id ← or_raise ViewError_value (as_text (field "id" c));
      version ← or_raise ViewError_value (as_int (field "version" c));
      mret {| arg_scope := sc; arg_frozen_watermark := wm; arg_counter := _Counter counts;
              arg_b_work_tokens := budget; arg_growth := 0; arg_work_limit := limit;
              arg_verifier := None; arg_expected_counter_id := Some id;
              arg_expected_counter_version := Some version; arg_thresholds := th |}
  | _ => Raise ViewError_value
  end.

(** The messages of the retained sources, in the order of the snapshot. *)
Definition retained_sources (m : ThreadHistorySourceManifest) (p : HistoryPlan) :
    list ThreadHistorySourceIdentity :=
  filter (λ s, si_source_id s ∈ retained_group_ids p) (mf_selected_sources m).
Definition pair_of (st : ViewState) (s : ThreadHistorySourceIdentity) : list ModelMessage :=
  default [] (vs_pairs st !! si_source_id s).

Definition plan_history_view (conversation : ThreadConversation)
    (mandatory_messages memory_messages : list ModelMessage) (tools : list ModelToolDefinition)
    (permission_snapshot : list N) (return_blocked_plan : bool)
    (summary_source_policy : option (list N)) : viewing PlannedHistory :=
  fail_if (match summary_source_policy with
           | Some p => negb (bool_decide (p = PLAIN_TEXT_PREFIX_V1)) | None => false end)
    ViewError_value;;
  let turns := cv_turns conversation in
  m ← or_raise HISTORY_INSUFFICIENT (cv_source_manifest conversation);
  fail_if (negb (bool_decide (mf_status m = HISTORY_SOURCE_COMPLETE))) HISTORY_INSUFFICIENT;;
  fail_if (negb (mf_selected_source_count m =? mf_available_eligible_source_count m))
    HISTORY_INSUFFICIENT;;
  fail_if (negb (length (mf_selected_sources m) =? length turns)%nat) HISTORY_INVALID;;
  l ← or_raise (ViewError_hub "AGENT_CONTEXT_POLICY_INVALID") (context_policy policy);
  sc ← from_plan (new_scope
    {| workspace_id := uuid_str (sc_workspace_id (mf_scope m));
       thread_id := uuid_str (sc_thread_id (mf_scope m));
       HistoryPlanner.permission_snapshot := permission_snapshot |});
  st ← collect sc m turns l mandatory_messages memory_messages tools
         (bool_decide (is_Some summary_source_policy));
  a ← view_arguments sc (sc_before_sequence (mf_scope m)) (vs_counts st) l;
  p ← from_plan (plan_history (vs_groups st) a);
  let p := _block_uncovered_optional_history_drops p in
  let prefix := _plain_text_prefix_result summary_source_policy (vs_prefix_sources st)
                  (vs_stopped_before st) (vs_stop_reason st) in
  if ready_for_dispatch p then
    mret {| ph_plan := p;
            ph_messages := retained_sources m p ≫= pair_of st;
            ph_memory_messages :=
              (filter (λ im : nat * ModelMessage, memory_id im.1 ∈ retained_group_ids p)
                 (imap pair memory_messages)).*2;
            ph_exchange_ids :=
              retained_sources m p ≫= (λ s, (λ _, si_source_id s) <$> pair_of st s);
            ph_plain_text_prefix := prefix |}
  else if return_blocked_plan then
    mret {| ph_plan := p; ph_messages := []; ph_memory_messages := []; ph_exchange_ids := [];
            ph_plain_text_prefix := prefix |}
  else Raise HISTORY_INSUFFICIENT.
End View.
