(* ===== verification/HistoryRuntimeTheory.v ===== *)
(** * Planned history: the loops and the planner *)

From stdpp Require Import base gmap list strings sorting.
From Stdlib Require Import ZArith NArith Lia.
From S2P Require Import Prelude.
From S2P Require Import Json.
From S2P Require Import TurnTranscript.
From S2P Require Import ContextMetadata.
From S2P Require Import ModelProfiles.
From S2P Require Import ContextPolicy.
From S2P Require Import Outcome.
From S2P Require Import JsonProjection.
From S2P Require Import ContextBudget.
From S2P Require Import WorkLayer.
From S2P Require Import HistoryPlanner.
From S2P Require Import HistoryPlannerTheory.
From S2P Require Import HistoryPlannerProperties.
From S2P Require Import HistoryRuntime.

Local Open Scope Z_scope.
Local Arguments lit : simpl never.

(** ** Generic facts *)

(** A property kept by every iteration, which knows what came before it. *)
Lemma fold_raise_prefix_inv {E A S} (f : S → A → outcome E S) (P : list A → S → Prop) l s s' :
  P [] s →
  (∀ done x rest t t', l = done ++ x :: rest → P done t → f t x = Return t' → P (done ++ [x]) t') →
  fold_raise f l s = Return s' → P l s'.
Proof.
  intros H0 Hstep. enough (∀ done rest t, l = done ++ rest → P done t →
    fold_raise f rest t = Return s' → P l s') as H by (by apply (H [] l s)).
  intros dn rest. revert dn. induction rest as [|x rest IH]; intros dn t Hl Ht; cbn.
  - intros [= <-]. rewrite app_nil_r in Hl. by subst.
  - destruct (f t x) as [t'|] eqn:Hf; [|done]. apply (IH (dn ++ [x])).
    + by rewrite <- app_assoc.
    + by eapply Hstep.
Qed.

Lemma from_plan_inv {A} (m : outcome PlanError A) a : from_plan m = Return a → m = Return a.
Proof. destruct m; cbn; [by intros [= ->]|done]. Qed.
Lemma from_budget_inv {A} (m : outcome BudgetError A) a : from_budget m = Return a → m = Return a.
Proof. destruct m; cbn; [by intros [= ->]|done]. Qed.

Lemma imap_pair_index {A} (l : list A) done x rest :
  imap pair l = done ++ x :: rest → x.1 = length done.
Proof.
  intros E. apply (f_equal (.!! length done)) in E.
  rewrite list_lookup_imap, list_lookup_middle in E by done.
  apply fmap_Some in E as (y & _ & ->). done.
Qed.

Lemma list_to_map_reverse_lookup {A} (l : list (list N * A)) k v :
  NoDup l.*1 → (k, v) ∈ l → (list_to_map (reverse l) : gmap (list N) A) !! k = Some v.
Proof.
  intros Hnd Hin. apply elem_of_list_to_map_1.
  - rewrite fmap_reverse. by rewrite reverse_Permutation.
  - by rewrite elem_of_reverse.
Qed.

Lemma filter_map {A B} (f : A → B) (P : B → Prop) `{∀ x, Decision (P x)} (l : list A) :
  filter P (f <$> l) = f <$> filter (λ x, P (f x)) l.
Proof.
  induction l as [|x l IH]; [done|]. rewrite fmap_cons, !filter_cons.
  case_decide; [by rewrite fmap_cons, IH|done].
Qed.

(** ** What a plan retains *)

Section Plans.
Context {groups : list HistorySourceGroup} {a : PlanArguments} {p : HistoryPlan}.
Context (Hplan : plan_history groups a = Return p).

(** The tokens the counter gives a group. *)
Definition counted (g : HistorySourceGroup) : Z :=
  match count (arg_counter a) g with Some (JInt z) => z | _ => 0 end.

Lemma plan_ids : NoDup (group_id <$> groups).
Proof using Hplan. destruct (plan_inv _ _ _ Hplan) as (? & ? & Hp). apply (ps_groups _ _ _ _ _ Hp). Qed.

Lemma ready_complete : ready_for_dispatch p = true → measurement_complete p = true.
Proof using Hplan.
  destruct (plan_inv _ _ _ Hplan) as (? & ? & Hp). rewrite (ps_ready _ _ _ _ _ Hp), negb_true_iff.
  by intros (? & _)%(ps_blocking _ _ _ _ _ Hp).
Qed.

Lemma ready_retains g :
  ready_for_dispatch p = true → g ∈ groups →
  (_effective_category g).1 ∈ [MANDATORY; KEEP_EXACT; RECENT] → group_id g ∈ retained_group_ids p.
Proof using Hplan.
  destruct (plan_inv _ _ _ Hplan) as (measured & sel & Hp).
  rewrite (ps_ready _ _ _ _ _ Hp), negb_true_iff.
  intros (Hcomplete & Hkeep & _)%(ps_blocking _ _ _ _ _ Hp) Hg.
  destruct (complete_measured Hp g Hcomplete Hg) as (m & Hm & <-).
  rewrite <- (measured_category Hp m Hm). intros Hc. apply (retained_ids_iff Hp m Hm).
  rewrite !elem_of_cons in Hc. destruct Hc as [Hc|[Hc|[Hc|[]%not_elem_of_nil]]]; auto.
  by apply (so_mandatory _ _ _ _ (ps_selection _ _ _ _ _ Hp)).
Qed.

(** Without summaries an optional group of the thread is retained unless the
    plan is blocked. *)
Lemma uncovered_retains g :
  ready_for_dispatch p = true → g ∈ groups →
  Forall (λ g, (_effective_category g).1 ≠ VERIFIED_SUMMARY) groups →
  existsb (uncovered_drop (d_group_id <$> filter (λ d, d_category d = VERIFIED_SUMMARY ∧
    d_retained d = true) (decisions p))) (decisions p) = false →
  (_effective_category g).1 = OPTIONAL → 0 < sequence g → group_id g ∈ retained_group_ids p.
Proof using Hplan.
  destruct (plan_inv _ _ _ Hplan) as (measured & sel & Hp).
  intros Hready%ready_complete Hg Hns Hun Hc Hseq.
  destruct (complete_measured Hp g Hready Hg) as (m & Hm & <-).
  rewrite <- (measured_category Hp m Hm) in Hc. apply (retained_ids_iff Hp m Hm).
  destruct (decision_of_group Hp m Hm) as (ret & r & c & Hd & Hmade & Hret & _).
  destruct ret; [by apply Hret|]. exfalso.
  rewrite <- not_true_iff_false, existsb_exists in Hun. apply Hun.
  exists (_source_decision m false r c). split; [by apply list_elem_of_In|].
  unfold uncovered_drop. cbn. rewrite bool_decide_true by done.
  apply Z.ltb_lt in Hseq. rewrite Hseq. cbn.
  destruct c as [c|]; [|by rewrite andb_false_r].
  rewrite (bool_decide_false (c ∈ _)); [by rewrite andb_false_r|].
  intros (d & -> & [[Hdc _] Hdin]%list_elem_of_filter)%list_elem_of_fmap.
  destruct (decision_inv Hp d Hdin) as (m' & ? & ? & ? & Hm' & -> & _). cbn in Hdc.
  rewrite (measured_category Hp m' Hm') in Hdc. rewrite Forall_forall in Hns.
  by apply (Hns (mg_group m') (measured_in_groups Hp m' Hm')).
Qed.

Lemma sum_counted (l : list _MeasuredGroup) :
  Forall (λ m, count (arg_counter a) (mg_group m) = Some (JInt (mg_tokens m))) l →
  sum_tokens l = foldr Z.add 0 (counted <$> (mg_group <$> l)).
Proof.
  intros Hl. induction Hl as [|m l Hm _ IH]; [done|]. rewrite !fmap_cons.
  cbn [sum_tokens foldr]. fold (sum_tokens l). rewrite IH. unfold counted at 2. by rewrite Hm.
Qed.

Lemma foldr_add_perm (l k : list Z) : l ≡ₚ k → foldr Z.add 0 l = foldr Z.add 0 k.
Proof. intros H. apply (foldr_permutation_proper' (=) Z.add 0); try apply _; done || (intros; lia). Qed.

(** What is retained is what the counter says, and it fits. *)
Lemma ready_cost :
  ready_for_dispatch p = true →
  retained_tokens p
  = foldr Z.add 0 (counted <$> filter (λ g, group_id g ∈ retained_group_ids p) groups) ∧
  retained_tokens p + arg_growth a ≤ arg_b_work_tokens a.
Proof using Hplan.
  destruct (plan_inv _ _ _ Hplan) as (measured & sel & Hp). intros Hready%ready_complete.
  pose proof (so_inv _ _ _ _ (ps_selection _ _ _ _ _ Hp)) as [_ _ _ Hsum Hpos _].
  rewrite (ps_retained _ _ _ _ _ Hp). split; [|lia].
  assert (filter (λ m, mg_id m ∈ selected_ids sel) measured
          = filter (λ m, group_id (mg_group m) ∈ retained_group_ids p) measured) as ->.
  { apply filter_ext_in. intros m Hm. symmetry. exact (retained_ids_iff Hp m Hm). }
  rewrite sum_counted.
  2:{ apply Forall_forall. intros m [_ Hm]%list_elem_of_filter. by apply (measured_count Hp). }
  apply foldr_add_perm, fmap_Permutation.
  pose proof (me_groups _ _ _ (ps_measured _ _ _ _ _ Hp)) as Hm.
  rewrite (ps_complete _ _ _ _ _ Hp) in Hready. apply bool_decide_eq_true in Hready.
  rewrite take_ge in Hm by (by rewrite merge_sort_Permutation).
  rewrite <- (merge_sort_Permutation order_le groups), <- Hm.
  by rewrite filter_map.
Qed.
End Plans.

Lemma block_ready p :
  ready_for_dispatch (_block_uncovered_optional_history_drops p) = true →
  _block_uncovered_optional_history_drops p = p ∧
  existsb (uncovered_drop (d_group_id <$> filter (λ d, d_category d = VERIFIED_SUMMARY ∧
    d_retained d = true) (decisions p))) (decisions p) = false.
Proof.
  unfold _block_uncovered_optional_history_drops. by destruct (existsb _ _).
Qed.

(** ** What the loops collect *)

(** The groups with their counts, in the order they were added. *)
Definition log_items (log : list (HistorySourceGroup * Z)) : list (list N * Z) :=
  (λ gt, (group_id gt.1, gt.2)) <$> log.
Record view_inv (log : list (HistorySourceGroup * Z)) (st : ViewState) : Prop := {
  vi_groups : vs_groups st = log.*1;
  vi_counts : vs_counts st = list_to_map (reverse (log_items log))
}.

Lemma view_inv_add log g t st :
  view_inv log st → view_inv (log ++ [(g, t)]) (add_group g t st).
Proof.
  intros [Hg Hc]. split; cbn.
  - by rewrite Hg, fmap_app.
  - unfold log_items. rewrite fmap_app, reverse_app. cbn. by rewrite Hc.
Qed.

Lemma view_inv_same log st st' :
  vs_groups st' = vs_groups st → vs_counts st' = vs_counts st → view_inv log st → view_inv log st'.
Proof. intros Hg Hc []. split; congruence. Qed.

Lemma view_inv_count log st g t :
  view_inv log st → NoDup (group_id <$> vs_groups st) → (g, t) ∈ log →
  vs_counts st !! group_id g = Some t.
Proof.
  intros [Hg Hc] Hnd Hin. rewrite Hc. apply list_to_map_reverse_lookup.
  - unfold log_items. rewrite <- list_fmap_compose. rewrite Hg, <- list_fmap_compose in Hnd.
    by rewrite (list_fmap_ext _ (group_id ∘ fst)).
  - unfold log_items. apply list_elem_of_fmap. by exists (g, t).
Qed.

Lemma new_view_group_inv sc wm id c q rev reason e g :
  new_view_group sc wm id c q rev reason e = Return g →
  group_id g = id ∧ category g = Some c ∧ sequence g = q ∧ summary_eligibility g = e ∧ revision g = rev.
Proof.
  unfold new_view_group. intros Hg%from_plan_inv. unfold new_group in Hg.
  repeat (apply obind_inv in Hg as (? & _ & Hg)). by injection Hg as <-.
Qed.

(** A source with its turn and index, and what it contributes. *)
Abbreviation indexed := (nat * (ThreadHistorySourceIdentity * ThreadTurnContext))%type.
Abbreviation contribution := ((HistorySourceGroup * Z) * list ModelMessage)%type.

Section View.
Context {estimator : TokenEstimator} (policy : ContextBudgetPolicy).

(** What the planner is told of the mandatory part and of the memory. *)
Definition runtime_group (c : HistoryCategory) (id : list N) (g : HistorySourceGroup) : Prop :=
  group_id g = id ∧ category g = Some c ∧ sequence g = 0 ∧
  summary_eligibility g = SummaryEligibility.INELIGIBLE.
Definition same_rest (st st' : ViewState) : Prop :=
  vs_pairs st' = vs_pairs st ∧ vs_prefix_sources st' = vs_prefix_sources st ∧
  vs_prefix_open st' = vs_prefix_open st ∧ vs_stopped_before st' = vs_stopped_before st ∧
  vs_stop_reason st' = vs_stop_reason st ∧ vs_expected st' = vs_expected st.

Lemma add_runtime_inv log sc wm id c rev t st st' :
  add_runtime sc wm id c rev t st = Return st' → view_inv log st →
  ∃ g, runtime_group c id g ∧ view_inv (log ++ [(g, t)]) st' ∧ same_rest st st'.
Proof.
  unfold add_runtime. intros (g & Hg & [= <-])%obind_inv Hst.
  apply new_view_group_inv in Hg as (? & ? & ? & ? & _). exists g.
  split; [done|]. split; [by apply view_inv_add|done].
Qed.

Lemma memory_loop sc wm log memory st st' :
  fold_raise (add_memory policy sc wm) (imap pair memory) st = Return st' → view_inv log st →
  ∃ mlog, view_inv (log ++ mlog) st' ∧ same_rest st st' ∧
    Forall2 (λ im gt, runtime_group OPTIONAL (memory_id im.1) gt.1 ∧
      _estimate_message policy im.2 = Return gt.2) (imap pair memory) mlog.
Proof.
  intros Hrun Hst. revert Hrun.
  apply (fold_raise_prefix_inv _ (λ done t, ∃ mlog, view_inv (log ++ mlog) t ∧ same_rest st t ∧
    Forall2 (λ im gt, runtime_group OPTIONAL (memory_id im.1) gt.1 ∧
      _estimate_message policy im.2 = Return gt.2) done mlog)).
  - exists []. rewrite app_nil_r. by split_and!.
  - intros done [i m] rest t t' _ (mlog & Hv & Hsame & Hf) Hstep. unfold add_memory in Hstep.
    apply obind_inv in Hstep as (tok & Htok%from_budget_inv & Hstep).
    eapply add_runtime_inv in Hstep as (g & Hg & Hv' & Hsame'); [|exact Hv].
    exists (mlog ++ [(g, tok)]). rewrite app_assoc. split; [done|]. split.
    + destruct Hsame as (? & ? & ? & ? & ? & ?), Hsame' as (? & ? & ? & ? & ? & ?).
      split_and!; congruence.
    + apply Forall2_app; [done|]. by apply Forall2_cons_2; [|apply Forall2_nil_2].
Qed.

Record contributes (x : indexed) (y : contribution) : Prop := {
  ct_turn : tc_turn_id x.2.2 = Some (si_turn_id x.2.1);
  ct_run : tc_run_id x.2.2 = Some (si_run_id x.2.1);
  ct_sequence : tc_sequence x.2.2 = Some (si_sequence x.2.1);
  ct_pair : turn_pair (si_turn_id x.2.1) x.2.2 = Return y.2;
  ct_tokens : estimate_messages policy y.2 = Return y.1.2;
  ct_id : group_id y.1.1 = si_source_id x.2.1;
  ct_category : (_effective_category y.1.1).1 ∈ [KEEP_EXACT; RECENT] ∨
    (_effective_category y.1.1).1 = OPTIONAL ∧ 0 < sequence y.1.1
}.

(** The eligible prefix after the sources [dn] with their contributions. *)
Definition eligible_at (recent_start : Z) (x : indexed) (y : contribution) : Prop :=
  Z.of_nat x.1 < recent_start ∧ prefix_stop (1 + Z.of_nat x.1) x.2.1 x.2.2 = None.
Record prefix_inv (summaries : bool) (recent_start : Z) (dn : list indexed) (items : list contribution)
    (st : ViewState) : Prop := {
  pi_open : vs_prefix_open st = true → summaries = true ∧ (
    length (vs_prefix_sources st) = length dn ∨ recent_start ≤ Z.of_nat (length dn));
  pi_sources : vs_prefix_sources st =
    take (length (vs_prefix_sources st))
      (zip_with (λ (x : indexed) (y : contribution), prefix_source x.2.1 y.1.2) dn items);
  pi_expected : vs_expected st = 1 + Z.of_nat (length (vs_prefix_sources st));
  pi_eligible : ∀ i x y, (i < length (vs_prefix_sources st))%nat → dn !! i = Some x →
    items !! i = Some y → eligible_at recent_start x y
}.

Lemma classify_inv summaries recent s t tok st c e reason st' :
  classify summaries recent s t tok st = (c, e, reason, st') →
  vs_groups st' = vs_groups st ∧ vs_counts st' = vs_counts st ∧ vs_pairs st' = vs_pairs st ∧
  (c = KEEP_EXACT ∨ c = RECENT ∨
   c = OPTIONAL ∧ e = SummaryEligibility.ELIGIBLE ∧ si_sequence s = vs_expected st) ∧
  (vs_prefix_sources st' = vs_prefix_sources st ∧ vs_expected st' = vs_expected st ∧
   (vs_prefix_open st' = true → vs_prefix_open st = true ∧ (summaries = true → recent = true)) ∨
   vs_prefix_open st = true ∧ recent = false ∧ prefix_stop (vs_expected st) s t = None ∧
   vs_prefix_open st' = true ∧ vs_prefix_sources st' = vs_prefix_sources st ++ [prefix_source s tok] ∧
   vs_expected st' = vs_expected st + 1).
Proof.
  unfold classify. destruct recent; [destruct summaries; intros [= <- <- <- <-]; naive_solver|].
  destruct summaries; cbn [negb]; [|intros [= <- <- <- <-]; naive_solver].
  destruct (vs_prefix_open st) eqn:Ho; cbn [negb]; [|intros [= <- <- <- <-]; split_and!; auto;
    left; split_and!; [done..|congruence]].
  destruct (prefix_stop _ _ _) as [stop|] eqn:Hstop; intros [= <- <- <- <-]; cbn.
  - split_and!; auto.
  - split_and!; try done; [|by right; rewrite Ho].
    right. right. split_and!; try done. unfold prefix_stop in Hstop.
    destruct (si_sequence s =? vs_expected st) eqn:E; [by apply Z.eqb_eq|done].
Qed.

Lemma prefix_step summaries recent_start dn items st st' (x : indexed) y c e reason :
  x.1 = length dn → length items = length dn → 0 ≤ recent_start →
  classify summaries (recent_start <=? Z.of_nat x.1) x.2.1 x.2.2 y.1.2 st = (c, e, reason, st') →
  prefix_inv summaries recent_start dn items st →
  prefix_inv summaries recent_start (dn ++ [x]) (items ++ [y]) st'.
Proof.
  intros Hi Hlen Hr Hc [Ho Hs He Hel].
  assert (length (vs_prefix_sources st) ≤ length dn)%nat as Hk.
  { rewrite Hs, length_take, length_zip_with. lia. }
  apply classify_inv in Hc as (_ & _ & _ & _ & Hc).
  set (k := length (vs_prefix_sources st)) in *.
  assert (zip_with (λ (x : indexed) (y : contribution), prefix_source x.2.1 y.1.2)
    (dn ++ [x]) (items ++ [y]) = zip_with (λ (x : indexed) (y : contribution),
      prefix_source x.2.1 y.1.2) dn items ++ [prefix_source x.2.1 y.1.2]) as Hz
    by (by rewrite zip_with_app).
  destruct Hc as [(Hs' & He' & Ho')|(Hopen & Hrec & Hstop & Hopen' & Hs' & He')].
  - assert (length (vs_prefix_sources st') = k) as Hk' by (by rewrite Hs').
    split; rewrite ?Hk'.
    + intros Hop. destruct (Ho' Hop) as [Hop0 Hrec]. destruct (Ho Hop0) as [-> _].
      split; [done|]. specialize (Hrec eq_refl). apply Z.leb_le in Hrec.
      rewrite length_app. cbn. right. lia.
    + rewrite Hz, take_app_le by (rewrite length_zip_with; lia). by rewrite Hs'.
    + by rewrite He'.
    + intros i x' y' Hlt Hx Hy. rewrite lookup_app_l in Hx by lia. rewrite lookup_app_l in Hy by lia. by apply (Hel i).
  - apply Z.leb_gt in Hrec. destruct (Ho Hopen) as [Hsum Hpos].
    assert (k = length dn) as Hkd by (destruct Hpos; lia).
    assert (length (vs_prefix_sources st') = S k) as Hk'
      by (rewrite Hs', length_app; cbn; lia).
    split; rewrite ?Hk'.
    + intros _. split; [done|]. left. rewrite length_app. cbn. lia.
    + rewrite Hz, take_ge by (rewrite length_app, length_zip_with; cbn; lia). rewrite Hs', Hs.
      f_equal. apply take_ge. rewrite length_zip_with. lia.
    + rewrite He', He. lia.
    + intros i x' y' Hlt Hx Hy. destruct (decide (i < k)%nat) as [Hlt'|Hge].
      * rewrite lookup_app_l in Hx by lia. rewrite lookup_app_l in Hy by lia. by apply (Hel i).
      * assert (i = length dn) as -> by lia.
        rewrite lookup_app_r, Nat.sub_diag in Hx by lia. injection Hx as <-.
        split; [done|]. rewrite Hi, <- Hkd, <- He. exact Hstop.
Qed.

Lemma foldr_add_app (l k : list Z) : foldr Z.add 0 (l ++ k) = foldr Z.add 0 l + foldr Z.add 0 k.
Proof. induction l as [|x l IH]; cbn; [done|]. rewrite IH. lia. Qed.

Lemma estimate_messages_app ms ns a b :
  estimate_messages policy ms = Return a → estimate_messages policy ns = Return b →
  estimate_messages policy (ms ++ ns) = Return (a + b).
Proof.
  unfold estimate_messages. intros (ts & Ht & [= <-])%obind_inv (us & Hu & [= <-])%obind_inv.
  assert (traverse (λ m, from_budget (_estimate_message policy m)) (ms ++ ns) = Return (ts ++ us)) as ->.
  { revert ts Ht. induction ms as [|m ms IH]; intros ts; cbn.
    - by intros [= <-].
    - destruct (from_budget _) as [z|]; [|done].
      destruct (traverse _ ms) as [zs|]; [|done]. intros [= <-]. by rewrite (IH zs). }
  cbn. by rewrite foldr_add_app.
Qed.

(** The loop over the sources. *)
Lemma effective_category_of g c e :
  category g = Some c → summary_eligibility g = e →
  (c = OPTIONAL → e ≠ SummaryEligibility.UNKNOWN) → (_effective_category g).1 = c.
Proof. unfold _effective_category. intros -> -> H. destruct c, e; try done. by destruct H. Qed.

Record collected (summaries : bool) (recent_start : Z) (log : list (HistorySourceGroup * Z))
    (dn : list indexed) (st : ViewState) (items : list contribution) : Prop := {
  co_view : view_inv (log ++ items.*1) st;
  co_each : Forall2 contributes dn items;
  co_pairs : vs_pairs st =
    list_to_map (reverse (zip_with (λ (x : indexed) (y : contribution),
      (si_source_id x.2.1, y.2)) dn items));
  co_prefix : prefix_inv summaries recent_start dn items st
}.

Lemma source_step summaries recent_start sc wm log dn st st' (x : indexed) items :
  x.1 = length dn → 0 ≤ recent_start →
  add_source policy sc wm summaries recent_start st x = Return st' →
  collected summaries recent_start log dn st items →
  ∃ y, collected summaries recent_start log (dn ++ [x]) st' (items ++ [y]).
Proof.
  destruct x as [i [s t]]. intros Hi Hr Hstep [Hv Heach Hpairs Hprefix]. unfold add_source in Hstep.
  apply obind_inv in Hstep as (? & Hm%fail_if_inv & Hstep).
  rewrite !orb_false_iff, !negb_false_iff, !bool_decide_eq_true in Hm.
  destruct Hm as [[Hm1 Hm2] Hm3].
  apply obind_inv in Hstep as (pair & Hpair & Hstep).
  apply obind_inv in Hstep as (tok & Htok & Hstep).
  destruct (classify _ _ _ _ _ _) as [[[c e] reason] st1] eqn:Hc.
  apply obind_inv in Hstep as (g & Hg & [= <-]).
  apply new_view_group_inv in Hg as (Hid & Hcat & Hseq & Hel & _).
  destruct (classify_inv _ _ _ _ _ _ _ _ _ _ Hc) as (Hgr & Hco & Hpa & Hkind & _).
  exists ((g, tok), pair). cbn in Hgr, Hco, Hpa, Hkind.
  pose proof (Forall2_length _ _ _ Heach) as Hlen.
  split.
  - rewrite fmap_app. cbn. rewrite app_assoc. apply view_inv_add.
    by eapply view_inv_same; [..|exact Hv].
  - apply Forall2_app; [done|]. apply Forall2_cons_2; [|apply Forall2_nil_2].
    split; cbn; try done.
    rewrite (effective_category_of g c e Hcat Hel).
    + destruct Hkind as [->|[->|(-> & -> & Hq)]]; [left; set_solver..|]. right. split; [done|].
      rewrite Hseq, Hq, (pi_expected _ _ _ _ _ Hprefix). lia.
    + destruct Hkind as [->|[->|(-> & -> & _)]]; done.
  - cbn. rewrite Hpa, Hpairs. rewrite zip_with_app by done. rewrite reverse_app. done.
  - apply (prefix_step summaries recent_start dn items (set_pair (si_source_id s) pair st) st1
      (i, (s, t)) ((g, tok), pair) c e reason) in Hc; try done.
    + destruct Hc as [? ? ? ?]. by split.
    + destruct Hprefix as [? ? ? ?]. by split.
Qed.

Lemma source_loop summaries recent_start sc wm log st st' (l : list (ThreadHistorySourceIdentity *
    ThreadTurnContext)) :
  fold_raise (add_source policy sc wm summaries recent_start) (imap pair l) st = Return st' →
  0 ≤ recent_start → view_inv log st → vs_pairs st = ∅ → vs_prefix_sources st = [] →
  vs_prefix_open st = summaries → vs_expected st = 1 →
  ∃ items, collected summaries recent_start log (imap pair l) st' items.
Proof.
  intros Hrun Hr Hv Hp Hs Ho He. revert Hrun.
  apply (fold_raise_prefix_inv _ (λ dn t, ∃ items,
    collected summaries recent_start log dn t items)).
  - exists []. split; cbn; [by rewrite app_nil_r|constructor|done|].
    split; rewrite ?Hs; cbn; try done. rewrite Ho. auto.
  - intros dn x rest t t' Hl (items & Hcol) Hstep.
    eapply source_step in Hstep as [y Hy]; [|by eapply imap_pair_index|done..]. eauto.
Qed.
End View.
