(* ===== verification/HistoryRuntimeProperties.v ===== *)
(** * What a planned history sends *)

From stdpp Require Import base gmap list strings sorting.
From Stdlib Require Import ZArith NArith Lia.
From S2P Require Import Prelude.
From S2P Require Import Json.
From S2P Require Import JsonTheory.
From S2P Require Import TurnTranscript.
From S2P Require Import ContextMetadata.
From S2P Require Import ModelProfiles.
From S2P Require Import ContextPolicy.
From S2P Require Import Outcome.
From S2P Require Import JsonProjection.
From S2P Require Import ContextBudget.
From S2P Require Import ContextAdmissionProperties.
From S2P Require Import WorkLayer.
From S2P Require Import WorkLayerProperties.
From S2P Require Import HistoryPlanner.
From S2P Require Import HistoryPlannerTheory.
From S2P Require Import HistoryPlannerProperties.
From S2P Require Import HistoryRuntime.
From S2P Require Import HistoryRuntimeTheory.

Local Open Scope Z_scope.
Local Arguments lit : simpl never.

(** ** Tool call identifiers *)

(** The identifiers of the calls of some messages, and of the results. *)
Definition call_ids (ms : list ModelMessage) : list (option (list N)) :=
  provider_tool_call_id <$> (ms ≫= tool_calls).
Definition is_result (m : ModelMessage) : Prop := role m = role_tool ∧ length (tool_calls m) = 0%nat.
#[local] Instance is_result_dec m : Decision (is_result m).
Proof. apply _. Defined.

(** A message with its identifiers replaced. *)
Definition rename_call (f : list N → list N) (c : ModelToolCall) : ModelToolCall :=
  {| call_name := call_name c; call_arguments := call_arguments c;
     provider_tool_call_id := f <$> provider_tool_call_id c |}.
Definition rename_message (f : list N → list N) (m : ModelMessage) : ModelMessage :=
  {| role := role m; content := content m; msg_name := msg_name m;
     tool_call_id := if decide (is_result m) then f <$> tool_call_id m else tool_call_id m;
     tool_calls := rename_call f <$> tool_calls m |}.

(** The map built so far: the [i]-th identifier becomes the [i]-th name. *)
Record mapped (turn : list N) (ids : list (list N)) (mapping : gmap (list N) (list N)) : Prop := {
  mp_nodup : NoDup ids;
  mp_lookup : ∀ i o, ids !! i = Some o → mapping !! o = Some (history_call_id turn i);
  mp_dom : dom mapping = list_to_set ids
}.

Lemma mapped_size turn ids mapping : mapped turn ids mapping → size mapping = length ids.
Proof. intros [Hnd _ Hd]. rewrite <- size_dom, Hd. by apply size_list_to_set. Qed.

Lemma mapped_snoc turn ids mapping o :
  mapped turn ids mapping → mapping !! o = None →
  mapped turn (ids ++ [o]) (<[o := history_call_id turn (size mapping)]> mapping).
Proof.
  intros Hm Ho. pose proof (mapped_size _ _ _ Hm) as Hsz. destruct Hm as [Hnd Hl Hd].
  assert (o ∉ ids) as Hni.
  { intros Hin. apply (not_elem_of_dom mapping o) in Ho. apply Ho. rewrite Hd. set_solver. }
  split.
  - apply NoDup_app. split_and!; [done|set_solver|apply NoDup_singleton].
  - intros i o' Hi. apply lookup_app_Some in Hi as [Hi|[Hge Hi]].
    + rewrite lookup_insert_ne by (intros ->; apply Hni; by eapply list_elem_of_lookup_2). auto.
    + apply list_lookup_singleton_Some in Hi as [Hi <-]. rewrite lookup_insert_eq, Hsz.
      do 2 f_equal. lia.
  - rewrite dom_insert_L, Hd, list_to_set_app_L. cbn. set_solver.
Qed.

(** Names only given once stay what they are. *)
Definition used (ids : list (list N)) (ms : list ModelMessage) : Prop :=
  call_ids ms = Some <$> ids ∧
  Forall (λ m, is_result m → ∃ o, tool_call_id m = Some o ∧ o ∈ ids) ms.
Definition name_in (mapping : gmap (list N) (list N)) (o : list N) : list N := default o (mapping !! o).

Lemma rename_stable (mapping mapping' : gmap (list N) (list N)) ms :
  mapping ⊆ mapping' →
  Forall (λ m, (is_result m → ∃ o, tool_call_id m = Some o ∧ is_Some (mapping !! o)) ∧
    Forall (λ c, ∃ o, provider_tool_call_id c = Some o ∧ is_Some (mapping !! o)) (tool_calls m)) ms →
  rename_message (name_in mapping) <$> ms = rename_message (name_in mapping') <$> ms.
Proof.
  intros Hsub Hms.
  assert (∀ o, is_Some (mapping !! o) → name_in mapping o = name_in mapping' o) as Hn.
  { intros o [r Hr]. unfold name_in. by rewrite Hr, (lookup_weaken _ _ _ _ Hr Hsub). }
  induction Hms as [|m ms [Hr Hc] _ IH]; [done|]. rewrite !fmap_cons, IH. f_equal.
  unfold rename_message. f_equal.
  - case_decide as Hd; [|done]. destruct (Hr Hd) as (o & -> & Ho). cbn. by rewrite Hn.
  - induction Hc as [|c cs (o & Eo & Ho) _ IHc]; [done|]. rewrite !fmap_cons, IHc. f_equal.
    unfold rename_call. rewrite Eo. cbn. by rewrite Hn.
Qed.

Lemma mapped_elem turn ids mapping o : mapped turn ids mapping → o ∈ ids ↔ is_Some (mapping !! o).
Proof. intros [_ _ Hd]. rewrite <- elem_of_dom, Hd. set_solver. Qed.

Lemma used_known turn ids mapping ms :
  mapped turn ids mapping → used ids ms →
  Forall (λ m, (is_result m → ∃ o, tool_call_id m = Some o ∧ is_Some (mapping !! o)) ∧
    Forall (λ c, ∃ o, provider_tool_call_id c = Some o ∧ is_Some (mapping !! o)) (tool_calls m)) ms.
Proof.
  intros Hm [Hc Hr]. apply Forall_forall. intros m Hin. split.
  - rewrite Forall_forall in Hr. intros Hres. destruct (Hr m Hin Hres) as (o & ? & Ho).
    exists o. split; [done|]. by apply (mapped_elem _ _ _ _ Hm).
  - apply Forall_forall. intros c Hcin.
    assert (provider_tool_call_id c ∈ call_ids ms) as Hp.
    { unfold call_ids. apply list_elem_of_fmap. exists c. split; [done|].
      apply list_elem_of_bind. by exists m. }
    rewrite Hc in Hp. apply list_elem_of_fmap in Hp as (o & -> & Ho).
    exists o. split; [done|]. by apply (mapped_elem _ _ _ _ Hm).
Qed.

Lemma namespace_calls turn cs ids mapping acc mapping' acc' :
  fold_raise (namespace_call turn) cs (mapping, acc) = Return (mapping', acc') →
  mapped turn ids mapping →
  ∃ new, provider_tool_call_id <$> cs = Some <$> new ∧ mapped turn (ids ++ new) mapping' ∧
    mapping ⊆ mapping' ∧ acc' = acc ++ (rename_call (name_in mapping') <$> cs).
Proof.
  revert ids mapping acc. induction cs as [|c cs IH]; intros ids mapping acc; cbn [fold_raise].
  - intros [= <- <-] Hm. exists []. rewrite !app_nil_r. by split_and!.
  - destruct (namespace_call turn (mapping, acc) c) as [[m1 a1]|] eqn:Hc; [|done].
    unfold namespace_call in Hc. destruct (provider_tool_call_id c) as [o|] eqn:Ho; [|done].
    apply obind_inv in Hc as (? & Hf%fail_if_inv & Hc). injection Hc as <- <-.
    apply bool_decide_eq_false in Hf. apply eq_None_not_Some in Hf.
    intros Hrun Hm. pose proof (mapped_snoc _ _ _ _ Hm Hf) as Hm1.
    destruct (IH _ _ _ Hrun Hm1) as (new & Hnew & Hm' & Hsub & ->).
    exists (o :: new). rewrite !fmap_cons, Hnew, Ho. split; [done|].
    rewrite cons_middle, app_assoc. split; [done|]. split.
    { etrans; [by apply insert_subseteq|exact Hsub]. }
    rewrite <- app_assoc. f_equal. cbn. f_equal.
    unfold rename_call, with_call_id. rewrite Ho. cbn. unfold name_in.
    by rewrite (lookup_weaken _ _ _ _ (lookup_insert_eq _ _ _) Hsub).
Qed.

(** Namespacing renames every call and every result consistently. *)
Lemma namespace_renames turn ms out :
  _namespace_tool_ids turn ms = Return out →
  ∃ ids mapping, mapped turn ids mapping ∧ used ids ms ∧
    out = rename_message (name_in mapping) <$> ms.
Proof.
  unfold _namespace_tool_ids. intros ([mapping out'] & Hrun & [= <-])%obind_inv. cbn.
  cut (∃ ids, mapped turn ids mapping ∧ used ids ms ∧
    out' = rename_message (name_in mapping) <$> ms); [naive_solver|].
  revert Hrun. apply (fold_raise_prefix_inv _ (λ dn st, ∃ ids, mapped turn ids st.1 ∧ used ids dn ∧
    st.2 = rename_message (name_in st.1) <$> dn)).
  - exists []. split; [|done]. split; [constructor|done|set_solver].
  - intros dn m rest [mp acc] [mp' acc'] _ (ids & Hm & Hu & Hout) Hstep. cbn [fst snd] in *.
    unfold namespace_message in Hstep. destruct (tool_calls m) as [|c cs] eqn:Hcs.
    + destruct (bool_decide (role m = role_tool)) eqn:Hrole.
      * apply bool_decide_eq_true in Hrole.
        destruct (tool_call_id m ≫= _) as [r|] eqn:Hr; [|done]. injection Hstep as <- <-.
        apply bind_Some in Hr as (o & Ho & Hr). exists ids. split; [done|].
        assert (is_result m) as Hres by (by split; [|rewrite Hcs]). split.
        { destruct Hu as [Hc Hf]. split.
          - unfold call_ids in *. by rewrite bind_app, fmap_app, Hc; cbn; rewrite Hcs, !app_nil_r.
          - apply Forall_app_2; [done|]. constructor; [|constructor]. intros _. exists o.
            split; [done|]. apply (mapped_elem _ _ _ _ Hm). eauto. }
        rewrite fmap_app, <- Hout. cbn. do 2 f_equal. unfold with_tool_call_id, rename_message.
        rewrite Hcs, Ho. case_decide; [|done]. cbn. unfold name_in. by rewrite Hr.
      * injection Hstep as <- <-. apply bool_decide_eq_false in Hrole. exists ids. split; [done|].
        assert (¬ is_result m) as Hres by (by intros [? _]). split.
        { destruct Hu as [Hc Hf]. split.
          - unfold call_ids in *. by rewrite bind_app, fmap_app, Hc; cbn; rewrite Hcs, !app_nil_r.
          - apply Forall_app_2; [done|]. constructor; [done|constructor]. }
        rewrite fmap_app, <- Hout. cbn. do 2 f_equal. unfold rename_message. rewrite Hcs.
        case_decide; [done|]. by destruct m; cbn in *; subst.
    + apply obind_inv in Hstep as ([m1 cs1] & Hrun & Hstep). injection Hstep as <- <-. cbn.
      destruct (namespace_calls _ _ _ _ _ _ _ Hrun Hm) as (new & Hnew & Hm' & Hsub & ->).
      exists (ids ++ new). split; [done|].
      assert (¬ is_result m) as Hres by (intros [_ Hl]; by rewrite Hcs in Hl). split.
      { destruct Hu as [Hc Hf]. split.
        - unfold call_ids in *. rewrite bind_app, fmap_app, Hc. cbn.
          rewrite app_nil_r, Hcs, Hnew. by rewrite fmap_app.
        - apply Forall_app_2.
          + eapply Forall_impl; [exact Hf|]. intros x Hx Hrx. destruct (Hx Hrx) as (o & ? & ?).
            exists o. set_solver.
          + constructor; [done|constructor]. }
      rewrite fmap_app, Hout, (rename_stable _ _ _ Hsub (used_known _ _ _ _ Hm Hu)).
      cbn. do 2 f_equal. unfold with_tool_calls, rename_message. rewrite Hcs.
      case_decide; done.
Qed.

(** The names of a turn, in order. *)
Lemma namespace_ids turn ms out :
  _namespace_tool_ids turn ms = Return out →
  call_ids out = (λ i, Some (history_call_id turn i)) <$> seq 0 (length (call_ids ms)).
Proof.
  intros (ids & mapping & Hm & [Hc _] & ->)%namespace_renames.
  assert (call_ids (rename_message (name_in mapping) <$> ms)
          = (λ o, name_in mapping <$> o) <$> call_ids ms) as ->.
  { unfold call_ids. clear. induction ms as [|m ms IH]; [done|]. rewrite fmap_cons. cbn.
    rewrite !fmap_app, IH. f_equal. rewrite <- !list_fmap_compose. by apply list_fmap_ext. }
  rewrite Hc, length_fmap. clear Hc. apply list_eq. intros i. rewrite !list_lookup_fmap.
  destruct (ids !! i) as [o|] eqn:Ho.
  - rewrite lookup_seq_lt by (by eapply lookup_lt_Some). cbn. unfold name_in.
    by rewrite (mp_lookup _ _ _ Hm i o Ho).
  - apply lookup_ge_None in Ho. by rewrite lookup_seq_ge.
Qed.

Lemma history_call_id_inj u v i j :
  (u < 2 ^ 128)%N → (v < 2 ^ 128)%N →
  history_call_id (hex_fixed 32 u) i = history_call_id (hex_fixed 32 v) j → u = v ∧ i = j.
Proof.
  intros Hu Hv E. unfold history_call_id in E. apply app_inv_head in E.
  apply app_inj_1 in E as [E1 E2]; [|by rewrite !hex_fixed_length].
  split; [by apply (hex_fixed_inj 32)|]. apply app_inv_head in E2.
  apply (f_equal (λ s, fold_left read_digit s 0%N)) in E2. rewrite !dump_nat_read in E2. lia.
Qed.

Lemma turn_pair_ids u t ms :
  turn_pair u t = Return ms →
  call_ids ms = (λ i, Some (history_call_id (hex_fixed 32 u) i)) <$> seq 0 (length (call_ids (tc_messages t))).
Proof.
  unfold turn_pair. destruct (tc_messages t) as [|m r]; [by intros [= <-]|]. apply namespace_ids.
Qed.

(** ** A run of the view *)

Section Views.
Context {estimator : TokenEstimator} (policy : ContextBudgetPolicy).

Definition recent_start_of (l : list (list N * json)) (turns : list ThreadTurnContext) : Z :=
  Z.max (Z.of_nat (length turns) - retained_turns l) 0.

Record view_run (conversation : ThreadConversation) (mandatory memory : list ModelMessage)
    (tools : list ModelToolDefinition) (summary_policy : option (list N))
    (m : ThreadHistorySourceManifest) (l : list (list N * json)) (st : ViewState)
    (a : PlanArguments) (p : HistoryPlan) (fixed : Z) (g0 : HistorySourceGroup)
    (mlog : list (HistorySourceGroup * Z)) (items : list contribution) : Prop := {
  vr_manifest : cv_source_manifest conversation = Some m;
  vr_policy : context_policy policy = Some l;
  vr_complete : mf_status m = HISTORY_SOURCE_COMPLETE;
  vr_length : length (mf_selected_sources m) = length (cv_turns conversation);
  vr_groups : vs_groups st = g0 :: mlog.*1 ++ items.*1.*1;
  vr_counter : arg_counter a = _Counter (vs_counts st);
  vr_budget : policy_int "input_limit_tokens" l = Return (arg_b_work_tokens a) ∧ arg_growth a = 0;
  vr_fixed : ∃ o ts tt, _protocol_overhead policy "request_overhead_tokens" = Return o ∧
    estimate_messages policy mandatory = Return ts ∧
    traverse (λ t, from_budget (_estimate_tool policy t)) tools = Return tt ∧
    fixed = o + ts + foldr Z.add 0 tt;
  vr_mandatory : runtime_group MANDATORY (lit "runtime:mandatory") g0;
  vr_memory : Forall2 (λ im gt, runtime_group OPTIONAL (memory_id im.1) gt.1 ∧
    _estimate_message policy im.2 = Return gt.2) (imap pair memory) mlog;
  vr_collected : collected policy (bool_decide (is_Some summary_policy))
    (recent_start_of l (cv_turns conversation)) ((g0, fixed) :: mlog)
    (imap pair (zip (mf_selected_sources m) (cv_turns conversation))) st items;
  vr_plan : plan_history (vs_groups st) a = Return p
}.

Lemma view_arguments_inv sc wm counts l a :
  view_arguments sc wm counts l = Return a →
  policy_int "input_limit_tokens" l = Return (arg_b_work_tokens a) ∧ arg_growth a = 0 ∧
  arg_counter a = _Counter counts.
Proof.
  unfold view_arguments. intros (lim & _ & H)%obind_inv.
  apply obind_inv in H as (th & _ & H).
  apply obind_inv in H as (b & Hb%from_budget_inv & H).
  destruct (field "counter" l); try done.
  apply obind_inv in H as (? & _ & H). apply obind_inv in H as (? & _ & H). by injection H as <-.
Qed.

Lemma collect_inv sc m turns l mandatory memory tools summaries st :
  collect policy sc m turns l mandatory memory tools summaries = Return st →
  ∃ fixed g0 mlog items,
    (∃ o ts tt, _protocol_overhead policy "request_overhead_tokens" = Return o ∧
      estimate_messages policy mandatory = Return ts ∧
      traverse (λ t, from_budget (_estimate_tool policy t)) tools = Return tt ∧
      fixed = o + ts + foldr Z.add 0 tt) ∧
    runtime_group MANDATORY (lit "runtime:mandatory") g0 ∧
    Forall2 (λ im gt, runtime_group OPTIONAL (memory_id im.1) gt.1 ∧
      _estimate_message policy im.2 = Return gt.2) (imap pair memory) mlog ∧
    collected policy summaries (recent_start_of l turns) ((g0, fixed) :: mlog)
      (imap pair (zip (mf_selected_sources m) turns)) st items.
Proof.
  unfold collect. intros (o & Ho%from_budget_inv & H)%obind_inv.
  apply obind_inv in H as (ts & Hts & H). apply obind_inv in H as (tt & Htt & H).
  apply obind_inv in H as (s1 & H1 & H). apply obind_inv in H as (s2 & H2 & H).
  apply (add_runtime_inv []) in H1 as (g0 & Hg0 & Hv1 & Hs1); [|by split].
  destruct (memory_loop _ _ _ _ _ _ _ H2 Hv1) as (mlog & Hv2 & Hs2 & Hmem).
  destruct Hs1 as (P1 & P2 & P3 & _ & _ & P4), Hs2 as (Q1 & Q2 & Q3 & _ & _ & Q4).
  cbn in P1, P2, P3, P4.
  eapply source_loop in H as (items & Hcol); [|by (unfold recent_start_of; lia)|exact Hv2|congruence..].
  exists (o + ts + foldr Z.add 0 tt), g0, mlog, items. split_and!; try done. eauto 10.
Qed.

Lemma view_inv_run conversation mandatory memory tools perm blocked pol v :
  plan_history_view policy conversation mandatory memory tools perm blocked pol = Return v →
  ∃ m l st a p fixed g0 mlog items,
    view_run conversation mandatory memory tools pol m l st a p fixed g0 mlog items ∧
    ph_plan v = _block_uncovered_optional_history_drops p ∧
    ph_plain_text_prefix v = _plain_text_prefix_result pol (vs_prefix_sources st)
      (vs_stopped_before st) (vs_stop_reason st) ∧
    if ready_for_dispatch (ph_plan v) then
      ph_messages v = retained_sources m (ph_plan v) ≫= pair_of st ∧
      ph_memory_messages v = (filter (λ im : nat * ModelMessage,
        memory_id im.1 ∈ retained_group_ids (ph_plan v)) (imap pair memory)).*2 ∧
      ph_exchange_ids v =
        retained_sources m (ph_plan v) ≫= (λ s, (λ _, si_source_id s) <$> pair_of st s)
    else blocked = true ∧ ph_messages v = [] ∧ ph_memory_messages v = [] ∧ ph_exchange_ids v = [].
Proof.
  unfold plan_history_view. intros (? & _ & H)%obind_inv.
  apply obind_inv in H as (m & Hm%or_raise_inv & H).
  apply obind_inv in H as (? & Hc%fail_if_inv & H).
  apply obind_inv in H as (? & _ & H). apply obind_inv in H as (? & Hl%fail_if_inv & H).
  apply obind_inv in H as (l & Hp%or_raise_inv & H). apply obind_inv in H as (sc & _ & H).
  apply obind_inv in H as (st & Hst & H). apply obind_inv in H as (a & Ha & H).
  apply obind_inv in H as (p & Hplan%from_plan_inv & H).
  destruct (collect_inv _ _ _ _ _ _ _ _ _ Hst) as (fixed & g0 & mlog & items & Hfix & Hg0 & Hmem & Hcol).
  destruct (view_arguments_inv _ _ _ _ _ Ha) as (Hb & Hgr & Hcnt).
  rewrite negb_false_iff in Hc, Hl. apply bool_decide_eq_true in Hc. apply Nat.eqb_eq in Hl.
  exists m, l, st, a, p, fixed, g0, mlog, items. split.
  { split; try done. rewrite (vi_groups _ _ (co_view _ _ _ _ _ _ _ Hcol)). cbn.
    by rewrite fmap_app. }
  destruct (ready_for_dispatch (_block_uncovered_optional_history_drops p)) eqn:Hr.
  - injection H as <-. cbn. rewrite Hr. done.
  - destruct blocked; [|done]. injection H as <-. cbn. rewrite Hr. done.
Qed.

Section Run.
Context {conversation : ThreadConversation} {mandatory memory : list ModelMessage}.
Context {tools : list ModelToolDefinition} {pol : option (list N)}.
Context {m : ThreadHistorySourceManifest} {l : list (list N * json)} {st : ViewState}.
Context {a : PlanArguments} {p : HistoryPlan} {fixed : Z} {g0 : HistorySourceGroup}.
Context {mlog : list (HistorySourceGroup * Z)} {items : list contribution}.
Context (Hrun : view_run conversation mandatory memory tools pol m l st a p fixed g0 mlog items).

Let pairs_in := zip (mf_selected_sources m) (cv_turns conversation).
Let log := (g0, fixed) :: mlog ++ items.*1.

Lemma run_each : Forall2 (contributes policy) (imap pair pairs_in) items.
Proof using Hrun. apply (co_each _ _ _ _ _ _ _ (vr_collected _ _ _ _ _ _ _ _ _ _ _ _ _ _ Hrun)). Qed.

Lemma run_log : view_inv log st.
Proof using Hrun. apply (co_view _ _ _ _ _ _ _ (vr_collected _ _ _ _ _ _ _ _ _ _ _ _ _ _ Hrun)). Qed.

Lemma run_ids : NoDup (group_id <$> vs_groups st).
Proof using Hrun. exact (plan_ids (vr_plan _ _ _ _ _ _ _ _ _ _ _ _ _ _ Hrun)). Qed.

(** The sources, in the order of their contributions. *)
Lemma run_sources : mf_selected_sources m = (λ x : indexed, x.2.1) <$> imap pair pairs_in.
Proof using Hrun.
  pose proof (vr_length _ _ _ _ _ _ _ _ _ _ _ _ _ _ Hrun) as Hlen. unfold pairs_in.
  rewrite <- (fst_zip (mf_selected_sources m) (cv_turns conversation)) at 1 by lia.
  rewrite fmap_imap. generalize (zip (mf_selected_sources m) (cv_turns conversation)). clear. intros z.
  apply list_eq. intros i. by rewrite list_lookup_fmap, list_lookup_imap.
Qed.

Lemma run_source_ids : si_source_id <$> mf_selected_sources m = group_id <$> items.*1.*1.
Proof using Hrun.
  rewrite run_sources, <- !list_fmap_compose. pose proof run_each as He.
  revert He. generalize (imap pair pairs_in). clear Hrun log. intros k He. induction He as [|x y xs ys Hxy _ IH]; [done|]. rewrite !fmap_cons, IH. f_equal. cbn.
  exact (eq_sym (ct_id _ _ _ Hxy)).
Qed.

Lemma run_source_nodup : NoDup (si_source_id <$> mf_selected_sources m).
Proof using Hrun.
  rewrite run_source_ids. pose proof run_ids as Hnd.
  rewrite (vr_groups _ _ _ _ _ _ _ _ _ _ _ _ _ _ Hrun), fmap_cons, fmap_app in Hnd.
  apply NoDup_cons in Hnd as [_ Hnd]. by apply NoDup_app in Hnd as (_ & _ & ?).
Qed.

(** The messages of a source are its contribution. *)
Lemma run_pairs : Forall2 (λ (s : ThreadHistorySourceIdentity) (y : contribution), pair_of st s = y.2)
  (mf_selected_sources m) items.
Proof using Hrun.
  pose proof (co_pairs _ _ _ _ _ _ _ (vr_collected _ _ _ _ _ _ _ _ _ _ _ _ _ _ Hrun)) as Hp.
  pose proof run_source_nodup as Hnd. pose proof run_each as He. fold pairs_in in Hp.
  rewrite run_sources in *. apply Forall2_fmap_l.
  apply Forall2_same_length_lookup. split; [by apply (Forall2_length _ _ _ He)|].
  intros i x y Hx Hy. change (pair_of st x.2.1 = y.2). unfold pair_of. rewrite Hp.
  rewrite (list_to_map_reverse_lookup _ (si_source_id x.2.1) y.2); [done|..].
  - rewrite <- list_fmap_compose in Hnd.
    assert ((zip_with (λ (x : indexed) (y : contribution), (si_source_id x.2.1, y.2))
      (imap pair pairs_in) items).*1 = (si_source_id ∘ (λ x : indexed, x.2.1)) <$> imap pair pairs_in)
      as ->; [|done].
    clear -He. induction He as [|x y xs ys _ _ IH]; [done|]. cbn. by rewrite IH.
  - apply list_elem_of_lookup. exists i. rewrite lookup_zip_with, Hx. cbn. by rewrite Hy.
Qed.

Lemma run_no_summary : Forall (λ g, (_effective_category g).1 ≠ VERIFIED_SUMMARY) (vs_groups st).
Proof using Hrun.
  rewrite (vr_groups _ _ _ _ _ _ _ _ _ _ _ _ _ _ Hrun).
  assert (∀ c id g, runtime_group c id g → (_effective_category g).1 = c) as Hrt.
  { intros c id g (_ & Hc & _ & He). by rewrite (effective_category_of g c _ Hc He). }
  apply Forall_cons. split.
  { by rewrite (Hrt _ _ _ (vr_mandatory _ _ _ _ _ _ _ _ _ _ _ _ _ _ Hrun)). }
  apply Forall_app. split.
  - pose proof (vr_memory _ _ _ _ _ _ _ _ _ _ _ _ _ _ Hrun) as Hmem.
    revert Hmem. generalize (imap pair memory). clear Hrun log. intros k Hmem. induction Hmem as [|im gt ims gts [Hg _] _ IH]; [constructor|].
    rewrite fmap_cons. constructor; [by rewrite (Hrt _ _ _ Hg)|done].
  - pose proof run_each as He.
    revert He. generalize (imap pair pairs_in). clear Hrun log. intros k He. induction He as [|x y xs ys Hxy _ IH]; [constructor|]. rewrite !fmap_cons. constructor; [|done].
    destruct (ct_category _ _ _ Hxy) as [Hc|[-> _]]; [|done]. intros E. rewrite E in Hc. set_solver.
Qed.

(** A ready view retains every source. *)
Lemma run_retains s :
  ready_for_dispatch (_block_uncovered_optional_history_drops p) = true →
  s ∈ mf_selected_sources m → si_source_id s ∈ retained_group_ids p.
Proof using Hrun.
  intros Hready Hs. destruct (block_ready p Hready) as [Hblock Hun]. rewrite Hblock in Hready.
  assert (si_source_id s ∈ group_id <$> items.*1.*1) as Hg
    by (rewrite <- run_source_ids; by apply list_elem_of_fmap_2).
  apply list_elem_of_fmap in Hg as (g & -> & Hg). apply list_elem_of_fmap in Hg as (gt & -> & Hg).
  apply list_elem_of_fmap in Hg as (y & -> & Hy).
  apply list_elem_of_lookup in Hy as [i Hi].
  destruct (Forall2_lookup_r _ _ _ _ _ run_each Hi) as (x & _ & Hxy).
  assert (y.1.1 ∈ vs_groups st) as Hin.
  { rewrite (vr_groups _ _ _ _ _ _ _ _ _ _ _ _ _ _ Hrun). right. apply elem_of_app. right.
    apply list_elem_of_lookup. exists i. by rewrite !list_lookup_fmap, Hi. }
  pose proof (vr_plan _ _ _ _ _ _ _ _ _ _ _ _ _ _ Hrun) as Hplan.
  destruct (ct_category _ _ _ Hxy) as [Hc|[Hc Hq]].
  - apply (ready_retains Hplan); [done..|set_solver].
  - by apply (uncovered_retains Hplan _ Hready Hin run_no_summary Hun).
Qed.

Lemma run_retained_sources :
  ready_for_dispatch (_block_uncovered_optional_history_drops p) = true →
  retained_sources m p = mf_selected_sources m.
Proof using Hrun.
  intros Hready. unfold retained_sources.
  assert (∀ k : list ThreadHistorySourceIdentity, (∀ s, s ∈ k → si_source_id s ∈ retained_group_ids p) →
    filter (λ s, si_source_id s ∈ retained_group_ids p) k = k) as Hall.
  { induction k as [|s k IH]; intros Hk; [done|].
    rewrite filter_cons_True by (apply Hk; by left). f_equal. apply IH. intros s' Hs'.
    apply Hk. by right. }
  apply Hall. intros s. by apply run_retains.
Qed.

Lemma run_counted gt : gt ∈ log → counted (a := a) gt.1 = gt.2.
Proof using Hrun.
  intros Hin. destruct gt as [g t]. unfold counted.
  rewrite (vr_counter _ _ _ _ _ _ _ _ _ _ _ _ _ _ Hrun). cbn.
  by rewrite (view_inv_count _ _ _ _ run_log run_ids Hin).
Qed.

Definition kept (gt : HistorySourceGroup * Z) : Prop := group_id gt.1 ∈ retained_group_ids p.
#[global] Instance kept_dec gt : Decision (kept gt).
Proof. apply _. Defined.

Lemma run_total :
  foldr Z.add 0 (counted (a := a) <$> filter (λ g, group_id g ∈ retained_group_ids p) (vs_groups st))
  = foldr Z.add 0 (filter kept log).*2.
Proof using Hrun.
  rewrite (vi_groups _ _ run_log), filter_map. f_equal.
  assert (∀ k, (∀ gt, gt ∈ k → counted (a := a) gt.1 = gt.2) →
    counted (a := a) <$> (filter (λ gt : HistorySourceGroup * Z,
      group_id gt.1 ∈ retained_group_ids p) k).*1 = (filter kept k).*2) as Hk.
  { induction k as [|gt k IH]; intros Hk; [done|]. rewrite !filter_cons.
    case_decide as H1; case_decide as H2; try done; [|apply IH; intros; apply Hk; by right].
    rewrite !fmap_cons, (Hk gt) by (by left). f_equal. apply IH. intros; apply Hk; by right. }
  apply Hk. intros gt. apply run_counted.
Qed.

Lemma run_memory :
  estimate_messages policy (filter (λ im : nat * ModelMessage,
    memory_id im.1 ∈ retained_group_ids p) (imap pair memory)).*2
  = Return (foldr Z.add 0 (filter kept mlog).*2).
Proof using Hrun.
  pose proof (vr_memory _ _ _ _ _ _ _ _ _ _ _ _ _ _ Hrun) as Hmem.
  revert Hmem. generalize (imap pair memory). clear Hrun log. intros k Hmem.
  induction Hmem as [|im gt ims gts [(Hid & _) He] _ IH]; [done|]. rewrite !filter_cons.
  unfold kept in *. case_decide as H1; case_decide as H2; rewrite Hid in H2; try done.
  rewrite !fmap_cons.
  unfold estimate_messages in *. cbn [traverse]. rewrite He. cbn [from_budget].
  apply obind_inv in IH as (ts & -> & [= IH]). cbn. f_equal. lia.
Qed.

Lemma run_history : estimate_messages policy (concat items.*2) = Return (foldr Z.add 0 items.*1.*2).
Proof using Hrun.
  pose proof run_each as He. revert He. generalize (imap pair pairs_in). clear Hrun log. intros k He.
  induction He as [|x y xs ys Hxy _ IH]; [done|]. rewrite !fmap_cons. cbn [concat foldr].
  apply estimate_messages_app; [exact (ct_tokens _ _ _ Hxy)|exact IH].
Qed.

Lemma filter_kept (k : list (HistorySourceGroup * Z)) : Forall kept k → filter kept k = k.
Proof. intros Hk. induction Hk; [done|]. rewrite filter_cons_True by done. by f_equal. Qed.

Lemma run_cost :
  ready_for_dispatch (_block_uncovered_optional_history_drops p) = true →
  retained_tokens p = fixed + foldr Z.add 0 (filter kept mlog).*2 + foldr Z.add 0 items.*1.*2 ∧
  retained_tokens p ≤ arg_b_work_tokens a.
Proof using Hrun.
  intros Hready. destruct (block_ready p Hready) as [Hblock _]. pose proof Hready as Hr.
  rewrite Hblock in Hr.
  pose proof (vr_plan _ _ _ _ _ _ _ _ _ _ _ _ _ _ Hrun) as Hplan.
  destruct (ready_cost Hplan Hr) as [-> Hle]. rewrite run_total in *.
  destruct (vr_budget _ _ _ _ _ _ _ _ _ _ _ _ _ _ Hrun) as [_ Hg].
  assert (kept (g0, fixed)) as Hk0.
  { unfold kept. cbn. apply (ready_retains Hplan); [done| |].
    - rewrite (vr_groups _ _ _ _ _ _ _ _ _ _ _ _ _ _ Hrun). by left.
    - destruct (vr_mandatory _ _ _ _ _ _ _ _ _ _ _ _ _ _ Hrun) as (_ & Hc & _ & He).
      rewrite (effective_category_of g0 MANDATORY _ Hc He) by done. by left. }
  assert (Forall kept items.*1) as Hki.
  { apply Forall_forall. intros gt Hgt. unfold kept.
    assert (group_id gt.1 ∈ si_source_id <$> mf_selected_sources m) as Hs.
    { rewrite run_source_ids. apply list_elem_of_fmap. exists gt.1. split; [done|].
      by apply list_elem_of_fmap_2. }
    apply list_elem_of_fmap in Hs as (s & -> & Hs). by apply run_retains. }
  subst log. rewrite filter_cons_True by done. rewrite filter_app, (filter_kept _ Hki).
  rewrite fmap_cons, fmap_app. cbn [foldr snd]. rewrite foldr_add_app. split; [lia|].
  rewrite filter_cons_True, filter_app, (filter_kept _ Hki) in Hle by done.
  rewrite fmap_cons, fmap_app in Hle. cbn [foldr snd] in Hle. rewrite foldr_add_app in Hle. lia.
Qed.

Lemma run_prefix_length : (length (vs_prefix_sources st) ≤ length (mf_selected_sources m))%nat.
Proof using Hrun.
  pose proof (co_prefix _ _ _ _ _ _ _ (vr_collected _ _ _ _ _ _ _ _ _ _ _ _ _ _ Hrun)) as [_ Hs _ _].
  rewrite Hs, length_take, length_zip_with, length_imap, length_zip. lia.
Qed.

Lemma run_prefix_at i s t :
  (i < length (vs_prefix_sources st))%nat → mf_selected_sources m !! i = Some s →
  cv_turns conversation !! i = Some t →
  ∃ y, vs_prefix_sources st !! i = Some (prefix_source s y.1.2) ∧
    contributes policy (i, (s, t)) y ∧
    eligible_at (recent_start_of l (cv_turns conversation)) (i, (s, t)) y.
Proof using Hrun.
  pose proof (co_prefix _ _ _ _ _ _ _ (vr_collected _ _ _ _ _ _ _ _ _ _ _ _ _ _ Hrun)) as [_ Hs _ Hel].
  intros Hi Hsi Hti.
  assert (imap pair pairs_in !! i = Some (i, (s, t))) as Hx.
  { rewrite list_lookup_imap. unfold pairs_in. rewrite lookup_zip_with, Hsi. cbn. by rewrite Hti. }
  destruct (Forall2_lookup_l _ _ _ _ _ run_each Hx) as (y & Hy & Hxy). exists y.
  split; [|split; [done|by apply (Hel i)]].
  rewrite Hs, lookup_take_lt by done. rewrite lookup_zip_with. fold pairs_in. rewrite Hx. cbn.
  by rewrite Hy.
Qed.

Lemma run_prefix_lookup i :
  (i < length (vs_prefix_sources st))%nat →
  ∃ s t y, mf_selected_sources m !! i = Some s ∧ cv_turns conversation !! i = Some t ∧
    vs_prefix_sources st !! i = Some (prefix_source s y.1.2) ∧
    contributes policy (i, (s, t)) y ∧
    eligible_at (recent_start_of l (cv_turns conversation)) (i, (s, t)) y.
Proof using Hrun.
  intros Hi. pose proof run_prefix_length as Hlen.
  pose proof (vr_length _ _ _ _ _ _ _ _ _ _ _ _ _ _ Hrun) as Hl.
  destruct (lookup_lt_is_Some_2 (mf_selected_sources m) i) as [s Hs]; [lia|].
  destruct (lookup_lt_is_Some_2 (cv_turns conversation) i) as [t Ht]; [lia|].
  destruct (run_prefix_at i s t Hi Hs Ht) as (y & ? & ? & ?). by exists s, t, y.
Qed.
End Run.

Lemma prefix_stop_None e s t :
  prefix_stop e s t = None →
  si_sequence s = e ∧ _is_plain_text_exchange t = true ∧
  ∃ pf, tc_plain_text_prefix_v1_proof t = Some pf ∧ pf_status pf = ELIGIBLE ∧
    pf_reason pf = PLAIN_TEXT_PREFIX_V1_ELIGIBLE_REASON.
Proof.
  unfold prefix_stop. destruct (si_sequence s =? e) eqn:He; [|done]. cbn [negb].
  destruct (tc_plain_text_prefix_v1_proof t) as [pf|]; [|done].
  destruct (pf_status pf) eqn:Hst; try done.
  case_bool_decide as Hreason; [|done]. cbn [negb].
  destruct (_is_plain_text_exchange t); [|done]. intros _. split; [by apply Z.eqb_eq|].
  split; [done|]. by exists pf.
Qed.

(** ** Theorems *)

Lemma filter_imap_sublist {A} (P : nat * A → Prop) `{∀ x, Decision (P x)} (k : list A) :
  (filter P (imap pair k)).*2 `sublist_of` k.
Proof.
  assert ((imap pair k).*2 = k) as E.
  { apply list_eq. intros i. rewrite list_lookup_fmap, list_lookup_imap. by destruct (k !! i). }
  rewrite <- E at 2. apply fmap_sublist, sublist_filter.
Qed.

Lemma contributes_pairs (k : list (ThreadHistorySourceIdentity * ThreadTurnContext)) items :
  Forall2 (contributes policy) (imap pair k) items →
  Forall2 (λ st y, contributes policy (0%nat, st) y) k items.
Proof.
  intros He. apply Forall2_same_length_lookup. split.
  { rewrite <- (Forall2_length _ _ _ He). by rewrite length_imap. }
  intros i x y Hx Hy.
  destruct (Forall2_lookup_r _ _ _ _ _ He Hy) as (x' & Hx' & Hxy).
  rewrite list_lookup_imap, Hx in Hx'. injection Hx' as <-. by destruct Hxy.
Qed.

Lemma call_ids_concat (k : list (list ModelMessage)) : call_ids (concat k) = concat (call_ids <$> k).
Proof.
  unfold call_ids. induction k as [|ms k IH]; [done|]. rewrite fmap_cons. cbn [concat].
  by rewrite bind_app, fmap_app, IH.
Qed.

(** Identifiers given to different turns differ. *)
Lemma history_ids_nodup (us : list N) (ks : list nat) :
  NoDup us → Forall (λ u, u < 2 ^ 128)%N us →
  NoDup (concat (zip_with (λ u k, (λ i, Some (history_call_id (hex_fixed 32 u) i)) <$> seq 0 k) us ks)).
Proof.
  revert ks. induction us as [|u us IH]; intros [|k ks]; cbn; try constructor.
  intros [Hu Hnd]%NoDup_cons [Hb Hbs]%Forall_cons. apply NoDup_app. split_and!.
  - apply NoDup_fmap_2_strong; [|apply NoDup_seq]. intros i j _ _ E%(inj Some).
    by apply history_call_id_inj in E as [_ ->].
  - intros x (i & -> & _)%list_elem_of_fmap Hc.
    apply list_elem_of_In, in_concat in Hc as (l' & Hl' & Hin).
    apply list_elem_of_In in Hl', Hin. apply list_elem_of_lookup in Hl' as [n Hn].
    apply lookup_zip_with_Some in Hn as (v & kv & -> & Hv & _).
    apply list_elem_of_fmap in Hin as (j & E%(inj Some) & _).
    apply list_elem_of_lookup_2 in Hv. rewrite Forall_forall in Hbs.
    apply history_call_id_inj in E as [-> _]; [done..|by apply Hbs].
  - by apply IH.
Qed.

(** C12. A planned view sends all of the frozen history or nothing.  When the
    plan is ready, the history of the request is, in the order of the snapshot,
    exactly what every source's own turn contributes, each message labelled
    with its source; only whole memory messages are left out; the estimate of
    everything sent, with the request's overhead and its tools, is what the
    plan reports and fits the input limit of the frozen policy; and no tool call
    identifier is used by two calls.  When it is not ready nothing is sent, and
    the view is returned only to a caller that asked for blocked plans. *)
Theorem view_sends_all_or_nothing conversation mandatory memory tools perm blocked pol v :
  plan_history_view policy conversation mandatory memory tools perm blocked pol = Return v →
  if ready_for_dispatch (ph_plan v) then
    ∃ m l pairs overhead tokens tool_tokens budget,
      cv_source_manifest conversation = Some m ∧ mf_status m = HISTORY_SOURCE_COMPLETE ∧
      context_policy policy = Some l ∧
      length (mf_selected_sources m) = length (cv_turns conversation) ∧
      Forall2 (λ st ms, tc_turn_id st.2 = Some (si_turn_id st.1) ∧
          tc_run_id st.2 = Some (si_run_id st.1) ∧ turn_pair (si_turn_id st.1) st.2 = Return ms)
        (zip (mf_selected_sources m) (cv_turns conversation)) pairs ∧
      ph_messages v = concat pairs ∧
      ph_exchange_ids v = concat (zip_with (λ s ms, (λ _, si_source_id s) <$> ms)
                                    (mf_selected_sources m) pairs) ∧
      ph_memory_messages v `sublist_of` memory ∧
      _protocol_overhead policy "request_overhead_tokens" = Return overhead ∧
      estimate_messages policy (mandatory ++ ph_memory_messages v ++ ph_messages v) = Return tokens ∧
      traverse (λ t, from_budget (_estimate_tool policy t)) tools = Return tool_tokens ∧
      policy_int "input_limit_tokens" l = Return budget ∧
      retained_tokens (ph_plan v) = overhead + tokens + foldr Z.add 0 tool_tokens ∧
      retained_tokens (ph_plan v) ≤ budget ∧
      (NoDup (si_turn_id <$> mf_selected_sources m) →
       Forall (λ u, u < 2 ^ 128)%N (si_turn_id <$> mf_selected_sources m) →
       NoDup (call_ids (ph_messages v)))
  else blocked = true ∧ ph_messages v = [] ∧ ph_memory_messages v = [] ∧ ph_exchange_ids v = [].
Proof.
  intros (m & l & st & a & p & fixed & g0 & mlog & items & Hrun & Hp & _ & Hv)%view_inv_run.
  destruct (ready_for_dispatch (ph_plan v)) eqn:Hr; [|exact Hv].
  destruct Hv as (Hms & Hmem & Hex). rewrite Hp in Hr. destruct (block_ready p Hr) as [Hb _].
  rewrite Hp, Hb in Hms, Hmem, Hex |- *.
  rewrite (run_retained_sources Hrun Hr) in Hms, Hex.
  destruct (run_cost Hrun Hr) as [Hcost Hle].
  destruct (vr_fixed _ _ _ _ _ _ _ _ _ _ _ _ _ _ Hrun) as (o & ts & tt & Ho & Hts & Htt & Hfix).
  pose proof (contributes_pairs _ _ (run_each Hrun)) as He.
  pose proof (run_pairs Hrun) as Hpairs.
  assert (ph_messages v = concat items.*2) as Hmsg.
  { rewrite Hms. clear -Hpairs. induction Hpairs as [|s y ss ys Hs _ IH]; [done|].
    cbn. by rewrite Hs, IH. }
  exists m, l, items.*2, o, (ts + (foldr Z.add 0 (filter (kept (p := p)) mlog).*2
    + foldr Z.add 0 items.*1.*2)), tt, (arg_b_work_tokens a).
  split_and!; try (by apply Hrun).
  - apply Forall2_fmap_r. eapply Forall2_impl; [exact He|]. intros x y []. by split_and!.
  - exact Hmsg.
  - rewrite Hex. clear -Hpairs. induction Hpairs as [|s y ss ys Hs _ IH]; [done|].
    cbn. by rewrite Hs, IH.
  - rewrite Hmem. apply filter_imap_sublist.
  - exact Ho.
  - apply estimate_messages_app; [done|]. apply estimate_messages_app.
    + rewrite Hmem. exact (run_memory Hrun).
    + rewrite Hmsg. exact (run_history Hrun).
  - exact Htt.
  - lia.
  - exact Hle.
  - intros Hnd Hbound. rewrite Hmsg, call_ids_concat.
    pose proof (vr_length _ _ _ _ _ _ _ _ _ _ _ _ _ _ Hrun) as Hlen.
    assert (call_ids <$> items.*2 = zip_with (λ u k,
      (λ i, Some (history_call_id (hex_fixed 32 u) i)) <$> seq 0 k)
      (si_turn_id <$> mf_selected_sources m)
      ((λ t, length (call_ids (tc_messages t))) <$> cv_turns conversation)) as ->;
      [|by apply history_ids_nodup].
    clear -He Hlen. revert He. generalize (cv_turns conversation), Hlen. clear Hlen.
    generalize (mf_selected_sources m). intros ss. revert items.
    induction ss as [|s ss IH]; intros items [|t turns] Hlen He; try done.
    + by apply Forall2_nil_inv_l in He as ->.
    + apply Forall2_cons_inv_l in He as (y & ys & Hy & He & ->). rewrite !fmap_cons. cbn [zip_with].
      f_equal; [|apply IH; [by injection Hlen|done]].
      exact (turn_pair_ids _ _ _ (ct_pair _ _ _ Hy)).
Qed.

(** The sources offered for summarising are a prefix of the frozen history:
    the turns with sequence numbers 1 to [k], all older than the retained recent
    turns, each with a persisted proof of eligibility that its own transcript
    does not contradict; the reported tokens are the estimates of their
    messages. *)
Lemma eligible_prefix_is_proven conversation mandatory memory tools perm blocked pol v x :
  plan_history_view policy conversation mandatory memory tools perm blocked pol = Return v →
  ph_plain_text_prefix v = Some x →
  ∃ m l k, cv_source_manifest conversation = Some m ∧ context_policy policy = Some l ∧
    pol = Some (px_policy x) ∧
    px_source_ids x = si_source_id <$> take k (mf_selected_sources m) ∧
    px_sequence <$> px_sources x = Z.of_nat <$> seq 1 k ∧
    (k = 0%nat ∨ Z.of_nat k + retained_turns l ≤ Z.of_nat (length (cv_turns conversation))) ∧
    ∀ i s t, (i < k)%nat → mf_selected_sources m !! i = Some s → cv_turns conversation !! i = Some t →
      _is_plain_text_exchange t = true ∧
      (∃ pf, tc_plain_text_prefix_v1_proof t = Some pf ∧ pf_status pf = ELIGIBLE ∧
        pf_reason pf = PLAIN_TEXT_PREFIX_V1_ELIGIBLE_REASON) ∧
      ∃ ms y, turn_pair (si_turn_id s) t = Return ms ∧ px_sources x !! i = Some y ∧
        px_turn_id y = si_turn_id s ∧ px_revision_sha256 y = si_revision_sha256 s ∧
        estimate_messages policy ms = Return (px_estimated_tokens y).
Proof.
  intros (m & l & st & a & p & fixed & g0 & mlog & items & Hrun & _ & Hx & _)%view_inv_run Hpx.
  rewrite Hx in Hpx. unfold _plain_text_prefix_result in Hpx. destruct pol as [pol|]; [|done].
  injection Hpx as <-. cbn [px_policy px_sources]. unfold px_source_ids. cbn [px_sources].
  set (k := length (vs_prefix_sources st)) in *. exists m, l, k.
  pose proof (run_prefix_length Hrun) as Hk. fold k in Hk.
  split_and!; try (by apply Hrun).
  - done.
  - apply list_eq. intros i. rewrite !list_lookup_fmap.
    destruct (decide (i < k)%nat) as [Hi|Hi].
    + destruct (run_prefix_lookup Hrun i Hi) as (s & t & y & Hs & _ & Hp & _).
      by rewrite Hp, lookup_take_lt, Hs by done.
    + rewrite !lookup_ge_None_2 by (rewrite ?length_take; unfold k in *; lia). done.
  - apply list_eq. intros i. rewrite !list_lookup_fmap.
    destruct (decide (i < k)%nat) as [Hi|Hi].
    + destruct (run_prefix_lookup Hrun i Hi) as (s & t & y & Hs & _ & Hp & _ & _ & Hstop).
      apply prefix_stop_None in Hstop as (Hq & _). cbn in Hq.
      rewrite Hp, lookup_seq_lt by done. cbn [fmap option_fmap option_map prefix_source px_sequence].
      f_equal. lia.
    + rewrite !lookup_ge_None_2 by (rewrite ?length_seq; unfold k in *; lia). done.
  - destruct (decide (k = 0)%nat) as [|Hne]; [by left|right].
    destruct (run_prefix_lookup Hrun (k - 1)%nat) as (s & t & y & _ & _ & _ & _ & Hlt & _);
      [fold k; lia|]. cbn in Hlt. unfold recent_start_of in Hlt. lia.
  - intros i s t Hi Hs Ht. destruct (run_prefix_at Hrun i s t Hi Hs Ht) as (y & Hp & Hc & _ & Hstop).
    apply prefix_stop_None in Hstop as (_ & Hpl & Hpf). split; [done|]. split; [done|].
    exists y.2, (prefix_source s y.1.2). split_and!; try done;
      [exact (ct_pair _ _ _ Hc)|exact (ct_tokens _ _ _ Hc)].
Qed.
End Views.

(** ** Two turns of a thread *)

#[local] Instance char_estimator : TokenEstimator := { estimate s := N.of_nat (length s) }.

Definition view_policy : ContextBudgetPolicy :=
  {| config := config sample_self;
     context_policy := (λ l, (lit "retained_recent_turns", JInt 1) :: l) <$> context_policy sample_self;
     profiles := profiles sample_self |}.

Definition sample_turn (turn run : N) (q : Z) (input output : string) (ms : list ModelMessage)
    (proof : option PlainTextPrefixProof) : ThreadTurnContext :=
  {| tc_user_input := lit input; tc_final_output := lit output; tc_turn_id := Some turn;
     tc_run_id := Some run; tc_sequence := Some q; tc_artifact_ids := []; tc_artifact_refs := [];
     tc_messages := ms; tc_evidence_registry := Some []; tc_source_knowledge_snapshots := [];
     tc_source_wiki_publications := []; tc_plain_text_prefix_v1_proof := proof |}.
Definition sample_conversation : ThreadConversation :=
  {| cv_turns :=
       [sample_turn 10 20 1 "hello" "hi there"
          [plain role_user (lit "hello"); plain role_assistant (lit "hi there")]
          (new_proof (lit "ELIGIBLE") PLAIN_TEXT_PREFIX_V1_ELIGIBLE_REASON PLAIN_TEXT_PREFIX_V1);
        sample_turn 11 21 3 "status?" "shipped"
          [plain role_user (lit "status?");
           {| role := role_assistant; content := None; msg_name := None; tool_call_id := None;
              tool_calls := [{| call_name := lit "lookup"; call_arguments := JObj [];
                                provider_tool_call_id := Some (lit "call_1") |}] |};
           {| role := role_tool; content := Some (lit "ok"); msg_name := None;
              tool_call_id := Some (lit "call_1"); tool_calls := [] |};
           plain role_assistant (lit "shipped")] None];
     cv_turns_available := 2; cv_turns_available_is_exact := true;
     cv_source_manifest := Some sample_snapshot |}.

Definition sample_view : outcome ViewError PlannedHistory :=
  plan_history_view view_policy sample_conversation [plain role_system (lit "Be brief.")]
    [plain role_user (lit "remember me")] [] (lit "permissions") false (Some PLAIN_TEXT_PREFIX_V1).

(** Both turns and the memory are sent, the call of the second turn under a name
    of its own. *)
Example sample_view_ready :
  match sample_view with
  | Return v => ready_for_dispatch (ph_plan v) = true ∧ length (ph_messages v) = 6%nat ∧
      length (ph_memory_messages v) = 1%nat ∧
      call_ids (ph_messages v) = [Some (history_call_id (hex_fixed 32 11) 0)] ∧
      (length ∘ px_sources <$> ph_plain_text_prefix v) = Some 1%nat
  | Raise _ => False
  end.
Proof. vm_compute. by split_and!. Qed.

Lemma view_sends_all_or_nothing_witness :
  ∃ v, sample_view = Return v ∧ ready_for_dispatch (ph_plan v) = true ∧
    NoDup (call_ids (ph_messages v)).
Proof.
  destruct sample_view as [v|e] eqn:Hv; [|exfalso; by vm_compute in Hv].
  exists v. split; [done|].
  unfold sample_view in Hv. pose proof (view_sends_all_or_nothing _ _ _ _ _ _ _ _ _ Hv) as H.
  destruct (ready_for_dispatch (ph_plan v)) eqn:Hr.
  - split; [done|].
    destruct H as (m & l & pairs & o & t & tt & b & Hm & _ & _ & _ & _ & _ & _ & _ & _ & _ & _ & _ & _ & _ & Hn).
    injection Hm as <-. apply Hn; [by apply (bool_decide_eq_true_1 _)|].
    repeat constructor.
  - by destruct H.
Defined.

Lemma eligible_prefix_is_proven_witness :
  ∃ v x, sample_view = Return v ∧ ph_plain_text_prefix v = Some x ∧
    px_sequence <$> px_sources x = [1].
Proof.
  destruct sample_view as [v|e] eqn:Hv; [|exfalso; by vm_compute in Hv].
  destruct (ph_plain_text_prefix v) as [x|] eqn:Hx.
  - exists v, x. split; [reflexivity|]. split; [exact Hx|].
    pose proof Hv as Hv'. unfold sample_view in Hv'.
    destruct (eligible_prefix_is_proven _ _ _ _ _ _ _ _ _ _ Hv' Hx)
      as (m & l & k & Hm & _ & _ & Hids & Hq & _).
    rewrite Hq. assert (length (px_sources x) = 1%nat) as Hlen.
    { pose proof sample_view_ready as Hs. rewrite Hv, Hx in Hs. destruct Hs as (_ & _ & _ & _ & Hl).
      by injection Hl. }
    apply (f_equal length) in Hq. rewrite !length_fmap, length_seq, Hlen in Hq. by subst k.
  - exfalso. pose proof sample_view_ready as Hs. rewrite Hv, Hx in Hs.
    destruct Hs as (_ & _ & _ & _ & Hl). discriminate Hl.
Defined.
