(* ===== verification/ToolObservation.v ===== *)
(** * Bounded tool observations

    Model of [_bounded_tool_result] ([packages/agent_runtime/runtime_projection.py])
    and of the text the observation node sends for it
    ([packages/agent_runtime/runtime_graph.py]).

    [json.dumps(v, sort_keys=True, separators=(",", ":"), ensure_ascii=False)]
    is [dump]; with the default [ensure_ascii] every character outside printable
    ASCII of that text is escaped. *)

From stdpp Require Import base gmap list strings sorting.
From Stdlib Require Import ZArith NArith Lia.
From S2P Require Import Prelude.
From S2P Require Import Json.
From S2P Require Import JsonTheory.
From S2P Require Import RunStore.
From S2P Require Import Approvals.
From S2P Require Import Reconciliation.
From S2P Require Import Actions.
From S2P Require Import TurnTranscript.
From S2P Require Import RunUsage.
From S2P Require Import ActionNode.
From S2P Require Import ContextMetadata.
From S2P Require Import ContextPolicy.
From S2P Require Import JsonProjection.
From S2P Require Import ContextBudget.

Local Open Scope Z_scope.
Local Arguments lit : simpl never.

Definition status_value (s : ToolResultStatus) : string :=
  match s with SUCCESS => "SUCCESS" | ERROR => "ERROR" end.
Definition text (s : string) : json := JStr (lit s).

(** [approval_facts]: both or none. *)
Definition approval_facts (r : ToolResult) : list (list N * json) :=
  match tr_approval_decision r, tr_approval_execution r with
  | Some d, Some e => [(lit "approval_decision", text (ApprovalDecisionStatus.value d));
                       (lit "approval_execution", text (execution_value e))]
  | _, _ => []
  end.

(** [json.dumps(payload, sort_keys=True, separators=(",", ":"))] *)
Definition ascii_dump (v : json) : list N := dump v ≫= ascii_char.

Section Bounded.
Context `{EastAsian}.

Definition tokens_of (v : json) : Z := Z.of_N (approx_estimate (dump v)).

Definition base_payload (r : ToolResult) : list (list N * json) :=
  [(lit "status", text (status_value (tr_status r))); (lit "trust", text "UNTRUSTED")]
  ++ approval_facts r.

(** [projection] with the given [data]. *)
Definition projection (r : ToolResult) (data : json) : list (list N * json) :=
  [(lit "status", text "SUCCESS"); (lit "trust", text "UNTRUSTED");
   (lit "truncated", JBool true); (lit "data", data)] ++ approval_facts r.
Definition kept_data (items : list json) : json :=
  JObj [(lit "truncated", JBool true); (lit "results", JArr items)].
Definition preview_data (t : list N) : json :=
  JObj [(lit "truncated", JBool true); (lit "preview", JStr t)].

(** Whole items from the front, as long as they fit. *)
Fixpoint take_items (r : ToolResult) (max : Z) (kept rest : list json) : list json :=
  match rest with
  | [] => kept
  | item :: rest' =>
      if tokens_of (JObj (projection r (kept_data (kept ++ [item])))) <=? max
      then take_items r max (kept ++ [item]) rest'
      else kept
  end.

(** The binary search for a preview; the interval shrinks, so the length of the
    text plus one is fuel enough. *)
Fixpoint preview_search (fuel : nat) (r : ToolResult) (max : Z) (encoded best : list N)
    (low high : Z) : list N :=
  match fuel with
  | O => best
  | S fuel' =>
      if low <=? high then
        let middle := (low + high) / 2 in
        let candidate := take (Z.to_nat middle) encoded in
        if tokens_of (JObj (projection r (preview_data candidate))) <=? max
        then preview_search fuel' r max encoded candidate (middle + 1) high
        else preview_search fuel' r max encoded best low (middle - 1)
      else best
  end.

Definition truncated_marker (r : ToolResult) : list (list N * json) :=
  [(lit "status", text "SUCCESS"); (lit "trust", text "UNTRUSTED"); (lit "truncated", JBool true)]
  ++ approval_facts r.

(** What is left of data that does not fit. *)
Definition preview_result (r : ToolResult) (max : Z) (encoded : list N) : list (list N * json) :=
  let best := preview_search (S (length encoded)) r max encoded [] 0 (Z.of_nat (length encoded)) in
  let result := projection r (preview_data best) in
  if max <? tokens_of (JObj result) then truncated_marker r else result.

Definition results_of (data : json) : option (list json) :=
  match data with
  | JObj l => match field "results" l with JArr items => Some items | _ => None end
  | _ => None
  end.

(** [_bounded_tool_result]; [None] is the [ValueError] of a negative limit. *)
Definition _bounded_tool_result (r : ToolResult) (max : Z) : option (list (list N * json)) :=
  if max <? 0 then None else Some
  match tr_status r with
  | ERROR =>
      let payload := base_payload r ++ [(lit "error_code", opt_str (tr_error_code r));
                                        (lit "message", opt_str (tr_safe_message r))] in
      if tokens_of (JObj payload) <=? max then payload
      else [(lit "status", text "ERROR"); (lit "trust", text "UNTRUSTED");
            (lit "error_code", opt_str (tr_error_code r)); (lit "truncated", JBool true)]
           ++ approval_facts r
  | SUCCESS =>
      let data := default JNull (tr_data r) in
      match canonical_json data with
      | None =>
          [(lit "status", text "ERROR"); (lit "trust", text "UNTRUSTED")] ++ approval_facts r
          ++ [(lit "error_code", text "TOOL_RESULT_NOT_SERIALIZABLE");
              (lit "message", text "The tool returned unsupported data.")]
      | Some encoded =>
          let payload := base_payload r ++ [(lit "data", data)] in
          if tokens_of (JObj payload) <=? max then payload
          else match results_of data with
               | Some items =>
                   match take_items r max [] items with
                   | [] => preview_result r max encoded
                   | kept =>
                       projection r (kept_data kept)
                       ++ (if bool_decide (length kept = length items) then []
                           else [(lit "dropped_results",
                                  JInt (Z.of_nat (length items) - Z.of_nat (length kept)))])
                   end
               | None => preview_result r max encoded
               end
      end
  end.

(** ** What is kept *)

Lemma take_items_spec r max kept rest :
  ∃ k, take_items r max kept rest = kept ++ take k rest ∧
    (take k rest = [] ∨
     tokens_of (JObj (projection r (kept_data (kept ++ take k rest)))) ≤ max).
Proof.
  revert kept. induction rest as [|item rest IH]; intros kept; cbn [take_items].
  - exists 0%nat. rewrite app_nil_r. by split; [|left].
  - destruct (Z.leb_spec (tokens_of (JObj (projection r (kept_data (kept ++ [item]))))) max) as [Hle|_].
    + destruct (IH (kept ++ [item])) as (k & -> & Hk). exists (S k). cbn [take].
      rewrite <- app_assoc. split; [done|]. right. destruct Hk as [->|Hk].
      * exact Hle.
      * by rewrite <- app_assoc in Hk.
    + exists 0%nat. cbn. rewrite app_nil_r. by split; [|left].
Qed.

Definition preview_fits (r : ToolResult) (max : Z) (t : list N) : Prop :=
  t = [] ∨ tokens_of (JObj (projection r (preview_data t))) ≤ max.

Lemma preview_search_spec fuel r max encoded best low high :
  best `prefix_of` encoded → preview_fits r max best →
  preview_search fuel r max encoded best low high `prefix_of` encoded ∧
  preview_fits r max (preview_search fuel r max encoded best low high).
Proof.
  revert best low high. induction fuel as [|fuel IH]; intros best low high Hp Hb;
    cbn [preview_search]; [done|].
  destruct (low <=? high); [|done]. cbv zeta.
  destruct (Z.leb_spec (tokens_of (JObj (projection r (preview_data
    (take (Z.to_nat ((low + high) / 2)) encoded))))) max) as [Hle|_]; [|by apply IH].
  apply IH; [apply prefix_take|right; exact Hle].
Qed.

(** The search stops by itself: more fuel changes nothing. *)
Lemma preview_search_fuel fuel r max encoded best low high :
  0 ≤ low → high - low < Z.of_nat fuel → ∀ more,
  preview_search (fuel + more) r max encoded best low high
  = preview_search fuel r max encoded best low high.
Proof.
  revert best low high. induction fuel as [|fuel IH]; intros best low high Hlow Hf more.
  - cbn [Nat.add preview_search]. destruct more as [|more]; [done|]. cbn [preview_search].
    destruct (Z.leb_spec low high); [lia|done].
  - cbn [Nat.add preview_search]. destruct (Z.leb_spec low high) as [Hle|]; [|done].
    assert (low ≤ (low + high) / 2 ≤ high) as Hm
      by (split; [apply Z.div_le_lower_bound|apply Z.div_le_upper_bound]; lia).
    destruct (_ <=? max); apply IH; lia.
Qed.

(** The payload [p] tells the model about result [r] no more than [max] tokens
    of it: all of it, whole items from the front of its result list with the
    number left out, the beginning of its text, or only that it was cut. *)
Inductive tells (r : ToolResult) (max : Z) : list (list N * json) → Prop :=
| tells_data data :
    tr_status r = SUCCESS → data = default JNull (tr_data r) →
    tokens_of (JObj (base_payload r ++ [(lit "data", data)])) ≤ max →
    tells r max (base_payload r ++ [(lit "data", data)])
| tells_items items k :
    tr_status r = SUCCESS → results_of (default JNull (tr_data r)) = Some items →
    (0 < k ≤ length items)%nat →
    tokens_of (JObj (projection r (kept_data (take k items)))) ≤ max →
    tells r max (projection r (kept_data (take k items))
      ++ if bool_decide (k = length items) then []
         else [(lit "dropped_results", JInt (Z.of_nat (length items) - Z.of_nat k))])
| tells_preview t encoded :
    tr_status r = SUCCESS → canonical_json (default JNull (tr_data r)) = Some encoded →
    t `prefix_of` encoded → tokens_of (JObj (projection r (preview_data t))) ≤ max →
    tells r max (projection r (preview_data t))
| tells_cut : tr_status r = SUCCESS → tells r max (truncated_marker r)
| tells_unserializable :
    tr_status r = SUCCESS → canonical_json (default JNull (tr_data r)) = None →
    tells r max ([(lit "status", text "ERROR"); (lit "trust", text "UNTRUSTED")] ++ approval_facts r
      ++ [(lit "error_code", text "TOOL_RESULT_NOT_SERIALIZABLE");
          (lit "message", text "The tool returned unsupported data.")])
| tells_error :
    tr_status r = ERROR →
    tokens_of (JObj (base_payload r ++ [(lit "error_code", opt_str (tr_error_code r));
      (lit "message", opt_str (tr_safe_message r))])) ≤ max →
    tells r max (base_payload r ++ [(lit "error_code", opt_str (tr_error_code r));
      (lit "message", opt_str (tr_safe_message r))])
| tells_error_cut :
    tr_status r = ERROR →
    tells r max ([(lit "status", text "ERROR"); (lit "trust", text "UNTRUSTED");
      (lit "error_code", opt_str (tr_error_code r)); (lit "truncated", JBool true)]
      ++ approval_facts r).

Lemma preview_tells r max encoded :
  tr_status r = SUCCESS → canonical_json (default JNull (tr_data r)) = Some encoded →
  tells r max (preview_result r max encoded).
Proof.
  intros Hs Hc. unfold preview_result.
  set (best := preview_search _ _ _ _ _ _ _).
  destruct (Z.ltb_spec max (tokens_of (JObj (projection r (preview_data best))))) as [|Hle].
  - by apply tells_cut.
  - eapply tells_preview; [done..| |done].
    apply preview_search_spec; [apply prefix_nil|by left].
Qed.

(** Every result is told faithfully, with the facts of its approval. *)
Lemma bounded_result_tells r max p :
  _bounded_tool_result r max = Some p → tells r max p ∧ approval_facts r ⊆ p.
Proof.
  unfold _bounded_tool_result. destruct (max <? 0); [done|]. intros <-%(inj Some). cbv zeta.
  assert (∀ a b, approval_facts r ⊆ a ++ approval_facts r ++ b) as Hf by set_solver.
  destruct (tr_status r) eqn:Hs.
  - destruct (canonical_json _) as [encoded|] eqn:Hc; [|split; [by apply tells_unserializable|exact (Hf [_; _] [_; _])]].
    assert (approval_facts r ⊆ preview_result r max encoded) as Hp.
    { unfold preview_result, projection, truncated_marker. case_match; set_solver. }
    destruct (Z.leb_spec (tokens_of (JObj (base_payload r ++ [(lit "data", default JNull (tr_data r))]))) max)
      as [Hle|_]; [split; [by eapply tells_data|unfold base_payload; set_solver]|].
    destruct (results_of _) as [items|] eqn:Hr; [|split; [by apply preview_tells|done]].
    destruct (take_items_spec r max [] items) as (k & Hk & Hfit). cbn [app] in Hk, Hfit.
    destruct (take_items r max [] items) as [|x kept] eqn:Ht; [split; [by apply preview_tells|done]|].
    split; [|unfold projection; set_solver]. destruct Hfit as [E|Hfit]; [congruence|].
    assert (x :: kept = take (k `min` length items) items) as E.
    { rewrite Hk. destruct (decide (k ≤ length items)%nat).
      - by rewrite Nat.min_l by lia.
      - rewrite Nat.min_r by lia. by rewrite !take_ge by lia. }
    assert (length (x :: kept) = k `min` length items)%nat as Hl
      by (rewrite E, length_take; lia).
    rewrite Hl. rewrite E. eapply (tells_items r max items); [done..| |].
    + cbn in Hl. lia.
    + rewrite <- E, Hk. exact Hfit.
  - destruct (Z.leb_spec (tokens_of (JObj (base_payload r ++
      [(lit "error_code", opt_str (tr_error_code r)); (lit "message", opt_str (tr_safe_message r))]))) max).
    + split; [by apply tells_error|]. unfold base_payload. set_solver.
    + split; [by apply tells_error_cut|]. set_solver.
Qed.
End Bounded.

(** ** The bound is not that of the text sent

    The limit is checked on the text with its characters as they are, but the
    observation node writes the payload with [ensure_ascii]: a result of Chinese
    text within the limit becomes a message far above it.  The count of dropped
    items is added after the check as well. *)

#[local] Instance cjk : EastAsian := {| is_wide := λ c, (19968 <=? c)%N && (c <=? 40959)%N |}.

Definition chinese_result : ToolResult :=
  {| tr_status := SUCCESS; tr_data := Some (JStr (replicate 200 20013%N)); tr_error_code := None;
     tr_safe_message := None; tr_approval_decision := None; tr_approval_execution := None |}.
Example escaped_text_exceeds_limit :
  match _bounded_tool_result chinese_result 150 with
  | Some p => tokens_of (JObj p) <= 150 ∧ 300 < Z.of_N (approx_estimate (ascii_dump (JObj p)))
  | None => False
  end.
Proof. by vm_compute. Qed.

Definition listed_result : ToolResult :=
  {| tr_status := SUCCESS; tr_error_code := None; tr_safe_message := None;
     tr_data := Some (JObj [(lit "results", JArr (replicate 20 (JStr (lit "abcdefgh"))))]);
     tr_approval_decision := None; tr_approval_execution := None |}.
Example dropped_count_exceeds_limit :
  match _bounded_tool_result listed_result 40 with
  | Some p => 40 < tokens_of (JObj p)
  | None => False
  end.
Proof. by vm_compute. Qed.
