(* ===== verification/RagEvidence.v ===== *)
(** * Bounded retrieval evidence

    Model of [packages/agent_runtime/rag_evidence.py]: the projection of a
    search result into complete records, each with the reference that
    identifies its source, and its reprojection at admission.

    The estimator is [TokenEstimator]; its result is a natural number, so the
    check of [_estimate_payload] never fails.  Sets and dictionaries that are
    only searched are lists here, in insertion order. *)

From stdpp Require Import base gmap list strings sorting.
From Stdlib Require Import ZArith NArith Lia.
From S2P Require Import Prelude.
From S2P Require Import Json.
From S2P Require Import JsonTheory.
From S2P Require Import TurnTranscript.
From S2P Require Import ContextMetadata.
From S2P Require Import JsonProjection.
From S2P Require Import ContextBudget.

Local Open Scope Z_scope.
Local Arguments lit : simpl never.

Definition EVIDENCE_FORMAT : list N := lit "rag_records_v1".
Definition _REFERENCE_FIELDS : list string :=
  ["snapshot_id"; "knowledge_base_id"; "document_revision_id"; "chunk_id"]%string.

Abbreviation dict := (list (list N * json)).

(** [(chunk_id, document_revision_id, snapshot_id)] *)
Record MatchId := { chunk_id : list N; revision_id : list N; snapshot_id : list N }.
#[global] Instance MatchId_eq_dec : EqDecision MatchId.
Proof. solve_decision. Defined.

Definition is_text (s : string) (v : json) : bool :=
  match v with JStr t => bool_decide (t = lit s) | _ => false end.
(** A non-empty text. *)
Definition nonempty_text (v : json) : option (list N) :=
  match v with JStr (c :: s) => Some (c :: s) | _ => None end.
Definition text_field (k : string) (l : dict) : option (list N) := nonempty_text (field k l).

(** [_compact_json] raises on a number that is not finite. *)
Definition compact (l : dict) : bool := bool_decide (is_Some (canonical_json (JObj l))).

(** The body of the loop of [_index_references]. *)
Definition reference_of (v : json) : option (MatchId * dict) :=
  match v with
  | JObj l =>
      _ ← mapM (λ k, text_field k l) _REFERENCE_FIELDS;
      if compact l then
        c ← text_field "chunk_id" l; r ← text_field "document_revision_id" l;
        s ← text_field "snapshot_id" l;
        Some ({| chunk_id := c; revision_id := r; snapshot_id := s |}, l)
      else None
  | _ => None
  end.
Fixpoint index_references (indexed : list (MatchId * dict)) (references : list json) :
  option (list (MatchId * dict)) :=
  match references with
  | [] => Some indexed
  | v :: rest =>
      kr ← reference_of v;
      if bool_decide (kr.1 ∈ indexed.*1) then None else index_references (indexed ++ [kr]) rest
  end.
Definition _index_references : list json → option (list (MatchId * dict)) := index_references [].

(** What the loop of [_index_records] reads of a record: its chunk, its
    revision and, if given, its snapshot. *)
Definition record_of (v : json) : option (dict * list N * list N * option (list N)) :=
  match v with
  | JObj l =>
      c ← text_field "chunk_id" l; r ← text_field "document_revision_id" l;
      match field "snippet" l with
      | JStr _ =>
          match field "snapshot_id" l with
          | JNull => Some (l, c, r, None)
          | w => s ← nonempty_text w; Some (l, c, r, Some s)
          end
      | _ => None
      end
  | _ => None
  end.
Definition matches (c r : list N) (s : option (list N)) (m : MatchId) : bool :=
  bool_decide (chunk_id m = c) && bool_decide (revision_id m = r)
  && match s with None => true | Some s => bool_decide (snapshot_id m = s) end.
Fixpoint index_records (references : list (MatchId * dict)) (seen : list MatchId)
    (records : list json) : option (list (dict * dict) * list MatchId) :=
  match records with
  | [] => Some ([], seen)
  | v :: rest =>
      '(l, c, r, s) ← record_of v;
      match filter (λ kr, matches c r s kr.1 = true) references with
      | [(m, reference)] =>
          if bool_decide (m ∈ seen) then None
          else if compact l then
            '(pairs, seen) ← index_records references (seen ++ [m]) rest;
            Some ((l, reference) :: pairs, seen)
          else None
      | _ => None
      end
  end.
Definition _index_records (records : list json) (references : list (MatchId * dict)) :
  option (list (dict * dict)) :=
  '(pairs, seen) ← index_records references [] records;
  if bool_decide (Forall (.∈ seen) references.*1 ∧ Forall (.∈ references.*1) seen)
  then Some pairs else None.

Definition _payload (records references : list dict) (truncated : bool) : dict :=
  [(lit "evidence_format", JStr EVIDENCE_FORMAT); (lit "status", JStr (lit "SUCCESS"));
   (lit "trust", JStr (lit "UNTRUSTED")); (lit "truncated", JBool truncated);
   (lit "data", JObj [(lit "results", JArr (JObj <$> records));
                      (lit "evidence_refs", JArr (JObj <$> references))])].

Section Projection.
Context `{estimator : TokenEstimator}.

Definition _estimate_payload (p : dict) : Z := Z.of_N (estimate (dump (JObj p))).

(** The loop: a record that does not fit is skipped. *)
Fixpoint select_pairs (budget : Z) (kept : list (dict * dict)) (skipped : bool)
    (pairs : list (dict * dict)) : list (dict * dict) * bool :=
  match pairs with
  | [] => (kept, skipped)
  | p :: rest =>
      if _estimate_payload (_payload (kept ++ [p]).*1 (kept ++ [p]).*2 skipped) <=? budget
      then select_pairs budget (kept ++ [p]) skipped rest
      else select_pairs budget kept true rest
  end.

(** [data["results"]] and [data["evidence_refs"]] of a successful payload. *)
Definition evidence_lists (payload : json) : option (list json * list json) :=
  match payload with
  | JObj l =>
      if is_text "SUCCESS" (field "status" l) then
        match field "data" l with
        | JObj d => match field "results" d, field "evidence_refs" d with
                    | JArr records, JArr references => Some (records, references)
                    | _, _ => None
                    end
        | _ => None
        end
      else None
  | _ => None
  end.

(** [Raise] is the [ValueError] of a negative budget. *)
Definition project_rag_evidence_payload (payload : json) (budget : Z) :
  outcome unit (option dict) :=
  if budget <? 0 then Raise tt else Return (
    if budget =? 0 then None else
    '(records, references) ← evidence_lists payload;
    refs ← _index_references references;
    pairs ← _index_records records refs;
    match select_pairs budget [] false pairs with
    | ([], _) =>
        let empty := _payload [] [] (match records, references with [], [] => false | _, _ => true end) in
        if _estimate_payload empty <=? budget then Some empty else None
    | (kept, skipped) => Some (_payload kept.*1 kept.*2 skipped)
    end).

Definition as_objects (l : list json) : list dict :=
  omap (λ v, match v with JObj m => Some m | _ => None end) l.

Definition reproject_rag_evidence_payload (payload : json) (budget : Z) : outcome unit (option dict) :=
  match payload with
  | JObj l =>
      match field "truncated" l with
      | JBool truncated =>
          if is_text "rag_records_v1" (field "evidence_format" l) then
            match evidence_lists payload with
            | None => Return None
            | Some (records, references) =>
                match project_rag_evidence_payload
                  (JObj [(lit "status", JStr (lit "SUCCESS"));
                         (lit "data", JObj [(lit "results", JArr records);
                                            (lit "evidence_refs", JArr references)])]) budget with
                | Return (Some p) =>
                    match evidence_lists (JObj p), field "truncated" p with
                    | Some (records, references), JBool b =>
                        Return (Some (_payload (as_objects records) (as_objects references)
                                        (truncated || b)))
                    | _, _ => Return None
                    end
                | o => o
                end
            end
          else Return None
      | _ => Return None
      end
  | _ => Return None
  end.
End Projection.

(** ** Retrieval evidence is never cut or separated from its source *)

(** ** Pairing *)

(** [reference] identifies the source of [record]. *)
Definition cites (record reference : dict) : Prop :=
  text_field "chunk_id" record = text_field "chunk_id" reference ∧
  text_field "document_revision_id" record = text_field "document_revision_id" reference ∧
  (field "snapshot_id" record = JNull ∨
   text_field "snapshot_id" record = text_field "snapshot_id" reference) ∧
  is_Some (text_field "chunk_id" reference).

(** An indexed reference is filed under its own identity. *)
Definition filed (kr : MatchId * dict) : Prop :=
  text_field "chunk_id" kr.2 = Some (chunk_id kr.1) ∧
  text_field "document_revision_id" kr.2 = Some (revision_id kr.1) ∧
  text_field "snapshot_id" kr.2 = Some (snapshot_id kr.1).

Lemma reference_of_Some v m l : reference_of v = Some (m, l) → v = JObj l ∧ filed (m, l).
Proof.
  unfold reference_of. destruct v as [| | | | | |l']; try done. intros H.
  apply bind_Some in H as (xs & _ & H). destruct (compact l'); [|done].
  apply bind_Some in H as (c & Hc & H). apply bind_Some in H as (r & Hr & H).
  apply bind_Some in H as (s & Hs & H). apply (inj Some) in H. simplify_eq. done.
Qed.

Lemma index_references_Some references indexed out :
  index_references indexed references = Some out →
  NoDup indexed.*1 → Forall filed indexed →
  NoDup out.*1 ∧ Forall filed out ∧ JObj <$> out.*2 = (JObj <$> indexed.*2) ++ references.
Proof.
  revert indexed. induction references as [|v rest IH]; intros indexed; cbn [index_references].
  - intros [= <-] ??. by rewrite app_nil_r.
  - intros H Hnd Hf. apply bind_Some in H as ([m l] & Hv & H).
    apply reference_of_Some in Hv as [-> Hfl].
    destruct (bool_decide (m ∈ indexed.*1)) eqn:Hb; cbn [fst] in H; rewrite Hb in H; [done|].
    apply bool_decide_eq_false in Hb.
    destruct (IH _ H) as (? & ? & E).
    + rewrite fmap_app. apply NoDup_app. split; [done|]. split; [|apply NoDup_singleton].
      intros x Hx ->%list_elem_of_singleton. done.
    + by apply Forall_app_2; [|apply Forall_singleton].
    + do 2 (split; [done|]). rewrite E, !fmap_app, <- app_assoc. done.
Qed.

Lemma record_of_Some v l c r s :
  record_of v = Some (l, c, r, s) →
  v = JObj l ∧ text_field "chunk_id" l = Some c ∧ text_field "document_revision_id" l = Some r ∧
  match s with
  | None => field "snapshot_id" l = JNull
  | Some s => text_field "snapshot_id" l = Some s
  end.
Proof.
  unfold record_of. destruct v as [| | | | | |l']; try done. intros H.
  apply bind_Some in H as (c' & Hc & H). apply bind_Some in H as (r' & Hr & H).
  unfold text_field in *. destruct (field "snippet" l'); try done.
  destruct (field "snapshot_id" l') as [| | | |t| |] eqn:Es;
    try (apply bind_Some in H as (s' & Hs & H); try done);
    apply (inj Some) in H; simplify_eq; repeat split; try done. by rewrite Es.
Qed.

Lemma index_records_Some references records seen pairs seen' :
  Forall filed references → index_records references seen records = Some (pairs, seen') →
  NoDup seen →
  JObj <$> pairs.*1 = records ∧ Forall (λ p, cites p.1 p.2) pairs ∧
  ∃ ms, seen' = seen ++ ms ∧ NoDup seen' ∧
    Forall2 (λ m p, (m, p.2) ∈ references) ms pairs.
Proof.
  intros Hf. revert seen pairs seen'.
  induction records as [|v rest IH]; intros seen pairs seen'; cbn [index_records].
  { intros [= <- <-] Hnd. split; [done|]. split; [done|]. exists [].
    rewrite app_nil_r. by split. }
  intros H Hnd. apply bind_Some in H as ([[[l c] r] s] & Hv & H).
  apply record_of_Some in Hv as (-> & Hc & Hr & Hs).
  destruct (filter _ references) as [|[m ref] [|]] eqn:Ef; try done.
  destruct (bool_decide (m ∈ seen)) eqn:Hb; [done|]. apply bool_decide_eq_false in Hb.
  destruct (compact l); [|done]. apply bind_Some in H as ([ps sn] & Hi & H).
  apply (inj Some) in H. simplify_eq.
  assert ((m, ref) ∈ filter (λ kr, matches c r s kr.1 = true) references) as Hin
    by (rewrite Ef; by left).
  apply list_elem_of_filter in Hin as [Hm Hin].
  destruct (IH _ _ _ Hi) as (E & Hci & ms & -> & Hnd' & H2).
  { apply NoDup_app. split; [done|]. split; [|apply NoDup_singleton].
    intros x Hx ->%list_elem_of_singleton. done. }
  cbn [fmap list_fmap fst]. rewrite E. split; [done|]. split.
  - constructor; [|done]. cbn [fst snd].
    pose proof (proj1 (Forall_forall _ _) Hf _ Hin) as (F1 & F2 & F3). cbn [fst snd] in *.
    unfold matches in Hm. rewrite !andb_true_iff, !bool_decide_eq_true in Hm.
    destruct Hm as [[<- <-] Hm]. unfold cites. rewrite Hc, Hr, F1, F2, F3.
    split; [done|]. split; [done|]. split; [|by eexists].
    destruct s as [s|]; [right|by left]. apply bool_decide_eq_true in Hm as <-. done.
  - exists (m :: ms). rewrite <- app_assoc in Hnd' |- *. cbn [app] in *. split; [done|].
    split; [done|]. by constructor.
Qed.

Lemma filed_lookup (references : list (MatchId * dict)) m l l' :
  NoDup references.*1 → (m, l) ∈ references → (m, l') ∈ references → l = l'.
Proof.
  intros Hnd (i & Hi)%list_elem_of_lookup (j & Hj)%list_elem_of_lookup.
  assert (i = j) as ->; [|congruence].
  eapply NoDup_lookup; [exact Hnd|..]; rewrite list_lookup_fmap; [by rewrite Hi|by rewrite Hj].
Qed.

(** The whole input is paired: every record with its own reference, every
    reference with one record. *)
Lemma index_pairs records references refs pairs :
  _index_references references = Some refs → _index_records records refs = Some pairs →
  JObj <$> pairs.*1 = records ∧ Forall (λ p, cites p.1 p.2) pairs ∧
  JObj <$> pairs.*2 ≡ₚ references.
Proof.
  intros Hr Hi. destruct (index_references_Some _ _ _ Hr) as (Hnd & Hf & E);
    [apply NoDup_nil_2|done|]. cbn in E.
  unfold _index_records in Hi. apply bind_Some in Hi as ([ps seen] & Hi & H).
  destruct (index_records_Some _ _ _ _ _ Hf Hi) as (E1 & Hc & ms & -> & Hnds & H2);
    [apply NoDup_nil_2|].
  case_bool_decide as Hs; [|done]. apply (inj Some) in H as <-. cbn [app] in *.
  split; [done|]. split; [done|]. rewrite <- E. apply (fmap_Permutation JObj).
  assert (ms ≡ₚ refs.*1) as Hp.
  { apply NoDup_Permutation; [done..|]. intros x. destruct Hs as [H1 H3].
    rewrite Forall_forall in H1, H3. split; auto. }
  assert (zip ms ps.*2 ≡ₚ refs) as Hz.
  { assert (ms = (zip ms ps.*2).*1) as Em.
    { rewrite fst_zip; [done|]. rewrite length_fmap. by rewrite (Forall2_length _ _ _ H2). }
    apply NoDup_Permutation; [apply (NoDup_fmap_1 fst); by rewrite <- Em
                             |by apply (NoDup_fmap_1 fst)|].
    intros [m l]. split.
    - intros (i & Hi')%list_elem_of_lookup. apply lookup_zip_Some in Hi' as [Hm Hl].
      rewrite list_lookup_fmap in Hl. destruct (ps !! i) as [p|] eqn:Ep; [|done].
      cbn in Hl. apply (inj Some) in Hl as <-. exact (Forall2_lookup_lr _ _ _ _ _ _ H2 Hm Ep).
    - intros Hin. assert (m ∈ ms) as (i & Hm)%list_elem_of_lookup.
      { rewrite Hp. apply list_elem_of_fmap. by exists (m, l). }
      destruct (Forall2_lookup_l _ _ _ _ _ H2 Hm) as (p & Ep & Hin').
      apply list_elem_of_lookup. exists i. apply lookup_zip_Some. split; [done|].
      rewrite list_lookup_fmap, Ep. cbn. f_equal. by eapply filed_lookup. }
  rewrite <- Hz. rewrite snd_zip; [done|]. rewrite length_fmap.
  by rewrite (Forall2_length _ _ _ H2).
Qed.

(** ** The budget *)

(** ASCII characters are narrow. *)
Definition ascii_narrow `{EastAsian} : Prop := ∀ c, (c < 128)%N → is_wide c = false.

Section Budget.
Context `{wide : EastAsian}.
#[local] Instance approx : TokenEstimator := ApproxTokenEstimator.

(** Four times the weight of a text: 5 for a wide character, 2 for another. *)
Definition weight (t : list N) : N :=
  foldr (λ c n, (if is_wide c then 5 else 2) + n)%N 0%N t.

Lemma weight_app t u : weight (t ++ u) = (weight t + weight u)%N.
Proof. induction t as [|c t IH]; cbn; [done|]. unfold weight in *. rewrite IH. lia. Qed.

Lemma approx_weight t : approx_estimate t = ((weight t + 7) / 8)%N.
Proof.
  unfold approx_estimate. f_equal. f_equal. unfold len, weight.
  induction t as [|c t IH]; cbn [foldr]; [done|].
  rewrite filter_cons. pose proof (length_filter (λ c, is_wide c = true) t).
  destruct (decide (is_wide c = true)) as [Hw|Hw].
  - rewrite Hw. cbn [length]. rewrite !Nat2N.inj_succ. lia.
  - apply not_true_iff_false in Hw. rewrite Hw. cbn [length]. rewrite Nat2N.inj_succ. lia.
Qed.

(** The text of a payload around its flag. *)
Lemma payload_text records references :
  ∃ t u, ∀ b, dump (JObj (_payload records references b))
              = t ++ lit (if b then "true" else "false") ++ u.
Proof.
  set (d := JObj [(lit "results", JArr (JObj <$> records));
                  (lit "evidence_refs", JArr (JObj <$> references))]).
  exists ([123%N] ++ dump_member (lit "data", d)
    ++ 44%N :: dump_member (lit "evidence_format", JStr EVIDENCE_FORMAT)
    ++ 44%N :: dump_member (lit "status", JStr (lit "SUCCESS"))
    ++ 44%N :: dump_str (lit "truncated") ++ [58%N]),
    (44%N :: dump_member (lit "trust", JStr (lit "UNTRUSTED")) ++ [125%N]).
  intros b. assert (NoDup (_payload records references b).*1) as Hnd.
  { apply (bool_decide_unpack _). by vm_compute. }
  rewrite dump_obj by done.
  change (obj_items _) with
    [(lit "data", d); (lit "evidence_format", JStr EVIDENCE_FORMAT);
     (lit "status", JStr (lit "SUCCESS")); (lit "truncated", JBool b);
     (lit "trust", JStr (lit "UNTRUSTED"))].
  cbn [fmap list_fmap join]. unfold dump_member at 4. unfold dump_item. cbn [fst snd].
  replace (dump (JBool b)) with (lit (if b then "true" else "false")) by (by destruct b).
  cbn [app]. f_equal. rewrite <- !app_assoc. cbn [app]. f_equal. f_equal.
  rewrite <- !app_assoc. cbn [app]. do 2 f_equal. rewrite <- !app_assoc. cbn [app].
  do 2 f_equal. rewrite <- !app_assoc. cbn [app]. do 2 f_equal. by rewrite <- !app_assoc.
Qed.

Lemma truncated_no_longer records references b :
  ascii_narrow →
  _estimate_payload (_payload records references true)
    ≤ _estimate_payload (_payload records references b).
Proof.
  intros Hn. destruct (payload_text records references) as (t & u & Ht).
  unfold _estimate_payload, estimate, approx, ApproxTokenEstimator.
  rewrite !Ht, !approx_weight, !weight_app.
  assert (∀ v, (∀ c, c ∈ v → c < 128)%N → weight v = 2 * N.of_nat (length v))%N as Hv.
  { induction v as [|c v IH]; intros Hc; [done|]. unfold weight in *. cbn [foldr length].
    rewrite IH by (intros; apply Hc; by right). rewrite Hn by (apply Hc; by left). lia. }
  assert (∀ b : bool, ∀ c, c ∈ lit (if b then "true" else "false") → c < 128)%N as Ha.
  { intros b' c Hc. assert (Forall (λ c, c < 128)%N (lit (if b' then "true" else "false"))) as Hl
      by (apply (bool_decide_unpack _); by destruct b').
    by rewrite Forall_forall in Hl; apply Hl. }
  rewrite (Hv (lit "true")) by apply (Ha true). rewrite (Hv _ (Ha b)).
  apply N2Z.inj_le, N.Div0.div_le_mono. 
  change (length (lit "true")) with 4%nat.
  destruct b; [change (length (lit "true")) with 4%nat|change (length (lit "false")) with 5%nat]; lia.
Qed.

Definition fits (budget : Z) (kept : list (dict * dict)) (b : bool) : Prop :=
  _estimate_payload (_payload kept.*1 kept.*2 b) ≤ budget.

Lemma select_pairs_spec budget pairs kept skipped out b :
  ascii_narrow → kept = [] ∨ fits budget kept skipped →
  select_pairs budget kept skipped pairs = (out, b) →
  (out = [] ∨ fits budget out b) ∧
  ∃ more, out = kept ++ more ∧ more `sublist_of` pairs ∧
    (b = false ↔ skipped = false ∧ more = pairs) ∧ (skipped = true → b = true).
Proof.
  intros Hn. revert kept skipped. induction pairs as [|p rest IH]; intros kept skipped Hk;
    cbn [select_pairs].
  - intros [= <- <-]. split; [done|]. exists []. rewrite app_nil_r.
    split; [done|]. split; [done|]. split; [|done]. by split; [intros ->|intros [? _]].
  - destruct (Z.leb_spec (_estimate_payload (_payload (kept ++ [p]).*1 (kept ++ [p]).*2 skipped))
      budget) as [Hle|_]; intros H.
    + destruct (IH _ _ (or_intror Hle) H) as (Ho & more & -> & Hs & Hb & Ht).
      split; [done|]. exists (p :: more). rewrite <- app_assoc. split; [done|].
      split; [by apply sublist_skip|]. split; [|done]. rewrite Hb. naive_solver.
    + destruct (IH kept true) as (Ho & more & -> & Hs & Hb & Ht); [|done|].
      { destruct Hk as [?|Hk]; [by left|right]. unfold fits in *.
        etrans; [apply (truncated_no_longer _ _ skipped Hn)|exact Hk]. }
      split; [done|]. exists more. split; [done|]. split; [by apply sublist_cons|].
      rewrite (Ht eq_refl). split; [|done]. split; [done|]. intros [_ ->].
      apply sublist_length in Hs. cbn in Hs. lia.
Qed.

(** What a projection of [records] and [references] within a budget is. *)
Record projected (records references : list json) (budget : Z) (p : dict)
    (pairs kept : list (dict * dict)) (truncated : bool) : Prop := {
  pj_records : JObj <$> pairs.*1 = records;
  pj_references : JObj <$> pairs.*2 ≡ₚ references;
  pj_cites : Forall (λ q, cites q.1 q.2) pairs;
  pj_kept : kept `sublist_of` pairs;
  pj_all : truncated = false ↔ kept = pairs;
  pj_payload : p = _payload kept.*1 kept.*2 truncated;
  pj_budget : _estimate_payload p ≤ budget
}.

Lemma project_inv payload budget p :
  ascii_narrow → project_rag_evidence_payload payload budget = Return (Some p) →
  ∃ records references pairs kept b, evidence_lists payload = Some (records, references) ∧
    projected records references budget p pairs kept b.
Proof.
  intros Hn. unfold project_rag_evidence_payload. destruct (budget <? 0); [done|].
  intros H. injection H as H. destruct (budget =? 0); [done|].
  apply bind_Some in H as ([records references] & Hl & H).
  apply bind_Some in H as (refs & Hr & H). apply bind_Some in H as (pairs & Hi & H).
  destruct (index_pairs _ _ _ _ Hr Hi) as (E1 & Hc & E2).
  destruct (select_pairs budget [] false pairs) as [out b] eqn:Es.
  destruct (select_pairs_spec _ _ _ _ _ _ Hn (or_introl eq_refl) Es)
    as (Hf & more & Eo & Hs & Hb & _). cbn [app] in Eo. subst more.
  destruct out as [|q out].
  - set (empty := _payload [] [] _) in H.
    destruct (Z.leb_spec (_estimate_payload empty) budget) as [Hle|]; [|done].
    apply (inj Some) in H as <-. exists records, references, pairs, [], (match records, references with [], [] => false | _, _ => true end).
    split; [done|]. split; [done..|apply sublist_nil_l| |done|done].
    destruct pairs as [|p pairs]; [|destruct records; [done|]; by split].
    cbn in E1, E2. subst records. apply Permutation_nil_l in E2 as <-. by split.
  - apply (inj Some) in H as <-. exists records, references, pairs, (q :: out), b.
    split; [done|]. split; [done..| |done|by destruct Hf]. rewrite Hb. naive_solver.
Qed.

Lemma as_objects_fmap (l : list dict) : as_objects (JObj <$> l) = l.
Proof. induction l as [|d l IH]; [done|]. unfold as_objects in *. cbn. by rewrite IH. Qed.

Lemma reproject_inv payload budget p :
  ascii_narrow → reproject_rag_evidence_payload payload budget = Return (Some p) →
  ∃ records references pairs kept b t, evidence_lists payload = Some (records, references) ∧
    projected records references budget (_payload kept.*1 kept.*2 b) pairs kept b ∧
    p = _payload kept.*1 kept.*2 (t || b).
Proof.
  intros Hn. unfold reproject_rag_evidence_payload. destruct payload as [| | | | | |l]; try done.
  destruct (field "truncated" l) as [|t| | | | |]; try done. destruct (is_text _ _); [|done].
  destruct (evidence_lists (JObj l)) as [[records references]|]; [|done].
  destruct (project_rag_evidence_payload _ budget) as [[q|]|] eqn:Hp; try done.
  destruct (project_inv _ _ _ Hn Hp) as (rs & fs & pairs & kept & b & Hl & Hj).
  injection Hl as <- <-. destruct (pj_payload _ _ _ _ _ _ _ Hj).
  rewrite (pj_payload _ _ _ _ _ _ _ Hj).
  change (evidence_lists (JObj _)) with (Some (JObj <$> kept.*1, JObj <$> kept.*2)).
  change (field "truncated" _) with (JBool b). cbv iota beta. rewrite !as_objects_fmap.
  intros H. injection H as <-. exists records, references, pairs, kept, b, t.
  split; [done|]. split; [|done]. by destruct Hj; subst q.
Qed.
End Budget.

(** ** The theorem *)

(** Retrieved evidence is delivered whole and with its source.  If the
    projection of a search payload, or its reprojection at admission, returns a
    payload, then every record of the input was paired with the one reference
    that names its chunk, revision and (if given) snapshot, no reference is left
    over, and the payload holds some of these pairs, unchanged and in order,
    records and references side by side, within the token budget.  It is marked
    truncated whenever a pair is missing.  (ASCII characters count as narrow.) *)
Lemma evidence_projection_lossless `{EastAsian} payload budget p :
  ascii_narrow →
  project_rag_evidence_payload (estimator := ApproxTokenEstimator) payload budget
    = Return (Some p) ∨
  reproject_rag_evidence_payload (estimator := ApproxTokenEstimator) payload budget
    = Return (Some p) →
  ∃ records references pairs kept truncated,
    evidence_lists payload = Some (records, references) ∧
    records = JObj <$> pairs.*1 ∧ JObj <$> pairs.*2 ≡ₚ references ∧
    Forall (λ q, cites q.1 q.2) pairs ∧
    kept `sublist_of` pairs ∧ p = _payload kept.*1 kept.*2 truncated ∧
    (truncated = false → kept = pairs) ∧
    Z.of_N (approx_estimate (dump (JObj p))) ≤ budget.
Proof.
  intros Hn [Hp|Hp].
  - destruct (project_inv _ _ _ Hn Hp) as (rs & fs & pairs & kept & b & Hl & []).
    exists rs, fs, pairs, kept, b. naive_solver.
  - destruct (reproject_inv _ _ _ Hn Hp) as (rs & fs & pairs & kept & b & t & Hl & [] & ->).
    exists rs, fs, pairs, kept, (t || b). repeat (split; [done|]). split.
    + intros [_ ?]%orb_false_iff. naive_solver.
    + destruct t; [|done]. etrans; [by apply (truncated_no_longer _ _ b)|done].
Qed.

(** ** Witness *)

#[local] Instance cjk_wide : EastAsian :=
  {| is_wide := λ c, (19968 <=? c)%N && (c <=? 40959)%N |}.

Definition sample_reference (c : string) : json :=
  JObj [(lit "snapshot_id", JStr (lit "s1")); (lit "knowledge_base_id", JStr (lit "kb"));
        (lit "document_revision_id", JStr (lit "r1")); (lit "chunk_id", JStr (lit c))].
Definition sample_record (c : string) (n : nat) : json :=
  JObj [(lit "chunk_id", JStr (lit c)); (lit "document_revision_id", JStr (lit "r1"));
        (lit "snippet", JStr (replicate n 20013%N))].
(** The second record does not fit, the third does. *)
Definition sample_search : json :=
  JObj [(lit "status", JStr (lit "SUCCESS"));
        (lit "data", JObj [(lit "results", JArr [sample_record "c1" 3; sample_record "c2" 900;
                                                 sample_record "c3" 4]);
                           (lit "evidence_refs", JArr (sample_reference <$> ["c3"; "c1"; "c2"]%string))])].
Definition sample_projection : option dict :=
  match project_rag_evidence_payload (estimator := ApproxTokenEstimator) sample_search 200 with
  | Return p => p
  | Raise _ => None
  end.

Lemma evidence_projection_lossless_witness :
  match sample_projection with
  | Some p => Z.of_N (approx_estimate (dump (JObj p))) ≤ 200 ∧
              length (omap (λ v, match v with JArr l => Some l | _ => None end)
                       [match field "data" p with JObj d => field "results" d | v => v end] ≫= id) = 2%nat
  | None => False
  end.
Proof.
  destruct sample_projection as [p|] eqn:E; [|by vm_compute in E].
  assert (project_rag_evidence_payload (estimator := ApproxTokenEstimator) sample_search 200
    = Return (Some p)) as Hp.
  { unfold sample_projection in E. destruct (project_rag_evidence_payload _ _); congruence. }
  split.
  - destruct (evidence_projection_lossless sample_search 200 p) as (? & ? & ? & ? & ? & H).
    + intros c Hc. cbn. destruct (N.leb_spec 19968 c); [lia|done].
    + by left.
    + apply H.
  - vm_compute in E. injection E as <-. vm_compute. reflexivity.
Defined.
