(* ===== verification/EvidenceRecords.v ===== *)
(** * Source records of retrieved evidence

    Model of [packages/knowledge/evidence_records.py] (the record and the
    reference of a retrieved chunk, and the filter that drops chunks lying
    inside another one) and of [packages/wiki/evidence_envelope.py] (the
    envelope of claims compiled into a Wiki page).

    The last part proves that the filter loses no text.  The ranking scores and
    the provenance string of a [RetrievedEvidence] are
    left out: nothing here reads them. *)

From stdpp Require Import base gmap list strings sorting.
From Stdlib Require Import ZArith NArith Lia.
From S2P Require Import Prelude.
From S2P Require Import Json.
From S2P Require Import JsonTheory.
From S2P Require Import TurnTranscript.
From S2P Require Import ContextMetadata.
From S2P Require Import Outcome.
From S2P Require Import JsonProjection.
From S2P Require Import RagEvidence.

Local Open Scope Z_scope.
Local Arguments lit : simpl never.

Definition MAX_EVIDENCE_EXCERPT_CHARS : nat := 2000.

Record RetrievedEvidence := {
  re_document_id : list N;
  re_document_revision_id : list N;
  re_chunk_id : list N;
  re_locator : dict;
  re_text : list N;
  re_metadata : dict
}.

Definition evidence_record (item : RetrievedEvidence) (snapshot_id : option (list N)) : dict :=
  [(lit "chunk_id", JStr (re_chunk_id item)); (lit "document_id", JStr (re_document_id item));
   (lit "document_revision_id", JStr (re_document_revision_id item));
   (lit "locator", JObj (re_locator item));
   (lit "snippet", JStr (take MAX_EVIDENCE_EXCERPT_CHARS (re_text item)));
   (lit "document_name", field "document_name" (re_metadata item));
   (lit "effective_date", field "effective_date" (re_metadata item));
   (lit "superseded", JBool (truthy_json (field "superseded" (re_metadata item))))]
  ++ match snapshot_id with Some s => [(lit "snapshot_id", JStr s)] | None => [] end.

Definition evidence_reference (item : RetrievedEvidence) (snapshot_id knowledge_base_id : list N) :
  dict :=
  [(lit "snapshot_id", JStr snapshot_id); (lit "knowledge_base_id", JStr knowledge_base_id);
   (lit "document_revision_id", JStr (re_document_revision_id item));
   (lit "chunk_id", JStr (re_chunk_id item))].

(** ** Overlapping spans *)

Abbreviation span := (Z * Z)%type.

Definition span_at (start_key end_key : string) (l : dict) : option span :=
  match field start_key l, field end_key l with
  | JInt s, JInt e => if (0 <=? s) && (s <? e) then Some (s, e) else None
  | _, _ => None
  end.
Definition locator_span (locator : json) : option span :=
  match locator with
  | JObj l => match span_at "char_start" "char_end" l with
              | Some s => Some s
              | None => span_at "start" "end" l
              end
  | _ => None
  end.

Definition _span_contained (s kept : span) : bool := (kept.1 <=? s.1) && (s.2 <=? kept.2).

(** [_OverlapTracker._spans] *)
Abbreviation Tracker := (gmap (list N) (list span)).

Definition redundant (t : Tracker) (revision : json) (s : option span) : bool :=
  match s, nonempty_text revision with
  | Some s, Some r => existsb (_span_contained s) (default [] (t !! r))
  | _, _ => false
  end.
Definition keep (t : Tracker) (revision : json) (s : option span) : Tracker :=
  match s, nonempty_text revision with
  | Some s, Some r => <[r := default [] (t !! r) ++ [s]]> t
  | _, _ => t
  end.

(** The loop of both filters; [place] is the revision and the span of an item. *)
Fixpoint drop_overlapping {A} (place : A → json * option span) (t : Tracker) (items : list A) :
  list A :=
  match items with
  | [] => []
  | x :: rest =>
      let '(revision, s) := place x in
      if redundant t revision s then drop_overlapping place t rest
      else x :: drop_overlapping place (keep t revision s) rest
  end.

Definition evidence_place (item : RetrievedEvidence) : json * option span :=
  (JStr (re_document_revision_id item), locator_span (JObj (re_locator item))).
Definition drop_overlapping_evidence (items : list RetrievedEvidence) : list RetrievedEvidence :=
  drop_overlapping evidence_place ∅ items.

Definition record_place (pair : dict * json) : json * option span :=
  (field "document_revision_id" pair.1, locator_span (field "locator" pair.1)).
(** Malformed input is returned unchanged. *)
Definition drop_overlapping_records (records references : list json) : list json * list json :=
  if negb (length records =? length references)%nat then (records, references)
  else if bool_decide (length (as_objects records) = length records) then
    let kept := drop_overlapping record_place ∅ (zip (as_objects records) references) in
    (JObj <$> kept.*1, kept.*2)
  else (records, references).

(** ** The envelope of Wiki claims *)

Definition WIKI_DERIVED_REQUIRED_FIELDS : list string :=
  ["origin"; "publication_id"; "publication_hash"; "wiki_page_id"; "source_revisions"; "quote"]%string.
Definition _WIKI_DERIVED_TEXT_FIELDS : list string :=
  ["publication_id"; "publication_hash"; "wiki_page_id"; "quote"]%string.

(** [isinstance(value, str) and value.strip()] *)
Definition speaks (v : json) : bool :=
  match v with JStr s => negb (bool_decide (py_strip s = [])) | _ => false end.

(** The reasons [envelope_violation] returns. *)
Inductive EnvelopeViolation :=
| UnknownOrigin (origin : json)
| MissingFields (missing : list string)
| BlankField (key : string)
| BadRevisions.

Definition envelope_violation (record : dict) : option EnvelopeViolation :=
  let origin := field "origin" record in
  if is_text "RAW" origin then None
  else match origin with
  | JNull => None
  | _ =>
      if negb (is_text "WIKI_DERIVED" origin) then Some (UnknownOrigin origin)
      else match filter (λ k, lit k ∉ record.*1) WIKI_DERIVED_REQUIRED_FIELDS with
      | k :: r => Some (MissingFields (k :: r))
      | [] =>
          match filter (λ k, speaks (field k record) = false) _WIKI_DERIVED_TEXT_FIELDS with
          | k :: _ => Some (BlankField k)
          | [] => match field "source_revisions" record with
                  | JArr (r :: revisions) =>
                      if forallb speaks (r :: revisions) then None else Some BadRevisions
                  | _ => Some BadRevisions
                  end
          end
      end
  end.

(** [AgentHubError("WIKI_ENVELOPE_INVALID", message, 500)] *)
Inductive EnvelopeError := WIKI_ENVELOPE_INVALID (message : string).

Definition validate_wiki_derived_record (record : dict) : outcome EnvelopeError unit :=
  fail_if (bool_decide (is_Some (envelope_violation record)))
    (WIKI_ENVELOPE_INVALID "A Wiki-derived evidence record is missing its envelope identity.").

Definition stamp_raw_evidence (records : list dict) : outcome EnvelopeError (list dict) :=
  traverse (λ record : dict,
    match field "origin" record with
    | JNull => Return (dict_set (lit "origin") (JStr (lit "RAW")) record)
    | o => if is_text "RAW" o then Return (dict_set (lit "origin") (JStr (lit "RAW")) record)
           else Raise (WIKI_ENVELOPE_INVALID "A raw evidence record already carries a different origin.")
    end) records.

(** [revisions_by_page]: the revisions of each page in the order they appear. *)
Definition page_of (record : dict) : outcome EnvelopeError (list N * list N) :=
  match field "page_key" record, field "document_revision_id" record with
  | JStr p, JStr r =>
      fail_if (bool_decide (py_strip p = []))
        (WIKI_ENVELOPE_INVALID "A Wiki-derived evidence record has no page identity.") ≫= λ _,
      fail_if (bool_decide (py_strip r = []))
        (WIKI_ENVELOPE_INVALID "A Wiki-derived evidence record has no source revision.") ≫= λ _,
      Return (p, r)
  | JStr p, _ =>
      Raise (WIKI_ENVELOPE_INVALID
        (if bool_decide (py_strip p = []) then "A Wiki-derived evidence record has no page identity."
         else "A Wiki-derived evidence record has no source revision."))
  | _, _ => Raise (WIKI_ENVELOPE_INVALID "A Wiki-derived evidence record has no page identity.")
  end.
Definition add_revision (by_page : gmap (list N) (list (list N))) (pr : list N * list N) :
  gmap (list N) (list (list N)) :=
  let revisions := default [] (by_page !! pr.1) in
  if bool_decide (pr.2 ∈ revisions) then by_page else <[pr.1 := revisions ++ [pr.2]]> by_page.
(** [list.sort()] of texts *)
Definition sort_texts (l : list (list N)) : list (list N) :=
  (merge_sort key_le ((λ s, (s, tt)) <$> l)).*1.

Definition stamp_one (publication_id publication_hash : list N)
    (by_page : gmap (list N) (list (list N))) (record : dict) : outcome EnvelopeError dict :=
  let origin := field "origin" record in
  fail_if (negb (is_text "WIKI_DERIVED" origin || match origin with JNull => true | _ => false end))
    (WIKI_ENVELOPE_INVALID "A Wiki claim already carries a different origin.") ≫= λ _,
  let page := match field "page_key" record with JStr p => p | _ => [] end in
  let item := dict_update record
    [(lit "origin", JStr (lit "WIKI_DERIVED")); (lit "publication_id", JStr publication_id);
     (lit "publication_hash", JStr publication_hash); (lit "wiki_page_id", JStr page);
     (lit "source_revisions", JArr (JStr <$> sort_texts (default [] (by_page !! page))))] in
  validate_wiki_derived_record item ≫= λ _, Return item.

Definition stamp_wiki_derived_evidence (records : list dict)
    (publication_id publication_hash : list N) : outcome EnvelopeError (list dict) :=
  fail_if (bool_decide (py_strip publication_id = []))
    (WIKI_ENVELOPE_INVALID "A Wiki publication id is required to stamp derived evidence.") ≫= λ _,
  fail_if (bool_decide (py_strip publication_hash = []))
    (WIKI_ENVELOPE_INVALID "A Wiki publication hash is required to stamp derived evidence.") ≫= λ _,
  traverse page_of records ≫= λ pages,
  traverse (stamp_one publication_id publication_hash (foldl add_revision ∅ pages)) records.

(** ** Overlap filtering loses no text *)

(** Where a piece of evidence lies: its revision and its characters. *)
Abbreviation place := (json * option span)%type.

(** The characters of [p] are among those of [q], in the same revision. *)
Definition lies_in (p q : place) : Prop :=
  ∃ r s s', nonempty_text p.1 = Some r ∧ nonempty_text q.1 = Some r ∧
    p.2 = Some s ∧ q.2 = Some s' ∧ _span_contained s s' = true.
(** A character of a revision. *)
Definition shows_char (r : list N) (c : Z) (p : place) : Prop :=
  nonempty_text p.1 = Some r ∧ ∃ s, p.2 = Some s ∧ s.1 ≤ c < s.2.

Lemma lies_in_shows r c p q : lies_in p q → shows_char r c p → shows_char r c q.
Proof.
  intros (r' & s & s' & Hp & Hq & Hs & Hs' & Hc) (Hr & s0 & Hs0 & Hch).
  unfold _span_contained in Hc. rewrite andb_true_iff, !Z.leb_le in Hc.
  rewrite Hs in Hs0. injection Hs0 as <-. rewrite Hp in Hr. injection Hr as ->.
  split; [done|]. exists s'. split; [done|]. lia.
Qed.

(** The tracker knows the places of what was kept. *)
Definition tracks (t : Tracker) (kept : list place) : Prop :=
  ∀ p, redundant t p.1 p.2 = true ↔ Exists (lies_in p) kept.

Lemma tracks_empty : tracks ∅ [].
Proof.
  intros [v s]. rewrite Exists_nil. unfold redundant. cbn. destruct s; [|done].
  by destruct (nonempty_text v).
Qed.

Lemma tracks_keep t kept q : tracks t kept → tracks (keep t q.1 q.2) (kept ++ [q]).
Proof.
  intros Ht p. rewrite Exists_app, Exists_cons, Exists_nil, <- (Ht p). unfold redundant, keep, lies_in.
  assert (∀ b P, ¬ P → b = true ↔ b = true ∨ P ∨ False) as no by naive_solver.
  destruct p as [vp [sp|]], q as [vq [sq|]]; cbn [fst snd];
    try (apply no; intros (? & ? & ? & ? & ? & ? & ? & ?); done).
  destruct (nonempty_text vp) as [rp|]; [|apply no; intros (? & ? & ? & ? & ?); done].
  destruct (nonempty_text vq) as [rq|]; [|apply no; intros (? & ? & ? & ? & ? & ?); done].
  destruct (decide (rq = rp)) as [->|Hne].
  - rewrite lookup_insert_eq. cbn [from_option id]. rewrite existsb_app, orb_true_iff. cbn [existsb].
    rewrite orb_false_r. naive_solver.
  - rewrite lookup_insert_ne by done. naive_solver.
Qed.

Section Filter.
Context {A : Type} (at_ : A → place).

(** A list in which nothing lies in something before it. *)
Fixpoint irredundant (before : list place) (l : list A) : Prop :=
  match l with
  | [] => True
  | x :: rest => ¬ Exists (lies_in (at_ x)) before ∧ irredundant (before ++ [at_ x]) rest
  end.

Lemma drop_spec t before items :
  tracks t before →
  let kept := drop_overlapping at_ t items in
  kept `sublist_of` items ∧ irredundant before kept ∧
  ∀ x, x ∈ items → x ∈ kept ∨ Exists (lies_in (at_ x)) (before ++ (at_ <$> kept)).
Proof.
  revert t before. induction items as [|x items IH]; intros t before Ht; cbn [drop_overlapping].
  { split; [done|]. split; [done|]. by intros x ?%not_elem_of_nil. }
  destruct (at_ x) as [v s] eqn:Ex. destruct (redundant t v s) eqn:Er.
  - destruct (IH t before Ht) as (H1 & H2 & H3). split; [by constructor|]. split; [done|].
    intros y [->|Hy]%elem_of_cons; [|auto]. right. rewrite Ex. apply Exists_app. left. by apply (Ht (v, s)).
  - destruct (IH (keep t v s) (before ++ [(v, s)])) as (H1 & H2 & H3); [by apply (tracks_keep t before (v, s))|].
    split; [by constructor|]. split.
    + cbn [irredundant]. rewrite Ex. split; [|done]. rewrite <- (Ht (v, s)). by cbn; rewrite Er.
    + intros y [->|Hy]%elem_of_cons; [left; by left|]. destruct (H3 y Hy) as [|H]; [left; by right|].
      right. cbn [fmap list_fmap]. rewrite Ex. by rewrite <- app_assoc in H.
Qed.

Lemma drop_irredundant t before l : tracks t before → irredundant before l → drop_overlapping at_ t l = l.
Proof.
  revert t before. induction l as [|x l IH]; intros t before Ht; [done|]. cbn [irredundant drop_overlapping].
  intros [Hx Hl]. destruct (at_ x) as [v s] eqn:Ex.
  destruct (redundant t v s) eqn:Er; [by apply (Ht (v, s)) in Er|].
  f_equal. apply (IH _ (before ++ [(v, s)])); [by apply (tracks_keep t before (v, s))|done].
Qed.
End Filter.

(** Overlap filtering saves room without losing text.  What is kept is a
    subsequence of the input; whatever is dropped lies inside something kept
    of the same revision, so every character shown before is still shown;
    nothing kept lies inside something kept before it; and filtering again
    changes nothing.  The filter on records and references makes the same
    choice and keeps each record with its reference. *)
Lemma overlap_filter_loses_nothing (items : list RetrievedEvidence) (pairs : list (dict * json)) :
  let kept := drop_overlapping_evidence items in
  kept `sublist_of` items ∧ irredundant evidence_place [] kept ∧
  (∀ r c, Exists (shows_char r c) (evidence_place <$> items) →
          Exists (shows_char r c) (evidence_place <$> kept)) ∧
  drop_overlapping_evidence kept = kept ∧
  ∃ left, left `sublist_of` pairs ∧ irredundant record_place [] left ∧
    drop_overlapping_records (JObj <$> pairs.*1) pairs.*2 = (JObj <$> left.*1, left.*2) ∧
    ∀ r c, Exists (shows_char r c) (record_place <$> pairs) →
           Exists (shows_char r c) (record_place <$> left).
Proof.
  assert (∀ A (f : A → place) l, let kept := drop_overlapping f ∅ l in
    kept `sublist_of` l ∧ irredundant f [] kept ∧
    (∀ r c, Exists (shows_char r c) (f <$> l) → Exists (shows_char r c) (f <$> kept))) as H.
  { intros A f l. destruct (drop_spec f ∅ [] l tracks_empty) as (H1 & H2 & H3).
    split; [done|]. split; [done|]. intros r c (p & (x & -> & Hx)%list_elem_of_fmap & Hs)%Exists_exists.
    apply Exists_exists. destruct (H3 x Hx) as [Hk|(q & Hq & Hl)%Exists_exists].
    - exists (f x). split; [by apply list_elem_of_fmap_2|done].
    - exists q. split; [done|]. by eapply lies_in_shows. }
  destruct (H _ evidence_place items) as (H1 & H2 & H3). split; [done|]. split; [done|]. split; [done|].
  split; [by eapply drop_irredundant; [apply tracks_empty|]|].
  destruct (H _ record_place pairs) as (H4 & H5 & H6). eexists. split; [exact H4|].
  split; [exact H5|]. split; [|exact H6]. unfold drop_overlapping_records.
  assert (as_objects (JObj <$> pairs.*1) = pairs.*1) as ->
    by (clear; induction pairs as [|[]]; cbn; [done|by f_equal]).
  rewrite !length_fmap, Nat.eqb_refl, bool_decide_eq_true_2 by done. cbn [negb].
  by rewrite zip_fst_snd.
Qed.

(** A window inside another one is dropped; overlapping windows are kept. *)
Example tail_window_dropped :
  let window (a b : Z) := {| re_document_id := lit "d"; re_document_revision_id := lit "r";
    re_chunk_id := lit "c"; re_text := []; re_metadata := [];
    re_locator := [(lit "char_start", JInt a); (lit "char_end", JInt b)] |} in
  drop_overlapping_evidence [window 0 1200; window 1000 2200; window 300 900]
    = [window 0 1200; window 1000 2200].
Proof. vm_compute. reflexivity. Qed.
