(* ===== verification/EvidencePlan.v ===== *)
(** * The model's view of evidence and its private registry

    Model of [packages/knowledge/evidence_plan.py]: records and references
    become short items under citation identifiers, selected within a budget,
    together with a registry that keeps the source of every item shown; the
    check of such a view and its reprojection at admission.

    The estimator is [TokenEstimator] (its result is a natural number).  Sets
    are lists without duplicates; where the source iterates over a set the
    order is immaterial.  Comparing two dictionaries compares their canonical
    texts ([same]): the values compared hold no numbers but integers that are
    not booleans. *)

From stdpp Require Import base gmap list strings sorting.
From Stdlib Require Import ZArith NArith Lia.
From S2P Require Import Prelude.
From S2P Require Import Outcome.
From S2P Require Import Json.
From S2P Require Import JsonTheory.
From S2P Require Import TurnTranscript.
From S2P Require Import ContextMetadata.
From S2P Require Import JsonProjection.
From S2P Require Import ContextBudget.
From S2P Require Import RagEvidence.
From S2P Require Import EvidenceRecords.

Local Open Scope Z_scope.
Local Arguments lit : simpl never.

Definition EVIDENCE_VIEW_FORMAT : list N := lit "rag_view_v1".
Definition _REF_FIELDS : list (list N) :=
  lit <$> ["snapshot_id"; "knowledge_base_id"; "document_revision_id"; "chunk_id"]%string.
Definition _READING_FIELDS : list (list N) :=
  lit <$> ["snippet"; "document_name"; "effective_date"; "superseded"; "locator"]%string.
Definition _ORIGIN_FIELDS : list (list N) := lit <$> ["origin"; "wiki_page_id"]%string.
Definition _ITEM_FIELDS : list (list N) := _READING_FIELDS ++ _ORIGIN_FIELDS ++ [lit "conflict"].
Definition _LEGACY_PAYLOAD_FIELDS : list (list N) :=
  lit <$> ["evidence_format"; "status"; "trust"; "truncated"; "citation_instruction"; "results"]%string.
(** The fields a caller may supply, and the one that is derived. *)
Definition state_keys : list (list N) :=
  lit <$> ["route"; "insufficient_evidence"; "supplemental_required"; "conflict_count";
           "degraded"; "degraded_reason"]%string.
Definition _SERVER_STATE_FIELDS : list (list N) := state_keys ++ [lit "delivered_origins"].
Definition _PAYLOAD_FIELDS : list (list N) := _LEGACY_PAYLOAD_FIELDS ++ _SERVER_STATE_FIELDS.
Definition _ROUTES : list (list N) := lit <$> ["AUTO"; "WIKI"; "RAG"; "HYBRID"]%string.
Definition _STATUSES : list (list N) :=
  lit <$> ["SUCCESS"; "INSUFFICIENT_EVIDENCE"; "CONFLICT"; "DEGRADED"]%string.
Definition EvidenceOrigin : list (list N) := lit <$> ["RAW"; "WIKI_DERIVED"]%string.
Definition _LOCATOR_POSITIONS : list (list N) :=
  lit <$> ["page"; "char_start"; "char_end"; "paragraph_ordinal"; "start"; "end"]%string.

(** [ValueError], and the [TypeError] of looking up a list or a dictionary in
    a set. *)
Inductive view_error := Invalid (message : string) | Unhashable.

Definition in_texts (v : json) (l : list (list N)) : outcome view_error bool :=
  match v with
  | JArr _ | JObj _ => Raise Unhashable
  | JStr s => Return (bool_decide (s ∈ l))
  | _ => Return false
  end.

(** ** Text patterns *)

Definition letter (c : N) : bool :=
  (65 <=? c)%N && (c <=? 90)%N || (97 <=? c)%N && (c <=? 122)%N.
Definition word (c : N) : bool := letter c || digit_char c || (c =? 95)%N.
(** [[1-9][0-9]*] *)
Definition number (s : list N) : bool :=
  match s with c :: r => digit_char c && negb (c =? 48)%N && forallb digit_char r | [] => false end.
(** [(?:[A-Za-z][A-Za-z0-9_]{0,31})?] *)
Definition prefix_ok (s : list N) : bool :=
  match s with [] => true | c :: r => letter c && forallb word r && (length r <=? 31)%nat end.
(** [_ID.fullmatch(s)] *)
Definition _ID (s : list N) : bool :=
  existsb (λ k, prefix_ok (take k s) && number (drop k s)) (seq 0 33).

Definition instruction_head : list N := lit "Cite evidence using its id in square brackets, e.g. [".
Definition instruction_tail : list N := lit "1].".
Definition _instruction (prefix : list N) : list N := instruction_head ++ prefix ++ instruction_tail.
(** The group of the pattern [validate_evidence_view] matches. *)
Definition instruction_prefix (s : list N) : option (list N) :=
  let prefix := take (length s - length instruction_head - length instruction_tail)
                     (drop (length instruction_head) s) in
  if bool_decide (s = _instruction prefix) && prefix_ok prefix then Some prefix else None.

(** ** Items *)

Definition same (v w : json) : bool := bool_decide (canonical_json v = canonical_json w).

Definition take_position (value result : dict) (k : list N) : outcome view_error dict :=
  match dict_get k value with
  | None => Return result
  | Some (JInt z) => if z <? 0 then Raise (Invalid "invalid evidence position")
                     else Return (result ++ [(k, JInt z)])
  | Some _ => Raise (Invalid "invalid evidence position")
  end.
Definition model_evidence_locator (value : dict) : outcome view_error dict :=
  result ← fold_raise (λ r k, take_position value r k) _LOCATOR_POSITIONS [];
  match dict_get (lit "type") value with
  | None => Return result
  | Some t => known ← in_texts t (lit <$> ["page"; "text_range"]%string);
              if (known : bool) then Return (result ++ [(lit "type", t)])
              else Raise (Invalid "unsupported positional locator type")
  end.

Definition text_or_none (v : option json) : bool :=
  match v with None | Some JNull | Some (JStr _) => true | _ => false end.
Definition bool_or_absent (v : option json) : bool :=
  match v with None | Some (JBool _) => true | _ => false end.
Definition locator_ok (v : option json) : bool :=
  match v with
  | None => true
  | Some (JObj l) => match model_evidence_locator l with
                     | Return r => same (JObj r) (JObj l)
                     | Raise _ => false
                     end
  | Some _ => false
  end.
(** What [_valid_item] checks after the origin. *)
Definition item_rest (item : dict) : bool :=
  (bool_decide (lit "wiki_page_id" ∉ item.*1) || is_text "WIKI_DERIVED" (field "origin" item))
  && text_or_none (dict_get (lit "document_name") item)
  && text_or_none (dict_get (lit "effective_date") item)
  && bool_or_absent (dict_get (lit "superseded") item)
  && bool_or_absent (dict_get (lit "conflict") item)
  && locator_ok (dict_get (lit "locator") item)
  && compact item.
Definition item_head (item : dict) : bool :=
  forallb (λ k, bool_decide (k ∈ lit "id" :: _ITEM_FIELDS)) item.*1
  && match dict_get (lit "id") item with Some (JStr s) => _ID s | _ => false end
  && match dict_get (lit "snippet") item with Some v => speaks v | None => false end.

Definition valid_item (item : dict) : outcome view_error bool :=
  if negb (item_head item) then Return false
  else match dict_get (lit "origin") item with
  | None => Return (item_rest item)
  | Some o =>
      known ← in_texts o EvidenceOrigin;
      Return ((known : bool)
              && negb (is_text "WIKI_DERIVED" o && negb (speaks (field "wiki_page_id" item)))
              && item_rest item)
  end.
Definition _valid_item (v : json) : outcome view_error bool :=
  match v with JObj item => valid_item item | _ => Return false end.

Definition item_id (item : dict) : list N :=
  match field "id" item with JStr s => s | _ => [] end.

(** ** Server state *)

Definition has_origin (o : string) (items : list dict) : bool :=
  existsb (λ item, is_text o (field "origin" item)) items.

Definition _infer_route (items : list dict) : list N :=
  if has_origin "WIKI_DERIVED" items
  then if has_origin "RAW" items then lit "HYBRID" else lit "WIKI"
  else lit "RAG".

Record ServerState := {
  ss_route : list N;
  ss_insufficient_evidence : bool;
  ss_supplemental_required : bool;
  ss_conflict_count : Z;
  ss_degraded : bool;
  ss_degraded_reason : option (list N);
  ss_delivered_origins : list (list N);
  ss_status : list N
}.

(** [value.get(key, default)] as a boolean. *)
Definition bool_key (k : string) (value : dict) : option bool :=
  match dict_get (lit k) value with None => Some false | Some (JBool b) => Some b | Some _ => None end.

Definition delivered (items : list dict) : list (list N) :=
  filter (λ o, existsb (λ item : dict, match field "origin" item with
                                       | JStr s => bool_decide (s = o) | _ => false end) items = true)
    EvidenceOrigin.

Definition status_of (conflict_count : Z) (lacking degraded : bool) : list N :=
  if negb (conflict_count =? 0) then lit "CONFLICT"
  else if lacking then lit "INSUFFICIENT_EVIDENCE"
  else if degraded then lit "DEGRADED"
  else lit "SUCCESS".

(** [if cond and not degraded: degraded = True; reason = reason or text] *)
Definition degrade (cond : bool) (text : string) (dr : bool * option (list N)) :
  bool * option (list N) :=
  if cond && negb dr.1 then (true, Some (default (lit text) dr.2)) else dr.

Definition normalized (value : dict) (items : list dict) (was_truncated : bool) :
  outcome view_error ServerState :=
  fail_if (negb (forallb (λ k, bool_decide (k ∈ state_keys)) value.*1))
    (Invalid "invalid server-owned evidence state") ≫= λ _,
  route ← or_raise (Invalid "invalid evidence route")
    (match dict_get (lit "route") value with
     | None => Some (_infer_route items)
     | Some (JStr s) => if bool_decide (s ∈ _ROUTES) then Some s else None
     | Some _ => None
     end);
  lacking ← or_raise (Invalid "invalid evidence sufficiency state")
    (insufficient ← bool_key "insufficient_evidence" value;
     supplemental ← bool_key "supplemental_required" value; Some (insufficient, supplemental));
  conflicts ← or_raise (Invalid "invalid evidence conflict count")
    (match dict_get (lit "conflict_count") value with
     | None => Some 0
     | Some (JInt n) => if n <? 0 then None else Some n
     | Some _ => None
     end);
  given ← or_raise (Invalid "invalid evidence degradation state")
    (degraded ← bool_key "degraded" value;
     match field "degraded_reason" value with
     | JNull => Some (degraded, None)
     | JStr s => if bool_decide (py_strip s = []) then None else Some (degraded, Some s)
     | _ => None
     end);
  let partial := bool_decide (route = lit "HYBRID") && negb (bool_decide (delivered items = EvidenceOrigin)) in
  let dr := degrade was_truncated "EVIDENCE_TRUNCATED" (degrade partial "HYBRID_PARTIAL_DELIVERY" given) in
  Return {| ss_route := route; ss_insufficient_evidence := lacking.1;
            ss_supplemental_required := lacking.2; ss_conflict_count := conflicts;
            ss_degraded := dr.1; ss_degraded_reason := dr.2;
            ss_delivered_origins := delivered items;
            ss_status := status_of conflicts (lacking.1 || lacking.2) dr.1 |}.
Definition _normalized_server_state (value : option dict) (items : list dict) (was_truncated : bool) :
  outcome view_error (option ServerState) :=
  match value with
  | None => Return None
  | Some value => Some <$> normalized value items was_truncated
  end.

Definition base_view (items : list dict) (instruction : list N) (truncated : bool) (status : list N) :
  dict :=
  [(lit "evidence_format", JStr EVIDENCE_VIEW_FORMAT); (lit "status", JStr status);
   (lit "trust", JStr (lit "UNTRUSTED")); (lit "truncated", JBool truncated);
   (lit "citation_instruction", JStr instruction); (lit "results", JArr (JObj <$> items))].
Definition state_fields (s : ServerState) : dict :=
  [(lit "route", JStr (ss_route s)); (lit "insufficient_evidence", JBool (ss_insufficient_evidence s));
   (lit "supplemental_required", JBool (ss_supplemental_required s));
   (lit "conflict_count", JInt (ss_conflict_count s)); (lit "degraded", JBool (ss_degraded s));
   (lit "degraded_reason", opt_text (ss_degraded_reason s));
   (lit "delivered_origins", JArr (JStr <$> ss_delivered_origins s))].
Definition _payload (items : list dict) (instruction : list N) (truncated : bool)
    (server_state : option dict) : outcome view_error dict :=
  state ← _normalized_server_state server_state items truncated;
  Return match state with
         | None => base_view items instruction truncated (lit "SUCCESS")
         | Some s => base_view items instruction truncated (ss_status s) ++ state_fields s
         end.

(** ** Checking a view *)

(** The loop over the results. *)
Fixpoint valid_items (prefix : list N) (seen : list (list N)) (results : list json) :
  outcome view_error bool :=
  match results with
  | [] => Return true
  | v :: rest =>
      valid ← _valid_item v;
      match v with
      | JObj item =>
          let i := item_id item in
          if (valid : bool) && negb (bool_decide (i ∈ seen)) && bool_decide (prefix `prefix_of` i)
             && number (drop (length prefix) i)
          then valid_items prefix (i :: seen) rest
          else Return false
      | _ => Return false
      end
  end.

(** The state a rich payload claims. *)
Definition claimed_state (payload : dict) : dict :=
  filter (λ kv, kv.1 ∈ state_keys) payload.
Definition claims (payload : dict) (s : ServerState) : bool :=
  match field "status" payload, field "delivered_origins" payload with
  | JStr status, JArr origins =>
      bool_decide (status = ss_status s)
      && bool_decide (length origins = length (ss_delivered_origins s))
      && forallb (λ vo, match vo.1 with JStr t => bool_decide (t = vo.2) | _ => false end)
           (zip origins (ss_delivered_origins s))
  | _, _ => false
  end.
Definition state_ok (payload : dict) (results : list json) (truncated : bool) :
  outcome view_error bool :=
  match normalized (claimed_state payload) (as_objects results) truncated with
  | Return s => Return (claims payload s)
  | Raise (Invalid _) => Return false
  | Raise Unhashable => Raise Unhashable
  end.

Definition validate_evidence_view (v : json) : outcome view_error bool :=
  match v with
  | JObj payload =>
      let rich := has_exactly _PAYLOAD_FIELDS payload in
      if negb (has_exactly _LEGACY_PAYLOAD_FIELDS payload || rich)
         || negb (is_text "rag_view_v1" (field "evidence_format" payload)) then Return false
      else
        known ← in_texts (field "status" payload) _STATUSES;
        match field "truncated" payload, field "citation_instruction" payload,
              field "results" payload with
        | JBool truncated, JStr instruction, JArr results =>
            if negb (known : bool) || negb (is_text "UNTRUSTED" (field "trust" payload))
               || (10 <? length results)%nat
               || negb rich && negb (is_text "SUCCESS" (field "status" payload)) then Return false
            else match instruction_prefix instruction with
            | None => Return false
            | Some prefix =>
                valid ← valid_items prefix [] results;
                if negb valid then Return false
                else if rich then state_ok payload results truncated else Return true
            end
        | _, _, _ => Return false
        end
  | _ => Return false
  end.

(** ** Selection *)

Section Selection.
Context `{estimator : TokenEstimator}.

Definition _size (p : dict) : Z := Z.of_N (estimate (dump (JObj p))).

(** One item of each origin first, for a hybrid answer. *)
Definition reserved (server_state : option dict) (items : list dict) : list dict :=
  match server_state with
  | Some s => if is_text "HYBRID" (field "route" s)
              then omap (λ o, find (λ item : dict, is_text o (field "origin" item)) items)
                     ["WIKI_DERIVED"; "RAW"]%string
              else []
  | None => []
  end.
Definition ordered (server_state : option dict) (items : list dict) : list dict :=
  foldl (λ acc item, if existsb (λ other, same (JObj item) (JObj other)) acc then acc
                     else acc ++ [item])
    (reserved server_state items) items.

(** One step: the item is kept, or dropped with its reason. *)
Definition select_step (budget : Z) (instruction : list N) (max_items : nat)
    (server_state : option dict) (kd : list dict * list (list N)) (item : dict) :
  outcome view_error (list dict * list (list N)) :=
  let '(kept, dropped) := kd in
  if (max_items <=? length kept)%nat
  then Return (kept, dropped ++ [item_id item ++ lit ":count_limit"])
  else
    unmarked ← _payload (kept ++ [item]) instruction false server_state;
    marked ← _payload (kept ++ [item]) instruction true server_state;
    Return (if Z.max (_size unmarked) (_size marked) <=? budget then (kept ++ [item], dropped)
            else (kept, dropped ++ [item_id item ++ lit ":budget"])).

Definition _select (items : list dict) (budget : Z) (instruction : list N) (was_truncated : bool)
    (max_items : nat) (server_state : option dict) :
  outcome view_error (option dict * list (list N)) :=
  out ← fold_raise (λ kd item, select_step budget instruction max_items server_state kd item)
          (ordered server_state items) ([], []);
  result ← _payload out.1 instruction (was_truncated || negb (bool_decide (out.2 = []))) server_state;
  Return (if _size result <=? budget then Some result else None, out.2).

(** ** Assembly *)

Record Plan := {
  payload : dict;
  plan_registry : list (list N * json);
  plan_dropped : list (list N)
}.

Abbreviation Validator := (dict → option EnvelopeViolation).

(** A reference with exactly the four fields. *)
Definition ref_of (v : json) : option (MatchId * dict) :=
  match v with
  | JObj l => if has_exactly _REF_FIELDS l then reference_of v else None
  | _ => None
  end.
Fixpoint index_refs (shared : bool) (indexed : list (MatchId * dict)) (references : list json) :
  option (list (MatchId * dict)) :=
  match references with
  | [] => Some indexed
  | v :: rest =>
      kr ← ref_of v;
      if bool_decide (kr.1 ∈ indexed.*1)
      then if shared then index_refs shared indexed rest else None
      else index_refs shared (indexed ++ [kr]) rest
  end.

Definition agrees (record reference : dict) (k : string) : bool :=
  match dict_get (lit k) record, dict_get (lit k) reference with
  | Some (JStr a), Some (JStr b) => bool_decide (a = b)
  | _, _ => false
  end.
(** The condition on a candidate reference. *)
Definition sources (record reference : dict) : bool :=
  agrees record reference "chunk_id" && agrees record reference "document_revision_id"
  && (bool_decide (lit "snapshot_id" ∉ record.*1) || agrees record reference "snapshot_id")
  && (bool_decide (lit "knowledge_base_id" ∉ record.*1) || agrees record reference "knowledge_base_id").

(** The item shown for a record. *)
Definition read_item (identifier : list N) (record : dict) : option dict :=
  let item := (lit "id", JStr identifier)
              :: omap (λ k, pair k <$> dict_get k record) _ITEM_FIELDS in
  match dict_get (lit "locator") item with
  | None => Some item
  | Some (JObj l) => match model_evidence_locator l with
                     | Return r => Some (dict_set (lit "locator") (JObj r) item)
                     | Raise _ => None
                     end
  | Some _ => None
  end.

Definition entry (reference record : dict) : json :=
  JObj [(lit "reference", JObj reference); (lit "record", JObj record)].

Definition plan_one (validator : option Validator) (shared : bool) (prefix : list N)
    (indexed : list (MatchId * dict)) (seen : list MatchId) (ordinal : nat) (v : json) :
  option (MatchId * dict * (list N * json)) :=
  match v with
  | JObj record =>
      if match validator with Some f => bool_decide (is_Some (f record)) | None => false end then None
      else match filter (λ kr : MatchId * dict, sources record kr.2 = true) indexed with
      | [(m, reference)] =>
          if negb shared && bool_decide (m ∈ seen) then None
          else
            let identifier := prefix ++ dump_nat (N.of_nat ordinal) in
            item ← read_item identifier record;
            match valid_item item with
            | Return true => if compact record
                             then Some (m, item, (identifier, entry reference record)) else None
            | _ => None
            end
      | _ => None
      end
  | _ => None
  end.
Fixpoint plan_items (validator : option Validator) (shared : bool) (prefix : list N)
    (indexed : list (MatchId * dict)) (seen : list MatchId) (ordinal : nat) (records : list json) :
  option (list dict * list (list N * json) * list MatchId) :=
  match records with
  | [] => Some ([], [], seen)
  | v :: rest =>
      '(m, item, e) ← plan_one validator shared prefix indexed seen ordinal v;
      '(items, registry, seen) ← plan_items validator shared prefix indexed (seen ++ [m]) (S ordinal) rest;
      Some (item :: items, e :: registry, seen)
  end.

(** The part inside [try]. *)
Definition collect (validator : option Validator) (shared : bool) (prefix : list N)
    (records references : list json) : option (list dict * list (list N * json)) :=
  indexed ← index_refs shared [] references;
  '(items, registry, seen) ← plan_items validator shared prefix indexed [] 1 records;
  if shared || bool_decide (Forall (.∈ seen) indexed.*1 ∧ Forall (.∈ indexed.*1) seen)
  then Some (items, registry) else None.

Definition assemble_evidence_plan (records references : list json) (budget : Z)
    (citation_prefix : list N) (max_items : Z) (record_validator : option Validator)
    (allow_shared_references : bool) (server_state : option dict) :
  outcome view_error (option Plan) :=
  fail_if (budget <? 0) (Invalid "evidence budget must be a non-negative integer") ≫= λ _,
  fail_if (negb (prefix_ok citation_prefix && (1 <=? max_items) && (max_items <=? 10)))
    (Invalid "invalid evidence citation prefix or count") ≫= λ _,
  if (100 <? length records)%nat || negb (length records =? length references)%nat then Return None
  else match collect record_validator allow_shared_references citation_prefix records references with
  | None => Return None
  | Some (items, registry) =>
      out ← _select items budget (_instruction citation_prefix) false (Z.to_nat max_items) server_state;
      Return match out with
             | (None, _) => None
             | (Some p, dropped) =>
                 let selected := match field "results" p with
                                 | JArr results => item_id <$> as_objects results
                                 | _ => []
                                 end in
                 Some {| payload := p; plan_dropped := dropped;
                         plan_registry := filter (λ ke, ke.1 ∈ selected) registry |}
             end
  end.

Definition reproject_evidence_view (v : json) (budget : Z) : outcome view_error (option dict) :=
  fail_if (budget <? 0) (Invalid "evidence budget must be a non-negative integer") ≫= λ _,
  valid ← validate_evidence_view v;
  match (valid : bool), v with
  | true, JObj p =>
      match field "results" p, field "citation_instruction" p, field "truncated" p with
      | JArr results, JStr instruction, JBool truncated =>
          out ← _select (as_objects results) budget instruction truncated 10
                  (if has_exactly _PAYLOAD_FIELDS p then Some (claimed_state p) else None);
          Return out.1
      | _, _, _ => Return None
      end
  | _, _ => Return None
  end.
End Selection.
