(* ===== verification/EvidencePlanTheory.v ===== *)
(** * Evidence views: identifiers, items and states

    Lemmas shared by the theorems about evidence views: identifiers made from
    a citation prefix are recognised, an item of a record holds exactly its
    reading fields, and a normalised server state normalises to itself. *)

From stdpp Require Import base gmap list strings sorting.
From Stdlib Require Import ZArith NArith Lia.
From S2P Require Import Prelude.
From S2P Require Import Outcome.
From S2P Require Import Json.
From S2P Require Import JsonTheory.
From S2P Require Import TurnTranscript.
From S2P Require Import ContextMetadata.
From S2P Require Import JsonProjection.
From S2P Require Import ContextPolicyTheory.
From S2P Require Import JsonProjectionTheory.
From S2P Require Import JsonParser.
From S2P Require Import ContextBudget.
From S2P Require Import RagEvidence.
From S2P Require Import EvidenceRecords.
From S2P Require Import EvidencePlan.

Local Open Scope Z_scope.
Local Arguments lit : simpl never.

(** Closed decidable facts about the keys of the source. *)
Ltac by_keys := by (apply (bool_decide_unpack _); vm_compute; exact I).

(** Well-formedness of a concrete value, decided. *)
Fixpoint wf_check (v : json) : bool :=
  match v with
  | JFloat r => float_repr r
  | JArr l => forallb wf_check l
  | JObj l => bool_decide (NoDup l.*1) && forallb (λ kv, wf_check kv.2) l
  | _ => true
  end.
Lemma wf_check_sound v : wf_check v = true → json_wf v.
Proof.
  induction v as [| | | | |l IH|l IH] using json_ind'; try done.
  - cbn [wf_check]. rewrite json_wf_arr, !Forall_forall in *. rewrite forallb_forall.
    intros H x Hx. apply IH; [done|]. apply H. by apply list_elem_of_In.
  - cbn [wf_check]. rewrite andb_true_iff, bool_decide_eq_true, forallb_forall, json_wf_obj.
    intros [Hn H]. split; [done|]. rewrite !Forall_forall in *. intros x Hx.
    apply IH; [done|]. apply H. by apply list_elem_of_In.
Qed.

(** ** Filters *)

Lemma filter_full {A} (P : A → Prop) `{∀ x, Decision (P x)} (l : list A) :
  (∀ x, x ∈ l → P x) → filter P l = l.
Proof.
  induction l as [|x l IH]; intros Hp; [done|]. rewrite filter_cons_True by (apply Hp; by left).
  f_equal. apply IH. intros y Hy. apply Hp. by right.
Qed.
Lemma filter_empty {A} (P : A → Prop) `{∀ x, Decision (P x)} (l : list A) :
  (∀ x, x ∈ l → ¬ P x) → filter P l = [].
Proof.
  induction l as [|x l IH]; intros Hp; [done|]. rewrite filter_cons_False by (apply Hp; by left).
  apply IH. intros y Hy. apply Hp. by right.
Qed.

(** ** Identifiers *)

Lemma number_dump n : (0 < n)%N → number (dump_nat n) = true.
Proof.
  intros H0. pose proof (dump_nat_chars n) as Hc. destruct (dump_nat_first n H0) as (c & t & E & Hz & Hd).
  rewrite E in Hc |- *. cbn in Hc |- *. apply andb_true_iff in Hc as [_ ->].
  apply N.eqb_neq in Hz. by rewrite Hz, Hd.
Qed.

Lemma dump_nat_inj n m : dump_nat n = dump_nat m → n = m.
Proof. intros H. by rewrite <- (dump_nat_read n), <- (dump_nat_read m), H. Qed.

Lemma prefix_ok_length p : prefix_ok p = true → (length p ≤ 32)%nat.
Proof.
  destruct p as [|c r]; cbn; [lia|]. rewrite !andb_true_iff, Nat.leb_le. lia.
Qed.

Lemma ID_app p d : prefix_ok p = true → number d = true → _ID (p ++ d) = true.
Proof.
  intros Hp Hd. apply existsb_exists. exists (length p). split.
  - apply in_seq. pose proof (prefix_ok_length p Hp). lia.
  - by rewrite take_app_length, drop_app_length, Hp, Hd.
Qed.

Lemma instruction_prefix_of p : prefix_ok p = true → instruction_prefix (_instruction p) = Some p.
Proof.
  intros Hp. unfold instruction_prefix.
  assert (take (length (_instruction p) - length instruction_head - length instruction_tail)
            (drop (length instruction_head) (_instruction p)) = p) as ->.
  { unfold _instruction. rewrite drop_app_length, !length_app.
    replace (_ + (_ + _) - _ - _)%nat with (length p) by lia. apply take_app_length. }
  by rewrite bool_decide_eq_true_2, Hp.
Qed.

(** ** Dictionaries *)

Lemma field_of k l v : dict_get (lit k) l = Some v → field k l = v.
Proof. intros H. unfold field. by rewrite H. Qed.

Lemma dict_get_in k l : k ∈ l.*1 → is_Some (dict_get k l).
Proof.
  intros H. destruct (dict_get k l) eqn:E; [done|]. by apply dict_get_None in E.
Qed.

Lemma dict_get_pair k v l : dict_get k l = Some v → (k, v) ∈ l.
Proof.
  unfold dict_get. destruct (find _ l) as [[k' v']|] eqn:E; [|done]. intros [= ->].
  apply find_some in E as [Hin%list_elem_of_In Hk]. apply bool_decide_eq_true in Hk.
  cbn in Hk. by subst.
Qed.

Lemma elem_dict_get k v l : NoDup l.*1 → (k, v) ∈ l → dict_get k l = Some v.
Proof.
  induction l as [|[k' v'] l IH]; intros Hnd Hin; [by apply not_elem_of_nil in Hin|].
  rewrite dict_get_cons. apply NoDup_cons in Hnd as [Hn Hnd]. cbn in Hn.
  apply elem_of_cons in Hin as [[= <- <-]|Hin]; [by rewrite decide_True|].
  rewrite decide_False; [by apply IH|]. intros ->. apply Hn. apply list_elem_of_fmap. by exists (k, v).
Qed.

Lemma dict_set_keys k v l : k ∈ l.*1 → (dict_set k v l).*1 = l.*1.
Proof.
  induction l as [|[k' w] l IH]; cbn; [by intros ?%not_elem_of_nil|].
  case_bool_decide as E; cbn; [by subst|]. intros [->|Hin]%elem_of_cons; [done|]. by rewrite IH.
Qed.

(** The reading fields of a record, in the order of [keys]. *)
Lemma pick_keys keys (record : dict) :
  (omap (λ k, pair k <$> dict_get k record) keys).*1 = filter (λ k, is_Some (dict_get k record)) keys.
Proof.
  induction keys as [|k keys IH]; [done|]. rewrite filter_cons. cbn [omap list_omap].
  destruct (dict_get k record) as [v|]; cbn [fmap option_fmap option_map].
  - rewrite decide_True by done. cbn [fmap list_fmap fst]. by rewrite <- IH.
  - rewrite decide_False by (by intros [? [=]]). exact IH.
Qed.

Lemma pick_get keys (record : dict) k :
  NoDup keys → k ∈ keys →
  dict_get k (omap (λ k, pair k <$> dict_get k record) keys) = dict_get k record.
Proof.
  intros Hnd Hk. destruct (dict_get k record) as [v|] eqn:E.
  - apply elem_dict_get.
    + rewrite pick_keys. by apply NoDup_filter.
    + apply list_elem_of_omap. exists k. by rewrite E.
  - apply dict_get_None. rewrite pick_keys. rewrite list_elem_of_filter, E. by intros [[? [=]] _].
Qed.

(** ** Items *)

(** The item without its identifier. *)
Definition reading (record : dict) : option dict :=
  let picked := omap (λ k, pair k <$> dict_get k record) _ITEM_FIELDS in
  match dict_get (lit "locator") picked with
  | None => Some picked
  | Some (JObj l) => match model_evidence_locator l with
                     | Return r => Some (dict_set (lit "locator") (JObj r) picked)
                     | Raise _ => None
                     end
  | Some _ => None
  end.

Lemma get_beside k i (l : dict) :
  k ≠ lit "id" → dict_get k ((lit "id", JStr i) :: l) = dict_get k l.
Proof. intros Hk. rewrite dict_get_cons, decide_False; done. Qed.

Lemma read_item_cons i record :
  read_item i record = cons (lit "id", JStr i) <$> reading record.
Proof.
  unfold read_item, reading. rewrite get_beside by by_keys.
  destruct (dict_get _ _) as [[| | | | | |l]|]; try done.
  destruct (model_evidence_locator l); done.
Qed.

Lemma item_fields_nodup : NoDup _ITEM_FIELDS.
Proof. by_keys. Qed.

Lemma reading_keys record rest : reading record = Some rest →
  rest.*1 = filter (λ k, is_Some (dict_get k record)) _ITEM_FIELDS.
Proof.
  unfold reading. rewrite <- pick_keys.
  destruct (dict_get _ _) as [[| | | | | |l]|] eqn:E; try done.
  - destruct (model_evidence_locator l); [|done]. intros [= <-]. apply dict_set_keys.
    apply dict_get_pair in E. apply list_elem_of_fmap. by exists (lit "locator", JObj l).
  - by intros [= <-].
Qed.

Lemma reading_nodup i record rest : reading record = Some rest → NoDup ((lit "id", JStr i) :: rest).*1.
Proof.
  intros H. cbn. rewrite (reading_keys _ _ H). constructor.
  - rewrite list_elem_of_filter. intros [_ Hin]. revert Hin. by_keys.
  - apply NoDup_filter, item_fields_nodup.
Qed.

Lemma locator_positions value ks r r0 :
  fold_raise (λ r k, take_position value r k) ks r0 = Return r →
  Forall (λ kv, ∃ z, kv.2 = JInt z) r0 → Forall (λ kv, ∃ z, kv.2 = JInt z) r.
Proof.
  revert r0. induction ks as [|k ks IH]; intros r0; cbn [fold_raise]; [by intros [= <-]|].
  unfold take_position at 1. destruct (dict_get k value) as [[| |z| | | |]|]; try done; [|by apply IH].
  destruct (z <? 0); [done|]. intros H Hr. apply (IH _ H). apply Forall_app_2; [done|].
  by constructor; [eexists|].
Qed.

Lemma locator_keys value ks r r0 :
  fold_raise (λ r k, take_position value r k) ks r0 = Return r →
  r.*1 = r0.*1 ++ filter (λ k, is_Some (dict_get k value)) ks.
Proof.
  revert r0. induction ks as [|k ks IH]; intros r0; cbn [fold_raise].
  { intros [= <-]. by rewrite app_nil_r. }
  rewrite filter_cons. unfold take_position at 1.
  destruct (dict_get k value) as [[| |z| | | |]|]; try done.
  - destruct (z <? 0); [done|]. intros H%IH. rewrite H, fmap_app, <- app_assoc, decide_True; done.
  - intros H%IH. rewrite decide_False; [done|by intros [? [=]]].
Qed.

(** A projected locator has distinct keys and plain values. *)
Lemma locator_wf value r : model_evidence_locator value = Return r → json_wf (JObj r).
Proof.
  unfold model_evidence_locator. intros H. apply obind_inv in H as (r0 & H0 & H).
  pose proof (locator_positions _ _ _ _ H0 (Forall_nil_2 _)) as Hp.
  pose proof (locator_keys _ _ _ _ H0) as Hk. cbn [fmap list_fmap app] in Hk.
  assert (NoDup r0.*1) as Hnd.
  { rewrite Hk. apply NoDup_filter. by_keys. }
  assert (Forall (λ kv : list N * json, json_wf kv.2) r0) as Hw
    by (eapply Forall_impl; [exact Hp|]; by intros ? [? ->]).
  destruct (dict_get (lit "type") value) as [t|]; [|injection H as <-; by apply json_wf_obj].
  apply obind_inv in H as ([] & Ht & H); [|done]. injection H as <-. apply json_wf_obj.
  rewrite fmap_app. split.
  - apply NoDup_app. split; [done|]. split; [|apply NoDup_singleton].
    intros k Hin ->%list_elem_of_singleton. rewrite Hk, list_elem_of_filter in Hin.
    destruct Hin as [_ Hin]. revert Hin. by_keys.
  - apply Forall_app_2; [done|]. constructor; [|done]. cbn. destruct t; try done.
Qed.

Lemma reading_wf i record rest :
  json_wf (JObj record) → reading record = Some rest → json_wf (JObj ((lit "id", JStr i) :: rest)).
Proof.
  intros Hr H. apply json_wf_obj. split; [by eapply reading_nodup|].
  constructor; [done|]. revert H. unfold reading.
  assert (Forall (λ kv : list N * json, json_wf kv.2)
            (omap (λ k, pair k <$> dict_get k record) _ITEM_FIELDS)) as Hp.
  { apply Forall_forall. intros [k v] (k' & _ & Hv)%list_elem_of_omap.
    destruct (dict_get k' record) as [v'|] eqn:E; [|done]. injection Hv as <- <-.
    apply dict_get_pair in E. apply json_wf_obj in Hr as [_ Hr].
    rewrite Forall_forall in Hr. exact (Hr _ E). }
  revert Hp. generalize (omap (λ k, pair k <$> dict_get k record) _ITEM_FIELDS) as picked.
  intros picked Hp. destruct (dict_get _ _) as [[| | | | | |l]|]; try done; [|by intros [= <-]].
  destruct (model_evidence_locator l) as [r|] eqn:El; [|done]. intros [= <-].
  induction Hp as [|[k w] p Hw Hp IH]; cbn.
  - constructor; [by eapply locator_wf|done].
  - case_bool_decide; constructor; try done. by eapply locator_wf.
Qed.

Lemma item_id_cons i rest : item_id ((lit "id", JStr i) :: rest) = i.
Proof. unfold item_id, field. rewrite dict_get_cons, decide_True; done. Qed.

Lemma read_item_id i record item : read_item i record = Some item → item_id item = i.
Proof.
  rewrite read_item_cons. intros (rest & _ & ->)%fmap_Some. apply item_id_cons.
Qed.

Lemma read_item_wf i record item :
  json_wf (JObj record) → read_item i record = Some item → json_wf (JObj item).
Proof.
  intros Hw. rewrite read_item_cons. intros (rest & Hr & ->)%fmap_Some. by eapply reading_wf.
Qed.

Lemma field_beside k i rest :
  lit k ≠ lit "id" → field k ((lit "id", JStr i) :: rest) = field k rest.
Proof. intros Hk. unfold field. by rewrite get_beside. Qed.

(** Another identifier leaves an item valid. *)
Lemma valid_item_id i j rest :
  _ID i = true → _ID j = true →
  valid_item ((lit "id", JStr i) :: rest) = valid_item ((lit "id", JStr j) :: rest).
Proof.
  intros Hi Hj. unfold valid_item, item_head, item_rest, compact.
  rewrite !canonical_json_dump. cbn [all_finite forallb fmap list_fmap fst snd].
  rewrite !(get_beside (lit "snippet")), !(get_beside (lit "origin")),
    !(get_beside (lit "document_name")), !(get_beside (lit "effective_date")),
    !(get_beside (lit "superseded")), !(get_beside (lit "conflict")),
    !(get_beside (lit "locator")), !(field_beside "origin"), !(field_beside "wiki_page_id") by by_keys.
  rewrite !dict_get_cons, !decide_True, Hi, Hj by done.
  destruct (forallb (λ x : list N * json, all_finite x.2) rest); done.
Qed.

(** ** Server state *)

(** What a normalised state says about the items it describes. *)
Record state_wf (items : list dict) (truncated : bool) (s : ServerState) : Prop := {
  sw_route : ss_route s ∈ _ROUTES;
  sw_conflicts : 0 ≤ ss_conflict_count s;
  sw_reason : ∀ r, ss_degraded_reason s = Some r → py_strip r ≠ [];
  sw_delivered : ss_delivered_origins s = delivered items;
  sw_partial : ss_route s = lit "HYBRID" → delivered items ≠ EvidenceOrigin → ss_degraded s = true;
  sw_truncated : truncated = true → ss_degraded s = true;
  sw_status : ss_status s = status_of (ss_conflict_count s)
      (ss_insufficient_evidence s || ss_supplemental_required s) (ss_degraded s)
}.

Lemma degrade_on cond text dr : cond = true → (degrade cond text dr).1 = true.
Proof. intros ->. unfold degrade. destruct dr as [[] r]; done. Qed.
Lemma degrade_stays cond text dr : (cond = true → dr.1 = true) → degrade cond text dr = dr.
Proof. intros E. unfold degrade. destruct cond; [by rewrite E, andb_false_r|done]. Qed.
Lemma degrade_reason cond text dr r :
  py_strip (lit text) ≠ [] → (∀ r, dr.2 = Some r → py_strip r ≠ []) →
  (degrade cond text dr).2 = Some r → py_strip r ≠ [].
Proof.
  intros Ht Hd. unfold degrade. destruct (cond && negb dr.1); [|by apply Hd]. cbn.
  intros [= <-]. destruct dr.2 as [r'|] eqn:E; [by apply Hd|done].
Qed.

Lemma infer_route_ok items : _infer_route items ∈ _ROUTES.
Proof.
  unfold _infer_route. destruct (has_origin _ _); [destruct (has_origin _ _)|]; by_keys.
Qed.

Lemma normalized_wf value items truncated s :
  normalized value items truncated = Return s → state_wf items truncated s.
Proof.
  unfold normalized. intros H. apply obind_inv in H as (_ & _ & H).
  apply obind_inv in H as (route & Hroute%or_raise_inv & H).
  apply obind_inv in H as (lacking & _ & H).
  apply obind_inv in H as (conflicts & Hc%or_raise_inv & H).
  apply obind_inv in H as (given & Hg%or_raise_inv & H). injection H as <-.
  assert (∀ r, given.2 = Some r → py_strip r ≠ []) as Hr.
  { apply bind_Some in Hg as (d & _ & Hg). destruct (field "degraded_reason" value); try done.
    - by injection Hg as <-.
    - case_bool_decide; [done|]. injection Hg as <-. by intros r [= <-]. }
  split; cbn; try done.
  - destruct (dict_get (lit "route") value) as [[| | | |t| |]|]; try done.
    + case_bool_decide; [|done]. by injection Hroute as <-.
    + injection Hroute as <-. apply infer_route_ok.
  - destruct (dict_get (lit "conflict_count") value) as [[| |z| | | |]|]; try done.
    + destruct (Z.ltb_spec z 0); [done|]. by injection Hc as <-.
    + by injection Hc as <-.
  - intros r. apply degrade_reason; [by_keys|]. intros r'. apply degrade_reason; [by_keys|exact Hr].
  - intros Hh Hd. rewrite degrade_stays; intros; apply degrade_on;
      by rewrite bool_decide_eq_true_2, bool_decide_eq_false_2.
  - intros ->. by apply degrade_on.
Qed.

(** The fields of a state that a caller supplies. *)
Definition supplied (s : ServerState) : dict := take 6 (state_fields s).

Lemma normalized_again items truncated s :
  state_wf items truncated s → normalized (supplied s) items truncated = Return s.
Proof.
  intros [Hroute Hc Hr Hd Hp Ht Hs]. unfold normalized.
  change (forallb _ (supplied s).*1) with true.
  change (dict_get (lit "route") (supplied s)) with (Some (JStr (ss_route s))).
  change (bool_key "insufficient_evidence" (supplied s)) with (Some (ss_insufficient_evidence s)).
  change (bool_key "supplemental_required" (supplied s)) with (Some (ss_supplemental_required s)).
  change (dict_get (lit "conflict_count") (supplied s)) with (Some (JInt (ss_conflict_count s))).
  change (bool_key "degraded" (supplied s)) with (Some (ss_degraded s)).
  change (field "degraded_reason" (supplied s)) with (opt_text (ss_degraded_reason s)).
  cbv iota. rewrite (bool_decide_eq_true_2 (ss_route s ∈ _ROUTES)) by done.
  cbn [negb fail_if mbind outcome_bind option_bind or_raise fst snd].
  rewrite (proj2 (Z.ltb_ge _ _) Hc). cbn [outcome_bind or_raise].
  assert (match opt_text (ss_degraded_reason s) with
          | JNull => Some (ss_degraded s, None)
          | JStr t => if bool_decide (py_strip t = []) then None else Some (ss_degraded s, Some t)
          | _ => None
          end = Some (ss_degraded s, ss_degraded_reason s)) as ->.
  { destruct (ss_degraded_reason s) as [r|]; [|done]. cbn.
    by rewrite bool_decide_eq_false_2 by (by apply Hr). }
  cbn [mbind outcome_bind or_raise]. rewrite !(degrade_stays _ _ (ss_degraded s, _)).
  - cbn [fst snd]. rewrite <- Hd, <- Hs. by destruct s.
  - done.
  - rewrite andb_true_iff, negb_true_iff, bool_decide_eq_true, bool_decide_eq_false.
    intros [??]. by apply Hp.
Qed.

(** ** A view made of valid items is valid *)

(** Items that may stand together under a citation prefix. *)
Definition citable (prefix : list N) (items : list dict) : Prop :=
  NoDup (item_id <$> items) ∧
  Forall (λ item, valid_item item = Return true ∧
                  ∃ d, number d = true ∧ item_id item = prefix ++ d) items.

Lemma valid_items_ok prefix items seen :
  citable prefix items → (∀ item, item ∈ items → item_id item ∉ seen) →
  valid_items prefix seen (JObj <$> items) = Return true.
Proof.
  revert seen. induction items as [|item items IH]; intros seen [Hnd Hall] Hs; [done|].
  cbn [fmap list_fmap valid_items _valid_item]. cbn in Hnd.
  apply NoDup_cons in Hnd as [Hn Hnd]. apply Forall_cons in Hall as [(Hv & d & Hd & Hi) Hall].
  rewrite Hv. cbn [mbind outcome_bind]. rewrite bool_decide_eq_false_2 by (apply Hs; by left).
  rewrite bool_decide_eq_true_2 by (rewrite Hi; by exists d).
  replace (number _) with true by (by rewrite Hi, drop_app_length). cbn. apply IH; [done|].
  intros it Hin. rewrite not_elem_of_cons. split; [|apply Hs; by right].
  intros E. apply Hn. rewrite <- E. by apply list_elem_of_fmap_2.
Qed.

Lemma status_of_known c l d : status_of c l d ∈ _STATUSES.
Proof. unfold status_of. destruct (negb _), l, d; by_keys. Qed.

Lemma as_objects_of (l : list dict) : as_objects (JObj <$> l) = l.
Proof. induction l; cbn; [done|]. by f_equal. Qed.

Lemma claims_itself items instruction truncated s :
  claims (base_view items instruction truncated (ss_status s) ++ state_fields s) s = true.
Proof.
  unfold claims.
  change (field "status" _) with (JStr (ss_status s)).
  change (field "delivered_origins" _) with (JArr (JStr <$> ss_delivered_origins s)).
  cbv iota. rewrite !bool_decide_eq_true_2 by (by rewrite ?length_fmap). cbn [andb].
  induction (ss_delivered_origins s) as [|o l IH]; [done|]. cbn. by rewrite bool_decide_eq_true_2, IH.
Qed.

Lemma view_valid prefix items truncated server_state p :
  prefix_ok prefix = true → citable prefix items → (length items ≤ 10)%nat →
  _payload items (_instruction prefix) truncated server_state = Return p →
  validate_evidence_view (JObj p) = Return true.
Proof.
  intros Hp Hc Hlen H. unfold _payload in H. apply obind_inv in H as (st & Hst & H).
  assert (length (JObj <$> items) <= 10)%nat as Hl by (by rewrite length_fmap).
  assert (valid_items prefix [] (JObj <$> items) = Return true) as Hv.
  { apply valid_items_ok; [done|]. intros ? _. apply not_elem_of_nil. }
  destruct server_state as [value|]; cbn [_normalized_server_state] in Hst.
  - apply ofmap_inv in Hst as (s & Hs%normalized_wf & ->). injection H as <-.
    unfold validate_evidence_view.
    change (has_exactly _PAYLOAD_FIELDS _) with true.
    change (is_text "rag_view_v1" _) with true.
    change (field "status" _) with (JStr (ss_status s)).
    change (is_text "UNTRUSTED" _) with true.
    change (field "truncated" _) with (JBool truncated).
    change (field "citation_instruction" _) with (JStr (_instruction prefix)).
    change (field "results" _) with (JArr (JObj <$> items)).
    rewrite orb_true_r. cbn [negb orb in_texts mbind outcome_bind].
    rewrite bool_decide_eq_true_2 by (rewrite (sw_status _ _ _ Hs); apply status_of_known).
    rewrite (proj2 (Nat.ltb_ge _ _) Hl), instruction_prefix_of, Hv by done.
    cbn [negb orb andb mbind outcome_bind]. unfold state_ok.
    change (claimed_state _) with (supplied s).
    rewrite as_objects_of, normalized_again by done. f_equal. exact (claims_itself items _ truncated s).
  - injection Hst as <-. injection H as <-. unfold validate_evidence_view.
    change (has_exactly _PAYLOAD_FIELDS _) with false.
    change (has_exactly _LEGACY_PAYLOAD_FIELDS _) with true.
    change (is_text "rag_view_v1" _) with true.
    change (field "status" _) with (JStr (lit "SUCCESS")).
    change (is_text "UNTRUSTED" _) with true. change (is_text "SUCCESS" _) with true.
    change (field "truncated" _) with (JBool truncated).
    change (field "citation_instruction" _) with (JStr (_instruction prefix)).
    change (field "results" _) with (JArr (JObj <$> items)).
    change (in_texts (JStr (lit "SUCCESS")) _STATUSES) with (Return (E := view_error) true).
    cbn [negb orb andb mbind outcome_bind].
    rewrite (proj2 (Nat.ltb_ge _ _) Hl), instruction_prefix_of, Hv by done. done.
Qed.

(** Conversely, a valid view is made of citable items. *)
Lemma valid_items_inv prefix seen results :
  valid_items prefix seen results = Return true →
  ∃ items, results = JObj <$> items ∧ citable prefix items ∧
    ∀ item, item ∈ items → item_id item ∉ seen.
Proof.
  revert seen. induction results as [|v rest IH]; intros seen; cbn [valid_items].
  { intros _. exists []. split; [done|]. split; [split; constructor|].
    by intros ? ?%not_elem_of_nil. }
  intros H. apply obind_inv in H as (b & Hv & H). destruct v as [| | | | | |item]; try done.
  destruct (_ && _) eqn:E; [|done]. rewrite !andb_true_iff, negb_true_iff, bool_decide_eq_false,
    bool_decide_eq_true in E. destruct E as [[[-> Hs] [d Hd]] Hn].
  destruct (IH _ H) as (items & -> & [Hnd Hall] & Hi). exists (item :: items). split; [done|].
  rewrite Hd, drop_app_length in Hn. split; [split|].
  - cbn. constructor; [|done]. intros (it & E & Hin)%list_elem_of_fmap.
    apply (Hi it Hin). rewrite <- E. by left.
  - constructor; [|done]. split; [done|]. by exists d.
  - intros it [->|Hin]%elem_of_cons; [done|]. specialize (Hi it Hin). set_solver.
Qed.

Lemma instruction_prefix_inv s prefix :
  instruction_prefix s = Some prefix → s = _instruction prefix ∧ prefix_ok prefix = true.
Proof.
  unfold instruction_prefix. destruct (_ && _) eqn:E; [|done]. intros [= <-].
  by apply andb_true_iff in E as [?%bool_decide_eq_true ?].
Qed.

Lemma view_validated v :
  validate_evidence_view v = Return true →
  ∃ p prefix items truncated, v = JObj p ∧ prefix_ok prefix = true ∧ citable prefix items ∧
    (length items ≤ 10)%nat ∧ field "results" p = JArr (JObj <$> items) ∧
    field "citation_instruction" p = JStr (_instruction prefix) ∧ field "truncated" p = JBool truncated.
Proof.
  unfold validate_evidence_view. destruct v as [| | | | | |p]; try done.
  destruct (_ || _); [done|]. intros H. apply obind_inv in H as (known & _ & H).
  destruct (field "truncated" p) as [|t| | | | |] eqn:Ft; try done.
  destruct (field "citation_instruction" p) as [| | | |i| |] eqn:Fi; try done.
  destruct (field "results" p) as [| | | | |results|] eqn:Fr; try done.
  destruct (_ || _) eqn:E; [done|]. destruct (instruction_prefix i) as [prefix|] eqn:Hi; [|done].
  apply instruction_prefix_inv in Hi as [-> Hp]. apply obind_inv in H as ([] & Hv & H); [|done].
  destruct (valid_items_inv _ _ _ Hv) as (items & -> & Hc & _).
  rewrite !orb_false_iff, Nat.ltb_ge, length_fmap in E.
  destruct E as [[_ E] _]. by exists p, prefix, items, t.
Qed.

(** ** Order of selection *)

Lemma valid_item_parts item :
  valid_item item = Return true →
  (∃ i, dict_get (lit "id") item = Some (JStr i) ∧ item_id item = i) ∧ compact item = true.
Proof.
  unfold valid_item. destruct (item_head item) eqn:Hh; [|done]. cbn [negb]. intros Hv. split.
  - unfold item_head in Hh. rewrite !andb_true_iff in Hh. destruct Hh as [[_ Hi] _].
    unfold item_id, field. destruct (dict_get (lit "id") item) as [[| | | |i| |]|]; try done. by exists i.
  - assert (item_rest item = true) as Hr.
    { destruct (dict_get (lit "origin") item) as [o|]; [|by injection Hv].
      apply obind_inv in Hv as (b & _ & Hv). injection Hv as Hv.
      by apply andb_true_iff in Hv as [_ Hv]. }
    unfold item_rest in Hr. by apply andb_true_iff in Hr as [_ Hr].
Qed.

(** Valid items that compare equal carry the same identifier. *)
Lemma same_id a b :
  json_wf (JObj a) → json_wf (JObj b) → valid_item a = Return true → valid_item b = Return true →
  same (JObj a) (JObj b) = true → item_id a = item_id b.
Proof.
  intros Ha Hb Va Vb Hs. apply bool_decide_eq_true in Hs.
  apply valid_item_parts in Va as [(i & Hi & ->) Ca], Vb as [(j & Hj & ->) Cb].
  unfold compact in Ca, Cb. rewrite canonical_json_dump in Hs, Ca, Cb. rewrite canonical_json_dump in Hs.
  destruct (all_finite (JObj a)); [|done]. destruct (all_finite (JObj b)); [|done].
  apply (inj Some), dump_eq_iff in Hs; [|done..].
  destruct (sort_json_member _ _ (lit "id") (JStr i) Hs) as (x & Hin & Hx); [by apply dict_get_pair|].
  apply json_wf_obj in Hb as [Hb _]. apply (elem_dict_get _ _ _ Hb) in Hin.
  rewrite Hj in Hin. injection Hin as <-. by injection Hx.
Qed.

(** Items that can be told apart. *)
Definition distinct (items : list dict) : Prop :=
  NoDup (item_id <$> items) ∧
  Forall (λ item, json_wf (JObj item) ∧ valid_item item = Return true) items.

Lemma distinct_same items a b :
  distinct items → a ∈ items → b ∈ items → same (JObj a) (JObj b) = true → a = b.
Proof.
  intros [Hnd Hall] Ha Hb Hs. rewrite Forall_forall in Hall.
  destruct (Hall a Ha) as [Wa Va], (Hall b Hb) as [Wb Vb].
  pose proof (same_id a b Wa Wb Va Vb Hs) as Hi.
  apply list_elem_of_lookup in Ha as [i Ha], Hb as [j Hb].
  assert (i = j) as ->; [|congruence].
  eapply NoDup_lookup; [exact Hnd|..]; rewrite list_lookup_fmap; [by rewrite Ha|by rewrite Hb, Hi].
Qed.

Lemma reserved_ok st items :
  (∀ item, item ∈ reserved st items → item ∈ items) ∧ NoDup (reserved st items).
Proof.
  assert (∀ o item, find (λ item : dict, is_text o (field "origin" item)) items = Some item →
    item ∈ items ∧ is_text o (field "origin" item) = true) as Hf.
  { intros o item [Hin%list_elem_of_In Ho]%find_some. done. }
  unfold reserved. destruct st as [s|]; [|split; [by intros ? ?%not_elem_of_nil|constructor]].
  destruct (is_text "HYBRID" _); [|split; [by intros ? ?%not_elem_of_nil|constructor]].
  cbn. destruct (find (λ item : dict, is_text "WIKI_DERIVED" (field "origin" item)) items) as [a|] eqn:Ea;
    destruct (find (λ item : dict, is_text "RAW" (field "origin" item)) items) as [b|] eqn:Eb;
    repeat match goal with H : find _ _ = Some _ |- _ => apply Hf in H as [??] end;
    (split; [set_solver|]);
    repeat constructor; rewrite ?list_elem_of_singleton; try by apply not_elem_of_nil.
  intros <-. destruct (field "origin" a); try done. cbn in *.
  rewrite !bool_decide_eq_true in *. subst. done.
Qed.

Lemma ordered_perm st items : distinct items → ordered st items ≡ₚ items.
Proof.
  intros Hd. destruct (reserved_ok st items) as [Hsub Hnd]. unfold ordered.
  assert (NoDup items) as Hni by (destruct Hd as [H _]; by apply NoDup_fmap_1 in H).
  enough (∀ l acc, (∀ x, x ∈ acc → x ∈ items) → (∀ x, x ∈ l → x ∈ items) → NoDup acc →
    let out := foldl (λ acc item, if existsb (λ other, same (JObj item) (JObj other)) acc then acc
                                  else acc ++ [item]) acc l in
    NoDup out ∧ ∀ x, x ∈ out ↔ x ∈ acc ∨ x ∈ l) as H.
  { destruct (H items (reserved st items)) as [Hn Ho]; [done..|].
    apply NoDup_Permutation; [done..|]. intros x. rewrite Ho. naive_solver. }
  clear Hsub Hnd. induction l as [|item l IH]; intros acc Ha Hl Hn; cbn [foldl].
  { split; [done|]. set_solver. }
  destruct (existsb _ acc) eqn:E.
  - apply existsb_exists in E as (b & Hb%list_elem_of_In & Hs).
    apply (distinct_same items) in Hs as ->; [|done|apply Hl; by left|by apply Ha].
    destruct (IH acc) as [H1 H2]; [done|set_solver|done|]. split; [done|]. set_solver.
  - destruct (IH (acc ++ [item])) as [H1 H2]; [set_solver|set_solver| |split; [done|set_solver]].
    apply NoDup_app. split; [done|]. split; [|apply NoDup_singleton].
    intros x Hx ->%list_elem_of_singleton. rewrite <- not_true_iff_false in E. apply E.
    apply existsb_exists. exists item. split; [by apply list_elem_of_In|]. by apply bool_decide_eq_true.
Qed.

(** ** Selection within the budget *)

Section Selection.
Context `{estimator : TokenEstimator}.

Lemma select_spec items budget instruction was_truncated max_items st result dropped :
  _select items budget instruction was_truncated max_items st = Return (Some result, dropped) →
  ∃ kept, kept `sublist_of` ordered st items ∧ (length kept ≤ max_items)%nat ∧
    (dropped = [] → kept = ordered st items) ∧ _size result ≤ budget ∧
    _payload kept instruction (was_truncated || negb (bool_decide (dropped = []))) st = Return result.
Proof.
  unfold _select. intros H. apply obind_inv in H as ([kept dropped'] & Hf & H). cbn [fst snd] in H.
  apply obind_inv in H as (p & Hp & H). injection H as Hs Hd. subst dropped'.
  destruct (Z.leb_spec (_size p) budget) as [Hb|]; [|done]. injection Hs as ->.
  exists kept. cut (kept `sublist_of` ordered st items ∧ (length kept ≤ max_items)%nat ∧
                    (dropped = [] → kept = ordered st items)); [naive_solver|].
  revert Hf. generalize (ordered st items). intros order Hf.
  refine (fold_raise_inv _ (λ dn kd, kd.1 `sublist_of` dn ∧ (length kd.1 ≤ max_items)%nat ∧
            (kd.2 = [] → kd.1 = dn)) _ _ _ _ _ Hf); [split; [done|]; split; [cbn; lia|done]|].
  clear. intros dn item [k d] [k' d'] (Hsub & Hlen & Hall) _ H. cbn [fst snd] in *. unfold select_step in H.
  destruct (Nat.leb_spec max_items (length k)) as [|Hlt].
  { injection H as <- <-. split; [by apply sublist_inserts_r|]. split; [done|].
    by intros [_ [=]]%app_eq_nil. }
  apply obind_inv in H as (u & _ & H). apply obind_inv in H as (m & _ & H). injection H as H.
  destruct (_ <=? budget); injection H as <- <-.
  - split; [by apply sublist_app|]. rewrite length_app. cbn. split; [lia|]. intros Hd. by rewrite Hall.
  - split; [by apply sublist_inserts_r|]. split; [done|]. by intros [_ [=]]%app_eq_nil.
Qed.

(** ** Collecting the items *)

(** A record with its reference, its identifier and its item. *)
Record Shown := {
  sh_id : list N;
  sh_record : dict;
  sh_reference : dict;
  sh_item : dict
}.
Definition sh_entry (p : Shown) : list N * json := (sh_id p, entry (sh_reference p) (sh_record p)).

Record shown_ok (validator : option (dict → option EnvelopeViolation)) (references : list json)
    (p : Shown) : Prop := {
  so_item : read_item (sh_id p) (sh_record p) = Some (sh_item p);
  so_valid : valid_item (sh_item p) = Return true;
  so_compact : compact (sh_record p) = true;
  so_sources : sources (sh_record p) (sh_reference p) = true;
  so_given : JObj (sh_reference p) ∈ references;
  so_ref : ∃ m, ref_of (JObj (sh_reference p)) = Some (m, sh_reference p);
  so_envelope : ∀ f, validator = Some f → f (sh_record p) = None
}.

Lemma ref_of_Some v m l : ref_of v = Some (m, l) → v = JObj l.
Proof.
  unfold ref_of. destruct v as [| | | | | |l']; try done. destruct (has_exactly _ _); [|done].
  unfold reference_of. intros H. apply bind_Some in H as (_ & _ & H). destruct (compact l'); [|done].
  apply bind_Some in H as (? & _ & H). apply bind_Some in H as (? & _ & H).
  apply bind_Some in H as (? & _ & H). apply (inj Some) in H. congruence.
Qed.

Lemma index_refs_given shared indexed references out m l :
  index_refs shared indexed references = Some out → (m, l) ∈ out →
  (m, l) ∈ indexed ∨ JObj l ∈ references ∧ ref_of (JObj l) = Some (m, l).
Proof.
  revert indexed. induction references as [|v rest IH]; intros indexed; cbn [index_refs].
  { intros [= <-]. by left. }
  intros H Hin. apply bind_Some in H as ([m' l'] & Hv & H).
  pose proof (ref_of_Some _ _ _ Hv) as ->.
  assert (index_refs shared indexed rest = Some out ∨
          index_refs shared (indexed ++ [(m', l')]) rest = Some out) as [Hr|Hr].
  { destruct (bool_decide _); [|by right]. destruct shared; [by left|done]. }
  - destruct (IH _ Hr Hin) as [|[??]]; [by left|]. right. split; [by right|done].
  - destruct (IH _ Hr Hin) as [[|[= -> ->]%list_elem_of_singleton]%elem_of_app|[??]]; [by left| |].
    + right. split; [by left|done].
    + right. split; [by right|done].
Qed.

Lemma plan_items_spec validator shared prefix indexed references seen ordinal records items registry seen' :
  (∀ m l, (m, l) ∈ indexed → JObj l ∈ references ∧ ref_of (JObj l) = Some (m, l)) →
  plan_items validator shared prefix indexed seen ordinal records = Some (items, registry, seen') →
  ∃ ps, records = JObj ∘ sh_record <$> ps ∧ items = sh_item <$> ps ∧ registry = sh_entry <$> ps ∧
    sh_id <$> ps = (λ k, prefix ++ dump_nat (N.of_nat k)) <$> seq ordinal (length records) ∧
    Forall (shown_ok validator references) ps.
Proof.
  intros Hi. revert seen ordinal items registry.
  induction records as [|v rest IH]; intros seen ordinal items registry; cbn [plan_items].
  { intros [= <- <- <-]. by exists []. }
  intros H. apply bind_Some in H as ([[m item] e] & Hv & H).
  apply bind_Some in H as ([[items' registry'] s] & Hr & H). apply (inj Some) in H. simplify_eq.
  destruct (IH _ _ _ _ Hr) as (ps & -> & -> & -> & Hids & Hps).
  unfold plan_one in Hv. destruct v as [| | | | | |record]; try done.
  destruct (match validator with Some f => _ | None => _ end) eqn:Hval; [done|].
  destruct (filter _ indexed) as [|[m' reference] [|]] eqn:Hf; try done.
  destruct (negb shared && _); [done|]. apply bind_Some in Hv as (it & Hit & Hv).
  destruct (valid_item it) as [[]|] eqn:Hvi; try done. destruct (compact record) eqn:Hc; [|done].
  apply (inj Some) in Hv. simplify_eq.
  assert ((m, reference) ∈ filter (λ kr : MatchId * dict, sources record kr.2 = true) indexed) as Hin
    by (rewrite Hf; by left).
  apply list_elem_of_filter in Hin as [Hs Hin]. destruct (Hi _ _ Hin) as [Hg Hro].
  exists ({| sh_id := prefix ++ dump_nat (N.of_nat ordinal); sh_record := record;
             sh_reference := reference; sh_item := item |} :: ps).
  split; [done|]. split; [done|]. split; [done|]. split; [cbn; by rewrite Hids|].
  constructor; [|done]. split; cbn; try done; [by exists m|].
  intros f ->. apply bool_decide_eq_false in Hval. by apply eq_None_not_Some.
Qed.

Lemma collect_spec validator shared prefix records references items registry :
  collect validator shared prefix records references = Some (items, registry) →
  ∃ ps, records = JObj ∘ sh_record <$> ps ∧ items = sh_item <$> ps ∧ registry = sh_entry <$> ps ∧
    sh_id <$> ps = (λ k, prefix ++ dump_nat (N.of_nat k)) <$> seq 1 (length records) ∧
    Forall (shown_ok validator references) ps.
Proof.
  unfold collect. intros H. apply bind_Some in H as (indexed & Hi & H).
  apply bind_Some in H as ([[its reg] seen] & Hp & H).
  destruct (shared || _); [|done]. injection H as <- <-.
  eapply plan_items_spec; [|exact Hp]. intros m l Hin.
  destruct (index_refs_given _ _ _ _ _ _ Hi Hin) as [Hn|?]; [|done]. by apply not_elem_of_nil in Hn.
Qed.

(** The items of a plan can be cited and told apart. *)
Lemma shown_citable validator references prefix (ps : list Shown) n :
  prefix_ok prefix = true → Forall (λ p, json_wf (JObj (sh_record p))) ps →
  sh_id <$> ps = (λ k, prefix ++ dump_nat (N.of_nat k)) <$> seq 1 n →
  Forall (shown_ok validator references) ps →
  NoDup (sh_id <$> ps) ∧ citable prefix (sh_item <$> ps) ∧ distinct (sh_item <$> ps).
Proof.
  intros Hp Hw Hids Hps.
  assert (item_id <$> (sh_item <$> ps) = sh_id <$> ps) as Hid.
  { rewrite <- list_fmap_compose. apply list_fmap_ext. intros i p Hl. cbn.
    rewrite Forall_lookup in Hps. eapply read_item_id, so_item, (Hps _ _ Hl). }
  assert (NoDup (sh_id <$> ps)) as Hnd.
  { rewrite Hids. apply NoDup_fmap_2_strong; [|apply NoDup_seq].
    intros a b _ _ H. apply app_inv_head in H. apply dump_nat_inj in H. lia. }
  unfold citable, distinct. rewrite !Hid. split; [done|]. split; (split; [done|]);
    apply Forall_fmap, Forall_forall; intros p Hin; cbn; rewrite Forall_forall in Hps, Hw.
  - split; [by eapply so_valid, Hps|].
    assert (sh_id p ∈ sh_id <$> ps) as Hk by (by apply list_elem_of_fmap_2).
    rewrite Hids in Hk. apply list_elem_of_fmap in Hk as (k & Hk & Hseq%elem_of_seq).
    exists (dump_nat (N.of_nat k)). split; [apply number_dump; lia|].
    rewrite (read_item_id _ _ _ (so_item _ _ _ (Hps p Hin))). done.
  - split; [|by eapply so_valid, Hps].
    eapply read_item_wf; [by apply Hw|by eapply so_item, Hps].
Qed.
End Selection.

(** ** Payloads *)

Lemma payload_fields items instruction truncated st p :
  _payload items instruction truncated st = Return p →
  field "results" p = JArr (JObj <$> items) ∧ field "truncated" p = JBool truncated ∧
  field "citation_instruction" p = JStr instruction.
Proof.
  unfold _payload. intros H. apply obind_inv in H as ([s|] & _ & H); injection H as <-; done.
Qed.

(** A payload that says it is hybrid and not degraded delivers both origins. *)
Definition honest (p : dict) (items : list dict) : Prop :=
  field "route" p = JStr (lit "HYBRID") → field "degraded" p = JBool false →
  delivered items = EvidenceOrigin.

Lemma payload_honest items instruction truncated st p :
  _payload items instruction truncated st = Return p → honest p items.
Proof.
  unfold _payload. intros H. apply obind_inv in H as ([s|] & Hs & H); injection H as <-; [|done].
  destruct st as [value|]; [|done]. apply ofmap_inv in Hs as (s' & Hs%normalized_wf & [= <-]).
  intros Hr Hd. change (JStr (ss_route s) = JStr (lit "HYBRID")) in Hr.
  change (JBool (ss_degraded s) = JBool false) in Hd. injection Hr as Hr. injection Hd as Hd.
  destruct (decide (delivered items = EvidenceOrigin)) as [|Hn]; [done|].
  pose proof (sw_partial _ _ _ Hs Hr Hn). congruence.
Qed.

Section Views.
Context `{estimator : TokenEstimator}.

(** What [_select] makes of distinct citable items. *)
Lemma selected_view prefix items budget was_truncated max_items st result dropped :
  prefix_ok prefix = true → citable prefix items → distinct items → (max_items ≤ 10)%nat →
  _select items budget (_instruction prefix) was_truncated max_items st = Return (Some result, dropped) →
  ∃ kept rest, kept ++ rest ≡ₚ items ∧ (length kept ≤ max_items)%nat ∧
    field "results" result = JArr (JObj <$> kept) ∧ honest result kept ∧
    (field "truncated" result = JBool false → rest = [] ∧ was_truncated = false) ∧
    _size result ≤ budget ∧ validate_evidence_view (JObj result) = Return true.
Proof.
  intros Hp Hc Hd Hm H. destruct (select_spec _ _ _ _ _ _ _ _ H) as (kept & Hsub & Hlen & Hall & Hb & Hpay).
  pose proof (ordered_perm st items Hd) as Ho.
  destruct (submseteq_Permutation kept (ordered st items)) as [rest Hrest];
    [by apply sublist_submseteq|].
  assert (kept ++ rest ≡ₚ items) as Hk by (by rewrite <- Hrest, Ho).
  exists kept, rest. split; [done|]. split; [done|].
  destruct (payload_fields _ _ _ _ _ Hpay) as (E1 & E2 & _). split; [done|].
  split; [by eapply payload_honest|]. split; [|split; [done|]].
  - rewrite E2. intros [= [-> Hf]%orb_false_iff]. split; [|done].
    apply negb_false_iff, bool_decide_eq_true in Hf. rewrite (Hall Hf) in Hrest.
    apply Permutation_length in Hrest. rewrite length_app in Hrest. destruct rest; [done|cbn in Hrest; lia].
  - refine (view_valid _ _ _ _ _ Hp _ _ Hpay); [|lia]. destruct Hc as [Hnd Hv].
    unfold citable. rewrite <- Hk in Hnd, Hv. rewrite fmap_app in Hnd.
    apply NoDup_app in Hnd as (Hnd & _ & _). by apply Forall_app in Hv as [Hv _].
Qed.

(** ** Assembly *)

Lemma filter_entries (kept rest : list Shown) :
  NoDup (sh_id <$> kept ++ rest) →
  filter (λ ke : list N * json, ke.1 ∈ sh_id <$> kept) (sh_entry <$> kept ++ rest) ≡ₚ sh_entry <$> kept.
Proof.
  intros Hnd. rewrite fmap_app, filter_app. rewrite fmap_app in Hnd. apply NoDup_app in Hnd as (_ & Hx & _).
  rewrite filter_full, filter_empty, app_nil_r; [done|..].
  - intros e (p & -> & Hin)%list_elem_of_fmap Hk. apply (Hx _ Hk). exact (list_elem_of_fmap_2 sh_id _ _ Hin).
  - intros e (p & -> & Hin)%list_elem_of_fmap. exact (list_elem_of_fmap_2 sh_id _ _ Hin).
Qed.

(** What an assembled plan consists of. *)
Lemma assembled records references budget prefix max_items validator shared st plan :
  Forall json_wf records →
  assemble_evidence_plan records references budget prefix max_items validator shared st
    = Return (Some plan) →
  ∃ kept rest : list Shown,
    JObj ∘ sh_record <$> kept ++ rest ≡ₚ records ∧
    Forall (shown_ok validator references) kept ∧ NoDup (sh_id <$> kept) ∧
    field "results" (payload plan) = JArr (JObj ∘ sh_item <$> kept) ∧
    plan_registry plan ≡ₚ sh_entry <$> kept ∧
    (field "truncated" (payload plan) = JBool false → rest = []) ∧
    honest (payload plan) (sh_item <$> kept) ∧
    Z.of_nat (length kept) ≤ max_items ∧ _size (payload plan) ≤ budget ∧
    validate_evidence_view (JObj (payload plan)) = Return true.
Proof.
  intros Hw. unfold assemble_evidence_plan. intros H. apply obind_inv in H as (_ & _ & H).
  apply obind_inv in H as (_ & Hm%fail_if_inv & H).
  apply negb_false_iff in Hm. rewrite !andb_true_iff, !Z.leb_le in Hm. destruct Hm as [[Hp H1] H10].
  destruct (_ || _); [done|].
  destruct (collect _ _ _ _ _) as [[items registry]|] eqn:Hc; [|done].
  destruct (collect_spec _ _ _ _ _ _ _ Hc) as (ps & Hrec & -> & -> & Hids & Hps).
  apply obind_inv in H as ([o dropped] & Hsel & H). destruct o as [p|]; [|done]. injection H as <-.
  destruct (shown_citable validator references prefix ps (length records)) as (Hnd & Hcit & Hdist); try done.
  { rewrite Hrec, Forall_fmap in Hw. exact Hw. }
  assert (Z.to_nat max_items ≤ 10)%nat as Hm by lia.
  destruct (selected_view prefix _ _ _ _ _ _ _ Hp Hcit Hdist Hm Hsel)
    as (ki & ri & Hperm & Hlen & Hres & Hhon & Htr & Hb & Hv).
  apply Permutation_map_inv in Hperm as (l & Hl & Hpl). symmetry in Hl.
  apply fmap_app_inv in Hl as (kept & rest & -> & -> & ->). exists kept, rest. cbn [payload plan_registry].
  rewrite Hres, as_objects_of. rewrite Hpl in Hnd.
  assert (item_id <$> (sh_item <$> kept) = sh_id <$> kept) as Hid.
  { rewrite <- list_fmap_compose. apply list_fmap_ext. intros i q Hl. cbn.
    rewrite Hpl, Forall_app, Forall_lookup in Hps. destruct Hps as [Hps _].
    eapply read_item_id, so_item, (Hps _ _ Hl). }
  rewrite Hid. split; [by rewrite Hrec, Hpl|]. split; [rewrite Hpl in Hps; by apply Forall_app in Hps as [? _]|].
  split; [rewrite fmap_app in Hnd; by apply NoDup_app in Hnd as [? _]|].
  split; [by rewrite list_fmap_compose|].
  split; [rewrite Hpl; by apply filter_entries|].
  split; [intros Ht; apply Htr in Ht as [Ht _]; by apply fmap_nil_inv in Ht|].
  split; [done|]. split; [rewrite length_fmap in Hlen; lia|]. done.
Qed.

Lemma field_items_wf p items :
  json_wf (JObj p) → field "results" p = JArr (JObj <$> items) →
  Forall (λ item, json_wf (JObj item)) items.
Proof.
  intros Hw Hr. pose proof (field_wf "results" p Hw) as H. rewrite Hr, json_wf_arr, Forall_fmap in H.
  exact H.
Qed.

Lemma payload_wf items instruction truncated st p :
  Forall (λ item, json_wf (JObj item)) items → _payload items instruction truncated st = Return p →
  json_wf (JObj p).
Proof.
  intros Hi. unfold _payload. intros H. apply obind_inv in H as (o & _ & H). injection H as <-.
  assert (json_wf (JArr (JObj <$> items))) as Hr by (apply json_wf_arr, Forall_fmap, Hi).
  apply json_wf_obj. destruct o as [s|].
  - split; [by_keys|]. unfold base_view, state_fields.
    repeat apply Forall_cons_2; cbn [snd]; try done; try exact Hr.
    + by destruct (ss_degraded_reason s).
    + apply json_wf_arr, Forall_fmap. by apply Forall_true.
  - split; [by_keys|]. unfold base_view. repeat (apply Forall_cons_2; [try done; try exact Hr|]). done.
Qed.

(** The payload of a plan is made of valid items. *)
Lemma assembled_payload records references budget prefix max_items validator shared st plan :
  Forall json_wf records →
  assemble_evidence_plan records references budget prefix max_items validator shared st
    = Return (Some plan) →
  ∃ items instruction truncated, _payload items instruction truncated st = Return (payload plan) ∧
    Forall (λ item, json_wf (JObj item) ∧ valid_item item = Return true) items.
Proof.
  intros Hw. unfold assemble_evidence_plan. intros H. apply obind_inv in H as (_ & _ & H).
  apply obind_inv in H as (_ & Hm%fail_if_inv & H).
  apply negb_false_iff in Hm. rewrite !andb_true_iff in Hm. destruct Hm as [[Hp _] _].
  destruct (_ || _); [done|].
  destruct (collect _ _ _ _ _) as [[items registry]|] eqn:Hc; [|done].
  destruct (collect_spec _ _ _ _ _ _ _ Hc) as (ps & Hrec & -> & -> & Hids & Hps).
  apply obind_inv in H as ([o dropped] & Hsel & H). destruct o as [p|]; [|done]. injection H as <-.
  destruct (shown_citable validator references prefix ps (length records)) as (_ & _ & Hd); try done.
  { rewrite Hrec, Forall_fmap in Hw. exact Hw. }
  destruct (select_spec _ _ _ _ _ _ _ _ Hsel) as (kept & Hsub & _ & _ & _ & Hpay).
  do 3 eexists. split; [exact Hpay|]. apply Forall_forall. intros item Hin.
  assert (item ∈ sh_item <$> ps) as Hi.
  { rewrite <- (ordered_perm st) by done. by eapply elem_of_submseteq, sublist_submseteq. }
  destruct Hd as [_ Hd]. rewrite Forall_forall in Hd. by apply (Hd item Hi).
Qed.
End Views.
