(* ===== verification/EvidencePlanProperties.v ===== *)
(** * Evidence shown to the model can be traced

    Theorems about assembling and reprojecting evidence views
    ([EvidencePlan.v]): what the model sees is whole, within its budget and
    registered with its source, and later admission only removes from it. *)

From stdpp Require Import base gmap list strings sorting.
From Stdlib Require Import ZArith NArith Lia.
From S2P Require Import Prelude.
From S2P Require Import Outcome.
From S2P Require Import Json.
From S2P Require Import JsonTheory.
From S2P Require Import TurnTranscript.
From S2P Require Import ContextMetadata.
From S2P Require Import JsonProjection.
From S2P Require Import ContextPolicyTheory.
From S2P Require Import JsonProjectionTheory.
From S2P Require Import ContextBudget.
From S2P Require Import RagEvidence.
From S2P Require Import EvidenceRecords.
From S2P Require Import EvidencePlan.
From S2P Require Import EvidencePlanTheory.

Local Open Scope Z_scope.
Local Arguments lit : simpl never.

Section Views.
Context `{estimator : TokenEstimator}.

(** C39. Every piece of evidence the model is shown can be traced.  If a plan is
    assembled, its payload passes the check applied at admission, stays within
    the budget and the number of items, and each item shown is exactly the
    reading fields of one given record (valid under the envelope check, if
    any) under an identifier of its own; the private registry holds, for these
    items and no others, the record and a given reference that names its chunk,
    revision and (if given) snapshot and knowledge base.  If the payload is not
    marked truncated, every record is shown; if it claims to be hybrid and not
    degraded, both origins are. *)
Theorem evidence_plan_is_traceable records references budget prefix max_items validator shared st plan :
  Forall json_wf records →
  assemble_evidence_plan records references budget prefix max_items validator shared st
    = Return (Some plan) →
  ∃ kept rest : list Shown,
    JObj ∘ sh_record <$> kept ++ rest ≡ₚ records ∧
    Forall (shown_ok validator references) kept ∧ NoDup (sh_id <$> kept) ∧
    field "results" (payload plan) = JArr (JObj ∘ sh_item <$> kept) ∧
    plan_registry plan ≡ₚ sh_entry <$> kept ∧
    (field "truncated" (payload plan) = JBool false → rest = []) ∧
    honest (payload plan) (sh_item <$> kept) ∧
    Z.of_nat (length kept) ≤ max_items ∧ _size (payload plan) ≤ budget ∧
    validate_evidence_view (JObj (payload plan)) = Return true.
Proof. intros Hw H. exact (assembled _ _ _ _ _ _ _ _ _ Hw H). Qed.

(** Admission only removes evidence from a view.  A reprojected view passes
    the check again and stays within its budget; its items are items of the
    given view, unchanged; a missing item or an earlier truncation leaves it
    marked truncated; and it never claims to be hybrid and not degraded when an
    origin is missing. *)
Lemma reprojection_only_removes v budget p :
  json_wf v → reproject_evidence_view v budget = Return (Some p) →
  ∃ q items shown rest, v = JObj q ∧ field "results" q = JArr (JObj <$> items) ∧
    field "results" p = JArr (JObj <$> shown) ∧ shown ++ rest ≡ₚ items ∧
    (field "truncated" p = JBool false → rest = [] ∧ field "truncated" q = JBool false) ∧
    honest p shown ∧ _size p ≤ budget ∧ validate_evidence_view (JObj p) = Return true.
Proof.
  intros Hw. unfold reproject_evidence_view. intros H. apply obind_inv in H as (_ & _ & H).
  apply obind_inv in H as ([] & Hv & H); [|done].
  destruct (view_validated v Hv) as (q & prefix & items & t & -> & Hp & Hc & Hlen & Hr & Hi & Ht).
  rewrite Hr, Hi, Ht, as_objects_of in H. apply obind_inv in H as ([o dropped] & Hs & H).
  injection H as ->.
  assert (distinct items) as Hd.
  { split; [apply Hc|]. destruct Hc as [_ Hc]. apply Forall_and. split; [by eapply field_items_wf|].
    eapply Forall_impl; [exact Hc|]. by intros ? [? _]. }
  destruct (selected_view prefix _ _ _ _ _ _ _ Hp Hc Hd (le_n 10) Hs)
    as (kept & rest & Hperm & _ & Hres & Hhon & Htr & Hb & Hok).
  exists q, items, kept, rest. rewrite Ht. split; [done|]. split; [done|]. split; [done|].
  split; [done|]. split; [|done]. intros Hf. apply Htr in Hf as [-> ->]. done.
Qed.
End Views.

(** ** Witnesses *)

#[local] Instance bytes : TokenEstimator := {| estimate := utf8_length |}.

Definition sample_reference (c : string) : json :=
  JObj [(lit "snapshot_id", JStr (lit "s1")); (lit "knowledge_base_id", JStr (lit "kb1"));
        (lit "document_revision_id", JStr (lit "r1")); (lit "chunk_id", JStr (lit c))].
Definition sample_raw : json :=
  JObj [(lit "chunk_id", JStr (lit "c1")); (lit "document_revision_id", JStr (lit "r1"));
        (lit "snippet", JStr (lit "Refunds take five days.")); (lit "origin", JStr (lit "RAW"));
        (lit "locator", JObj [(lit "page", JInt 3); (lit "source_path", JStr (lit "a.pdf"))])].
Definition sample_wiki : json :=
  JObj [(lit "origin", JStr (lit "WIKI_DERIVED")); (lit "chunk_id", JStr (lit "c2"));
        (lit "document_revision_id", JStr (lit "r1")); (lit "snippet", JStr (lit "Refunds: 5 days"));
        (lit "wiki_page_id", JStr (lit "refunds")); (lit "publication_id", JStr (lit "p1"));
        (lit "publication_hash", JStr (lit "h1")); (lit "quote", JStr (lit "five days"));
        (lit "source_revisions", JArr [JStr (lit "r1")])].
Definition sample_records : list json := [sample_raw; sample_wiki].
Definition sample_state : option dict := Some [(lit "route", JStr (lit "HYBRID"))].
Definition sample_assembled (budget : Z) : outcome view_error (option Plan) :=
  assemble_evidence_plan sample_records [sample_reference "c1"; sample_reference "c2"] budget
    (lit "R00001E") 10 (Some envelope_violation) true sample_state.
(** A hybrid plan with both items, and one with room for only one. *)
Definition sample_plan (budget : Z) : Plan :=
  match sample_assembled budget with
  | Return (Some p) => p
  | _ => {| payload := []; plan_registry := []; plan_dropped := [] |}
  end.

Lemma sample_records_wf : Forall json_wf sample_records.
Proof. repeat (apply Forall_cons_2; [apply wf_check_sound; vm_compute; reflexivity|]). done. Qed.

Lemma evidence_plan_is_traceable_witness :
  ∃ kept rest : list Shown, length kept = 1%nat ∧ length rest = 1%nat ∧
    JObj ∘ sh_record <$> kept ++ rest ≡ₚ sample_records ∧
    plan_registry (sample_plan 480) ≡ₚ sh_entry <$> kept ∧
    Forall (shown_ok (Some envelope_violation) [sample_reference "c1"; sample_reference "c2"]) kept.
Proof.
  destruct (evidence_plan_is_traceable sample_records [sample_reference "c1"; sample_reference "c2"] 480
              (lit "R00001E") 10 (Some envelope_violation) true sample_state (sample_plan 480))
    as (kept & rest & H1 & H2 & _ & _ & H3 & _).
  - exact sample_records_wf.
  - vm_compute. reflexivity.
  - exists kept, rest. assert (length (plan_registry (sample_plan 480)) = 1%nat) as Hl by (vm_compute; reflexivity).
    rewrite H3, length_fmap in Hl. apply Permutation_length in H1 as Hn.
    rewrite length_fmap, length_app, Hl in Hn. change (length sample_records) with 2%nat in Hn.
    split; [done|]. split; [lia|]. done.
Defined.

Definition sample_view : json := JObj (payload (sample_plan 1000)).
Definition sample_reprojected : dict :=
  match reproject_evidence_view sample_view 480 with Return (Some p) => p | _ => [] end.

Lemma reprojection_only_removes_witness :
  field "degraded" (payload (sample_plan 1000)) = JBool false ∧
  field "degraded" sample_reprojected = JBool true ∧
  validate_evidence_view (JObj sample_reprojected) = Return true.
Proof.
  split; [vm_compute; reflexivity|]. split; [vm_compute; reflexivity|].
  destruct (reprojection_only_removes sample_view 480 sample_reprojected) as (? & ? & ? & ? & H).
  - apply wf_check_sound. vm_compute. reflexivity.
  - vm_compute. reflexivity.
  - apply H.
Defined.
