(* ===== verification/EvidenceRegistry.v ===== *)
(** * Evidence the model can see

    Model of [packages/agent_runtime/evidence_registry.py]: every item of an
    evidence view in the conversation is looked up in the private registry and
    compared with the source kept there.

    [json.loads] is the parameter [loads] of [JsonText]. *)

From stdpp Require Import base gmap list strings sorting.
From Stdlib Require Import ZArith NArith Lia.
From S2P Require Import Prelude.
From S2P Require Import Json.
From S2P Require Import JsonTheory.
From S2P Require Import TurnTranscript.
From S2P Require Import ContextMetadata.
From S2P Require Import ContextPolicyTheory.
From S2P Require Import Outcome.
From S2P Require Import JsonProjection.
From S2P Require Import JsonProjectionTheory.
From S2P Require Import ContextBudget.
From S2P Require Import ContextMemory.
From S2P Require Import JsonParser.
From S2P Require Import RagEvidence.
From S2P Require Import EvidenceRecords.
From S2P Require Import EvidencePlan.
From S2P Require Import EvidencePlanTheory.
From S2P Require Import EvidencePlanProperties.

Local Open Scope Z_scope.
Local Arguments lit : simpl never.

Definition RAG_EVIDENCE_TOOL_IDENTITIES : list (list N) :=
  lit <$> ["search_knowledge"; "query_wiki"]%string.

(** [lambda text: len(text.encode("utf-8"))]; a lone surrogate, which cannot be
    encoded, is refused in [source_ok]. *)
Definition utf8_bytes : TokenEstimator := {| estimate := utf8_length |}.

(** [_mapping_error()], or an exception of the code that is called. *)
Inductive registry_error := RAG_EVIDENCE_MAPPING_INVALID | Escaped (e : view_error).

Definition escaping {A} (m : outcome view_error A) : outcome registry_error A :=
  match m with Return a => Return a | Raise e => Raise (Escaped e) end.

(** The plan of this one source: is it there, and does it show something? *)
Definition source_ok (reference record : dict) : outcome registry_error unit :=
  let surrogate := match collect None false (lit "E") [JObj record] [JObj reference] with
                   | Some (items, _) => existsb (λ item : dict, existsb is_surrogate (dump (JObj item))) items
                   | None => false
                   end in
  fail_if surrogate (Escaped (Invalid "surrogates not allowed")) ≫= λ _,
  plan ← escaping (assemble_evidence_plan (estimator := utf8_bytes) [JObj record] [JObj reference]
                     64000 (lit "E") 10 None false None);
  fail_if (match plan with Some p => bool_decide (plan_registry p = []) | None => true end)
    RAG_EVIDENCE_MAPPING_INVALID.

(** The item the record stands for; after [source_ok] it exists. *)
Definition expected_item (identifier : list N) (record : dict) : option dict :=
  read_item identifier record.

Definition resolve_item (registry : gmap (list N) json) (visible : gmap (list N) json) (item : dict) :
  outcome registry_error (gmap (list N) json) :=
  let identifier := item_id item in
  match registry !! identifier with
  | Some (JObj e) =>
      if bool_decide (is_Some (visible !! identifier)) then Raise RAG_EVIDENCE_MAPPING_INVALID
      else match field "reference" e, field "record" e with
      | JObj reference, JObj record =>
          source_ok reference record ≫= λ _,
          match expected_item identifier record with
          | Some expected =>
              if same (JObj item) (JObj expected)
              then Return (<[identifier := entry reference record]> visible)
              else Raise RAG_EVIDENCE_MAPPING_INVALID
          | None => Raise RAG_EVIDENCE_MAPPING_INVALID
          end
      | _, _ => Raise RAG_EVIDENCE_MAPPING_INVALID
      end
  | _ => Raise RAG_EVIDENCE_MAPPING_INVALID
  end.

Section Messages.
Context `{JsonText}.

Definition resolve_message (registry : gmap (list N) json) (visible : gmap (list N) json)
    (m : ModelMessage) : outcome registry_error (gmap (list N) json) :=
  if bool_decide (role m = role_tool)
     && match msg_name m with Some n => bool_decide (n ∈ RAG_EVIDENCE_TOOL_IDENTITIES) | None => false end
  then match loads (match content m with Some (c :: t) => c :: t | _ => lit "null" end) with
  | None => Raise RAG_EVIDENCE_MAPPING_INVALID
  | Some (JObj p) =>
      if is_text "rag_view_v1" (field "evidence_format" p) then
        valid ← escaping (validate_evidence_view (JObj p));
        match (valid : bool), field "results" p with
        | true, JArr results => fold_raise (λ v item, resolve_item registry v item) (as_objects results) visible
        | _, _ => Raise RAG_EVIDENCE_MAPPING_INVALID
        end
      else if bool_decide (lit "results" ∈ p.*1) then Raise RAG_EVIDENCE_MAPPING_INVALID
      else Return visible
  | Some _ => Return visible
  end
  else Return visible.

Definition visible_evidence_registry (messages : list ModelMessage) (registry : gmap (list N) json) :
  outcome registry_error (gmap (list N) json) :=
  fold_raise (λ v m, resolve_message registry v m) messages ∅.
End Messages.

(** ** What the model sees resolves to its source *)

(** ** The order of keys *)

(** The items of a dictionary read back from its text. *)
Definition sorted (l : dict) : dict := merge_sort key_le ((λ kv, (kv.1, sort_json kv.2)) <$> l).

Lemma sorted_perm l : sorted l ≡ₚ (λ kv, (kv.1, sort_json kv.2)) <$> l.
Proof. apply merge_sort_Permutation. Qed.

Lemma sorted_keys l : (sorted l).*1 ≡ₚ l.*1.
Proof. by rewrite sorted_perm, <- list_fmap_compose. Qed.

Lemma sorted_get k l : NoDup l.*1 → dict_get k (sorted l) = sort_json <$> dict_get k l.
Proof.
  intros Hnd. destruct (dict_get k l) as [v|] eqn:E.
  - apply elem_dict_get; [by rewrite sorted_keys|]. rewrite sorted_perm.
    apply list_elem_of_fmap. exists (k, v). split; [done|]. by apply dict_get_pair.
  - apply dict_get_None. rewrite sorted_keys. by apply dict_get_None.
Qed.

Lemma sorted_field k l : NoDup l.*1 → field k (sorted l) = sort_json (field k l).
Proof. intros Hnd. unfold field. rewrite sorted_get by done. by destruct (dict_get _ l). Qed.

Lemma forallb_perm {A} (p : A → bool) l k : l ≡ₚ k → forallb p l = forallb p k.
Proof.
  intros H. apply eq_true_iff_eq. rewrite !forallb_forall. setoid_rewrite <- list_elem_of_In.
  by setoid_rewrite H.
Qed.

Lemma in_keys_sorted k l : bool_decide (k ∈ (sorted l).*1) = bool_decide (k ∈ l.*1).
Proof. apply bool_decide_ext. by rewrite sorted_keys. Qed.

Lemma has_exactly_sorted keys l : has_exactly keys (sorted l) = has_exactly keys l.
Proof.
  unfold has_exactly. f_equal; [apply forallb_perm, sorted_keys|].
  apply eq_true_iff_eq. rewrite !forallb_forall. by setoid_rewrite in_keys_sorted.
Qed.

Lemma text_sorted s v : is_text s (sort_json v) = is_text s v.
Proof. by destruct v. Qed.
Lemma in_texts_sorted v l : in_texts (sort_json v) l = in_texts v l.
Proof. by destruct v. Qed.
Lemma speaks_sorted v : speaks (sort_json v) = speaks v.
Proof. by destruct v. Qed.

Lemma fold_raise_ext {E A S} (f g : S → A → outcome E S) l s :
  (∀ s x, f s x = g s x) → fold_raise f l s = fold_raise g l s.
Proof.
  intros H. revert s. induction l as [|x l IH]; intros s; [done|]. cbn. rewrite H.
  by destruct (g s x).
Qed.

Lemma locator_sorted l : NoDup l.*1 → model_evidence_locator (sorted l) = model_evidence_locator l.
Proof.
  intros Hnd. unfold model_evidence_locator.
  rewrite (fold_raise_ext _ (λ r k, take_position l r k)).
  - destruct (fold_raise _ _ _); [|done]. cbn [mbind outcome_bind]. rewrite sorted_get by done.
    destruct (dict_get _ l) as [t|]; [|done]. cbn [fmap option_fmap option_map].
    rewrite in_texts_sorted. by destruct t.
  - intros r k. unfold take_position. rewrite sorted_get by done.
    by destruct (dict_get k l) as [[| | | | | |]|].
Qed.

Lemma same_sorted v l : json_wf (JObj l) → same v (JObj (sorted l)) = same v (JObj l).
Proof.
  intros Hw. unfold same. change (JObj (sorted l)) with (sort_json (JObj l)).
  by rewrite canonical_json_sort.
Qed.

Lemma locator_ok_sorted o :
  (∀ v, o = Some v → json_wf v) → locator_ok (sort_json <$> o) = locator_ok o.
Proof.
  destruct o as [[| | | | | |l]|]; try done. intros Hw. specialize (Hw _ eq_refl).
  cbn [fmap option_fmap option_map]. change (sort_json (JObj l)) with (JObj (sorted l)).
  cbn [locator_ok]. rewrite locator_sorted by (by apply json_wf_obj in Hw as [? _]).
  destruct (model_evidence_locator l); [|done]. by apply same_sorted.
Qed.

Lemma dict_get_wf k l v : json_wf (JObj l) → dict_get k l = Some v → json_wf v.
Proof.
  intros [_ Hw]%json_wf_obj Hk%dict_get_pair. rewrite Forall_forall in Hw. exact (Hw _ Hk).
Qed.

Lemma text_or_none_sorted o : text_or_none (sort_json <$> o) = text_or_none o.
Proof. by destruct o as [[| | | | | |]|]. Qed.
Lemma bool_or_absent_sorted o : bool_or_absent (sort_json <$> o) = bool_or_absent o.
Proof. by destruct o as [[| | | | | |]|]. Qed.

Lemma compact_sorted l : json_wf (JObj l) → compact (sorted l) = compact l.
Proof.
  intros Hw. unfold compact. change (JObj (sorted l)) with (sort_json (JObj l)).
  by rewrite canonical_json_sort.
Qed.

Lemma valid_item_sorted item : json_wf (JObj item) → valid_item (sorted item) = valid_item item.
Proof.
  intros Hw. assert (NoDup item.*1) as Hnd by (by apply json_wf_obj in Hw as [? _]).
  assert (item_head (sorted item) = item_head item) as Hh.
  { unfold item_head. rewrite !sorted_get by done. rewrite (forallb_perm _ _ _ (sorted_keys item)).
    f_equal; [f_equal|].
    - by destruct (dict_get _ item) as [[| | | | | |]|].
    - destruct (dict_get _ item); [|done]. apply speaks_sorted. }
  assert (item_rest (sorted item) = item_rest item) as Hr.
  { unfold item_rest. rewrite !sorted_get, !sorted_field, !text_sorted, !text_or_none_sorted,
      !bool_or_absent_sorted, compact_sorted by done.
    rewrite locator_ok_sorted by (intros v; by apply dict_get_wf). repeat f_equal.
    apply bool_decide_ext. by rewrite sorted_keys. }
  unfold valid_item. rewrite Hh, Hr, sorted_get, sorted_field by done.
  destruct (negb _); [done|]. destruct (dict_get (lit "origin") item) as [o|]; [|done].
  cbn [fmap option_fmap option_map]. by rewrite in_texts_sorted, text_sorted, speaks_sorted.
Qed.

Lemma item_id_sorted item : NoDup item.*1 → item_id (sorted item) = item_id item.
Proof. intros Hnd. unfold item_id. rewrite sorted_field by done. by destruct (field _ item). Qed.

Lemma valid_items_sorted prefix seen results :
  Forall json_wf results → valid_items prefix seen (sort_json <$> results) = valid_items prefix seen results.
Proof.
  intros Hw. revert seen. induction Hw as [|v results Hv _ IH]; intros seen; [done|].
  cbn [fmap list_fmap valid_items].
  destruct v as [| | | | | |item]; try done. change (sort_json (JObj item)) with (JObj (sorted item)).
  cbn [_valid_item]. rewrite valid_item_sorted by done.
  rewrite item_id_sorted by (by apply json_wf_obj in Hv as [? _]).
  destruct (valid_item item) as [b|]; [|done]. cbn [mbind outcome_bind].
  destruct (_ && _); [|done]. apply IH.
Qed.

Lemma obind_ext {E A B} (m m' : outcome E A) (f f' : A → outcome E B) :
  m = m' → (∀ a, f a = f' a) → m ≫= f = m' ≫= f'.
Proof. intros -> H. destruct m'; [apply H|done]. Qed.

(** [normalized] only looks fields up. *)
Lemma normalized_ext value value' items items' truncated :
  (∀ k, dict_get k value' = sort_json <$> dict_get k value) →
  forallb (λ k, bool_decide (k ∈ state_keys)) value'.*1
    = forallb (λ k, bool_decide (k ∈ state_keys)) value.*1 →
  (∀ o, has_origin o items' = has_origin o items) → delivered items' = delivered items →
  normalized value' items' truncated = normalized value items truncated.
Proof.
  intros Hg Hk Ho Hd.
  assert (∀ k, bool_key k value' = bool_key k value) as Hb.
  { intros k. unfold bool_key. rewrite Hg. by destruct (dict_get _ value) as [[]|]. }
  assert (_infer_route items' = _infer_route items) as Hi by (unfold _infer_route; by rewrite !Ho).
  unfold normalized, field. rewrite Hk, !Hg, !Hb, Hd, Hi.
  apply obind_ext; [done|]. intros _. apply obind_ext.
  { by destruct (dict_get (lit "route") value) as [[]|]. }
  intros route. apply obind_ext; [done|]. intros lacking. apply obind_ext.
  { by destruct (dict_get (lit "conflict_count") value) as [[]|]. }
  intros conflicts. apply obind_ext; [|done]. destruct (bool_key "degraded" value); [|done].
  by destruct (dict_get (lit "degraded_reason") value) as [[]|].
Qed.

Lemma claimed_get p k :
  dict_get k (claimed_state p) = if decide (k ∈ state_keys) then dict_get k p else None.
Proof.
  unfold claimed_state. induction p as [|[k' v] p IH]; [by case_decide|].
  rewrite filter_cons, dict_get_cons. cbn [fst]. destruct (decide (k' ∈ state_keys)) as [Hk'|Hk'].
  - rewrite dict_get_cons, IH. repeat case_decide; congruence.
  - rewrite IH. repeat case_decide; congruence.
Qed.

Lemma origin_sorted o items :
  Forall (λ item, json_wf (JObj item)) items → has_origin o (sorted <$> items) = has_origin o items.
Proof.
  induction 1 as [|item items Hw _ IH]; [done|]. unfold has_origin in *. cbn.
  rewrite sorted_field, text_sorted by (by apply json_wf_obj in Hw as [? _]). by rewrite IH.
Qed.
Lemma delivered_sorted items :
  Forall (λ item, json_wf (JObj item)) items → delivered (sorted <$> items) = delivered items.
Proof.
  intros Hw. unfold delivered. apply list_filter_iff. intros o.
  enough (existsb (λ item : dict, match field "origin" item with JStr s => bool_decide (s = o) | _ => false end)
            (sorted <$> items) = existsb (λ item : dict, match field "origin" item with
            | JStr s => bool_decide (s = o) | _ => false end) items) as -> by done.
  induction Hw as [|item items Hw _ IH]; [done|]. cbn.
  rewrite sorted_field by (by apply json_wf_obj in Hw as [? _]). rewrite IH. by destruct (field _ item).
Qed.
Lemma as_objects_sorted results : as_objects (sort_json <$> results) = sorted <$> as_objects results.
Proof. induction results as [|v l IH]; [done|]. destruct v; cbn; try done. f_equal. exact IH. Qed.
Lemma as_objects_wf results :
  Forall json_wf results → Forall (λ item, json_wf (JObj item)) (as_objects results).
Proof. induction 1 as [|v l Hv _ IH]; [done|]. destruct v; cbn; try done. by constructor. Qed.

Lemma claims_sorted p s : NoDup p.*1 → claims (sorted p) s = claims p s.
Proof.
  intros Hnd. unfold claims. rewrite !sorted_field by done.
  destruct (field "status" p); try done. destruct (field "delivered_origins" p) as [| | | | |l|]; try done.
  cbn [sort_json]. rewrite length_fmap. f_equal.
  generalize (ss_delivered_origins s). induction l as [|v l IH]; intros [|o k]; try done.
  cbn. rewrite IH. by destruct v.
Qed.

Lemma state_ok_sorted p results truncated :
  NoDup p.*1 → Forall json_wf results →
  state_ok (sorted p) (sort_json <$> results) truncated = state_ok p results truncated.
Proof.
  intros Hnd Hw. unfold state_ok. rewrite as_objects_sorted.
  rewrite (normalized_ext (claimed_state p) _ (as_objects results)).
  - destruct (normalized _ _ _) as [s|[]]; try done. by rewrite claims_sorted.
  - intros k. rewrite !claimed_get, sorted_get by done. by case_decide.
  - assert (∀ q : dict, forallb (λ k, bool_decide (k ∈ state_keys)) (claimed_state q).*1 = true) as E;
      [|by rewrite !E].
    intros q. apply forallb_forall. intros k Hk%list_elem_of_In. apply bool_decide_eq_true.
    apply list_elem_of_fmap in Hk as (kv & -> & Hk). unfold claimed_state in Hk.
    by apply list_elem_of_filter in Hk as [? _].
  - intros o. by apply origin_sorted, as_objects_wf.
  - by apply delivered_sorted, as_objects_wf.
Qed.

(** Reading a view back from its text does not change the verdict. *)
Lemma validate_sorted v : json_wf v → validate_evidence_view (sort_json v) = validate_evidence_view v.
Proof.
  intros Hw. destruct v as [| | | | | |p]; try done.
  assert (NoDup p.*1) as Hnd by (by apply json_wf_obj in Hw as [? _]).
  change (sort_json (JObj p)) with (JObj (sorted p)). unfold validate_evidence_view.
  rewrite !has_exactly_sorted, !sorted_field, !text_sorted, in_texts_sorted by done.
  destruct (_ || _); [done|]. apply obind_ext; [done|]. intros known.
  destruct (field "truncated" p) as [|t| | | | |]; try done.
  destruct (field "citation_instruction" p) as [| | | |i| |]; try done.
  pose proof (field_wf "results" p Hw) as Hr.
  destruct (field "results" p) as [| | | | |results|]; try done. apply json_wf_arr in Hr.
  cbn [sort_json]. rewrite length_fmap.
  destruct (_ || _); [done|]. destruct (instruction_prefix i) as [prefix|]; [|done].
  rewrite valid_items_sorted by done. apply obind_ext; [done|]. intros valid. destruct (negb valid); [done|].
  destruct (has_exactly _ p); [|done]. by apply state_ok_sorted.
Qed.

(** ** Resolving what was shown *)

(** A record that fits the 64,000 bytes the check of visible evidence allows
    and can be encoded. *)
Definition fits_alone (record : dict) : Prop :=
  ∃ item, read_item (lit "E1") record = Some item ∧
    existsb is_surrogate (dump (JObj item)) = false ∧
    ∀ b, Z.of_N (utf8_length (dump (JObj (base_view [item] (_instruction (lit "E")) b (lit "SUCCESS")))))
         ≤ 64000.

Lemma collect_one m reference record item :
  ref_of (JObj reference) = Some (m, reference) → sources record reference = true →
  read_item (lit "E1") record = Some item → valid_item item = Return true → compact record = true →
  collect None false (lit "E") [JObj record] [JObj reference]
    = Some ([item], [(lit "E1", entry reference record)]).
Proof.
  intros Href Hs Hi Hv Hc. unfold collect. cbn [index_refs]. rewrite Href. cbn [mbind option_bind fst].
  rewrite bool_decide_eq_false_2 by apply not_elem_of_nil. cbn [app mbind option_bind plan_items].
  unfold plan_one. rewrite filter_full; [|by intros ? ->%list_elem_of_singleton].
  rewrite bool_decide_eq_false_2 by apply not_elem_of_nil. cbn [negb andb].
  change (lit "E" ++ dump_nat (N.of_nat 1)) with (lit "E1"). rewrite Hi. cbn [mbind option_bind].
  rewrite Hv, Hc. cbn [mbind option_bind orb app fmap list_fmap fst].
  rewrite bool_decide_eq_true_2; [done|]. by split; (constructor; [by left|constructor]).
Qed.

Lemma source_ok_shown validator references p :
  shown_ok validator references p → fits_alone (sh_record p) →
  source_ok (sh_reference p) (sh_record p) = Return tt.
Proof.
  intros [Hi Hv Hc Hs _ [m Href] _] (item & Hi1 & Hsur & Hfit).
  assert (valid_item item = Return true) as Hv1.
  { rewrite read_item_cons in Hi, Hi1. apply fmap_Some in Hi as (rest & Hr & E), Hi1 as (rest' & Hr' & ->).
    rewrite Hr in Hr'. injection Hr' as <-. rewrite E in Hv.
    rewrite <- (valid_item_id (sh_id p)); [done| |done].
    unfold valid_item in Hv. destruct (item_head _) eqn:Hh; [|done]. unfold item_head in Hh.
    rewrite !andb_true_iff, dict_get_cons, decide_True in Hh by done. apply Hh. }
  pose proof (collect_one m _ _ item Href Hs Hi1 Hv1 Hc) as Hcol.
  unfold source_ok, assemble_evidence_plan. rewrite Hcol.
  cbn [existsb]. rewrite Hsur. change (prefix_ok (lit "E")) with true.
  cbn -[_select Nat.ltb Z.to_nat]. unfold _select.
  change (ordered None [item]) with [item]. cbn [fold_raise]. unfold select_step.
  change (Z.to_nat 10 <=? length (@nil dict))%nat with false. cbv iota.
  cbn [_payload _normalized_server_state mbind outcome_bind app fst snd].
  assert (∀ b, _size (estimator := utf8_bytes) (base_view [item] (_instruction (lit "E")) b (lit "SUCCESS")) ≤ 64000)
    as Hsz by exact Hfit.
  rewrite (proj2 (Z.leb_le (Z.max _ _) 64000)) by (apply Z.max_lub; apply Hsz). cbn [fst snd].
  rewrite bool_decide_eq_true_2 by done. cbn [negb orb mbind outcome_bind].
  rewrite (proj2 (Z.leb_le _ _)) by apply Hsz. cbn [escaping mbind outcome_bind plan_registry].
  rewrite decide_True; [done|]. change (lit "E1" ∈ [item_id item]).
  rewrite (read_item_id _ _ _ Hi1). by left.
Qed.

(** One item that is registered and not seen before. *)
Lemma resolve_shown validator references registry visible p :
  shown_ok validator references p → json_wf (JObj (sh_record p)) → fits_alone (sh_record p) →
  registry !! sh_id p = Some (entry (sh_reference p) (sh_record p)) → visible !! sh_id p = None →
  resolve_item registry visible (sorted (sh_item p))
    = Return (<[sh_id p := entry (sh_reference p) (sh_record p)]> visible).
Proof.
  intros Hok Hw Hfit Hr Hv. pose proof (so_item _ _ _ Hok) as Hi.
  pose proof (read_item_wf _ _ _ Hw Hi) as Hwi. unfold resolve_item.
  rewrite item_id_sorted, (read_item_id _ _ _ Hi), Hr by (by apply json_wf_obj in Hwi as [? _]).
  unfold entry at 1. cbv iota. rewrite Hv. rewrite bool_decide_eq_false_2 by (by intros [? [=]]).
  change (field "reference" _) with (JObj (sh_reference p)).
  change (field "record" _) with (JObj (sh_record p)). cbv iota.
  rewrite (source_ok_shown _ _ _ Hok Hfit). cbn [mbind outcome_bind]. unfold expected_item.
  rewrite Hi. replace (same _ _) with true; [done|]. symmetry. apply bool_decide_eq_true.
  change (JObj (sorted (sh_item p))) with (sort_json (JObj (sh_item p))). by apply canonical_json_sort.
Qed.

Lemma resolve_all validator references registry ps visible :
  Forall (shown_ok validator references) ps → Forall (λ p, json_wf (JObj (sh_record p))) ps →
  Forall (λ p, fits_alone (sh_record p)) ps → NoDup (sh_id <$> ps) →
  (∀ p, p ∈ ps → registry !! sh_id p = Some (entry (sh_reference p) (sh_record p))) →
  (∀ p, p ∈ ps → visible !! sh_id p = None) →
  fold_raise (λ v item, resolve_item registry v item) (sorted ∘ sh_item <$> ps) visible
    = Return (list_to_map (sh_entry <$> ps) ∪ visible).
Proof.
  intros Hok Hw Hfit. revert visible. induction ps as [|p ps IH]; intros visible Hnd Hr Hv.
  { cbn. by rewrite (left_id_L ∅ (∪)). }
  apply Forall_cons in Hok as [Hok1 Hok], Hw as [Hw1 Hw], Hfit as [Hf1 Hf].
  cbn in Hnd. apply NoDup_cons in Hnd as [Hn Hnd]. cbn [fmap list_fmap fold_raise compose].
  rewrite (resolve_shown validator references) by (done || (apply Hr; by left) || (apply Hv; by left)).
  rewrite IH; try done.
  - f_equal. unfold sh_entry at 2. cbn [list_to_map foldr]. rewrite <- insert_union_l.
    apply map_eq. intros k. destruct (decide (k = sh_id p)) as [->|Hk].
    + rewrite lookup_insert_eq, lookup_union_r; [by rewrite lookup_insert_eq|].
      apply not_elem_of_list_to_map_1. rewrite <- list_fmap_compose. exact Hn.
    + by rewrite lookup_insert_ne, !lookup_union, lookup_insert_ne.
  - intros q Hq. apply Hr. by right.
  - intros q Hq. rewrite lookup_insert_ne; [apply Hv; by right|].
    intros E. apply Hn. rewrite E. by apply list_elem_of_fmap_2.
Qed.

(** ** The text of a view *)

Definition plain (v : json) : Prop := float_texts v = [].

Lemma plain_obj l : Forall (λ kv, plain kv.2) l → plain (JObj l).
Proof. unfold plain. cbn. induction 1 as [|kv l Hv _ IH]; [done|]. cbn. by rewrite Hv, IH. Qed.
Lemma plain_arr l : Forall plain l → plain (JArr l).
Proof. unfold plain. cbn. induction 1 as [|v l Hv _ IH]; [done|]. cbn. by rewrite Hv, IH. Qed.

(** A projected locator holds texts and integers. *)
Lemma locator_scalars value r :
  model_evidence_locator value = Return r →
  Forall (λ kv, ∃ z s, kv.2 = JInt z ∨ kv.2 = JStr s) r.
Proof.
  unfold model_evidence_locator. intros H. apply obind_inv in H as (r0 & H0 & H).
  assert (Forall (λ kv : list N * json, ∃ z s, kv.2 = JInt z ∨ kv.2 = JStr s) r0) as Hr.
  { eapply Forall_impl; [exact (locator_positions _ _ _ _ H0 (Forall_nil_2 _))|].
    intros kv [z ->]. exists z, []. by left. }
  destruct (dict_get (lit "type") value) as [t|]; [|by injection H as <-].
  apply obind_inv in H as ([] & Ht & H); [|done]. injection H as <-. apply Forall_app_2; [done|].
  constructor; [|done]. destruct t as [| | | |s| |]; try done. exists 0, s. by right.
Qed.

Lemma locator_plain l : json_wf (JObj l) → locator_ok (Some (JObj l)) = true → plain (JObj l).
Proof.
  cbn [locator_ok]. intros Hw. destruct (model_evidence_locator l) as [r|] eqn:E; [|done].
  intros Hs%bool_decide_eq_true. pose proof (locator_wf _ _ E) as Hwr.
  pose proof (locator_scalars _ _ E) as Hr. rewrite !canonical_json_dump in Hs.
  assert (all_finite (JObj r) = true) as Hfin.
  { cbn. apply forallb_forall. intros kv Hin%list_elem_of_In. rewrite Forall_forall in Hr.
    destruct (Hr kv Hin) as (z & s & [-> | ->]); done. }
  rewrite Hfin in Hs. destruct (all_finite (JObj l)); [|done]. apply (inj Some), dump_eq_iff in Hs; [|done..].
  apply plain_obj, Forall_forall. intros [k v] Hin. symmetry in Hs.
  destruct (sort_json_member _ _ _ _ Hs Hin) as (v' & Hin' & Hv). rewrite Forall_forall in Hr.
  destruct (Hr _ Hin') as (z & s & H). cbn in H |- *.
  destruct H as [-> | ->]; destruct v; cbn in Hv; try discriminate Hv; done.
Qed.

Lemma valid_item_plain item :
  json_wf (JObj item) → valid_item item = Return true → plain (JObj item).
Proof.
  intros Hw Hv. assert (NoDup item.*1) as Hnd by (by apply json_wf_obj in Hw as [? _]).
  apply plain_obj, Forall_forall. intros [k v] Hin. cbn [snd].
  pose proof (elem_dict_get _ _ _ Hnd Hin) as Hg.
  unfold valid_item in Hv. destruct (item_head item) eqn:Hh; [|done]. cbn [negb] in Hv.
  assert (item_rest item = true ∧ ∀ o, dict_get (lit "origin") item = Some o → plain o ∧
          (is_text "WIKI_DERIVED" o = true → speaks (field "wiki_page_id" item) = true)) as [Hr Ho].
  { destruct (dict_get (lit "origin") item) as [o|] eqn:Eo; [|by injection Hv].
    apply obind_inv in Hv as (b & Hb & Hv). injection Hv as Hv. rewrite !andb_true_iff in Hv.
    destruct Hv as [[-> Hw2] Hr]. split; [done|]. intros o' [= <-]. split; [by destruct o|].
    intros Ht. rewrite Ht in Hw2. by destruct (speaks _). }
  unfold item_head in Hh. rewrite !andb_true_iff in Hh. destruct Hh as [[Hk Hi] Hs].
  unfold item_rest in Hr. rewrite !andb_true_iff in Hr. destruct Hr as [[[[[[Hp H1] H2] H3] H4] H5] _].
  rewrite forallb_forall in Hk. assert (k ∈ lit "id" :: _ITEM_FIELDS) as Hkey.
  { refine (proj1 (bool_decide_eq_true _) (Hk k _)). apply list_elem_of_In, list_elem_of_fmap. by exists (k, v). }
  change (lit "id" :: _ITEM_FIELDS) with (lit <$> ["id"; "snippet"; "document_name"; "effective_date";
    "superseded"; "locator"; "origin"; "wiki_page_id"; "conflict"]%string) in Hkey.
  cbn [fmap list_fmap] in Hkey. rewrite !elem_of_cons, elem_of_nil in Hkey.
  destruct Hkey as [->|[->|[->|[->|[->|[->|[->|[->|[->|[]]]]]]]]]]; rewrite ?Hg in *; try by destruct v.
  - destruct v as [| | | | | |l]; try done. apply locator_plain; [by eapply dict_get_wf|done].
  - assert (is_text "WIKI_DERIVED" (field "origin" item) = true) as Ht.
    { apply orb_true_iff in Hp as [Hp%bool_decide_eq_true|]; [|done]. exfalso. apply Hp.
      apply list_elem_of_fmap. by exists (lit "wiki_page_id", v). }
    unfold field in Ht. destruct (dict_get (lit "origin") item) as [o|]; [|done].
    destruct (Ho o eq_refl) as [_ Hsp]. specialize (Hsp Ht). unfold field in Hsp.
    rewrite Hg in Hsp. by destruct v.
Qed.

Section Messages.
Context `{estimator : TokenEstimator} `{float_repr_of : FloatText}.

#[local] Existing Instance python_json.

(** The text of a plan's payload reads back as the payload. *)
Lemma payload_reads_back records references budget prefix max_items validator shared st plan :
  Forall json_wf records →
  assemble_evidence_plan records references budget prefix max_items validator shared st
    = Return (Some plan) →
  json_wf (JObj (payload plan)) ∧ loads (dump (JObj (payload plan))) = Some (sort_json (JObj (payload plan))).
Proof.
  intros Hw H. destruct (assembled_payload _ _ _ _ _ _ _ _ _ Hw H) as (items & i & t & Hp & Hi).
  apply Forall_and in Hi as [Hwi Hv]. pose proof (payload_wf _ _ _ _ _ Hwi Hp) as Hwp. split; [done|].
  apply loads_dump; [done|].
  enough (plain (JObj (payload plan))) as -> by constructor. apply plain_obj.
  assert (plain (JArr (JObj <$> items))) as Hr.
  { apply plain_arr, Forall_fmap, Forall_forall. intros item Hin. rewrite Forall_forall in Hwi, Hv.
    apply valid_item_plain; [by apply Hwi|by apply Hv]. }
  unfold _payload in Hp. apply obind_inv in Hp as (o & _ & Hp). injection Hp as <-.
  destruct o as [s|]; unfold base_view, state_fields; repeat apply Forall_cons_2; cbn [snd]; try done.
  - by destruct (ss_degraded_reason s).
  - apply plain_arr, Forall_fmap. by apply Forall_true.
Qed.

(** [m] shows the payload of [plan]. *)
Record shows (m : ModelMessage) (plan : Plan) : Prop := {
  sw_role : role m = role_tool;
  sw_tool : ∃ n, msg_name m = Some n ∧ n ∈ RAG_EVIDENCE_TOOL_IDENTITIES;
  sw_content : content m = Some (dump (JObj (payload plan)));
  sw_plan : ∃ records references budget prefix max_items validator shared st,
    assemble_evidence_plan records references budget prefix max_items validator shared st
      = Return (Some plan) ∧
    Forall json_wf records ∧ ∀ r, JObj r ∈ records → fits_alone r
}.

(** Messages of a conversation with the sources of everything they show. *)
Inductive conversation : list ModelMessage → list (list N * json) → Prop :=
| says_nothing : conversation [] []
| says m ms sources :
    role m ≠ role_tool ∨ (∀ n, msg_name m = Some n → n ∉ RAG_EVIDENCE_TOOL_IDENTITIES) →
    conversation ms sources → conversation (m :: ms) sources
| shows_plan m ms plan sources :
    shows m plan → conversation ms sources → conversation (m :: ms) (plan_registry plan ++ sources).

Lemma resolve_plan m plan registry visible :
  shows m plan → list_to_map (plan_registry plan) ⊆ registry →
  (∀ k, k ∈ (plan_registry plan).*1 → visible !! k = None) →
  resolve_message registry visible m = Return (list_to_map (plan_registry plan) ∪ visible).
Proof.
  intros [Hro (n & Hn & Htool) Hc (rs & fs & b & pre & mx & va & sh & st & Hplan & Hw & Hfit)] Hreg Hvis.
  destruct (payload_reads_back _ _ _ _ _ _ _ _ _ Hw Hplan) as [Hwp Htext].
  destruct (assembled _ _ _ _ _ _ _ _ _ Hw Hplan)
    as (kept & rest & Hrec & Hok & Hnd & Hres & Hper & _ & _ & _ & _ & Hval).
  assert (NoDup (sh_entry <$> kept).*1) as Hnd' by (by rewrite <- list_fmap_compose).
  assert (∀ p, p ∈ kept → JObj (sh_record p) ∈ rs) as Hin.
  { intros p Hp. rewrite <- Hrec. apply (list_elem_of_fmap_2 (JObj ∘ sh_record)), elem_of_app. by left. }
  assert (∀ e, e ∈ sh_entry <$> kept → e ∈ plan_registry plan) as Hback by (intros e; by rewrite Hper).
  unfold resolve_message. rewrite Hro, Hn, Hc. rewrite !bool_decide_eq_true_2 by done. cbn [andb].
  replace (match dump (JObj (payload plan)) with c :: t => c :: t | [] => lit "null" end)
    with (dump (JObj (payload plan))) by reflexivity.
  rewrite Htext. change (sort_json (JObj (payload plan))) with (JObj (sorted (payload plan))).
  assert (NoDup (payload plan).*1) as Hnp by (by apply json_wf_obj in Hwp as [? _]).
  cbv iota. rewrite !sorted_field, text_sorted, Hres by done.
  change (JObj (sorted (payload plan))) with (sort_json (JObj (payload plan))).
  rewrite validate_sorted, Hval by done.
  assert (is_text "rag_view_v1" (field "evidence_format" (payload plan)) = true) as ->.
  { unfold validate_evidence_view in Hval. destruct (is_text _ _); [done|].
    by rewrite orb_true_r in Hval. }
  cbn [escaping mbind outcome_bind sort_json]. rewrite as_objects_sorted, list_fmap_compose, as_objects_of.
  rewrite <- list_fmap_compose. rewrite (resolve_all va fs); try done.
  - f_equal. f_equal. apply list_to_map_proper; [done|by rewrite Hper].
  - apply Forall_forall. intros p Hp. rewrite Forall_forall in Hw. by apply Hw, Hin.
  - apply Forall_forall. intros p Hp. by apply Hfit, Hin.
  - intros p Hp. eapply lookup_weaken; [|exact Hreg]. apply elem_of_list_to_map_1.
    + by rewrite Hper.
    + by apply Hback, (list_elem_of_fmap_2 sh_entry).
  - intros p Hp. apply Hvis. apply (list_elem_of_fmap_2 fst (plan_registry plan) (sh_entry p)).
    by apply Hback, (list_elem_of_fmap_2 sh_entry).
Qed.

Lemma resolve_other registry visible m :
  role m ≠ role_tool ∨ (∀ n, msg_name m = Some n → n ∉ RAG_EVIDENCE_TOOL_IDENTITIES) →
  resolve_message registry visible m = Return visible.
Proof.
  intros Hm. unfold resolve_message. destruct (_ && _) eqn:E; [|done].
  apply andb_true_iff in E as [Er%bool_decide_eq_true En]. destruct (msg_name m) as [n|]; [|done].
  apply bool_decide_eq_true in En. destruct Hm as [|Hm]; [done|]. by destruct (Hm n).
Qed.

Lemma sources_disjoint (l k : list (list N * json)) :
  (∀ i, i ∈ l.*1 → i ∉ k.*1) → (list_to_map l : gmap (list N) json) ##ₘ list_to_map k.
Proof.
  intros Hx. apply map_disjoint_list_to_map_l, Forall_forall. intros e He.
  apply not_elem_of_list_to_map_1, Hx. by apply list_elem_of_fmap_2.
Qed.

(** What the model can see always resolves.  Take a conversation in which
    retrieval messages show the payloads of assembled plans (each record alone
    fits the 64,000 bytes the check allows and can be encoded), with identifiers
    that do not clash.  Against any
    registry that holds the sources of these plans, the check of visible
    evidence succeeds and returns exactly these sources. *)
Lemma shown_evidence_resolves messages sources registry :
  conversation messages sources → NoDup sources.*1 → list_to_map sources ⊆ registry →
  visible_evidence_registry messages registry = Return (list_to_map sources).
Proof.
  intros Hc Hnd Hreg. unfold visible_evidence_registry.
  enough (∀ visible, (∀ k, k ∈ sources.*1 → visible !! k = None) →
    fold_raise (λ v m, resolve_message registry v m) messages visible
      = Return (list_to_map sources ∪ visible)) as H.
  { rewrite H by done. by rewrite (right_id_L ∅ (∪)). }
  induction Hc as [|m ms sources Hm Hc IH|m ms plan sources Hm Hc IH]; intros visible Hv.
  - cbn. by rewrite (left_id_L ∅ (∪)).
  - cbn [fold_raise]. rewrite resolve_other by done. by apply IH.
  - rewrite fmap_app in Hnd. apply NoDup_app in Hnd as (Hn1 & Hx & Hn2).
    rewrite list_to_map_app in Hreg |- *. cbn [fold_raise].
    rewrite (resolve_plan m plan) by
      (done || (by etrans; [apply map_union_subseteq_l|]) || (intros k Hk; apply Hv; set_solver)).
    pose proof (sources_disjoint _ _ Hx) as Hdis.
    rewrite IH; [|done| |].
    + f_equal. rewrite (assoc_L (∪)). f_equal. symmetry. by apply map_union_comm.
    + etrans; [by apply map_union_subseteq_r|exact Hreg].
    + intros k Hk. rewrite lookup_union_r; [apply Hv; set_solver|].
      apply not_elem_of_list_to_map_1. intros Hk'. by apply (Hx k).
Qed.
End Messages.

(** ** Witness *)

Definition sample_text : list N := dump sample_view.
#[local] Instance sample_floats : FloatText := λ t, t.
Definition sample_message (r : MessageRole) (name : option (list N)) (text : list N) : ModelMessage :=
  {| role := r; content := Some text; msg_name := name; tool_call_id := None; tool_calls := [] |}.
Definition sample_conversation : list ModelMessage :=
  [sample_message role_user None (lit "How long do refunds take?");
   sample_message role_tool (Some (lit "query_wiki")) sample_text].

Lemma sample_fits r : JObj r ∈ sample_records → fits_alone r.
Proof.
  assert (∀ record, match read_item (lit "E1") record with
    | Some item => negb (existsb is_surrogate (dump (JObj item))) &&
        forallb (λ b, Z.of_N (utf8_length (dump (JObj (base_view [item] (_instruction (lit "E")) b
                                                         (lit "SUCCESS"))))) <=? 64000) [true; false]
    | None => false end = true → fits_alone record) as Hf.
  { intros record. destruct (read_item _ _) as [item|] eqn:E; [|done].
    rewrite andb_true_iff, negb_true_iff. cbn [forallb]. rewrite andb_true_r, andb_true_iff, !Z.leb_le.
    intros (Hs & Ht & Hb). exists item. split; [done|]. split; [done|]. by intros []. }
  intros [[= ->]|[[= ->]|[]%not_elem_of_nil]%elem_of_cons]%elem_of_cons; apply Hf; vm_compute; reflexivity.
Qed.

Lemma shown_evidence_resolves_witness :
  length (plan_registry (sample_plan 1000)) = 2%nat ∧
  visible_evidence_registry (H := python_json) sample_conversation (list_to_map (plan_registry (sample_plan 1000)))
    = Return (list_to_map (plan_registry (sample_plan 1000))).
Proof.
  split; [vm_compute; reflexivity|].
  apply (shown_evidence_resolves (estimator := utf8_bytes)); [|apply (bool_decide_unpack _); vm_compute; exact I|done].
  apply says; [by left|]. rewrite <- (app_nil_r (plan_registry _)). apply shows_plan; [|constructor].
  split; [done| |done|].
  - exists (lit "query_wiki"). split; [done|]. apply (bool_decide_unpack _). vm_compute. exact I.
  - exists sample_records, [sample_reference "c1"; sample_reference "c2"], 1000, (lit "R00001E"), 10,
      (Some envelope_violation), true, sample_state.
    split; [vm_compute; reflexivity|]. split; [exact sample_records_wf|exact sample_fits].
Defined.
