(* ===== verification/SummaryValidation.v ===== *)
(** * Mechanical validation of a summary

    Model of [packages/agent_runtime/summary_validation.py]: what a model
    proposes as the summary of a frozen prefix is accepted only if it accounts
    for every source, keeps what must be kept and fits its budgets.

    Parameters: [json.loads] ([JsonText]), the [jsonschema] validator
    ([JsonSchema]: the paths of its errors in the order of the sort, [None]
    when it raises) and the token counter ([SummaryTokenCounter]: [None] when
    it raises or returns no integer).  The texts of [detail] are left out: they
    are diagnostics only.  The source reads the fields of a candidate while it
    validates them; here they are read first ([read_content]).  That a value
    passes the schema without having its shape, or with an empty source id
    (which [__post_init__] of an issue refuses), takes a validator that does not
    follow the schema; [escaped] stands for what is raised then, and the
    theorems show that it is not reached otherwise. *)

From stdpp Require Import base gmap list strings sorting.
From Stdlib Require Import ZArith NArith Lia.
From S2P Require Import Prelude.
From S2P Require Import Json.
From S2P Require Import JsonTheory.
From S2P Require Import TurnTranscript.
From S2P Require Import ContextMetadata.
From S2P Require Import Outcome.
From S2P Require Import JsonProjection.
From S2P Require Import ContextMemory.
From S2P Require Import UuidText.
From S2P Require Import RagEvidence.
From S2P Require Import EvidenceRecords.
From S2P Require Import SummaryPrompt.

Local Open Scope Z_scope.
Local Arguments lit : simpl never.

Definition MAX_CANDIDATE_BYTES : N := 4 * 1024 * 1024.
Definition MAX_CANDIDATE_DEPTH : N := 32.
Definition MAX_CANDIDATE_NODES : N := 100000.
Definition MAX_ITEM_CHARS : N := 1000000.

Inductive SummaryValidationCode :=
| INPUT_INVALID | CANDIDATE_MALFORMED | SCHEMA_INVALID | SOURCE_UNKNOWN | SOURCE_OUT_OF_SCOPE
| SOURCE_RANGE_UNCOVERED | COVERAGE_INVALID | PROTECTED_FACT_MISSING | REFERENCE_MISSING
| ACTION_REFERENCE_INVALID | ACTION_STATUS_INVALID | INSUFFICIENT_BUDGET | SUMMARY_BUDGET_EXCEEDED
| FINAL_VIEW_BUDGET_EXCEEDED.

Record SummaryValidationIssue := {
  is_code : SummaryValidationCode;
  is_path : list N;
  is_source_ids : list (list N)
}.
Definition issue (code : SummaryValidationCode) (path : list N) (sources : list (list N)) :
  SummaryValidationIssue := {| is_code := code; is_path := path; is_source_ids := sources |}.
(** An issue under a condition. *)
Definition issue_if (b : bool) (i : SummaryValidationIssue) : list SummaryValidationIssue :=
  if b then [i] else [].

Record SummaryTextItem := { ti_text : list N; ti_source_ids : list (list N) }.
Record SummaryActionItem := {
  ai_action_ref : list N;
  ai_status : SummaryActionStatus.t;
  ai_source_ids : list (list N)
}.

(** The content of a candidate. *)
Record SummaryContent := {
  cn_status : list N;
  cn_goal : SummaryTextItem;
  cn_decisions : list SummaryTextItem;
  cn_supported_facts : list SummaryTextItem;
  cn_conflicts : list SummaryTextItem;
  cn_open_questions : list SummaryTextItem;
  cn_completed_actions_refs : list SummaryActionItem;
  cn_next_steps : list SummaryTextItem;
  cn_omitted_source_ids : list (list N)
}.
Record ValidatedSummary := {
  vs_content : SummaryContent;
  vs_canonical_content : list N;
  vs_summary_estimated_tokens : Z;
  vs_final_view_text : list N;
  vs_final_view_estimated_tokens : Z;
  vs_covered_source_ids : list (list N)
}.
Record SummaryValidationResult := {
  vr_valid : bool;
  vr_issues : list SummaryValidationIssue;
  vr_candidate : option ValidatedSummary;
  vr_summary_estimated_tokens : Z;
  vr_final_view_estimated_tokens : Z;
  vr_covered_source_ids : list (list N);
  vr_omitted_source_ids : list (list N)
}.

(** ** Payloads *)

Definition _text_item_payload (i : SummaryTextItem) : json :=
  obj [("text", JStr (ti_text i)); ("source_ids", ids (ti_source_ids i))]%string.
Definition action_item_payload (a : SummaryActionItem) : json :=
  obj [("action_ref", JStr (ai_action_ref a));
       ("status", JStr (SummaryActionStatus.value (ai_status a)));
       ("source_ids", ids (ai_source_ids a))]%string.
Definition as_dict (c : SummaryContent) : json :=
  let items l := JArr (_text_item_payload <$> l) in
  obj [("status", JStr (cn_status c)); ("goal", _text_item_payload (cn_goal c));
       ("decisions", items (cn_decisions c)); ("supported_facts", items (cn_supported_facts c));
       ("conflicts", items (cn_conflicts c)); ("open_questions", items (cn_open_questions c));
       ("completed_actions_refs", JArr (action_item_payload <$> cn_completed_actions_refs c));
       ("next_steps", items (cn_next_steps c));
       ("omitted_source_ids", ids (cn_omitted_source_ids c))]%string.

(** ** Reading *)

Definition as_text (v : json) : option (list N) := match v with JStr s => Some s | _ => None end.
Definition read_list {A} (read : json → option A) (v : json) : option (list A) :=
  match v with JArr l => mapM read l | _ => None end.
Definition read_text_item (v : json) : option SummaryTextItem :=
  match v with
  | JObj l => t ← as_text (field "text" l); s ← read_list as_text (field "source_ids" l);
              Some {| ti_text := t; ti_source_ids := s |}
  | _ => None
  end.
Definition read_action (v : json) : option SummaryActionItem :=
  match v with
  | JObj l => r ← as_text (field "action_ref" l); t ← as_text (field "status" l);
              st ← SummaryActionStatus.of_text t; s ← read_list as_text (field "source_ids" l);
              Some {| ai_action_ref := r; ai_status := st; ai_source_ids := s |}
  | _ => None
  end.
Definition read_content (v : json) : option SummaryContent :=
  match v with
  | JObj l =>
      status ← as_text (field "status" l); goal ← read_text_item (field "goal" l);
      decisions ← read_list read_text_item (field "decisions" l);
      supported_facts ← read_list read_text_item (field "supported_facts" l);
      conflicts ← read_list read_text_item (field "conflicts" l);
      open_questions ← read_list read_text_item (field "open_questions" l);
      actions ← read_list read_action (field "completed_actions_refs" l);
      next_steps ← read_list read_text_item (field "next_steps" l);
      omitted ← read_list as_text (field "omitted_source_ids" l);
      Some {| cn_status := status; cn_goal := goal; cn_decisions := decisions;
              cn_supported_facts := supported_facts; cn_conflicts := conflicts;
              cn_open_questions := open_questions; cn_completed_actions_refs := actions;
              cn_next_steps := next_steps; cn_omitted_source_ids := omitted |}
  | _ => None
  end.

(** ** Issues of a candidate *)

(** [sorted(s)] of a set of texts *)
Definition sorted_set (s : gset (list N)) : list (list N) := sort_texts (elements s).
Definition set_of (l : list (list N)) : gset (list N) := list_to_set l.

Definition _add_unknown_sources (known : gset (list N)) (sources : list (list N)) (path : list N) :
  list SummaryValidationIssue :=
  (λ i, issue SOURCE_UNKNOWN path [i]) <$> sorted_set (set_of sources ∖ known).

Definition text_item_issues (known : gset (list N)) (path : list N) (i : SummaryTextItem) :
  list SummaryValidationIssue :=
  issue_if ((MAX_ITEM_CHARS <? len (ti_text i))%N || existsb (N.eqb 0) (ti_text i))
    (issue CANDIDATE_MALFORMED (path ++ lit ".text") [])
  ++ _add_unknown_sources known (ti_source_ids i) (path ++ lit ".source_ids").

Definition _TEXT_COLLECTIONS (c : SummaryContent) : list (string * list SummaryTextItem) :=
  [("decisions", cn_decisions c); ("supported_facts", cn_supported_facts c);
   ("conflicts", cn_conflicts c); ("open_questions", cn_open_questions c);
   ("next_steps", cn_next_steps c)]%string.
(** [f"$.{field}[{index}]"] *)
Definition item_path (field : string) (index : nat) : list N :=
  lit "$." ++ lit field ++ lit "[" ++ dump_nat (N.of_nat index) ++ lit "]".
Definition collection_issues (known : gset (list N)) (fl : string * list SummaryTextItem) :
  list SummaryValidationIssue :=
  concat (imap (λ index i, text_item_issues known (item_path fl.1 index) i) fl.2).
Definition text_items (c : SummaryContent) : list SummaryTextItem :=
  cn_goal c :: concat (snd <$> _TEXT_COLLECTIONS c).

Section Value.
Context `{decimals : UnicodeDecimal} (context : SummaryInputContext).

(** [{action.action_ref: action for action in context.completed_actions}] *)
Definition trusted_action (ref : list N) : option SummaryCompletedAction :=
  find (λ a, bool_decide (ca_action_ref a = ref)) (reverse (sc_completed_actions context)).
Definition action_issues (known seen : gset (list N)) (path : list N) (a : SummaryActionItem) :
  list SummaryValidationIssue :=
  _add_unknown_sources known (ai_source_ids a) (path ++ lit ".source_ids")
  ++ issue_if (bool_decide (ai_action_ref a ∈ seen))
       (issue ACTION_REFERENCE_INVALID (path ++ lit ".action_ref") (ai_source_ids a))
  ++ match trusted_action (ai_action_ref a) with
     | None => [issue ACTION_REFERENCE_INVALID (path ++ lit ".action_ref") (ai_source_ids a)]
     | Some authoritative =>
         if bool_decide (set_of (ai_source_ids a) ≠ set_of (ca_source_ids authoritative))
         then [issue ACTION_REFERENCE_INVALID (path ++ lit ".source_ids") (ai_source_ids a)]
         else issue_if (bool_decide (ai_status a ≠ ca_status authoritative))
                (issue ACTION_STATUS_INVALID (path ++ lit ".status") (ai_source_ids a))
     end.
Fixpoint actions_issues (known seen : gset (list N)) (index : nat) (actions : list SummaryActionItem) :
  list SummaryValidationIssue :=
  match actions with
  | [] => []
  | a :: rest =>
      action_issues known seen (item_path "completed_actions_refs" index) a
      ++ actions_issues known ({[ai_action_ref a]} ∪ seen) (S index) rest
  end.
Definition absent_actions (c : SummaryContent) : list SummaryValidationIssue :=
  (λ a, issue ACTION_REFERENCE_INVALID (lit "$.completed_actions_refs") (ca_source_ids a))
  <$> filter (λ a, ca_action_ref a ∉ ai_action_ref <$> cn_completed_actions_refs c)
        (sc_completed_actions context).

Definition cited_sources (c : SummaryContent) : gset (list N) :=
  set_of ((text_items c ≫= ti_source_ids) ++ (cn_completed_actions_refs c ≫= ai_source_ids)).
Definition required_citations : gset (list N) :=
  set_of ((sc_protected_facts context ≫= pf_source_ids)
          ++ (sc_required_references context ≫= rr_source_ids)
          ++ (sc_completed_actions context ≫= ca_source_ids)).

(** The sources of the prefix in [s], in order. *)
Definition in_prefix_order (s : gset (list N)) : list (list N) :=
  filter (λ i, i ∈ s) (sc_source_ids context).

Definition coverage_issues (c : SummaryContent) : list SummaryValidationIssue :=
  let all := set_of (sc_source_ids context) in
  let cited := cited_sources c in
  let omitted := set_of (cn_omitted_source_ids c) in
  (if bool_decide (cn_status c = lit "OK")
   then issue_if (bool_decide (required_citations ∖ cited ≠ ∅))
          (issue SOURCE_RANGE_UNCOVERED (lit "$") (sorted_set (required_citations ∖ cited)))
   else issue_if (bool_decide (omitted = ∅)) (issue COVERAGE_INVALID (lit "$.omitted_source_ids") []))
  ++ issue_if (bool_decide ((cited ∪ omitted) ∖ all ≠ ∅))
       (issue SOURCE_OUT_OF_SCOPE (lit "$") (sorted_set ((cited ∪ omitted) ∖ all)))
  ++ issue_if (bool_decide (all ∖ (cited ∪ omitted) ≠ ∅))
       (issue SOURCE_RANGE_UNCOVERED (lit "$") (in_prefix_order (all ∖ (cited ∪ omitted))))
  ++ issue_if (bool_decide (cn_status c = lit "INSUFFICIENT_BUDGET") && bool_decide (omitted ≠ all ∖ cited))
       (issue COVERAGE_INVALID (lit "$.omitted_source_ids")
          (in_prefix_order ((omitted ∖ (all ∖ cited)) ∪ ((all ∖ cited) ∖ omitted))))
  ++ issue_if (bool_decide (cited ∩ omitted ≠ ∅))
       (issue COVERAGE_INVALID (lit "$") (sorted_set (cited ∩ omitted))).

Definition _validate_protected_citations (c : SummaryContent) : list SummaryValidationIssue :=
  (λ f, issue PROTECTED_FACT_MISSING (lit "$.source_ids") (pf_source_ids f))
  <$> filter (λ f, ¬ set_of (pf_source_ids f) ⊆ cited_sources c) (sc_protected_facts context).

Definition reference_kept (c : SummaryContent) (r : SummaryRequiredReference) : bool :=
  existsb (λ i, _reference_occurs (rr_value r) (ti_text i) (rr_kind r)
                && bool_decide (set_of (rr_source_ids r) ⊆ set_of (ti_source_ids i))) (text_items c)
  || existsb (λ a, _reference_occurs (rr_value r) (ai_action_ref a) (rr_kind r)
                   && bool_decide (set_of (rr_source_ids r) ⊆ set_of (ai_source_ids a)))
       (cn_completed_actions_refs c).
Definition _validate_required_references (c : SummaryContent) : list SummaryValidationIssue :=
  (λ r, issue REFERENCE_MISSING (lit "$") (rr_source_ids r))
  <$> filter (λ r, reference_kept c r = false) (sc_required_references context).

Definition value_issues (c : SummaryContent) : list SummaryValidationIssue :=
  let known := set_of (sc_source_ids context) in
  _add_unknown_sources known (cn_omitted_source_ids c) (lit "$.omitted_source_ids")
  ++ text_item_issues known (lit "$.goal") (cn_goal c)
  ++ (_TEXT_COLLECTIONS c ≫= collection_issues known)
  ++ actions_issues known ∅ 0 (cn_completed_actions_refs c)
  ++ absent_actions c ++ coverage_issues c
  ++ _validate_protected_citations c ++ _validate_required_references c.
Definition covered_source_ids (c : SummaryContent) : list (list N) :=
  filter (λ i, i ∉ cn_omitted_source_ids c) (sc_source_ids context).

(** ** The final view *)

Definition _final_view_text `{JsonText} (canonical : list N) (covered : list (list N)) : option (list N) :=
  content ← loads canonical;
  canonical_json (obj
    [("untrusted_summary", obj [("trust", str "UNTRUSTED_DERIVED_SUMMARY"); ("content", content)]);
     ("source_attribution",
        JArr (index_payload <$> filter (λ s, ps_source_id s ∈ covered) (sc_sources context)));
     ("untrusted_omitted_sources",
        JArr ((λ s, obj [("trust", str "UNTRUSTED_SOURCE"); ("source", index_payload s);
                         ("content", JStr (ps_content s))]%string)
              <$> filter (λ s, ps_source_id s ∉ covered) (sc_sources context)));
     ("server_protected_facts", JArr (fact_payload <$> sc_protected_facts context));
     ("server_authoritative_actions",
        JArr ((λ a, JObj (action_payload a ++ [(lit "trust", str "SERVER_AUTHORITATIVE")]))
              <$> sc_completed_actions context))]%string).
End Value.

(** ** Text and tree *)

Inductive Candidate :=
| CandidateMapping (value : list (list N * json))
| CandidateBytes (bytes : list N)
| CandidateText (text : list N).

Definition between (a b c : N) : bool := (a <=? c)%N && (c <=? b)%N.
(** [bytes.decode("utf-8", errors="strict")] *)
Fixpoint decode_utf8 (t : list N) : option (list N) :=
  match t with
  | [] => Some []
  | b0 :: r0 =>
      if (b0 <? 128)%N then cons b0 <$> decode_utf8 r0
      else match r0 with
      | b1 :: r1 =>
          if between 194 223 b0 then
            if between 128 191 b1 then cons ((b0 - 192) * 64 + (b1 - 128))%N <$> decode_utf8 r1 else None
          else if negb (between (if (b0 =? 224)%N then 160 else if (b0 =? 240)%N then 144 else 128)
                                (if (b0 =? 237)%N then 159 else if (b0 =? 244)%N then 143 else 191) b1)
          then None
          else match r1 with
          | b2 :: r2 =>
              if negb (between 128 191 b2) then None
              else if between 224 239 b0
              then cons (((b0 - 224) * 64 + (b1 - 128)) * 64 + (b2 - 128))%N <$> decode_utf8 r2
              else match r2 with
              | b3 :: r3 =>
                  if between 240 244 b0 && between 128 191 b3
                  then cons ((((b0 - 240) * 64 + (b1 - 128)) * 64 + (b2 - 128)) * 64 + (b3 - 128))%N
                         <$> decode_utf8 r3
                  else None
              | [] => None
              end
          | [] => None
          end
      | [] => None
      end
  end.

(** [len(text.encode("utf-8")) <= MAX_CANDIDATE_BYTES]; a surrogate cannot be
    encoded. *)
Definition encodable (t : list N) : bool :=
  negb (existsb is_surrogate t) && (utf8_length t <=? MAX_CANDIDATE_BYTES)%N.
Definition _candidate_text (c : Candidate) : option (list N) :=
  match c with
  | CandidateMapping l => t ← canonical_json (JObj l); if encodable t then Some t else None
  | CandidateBytes b => if (MAX_CANDIDATE_BYTES <? len b)%N then None else decode_utf8 b
  | CandidateText t => if encodable t then Some t else None
  end.

(** The loop over [pending], which starts with its last element; [allowed] is how
    many nodes may still be counted. *)
Fixpoint bounded_tree (allowed : nat) (pending : list (json * N)) : bool :=
  match pending with
  | [] => true
  | (current, depth) :: rest =>
      match allowed with
      | O => false
      | S allowed =>
          if (MAX_CANDIDATE_DEPTH <? depth)%N then false
          else bounded_tree allowed
                 (match current with
                  | JObj l => reverse ((λ kv, (kv.2, (depth + 1)%N)) <$> l) ++ rest
                  | JArr l => reverse ((λ v, (v, (depth + 1)%N)) <$> l) ++ rest
                  | _ => rest
                  end)
      end
  end.
Definition _bounded_tree (v : json) : bool := bounded_tree (N.to_nat MAX_CANDIDATE_NODES) [(v, 0%N)].

(** ** The check *)

Inductive path_part := Key (k : list N) | Index (i : N).
Class JsonSchema := iter_errors : json → json → option (list (list path_part)).
Class SummaryTokenCounter := count : list N → option Z.

Definition _json_path (parts : list path_part) : list N :=
  foldl (λ path part, path ++ match part with
                              | Key k => lit "." ++ k
                              | Index i => lit "[" ++ dump_nat i ++ lit "]"
                              end) (lit "$") parts.

(** What a value that passed the schema without its shape leads to. *)
Inductive escaped := KeyError.

Section Candidate.
Context `{decimals : UnicodeDecimal} `{json_text : JsonText} `{schema : JsonSchema}
  `{counter : SummaryTokenCounter}.

Definition _strict_parse (text : list N) : option json :=
  v ← loads_strict text;
  match v with JObj _ => if _bounded_tree v then Some v else None | _ => None end.

Definition _schema_issues (v : json) : list SummaryValidationIssue :=
  match iter_errors summary_output_schema v with
  | None => [issue SCHEMA_INVALID (lit "$") []]
  | Some errors => (λ path, issue SCHEMA_INVALID (_json_path path) []) <$> errors
  end.

Definition _safe_count (text : list N) : option Z :=
  n ← count text; if n <? 0 then None else Some n.

Definition _invalid (context : SummaryInputContext) (issues : list SummaryValidationIssue)
    (tokens final_tokens : Z) (omitted : list (list N)) : SummaryValidationResult :=
  let omitted := filter (λ i, i ∈ sc_source_ids context) omitted in
  {| vr_valid := false; vr_issues := issues; vr_candidate := None;
     vr_summary_estimated_tokens := tokens; vr_final_view_estimated_tokens := final_tokens;
     vr_covered_source_ids := filter (λ i, i ∉ omitted) (sc_source_ids context);
     vr_omitted_source_ids := omitted |}.
(** What the handler of the exceptions returns. *)
Definition context_invalid : SummaryValidationResult :=
  {| vr_valid := false; vr_issues := [issue INPUT_INVALID (lit "$.context") []]; vr_candidate := None;
     vr_summary_estimated_tokens := 0; vr_final_view_estimated_tokens := 0;
     vr_covered_source_ids := []; vr_omitted_source_ids := [] |}.

(** The part from the canonical content on. *)
Definition check_budgets (context : SummaryInputContext) (c : SummaryContent) : SummaryValidationResult :=
  let omitted := cn_omitted_source_ids c in
  let covered := covered_source_ids context c in
  match canonical_json (as_dict c) with
  | None => context_invalid
  | Some canonical =>
      match _safe_count canonical with
      | None => _invalid context [issue INPUT_INVALID (lit "$.counter") []] 0 0 []
      | Some tokens =>
          if sc_target_budget_tokens context <? tokens
          then _invalid context [issue SUMMARY_BUDGET_EXCEEDED (lit "$") []] tokens 0 omitted
          else match _final_view_text context canonical covered with
          | None => context_invalid
          | Some view =>
              match _safe_count view with
              | None => _invalid context [issue INPUT_INVALID (lit "$.counter") []] tokens 0 []
              | Some final_tokens =>
                  if sc_final_view_budget_tokens context <? final_tokens
                  then _invalid context [issue FINAL_VIEW_BUDGET_EXCEEDED (lit "$.final_view") omitted]
                         tokens final_tokens omitted
                  else {| vr_valid := true; vr_issues := [];
                          vr_candidate := Some {| vs_content := c; vs_canonical_content := canonical;
                            vs_summary_estimated_tokens := tokens; vs_final_view_text := view;
                            vs_final_view_estimated_tokens := final_tokens;
                            vs_covered_source_ids := covered |};
                          vr_summary_estimated_tokens := tokens;
                          vr_final_view_estimated_tokens := final_tokens;
                          vr_covered_source_ids := covered; vr_omitted_source_ids := omitted |}
              end
          end
      end
  end.

Definition validate_summary_candidate (candidate : Candidate) (context : SummaryInputContext) :
  outcome escaped SummaryValidationResult :=
  match validate_summary_input_context context ≫= λ _, _candidate_text candidate with
  | None => Return context_invalid
  | Some text =>
      match _strict_parse text with
      | None => Return (_invalid context [issue CANDIDATE_MALFORMED (lit "$") []] 0 0 [])
      | Some value =>
          match _schema_issues value with
          | i :: r => Return (_invalid context (i :: r) 0 0 [])
          | [] =>
              c ← or_raise KeyError (read_content value);
              Return match value_issues context c with
                     | i :: r => _invalid context (i :: r) 0 0 (cn_omitted_source_ids c)
                     | [] =>
                         if bool_decide (cn_status c ≠ lit "OK")
                         then _invalid context
                                [issue INSUFFICIENT_BUDGET (lit "$.status") (cn_omitted_source_ids c)]
                                0 0 (cn_omitted_source_ids c)
                         else check_budgets context c
                     end
          end
      end
  end.
End Candidate.
