(* ===== verification/SummaryValidationTheory.v ===== *)
(** * When a summary has no issues

    The conditions behind the list of issues of [SummaryValidation.v], and the
    JSON schema of a candidate. *)

From stdpp Require Import base gmap list strings sorting.
From Stdlib Require Import ZArith NArith Lia.
From S2P Require Import Prelude.
From S2P Require Import Json.
From S2P Require Import JsonTheory.
From S2P Require Import TurnTranscript.
From S2P Require Import ContextMetadata.
From S2P Require Import Outcome.
From S2P Require Import JsonProjection.
From S2P Require Import JsonProjectionTheory.
From S2P Require Import ContextMemory.
From S2P Require Import UuidText.
From S2P Require Import RagEvidence.
From S2P Require Import EvidenceRecords.
From S2P Require Import SummaryPrompt.
From S2P Require Import SummaryValidation.

Local Open Scope Z_scope.
Local Arguments lit : simpl never.

(** ** Empty lists of issues *)

Lemma app_empty {A} (l k : list A) : l ++ k = [] ↔ l = [] ∧ k = [].
Proof. split; [apply app_eq_nil|by intros [-> ->]]. Qed.
Lemma fmap_empty_iff {A B} (f : A → B) l : f <$> l = [] ↔ l = [].
Proof. destruct l; cbn; naive_solver. Qed.
Lemma filter_empty_iff {A} (P : A → Prop) `{∀ x, Decision (P x)} l : filter P l = [] ↔ ∀ x, x ∈ l → ¬ P x.
Proof.
  induction l as [|x l IH]; [by split; [intros _ y ?%not_elem_of_nil|]|]. rewrite filter_cons. case_decide.
  - split; [done|]. intros H'. destruct (H' x); [by left|done].
  - rewrite IH. split; [intros Hl y [->|?]%elem_of_cons; auto|]. intros Hl y Hy. apply Hl. by right.
Qed.
Lemma concat_empty_iff {A} (ls : list (list A)) : concat ls = [] ↔ Forall (λ l, l = []) ls.
Proof. induction ls as [|l ls IH]; cbn; [done|]. by rewrite app_empty, IH, Forall_cons. Qed.
Lemma issue_if_empty b i : issue_if b i = [] ↔ b = false.
Proof. by destruct b. Qed.

Lemma sorted_set_empty s : sorted_set s = [] ↔ s = ∅.
Proof.
  unfold sorted_set, sort_texts. rewrite fmap_empty_iff. rewrite <- leibniz_equiv_iff, <- elements_empty_iff.
  split; [|by intros ->]. intros H.
  assert (((λ t, (t, tt)) <$> elements s) ≡ₚ []) as E by (by rewrite <- H, merge_sort_Permutation).
  apply Permutation_nil_r in E. by apply fmap_empty_iff in E.
Qed.

Lemma unknown_empty known sources path :
  _add_unknown_sources known sources path = [] ↔ set_of sources ⊆ known.
Proof.
  unfold _add_unknown_sources. rewrite fmap_empty_iff, sorted_set_empty. split.
  - intros E x Hx. destruct (decide (x ∈ known)); [done|].
    assert (x ∈ set_of sources ∖ known) as Hd by (by apply elem_of_difference).
    rewrite E in Hd. by apply elem_of_empty in Hd.
  - intros Hs. by apply subseteq_empty_difference_L.
Qed.

(** ** Text items *)

Definition text_ok (i : SummaryTextItem) : Prop :=
  (len (ti_text i) ≤ MAX_ITEM_CHARS)%N ∧ 0%N ∉ ti_text i.

Lemma nul_free s : existsb (N.eqb 0) s = false ↔ 0%N ∉ s.
Proof.
  induction s as [|c s IH]; [by split; [intros _ ?%not_elem_of_nil|]|].
  cbn [existsb]. by rewrite orb_false_iff, IH, not_elem_of_cons, N.eqb_neq.
Qed.
Lemma text_item_empty known path i :
  text_item_issues known path i = [] ↔ text_ok i ∧ set_of (ti_source_ids i) ⊆ known.
Proof.
  unfold text_item_issues, text_ok.
  by rewrite app_empty, unknown_empty, issue_if_empty, orb_false_iff, N.ltb_ge, nul_free.
Qed.

Lemma imap_empty {A B} (f : nat → A → list B) (P : A → Prop) l :
  (∀ i x, f i x = [] ↔ P x) → concat (imap f l) = [] ↔ Forall P l.
Proof.
  intros Hf. rewrite concat_empty_iff. revert f Hf. induction l as [|x l IH]; intros f Hf; cbn; [done|].
  rewrite !Forall_cons, Hf. apply and_iff_compat_l. apply (IH (f ∘ S)). intros i y. apply Hf.
Qed.

(** Every text item, with its citations. *)
Lemma text_items_empty known c :
  text_item_issues known (lit "$.goal") (cn_goal c) = [] ∧
  (_TEXT_COLLECTIONS c ≫= collection_issues known) = [] ↔
  Forall (λ i, text_ok i ∧ set_of (ti_source_ids i) ⊆ known) (text_items c).
Proof.
  rewrite text_item_empty. unfold text_items. rewrite Forall_cons. apply and_iff_compat_l.
  unfold _TEXT_COLLECTIONS. cbn [mbind list_bind fmap list_fmap concat snd].
  unfold collection_issues. cbn [fst snd]. rewrite !app_empty, !Forall_app.
  rewrite !(imap_empty _ (λ i, text_ok i ∧ set_of (ti_source_ids i) ⊆ known)) by (intros; apply text_item_empty).
  rewrite Forall_nil. tauto.
Qed.

(** ** Actions *)

Section Context_.
Context `{decimals : UnicodeDecimal} (context : SummaryInputContext).

(** The candidate reports the action as it was. *)
Definition as_recorded (a : SummaryActionItem) (t : SummaryCompletedAction) : Prop :=
  ai_action_ref a = ca_action_ref t ∧ ai_status a = ca_status t ∧
  set_of (ai_source_ids a) = set_of (ca_source_ids t).

Hypothesis (Hrefs : NoDup (ca_action_ref <$> sc_completed_actions context)).

Lemma trusted_action_spec ref t :
  trusted_action context ref = Some t ↔ t ∈ sc_completed_actions context ∧ ca_action_ref t = ref.
Proof.
  unfold trusted_action. set (l := reverse (sc_completed_actions context)).
  assert (NoDup (ca_action_ref <$> l)) as Hnd by (unfold l; by rewrite reverse_Permutation).
  assert (t ∈ sc_completed_actions context ↔ t ∈ l) as -> by (unfold l; by rewrite elem_of_reverse).
  clearbody l. induction l as [|x l IH]; cbn [find].
  { split; [done|]. by intros [?%not_elem_of_nil _]. }
  cbn in Hnd. apply NoDup_cons in Hnd as [Hx Hnd]. case_bool_decide as E.
  - split; [intros [= <-]; split; [by left|done]|].
    intros [[->|Ht]%elem_of_cons <-]; [done|]. exfalso. apply Hx. rewrite E.
    by apply list_elem_of_fmap_2.
  - rewrite IH by done. rewrite elem_of_cons. naive_solver.
Qed.

Lemma action_issues_empty known seen path a :
  action_issues context known seen path a = [] ↔
  set_of (ai_source_ids a) ⊆ known ∧ (ai_action_ref a ∉ seen) ∧
  ∃ t, t ∈ sc_completed_actions context ∧ as_recorded a t.
Proof.
  unfold action_issues. rewrite !app_empty, unknown_empty, issue_if_empty, bool_decide_eq_false.
  apply and_iff_compat_l, and_iff_compat_l. unfold as_recorded.
  destruct (trusted_action context (ai_action_ref a)) as [t|] eqn:E.
  - apply trusted_action_spec in E as [Ht Er].
    assert ((∃ t', t' ∈ sc_completed_actions context ∧ ai_action_ref a = ca_action_ref t' ∧
              ai_status a = ca_status t' ∧ set_of (ai_source_ids a) = set_of (ca_source_ids t')) ↔
            ai_status a = ca_status t ∧ set_of (ai_source_ids a) = set_of (ca_source_ids t)) as ->.
    { split; [|naive_solver]. intros (t' & Ht' & Er' & ?).
      assert (t' = t) as ->; [|done]. apply (inj Some).
      rewrite <- (proj2 (trusted_action_spec (ai_action_ref a) t)) by done.
      symmetry. by apply trusted_action_spec. }
    case_bool_decide as Es; [naive_solver|]. rewrite issue_if_empty, bool_decide_eq_false.
    split; [intros Hst%dec_stable; done|naive_solver].
  - split; [done|]. intros (t & Ht & Er & _). exfalso.
    assert (trusted_action context (ai_action_ref a) = Some t) by (by apply trusted_action_spec). congruence.
Qed.

Lemma actions_issues_empty known seen index actions :
  actions_issues context known seen index actions = [] ↔
  NoDup (ai_action_ref <$> actions) ∧ (∀ a, a ∈ actions → ai_action_ref a ∉ seen) ∧
  Forall (λ a, set_of (ai_source_ids a) ⊆ known ∧
               ∃ t, t ∈ sc_completed_actions context ∧ as_recorded a t) actions.
Proof.
  revert seen index. induction actions as [|a actions IH]; intros seen index; cbn [actions_issues].
  { split; [|done]. intros _. split; [constructor|]. split; [by intros a ?%not_elem_of_nil|done]. }
  rewrite app_empty, action_issues_empty, IH. cbn [fmap list_fmap]. rewrite NoDup_cons, Forall_cons.
  split.
  - intros ((H1 & H2 & H3) & Hnd & Hs & Hf). split_and!; try done.
    + intros (b & E & Hb)%list_elem_of_fmap. specialize (Hs b Hb). set_solver.
    + intros b [->|Hb]%elem_of_cons; [done|]. specialize (Hs b Hb). set_solver.
  - intros ((Ha & Hnd) & Hs & (H1 & H3) & Hf). split_and!; try done.
    + apply Hs. by left.
    + intros b Hb. rewrite elem_of_union, elem_of_singleton. intros [E|E].
      * apply Ha. rewrite <- E. by apply list_elem_of_fmap_2.
      * apply (Hs b); [by right|done].
Qed.

Lemma absent_empty c :
  absent_actions context c = [] ↔
  ∀ t, t ∈ sc_completed_actions context → ca_action_ref t ∈ ai_action_ref <$> cn_completed_actions_refs c.
Proof.
  unfold absent_actions. rewrite fmap_empty_iff, filter_empty_iff.
  split; intros H' t Ht; specialize (H' t Ht); [by apply dec_stable|tauto].
Qed.

(** ** Coverage *)

Definition all_sources : gset (list N) := set_of (sc_source_ids context).

Lemma cites_item c i : i ∈ text_items c → set_of (ti_source_ids i) ⊆ cited_sources c.
Proof.
  intros Hi x. unfold set_of, cited_sources, set_of. rewrite !elem_of_list_to_set, elem_of_app. intros Hx. left.
  apply list_elem_of_bind. eauto.
Qed.
Lemma cites_action c a : a ∈ cn_completed_actions_refs c → set_of (ai_source_ids a) ⊆ cited_sources c.
Proof.
  intros Hi x. unfold set_of, cited_sources, set_of. rewrite !elem_of_list_to_set, elem_of_app. intros Hx. right.
  apply list_elem_of_bind. eauto.
Qed.
Lemma cited_inv c x :
  x ∈ cited_sources c →
  (∃ i, i ∈ text_items c ∧ x ∈ ti_source_ids i) ∨
  ∃ a, a ∈ cn_completed_actions_refs c ∧ x ∈ ai_source_ids a.
Proof.
  unfold cited_sources, set_of. rewrite elem_of_list_to_set, elem_of_app, !list_elem_of_bind. naive_solver.
Qed.

Lemma nonempty_empty (X : gset (list N)) i : issue_if (bool_decide (X ≠ ∅)) i = [] ↔ X = ∅.
Proof. rewrite issue_if_empty, bool_decide_eq_false. split; [apply dec_stable|tauto]. Qed.
Lemma difference_empty (X Y : gset (list N)) : X ∖ Y = ∅ ↔ X ⊆ Y.
Proof.
  split; [|intros; by apply subseteq_empty_difference_L]. intros E x Hx. destruct (decide (x ∈ Y)); [done|].
  assert (x ∈ X ∖ Y) as Hd by (by apply elem_of_difference). rewrite E in Hd. by apply elem_of_empty in Hd.
Qed.

Lemma coverage_empty c :
  cn_status c = lit "OK" →
  coverage_issues context c = [] ↔
  required_citations context ⊆ cited_sources c ∧
  cited_sources c ∪ set_of (cn_omitted_source_ids c) = all_sources ∧
  cited_sources c ∩ set_of (cn_omitted_source_ids c) = ∅.
Proof.
  intros Hs. unfold coverage_issues. cbv zeta. rewrite Hs.
  rewrite (bool_decide_eq_true_2 (lit "OK" = lit "OK")) by done.
  rewrite (bool_decide_eq_false_2 (lit "OK" = lit "INSUFFICIENT_BUDGET")) by (apply (bool_decide_unpack _); vm_compute; exact I). cbn [andb].
  fold all_sources. rewrite !app_empty, !nonempty_empty, !difference_empty.
  split; [|by intros (? & -> & ->)].
  intros (H1 & H2 & H3 & _ & H4). split_and!; try done. apply set_eq. intros x. split; [apply H2|apply H3].
Qed.

(** ** Faithful summaries *)

Record Faithful (c : SummaryContent) : Prop := {
  fa_texts : Forall text_ok (text_items c);
  fa_sources : cited_sources c ∪ set_of (cn_omitted_source_ids c) = all_sources;
  fa_disjoint : cited_sources c ∩ set_of (cn_omitted_source_ids c) = ∅;
  fa_actions_once : NoDup (ai_action_ref <$> cn_completed_actions_refs c);
  fa_actions_true : ∀ a, a ∈ cn_completed_actions_refs c →
    ∃ t, t ∈ sc_completed_actions context ∧ as_recorded a t;
  fa_actions_all : ∀ t, t ∈ sc_completed_actions context →
    ∃ a, a ∈ cn_completed_actions_refs c ∧ as_recorded a t;
  fa_facts : ∀ f, f ∈ sc_protected_facts context → set_of (pf_source_ids f) ⊆ cited_sources c;
  fa_references : ∀ r, r ∈ sc_required_references context → reference_kept c r = true
}.

Lemma reference_cited c r :
  reference_kept c r = true → set_of (rr_source_ids r) ⊆ cited_sources c.
Proof.
  unfold reference_kept. rewrite orb_true_iff, !existsb_exists.
  intros [(i & Hi & H)|(a & Ha & H)]; apply andb_true_iff in H as [_ H%bool_decide_eq_true];
    (etrans; [exact H|]); [apply cites_item|apply cites_action]; by apply list_elem_of_In.
Qed.
Lemma required_cited c : Faithful c → required_citations context ⊆ cited_sources c.
Proof.
  intros [_ _ _ _ _ Ha Hf Hr] x. unfold required_citations, set_of.
  rewrite elem_of_list_to_set, !elem_of_app, !list_elem_of_bind.
  intros [(f & Hx & Hin)|[(r & Hx & Hin)|(t & Hx & Hin)]].
  - apply (Hf f Hin). by apply elem_of_list_to_set.
  - apply (reference_cited c r); [by apply Hr|]. by apply elem_of_list_to_set.
  - destruct (Ha t Hin) as (a & Ha' & _ & _ & Es). apply (cites_action c a Ha'). rewrite Es.
    by apply elem_of_list_to_set.
Qed.

Lemma faithful_iff c :
  cn_status c = lit "OK" → value_issues context c = [] ↔ Faithful c.
Proof.
  intros Hs. unfold value_issues. cbv zeta. fold all_sources.
  rewrite !app_empty, unknown_empty, actions_issues_empty, absent_empty, coverage_empty by done.
  unfold _validate_protected_citations, _validate_required_references.
  rewrite !fmap_empty_iff, !filter_empty_iff.
  assert (∀ P Q R : Prop, P ∧ Q ∧ R ↔ (P ∧ Q) ∧ R) as assoc by tauto. rewrite (assoc (_ = [])), text_items_empty.
  split.
  - intros (_ & Hi & (Hnd & _ & Hact) & Habs & (_ & Hsrc & Hdis) & Hf & Hr).
    rewrite Forall_forall in Hi. rewrite Forall_forall in Hact. split; try done.
    + apply Forall_forall. intros i Hin. by apply Hi.
    + intros a Ha. by apply Hact.
    + intros t Ht. pose proof (Habs t Ht) as (a & E & Ha)%list_elem_of_fmap. exists a. split; [done|].
      destruct (Hact a Ha) as (_ & t' & Ht' & Hrec). destruct Hrec as (E' & Hrest).
      assert (t' = t) as ->; [|done]. apply (inj Some).
      rewrite <- (proj2 (trusted_action_spec (ai_action_ref a) t)) by done.
      symmetry. by apply trusted_action_spec.
    + intros f Hin. by apply dec_stable, Hf.
    + intros r Hin. specialize (Hr r Hin). by destruct (reference_kept c r).
  - intros F. pose proof (required_cited c F) as Hreq. destruct F as [Ht Hsrc Hdis Hnd Hact Habs Hf Hr].
    assert (cited_sources c ⊆ all_sources) as Hc by (rewrite <- Hsrc; apply union_subseteq_l).
    split; [rewrite <- Hsrc; apply union_subseteq_r|].
    rewrite Forall_forall in Ht. rewrite !Forall_forall. split_and!; try done.
    + intros i Hin. split; [by apply Ht|]. etrans; [by apply cites_item|done].
    + intros a Ha. split; [|by apply Hact]. etrans; [by apply cites_action|done].
    + intros t Hin. destruct (Habs t Hin) as (a & Ha & E & _). rewrite <- E. by apply list_elem_of_fmap_2.
    + intros f Hin. specialize (Hf f Hin). tauto.
    + intros r Hin. by rewrite Hr.
Qed.
End Context_.

(** ** The schema

    The part of JSON Schema (draft 2020-12) that [summary_output_schema] uses:
    texts, sets of non-empty texts, arrays and closed objects all of whose
    properties are required. *)

Inductive Schema :=
| SText (min_length : option Z) (enum : option (list (list N)))
| STextSet (min_items : option Z)
| SArray (item : Schema)
| SObject (properties : list (list N * Schema)).

Definition keyword (k : string) (o : option json) : list (list N * json) :=
  match o with Some v => [(lit k, v)] | None => [] end.
(** The schema as a JSON value. *)
Fixpoint schema_fields (s : Schema) : list (list N * json) :=
  match s with
  | SText m e => [(lit "type", str "string")] ++ keyword "minLength" (JInt <$> m)
                 ++ keyword "enum" ((λ l, JArr (JStr <$> l)) <$> e)
  | STextSet m => [(lit "type", str "array")] ++ keyword "minItems" (JInt <$> m)
                  ++ [(lit "uniqueItems", JBool true);
                      (lit "items", obj [("type", str "string"); ("minLength", JInt 1)]%string)]
  | SArray i => [(lit "type", str "array"); (lit "items", JObj (schema_fields i))]
  | SObject ps =>
      [(lit "type", str "object"); (lit "additionalProperties", JBool false);
       (lit "required", JArr (JStr <$> ps.*1));
       (lit "properties", JObj ((fix go ps := match ps with
                                 | [] => []
                                 | (k, p) :: r => (k, JObj (schema_fields p)) :: go r
                                 end) ps))]
  end.
Definition schema_value (s : Schema) : json :=
  JObj ((lit "$schema", str "https://json-schema.org/draft/2020-12/schema") :: schema_fields s).

(** Does the instance satisfy the schema? *)
Fixpoint conforms (s : Schema) (v : json) : bool :=
  match s, v with
  | SText m e, JStr t =>
      (default 0 m <=? Z.of_nat (length t)) && match e with Some l => bool_decide (t ∈ l) | None => true end
  | STextSet m, JArr l =>
      (default 0 m <=? Z.of_nat (length l))
      && forallb (λ v, match v with JStr (_ :: _) => true | _ => false end) l
      && bool_decide (NoDup (dump <$> l))
  | SArray i, JArr l => forallb (conforms i) l
  | SObject ps, JObj l =>
      forallb (λ k, bool_decide (k ∈ ps.*1)) l.*1
      && (fix go ps := match ps with
          | [] => true
          | (k, p) :: r => match dict_get k l with Some v => conforms p v | None => false end && go r
          end) ps
  | _, _ => false
  end.

Definition item_schema : Schema :=
  SObject [(lit "text", SText (Some 1) None); (lit "source_ids", STextSet (Some 1))].
Definition action_schema : Schema :=
  SObject [(lit "action_ref", SText (Some 1) None);
           (lit "status", SText None (Some (SummaryActionStatus.value <$> SummaryActionStatus.all)));
           (lit "source_ids", STextSet (Some 1))].
Definition summary_schema : Schema :=
  SObject [(lit "status", SText None (Some [lit "OK"; lit "INSUFFICIENT_BUDGET"]));
           (lit "goal", item_schema); (lit "decisions", SArray item_schema);
           (lit "supported_facts", SArray item_schema); (lit "conflicts", SArray item_schema);
           (lit "open_questions", SArray item_schema);
           (lit "completed_actions_refs", SArray action_schema);
           (lit "next_steps", SArray item_schema); (lit "omitted_source_ids", STextSet None)].
(** What is relied on of [jsonschema]: no error exactly for the instances of
    the schema. *)
Definition follows_draft `{JsonSchema} : Prop :=
  ∀ v, iter_errors (schema_value summary_schema) v = Some [] ↔ conforms summary_schema v = true.

Lemma summary_schema_value : summary_output_schema = schema_value summary_schema.
Proof. vm_compute. reflexivity. Qed.

(** ** Reading an instance of the schema *)

Lemma object_field ps v :
  conforms (SObject ps) v = true →
  ∃ l, v = JObj l ∧ ∀ k p, (lit k, p) ∈ ps → conforms p (field k l) = true.
Proof.
  destruct v as [| | | | | |l]; try done. cbn [conforms]. intros [_ H]%andb_true_iff. exists l. split; [done|].
  intros k p. induction ps as [|[k' p'] ps IH]; [by intros ?%not_elem_of_nil|].
  apply andb_true_iff in H as [Hv H]. intros [[= <- <-]|Hin]%elem_of_cons; [|by apply IH].
  unfold field. by destruct (dict_get (lit k) l).
Qed.

Lemma text_reads m e v : conforms (SText m e) v = true → ∃ t, as_text v = Some t ∧
  match e with Some l => t ∈ l | None => True end.
Proof.
  destruct v as [| | | |t| |]; try done. cbn [conforms]. intros [_ H]%andb_true_iff. exists t. split; [done|].
  destruct e; [by apply bool_decide_eq_true in H|done].
Qed.
Lemma list_reads {A} (read : json → option A) l :
  (∀ v, v ∈ l → is_Some (read v)) → is_Some (read_list read (JArr l)).
Proof. intros H. apply mapM_is_Some, Forall_forall, H. Qed.
Lemma text_set_reads m v : conforms (STextSet m) v = true → is_Some (read_list as_text v).
Proof.
  destruct v as [| | | | |l|]; try done. cbn [conforms]. rewrite !andb_true_iff, forallb_forall.
  intros [[_ H] _]. apply list_reads. intros v Hv%list_elem_of_In. specialize (H v Hv). by destruct v.
Qed.
Lemma array_reads {A} s (read : json → option A) v :
  (∀ w, conforms s w = true → is_Some (read w)) → conforms (SArray s) v = true → is_Some (read_list read v).
Proof.
  intros Hr. destruct v as [| | | | |l|]; try done. cbn [conforms]. rewrite forallb_forall. intros H.
  apply list_reads. intros w Hw%list_elem_of_In. by apply Hr, H.
Qed.
Lemma item_reads v : conforms item_schema v = true → is_Some (read_text_item v).
Proof.
  intros (l & -> & H)%object_field. cbn [read_text_item].
  destruct (text_reads _ _ _ (H "text"%string _ ltac:(by left))) as (t & -> & _).
  destruct (text_set_reads _ _ (H "source_ids"%string _ ltac:(right; by left))) as (s & ->).
  by eexists.
Qed.
Lemma action_reads v : conforms action_schema v = true → is_Some (read_action v).
Proof.
  intros (l & -> & H)%object_field. cbn [read_action].
  destruct (text_reads _ _ _ (H "action_ref"%string _ ltac:(by left))) as (r & -> & _).
  destruct (text_reads _ _ _ (H "status"%string _ ltac:(right; by left))) as (t & -> & Ht).
  destruct (text_set_reads _ _ (H "source_ids"%string _ ltac:(right; right; by left))) as (s & ->).
  cbn [mbind option_bind].
  assert (is_Some (SummaryActionStatus.of_text t)) as [st ->]; [|by eexists].
  apply list_elem_of_fmap in Ht as (st & -> & _). by destruct st; eexists; vm_compute.
Qed.
Lemma content_reads v : conforms summary_schema v = true →
  ∃ c, read_content v = Some c ∧ cn_status c ∈ [lit "OK"; lit "INSUFFICIENT_BUDGET"].
Proof.
  intros (l & -> & H)%object_field. cbn [read_content].
  destruct (text_reads _ _ _ (H "status"%string _ ltac:(by left))) as (t & -> & Ht).
  destruct (item_reads _ (H "goal"%string _ ltac:(right; by left))) as (g & ->).
  assert (∀ k, (lit k, SArray item_schema) ∈ match summary_schema with SObject ps => ps | _ => [] end →
    is_Some (read_list read_text_item (field k l))) as Hitems.
  { intros k Hk. by apply (array_reads item_schema); [apply item_reads|apply H]. }
  destruct (Hitems "decisions"%string) as [? ->]; [by do 2 right; left|].
  destruct (Hitems "supported_facts"%string) as [? ->]; [by do 3 right; left|].
  destruct (Hitems "conflicts"%string) as [? ->]; [by do 4 right; left|].
  destruct (Hitems "open_questions"%string) as [? ->]; [by do 5 right; left|].
  destruct (array_reads action_schema read_action (field "completed_actions_refs" l)) as [? ->];
    [exact action_reads|by apply H; do 6 right; left|].
  destruct (Hitems "next_steps"%string) as [? ->]; [by do 7 right; left|].
  destruct (text_set_reads _ _ (H "omitted_source_ids"%string _ ltac:(by do 8 right; left))) as [? ->].
  cbn [mbind option_bind]. by eexists.
Qed.
