(* ===== verification/SummaryValidationProperties.v ===== *)
(** * An accepted summary may replace its sources

    Theorems about [validate_summary_candidate] ([SummaryValidation.v]). *)

From stdpp Require Import base gmap list strings sorting.
From Stdlib Require Import ZArith NArith Lia.
From S2P Require Import Prelude.
From S2P Require Import Json.
From S2P Require Import JsonTheory.
From S2P Require Import TurnTranscript.
From S2P Require Import ContextMetadata.
From S2P Require Import Outcome.
From S2P Require Import JsonProjection.
From S2P Require Import JsonProjectionTheory.
From S2P Require Import ContextMemory.
From S2P Require Import JsonParser.
From S2P Require Import UuidText.
From S2P Require Import RagEvidence.
From S2P Require Import EvidenceRecords.
From S2P Require Import EvidencePlanTheory.
From S2P Require Import EvidenceRegistry.
From S2P Require Import SummaryPrompt.
From S2P Require Import SummaryValidation.
From S2P Require Import SummaryValidationTheory.

Local Open Scope Z_scope.
Local Arguments lit : simpl never.

(** ** Values without floats *)

(** A value that Python can hold and that has no float in it. *)
Definition floatless (v : json) : Prop := json_wf v ∧ plain v.

Lemma floatless_arr l : Forall floatless l → floatless (JArr l).
Proof. intros [Hw Hp]%Forall_and. split; [by apply json_wf_arr|by apply plain_arr]. Qed.
Lemma floatless_obj l : NoDup l.*1 → Forall (λ kv, floatless kv.2) l → floatless (JObj l).
Proof. intros Hn [Hw Hp]%Forall_and. split; [by apply json_wf_obj|by apply plain_obj]. Qed.
Lemma floatless_text s : floatless (JStr s).
Proof. done. Qed.
Lemma floatless_map {A} (f : A → json) l : (∀ x, floatless (f x)) → floatless (JArr (f <$> l)).
Proof. intros H. apply floatless_arr, Forall_fmap, Forall_true, H. Qed.
Lemma floatless_ids l : floatless (ids l).
Proof. apply floatless_map, floatless_text. Qed.

Lemma plain_members v : plain v → match v with
  | JArr l => Forall plain l
  | JObj l => Forall (λ kv, plain kv.2) l
  | _ => True
  end.
Proof.
  unfold plain. destruct v as [| | | | |l|l]; try done; cbn [float_texts]; intros H;
    induction l as [|x l IH]; try done; cbn in H; apply app_eq_nil in H as [? ?]; constructor; auto.
Qed.
Lemma finite_plain v : plain v → all_finite v = true.
Proof.
  induction v as [| | | | |l IH|l IH] using json_ind'; try done; intros H%plain_members;
    cbn [all_finite]; apply forallb_forall; intros x Hx%list_elem_of_In;
    rewrite Forall_forall in IH, H; auto.
Qed.
Lemma sort_floatless v : floatless v → floatless (sort_json v).
Proof.
  intros [Hw Hp]. split; [by apply sort_json_wf|]. revert Hw Hp.
  induction v as [| | | | |l IH|l IH] using json_ind'; try done.
  - rewrite json_wf_arr. intros Hw Hp%plain_members. apply plain_arr, Forall_fmap.
    rewrite Forall_forall in IH, Hw, Hp |- *. intros v Hv. cbn. by apply IH; [|apply Hw|apply Hp].
  - rewrite json_wf_obj. intros [Hn Hw] Hp%plain_members. rewrite sort_json_obj by done.
    apply plain_obj, Forall_fmap. rewrite Forall_forall in IH, Hw, Hp |- *. intros kv Hv. cbn.
    unfold obj_items in Hv. rewrite merge_sort_Permutation in Hv. by apply IH; [|apply Hw|apply Hp].
Qed.

(** ** The final view *)

Lemma item_floatless i : floatless (_text_item_payload i).
Proof.
  apply floatless_obj; [by_keys|]. repeat apply Forall_cons_2; cbn; try done; apply floatless_ids.
Qed.
Lemma action_floatless a : floatless (action_item_payload a).
Proof.
  apply floatless_obj; [by_keys|]. repeat apply Forall_cons_2; cbn; try done; apply floatless_ids.
Qed.
Lemma as_dict_floatless c : floatless (as_dict c).
Proof.
  apply floatless_obj; [by_keys|]. repeat apply Forall_cons_2; cbn [fst snd]; try done.
  all: first [apply item_floatless|apply floatless_ids|apply floatless_map; apply item_floatless
             |apply floatless_map; apply action_floatless].
Qed.

(** What the final view says. *)
Definition omitted_source (s : SummaryPromptSource) : json :=
  obj [("trust", str "UNTRUSTED_SOURCE"); ("source", index_payload s);
       ("content", JStr (ps_content s))]%string.
Definition recorded_action (a : SummaryCompletedAction) : json :=
  JObj (action_payload a ++ [(lit "trust", str "SERVER_AUTHORITATIVE")]).
Definition view_fields (context : SummaryInputContext) (c : SummaryContent) : list (list N * json) :=
  let covered := covered_source_ids context c in
  [(lit "untrusted_summary",
      obj [("trust", str "UNTRUSTED_DERIVED_SUMMARY"); ("content", sort_json (as_dict c))]%string);
   (lit "source_attribution",
      JArr (index_payload <$> filter (λ s, ps_source_id s ∈ covered) (sc_sources context)));
   (lit "untrusted_omitted_sources",
      JArr (omitted_source <$> filter (λ s, ps_source_id s ∉ covered) (sc_sources context)));
   (lit "server_protected_facts", JArr (fact_payload <$> sc_protected_facts context));
   (lit "server_authoritative_actions", JArr (recorded_action <$> sc_completed_actions context))].

Lemma index_floatless s : floatless (index_payload s).
Proof. apply floatless_obj; [by_keys|]. by repeat apply Forall_cons_2. Qed.
Lemma view_floatless context c : floatless (JObj (view_fields context c)).
Proof.
  apply floatless_obj; [by_keys|]. repeat apply Forall_cons_2; cbn [snd]; try done.
  - apply floatless_obj; [by_keys|]. repeat apply Forall_cons_2; cbn [fst snd]; try done.
    apply sort_floatless, as_dict_floatless.
  - apply floatless_map, index_floatless.
  - apply floatless_map. intros s. apply floatless_obj; [by_keys|].
    repeat apply Forall_cons_2; cbn [fst snd]; try done. apply index_floatless.
  - apply floatless_map. intros f. apply floatless_obj; [by_keys|].
    repeat apply Forall_cons_2; cbn [fst snd]; try done. apply floatless_ids.
  - apply floatless_map. intros a. apply floatless_obj; [by_keys|].
    repeat apply Forall_cons_2; cbn [fst snd]; try done. apply floatless_ids.
Qed.

Lemma dump_floatless v : floatless v → canonical_json v = Some (dump v).
Proof. intros [_ Hp]. by rewrite canonical_json_dump, finite_plain. Qed.

Lemma context_actions_distinct `{UnicodeDecimal} context :
  _validate_context context = true → NoDup (ca_action_ref <$> sc_completed_actions context).
Proof.
  unfold _validate_context. intros Hc.
  repeat match goal with Hx : _ && _ = true |- _ => apply andb_true_iff in Hx as [Hx ?] end.
  by eapply bool_decide_eq_true.
Qed.

Section Summaries.
Context `{decimals : UnicodeDecimal} `{schema : JsonSchema} `{counter : SummaryTokenCounter}
  `{float_repr_of : FloatText}.
#[local] Existing Instance python_json.

Lemma reads_floatless strict v : floatless v → json_loads strict (dump v) = Some (sort_json v).
Proof. intros [Hw Hp]. apply loads_dump; [done|]. by rewrite Hp. Qed.

Lemma final_view context c :
  _final_view_text context (dump (as_dict c)) (covered_source_ids context c)
  = Some (dump (JObj (view_fields context c))).
Proof.
  unfold _final_view_text.
  change (loads (dump (as_dict c))) with (json_loads false (dump (as_dict c))).
  rewrite reads_floatless by apply as_dict_floatless. cbn [mbind option_bind].
  exact (dump_floatless (JObj (view_fields context c)) (view_floatless context c)).
Qed.

(** The count of [text] is known and within the budget. *)
Definition within (budget : Z) (text : list N) : Prop := ∃ n, count text = Some n ∧ 0 ≤ n ≤ budget.

(** Candidates that may be accepted, and what they say. *)
Record acceptable (candidate : Candidate) (context : SummaryInputContext) (c : SummaryContent) : Prop := {
  ac_context : _validate_context context = true;
  ac_value : ∃ text value, _candidate_text candidate = Some text ∧ loads_strict text = Some value ∧
    _bounded_tree value = true ∧ conforms summary_schema value = true ∧ read_content value = Some c;
  ac_status : cn_status c = lit "OK";
  ac_faithful : Faithful context c;
  ac_summary : within (sc_target_budget_tokens context) (dump (as_dict c));
  ac_view : within (sc_final_view_budget_tokens context) (dump (JObj (view_fields context c)))
}.

(** What is returned for an accepted candidate. *)
Record accepts (context : SummaryInputContext) (c : SummaryContent) (r : SummaryValidationResult) : Prop := {
  at_valid : vr_valid r = true;
  at_issues : vr_issues r = [];
  at_candidate : ∃ s, vr_candidate r = Some s ∧ vs_content s = c ∧
    vs_canonical_content s = dump (as_dict c) ∧
    vs_final_view_text s = dump (JObj (view_fields context c)) ∧
    vs_covered_source_ids s = covered_source_ids context c ∧
    count (vs_canonical_content s) = Some (vs_summary_estimated_tokens s) ∧
    count (vs_final_view_text s) = Some (vs_final_view_estimated_tokens s)
}.
Definition rejects (r : SummaryValidationResult) : Prop :=
  vr_valid r = false ∧ vr_candidate r = None ∧ vr_issues r ≠ [].

Lemma safe_count_spec text :
  match _safe_count text with
  | Some n => count text = Some n ∧ ∀ budget, within budget text ↔ n ≤ budget
  | None => ∀ budget, ¬ within budget text
  end.
Proof.
  unfold _safe_count, within. destruct (count text) as [n|]; cbn; [|naive_solver].
  destruct (Z.ltb_spec n 0).
  - intros budget (n' & [= <-] & ?). lia.
  - split; [done|]. intros budget. split; [intros (n' & [= <-] & ?); lia|]. eauto.
Qed.

Lemma budgets_spec context c :
  let fits := within (sc_target_budget_tokens context) (dump (as_dict c)) ∧
    within (sc_final_view_budget_tokens context) (dump (JObj (view_fields context c))) in
  (fits ∧ accepts context c (check_budgets context c)) ∨ (rejects (check_budgets context c) ∧ ¬ fits).
Proof.
  unfold check_budgets. cbv zeta. rewrite (dump_floatless _ (as_dict_floatless c)), final_view.
  pose proof (safe_count_spec (dump (as_dict c))) as Hn.
  pose proof (safe_count_spec (dump (JObj (view_fields context c)))) as Hm.
  destruct (_safe_count (dump (as_dict c))) as [n|]; [|right; split; [done|by intros [?%Hn _]]].
  destruct Hn as [En Hn]. rewrite Hn.
  destruct (Z.ltb_spec (sc_target_budget_tokens context) n); [right; split; [done|lia]|].
  destruct (_safe_count (dump (JObj (view_fields context c)))) as [m|];
    [|right; split; [done|by intros [_ ?%Hm]]].
  destruct Hm as [Em Hm]. rewrite Hm.
  destruct (Z.ltb_spec (sc_final_view_budget_tokens context) m); [right; split; [done|lia]|].
  left. split; [done|]. split; [done|done|]. eexists. by split_and!.
Qed.

Lemma acceptable_unique candidate context c c' :
  acceptable candidate context c → acceptable candidate context c' → c = c'.
Proof.
  intros [_ (t & v & Ht & Hv & _ & _ & Hc) _ _ _ _] [_ (t' & v' & Ht' & Hv' & _ & _ & Hc') _ _ _ _].
  rewrite Ht in Ht'. injection Ht' as <-. rewrite Hv in Hv'. injection Hv' as <-. congruence.
Qed.

(** The two outcomes of a validation. *)
Lemma validation_spec candidate context :
  follows_draft →
  ∃ r, validate_summary_candidate candidate context = Return r ∧
    ((∃ c, acceptable candidate context c ∧ accepts context c r) ∨
     (rejects r ∧ ∀ c, ¬ acceptable candidate context c)).
Proof.
  intros law. unfold validate_summary_candidate, validate_summary_input_context.
  destruct (_validate_context context) eqn:Hc.
  2:{ eexists. split; [done|]. right. split; [done|]. intros c []. congruence. }
  pose proof (context_actions_distinct context Hc) as Hrefs. cbn [mbind option_bind].
  destruct (_candidate_text candidate) as [text|] eqn:Ht.
  2:{ eexists. split; [done|]. right. split; [done|]. intros c [_ (? & ? & ? & ?)]. congruence. }
  destruct (_strict_parse text) as [value|] eqn:Hp.
  2:{ eexists. split; [done|]. right. split; [done|].
      intros c [_ (text' & value & Ht' & Hl & Hb & Hv & _)]. assert (text' = text) as -> by congruence.
      unfold _strict_parse in Hp. rewrite Hl in Hp. cbn [mbind option_bind] in Hp.
      destruct value; try done. by rewrite Hb in Hp. }
  assert (loads_strict text = Some value ∧ _bounded_tree value = true) as [Hl Hb].
  { unfold _strict_parse in Hp. apply bind_Some in Hp as (v & Hl & Hp). destruct v; try done.
    destruct (_bounded_tree _) eqn:E; [|done]. by injection Hp as <-. }
  unfold _schema_issues. rewrite summary_schema_value.
  assert (∀ c, acceptable candidate context c → conforms summary_schema value = true ∧ read_content value = Some c)
    as Hacc.
  { intros c [_ (text' & value' & Ht' & Hl' & _ & Hv & Hr)]. rewrite Ht in Ht'. injection Ht' as <-.
    rewrite Hl in Hl'. by injection Hl' as <-. }
  pose proof (law value) as Hlaw.
  destruct (iter_errors (schema_value summary_schema) value) as [[|e es]|].
  2,3: eexists; (split; [done|]); right; (split; [done|]); intros c [Hv _]%Hacc; by apply Hlaw in Hv.
  destruct (content_reads value) as (c & Hread & _); [by apply Hlaw|]. cbn [fmap list_fmap].
  rewrite Hread. cbn [or_raise mbind outcome_bind].
  assert (∀ c', acceptable candidate context c' → c' = c) as Huniq
    by (intros c' [_ ?]%Hacc; congruence).
  assert (∀ r, rejects r → ¬ acceptable candidate context c →
    ∃ r', Return (E := escaped) r = Return r' ∧
      ((∃ c', acceptable candidate context c' ∧ accepts context c' r') ∨
       (rejects r' ∧ ∀ c', ¬ acceptable candidate context c'))) as refuse.
  { intros r Hrej Hna. exists r. split; [done|]. right. split; [done|].
    intros c' Hc'. by rewrite (Huniq c' Hc') in Hc'. }
  destruct (decide (cn_status c = lit "OK")) as [Hs|Hs].
  2:{ destruct (value_issues context c); [rewrite bool_decide_eq_true_2 by done|];
        (apply refuse; [done|by intros []]). }
  pose proof (faithful_iff context Hrefs c Hs) as Hf.
  destruct (value_issues context c) as [|i rest].
  2:{ apply refuse; [done|]. intros []. by apply Hf in ac_faithful0. }
  rewrite bool_decide_eq_false_2 by tauto.
  destruct (budgets_spec context c) as [[[Hn Hm] Ha]|[Hrej Hno]].
  - eexists. split; [done|]. left. exists c. split; [|done]. split; try done; [|by apply Hf].
    exists text, value. split_and!; try done. by apply Hlaw.
  - apply refuse; [done|]. intros []. tauto.
Qed.

(** C7. A summary is accepted exactly when it is faithful.  Given a schema
    validator that follows JSON Schema, validation always returns a verdict.
    It is positive exactly when the context is valid, the text of the candidate
    is within its bounds, strict JSON of bounded size and an instance of the
    schema with status [OK], every source of the prefix is either cited or
    declared omitted, the recorded actions are reported each once with their
    status and sources, the sources of every protected fact are cited, every
    required reference occurs in an item that cites its sources, and both the
    summary and the final view fit their budgets.  The accepted content is what
    the candidate says; a negative verdict has an issue and no content. *)
Theorem summary_accepted_iff_faithful candidate context :
  follows_draft →
  ∃ r, validate_summary_candidate candidate context = Return r ∧
    (vr_valid r = true ↔ ∃ c, acceptable candidate context c) ∧
    (∀ c, acceptable candidate context c → accepts context c r) ∧
    (vr_valid r = false → vr_candidate r = None ∧ vr_issues r ≠ []).
Proof.
  intros law. destruct (validation_spec candidate context law) as (r & Hr & [(c & Hc & Ha)|[[Hv Hn] Hno]]).
  - exists r. split; [done|]. pose proof (at_valid _ _ _ Ha) as Ht. rewrite Ht. split; [split; [intros _; by exists c|done]|].
    split; [|done]. intros c' Hc'. by rewrite (acceptable_unique _ _ _ _ Hc' Hc).
  - exists r. split; [done|]. rewrite Hv. split; [|split; [|done]].
    + split; [done|]. intros (c & Hc). by apply Hno in Hc.
    + intros c Hc. by apply Hno in Hc.
Qed.

(** C8. An accepted summary loses nothing that must be kept.  If validation
    hands out a summary, its text and its final view are within their budgets,
    and it cites sources of the prefix only.  The final view reads back as a
    mapping that holds the summary under an untrusted label, the exact text of
    every protected fact and the recorded state of every action; and every
    source of the prefix is cited by an item of the summary, or the view carries
    its whole content. *)
Theorem accepted_summary_loses_nothing candidate context r s :
  follows_draft → validate_summary_candidate candidate context = Return r → vr_candidate r = Some s →
  let c := vs_content s in
  vs_summary_estimated_tokens s ≤ sc_target_budget_tokens context ∧
  vs_final_view_estimated_tokens s ≤ sc_final_view_budget_tokens context ∧
  cited_sources c ⊆ set_of (sc_source_ids context) ∧
  ∃ view summary omitted, json_loads true (vs_final_view_text s) = Some (JObj view) ∧
    field "untrusted_summary" view = JObj summary ∧
    field "trust" summary = str "UNTRUSTED_DERIVED_SUMMARY" ∧
    field "content" summary = sort_json (as_dict c) ∧
    field "server_protected_facts" view = JArr (sort_json ∘ fact_payload <$> sc_protected_facts context) ∧
    field "server_authoritative_actions" view
      = JArr (sort_json ∘ recorded_action <$> sc_completed_actions context) ∧
    field "untrusted_omitted_sources" view = JArr omitted ∧
    ∀ source, source ∈ sc_sources context →
      (∃ i, i ∈ text_items c ∧ ps_source_id source ∈ ti_source_ids i) ∨
      (∃ a, a ∈ cn_completed_actions_refs c ∧ ps_source_id source ∈ ai_source_ids a) ∨
      sort_json (omitted_source source) ∈ omitted.
Proof.
  intros law Hr Hs. destruct (validation_spec candidate context law) as (r' & Hr' & Hcases).
  rewrite Hr in Hr'. injection Hr' as <-.
  destruct Hcases as [(c & Hc & [_ _ (s' & Hs' & <- & Hcan & Hview & _ & Hn & Hm)])|[(_ & Hnone & _) _]];
    [|congruence].
  rewrite Hs in Hs'. injection Hs' as <-. destruct Hc as [_ _ _ F (n & En & Hn') (m & Em & Hm')].
  rewrite Hcan in Hn. rewrite Hview in Hm. cbv zeta.
  split; [assert (n = vs_summary_estimated_tokens s) by congruence; lia|].
  split; [assert (m = vs_final_view_estimated_tokens s) by congruence; lia|].
  split; [change (cited_sources (vs_content s) ⊆ all_sources context);
          rewrite <- (fa_sources _ _ F); apply union_subseteq_l|].
  destruct (view_floatless context (vs_content s)) as [Hw _].
  assert (NoDup (view_fields context (vs_content s)).*1) as Hnd by (by apply json_wf_obj in Hw as [? _]).
  exists (sorted (view_fields context (vs_content s))),
    (sorted [(lit "trust", str "UNTRUSTED_DERIVED_SUMMARY");
             (lit "content", sort_json (as_dict (vs_content s)))]). eexists.
  split; [rewrite Hview; by apply (reads_floatless true _ (view_floatless _ _))|].
  rewrite !sorted_field by done. split; [reflexivity|].
  split; [by rewrite sorted_field by by_keys|].
  split; [rewrite sorted_field by by_keys; apply (sort_json_idem (as_dict _)), as_dict_floatless|].
  split; [by cbn; rewrite list_fmap_compose|]. split; [by cbn; rewrite list_fmap_compose|].
  split; [reflexivity|]. intros source Hin.
  destruct (decide (ps_source_id source ∈ cited_sources (vs_content s))) as [Hc|Hc].
  { destruct (cited_inv _ _ Hc); auto. }
  do 2 right. apply list_elem_of_fmap_2, list_elem_of_fmap_2, list_elem_of_filter. split; [|done].
  unfold covered_source_ids. rewrite list_elem_of_filter. intros [Hno _]. apply Hno.
  assert (ps_source_id source ∈ all_sources context) as Hall
    by (apply elem_of_list_to_set; by apply list_elem_of_fmap_2).
  rewrite <- (fa_sources _ _ F) in Hall. apply elem_of_union in Hall as [?|Ho]; [done|].
  by apply elem_of_list_to_set in Ho.
Qed.
End Summaries.

(** ** A summary of two sources, the second omitted *)

Module SummarySample.
#[local] Open Scope string_scope.

Definition source (i : string) (sequence : Z) (content : string) : SummaryPromptSource :=
  {| ps_source_id := lit i; ps_workspace_id := lit "w"; ps_thread_id := lit "t"; ps_identity := lit i;
     ps_revision := lit "r"; ps_sequence := sequence; ps_watermark := 3; ps_role := lit "USER";
     ps_speaker := lit "u"; ps_occurred_at := lit "2026"; ps_content := lit content;
     ps_original_ref := lit "o"; ps_summary_eligible := true; ps_exchange_complete := true |}.
Definition context : SummaryInputContext :=
  {| sc_workspace_id := lit "w"; sc_thread_id := lit "t"; sc_permission_snapshot := lit "p";
     sc_task_goal := lit "g"; sc_prefix_first_sequence := 1; sc_prefix_last_sequence := 2;
     sc_watermark := 3; sc_sources := [source "s1" 1 "limit 42 kg"; source "s2" 2 "thanks"];
     sc_protected_facts :=
       [{| pf_fact_ref := lit "f"; pf_text := lit "limit 42"; pf_source_ids := [lit "s1"] |}];
     sc_completed_actions :=
       [{| ca_action_ref := lit "a"; ca_status := SummaryActionStatus.UNKNOWN_OUTCOME;
           ca_source_ids := [lit "s1"] |}];
     sc_required_references :=
       [{| rr_reference_id := lit "n"; rr_kind := NUMBER; rr_value := lit "42";
           rr_source_ids := [lit "s1"] |}];
     sc_source_budget_tokens := 4000; sc_target_budget_tokens := 2000;
     sc_final_view_budget_tokens := 3000; sc_prefix_complete := true;
     sc_protected_manifest_complete := true; sc_action_manifest_complete := true;
     sc_reference_manifest_complete := true |}.
Definition content (goal : string) : SummaryContent :=
  {| cn_status := lit "OK"; cn_goal := {| ti_text := lit goal; ti_source_ids := [lit "s1"] |};
     cn_decisions := []; cn_supported_facts := []; cn_conflicts := []; cn_open_questions := [];
     cn_completed_actions_refs :=
       [{| ai_action_ref := lit "a"; ai_status := SummaryActionStatus.UNKNOWN_OUTCOME;
           ai_source_ids := [lit "s1"] |}];
     cn_next_steps := []; cn_omitted_source_ids := [lit "s2"] |}.
Definition candidate (goal : string) : Candidate := CandidateText (dump (as_dict (content goal))).

#[local] Instance digits : UnicodeDecimal :=
  {| py_decimal c := if between 48 57 c then Some (c - 48)%N else None |}.
#[local] Instance validator : JsonSchema :=
  λ schema v, if conforms summary_schema v then Some [] else Some [[]].
#[local] Instance one_per_character : SummaryTokenCounter := λ t, Some (Z.of_nat (length t)).
#[local] Instance as_written : FloatText := λ t, t.
#[local] Existing Instance python_json.

Lemma validator_follows : follows_draft.
Proof. intros v. unfold iter_errors, validator. by destruct (conforms summary_schema v). Qed.

(** The verdict on a candidate. *)
Definition verdict (goal : string) : option (bool * list SummaryValidationCode) :=
  match validate_summary_candidate (candidate goal) context with
  | Return r => Some (vr_valid r, is_code <$> vr_issues r)
  | _ => None
  end.

Lemma sample_accepted : verdict "up to 42 kg" = Some (true, []).
Proof. vm_compute. reflexivity. Qed.
(** The number is not kept: 421 is another one. *)
Lemma sample_refused : verdict "up to 421 kg" = Some (false, [REFERENCE_MISSING]).
Proof. vm_compute. reflexivity. Qed.

Lemma summary_accepted_iff_faithful_witness :
  ∃ c, acceptable (candidate "up to 42 kg") context c.
Proof.
  destruct (summary_accepted_iff_faithful (candidate "up to 42 kg") context validator_follows)
    as (r & Hr & Hv & _).
  apply Hv. pose proof sample_accepted as E. unfold verdict in E. rewrite Hr in E. by injection E.
Defined.

(** The accepted summary of the sample. *)
Definition accepted : option (SummaryValidationResult * ValidatedSummary) :=
  match validate_summary_candidate (candidate "up to 42 kg") context with
  | Return r => pair r <$> vr_candidate r
  | _ => None
  end.
Lemma accepted_some : is_Some accepted.
Proof. vm_compute. by eexists. Qed.

Lemma accepted_summary_loses_nothing_witness :
  ∃ s view omitted, json_loads true (vs_final_view_text s) = Some (JObj view) ∧
    field "untrusted_omitted_sources" view = JArr omitted ∧
    (lit "s2" ∉ cited_sources (vs_content s) → sort_json (omitted_source (source "s2" 2 "thanks")) ∈ omitted).
Proof.
  destruct accepted_some as [[r s] E]. unfold accepted in E.
  destruct (validate_summary_candidate (candidate "up to 42 kg") context) as [r'|] eqn:Hr; [|done].
  destruct (vr_candidate r') as [s'|] eqn:Hs; [|done]. injection E as <- <-.
  destruct (accepted_summary_loses_nothing (candidate "up to 42 kg") context r' s' validator_follows Hr Hs)
    as (_ & _ & _ & view & summary & omitted & Hl & _ & _ & _ & _ & _ & Ho & Hall).
  exists s', view, omitted. split; [done|]. split; [done|]. intros Hno.
  assert (source "s2" 2 "thanks" ∈ sc_sources context) as Hin by (right; left).
  destruct (Hall _ Hin) as [(i & Hi & H)|[(a & Ha & H)|H]]; [| |done]; destruct Hno.
  - apply (cites_item _ i Hi). by apply elem_of_list_to_set.
  - apply (cites_action _ a Ha). by apply elem_of_list_to_set.
Defined.
End SummarySample.
