(* ===== verification/HistoryEvidence.v ===== *)
(** * Evidence restored from earlier turns

    Model of [packages/agent_runtime/history_evidence.py]: before the messages
    of an earlier turn are sent again, everything they cite must still be
    authorized and come from a snapshot that both runs have frozen.

    Arguments whose Python type is checked first have that type here (messages,
    registry, the sequences of bindings); the elements of a sequence of
    bindings are any values, as are the permissions.  Every exception other
    than [FORBIDDEN] becomes [HISTORY_EVIDENCE_INVALID], so the helpers
    return options. *)

From stdpp Require Import base gmap list strings sorting.
From Stdlib Require Import ZArith NArith Lia.
From S2P Require Import Prelude.
From S2P Require Import Json.
From S2P Require Import JsonTheory.
From S2P Require Import TurnTranscript.
From S2P Require Import ContextMetadata.
From S2P Require Import Outcome.
From S2P Require Import JsonProjection.
From S2P Require Import ContextMemory.
From S2P Require Import JsonParser.
From S2P Require Import RagEvidence.
From S2P Require Import EvidenceRecords.
From S2P Require Import EvidencePlan.
From S2P Require Import EvidencePlanTheory.
From S2P Require Import EvidencePlanProperties.
From S2P Require Import EvidenceRegistry.

Local Open Scope Z_scope.
Local Arguments lit : simpl never.

Inductive HistoryEvidenceError := HISTORY_EVIDENCE_INVALID | FORBIDDEN.

Definition _REQUIRED_PERMISSIONS : list (list N) := lit <$> ["knowledge_run"; "tool_run"]%string.
Definition _SNAPSHOT_HASH_FIELDS : list string := ["snapshot_hash"; "snapshot_content_hash"]%string.

Definition granted (permissions : list json) (p : list N) : bool :=
  existsb (λ v, match v with JStr s => bool_decide (s = p) | _ => false end) permissions.
(** Anything that is not a text, hashable or not, is refused. *)
Definition _require_permissions (permissions : list json) : bool :=
  forallb (λ v, match v with JStr _ => true | _ => false end) permissions
  && forallb (granted permissions) _REQUIRED_PERMISSIONS.

(** ** The exchange *)

Abbreviation rag_calls := (gmap (list N) (list N)).

(** A tool call of an assistant message: the retrieval calls by identifier, and
    the identifiers seen. *)
Definition register_call (st : rag_calls * gset (list N)) (call : ModelToolCall) :
  option (rag_calls * gset (list N)) :=
  let '(rag, seen) := st in
  let retrieval := bool_decide (call_name call ∈ RAG_EVIDENCE_TOOL_IDENTITIES) in
  match provider_tool_call_id call with
  | Some [] => None
  | Some i => if bool_decide (i ∈ seen) then None
              else Some (if retrieval then <[i := call_name call]> rag else rag, {[i]} ∪ seen)
  | None => if retrieval then None else Some (rag, seen)
  end.
Fixpoint register_calls (st : rag_calls * gset (list N)) (calls : list ModelToolCall) :
  option (rag_calls * gset (list N)) :=
  match calls with
  | [] => Some st
  | c :: rest => st' ← register_call st c; register_calls st' rest
  end.
Definition assistant_calls (messages : list ModelMessage) : list ModelToolCall :=
  filter (λ m, role m = role_assistant) messages ≫= tool_calls.

Section Exchange.
Context `{JsonText}.

(** The payload of the result of a retrieval call. *)
Definition payload_ok (m : ModelMessage) : bool :=
  match loads (match content m with Some (c :: t) => c :: t | _ => lit "null" end) with
  | Some (JObj p) =>
      if is_text "ERROR" (field "status" p) then
        match field "evidence_format" p with JNull => bool_decide (lit "results" ∉ p.*1) | _ => false end
      else
        is_text "rag_view_v1" (field "evidence_format" p)
        && match validate_evidence_view (JObj p), field "results" p with
           | Return true, JArr results =>
               negb (bool_decide (msg_name m = Some (lit "search_knowledge"))
                     && has_origin "WIKI_DERIVED" (as_objects results))
           | _, _ => false
           end
  | _ => false
  end.

Definition check_result (rag : rag_calls) (seen : gset (list N)) (m : ModelMessage) :
  option (gset (list N)) :=
  let of_retrieval := match msg_name m with
                      | Some n => bool_decide (n ∈ RAG_EVIDENCE_TOOL_IDENTITIES)
                      | None => false
                      end in
  let called := tool_call_id m ≫= λ i, pair i <$> rag !! i in
  if negb (bool_decide (role m = role_tool)) then Some seen
  else match called with
  | None => if of_retrieval then None else Some seen
  | Some (i, name) =>
      if bool_decide (msg_name m = Some name) && bool_decide (i ∉ seen) && payload_ok m
      then Some ({[i]} ∪ seen) else None
  end.
Fixpoint check_results (rag : rag_calls) (seen : gset (list N)) (messages : list ModelMessage) :
  option (gset (list N)) :=
  match messages with
  | [] => Some seen
  | m :: rest => seen' ← check_result rag seen m; check_results rag seen' rest
  end.

(** An entry of the registry: exactly a reference and a record in its envelope. *)
Definition entry_ok (e : json) : bool :=
  match e with
  | JObj e => has_exactly [lit "reference"; lit "record"] e
              && match field "record" e with
                 | JObj record => bool_decide (envelope_violation record = None)
                 | _ => false
                 end
  | _ => false
  end.

Definition _validate_compact_exchange (messages : list ModelMessage) (registry : gmap (list N) json) :
  option (gmap (list N) json) :=
  '(rag, _) ← register_calls (∅, ∅) (assistant_calls messages);
  results ← check_results rag ∅ messages;
  if bool_decide (results = dom rag) then
    match visible_evidence_registry messages registry with
    | Return visible =>
        if bool_decide (dom visible = dom registry) && forallb entry_ok (map_to_list visible).*2
        then Some visible else None
    | Raise _ => None
    end
  else None.
End Exchange.

(** ** Bindings *)

Definition _text (v : json) : option (list N) :=
  match v with JStr s => if bool_decide (py_strip s = []) then None else Some s | _ => None end.

Definition as_mapping (v : json) : option dict := match v with JObj l => Some l | _ => None end.
Definition _bindings (values : list json) : option (list dict) := mapM as_mapping values.

Definition _hash_value (binding : dict) (fields : list string) : option (list N) :=
  values ← mapM _text (omap (λ k, dict_get (lit k) binding) fields);
  match values with
  | h :: rest => if bool_decide (Forall (h =.) rest) then Some h else None
  | [] => None
  end.

Abbreviation pair_key := (list N * list N)%type.

(** A fold that refuses a key it has seen. *)
Fixpoint index_by {A} (read : dict → option (pair_key * A)) (index : gmap pair_key A)
    (bindings : list dict) : option (gmap pair_key A) :=
  match bindings with
  | [] => Some index
  | b :: rest =>
      '(k, v) ← read b;
      if bool_decide (is_Some (index !! k)) then None else index_by read (<[k := v]> index) rest
  end.

Definition snapshot_binding (b : dict) : option (pair_key * list N) :=
  kb ← _text (field "knowledge_base_id" b); s ← _text (field "snapshot_id" b);
  h ← _hash_value b _SNAPSHOT_HASH_FIELDS; Some ((kb, s), h).
Definition _snapshot_index (values : list json) : option (gmap pair_key (list N)) :=
  _bindings values ≫= index_by snapshot_binding ∅.

Definition wiki_binding (b : dict) : option (pair_key * list N) :=
  kb ← _text (field "knowledge_base_id" b); p ← _text (field "wiki_publication_id" b);
  h ← _text (field "publication_hash" b); Some ((kb, p), h).
(** At most one publication per knowledge base. *)
Fixpoint index_wiki (seen : gset (list N)) (index : gmap pair_key (list N)) (bindings : list dict) :
  option (gmap pair_key (list N)) :=
  match bindings with
  | [] => Some index
  | b :: rest =>
      '(k, h) ← wiki_binding b;
      if bool_decide (is_Some (index !! k)) || bool_decide (k.1 ∈ seen) then None
      else index_wiki ({[k.1]} ∪ seen) (<[k := h]> index) rest
  end.
Definition _wiki_index (values : list json) : option (gmap pair_key (list N)) :=
  _bindings values ≫= index_wiki ∅ ∅.

Record ResolvedWiki := { rw_publication_hash : list N; rw_snapshot_id : list N; rw_snapshot_hash : list N }.
Definition resolved_binding (b : dict) : option (pair_key * ResolvedWiki) :=
  '(k, h) ← wiki_binding b;
  s ← _text (field "snapshot_id" b); sh ← _text (field "snapshot_hash" b);
  Some (k, {| rw_publication_hash := h; rw_snapshot_id := s; rw_snapshot_hash := sh |}).
Definition _resolved_wiki_index (values : list json) : option (gmap pair_key ResolvedWiki) :=
  _bindings values ≫= index_by resolved_binding ∅.

(** The five indexes. *)
Record Indexes := {
  ix_source : gmap pair_key (list N);
  ix_current : gmap pair_key (list N);
  ix_source_wiki : gmap pair_key (list N);
  ix_current_wiki : gmap pair_key (list N);
  ix_resolved : gmap pair_key ResolvedWiki
}.

(** The same snapshot is frozen in both runs. *)
Definition frozen_in_both (ix : Indexes) (k : pair_key) : bool :=
  match ix_source ix !! k, ix_current ix !! k with
  | Some h, Some h' => bool_decide (h = h')
  | _, _ => false
  end.
Definition resolved_ok (ix : Indexes) (k : pair_key) (hash : list N) (r : ResolvedWiki) : bool :=
  bool_decide (k.2 = rw_snapshot_id r) && bool_decide (rw_publication_hash r = hash)
  && match ix_source ix !! k, ix_current ix !! k with
     | None, None => true
     | Some h, Some h' => bool_decide (h = rw_snapshot_hash r) && bool_decide (h' = rw_snapshot_hash r)
     | _, _ => false
     end.

Definition binding_ok (ix : Indexes) (e : json) : bool :=
  match e with
  | JObj e =>
      match field "reference" e, field "record" e with
      | JObj reference, JObj record =>
          match _text (field "knowledge_base_id" reference), _text (field "snapshot_id" reference) with
          | Some kb, Some s =>
              if negb (is_text "WIKI_DERIVED" (field "origin" record)) then frozen_in_both ix (kb, s)
              else match _text (field "publication_id" record), _text (field "publication_hash" record) with
              | Some p, Some h =>
                  bool_decide (ix_source_wiki ix !! (kb, p) = Some h)
                  && bool_decide (ix_current_wiki ix !! (kb, p) = Some h)
                  && match ix_resolved ix !! (kb, p) with
                     | Some r => resolved_ok ix (kb, s) h r
                     | None => frozen_in_both ix (kb, s)
                     end
              | _, _ => false
              end
          | _, _ => false
          end
      | _, _ => false
      end
  | _ => false
  end.
Definition _validate_bindings (ix : Indexes) (visible : gmap (list N) json) : bool :=
  forallb (binding_ok ix) (map_to_list visible).*2.

(** ** The check *)

Section Check.
Context `{JsonText}.

(** The body of the [try]. *)
Definition restored (messages : list ModelMessage) (registry : gmap (list N) json)
    (source_snapshots current_snapshots source_wiki current_wiki resolved_wiki : list json) :
  option (gmap (list N) json) :=
  visible ← _validate_compact_exchange messages registry;
  source ← _snapshot_index source_snapshots; current ← _snapshot_index current_snapshots;
  source_w ← _wiki_index source_wiki; current_w ← _wiki_index current_wiki;
  resolved ← _resolved_wiki_index resolved_wiki;
  let ix := {| ix_source := source; ix_current := current; ix_source_wiki := source_w;
               ix_current_wiki := current_w; ix_resolved := resolved |} in
  if _validate_bindings ix visible && compact (map_to_list visible) then Some visible else None.

Definition validate_history_evidence (messages : list ModelMessage) (registry : gmap (list N) json)
    (source_snapshots current_snapshots source_wiki current_wiki permissions
     resolved_wiki_snapshots : list json) : outcome HistoryEvidenceError (gmap (list N) json) :=
  if negb (_require_permissions permissions) then Raise FORBIDDEN
  else or_raise HISTORY_EVIDENCE_INVALID
         (restored messages registry source_snapshots current_snapshots source_wiki current_wiki
            resolved_wiki_snapshots).
End Check.

(** ** Restored evidence is authorized, frozen and complete *)

(** ** Bindings of a run *)

Definition binds_snapshot (l : list json) (kb s h : list N) : Prop :=
  ∃ b f, JObj b ∈ l ∧ field "knowledge_base_id" b = JStr kb ∧ field "snapshot_id" b = JStr s ∧
    f ∈ _SNAPSHOT_HASH_FIELDS ∧ field f b = JStr h.
Definition binds_wiki (l : list json) (kb p h : list N) : Prop :=
  ∃ b, JObj b ∈ l ∧ field "knowledge_base_id" b = JStr kb ∧ field "wiki_publication_id" b = JStr p ∧
    field "publication_hash" b = JStr h.
Definition resolves_wiki (l : list json) (kb p h s : list N) : Prop :=
  ∃ b, JObj b ∈ l ∧ field "knowledge_base_id" b = JStr kb ∧ field "wiki_publication_id" b = JStr p ∧
    field "publication_hash" b = JStr h ∧ field "snapshot_id" b = JStr s.

Lemma text_inv v s : _text v = Some s → v = JStr s.
Proof. destruct v; try done. cbn. case_bool_decide; [done|]. by intros [= ->]. Qed.

Lemma bindings_inv values l b : _bindings values = Some l → b ∈ l → JObj b ∈ values.
Proof.
  intros Hl%mapM_Some_1. revert b. induction Hl as [|v d values l Hv Hl IH]; intros b.
  { by intros ?%not_elem_of_nil. }
  destruct v; try done. injection Hv as <-.
  intros [->|?]%elem_of_cons; [by left|right; auto].
Qed.

Lemma index_by_inv {A} (read : dict → option (pair_key * A)) bindings index out k v :
  index_by read index bindings = Some out → out !! k = Some v →
  index !! k = Some v ∨ ∃ b, b ∈ bindings ∧ read b = Some (k, v).
Proof.
  revert index. induction bindings as [|b bindings IH]; intros index; cbn [index_by].
  { intros [= <-]. by left. }
  destruct (read b) as [[k' v']|] eqn:Eb; [|done]. cbn [mbind option_bind]. case_bool_decide as Hn; [done|]. clear Hn.
  intros H Hk. destruct (IH _ H Hk) as [Hi|(b' & ? & ?)]; [|right; exists b'; split; [by right|done]].
  apply lookup_insert_Some in Hi as [[<- <-]|[_ ?]]; [right; exists b; split; [by left|done]|by left].
Qed.
Lemma index_wiki_inv bindings seen index out k h :
  index_wiki seen index bindings = Some out → out !! k = Some h →
  index !! k = Some h ∨ ∃ b, b ∈ bindings ∧ wiki_binding b = Some (k, h).
Proof.
  revert seen index. induction bindings as [|b bindings IH]; intros seen index; cbn [index_wiki].
  { intros [= <-]. by left. }
  destruct (wiki_binding b) as [[k' v']|] eqn:Eb; [|done]. cbn [mbind option_bind].
  destruct (_ || _); [done|]. intros H Hk.
  destruct (IH _ _ H Hk) as [Hi|(b' & ? & ?)]; [|right; exists b'; split; [by right|done]].
  apply lookup_insert_Some in Hi as [[<- <-]|[_ ?]]; [right; exists b; split; [by left|done]|by left].
Qed.

Lemma hash_value_inv b fields h :
  _hash_value b fields = Some h → ∃ f, f ∈ fields ∧ field f b = JStr h.
Proof.
  unfold _hash_value. intros (values & Hv & H)%bind_Some. destruct values as [|h' rest]; [done|].
  case_bool_decide as Hn; [|done]. injection H as ->. apply mapM_Some_1 in Hv.
  destruct (omap _ fields) as [|v vs] eqn:E; [by apply Forall2_nil_inv_l in Hv|].
  apply Forall2_cons_1 in Hv as [Hv%text_inv _].
  assert (v ∈ omap (λ k, dict_get (lit k) b) fields) as Hin by (rewrite E; by left).
  apply list_elem_of_omap in Hin as (f & Hf & Hg). exists f. split; [done|].
  unfold field. rewrite Hg. exact Hv.
Qed.

Lemma snapshot_index_inv values index kb s h :
  _snapshot_index values = Some index → index !! (kb, s) = Some h → binds_snapshot values kb s h.
Proof.
  intros (l & Hl & H)%bind_Some Hk. destruct (index_by_inv _ _ _ _ _ _ H Hk) as [?|(b & Hb & Hr)]; [done|].
  unfold snapshot_binding in Hr. apply bind_Some in Hr as (kb' & Hkb%text_inv & Hr).
  apply bind_Some in Hr as (s' & Hs%text_inv & Hr). apply bind_Some in Hr as (h' & Hh & Hr).
  injection Hr as -> -> ->. destruct (hash_value_inv _ _ _ Hh) as (f & Hf & Hv).
  exists b, f. split; [by eapply bindings_inv|done].
Qed.
Lemma wiki_binding_inv b kb p h :
  wiki_binding b = Some ((kb, p), h) →
  field "knowledge_base_id" b = JStr kb ∧ field "wiki_publication_id" b = JStr p ∧
  field "publication_hash" b = JStr h.
Proof.
  unfold wiki_binding. intros Hr. apply bind_Some in Hr as (kb' & Hkb%text_inv & Hr).
  apply bind_Some in Hr as (p' & Hp%text_inv & Hr). apply bind_Some in Hr as (h' & Hh%text_inv & Hr).
  by injection Hr as -> -> ->.
Qed.
Lemma wiki_index_inv values index kb p h :
  _wiki_index values = Some index → index !! (kb, p) = Some h → binds_wiki values kb p h.
Proof.
  intros (l & Hl & H)%bind_Some Hk. destruct (index_wiki_inv _ _ _ _ _ _ H Hk) as [?|(b & Hb & Hr)]; [done|].
  exists b. split; [by eapply bindings_inv|]. by apply wiki_binding_inv.
Qed.
Lemma resolved_index_inv values index kb p r :
  _resolved_wiki_index values = Some index → index !! (kb, p) = Some r →
  resolves_wiki values kb p (rw_publication_hash r) (rw_snapshot_id r).
Proof.
  intros (l & Hl & H)%bind_Some Hk. destruct (index_by_inv _ _ _ _ _ _ H Hk) as [?|(b & Hb & Hr)]; [done|].
  unfold resolved_binding in Hr. apply bind_Some in Hr as ([k h] & Hw & Hr).
  apply bind_Some in Hr as (s & Hs%text_inv & Hr). apply bind_Some in Hr as (sh & _ & Hr).
  injection Hr as -> <-. destruct (wiki_binding_inv _ _ _ _ Hw) as (? & ? & ?).
  exists b. split; [by eapply bindings_inv|done].
Qed.

(** ** What an entry of the result rests on *)

Section Restored.
Context (source current source_wiki current_wiki resolved : list json).

(** The snapshot is frozen with the same content in both runs. *)
Definition frozen (kb s : list N) : Prop :=
  ∃ h, binds_snapshot source kb s h ∧ binds_snapshot current kb s h.

Definition rests_on (e : json) : Prop :=
  ∃ d reference record kb s, e = JObj d ∧
    field "reference" d = JObj reference ∧ field "record" d = JObj record ∧
    envelope_violation record = None ∧
    field "knowledge_base_id" reference = JStr kb ∧ field "snapshot_id" reference = JStr s ∧
    if is_text "WIKI_DERIVED" (field "origin" record)
    then ∃ p h, field "publication_id" record = JStr p ∧ field "publication_hash" record = JStr h ∧
           binds_wiki source_wiki kb p h ∧ binds_wiki current_wiki kb p h ∧
           (frozen kb s ∨ resolves_wiki resolved kb p h s)
    else frozen kb s.

Lemma binding_ok_inv ix e :
  _snapshot_index source = Some (ix_source ix) → _snapshot_index current = Some (ix_current ix) →
  _wiki_index source_wiki = Some (ix_source_wiki ix) → _wiki_index current_wiki = Some (ix_current_wiki ix) →
  _resolved_wiki_index resolved = Some (ix_resolved ix) →
  binding_ok ix e = true → entry_ok e = true → rests_on e.
Proof.
  intros Hs Hc Hsw Hcw Hr H He. unfold binding_ok in H. unfold entry_ok in He.
  destruct e as [| | | | | |d]; try done. apply andb_true_iff in He as [_ He].
  destruct (field "reference" d) as [| | | | | |reference] eqn:Er; try done.
  destruct (field "record" d) as [| | | | | |record] eqn:Ed; try done. apply bool_decide_eq_true in He.
  destruct (_text (field "knowledge_base_id" reference)) as [kb|] eqn:Hkb; [|done].
  destruct (_text (field "snapshot_id" reference)) as [s|] eqn:Hsn; [|done]. apply text_inv in Hkb, Hsn.
  assert (frozen_in_both ix (kb, s) = true → frozen kb s) as Hf.
  { unfold frozen_in_both. destruct (ix_source ix !! (kb, s)) as [h|] eqn:E1; [|done].
    destruct (ix_current ix !! (kb, s)) as [h'|] eqn:E2; [|done]. intros <-%bool_decide_eq_true.
    exists h. split; by eapply snapshot_index_inv. }
  exists d, reference, record, kb, s. do 6 (split; [done|]).
  destruct (is_text "WIKI_DERIVED" (field "origin" record)); cbn [negb] in H; [|by apply Hf].
  destruct (_text (field "publication_id" record)) as [p|] eqn:Hp; [|done].
  destruct (_text (field "publication_hash" record)) as [h|] eqn:Hh; [|done]. apply text_inv in Hp, Hh.
  rewrite !andb_true_iff, !bool_decide_eq_true in H. destruct H as [[H1 H2] H].
  exists p, h. split; [done|]. split; [done|]. split; [by eapply wiki_index_inv|].
  split; [by eapply wiki_index_inv|].
  destruct (ix_resolved ix !! (kb, p)) as [r|] eqn:E; [|left; by apply Hf]. right.
  unfold resolved_ok in H. rewrite !andb_true_iff, !bool_decide_eq_true in H.
  destruct H as [[Hsid <-] _]. cbn [snd] in Hsid. rewrite Hsid. by eapply resolved_index_inv.
Qed.
End Restored.

(** ** Calls and their results *)

Definition retrieval_calls (messages : list ModelMessage) : list ModelToolCall :=
  filter (λ c, call_name c ∈ RAG_EVIDENCE_TOOL_IDENTITIES) (assistant_calls messages).
Definition of_retrieval (m : ModelMessage) : Prop :=
  role m = role_tool ∧ ∃ n, msg_name m = Some n ∧ n ∈ RAG_EVIDENCE_TOOL_IDENTITIES.
#[local] Instance of_retrieval_dec m : Decision (of_retrieval m).
Proof.
  refine (match msg_name m as o return msg_name m = o → _ with
          | Some n => λ E, cast_if (decide (role m = role_tool ∧ n ∈ RAG_EVIDENCE_TOOL_IDENTITIES))
          | None => λ E, right _
          end eq_refl); unfold of_retrieval; naive_solver.
Defined.
Definition retrieval_results (messages : list ModelMessage) : list ModelMessage :=
  filter of_retrieval messages.

(** The calls registered so far have the names of retrieval tools. *)
Definition named (rag : rag_calls) : Prop := ∀ i n, rag !! i = Some n → n ∈ RAG_EVIDENCE_TOOL_IDENTITIES.

Lemma register_calls_inv calls rag seen rag' seen' :
  register_calls (rag, seen) calls = Some (rag', seen') → named rag → dom rag ⊆ seen →
  named rag' ∧ ∃ ids, NoDup ids ∧ (∀ i, i ∈ ids → i ∉ seen) ∧ dom rag' = list_to_set ids ∪ dom rag ∧
    provider_tool_call_id <$> filter (λ c, call_name c ∈ RAG_EVIDENCE_TOOL_IDENTITIES) calls = Some <$> ids.
Proof.
  revert rag seen. induction calls as [|c calls IH]; intros rag seen; cbn [register_calls].
  { intros [= <- <-] Hn Hd. split; [done|]. exists []. split; [constructor|].
    split; [by intros i ?%not_elem_of_nil|]. split; [set_solver|done]. }
  intros ([rag1 seen1] & Hc & H)%bind_Some Hn Hd. rewrite filter_cons. unfold register_call in Hc.
  destruct (provider_tool_call_id c) as [[|x i]|] eqn:Ei; [done| |].
  2:{ case_bool_decide; [done|]. injection Hc as <- <-. rewrite decide_False by done. by apply (IH rag seen). }
  set (j := x :: i) in *. case_bool_decide as Hj; [done|]. injection Hc as <- <-.
  case_bool_decide as Hname; [rewrite decide_True by done|rewrite decide_False by done].
  - destruct (IH _ _ H) as (Hn' & ids & Hnd & Hfresh & Hdom & Hids).
    { intros k n [[<- <-]|[_ ?]]%lookup_insert_Some; [done|by eapply Hn]. }
    { rewrite dom_insert_L. set_solver. }
    split; [done|]. exists (j :: ids). split; [apply NoDup_cons; split; [set_solver|done]|].
    split; [set_solver|]. split; [rewrite Hdom, dom_insert_L, list_to_set_cons; set_solver|].
    cbn [fmap list_fmap]. by rewrite Ei, Hids.
  - destruct (IH _ _ H Hn) as (Hn' & ids & Hnd & Hfresh & Hdom & Hids); [set_solver|].
    split; [done|]. exists ids. split; [done|]. split; [set_solver|done].
Qed.

Section Results.
Context `{json_text : JsonText}.

Lemma check_results_inv rag seen messages out :
  named rag → check_results rag seen messages = Some out →
  ∃ ids, NoDup ids ∧ (∀ i, i ∈ ids → i ∉ seen) ∧ out = list_to_set ids ∪ seen ∧
    tool_call_id <$> retrieval_results messages = Some <$> ids ∧
    Forall (λ m, payload_ok m = true) (retrieval_results messages).
Proof.
  intros Hn. unfold retrieval_results. revert seen. induction messages as [|m ms IH]; intros seen; cbn [check_results].
  { intros [= <-]. exists []. split; [constructor|]. split; [by intros i ?%not_elem_of_nil|].
    split; [set_solver|done]. }
  intros (seen1 & Hc & H)%bind_Some. rewrite filter_cons.
  assert (seen1 = seen → ¬ of_retrieval m → ∃ ids, NoDup ids ∧ (∀ i, i ∈ ids → i ∉ seen) ∧
    out = list_to_set ids ∪ seen ∧
    tool_call_id <$> (if decide (of_retrieval m) then m :: filter of_retrieval ms else filter of_retrieval ms)
      = Some <$> ids ∧
    Forall (λ m, payload_ok m = true)
      (if decide (of_retrieval m) then m :: filter of_retrieval ms else filter of_retrieval ms)) as skip.
  { intros -> Hr. rewrite decide_False by done. by apply IH. }
  unfold check_result in Hc. case_bool_decide as Hrole; cbn [negb] in Hc.
  2:{ injection Hc as <-. apply skip; [done|]. by intros [? _]. }
  destruct (tool_call_id m ≫= _) as [[i name]|] eqn:Ecall.
  2:{ destruct (msg_name m) as [n|] eqn:En.
      - case_bool_decide; [done|]. injection Hc as <-. apply skip; [done|]. intros [_ (n' & E & ?)]. congruence.
      - injection Hc as <-. apply skip; [done|]. intros [_ (n' & E & ?)]. congruence. }
  apply bind_Some in Ecall as (i' & Ei & (name' & Erag & [= <- <-])%fmap_Some).
  destruct (_ && _) eqn:E; [|done]. injection Hc as <-.
  rewrite !andb_true_iff, !bool_decide_eq_true in E. destruct E as [[Ename Hi] Hp].
  rewrite decide_True by (split; [done|]; exists name; split; [done|by eapply Hn]).
  destruct (IH _ H) as (ids & Hnd & Hfresh & -> & Hids & Hall).
  exists (i :: ids). split; [apply NoDup_cons; split; [set_solver|done]|]. split; [set_solver|].
  split; [rewrite list_to_set_cons; set_solver|]. split; [|by constructor].
  cbn [fmap list_fmap]. by rewrite Ei, Hids.
Qed.

Lemma all_entries (p : json → bool) (visible : gmap (list N) json) i e :
  forallb p (map_to_list visible).*2 = true → visible !! i = Some e → p e = true.
Proof.
  rewrite forallb_forall. intros H Hi. apply H, list_elem_of_In. apply elem_of_map_to_list in Hi.
  exact (list_elem_of_fmap_2 snd _ _ Hi).
Qed.

(** C6. Evidence restored from an earlier turn is authorized, complete and
    frozen.  If the check returns, the caller holds both permissions; the
    retrieval calls of the turn and their results correspond one to one, each
    result being an error without evidence or a valid view; the result is what
    the messages show, resolved against the registry, and leaves no entry of it
    out; and every entry is a record with a valid envelope whose snapshot both
    runs have frozen with the same content, or, for a Wiki claim, whose
    publication both runs have frozen with the same hash and whose snapshot is
    frozen in both or the one resolved for this publication. *)
Theorem restored_evidence_is_authorized messages registry source current source_wiki current_wiki
    permissions resolved out :
  validate_history_evidence messages registry source current source_wiki current_wiki permissions resolved
    = Return out →
  (JStr (lit "knowledge_run") ∈ permissions ∧ JStr (lit "tool_run") ∈ permissions) ∧
  (NoDup (tool_call_id <$> retrieval_results messages) ∧
   tool_call_id <$> retrieval_results messages ≡ₚ provider_tool_call_id <$> retrieval_calls messages ∧
   Forall (λ m, payload_ok m = true) (retrieval_results messages)) ∧
  visible_evidence_registry messages registry = Return out ∧ dom out = dom registry ∧
  ∀ i e, out !! i = Some e → rests_on source current source_wiki current_wiki resolved e.
Proof.
  unfold validate_history_evidence. destruct (_require_permissions permissions) eqn:Hp; [|done]. cbn [negb].
  intros H%or_raise_inv. unfold restored in H. apply bind_Some in H as (visible & Hx & H).
  apply bind_Some in H as (ss & Hss & H). apply bind_Some in H as (cs & Hcs & H).
  apply bind_Some in H as (sw & Hsw & H). apply bind_Some in H as (cw & Hcw & H).
  apply bind_Some in H as (rw & Hrw & H). destruct (_ && _) eqn:E; [|done]. injection H as ->.
  apply andb_true_iff in E as [Hb _].
  unfold _validate_compact_exchange in Hx. apply bind_Some in Hx as ([rag seen] & Hrag & Hx).
  apply bind_Some in Hx as (results & Hres & Hx). case_bool_decide as Hdom; [|done].
  destruct (visible_evidence_registry messages registry) as [v|]; [|done].
  destruct (_ && _) eqn:E; [|done]. injection Hx as ->. apply andb_true_iff in E as [Ed He].
  apply bool_decide_eq_true in Ed.
  apply register_calls_inv in Hrag as (Hn & ids & Hnd & _ & Hids & Ecalls); [|by intros i n ?|set_solver].
  apply check_results_inv in Hres as (ids' & Hnd' & _ & -> & Eres & Hall); [|done].
  assert (∀ p, p ∈ _REQUIRED_PERMISSIONS → JStr p ∈ permissions) as Hg.
  { unfold _require_permissions in Hp. apply andb_true_iff in Hp as [_ Hp]. rewrite forallb_forall in Hp.
    intros p Hin. specialize (Hp p (proj1 (list_elem_of_In _ _) Hin)).
    apply existsb_exists in Hp as (v & Hv & Hs). apply list_elem_of_In in Hv.
    destruct v; try done. by apply bool_decide_eq_true in Hs as ->. }
  split_and!; try done; try (apply Hg; by_keys).
  - rewrite Eres. by apply (NoDup_fmap_2 _).
  - unfold retrieval_calls. rewrite Eres, Ecalls. apply fmap_Permutation, NoDup_Permutation; [done..|].
    intros i. rewrite <- !(elem_of_list_to_set (C := gset (list N))). rewrite Hids in Hdom. set_solver.
  - intros i e Hi. eapply (binding_ok_inv _ _ _ _ _
      {| ix_source := ss; ix_current := cs; ix_source_wiki := sw; ix_current_wiki := cw; ix_resolved := rw |});
      try done; by eapply all_entries.
Qed.
End Results.

(** ** Witness *)

#[local] Instance history_floats : FloatText := λ t, t.
#[local] Existing Instance python_json.

(** A turn that queried a wiki and was shown a raw and a derived record. *)
Definition asked_wiki : ModelMessage :=
  {| role := role_assistant; content := None; msg_name := None; tool_call_id := None;
     tool_calls := [{| call_name := lit "query_wiki"; call_arguments := JObj [];
                       provider_tool_call_id := Some (lit "a") |}] |}.
Definition answered_wiki : ModelMessage :=
  {| role := role_tool; content := Some sample_text; msg_name := Some (lit "query_wiki");
     tool_call_id := Some (lit "a"); tool_calls := [] |}.
Definition past_turn : list ModelMessage :=
  [sample_message role_user None (lit "How long do refunds take?"); asked_wiki; answered_wiki;
   sample_message role_assistant None (lit "Five days.")].
Definition past_registry : gmap (list N) json := list_to_map (plan_registry (sample_plan 1000)).
Definition bound_snapshot (h : string) : json :=
  JObj [(lit "knowledge_base_id", JStr (lit "kb1")); (lit "snapshot_id", JStr (lit "s1"));
        (lit "snapshot_hash", JStr (lit h))].
Definition bound_wiki : json :=
  JObj [(lit "knowledge_base_id", JStr (lit "kb1")); (lit "wiki_publication_id", JStr (lit "p1"));
        (lit "publication_hash", JStr (lit "h1"))].
Definition both_permissions : list json := [JStr (lit "tool_run"); JStr (lit "knowledge_run")].
Definition restored_turn (now : string) (permissions : list json) :
  outcome HistoryEvidenceError (gmap (list N) json) :=
  validate_history_evidence past_turn past_registry [bound_snapshot "x"] [bound_snapshot now]
    [bound_wiki] [bound_wiki] permissions [].

Lemma restored_evidence_is_authorized_witness :
  visible_evidence_registry past_turn past_registry = Return past_registry ∧
  (∀ i e, past_registry !! i = Some e →
     rests_on [bound_snapshot "x"] [bound_snapshot "x"] [bound_wiki] [bound_wiki] [] e) ∧
  size past_registry = 2%nat ∧
  restored_turn "y" both_permissions = Raise HISTORY_EVIDENCE_INVALID ∧
  restored_turn "x" [JStr (lit "tool_run")] = Raise FORBIDDEN.
Proof.
  destruct (restored_evidence_is_authorized past_turn past_registry [bound_snapshot "x"]
    [bound_snapshot "x"] [bound_wiki] [bound_wiki] both_permissions [] past_registry)
    as (_ & _ & Hv & _ & Hr).
  { vm_compute. reflexivity. }
  split; [exact Hv|]. split; [exact Hr|]. split_and!; vm_compute; reflexivity.
Defined.
