(* ===== verification/AgentGraph.v ===== *)
(** * The nodes of the agent graph

    Model of the loop of [packages/agent_runtime/runtime_graph.py]: the nodes
    [model] (its guards and the handling of the response), [tool_proposal],
    [policy], [read_execute], [observation] and [finish], the routers
    [after_...], [_stop_if_requested] and [_record_artifacts], composed with
    [action_execute] of [ActionNode.v] by the edges of [invoke].

    A node takes the checkpointed state and returns it with its update merged.
    [AgentRunState] groups the keys by who writes them; keys that only [prepare]
    and [summary] use are left out.  Between two transactions others may commit
    ([tx]).  Parameters stand for what other modules do:
    - [_emit]: recording an event, with its data built from the values named;
    - [ask]: the part of [model] between its guards and the response (context
      admission, budget and gateway, modelled in their own files);
    - [run_tool]: [ToolRuntime.execute] and [_search_thread_history];
    - [record] of the artifact recorder, the nodes [prepare] and [summary];
    - [interrupted]: LangGraph's [interrupt], the value it returns at its k-th
      use in a node, or nothing when the node stops there;
    - [draw]: clock readings and identifiers.

    The reads of a round run concurrently in the source; each only looks at the
    status of the run and calls its tool, and the results are collected in the
    order of the calls. *)

From stdpp Require Import base gmap list strings.
From Stdlib Require Import ZArith NArith Lia.
From S2P Require Import Prelude.
From S2P Require Import RunBudgetLedger.
From S2P Require Import Json.
From S2P Require Import JsonTheory.
From S2P Require Import RunStore.
From S2P Require Import Rbac.
From S2P Require Import Approvals.
From S2P Require Import Reconciliation.
From S2P Require Import Actions.
From S2P Require Import TurnTranscript.
From S2P Require Import RunUsage.
From S2P Require Import RunLifecycle.
From S2P Require Import ActionNode.
From S2P Require Import ContextMetadata.
From S2P Require Import ModelProfiles.
From S2P Require Import JsonProjection.
From S2P Require Import ContextBudget.
From S2P Require Import UuidText.
From S2P Require Import ToolObservation.
From S2P Require Import RagEvidence.
From S2P Require Import Outcome.
From S2P Require Import EvidenceRecords.
From S2P Require Import EvidencePlan.
From S2P Require Import ContextMemory.
From S2P Require Import EvidenceRegistry.

Local Open Scope Z_scope.
Local Arguments lit : simpl never.

(** ** State *)

(** An entry of [proposed_tool_calls]. *)
Record Proposed := {
  pc_name : list N;
  pc_arguments : list (list N * json);
  pc_tool_call_id : list N;
  pc_invalid : bool;
  pc_ordinal : nat
}.

(** [state["runtime"]] *)
Record Runtime := {
  max_steps : Z;
  max_tool_calls : Z;
  max_identical_calls : Z;
  max_cost_micro_usd : option Z;
  rt_max_tool_result_tokens : Z;
  rt_max_retrieval_tokens : Z;
  summary_enabled : bool
}.

(** Written by [model] and [observation]. *)
Record Conversation := {
  messages : list ModelMessage;
  turn_transcript : option (list ModelMessage);
  model_round_count : Z;
  usage_records : list UsageRecord;
  model_response : option ModelResponse;
  final_output : option (list N)
}.
(** The round in progress. *)
Record Round := {
  proposed_tool_calls : list Proposed;
  pending_tool_calls : list Proposed;
  action_calls : list ActionCall;
  identical_call_counts : gmap (list N) Z;
  tool_call_count : Z;
  pre_observations : list (list N * ToolResult);
  executed_observations : list (list N * ToolResult);
  tool_observations : list (list N * ToolResultStatus)
}.
Record Fate := {
  failure_code : option string;
  st_run_status : option RunStatus.t;
  approval_required : option (uuid * list N)
}.
Record Evidence := {
  rag_evidence_registry : gmap (list N) json;
  rag_evidence_sequence : Z;
  turn_evidence_registry : gmap (list N) json;
  history_bound : bool;
  summary_boundary : option Z
}.
Record AgentRunState := {
  conv : Conversation;
  round : Round;
  fate : Fate;
  evidence : Evidence
}.

Definition set_conv (c : Conversation) (st : AgentRunState) : AgentRunState :=
  {| conv := c; round := round st; fate := fate st; evidence := evidence st |}.
Definition set_round (r : Round) (st : AgentRunState) : AgentRunState :=
  {| conv := conv st; round := r; fate := fate st; evidence := evidence st |}.
Definition set_fate (f : Fate) (st : AgentRunState) : AgentRunState :=
  {| conv := conv st; round := round st; fate := f; evidence := evidence st |}.
Definition set_evidence (e : Evidence) (st : AgentRunState) : AgentRunState :=
  {| conv := conv st; round := round st; fate := fate st; evidence := e |}.

(** [{"failure_code": code}] and, if given, [{"run_status": status}] *)
Definition fail (code : string) (status : option RunStatus.t) (st : AgentRunState) : AgentRunState :=
  set_fate {| failure_code := Some code;
              st_run_status := match status with Some s => Some s | None => st_run_status (fate st) end;
              approval_required := approval_required (fate st) |} st.
Definition set_rounds (n : Z) (st : AgentRunState) : AgentRunState :=
  set_conv {| messages := messages (conv st); turn_transcript := turn_transcript (conv st);
              model_round_count := n; usage_records := usage_records (conv st);
              model_response := model_response (conv st); final_output := final_output (conv st) |} st.
Definition set_tool_call_count (n : Z) (st : AgentRunState) : AgentRunState :=
  set_round {| proposed_tool_calls := proposed_tool_calls (round st);
               pending_tool_calls := pending_tool_calls (round st);
               action_calls := action_calls (round st);
               identical_call_counts := identical_call_counts (round st); tool_call_count := n;
               pre_observations := pre_observations (round st);
               executed_observations := executed_observations (round st);
               tool_observations := tool_observations (round st) |} st.
Definition require_approval (a : Approval) (st : AgentRunState) : AgentRunState :=
  set_fate {| failure_code := failure_code (fate st); st_run_status := st_run_status (fate st);
              approval_required := Some (ap_id a, ap_logical_action_id a) |} st.

(** The update of the action node, or of a stop. *)
Definition merge_update (u : Update) (st : AgentRunState) : AgentRunState :=
  {| conv := conv st;
     round := {| proposed_tool_calls := proposed_tool_calls (round st);
                 pending_tool_calls := pending_tool_calls (round st);
                 action_calls := if up_actions_done u then [] else action_calls (round st);
                 identical_call_counts := identical_call_counts (round st);
                 tool_call_count := tool_call_count (round st);
                 pre_observations := pre_observations (round st);
                 executed_observations := default (executed_observations (round st)) (up_executed u);
                 tool_observations := tool_observations (round st) |};
     fate := {| failure_code := match up_failure_code u with Some c => Some c
                                | None => failure_code (fate st) end;
                st_run_status := match up_run_status u with Some s => Some s
                                 | None => st_run_status (fate st) end;
                approval_required := approval_required (fate st) |};
     evidence := evidence st |}.

(** ** Events and parameters *)

Inductive AgentEvent :=
| RUN_CANCEL_REQUESTED
| MESSAGE_COMPLETED (model_round : Z)
| TOOL_REQUESTED (call : Proposed)
| TOOL_STARTED (call : Proposed)
| TOOL_COMPLETED (call : Proposed) (result : ToolResult)
| TOOL_FAILED (call : Proposed) (result : ToolResult)
| APPROVAL_REQUIRED (approval : Approval) (risk : ToolRisk)
| APPROVAL_RESOLVED (approval : Approval).

(** What the part of [model] before the response comes to. *)
Inductive Asked :=
| Failed (code : string) (status : option RunStatus.t) (ev : Evidence)
| Answered (retained : list ModelMessage) (ev : Evidence)
    (memory_delivery admission_metadata : list (list N * json)) (response : ModelResponse).

(** A record of [capture_auxiliary_model_calls]. *)
Record AuxiliaryCall := {
  ax_record : UsageRecord;
  ax_succeeded : bool;
  ax_metadata : list (list N * json)
}.

(** The value [interrupt] returns: the resumed approval, if it is a mapping. *)
Inductive Resume :=
| NoMapping
| Mapping (approval_id : json) (logical_action_id : option (list N)).

Record Draw := {
  dr_new_id : uuid;
  dr_now : datetime;
  dr_created_at : datetime;
  dr_fks_ok : bool;
  dr_other : RunStore.Db → RunStore.Db
}.

Record RecordedToolCall := {
  rc_tool_identity : list N;
  rc_tool_call_id : list N;
  rc_step_sequence : Z;
  rc_arguments : list (list N * json);
  rc_data : list (list N * json);
  rc_logical_call_id : list N
}.

Definition failure (code message : string) : ToolResult :=
  {| tr_status := ERROR; tr_data := None; tr_error_code := Some code;
     tr_safe_message := Some message; tr_approval_decision := None; tr_approval_execution := None |}.
Definition denied (a : Approval) : ToolResult :=
  {| tr_status := ERROR; tr_data := None; tr_error_code := Some "TOOL_APPROVAL_DENIED"%string;
     tr_safe_message := Some "The action was not approved."%string;
     tr_approval_decision := Some (ap_decision_status a);
     tr_approval_execution := Some (ap_execution_status a) |}.

(** [d.get(key)] of a dictionary of results. *)
Definition result_at (k : list N) (l : list (list N * ToolResult)) : option ToolResult :=
  snd <$> find (λ kr, bool_decide (kr.1 = k)) l.

Definition THREAD_HISTORY_SEARCH : list N := lit "search_thread_history".
Definition _TERMINAL_TOOL_ERRORS : list string :=
  ["TOOL_APPROVAL_NOT_AVAILABLE"; "TOOL_REVISION_INTEGRITY_ERROR";
   "AGENT_VERSION_INTEGRITY_ERROR"; "AGENT_VERSION_MODEL_BINDING_INVALID"]%string.

(** [provider_tool_call_id or f"call-{round}-{index}"] *)
Definition stable_id (rounds : Z) (index : nat) (call : ModelToolCall) : list N :=
  match provider_tool_call_id call with
  | Some (c :: id) => c :: id
  | _ => lit "call-" ++ dump_int rounds ++ lit "-" ++ dump_nat (N.of_nat index)
  end.
Definition normalized_call (rounds : Z) (index : nat) (call : ModelToolCall) : ModelToolCall :=
  {| call_name := call_name call; call_arguments := call_arguments call;
     provider_tool_call_id := Some (stable_id rounds index call) |}.
Definition proposal (rounds : Z) (index : nat) (call : ModelToolCall) : Proposed :=
  let arguments := match call_arguments call with JObj l => Some l | _ => None end in
  {| pc_name := call_name call; pc_arguments := default [] arguments;
     pc_tool_call_id := stable_id rounds index call;
     pc_invalid := bool_decide (call_name call = []) || bool_decide (arguments = None);
     pc_ordinal := index |}.

Definition _usage_record (r : ModelResponse) : UsageRecord :=
  {| usage := rs_usage r; cost := rs_cost r |}.

(** ** The nodes *)

(** The graph's services and settings.  [streaming]: [mode == "stream"];
    [can_ask]: there are an approval service and a checkpoint adapter;
    [configured]: there are an action runtime and an approval service;
    [float_text]: [repr(float(amount))]. *)
Class GraphEnv := {
  graph_run : AgentRun;
  registry : ActionRegistry;
  authoritative : WorkspaceExecutionContext → AgentRun → M RunStore.Db Exn WorkspaceExecutionContext;
  tool_definitions : list N → option ToolDefinition;
  retrieval_config : ToolDefinition → list (list N * json);
  clock : uuid → datetime * datetime;
  runtime : Runtime;
  streaming : bool;
  can_ask : bool;
  configured : bool;
  has_recorder : bool;
  _emit : AgentEvent → M RunStore.Db Exn unit;
  ask : AgentRunState → M Node Exn Asked;
  run_tool : WorkspaceExecutionContext → AgentRunState → Proposed → RunStore.Db →
             outcome Exn ToolResult * list AuxiliaryCall * RunStore.Db;
  record_calls : list RecordedToolCall → M RunStore.Db Exn unit;
  interrupted : nat → option Resume;
  draw : Z → Draw;
  ttl_seconds : Z;
  float_text : Z → list N;
  prepare : AgentRunState → M Node Exn AgentRunState;
  summary : AgentRunState → M Node Exn AgentRunState
}.

Section Nodes.
Context `{PyStr} `{Digests} `{SchemaValidator} `{EastAsian} `{UnicodeDecimal} `{env : GraphEnv}.

Definition context_now : M Node Exn WorkspaceExecutionContext := s ← get; mret (self_context s).
Definition emit (e : AgentEvent) : M Node Exn unit := tx (_emit e).
Definition graph_step (kind status : string) (metadata : list (list N * json)) : M Node Exn unit :=
  c ← context_now; step graph_run c kind status metadata.
Definition error_step (kind code : string) : M Node Exn unit :=
  graph_step kind "FAILED" [(lit "error_code", JStr (lit code))].

(** [except Exception] *)
Definition is_exception (e : Exn) : bool :=
  match e with RunStore.CancelledError => false | _ => true end.
Definition swallow (m : M Node Exn unit) : M Node Exn unit :=
  catch m (λ e, if is_exception e then mret tt else raise e).

Definition mark_cancel (s : Node) : Node :=
  {| tables := tables s; coming := coming s; calls := calls s; sent := sent s; found := found s;
     node_sequence := node_sequence s; self_context := self_context s; cancel_emitted := true |}.

(** [_stop_if_requested], with the event of a stream. *)
Definition stop_requested : M Node Exn (option Update) :=
  c ← context_now;
  status ← status_now graph_run c;
  s ← get;
  (if bool_decide (status = Some RunStatus.CANCEL_REQUESTED) && streaming
      && negb (cancel_emitted s)
   then modify mark_cancel;; swallow (emit RUN_CANCEL_REQUESTED)
   else mret tt);;
  mret (stop_update status).

(** [stopped = await self._stop_if_requested(); if stopped is not None: return stopped] *)
Definition unless_stopped {A} (stopped : Update → A) (body : M Node Exn A) : M Node Exn A :=
  o ← stop_requested;
  match o with Some u => mret (stopped u) | None => body end.

(** *** model *)

Definition blank_response (r : ModelResponse) : bool :=
  bool_decide (rs_tool_calls r = []) && bool_decide (py_strip (rs_content r) = []).

Definition empty_code (r : ModelResponse) : string :=
  if bool_decide (rs_finish_reason r ∈ [Some (lit "content_filter"); Some (lit "refusal")])
  then "MODEL_PROVIDER_REFUSED" else "AGENT_MODEL_EMPTY_RESPONSE".

(** The state with the assistant's message appended. *)
Definition with_response (next_round : Z) (retained : list ModelMessage) (ev : Evidence)
    (r : ModelResponse) (st : AgentRunState) : AgentRunState :=
  let assistant :=
    {| role := role_assistant; content := Some (rs_content r); msg_name := None; tool_call_id := None;
       tool_calls := imap (normalized_call next_round) (rs_tool_calls r) |} in
  set_evidence ev (set_conv
    {| messages := retained ++ [assistant];
       turn_transcript := (λ t, t ++ [assistant]) <$> turn_transcript (conv st);
       model_round_count := next_round;
       usage_records := usage_records (conv st) ++ [_usage_record r];
       model_response := model_response (conv st);
       final_output := final_output (conv st) |} st).
Definition accept_response (r : ModelResponse) (st : AgentRunState) : AgentRunState :=
  set_conv
    {| messages := messages (conv st); turn_transcript := turn_transcript (conv st);
       model_round_count := model_round_count (conv st); usage_records := usage_records (conv st);
       model_response := Some r;
       final_output := if bool_decide (rs_tool_calls r = []) then Some (rs_content r) else None |} st.

Definition _usage_step_metadata (r : ModelResponse) : list (list N * json) :=
  match rs_usage r with
  | Some u => [(lit "input_tokens", JInt (input_tokens u)); (lit "output_tokens", JInt (output_tokens u));
               (lit "total_tokens", JInt (usage_total_tokens u)); (lit "cached_tokens", opt_int (cached_tokens u))]
  | None => []
  end ++
  match rs_cost r with
  | Some c => [(lit "cost_amount", JFloat (float_text (cost_amount c)));
               (lit "cost_currency", JStr (cost_code c)); (lit "cost_is_estimate", JBool (cost_estimated c))]
  | None => []
  end.

(** The response is appended to the conversation and judged. *)
Definition take_response (next_round : Z) (retained : list ModelMessage) (ev : Evidence)
    (delivery admitted : list (list N * json)) (r : ModelResponse) (st : AgentRunState) :
  M Node Exn AgentRunState :=
  let st' := with_response next_round retained ev r st in
  let at_round := (lit "model_round", JInt next_round) in
  if blank_response r then
    graph_step "MODEL" "FAILED"
      ([at_round; (lit "error_code", JStr (lit (empty_code r)))] ++ delivery);;
    mret (fail (empty_code r) None st')
  else if bool_decide (rs_finish_reason r = Some (lit "length")) then
    graph_step "MODEL" "FAILED"
      ([at_round; (lit "error_code", JStr (lit "MODEL_OUTPUT_TRUNCATED"));
        (lit "finish_reason", JStr (lit "length"))] ++ _usage_step_metadata r ++ delivery);;
    mret (fail "MODEL_OUTPUT_TRUNCATED" None st')
  else
    emit (MESSAGE_COMPLETED next_round);;
    graph_step "MODEL" "SUCCEEDED"
      ([at_round; (lit "tool_count", JInt (Z.of_nat (length (rs_tool_calls r))))] ++ admitted
       ++ _usage_step_metadata r
       ++ [(lit "provider", JStr (rs_provider r)); (lit "model", JStr (rs_model r));
           (lit "usage_source", JStr (lit "generation"))] ++ delivery);;
    mret (accept_response r st').

Definition model (st : AgentRunState) : M Node Exn AgentRunState :=
  unless_stopped (λ u, merge_update u st) (
  let rounds := model_round_count (conv st) in
  if max_steps runtime <=? rounds then
    error_step "GUARD" "AGENT_MAX_STEPS_EXCEEDED";;
    mret (fail "AGENT_MAX_STEPS_EXCEEDED" None st)
  else match _cost_guard_failure (usage_records (conv st)) (max_cost_micro_usd runtime) rounds with
  | Some code =>
      error_step "GUARD" code;; mret (fail code (Some RunStatus.NEEDS_ATTENTION) st)
  | None =>
      let next_round := rounds + 1 in
      asked ← ask st;
      match asked with
      | Failed code status ev =>
          mret (fail code status (set_rounds next_round (set_evidence ev st)))
      | Answered retained ev delivery admitted r =>
          take_response next_round retained ev delivery admitted r st
      end
  end).

(** *** tool_proposal *)

Definition hash_of (v : json) : M Node Exn (list N) :=
  match canonical_json_hash v with
  | Some h => mret h
  | None => raise (ValueError "Out of range float values are not JSON compliant")
  end.

(** The loop over the calls: the counts, or [None] when a call was repeated too
    often. *)
Fixpoint propose (counts : gmap (list N) Z) (calls : list Proposed) :
  M Node Exn (option (gmap (list N) Z)) :=
  match calls with
  | [] => mret (Some counts)
  | c :: rest =>
      emit (TOOL_REQUESTED c);;
      if pc_invalid c then propose counts rest
      else
        h ← hash_of (JObj [(lit "tool", JStr (pc_name c)); (lit "arguments", JObj (pc_arguments c))]);
        let n := default 0 (counts !! h) + 1 in
        if max_identical_calls runtime <? n then mret None
        else propose (<[h := n]> counts) rest
  end.

Fixpoint hashes_of (calls : list Proposed) : M Node Exn (list json) :=
  match calls with
  | [] => mret []
  | c :: rest => h ← hash_of (JObj (pc_arguments c)); hs ← hashes_of rest; mret (JStr h :: hs)
  end.

Definition start_round (calls : list Proposed) (counts : gmap (list N) Z) (total : Z)
    (st : AgentRunState) : AgentRunState :=
  set_round {| proposed_tool_calls := calls; pending_tool_calls := calls;
               action_calls := action_calls (round st); identical_call_counts := counts;
               tool_call_count := total; pre_observations := pre_observations (round st);
               executed_observations := executed_observations (round st);
               tool_observations := tool_observations (round st) |} st.

Definition tool_proposal (st : AgentRunState) : M Node Exn AgentRunState :=
  unless_stopped (λ u, merge_update u st)
  match model_response (conv st) with
  | None => mret (fail "AGENT_MODEL_EMPTY_RESPONSE" None st)
  | Some r =>
      let calls := imap (proposal (model_round_count (conv st))) (rs_tool_calls r) in
      let total := tool_call_count (round st) + Z.of_nat (length calls) in
      counts ← propose (identical_call_counts (round st)) calls;
      match counts with
      | None =>
          error_step "GUARD" "AGENT_IDENTICAL_TOOL_CALL_LIMIT";;
          mret (fail "AGENT_IDENTICAL_TOOL_CALL_LIMIT" None (set_tool_call_count total st))
      | Some counts =>
          if max_tool_calls runtime <? total then
            error_step "GUARD" "AGENT_MAX_TOOL_CALLS_EXCEEDED";;
            mret (fail "AGENT_MAX_TOOL_CALLS_EXCEEDED" None (set_tool_call_count total st))
          else
            hashes ← hashes_of calls;
            graph_step "TOOL_PROPOSAL" "SUCCEEDED"
              [(lit "tool_count", JInt (Z.of_nat (length calls)));
               (lit "tool_identities", JArr (JStr ∘ pc_name <$> calls));
               (lit "tool_call_ids", JArr (JStr ∘ pc_tool_call_id <$> calls));
               (lit "arguments_hashes", JArr hashes)];;
            mret (start_round calls counts total st)
      end
  end.

(** *** policy *)

Definition MISMATCH : Exn :=
  APPROVAL_RESUME_MISMATCH "The approval resume identity does not match the durable interrupt.".

(** What one call comes to. *)
Inductive Verdict :=
| Allow
| Observe (r : ToolResult)
| Act (approval_id : uuid)
| End (update : AgentRunState → AgentRunState)
| Interrupt (a : Approval).

(** The approval of this proposal, newly asked for or already there; [None] is
    a [ValueError] of its arguments. *)
Definition ask_approval (context : WorkspaceExecutionContext) (definition : ToolDefinition)
    (c : Proposed) (ordinal : Z) : M Node Exn (option Approval) :=
  let w := draw ordinal in
  catch (a ← tx (create_or_get ttl_seconds context (run_id graph_run) (run_agent_version_id graph_run)
                   (Some (td_revision_id definition)) (td_identity definition)
                   (JObj (pc_arguments c)) (td_input_schema definition) ordinal None
                   (dr_new_id w) (dr_now w) (dr_created_at w) (dr_fks_ok w) (dr_other w));
         mret (Some a))
    (λ e, match e with ValueError _ => mret None | _ => raise e end).

(** From the resumed interrupt on. *)
Definition resume_approval (definition : ToolDefinition) (approval : Approval)
    (approval_id : json) (logical_action_id : option (list N)) : M Node Exn Verdict :=
  match uuid_of_text (py_str approval_id) with
  | None => raise (APPROVAL_RESUME_MISMATCH "The approval resume identity is invalid.")
  | Some i =>
      raise_if (negb (i =? ap_id approval)%N) MISMATCH;;
      raise_if (negb (bool_decide (logical_action_id ∈ [None; Some (ap_logical_action_id approval)])))
        (APPROVAL_RESUME_MISMATCH "The approval logical action does not match the durable interrupt.");;
      c ← context_now;
      current ← tx (_load_resume_approval c graph_run i);
      raise_if (negb ((ap_run_id current =? run_id graph_run)%N
                      && (ap_agent_version_id current =? run_agent_version_id graph_run)%N
                      && bool_decide (ap_tool_identity current = td_identity definition)
                      && bool_decide (ap_tool_revision_id current = Some (td_revision_id definition))))
        (APPROVAL_RESUME_MISMATCH "The approval binding does not match the durable tool request.");;
      emit (APPROVAL_RESOLVED current);;
      mret match ap_decision_status current with
           | ApprovalDecisionStatus.PENDING => End (require_approval current)
           | ApprovalDecisionStatus.APPROVED => Act (ap_id current)
           | _ => Observe (denied current)
           end
  end.

Definition request_approval (definition : ToolDefinition) (c : Proposed) (ordinal : Z) (k : nat) :
  M Node Exn Verdict :=
  if negb can_ask then
    graph_step "POLICY" "FAILED" [(lit "policy_decision", JStr (lit "REQUIRE_APPROVAL"));
                                  (lit "error_code", JStr (lit "TOOL_APPROVAL_NOT_AVAILABLE"))];;
    mret (End (fail "TOOL_APPROVAL_NOT_AVAILABLE" None))
  else
    context ← context_now;
    o ← ask_approval context definition c ordinal;
    match o with
    | None =>
        error_step "POLICY" "TOOL_ARGUMENT_INVALID";; mret (End (fail "TOOL_ARGUMENT_INVALID" None))
    | Some approval =>
        graph_step "APPROVAL_WAIT" "WAITING"
          [(lit "tool_count", JInt 1); (lit "tool_identities", JArr [JStr (td_identity definition)]);
           (lit "policy_decision", JStr (lit "REQUIRE_APPROVAL"))];;
        emit (APPROVAL_REQUIRED approval (td_risk_level definition));;
        match interrupted k with
        | None => mret (Interrupt approval)
        | Some NoMapping => mret (End (require_approval approval))
        | Some (Mapping i l) => resume_approval definition approval i l
        end
    end.

(** [k] interrupts were passed before this call. *)
Definition judge (rounds : Z) (index k : nat) (c : Proposed) : M Node Exn Verdict :=
  if pc_invalid c
  then mret (Observe (failure "TOOL_ARGUMENT_INVALID" "The tool arguments are invalid."))
  else match tool_definitions (pc_name c) with
  | None => mret (Observe (failure "UNKNOWN_TOOL" "The requested tool is not published for this agent."))
  | Some definition =>
      match decide_policy definition with
      | ALLOW_AUTO => mret Allow
      | REQUIRE_APPROVAL =>
          request_approval definition c (rounds * 1000 + Z.of_nat index) k
      end
  end.

Definition needs_approval (c : Proposed) : bool :=
  negb (pc_invalid c) &&
  match tool_definitions (pc_name c) with
  | Some definition => match decide_policy definition with REQUIRE_APPROVAL => true | _ => false end
  | None => false
  end.

(** What the loop collects. *)
Record Sorted := {
  so_allowed : list Proposed;
  so_actions : list ActionCall;
  so_pre : list (list N * ToolResult)
}.
Definition allow (c : Proposed) (o : Sorted) : Sorted :=
  {| so_allowed := so_allowed o ++ [c]; so_actions := so_actions o; so_pre := so_pre o |}.
Definition act (c : Proposed) (i : uuid) (o : Sorted) : Sorted :=
  {| so_allowed := so_allowed o;
     so_actions := so_actions o ++ [{| ac_tool_call_id := pc_tool_call_id c; ac_name := pc_name c;
                                       ac_approval_id := i |}];
     so_pre := so_pre o |}.
Definition pre_observe (c : Proposed) (r : ToolResult) (o : Sorted) : Sorted :=
  {| so_allowed := so_allowed o; so_actions := so_actions o;
     so_pre := set_result (pc_tool_call_id c) r (so_pre o) |}.

Inductive Policy := Sorted_calls (o : Sorted) | Ended (update : AgentRunState → AgentRunState)
                  | Waiting (a : Approval).
Fixpoint sort_calls (rounds : Z) (index k : nat) (calls : list Proposed) (o : Sorted) :
  M Node Exn Policy :=
  match calls with
  | [] => mret (Sorted_calls o)
  | c :: rest =>
      v ← judge rounds index k c;
      let next := sort_calls rounds (S index) (if needs_approval c then S k else k) rest in
      match v with
      | Allow => next (allow c o)
      | Observe r => next (pre_observe c r o)
      | Act i => next (act c i o)
      | End u => mret (Ended u)
      | Interrupt a => mret (Waiting a)
      end
  end.

Definition sort_round (o : Sorted) (st : AgentRunState) : AgentRunState :=
  set_round {| proposed_tool_calls := proposed_tool_calls (round st);
               pending_tool_calls := so_allowed o; action_calls := so_actions o;
               identical_call_counts := identical_call_counts (round st);
               tool_call_count := tool_call_count (round st); pre_observations := so_pre o;
               executed_observations := executed_observations (round st);
               tool_observations := tool_observations (round st) |} st.

(** [inr]: the graph is interrupted and will run this node again. *)
Definition policy (st : AgentRunState) : M Node Exn (AgentRunState + Approval) :=
  unless_stopped (λ u, inl (merge_update u st)) (
  out ← sort_calls (model_round_count (conv st)) 0 0 (pending_tool_calls (round st))
          {| so_allowed := []; so_actions := []; so_pre := [] |};
  match out with
  | Ended u => mret (inl (u st))
  | Waiting a => mret (inr a)
  | Sorted_calls o =>
      graph_step "POLICY" "SUCCEEDED"
        [(lit "policy_decision", JStr (lit "ALLOW_AUTO"));
         (lit "tool_count", JInt (Z.of_nat (length (so_allowed o))))];;
      mret (inl (sort_round o st))
  end).

(** *** read_execute *)

Definition execute_one (st : AgentRunState) (c : Proposed) :
  M Node Exn (list N * ToolResult * list AuxiliaryCall) :=
  unless_stopped
    (λ _, (pc_tool_call_id c,
           failure "RUN_CANCELLED" "The run was cancelled before tool execution.", [])) (
  emit (TOOL_STARTED c);;
  context ← context_now;
  called ← tx (λ d, let '(o, aux, d') := run_tool context st c d in (Return (o, aux), d'));
  result ← match called.1 with
           | Return r => mret r
           | Raise (AgentHubError code message _) => mret (failure code message)
           | Raise e => if is_exception e
                        then mret (failure "TOOL_EXECUTION_FAILED" "The tool execution failed.")
                        else raise e
           end;
  emit (TOOL_COMPLETED c result);;
  match tr_status result with
  | ERROR => emit (TOOL_FAILED c result)
  | SUCCESS => mret tt
  end;;
  mret (pc_tool_call_id c, result, called.2)).

Fixpoint gather (st : AgentRunState) (calls : list Proposed) :
  M Node Exn (list (list N * ToolResult) * list AuxiliaryCall) :=
  match calls with
  | [] => mret ([], [])
  | c :: rest => one ← execute_one st c; more ← gather st rest;
                 mret (one.1 :: more.1, one.2 ++ more.2)
  end.

Fixpoint auxiliary_steps (l : list AuxiliaryCall) : M Node Exn unit :=
  match l with
  | [] => mret tt
  | x :: rest =>
      graph_step "AUXILIARY_MODEL" (if ax_succeeded x then "SUCCEEDED" else "FAILED")
        (ax_metadata x);;
      auxiliary_steps rest
  end.

Definition name_of (calls : list Proposed) (id : list N) : json :=
  match find (λ c, bool_decide (pc_tool_call_id c = id)) calls with
  | Some c => JStr (pc_name c)
  | None => JNull
  end.

(** [dict(pairs)] *)
Definition dict_of (pairs : list (list N * ToolResult)) : list (list N * ToolResult) :=
  foldl (λ d kr, set_result kr.1 kr.2 d) [] pairs.

(** The calls worth an artifact. *)
Definition recordable (observations : list (list N * ToolResult)) (c : Proposed) :
  option (list (list N * json)) :=
  if bool_decide (pc_name c = THREAD_HISTORY_SEARCH) then None
  else match result_at (pc_tool_call_id c) observations with
       | Some r => match tr_status r, tr_data r with SUCCESS, Some (JObj d) => Some d | _, _ => None end
       | None => None
       end.
Fixpoint recorded_calls (rounds : Z) (observations : list (list N * ToolResult))
    (calls : list Proposed) : M Node Exn (list RecordedToolCall) :=
  match calls with
  | [] => mret []
  | c :: rest =>
      match recordable observations c with
      | None => recorded_calls rounds observations rest
      | Some d =>
          s ← get;
          h ← hash_of (JObj [(lit "schema", JInt 1); (lit "model_round", JInt rounds);
                             (lit "proposal_ordinal", JInt (Z.of_nat (pc_ordinal c)));
                             (lit "tool_identity", JStr (pc_name c))]);
          more ← recorded_calls rounds observations rest;
          mret ({| rc_tool_identity := pc_name c; rc_tool_call_id := pc_tool_call_id c;
                   rc_step_sequence := node_sequence s; rc_arguments := pc_arguments c;
                   rc_data := d; rc_logical_call_id := h |} :: more)
      end
  end.
Definition _record_artifacts (calls : list Proposed) (observations : list (list N * ToolResult))
    (rounds : Z) : M Node Exn unit :=
  if bool_decide (run_thread_id graph_run = None) || negb has_recorder then mret tt
  else
    recorded ← recorded_calls rounds observations calls;
    match recorded with
    | [] => mret tt
    | _ => swallow (tx (record_calls recorded))
    end.

Definition set_executed (observations : list (list N * ToolResult)) (records : list UsageRecord)
    (st : AgentRunState) : AgentRunState :=
  {| conv := {| messages := messages (conv st); turn_transcript := turn_transcript (conv st);
                model_round_count := model_round_count (conv st); usage_records := records;
                model_response := model_response (conv st); final_output := final_output (conv st) |};
     round := {| proposed_tool_calls := proposed_tool_calls (round st);
                 pending_tool_calls := pending_tool_calls (round st);
                 action_calls := action_calls (round st);
                 identical_call_counts := identical_call_counts (round st);
                 tool_call_count := tool_call_count (round st);
                 pre_observations := pre_observations (round st);
                 executed_observations := observations;
                 tool_observations := tool_observations (round st) |};
     fate := fate st; evidence := evidence st |}.

Definition read_execute (st : AgentRunState) : M Node Exn AgentRunState :=
  unless_stopped (λ u, merge_update u st) (
  let calls := pending_tool_calls (round st) in
  out ← gather st calls;
  auxiliary_steps out.2;;
  graph_step "TOOL_EXECUTE" "SUCCEEDED"
    [(lit "tool_count", JInt (Z.of_nat (length calls)));
     (lit "tool_identities", JArr (JStr ∘ pc_name <$> calls));
     (lit "tool_call_ids", JArr (JStr ∘ pc_tool_call_id <$> calls));
     (lit "tool_results", JArr ((λ kr : list N * ToolResult,
        JObj [(lit "tool_call_id", JStr kr.1); (lit "tool_identity", name_of calls kr.1);
              (lit "status", JStr (lit (status_value (tr_status kr.2))));
              (lit "error_code", opt_str (tr_error_code kr.2))]) <$> out.1))];;
  let observations := dict_of out.1 in
  _record_artifacts calls observations (model_round_count (conv st));;
  mret (set_executed observations (usage_records (conv st) ++ (ax_record <$> out.2)) st)).

(** *** observation *)

Definition METADATA_HEADROOM : Z := 64.

(** [f"{n:05d}"] *)
Definition pad5 (n : Z) : list N :=
  let t := dump_int n in replicate (5 - length t) 48%N ++ t.
(** [f"T{run.id.hex[:20]}R"] *)
Definition turn_prefix : list N := lit "T" ++ take 20 (hex_fixed 32 (run_id graph_run)) ++ lit "R".

Definition evidence_budget (configured_bytes : json) : Z :=
  let pool := rt_max_retrieval_tokens runtime in
  let b := match configured_bytes with
           | JInt n => if (2 <=? n) && (n <=? 64000) then Z.min n pool else pool
           | _ => pool
           end in
  Z.max 2 (b - METADATA_HEADROOM).

Definition wiki_state_keys : list string :=
  ["route"; "insufficient_evidence"; "supplemental_required"; "conflict_count"; "degraded";
   "degraded_reason"]%string.

(** What the loop over the calls carries. *)
Record Told := {
  to_messages : list ModelMessage;
  to_observations : list (list N * ToolResultStatus);
  to_registry : gmap (list N) json;
  to_sequence : Z;
  to_compact : bool;
  to_terminal : option string
}.

(** The text of a [ValueError]. *)
Definition error_text (e : view_error) : string :=
  match e with Invalid m => m | Unhashable => "unhashable type" end.

(** A plan over the registry: the payload, or [None] when it was refused. *)
Definition compact_plan (in_turn wiki : bool) (budget : Z) (r : ToolResult) (t : Told) :
  outcome string (option (list (list N * json)) * Told) :=
  let t' n reg := {| to_messages := to_messages t; to_observations := to_observations t;
                     to_registry := reg; to_sequence := n; to_compact := true;
                     to_terminal := to_terminal t |} in
  let refused := Return (None, t' (to_sequence t) (to_registry t)) in
  if (0 <=? to_sequence t) && (to_sequence t <? 99999) then
    match tr_data r with
    | Some (JObj d) =>
        match field "results" d, field "evidence_refs" d with
        | JArr results, JArr refs =>
            if (length results <=? 10)%nat then
              let n := to_sequence t + 1 in
              let prefix := (if in_turn then turn_prefix else lit "R") ++ pad5 n ++ lit "E" in
              match assemble_evidence_plan (estimator := ApproxTokenEstimator) results refs budget prefix
                      10 (if wiki then Some envelope_violation else None) wiki
                      (if wiki then Some (filter (λ kv, kv.1 ∈ lit <$> wiki_state_keys) d) else None) with
              | Raise e => Raise (error_text e)
              | Return (Some plan) =>
                  let registered := list_to_map (plan_registry plan) : gmap (list N) json in
                  if bool_decide (dom registered ∩ dom (to_registry t) = (∅ : gset (list N)))
                  then Return (Some (payload plan), t' n (registered ∪ to_registry t))
                  else Return (None, t' n (to_registry t))
              | Return None => Return (None, t' n (to_registry t))
              end
            else refused
        | _, _ => refused
        end
    | _ => refused
    end
  else refused.

Definition projection_failed : list (list N * json) :=
  [(lit "status", text "SUCCESS"); (lit "trust", text "UNTRUSTED");
   (lit "truncated", JBool true); (lit "evidence_projection", text "FAILED")].

(** The evidence tool whose successful result is projected. *)
Definition evidence_tool (c : Proposed) (r : ToolResult) : option ToolDefinition :=
  match tool_definitions (pc_name c), tr_status r with
  | Some definition, SUCCESS =>
      if bool_decide (pc_name c ∈ RAG_EVIDENCE_TOOL_IDENTITIES)
         && bool_decide (td_identity definition ∈ RAG_EVIDENCE_TOOL_IDENTITIES)
         && bool_decide (td_source_kind definition = BUILTIN)
      then Some definition else None
  | _, _ => None
  end.

Definition project_evidence (in_turn : bool) (definition : ToolDefinition) (r : ToolResult)
    (t : Told) : outcome string (option (list (list N * json)) * Told) :=
  let config := retrieval_config definition in
  let budget := evidence_budget (field "context_budget_bytes" config) in
  let wiki := bool_decide (td_identity definition = lit "query_wiki") in
  if wiki || is_text "compact_v1" (field "evidence_projection" config)
  then compact_plan in_turn wiki budget r t
  else match project_rag_evidence_payload (estimator := ApproxTokenEstimator)
               (JObj [(lit "status", text (status_value (tr_status r)));
                      (lit "trust", text "UNTRUSTED"); (lit "data", default JNull (tr_data r))])
               budget with
       | Return p => Return (p, t)
       | Raise _ => Raise "budget must be a non-negative integer"%string
       end.

(** The text for one call, or the message of a [ValueError]. *)
Definition payload_text (in_turn : bool) (c : Proposed) (r : ToolResult) (t : Told) :
  outcome string (list N * Told) :=
  match evidence_tool c r with
  | Some definition =>
      pt ← project_evidence in_turn definition r t;
      Return (dump (JObj (dict_update (default projection_failed pt.1) (approval_facts r))), pt.2)
  | None =>
      p ← or_raise "max_tool_result_tokens must be a non-negative integer"%string
            (_bounded_tool_result r (rt_max_tool_result_tokens runtime));
      Return (ascii_dump (JObj p), t)
  end.

Definition result_for (st : AgentRunState) (c : Proposed) : ToolResult :=
  match result_at (pc_tool_call_id c) (pre_observations (round st)) with
  | Some r => r
  | None => default (failure "TOOL_EXECUTION_FAILED" "The tool execution failed.")
              (result_at (pc_tool_call_id c) (executed_observations (round st)))
  end.
Definition tool_message (c : Proposed) (content : list N) : ModelMessage :=
  {| role := role_tool; content := Some content; msg_name := Some (pc_name c);
     tool_call_id := Some (pc_tool_call_id c); tool_calls := [] |}.

Fixpoint observe_calls (st : AgentRunState) (calls : list Proposed) (t : Told) :
  outcome string Told :=
  match calls with
  | [] => Return t
  | c :: rest =>
      let r := result_for st c in
      let terminal := match tr_error_code r with
                      | Some code => if bool_decide (code ∈ _TERMINAL_TOOL_ERRORS) then Some code
                                     else to_terminal t
                      | None => to_terminal t
                      end in
      told ← payload_text (bool_decide (is_Some (turn_transcript (conv st)))) c r t;
      let t := told.2 in
      observe_calls st rest
        {| to_messages := to_messages t ++ [tool_message c told.1];
           to_observations := to_observations t ++ [(pc_tool_call_id c, tr_status r)];
           to_registry := to_registry t; to_sequence := to_sequence t; to_compact := to_compact t;
           to_terminal := terminal |}
  end.

Definition observe_round (t : Told) (st : AgentRunState) : AgentRunState :=
  let code := match to_terminal t with Some c => Some c | None => failure_code (fate st) end in
  {| conv := {| messages := messages (conv st) ++ to_messages t;
                turn_transcript := (λ l, l ++ to_messages t) <$> turn_transcript (conv st);
                model_round_count := model_round_count (conv st);
                usage_records := usage_records (conv st);
                model_response := model_response (conv st); final_output := final_output (conv st) |};
     round := {| proposed_tool_calls := []; pending_tool_calls := [];
                 action_calls := action_calls (round st);
                 identical_call_counts := identical_call_counts (round st);
                 tool_call_count := tool_call_count (round st);
                 pre_observations := []; executed_observations := [];
                 tool_observations := to_observations t |};
     fate := {| failure_code := code; st_run_status := st_run_status (fate st);
                approval_required := approval_required (fate st) |};
     evidence :=
       {| rag_evidence_registry := if to_compact t then to_registry t
                                   else rag_evidence_registry (evidence st);
          rag_evidence_sequence := if to_compact t then to_sequence t
                                   else rag_evidence_sequence (evidence st);
          turn_evidence_registry :=
            if bool_decide (is_Some (turn_transcript (conv st))) && to_compact t
            then filter (λ kv, turn_prefix `prefix_of` kv.1) (to_registry t)
                 ∪ turn_evidence_registry (evidence st)
            else turn_evidence_registry (evidence st);
          history_bound := history_bound (evidence st);
          summary_boundary :=
            if negb (nonempty_code code) && history_bound (evidence st) && summary_enabled runtime
            then Some (model_round_count (conv st) + 1) else summary_boundary (evidence st) |} |}.

Definition observation (st : AgentRunState) : M Node Exn AgentRunState :=
  match observe_calls st (proposed_tool_calls (round st))
          {| to_messages := []; to_observations := [];
             to_registry := rag_evidence_registry (evidence st);
             to_sequence := rag_evidence_sequence (evidence st); to_compact := false;
             to_terminal := None |} with
  | Raise message => raise (ValueError message)
  | Return t =>
      graph_step "OBSERVATION"
        (match to_terminal t with Some _ => "FAILED" | None => "SUCCEEDED" end)
        [(lit "tool_count", JInt (Z.of_nat (length (to_observations t))));
         (lit "observations", JArr ((λ o : list N * ToolResultStatus,
            JObj [(lit "tool_call_id", JStr o.1); (lit "status", text (status_value o.2))])
            <$> to_observations t));
         (lit "error_code", opt_str (to_terminal t))];;
      mret (observe_round t st)
  end.

(** *** finish and the edges *)

Definition failed (st : AgentRunState) : bool := nonempty_code (failure_code (fate st)).

(** The status [finish] leaves for [_complete_run]. *)
Definition finish_status (st : AgentRunState) : RunStatus.t :=
  match st_run_status (fate st) with
  | Some s => s
  | None => if failed st then RunStatus.FAILED else RunStatus.SUCCEEDED
  end.
Definition finish_metadata (st : AgentRunState) : list (list N * json) :=
  _safe_step_metadata
    [(lit "status", JStr (lit (RunStatus.value (finish_status st))));
     (lit "error_code", opt_str (failure_code (fate st)));
     (lit "model_round", JInt (model_round_count (conv st)));
     (lit "tool_count", JInt (tool_call_count (round st)))].

Inductive NodeName := prepare_node | summary_node | model_node | proposal_node | policy_node
                    | read_node | action_node | observation_node | finish_node.

Definition after_prepare (st : AgentRunState) : NodeName :=
  if failed st then finish_node else summary_node.
Definition after_summary (st : AgentRunState) : NodeName :=
  if failed st then finish_node else model_node.
Definition after_model (st : AgentRunState) : NodeName :=
  if failed st || bool_decide (is_Some (final_output (conv st))) then finish_node else proposal_node.
Definition after_proposal (st : AgentRunState) : NodeName :=
  if failed st then finish_node else policy_node.
Definition after_policy (st : AgentRunState) : NodeName :=
  if failed st || bool_decide (is_Some (st_run_status (fate st))) then finish_node
  else if bool_decide (action_calls (round st) = []) then read_node else action_node.
Definition after_observation (st : AgentRunState) : NodeName :=
  if failed st then finish_node else model_node.

(** *** The graph *)

Inductive Ending := Finished (st : AgentRunState) | Paused (st : AgentRunState) (a : Approval).
Inductive Move := Goto (n : NodeName) (st : AgentRunState) | Stop (e : Ending).

Definition visit (n : NodeName) (st : AgentRunState) : M Node Exn Move :=
  match n with
  | prepare_node => st' ← prepare st; mret (Goto (after_prepare st') st')
  | summary_node => st' ← summary st; mret (Goto (after_summary st') st')
  | model_node => st' ← model st; mret (Goto (after_model st') st')
  | proposal_node => st' ← tool_proposal st; mret (Goto (after_proposal st') st')
  | policy_node =>
      r ← policy st;
      match r with
      | inl st' => mret (Goto (after_policy st') st')
      | inr a => mret (Stop (Paused st a))
      end
  | read_node => st' ← read_execute st; mret (Goto observation_node st')
  | action_node =>
      c ← context_now;
      u ← action_execute graph_run registry authoritative tool_definitions clock configured c
            (action_calls (round st));
      mret (Goto observation_node (merge_update u st))
  | observation_node => st' ← observation st; mret (Goto (after_observation st') st')
  | finish_node => mret (Stop (Finished st))
  end.

(** [graph.ainvoke], from the start at [prepare_node], after an interrupt at
    [policy_node]; [None] when the fuel does not suffice. *)
Fixpoint run_graph (fuel : nat) (n : NodeName) (st : AgentRunState) : M Node Exn (option Ending) :=
  match fuel with
  | O => mret None
  | S fuel =>
      move ← visit n st;
      match move with
      | Goto n' st' => run_graph fuel n' st'
      | Stop e => mret (Some e)
      end
  end.
End Nodes.
