(* ===== verification/AgentGraphTheory.v ===== *)
(** * Facts about single nodes of the agent graph

    [returns m Q]: whatever [m] returns satisfies [Q], from any state.  It
    follows the values a node passes on and forgets what happens to the tables. *)

From stdpp Require Import base gmap list strings.
From Stdlib Require Import ZArith NArith Lia.
From S2P Require Import Prelude.
From S2P Require Import RunBudgetLedger.
From S2P Require Import Json.
From S2P Require Import JsonTheory.
From S2P Require Import RunStore.
From S2P Require Import Rbac.
From S2P Require Import Approvals.
From S2P Require Import ApprovalsTheory.
From S2P Require Import Reconciliation.
From S2P Require Import ApprovalsProperties.
From S2P Require Import Actions.
From S2P Require Import TurnTranscript.
From S2P Require Import RunUsage.
From S2P Require Import RunLifecycle.
From S2P Require Import ActionNode.
From S2P Require Import ActionNodeProperties.
From S2P Require Import ContextMetadata.
From S2P Require Import ModelProfiles.
From S2P Require Import Outcome.
From S2P Require Import ContextBudget.
From S2P Require Import UuidText.
From S2P Require Import ToolObservation.
From S2P Require Import RagEvidence.
From S2P Require Import EvidencePlan.
From S2P Require Import AgentGraph.

Local Open Scope Z_scope.

(** ** Returned values *)

Definition returns {S E A} (m : M S E A) (Q : A → Prop) : Prop :=
  ∀ s a s', m s = (Return a, s') → Q a.

Section Returns.
Context {S E : Type}.

Lemma returns_ret {A} (a : A) (Q : A → Prop) : Q a → returns (S := S) (E := E) (mret a) Q.
Proof. by intros HQ s b s' [= <- _]. Qed.

Lemma returns_raise {A} (e : E) (Q : A → Prop) : returns (S := S) (raise e) Q.
Proof. by intros s b s' [=]. Qed.

Lemma returns_bind {A B} (m : M S E A) (f : A → M S E B) P Q :
  returns m P → (∀ a, P a → returns (f a) Q) → returns (m ≫= f) Q.
Proof.
  intros Hm Hf s b s'. rewrite bind_run. destruct (m s) as [[a|e] s1] eqn:E1; [|done].
  intros E2. exact (Hf a (Hm _ _ _ E1) _ _ _ E2).
Qed.

Lemma returns_any {A} (m : M S E A) : returns m (λ _, True).
Proof. done. Qed.

Lemma returns_then {A B} (m : M S E A) (f : A → M S E B) Q :
  (∀ a, returns (f a) Q) → returns (m ≫= f) Q.
Proof. intros Hf. apply (returns_bind _ _ (λ _, True)); [done|auto]. Qed.

Lemma returns_mono {A} (m : M S E A) (P Q : A → Prop) :
  returns m P → (∀ a, P a → Q a) → returns m Q.
Proof. intros Hm H s a s' E1. exact (H _ (Hm _ _ _ E1)). Qed.

Lemma returns_and {A} (m : M S E A) (P Q : A → Prop) :
  returns m P → returns m Q → returns m (λ a, P a ∧ Q a).
Proof. intros H1 H2 s a s' E1. split; [exact (H1 _ _ _ E1)|exact (H2 _ _ _ E1)]. Qed.
End Returns.

Create HintDb graph discriminated.
#[export] Hint Resolve returns_raise : graph.

(** Walk to the values a node can return. *)
Ltac returned :=
  repeat first
    [ apply returns_ret
    | apply returns_raise
    | apply returns_then; intros ?
    | case_match ].

(** ** What the updates leave alone *)

Definition rounds (st : AgentRunState) : Z := model_round_count (conv st).
Definition stopped (st : AgentRunState) : Prop := is_Some (st_run_status (fate st)).

(** The conversation and the proposals are untouched and a set status stays. *)
Record same_round (st st' : AgentRunState) : Prop := {
  sr_conv : conv st' = conv st;
  sr_proposed : proposed_tool_calls (round st') = proposed_tool_calls (round st);
  sr_total : tool_call_count (round st') = tool_call_count (round st);
  sr_stopped : stopped st → stopped st'
}.
#[export] Instance same_round_refl : Reflexive same_round.
Proof. by split. Qed.

Lemma same_merge u st : same_round st (merge_update u st).
Proof. split; [done..|]. unfold stopped. cbn. destruct (up_run_status u); [by eexists|done]. Qed.
Lemma same_fail code o st : same_round st (fail code o st).
Proof. split; [done..|]. unfold stopped. cbn. destruct o; [by eexists|done]. Qed.
Lemma same_require a st : same_round st (require_approval a st).
Proof. by split. Qed.
Lemma same_sort o st : same_round st (sort_round o st).
Proof. by split. Qed.
#[export] Hint Resolve same_merge same_fail same_require same_sort same_round_refl : graph.

Lemma stop_update_stops status u st : stop_update status = Some u → stopped (merge_update u st).
Proof. destruct status as [[]|]; intros [= <-]; by eexists. Qed.
Lemma stop_update_executed status u : stop_update status = Some u → up_executed u = None.
Proof. by destruct status as [[]|]; intros [= <-]. Qed.

Lemma failed_fail code o st : code ≠ ""%string → failed (fail code o st) = true.
Proof. unfold failed. cbn. by destruct code. Qed.

Lemma cost_guard_code l limit n code : _cost_guard_failure l limit n = Some code → code ≠ ""%string.
Proof.
  unfold _cost_guard_failure, AGENT_COST_UNMEASURABLE, AGENT_COST_LIMIT_EXCEEDED.
  intros H ->. repeat case_match; discriminate H.
Qed.

Section Nodes.
Context `{HPy : PyStr} `{HDig : Digests} `{HSchema : SchemaValidator} `{HWide : EastAsian}
        `{HDec : UnicodeDecimal} `{env : GraphEnv}.

Lemma returns_unless_stopped {A} (f : Update → A) (body : M Node Exn A) Q :
  (∀ u, up_executed u = None → (∀ st, stopped (merge_update u st)) → Q (f u)) →
  returns body Q → returns (unless_stopped f body) Q.
Proof.
  intros Hu Hb. unfold unless_stopped.
  apply (returns_bind _ _ (λ o, ∀ u, o = Some u →
    up_executed u = None ∧ ∀ st, stopped (merge_update u st))).
  - unfold stop_requested. do 4 (apply returns_then; intros ?). apply returns_ret.
    intros u Hu'. split; [by eapply stop_update_executed|].
    intros st. by eapply stop_update_stops.
  - intros [u|] Ho; [|done]. apply returns_ret. destruct (Ho u eq_refl). auto.
Qed.

(** ** The nodes *)

(** [model]: stopped, failed without asking, or one more round. *)
Definition model_out (st st' : AgentRunState) : Prop :=
  (stopped st → stopped st') ∧ tool_call_count (round st') = tool_call_count (round st) ∧
  (rounds st' = rounds st ∧ (stopped st' ∨ failed st' = true) ∨
   rounds st < max_steps runtime ∧ rounds st' = rounds st + 1).

Lemma model_returns st : returns (model st) (model_out st).
Proof using Type.
  unfold model. apply returns_unless_stopped.
  { intros u _ Hu. split; [done|]. split; [done|]. left. split; [done|by left]. }
  destruct (Z.leb_spec (max_steps runtime) (model_round_count (conv st))) as [|Hlt].
  { returned. split; [apply same_fail|]. split; [done|]. left. split; [done|]. right. by apply failed_fail. }
  destruct (_cost_guard_failure _ _ _) as [code|] eqn:Hc.
  { returned. split; [apply same_fail|]. split; [done|]. left. split; [done|]. right.
    apply failed_fail. by eapply cost_guard_code. }
  apply returns_then. intros [code o ev|retained ev d1 d2 r].
  - apply returns_ret. split; [|split; [done|by right]].
    unfold stopped. cbn. destruct o; [by eexists|done].
  - unfold take_response. returned; (split; [done|split; [done|right; by split]]).
Qed.

(** What [model] leaves behind when it goes on: the retained messages and the
    assistant's message [m], which carries the response [r]. *)
Definition asked_calls (st st' : AgentRunState) (ms : list ModelMessage) (m : ModelMessage)
    (r : ModelResponse) : Prop :=
  messages (conv st') = ms ++ [m] ∧
  turn_transcript (conv st') = (λ t, t ++ [m]) <$> turn_transcript (conv st) ∧
  rounds st' = rounds st + 1 ∧ role m = role_assistant ∧ content m = Some (rs_content r) ∧
  model_response (conv st') = Some r ∧
  tool_calls m = imap (normalized_call (rounds st')) (rs_tool_calls r).

Lemma model_asks st (P : list ModelMessage → ModelResponse → Prop) :
  returns (ask st) (λ a, match a with
    | Answered ms _ _ _ r => P ms r
    | Failed code _ _ => code ≠ ""%string
    end) →
  returns (model st) (λ st', stopped st' ∨ failed st' = true ∨
    ∃ ms m r, P ms r ∧ asked_calls st st' ms m r ∧
      (is_Some (final_output (conv st')) → tool_calls m = [])).
Proof using Type.
  intros Ha. unfold model. apply returns_unless_stopped.
  { intros u _ Hu. by left. }
  destruct (max_steps runtime <=? _).
  { returned. right. left. by apply failed_fail. }
  destruct (_cost_guard_failure _ _ _) as [code|] eqn:Hc.
  { returned. right. left. apply failed_fail. by eapply cost_guard_code. }
  eapply returns_bind; [exact Ha|]. intros [code o ev|retained ev d1 d2 r] HP.
  - apply returns_ret. right. left. by apply failed_fail.
  - unfold take_response. destruct (blank_response r).
    { returned. right. left. apply failed_fail. unfold empty_code. by case_bool_decide. }
    destruct (bool_decide (rs_finish_reason r = _)).
    { returned. right. left. by apply failed_fail. }
    returned. right. right. eexists retained, _, r. split; [done|].
    split; [done|]. cbn. case_bool_decide as Hr; [by rewrite Hr|by intros [? [=]]].
Qed.

(** [tool_proposal]: stopped, failed, or the calls of the response. *)
Definition proposed_calls (st st' : AgentRunState) : Prop :=
  ∃ r, model_response (conv st) = Some r ∧ conv st' = conv st ∧
    proposed_tool_calls (round st') = imap (proposal (rounds st)) (rs_tool_calls r) ∧
    tool_call_count (round st')
      = tool_call_count (round st) + Z.of_nat (length (rs_tool_calls r)) ∧
    tool_call_count (round st') ≤ max_tool_calls runtime ∧
    (stopped st → stopped st').

Lemma proposal_returns st :
  returns (tool_proposal st) (λ st',
    same_round st st' ∧ stopped st' ∨
    failed st' = true ∧ conv st' = conv st ∧ (stopped st → stopped st') ∨
    proposed_calls st st').
Proof using Type.
  unfold tool_proposal. apply returns_unless_stopped.
  { intros u _ Hu. left. by split; [apply same_merge|]. }
  destruct (model_response (conv st)) as [r|] eqn:Hr.
  2:{ apply returns_ret. right. left. split; [by apply failed_fail|]. split; [done|].
      apply same_fail. }
  apply returns_then. intros [counts|].
  - destruct (Z.ltb_spec (max_tool_calls runtime)
      (tool_call_count (round st) + Z.of_nat (length (imap (proposal (model_round_count (conv st))) (rs_tool_calls r))))) as [|Hle].
    + returned. right. left. by split; [apply failed_fail|].
    + returned. right. right. exists r. rewrite length_imap in Hle. cbn. rewrite length_imap. done.
  - returned. right. left. by split; [apply failed_fail|].
Qed.

(** An update that ends [policy] touches no call. *)
Definition benign (u : AgentRunState → AgentRunState) : Prop :=
  ∀ st, same_round st (u st) ∧ action_calls (round (u st)) = action_calls (round st).
Lemma benign_fail code o : benign (fail code o).
Proof using Type. intros st. by split; [apply same_fail|]. Qed.
Lemma benign_require a : benign (require_approval a).
Proof using Type. intros st. by split; [apply same_require|]. Qed.

(** [policy] only sorts the calls. *)
Lemma resume_returns definition a i l :
  returns (resume_approval definition a i l) (λ v, ∀ u, v = End u → benign u).
Proof using Type.
  unfold resume_approval. destruct (uuid_of_text _); [|apply returns_raise].
  do 6 (apply returns_then; intros ?). apply returns_ret. intros u.
  case_match; intros [= <-]; apply benign_require.
Qed.
Lemma judge_returns n index k c :
  returns (judge n index k c) (λ v, ∀ u, v = End u → benign u).
Proof using Type.
  unfold judge. destruct (pc_invalid c); [by apply returns_ret|].
  destruct (tool_definitions (pc_name c)) as [definition|]; [|by apply returns_ret].
  destruct (decide_policy definition); [by apply returns_ret|].
  unfold request_approval. destruct (negb can_ask).
  { returned. intros u [= <-]. apply benign_fail. }
  apply returns_then. intros ctx. apply returns_then. intros [a|].
  - do 2 (apply returns_then; intros ?). destruct (interrupted k) as [[|i l]|].
    + apply returns_ret. intros u [= <-]. apply benign_require.
    + apply resume_returns.
    + by apply returns_ret.
  - returned. intros u [= <-]. apply benign_fail.
Qed.
Lemma sort_calls_returns n index k calls o :
  returns (sort_calls n index k calls o) (λ p, ∀ u, p = Ended u → benign u).
Proof using Type.
  revert index k o. induction calls as [|c calls IH]; intros index k o; cbn [sort_calls];
    [by apply returns_ret|].
  eapply returns_bind; [apply judge_returns|]. intros [|r|i|u|a] Hv; [apply IH..| |].
  - apply returns_ret. intros u' [= <-]. by apply Hv.
  - by apply returns_ret.
Qed.
Lemma policy_returns st :
  returns (policy st) (λ o, ∀ st', o = inl st' → same_round st st').
Proof using Type.
  unfold policy. apply returns_unless_stopped.
  { intros u _ _ st' [= <-]. apply same_merge. }
  eapply returns_bind; [apply sort_calls_returns|]. intros [o|u|a] Hu.
  - returned. intros st' [= <-]. apply same_sort.
  - apply returns_ret. intros st' [= <-]. by apply (Hu u eq_refl).
  - by apply returns_ret.
Qed.

Lemma read_returns st :
  returns (read_execute st) (λ st',
    messages (conv st') = messages (conv st) ∧
    turn_transcript (conv st') = turn_transcript (conv st) ∧ rounds st' = rounds st ∧
    proposed_tool_calls (round st') = proposed_tool_calls (round st) ∧
    tool_call_count (round st') = tool_call_count (round st) ∧ (stopped st → stopped st')).
Proof using Type.
  unfold read_execute. apply returns_unless_stopped.
  - intros u _ _. destruct (same_merge u st) as [-> -> ? ?]. done.
  - by returned.
Qed.

(** ** Observations *)

(** Tool message [m] answers call [c]. *)
Definition answers_call (m : ModelMessage) (c : Proposed) : Prop :=
  role m = role_tool ∧ tool_call_id m = Some (pc_tool_call_id c) ∧
  msg_name m = Some (pc_name c) ∧ tool_calls m = [].

Lemma payload_text_keeps in_turn c r t content t' :
  payload_text in_turn c r t = Return (content, t') →
  to_messages t' = to_messages t ∧ to_observations t' = to_observations t ∧
  to_terminal t' = to_terminal t.
Proof using Type.
  unfold payload_text. destruct (evidence_tool c r) as [definition|].
  - intros H. apply obind_inv in H as ([o t1] & E & H). injection H as _ <-.
    unfold project_evidence in E. destruct (_ || _).
    + unfold compact_plan in E. repeat case_match; by (discriminate E || injection E as _ <-).
    + destruct (project_rag_evidence_payload _ _); [by injection E as _ <-|done].
  - intros H. apply obind_inv in H as (p & _ & H). by injection H as _ <-.
Qed.

Lemma observe_calls_messages st calls t t' :
  observe_calls st calls t = Return t' →
  ∃ ms, to_messages t' = to_messages t ++ ms ∧ Forall2 answers_call ms calls ∧
    to_observations t' = to_observations t
      ++ ((λ c, (pc_tool_call_id c, tr_status (result_for st c))) <$> calls).
Proof using Type.
  revert t. induction calls as [|c calls IH]; intros t; cbn [observe_calls].
  { intros [= <-]. exists []. by rewrite !app_nil_r. }
  intros H. apply obind_inv in H as ([content t1] & Hp & H).
  apply payload_text_keeps in Hp as (E1 & E2 & _).
  destruct (IH _ H) as (ms & Em & Hf & Eo). cbn [to_messages to_observations fst snd] in Em, Eo.
  rewrite E1 in Em. rewrite E2 in Eo. exists (tool_message c content :: ms).
  rewrite Em, Eo, <- !app_assoc. split; [done|]. split; [by constructor|done].
Qed.

Lemma observation_returns st :
  returns (observation st) (λ st',
    (∃ ms, messages (conv st') = messages (conv st) ++ ms ∧
      turn_transcript (conv st') = (λ t, t ++ ms) <$> turn_transcript (conv st) ∧
      Forall2 answers_call ms (proposed_tool_calls (round st))) ∧
    rounds st' = rounds st ∧ tool_call_count (round st') = tool_call_count (round st) ∧
    (stopped st → stopped st')).
Proof using Type.
  unfold observation. destruct (observe_calls _ _ _) as [t|] eqn:E; [|apply returns_raise].
  returned. apply observe_calls_messages in E as (ms & Em & Hf & _). cbn in Em.
  split; [|done]. exists ms. cbn. by rewrite Em.
Qed.

(** ** Steps of the graph *)

(** [n'] and [st'] follow [n] and [st], whatever happens beside the graph. *)
Definition edge (n : NodeName) (st : AgentRunState) (n' : NodeName) (st' : AgentRunState) : Prop :=
  ∃ s s', visit n st s = (Return (Goto n' st'), s').

Inductive reaches (n : NodeName) (st : AgentRunState) : NodeName → AgentRunState → Prop :=
| reaches_here : reaches n st n st
| reaches_edge n1 st1 n2 st2 : reaches n st n1 st1 → edge n1 st1 n2 st2 → reaches n st n2 st2.

(** An edge of a node that passes its state to a router. *)
Lemma routed (m : M Node Exn AgentRunState) (route : AgentRunState → NodeName) Q s n' st' s' :
  returns m Q → (st1 ← m; mret (Goto (route st1) st1)) s = (Return (Goto n' st'), s') →
  Q st' ∧ n' = route st'.
Proof using Type.
  intros Hm. rewrite bind_run. destruct (m s) as [[st1|e] s1] eqn:E; [|done].
  intros [= <- <- _]. by split; [exact (Hm _ _ _ E)|].
Qed.

Lemma policy_edge st n' st' :
  edge policy_node st n' st' → same_round st st' ∧ n' = after_policy st'.
Proof using Type.
  intros (s & s' & E). cbn [visit] in E. rewrite bind_run in E.
  destruct (policy st s) as [[[st1|a]|e] s1] eqn:Ep; try done.
  injection E as <- <- _. split; [|done]. by eapply policy_returns.
Qed.
Lemma action_edge st n' st' :
  edge action_node st n' st' → same_round st st' ∧ n' = observation_node.
Proof using Type.
  intros (s & s' & E). revert E. cbn [visit]. intros E.
  assert (returns (visit action_node st) (λ m, ∃ u, m = Goto observation_node (merge_update u st)))
    as Hr by (cbn [visit]; returned; eauto).
  destruct (Hr _ _ _ E) as [u [= -> ->]]. split; [apply same_merge|done].
Qed.

(** [k] edges in a row. *)
Fixpoint walk (k : nat) (n : NodeName) (st : AgentRunState) (s : Node) :
  option (NodeName * AgentRunState * Node) :=
  match k with
  | O => Some (n, st, s)
  | S k => match visit n st s with
           | (Return (Goto n' st'), s') => walk k n' st' s'
           | _ => None
           end
  end.
Lemma reaches_trans n1 st1 n2 st2 n3 st3 :
  reaches n1 st1 n2 st2 → reaches n2 st2 n3 st3 → reaches n1 st1 n3 st3.
Proof using Type. intros H1. induction 1; [done|]. by eapply reaches_edge. Qed.
Lemma walk_reaches k n st s n' st' s' : walk k n st s = Some (n', st', s') → reaches n st n' st'.
Proof using Type.
  revert n st s. induction k as [|k IH]; intros n st s; cbn [walk].
  - intros [= -> -> _]. constructor.
  - destruct (visit n st s) as [[[n1 st1|]|] s1] eqn:E; try done. intros H.
    eapply reaches_trans; [|by apply IH in H].
    eapply reaches_edge; [constructor|]. by exists s, s1.
Qed.
End Nodes.

(** ** A small agent *)

#[export] Instance agent_str : PyStr := {| py_str := λ v, match v with JStr s => s | _ => [] end |}.
#[export] Instance agent_digests : Digests :=
  {| sha256_hexdigest := id; uuid5 := λ _ _, 0%N; uuid5_range := λ _ _, eq_refl |}.
#[export] Instance agent_schema : SchemaValidator := λ _ _, true.
#[export] Instance agent_wide : EastAsian := {| is_wide := λ _, false |}.
#[export] Instance agent_decimal : UnicodeDecimal := {| py_decimal := λ _, None |}.

Definition no_retrieval : Evidence :=
  {| rag_evidence_registry := ∅; rag_evidence_sequence := 0; turn_evidence_registry := ∅;
     history_bound := false; summary_boundary := None |}.
Definition plain_message (r : MessageRole) (t : string) : ModelMessage :=
  {| role := r; content := Some (lit t); msg_name := None; tool_call_id := None; tool_calls := [] |}.
Definition first_state : AgentRunState :=
  {| conv := {| messages := [plain_message role_system "You help."; plain_message role_user "Hello"];
                turn_transcript := Some []; model_round_count := 0; usage_records := [];
                model_response := None; final_output := None |};
     round := {| proposed_tool_calls := []; pending_tool_calls := []; action_calls := [];
                 identical_call_counts := ∅; tool_call_count := 0; pre_observations := [];
                 executed_observations := []; tool_observations := [] |};
     fate := {| failure_code := None; st_run_status := None; approval_required := None |};
     evidence := no_retrieval |}.

Definition a_call (name : string) (id : option (list N)) : ModelToolCall :=
  {| call_name := lit name; call_arguments := JObj [(lit "subject", JStr (lit "help"))];
     provider_tool_call_id := id |}.
Definition a_response (text : string) (calls : list ModelToolCall) : ModelResponse :=
  {| rs_content := lit text; rs_provider := lit "p"; rs_model := lit "m"; rs_tool_calls := calls;
     rs_finish_reason := Some (lit "stop"); rs_usage := None; rs_cost := None |}.
Definition sample_ask (acting : bool) (st : AgentRunState) : M Node Exn Asked :=
  mret (Answered (messages (conv st)) (evidence st) [] []
    (if model_round_count (conv st) =? 0
     then a_response "" ([a_call "lookup" (Some (lit "a")); a_call "nothing" None]
                         ++ if acting then [a_call "create_ticket" (Some (lit "b"))] else [])
     else a_response "Done." [])).

Definition lookup_tool : ToolDefinition :=
  {| td_identity := lit "lookup"; td_revision_id := 4; td_input_schema := JNull;
     td_effect := READ; td_risk_level := LOW; td_approval_policy := NEVER;
     td_timeout_seconds := 10; td_source_kind := BUILTIN |}.
Definition found : ToolResult :=
  {| tr_status := SUCCESS; tr_data := Some (JObj [(lit "answer", JInt 42)]); tr_error_code := None;
     tr_safe_message := None; tr_approval_decision := None; tr_approval_execution := None |}.

Definition sample_env (acting : bool) (resume : nat → option Resume) : GraphEnv :=
  {| graph_run := sample_run; registry := sample_registry; authoritative := λ c _, mret c;
     tool_definitions := λ n, if bool_decide (n = lit "lookup") then Some lookup_tool
                              else if bool_decide (n = lit "create_ticket")
                              then Some sample_definition else None;
     retrieval_config := λ _, []; clock := λ _, (60, 61);
     runtime := {| max_steps := 3; max_tool_calls := 4; max_identical_calls := 1;
                   max_cost_micro_usd := None; rt_max_tool_result_tokens := 100;
                   rt_max_retrieval_tokens := 100; summary_enabled := false |};
     streaming := false; can_ask := true; configured := true; has_recorder := false;
     _emit := λ _, mret tt; ask := sample_ask acting;
     run_tool := λ _ _ _ d, (Return found, [], d);
     record_calls := λ _, mret tt;
     interrupted := resume;
     draw := λ n, {| dr_new_id := Z.to_N n; dr_now := 10; dr_created_at := 10; dr_fks_ok := true;
                     dr_other := id |};
     ttl_seconds := 3600; float_text := λ _, []; prepare := mret; summary := mret |}.

Definition start_node : Node :=
  {| tables := sample_db; coming := []; calls := []; ActionNode.sent := []; ActionNode.found := [];
     node_sequence := 0;
     self_context := sample_caller; cancel_emitted := false |}.

(** The contents and call identifiers of the messages of an ending. *)
Definition transcript_of (o : option Ending) : list (option (list N)) :=
  match o with
  | Some (Finished st) | Some (Paused st _) => tool_call_id <$> messages (conv st)
  | None => []
  end.
