(* ===== verification/AgentGraphProperties.v ===== *)
(** * The agent loop ends, and talks to the model in well-formed turns

    Theorems about [AgentGraph.v]. *)

From stdpp Require Import base gmap list strings.
From Stdlib Require Import ZArith NArith Lia.
From S2P Require Import Prelude.
From S2P Require Import RunBudgetLedger.
From S2P Require Import Json.
From S2P Require Import JsonTheory.
From S2P Require Import RunStore.
From S2P Require Import Rbac.
From S2P Require Import Approvals.
From S2P Require Import Reconciliation.
From S2P Require Import Actions.
From S2P Require Import TurnTranscript.
From S2P Require Import RunUsage.
From S2P Require Import RunLifecycle.
From S2P Require Import ActionNode.
From S2P Require Import ContextMetadata.
From S2P Require Import ModelProfiles.
From S2P Require Import ContextBudget.
From S2P Require Import UuidText.
From S2P Require Import ToolObservation.
From S2P Require Import AgentGraph.
From S2P Require Import AgentGraphTheory.

Local Open Scope Z_scope.

Section Loop.
Context `{HPy : PyStr} `{HDig : Digests} `{HSchema : SchemaValidator} `{HWide : EastAsian}
        `{HDec : UnicodeDecimal} `{env : GraphEnv}.

(** ** Termination *)

(** [prepare] and [summary] return no round count and withdraw no status. *)
Definition before_loop (m : AgentRunState → M Node Exn AgentRunState) : Prop :=
  ∀ st, returns (m st) (λ st', rounds st' = rounds st ∧ (stopped st → stopped st')).

Definition rounds_left (st : AgentRunState) : nat := Z.to_nat (max_steps runtime - rounds st).
Definition live_rank (n : NodeName) : nat :=
  match n with
  | prepare_node => 13 | summary_node => 12 | model_node => 11 | proposal_node => 15
  | policy_node => 14 | read_node | action_node => 13 | observation_node => 12 | finish_node => 0
  end.
Definition stopped_rank (n : NodeName) : nat :=
  match n with
  | prepare_node => 8 | summary_node => 7 | read_node | action_node => 6 | observation_node => 5
  | model_node => 4 | proposal_node => 3 | policy_node => 2 | finish_node => 0
  end.
Definition measure (n : NodeName) (st : AgentRunState) : nat :=
  match n, st_run_status (fate st) with
  | finish_node, _ => 0
  | _, Some _ => stopped_rank n
  | _, None => 6 * rounds_left st + live_rank n
  end.

Lemma measure_stopped n st : stopped st → measure n st = stopped_rank n.
Proof using Type. intros [x E]. unfold measure. rewrite E. by destruct n. Qed.
Lemma measure_le n st : (measure n st ≤ 6 * rounds_left st + live_rank n)%nat.
Proof using Type. unfold measure. destruct n, (st_run_status (fate st)); cbn; lia. Qed.
Lemma measure_live n st :
  n ≠ finish_node → ¬ stopped st → measure n st = (6 * rounds_left st + live_rank n)%nat.
Proof using Type.
  unfold measure, stopped. intros Hn Hs. destruct (st_run_status (fate st)) as [x|].
  - destruct Hs. by eexists.
  - by destruct n.
Qed.

Lemma stopped_dec st : {stopped st} + {¬ stopped st}.
Proof using Type. unfold stopped. destruct (st_run_status (fate st)); [left; by eexists|right; by intros []]. Qed.

(** An edge that keeps the round count and does not climb. *)
Lemma descends n st n' st' :
  n ≠ finish_node → rounds st' = rounds st → (stopped st → stopped st') →
  (live_rank n' < live_rank n)%nat → (stopped_rank n' < stopped_rank n)%nat →
  (measure n' st' < measure n st)%nat.
Proof using Type.
  intros Hn Hr Hs H1 H2. destruct (stopped_dec st) as [Hst|Hst].
  - rewrite !measure_stopped by auto. done.
  - rewrite (measure_live n) by done. pose proof (measure_le n' st').
    unfold rounds_left in *. rewrite Hr in *. lia.
Qed.

Lemma to_finish n st st' : n ≠ finish_node → (measure finish_node st' < measure n st)%nat.
Proof using Type. unfold measure. destruct n, (st_run_status (fate st)); cbn; intros; try done; lia. Qed.

Lemma edge_descends n st n' st' :
  before_loop prepare → before_loop summary → edge n st n' st' →
  (measure n' st' < measure n st)%nat.
Proof using Type.
  intros Hp Hs He. pose proof He as (s & s' & E). destruct n; cbn [visit] in E.
  - destruct (routed _ _ _ _ _ _ _ (Hp st) E) as [[H1 H2] ->]. unfold after_prepare.
    destruct (failed st'); [by apply to_finish|]. apply descends; cbn; auto; lia.
  - destruct (routed _ _ _ _ _ _ _ (Hs st) E) as [[H1 H2] ->]. unfold after_summary.
    destruct (failed st'); [by apply to_finish|]. apply descends; cbn; auto; lia.
  - destruct (routed _ _ _ _ _ _ _ (model_returns st) E) as [(H1 & _ & H2) ->]. unfold after_model.
    destruct (failed st' || _) eqn:Ef; [by apply to_finish|]. apply orb_false_iff in Ef as [Ef _].
    destruct (stopped_dec st) as [Hst|Hst].
    + rewrite !measure_stopped by auto. cbn. lia.
    + rewrite (measure_live model_node) by done.
      destruct H2 as [[_ [H2|H2]]|[H2 H3]]; [|congruence|].
      * rewrite measure_stopped by done. cbn. lia.
      * pose proof (measure_le proposal_node st'). unfold rounds_left in *. rewrite H3 in *.
        cbn [live_rank] in *. lia.
  - destruct (routed _ _ _ _ _ _ _ (proposal_returns st) E) as [H ->]. unfold after_proposal.
    destruct (failed st') eqn:Ef; [by apply to_finish|].
    destruct H as [[[Hc _ _ Hst] _]|[[? _]|(r & _ & Hc & _ & _ & _ & Hst)]]; [|congruence|];
      apply descends; cbn; auto; try lia; unfold rounds; by rewrite Hc.
  - destruct (policy_edge _ _ _ He) as [[Hc _ _ Hst] ->]. unfold after_policy.
    destruct (_ || _) eqn:Ef; [by apply to_finish|]. apply orb_false_iff in Ef as [_ Ef].
    apply bool_decide_eq_false in Ef. assert (¬ stopped st) as Hns by (intros ?; by apply Ef, Hst).
    rewrite (measure_live policy_node) by done.
    assert (rounds st' = rounds st) as Hr by (unfold rounds; by rewrite Hc).
    case_bool_decide; rewrite measure_live by done; unfold rounds_left; rewrite Hr; cbn; lia.
  - destruct (routed _ _ _ _ _ _ _ (read_returns st) E) as [(_ & _ & ? & ? & ? & ?) ->].
    apply descends; cbn; auto; lia.
  - destruct (action_edge _ _ _ He) as [[Hc _ _ Hst] ->].
    apply descends; cbn; auto; try lia. unfold rounds. by rewrite Hc.
  - destruct (routed _ _ _ _ _ _ _ (observation_returns st) E) as [(? & ? & ? & ?) ->].
    unfold after_observation. destruct (failed st'); [by apply to_finish|].
    apply descends; cbn; auto; lia.
  - done.
Qed.

Lemma run_graph_ends fuel n st :
  before_loop prepare → before_loop summary → (measure n st < fuel)%nat →
  returns (run_graph fuel n st) (λ o, o ≠ None).
Proof using Type.
  intros Hp Hs. revert n st. induction fuel as [|fuel IH]; intros n st Hm; [lia|].
  cbn [run_graph]. intros s o s'. rewrite bind_run.
  destruct (visit n st s) as [[[n' st'|e]|x] s1] eqn:E; [|by intros [= <- _]|done].
  apply IH. pose proof (edge_descends n st n' st' Hp Hs (ex_intro _ s (ex_intro _ s1 E))). lia.
Qed.

(** ** Limits *)

(** A run that spends no more rounds and calls than it may. *)
Definition limit_inv (top : Z) (n : NodeName) (st : AgentRunState) : Prop :=
  rounds st ≤ top ∧
  match n with
  | policy_node => stopped st ∨ tool_call_count (round st) ≤ max_tool_calls runtime
  | read_node | action_node => tool_call_count (round st) ≤ max_tool_calls runtime
  | _ => True
  end.

Lemma edge_limits top n st n' st' :
  before_loop prepare → before_loop summary → max_steps runtime ≤ top →
  limit_inv top n st → edge n st n' st' → limit_inv top n' st'.
Proof using Type.
  intros Hp Hs Htop [Hr Hn] He. pose proof He as (s & s' & E). destruct n; cbn [visit] in E.
  - destruct (routed _ _ _ _ _ _ _ (Hp st) E) as [[H1 _] ->]. unfold limit_inv, after_prepare.
    rewrite H1. by destruct (failed st').
  - destruct (routed _ _ _ _ _ _ _ (Hs st) E) as [[H1 _] ->]. unfold limit_inv, after_summary.
    rewrite H1. by destruct (failed st').
  - destruct (routed _ _ _ _ _ _ _ (model_returns st) E) as [(_ & _ & H) ->].
    unfold limit_inv, after_model. split; [lia|]. by destruct (_ || _).
  - destruct (routed _ _ _ _ _ _ _ (proposal_returns st) E) as [H ->].
    assert (rounds st' = rounds st) as Hr'.
    { unfold rounds. destruct H as [[[-> _ _ _] _]|[(_ & -> & _)|(r & _ & -> & _)]]; done. }
    unfold limit_inv, after_proposal. rewrite Hr'. split; [done|].
    destruct (failed st') eqn:Ef; [done|].
    destruct H as [[_ ?]|[[? _]|(r & _ & _ & _ & _ & Hle & _)]]; [by left|congruence|by right].
  - destruct (policy_edge _ _ _ He) as [[Hc _ Ht Hst] ->].
    unfold limit_inv, after_policy, rounds. rewrite Hc, Ht. split; [done|].
    destruct (_ || _) eqn:Eo; [done|]. apply orb_false_iff in Eo as [_ Es].
    apply bool_decide_eq_false in Es.
    destruct Hn as [Hs0|Hle]; [destruct Es; exact (Hst Hs0)|]. by case_bool_decide.
  - destruct (routed _ _ _ _ _ _ _ (read_returns st) E) as [(_ & _ & H & _) ->].
    split; [by rewrite H|done].
  - destruct (action_edge _ _ _ He) as [[Hc _ _ _] ->]. unfold limit_inv, rounds. by rewrite Hc.
  - destruct (routed _ _ _ _ _ _ _ (observation_returns st) E) as [(_ & H & _) ->].
    unfold limit_inv, after_observation. rewrite H. split; [done|]. by destruct (failed st').
  - done.
Qed.

Lemma reaches_limits top n st n' st' :
  before_loop prepare → before_loop summary → max_steps runtime ≤ top →
  limit_inv top n st → reaches n st n' st' → limit_inv top n' st'.
Proof using Type.
  intros Hp Hs Htop Hinv. induction 1 as [|n1 st1 n2 st2 _ IH He]; [done|]. by eapply edge_limits.
Qed.

(** ** Complete rounds *)

(** Tool message [m] is the result of call [c]. *)
Definition result_of_call (m : ModelMessage) (c : ModelToolCall) : Prop :=
  role m = role_tool ∧ tool_call_id m = provider_tool_call_id c ∧ is_Some (tool_call_id m) ∧
  msg_name m = Some (call_name c) ∧ tool_calls m = [].

(** [n] messages of the assistant, each followed by the result of every one of
    its calls, once and in order, and nothing else. *)
Inductive complete : nat → list ModelMessage → Prop :=
| complete_none : complete 0 []
| complete_round n ms m results :
    complete n ms → role m = role_assistant → Forall2 result_of_call results (tool_calls m) →
    complete (S n) (ms ++ m :: results).

(** Asked in [st0] the model answered with [m], after admission had retained
    [retained]. *)
Definition spoken (st0 : AgentRunState) (retained : list ModelMessage) (m : ModelMessage) : Prop :=
  ∃ s s' ev delivery admitted r,
    ask st0 s = (Return (Answered retained ev delivery admitted r), s') ∧
    role m = role_assistant ∧ content m = Some (rs_content r) ∧
    tool_calls m = imap (normalized_call (rounds st0 + 1)) (rs_tool_calls r).

(** Since [st], [n] rounds were completed with the messages [mid] and the
    transcript of the turn has grown by them and by [open]; the conversation
    is what admission retained in the last round and that round itself. *)
Record told (st st' : AgentRunState) (open : list ModelMessage) (n : nat) (mid : list ModelMessage) :
  Prop := {
  td_rounds : rounds st' = rounds st + Z.of_nat n + Z.of_nat (length open);
  td_complete : complete n mid;
  td_transcript : turn_transcript (conv st') = (λ t, t ++ mid ++ open) <$> turn_transcript (conv st)
}.
Definition shown (st st' : AgentRunState) : Prop :=
  ∃ n mid, told st st' [] n mid ∧
    (n = 0%nat ∧ st' = st ∨
     ∃ st0 before retained m results, reaches model_node st model_node st0 ∧ spoken st0 retained m ∧
       mid = before ++ m :: results ∧ Forall2 result_of_call results (tool_calls m) ∧
       messages (conv st') = retained ++ m :: results).

(** The last message of the assistant waits for the results of its calls. *)
Definition asking (st st' : AgentRunState) (m : ModelMessage) : Prop :=
  ∃ n mid st0 retained, told st st' [m] n mid ∧ reaches model_node st model_node st0 ∧
    spoken st0 retained m ∧ role m = role_assistant ∧ messages (conv st') = retained ++ [m].
Definition awaits_calls (st st' : AgentRunState) : Prop :=
  ∃ m r, asking st st' m ∧ model_response (conv st') = Some r ∧
    tool_calls m = imap (normalized_call (rounds st')) (rs_tool_calls r).
Definition open_round (st st' : AgentRunState) : Prop :=
  ∃ m, asking st st' m ∧
    Forall2 (λ p c, provider_tool_call_id c = Some (pc_tool_call_id p) ∧ call_name c = pc_name p)
      (proposed_tool_calls (round st')) (tool_calls m).

Definition round_inv (st : AgentRunState) (n : NodeName) (st' : AgentRunState) : Prop :=
  match n with
  | prepare_node | summary_node => False
  | model_node => shown st st'
  | proposal_node => stopped st' ∨ awaits_calls st st'
  | policy_node => stopped st' ∨ open_round st st'
  | read_node | action_node | observation_node => open_round st st'
  | finish_node => failed st' = true ∨ stopped st' ∨ shown st st'
  end.

(** A refused or failed request is reported under a code. *)
Definition failures_coded : Prop :=
  ∀ st, returns (ask st) (λ a, match a with Failed code _ _ => code ≠ ""%string | _ => True end).

Lemma proposals_match n calls :
  Forall2 (λ p c, provider_tool_call_id c = Some (pc_tool_call_id p) ∧ call_name c = pc_name p)
    (imap (proposal n) calls) (imap (normalized_call n) calls).
Proof using Type.
  apply Forall2_same_length_lookup. split; [by rewrite !length_imap|].
  intros i p c. rewrite !list_lookup_imap. destruct (calls !! i) as [x|]; [|done].
  by intros [= <-] [= <-].
Qed.

Lemma asking_same st st1 st2 m :
  messages (conv st2) = messages (conv st1) → turn_transcript (conv st2) = turn_transcript (conv st1) →
  rounds st2 = rounds st1 → asking st st1 m → asking st st2 m.
Proof using Type.
  intros E1 E2 E3 (n & mid & st0 & retained & [H1 H2 H3] & H). exists n, mid, st0, retained.
  rewrite E1. split; [|done]. split; [by rewrite E3|done|by rewrite E2].
Qed.
Lemma open_round_same st st1 st2 :
  messages (conv st2) = messages (conv st1) → turn_transcript (conv st2) = turn_transcript (conv st1) →
  rounds st2 = rounds st1 → proposed_tool_calls (round st2) = proposed_tool_calls (round st1) →
  open_round st st1 → open_round st st2.
Proof using Type.
  intros E1 E2 E3 E4 (m & Hm & Hc). exists m. rewrite E4. split; [by eapply asking_same|done].
Qed.

(** The results of a round complete it. *)
Lemma results_complete st st1 st2 m results :
  asking st st1 m → Forall2 result_of_call results (tool_calls m) →
  messages (conv st2) = messages (conv st1) ++ results →
  turn_transcript (conv st2) = (λ t, t ++ results) <$> turn_transcript (conv st1) →
  rounds st2 = rounds st1 → shown st st2.
Proof using Type.
  intros (n & mid & st0 & retained & [H1 H2 H3] & Hreach & Hsp & Hrole & Hm) Hres E1 E2 E3.
  exists (S n), (mid ++ m :: results). split.
  - split; [cbn in *; lia|by constructor|]. rewrite E2, H3.
    destruct (turn_transcript (conv st)); [|done]. cbn. by rewrite app_nil_r, <- !app_assoc.
  - right. exists st0, mid, retained, m, results. rewrite E1, Hm, <- app_assoc. done.
Qed.

Lemma answers_results m proposed results :
  Forall2 (λ p c, provider_tool_call_id c = Some (pc_tool_call_id p) ∧ call_name c = pc_name p)
    proposed (tool_calls m) →
  Forall2 answers_call results proposed → Forall2 result_of_call results (tool_calls m).
Proof using Type.
  intros Hc Hms. apply Forall2_same_length_lookup. split.
  { by rewrite (Forall2_length _ _ _ Hms), (Forall2_length _ _ _ Hc). }
  intros i x c Hx Hci. destruct (Forall2_lookup_l _ _ _ _ _ Hms Hx) as (p & Hpi & H1 & H2 & H3 & H4).
  destruct (Forall2_lookup_lr _ _ _ _ _ _ Hc Hpi Hci) as [E1 E2]. unfold result_of_call.
  rewrite H2, E1, H3, E2. split_and!; [done..|by eexists|done|done].
Qed.

(** A round begins: what was asked before is complete. *)
Lemma asked_asking st st1 st2 ms m r :
  reaches model_node st model_node st1 → shown st st1 → asked_calls st1 st2 ms m r →
  (∃ s s' ev delivery admitted, ask st1 s = (Return (Answered ms ev delivery admitted r), s')) →
  asking st st2 m.
Proof using Type.
  intros Hreach (n & mid & [H1 H2 H3] & _) (Em & Et & Er & Hrole & Hc & _ & Hcalls) Hask.
  exists n, mid, st1, ms. split_and!; [|done| |done|done].
  - split; [cbn in *; lia|done|]. rewrite Et, H3. destruct (turn_transcript (conv st)); [|done].
    cbn. by rewrite app_nil_r, app_assoc.
  - destruct Hask as (s & s' & ev & d & a & E). exists s, s', ev, d, a, r.
    rewrite <- Er. done.
Qed.

Lemma model_inv st st1 n' st' :
  failures_coded → reaches model_node st model_node st1 → shown st st1 →
  edge model_node st1 n' st' → round_inv st n' st'.
Proof using Type.
  intros Ha Hreach Hinv (s & s' & E). cbn [visit] in E.
  assert (returns (ask st1) (λ a, match a with
    | Answered ms _ _ _ r =>
        ∃ s s' ev delivery admitted, ask st1 s = (Return (Answered ms ev delivery admitted r), s')
    | Failed code _ _ => code ≠ ""%string end)) as Hask.
  { intros s0 a s0' E0. pose proof (Ha _ _ _ _ E0). destruct a; [done|by eauto 10]. }
  destruct (routed _ _ _ _ _ _ _ (model_asks st1 _ Hask) E) as [H ->]. clear E Hask.
  unfold after_model. destruct (failed st') eqn:Ef; cbn [orb]; [by left|].
  destruct H as [Hs|[?|(ms & m & r & Hms & Hc & Hf)]]; [|congruence|].
  { case_bool_decide; [right; by left|by left]. }
  pose proof (asked_asking _ _ _ _ _ _ Hreach Hinv Hc Hms) as Hasking.
  case_bool_decide as Ho.
  - right. right. apply (results_complete st st' st' m []); [done| |by rewrite app_nil_r| |done].
    + by rewrite (Hf Ho).
    + destruct (turn_transcript _); [|done]. cbn. by rewrite app_nil_r.
  - right. exists m, r. split; [done|]. by destruct Hc as (_ & _ & _ & _ & _ & ? & ?).
Qed.

Lemma edge_inv st n st1 n' st' :
  failures_coded → reaches model_node st n st1 → round_inv st n st1 → edge n st1 n' st' →
  round_inv st n' st'.
Proof using Type.
  intros Ha Hreach Hinv He. pose proof He as (s & s' & E). destruct n; cbn [visit] in E; [done..| | | | | | |done].
  - by eapply model_inv.
  - destruct (routed _ _ _ _ _ _ _ (proposal_returns st1) E) as [H ->]. unfold after_proposal.
    destruct (failed st') eqn:Ef; [by left|]. cbn [round_inv] in *.
    destruct H as [[_ ?]|[[? _]|(r & Hr & Hc & Hpr & _ & _ & Hst)]]; [by left|congruence|].
    destruct Hinv as [?|(m & r' & Hm & Hr' & Hcalls)]; [left; auto|right].
    assert (r' = r) as -> by congruence. exists m.
    split; [by apply (asking_same st st1); unfold rounds; rewrite ?Hc|].
    rewrite Hpr, Hcalls. apply proposals_match.
  - destruct (policy_edge _ _ _ He) as [[Hc Hpr _ Hst] ->]. unfold after_policy.
    destruct (failed st') eqn:Ef; cbn [orb]; [by left|].
    case_bool_decide as Hs'; [right; by left|].
    assert (open_round st st') as Ho.
    { destruct Hinv as [Hs0|Ho]; [destruct Hs'; exact (Hst Hs0)|].
      apply (open_round_same st st1); [..|done]; unfold rounds; by rewrite ?Hc. }
    by case_bool_decide.
  - destruct (routed _ _ _ _ _ _ _ (read_returns st1) E) as [(? & ? & ? & ? & ? & ?) ->].
    by apply (open_round_same st st1).
  - destruct (action_edge _ _ _ He) as [[Hc Hpr _ _] ->].
    apply (open_round_same st st1); [..|done]; unfold rounds; by rewrite ?Hc.
  - destruct (routed _ _ _ _ _ _ _ (observation_returns st1) E) as [((ms & Em & Et & Hms) & Hr & _) ->].
    destruct Hinv as (m & Hm & Hc).
    assert (shown st st') as Hsh by (eapply results_complete; eauto using answers_results).
    unfold after_observation. destruct (failed st') eqn:Ef; [by left|done].
Qed.

Lemma reaches_inv st n' st' :
  failures_coded → reaches model_node st n' st' → round_inv st n' st'.
Proof using Type.
  intros Ha. induction 1 as [|n1 st1 n2 st2 Hr IH He]; [|by eapply edge_inv].
  exists 0%nat, []. split; [|by left]. split; [cbn; lia|constructor|].
  destruct (turn_transcript _); [|done]. cbn. by rewrite app_nil_r.
Qed.
End Loop.

(** ** The theorems *)

(** C3. The agent loop ends within its limits.  [prepare] and [summary] leave
    the round count alone; everything else that the graph calls may return
    anything.  From any node, after at most [max_steps] rounds, a run of
    the graph comes to [finish] or to an approval after at most
    [6 * max_steps + 16] nodes.  On the way no more than [max_steps] rounds with
    the model are begun, and tools are executed only while the number of tool
    calls of the run is at most [max_tool_calls]. *)
Theorem agent_loop_ends_in_limits `{PyStr} `{Digests} `{SchemaValidator} `{EastAsian}
    `{UnicodeDecimal} `{GraphEnv} n st fuel :
  before_loop prepare → before_loop summary → 0 ≤ rounds st ≤ max_steps runtime →
  (n ∈ [policy_node; read_node; action_node] → tool_call_count (round st) ≤ max_tool_calls runtime) →
  (6 * Z.to_nat (max_steps runtime) + 16 ≤ fuel)%nat →
  (∀ s o s', run_graph fuel n st s = (Return o, s') → is_Some o) ∧
  ∀ n' st', reaches n st n' st' →
    rounds st' ≤ max_steps runtime ∧
    (n' = read_node ∨ n' = action_node → tool_call_count (round st') ≤ max_tool_calls runtime).
Proof.
  intros Hp Hs Hr Hn Hf. split.
  - intros s o s' E. assert (measure n st < fuel)%nat as Hm.
    { pose proof (measure_le n st). unfold rounds_left in *. destruct n; cbn [live_rank] in *; lia. }
    pose proof (run_graph_ends fuel n st Hp Hs Hm s o s' E) as Ho. by destruct o; [eexists|].
  - intros n' st' Hreach.
    destruct (reaches_limits (max_steps runtime) n st n' st' Hp Hs) as [? Hlim]; [lia|..|done|].
    + split; [lia|]. destruct n; try done; [right| |]; apply Hn; set_solver.
    + split; [done|]. by intros [-> | ->].
Qed.

(** C4. Every round with the model is answered in full, however tools,
    approvals and cancellations went and whatever admission retained.  From any
    state in which the graph comes to [model], whenever it comes to [model] again,
    or finishes without failure or cancellation, the transcript of the turn has
    grown by exactly one exchange per round: a message of the assistant and right
    after it one tool message per tool call, in the order of the calls, under the
    call's own identifier and name; nothing else is added and nothing that was
    there is changed.  The conversation that the next request is made from is what
    admission retained in the last round, followed by the last of these exchanges:
    the response that the model gave to it, with every call under an identifier,
    and its results. *)
Theorem rounds_answer_every_call `{PyStr} `{Digests} `{SchemaValidator} `{EastAsian}
    `{UnicodeDecimal} `{GraphEnv} st n' st' :
  failures_coded → reaches model_node st n' st' →
  n' = model_node ∨ n' = finish_node ∧ failed st' = false ∧ ¬ stopped st' →
  ∃ n mid, rounds st' = rounds st + Z.of_nat n ∧ complete n mid ∧
    turn_transcript (conv st') = (λ t, t ++ mid) <$> turn_transcript (conv st) ∧
    (n = 0%nat ∧ st' = st ∨
     ∃ st0 before retained m results, reaches model_node st model_node st0 ∧ spoken st0 retained m ∧
       mid = before ++ m :: results ∧ Forall2 result_of_call results (tool_calls m) ∧
       messages (conv st') = retained ++ m :: results).
Proof.
  intros Ha Hr Hn.
  assert (shown st st') as (n & mid & Htold & Hlast).
  { pose proof (reaches_inv _ _ _ Ha Hr) as Hinv. destruct Hn as [->|(-> & Hf & Hs)]; [done|].
    destruct Hinv as [?|[?|?]]; [congruence|done|done]. }
  pose proof (td_transcript _ _ _ _ _ Htold) as Ht. rewrite app_nil_r in Ht.
  pose proof (td_rounds _ _ _ _ _ Htold) as Hrounds. cbn in Hrounds.
  exists n, mid. split_and!; [lia|by eapply td_complete|done..].
Qed.

(** ** Witnesses *)

#[local] Instance reading_env : GraphEnv := sample_env false (λ _, None).

Lemma sample_prepare : before_loop prepare ∧ before_loop summary.
Proof.
  split; intros st; (eapply returns_mono; [exact (returns_ret st (eq st) eq_refl)|]);
    by intros ? <-.
Qed.

Definition reading_run : outcome Exn (option Ending) * Node :=
  run_graph 34 prepare_node first_state start_node.

Lemma agent_loop_ends_in_limits_witness :
  match reading_run with
  | (Return o, _) => is_Some o ∧ transcript_of o
      = [None; None; None; Some (lit "a"); Some (lit "call-1-1"); None]
  | (Raise _, _) => False
  end.
Proof.
  assert (0 ≤ rounds first_state ≤ max_steps runtime) as Hr by (vm_compute; split; discriminate).
  assert (6 * Z.to_nat (max_steps runtime) + 16 ≤ 34)%nat as Hf
    by (apply Nat.leb_le; vm_compute; reflexivity).
  assert (prepare_node ∈ [policy_node; read_node; action_node] →
    tool_call_count (round first_state) ≤ max_tool_calls runtime) as Hn
    by (intros _; vm_compute; discriminate).
  destruct (agent_loop_ends_in_limits prepare_node first_state 34
    (proj1 sample_prepare) (proj2 sample_prepare) Hr Hn Hf) as [Hend _]. specialize (Hend start_node). clear Hr Hn Hf.
  change (run_graph 34 prepare_node first_state start_node) with reading_run in Hend.
  assert (match reading_run with
          | (Return o, _) => transcript_of o
              = [None; None; None; Some (lit "a"); Some (lit "call-1-1"); None]
          | (Raise _, _) => False
          end) as Hc by (vm_compute; reflexivity).
  destruct reading_run as [[o|e] s']; [|exact Hc]. split; [exact (Hend o s' eq_refl)|exact Hc].
Defined.

Lemma sample_coded : failures_coded.
Proof. intros st. by apply returns_ret. Qed.

(** One call with an identifier of the provider and one without. *)
Lemma rounds_answer_every_call_witness :
  match walk 5 model_node first_state start_node with
  | Some (n, st, _) =>
      (n = model_node ∧ length (messages (conv st)) = 5%nat) ∧
      ∃ n mid, rounds st = rounds first_state + Z.of_nat n ∧ complete n mid ∧
        turn_transcript (conv st) = (λ t, t ++ mid) <$> turn_transcript (conv first_state)
  | None => False
  end.
Proof.
  assert (match walk 5 model_node first_state start_node with
          | Some (n, st, _) => n = model_node ∧ length (messages (conv st)) = 5%nat
          | None => False
          end) as Hc by (vm_compute; split; reflexivity).
  pose proof (walk_reaches 5 model_node first_state start_node) as Hw.
  destruct (walk 5 model_node first_state start_node) as [[[n st] s']|]; [|exact Hc].
  split; [exact Hc|]. specialize (Hw n st s' eq_refl).
  destruct (rounds_answer_every_call first_state n st sample_coded Hw (or_introl (proj1 Hc)))
    as (k & mid & Hk & Hm & Ht & _).
  exists k, mid. split; [exact Hk|]. split; [exact Hm|exact Ht].
Defined.
