(* ===== verification/AgentPolicyProperties.v ===== *)
(** * What the model proposed is what is approved and executed

    Theorems about the nodes [policy] and [action_execute] together
    ([AgentGraph.v], [ActionNode.v]).

    [guided X P m Q] is a triple for programs of the graph that run beside
    others: approvals only move forward, and what is handed to the action runtime
    has its identifier in [X].  Facts that survive such moves ([Lasting]) may be
    framed around any program. *)

From stdpp Require Import base gmap list strings.
From Stdlib Require Import ZArith NArith Lia.
From S2P Require Import Prelude.
From S2P Require Import RunBudgetLedger.
From S2P Require Import Json.
From S2P Require Import JsonTheory.
From S2P Require Import RunStore.
From S2P Require Import Rbac.
From S2P Require Import Approvals.
From S2P Require Import ApprovalsTheory.
From S2P Require Import ApprovalsProperties.
From S2P Require Import ApprovalsLifecycle.
From S2P Require Import Reconciliation.
From S2P Require Import Actions.
From S2P Require Import TurnTranscript.
From S2P Require Import RunUsage.
From S2P Require Import RunLifecycle.
From S2P Require Import ActionNode.
From S2P Require Import ActionNodeProperties.
From S2P Require Import ContextMetadata.
From S2P Require Import ModelProfiles.
From S2P Require Import ContextBudget.
From S2P Require Import UuidText.
From S2P Require Import ToolObservation.
From S2P Require Import AgentGraph.
From S2P Require Import AgentGraphTheory.

Local Open Scope Z_scope.

(** ** Guided programs *)

Record ready (s : Node) : Prop := {
  re_keys : keys_ok (tables s);
  re_coming : ∀ f, f ∈ coming s → others_ok ap_le f
}.

Record guided_move (X : uuid → Prop) (s s' : Node) : Prop := {
  gm_ready : ready s → ready s';
  gm_tables : ready s → evolves ap_le (tables s) (tables s');
  gm_calls : ∀ i a, (i, a) ∈ calls s' → (i, a) ∈ calls s ∨ X i
}.
#[export] Instance guided_move_refl X : Reflexive (guided_move X).
Proof. intros s. split; [done|intros _; reflexivity|by left]. Qed.
#[export] Instance guided_move_trans X : Transitive (guided_move X).
Proof.
  intros s1 s2 s3 [A1 A2 A3] [B1 B2 B3]. split; [auto|intros Hr; etrans; eauto|].
  intros i a [Hin|?]%B3; [by apply A3|by right].
Qed.

Definition guided {A} (X : uuid → Prop) (P : Node → Prop) (m : M Node Exn A) (Q : A → Node → Prop) :
  Prop :=
  ∀ s r s', ready s → P s → m s = (r, s') →
    guided_move X s s' ∧ ∀ a, r = Return a → Q a s'.

Class Lasting (R : Node → Prop) : Prop :=
  lasting s s' : evolves ap_le (tables s) (tables s') → R s → R s'.

Section Rules.
Context {X : uuid → Prop}.

Lemma g_ret {A} (P : Node → Prop) (a : A) (Q : A → Node → Prop) :
  (∀ s, P s → Q a s) → guided X P (mret a) Q.
Proof. intros H s r s' _ HP [= <- <-]. split; [reflexivity|]. intros b [= <-]. auto. Qed.
Lemma g_raise {A} P (e : Exn) (Q : A → Node → Prop) : guided X P (raise e) Q.
Proof. intros s r s' _ _ [= <- <-]. by split; [reflexivity|]. Qed.
Lemma g_bind {A B} P (m : M Node Exn A) (f : A → M Node Exn B) Q R :
  guided X P m Q → (∀ a, guided X (Q a) (f a) R) → guided X P (m ≫= f) R.
Proof.
  intros Hm Hf s r s' Hr HP. rewrite bind_run. destruct (m s) as [[a|e] s1] eqn:E.
  - destruct (Hm s _ s1 Hr HP E) as [Hg HQ]. intros E'.
    destruct (Hf a s1 _ _ (gm_ready _ _ _ Hg Hr) (HQ a eq_refl) E') as [Hg' HR].
    split; [by etrans|done].
  - destruct (Hm s _ s1 Hr HP E) as [Hg _]. intros [= <- <-]. by split.
Qed.
Lemma g_conseq {A} (P P' : Node → Prop) (m : M Node Exn A) (Q Q' : A → Node → Prop) :
  guided X P m Q → (∀ s, P' s → P s) → (∀ a s, Q a s → Q' a s) → guided X P' m Q'.
Proof.
  intros Hm HP HQ s r s' Hr HP' E. destruct (Hm s r s' Hr (HP s HP') E) as [? H].
  split; [done|]. intros a Ha. by apply HQ, H.
Qed.
Lemma g_frame {A} R P (m : M Node Exn A) Q :
  Lasting R → guided X P m Q → guided X (λ s, R s ∧ P s) m (λ a s, R s ∧ Q a s).
Proof.
  intros HR Hm s r s' Hr [HRs HP] E. destruct (Hm s r s' Hr HP E) as [Hg HQ].
  split; [done|]. intros a Ha. split; [|auto]. exact (HR _ _ (gm_tables _ _ _ Hg Hr) HRs).
Qed.
(** A program about which nothing is known but that it is guided. *)
Lemma g_keep {A} R (m : M Node Exn A) :
  Lasting R → guided X (λ _, True) m (λ _ _, True) → guided X R m (λ _ s, R s).
Proof.
  intros HR Hm. eapply g_conseq; [apply (g_frame R _ _ _ HR Hm)|done|]. by intros a s [? _].
Qed.
Lemma g_catch {A} P (m : M Node Exn A) h Q :
  guided X P m Q → (∀ e, guided X (λ _, True) (h e) Q) → guided X P (catch m h) Q.
Proof.
  intros Hm Hh s r s' Hr HP. unfold catch. destruct (m s) as [[a|e] s1] eqn:E.
  - destruct (Hm s _ s1 Hr HP E) as [Hg HQ]. intros [= <- <-]. split; [done|]. intros b [= <-]. auto.
  - destruct (Hm s _ s1 Hr HP E) as [Hg _]. intros E'.
    destruct (Hh e s1 _ _ (gm_ready _ _ _ Hg Hr) I E') as [Hg' HQ]. split; [by etrans|done].
Qed.
Lemma g_get {A} (f : Node → M Node Exn A) P Q :
  (∀ s0, guided X P (f s0) Q) → guided X P (get ≫= f) Q.
Proof. intros Hf s r s' Hr HP E. exact (Hf s s r s' Hr HP E). Qed.
Lemma g_local P (f : Node → Node) :
  (∀ s, tables (f s) = tables s ∧ coming (f s) = coming s ∧ calls (f s) = calls s) →
  guided X P (modify f) (λ _ _, True).
Proof.
  intros Hf s r s' _ _ [= <- <-]. destruct (Hf s) as (Et & Ec & El). split; [|done]. split.
  - intros [H1 H2]. split; [by rewrite Et|by rewrite Ec].
  - intros _. by rewrite Et.
  - rewrite El. by left.
Qed.

Lemma g_await : guided X (λ _, True) await (λ _ _, True).
Proof.
  intros s r s' [Hk Hc] _. unfold await. destruct (coming s) as [|f rest] eqn:Ef.
  - intros [= <- <-]. by split; [reflexivity|].
  - intros [= <- <-]. destruct (Hc f) with (d := tables s) as [He Hk']; [left|done|].
    split; [|done]. split; cbn; [|done|by left]. intros _. split; cbn; [done|].
    intros g Hg. apply Hc. by right.
Qed.
Lemma g_in_tables {A} (m : M RunStore.Db Exn A) (Q : A → RunStore.Db → Prop) :
  Evolving ap_le m → (∀ d a d', keys_ok d → m d = (Return a, d') → Q a d') →
  guided X (λ _, True) (in_tables m) (λ a s, Q a (tables s)).
Proof.
  intros Hm HQ s r s' [Hk Hc] _. unfold in_tables.
  destruct (m (tables s)) as [r1 d] eqn:E. intros [= <- <-].
  destruct (Hm _ Hk _ _ E) as [He Hk']. split.
  - split; cbn; [|done|by left]. intros _. by split.
  - intros a ->. cbn. exact (HQ _ _ _ Hk E).
Qed.
Lemma g_tx {A} (m : M RunStore.Db Exn A) (Q : A → RunStore.Db → Prop) :
  Evolving ap_le m → (∀ d a d', keys_ok d → m d = (Return a, d') → Q a d') →
  guided X (λ _, True) (tx m) (λ a s, Q a (tables s)).
Proof.
  intros Hm HQ. unfold tx. eapply g_bind; [apply g_await|]. intros []. by apply g_in_tables.
Qed.
Lemma g_tx_any {A} (m : M RunStore.Db Exn A) :
  Evolving ap_le m → guided X (λ _, True) (tx m) (λ _ _, True).
Proof. intros Hm. by apply (g_tx m (λ _ _, True)). Qed.
Lemma g_attempt {A} P (m : M Node Exn A) Q :
  guided X P m Q → guided X P (attempt m) (λ _ _, True).
Proof.
  intros Hm s r s' Hr HP. unfold attempt. destruct (m s) as [o s1] eqn:E. intros [= <- <-].
  split; [by apply (Hm s o s1 Hr HP E)|done].
Qed.
Lemma g_settle i (m : M RunStore.Db Exn Approval) :
  Evolving ap_le m → guided X (λ _, True) (settle i m) (λ _ _, True).
Proof.
  intros Hm. unfold settle. eapply g_bind; [apply g_await|]. intros [].
  eapply g_bind; [by apply g_local|]. intros []. by apply (g_in_tables m (λ _ _, True)).
Qed.
End Rules.

(** ** Facts that last *)

#[export] Instance lasting_true : Lasting (λ _, True).
Proof. by intros s s' _ H. Qed.
#[export] Instance lasting_and R1 R2 : Lasting R1 → Lasting R2 → Lasting (λ s, R1 s ∧ R2 s).
Proof. intros H1 H2 s s' He [??]. split; [by eapply H1|by eapply H2]. Qed.
#[export] Instance lasting_or R1 R2 : Lasting R1 → Lasting R2 → Lasting (λ s, R1 s ∨ R2 s).
Proof. intros H1 H2 s s' He [?|?]; [left; by eapply H1|right; by eapply H2]. Qed.
#[export] Instance lasting_since i a : Lasting (since i a).
Proof.
  intros s s' [He _] (b & Hb & Hle). destruct (He i b Hb) as (b' & Hb' & Hle').
  exists b'. split; [done|]. by etrans.
Qed.
#[export] Instance lasting_fact (F : Prop) : Lasting (λ _, F).
Proof. by intros s s' _ H. Qed.
#[export] Instance lasting_forall {A} (l : list A) (R : A → Node → Prop) :
  (∀ x, Lasting (R x)) → Lasting (λ s, Forall (λ x, R x s) l).
Proof. intros HR s s' He Hl. eapply Forall_impl; [exact Hl|]. intros x. by apply HR. Qed.

(** The row was named for proposal [ordinal] of tool [definition] with the
    arguments of [c]. *)
Definition named_for `{Digests} `{SchemaValidator} (run : AgentRun) (definition : ToolDefinition)
    (c : Proposed) (ordinal : Z) (a : Approval) : Prop :=
  ∃ w arguments h,
    (∀ d, canonicalize_arguments (JObj (pc_arguments c)) (td_input_schema definition) d
          = (Return (arguments, h), d)) ∧
    ∀ d, compute_logical_action_id w (run_id run) (Some (td_revision_id definition)) h ordinal d
         = (Return (ap_logical_action_id a), d).

Lemma named_same `{Digests} `{SchemaValidator} run definition c ordinal a b :
  ap_le a b → named_for run definition c ordinal a → named_for run definition c ordinal b.
Proof.
  intros Hle (w & args & h & H1 & H2). exists w, args, h. split; [done|].
  pose proof (le_static _ _ Hle) as E. unfold ap_static in E. intros d. rewrite H2.
  by replace (ap_logical_action_id b) with (ap_logical_action_id a) by congruence.
Qed.

Lemma create_names `{Digests} `{SchemaValidator} ttl ctx run ver definition ident c ord exp i now created
    fks other a d d' :
  keys_ok d → others_ok ap_le other →
  create_or_get ttl ctx (run_id run) ver (Some (td_revision_id definition)) ident (JObj (pc_arguments c))
    (td_input_schema definition) ord exp i now created fks other d = (Return a, d') →
  approvals d' !! ap_id a = Some a ∧ named_for run definition c ord a.
Proof.
  intros Hk Ho Hrun. unfold create_or_get in Hrun.
  apply pure_bind_inv in Hrun as (w & Hrun & _); [|apply _].
  apply pure_bind_inv in Hrun as (u & Hrun & _); [|apply _].
  apply pure_bind_inv in Hrun as ([args h] & Hrun & Hca); [|apply _].
  apply pure_bind_inv in Hrun as (lid & Hrun & Hlid); [|apply _]. cbn [fst snd] in *.
  assert (approvals d' !! ap_id a = Some a ∧ ap_logical_action_id a = lid) as [Ha <-].
  2:{ split; [done|]. by exists w, args, h. }
  rewrite bind_run in Hrun. cbn [get] in Hrun.
  destruct (find_action w lid d) as [b|] eqn:Ef.
  { injection Hrun as <- <-. by apply find_action_Some in Ef as (? & ? & ?). }
  rewrite bind_run in Hrun. cbn [modify] in Hrun. destruct (Ho d Hk) as [_ Hk1].
  unfold on_integrity_error, catch in Hrun. rewrite bind_run in Hrun.
  unfold session_scope, atomically in Hrun.
  destruct (insert_approval _ _ _) as [[v|e] d1] eqn:Ei.
  - injection Hrun as <- <-. apply insert_approval_inv in Ei as (_ & -> & _).
    split; [|done]. cbn. apply lookup_insert_eq.
  - destruct e; try discriminate Hrun. rewrite bind_run in Hrun. cbn [get] in Hrun.
    destruct (find_action w lid (other d)) as [b|] eqn:Ef'; [|discriminate Hrun].
    injection Hrun as <- <-. by apply find_action_Some in Ef' as (? & ? & ?).
Qed.

(** ** The policy node *)

Section Policy.
Context `{HPy : PyStr} `{HDig : Digests} `{HSchema : SchemaValidator} `{HWide : EastAsian}
        `{HDec : UnicodeDecimal} `{env : GraphEnv}.
(** Recording an event and the transactions beside a request move approvals
    only forward. *)
Context (Hemit : ∀ e, Evolving ap_le (_emit e)) (Hdraw : ∀ n, others_ok ap_le (dr_other (draw n))).
Context {X : uuid → Prop}.

(** Approval [i] was asked for with proposal [ordinal], call [c], and granted. *)
Definition granted (c : Proposed) (ordinal : Z) (i : uuid) (s : Node) : Prop :=
  ∃ definition b, tool_definitions (pc_name c) = Some definition ∧
    decide_policy definition = REQUIRE_APPROVAL ∧
    approvals (tables s) !! i = Some b ∧ ap_decision_status b = APPROVED ∧
    ap_run_id b = run_id graph_run ∧ ap_agent_version_id b = run_agent_version_id graph_run ∧
    ap_tool_identity b = td_identity definition ∧
    ap_tool_revision_id b = Some (td_revision_id definition) ∧
    named_for graph_run definition c ordinal b.

#[local] Instance lasting_granted c n i : Lasting (granted c n i).
Proof using Type.
  intros s s' [He _] (definition & b & H1 & H2 & Hb & Hd & H3 & H4 & H5 & H6 & H7).
  destruct (He i b Hb) as (b' & Hb' & Hle). exists definition, b'.
  pose proof (le_static _ _ Hle) as Est. unfold ap_static in Est.
  assert (ap_decision b' = ap_decision b) as Ed by (apply (le_decision _ _ Hle); by rewrite Hd).
  unfold ap_decision in Ed. split_and!; try done; try congruence. by eapply named_same.
Qed.

Lemma g_context : guided X (λ _, True) context_now (λ _ _, True).
Proof using Type. apply g_get. intros s. by apply g_ret. Qed.
Lemma g_emit e : guided X (λ _, True) (emit e) (λ _ _, True).
Proof using Hemit. apply g_tx_any, Hemit. Qed.
Lemma g_action_step c kind status metadata :
  guided X (λ _, True) (step graph_run c kind status metadata) (λ _ _, True).
Proof using Type.
  unfold step. apply g_get. intros s. eapply g_bind; [by apply g_local|].
  intros []. apply g_tx_any, _.
Qed.
Lemma g_step kind status metadata :
  guided X (λ _, True) (graph_step kind status metadata) (λ _ _, True).
Proof using Type.
  unfold graph_step. eapply g_bind; [apply g_context|]. intros c. apply g_action_step.
Qed.
Lemma g_status c : guided X (λ _, True) (status_now graph_run c) (λ _ _, True).
Proof using Type.
  unfold status_now. apply g_tx_any. repeat ev_step;
    apply ev_pure; unfold parse_workspace; destruct (ctx_workspace_id c); apply _.
Qed.
Lemma g_stop : guided X (λ _, True) stop_requested (λ _ _, True).
Proof using Hemit.
  unfold stop_requested. eapply g_bind; [apply g_context|]. intros c.
  eapply g_bind; [apply g_status|]. intros status. apply g_get. intros s.
  eapply (g_bind _ _ _ (λ _ _, True)).
  - destruct (_ && _ && _); [|by apply g_ret]. eapply g_bind; [by apply g_local|]. intros [].
    apply g_catch; [apply g_emit|]. intros e. destruct (is_exception e); [by apply g_ret|apply g_raise].
  - intros []. by apply g_ret.
Qed.
Lemma g_unless_stopped {A} P (f : Update → A) (body : M Node Exn A) Q :
  Lasting P → (∀ u s, P s → Q (f u) s) → guided X P body Q → guided X P (unless_stopped f body) Q.
Proof using Hemit.
  intros HP Hf Hb. unfold unless_stopped. eapply g_bind; [apply (g_keep P _ HP g_stop)|].
  intros [u|]; [apply g_ret; auto|done].
Qed.

Lemma g_ask_approval ctx definition c ordinal :
  guided X (λ _, True) (ask_approval ctx definition c ordinal)
    (λ o s, ∀ a, o = Some a → since (ap_id a) a s ∧ named_for graph_run definition c ordinal a).
Proof using Hdraw.
  unfold ask_approval. apply g_catch.
  - eapply g_bind.
    + apply (g_tx _ (λ a d, approvals d !! ap_id a = Some a ∧ named_for graph_run definition c ordinal a)).
      * apply ev_create_or_get; [apply _|apply Hdraw].
      * intros d a d' Hk E. by eapply create_names.
    + intros a. apply g_ret. intros s [Ha Hn] a' [= <-]. split; [|done]. by exists a.
  - intros []; try apply g_raise. by apply g_ret.
Qed.

Lemma g_resume definition c ordinal a i l :
  tool_definitions (pc_name c) = Some definition → decide_policy definition = REQUIRE_APPROVAL →
  named_for graph_run definition c ordinal a →
  guided X (since (ap_id a) a) (resume_approval definition a i l)
    (λ v s, ∀ j, v = Act j → granted c ordinal j s).
Proof using Hemit.
  intros Hd Hp Hn. unfold resume_approval. destruct (uuid_of_text _) as [u|]; [|apply g_raise].
  unfold raise_if. destruct (N.eqb_spec u (ap_id a)) as [->|]; cbn [negb]; [|].
  2:{ eapply g_bind; [apply (g_raise _ _ (λ _ _, False))|]. intros [] s r s' _ []. }
  eapply (g_bind _ _ _ (λ _, since (ap_id a) a)); [by apply g_ret|]. intros [].
  eapply (g_bind _ _ _ (λ _, since (ap_id a) a)).
  { destruct (negb _); [apply g_raise|by apply g_ret]. }
  intros []. eapply g_bind; [apply (g_keep _ _ _ g_context)|]. intros ctx.
  eapply g_bind.
  { eapply g_conseq; [apply (g_frame (since (ap_id a) a) (λ _, True))|done|intros b s H; exact H].
    - apply _.
    - apply (g_tx _ (λ b d, approvals d !! ap_id a = Some b)); [apply _|].
      intros d b d' _ Hl. by apply load_resume_inv in Hl as (? & _ & _ & ->). }
  intros b. eapply (g_bind _ _ _ (λ _ s, approvals (tables s) !! ap_id a = Some b ∧ ap_id b = ap_id a ∧
    ap_run_id b = run_id graph_run ∧ ap_agent_version_id b = run_agent_version_id graph_run ∧
    ap_tool_identity b = td_identity definition ∧
    ap_tool_revision_id b = Some (td_revision_id definition) ∧
    named_for graph_run definition c ordinal b)).
  { destruct (negb _) eqn:Eb; [apply g_raise|]. apply g_ret. intros s ((b' & Hb' & Hle) & Hb).
    assert (b' = b) as -> by congruence. apply negb_false_iff in Eb.
    rewrite !andb_true_iff, !bool_decide_eq_true, !N.eqb_eq in Eb.
    destruct Eb as [[[??]?]?]. pose proof (le_static _ _ Hle) as Est. unfold ap_static in Est.
    split_and!; try done; [congruence|]. by eapply named_same. }
  intros [].
  eapply (g_bind _ _ _ (λ _ s, ap_decision_status b ≠ APPROVED ∨ granted c ordinal (ap_id b) s)).
  { eapply g_conseq; [apply (g_keep (λ s, ap_decision_status b ≠ APPROVED ∨ granted c ordinal (ap_id b) s)
      _ _ (g_emit _))| |done].
    intros s (Hb & Hid & Hrest). destruct (decide (ap_decision_status b = APPROVED)); [right|by left].
    exists definition, b. rewrite Hid. tauto. }
  intros []. apply g_ret. intros s Hg j. destruct (ap_decision_status b) eqn:Ed; intros [= <-].
  by destruct Hg.
Qed.

Lemma g_judge n index k c :
  guided X (λ _, True) (judge n index k c)
    (λ v s, ∀ j, v = Act j → granted c (n * 1000 + Z.of_nat index) j s).
Proof using Hemit Hdraw.
  unfold judge. destruct (pc_invalid c); [by apply g_ret|].
  destruct (tool_definitions (pc_name c)) as [definition|] eqn:Hd; [|by apply g_ret].
  destruct (decide_policy definition) eqn:Hp; [by apply g_ret|].
  unfold request_approval. destruct (negb can_ask).
  { eapply g_bind; [apply g_step|]. intros []. by apply g_ret. }
  eapply g_bind; [apply g_context|]. intros ctx.
  eapply g_bind; [apply g_ask_approval|]. intros [a|].
  2:{ eapply (g_bind _ _ _ (λ _ _, True)); [|intros []; by apply g_ret].
      eapply g_conseq; [apply g_step|done..]. }
  set (F := λ s, since (ap_id a) a s ∧ named_for graph_run definition c (n * 1000 + Z.of_nat index) a).
  eapply (g_bind _ _ _ (λ _, F)).
  { eapply g_conseq; [apply (g_keep F _ _ (g_step _ _ _))| |done]. intros s H. by apply H. }
  intros []. eapply (g_bind _ _ _ (λ _, F)); [apply (g_keep F _ _ (g_emit _))|]. intros [].
  destruct (interrupted k) as [[|i l]|]; [by apply g_ret| |by apply g_ret].
  intros s r s' Hr [Hs Hn]. eapply g_resume; eauto.
Qed.

(** The actions collected so far belong to calls of [all] before [index]. *)
Definition belongs (n : Z) (all : list Proposed) (item : ActionCall) (s : Node) : Prop :=
  ∃ index c, all !! index = Some c ∧ ac_tool_call_id item = pc_tool_call_id c ∧
    ac_name item = pc_name c ∧ granted c (n * 1000 + Z.of_nat index) (ac_approval_id item) s.
#[local] Instance lasting_belongs n all item : Lasting (belongs n all item).
Proof using Type.
  intros s s' He (index & c & ? & ? & ? & Hg). exists index, c. split_and!; try done.
  by eapply lasting_granted.
Qed.

Lemma g_sort_calls n all calls index k o :
  calls = drop index all →
  guided X (λ s, Forall (λ x, belongs n all x s) (so_actions o)) (sort_calls n index k calls o)
    (λ p s, ∀ o', p = Sorted_calls o' → Forall (λ x, belongs n all x s) (so_actions o')).
Proof using Hemit Hdraw.
  revert index k o. induction calls as [|c calls IH]; intros index k o Ec; cbn [sort_calls].
  { apply g_ret. by intros s H o' [= <-]. }
  assert (all !! index = Some c) as Hi.
  { rewrite <- (Nat.add_0_r index), <- lookup_drop, <- Ec. done. }
  assert (calls = drop (S index) all) as Ec'.
  { change (S index) with (1 + index)%nat. rewrite Nat.add_comm, <- drop_drop, <- Ec. done. }
  eapply g_bind.
  { eapply g_conseq; [apply (g_frame (λ s, Forall (λ x, belongs n all x s) (so_actions o))
      _ _ _ _ (g_judge n index k c))|done|intros v s H; exact H]. }
  intros [|r|i|u|a]; try (eapply g_conseq; [by apply IH| |done]; by intros s [H _]);
    try (apply g_ret; done).
  eapply g_conseq; [by apply IH| |done]. intros s [H Hg]. cbn [act so_actions].
  apply Forall_app_2; [done|]. apply Forall_singleton. exists index, c. split_and!; try done.
  by apply Hg.
Qed.

Lemma g_policy st :
  guided X (λ _, True) (policy st)
    (λ o s, ∀ st' x, o = inl st' → x ∈ action_calls (round st') →
      x ∈ action_calls (round st) ∨ belongs (rounds st) (pending_tool_calls (round st)) x s).
Proof using Hemit Hdraw.
  unfold policy. apply g_unless_stopped; [apply _| |].
  { intros u s _ st' x [= <-]. cbn. destruct (up_actions_done u); [|by left].
    by intros ?%not_elem_of_nil. }
  set (n := model_round_count (conv st)). set (all := pending_tool_calls (round st)).
  eapply (g_bind _ _ _ (λ p s, (∀ u, p = Ended u → benign u) ∧
    ∀ o', p = Sorted_calls o' → Forall (λ x, belongs n all x s) (so_actions o'))).
  { intros s r s' Hr _ E. destruct (g_sort_calls n all all 0 0 {| so_allowed := []; so_actions := [];
      so_pre := [] |} eq_refl s r s' Hr (Forall_nil_2 _) E) as [Hg HQ].
    split; [done|]. intros p ->. split; [|by apply HQ]. by eapply sort_calls_returns. }
  intros [o|u|a].
  - eapply (g_bind _ _ _ (λ _ s, Forall (λ x, belongs n all x s) (so_actions o))).
    { eapply g_conseq; [apply (g_keep (λ s, Forall (λ x, belongs n all x s) (so_actions o)) _ _
        (g_step _ _ _))| |done]. intros s [_ H]. by apply H. }
    intros []. apply g_ret. intros s Hf st' x [= <-] Hx. right. rewrite Forall_forall in Hf. by apply Hf.
  - apply g_ret. intros s [Hb _] st' x [= <-]. destruct (Hb u eq_refl st) as [_ ->]. by left.
  - by apply g_ret.
Qed.

(** ** The action node *)

Context (Hauth : ∀ c r, Evolving ap_le (authoritative c r)).
Context (Hexec : ∀ c def args key, Evolving ap_le (runtime_execute registry c def args key)).

Lemma g_stop_update c : guided X (λ _, True) (_stop_if_requested graph_run c) (λ _ _, True).
Proof using Type.
  unfold _stop_if_requested. eapply g_bind; [apply g_status|]. intros st. by apply g_ret.
Qed.
Lemma g_refresh c : guided X (λ _, True) (refresh graph_run authoritative c) (λ _ _, True).
Proof using Hauth.
  unfold refresh. apply g_catch.
  - eapply g_bind; [apply g_tx_any, Hauth|]. intros c'. eapply g_bind; [by apply g_local|].
    intros []. by apply g_ret.
  - intros []; try apply g_raise. destruct (bool_decide _); [by apply g_ret|apply g_raise].
Qed.
Lemma g_hand_over a h :
  X (ho_approval h) → guided X (λ _, True) (hand_over registry a h) (λ _ _, True).
Proof using Hexec.
  intros HX. unfold hand_over.
  eapply g_bind; [eapply g_attempt, g_tx_any, Hexec|]. intros o.
  eapply (g_bind _ _ _ (λ _ _, True)).
  - intros s r s' _ _ [= <- <-]. split; [|intros ? _; exact I]. split; cbn; [|intros _; reflexivity|].
    + intros [H1 H2]. by split.
    + intros j b [Hin|Hin]%elem_of_app; [by left|].
      apply list_elem_of_singleton in Hin as [= -> ->]. by right.
  - intros []. destruct o; [by apply g_ret|apply g_raise].
Qed.
Lemma g_item item p :
  X (ac_approval_id item) →
  guided X (λ _, True)
    (execute_item graph_run registry authoritative tool_definitions clock item p) (λ _ _, True).
Proof using Hauth Hexec.
  intros HX. unfold execute_item. eapply g_bind; [apply g_stop_update|].
  intros [u|]; [by apply g_ret|]. eapply g_bind; [apply g_tx_any, _|]. intros approval.
  destruct (terminal_execution _).
  { destruct (bool_decide _); by apply g_ret. }
  unfold claim_and_run. destruct (tool_definitions (ac_name item)) as [definition|]; [|apply g_raise].
  eapply g_bind; [apply g_refresh|]. intros [c|]; [|by apply g_ret].
  destruct (_ || _); [by apply g_ret|]. eapply g_bind; [apply g_tx_any, _|]. intros [claimed|].
  - unfold run_claimed. eapply g_bind; [apply g_refresh|]. intros [c'|]; [|by apply g_ret].
    destruct (negb _); [by apply g_ret|]. eapply g_bind; [by apply g_hand_over|]. intros result. cbv zeta.
    eapply g_bind; [apply g_settle, _|]. intros completed. cbv zeta.
    destruct (ar_status result); by apply g_ret.
  - eapply g_bind; [apply g_tx_any, _|]. intros current. destruct (terminal_execution _); by apply g_ret.
Qed.
Lemma g_items items p :
  (∀ item, item ∈ items → X (ac_approval_id item)) →
  guided X (λ _, True)
    (execute_items graph_run registry authoritative tool_definitions clock items p) (λ _ _, True).
Proof using Hauth Hexec.
  revert p. induction items as [|item items IH]; intros p HX; cbn [execute_items]; [by apply g_ret|].
  eapply g_bind; [apply g_item, HX; by left|].
  intros [p'|u]; [apply IH; intros; apply HX; by right|by apply g_ret].
Qed.
Lemma g_action_node c items :
  (∀ item, item ∈ items → X (ac_approval_id item)) →
  guided X (λ _, True)
    (action_execute graph_run registry authoritative tool_definitions clock configured c items)
    (λ _ _, True).
Proof using Hauth Hexec.
  intros HX. unfold action_execute. eapply g_bind; [apply g_stop_update|].
  intros [u|]; [by apply g_ret|]. destruct (negb configured); [by apply g_ret|].
  eapply g_bind; [by apply g_items|]. intros [p|u]; [|by apply g_ret].
  eapply g_bind; [apply g_action_step|]. intros []. by apply g_ret.
Qed.
End Policy.

(** ** The theorem *)

(** C2. An executed action is one the model proposed and a human approved as
    proposed.  The policy node sorts the calls of a round, beside arbitrary other
    transactions that move approvals only forward; then the action node runs.
    Whatever it hands to the action runtime is the claimed, approved approval of
    this run and version that was asked for with one particular call of the
    round: its logical action identifier is the one computed from that call's
    canonical arguments and position and from the revision of the published tool
    the call names, a tool that needs approval. *)
Theorem executed_actions_were_proposed `{PyStr} `{Digests} `{SchemaValidator} `{EastAsian}
    `{UnicodeDecimal} `{GraphEnv} st st' s s1 r s2 :
  (∀ e, Evolving ap_le (_emit e)) → (∀ n, others_ok ap_le (dr_other (draw n))) →
  (∀ c u, Evolving ap_le (authoritative c u)) →
  (∀ c def args key, Evolving ap_le (runtime_execute registry c def args key)) →
  store_ok (tables s) → (∀ f, f ∈ coming s → others_ok ap_le f) → calls s = [] →
  action_calls (round st) = [] →
  policy st s = (Return (inl st'), s1) →
  action_execute graph_run registry authoritative tool_definitions clock configured
    (self_context s1) (action_calls (round st')) s1 = (r, s2) →
  ∀ i a, (i, a) ∈ calls s2 →
  ∃ index c definition,
    pending_tool_calls (round st) !! index = Some c ∧
    tool_definitions (pc_name c) = Some definition ∧
    decide_policy definition = REQUIRE_APPROVAL ∧
    ap_decision_status a = APPROVED ∧ ap_execution_status a = CLAIMED ∧
    ap_run_id a = run_id graph_run ∧ ap_agent_version_id a = run_agent_version_id graph_run ∧
    ap_tool_identity a = td_identity definition ∧
    ap_tool_revision_id a = Some (td_revision_id definition) ∧
    named_for graph_run definition c (rounds st * 1000 + Z.of_nat index) a.
Proof.
  intros Hemit Hdraw Hauth Hexec Hok Hco Hnil Hact Ep Ea i a Hin.
  assert (ready s) as Hr by (split; [apply Hok|done]).
  destruct (g_policy Hemit Hdraw (X := λ _, False) st s _ s1 Hr I Ep) as [[Pr Pe Pc] HQ].
  assert (calls s1 = []) as Hnil1.
  { destruct (calls s1) as [|[j b] l] eqn:E; [done|]. destruct (Pc j b) as [Hj|[]]; [by left|].
    rewrite Hnil in Hj. by apply not_elem_of_nil in Hj. }
  assert (node_ok (sent s1) s1) as Hn1.
  { destruct (Pr Hr) as [Hk1 Hc1]. split; [|done|by rewrite Hnil1; intros ?? ?%not_elem_of_nil
      |rewrite Hnil1; apply NoDup_nil_2|exists []; by rewrite app_nil_r, Hnil1].
    exact (evolves_inv ap_le _ _ (Pe Hr) Hok Hk1). }
  destruct (triple_node graph_run registry authoritative tool_definitions clock (sent s1)
    configured _ _ Hauth Hexec s1 r s2 Hn1 (conj Hnil1 eq_refl) Ea) as [[_ _ Hcalls _ _] _].
  destruct (g_action_node (X := λ i, ∃ x, x ∈ action_calls (round st') ∧ ac_approval_id x = i)
    Hauth Hexec _ (action_calls (round st')) (λ x Hx, ex_intro _ x (conj Hx eq_refl))
    s1 r s2 (Pr Hr) I Ea) as [[_ G2 G3] _].
  destruct (G3 i a Hin) as [Hi|(x & Hx & <-)]; [rewrite Hnil1 in Hi; by apply not_elem_of_nil in Hi|].
  destruct (HQ _ eq_refl st' x eq_refl Hx) as [Hx'|(index & c & Hc & _ & _ & Hg)];
    [rewrite Hact in Hx'; by apply not_elem_of_nil in Hx'|].
  apply (lasting_granted _ _ _ _ s2 (G2 (Pr Hr))) in Hg
    as (definition & b & D1 & D2 & Hb & Hd & D3 & D4 & D5 & D6 & D7).
  destruct (Hcalls _ a Hin) as ((b' & Hb' & Hle) & Hcl & Hap). assert (b' = b) as -> by congruence.
  pose proof (le_static _ _ Hle) as Est. unfold ap_static in Est.
  exists index, c, definition. split_and!; try done; try congruence.
  destruct D7 as (w & args & h & F1 & F2). exists w, args, h. split; [done|]. intros d.
  rewrite F2. by replace (ap_logical_action_id a) with (ap_logical_action_id b) by congruence.
Qed.

(** ** Witness *)

#[local] Instance acting_env : GraphEnv :=
  sample_env true (λ k, if (k =? 0)%nat then Some (Mapping (JStr (uuid_str 1002)) None) else None).

(** The first round up to the policy node. *)
Definition at_policy : option (NodeName * AgentRunState * Node) :=
  walk 4 prepare_node first_state start_node.
(** The request is made by another visit that is interrupted, and approved. *)
Definition asked_db : RunStore.Db :=
  match create_or_get 3600 sample_caller 2 5 (Some 3%N) (lit "create_ticket")
          (JObj [(lit "subject", JStr (lit "help"))]) JNull 1002 None 1002 10 10 true id sample_db with
  | (Return _, d) => d
  | (Raise _, d) => d
  end.
Definition decided_db : RunStore.Db :=
  (decide_approval approver 1002 APPROVED None 20 asked_db).2.
Definition resumed_node : Node :=
  {| tables := decided_db; coming := [id]; calls := []; ActionNode.sent := []; ActionNode.found := [];
     node_sequence := 5;
     self_context := sample_caller; cancel_emitted := false |}.
Definition policy_state : AgentRunState :=
  match at_policy with Some (_, st, _) => st | None => first_state end.
Definition sorted_state : AgentRunState * Node :=
  match policy policy_state resumed_node with
  | (Return (inl st), s) => (st, s)
  | (_, s) => (first_state, s)
  end.
Definition executed_node : Node :=
  (action_execute graph_run registry authoritative tool_definitions clock configured
     (self_context sorted_state.2) (action_calls (round sorted_state.1)) sorted_state.2).2.

Lemma decided_db_ok : store_ok decided_db.
Proof.
  assert (store_ok asked_db) as Hok.
  { unfold asked_db. destruct (create_or_get _ _ _ _ _ _ _ _ _ _ _ _ _ _ _ sample_db) as [r d] eqn:E.
    pose proof (ev_create_or_get 3600 ap_le sample_caller 2 5 (Some 3%N) (lit "create_ticket")
      (JObj [(lit "subject", JStr (lit "help"))]) JNull 1002 None 1002 10 10 true id
      (id_ok ap_le) sample_db (proj1 (proj1 sample_db_inv)) r d E) as [He Hk].
    assert (store_ok d) by exact (evolves_inv ap_le _ _ He (proj1 sample_db_inv) Hk).
    by destruct r. }
  unfold decided_db. destruct (decide_approval approver 1002 APPROVED None 20 asked_db) as [r d] eqn:E.
  destruct (ev_decide approver 1002 APPROVED None 20 asked_db (proj1 Hok) r d E) as [He Hk].
  exact (evolves_inv ap_le _ _ He Hok Hk).
Qed.

Lemma executed_actions_were_proposed_witness :
  match calls executed_node with
  | [(i, a)] => i = 1002%N ∧ ∃ index c definition,
      pending_tool_calls (round policy_state) !! index = Some c ∧
      tool_definitions (pc_name c) = Some definition ∧ ap_decision_status a = APPROVED ∧
      named_for graph_run definition c (rounds policy_state * 1000 + Z.of_nat index) a
  | _ => False
  end.
Proof.
  assert ((calls executed_node).*1 = [1002%N]) as Hc by (vm_compute; reflexivity).
  assert (policy policy_state resumed_node = (Return (inl sorted_state.1), sorted_state.2)) as Hp
    by (vm_compute; reflexivity).
  assert (action_calls (round policy_state) = []) as Ha by (vm_compute; reflexivity).
  destruct (action_execute graph_run registry authoritative tool_definitions clock configured
     (self_context sorted_state.2) (action_calls (round sorted_state.1)) sorted_state.2)
    as [r s2] eqn:E.
  assert (executed_node = s2) as Es by (unfold executed_node; rewrite E; reflexivity).
  rewrite Es in Hc |- *. clear Es.
  pose proof (executed_actions_were_proposed policy_state sorted_state.1 resumed_node sorted_state.2 r s2) as Ht.
  destruct (calls s2) as [|[i a] [|]]; [discriminate Hc| |discriminate Hc].
  injection Hc as Hc. split; [exact Hc|].
  destruct Ht with (i := i) (a := a)
    as (index & c & definition & R1 & R2 & _ & R3 & _ & _ & _ & _ & _ & R4).
  - intros e d. apply (ev_pure ap_le); apply _.
  - intros n. apply id_ok, _.
  - intros c u d. apply (ev_pure ap_le); apply _.
  - apply sample_runtime_evolving.
  - apply decided_db_ok.
  - intros f ->%list_elem_of_singleton. apply id_ok, _.
  - reflexivity.
  - exact Ha.
  - exact Hp.
  - exact E.
  - apply list_elem_of_singleton. reflexivity.
  - exists index, c, definition. exact (conj R1 (conj R2 (conj R3 R4))).
Defined.

(** ** Reads beside an action

    The router sends a round with an approved action to [action_execute] only, so
    the read call of the same round is never executed: the tool succeeds whenever
    it is called, yet the model is told that its execution failed. *)
Definition mixed_round : list (option (list N) * option (list N)) :=
  match run_graph 34 policy_node policy_state resumed_node with
  | (Return (Some (Finished st)), _) =>
      (λ m, (tool_call_id m, content m)) <$>
        filter (λ m, role m = role_tool) (messages (conv st))
  | _ => []
  end.
Example reads_beside_action_fail :
  mixed_round !! 0%nat = Some (Some (lit "a"),
    ascii_dump <$> (JObj <$> _bounded_tool_result
      (failure "TOOL_EXECUTION_FAILED" "The tool execution failed.") 100)).
Proof. vm_compute. reflexivity. Qed.
