(* ===== verification/AgentEvidenceProperties.v ===== *)
(** * Evidence stays resolvable through the observation node

    The observation node of [AgentGraph.v] composed with the evidence plans
    and the check of visible evidence that precedes every model call. *)

From stdpp Require Import base gmap list strings sorting.
From Stdlib Require Import ZArith NArith Lia.
From S2P Require Import Prelude.
From S2P Require Import Outcome.
From S2P Require Import RunBudgetLedger.
From S2P Require Import Json.
From S2P Require Import JsonTheory.
From S2P Require Import RunStore.
From S2P Require Import Rbac.
From S2P Require Import Approvals.
From S2P Require Import Reconciliation.
From S2P Require Import Actions.
From S2P Require Import TurnTranscript.
From S2P Require Import RunUsage.
From S2P Require Import RunLifecycle.
From S2P Require Import ActionNode.
From S2P Require Import ContextMetadata.
From S2P Require Import ModelProfiles.
From S2P Require Import ContextPolicyTheory.
From S2P Require Import JsonProjection.
From S2P Require Import JsonProjectionTheory.
From S2P Require Import ContextBudget.
From S2P Require Import ContextMemory.
From S2P Require Import JsonParser.
From S2P Require Import UuidText.
From S2P Require Import ToolObservation.
From S2P Require Import RagEvidence.
From S2P Require Import EvidenceRecords.
From S2P Require Import EvidencePlan.
From S2P Require Import EvidencePlanTheory.
From S2P Require Import EvidencePlanProperties.
From S2P Require Import EvidenceRegistry.
From S2P Require Import AgentGraph.
From S2P Require Import AgentGraphTheory.

Local Open Scope Z_scope.
Local Arguments lit : simpl never.

(** ** The check and a growing registry *)

Section Growth.
Context `{JsonText}.

Lemma resolve_item_grows registry registry' visible item out :
  registry ⊆ registry' → resolve_item registry visible item = Return out →
  resolve_item registry' visible item = Return out ∧
  (dom visible ⊆ dom registry → dom out ⊆ dom registry).
Proof.
  intros Hsub. unfold resolve_item. destruct (registry !! item_id item) as [e|] eqn:E; [|done].
  rewrite (lookup_weaken _ _ _ _ E Hsub). destruct e as [| | | | | |e]; try done.
  destruct (bool_decide _); [done|].
  destruct (field "reference" e) as [| | | | | |reference]; try done.
  destruct (field "record" e) as [| | | | | |record]; try done.
  destruct (source_ok reference record); [|done]. cbn [mbind outcome_bind].
  destruct (expected_item _ _); [|done]. destruct (same _ _); [|done]. intros [= <-]. split; [done|].
  intros Hd. rewrite dom_insert_L. apply elem_of_dom_2 in E. set_solver.
Qed.

(** A loop whose steps agree under both registries. *)
Lemma fold_grows {A} (f g : gmap (list N) json → A → outcome registry_error (gmap (list N) json))
    (D : gset (list N)) l visible out :
  (∀ v x w, f v x = Return w → g v x = Return w ∧ (dom v ⊆ D → dom w ⊆ D)) →
  fold_raise f l visible = Return out →
  fold_raise g l visible = Return out ∧ (dom visible ⊆ D → dom out ⊆ D).
Proof.
  intros Hs. revert visible. induction l as [|x l IH]; intros visible; cbn; [by intros [= <-]|].
  destruct (f visible x) as [w|] eqn:E; [|done]. destruct (Hs _ _ _ E) as [-> Hd].
  intros [? ?]%IH. auto.
Qed.

Lemma resolve_message_grows registry registry' visible m out :
  registry ⊆ registry' → resolve_message registry visible m = Return out →
  resolve_message registry' visible m = Return out ∧
  (dom visible ⊆ dom registry → dom out ⊆ dom registry).
Proof.
  intros Hsub. unfold resolve_message. destruct (_ && _); [|by intros [= <-]].
  destruct (loads _) as [[| | | | | |p]|]; try done; try by intros [= <-].
  destruct (is_text _ _); [|by destruct (bool_decide _); [|intros [= <-]]].
  destruct (escaping _) as [[]|]; try done. cbn [mbind outcome_bind].
  destruct (field "results" p) as [| | | | |results|]; try done.
  apply fold_grows. intros v x w. by apply resolve_item_grows.
Qed.

Lemma visible_grows registry registry' messages out :
  registry ⊆ registry' → visible_evidence_registry messages registry = Return out →
  visible_evidence_registry messages registry' = Return out ∧ dom out ⊆ dom registry.
Proof.
  intros Hsub Hv. unfold visible_evidence_registry in *.
  destruct (fold_grows _ (λ v m, resolve_message registry' v m) (dom registry) _ _ _
              (λ v m w, resolve_message_grows registry registry' v m w Hsub) Hv) as [? Hd].
  split; [done|]. apply Hd. rewrite dom_empty_L. set_solver.
Qed.
End Growth.

(** ** Values that read back *)

Section Sound.
Context `{float_repr_of : FloatText}.

(** A Python value whose text reads back. *)
Definition sound (v : json) : Prop := json_wf v ∧ Forall reads_float (float_texts v).

Lemma sound_arr l : sound (JArr l) ↔ Forall sound l.
Proof.
  unfold sound. rewrite json_wf_arr, Forall_and. apply and_iff_compat_l. cbn.
  induction l as [|v l IH]; cbn; [by rewrite !Forall_nil|]. by rewrite Forall_app, Forall_cons, IH.
Qed.
Lemma sound_obj l : sound (JObj l) ↔ NoDup l.*1 ∧ Forall (λ kv, sound kv.2) l.
Proof.
  unfold sound. rewrite json_wf_obj, Forall_and.
  enough (Forall reads_float (float_texts (JObj l)) ↔ Forall (λ kv, Forall reads_float (float_texts kv.2)) l)
    as -> by tauto.
  cbn. induction l as [|v l IH]; cbn; [by rewrite !Forall_nil|]. by rewrite Forall_app, Forall_cons, IH.
Qed.
Lemma sound_field k l : sound (JObj l) → sound (field k l).
Proof.
  intros [_ Hl]%sound_obj. unfold field. destruct (dict_get (lit k) l) as [v|] eqn:E.
  - apply dict_get_pair in E. rewrite Forall_forall in Hl. exact (Hl _ E).
  - split; [done|constructor].
Qed.
Lemma sound_text s : sound (JStr s).
Proof. split; [done|constructor]. Qed.
Lemma sound_bool b : sound (JBool b).
Proof. split; [done|constructor]. Qed.

Lemma rag_payload_sound records references b :
  Forall (λ d, sound (JObj d)) records → Forall (λ d, sound (JObj d)) references →
  sound (JObj (RagEvidence._payload records references b)).
Proof.
  intros Hr Hf. apply sound_obj. split; [by_keys|]. unfold RagEvidence._payload.
  repeat apply Forall_cons_2; cbn [snd]; try apply sound_text; try apply sound_bool; [|done].
  apply sound_obj. split; [by_keys|].
  repeat apply Forall_cons_2; cbn [snd]; try done; apply sound_arr, Forall_fmap; done.
Qed.

#[local] Existing Instance python_json.

(** A message whose payload is no evidence view changes nothing. *)
Lemma resolve_plain registry visible m p :
  loads (match content m with Some (c :: t) => c :: t | _ => lit "null" end) = Some (JObj p) →
  is_text "rag_view_v1" (field "evidence_format" p) = false → lit "results" ∉ p.*1 →
  resolve_message registry visible m = Return visible.
Proof.
  intros Hl Hf Hr. unfold resolve_message. destruct (_ && _); [|done]. rewrite Hl, Hf.
  by rewrite bool_decide_eq_false_2.
Qed.
Lemma resolve_dumped registry visible m p :
  content m = Some (dump (JObj p)) → sound (JObj p) →
  is_text "rag_view_v1" (field "evidence_format" p) = false → lit "results" ∉ p.*1 →
  resolve_message registry visible m = Return visible.
Proof.
  intros Hc [Hw Hs] Hf Hr. assert (NoDup p.*1) as Hnd by (by apply json_wf_obj in Hw as [? _]).
  apply (resolve_plain _ _ _ (sorted p)).
  - rewrite Hc. exact (loads_dump false (JObj p) Hw Hs).
  - by rewrite sorted_field, text_sorted.
  - by rewrite sorted_keys.
Qed.
End Sound.

Lemma bounded_keys `{EastAsian} r max p :
  _bounded_tool_result r max = Some p →
  (lit "results" ∉ p.*1) ∧ (lit "evidence_format" ∉ p.*1).
Proof.
  unfold _bounded_tool_result. destruct (max <? 0); [done|]. intros H0. apply (inj Some) in H0 as <-.
  unfold preview_result, base_payload, projection, truncated_marker, approval_facts.
  repeat case_match; cbn [fmap list_fmap fst app]; split; by_keys.
Qed.

(** ** One call *)

Section Observation.
Context {py_str_of : PyStr} {digests : Digests} {schemas : SchemaValidator} {wide : EastAsian}
  {decimals : UnicodeDecimal} {env : GraphEnv} {float_repr_of : FloatText}.
#[local] Existing Instance python_json.

(** The result of a call under the name of a retrieval tool: what it returned
    reads back, and each record alone can be checked; the text of any other
    result reads back as its payload. *)
Definition readable (c : Proposed) (r : ToolResult) : Prop :=
  pc_name c ∈ RAG_EVIDENCE_TOOL_IDENTITIES →
  match evidence_tool c r with
  | Some _ =>
      approval_facts r = [] ∧
      ∀ d, tr_data r = Some (JObj d) → sound (JObj d) ∧
        ∀ l record, field "results" d = JArr l → JObj record ∈ l → fits_alone record
  | None => ∀ p, _bounded_tool_result r (rt_max_tool_result_tokens runtime) = Some p →
                 loads (ascii_dump (JObj p)) = Some (sort_json (JObj p))
  end.

(** [new] is what a step registers, and [ms] the messages it adds. *)
Record registers (t t' : Told) (new : list (list N * json)) (ms : list ModelMessage) : Prop := {
  rg_registry : to_registry t' = list_to_map new ∪ to_registry t;
  rg_nodup : NoDup new.*1;
  rg_fresh : ∀ k, k ∈ new.*1 → to_registry t !! k = None;
  rg_compact : to_compact t' = false → new = [] ∧ to_compact t = false;
  rg_resolves : ∀ registry visible, to_registry t' ⊆ registry →
    (∀ k, k ∈ new.*1 → visible !! k = None) →
    fold_raise (λ v m, resolve_message registry v m) ms visible = Return (list_to_map new ∪ visible)
}.

(** A step that registers nothing and shows no view. *)
Lemma registers_nothing t t' m :
  to_registry t' = to_registry t → (to_compact t' = false → to_compact t = false) →
  (∀ registry visible, resolve_message registry visible m = Return visible) →
  registers t t' [] [m].
Proof.
  intros Hr Hc Hm. split; try done.
  - rewrite Hr. symmetry. apply (left_id_L ∅ (∪)).
  - constructor.
  - by intros k ?%not_elem_of_nil.
  - auto.
  - intros registry visible _ _. cbn [fold_raise]. rewrite Hm.
    f_equal. symmetry. apply (left_id_L ∅ (∪)).
Qed.

Lemma compact_plan_cases in_turn wiki budget r t o t' :
  compact_plan in_turn wiki budget r t = Return (o, t') →
  to_compact t' = true ∧
  (o = None ∧ to_registry t' = to_registry t ∨
   ∃ d results refs prefix plan validator shared st, tr_data r = Some (JObj d) ∧
     field "results" d = JArr results ∧
     assemble_evidence_plan (estimator := ApproxTokenEstimator) results refs budget prefix 10 validator shared st
       = Return (Some plan) ∧
     o = Some (payload plan) ∧ to_registry t' = list_to_map (plan_registry plan) ∪ to_registry t ∧
     ∀ k, k ∈ (plan_registry plan).*1 → to_registry t !! k = None).
Proof.
  unfold compact_plan. intros H.
  destruct (_ && _); [|injection H as <- <-; split; [done|by left]].
  destruct (tr_data r) as [[| | | | | |d]|]; try (injection H as <- <-; split; [done|by left]).
  destruct (field "results" d) as [| | | | |results|] eqn:Er; try (injection H as <- <-; split; [done|by left]).
  destruct (field "evidence_refs" d) as [| | | | |refs|]; try (injection H as <- <-; split; [done|by left]).
  destruct (_ <=? 10)%nat; [|injection H as <- <-; split; [done|by left]].
  destruct (assemble_evidence_plan _ _ _ _ _ _ _ _) as [[plan|]|] eqn:Ep; [|injection H as <- <-; split; [done|by left]|done].
  case_bool_decide as Hd; injection H as <- <-; (split; [done|]); [right|by left].
  do 8 eexists. split; [done|]. split; [exact Er|]. split; [exact Ep|].
  split; [done|]. split; [done|]. intros k Hk. apply not_elem_of_dom. intros Hin.
  assert (k ∈ dom (list_to_map (plan_registry plan) : gmap (list N) json) ∩ dom (to_registry t)) as Hboth.
  { apply elem_of_intersection. split; [|done]. rewrite dom_list_to_map_L. by apply elem_of_list_to_set. }
  rewrite Hd in Hboth. by apply elem_of_empty in Hboth.
Qed.

(** The projection of a search result is no evidence view, and reads back. *)
Lemma projected_records_sound r budget p :
  ascii_narrow → (∀ d, tr_data r = Some (JObj d) → sound (JObj d)) →
  project_rag_evidence_payload (estimator := ApproxTokenEstimator)
    (JObj [(lit "status", text (status_value (tr_status r)));
           (lit "trust", text "UNTRUSTED"); (lit "data", default JNull (tr_data r))]) budget
    = Return (Some p) →
  sound (JObj p) ∧ is_text "rag_view_v1" (field "evidence_format" p) = false ∧ lit "results" ∉ p.*1.
Proof.
  intros Hn Hd H. destruct (project_inv _ _ _ Hn H) as (rs & fs & pairs & kept & b & Hl & Hj).
  unfold evidence_lists in Hl. destruct (is_text "SUCCESS" _); [|done].
  change (field "data" _) with (default JNull (tr_data r)) in Hl.
  destruct (tr_data r) as [[| | | | | |d]|]; try done. cbn [default id] in Hl.
  pose proof (sound_field "results" d (Hd d eq_refl)) as Sr.
  pose proof (sound_field "evidence_refs" d (Hd d eq_refl)) as Sf.
  destruct (field "results" d) as [| | | | |rs'|]; try done.
  destruct (field "evidence_refs" d) as [| | | | |fs'|]; try done. injection Hl as -> ->.
  destruct Hj as [E1 E2 _ Hsub _ -> _]. apply sound_arr in Sr, Sf.
  rewrite <- E1 in Sr. rewrite <- E2 in Sf.
  split; [|split; [done|by_keys]].
  rewrite Forall_forall in Sr, Sf. apply rag_payload_sound; apply Forall_fmap, Forall_forall;
    intros x Hx; pose proof (elem_of_sublist _ _ _ Hx Hsub); cbn.
  - by apply Sr, list_elem_of_fmap_2, list_elem_of_fmap_2.
  - by apply Sf, list_elem_of_fmap_2, list_elem_of_fmap_2.
Qed.

Lemma failure_sound : sound (JObj projection_failed).
Proof.
  apply sound_obj. split; [by_keys|].
  repeat apply Forall_cons_2; cbn [snd]; try apply sound_text; try apply sound_bool; done.
Qed.

(** The projected evidence of a retrieval tool. *)
Lemma told_evidence in_turn definition c r t o t' :
  ascii_narrow → pc_name c ∈ RAG_EVIDENCE_TOOL_IDENTITIES →
  (∀ d, tr_data r = Some (JObj d) → sound (JObj d) ∧
     ∀ l record, field "results" d = JArr l → JObj record ∈ l → fits_alone record) →
  project_evidence in_turn definition r t = Return (o, t') →
  ∃ new, registers t t' new [tool_message c (dump (JObj (default projection_failed o)))].
Proof.
  intros Hn Hname Hd H.
  assert (∀ t1, to_registry t1 = to_registry t → (to_compact t1 = false → to_compact t = false) →
    ∃ new, registers t t1 new [tool_message c (dump (JObj projection_failed))]) as Hfailed.
  { intros t1 Hr Hc. exists []. apply registers_nothing; [done..|]. intros registry visible.
    apply (resolve_dumped _ _ _ projection_failed); [done|exact failure_sound|done|by_keys]. }
  unfold project_evidence in H. destruct (_ || _).
  - destruct (compact_plan_cases _ _ _ _ _ _ _ H)
      as (Hc & [[-> Hr]|(d & results & refs & pre & plan & va & sh & st & Hdata & Er & Hplan & -> & Hr & Hf)]).
    { apply Hfailed; [done|by rewrite Hc]. }
    destruct (Hd d Hdata) as [Hs Hfit]. specialize (Hfit results). cbn [default].
    apply (sound_field "results") in Hs. rewrite Er in Hs. apply sound_arr in Hs.
    assert (Forall json_wf results) as Hw by (eapply Forall_impl; [exact Hs|by intros ? [? _]]).
    assert (shows (estimator := ApproxTokenEstimator) (tool_message c (dump (JObj (payload plan)))) plan) as Hshow.
    { split; [done|by eexists|done|]. exists results, refs. do 6 eexists. split; [exact Hplan|]. split; [done|].
      intros record. by apply Hfit. }
    exists (plan_registry plan). split; [done| |done|by rewrite Hc|].
    { destruct (assembled _ _ _ _ _ _ _ _ _ Hw Hplan) as (kept & _ & _ & _ & Hnd & _ & Hper & _).
      rewrite Hper, <- list_fmap_compose. exact Hnd. }
    intros registry visible Hreg Hvis. cbn [fold_raise].
    rewrite (resolve_plan (estimator := ApproxTokenEstimator) _ plan); [done|exact Hshow| |done].
    etrans; [|exact Hreg]. rewrite Hr. apply map_union_subseteq_l.
  - destruct (project_rag_evidence_payload _ _) as [p|] eqn:Hp; [|done]. injection H as <- <-.
    destruct p as [p|]; [|by apply Hfailed]. cbn [default].
    destruct (projected_records_sound r _ p Hn (λ d Hdata, proj1 (Hd d Hdata)) Hp) as (? & ? & ?).
    exists []. apply registers_nothing; [done..|]. intros registry visible. by apply (resolve_dumped _ _ _ p).
Qed.

(** Composing the text leaves the messages alone. *)
Lemma payload_messages in_turn c r t content t' :
  payload_text in_turn c r t = Return (content, t') → to_messages t' = to_messages t.
Proof.
  unfold payload_text. intros H. destruct (evidence_tool c r) as [definition|].
  - apply obind_inv in H as ([o t1] & Hp & H). injection H as _ <-. cbn [snd].
    unfold project_evidence in Hp. destruct (_ || _).
    + unfold compact_plan in Hp. repeat case_match; try done; by injection Hp as _ <-.
    + destruct (project_rag_evidence_payload _ _); [|done]. by injection Hp as _ <-.
  - apply obind_inv in H as (p & _ & H). by injection H as _ <-.
Qed.

Lemma told_one in_turn c r t content t' :
  ascii_narrow → payload_text in_turn c r t = Return (content, t') → readable c r →
  ∃ new, registers t t' new [tool_message c content].
Proof.
  intros Hn H Hr. set (m := tool_message c content).
  destruct (decide (pc_name c ∈ RAG_EVIDENCE_TOOL_IDENTITIES)) as [Hname|Hname].
  2:{ exists []. assert (t' = t) as ->.
      { unfold payload_text in H. destruct (evidence_tool c r) eqn:E.
        - unfold evidence_tool in E. repeat case_match; try done. exfalso.
          rewrite !andb_true_iff, !bool_decide_eq_true in *. naive_solver.
        - apply obind_inv in H as (p & _ & H). by injection H as _ <-. }
      apply registers_nothing; [done..|]. intros registry visible. apply resolve_other. right.
      intros n [= <-]. done. }
  specialize (Hr Hname). unfold payload_text in H. destruct (evidence_tool c r) as [definition|].
  2:{ apply obind_inv in H as (p & Hp%or_raise_inv & H). injection H as <- <-. exists [].
      apply registers_nothing; [done..|]. intros registry visible.
      destruct (bounded_keys _ _ _ Hp) as [H1 H2].
      apply (resolve_plain _ _ _ (sorted p)).
      - cbn. specialize (Hr p Hp). unfold ascii_dump in *. exact Hr.
      - unfold field. rewrite (proj2 (dict_get_None _ _)); [done|by rewrite sorted_keys].
      - by rewrite sorted_keys. }
  destruct Hr as [Hfacts Hdata]. rewrite Hfacts in H.
  apply obind_inv in H as ([o t1] & Hproj & H). cbn [fst snd] in H. injection H as <- <-. cbn [dict_update fold_left].
  exact (told_evidence _ _ _ _ _ _ _ Hn Hname Hdata Hproj).
Qed.
(** ** The round *)

Lemma registers_trans t1 t2 t3 new1 new2 ms1 ms2 :
  registers t1 t2 new1 ms1 → registers t2 t3 new2 ms2 → registers t1 t3 (new1 ++ new2) (ms1 ++ ms2).
Proof.
  intros [R1 N1 F1 C1 V1] [R2 N2 F2 C2 V2].
  assert (∀ k, k ∈ new2.*1 → (k ∉ new1.*1) ∧ to_registry t1 !! k = None) as Hx.
  { intros k Hk. specialize (F2 k Hk). rewrite R1 in F2. apply lookup_union_None in F2 as [F2 ?].
    split; [|done]. by apply not_elem_of_list_to_map. }
  assert (∀ i, i ∈ new1.*1 → i ∉ new2.*1) as Hx' by (intros i H1 H2; by destruct (Hx i H2)).
  assert (∀ v : gmap (list N) json,
    list_to_map new2 ∪ (list_to_map new1 ∪ v) = list_to_map (new1 ++ new2) ∪ v) as Hunion.
  { intros v. rewrite (assoc_L (∪)), list_to_map_app. f_equal. symmetry.
    apply map_union_comm. by apply sources_disjoint. }
  split.
  - by rewrite R2, R1, Hunion.
  - rewrite fmap_app. by apply NoDup_app.
  - intros k. rewrite fmap_app, elem_of_app. intros [?|?]; [by apply F1|by apply Hx].
  - intros [-> [-> ?]%C1]%C2. done.
  - intros registry visible Hreg Hvis. rewrite fold_raise_app, V1.
    + cbn [mbind outcome_bind]. rewrite V2, Hunion; [done|done|]. intros k Hk. apply lookup_union_None.
      split; [by apply not_elem_of_list_to_map, Hx|]. apply Hvis. rewrite fmap_app, elem_of_app. by right.
    + etrans; [|exact Hreg]. rewrite R2. apply map_union_subseteq_r, map_disjoint_spec.
      intros k x y Hx2 Hy. apply elem_of_list_to_map_2, (list_elem_of_fmap_2 fst) in Hx2.
      by rewrite (F2 k Hx2) in Hy.
    + intros k Hk. apply Hvis. rewrite fmap_app, elem_of_app. by left.
Qed.

Lemma observe_calls_registers st calls t t' :
  ascii_narrow → Forall (λ c, readable c (result_for st c)) calls →
  observe_calls st calls t = Return t' →
  ∃ new ms, to_messages t' = to_messages t ++ ms ∧ registers t t' new ms.
Proof.
  intros Hn. revert t. induction calls as [|c calls IH]; intros t Hr H; cbn [observe_calls] in H.
  - injection H as <-. exists [], []. rewrite app_nil_r. split; [done|].
    split; try done; [symmetry; apply (left_id_L ∅ (∪))|constructor|by intros k ?%not_elem_of_nil|].
    intros registry visible _ _. cbn. f_equal. symmetry. apply (left_id_L ∅ (∪)).
  - apply Forall_cons in Hr as [Hc Hr]. apply obind_inv in H as ([content t1] & H1 & H). cbn [fst snd] in H.
    destruct (told_one _ _ _ _ _ _ Hn H1 Hc) as [new1 R1].
    apply IH in H as (new2 & ms2 & Hm & R2); [|done]. cbn [to_messages] in Hm.
    exists (new1 ++ new2), (tool_message c content :: ms2). split.
    + rewrite Hm, <- app_assoc, (payload_messages _ _ _ _ _ _ H1). done.
    + refine (registers_trans _ _ _ _ _ [_] _ _ R2). by destruct R1; split.
Qed.
(** C5. Evidence stays resolvable through the observation node.  Suppose the
    check of visible evidence, which precedes every model call, succeeds before
    the node, and the results of retrieval tools can be read back.  If the node
    returns, there are new sources under identifiers that were free, such that
    the registry grows by exactly these, and the check succeeds again and
    returns exactly what was visible before together with these. *)
Theorem observation_keeps_evidence_resolvable st node st' node' visible :
  ascii_narrow → Forall (λ c, readable c (result_for st c)) (proposed_tool_calls (round st)) →
  visible_evidence_registry (messages (conv st)) (rag_evidence_registry (evidence st)) = Return visible →
  observation st node = (Return st', node') →
  ∃ new : gmap (list N) json, new ##ₘ rag_evidence_registry (evidence st) ∧
    rag_evidence_registry (evidence st') = new ∪ rag_evidence_registry (evidence st) ∧
    visible_evidence_registry (messages (conv st')) (rag_evidence_registry (evidence st'))
      = Return (new ∪ visible).
Proof.
  intros Hn Hr Hv H. unfold observation in H.
  destruct (observe_calls _ _ _) as [t|] eqn:E; [|done].
  apply bind_inv in H as (u & node1 & _ & H). injection H as <- <-.
  apply observe_calls_registers in E as (new & ms & Hm & [R N F C V]); [|done..].
  cbn [to_messages to_registry to_compact app] in Hm, R, F, C. exists (list_to_map new).
  set (R0 := rag_evidence_registry (evidence st)) in *.
  assert (rag_evidence_registry (evidence (observe_round t st)) = to_registry t) as Hreg.
  { cbn. destruct (to_compact t); [done|]. destruct C as [-> _]; [done|].
    rewrite R. symmetry. apply (left_id_L ∅ (∪)). }
  assert (list_to_map new ##ₘ R0) as Hdis.
  { apply map_disjoint_list_to_map_l, Forall_forall. intros e He. apply F. by apply list_elem_of_fmap_2. }
  rewrite Hreg. split; [done|]. split; [exact R|].
  assert (R0 ⊆ to_registry t) as Hsub by (rewrite R; by apply map_union_subseteq_r).
  destruct (visible_grows _ _ _ _ Hsub Hv) as [Hv' Hdom].
  change (messages (conv (observe_round t st))) with (messages (conv st) ++ to_messages t).
  unfold visible_evidence_registry in *. rewrite fold_raise_app, Hv', Hm. cbn [mbind outcome_bind].
  apply V; [done|]. intros k Hk%F. apply not_elem_of_dom. apply not_elem_of_dom in Hk. set_solver.
Qed.
End Observation.

(** ** Witness *)

(** An agent that queried a wiki, which returned a raw and a derived record. *)
Definition wiki_tool : ToolDefinition :=
  {| td_identity := lit "query_wiki"; td_revision_id := 4; td_input_schema := JNull;
     td_effect := READ; td_risk_level := LOW; td_approval_policy := NEVER;
     td_timeout_seconds := 10; td_source_kind := BUILTIN |}.
Definition wiki_env : GraphEnv :=
  let e := sample_env false (λ _, None) in
  {| graph_run := @graph_run e; registry := @registry e; authoritative := @authoritative e;
     tool_definitions := λ n, if bool_decide (n = lit "query_wiki") then Some wiki_tool else None;
     retrieval_config := λ _, []; clock := @clock e;
     runtime := {| max_steps := 3; max_tool_calls := 4; max_identical_calls := 1;
                   max_cost_micro_usd := None; rt_max_tool_result_tokens := 100;
                   rt_max_retrieval_tokens := 4000; summary_enabled := false |};
     streaming := false; can_ask := true; configured := true; has_recorder := false;
     _emit := @_emit e; ask := @ask e; run_tool := @run_tool e; record_calls := @record_calls e;
     interrupted := @interrupted e; draw := @draw e; ttl_seconds := 3600;
     AgentGraph.float_text := λ _, []; prepare := mret; summary := mret |}.
#[local] Existing Instance wiki_env.
#[local] Instance wiki_floats : FloatText := λ t, t.

Definition wiki_data : dict :=
  [(lit "results", JArr sample_records);
   (lit "evidence_refs", JArr [sample_reference "c1"; sample_reference "c2"]);
   (lit "route", text "HYBRID")].
Definition wiki_result : ToolResult :=
  {| tr_status := SUCCESS; tr_data := Some (JObj wiki_data); tr_error_code := None;
     tr_safe_message := None; tr_approval_decision := None; tr_approval_execution := None |}.
Definition wiki_call : Proposed :=
  {| pc_tool_call_id := lit "a"; pc_name := lit "query_wiki"; pc_arguments := [];
     pc_invalid := false; pc_ordinal := 0 |}.
(** A call of a retrieval tool that has no result. *)
Definition failed_call : Proposed :=
  {| pc_tool_call_id := lit "b"; pc_name := lit "search_knowledge"; pc_arguments := [];
     pc_invalid := false; pc_ordinal := 1 |}.
Definition wiki_state : AgentRunState :=
  {| conv := conv first_state;
     round := {| proposed_tool_calls := [wiki_call; failed_call]; pending_tool_calls := []; action_calls := [];
                 identical_call_counts := ∅; tool_call_count := 2; pre_observations := [];
                 executed_observations := [(lit "a", wiki_result)]; tool_observations := [] |};
     fate := fate first_state; evidence := no_retrieval |}.

(** The state the node returns. *)
Definition wiki_observed : AgentRunState :=
  match (observation wiki_state start_node).1 with Return st => st | Raise _ => wiki_state end.

Lemma observation_keeps_evidence_resolvable_witness :
  size (rag_evidence_registry (evidence wiki_observed)) = 2%nat ∧
  visible_evidence_registry (H := python_json) (messages (conv wiki_observed))
      (rag_evidence_registry (evidence wiki_observed))
    = Return (rag_evidence_registry (evidence wiki_observed)).
Proof.
  split; [vm_compute; reflexivity|].
  destruct (observation_keeps_evidence_resolvable wiki_state start_node wiki_observed
              (observation wiki_state start_node).2 ∅) as (new & _ & Hr & Hv).
  - by intros c _.
  - apply Forall_cons_2; [|apply Forall_cons_2; [|done]]; intros _.
    2:{ intros p Hp. vm_compute in Hp. injection Hp as <-. vm_compute. reflexivity. }
    assert (result_for wiki_state wiki_call = wiki_result) as -> by (vm_compute; reflexivity).
    assert (evidence_tool wiki_call wiki_result = Some wiki_tool) as -> by (vm_compute; reflexivity).
    split; [done|]. intros d [= <-]. split.
    + split; [apply wf_check_sound; vm_compute; reflexivity|constructor].
    + intros l record [= <-]. exact (sample_fits record).
  - vm_compute. reflexivity.
  - vm_compute. reflexivity.
  - rewrite Hv. f_equal. exact (eq_sym Hr).
Defined.
